(* ===== verification/_CoqProject ===== *)
-Q . S2P
Prelude.v
Bus.v
Ram.v
HostMem.v
Elf.v
Virtio.v
VirtioProps.v
VirtioDev.v
VirtioDevProps.v
VirtioInv.v
RamBoard.v
VirtioExample.v
RvState.v
RvCsr.v
RvCsrProps.v
RvTrapProps.v
RvFp.v
RvMmu.v
RvFrame.v
RvMmuProps.v
RvWalk.v
RvExec.v
RvCsrRw.v
RvAluProps.v
RvExecC.v
RvExpand.v
RvCompressed.v
RvStep.v
RvPrecise.v
RvFast.v
Clint.v
Plic.v
Uart.v
Htif.v
Pic.v
Pit.v
Gdb.v
Run.v
GdbSession.v
GdbProps.v
Spike.v
RvSafe.v
RvStepProps.v
RvExample.v
SpikeExample.v
X86State.v
X86Flags.v
X86Mem.v
X86Oper.v
X86Seg.v
X86Fpu.v
X86Sys.v
X86Float.v
X86x87.v
X86Simd.v
X86Group.v
X86Op2.v
X86Op.v
X86Step.v
X86Board.v
X86FlagsProps.v
X86Frame.v
X86Keep.v
X86StepProps.v
X86SegProps.v
X86IntProps.v
Lapic.v
Ioapic.v
PcIrq.v
Ps2Kbd.v
Ps2Mouse.v
MsMouse.v
I8042.v
SysBus.v
I8237.v
Fdc.v
FdcProps.v
FdcDisk.v
Cmos.v
CmosProps.v
