(* ===== verification/Prelude.v ===== *)
(** * cemu: a verification library for an interpreting full-system emulator

    cemu (src/src) emulates whole machines: a processor model (riscv64,
    riscv32 or x86) fetches, translates and executes guest instructions
    against a memory bus; the bus decodes addresses to RAM or to device
    callbacks; devices raise interrupt lines that the processor samples; a
    loader puts an image into RAM before the first step; the run loop drives
    the steps and a gdb stub may take over the run.  This library models the
    complete riscv64 and x86 processors, the bus and RAM, the image loader,
    the devices of the riscv boards with the virtio family, the interrupt
    controllers, timers, clock, DMA, floppy and input devices of the PC with
    their wiring, the run loop, the spike board and the gdb stub.

    ** How the parts interact

    One riscv64 step ([RvStep.riscv_step]) samples the timer and takes a ready
    interrupt, then fetches and executes one instruction.  Every memory
    access goes through [RvMmu.RiscvTranslate] (translation cache, page walk,
    PMP) and then either through a host pointer to the RAM page or through
    the bus ([Bus.FindRegion], then the device's callback).  A fault raises
    to the step's landing pad, which performs the architectural trap entry.
    One x86 step ([X86Step.x86_step]) has the same shape: lines are sampled,
    prefixes and one instruction run through segmentation ([X86Oper.seg_use])
    and paging ([X86Mem]), and a raise lands in [X86Step.landing], which
    delivers the exception through [X86Seg.do_int].  Device callbacks may
    drive interrupt lines, which the processor sees in its state.  What sits
    behind the bus is the type class [Ram.BusDevices] with the laws
    [BusDevicesOk]: the processors' theorems are proved against that
    interface, [RamBoard] discharges it for the riscv64 hart and [X86Board]
    is the instance the x86 witnesses run on.  The run loop is
    proved against the class [Run.BoardOps], which [Spike] discharges.

    ** Files

    - [Prelude]: C integers as [Z] with explicit wrap-around, bit operators,
      little-endian byte strings, record updates, shared tactics and hints.
    - [Bus]: bus/bus.c.  Region table, overlap flags, one-entry decode cache,
      RAM page and range queries.
    - [Ram]: mem/ram.c, and the device interface of the bus.
    - [HostMem]: byte-string access to guest RAM through a host pointer.
    - [Elf]: board/elf.c, board/loader.c, cpu/isa/registry.c.
    - [Virtio], [VirtioDev]: device/virtio: the split-queue transport and the
      block, console and input devices; [VirtioProps], [VirtioDevProps],
      [VirtioInv] prove them, [VirtioExample] runs them.
    - [RamBoard]: the concrete board the riscv witnesses run on.
    - [RvState]: riscv.h, cpu.h and step.h: the hart's state and the
      step monad (normal result, raised trap, abort).
    - [RvCsr]: trigger.c and csr.c: debug triggers, CSR file,
      trap entry, interrupt delivery, mret and sret.
    - [RvMmu]: mmu.c: PMP, Sv39/Sv48 walk, translation cache.
    - [RvFp]: fp.c over the Standard Library's SpecFloat.
    - [RvExec], [RvExecC]: exec.c: RV64IMAFDC with Zicsr, Zifencei, Zicbo.
    - [RvStep]: step.c and the gdb register hooks of isa_riscv64.c.
    - [Clint], [Plic], [Uart], [Htif]: the platform devices of the riscv
      boards.  [Pic], [Pit]: the 8259 pair and the 8254 of the PC.
    - [Lapic], [Ioapic]: the APICs with their theorems.
      [PcIrq]: the interrupt wiring of board/x86_min.c: both 8259s, the I/O
      APIC and the local APIC behind one INTR pin.
    - [Ps2Kbd], [Ps2Mouse], [MsMouse], [I8042]: keyboard, mice and the
      keyboard controller with its two interrupt lines.
    - [SysBus]: the image file and guest memory as the PC's storage
      devices see them (byte windows).  [I8237]: the DMA controllers.  [Fdc]:
      the floppy controller; [FdcProps] its protocol, [FdcDisk] a write and a
      read through DMA channel 2 as board/x86_min.c wires it, with
      the concrete PC memory its witnesses run on.
    - [Cmos]: the real-time clock and its calendar; [CmosProps] the chip's
      theorems.
    - [Run]: board/run.c and the emulated clock, with their theorems.
    - [Gdb], [GdbSession]: debug/gdbstub.c, packet layer and sessions;
      [GdbProps] their theorems.
    - [Spike]: board/spike_min.c as main.c starts it; [SpikeExample] runs it.
    - [RvCsrProps], [RvTrapProps], [RvMmuProps], [RvWalk], [RvAluProps],
      [RvExpand], [RvCompressed], [RvCsrRw], [RvFrame], [RvPrecise],
      [RvFast], [RvSafe], [RvStepProps]: theorems about the hart.
    - [RvExample]: a concrete machine, and the witnesses that need one.
    - [X86State]: x86.h, fpu.h and exec.h: the x86 state, its machine record
      and the accessors of the step monad.  [X86Flags]: the flag arithmetic
      of exec.c.  [X86Mem]: debug registers, page walk, translation cache,
      linear accesses.  [X86Oper]: segment checks, ModRM, operands, stack,
      ports.  [X86Seg]: descriptors, gates, task switch, interrupts and
      returns.  [X86Sys]: MSRs, control registers, CPUID.  [X86Fpu],
      [X86Float], [X86x87]: fpu.c and the escape opcodes.  [X86Simd]: MMX and
      SSE.  [X86Group], [X86Op2], [X86Op]: the opcode groups and the two- and
      one-byte maps.  [X86Step]: step.c and isa_x86.c.  [X86Board]: the
      concrete PC the witnesses run on, RAM over the open bus as
      board/x86_min.c maps them.
    - [X86FlagsProps], [X86Frame], [X86Keep], [X86StepProps], [X86SegProps],
      [X86IntProps]: theorems about the x86 processor.  [X86Frame] is the
      frame logic (what an operation may change, raise and abort with),
      [X86Keep] carries it through every operation.

    ** What the theorems show

    - The riscv64 hart as a whole: a step from a well-formed machine always
      ends in a well-formed machine, three places of undefined behaviour
      aside ([RvSafe]); traps are precise
      ([RvPrecise]); the direct host path agrees with the bus path
      ([RvFast]); a compressed instruction is its 32-bit expansion
      ([RvCompressed]).
    - Translation: the walk refines a reference Sv39/Sv48 walk written with
      plain arithmetic ([RvWalk]); the PMP check is the lowest-match rule
      over intervals; what the translation cache remembers ([RvMmuProps]).
    - CSRs and traps: the WARL invariant over all histories up to a write
      outside the PMP configuration array, WARL stability, confinement of S and U writes, permanence of PMP locks, trap
      entry and return as inverses, interrupt selection ([RvCsrProps],
      [RvTrapProps], [RvCsrRw]).
    - Instructions: immediates, products, division, LR/SC, WFI, SFENCE.VMA
      ([RvAluProps], [RvStepProps]).
    - The x86 processor as a whole: from reset every state is one of the C
      types (the x87/SSE block aside); a step outside ring 0 leaves the protected registers alone; the
      landing pad ends ([X86StepProps]); the segment check is exact and
      returns that switch no task never gain privilege ([X86SegProps]); a real-mode interrupt and
      IRET are inverse ([X86IntProps]).
    - x86 arithmetic: results and flags of the add and subtract family
      against integer arithmetic, condition codes as orders, rotates,
      decimal adjustment ([X86FlagsProps]).
    - Bus and memory: decode is smallest match, RAM pages handed out are
      exclusive, RAM is a byte store ([Bus], [Ram]); a loaded ELF image is in
      memory ([Elf]).
    - Devices: the UART's receiver ring refines a queue and its line is the
      level of its enabled sources; PLIC claims; CLINT timer; the 8259's
      priority logic; the 8254's rate; the virtio queue invariant, chain
      copies, block and console contents; HTIF commands.
    - PC interrupts: INTR is up exactly while a controller asks (the 8259
      pair, since it last evaluated its requests), a level
      interrupt is delivered, acknowledged and retired or redelivered
      ([PcIrq]); the local APIC's line, acknowledge, end of interrupt and
      timer deadline ([Lapic]); no level request is lost ([Ioapic]).
    - PC input: what keyboard and mice send is what a driver decodes, one
      interrupt edge per byte ([Ps2Kbd], [Ps2Mouse], [MsMouse], [I8042]).
    - PC storage: a programmed DMA channel moves what it was told ([I8237]);
      what the floppy controller's status and line say of its data register
      over every history inside the drive array, its results drain
      ([FdcProps]); what is written to a floppy is read back
      ([FdcDisk]).
    - PC clock: the calendar is the Gregorian one ([Cmos]); the registers
      read the date and time in every format, the line is the enabled flags,
      the periodic interrupt comes on time ([CmosProps]).
    - Run loop and debugger: the instruction limit ends a run; a continued
      run stops at the first breakpoint; a single step is one pass; packets,
      memory and the target description survive the wire.
    - Where the code falls short of its intent, a theorem says exactly when:
      [csr_oob_exactly], [mip_rmw_latches_wires], [elf_segment_oob],
      [c_fldsp_ungated], [bus_ram_page_top_wraps],
      [plic_priority_write_stale], [chain_cycle_diverges],
      [pic_icw1_stale], [reset_keeps_intr], [mouse_reset_keeps_wrap],
      [mouse_packet_cut], [dma_crosses_page], [dma_count_respends],
      [fdc_drive_oob], [days_month_late], [cmos_set_clock],
      [cmos_alarm_due], [cmos_memory_size].

    ** Conventions

    Integers are [Z]; [wrap w], [u8] to [u64] write the C wrap-around, and
    [rng w v] says that [v] is a [w]-bit value.  Arrays are lists; an index
    outside a C array is a separate outcome ([COob], [LOob], an abort such as
    [OutOfBounds], [CsrIndex] or [NameIndex]), and
    so are a shift by the width or more and a signed overflow in the x86
    model ([ShiftRange], [SignedOverflow]).  Recursion is structural over the
    C loop's own bound (16 PMP entries, 4 page-table levels, 32 regions, the
    header's table sizes) wherever the loop has one.  Loops without a bound in
    the code take fuel and end in [OutOfFuel]: the run loop's passes
    ([run_limit] proves how many are enough), the walk of a virtio chain
    ([chain_cycle_diverges] proves that no number is enough on a cycle), the
    x86 prefix loop, which the code leaves unbounded.  The x86 landing pad
    runs three rounds, which [landing_ends] proves enough; the bit scans run
    the operand's 32 rounds.

    Code outside src and host facilities are type classes: [SoftFloat] (the
    vendored Berkeley library the x87 unit calls), [HostMath] (the host's
    long double functions), [X86Pins] (interrupt acknowledge and clock of the
    board), [HostWords] (the law that a host access reads what was stored),
    [RamWindow] (the addresses of the x86 memory bus that RAM answers),
    [BoardOps] (the board's function pointers), [DiskFile] (an image file on
    the host), [SysBus] with its law [SysRam] (guest memory seen by a device),
    [FdcDma] (the floppy controller's DMA channel).

    ** Not modelled

    riscv32 (the 32-bit counterpart of the riscv64 hart), the chipset, hard
    disks and displays of the PC and the Oberon devices, the text output of
    the debug hub, the host layer (Win32), the wiring of the boards other than
    spike, logging.  Host time is an argument of the device operations.  In
    [RvFp] the host's floating-point unit is SpecFloat: no NaN payloads, and
    rounding modes as the C code selects them. *)

From Stdlib Require Export Btauto.
From stdpp Require Export base numbers list gmap strings.
#[global] Open Scope Z_scope.

(** ** C integer notation

    Machine integers are [Z] values kept in range by explicit wrap-around.
    The operators below spell the C ones; [a &~ b] is C's [a & ~b]. *)

Declare Scope cint_scope.
Delimit Scope cint_scope with cint.
Notation "a .& b" := (Z.land a b) (at level 40, left associativity) : cint_scope.
Notation "a .^ b" := (Z.lxor a b) (at level 50, left associativity) : cint_scope.
Notation "a .| b" := (Z.lor a b) (at level 50, left associativity) : cint_scope.
Notation "a &~ b" := (Z.ldiff a b) (at level 40, left associativity) : cint_scope.
Notation "a .<< n" := (Z.shiftl a n) (at level 39, left associativity) : cint_scope.
Notation "a .>> n" := (Z.shiftr a n) (at level 39, left associativity) : cint_scope.
#[global] Open Scope cint_scope.

(** Conversion to an unsigned type of [w] bits, and the C types in use. *)
Definition wrap (w x : Z) : Z := x mod 2 ^ w.
Abbreviation u8 := (wrap 8).
Abbreviation u16 := (wrap 16).
Abbreviation u32 := (wrap 32).
Abbreviation u64 := (wrap 64).

(** The two's complement reading of an unsigned [w]-bit value: the C casts
    [(int32_t)] and [(int64_t)]. *)
Definition signed (w x : Z) : Z := if x <? 2 ^ (w - 1) then x else x - 2 ^ w.
Abbreviation s32 := (signed 32).
Abbreviation s64 := (signed 64).

(** [if (x & m)]: some bit of the mask is set. *)
Definition tst (x m : Z) : bool := negb (x .& m =? 0).

(** A C truth value. *)
Definition b2z (b : bool) : Z := if b then 1 else 0.

(** [x] is a value of an unsigned type of [w] bits. *)
Definition rng (w x : Z) : Prop := 0 <= x < 2 ^ w.

Lemma rng_wrap w x : 0 <= w -> rng w (wrap w x).
Proof. intros; unfold rng, wrap. apply Z.mod_pos_bound. lia. Qed.

Lemma wrap_small w x : rng w x -> wrap w x = x.
Proof. intros H. apply Z.mod_small, H. Qed.

Lemma rng_wrap_small w k x : 0 <= k <= w -> rng k x -> rng k (wrap w x).
Proof.
  intros ? [? ?]. rewrite wrap_small; [done|].
  assert (2 ^ k <= 2 ^ w) by (apply Z.pow_le_mono_r; lia). unfold rng. lia.
Qed.

Lemma rng_mono w w' x : 0 <= w <= w' -> rng w x -> rng w' x.
Proof. intros ? [? ?]; split; [done|]. assert (2 ^ w <= 2 ^ w') by (apply Z.pow_le_mono_r; lia). lia. Qed.

(** Bitwise characterisation of ranges, from which closure under the C
    operators follows. *)
Lemma rng_testbit w x :
  0 <= w -> rng w x <-> 0 <= x /\ forall n, w <= n -> Z.testbit x n = false.
Proof.
  intros Hw. unfold rng. split.
  - intros [H0 H1]. split; [done|]. intros n Hn.
    destruct (Z.eq_dec x 0) as [->|]; [apply Z.bits_0|].
    apply Z.bits_above_log2; [done|]. apply Z.log2_lt_pow2; [lia|].
    assert (2 ^ w <= 2 ^ n) by (apply Z.pow_le_mono_r; lia). lia.
  - intros [H0 Hb]. split; [done|].
    destruct (Z.eq_dec x 0) as [->|Hx]; [lia|].
    apply Z.log2_lt_pow2; [lia|].
    destruct (Z.lt_ge_cases (Z.log2 x) w) as [|Hge]; [done|].
    specialize (Hb _ Hge). rewrite Z.bit_log2 in Hb; [done|lia].
Qed.

Lemma rng_land_l w x y : 0 <= w -> rng w x -> rng w (x .& y).
Proof.
  intros Hw; rewrite !rng_testbit by done; intros [H0 H]; split; [apply Z.land_nonneg; auto|].
  intros n Hn. rewrite Z.land_spec, H by done. done.
Qed.

Lemma rng_land_r w x y : 0 <= w -> rng w y -> rng w (x .& y).
Proof. intros. rewrite Z.land_comm. by apply rng_land_l. Qed.

Lemma rng_lor w x y : 0 <= w -> rng w x -> rng w y -> rng w (x .| y).
Proof.
  intros Hw; rewrite !rng_testbit by done; intros [? H] [? H']; split; [by apply Z.lor_nonneg|].
  intros n Hn. by rewrite Z.lor_spec, H, H'.
Qed.

Lemma rng_lxor w x y : 0 <= w -> rng w x -> rng w y -> rng w (x .^ y).
Proof.
  intros Hw; rewrite !rng_testbit by done; intros [? H] [? H']; split; [by apply Z.lxor_nonneg|].
  intros n Hn. by rewrite Z.lxor_spec, H, H'.
Qed.

Lemma rng_ldiff w x y : 0 <= w -> rng w x -> rng w (x &~ y).
Proof.
  intros Hw; rewrite !rng_testbit by done; intros [? H]; split; [apply Z.ldiff_nonneg; auto|].
  intros n Hn. by rewrite Z.ldiff_spec, H.
Qed.

Lemma rng_shiftr w x n : 0 <= w -> 0 <= n -> rng w x -> rng w (x .>> n).
Proof.
  intros Hw Hn; rewrite !rng_testbit by done; intros [? H]; split; [by apply Z.shiftr_nonneg|].
  intros m Hm. rewrite Z.shiftr_spec by lia. apply H. lia.
Qed.

Lemma rng_b2z w b : 1 <= w -> rng w (b2z b).
Proof.
  intros. assert (2 ^ 1 <= 2 ^ w) by (apply Z.pow_le_mono_r; lia).
  destruct b; unfold rng, b2z; lia.
Qed.

Lemma rng_land_ones x k w : 0 <= k <= w -> rng w (x .& (2 ^ k - 1)).
Proof.
  intros. replace (2 ^ k - 1) with (Z.ones k) by (rewrite Z.ones_equiv; lia).
  rewrite Z.land_ones by lia. apply (rng_mono k); [lia|]. apply rng_wrap; lia.
Qed.

Create HintDb rng discriminated.
#[export] Hint Resolve rng_wrap rng_wrap_small rng_lor rng_lxor rng_ldiff rng_shiftr rng_b2z rng_land_l rng_land_r : rng.
#[export] Hint Extern 1 (_ <= _) => lia : rng.
#[export] Hint Extern 1 (_ <= _ <= _) => lia : rng.
#[export] Hint Extern 1 (rng _ (Zpos _)) => unfold rng; lia : rng.
#[export] Hint Extern 1 (rng _ Z0) => unfold rng; lia : rng.
#[export] Hint Extern 2 (rng _ ?c) => is_const c; vm_compute; split; [discriminate|reflexivity] : rng.
#[export] Hint Extern 2 (rng _ (Z.pow (Zpos _) (Zpos _))) => unfold rng; lia : rng.
#[export] Hint Extern 2 (rng _ (Z.shiftl (Zpos _) (Zpos _))) => vm_compute; split; [discriminate|reflexivity] : rng.
#[export] Hint Extern 2 (rng _ (Z.shiftl Z0 _)) => rewrite Z.shiftl_0_l; unfold rng; lia : rng.
#[export] Hint Extern 2 (rng _ (if ?b then _ else _)) => destruct b : rng.
Ltac rng := solve [eauto 12 with rng].

(** ** Bit identities *)

Lemma negb_involutive' b : negb (negb b) = b.
Proof. by destruct b. Qed.

Create Rewrite HintDb zbits.
Create Rewrite HintDb zbool.
#[export] Hint Rewrite Z.lor_spec Z.land_spec Z.ldiff_spec Z.lxor_spec Z.bits_0 : zbits.
#[export] Hint Rewrite andb_true_r andb_false_r orb_true_r orb_false_r andb_true_l
  orb_false_l orb_true_l andb_false_l negb_involutive' : zbool.

(** Decide an equality of bitwise expressions over symbolic masks. *)
Ltac zbits :=
  apply Z.bits_inj'; let n := fresh "n" in intros n ?; autorewrite with zbits; btauto.

(** Evaluate [Z.testbit e k] for a bitwise [e] over constants and a numeral [k]. *)
Ltac tb_const :=
  repeat match goal with
  | |- context [Z.testbit ?c ?k] =>
      let b := eval vm_compute in (Z.testbit c k) in
      lazymatch b with true => idtac | false => idtac end;
      change (Z.testbit c k) with b
  end.
Ltac tb := autorewrite with zbits; tb_const; simpl negb; autorewrite with zbool.

Lemma land_pow2 x k : 0 <= k -> x .& 2 ^ k = if Z.testbit x k then 2 ^ k else 0.
Proof.
  intros Hk. apply Z.bits_inj'; intros n Hn. rewrite Z.land_spec, Z.pow2_bits_eqb by done.
  destruct (Z.eqb_spec k n) as [->|Hne].
  - destruct (Z.testbit x n) eqn:E; simpl; rewrite ?Z.pow2_bits_true, ?Z.bits_0 by done; done.
  - rewrite andb_false_r. destruct (Z.testbit x k); rewrite ?Z.bits_0; [|done].
    rewrite Z.pow2_bits_eqb by done. symmetry. by apply Z.eqb_neq.
Qed.

Lemma tst_pow2 x k : 0 <= k -> tst x (2 ^ k) = Z.testbit x k.
Proof.
  intros Hk. unfold tst. rewrite land_pow2 by done. destruct (Z.testbit x k); [|done].
  assert (0 < 2 ^ k) by lia. apply negb_true_iff, Z.eqb_neq. lia.
Qed.

(** Inserting the field [b] under the mask [m], then reading it back. *)
Lemma field_insert a b m : ((a &~ m) .| b) .& m = b .& m.
Proof. zbits. Qed.

Lemma wrap_testbit w x n :
  0 <= w -> Z.testbit (wrap w x) n = (n <? w) && Z.testbit x n.
Proof.
  intros. unfold wrap. destruct (Z.ltb_spec n w).
  - destruct (Z.lt_ge_cases n 0); [rewrite !Z.testbit_neg_r by done; done|].
    by rewrite Z.mod_pow2_bits_low.
  - by rewrite Z.mod_pow2_bits_high by lia.
Qed.

Lemma land_ones_wrap x w : 0 <= w -> x .& (2 ^ w - 1) = wrap w x.
Proof.
  intros. replace (2 ^ w - 1) with (Z.ones w) by (rewrite Z.ones_equiv; lia).
  by apply Z.land_ones.
Qed.

Lemma lor_shiftl_add x y w : 0 <= w -> rng w x -> x .| (y .<< w) = x + y * 2 ^ w.
Proof.
  intros Hw Hx. rewrite <- Z.shiftl_mul_pow2 by done. rewrite <- Z.add_lor_land.
  assert (x .& y .<< w = 0) as ->; [|lia].
  apply Z.bits_inj'; intros n Hn. rewrite Z.land_spec, Z.bits_0, Z.shiftl_spec by done.
  apply rng_testbit in Hx as [_ Hx]; [|done].
  destruct (Z.lt_ge_cases n w).
  - rewrite (Z.testbit_neg_r y) by lia. apply andb_false_r.
  - by rewrite Hx.
Qed.

Lemma testbit_top w x : 0 < w -> rng w x -> Z.testbit x (w - 1) = negb (x <? 2 ^ (w - 1)).
Proof.
  intros Hw [H0 H1]. destruct (Z.ltb_spec x (2 ^ (w - 1))) as [Hlt|Hge]; simpl.
  - assert (rng (w - 1) x) as Hr by (split; done).
    apply rng_testbit in Hr as [_ Hr]; [|lia]. apply Hr; lia.
  - assert (2 ^ w = 2 * 2 ^ (w - 1)) as E by (rewrite <- Z.pow_succ_r by lia; f_equal; lia).
    rewrite Z.testbit_true by lia.
    assert (x / 2 ^ (w - 1) = 1) as ->; [|done].
    symmetry. apply Z.div_unique with (x - 2 ^ (w - 1)); lia.
Qed.

(** The XOR-and-subtract idiom of sign extension is two's complement reading. *)
Lemma lxor_sub_signed w x :
  0 < w -> rng w x -> (x .^ 2 ^ (w - 1)) - 2 ^ (w - 1) = signed w x.
Proof.
  intros Hw Hx. pose proof (Z.add_lxor_2land x (2 ^ (w - 1))) as E.
  rewrite land_pow2, testbit_top in E by (try done; lia).
  assert (2 ^ w = 2 * 2 ^ (w - 1)) by (rewrite <- Z.pow_succ_r by lia; f_equal; lia).
  unfold signed. destruct (x <? 2 ^ (w - 1)); simpl in E; lia.
Qed.

Lemma signed_range w x : 0 < w -> rng w x -> - 2 ^ (w - 1) <= signed w x < 2 ^ (w - 1).
Proof.
  intros Hw [? ?]. assert (2 ^ w = 2 * 2 ^ (w - 1)) by (rewrite <- Z.pow_succ_r by lia; f_equal; lia).
  unfold signed. destruct (Z.ltb_spec x (2 ^ (w - 1))); lia.
Qed.

Lemma wrap_signed w x : 0 < w -> rng w x -> wrap w (signed w x) = x.
Proof.
  intros Hw Hx. unfold signed. destruct (x <? 2 ^ (w - 1)); [by apply wrap_small|].
  unfold wrap. rewrite <- (Z.mod_small x (2 ^ w)) at 2 by apply Hx.
  rewrite <- (Z.mod_add (x - 2 ^ w) 1) by lia. f_equal; lia.
Qed.

Lemma signed_wrap w x : 0 < w -> - 2 ^ (w - 1) <= x < 2 ^ (w - 1) -> signed w (wrap w x) = x.
Proof.
  intros Hw Hx. assert (2 ^ w = 2 * 2 ^ (w - 1)) by (rewrite <- Z.pow_succ_r by lia; f_equal; lia).
  unfold signed, wrap. destruct (Z.lt_ge_cases x 0).
  - assert (x mod 2 ^ w = x + 2 ^ w) as ->.
    { symmetry. apply Z.mod_unique with (-1); lia. }
    destruct (Z.ltb_spec (x + 2 ^ w) (2 ^ (w - 1))); lia.
  - rewrite Z.mod_small by lia. destruct (Z.ltb_spec x (2 ^ (w - 1))); lia.
Qed.

(** ** Record update

    [s <| f := v |>] replaces the field [f].  Every field of a mutable C
    struct gets an [Upd] instance from the struct's eta expansion, so that
    [simpl] evaluates a projection of an updated record. *)
Class Upd {R E : Type} (f : R -> E) := upd : E -> R -> R.
Arguments upd {R E} f {_} _ _ : simpl nomatch.
Notation "s <| f := v |>" := (upd f v s)
  (at level 1, left associativity, f constr at level 200, v constr at level 200,
   format "s <| f  :=  v |>").

Ltac mk_upd eta f :=
  match type of f with ?R -> ?E =>
    let v := fresh "v" in let s := fresh "s" in
    intros v s;
    let b := eval hnf in (eta s) in
    let b' := eval pattern (f s) in b in
    lazymatch b' with ?g _ => let r := eval cbv beta in (g v) in exact r end end.

(** ** Steps that may fault

    A piece of interpreter code runs against a state and either completes,
    unwinds to the step's landing pad with a trap record (the
    [setjmp]/[longjmp] raise channel of cpu/step.c), or ends the process: a
    [Fatal] call, or an operation the C standard leaves undefined.  A loop the C
    code does not bound runs on fuel, and [OutOfFuel] says it was not enough. *)
Record trap_rec := TrapRec { trap_cause : Z; trap_tval : Z; trap_paddr : option Z }.

(** [OutOfBounds] is any access outside a C array; the riscv64 hart's two have names
    of their own: a pmpcfg word past the CSR struct's array ([CsrIndex]) and a
    mnemonic past its table ([NameIndex]). *)
Inductive abort_reason :=
| FatalUnmapped | FatalTriggerDebug | FatalFpKind | FatalTripleFault | OutOfBounds | CsrIndex | NameIndex | SignedOverflow | ShiftRange | OutOfFuel.

Inductive outcome (S A : Type) :=
| Done (a : A) (s : S)
| Raised (t : trap_rec) (s : S)
| Aborted (r : abort_reason).
Arguments Done {S A} a s.
Arguments Raised {S A} t s.
Arguments Aborted {S A} r.

#[export] Instance abort_reason_eq_dec : EqDecision abort_reason.
Proof. solve_decision. Defined.

Definition M (S A : Type) := S -> outcome S A.

Section monad.
Context {S : Type}.

Definition mret' {A} (a : A) : M S A := fun s => Done a s.
Definition mbind' {A B} (m : M S A) (k : A -> M S B) : M S B := fun s =>
  match m s with
  | Done a s' => k a s'
  | Raised t s' => Raised t s'
  | Aborted r => Aborted r
  end.
Definition getS : M S S := fun s => Done s s.
Definition gets {A} (f : S -> A) : M S A := fun s => Done (f s) s.
Definition modify (f : S -> S) : M S unit := fun s => Done tt (f s).
Definition throw {A} (t : trap_rec) : M S A := fun s => Raised t s.
Definition abort {A} (r : abort_reason) : M S A := fun _ => Aborted r.

(** Weakest precondition over the three outcomes. *)
Definition wp {A} (m : M S A) (Q : A -> S -> Prop) (E : trap_rec -> S -> Prop)
    (F : abort_reason -> Prop) (s : S) : Prop :=
  match m s with Done a s' => Q a s' | Raised t s' => E t s' | Aborted r => F r end.

Lemma wp_ret {A} (a : A) Q E F s : Q a s -> wp (mret' a) Q E F s.
Proof. done. Qed.

Lemma wp_bind {A B} (m : M S A) (k : A -> M S B) Q E F s :
  wp m (fun a s' => wp (k a) Q E F s') E F s -> wp (mbind' m k) Q E F s.
Proof. unfold wp, mbind'. by destruct (m s). Qed.

Lemma wp_mono {A} (m : M S A) (Q Q' : A -> S -> Prop) (E E' : trap_rec -> S -> Prop)
    (F F' : abort_reason -> Prop) s :
  (forall a s', Q a s' -> Q' a s') -> (forall t s', E t s' -> E' t s') ->
  (forall r, F r -> F' r) -> wp m Q E F s -> wp m Q' E' F' s.
Proof. unfold wp. intros ? ? ?. destruct (m s); eauto. Qed.

Lemma wp_done {A} (m : M S A) Q E F s a s' :
  wp m Q E F s -> m s = Done a s' -> Q a s'.
Proof. unfold wp. intros H Hm. by rewrite Hm in H. Qed.

Lemma wp_raised {A} (m : M S A) Q E F s t s' :
  wp m Q E F s -> m s = Raised t s' -> E t s'.
Proof. unfold wp. intros H Hm. by rewrite Hm in H. Qed.

(** [mret'] is neutral and [mbind'] associative, pointwise in the state. *)
Lemma mbind_assoc {A B C} (m : M S A) (k : A -> M S B) (h : B -> M S C) s :
  mbind' (mbind' m k) h s = mbind' m (fun a => mbind' (k a) h) s.
Proof. unfold mbind'. by destruct (m s). Qed.
End monad.

Notation "x <- m ;; k" := (mbind' m (fun x => k))
  (at level 100, m at next level, right associativity).
Notation "m ;;; k" := (mbind' m (fun _ => k)) (at level 100, right associativity).
Notation "'when' b 'do' m" := (if b then m else mret' tt) (at level 99, b at level 200, m at level 99).

(** ** C [switch]

    The first case whose label is the scrutinee, else the default. *)
Fixpoint switch {A} (x : Z) (l : list (Z * A)) (d : A) : A :=
  match l with [] => d | (k, a) :: l => if x =? k then a else switch x l d end.

Lemma switch_ind {A} (P : A -> Prop) x l d :
  Forall (fun ka => x = ka.1 -> P ka.2) l -> P d -> P (switch x l d).
Proof.
  intros Hl Hd. induction Hl as [|[k a] l Ha _ IH]; simpl; [done|].
  destruct (Z.eqb_spec x k); auto.
Qed.

(** ** Frame conditions

    [pres R p]: however [p] ends, the states before and after are related by
    the preorder [R].  [on_raise R p]: the same for the raising exits alone. *)
Definition pres {S A} (R : S -> S -> Prop) (p : M S A) : Prop :=
  forall s, wp p (fun _ s' => R s s') (fun _ s' => R s s') (fun _ => True) s.
Definition on_raise {S A} (R : S -> S -> Prop) (p : M S A) : Prop :=
  forall s, wp p (fun _ _ => True) (fun _ s' => R s s') (fun _ => True) s.
Definition no_raise {S A} (p : M S A) : Prop :=
  forall s, wp p (fun _ _ => True) (fun _ _ => False) (fun _ => True) s.

Section frames.
Context {S : Type} (R : S -> S -> Prop) `{!PreOrder R}.

Lemma pres_ret {A} (a : A) : pres R (mret' a).
Proof. intros s. by apply wp_ret. Qed.

Lemma pres_bind {A B} (m : M S A) (k : A -> M S B) :
  pres R m -> (forall a, pres R (k a)) -> pres R (mbind' m k).
Proof.
  intros Hm Hk s. apply wp_bind. eapply wp_mono; [| | |apply Hm]; cbv beta; [|done..].
  intros a s' Hs. eapply wp_mono; [| | |apply Hk]; cbv beta; [intros; by etrans..|done].
Qed.

Lemma pres_gets {A} (f : S -> A) : pres R (gets f).
Proof. intros s. unfold wp, gets. reflexivity. Qed.

Lemma pres_getS : pres R getS.
Proof. intros s. unfold wp, getS. reflexivity. Qed.

Lemma pres_throw {A} t : pres R (throw (A:=A) t).
Proof. intros s. unfold wp, throw. reflexivity. Qed.

Lemma pres_abort {A} r : pres R (abort (A:=A) r).
Proof. intros s. done. Qed.

Lemma pres_modify f : (forall s, R s (f s)) -> pres R (modify f).
Proof. intros Hf s. apply Hf. Qed.

Lemma pres_switch {A} x (l : list (Z * M S A)) d :
  Forall (fun ka => pres R ka.2) l -> pres R d -> pres R (switch x l d).
Proof.
  intros Hl Hd. apply (switch_ind (pres R)); [|done]. eapply Forall_impl; [done|]. auto.
Qed.

Lemma on_raise_pres {A} (p : M S A) : pres R p -> on_raise R p.
Proof. intros H s. eapply wp_mono; [| | |apply H]; done. Qed.

Lemma on_raise_bind {A B} (m : M S A) (k : A -> M S B) :
  pres R m -> (forall a, on_raise R (k a)) -> on_raise R (mbind' m k).
Proof.
  intros Hm Hk s. apply wp_bind. eapply wp_mono; [| | |apply Hm]; cbv beta; [|done..].
  intros a s' Hs. eapply wp_mono; [| | |apply Hk]; cbv beta; [done|intros; by etrans|done].
Qed.

Lemma on_raise_last {A B} (m : M S A) (k : A -> M S B) :
  on_raise R m -> (forall a, no_raise (k a)) -> on_raise R (mbind' m k).
Proof.
  intros Hm Hk s. apply wp_bind. eapply wp_mono; [| | |apply Hm]; cbv beta; [|done..].
  intros a s' _. eapply wp_mono; [| | |apply Hk]; done.
Qed.

Lemma on_raise_no_raise {A} (p : M S A) : no_raise p -> on_raise R p.
Proof. intros H s. eapply wp_mono; [| | |apply H]; done. Qed.

Lemma on_raise_switch {A} x (l : list (Z * M S A)) d :
  Forall (fun ka => on_raise R ka.2) l -> on_raise R d -> on_raise R (switch x l d).
Proof.
  intros Hl Hd. apply (switch_ind (on_raise R)); [|done]. eapply Forall_impl; [done|]. auto.
Qed.
End frames.

(** Running code known by its frame alone. *)
Lemma wp_frame {S A B} (R : S -> S -> Prop) (p : M S A) (k : A -> M S B) Q
    (E : trap_rec -> S -> Prop) (F : abort_reason -> Prop) s :
  pres R p -> (forall a s', R s s' -> wp (k a) Q E F s') ->
  (forall t s', R s s' -> E t s') -> (forall r, F r) -> wp (mbind' p k) Q E F s.
Proof.
  intros Hp Hk HE HF. apply wp_bind. eapply wp_mono; [| | |apply Hp]; cbv beta; auto.
Qed.

Lemma wp_gets {S A B} (f : S -> A) (k : A -> M S B) Q E F s :
  wp (k (f s)) Q E F s -> wp (mbind' (gets f) k) Q E F s.
Proof. done. Qed.

(** Case analysis on what the code at hand branches on. *)
Ltac wp_case := match goal with |- wp (match ?x with _ => _ end) _ _ _ _ => destruct x eqn:? end.

Lemma pres_mono {S A} (R R' : S -> S -> Prop) (p : M S A) :
  (forall s s', R s s' -> R' s s') -> pres R p -> pres R' p.
Proof. intros HR H s. eapply wp_mono; [| | |apply H]; cbv beta; auto. Qed.

Section no_raise.
Context {S : Type}.

Lemma no_raise_ret {A} (a : A) : no_raise (S:=S) (mret' a).
Proof. by intros s. Qed.
Lemma no_raise_gets {A} (f : S -> A) : no_raise (gets f).
Proof. by intros s. Qed.
Lemma no_raise_modify (f : S -> S) : no_raise (modify f).
Proof. by intros s. Qed.
Lemma no_raise_abort {A} r : no_raise (S:=S) (abort (A:=A) r).
Proof. by intros s. Qed.
Lemma no_raise_bind {A B} (m : M S A) (k : A -> M S B) :
  no_raise m -> (forall a, no_raise (k a)) -> no_raise (mbind' m k).
Proof.
  intros Hm Hk s. apply wp_bind. eapply wp_mono; [| | |apply Hm]; cbv beta; [|done..].
  intros a s' _. apply Hk.
Qed.
End no_raise.

(** ** Little-endian byte strings (the [memcpy] of a [uint64_t]) *)
Fixpoint le_bytes (n : nat) (v : Z) : list Z :=
  match n with O => [] | Datatypes.S n => u8 v :: le_bytes n (v .>> 8) end.

Fixpoint le_val (bs : list Z) : Z :=
  match bs with [] => 0 | b :: bs => b .| (le_val bs .<< 8) end.

Lemma length_le_bytes n v : length (le_bytes n v) = n.
Proof. revert v; induction n; intros; simpl; auto. Qed.

Lemma le_bytes_rng n v : Forall (rng 8) (le_bytes n v).
Proof. revert v; induction n; intros; simpl; constructor; rng. Qed.

Lemma le_val_rng bs : Forall (rng 8) bs -> rng (8 * Z.of_nat (length bs)) (le_val bs).
Proof.
  induction 1 as [|b bs Hb _ IH]; simpl; [split; lia|].
  rewrite lor_shiftl_add by (done || lia).
  replace (8 * Z.of_nat (Datatypes.S (length bs))) with (8 + 8 * Z.of_nat (length bs)) by lia.
  unfold rng in *. rewrite Z.pow_add_r by lia. nia.
Qed.

(** Storing the low [n] bytes of [v] and loading them back yields [v]
    truncated to [n] bytes. *)
Lemma le_val_bytes n v : le_val (le_bytes n v) = wrap (8 * Z.of_nat n) v.
Proof.
  revert v; induction n as [|n IH]; intros v; simpl le_bytes; simpl le_val.
  - unfold wrap. by rewrite Z.mod_1_r.
  - rewrite IH, lor_shiftl_add by (rng || lia). unfold wrap.
    replace (8 * Z.of_nat (Datatypes.S n)) with (8 + 8 * Z.of_nat n) by lia.
    rewrite Z.shiftr_div_pow2, Z.pow_add_r by lia. rewrite Z.rem_mul_r by lia. lia.
Qed.

Lemma le_bytes_val bs : Forall (rng 8) bs -> le_bytes (length bs) (le_val bs) = bs.
Proof.
  induction 1 as [|b bs Hb Hbs IH]; simpl; [done|].
  rewrite lor_shiftl_add by (done || lia). f_equal.
  - unfold wrap. rewrite Z.mod_add by lia. by apply Z.mod_small.
  - etransitivity; [|exact IH]. f_equal. rewrite Z.shiftr_div_pow2 by lia.
    rewrite Z.div_add by lia. rewrite Z.div_small by apply Hb. lia.
Qed.

(** ** Arrays

    A fixed-size C array is a list indexed from zero. *)
Definition arr {A} `{Inhabited A} (l : list A) (i : Z) : A := l !!! Z.to_nat i.
Definition arr_set {A} (l : list A) (i : Z) (x : A) : list A := <[Z.to_nat i := x]> l.

Lemma arr_set_eq {A} `{Inhabited A} (l : list A) i x :
  0 <= i < Z.of_nat (length l) -> arr (arr_set l i x) i = x.
Proof. intros. unfold arr, arr_set. apply list_lookup_total_insert_eq. lia. Qed.

Lemma arr_set_ne {A} `{Inhabited A} (l : list A) i j x :
  0 <= i -> 0 <= j -> i <> j -> arr (arr_set l i x) j = arr l j.
Proof. intros. unfold arr, arr_set. apply list_lookup_total_insert_ne. lia. Qed.

Lemma length_arr_set {A} (l : list A) i x : length (arr_set l i x) = length l.
Proof. apply length_insert. Qed.

Lemma Forall_arr_set {A} (P : A -> Prop) (l : list A) i x :
  Forall P l -> P x -> Forall P (arr_set l i x).
Proof. intros. by apply Forall_insert. Qed.

Lemma Forall_arr {A} `{Inhabited A} (P : A -> Prop) (l : list A) i :
  Forall P l -> 0 <= i < Z.of_nat (length l) -> P (arr l i).
Proof. intros HF Hi. unfold arr. eapply Forall_lookup_total_1; [done|]. lia. Qed.

