(* ===== verification/Bus.v ===== *)
(** * The system bus (bus/bus.c)

    An address space is an ordered table of at most 32 regions; overlapping
    regions resolve to the smallest one, and the last non-overlapping match
    is kept as a one-entry lookup cache.  This file models region
    registration, the cached decode, and the page-granular RAM query the
    CPU's translation cache relies on, and proves the optimised lookups equal
    to the plain smallest-match rule. *)

From S2P Require Import Prelude.

(** ** Data *)

(** A pointer into a host allocation: the device that owns the block, and a
    byte offset. *)
Record host_ptr (Dev : Type) := HostPtr { hp_block : Dev; hp_off : Z }.
Arguments HostPtr {Dev}.
Arguments hp_block {Dev}.
Arguments hp_off {Dev}.

Record BusRegion (Ops Dev : Type) := mkRegion {
  r_base : Z;
  r_size : Z;
  r_ops : Ops;
  r_dev : Dev;
  r_overlaps : bool;
  r_host : option (host_ptr Dev);
}.
Arguments mkRegion {Ops Dev}.
Arguments r_base {Ops Dev}.
Arguments r_size {Ops Dev}.
Arguments r_ops {Ops Dev}.
Arguments r_dev {Ops Dev}.
Arguments r_overlaps {Ops Dev}.
Arguments r_host {Ops Dev}.

(** [bus_last] is the cached [BusRegion*]: an index into the table. *)
Record Bus (Ops Dev : Type) := mkBus {
  bus_regions : list (BusRegion Ops Dev);
  bus_last : option nat;
}.
Arguments mkBus {Ops Dev}.
Arguments bus_regions {Ops Dev}.
Arguments bus_last {Ops Dev}.

(** The capacity of the [regions] array. *)
Definition kBusRegions : nat := 32.

Section bus.
Context {Ops Dev : Type} `{!EqDecision Ops, !EqDecision Dev}.
Implicit Types (r a b : BusRegion Ops Dev) (bus : Bus Ops Dev) (rs : list (BusRegion Ops Dev)).

(** ** Operations *)

(** [base + size] in [uint64_t]. *)
Definition r_end r : Z := u64 (r_base r + r_size r).

Definition intersects a b : bool := (r_base a <? r_end b) && (r_base b <? r_end a).

(** The [overlaps] flag of the region at index [i]. *)
Definition overlaps_at rs (i : nat) a : bool :=
  existsb (fun jb => negb (jb.1 =? i)%nat && intersects a jb.2) (zip (seq 0 (length rs)) rs).

Definition RefreshBus bus : Bus Ops Dev :=
  let rs := bus_regions bus in
  mkBus (imap (fun i a => mkRegion (r_base a) (r_size a) (r_ops a) (r_dev a)
                            (overlaps_at rs i a) (r_host a)) rs) None.

(** [None]: the table is full and the emulator stops ([Fatal]). *)
Definition BusAddRegion bus (base size : Z) (ops : Ops) (dev : Dev) : option (Bus Ops Dev) :=
  if (kBusRegions <=? length (bus_regions bus))%nat then None
  else Some (RefreshBus (mkBus (bus_regions bus ++ [mkRegion base size ops dev false None]) (bus_last bus))).

Definition set_host (h : option (host_ptr Dev)) r : BusRegion Ops Dev :=
  mkRegion (r_base r) (r_size r) (r_ops r) (r_dev r) (r_overlaps r) h.

Definition BusAddRamRegion bus (base size : Z) (ops : Ops) (dev : Dev) (host : host_ptr Dev)
    : option (Bus Ops Dev) :=
  bus' ← BusAddRegion bus base size ops dev;
  Some (mkBus (alter (set_host (Some host)) (length (bus_regions bus')-1)%nat (bus_regions bus'))
              (bus_last bus')).

(** Index of the first region of a device. *)
Definition find_dev bus (ops : Ops) (dev : Dev) : option nat :=
  fst <$> list_find (fun r => r_ops r = ops /\ r_dev r = dev) (bus_regions bus).

Definition BusRelocateRegion bus (ops : Ops) (dev : Dev) (base size : Z) : option (Bus Ops Dev) :=
  match find_dev bus ops dev with
  | Some i =>
      Some (RefreshBus (mkBus (alter (fun r => mkRegion base size (r_ops r) (r_dev r)
                                                 (r_overlaps r) (r_host r)) i (bus_regions bus))
                              (bus_last bus)))
  | None => BusAddRegion bus base size ops dev
  end.

Definition BusRemoveRegion bus (ops : Ops) (dev : Dev) : bool * Bus Ops Dev :=
  match find_dev bus ops dev with
  | Some i => (true, RefreshBus (mkBus (delete i (bus_regions bus)) (bus_last bus)))
  | None => (false, bus)
  end.

(** [addr >= base && addr + len <= base + size]. *)
Definition covers r (addr len : Z) : bool :=
  (r_base r <=? addr) && (u64 (addr + len) <=? r_end r).

(** The scan of [FindRegion]: keep the current best unless the region at
    hand covers the access and is strictly smaller. *)
Definition pick_smaller (addr len : Z) (best : option (nat * BusRegion Ops Dev))
    (ir : nat * BusRegion Ops Dev) : option (nat * BusRegion Ops Dev) :=
  if covers ir.2 addr len then
    match best with
    | Some b => if r_size ir.2 <? r_size b.2 then Some ir else best
    | None => Some ir
    end
  else best.

Definition scan_regions rs (addr len : Z) : option (nat * BusRegion Ops Dev) :=
  fold_left (pick_smaller addr len) (zip (seq 0 (length rs)) rs) None.

(** The decode, with the cache it consults and refills. *)
Definition FindRegion bus (addr len : Z) : option (BusRegion Ops Dev) * Bus Ops Dev :=
  if 2 ^ 64 - 1 - addr <? len then (None, bus) else
  let slow :=
    let best := scan_regions (bus_regions bus) addr len in
    (snd <$> best,
     mkBus (bus_regions bus)
       match best with
       | Some (i, r) => if r_overlaps r then None else Some i
       | None => None
       end) in
  match bus_last bus ≫= (bus_regions bus !!.) with
  | Some last =>
      if negb (r_overlaps last) && covers last addr len then (Some last, bus) else slow
  | None => slow
  end.

Definition BusProbe bus (addr len : Z) : option (BusRegion Ops Dev) * Bus Ops Dev :=
  FindRegion bus addr len.

(** The page query of the CPU's translation cache: the host page backing
    [addr], when one RAM region owns every byte of it. *)
Definition page_shared rs (i : nat) (addr : Z) : bool :=
  existsb (fun jo => negb (jo.1 =? i)%nat &&
     (addr <? r_end jo.2) && (r_base jo.2 <? u64 (addr + 4096))) (zip (seq 0 (length rs)) rs).

Definition ram_page_at rs (addr : Z) (ir : nat * BusRegion Ops Dev) : option (host_ptr Dev) :=
  match r_host ir.2 with
  | Some h =>
      if (addr <? r_base ir.2) || (r_end ir.2 <? u64 (addr + 4096)) then None
      else if r_overlaps ir.2 && page_shared rs ir.1 addr then None
      else Some (HostPtr (hp_block h) (hp_off h + (addr - r_base ir.2)))
  | None => None
  end.

Fixpoint first_some {A B} (f : A -> option B) (l : list A) : option B :=
  match l with [] => None | x :: l => match f x with Some y => Some y | None => first_some f l end end.

Definition BusRamPage bus (addr : Z) : option (host_ptr Dev) :=
  if tst addr 4095 then None
  else first_some (ram_page_at (bus_regions bus) addr)
         (zip (seq 0 (length (bus_regions bus))) (bus_regions bus)).

(** The loader's direct window into RAM: the smallest host-backed region
    that covers the range. *)
Definition ram_region bus (addr len : Z) : option (BusRegion Ops Dev) :=
  fold_left (fun best r =>
      if bool_decide (is_Some (r_host r)) && covers r addr len then
        match best with
        | Some b => if r_size r <? r_size b then Some r else best
        | None => Some r
        end
      else best) (bus_regions bus) None.

Definition BusRamRange bus (addr len : Z) : option (host_ptr Dev) :=
  r ← ram_region bus addr len; h ← r_host r; Some (HostPtr (hp_block h) (hp_off h + (addr - r_base r))).
End bus.

(** ** Invariant *)

Section bus_props.
Context {Ops Dev : Type} `{!EqDecision Ops, !EqDecision Dev}.
Implicit Types (r a b : BusRegion Ops Dev) (bus : Bus Ops Dev) (rs : list (BusRegion Ops Dev)).

(** A window that ends below the top of the 64-bit space. *)
Definition region_wf r : Prop :=
  0 <= r_base r /\ 0 <= r_size r /\ r_base r + r_size r < 2 ^ 64.

Record bus_wf bus : Prop := {
  bw_regions : Forall region_wf (bus_regions bus);
  bw_overlaps : forall i r, bus_regions bus !! i = Some r ->
      r_overlaps r = overlaps_at (bus_regions bus) i r;
  bw_last : forall i, bus_last bus = Some i -> (i < length (bus_regions bus))%nat;
}.

Lemma r_end_wf r : region_wf r -> r_end r = r_base r + r_size r.
Proof. intros (?&?&?). unfold r_end. apply wrap_small. unfold rng; lia. Qed.

Lemma elem_of_indexed {A} (l : list A) (i : nat) x :
  In (i, x) (zip (seq 0 (length l)) l) <-> l !! i = Some x.
Proof.
  rewrite <- list_elem_of_In, list_elem_of_lookup. split.
  - intros [k Hk]. apply lookup_zip_Some in Hk as [H1 H2].
    apply lookup_seq in H1 as [? ?]. simpl in *; by subst.
  - intros H. exists i. apply lookup_zip_Some. split; [|done].
    apply lookup_seq. split; [done|]. by apply lookup_lt_Some in H.
Qed.

Lemma overlaps_at_false rs i a :
  overlaps_at rs i a = false ->
  forall j b, rs !! j = Some b -> j <> i -> intersects a b = false.
Proof.
  unfold overlaps_at. intros H j b Hj Hne.
  destruct (intersects a b) eqn:E; [|done].
  assert (Ht : existsb (fun jb => negb (jb.1 =? i)%nat && intersects a jb.2)
                 (zip (seq 0 (length rs)) rs) = true); [|congruence].
  apply existsb_exists. exists (j, b). rewrite elem_of_indexed. split; [done|].
  simpl. rewrite E. apply andb_true_iff. split; [|done].
  apply negb_true_iff. by apply Nat.eqb_neq.
Qed.

(** Two regions covering a common non-empty access intersect. *)
Lemma covers_intersects a b addr len :
  region_wf a -> region_wf b -> 0 <= addr -> 0 < len -> addr + len < 2 ^ 64 ->
  covers a addr len = true -> covers b addr len = true -> intersects a b = true.
Proof.
  intros Ha Hb ? ? ?. unfold covers, intersects.
  rewrite !r_end_wf, wrap_small by (done || (unfold rng; lia)).
  rewrite !andb_true_iff, !Z.leb_le, !Z.ltb_lt. lia.
Qed.

(** ** The scan is the smallest-match rule, first registered on ties *)

Lemma indexed_snoc {A} (l : list A) x :
  zip (seq 0 (length (l ++ [x]))) (l ++ [x]) = zip (seq 0 (length l)) l ++ [(length l, x)].
Proof. rewrite length_app, seq_app. simpl. rewrite zip_with_app; [done|]. by rewrite length_seq. Qed.

Lemma scan_regions_snoc rs r addr len :
  scan_regions (rs ++ [r]) addr len =
  pick_smaller addr len (scan_regions rs addr len) (length rs, r).
Proof. unfold scan_regions. by rewrite indexed_snoc, fold_left_app. Qed.

Lemma scan_regions_spec rs addr len :
  match scan_regions rs addr len with
  | Some (i, r) =>
      rs !! i = Some r /\ covers r addr len = true /\
      forall j r', rs !! j = Some r' -> covers r' addr len = true ->
        r_size r <= r_size r' /\ ((j < i)%nat -> r_size r < r_size r')
  | None => forall j r', rs !! j = Some r' -> covers r' addr len = false
  end.
Proof.
  induction rs as [|r rs IH] using rev_ind; [by intros j r'|].
  rewrite scan_regions_snoc. unfold pick_smaller; simpl.
  destruct (covers r addr len) eqn:Ec; destruct (scan_regions rs addr len) as [[i b]|].
  - destruct IH as (Hi & Hc & Hmin). simpl.
    destruct (Z.ltb_spec (r_size r) (r_size b)) as [Hlt|Hge].
    + split_and!; [by rewrite lookup_app_r, Nat.sub_diag by lia|done|].
      intros j r' Hj Hcj. apply lookup_snoc_Some in Hj as [[? Hj]|[-> <-]]; [|lia].
      destruct (Hmin _ _ Hj Hcj). lia.
    + split_and!; [by apply lookup_app_l_Some|done|].
      intros j r' Hj Hcj. apply lookup_snoc_Some in Hj as [[? Hj]|[-> <-]]; [by eauto|].
      apply lookup_lt_Some in Hi. lia.
  - split_and!; [by rewrite lookup_app_r, Nat.sub_diag by lia|done|].
    intros j r' Hj Hcj. apply lookup_snoc_Some in Hj as [[? Hj]|[-> <-]]; [|lia].
    by rewrite (IH _ _ Hj) in Hcj.
  - destruct IH as (Hi & Hc & Hmin). split_and!; [by apply lookup_app_l_Some|done|].
    intros j r' Hj Hcj. apply lookup_snoc_Some in Hj as [[? Hj]|[-> <-]]; [by eauto|congruence].
  - intros j r' Hj. apply lookup_snoc_Some in Hj as [[? Hj]|[-> <-]]; [by eauto|done].
Qed.

Lemma scan_regions_unique rs i r addr len :
  rs !! i = Some r -> covers r addr len = true ->
  (forall j r', rs !! j = Some r' -> j <> i -> covers r' addr len = false) ->
  scan_regions rs addr len = Some (i, r).
Proof.
  intros Hi Hc Hu. pose proof (scan_regions_spec rs addr len) as H.
  destruct (scan_regions rs addr len) as [[j r']|].
  - destruct H as (Hj & Hcj & _). destruct (decide (j = i)) as [->|Hne]; [by simplify_eq|].
    by rewrite (Hu _ _ Hj Hne) in Hcj.
  - by rewrite (H _ _ Hi) in Hc.
Qed.

Lemma sole_owner bus i r addr len :
  bus_wf bus -> 0 <= addr -> 0 < len -> addr + len < 2 ^ 64 ->
  bus_regions bus !! i = Some r -> r_overlaps r = false -> covers r addr len = true ->
  scan_regions (bus_regions bus) addr len = Some (i, r).
Proof.
  intros Hwf ? ? ? Hi Ho Hc. apply scan_regions_unique; [done..|].
  intros j r' Hj Hne. rewrite (bw_overlaps _ Hwf _ _ Hi) in Ho.
  pose proof (overlaps_at_false _ _ _ Ho _ _ Hj Hne) as Hx.
  pose proof (bw_regions _ Hwf) as HF. rewrite Forall_lookup in HF.
  destruct (covers r' addr len) eqn:E; [|done].
  by rewrite (covers_intersects r r' addr len) in Hx by eauto.
Qed.

(** The plain rule, without the cache. *)
Definition decode_spec bus (addr len : Z) : option (BusRegion Ops Dev) :=
  if 2 ^ 64 - 1 - addr <? len then None
  else snd <$> scan_regions (bus_regions bus) addr len.

Lemma FindRegion_regions bus addr len :
  bus_regions (FindRegion bus addr len).2 = bus_regions bus.
Proof. unfold FindRegion. repeat case_match; done. Qed.

Lemma FindRegion_wf bus addr len : bus_wf bus -> bus_wf (FindRegion bus addr len).2.
Proof.
  intros Hwf. split; rewrite ?FindRegion_regions; [apply Hwf..|].
  intros i. unfold FindRegion.
  pose proof (scan_regions_spec (bus_regions bus) addr len) as Hs.
  destruct (_ <? _); [apply Hwf|].
  destruct (bus_last bus ≫= _) as [last|].
  - destruct (negb _ && _); [apply Hwf|]. simpl. destruct (scan_regions _ _ _) as [[j r]|]; [|done].
    destruct (r_overlaps r); [done|]. intros [= <-]. by eapply lookup_lt_Some, Hs.
  - simpl. destruct (scan_regions _ _ _) as [[j r]|]; [|done].
    destruct (r_overlaps r); [done|]. intros [= <-]. by eapply lookup_lt_Some, Hs.
Qed.

Lemma FindRegion_decode bus addr len :
  bus_wf bus -> 0 <= addr -> 0 < len -> (FindRegion bus addr len).1 = decode_spec bus addr len.
Proof.
  intros Hwf ? ?. unfold FindRegion, decode_spec.
  destruct (Z.ltb_spec (2 ^ 64 - 1 - addr) len); [done|].
  destruct (bus_last bus) as [i|] eqn:El; simpl; [|done].
  destruct (bus_regions bus !! i) as [last|] eqn:Ei; [|done].
  destruct (negb (r_overlaps last) && covers last addr len) eqn:E; [|done].
  apply andb_true_iff in E as [Eo Ec]. apply negb_true_iff in Eo.
  by rewrite (sole_owner bus i last) by (done || lia).
Qed.

(** What the decode guarantees about a hit. *)
Lemma FindRegion_some bus addr len r :
  bus_wf bus -> 0 <= addr -> 0 < len -> (FindRegion bus addr len).1 = Some r ->
  region_wf r /\ r_base r <= addr /\ addr + len <= r_base r + r_size r.
Proof.
  intros Hwf ? ?. rewrite FindRegion_decode by done. unfold decode_spec.
  destruct (Z.ltb_spec (2 ^ 64 - 1 - addr) len); [done|].
  pose proof (scan_regions_spec (bus_regions bus) addr len) as Hs.
  destruct (scan_regions _ _ _) as [[i r']|]; simpl; [|done]. intros [= <-].
  destruct Hs as (Hi & Hc & _). pose proof (bw_regions _ Hwf) as HF.
  rewrite Forall_lookup in HF. specialize (HF _ _ Hi). split; [done|].
  unfold covers in Hc. rewrite r_end_wf, wrap_small in Hc by (done || (unfold rng; lia)).
  rewrite andb_true_iff, !Z.leb_le in Hc. lia.
Qed.

Lemma decode_in bus addr len r :
  bus_wf bus -> 0 <= addr -> 0 < len -> decode_spec bus addr len = Some r ->
  r ∈ bus_regions bus /\ r_base r <= addr /\ addr + len <= r_base r + r_size r.
Proof.
  intros Hwf Ha Hl E. rewrite <- FindRegion_decode in E by done.
  destruct (FindRegion_some bus addr len r) as (_ & ? & ?); [done..|]. split; [|done].
  rewrite FindRegion_decode in E by done. unfold decode_spec in E. case_match; [done|].
  pose proof (scan_regions_spec (bus_regions bus) addr len) as Hs.
  destruct (scan_regions _ _ _) as [[i r']|]; [|done]. injection E as <-.
  destruct Hs as (Hi & _). by eapply list_elem_of_lookup_2.
Qed.

(** ** Registration re-establishes the invariant *)

Lemma intersects_geom a a' b b' :
  r_base a = r_base a' -> r_size a = r_size a' -> r_base b = r_base b' -> r_size b = r_size b' ->
  intersects a b = intersects a' b'.
Proof. unfold intersects, r_end. by intros -> -> -> ->. Qed.

Lemma overlaps_at_geom rs rs' i a a' :
  length rs = length rs' ->
  (forall j b b', rs !! j = Some b -> rs' !! j = Some b' -> r_base b = r_base b' /\ r_size b = r_size b') ->
  r_base a = r_base a' -> r_size a = r_size a' ->
  overlaps_at rs i a = overlaps_at rs' i a'.
Proof.
  intros Hl Hg Hb Hs. apply eq_iff_eq_true. unfold overlaps_at. rewrite !existsb_exists.
  split; intros [[j b] [Hin Hx]]; rewrite elem_of_indexed in Hin; simpl in Hx;
    apply andb_true_iff in Hx as [Hj Hx].
  - destruct (lookup_lt_is_Some_2 rs' j) as [b' Hb']; [apply lookup_lt_Some in Hin; lia|].
    exists (j, b'). rewrite elem_of_indexed. split; [done|]. simpl. rewrite Hj.
    destruct (Hg _ _ _ Hin Hb'). by rewrite <- (intersects_geom a a' b b').
  - destruct (lookup_lt_is_Some_2 rs j) as [b' Hb']; [apply lookup_lt_Some in Hin; lia|].
    exists (j, b'). rewrite elem_of_indexed. split; [done|]. simpl. rewrite Hj.
    destruct (Hg _ _ _ Hb' Hin). by rewrite (intersects_geom a a' b' b).
Qed.

Lemma RefreshBus_lookup bus i r :
  bus_regions (RefreshBus bus) !! i = Some r ->
  exists a, bus_regions bus !! i = Some a /\ r_base r = r_base a /\ r_size r = r_size a /\
    r_ops r = r_ops a /\ r_dev r = r_dev a /\ r_host r = r_host a /\
    r_overlaps r = overlaps_at (bus_regions bus) i a.
Proof.
  simpl. rewrite list_lookup_imap. destruct (bus_regions bus !! i) as [a|] eqn:E; simpl; [|done].
  intros [= <-]. by exists a.
Qed.

Lemma RefreshBus_wf bus : Forall region_wf (bus_regions bus) -> bus_wf (RefreshBus bus).
Proof.
  intros HF. split; [| |done].
  - apply Forall_lookup. intros i r Hi. apply RefreshBus_lookup in Hi as (a & Ha & E1 & E2 & _).
    rewrite Forall_lookup in HF. unfold region_wf. rewrite E1, E2. by apply (HF i).
  - intros i r Hi. pose proof (RefreshBus_lookup _ _ _ Hi) as (a & Ha & E1 & E2 & _ & _ & _ & ->).
    apply overlaps_at_geom; [by simpl; rewrite length_imap| |done..].
    intros j b b' Hb Hb'. apply RefreshBus_lookup in Hb' as (c & Hc & ? & ? & _).
    by simplify_eq.
Qed.

Lemma set_host_wf bus h i :
  bus_wf bus ->
  bus_wf (mkBus (alter (set_host h) i (bus_regions bus)) (bus_last bus)).
Proof.
  intros Hwf.
  assert (Hl : forall j r, alter (set_host h) i (bus_regions bus) !! j = Some r ->
     exists a, bus_regions bus !! j = Some a /\ r_base r = r_base a /\ r_size r = r_size a /\
       r_overlaps r = r_overlaps a).
  { intros j r Hj. destruct (decide (i = j)) as [->|].
    - rewrite list_lookup_alter_eq in Hj. destruct (bus_regions bus !! j) as [a|]; [|done].
      simplify_eq/=. by exists a.
    - rewrite list_lookup_alter_ne in Hj by done. by exists r. }
  split; simpl; [apply Forall_lookup| |].
  - intros j r Hj. apply Hl in Hj as (a & Ha & E1 & E2 & _). pose proof (bw_regions _ Hwf) as HF.
    rewrite Forall_lookup in HF. unfold region_wf. rewrite E1, E2. by apply (HF j).
  - intros j r Hj. pose proof (Hl _ _ Hj) as (a & Ha & E1 & E2 & ->).
    rewrite (bw_overlaps _ Hwf _ _ Ha). apply overlaps_at_geom; [by rewrite length_alter| |done..].
    intros k b b' Hb Hb'. apply Hl in Hb' as (c & Hc & ? & ? & _). by simplify_eq.
  - intros j Hj. rewrite length_alter. by apply Hwf.
Qed.

Lemma covers_wf r addr len :
  region_wf r -> 0 <= addr -> 0 < len -> addr + len < 2 ^ 64 ->
  covers r addr len = true <-> r_base r <= addr /\ addr + len <= r_base r + r_size r.
Proof.
  intros Hr ? ? ?. unfold covers. rewrite r_end_wf, wrap_small by (done || (unfold rng; lia)).
  rewrite andb_true_iff, !Z.leb_le. lia.
Qed.

(** C38: address decode, with its one-entry cache, returns the smallest region containing the access
    (the first of them on ties), and nothing exactly when no region contains it. *)
Theorem bus_find_smallest bus addr len :
  bus_wf bus -> 0 <= addr < 2 ^ 64 -> 0 < len ->
  match (FindRegion bus addr len).1 with
  | Some r => exists i, bus_regions bus !! i = Some r /\
      r_base r <= addr /\ addr + len <= r_base r + r_size r /\
      forall j r', bus_regions bus !! j = Some r' ->
        r_base r' <= addr -> addr + len <= r_base r' + r_size r' ->
        r_size r <= r_size r' /\ ((j < i)%nat -> r_size r < r_size r')
  | None => forall j r', bus_regions bus !! j = Some r' ->
      r_base r' <= addr -> r_base r' + r_size r' < addr + len
  end.
Proof.
  intros Hwf Ha Hl. rewrite FindRegion_decode by (done || lia). unfold decode_spec.
  assert (HF : forall j r', bus_regions bus !! j = Some r' -> region_wf r').
  { pose proof (bw_regions _ Hwf) as HF. by rewrite Forall_lookup in HF. }
  destruct (Z.ltb_spec (2 ^ 64 - 1 - addr) len).
  { intros j r' Hj ?. destruct (HF _ _ Hj). lia. }
  pose proof (scan_regions_spec (bus_regions bus) addr len) as Hs.
  destruct (scan_regions _ _ _) as [[i r]|]; simpl.
  - destruct Hs as (Hi & Hc & Hmin). apply covers_wf in Hc; [|by eauto|lia..].
    exists i. split_and!; [done|lia..|]. intros j r' Hj ? ?.
    apply (Hmin _ _ Hj). apply covers_wf; [by eauto|lia..].
  - intros j r' Hj ?. specialize (Hs _ _ Hj).
    destruct (Z.lt_ge_cases (r_base r' + r_size r') (addr + len)); [done|].
    assert (covers r' addr len = true); [|congruence].
    apply covers_wf; [by eauto|lia..].
Qed.

Lemma first_some_inv {A B} (f : A -> option B) l y :
  first_some f l = Some y -> exists x, In x l /\ f x = Some y.
Proof.
  induction l as [|x l IH]; simpl; [done|]. destruct (f x) eqn:E.
  - intros [= <-]. eauto.
  - intros H. destruct (IH H) as (z & ? & ?); eauto.
Qed.

(** Either no region meets [r] at all, or none meets the page. *)
Lemma page_private bus i r addr j b :
  bus_wf bus -> bus_regions bus !! i = Some r ->
  r_overlaps r && page_shared (bus_regions bus) i addr = false ->
  bus_regions bus !! j = Some b -> j <> i ->
  intersects r b = false \/ ((addr <? r_end b) && (r_base b <? u64 (addr + 4096)) = false).
Proof.
  intros Hwf Hi Hp Hj Hne. apply andb_false_iff in Hp as [Ho|Hp].
  - left. rewrite (bw_overlaps _ Hwf _ _ Hi) in Ho. by eapply overlaps_at_false.
  - right. unfold page_shared in Hp.
    destruct ((addr <? r_end b) && (r_base b <? u64 (addr + 4096))) eqn:E; [|done].
    rewrite <- Hp. symmetry. apply existsb_exists. exists (j, b).
    rewrite elem_of_indexed. split; [done|]. simpl. rewrite <- andb_assoc, E, andb_true_r.
    apply negb_true_iff. by apply Nat.eqb_neq.
Qed.

Lemma BusRamPage_decode bus page h addr len :
  bus_wf bus -> 0 <= page -> page + 4096 < 2 ^ 64 ->
  BusRamPage bus page = Some h ->
  page <= addr -> 0 < len -> addr + len <= page + 4096 ->
  exists r h0, (FindRegion bus addr len).1 = Some r /\ r_host r = Some h0 /\
    hp_block h = hp_block h0 /\ hp_off h + (addr - page) = hp_off h0 + (addr - r_base r).
Proof.
  intros Hwf ? ? Hp ? ? ?. unfold BusRamPage in Hp. destruct (tst page 4095); [done|].
  apply first_some_inv in Hp as ([i r] & Hin & Hr). rewrite elem_of_indexed in Hin.
  unfold ram_page_at in Hr; simpl in Hr. destruct (r_host r) as [h0|] eqn:Eh; [|done].
  destruct (_ || _) eqn:Eb; [done|]. destruct (r_overlaps r && _) eqn:Eo; [done|].
  simplify_eq/=. pose proof (bw_regions _ Hwf) as HF. rewrite Forall_lookup in HF.
  assert (Hr : region_wf r) by eauto.
  apply orb_false_iff in Eb as [Eb1 Eb2]. rewrite r_end_wf, wrap_small in Eb2 by (done || (unfold rng; lia)).
  apply Z.ltb_ge in Eb1, Eb2. exists r, h0. split_and!; [|done|done|lia].
  rewrite FindRegion_decode by (done || lia). unfold decode_spec.
  destruct (Z.ltb_spec (2 ^ 64 - 1 - addr) len); [lia|].
  rewrite (scan_regions_unique _ i r); [done..| |].
  - apply covers_wf; [done|lia..].
  - intros j b Hj Hne. destruct (covers b addr len) eqn:Ec; [|done].
    assert (Hb : region_wf b) by eauto.
    assert (covers r addr len = true) by (apply covers_wf; [done|lia..]).
    destruct (page_private _ _ _ _ _ _ Hwf Hin Eo Hj Hne) as [Hx|Hx].
    + by rewrite (covers_intersects r b addr len) in Hx by (done || lia).
    + apply covers_wf in Ec; [|done|lia..].
      rewrite r_end_wf, wrap_small in Hx by (done || (unfold rng; lia)).
      apply andb_false_iff in Hx as [Hx|Hx]; apply Z.ltb_ge in Hx; lia.
Qed.

(** A host page pointer the bus hands out below the last page is exclusive and exact: every access
    inside the page decodes to one RAM region, and the pointer plus the page offset is that region's
    backing byte. *)
Theorem bus_ram_page_sound bus page h addr len :
  bus_wf bus -> 0 <= page -> page + 4096 < 2 ^ 64 ->
  BusRamPage bus page = Some h ->
  page <= addr -> 0 < len -> addr + len <= page + 4096 ->
  exists r h0, (FindRegion bus addr len).1 = Some r /\ r_host r = Some h0 /\
    hp_block h = hp_block h0 /\ hp_off h + (addr - page) = hp_off h0 + (addr - r_base r).
Proof. apply BusRamPage_decode. Qed.

(** ** Reachable buses *)

Lemma first_some_complete {A B} (f : A -> option B) l x y :
  In x l -> f x = Some y -> exists z, first_some f l = Some z.
Proof.
  induction l as [|a l IH]; simpl; [done|]. intros [->|Hin] E.
  - rewrite E. eauto.
  - destruct (f a); eauto.
Qed.

(** On the last page of the address space the RAM-page query wraps: a RAM region that lies wholly
    below that page (and starts at or below it) is still returned as its host backing, although no
    access there decodes. *)
Theorem bus_ram_page_top_wraps bus r h addr len :
  bus_wf bus -> r ∈ bus_regions bus -> r_host r = Some h -> r_base r <= 2 ^ 64 - 4096 ->
  2 ^ 64 - 4096 <= addr < 2 ^ 64 -> 0 < len -> Forall (fun r => r_base r + r_size r <= 2 ^ 64 - 4096) (bus_regions bus) ->
  (exists p, BusRamPage bus (2 ^ 64 - 4096) = Some p) /\ (FindRegion bus addr len).1 = None.
Proof.
  intros Hwf Hin Hh Hb Ha Hl Htops. apply list_elem_of_lookup_1 in Hin as [i Hi].
  assert (HF : forall j r', bus_regions bus !! j = Some r' -> region_wf r').
  { pose proof (bw_regions _ Hwf) as HF. by rewrite Forall_lookup in HF. }
  assert (Htop : u64 (2 ^ 64 - 4096 + 4096) = 0) by reflexivity. split.
  - unfold BusRamPage. replace (tst (2 ^ 64 - 4096) 4095) with false by reflexivity.
    eapply (first_some_complete _ _ (i, r)); [by apply elem_of_indexed|].
    unfold ram_page_at; simpl. rewrite Hh. change (r_end r <? u64 _) with (r_end r <? u64 (2 ^ 64 - 4096 + 4096)).
    rewrite Htop. pose proof (HF _ _ Hi) as Hr. rewrite r_end_wf by done. destruct Hr as (? & ? & ?).
    destruct (Z.ltb_spec (2 ^ 64 - 4096) (r_base r)), (Z.ltb_spec (r_base r + r_size r) 0); try lia. simpl.
    replace (page_shared _ _ _) with false; [rewrite andb_false_r; reflexivity|].
    apply eq_sym, not_true_iff_false. unfold page_shared. rewrite existsb_exists. intros ([j o] & Ho & Hx). revert Hx. apply elem_of_indexed, HF in Ho as (? & _ & _).
    change (u64 _) with (u64 (2 ^ 64 - 4096 + 4096)). rewrite Htop. simpl.
    destruct (Z.ltb_spec (r_base o) 0); [lia|]. by rewrite andb_false_r.
  - destruct (FindRegion bus addr len).1 as [r'|] eqn:E; [|done]. exfalso.
    rewrite FindRegion_decode in E by (done || lia).
    apply decode_in in E as (Hin' & ? & ?); [|done|lia..].
    rewrite Forall_forall in Htops. specialize (Htops _ Hin'). simpl in Htops. lia.
Qed.

(** A bus as a board builds and reprograms it: starting empty, regions are
    added, moved and removed, and accesses are decoded. *)
Inductive bus_reach : Bus Ops Dev -> Prop :=
| br_empty : bus_reach (mkBus [] None)
| br_add bus bus' base size ops dev :
    bus_reach bus -> 0 <= base -> 0 <= size -> base + size < 2 ^ 64 ->
    BusAddRegion bus base size ops dev = Some bus' -> bus_reach bus'
| br_add_ram bus bus' base size ops dev host :
    bus_reach bus -> 0 <= base -> 0 <= size -> base + size < 2 ^ 64 ->
    BusAddRamRegion bus base size ops dev host = Some bus' -> bus_reach bus'
| br_relocate bus bus' base size ops dev :
    bus_reach bus -> 0 <= base -> 0 <= size -> base + size < 2 ^ 64 ->
    BusRelocateRegion bus ops dev base size = Some bus' -> bus_reach bus'
| br_remove bus ops dev : bus_reach bus -> bus_reach (BusRemoveRegion bus ops dev).2
| br_find bus addr len : bus_reach bus -> bus_reach (FindRegion bus addr len).2.

Definition bus_ok bus : Prop := bus_wf bus /\ (length (bus_regions bus) <= kBusRegions)%nat.

Lemma BusAddRegion_ok bus bus' base size ops dev :
  bus_ok bus -> 0 <= base -> 0 <= size -> base + size < 2 ^ 64 ->
  BusAddRegion bus base size ops dev = Some bus' -> bus_ok bus'.
Proof.
  intros [Hwf Hl] ? ? ?. unfold BusAddRegion. destruct (Nat.leb_spec kBusRegions (length (bus_regions bus))); [done|].
  intros [= <-]. split.
  - apply RefreshBus_wf. simpl. apply Forall_app. split; [apply Hwf|]. by repeat constructor.
  - simpl. rewrite length_imap, length_app. simpl. lia.
Qed.

(** Every bus built by registrations, relocations, removals and lookups has in-range regions,
    correct overlap flags, a decode cache that points into the table and at most 32 regions. *)
Theorem bus_reach_ok bus : bus_reach bus -> bus_ok bus.
Proof.
  induction 1 as [|? ? ? ? ? ? _ IH ? ? ? E|? ? ? ? ? ? ? _ IH ? ? ? E|? ? ? ? ? ? _ IH ? ? ? E|? ? ? _ IH|? ? ? _ IH].
  - split; [|simpl; lia]. split; simpl; [constructor|done|done].
  - eapply BusAddRegion_ok; [exact IH| | | |exact E]; done.
  - unfold BusAddRamRegion in E. destruct (BusAddRegion _ _ _ _ _) as [b'|] eqn:Eb; [|done]. simplify_eq/=.
    eapply BusAddRegion_ok in Eb as [? ?]; [|exact IH|done..].
    split; [by apply set_host_wf|]. simpl. by rewrite length_alter.
  - unfold BusRelocateRegion in E. destruct (find_dev _ _ _) as [i|];
      [|eapply BusAddRegion_ok; [exact IH| | | |exact E]; done].
    destruct IH as [Hwf Hl]. simplify_eq/=. split.
    + apply RefreshBus_wf. simpl. apply Forall_alter; [apply Hwf|]. done.
    + simpl. by rewrite length_imap, length_alter.
  - unfold BusRemoveRegion. destruct IH as [Hwf Hl]. destruct (find_dev _ _ _) as [i|] eqn:Ei; simpl; [|done].
    split.
    + apply RefreshBus_wf. simpl. by apply Forall_delete, Hwf.
    + simpl. rewrite length_imap, length_delete; [lia|].
      unfold find_dev in Ei. apply fmap_Some in Ei as ([k r] & Hf & ->).
      apply list_find_Some in Hf as (? & _). by exists r.
  - destruct IH. split; [by apply FindRegion_wf|]. by rewrite FindRegion_regions.
Qed.
End bus_props.

(** ** A small board: RAM with a device window inside it *)

Definition ex_bus : Bus nat nat :=
  RefreshBus (mkBus [mkRegion 0x80000000 0x8000000 0%nat 0%nat false (Some (HostPtr 0%nat 0));
                     mkRegion 0x80001800 64 1%nat 1%nat false None] None).

Lemma ex_bus_wf : bus_wf ex_bus.
Proof. apply RefreshBus_wf. repeat constructor; simpl; lia. Qed.

Lemma bus_find_smallest_witness :
  exists r, (FindRegion ex_bus 0x80001804 4).1 = Some r /\ r_dev r = 1%nat /\
  exists i, bus_regions ex_bus !! i = Some r.
Proof.
  pose proof (bus_find_smallest ex_bus 0x80001804 4 ex_bus_wf ltac:(lia) ltac:(lia)) as H.
  assert (E : (FindRegion ex_bus 0x80001804 4).1 =
    Some (mkRegion 0x80001800 64 1%nat 1%nat true None)) by (vm_compute; reflexivity).
  rewrite E in H. destruct H as (i & Hi & _).
  exists (mkRegion 0x80001800 64 1%nat 1%nat true None). split; [exact E|].
  split; [reflexivity|]. exists i. exact Hi.
Defined.

Lemma bus_ram_page_sound_witness :
  exists r h0, (FindRegion ex_bus 0x80003008 8).1 = Some r /\ r_host r = Some h0 /\
    0%nat = hp_block h0 /\ 0x3000 + 8 = hp_off h0 + (0x80003008 - r_base r).
Proof.
  exact (bus_ram_page_sound ex_bus 0x80003000 (HostPtr 0%nat 0x3000) 0x80003008 8
    ex_bus_wf ltac:(lia) ltac:(lia) ltac:(vm_compute; reflexivity) ltac:(lia) ltac:(lia) ltac:(lia)).
Defined.

Lemma bus_ram_page_top_wraps_witness :
  (exists p, BusRamPage (RefreshBus (mkBus [mkRegion 0x80000000 0x1000000 0%nat 0%nat false (Some (HostPtr 0%nat 0))] None))
     (2 ^ 64 - 4096) = Some p) /\
  (FindRegion (RefreshBus (mkBus [mkRegion 0x80000000 0x1000000 0%nat 0%nat false (Some (HostPtr 0%nat 0))] None))
     (2 ^ 64 - 4096) 8).1 = None.
Proof.
  apply (bus_ram_page_top_wraps _ (mkRegion 0x80000000 0x1000000 0%nat 0%nat false (Some (HostPtr 0%nat 0)))
    (HostPtr 0%nat 0) (2 ^ 64 - 4096) 8).
  - apply RefreshBus_wf. repeat constructor; simpl; lia.
  - simpl. apply list_elem_of_here.
  - reflexivity.
  - simpl; lia.
  - lia.
  - lia.
  - repeat constructor; simpl; lia.
Defined.

Lemma bus_reach_ok_witness : bus_ok (RefreshBus (mkBus [mkRegion 0x1000 64 0%nat 0%nat false None] None)).
Proof.
  apply bus_reach_ok.
  apply (br_add (mkBus [] None) _ 0x1000 64 0%nat 0%nat br_empty); [lia|lia|lia|reflexivity].
Defined.
