(* ===== verification/Ram.v ===== *)
(** * RAM (mem/ram.c) and the device interface of the bus

    A RAM device is a zero-initialised byte block; its reads and writes are
    little-endian [memcpy]s of up to eight bytes.  The second half states,
    as a type class, what the CPU side assumes of whatever sits behind the
    bus: the [DeviceOps] dispatch, the direct host view of RAM, and the laws
    that tie the two together. *)

From S2P Require Import Prelude Bus.

(** ** Byte blocks *)

(** Bytes never written read as zero ([calloc]). *)
Definition mem_get (m : gmap Z Z) (off : Z) : Z := default 0 (m !! off).

Fixpoint load_bytes (m : gmap Z Z) (off : Z) (n : nat) : list Z :=
  match n with O => [] | S n => mem_get m off :: load_bytes m (off + 1) n end.

Fixpoint store_bytes (m : gmap Z Z) (off : Z) (bs : list Z) : gmap Z Z :=
  match bs with [] => m | b :: bs => store_bytes (<[off := b]> m) (off + 1) bs end.

(** [memcpy] between a [uint64_t] and the block. *)
Definition mem_load (m : gmap Z Z) (off size : Z) : Z := le_val (load_bytes m off (Z.to_nat size)).
Definition mem_store (m : gmap Z Z) (off size v : Z) : gmap Z Z :=
  store_bytes m off (le_bytes (Z.to_nat size) v).

(** ** The device *)

Record RamDevice := mkRam { ram_mem : gmap Z Z; ram_base : Z; ram_size : Z }.

Definition RamCreate (base size : Z) : RamDevice := mkRam ∅ base size.

Definition RamRead (ram : RamDevice) (addr size : Z) : Z :=
  mem_load (ram_mem ram) (u64 (addr - ram_base ram)) size.

Definition RamWrite (ram : RamDevice) (addr size v : Z) : RamDevice :=
  mkRam (mem_store (ram_mem ram) (u64 (addr - ram_base ram)) size v) (ram_base ram) (ram_size ram).

(** Every stored cell is a byte. *)
Definition mem_ok (m : gmap Z Z) : Prop := map_Forall (fun _ b => rng 8 b) m.

Lemma mem_get_rng m off : mem_ok m -> rng 8 (mem_get m off).
Proof.
  intros Hm. unfold mem_get. destruct (m !! off) as [b|] eqn:E; simpl; [by eapply Hm|].
  unfold rng; lia.
Qed.

Lemma length_load_bytes m off n : length (load_bytes m off n) = n.
Proof. revert off; induction n; intros; simpl; auto. Qed.

Lemma load_bytes_rng m off n : mem_ok m -> Forall (rng 8) (load_bytes m off n).
Proof. intros Hm. revert off; induction n; intros; simpl; constructor; auto using mem_get_rng. Qed.

Lemma mem_load_rng m off size : mem_ok m -> 0 <= size -> rng (8 * size) (mem_load m off size).
Proof.
  intros Hm Hs. unfold mem_load.
  pose proof (le_val_rng _ (load_bytes_rng m off (Z.to_nat size) Hm)) as H.
  by rewrite length_load_bytes, Z2Nat.id in H.
Qed.

Lemma mem_get_store m off bs k :
  mem_get (store_bytes m off bs) k =
  if bool_decide (off <= k < off + Z.of_nat (length bs)) then bs !!! Z.to_nat (k - off)
  else mem_get m k.
Proof.
  revert m off; induction bs as [|b bs IH]; intros m off; simpl store_bytes.
  - case_bool_decide; [simpl in *; lia|done].
  - rewrite IH. simpl length. case_bool_decide; case_bool_decide; try lia.
    + replace (Z.to_nat (k - off)) with (S (Z.to_nat (k - (off + 1)))) by lia. done.
    + assert (k = off) as -> by lia. rewrite Z.sub_diag. unfold mem_get.
      by rewrite lookup_insert_eq.
    + unfold mem_get. by rewrite lookup_insert_ne by lia.
Qed.

Lemma store_bytes_ok m off bs : mem_ok m -> Forall (rng 8) bs -> mem_ok (store_bytes m off bs).
Proof.
  intros Hm Hb. revert m off Hm; induction Hb; intros; simpl; [done|].
  apply IHHb. by apply map_Forall_insert_2.
Qed.

Lemma mem_store_ok m off size v : mem_ok m -> mem_ok (mem_store m off size v).
Proof. intros. apply store_bytes_ok; [done|apply le_bytes_rng]. Qed.

Lemma load_bytes_ext m m' off n :
  (forall k, off <= k < off + Z.of_nat n -> mem_get m k = mem_get m' k) ->
  load_bytes m off n = load_bytes m' off n.
Proof.
  revert off; induction n as [|n IH]; intros off H; simpl; [done|].
  f_equal; [apply H; lia|]. apply IH. intros; apply H; lia.
Qed.

Lemma load_store_bytes m off bs : load_bytes (store_bytes m off bs) off (length bs) = bs.
Proof.
  apply list_eq. intros i. revert i.
  assert (G : forall (n : nat) off' i, load_bytes (store_bytes m off bs) off' n !! i =
     if decide (i < n)%nat then Some (mem_get (store_bytes m off bs) (off' + Z.of_nat i)) else None).
  { induction n as [|n IH]; intros off' i; simpl; [by destruct i|].
    destruct i as [|i]; simpl; [by rewrite Z.add_0_r|]. rewrite IH.
    replace (off' + 1 + Z.of_nat i) with (off' + Z.of_nat (S i)) by lia.
    repeat case_decide; (done || lia). }
  intros i. rewrite G, mem_get_store. case_decide.
  - rewrite bool_decide_true by lia. replace (Z.to_nat (off + Z.of_nat i - off)) with i by lia.
    symmetry. by apply list_lookup_lookup_total_lt.
  - symmetry. apply lookup_ge_None. lia.
Qed.

Lemma mem_load_store m off size v :
  0 <= size -> mem_load (mem_store m off size v) off size = wrap (8 * size) v.
Proof.
  intros. unfold mem_load, mem_store.
  rewrite <- (length_le_bytes (Z.to_nat size) v) at 2. rewrite load_store_bytes, le_val_bytes.
  by rewrite Z2Nat.id.
Qed.

Lemma mem_load_store_ne m off size v off' size' :
  0 <= size -> 0 <= size' -> off + size <= off' \/ off' + size' <= off ->
  mem_load (mem_store m off size v) off' size' = mem_load m off' size'.
Proof.
  intros. unfold mem_load, mem_store. f_equal. apply load_bytes_ext.
  intros k Hk. rewrite mem_get_store, length_le_bytes. rewrite bool_decide_false; [done|lia].
Qed.

(** RAM is a byte store: a load returns the value last stored at the same address truncated to the
    access width, and a store leaves every disjoint load unchanged. *)
Theorem ram_read_write ram addr size v addr' size' :
  0 <= size <= 8 -> 0 <= size' <= 8 ->
  ram_base ram <= addr < 2 ^ 64 -> ram_base ram <= addr' < 2 ^ 64 -> 0 <= ram_base ram ->
  RamRead (RamWrite ram addr size v) addr size = wrap (8 * size) v /\
  (addr + size <= addr' \/ addr' + size' <= addr ->
   RamRead (RamWrite ram addr size v) addr' size' = RamRead ram addr' size').
Proof.
  intros. unfold RamRead, RamWrite; simpl. split; [apply mem_load_store; lia|].
  intros. rewrite !wrap_small by (unfold rng; lia). apply mem_load_store_ne; lia.
Qed.

Lemma ram_read_write_witness :
  RamRead (RamWrite (RamCreate 0x80000000 0x1000) 0x80000010 4 0x1234567890) 0x80000010 4
    = wrap 32 0x1234567890 /\
  RamRead (RamWrite (RamCreate 0x80000000 0x1000) 0x80000010 4 0x1234567890) 0x80000014 8
    = RamRead (RamCreate 0x80000000 0x1000) 0x80000014 8.
Proof.
  destruct (ram_read_write (RamCreate 0x80000000 0x1000) 0x80000010 4 0x1234567890 0x80000014 8)
    as [H1 H2]; [simpl; lia..|].
  split; [exact H1|apply H2; lia].
Defined.

(** ** What the CPU assumes of the devices behind the bus *)

(** A device callback may drive lines into the processor: an interrupt level
    ([CpuState.set_irq]), the A20 gate ([set_a20]), the NMI pin ([set_nmi]) or
    the halt request of a test device. *)
Inductive cpu_event :=
| EvIrq (line : Z) (level : bool)
| EvA20 (on : bool)
| EvNmi
| EvHalt (code : Z).

Class BusDevices (Ops Dev W : Type) := {
  dev_read : Ops -> Dev -> Z -> Z -> W -> Z * W * list cpu_event;
  dev_write : Ops -> Dev -> Z -> Z -> Z -> W -> W * list cpu_event;
  (** direct access to the host block of a RAM device *)
  host_load : host_ptr Dev -> Z -> W -> Z;
  host_store : host_ptr Dev -> Z -> Z -> W -> W;
  (** the board's wall clock, when it has one ([CpuState.timer_read]) *)
  timer_read : option (W -> Z * W);
}.

(** A region that advertises a host block serves it: going through the
    device and going through the pointer are the same access. *)
Class BusDevicesOk (Ops Dev W : Type) `{BusDevices Ops Dev W} (bus : Bus Ops Dev) := {
  bd_ram_read : forall r h addr size w,
    r ∈ bus_regions bus -> r_host r = Some h ->
    r_base r <= addr -> addr + size <= r_base r + r_size r -> 0 < size <= 8 ->
    dev_read (r_ops r) (r_dev r) addr size w =
      (host_load (HostPtr (hp_block h) (hp_off h + (addr - r_base r))) size w, w, []);
  bd_ram_write : forall r h addr size v w,
    r ∈ bus_regions bus -> r_host r = Some h ->
    r_base r <= addr -> addr + size <= r_base r + r_size r -> 0 < size <= 8 ->
    dev_write (r_ops r) (r_dev r) addr size v w =
      (host_store (HostPtr (hp_block h) (hp_off h + (addr - r_base r))) size v w, []);
  bd_read_rng : forall ops dev addr size w, 0 < size <= 8 ->
    rng 64 (dev_read ops dev addr size w).1.1;
  bd_load_rng : forall h size w, 0 < size <= 8 -> rng (8 * size) (host_load h size w);
  (** a line number and a clock reading are [uint64_t]s *)
  bd_read_lines : forall ops dev addr size w line level,
    EvIrq line level ∈ (dev_read ops dev addr size w).2 -> rng 64 line;
  bd_write_lines : forall ops dev addr size v w line level,
    EvIrq line level ∈ (dev_write ops dev addr size v w).2 -> rng 64 line;
  bd_timer_rng : forall t w, timer_read = Some t -> rng 64 (t w).1;
}.
