(* ===== verification/HostMem.v ===== *)
(** * Host views of guest RAM

    The loader and the virtio devices reach guest memory through
    [BusRamRange]: a pointer into the RAM block, used with [memcpy] and
    [memset].  This file gives the byte-string accesses through such a
    pointer and the laws they rely on. *)

From S2P Require Import Prelude Bus Ram.

Section host.
Context {Ops Dev W : Type} `{BusDevices Ops Dev W}.
Implicit Types (h : host_ptr Dev) (w : W) (bs : list Z).

Definition hp_add h (k : Z) : host_ptr Dev := HostPtr (hp_block h) (hp_off h + k).

Definition hget h w : Z := host_load h 1 w.
Definition hset h (b : Z) w : W := host_store h 1 b w.

(** The bytes of the RAM block from a window's start on: what a pointer
    [BusRamRange] returns may be used for. *)
Definition ram_room (bus : Bus Ops Dev) (addr len : Z) : Z :=
  match ram_region bus addr len with Some r => r_base r + r_size r - addr | None => 0 end.

(** [memcpy] out of and into the block. *)
Fixpoint host_read h (n : nat) w : list Z :=
  match n with O => [] | S n => hget h w :: host_read (hp_add h 1) n w end.

Fixpoint host_write h bs w : W :=
  match bs with [] => w | b :: bs => host_write (hp_add h 1) bs (hset h b w) end.
End host.

(** The block is an array of bytes. *)
Class HostBytes (Ops Dev W : Type) `{BusDevices Ops Dev W} := {
  hb_rng : forall h w, rng 8 (hget h w);
  hb_same : forall h b w, rng 8 b -> hget h (hset h b w) = b;
  hb_other : forall h h' b w, h' <> h -> hget h' (hset h b w) = hget h' w;
}.

Section laws.
Context {Ops Dev W : Type} `{HostBytes Ops Dev W}.
Implicit Types (h : host_ptr Dev) (w : W) (bs : list Z).

Lemma hp_add_add h a b : hp_add (hp_add h a) b = hp_add h (a + b).
Proof. unfold hp_add. simpl. by rewrite Z.add_assoc. Qed.

Lemma hp_add_0 h : hp_add h 0 = h.
Proof. destruct h. unfold hp_add. simpl. by rewrite Z.add_0_r. Qed.

Lemma hp_add_ne h a b : a <> b -> hp_add h a <> hp_add h b.
Proof. unfold hp_add. intros Hne [=]. lia. Qed.

Lemma length_host_read h n w : length (host_read h n w) = n.
Proof. revert h; induction n; intros; simpl; auto. Qed.

Lemma host_read_rng h n w : Forall (rng 8) (host_read h n w).
Proof. revert h; induction n; intros; simpl; constructor; auto using hb_rng. Qed.

Lemma host_read_lookup h n w i : (i < n)%nat -> host_read h n w !! i = Some (hget (hp_add h (Z.of_nat i)) w).
Proof.
  revert h i; induction n as [|n IH]; intros h i Hi; [lia|]. destruct i as [|i]; simpl; [by rewrite hp_add_0|].
  rewrite IH by lia. rewrite hp_add_add. do 3 f_equal. lia.
Qed.

Lemma host_read_app h n k w : host_read h (n + k) w = host_read h n w ++ host_read (hp_add h (Z.of_nat n)) k w.
Proof.
  revert h; induction n as [|n IH]; intros h; simpl; [by rewrite hp_add_0|]. f_equal.
  rewrite IH, hp_add_add. do 3 f_equal. lia.
Qed.

Lemma host_write_app h bs cs w :
  host_write h (bs ++ cs) w = host_write (hp_add h (Z.of_nat (length bs))) cs (host_write h bs w).
Proof.
  revert h w; induction bs as [|b bs IH]; intros h w; simpl; [by rewrite hp_add_0|].
  rewrite IH, hp_add_add. do 3 f_equal. lia.
Qed.

(** A byte of the block after a write. *)
Lemma hget_write h bs w k : Forall (rng 8) bs ->
  hget (hp_add h k) (host_write h bs w) =
  if bool_decide (0 <= k < Z.of_nat (length bs)) then bs !!! Z.to_nat k else hget (hp_add h k) w.
Proof.
  intros Hb. revert h w k; induction Hb as [|b bs Hb _ IH]; intros h w k; simpl host_write.
  - rewrite bool_decide_false; [done|simpl; lia].
  - replace (hp_add h k) with (hp_add (hp_add h 1) (k - 1)) by (rewrite hp_add_add; f_equal; lia).
    rewrite IH. simpl length. rewrite hp_add_add. replace (1 + (k - 1)) with k by lia.
    case_bool_decide; case_bool_decide; try lia.
    + replace (Z.to_nat k) with (S (Z.to_nat (k - 1))) by lia. done.
    + assert (k = 0) as -> by lia. rewrite hp_add_0. by rewrite hb_same.
    + apply hb_other. rewrite <- (hp_add_0 h) at 2. apply hp_add_ne. lia.
Qed.

(** Bytes of another block. *)
Lemma hget_write_block h h' bs w : hp_block h' <> hp_block h -> hget h' (host_write h bs w) = hget h' w.
Proof.
  intros Hne. revert h w Hne; induction bs as [|b bs IH]; intros h w Hne; simpl; [done|].
  rewrite IH by done. apply hb_other. intros ->. done.
Qed.

Lemma host_read_ext h n w w' :
  (forall k, 0 <= k < Z.of_nat n -> hget (hp_add h k) w = hget (hp_add h k) w') -> host_read h n w = host_read h n w'.
Proof.
  revert h; induction n as [|n IH]; intros h Hk; simpl; [done|]. f_equal.
  - specialize (Hk 0 ltac:(lia)). by rewrite hp_add_0 in Hk.
  - apply IH. intros k Hk'. rewrite hp_add_add. apply Hk. lia.
Qed.

Lemma host_read_write h bs w : Forall (rng 8) bs -> host_read h (length bs) (host_write h bs w) = bs.
Proof.
  intros Hb. apply list_eq. intros i. destruct (decide (i < length bs)%nat) as [Hi|Hi].
  - rewrite host_read_lookup, hget_write, bool_decide_true, Nat2Z.id by (done || lia).
    symmetry. by apply list_lookup_lookup_total_lt.
  - rewrite !lookup_ge_None_2; [done|lia|rewrite length_host_read; lia].
Qed.

(** Disjoint ranges of one block. *)
Lemma host_read_write_ne h a n b bs w : Forall (rng 8) bs ->
  a + Z.of_nat n <= b \/ b + Z.of_nat (length bs) <= a ->
  host_read (hp_add h a) n (host_write (hp_add h b) bs w) = host_read (hp_add h a) n w.
Proof.
  intros Hb Hd. apply host_read_ext. intros k Hk. rewrite hp_add_add.
  replace (hp_add h (a + k)) with (hp_add (hp_add h b) (a + k - b)) by (rewrite hp_add_add; f_equal; lia).
  rewrite hget_write by done. rewrite bool_decide_false by lia. done.
Qed.
End laws.

(** ** A flat RAM window

    The memory the guest may hand to a device: one region whose host block
    the bus returns for every range inside it. *)
Class GuestRam {Ops Dev : Type} (bus : Bus Ops Dev) (base size : Z) (h : host_ptr Dev) : Prop := {
  gr_base : 0 <= base;
  gr_top : base + size < 2 ^ 64;
  gr_region : forall addr len, base <= addr -> 0 <= len -> addr + len <= base + size ->
    exists r, ram_region bus addr len = Some r /\ r_base r = base /\ r_size r = size /\ r_host r = Some h;
}.

Lemma gr_range {Ops Dev} {bus : Bus Ops Dev} {base size h} `{!GuestRam bus base size h} addr len :
  base <= addr -> 0 <= len -> addr + len <= base + size -> BusRamRange bus addr len = Some (hp_add h (addr - base)).
Proof.
  intros H1 H2 H3. destruct (gr_region addr len H1 H2 H3) as (r & E & Hb & _ & Hh). unfold BusRamRange.
  rewrite E. simpl. rewrite Hh. simpl. by rewrite Hb.
Qed.
