(* ===== verification/Elf.v ===== *)
(** * Image loading (board/elf.c, board/loader.c)

    ELF32 and ELF64 parsing, segment loading into RAM through the bus's host
    windows, the HTIF symbol search, and the ISA choice of the loader.  The
    file is a byte list; a read outside it, or a copy past the end of the RAM
    block, is the outcome [LOob]. *)

From S2P Require Import Prelude Bus Ram HostMem.

Definition kPtLoad := 1.
Definition kShtSymtab := 2.

(** ** Reading the file *)

(** [data + off]: pointer arithmetic is modulo 2^64, a read outside the
    buffer is [None]. *)
Definition rd_bytes (data : list Z) (off n : Z) : option (list Z) :=
  let off := u64 off in
  if off + n <=? Z.of_nat (length data) then Some (take (Z.to_nat n) (drop (Z.to_nat off) data)) else None.

Definition Rd16 (data : list Z) (off : Z) : option Z := le_val <$> rd_bytes data off 2.
Definition Rd32 (data : list Z) (off : Z) : option Z := le_val <$> rd_bytes data off 4.
Definition Rd64 (data : list Z) (off : Z) : option Z := le_val <$> rd_bytes data off 8.

(** A word of the file's class. *)
Definition RdWord (is64 : bool) : list Z -> Z -> option Z := if is64 then Rd64 else Rd32.

(** [strcmp(data + off, name) == 0]; the comparison stops at the first
    difference. *)
Fixpoint NameIs (data : list Z) (off : Z) (name : list Z) : option bool :=
  match name with
  | [] => b ← rd_bytes data off 1; Some (bool_decide (b = [0]))
  | c :: name => b ← rd_bytes data off 1; if bool_decide (b = [c]) then NameIs data (off + 1) name else Some false
  end.

Definition str_symtab : list Z := [46; 115; 121; 109; 116; 97; 98].
Definition str_tohost : list Z := [116; 111; 104; 111; 115; 116].
Definition str_fromhost : list Z := [102; 114; 111; 109; 104; 111; 115; 116].

Record ElfInfo := mkElfInfo {
  ei_entry : Z; ei_image_base : Z; ei_machine : Z; ei_is_64 : bool;
  ei_has_tohost : bool; ei_tohost : Z; ei_fromhost : Z;
}.

(** ** The HTIF symbols *)

(** The field offsets of the two section-header and symbol layouts. *)
Record sh_layout := { l_off : Z; l_size : Z; l_link : Z; l_entsize : Z; l_symsz : Z; l_value : Z; l_word : bool }.
Definition layout64 : sh_layout := {| l_off := 24; l_size := 32; l_link := 40; l_entsize := 56; l_symsz := 24; l_value := 8; l_word := true |}.
Definition layout32 : sh_layout := {| l_off := 16; l_size := 20; l_link := 24; l_entsize := 36; l_symsz := 16; l_value := 4; l_word := false |}.

(** symtab, strtab (file offsets of the pointers) and the symbol count. *)
Definition sym_tabs : Type := option (Z * Z * Z).

Section htif.
Variable L : sh_layout.
Variable data : list Z.
#[local] Abbreviation rdw := (RdWord (l_word L) data).

(** One section header at [sh]. *)
Definition section_step (shoff shentsize shstr : Z) (tabs : sym_tabs) (i : Z) : option sym_tabs :=
  let sh := shoff + i * shentsize in
  type ← Rd32 data (sh + 4);
  name_off ← Rd32 data sh;
  offset ← rdw (sh + l_off L);
  shsize ← rdw (sh + l_size L);
  entsize ← rdw (sh + l_entsize L);
  if type =? kShtSymtab then
    same ← NameIs data (shstr + name_off) str_symtab;
    if same : bool then
      link ← Rd32 data (sh + l_link L);
      strtab ← rdw (shoff + link * shentsize + l_off L);
      Some (Some (offset, strtab, if entsize =? 0 then 0 else shsize / entsize))
    else Some tabs
  else Some tabs.

Fixpoint sections (n : nat) (shoff shentsize shstr i : Z) (tabs : sym_tabs) : option sym_tabs :=
  match n with
  | O => Some tabs
  | S n => tabs ← section_step shoff shentsize shstr tabs i; sections n shoff shentsize shstr (i + 1) tabs
  end.

Definition symbol_step (symtab strtab i : Z) (info : ElfInfo) : option ElfInfo :=
  let sym := symtab + i * l_symsz L in
  name_off ← Rd32 data sym;
  value ← rdw (sym + l_value L);
  if name_off =? 0 then Some info
  else
    is_tohost ← NameIs data (strtab + name_off) str_tohost;
    if is_tohost : bool then
      Some (mkElfInfo (ei_entry info) (ei_image_base info) (ei_machine info) (ei_is_64 info) true value (ei_fromhost info))
    else
      is_fromhost ← NameIs data (strtab + name_off) str_fromhost;
      Some (if is_fromhost : bool
            then mkElfInfo (ei_entry info) (ei_image_base info) (ei_machine info) (ei_is_64 info)
                   (ei_has_tohost info) (ei_tohost info) value
            else info).

Fixpoint symbols (n : nat) (symtab strtab i : Z) (info : ElfInfo) : option ElfInfo :=
  match n with
  | O => Some info
  | S n => info ← symbol_step symtab strtab i info; symbols n symtab strtab (i + 1) info
  end.

Definition FindHtifSymbols (shoff shentsize shnum shstrndx : Z) (info : ElfInfo) : option ElfInfo :=
  let size := Z.of_nat (length data) in
  if (shoff =? 0) || (shnum =? 0) || (size <? u64 (shoff + shnum * shentsize)) then Some info
  else
    shstr_off ← rdw (shoff + shstrndx * shentsize + l_off L);
    shstr_size ← rdw (shoff + shstrndx * shentsize + l_size L);
    if size <? u64 (shstr_off + shstr_size) then Some info
    else
      tabs ← sections (Z.to_nat shnum) shoff shentsize shstr_off 0 None;
      match tabs with
      | None => Some info
      | Some (symtab, strtab, count) => symbols (Z.to_nat count) symtab strtab 0 info
      end.
End htif.

(** ** Segments *)

Record phdr := mkPhdr { p_type : Z; p_offset : Z; p_vaddr : Z; p_filesz : Z; p_memsz : Z }.

Definition read_phdr (data : list Z) (is64 : bool) (ph : Z) : option phdr :=
  if is64 then
    t ← Rd32 data ph; o ← Rd64 data (ph + 8); v ← Rd64 data (ph + 16);
    f ← Rd64 data (ph + 32); m ← Rd64 data (ph + 40); Some (mkPhdr t o v f m)
  else
    t ← Rd32 data ph; o ← Rd32 data (ph + 4); v ← Rd32 data (ph + 8);
    f ← Rd32 data (ph + 16); m ← Rd32 data (ph + 20); Some (mkPhdr t o v f m).

Inductive load_res (W A : Type) := LOk (a : A) (w : W) | LErr (w : W) | LOob.
Arguments LOk {W A}.
Arguments LErr {W A}.
Arguments LOob {W A}.

Record ehdr := mkEhdr {
  e_entry : Z; e_phoff : Z; e_shoff : Z; e_phentsize : Z; e_phnum : Z; e_shentsize : Z; e_shnum : Z; e_shstrndx : Z;
}.

Definition read_ehdr (data : list Z) (is64 : bool) : option ehdr :=
  if is64 then
    en ← Rd64 data 24; ph ← Rd64 data 32; sh ← Rd64 data 40; pe ← Rd16 data 54; pn ← Rd16 data 56;
    se ← Rd16 data 58; sn ← Rd16 data 60; sx ← Rd16 data 62; Some (mkEhdr en ph sh pe pn se sn sx)
  else
    en ← Rd32 data 24; ph ← Rd32 data 28; sh ← Rd32 data 32; pe ← Rd16 data 42; pn ← Rd16 data 44;
    se ← Rd16 data 46; sn ← Rd16 data 48; sx ← Rd16 data 50; Some (mkEhdr en ph sh pe pn se sn sx).

Section load.
Context {Ops Dev W : Type} `{BusDevices Ops Dev W}.
Variable bus : Bus Ops Dev.
Variable data : list Z.
#[local] Abbreviation size := (Z.of_nat (length data)).

Definition lower_base (info : ElfInfo) (vaddr : Z) : ElfInfo :=
  if (ei_image_base info =? 0) || (vaddr <? ei_image_base info)
  then mkElfInfo (ei_entry info) vaddr (ei_machine info) (ei_is_64 info) (ei_has_tohost info) (ei_tohost info)
         (ei_fromhost info)
  else info.

(** The bytes a segment puts in memory: the file part, then zeros. *)
Definition segment_bytes (ph : phdr) : list Z :=
  take (Z.to_nat (p_filesz ph)) (drop (Z.to_nat (p_offset ph)) data) ++
  replicate (Z.to_nat (p_memsz ph - p_filesz ph)) 0.

Definition load_segment (ph : phdr) (info : ElfInfo) (w : W) : load_res W ElfInfo :=
  if negb (p_type ph =? kPtLoad) then LOk info w
  else
    match BusRamRange bus (p_vaddr ph) (p_memsz ph) with
    | None => LErr w
    | Some host =>
        if size <? u64 (p_offset ph + p_filesz ph) then LErr w
        else if (p_offset ph + p_filesz ph <=? size) &&
                (Z.max (p_filesz ph) (p_memsz ph) <=? ram_room bus (p_vaddr ph) (p_memsz ph))
        then LOk (lower_base info (p_vaddr ph)) (host_write host (segment_bytes ph) w)
        else LOob
    end.

Fixpoint segments (n : nat) (is64 : bool) (phoff phentsize i : Z) (info : ElfInfo) (w : W) : load_res W ElfInfo :=
  match n with
  | O => LOk info w
  | S n =>
      match read_phdr data is64 (phoff + i * phentsize) with
      | None => LOob
      | Some ph =>
          match load_segment ph info w with
          | LOk info w => segments n is64 phoff phentsize (i + 1) info w
          | r => r
          end
      end
  end.

Definition elf_magic : bool := bool_decide (take 4 data = [0x7f; 69; 76; 70]).

Definition ElfLoad (w : W) : load_res W ElfInfo :=
  if (size <? 64) || negb elf_magic then LErr w
  else
    let ei_class := data !!! 4%nat in
    if negb (ei_class =? 1) && negb (ei_class =? 2) then LErr w
    else
      let is64 := ei_class =? 2 in
      match Rd16 data 18, read_ehdr data is64 with
      | Some mach, Some e =>
          let info := mkElfInfo (e_entry e) 0 mach is64 false 0 0 in
          match segments (Z.to_nat (e_phnum e)) is64 (e_phoff e) (e_phentsize e) 0 info w with
          | LOk info w =>
              match FindHtifSymbols (if is64 then layout64 else layout32) data
                      (e_shoff e) (e_shentsize e) (e_shnum e) (e_shstrndx e) info with
              | Some info => LOk info w
              | None => LOob
              end
          | r => r
          end
      | _, _ => LOob
      end.
End load.

(** ** The loader *)

Record isa_ops := mkIsa { isa_name : string; isa_elf_machine : Z; isa_elf_class : Z }.

(** cpu/isa/registry.c *)
Definition k_isa_table : list isa_ops :=
  [mkIsa "riscv64" 243 2; mkIsa "riscv32" 243 1; mkIsa "x86" 3 1].

Definition kDefaultIsaName : string := "riscv64".
Definition kBinTohostOffset := 0x1000.
Definition kBinFromhostOffset := 0x40.

Definition FindIsaByMachine (elf_machine elf_class : Z) : option isa_ops :=
  List.find (fun p => (isa_elf_machine p =? elf_machine) &&
    ((isa_elf_class p =? 0) || (isa_elf_class p =? elf_class))) k_isa_table.

Definition FindIsaByName (name : string) : option isa_ops :=
  List.find (fun p => bool_decide (isa_name p = name)) k_isa_table.

(** [elf]: the machine and class an ELF image declares. *)
Definition PickIsa (name : option string) (elf : option (Z * Z)) : option isa_ops :=
  match elf with
  | Some (mach, cls) =>
      isa ← FindIsaByMachine mach cls;
      match name with
      | Some n => if bool_decide (n = isa_name isa) then Some isa else None
      | None => Some isa
      end
  | None => FindIsaByName (default kDefaultIsaName name)
  end.

Record LoadResult := mkLoadResult {
  lr_isa : isa_ops; lr_entry : Z; lr_image_base : Z; lr_has_htif : bool; lr_tohost : Z; lr_fromhost : Z;
}.

Section loader.
Context {Ops Dev W : Type} `{BusDevices Ops Dev W}.

(** [file]: the contents of the image file, [None] when it cannot be read
    whole or is empty. *)
Definition LoaderLoadImage (bus : Bus Ops Dev) (file : option (list Z)) (name : option string)
    (bin_base bin_tohost : Z) (bin_uses_htif : bool) (w : W) : load_res W LoadResult :=
  match file with
  | None => LErr w
  | Some data =>
      if (4 <=? Z.of_nat (length data)) && elf_magic data then
        match ElfLoad bus data w with
        | LOk info w =>
            match PickIsa name (Some (ei_machine info, if ei_is_64 info then 2 else 1)) with
            | None => LErr w
            | Some isa =>
                LOk (mkLoadResult isa (ei_entry info) (ei_image_base info) (ei_has_tohost info)
                       (if ei_has_tohost info then ei_tohost info else 0)
                       (if ei_has_tohost info then ei_fromhost info else 0)) w
            end
        | LErr w => LErr w
        | LOob => LOob
        end
      else
        match PickIsa name None with
        | None => LErr w
        | Some isa =>
            let size := Z.of_nat (length data) in
            match BusRamRange bus bin_base size with
            | None => LErr w
            | Some host =>
                if size <=? ram_room bus bin_base size then
                  let tohost := if bin_tohost =? 0 then u64 (bin_base + kBinTohostOffset) else bin_tohost in
                  LOk (mkLoadResult isa bin_base bin_base bin_uses_htif (if bin_uses_htif then tohost else 0)
                         (if bin_uses_htif then u64 (tohost + kBinFromhostOffset) else 0))
                      (host_write host data w)
                else LOob
            end
        end
  end.
End loader.

(** ** What a successful load leaves in memory *)

(** The program headers in table order. *)
Fixpoint phdr_table (data : list Z) (n : nat) (is64 : bool) (phoff phentsize i : Z) : option (list phdr) :=
  match n with
  | O => Some []
  | S n => ph ← read_phdr data is64 (phoff + i * phentsize);
           phs ← phdr_table data n is64 phoff phentsize (i + 1); Some (ph :: phs)
  end.

Definition loadable (ph : phdr) : bool := p_type ph =? kPtLoad.

(** The memory a segment covers. *)
Definition seg_len (ph : phdr) : Z := Z.max (p_filesz ph) (p_memsz ph).
Definition seg_disjoint (a b : phdr) : Prop :=
  p_vaddr a + seg_len a <= p_vaddr b \/ p_vaddr b + seg_len b <= p_vaddr a.

(** One RAM region and no other host-backed one. *)
Class SoleRam {Ops Dev : Type} (bus : Bus Ops Dev) (r0 : BusRegion Ops Dev) (h : host_ptr Dev) : Prop := {
  sr_host : r_host r0 = Some h;
  sr_base : 0 <= r_base r0;
  sr_top : 0 <= r_size r0 /\ r_base r0 + r_size r0 < 2 ^ 64;
  sr_region : forall addr len, ram_region bus addr len = if covers r0 addr len then Some r0 else None;
}.

Section props.
Context {Ops Dev W : Type} `{HostBytes Ops Dev W} (bus : Bus Ops Dev) (r0 : BusRegion Ops Dev) (h : host_ptr Dev).
Context `{!SoleRam bus r0 h}.
#[local] Abbreviation base := (r_base r0).
#[local] Abbreviation ram_size := (r_size r0).
Variable data : list Z.
Hypothesis Hdata : Forall (rng 8) data.
#[local] Abbreviation size := (Z.of_nat (length data)).

Lemma rd_bytes_rng off n bs : rd_bytes data off n = Some bs -> Forall (rng 8) bs /\ length bs = Z.to_nat n.
Proof.
  unfold rd_bytes. destruct (Z.leb_spec (u64 off + n) size) as [Hn|]; [|done]. intros [= <-].
  pose proof (rng_wrap 64 off ltac:(lia)) as Ho. unfold rng in Ho.
  split; [by apply Forall_take, Forall_drop|]. rewrite length_take, length_drop. lia.
Qed.

Lemma rd_word_rng n off v : 0 <= n -> le_val <$> rd_bytes data off n = Some v -> rng (8 * n) v.
Proof.
  intros Hn Hv. apply fmap_Some in Hv as (bs & Hbs & ->). apply rd_bytes_rng in Hbs as [Hf Hl].
  apply le_val_rng in Hf. by rewrite Hl, Z2Nat.id in Hf.
Qed.

Lemma read_phdr_rng is64 off ph : read_phdr data is64 off = Some ph ->
  rng 64 (p_offset ph) /\ rng 64 (p_vaddr ph) /\ rng 64 (p_filesz ph) /\ rng 64 (p_memsz ph).
Proof.
  assert (H4 : forall o v, Rd32 data o = Some v -> rng 64 v)
    by (intros o v Hv; apply (rng_mono 32); [lia|]; by eapply (rd_word_rng 4)).
  assert (H8 : forall o v, Rd64 data o = Some v -> rng 64 v) by (intros o v Hv; by eapply (rd_word_rng 8)).
  unfold read_phdr. destruct is64; intros Hp;
    repeat (apply bind_Some in Hp as (? & ? & Hp)); injection Hp as <-; cbn; eauto 10.
Qed.

Lemma segment_bytes_ok ph : 0 <= p_filesz ph -> 0 <= p_offset ph -> p_offset ph + p_filesz ph <= size ->
  Forall (rng 8) (segment_bytes data ph) /\ Z.of_nat (length (segment_bytes data ph)) = seg_len ph /\
  forall k, 0 <= k < seg_len ph -> segment_bytes data ph !!! Z.to_nat k =
    if k <? p_filesz ph then data !!! Z.to_nat (p_offset ph + k) else 0.
Proof.
  intros Hf Ho Hs. unfold segment_bytes, seg_len.
  assert (Hl : length (take (Z.to_nat (p_filesz ph)) (drop (Z.to_nat (p_offset ph)) data)) = Z.to_nat (p_filesz ph))
    by (rewrite length_take, length_drop; lia).
  split_and!.
  - apply Forall_app_2; [by apply Forall_take, Forall_drop|]. apply Forall_replicate. unfold rng; lia.
  - rewrite length_app, Hl, length_replicate. lia.
  - intros k Hk. destruct (Z.ltb_spec k (p_filesz ph)).
    + rewrite lookup_total_app_l by lia. rewrite lookup_total_take_lt by lia. rewrite lookup_total_drop. f_equal. lia.
    + rewrite lookup_total_app_r by lia. apply lookup_total_replicate_2. lia.
Qed.

(** The host pointer of an address in the window. *)
#[local] Abbreviation at_ a := (hp_add h (a - base)).

Definition apply_segment (w : W) (ph : phdr) : W :=
  if loadable ph then host_write (at_ (p_vaddr ph)) (segment_bytes data ph) w else w.

(** What the symbol search and the segments leave alone. *)
Definition ei_core (info : ElfInfo) : Z * bool := (ei_entry info, ei_is_64 info).

(** A PT_LOAD header that was accepted. *)
Definition seg_fits (ph : phdr) : Prop :=
  base <= p_vaddr ph /\ p_vaddr ph + seg_len ph <= base + ram_size /\ p_offset ph + p_filesz ph <= size.

Lemma load_segment_ok ph info w info' w' :
  load_segment bus data ph info w = LOk info' w' ->
  w' = apply_segment w ph /\ ei_core info' = ei_core info /\ (loadable ph = true -> seg_fits ph).
Proof.
  unfold load_segment, apply_segment, loadable. destruct (p_type ph =? kPtLoad); cbn [negb].
  2: { intros [= <- <-]. done. }
  unfold BusRamRange, ram_room. rewrite sr_region. destruct (covers r0 _ _) eqn:Hc; [|done].
  cbn [mbind option_bind]. rewrite sr_host. cbn [mbind option_bind].
  destruct (_ <? _); [done|]. destruct (Z.leb_spec (p_offset ph + p_filesz ph) size); [|done]. cbn [andb].
  destruct (Z.leb_spec (Z.max (p_filesz ph) (p_memsz ph)) (base + ram_size - p_vaddr ph)); [|done]. intros [= <- <-].
  split_and!; [done|unfold lower_base; by case_match|]. intros _. unfold seg_fits, seg_len.
  unfold covers in Hc. apply andb_true_iff in Hc as [Hc%Z.leb_le _]. split_and!; lia.
Qed.

Lemma segments_ok n is64 phoff phentsize i info w info' w' :
  segments bus data n is64 phoff phentsize i info w = LOk info' w' ->
  exists phs, phdr_table data n is64 phoff phentsize i = Some phs /\ w' = fold_left apply_segment phs w /\
    ei_core info' = ei_core info /\ Forall (fun ph => loadable ph = true -> seg_fits ph) phs.
Proof.
  revert i info w. induction n as [|n IH]; intros i info w; cbn [segments phdr_table].
  - intros [= <- <-]. by exists [].
  - destruct (read_phdr data is64 (phoff + i * phentsize)) as [ph|]; [|done]. cbn [mbind option_bind].
    destruct (load_segment bus data ph info w) as [info1 w1| |] eqn:El; [|done..].
    apply load_segment_ok in El as (-> & He & Hf). intros Hs. apply IH in Hs as (phs & -> & -> & He' & Hf').
    exists (ph :: phs). cbn [mbind option_bind fold_left]. split_and!; [done|done|congruence|by constructor].
Qed.

(** Later segments elsewhere leave a byte alone. *)
Lemma apply_segments_other phs w a :
  Forall (fun ph => loadable ph = true -> seg_fits ph /\ 0 <= p_filesz ph /\ 0 <= p_offset ph) phs ->
  Forall (fun ph => loadable ph = true -> a < p_vaddr ph \/ p_vaddr ph + seg_len ph <= a) phs ->
  hget (at_ a) (fold_left apply_segment phs w) = hget (at_ a) w.
Proof.
  revert w. induction phs as [|ph phs IH]; intros w Hf Hd; [done|].
  apply Forall_cons in Hf as [Hf1 Hf]. apply Forall_cons in Hd as [Hd1 Hd]. cbn [fold_left]. rewrite IH by done.
  unfold apply_segment. destruct (loadable ph) eqn:El; [|done].
  destruct (Hf1 eq_refl) as ((Hv & He & Ho) & Hfs & Hoff). destruct (segment_bytes_ok ph Hfs Hoff Ho) as (Hb & Hl & _).
  replace (at_ a) with (hp_add (at_ (p_vaddr ph)) (a - p_vaddr ph)) by (rewrite hp_add_add; f_equal; lia).
  rewrite hget_write by done. rewrite bool_decide_false; [done|]. rewrite Hl. specialize (Hd1 eq_refl). lia.
Qed.

Lemma phdr_table_rng n is64 phoff phentsize i phs : phdr_table data n is64 phoff phentsize i = Some phs ->
  Forall (fun ph => rng 64 (p_offset ph) /\ rng 64 (p_vaddr ph) /\ rng 64 (p_filesz ph) /\ rng 64 (p_memsz ph)) phs.
Proof.
  revert i phs. induction n as [|n IH]; intros i phs; cbn [phdr_table]; [by intros [= <-]|].
  intros (ph & Hp & (phs' & Ht & [= <-])%bind_Some)%bind_Some. constructor; [by eapply read_phdr_rng|by eapply IH].
Qed.

Lemma symbols_core L n symtab strtab i info info' :
  symbols L data n symtab strtab i info = Some info' -> ei_core info' = ei_core info.
Proof.
  revert i info. induction n as [|n IH]; intros i info; cbn [symbols]; [by intros [= <-]|].
  intros (info1 & Hs & He%IH)%bind_Some. rewrite He. clear He IH. unfold symbol_step in Hs.
  repeat (apply bind_Some in Hs as (? & ? & Hs)). case_match; [by injection Hs as <-|].
  apply bind_Some in Hs as ([] & ? & Hs); [by injection Hs as <-|].
  apply bind_Some in Hs as ([] & ? & Hs); by injection Hs as <-.
Qed.

Lemma htif_core L shoff shentsize shnum shstrndx info info' :
  FindHtifSymbols L data shoff shentsize shnum shstrndx info = Some info' -> ei_core info' = ei_core info.
Proof.
  unfold FindHtifSymbols. destruct (_ || _ || _); [by intros [= <-]|]. intros (so & _ & (sz & _ & Hs)%bind_Some)%bind_Some.
  destruct (_ <? _); [by injection Hs as <-|]. apply bind_Some in Hs as (tabs & _ & Hs).
  destruct tabs as [[[symtab strtab] count]|]; [by eapply symbols_core|by injection Hs as <-].
Qed.

(** C25: a successful ELF load leaves every PT_LOAD segment in memory: each loadable program header,
    in table order, lies in the RAM window, and its bytes (unless a later segment overlaps it) are
    the file bytes followed by zeros up to its memory size; the entry point is the header's. *)
Theorem elf_segments_loaded w info w' :
  ElfLoad bus data w = LOk info w' ->
  exists e phs, read_ehdr data (ei_is_64 info) = Some e /\
    phdr_table data (Z.to_nat (e_phnum e)) (ei_is_64 info) (e_phoff e) (e_phentsize e) 0 = Some phs /\
    ei_entry info = e_entry e /\
    forall pre ph post, phs = pre ++ ph :: post -> loadable ph = true ->
      Forall (fun q => loadable q = true -> seg_disjoint ph q) post ->
      base <= p_vaddr ph /\ p_vaddr ph + seg_len ph <= base + ram_size /\
      forall k, 0 <= k < seg_len ph ->
        hget (at_ (p_vaddr ph + k)) w' = if k <? p_filesz ph then data !!! Z.to_nat (p_offset ph + k) else 0.
Proof.
  unfold ElfLoad. destruct (_ || _); [done|]. destruct (_ && _); [done|].
  destruct (Rd16 data 18) as [mach|]; [|done]. set (is64 := data !!! 4%nat =? 2).
  destruct (read_ehdr data is64) as [e|] eqn:Ee; [|done].
  destruct (segments _ _ _ _ _ _ _ _ _) as [info1 w1| |] eqn:Es; [|done..].
  destruct (FindHtifSymbols _ _ _ _ _ _ _) as [info2|] eqn:Ef; [|done]. intros [= <- <-].
  apply segments_ok in Es as (phs & Ht & -> & Hc & Hf). apply htif_core in Ef. rewrite Hc in Ef.
  injection Ef as He H64. cbn in He, H64. rewrite H64. exists e, phs. split_and!; [done..|].
  intros pre ph post -> Hl Hd. pose proof (phdr_table_rng _ _ _ _ _ _ Ht) as Hr.
  assert (Hall : Forall (fun ph => loadable ph = true -> seg_fits ph /\ 0 <= p_filesz ph /\ 0 <= p_offset ph)
    (pre ++ ph :: post)).
  { apply Forall_forall. intros q Hq Hlq. rewrite Forall_forall in Hf, Hr. specialize (Hr q Hq) as (Ho & _ & Hz & _).
    unfold rng in *. split; [by apply Hf|lia]. }
  apply Forall_app in Hall as [_ [H1 H2]%Forall_cons]. destruct (H1 Hl) as ((Hb & Hen & Hof) & Hfs & Hoff).
  split_and!; [done..|]. intros k Hk. rewrite fold_left_app. cbn [fold_left]. rewrite apply_segments_other; [|done|].
  - unfold apply_segment at 1. rewrite Hl. destruct (segment_bytes_ok ph Hfs Hoff Hof) as (Hbs & Hlen & Hat).
    replace (at_ (p_vaddr ph + k)) with (hp_add (at_ (p_vaddr ph)) k) by (rewrite hp_add_add; f_equal; lia).
    rewrite hget_write by done. rewrite Hlen, bool_decide_true by done. by apply Hat.
  - eapply Forall_impl; [exact Hd|]. intros q Hq Hlq. specialize (Hq Hlq). unfold seg_disjoint in Hq. lia.
Qed.

(** The segment copy leaves the RAM block exactly where its checks are too weak: with p_filesz
    beyond the end of RAM while p_memsz fits, or with p_vaddr + p_memsz wrapping past 2^64; with
    p_filesz <= p_memsz and no wrap it never does. *)
Theorem elf_segment_oob ph info w :
  loadable ph = true -> rng 64 (p_vaddr ph) -> rng 64 (p_memsz ph) -> rng 64 (p_filesz ph) -> 0 <= p_offset ph ->
  p_offset ph + p_filesz ph <= size -> size < 2 ^ 64 -> base <= p_vaddr ph <= base + ram_size ->
  (p_vaddr ph + p_memsz ph <= base + ram_size -> base + ram_size < p_vaddr ph + p_filesz ph ->
   load_segment bus data ph info w = LOob) /\
  (2 ^ 64 <= p_vaddr ph + p_memsz ph -> load_segment bus data ph info w = LOob) /\
  (p_filesz ph <= p_memsz ph -> p_vaddr ph + p_memsz ph < 2 ^ 64 -> load_segment bus data ph info w <> LOob).
Proof.
  intros Hl Hv Hm Hf Ho Hs Hz Hb. unfold load_segment. unfold loadable in Hl. rewrite Hl. cbn [negb].
  destruct (sr_top (bus:=bus) (r0:=r0) (h:=h)) as [Hs0 Ht]. pose proof (sr_base (bus:=bus) (r0:=r0) (h:=h)) as Hb0.
  unfold BusRamRange, ram_room. rewrite !sr_region.
  assert (He : r_end r0 = base + ram_size) by (unfold r_end; apply wrap_small; unfold rng; lia).
  unfold covers. rewrite (proj2 (Z.leb_le base (p_vaddr ph))) by lia. rewrite He. unfold rng in *. split_and!; intros Hc.
  - intros Hd. rewrite (wrap_small 64 (p_vaddr ph + p_memsz ph)) by (unfold rng; lia).
    rewrite (proj2 (Z.leb_le _ _) Hc). cbn [andb mbind option_bind]. rewrite sr_host. cbn [mbind option_bind].
    rewrite (wrap_small 64 (p_offset ph + p_filesz ph)) by (unfold rng; lia).
    rewrite (proj2 (Z.ltb_ge _ _)) by lia. rewrite (proj2 (Z.leb_le _ _) Hs). cbn [andb].
    by rewrite (proj2 (Z.leb_gt _ _)) by lia.
  - assert (Hu : u64 (p_vaddr ph + p_memsz ph) = p_vaddr ph + p_memsz ph - 2 ^ 64).
    { unfold wrap. symmetry. apply Z.mod_unique with 1; lia. }
    rewrite Hu, (proj2 (Z.leb_le _ _)) by lia. cbn [andb mbind option_bind]. rewrite sr_host. cbn [mbind option_bind].
    rewrite (wrap_small 64 (p_offset ph + p_filesz ph)) by (unfold rng; lia).
    rewrite (proj2 (Z.ltb_ge _ _)) by lia. rewrite (proj2 (Z.leb_le _ _) Hs). cbn [andb].
    by rewrite (proj2 (Z.leb_gt _ _)) by lia.
  - intros Hw. rewrite (wrap_small 64 (p_vaddr ph + p_memsz ph)) by (unfold rng; lia).
    destruct (Z.leb_spec (p_vaddr ph + p_memsz ph) (base + ram_size)); cbn [andb mbind option_bind]; [|done].
    rewrite sr_host. cbn [mbind option_bind]. case_match; [done|]. rewrite (proj2 (Z.leb_le _ _) Hs). cbn [andb].
    by rewrite (proj2 (Z.leb_le _ _)) by lia.
Qed.
End props.
