(* ===== verification/Virtio.v ===== *)
(** * The virtio-mmio transport (device/virtio/virtio.c)

    Guest RAM access page by page, the split-virtqueue walk, the used ring,
    the drain loop of a notification, and the register file.  Descriptor
    tables and rings live in guest memory, so every walk re-reads them there.
    A walk the guest can make endless runs on fuel; a copy that leaves a host
    buffer or the RAM block aborts with [OutOfBounds].  The debug rows the
    code emits are left out. *)

From S2P Require Import Prelude Bus Ram HostMem.

Definition kVirtioMagicValue := 0x74726976.
Definition kVirtioMmioMagic := 0x000.
Definition kVirtioMmioVersion := 0x004.
Definition kVirtioMmioDeviceId := 0x008.
Definition kVirtioMmioVendorId := 0x00c.
Definition kVirtioMmioDeviceFeatures := 0x010.
Definition kVirtioMmioDeviceFeaturesSel := 0x014.
Definition kVirtioMmioDriverFeatures := 0x020.
Definition kVirtioMmioDriverFeaturesSel := 0x024.
Definition kVirtioMmioGuestPageSize := 0x028.
Definition kVirtioMmioQueueSel := 0x030.
Definition kVirtioMmioQueueNumMax := 0x034.
Definition kVirtioMmioQueueNum := 0x038.
Definition kVirtioMmioQueueAlign := 0x03c.
Definition kVirtioMmioQueuePfn := 0x040.
Definition kVirtioMmioQueueReady := 0x044.
Definition kVirtioMmioQueueNotify := 0x050.
Definition kVirtioMmioInterruptStatus := 0x060.
Definition kVirtioMmioInterruptAck := 0x064.
Definition kVirtioMmioStatus := 0x070.
Definition kVirtioMmioQueueDescLow := 0x080.
Definition kVirtioMmioQueueDescHigh := 0x084.
Definition kVirtioMmioQueueDriverLow := 0x090.
Definition kVirtioMmioQueueDriverHigh := 0x094.
Definition kVirtioMmioQueueDeviceLow := 0x0a0.
Definition kVirtioMmioQueueDeviceHigh := 0x0a4.
Definition kVirtioMmioConfigGeneration := 0x0fc.
Definition kVirtioMmioConfig := 0x100.
Definition kVirtioFVersion1 := 32.
Definition kVringDescFNext := 2 ^ 0.
Definition kVringDescFWrite := 2 ^ 1.
Definition kVirtioIntUsedRing := 2 ^ 0.
Definition kVirtioMaxQueue := 64.
Definition kVirtioMaxQueueNum := 1024.
Definition kVirtioConfigSize := 256.
Definition kVirtioVendorId := 0x4345554d.

(** [int] results of mixed arithmetic. *)
Definition i32 (x : Z) : Z := s32 (u32 x).

(** [memcpy] of [bs] into an array at [off]. *)
Definition splice (off : Z) (bs l : list Z) : list Z :=
  take (Z.to_nat off) l ++ bs ++ drop (Z.to_nat off + length bs) l.

(** ** Data *)

Record VringDesc := mkDesc { d_addr : Z; d_len : Z; d_flags : Z; d_next : Z }.

Record VirtioQueue := mkVq {
  vq_num : Z; vq_pfn : Z; vq_desc : Z; vq_avail : Z; vq_used : Z; vq_last : Z; vq_ready : bool; vq_manual : bool;
}.
Definition eta_vq (q : VirtioQueue) : VirtioQueue :=
  mkVq (vq_num q) (vq_pfn q) (vq_desc q) (vq_avail q) (vq_used q) (vq_last q) (vq_ready q) (vq_manual q).
#[export] Instance upd_vq_num : Upd vq_num := ltac:(mk_upd eta_vq vq_num).
#[export] Instance upd_vq_pfn : Upd vq_pfn := ltac:(mk_upd eta_vq vq_pfn).
#[export] Instance upd_vq_desc : Upd vq_desc := ltac:(mk_upd eta_vq vq_desc).
#[export] Instance upd_vq_avail : Upd vq_avail := ltac:(mk_upd eta_vq vq_avail).
#[export] Instance upd_vq_used : Upd vq_used := ltac:(mk_upd eta_vq vq_used).
#[export] Instance upd_vq_last : Upd vq_last := ltac:(mk_upd eta_vq vq_last).
#[export] Instance upd_vq_ready : Upd vq_ready := ltac:(mk_upd eta_vq vq_ready).
#[export] Instance upd_vq_manual : Upd vq_manual := ltac:(mk_upd eta_vq vq_manual).

Definition vq_zero : VirtioQueue := mkVq 0 0 0 0 0 0 false false.
#[export] Instance vq_inhabited : Inhabited VirtioQueue := populate vq_zero.

(** [v_set_irq]: whether the board wired the interrupt line. *)
Record VirtioDevice := mkVd {
  v_device_id : Z; v_vendor_id : Z; v_version : Z; v_device_features : Z; v_guest_features : Z; v_status : Z;
  v_device_features_sel : Z; v_driver_features_sel : Z; v_queue_sel : Z; v_int_status : Z; v_page_shift : Z; v_align : Z;
  v_queue : list VirtioQueue; v_config : list Z; v_config_size : Z; v_set_irq : bool;
}.
Definition eta_vd (v : VirtioDevice) : VirtioDevice :=
  mkVd (v_device_id v) (v_vendor_id v) (v_version v) (v_device_features v) (v_guest_features v) (v_status v)
    (v_device_features_sel v) (v_driver_features_sel v) (v_queue_sel v) (v_int_status v) (v_page_shift v) (v_align v)
    (v_queue v) (v_config v) (v_config_size v) (v_set_irq v).
#[export] Instance upd_v_guest_features : Upd v_guest_features := ltac:(mk_upd eta_vd v_guest_features).
#[export] Instance upd_v_status : Upd v_status := ltac:(mk_upd eta_vd v_status).
#[export] Instance upd_v_device_features_sel : Upd v_device_features_sel := ltac:(mk_upd eta_vd v_device_features_sel).
#[export] Instance upd_v_driver_features_sel : Upd v_driver_features_sel := ltac:(mk_upd eta_vd v_driver_features_sel).
#[export] Instance upd_v_queue_sel : Upd v_queue_sel := ltac:(mk_upd eta_vd v_queue_sel).
#[export] Instance upd_v_int_status : Upd v_int_status := ltac:(mk_upd eta_vd v_int_status).
#[export] Instance upd_v_page_shift : Upd v_page_shift := ltac:(mk_upd eta_vd v_page_shift).
#[export] Instance upd_v_align : Upd v_align := ltac:(mk_upd eta_vd v_align).
#[export] Instance upd_v_queue : Upd v_queue := ltac:(mk_upd eta_vd v_queue).
#[export] Instance upd_v_config : Upd v_config := ltac:(mk_upd eta_vd v_config).
#[export] Instance upd_v_set_irq : Upd v_set_irq := ltac:(mk_upd eta_vd v_set_irq).

(** The device, its backend's own state, guest memory, and the levels driven
    on the interrupt line, oldest first. *)
Record VState (W B : Type) := mkVs { vs_dev : VirtioDevice; vs_be : B; vs_mem : W; vs_irq : list bool }.
Arguments mkVs {W B}.
Arguments vs_dev {W B}.
Arguments vs_be {W B}.
Arguments vs_mem {W B}.
Arguments vs_irq {W B}.

Section transport.
Context {Ops Dev W B : Type} `{BusDevices Ops Dev W}.
Variable bus : Bus Ops Dev.
#[local] Abbreviation VM := (M (VState W B)).

Definition getdev : VM VirtioDevice := gets vs_dev.
Definition moddev (f : VirtioDevice -> VirtioDevice) : VM unit :=
  modify (fun s => mkVs (f (vs_dev s)) (vs_be s) (vs_mem s) (vs_irq s)).
Definition getq (q : Z) : VM VirtioQueue := gets (fun s => arr (v_queue (vs_dev s)) q).
Definition modq (q : Z) (f : VirtioQueue -> VirtioQueue) : VM unit :=
  moddev (fun v => v <| v_queue := arr_set (v_queue v) q (f (arr (v_queue v) q)) |>).
Definition getbe : VM B := gets vs_be.
Definition modbe (f : B -> B) : VM unit :=
  modify (fun s => mkVs (vs_dev s) (f (vs_be s)) (vs_mem s) (vs_irq s)).
(** [if (v->set_irq) v->set_irq(..., level)]. *)
Definition set_irq (level : bool) : VM unit :=
  modify (fun s => mkVs (vs_dev s) (vs_be s) (vs_mem s)
                     (if v_set_irq (vs_dev s) then vs_irq s ++ [level] else vs_irq s)).
Definition on_mem {A} (p : M W A) : VM A := fun s =>
  match p (vs_mem s) with
  | Done a w => Done a (mkVs (vs_dev s) (vs_be s) w (vs_irq s))
  | Raised t w => Raised t (mkVs (vs_dev s) (vs_be s) w (vs_irq s))
  | Aborted r => Aborted r
  end.

(** ** Guest RAM *)

Definition RamPtr (addr len : Z) : option (host_ptr Dev) := BusRamRange bus addr len.

Definition page_piece (addr len : Z) : Z := Z.min len (0x1000 - (addr .& 0xfff)).

(** [cap]: the size of the destination buffer. *)
Fixpoint ReadPhys_loop (n : nat) (addr len cap : Z) : M W (option (list Z)) :=
  if len <=? 0 then mret' (Some [])
  else
    let l := page_piece addr len in
    match RamPtr addr l with
    | None => mret' None
    | Some host =>
        if (l <=? cap) && (l <=? ram_room bus addr l) then
          match n with
          | O => abort OutOfFuel
          | S n =>
              b <- gets (host_read host (Z.to_nat l)) ;;
              r <- ReadPhys_loop n (u64 (addr + l)) (len - l) (cap - l) ;;
              mret' (match r with Some bs => Some (b ++ bs) | None => None end)
          end
        else abort OutOfBounds
    end.

(** Every round copies a byte at least, so [cap] rounds are enough. *)
Definition ReadPhys (addr len cap : Z) : M W (option (list Z)) := ReadPhys_loop (Z.to_nat cap) addr len cap.

Fixpoint WritePhys_loop (n : nat) (addr : Z) (bs : list Z) (len : Z) : M W bool :=
  if len <=? 0 then mret' true
  else
    let l := page_piece addr len in
    match RamPtr addr l with
    | None => mret' false
    | Some host =>
        if (l <=? Z.of_nat (length bs)) && (l <=? ram_room bus addr l) then
          match n with
          | O => abort OutOfFuel
          | S n =>
              modify (host_write host (take (Z.to_nat l) bs)) ;;;
              WritePhys_loop n (u64 (addr + l)) (drop (Z.to_nat l) bs) (len - l)
          end
        else abort OutOfBounds
    end.

(** True for the C code's 0. *)
Definition WritePhys (addr : Z) (bs : list Z) (len : Z) : M W bool := WritePhys_loop (length bs) addr bs len.

Definition ReadPhys16 (addr : Z) : VM Z :=
  r <- on_mem (ReadPhys addr 2 2) ;; mret' (match r with Some bs => le_val bs | None => 0 end).

Definition WritePhys16 (addr v : Z) : VM unit := on_mem (WritePhys addr (le_bytes 2 v) 2) ;;; mret' tt.
Definition WritePhys32 (addr v : Z) : VM unit := on_mem (WritePhys addr (le_bytes 4 v) 4) ;;; mret' tt.

(** ** Descriptor chains *)

Definition desc_of_bytes (bs : list Z) : VringDesc :=
  mkDesc (le_val (take 8 bs)) (le_val (take 4 (drop 8 bs))) (le_val (take 2 (drop 12 bs))) (le_val (take 2 (drop 14 bs))).

Definition GetDesc (q idx : Z) : VM (option VringDesc) :=
  qs <- getq q ;;
  r <- on_mem (ReadPhys (u64 (vq_desc qs + idx * 16)) 16 16) ;;
  mret' (desc_of_bytes <$> r).

Definition is_write (d : VringDesc) : bool := tst (d_flags d) kVringDescFWrite.
Definition has_next (d : VringDesc) : bool := tst (d_flags d) kVringDescFNext.

(** Fetch the next descriptor and go on with it; the C code returns -1 when
    the fetch fails. *)
Definition next_desc {A} (q : Z) (d : VringDesc) (k : VringDesc -> VM (option A)) : VM (option A) :=
  d' <- GetDesc q (d_next d) ;; match d' with None => mret' None | Some d' => k d' end.

Fixpoint sizes_wr (n : nat) (q : Z) (d : VringDesc) (nrd nwr : Z) : VM (option (Z * Z)) :=
  if negb (is_write d) then mret' None
  else
    let nwr := i32 (nwr + d_len d) in
    if negb (has_next d) then mret' (Some (nrd, nwr))
    else next_desc q d (fun d' => match n with O => abort OutOfFuel | S n => sizes_wr n q d' nrd nwr end).

Fixpoint sizes_rd (n : nat) (q : Z) (d : VringDesc) (nrd : Z) : VM (option (Z * Z)) :=
  if is_write d then sizes_wr n q d nrd 0
  else
    let nrd := i32 (nrd + d_len d) in
    if negb (has_next d) then mret' (Some (nrd, 0))
    else next_desc q d (fun d' => match n with O => abort OutOfFuel | S n => sizes_rd n q d' nrd end).

Definition ChainSizes (n : nat) (q idx : Z) : VM (option (Z * Z)) :=
  d <- GetDesc q idx ;; match d with None => mret' None | Some d => sizes_rd n q d 0 end.

(** [CopyChain]: to the first writable descriptor, ... *)
Fixpoint skip_readable (n : nat) (q : Z) (d : VringDesc) : VM (option VringDesc) :=
  if is_write d then mret' (Some d)
  else if negb (has_next d) then mret' None
  else next_desc q d (fun d' => match n with O => abort OutOfFuel | S n => skip_readable n q d' end).

(** ... to the descriptor that holds [offset], ... *)
Fixpoint seek (n : nat) (q : Z) (want : bool) (d : VringDesc) (offset : Z) : VM (option (VringDesc * Z)) :=
  if negb (eqb (is_write d) want) then mret' None
  else if offset <? s32 (d_len d) then mret' (Some (d, offset))
  else if negb (has_next d) then mret' None
  else next_desc q d (fun d' =>
    match n with O => abort OutOfFuel | S n => seek n q want d' (i32 (offset - d_len d)) end).

(** ... and the copy itself, out of guest memory or into it. *)
Fixpoint copy_in (n : nat) (q : Z) (d : VringDesc) (offset len : Z) : VM (option (list Z)) :=
  let l := Z.min len (i32 (s32 (d_len d) - offset)) in
  r <- on_mem (ReadPhys (u64 (d_addr d + offset)) (u64 l) len) ;;
  match r with
  | None => mret' None
  | Some b =>
      let len := i32 (len - l) in
      if len =? 0 then mret' (Some b)
      else
        let offset := i32 (offset + l) in
        r <- (if offset =? s32 (d_len d) then
                if negb (has_next d) then mret' None
                else next_desc q d (fun d' =>
                  if is_write d' then mret' None
                  else match n with O => abort OutOfFuel | S n => copy_in n q d' 0 len end)
              else match n with O => abort OutOfFuel | S n => copy_in n q d offset len end) ;;
        mret' (match r with Some bs => Some (b ++ bs) | None => None end)
  end.

Fixpoint copy_out (n : nat) (q : Z) (d : VringDesc) (offset : Z) (bs : list Z) (len : Z) : VM (option unit) :=
  let l := Z.min len (i32 (s32 (d_len d) - offset)) in
  ok <- on_mem (WritePhys (u64 (d_addr d + offset)) bs (u64 l)) ;;
  if negb ok then mret' None
  else
    let len := i32 (len - l) in
    if len =? 0 then mret' (Some tt)
    else
      let offset := i32 (offset + l) in
      let bs := drop (Z.to_nat l) bs in
      if offset =? s32 (d_len d) then
        if negb (has_next d) then mret' None
        else next_desc q d (fun d' =>
          if negb (is_write d') then mret' None
          else match n with O => abort OutOfFuel | S n => copy_out n q d' 0 bs len end)
      else match n with O => abort OutOfFuel | S n => copy_out n q d offset bs len end.

Definition VirtioCopyFromChain (n : nat) (q idx offset len : Z) : VM (option (list Z)) :=
  if len =? 0 then mret' (Some [])
  else
    d <- GetDesc q idx ;;
    match d with
    | None => mret' None
    | Some d =>
        r <- seek n q false d offset ;;
        match r with None => mret' None | Some (d, offset) => copy_in n q d offset len end
    end.

Definition VirtioCopyToChain (n : nat) (q idx offset : Z) (bs : list Z) (len : Z) : VM (option unit) :=
  if len =? 0 then mret' (Some tt)
  else
    d <- GetDesc q idx ;;
    match d with
    | None => mret' None
    | Some d =>
        w <- skip_readable n q d ;;
        match w with
        | None => mret' None
        | Some d =>
            r <- seek n q true d offset ;;
            match r with None => mret' None | Some (d, offset) => copy_out n q d offset bs len end
        end
    end.

(** ** Rings *)

Definition VirtioConsumeChain (q idx written : Z) : VM unit :=
  qs <- getq q ;;
  let used_idx_addr := u64 (vq_used qs + 2) in
  used_idx <- ReadPhys16 used_idx_addr ;;
  let slot := u64 (vq_used qs + 4 + (used_idx .& u32 (vq_num qs - 1)) * 8) in
  WritePhys32 slot (u32 idx) ;;;
  WritePhys32 (u64 (slot + 4)) (u32 written) ;;;
  WritePhys16 used_idx_addr (u16 (used_idx + 1)) ;;;
  moddev (fun v => v <| v_int_status := v_int_status v .| kVirtioIntUsedRing |>) ;;;
  set_irq true.

Definition avail_entry (qs : VirtioQueue) : VM Z :=
  ReadPhys16 (u64 (vq_avail qs + 4 + (vq_last qs .& u32 (vq_num qs - 1)) * 2)).

Definition bump_last (q : Z) : VM unit := modq q (fun qs => qs <| vq_last := u16 (vq_last qs + 1) |>).

(** The backend's handler of one chain: queue, head, readable and writable
    bytes.  True for a nonzero result, which leaves the chain for later. *)
Variable recv : Z -> Z -> Z -> Z -> VM bool.

(** The loop of [VirtioNotifyQueue]; [m] bounds the chain walk. *)
Fixpoint drain (n m : nat) (q avail_idx : Z) : VM unit :=
  qs <- getq q ;;
  if vq_last qs =? avail_idx then mret' tt
  else
    idx <- avail_entry qs ;;
    sz <- ChainSizes m q idx ;;
    match sz with
    | None =>
        bump_last q ;;;
        match n with O => abort OutOfFuel | S n => drain n m q avail_idx end
    | Some (rd, wr) =>
        busy <- recv q idx rd wr ;;
        if busy : bool then mret' tt
        else
          bump_last q ;;;
          qs <- getq q ;;
          avail_idx <- ReadPhys16 (u64 (vq_avail qs + 2)) ;;
          match n with O => abort OutOfFuel | S n => drain n m q avail_idx end
    end.

Definition VirtioNotifyQueue (n m : nat) (q : Z) : VM unit :=
  qs <- getq q ;;
  if vq_manual qs then mret' tt
  else if vq_num qs =? 0 then mret' tt
  else avail_idx <- ReadPhys16 (u64 (vq_avail qs + 2)) ;; drain n m q avail_idx.

Definition VirtioQueueAvail (q : Z) : VM Z :=
  qs <- getq q ;; if vq_num qs =? 0 then mret' 0 else ReadPhys16 (u64 (vq_avail qs + 2)).

(** -1 for none. *)
Definition VirtioManualChain (q : Z) : VM Z :=
  qs <- getq q ;;
  if vq_num qs =? 0 then mret' (-1)
  else
    avail_idx <- ReadPhys16 (u64 (vq_avail qs + 2)) ;;
    if vq_last qs =? avail_idx then mret' (-1) else avail_entry qs.

Definition VirtioManualFill (n : nat) (q : Z) (bs : list Z) (len : Z) : VM Z :=
  idx <- VirtioManualChain q ;;
  if idx <? 0 then mret' 0
  else
    r <- VirtioCopyToChain n q idx 0 bs len ;;
    match r with
    | None => mret' 0
    | Some _ => VirtioConsumeChain q idx len ;;; bump_last q ;;; mret' len
    end.

(** ** Reset and the register file *)

Variables reset_hook config_hook : VM unit.

Definition reset_queue (qs : VirtioQueue) : VirtioQueue := mkVq 0 0 0 0 0 0 false (vq_manual qs).

Definition reset_fields (v : VirtioDevice) : VirtioDevice :=
  mkVd (v_device_id v) (v_vendor_id v) (v_version v) (v_device_features v) 0 (v_status v) 0 0 0 0 12 0x1000
    (reset_queue <$> v_queue v) (v_config v) (v_config_size v) (v_set_irq v).

Definition TransportReset : VM unit := moddev reset_fields ;;; reset_hook.

(** The device [VirtioInit] leaves; its reset runs before any hook is set. *)
Definition VirtioInit (device_id vendor_id features version config_size : Z) : VirtioDevice :=
  reset_fields (mkVd device_id vendor_id version features 0 0 0 0 0 0 0 0 (replicate 64 vq_zero) (replicate 256 0)
    config_size false).

Definition FeatureWord (features sel : Z) : Z := if sel <? 2 then u32 (features .>> (32 * sel)) else 0.

Definition MmioRead (v : VirtioDevice) (addr size : Z) : Z :=
  let addr := addr .& 0xfff in
  if kVirtioMmioConfig <=? addr then
    let off := addr - kVirtioMmioConfig in
    if v_config_size v <? off + size then 0
    else le_val (take (Z.to_nat size) (drop (Z.to_nat off) (v_config v)))
  else if negb (size =? 4) then 0
  else
    let qs := arr (v_queue v) (v_queue_sel v) in
    switch addr
      [(kVirtioMmioMagic, kVirtioMagicValue);
       (kVirtioMmioVersion, v_version v);
       (kVirtioMmioDeviceId, v_device_id v);
       (kVirtioMmioVendorId, v_vendor_id v);
       (kVirtioMmioDeviceFeatures, FeatureWord (v_device_features v) (v_device_features_sel v));
       (kVirtioMmioDeviceFeaturesSel, v_device_features_sel v);
       (kVirtioMmioDriverFeatures, FeatureWord (v_guest_features v) (v_driver_features_sel v));
       (kVirtioMmioDriverFeaturesSel, v_driver_features_sel v);
       (kVirtioMmioQueueSel, v_queue_sel v);
       (kVirtioMmioQueueNumMax, kVirtioMaxQueueNum);
       (kVirtioMmioQueueNum, vq_num qs);
       (kVirtioMmioQueuePfn, vq_pfn qs);
       (kVirtioMmioQueueReady, b2z (vq_ready qs));
       (kVirtioMmioQueueDescLow, u32 (vq_desc qs));
       (kVirtioMmioQueueDescHigh, u32 (vq_desc qs .>> 32));
       (kVirtioMmioQueueDriverLow, u32 (vq_avail qs));
       (kVirtioMmioQueueDriverHigh, u32 (vq_avail qs .>> 32));
       (kVirtioMmioQueueDeviceLow, u32 (vq_used qs));
       (kVirtioMmioQueueDeviceHigh, u32 (vq_used qs .>> 32));
       (kVirtioMmioConfigGeneration, 0);
       (kVirtioMmioInterruptStatus, v_int_status v);
       (kVirtioMmioStatus, v_status v)] 0.

Definition SetAddrWord (a val : Z) (high : bool) : Z :=
  if high then (a .& 0xffffffff) .| (val .<< 32) else (a &~ 0xffffffff) .| val.

(** [while ((1ull << shift) < sz) shift++] for a 32-bit [sz]. *)
Fixpoint shift_for (n : nat) (shift sz : Z) : Z :=
  match n with O => shift | S n => if 2 ^ shift <? sz then shift_for n (shift + 1) sz else shift end.

(** The addresses of a legacy queue. *)
Definition queue_pfn (val page_shift align : Z) (qs : VirtioQueue) : VirtioQueue :=
  let desc := u64 (val .<< page_shift) in
  let avail := u64 (desc + vq_num qs * 16) in
  let used := u64 (avail + 6 + vq_num qs * 2 + align - 1) &~ (align - 1) in
  mkVq (vq_num qs) val desc avail used 0 (vq_ready qs) (vq_manual qs).

Definition queue_ready (val : Z) (qs : VirtioQueue) : VirtioQueue :=
  let ready := tst val 1 in
  let qs' := qs <| vq_ready := ready |> in
  if negb (vq_ready qs) && ready then qs' <| vq_last := 0 |> else qs'.

(** [n], [m]: the bounds of the notification's loops. *)
Definition MmioWrite (n m : nat) (addr size val64 : Z) : VM unit :=
  let val := u32 val64 in
  let addr := addr .& 0xfff in
  v <- getdev ;;
  if kVirtioMmioConfig <=? addr then
    let off := addr - kVirtioMmioConfig in
    if off + size <=? v_config_size v then
      if 4 <? size then abort OutOfBounds
      else
        moddev (fun v => v <| v_config := splice off (le_bytes (Z.to_nat size) val) (v_config v) |>) ;;;
        config_hook
    else mret' tt
  else if negb (size =? 4) then mret' tt
  else
    let legacy := v_version v =? 1 in
    let modern := v_version v =? 2 in
    let sel := v_queue_sel v in
    switch addr
      [(kVirtioMmioDeviceFeaturesSel, moddev (fun v => v <| v_device_features_sel := val |>));
       (kVirtioMmioDriverFeatures,
        when v_driver_features_sel v <? 2 do
          let shift := 32 * v_driver_features_sel v in
          moddev (fun v => v <| v_guest_features :=
            (v_guest_features v &~ (0xffffffff .<< shift)) .| (val .<< shift) |>));
       (kVirtioMmioDriverFeaturesSel, moddev (fun v => v <| v_driver_features_sel := val |>));
       (kVirtioMmioGuestPageSize, when legacy do moddev (fun v => v <| v_page_shift := shift_for 20 12 val |>));
       (kVirtioMmioQueueSel, when val <? kVirtioMaxQueue do moddev (fun v => v <| v_queue_sel := val |>));
       (kVirtioMmioQueueNum,
        when (0 <? val) && (val .& (val - 1) =? 0) && (val <=? kVirtioMaxQueueNum) do
          modq sel (fun qs => qs <| vq_num := val |>));
       (kVirtioMmioQueueAlign,
        when legacy do moddev (fun v => v <| v_align := if val <? 0x1000 then 0x1000 else val |>));
       (kVirtioMmioQueuePfn, when legacy do modq sel (queue_pfn val (v_page_shift v) (v_align v)));
       (kVirtioMmioQueueReady, when modern do modq sel (queue_ready val));
       (kVirtioMmioQueueDescLow, when modern do modq sel (fun qs => qs <| vq_desc := SetAddrWord (vq_desc qs) val false |>));
       (kVirtioMmioQueueDescHigh, when modern do modq sel (fun qs => qs <| vq_desc := SetAddrWord (vq_desc qs) val true |>));
       (kVirtioMmioQueueDriverLow, when modern do modq sel (fun qs => qs <| vq_avail := SetAddrWord (vq_avail qs) val false |>));
       (kVirtioMmioQueueDriverHigh, when modern do modq sel (fun qs => qs <| vq_avail := SetAddrWord (vq_avail qs) val true |>));
       (kVirtioMmioQueueDeviceLow, when modern do modq sel (fun qs => qs <| vq_used := SetAddrWord (vq_used qs) val false |>));
       (kVirtioMmioQueueDeviceHigh, when modern do modq sel (fun qs => qs <| vq_used := SetAddrWord (vq_used qs) val true |>));
       (kVirtioMmioQueueNotify, when val <? kVirtioMaxQueue do VirtioNotifyQueue n m val);
       (kVirtioMmioInterruptAck,
        moddev (fun v => v <| v_int_status := v_int_status v &~ val |>) ;;;
        v <- getdev ;; when v_int_status v =? 0 do set_irq false);
       (kVirtioMmioStatus,
        moddev (fun v => v <| v_status := val |>) ;;;
        when val =? 0 do (set_irq false ;;; TransportReset))] (mret' tt).
End transport.

(** An advertised slot with no device. *)
Definition MmioEmptyRead (addr size : Z) : Z :=
  switch (addr .& 0xfff)
    [(kVirtioMmioMagic, kVirtioMagicValue); (kVirtioMmioVersion, 1); (kVirtioMmioVendorId, kVirtioVendorId)] 0.
