(* ===== verification/VirtioProps.v ===== *)
(** * Properties of the virtio transport

    Guest memory as the transport sees it, descriptor chains as lists, and
    the copies as gathers and scatters over the addresses a chain names. *)

From S2P Require Import Prelude Bus Ram HostMem Virtio.

(** ** 32-bit [int] arithmetic *)

Lemma i32_small x : - 2 ^ 31 <= x < 2 ^ 31 -> i32 x = x.
Proof. intros Hx. unfold i32. apply (signed_wrap 32); [lia|exact Hx]. Qed.

Lemma i32_add a b : i32 (i32 a + b) = i32 (a + b).
Proof.
  unfold i32. f_equal. unfold wrap. rewrite <- Zplus_mod_idemp_l. rewrite <- (Zplus_mod_idemp_l a). f_equal. f_equal.
  pose proof (wrap_signed 32 (a mod 2 ^ 32) ltac:(lia) ltac:(apply (rng_wrap 32); lia)) as Hw.
  unfold wrap in Hw. exact Hw.
Qed.

Lemma i32_idem a : i32 (i32 a) = i32 a.
Proof. pose proof (i32_add a 0) as E. by rewrite !Z.add_0_r in E. Qed.

Lemma s32_small x : 0 <= x < 2 ^ 31 -> s32 x = x.
Proof. intros Hx. unfold signed. change (2 ^ (32 - 1)) with (2 ^ 31). by rewrite (proj2 (Z.ltb_lt _ _)) by lia. Qed.

Section mem.
Context {Ops Dev W : Type} `{HostBytes Ops Dev W} (bus : Bus Ops Dev) (base size : Z) (h : host_ptr Dev).
Context `{!GuestRam bus base size h}.
Implicit Types (w : W) (bs : list Z).

(** The byte at a guest address. *)
Definition at_ (a : Z) : host_ptr Dev := hp_add h (a - base).
Definition gget (a : Z) w : Z := hget (at_ a) w.

(** Bytes gathered from, and scattered to, a list of addresses. *)
Definition gather (l : list Z) w : list Z := (fun a => gget a w) <$> l.
Fixpoint scatter (l : list Z) bs w : W :=
  match l, bs with a :: l, b :: bs => scatter l bs (hset (at_ a) b w) | _, _ => w end.

Definition in_ram (a n : Z) : Prop := base <= a /\ 0 <= n /\ a + n <= base + size.

Lemma at_inj a b : at_ a = at_ b -> a = b.
Proof. unfold at_, hp_add. intros [= E]. lia. Qed.

Lemma gget_set a b x w : rng 8 x -> gget b (hset (at_ a) x w) = if bool_decide (a = b) then x else gget b w.
Proof.
  intros Hx. unfold gget. case_bool_decide as E; [subst; by apply hb_same|]. apply hb_other. intros E'%at_inj. by subst.
Qed.

Lemma gget_scatter_ne l bs w b : Forall (rng 8) bs -> b ∉ take (length bs) l -> gget b (scatter l bs w) = gget b w.
Proof.
  intros Hb. revert l w. induction Hb as [|x bs Hx _ IH]; intros [|a l] w; cbn [scatter length take]; [done..|].
  rewrite not_elem_of_cons. intros [Hne Hni]. rewrite IH by done. rewrite gget_set by done.
  by rewrite bool_decide_false by congruence.
Qed.

Lemma gather_scatter l bs w : Forall (rng 8) bs -> NoDup l -> length l = length bs -> gather l (scatter l bs w) = bs.
Proof.
  intros Hb Hn. revert l w Hn. induction Hb as [|x bs Hx Hb IH]; intros [|a l] w Hn Hl; try done.
  apply NoDup_cons in Hn as [Ha Hn]. injection Hl as Hl. cbn [scatter]. unfold gather. rewrite fmap_cons. f_equal.
  - rewrite gget_scatter_ne; [|done|].
    + rewrite gget_set by done. by rewrite bool_decide_true.
    + intros Hi. apply Ha. by eapply elem_of_take in Hi as (i & Hi%list_elem_of_lookup_2 & _).
  - by apply IH.
Qed.

Lemma gather_agree l w w' : (forall a, a ∈ l -> gget a w = gget a w') -> gather l w = gather l w'.
Proof. intros Ha. unfold gather. apply list_fmap_ext. intros i a Hi. apply Ha. by eapply list_elem_of_lookup_2. Qed.

Lemma seqZ_S' m n : 0 <= n -> seqZ m (n + 1) = m :: seqZ (m + 1) n.
Proof. intros Hn. rewrite seqZ_cons by lia. f_equal. f_equal; lia. Qed.

Lemma host_read_gather a n w : host_read (at_ a) n w = gather (seqZ a (Z.of_nat n)) w.
Proof.
  revert a. induction n as [|n IH]; intros a; [done|]. cbn [host_read].
  replace (Z.of_nat (S n)) with (Z.of_nat n + 1) by lia. rewrite seqZ_S' by lia. unfold gather. rewrite fmap_cons.
  f_equal. replace (hp_add (at_ a) 1) with (at_ (a + 1)) by (unfold at_; rewrite hp_add_add; f_equal; lia). apply IH.
Qed.

Lemma host_write_scatter a bs w : host_write (at_ a) bs w = scatter (seqZ a (Z.of_nat (length bs))) bs w.
Proof.
  revert a w. induction bs as [|b bs IH]; intros a w; [by destruct (seqZ _ _)|]. cbn [host_write length].
  replace (Z.of_nat (S (length bs))) with (Z.of_nat (length bs) + 1) by lia. rewrite seqZ_S' by lia. cbn [scatter].
  replace (hp_add (at_ a) 1) with (at_ (a + 1)) by (unfold at_; rewrite hp_add_add; f_equal; lia). apply IH.
Qed.

Lemma scatter_app l l' bs bs' w : length l = length bs -> scatter (l ++ l') (bs ++ bs') w = scatter l' bs' (scatter l bs w).
Proof. revert bs w. induction l as [|a l IH]; intros [|b bs] w Hl; try done. cbn. apply IH. by injection Hl. Qed.

Lemma seqZ_split a n k : 0 <= k <= n -> seqZ a n = seqZ a k ++ seqZ (a + k) (n - k).
Proof. intros Hk. rewrite <- seqZ_app by lia. f_equal. lia. Qed.

(** ** The page loops *)

Lemma page_piece_bounds a n : 0 < n -> 1 <= page_piece a n <= n.
Proof.
  intros Hn. unfold page_piece. pose proof (rng_land_ones a 12 12 ltac:(lia)) as Hr. change (2 ^ 12 - 1) with 0xfff in Hr.
  unfold rng in Hr. lia.
Qed.

Lemma ram_piece a n : in_ram a n -> RamPtr bus a n = Some (at_ a) /\ ram_room bus a n = base + size - a.
Proof.
  intros (H1 & H2 & H3). split; [by apply gr_range|]. destruct (gr_region a n H1 H2 H3) as (r & E & Hb & Hs & _).
  unfold ram_room. rewrite E. by rewrite Hb, Hs.
Qed.

Lemma ReadPhys_ok addr len cap w : in_ram addr len -> len <= cap ->
  ReadPhys bus addr len cap w = Done (Some (gather (seqZ addr len) w)) w.
Proof.
  unfold ReadPhys. intros Hr Hc. assert (Hn : len <= Z.of_nat (Z.to_nat cap)) by (destruct Hr; lia).
  revert Hn. generalize (Z.to_nat cap) as n. intros n. revert addr len cap Hr Hc.
  induction n as [|n IH]; intros addr len cap Hr Hc Hn; cbn [ReadPhys_loop].
  - destruct Hr as (? & ? & ?). assert (len = 0) as -> by lia. done.
  - destruct (Z.leb_spec len 0) as [Hl|Hl]; [destruct Hr as (? & ? & ?); by assert (len = 0) as -> by lia|].
    pose proof (page_piece_bounds addr len Hl) as Hp. set (l := page_piece addr len) in *. destruct Hr as (Hr1 & Hr2 & Hr3).
    destruct (ram_piece addr l) as [-> ->]; [unfold in_ram; lia|].
    rewrite (proj2 (Z.leb_le l cap)), (proj2 (Z.leb_le l (base + size - addr))) by lia. cbn [andb].
    unfold mbind', gets. pose proof (gr_base (bus:=bus) (base:=base) (size:=size) (h:=h)).
    pose proof (gr_top (bus:=bus) (base:=base) (size:=size) (h:=h)).
    rewrite (wrap_small 64 (addr + l)) by (unfold rng; lia). rewrite IH by (unfold in_ram; lia). unfold mret'. do 2 f_equal.
    rewrite host_read_gather, Z2Nat.id by lia. rewrite (seqZ_split addr len l) by lia. unfold gather.
    by rewrite fmap_app.
Qed.

Lemma WritePhys_ok addr bs len w : in_ram addr len -> len <= Z.of_nat (length bs) ->
  WritePhys bus addr bs len w = Done true (scatter (seqZ addr len) bs w).
Proof.
  unfold WritePhys. intros Hr Hc. pose proof Hc as Hn. remember (length bs) as n eqn:E in Hn |- *. clear E. revert Hn. revert addr len bs w Hr Hc.
  induction n as [|n IH]; intros addr len bs w Hr Hc Hn; cbn [WritePhys_loop].
  - destruct Hr as (? & ? & ?). assert (len = 0) as -> by lia. done.
  - destruct (Z.leb_spec len 0) as [Hl|Hl]; [destruct Hr as (? & ? & ?); by assert (len = 0) as -> by lia|].
    pose proof (page_piece_bounds addr len Hl) as Hp. set (l := page_piece addr len) in *. destruct Hr as (Hr1 & Hr2 & Hr3).
    destruct (ram_piece addr l) as [-> ->]; [unfold in_ram; lia|].
    rewrite (proj2 (Z.leb_le l _)), (proj2 (Z.leb_le l (base + size - addr))) by lia. cbn [andb].
    unfold mbind', modify. pose proof (gr_base (bus:=bus) (base:=base) (size:=size) (h:=h)).
    pose proof (gr_top (bus:=bus) (base:=base) (size:=size) (h:=h)).
    rewrite (wrap_small 64 (addr + l)) by (unfold rng; lia).
    rewrite IH by (rewrite ?length_drop; unfold in_ram; lia). f_equal.
    rewrite host_write_scatter, (seqZ_split addr len l) by lia.
    rewrite length_take, Nat.min_l, Z2Nat.id by lia.
    transitivity (scatter (seqZ addr l ++ seqZ (addr + l) (len - l)) (take (Z.to_nat l) bs ++ drop (Z.to_nat l) bs) w);
      [|by rewrite take_drop].
    by rewrite scatter_app by (rewrite length_seqZ, length_take; lia).
Qed.
End mem.

(** ** Descriptor chains as lists *)

Section chains.
Context {Ops Dev W B : Type} `{HostBytes Ops Dev W} (bus : Bus Ops Dev) (base size : Z) (h : host_ptr Dev).
Context `{!GuestRam bus base size h}.
Implicit Types (w : W) (s : VState W B) (d : VringDesc) (ds : list VringDesc).
#[local] Abbreviation gather := (gather base h).
#[local] Abbreviation scatter := (scatter base h).
#[local] Abbreviation in_ram := (in_ram base size).

Definition with_mem s w : VState W B := mkVs (vs_dev s) (vs_be s) w (vs_irq s).

Lemma with_mem_id s : with_mem s (vs_mem s) = s.
Proof. by destruct s. Qed.

Lemma on_mem_done {A} (p : M W A) s a w : p (vs_mem s) = Done a w -> on_mem p s = Done a (with_mem s w).
Proof. unfold on_mem. by intros ->. Qed.

Lemma on_mem_read {A} (p : M W A) s a : p (vs_mem s) = Done a (vs_mem s) -> on_mem p s = Done a s.
Proof. intros E. by rewrite (on_mem_done _ _ _ _ E), with_mem_id. Qed.

Definition entry_addrs (tbl idx : Z) : list Z := seqZ (tbl + idx * 16) 16.
Definition desc_at w (tbl idx : Z) : VringDesc := desc_of_bytes (gather (entry_addrs tbl idx) w).
Definition entry_ok (tbl idx : Z) : Prop := in_ram (tbl + idx * 16) 16.

(** [ds] are the descriptors that follow [d] in memory. *)
Fixpoint links w (tbl : Z) d ds : Prop :=
  match ds with
  | [] => has_next d = false
  | d' :: ds => has_next d = true /\ entry_ok tbl (d_next d) /\ d' = desc_at w tbl (d_next d) /\ links w tbl d' ds
  end.

Definition chain w (tbl idx : Z) d ds : Prop := entry_ok tbl idx /\ d = desc_at w tbl idx /\ links w tbl d ds.

(** The table entries a walk from [d] reads. *)
Fixpoint entries (tbl : Z) d ds : list Z :=
  match ds with [] => [] | d' :: ds => entry_addrs tbl (d_next d) ++ entries tbl d' ds end.

Definition sum_len ds : Z := foldr (fun d a => d_len d + a) 0 ds.

(** The longest prefix of one direction, and what follows it. *)
Fixpoint run_of (want : bool) ds : list VringDesc :=
  match ds with [] => [] | d :: ds => if eqb (is_write d) want then d :: run_of want ds else [] end.
Fixpoint rest_of (want : bool) ds : list VringDesc :=
  match ds with [] => [] | d :: ds' => if eqb (is_write d) want then rest_of want ds' else ds end.

(** The guest addresses a run names, in order. *)
Definition addrs ds : list Z := concat ((fun d => seqZ (d_addr d) (d_len d)) <$> ds).

Definition buf_ok d : Prop := in_ram (d_addr d) (d_len d) /\ d_len d < 2 ^ 31.

Lemma GetDesc_ok s q idx : entry_ok (vq_desc (arr (v_queue (vs_dev s)) q)) idx ->
  GetDesc bus q idx s = Done (Some (desc_at (vs_mem s) (vq_desc (arr (v_queue (vs_dev s)) q)) idx)) s.
Proof.
  intros He. unfold GetDesc, getq, mbind', gets. set (tbl := vq_desc _) in *.
  pose proof (gr_base (bus:=bus) (base:=base) (size:=size) (h:=h)).
  pose proof (gr_top (bus:=bus) (base:=base) (size:=size) (h:=h)). unfold entry_ok, in_ram in He.
  rewrite (wrap_small 64 (tbl + idx * 16)) by (unfold rng; lia).
  erewrite on_mem_read; [|by apply (ReadPhys_ok bus base size h)]. done.
Qed.

Lemma next_desc_ok {A} s q d (k : VringDesc -> M (VState W B) (option A)) :
  entry_ok (vq_desc (arr (v_queue (vs_dev s)) q)) (d_next d) ->
  next_desc bus q d k s = k (desc_at (vs_mem s) (vq_desc (arr (v_queue (vs_dev s)) q)) (d_next d)) s.
Proof. intros He. unfold next_desc, mbind'. by rewrite GetDesc_ok. Qed.

Section walk.
Variables (s : VState W B) (q : Z).
#[local] Abbreviation tbl := (vq_desc (arr (v_queue (vs_dev s)) q)).
#[local] Abbreviation mem := (vs_mem s).

Lemma sizes_wr_ok n d ds nrd nwr : links mem tbl d ds -> (length ds <= n)%nat ->
  sizes_wr bus n q d nrd nwr s =
  Done (if forallb is_write (d :: ds) then Some (nrd, i32 (nwr + sum_len (d :: ds))) else None) s.
Proof.
  revert d ds nwr. induction n as [|n IH]; intros d ds nwr Hl Hn; cbn [sizes_wr forallb].
  all: destruct (is_write d); cbn [negb andb]; [|done].
  all: destruct ds as [|d' ds]; cbn [links length] in Hl, Hn; [rewrite Hl; cbn; by rewrite Z.add_0_r|try lia].
  destruct Hl as (-> & He & -> & Hl). cbn [negb]. rewrite next_desc_ok by done. rewrite (IH _ ds) by (done || lia).
  case_match; [|done]. do 3 f_equal. rewrite i32_add. f_equal. cbn. lia.
Qed.

Definition chain_sizes ds : option (Z * Z) :=
  if forallb is_write (rest_of false ds)
  then Some (i32 (sum_len (run_of false ds)), i32 (sum_len (rest_of false ds))) else None.

Lemma sizes_rd_ok n d ds nrd : links mem tbl d ds -> (length ds <= n)%nat -> i32 nrd = nrd ->
  sizes_rd bus n q d nrd s =
  Done (if forallb is_write (rest_of false (d :: ds))
        then Some (i32 (nrd + sum_len (run_of false (d :: ds))), i32 (sum_len (rest_of false (d :: ds)))) else None) s.
Proof.
  revert d ds nrd. induction n as [|n IH]; intros d ds nrd Hl Hn Hr; cbn [sizes_rd rest_of run_of].
  all: destruct (is_write d) eqn:Ew; cbn [eqb];
    [rewrite (sizes_wr_ok _ d ds) by done; cbn [sum_len foldr]; by rewrite Z.add_0_r, Hr|].
  all: destruct ds as [|d' ds]; cbn [links length] in Hl, Hn; [rewrite Hl; cbn; by rewrite Z.add_0_r|try lia].
  destruct Hl as (-> & He & -> & Hl). cbn [negb]. rewrite next_desc_ok by done.
  rewrite (IH _ ds); [|done|lia|by apply i32_idem].
  case_match; [|done]. do 3 f_equal. rewrite i32_add. f_equal. cbn. lia.
Qed.

Lemma ChainSizes_ok n idx d ds : chain mem tbl idx d ds -> (length ds <= n)%nat ->
  ChainSizes bus n q idx s = Done (chain_sizes (d :: ds)) s.
Proof.
  intros (He & -> & Hl) Hn. unfold ChainSizes, mbind'. rewrite GetDesc_ok by done. by rewrite (sizes_rd_ok _ _ ds).
Qed.

Lemma skip_ok n d ds : links mem tbl d ds -> (length ds <= n)%nat ->
  match rest_of false (d :: ds) with
  | [] => skip_readable bus n q d s = Done None s
  | d' :: ds' => skip_readable bus n q d s = Done (Some d') s /\ links mem tbl d' ds' /\ (length ds' <= length ds)%nat /\
      is_write d' = true
  end.
Proof.
  revert d ds. induction n as [|n IH]; intros d ds Hl Hn; cbn [skip_readable rest_of].
  all: destruct (is_write d) eqn:Ew; cbn [eqb]; [by split_and!|].
  all: destruct ds as [|d' ds]; cbn [links length] in Hl, Hn; [by rewrite Hl|try lia].
  destruct Hl as (-> & He & -> & Hl). cbn [negb]. rewrite next_desc_ok by done.
  specialize (IH _ ds Hl ltac:(lia)). destruct (rest_of false _); [done|]. destruct IH as (? & ? & ? & ?).
  split_and!; [done..|simpl; lia|done].
Qed.

Lemma length_addrs ds : Forall (fun d => 0 <= d_len d) ds -> Z.of_nat (length (addrs ds)) = sum_len ds.
Proof.
  unfold addrs. induction 1 as [|d ds Hd _ IH]; [done|]. rewrite fmap_cons. cbn [concat sum_len foldr].
  rewrite length_app, length_seqZ. unfold sum_len in IH. lia.
Qed.

Lemma bufs_len ds : Forall buf_ok ds -> Forall (fun d => 0 <= d_len d) ds.
Proof. intros Hb. eapply Forall_impl; [exact Hb|]. intros d [(_ & ? & _) _]. done. Qed.

Lemma sum_len_nonneg ds : Forall buf_ok ds -> 0 <= sum_len ds.
Proof. intros Hb%bufs_len. rewrite <- length_addrs by done. lia. Qed.

Lemma seek_ok n want d ds off : links mem tbl d ds -> (length ds <= n)%nat -> 0 <= off < 2 ^ 31 ->
  Forall buf_ok (run_of want (d :: ds)) ->
  if sum_len (run_of want (d :: ds)) <=? off then seek bus n q want d off s = Done None s
  else exists d' ds' off', seek bus n q want d off s = Done (Some (d', off')) s /\ links mem tbl d' ds' /\
    (length ds' <= length ds)%nat /\ is_write d' = want /\ 0 <= off' < d_len d' /\
    Forall buf_ok (run_of want (d' :: ds')) /\ sum_len (run_of want (d' :: ds')) - off' = sum_len (run_of want (d :: ds)) - off /\
    drop (Z.to_nat off') (addrs (run_of want (d' :: ds'))) = drop (Z.to_nat off) (addrs (run_of want (d :: ds))) /\
    suffix (entries tbl d' ds') (entries tbl d ds) /\ suffix (addrs (run_of want (d' :: ds'))) (addrs (run_of want (d :: ds))).
Proof.
  revert d ds off. induction n as [|n IH]; intros d ds off Hl Hn Ho Hb; cbn [seek].
  all: assert (Hr : run_of want (d :: ds) = if eqb (is_write d) want then d :: run_of want ds else []) by done.
  all: rewrite Hr in *; clear Hr; destruct (eqb (is_write d) want) eqn:Ew; cbn [negb];
    [|cbn [sum_len foldr]; by rewrite (proj2 (Z.leb_le _ _)) by lia].
  all: apply Forall_cons in Hb as [Hd Hb]; pose proof (sum_len_nonneg _ Hb) as Hs; cbn [sum_len foldr];
    fold (sum_len (run_of want ds)); destruct Hd as [Hd1 Hd2]; unfold in_ram in Hd1;
    rewrite s32_small by lia; destruct (Z.ltb_spec off (d_len d)).
  1, 3: rewrite (proj2 (Z.leb_gt _ _)) by lia; exists d, ds, off; cbn [run_of]; rewrite Ew; cbn [sum_len foldr];
    apply eqb_prop in Ew; split_and!; (done || lia || by apply Forall_cons).
  all: destruct ds as [|d' ds]; cbn [links length] in Hl, Hn;
    [rewrite Hl; cbn [negb run_of sum_len foldr]; by rewrite (proj2 (Z.leb_le _ _)) by lia|try lia].
  destruct Hl as (-> & He & -> & Hl). cbn [negb]. rewrite next_desc_ok by done. rewrite i32_small by lia.
  specialize (IH _ ds (off - d_len d) Hl ltac:(lia) ltac:(lia) Hb). set (d' := desc_at mem tbl (d_next d)) in *.
  set (r := run_of want (d' :: ds)) in *.
  replace (d_len d + sum_len r <=? off) with (sum_len r <=? off - d_len d)
    by (destruct (Z.leb_spec (sum_len r) (off - d_len d)), (Z.leb_spec (d_len d + sum_len r) off); (done || lia)).
  destruct (_ <=? _); [done|]. destruct IH as (d2 & ds2 & off2 & E1 & E2 & E3 & E4 & E5 & E6 & E7 & E8 & E9 & E10).
  exists d2, ds2, off2. split_and!; try done; try lia.
  - simpl; lia.
  - rewrite E8. unfold addrs at 2. rewrite fmap_cons. cbn [concat]. rewrite drop_app_ge by (rewrite length_seqZ; lia).
    rewrite length_seqZ. f_equal. lia.
  - cbn [entries]. by apply suffix_app_r.
  - unfold addrs at 2. rewrite fmap_cons. cbn [concat]. by apply suffix_app_r.
Qed.

Lemma copy_in_ok n d ds off len : links mem tbl d ds -> (length ds <= n)%nat -> is_write d = false ->
  0 <= off <= d_len d -> 0 < len < 2 ^ 31 -> Forall buf_ok (run_of false (d :: ds)) ->
  copy_in bus n q d off len s =
  Done (if off + len <=? sum_len (run_of false (d :: ds))
        then Some (gather (take (Z.to_nat len) (drop (Z.to_nat off) (addrs (run_of false (d :: ds))))) mem) else None) s.
Proof.
  pose proof (gr_base (bus:=bus) (base:=base) (size:=size) (h:=h)) as Hg.
  pose proof (gr_top (bus:=bus) (base:=base) (size:=size) (h:=h)) as Hg'.
  revert d ds off len. induction n as [|n IH]; intros d ds off len Hl Hn Hw Ho Hlen Hb.
  all: cbn [run_of] in Hb |- *; rewrite Hw in Hb |- *; cbn [eqb] in Hb |- *; apply Forall_cons in Hb as [[Hd1 Hd2] Hb];
    pose proof (sum_len_nonneg _ Hb) as Hs; cbn [sum_len foldr]; fold (sum_len (run_of false ds)); unfold in_ram in Hd1;
    cbn [copy_in]; unfold mbind' at 1; rewrite s32_small, (i32_small (d_len d - off)) by lia;
    set (l := Z.min len (d_len d - off)); rewrite (wrap_small 64 l), (wrap_small 64 (d_addr d + off)) by (unfold rng; lia);
    erewrite on_mem_read by (apply (ReadPhys_ok bus base size h); unfold in_ram; lia);
    rewrite (i32_small (len - l)), (i32_small (off + l)) by lia.
  all: assert (Ha : addrs (d :: run_of false ds) = seqZ (d_addr d) (d_len d) ++ addrs (run_of false ds)) by done;
    rewrite Ha; rewrite drop_app_le by (rewrite length_seqZ; lia);
    assert (Hds : drop (Z.to_nat off) (seqZ (d_addr d) (d_len d)) = seqZ (d_addr d + off) (d_len d - off))
      by (rewrite (seqZ_split (d_addr d) (d_len d) off) by lia; apply drop_app_length'; rewrite length_seqZ; lia);
    rewrite Hds; destruct (Z.eqb_spec (len - l) 0) as [E|E].
  1, 3: unfold mret'; rewrite (proj2 (Z.leb_le _ _)) by lia; do 3 f_equal;
    rewrite take_app_le by (rewrite length_seqZ; lia); rewrite (seqZ_split _ (d_len d - off) l) by lia;
    symmetry; apply take_app_length'; rewrite length_seqZ; lia.
  all: assert (l = d_len d - off) as El by lia; rewrite El in *; rewrite (proj2 (Z.eqb_eq (off + (d_len d - off)) (d_len d))) by lia.
  all: destruct ds as [|d' ds]; cbn [links length] in Hl, Hn;
    [rewrite Hl; cbn [negb run_of sum_len foldr]; unfold mbind', mret'; by rewrite (proj2 (Z.leb_gt _ _)) by lia|try lia].
  destruct Hl as (-> & He & -> & Hl). cbn [negb]. unfold mbind'. rewrite next_desc_ok by done.
  set (d' := desc_at mem tbl (d_next d)) in *. destruct (is_write d') eqn:Ew.
  { cbn [run_of]. rewrite Ew. cbn [eqb sum_len foldr]. unfold mret'. by rewrite (proj2 (Z.leb_gt _ _)) by lia. }
  assert (Hd0 : 0 <= d_len d').
  { cbn [run_of] in Hb. rewrite Ew in Hb. cbn [eqb] in Hb. apply Forall_cons in Hb as [[Hx _] _]. unfold in_ram in Hx. lia. }
  rewrite (IH d' ds 0 (len - (d_len d - off))) by (done || lia). unfold mret'.
  set (r := run_of false (d' :: ds)). rewrite Z.add_0_l.
  replace (off + len <=? d_len d + sum_len r) with (len - (d_len d - off) <=? sum_len r)
    by (destruct (Z.leb_spec (len - (d_len d - off)) (sum_len r)), (Z.leb_spec (off + len) (d_len d + sum_len r)); (done || lia)).
  destruct (_ <=? _); [|done]. do 2 f_equal. rewrite drop_0. rewrite take_app_ge by (rewrite length_seqZ; lia).
  unfold VirtioProps.gather. rewrite fmap_app. do 3 f_equal. rewrite length_seqZ. f_equal. lia.
Qed.
End walk.

(** ** Copies into a chain *)

Lemma gather_scatter_ne l l' bs w : Forall (rng 8) bs -> (forall a, a ∈ l -> a ∉ l') ->
  gather l (scatter l' bs w) = gather l w.
Proof.
  intros Hb Hd. apply gather_agree. intros a Ha. apply gget_scatter_ne; [done|]. intros Hi.
  apply (Hd a Ha). by apply elem_of_take in Hi as (i & Hi%list_elem_of_lookup_2 & _).
Qed.

Lemma scatter_app_l l l' bs w : (length l <= length bs)%nat ->
  scatter (l ++ l') bs w = scatter l' (drop (length l) bs) (scatter l bs w).
Proof.
  revert bs w. induction l as [|a l IH]; intros bs w Hl; [done|]. destruct bs as [|b bs]; [simpl in Hl; lia|].
  cbn. apply IH. simpl in Hl. lia.
Qed.

Lemma links_agree w w' tbl d ds : gather (entries tbl d ds) w = gather (entries tbl d ds) w' ->
  links w tbl d ds -> links w' tbl d ds.
Proof.
  revert d. induction ds as [|d' ds IH]; intros d Hg Hl; [done|]. cbn [entries links] in *.
  destruct Hl as (Hn & He & Hd & Hl). unfold VirtioProps.gather in Hg. rewrite !fmap_app in Hg.
  apply app_inj_1 in Hg as [Hg1 Hg2]; [|by rewrite !length_fmap]. split_and!; [done..|unfold desc_at|by apply IH].
  unfold VirtioProps.gather. rewrite <- Hg1. exact Hd.
Qed.

Lemma copy_out_ok n s q d ds off bs len : let tbl := vq_desc (arr (v_queue (vs_dev s)) q) in
  let run := addrs (run_of true (d :: ds)) in
  links (vs_mem s) tbl d ds -> (length ds <= n)%nat -> is_write d = true ->
  0 <= off <= d_len d -> 0 < len < 2 ^ 31 -> len <= Z.of_nat (length bs) -> Forall (rng 8) bs ->
  Forall buf_ok (run_of true (d :: ds)) -> off + len <= sum_len (run_of true (d :: ds)) ->
  (forall a, a ∈ entries tbl d ds -> a ∉ run) ->
  copy_out bus n q d off bs len s =
  Done (Some tt) (with_mem s (scatter (take (Z.to_nat len) (drop (Z.to_nat off) run)) bs (vs_mem s))).
Proof.
  pose proof (gr_base (bus:=bus) (base:=base) (size:=size) (h:=h)) as Hg.
  pose proof (gr_top (bus:=bus) (base:=base) (size:=size) (h:=h)) as Hg'.
  revert s d ds off bs len. induction n as [|n IH]; intros s d ds off bs len tbl run Hl Hn Hw Ho Hlen Hbl Hbs Hb Hsum Hdis.
  all: subst run; cbn [run_of] in Hb, Hsum, Hdis |- *; rewrite Hw in Hb, Hsum, Hdis |- *; cbn [eqb] in Hb, Hsum, Hdis |- *;
    apply Forall_cons in Hb as [[Hd1 Hd2] Hb];
    pose proof (sum_len_nonneg _ Hb) as Hs; cbn [sum_len foldr] in Hsum; fold (sum_len (run_of true ds)) in Hsum;
    unfold in_ram in Hd1; cbn [copy_out]; unfold mbind' at 1; rewrite s32_small, (i32_small (d_len d - off)) by lia;
    set (l := Z.min len (d_len d - off)); rewrite (wrap_small 64 l), (wrap_small 64 (d_addr d + off)) by (unfold rng; lia);
    erewrite on_mem_done by (apply (WritePhys_ok bus base size h); [unfold in_ram; lia|lia]); cbn [negb];
    rewrite (i32_small (len - l)), (i32_small (off + l)) by lia.
  all: assert (Ha : addrs (d :: run_of true ds) = seqZ (d_addr d) (d_len d) ++ addrs (run_of true ds)) by done;
    rewrite Ha in Hdis |- *; rewrite drop_app_le by (rewrite length_seqZ; lia);
    assert (Hds : drop (Z.to_nat off) (seqZ (d_addr d) (d_len d)) = seqZ (d_addr d + off) (d_len d - off))
      by (rewrite (seqZ_split (d_addr d) (d_len d) off) by lia; apply drop_app_length'; rewrite length_seqZ; lia);
    rewrite Hds; destruct (Z.eqb_spec (len - l) 0) as [E|E].
  1, 3: unfold mret'; do 3 f_equal; rewrite take_app_le by (rewrite length_seqZ; lia);
    rewrite (seqZ_split _ (d_len d - off) l) by lia; symmetry; apply take_app_length'; rewrite length_seqZ; lia.
  all: assert (l = d_len d - off) as El by lia; rewrite El in *; rewrite (proj2 (Z.eqb_eq (off + (d_len d - off)) (d_len d))) by lia.
  all: destruct ds as [|d' ds]; cbn [links length] in Hl, Hn; [cbn [run_of sum_len foldr] in Hsum; lia|try lia].
  destruct Hl as (-> & He & -> & Hl). cbn [negb]. set (w1 := scatter _ bs _).
  assert (Hin : forall a, a ∈ seqZ (d_addr d + off) (d_len d - off) ->
    a ∈ seqZ (d_addr d) (d_len d) ++ addrs (run_of true (desc_at (vs_mem s) tbl (d_next d) :: ds))).
  { intros a Ha'. apply elem_of_app. left. rewrite elem_of_seqZ in Ha' |- *. lia. }
  assert (Ew1 : desc_at w1 tbl (d_next d) = desc_at (vs_mem s) tbl (d_next d)).
  { unfold desc_at, w1. rewrite gather_scatter_ne; [done|done|]. intros a Ha1 Ha2. apply (Hdis a); [|by apply Hin].
    cbn [entries]. apply elem_of_app. by left. }
  rewrite next_desc_ok by done. cbn [vs_mem with_mem vs_dev]. fold tbl. rewrite Ew1.
  set (d' := desc_at (vs_mem s) tbl (d_next d)) in *. destruct (is_write d') eqn:Ew; cbn [negb].
  2: { cbn [run_of] in Hsum. rewrite Ew in Hsum. cbn [eqb sum_len foldr] in Hsum. lia. }
  assert (Hd0 : 0 <= d_len d').
  { cbn [run_of] in Hb. rewrite Ew in Hb. cbn [eqb] in Hb. apply Forall_cons in Hb as [[Hx _] _]. unfold in_ram in Hx. lia. }
  rewrite (IH (with_mem s w1) d' ds 0); try done; try lia.
  - unfold with_mem. cbn [vs_dev vs_be vs_mem vs_irq]. do 2 f_equal. rewrite drop_0.
    rewrite take_app_ge by (rewrite length_seqZ; lia). rewrite scatter_app_l by (rewrite length_seqZ; lia).
    fold w1. do 2 f_equal; rewrite length_seqZ; [f_equal; lia|done].
  - cbn [vs_mem with_mem vs_dev]. fold tbl. eapply links_agree; [|exact Hl]. symmetry. apply gather_scatter_ne; [done|].
    intros a Ha1 Ha2. apply (Hdis a); [|by apply Hin]. cbn [entries]. apply elem_of_app. by right.
  - rewrite length_drop. lia.
  - by apply Forall_drop.
  - cbn [vs_mem with_mem vs_dev]. fold tbl. intros a Ha1 Ha2. apply (Hdis a).
    + cbn [entries]. apply elem_of_app. by right.
    + apply elem_of_app. by right.
Qed.

(** ** The copies as slices *)

Definition slice (off len : Z) (l : list Z) : list Z := take (Z.to_nat len) (drop (Z.to_nat off) l).

Lemma copy_from_ok n s q idx d ds off len :
  chain (vs_mem s) (vq_desc (arr (v_queue (vs_dev s)) q)) idx d ds -> (length ds <= n)%nat ->
  0 <= off < 2 ^ 31 -> 0 < len < 2 ^ 31 -> Forall buf_ok (run_of false (d :: ds)) ->
  VirtioCopyFromChain bus n q idx off len s =
  Done (if off + len <=? sum_len (run_of false (d :: ds))
        then Some (gather (slice off len (addrs (run_of false (d :: ds)))) (vs_mem s)) else None) s.
Proof.
  intros (He & -> & Hl) Hn Ho Hlen Hb. unfold VirtioCopyFromChain. rewrite (proj2 (Z.eqb_neq len 0)) by lia.
  unfold mbind' at 1. rewrite GetDesc_ok by done. unfold mbind'. set (tbl := vq_desc _) in *.
  set (d := desc_at (vs_mem s) tbl idx) in *. pose proof (seek_ok s q n false d ds off Hl Hn Ho Hb) as Hs.
  destruct (Z.leb_spec (sum_len (run_of false (d :: ds))) off).
  { rewrite Hs. by rewrite (proj2 (Z.leb_gt _ _)) by lia. }
  destruct Hs as (d' & ds' & off' & -> & Hl' & Hn' & Hw' & Ho' & Hb' & Hsum & Hdrop & _ & _).
  rewrite (copy_in_ok s q n d' ds') by (done || lia). unfold slice. rewrite Hdrop.
  replace (off + len <=? sum_len (run_of false (d :: ds))) with (off' + len <=? sum_len (run_of false (d' :: ds')));
    [done|]. set (a := sum_len (run_of false (d' :: ds'))) in *. set (b := sum_len (run_of false (d :: ds))) in *.
  destruct (Z.leb_spec (off' + len) a), (Z.leb_spec (off + len) b); (done || lia).
Qed.

(** The writable run of a chain: what follows its readable prefix. *)
Definition wr_run ds : list VringDesc := run_of true (rest_of false ds).

Lemma rest_entries tbl d ds d' ds' : rest_of false (d :: ds) = d' :: ds' -> suffix (entries tbl d' ds') (entries tbl d ds).
Proof.
  revert d. induction ds as [|e ds IH]; intros d; cbn [rest_of]; destruct (is_write d); cbn [eqb]; try done.
  - by intros [= <- <-].
  - by intros [= <- <-].
  - intros Hr. cbn [entries]. apply suffix_app_r. apply IH. exact Hr.
Qed.

Lemma copy_to_ok n s q idx d ds off bs len : let tbl := vq_desc (arr (v_queue (vs_dev s)) q) in
  chain (vs_mem s) tbl idx d ds -> (length ds <= n)%nat ->
  0 <= off < 2 ^ 31 -> 0 < len < 2 ^ 31 -> len <= Z.of_nat (length bs) -> Forall (rng 8) bs ->
  Forall buf_ok (wr_run (d :: ds)) -> off + len <= sum_len (wr_run (d :: ds)) ->
  (forall a, a ∈ entries tbl d ds -> a ∉ addrs (wr_run (d :: ds))) ->
  VirtioCopyToChain bus n q idx off bs len s =
  Done (Some tt) (with_mem s (scatter (slice off len (addrs (wr_run (d :: ds)))) bs (vs_mem s))).
Proof.
  intros tbl (He & -> & Hl) Hn Ho Hlen Hbl Hbs Hb Hsum Hdis. unfold VirtioCopyToChain.
  rewrite (proj2 (Z.eqb_neq len 0)) by lia.
  unfold mbind' at 1. rewrite GetDesc_ok by done. unfold mbind' at 1. fold tbl.
  set (d := desc_at (vs_mem s) tbl idx) in *. pose proof (skip_ok s q n d ds Hl Hn) as Hk. unfold wr_run in *.
  destruct (rest_of false (d :: ds)) as [|d1 ds1] eqn:Er; [cbn [run_of sum_len foldr] in Hsum; lia|].
  destruct Hk as (-> & Hl1 & Hn1 & Hw1). unfold mbind'. pose proof (rest_entries tbl _ _ _ _ Er) as Hse.
  pose proof (seek_ok s q n true d1 ds1 off Hl1 ltac:(lia) Ho Hb) as Hs. fold tbl in Hs.
  rewrite (proj2 (Z.leb_gt _ _)) in Hs by lia.
  destruct Hs as (d' & ds' & off' & -> & Hl' & Hn' & Hw' & Ho' & Hb' & Hsum' & Hdrop & Hse' & Hsa).
  rewrite (copy_out_ok n s q d' ds' off' bs len); try done; try lia.
  - unfold slice. by rewrite Hdrop.
  - intros a Ha1 Ha2. apply (Hdis a).
    + destruct Hse as [k1 ->], Hse' as [k2 ->]. rewrite !elem_of_app. auto.
    + destruct Hsa as [k ->]. apply elem_of_app. by right.
Qed.
(** C18: a descriptor chain is the byte sequence it names: copying out at an offset returns exactly
    that slice of the readable descriptors' bytes (or fails when the chain is too short) and changes
    nothing; copying in puts the bytes at exactly that slice of the writable descriptors' addresses
    and leaves all other memory alone. *)
Theorem chain_copy_spec n s q idx d ds off len bs : let tbl := vq_desc (arr (v_queue (vs_dev s)) q) in
  chain (vs_mem s) tbl idx d ds -> (length ds <= n)%nat -> 0 <= off < 2 ^ 31 -> 0 < len < 2 ^ 31 ->
  (Forall buf_ok (run_of false (d :: ds)) ->
   VirtioCopyFromChain bus n q idx off len s =
   Done (if off + len <=? sum_len (run_of false (d :: ds))
         then Some (gather (slice off len (addrs (run_of false (d :: ds)))) (vs_mem s)) else None) s) /\
  (Forall buf_ok (wr_run (d :: ds)) -> NoDup (addrs (wr_run (d :: ds))) ->
   (forall a, a ∈ entries tbl d ds -> a ∉ addrs (wr_run (d :: ds))) ->
   off + len <= sum_len (wr_run (d :: ds)) -> Z.of_nat (length bs) = len -> Forall (rng 8) bs ->
   exists w', VirtioCopyToChain bus n q idx off bs len s = Done (Some tt) (with_mem s w') /\
     gather (slice off len (addrs (wr_run (d :: ds)))) w' = bs /\
     forall a, a ∉ slice off len (addrs (wr_run (d :: ds))) -> gget base h a w' = gget base h a (vs_mem s)).
Proof.
  intros tbl Hc Hn Ho Hl. split; [intros Hb; by apply copy_from_ok|]. intros Hb Hnd Hdis Hsum Hbl Hbs.
  pose proof (length_addrs _ (bufs_len _ Hb)) as Hla.
  eexists. split; [apply copy_to_ok; (done || lia)|]. split.
  - apply gather_scatter; [done| |].
    + unfold slice. eapply sublist_NoDup; [exact Hnd|]. etrans; [apply sublist_take|apply sublist_drop].
    + unfold slice. rewrite length_take, length_drop. lia.
  - intros a Ha. apply gget_scatter_ne; [done|]. intros Hi. apply Ha. by apply elem_of_take in Hi as (i & Hi%list_elem_of_lookup_2 & _).
Qed.

(** The chain walk does not terminate on a cycle: when the descriptors reachable from the head all
    name a successor in the set and have one direction, no number of steps finishes the size
    computation a notification begins with. *)
Theorem chain_cycle_diverges s q idx (dir : bool) (C : Z -> Prop) :
  let tbl := vq_desc (arr (v_queue (vs_dev s)) q) in
  C idx ->
  (forall i, C i -> entry_ok tbl i /\ is_write (desc_at (vs_mem s) tbl i) = dir /\
             has_next (desc_at (vs_mem s) tbl i) = true /\ C (d_next (desc_at (vs_mem s) tbl i))) ->
  forall n, ChainSizes bus n q idx s = Aborted OutOfFuel.
Proof.
  intros tbl Hi HC n. unfold ChainSizes, mbind'. destruct (HC idx Hi) as (He & Hw & _ & _).
  rewrite GetDesc_ok by done. fold tbl.
  assert (Hwr : dir = true -> forall n i nrd nwr, C i -> sizes_wr bus n q (desc_at (vs_mem s) tbl i) nrd nwr s = Aborted OutOfFuel).
  { intros ->. clear He Hw Hi n. intros n. induction n as [|n IH]; intros i nrd nwr Hi; cbn [sizes_wr];
      destruct (HC i Hi) as (He & -> & -> & Hc); cbn [negb]; destruct (HC _ Hc) as (He' & _);
      rewrite next_desc_ok by done; [done|]. by apply IH. }
  destruct dir.
  - destruct n; cbn [sizes_rd]; rewrite Hw; by apply Hwr.
  - clear Hwr He Hw. generalize 0 as nrd. revert idx Hi. induction n as [|n IH]; intros idx Hi nrd; cbn [sizes_rd];
      destruct (HC idx Hi) as (He & -> & -> & Hc); cbn [negb]; destruct (HC _ Hc) as (He' & _);
      rewrite next_desc_ok by done; [done|]. by apply IH.
Qed.

(** ** Rings *)

Definition rd16 w (a : Z) : Z := le_val (gather (seqZ a 2) w).
Definition rd32 w (a : Z) : Z := le_val (gather (seqZ a 4) w).

Lemma vgather_rng l w : Forall (rng 8) (gather l w).
Proof. apply Forall_fmap, Forall_true. intros a. apply hb_rng. Qed.

Lemma rd16_rng w a : rng 16 (rd16 w a).
Proof.
  pose proof (le_val_rng _ (vgather_rng (seqZ a 2) w)) as Hr. unfold VirtioProps.gather in Hr at 1.
  rewrite length_fmap, length_seqZ in Hr. exact Hr.
Qed.

Lemma rd_scatter (n : nat) a v w : le_val (gather (seqZ a (Z.of_nat n)) (scatter (seqZ a (Z.of_nat n)) (le_bytes n v) w)) = wrap (8 * Z.of_nat n) v.
Proof.
  rewrite gather_scatter; [apply le_val_bytes|apply le_bytes_rng|apply NoDup_seqZ|]. rewrite length_seqZ, length_le_bytes. lia.
Qed.

Definition disj (a n b k : Z) : Prop := a + n <= b \/ b + k <= a.

Lemma gather_scatter_disj a n b k bs w : Forall (rng 8) bs -> disj a n b k ->
  gather (seqZ a n) (scatter (seqZ b k) bs w) = gather (seqZ a n) w.
Proof. intros Hb Hd. apply gather_scatter_ne; [done|]. intros x. rewrite !elem_of_seqZ. unfold disj in Hd. lia. Qed.

Lemma ReadPhys16_ok s a : in_ram a 2 -> ReadPhys16 bus a s = Done (rd16 (vs_mem s) a) s.
Proof. intros Hr. unfold ReadPhys16, mbind'. by erewrite on_mem_read by (by apply (ReadPhys_ok bus base size h)). Qed.

Lemma WritePhys16_ok s a v : in_ram a 2 ->
  WritePhys16 bus a v s = Done tt (with_mem s (scatter (seqZ a 2) (le_bytes 2 v) (vs_mem s))).
Proof. intros Hr. unfold WritePhys16, mbind'. by erewrite on_mem_done by (by apply (WritePhys_ok bus base size h)). Qed.

Lemma WritePhys32_ok s a v : in_ram a 4 ->
  WritePhys32 bus a v s = Done tt (with_mem s (scatter (seqZ a 4) (le_bytes 4 v) (vs_mem s))).
Proof. intros Hr. unfold WritePhys32, mbind'. by erewrite on_mem_done by (by apply (WritePhys_ok bus base size h)). Qed.

(** A configured queue size. *)
Definition num_ok (num : Z) : Prop := exists k, 0 <= k <= 10 /\ num = 2 ^ k.

Lemma num_bounds num : num_ok num -> 1 <= num <= 1024.
Proof.
  intros (k & Hk & ->). split; [pose proof (Z.pow_pos_nonneg 2 k); lia|].
  apply (Z.pow_le_mono_r 2 k 10); lia.
Qed.

Lemma ring_index x num : num_ok num -> x .& u32 (num - 1) = x mod num.
Proof.
  intros Hn. pose proof (num_bounds _ Hn). destruct Hn as (k & Hk & ->). rewrite wrap_small by (unfold rng; lia).
  apply (land_ones_wrap x k). lia.
Qed.

(** Where the next used element goes. *)
Definition used_slot w (used num : Z) : Z := used + 4 + (rd16 w (used + 2) mod num) * 8.

Definition consume_mem (used num idx written : Z) w : W :=
  let slot := used_slot w used num in
  scatter (seqZ (used + 2) 2) (le_bytes 2 (u16 (rd16 w (used + 2) + 1)))
    (scatter (seqZ (slot + 4) 4) (le_bytes 4 (u32 written)) (scatter (seqZ slot 4) (le_bytes 4 (u32 idx)) w)).

(** The queue's used ring lies in RAM. *)
Definition used_ok (qs : VirtioQueue) : Prop := num_ok (vq_num qs) /\ in_ram (vq_used qs) (4 + vq_num qs * 8).

Lemma consume_ok s q idx written : let qs := arr (v_queue (vs_dev s)) q in used_ok qs ->
  VirtioConsumeChain bus q idx written s =
  Done tt (mkVs ((vs_dev s) <| v_int_status := v_int_status (vs_dev s) .| kVirtioIntUsedRing |>) (vs_be s)
             (consume_mem (vq_used qs) (vq_num qs) idx written (vs_mem s))
             (if v_set_irq (vs_dev s) then vs_irq s ++ [true] else vs_irq s)).
Proof.
  intros qs [Hn Hr]. pose proof (num_bounds _ Hn) as Hb. unfold VirtioConsumeChain, getq, mbind', gets. fold qs.
  pose proof (gr_base (bus:=bus) (base:=base) (size:=size) (h:=h)) as Hg.
  pose proof (gr_top (bus:=bus) (base:=base) (size:=size) (h:=h)) as Hg'. unfold in_ram in Hr.
  rewrite (wrap_small 64 (vq_used qs + 2)) by (unfold rng; lia). rewrite ReadPhys16_ok by (unfold in_ram; lia).
  rewrite ring_index by done. fold (used_slot (vs_mem s) (vq_used qs) (vq_num qs)).
  pose proof (Z.mod_pos_bound (rd16 (vs_mem s) (vq_used qs + 2)) (vq_num qs) ltac:(lia)) as Hm.
  unfold consume_mem. set (slot := used_slot _ _ _).
  assert (Hs : slot = vq_used qs + 4 + (rd16 (vs_mem s) (vq_used qs + 2) mod vq_num qs) * 8) by done.
  rewrite (wrap_small 64 slot), (wrap_small 64 (slot + 4)) by (unfold rng; lia).
  rewrite WritePhys32_ok by (unfold in_ram; lia). cbn [vs_mem with_mem].
  rewrite WritePhys32_ok by (unfold in_ram; lia). cbn [vs_mem with_mem].
  rewrite WritePhys16_ok by (unfold in_ram; lia). done.
Qed.

(** Publishing a finished chain writes exactly one used element at the used index modulo the queue
    size, advances the used index by one modulo 2^16, touches no other byte of guest memory, sets
    the used-ring interrupt bit and raises the line. *)
Theorem virtio_consume s q idx written : let qs := arr (v_queue (vs_dev s)) q in used_ok qs ->
  let ui := rd16 (vs_mem s) (vq_used qs + 2) in
  exists s', VirtioConsumeChain bus q idx written s = Done tt s' /\
    rd16 (vs_mem s') (vq_used qs + 2) = u16 (ui + 1) /\
    rd32 (vs_mem s') (vq_used qs + 4 + (ui mod vq_num qs) * 8) = u32 idx /\
    rd32 (vs_mem s') (vq_used qs + 4 + (ui mod vq_num qs) * 8 + 4) = u32 written /\
    (forall a, ~ vq_used qs + 2 <= a < vq_used qs + 4 ->
       ~ vq_used qs + 4 + (ui mod vq_num qs) * 8 <= a < vq_used qs + 4 + (ui mod vq_num qs) * 8 + 8 ->
       gget base h a (vs_mem s') = gget base h a (vs_mem s)) /\
    tst (v_int_status (vs_dev s')) kVirtioIntUsedRing = true /\
    (v_set_irq (vs_dev s) = true -> vs_irq s' = vs_irq s ++ [true]) /\
    v_queue (vs_dev s') = v_queue (vs_dev s) /\ vs_be s' = vs_be s.
Proof.
  intros qs Hu ui. eexists. split; [by apply consume_ok|]. cbn [vs_mem vs_dev vs_irq vs_be]. fold qs.
  destruct Hu as [Hn _]. pose proof (num_bounds _ Hn) as Hb. pose proof (Z.mod_pos_bound ui (vq_num qs) ltac:(lia)) as Hm.
  unfold consume_mem, rd32. unfold used_slot. fold ui. set (slot := vq_used qs + 4 + (ui mod vq_num qs) * 8).
  assert (Hs : vq_used qs + 4 <= slot) by lia. split_and!.
  - unfold rd16 at 1. rewrite (rd_scatter 2). rewrite (wrap_small 16) by (apply (rng_wrap 16); lia). done.
  - rewrite 2!gather_scatter_disj; try (apply le_bytes_rng); try (unfold disj; lia). rewrite (rd_scatter 4).
    apply (wrap_small 32), rng_wrap. lia.
  - rewrite gather_scatter_disj; try (apply le_bytes_rng); try (unfold disj; lia). rewrite (rd_scatter 4).
    apply (wrap_small 32), rng_wrap. lia.
  - intros a Ha1 Ha2. rewrite !gget_scatter_ne; try done; try apply le_bytes_rng; rewrite length_le_bytes;
      rewrite take_ge by (rewrite length_seqZ; lia); rewrite elem_of_seqZ; lia.
  - unfold kVirtioIntUsedRing. rewrite tst_pow2 by lia. exact (eq_trans (Z.lor_spec _ (2 ^ 0) 0) (orb_true_r _)).
  - by intros ->.
  - done.
  - done.
Qed.
End chains.
