(* ===== verification/VirtioDev.v ===== *)
(** * Virtio devices (device/virtio/virtio_blk.c, virtio_console.c, virtio_input.c)

    The three backends of the transport: each is the state behind the device,
    the handler of one available chain, its hooks and its host-side entry
    points.  The host's positioned file access is a type class; bytes sent to
    the host console are kept in order. *)

From Stdlib Require Import Strings.String Strings.Ascii.
From S2P Require Import Prelude Bus Ram HostMem Virtio.

(** ** Host files (host/file_win.c)

    [f_pread] and [f_pwrite] are the operating system's calls at an offset;
    the read returns what it got, the write the file and the bytes taken. *)
Class HostFileOps (F : Type) := {
  f_pread : F -> Z -> Z -> list Z;
  f_pwrite : F -> Z -> list Z -> F * Z;
  f_size : F -> Z;
}.

Section file.
Context {F : Type} `{HostFileOps F}.

Definition HostFileReadAt (f : F) (off n : Z) : list Z :=
  if (n =? 0) || (off <? 0) then [] else f_pread f off (u32 n).

Definition HostFileWriteAt (f : F) (off : Z) (bs : list Z) (n : Z) : F * Z :=
  if (n =? 0) || (off <? 0) then (f, 0) else f_pwrite f off (take (Z.to_nat (u32 n)) bs).
End file.

(** ** Block device *)

Definition kVirtioBlkTIn := 0.
Definition kVirtioBlkTOut := 1.
Definition kVirtioBlkTFlush := 4.
Definition kVirtioBlkOk := 0.
Definition kVirtioBlkIoerr := 1.
Definition kSectorSize := 512.
Definition kBlkHeaderSize := 16.

Section blk.
Context {Ops Dev W F : Type} `{BusDevices Ops Dev W} `{HostFileOps F}.
Variable bus : Bus Ops Dev.

Record VirtioBlk := mkBlk { blk_file : option F; blk_sectors : Z }.
#[local] Abbreviation VM := (M (VState W VirtioBlk)).

Definition sector_off (sector : Z) : Z := s64 (u64 (sector * kSectorSize)).

(** The two transfers; their result is the status byte. *)
Definition blk_in (n : nat) (q desc wr sector : Z) : VM Z :=
  let data_len := i32 (wr - 1) in
  be <- getbe ;;
  match blk_file be with
  | Some f =>
      let buf := HostFileReadAt f (sector_off sector) (u64 data_len) in
      if Z.of_nat (length buf) =? u64 data_len then
        (when 0 <? data_len do (VirtioCopyToChain bus n q desc 0 buf data_len ;;; mret' tt)) ;;; mret' kVirtioBlkOk
      else mret' kVirtioBlkIoerr
  | None => mret' kVirtioBlkIoerr
  end.

Definition blk_out (n : nat) (q desc rd sector : Z) : VM Z :=
  let data_len := rd - kBlkHeaderSize in
  r <- VirtioCopyFromChain bus n q desc kBlkHeaderSize data_len ;;
  be <- getbe ;;
  match r, blk_file be with
  | Some buf, Some f =>
      let '(f, got) := HostFileWriteAt f (sector_off sector) buf (u64 data_len) in
      modbe (fun be => mkBlk (Some f) (blk_sectors be)) ;;;
      mret' (if got =? u64 data_len then kVirtioBlkOk else kVirtioBlkIoerr)
  | _, _ => mret' kVirtioBlkIoerr
  end.

Definition blk_finish (n : nat) (q desc wr status : Z) : VM bool :=
  VirtioCopyToChain bus n q desc (i32 (wr - 1)) [status] 1 ;;;
  VirtioConsumeChain bus q desc wr ;;;
  mret' false.

Definition BlkRecv (n : nat) (q desc rd wr : Z) : VM bool :=
  if rd <? kBlkHeaderSize then mret' false
  else
    r <- VirtioCopyFromChain bus n q desc 0 kBlkHeaderSize ;;
    match r with
    | None => mret' false
    | Some hdr =>
        let type := le_val (take 4 hdr) in
        let sector := le_val (drop 8 hdr) in
        if type =? kVirtioBlkTIn then st <- blk_in n q desc wr sector ;; blk_finish n q desc wr st
        else if type =? kVirtioBlkTOut then st <- blk_out n q desc rd sector ;; blk_finish n q desc wr st
        else if type =? kVirtioBlkTFlush then blk_finish n q desc wr kVirtioBlkOk
        else mret' false
    end.

(** [None]: the image cannot be opened, or the bus table is full. *)
Definition VirtioBlkCreate (base size : Z) (ops : Ops) (dev : Dev) (file : option F)
    : option (VirtioDevice * VirtioBlk * Bus Ops Dev) :=
  f ← file;
  let sectors := f_size f / kSectorSize in
  let v := VirtioInit 2 kVirtioVendorId 0 1 8 in
  bus' ← BusAddRegion bus base size ops dev;
  Some (v <| v_config := splice 0 (le_bytes 8 sectors) (v_config v) |> <| v_set_irq := true |>,
        mkBlk (Some f) sectors, bus').
End blk.
Arguments VirtioBlk : clear implicits.
Arguments mkBlk {F}.
Arguments blk_file {F}.
Arguments blk_sectors {F}.

(** ** Console *)

Definition kConsoleQueueRx := 0.
Definition kConsoleQueueTx := 1.
Definition kConsoleFeatureSize := 2 ^ 0.
Definition kVirtioConsoleRxBuf := 256.

(** [con_out]: the bytes [HostWriteOut] was given. *)
Record VirtioConsole := mkCon {
  con_rx : list Z; con_rx_head : Z; con_rx_count : Z; con_last_tx_poll_us : Z; con_out : list Z;
}.

Section console.
Context {Ops Dev W : Type} `{BusDevices Ops Dev W}.
Variable bus : Bus Ops Dev.
#[local] Abbreviation VM := (M (VState W VirtioConsole)).

Definition HostWriteOut (bs : list Z) (be : VirtioConsole) : VirtioConsole :=
  mkCon (con_rx be) (con_rx_head be) (con_rx_count be) (con_last_tx_poll_us be) (con_out be ++ bs).

Definition ConsoleRecv (n : nat) (q desc rd wr : Z) : VM bool :=
  if negb (q =? kConsoleQueueTx) then mret' false
  else
    copied <- (if 0 <? rd then VirtioCopyFromChain bus n q desc 0 rd else mret' None) ;;
    match copied with Some buf => modbe (HostWriteOut buf) | None => mret' tt end ;;;
    VirtioConsumeChain bus q desc 0 ;;;
    mret' false.

Definition ConsoleReset : VM unit :=
  modbe (fun be => mkCon (con_rx be) 0 0 (con_last_tx_poll_us be) (con_out be)).

Definition VirtioConsoleCreate (base size : Z) (ops : Ops) (dev : Dev) : option (VirtioDevice * VirtioConsole * Bus Ops Dev) :=
  let v := VirtioInit 3 kVirtioVendorId kConsoleFeatureSize 1 4 in
  bus' ← BusAddRegion bus base size ops dev;
  Some (v <| v_queue := arr_set (v_queue v) kConsoleQueueRx ((arr (v_queue v) kConsoleQueueRx) <| vq_manual := true |>) |>
          <| v_config := splice 0 [128; 0; 48; 0] (v_config v) |> <| v_set_irq := true |>,
        mkCon (replicate 256 0) 0 0 0 [], bus').

Definition VirtioConsoleReceive (ch : Z) (be : VirtioConsole) : VirtioConsole :=
  if con_rx_count be <? kVirtioConsoleRxBuf then
    mkCon (arr_set (con_rx be) ((con_rx_head be + con_rx_count be) mod kVirtioConsoleRxBuf) (u8 ch))
      (con_rx_head be) (con_rx_count be + 1) (con_last_tx_poll_us be) (con_out be)
  else be.

Definition rx_pop (be : VirtioConsole) : VirtioConsole :=
  mkCon (con_rx be) ((con_rx_head be + 1) mod kVirtioConsoleRxBuf) (con_rx_count be - 1) (con_last_tx_poll_us be) (con_out be).

(** The receive loop runs at most [con_rx_count] times. *)
Fixpoint rx_drain (k n : nat) : VM unit :=
  match k with
  | O => mret' tt
  | S k =>
      be <- getbe ;;
      r <- VirtioManualFill bus n kConsoleQueueRx [arr (con_rx be) (con_rx_head be)] 1 ;;
      if r =? 0 then mret' tt else modbe rx_pop ;;; rx_drain k n
  end.

(** [n], [m]: the bounds of the transmit drain; [now]: the host clock. *)
Definition VirtioConsolePoll (n m : nat) (now : Z) : VM unit :=
  be <- getbe ;;
  (when 1000 <=? now - con_last_tx_poll_us be do
     (modbe (fun be => mkCon (con_rx be) (con_rx_head be) (con_rx_count be) now (con_out be)) ;;;
      VirtioQueueAvail bus kConsoleQueueTx ;;;
      VirtioNotifyQueue bus (ConsoleRecv m) n m kConsoleQueueTx)) ;;;
  be <- getbe ;;
  rx_drain (Z.to_nat (con_rx_count be)) m.
End console.

(** ** Input *)

Definition kInputCfgIdName := 0x01.
Definition kInputCfgEvBits := 0x11.
Definition kInputCfgAbsInfo := 0x12.
Definition kEvSyn := 0x00.
Definition kEvKey := 0x01.
Definition kEvRel := 0x02.
Definition kEvAbs := 0x03.
Definition kEvRep := 0x14.
Definition kRelWheel := 0x08.
Definition kAbsX := 0x00.
Definition kAbsY := 0x01.
Definition kButtons : list Z := [0x110; 0x111; 0x112].
Definition kAbsScale := 0x8000.
Definition kQueueEvent := 0.
Definition kQueueStatus := 1.
Definition kVirtioInputMaxPending := 64.

Inductive VirtioInputType := kVirtioInputKeyboard | kVirtioInputTablet.
#[export] Instance input_type_eq_dec : EqDecision VirtioInputType.
Proof. solve_decision. Defined.

Record input_event := mkEv { ev_type : Z; ev_code : Z; ev_value : Z }.
#[export] Instance input_event_inhabited : Inhabited input_event := populate (mkEv 0 0 0).

Record VirtioInput := mkInput {
  in_type : VirtioInputType; in_buttons : Z; in_pending : list input_event; in_head : Z; in_count : Z;
}.

Definition str_bytes (s : string) : list Z := (fun c => Z.of_nat (nat_of_ascii c)) <$> list_ascii_of_string s.

(** [SetBit(cfg + 8, k)]. *)
Definition SetBit (cfg : list Z) (k : Z) : list Z :=
  arr_set cfg (8 + (k .>> 3)) (u8 (arr cfg (8 + (k .>> 3)) .| u8 (1 .<< (k .& 7)))).

Definition InputConfigSelected (type : VirtioInputType) (cfg : list Z) : list Z :=
  let cfg := arr_set cfg 2 0 in
  let cfg := splice 8 (replicate 128 0) cfg in
  let sel := arr cfg 0 in
  let sub := arr cfg 1 in
  if sel =? kInputCfgIdName then
    let name := str_bytes (match type with
      | kVirtioInputKeyboard => "cemu virtio keyboard" | kVirtioInputTablet => "cemu virtio tablet" end) in
    splice 8 name (arr_set cfg 2 (Z.of_nat (length name)))
  else if sel =? kInputCfgEvBits then
    match type with
    | kVirtioInputKeyboard =>
        if sub =? kEvKey then splice 8 (replicate 16 0xff) (arr_set cfg 2 16)
        else if sub =? kEvRep then arr_set cfg 2 1 else cfg
    | kVirtioInputTablet =>
        if sub =? kEvKey then fold_left SetBit kButtons (arr_set cfg 2 64)
        else if sub =? kEvRel then SetBit (arr_set cfg 2 2) kRelWheel
        else if sub =? kEvAbs then SetBit (SetBit (arr_set cfg 2 1) kAbsX) kAbsY
        else cfg
    end
  else if sel =? kInputCfgAbsInfo then
    if bool_decide (type = kVirtioInputTablet) && ((sub =? kAbsX) || (sub =? kAbsY)) then
      splice 8 (le_bytes 4 0 ++ le_bytes 4 (kAbsScale - 1) ++ le_bytes 4 0 ++ le_bytes 4 0 ++ le_bytes 4 0) (arr_set cfg 2 20)
    else cfg
  else cfg.

(** Value as the [int32_t] it is stored in. *)
Definition Enqueue (type code value : Z) (be : VirtioInput) : VirtioInput :=
  if kVirtioInputMaxPending <=? in_count be then be
  else
    let tail := (in_head be + in_count be) mod kVirtioInputMaxPending in
    mkInput (in_type be) (in_buttons be) (arr_set (in_pending be) tail (mkEv type code value)) (in_head be) (in_count be + 1).

Definition VirtioInputKey (linux_key down : Z) (be : VirtioInput) : VirtioInput :=
  Enqueue kEvSyn 0 0 (Enqueue kEvKey (u16 linux_key) down be).

Definition clamp_abs (x : Z) : Z :=
  let x := if x <? 0 then 0 else x in if kAbsScale <=? x then kAbsScale - 1 else x.

Definition VirtioInputPointer (abs_x abs_y : Z) (be : VirtioInput) : VirtioInput :=
  Enqueue kEvSyn 0 0 (Enqueue kEvAbs kAbsY (clamp_abs abs_y) (Enqueue kEvAbs kAbsX (clamp_abs abs_x) be)).

Definition VirtioInputWheel (notches : Z) (be : VirtioInput) : VirtioInput :=
  Enqueue kEvSyn 0 0 (Enqueue kEvRel kRelWheel notches be).

Definition VirtioInputButton (bit down : Z) (be : VirtioInput) : VirtioInput :=
  if (bit <? 0) || (2 <? bit) then be
  else
    let mask := 1 .<< bit in
    let buttons := if negb (down =? 0) then in_buttons be .| mask else in_buttons be &~ mask in
    let be := mkInput (in_type be) buttons (in_pending be) (in_head be) (in_count be) in
    Enqueue kEvSyn 0 0 (Enqueue kEvKey (arr kButtons bit) down be).

Section input.
Context {Ops Dev W : Type} `{BusDevices Ops Dev W}.
Variable bus : Bus Ops Dev.
#[local] Abbreviation VM := (M (VState W VirtioInput)).

Definition input_config_hook : VM unit :=
  be <- getbe ;; moddev (fun v => v <| v_config := InputConfigSelected (in_type be) (v_config v) |>).

Definition InputRecv (q desc rd wr : Z) : VM bool :=
  (when q =? kQueueStatus do VirtioConsumeChain bus q desc 0) ;;; mret' false.

Definition ev_bytes (e : input_event) : list Z := le_bytes 2 (ev_type e) ++ le_bytes 2 (ev_code e) ++ le_bytes 4 (ev_value e).

Definition ev_pop (be : VirtioInput) : VirtioInput :=
  mkInput (in_type be) (in_buttons be) (in_pending be) ((in_head be + 1) mod kVirtioInputMaxPending) (in_count be - 1).

Fixpoint ev_drain (k n : nat) : VM unit :=
  match k with
  | O => mret' tt
  | S k =>
      be <- getbe ;;
      r <- VirtioManualFill bus n kQueueEvent (ev_bytes (arr (in_pending be) (in_head be))) 8 ;;
      if r =? 0 then mret' tt else modbe ev_pop ;;; ev_drain k n
  end.

Definition VirtioInputPoll (n : nat) : VM unit :=
  be <- getbe ;; ev_drain (Z.to_nat (in_count be)) n.

Definition VirtioInputCreate (base size : Z) (ops : Ops) (dev : Dev) (type : VirtioInputType)
    : option (VirtioDevice * VirtioInput * Bus Ops Dev) :=
  let v := VirtioInit 18 kVirtioVendorId (1 .<< kVirtioFVersion1) 2 256 in
  bus' ← BusAddRegion bus base size ops dev;
  Some (v <| v_queue := arr_set (v_queue v) kQueueEvent ((arr (v_queue v) kQueueEvent) <| vq_manual := true |>) |>
          <| v_set_irq := true |>,
        mkInput type 0 (replicate 64 (mkEv 0 0 0)) 0 0, bus').
End input.
