(* ===== verification/VirtioDevProps.v ===== *)
(** * Properties of the virtio devices

    The console's transmit queue against a list of messages, and the block
    device's requests against its image file. *)

From S2P Require Import Prelude Bus Ram HostMem Virtio VirtioProps VirtioDev.

Section console.
Context {Ops Dev W : Type} `{HostBytes Ops Dev W} (bus : Bus Ops Dev) (base size : Z) (h : host_ptr Dev).
Context `{!GuestRam bus base size h}.
Implicit Types (w : W) (d : VringDesc) (ds : list VringDesc).
#[local] Abbreviation gather := (gather base h).
#[local] Abbreviation gget := (gget base h).
#[local] Abbreviation rd16 := (rd16 base h).
#[local] Abbreviation rd32 := (rd32 base h).
#[local] Abbreviation chain := (chain base size h).
#[local] Abbreviation buf_ok := (buf_ok base size).

Lemma HostWriteOut_nil be : HostWriteOut [] be = be.
Proof. destruct be. unfold HostWriteOut. cbn. by rewrite app_nil_r. Qed.

Lemma slice_all l : slice 0 (Z.of_nat (length l)) l = l.
Proof. unfold slice. rewrite drop_0. apply take_ge. lia. Qed.

Lemma console_recv_ok (s : VState W VirtioConsole) m idx d ds wr : let qs := arr (v_queue (vs_dev s)) 1 in
  chain (vs_mem s) (vq_desc qs) idx d ds -> (length ds <= m)%nat -> Forall buf_ok (run_of false (d :: ds)) ->
  sum_len (run_of false (d :: ds)) < 2 ^ 31 -> used_ok base size qs ->
  ConsoleRecv bus m 1 idx (sum_len (run_of false (d :: ds))) wr s =
  Done false (mkVs ((vs_dev s) <| v_int_status := v_int_status (vs_dev s) .| kVirtioIntUsedRing |>)
    (HostWriteOut (gather (addrs (run_of false (d :: ds))) (vs_mem s)) (vs_be s))
    (consume_mem base h (vq_used qs) (vq_num qs) idx 0 (vs_mem s))
    (if v_set_irq (vs_dev s) then vs_irq s ++ [true] else vs_irq s)).
Proof.
  intros qs Hc Hm Hb Hs Hu. pose proof (sum_len_nonneg base size _ Hb) as Hp. unfold ConsoleRecv.
  change (negb (1 =? kConsoleQueueTx)) with false. cbn [negb]. pose proof (length_addrs _ (bufs_len base size _ Hb)) as Hla.
  set (rd := sum_len (run_of false (d :: ds))) in *. unfold mbind' at 1.
  destruct (Z.ltb_spec 0 rd).
  - rewrite (copy_from_ok bus base size h m s 1 idx d ds 0 rd) by (done || lia). fold rd.
    rewrite (proj2 (Z.leb_le (0 + rd) rd)) by lia. unfold mbind', modbe, modify.
    rewrite (consume_ok bus base size h) by done. cbn [vs_dev vs_be vs_mem vs_irq]. rewrite <- Hla. by rewrite slice_all.
  - assert (E : addrs (run_of false (d :: ds)) = []) by (apply nil_length_inv; lia). rewrite E. unfold mbind', mret'.
    rewrite (consume_ok bus base size h) by done. change (gather [] (vs_mem s)) with (@nil Z). by rewrite HostWriteOut_nil.
Qed.

(** ** Draining the transmit queue *)

(** Two memories that agree but for a range. *)
Definition outside (lo n : Z) w w' : Prop := forall a, ~ lo <= a < lo + n -> gget a w = gget a w'.

Lemma gather_outside lo n l w w' : outside lo n w w' -> Forall (fun a => ~ lo <= a < lo + n) l -> gather l w = gather l w'.
Proof. intros Ho Hf. apply gather_agree. intros a Ha. apply Ho. rewrite Forall_forall in Hf. by apply Hf. Qed.

Lemma consume_outside qs idx written w : used_ok base size qs ->
  outside (vq_used qs) (4 + vq_num qs * 8) w (consume_mem base h (vq_used qs) (vq_num qs) idx written w).
Proof.
  intros [Hn _] a Ha. pose proof (num_bounds _ Hn) as Hb. unfold consume_mem, used_slot.
  pose proof (Z.mod_pos_bound (rd16 w (vq_used qs + 2)) (vq_num qs) ltac:(lia)) as Hm.
  rewrite !gget_scatter_ne; try done; try apply le_bytes_rng; rewrite length_le_bytes;
    rewrite take_ge by (rewrite length_seqZ; lia); rewrite elem_of_seqZ; lia.
Qed.

(** A published message: a chain of readable descriptors (a writable tail is
    ignored) that the used ring does not overlap. *)
Record tx_ok (qs : VirtioQueue) (m : nat) w (c : Z * VringDesc * list VringDesc) : Prop := {
  tx_chain : chain w (vq_desc qs) c.1.1 c.1.2 c.2;
  tx_short : (length c.2 <= m)%nat;
  tx_form : forallb is_write (rest_of false (c.1.2 :: c.2)) = true;
  tx_bufs : Forall buf_ok (run_of false (c.1.2 :: c.2));
  tx_len : sum_len (run_of false (c.1.2 :: c.2)) < 2 ^ 31;
  tx_apart : Forall (fun a => ~ vq_used qs <= a < vq_used qs + (4 + vq_num qs * 8))
    (entry_addrs (vq_desc qs) c.1.1 ++ entries (vq_desc qs) c.1.2 c.2 ++ addrs (run_of false (c.1.2 :: c.2)));
}.

Definition tx_bytes w (c : Z * VringDesc * list VringDesc) : list Z := gather (addrs (run_of false (c.1.2 :: c.2))) w.

Lemma tx_outside qs m w w' c : outside (vq_used qs) (4 + vq_num qs * 8) w w' -> tx_ok qs m w c ->
  tx_ok qs m w' c /\ tx_bytes w' c = tx_bytes w c.
Proof.
  intros Ho [[He [Hd Hl]] H2 H3 H4 H5 Hap]. pose proof Hap as Hap'.
  apply Forall_app in Hap as [Ha1 [Ha2 Ha3]%Forall_app].
  split; [|symmetry; by eapply gather_outside]. split; try done. split; [done|]. split.
  - rewrite Hd. unfold desc_at. f_equal. by eapply gather_outside.
  - eapply links_agree; [|exact Hl]. by eapply gather_outside.
Qed.

Lemma mod_num_u16 x num : num_ok num -> u16 x mod num = x mod num.
Proof.
  intros Hn. pose proof (num_bounds _ Hn). destruct Hn as (k & Hk & ->). unfold wrap.
  apply Z.mod_mod_divide. exists (2 ^ (16 - k)). rewrite <- Z.pow_add_r by lia. f_equal. lia.
Qed.

Section drain.
Variables (m : nat) (qs : VirtioQueue) (w0 : W) (out0 : list Z) (cs : list (Z * VringDesc * list VringDesc)).
#[local] Abbreviation K := (Z.of_nat (length cs)).
#[local] Abbreviation u0 := (rd16 w0 (vq_used qs + 2)).
Hypothesis Hu : used_ok base size qs.
Hypothesis Hav : in_ram base size (vq_avail qs) (4 + vq_num qs * 2).
Hypothesis Hapart : disj (vq_avail qs) (4 + vq_num qs * 2) (vq_used qs) (4 + vq_num qs * 8).
Hypothesis Hlast : rng 16 (vq_last qs).
Hypothesis Hpend : (rd16 w0 (vq_avail qs + 2) - vq_last qs) mod 65536 = K.
Hypothesis Hcs : forall j c, cs !! j = Some c ->
  c.1.1 = rd16 w0 (vq_avail qs + 4 + ((vq_last qs + Z.of_nat j) mod vq_num qs) * 2) /\ tx_ok qs m w0 c.

(** After [j] messages. *)
Record drained (j : nat) (s : VState W VirtioConsole) : Prop := {
  dr_len : (1 < length (v_queue (vs_dev s)))%nat;
  dr_q : arr (v_queue (vs_dev s)) 1 = qs <| vq_last := u16 (vq_last qs + Z.of_nat j) |>;
  dr_mem : outside (vq_used qs) (4 + vq_num qs * 8) w0 (vs_mem s);
  dr_out : con_out (vs_be s) = out0 ++ concat (tx_bytes w0 <$> take j cs);
  dr_idx : rd16 (vs_mem s) (vq_used qs + 2) = u16 (u0 + Z.of_nat j);
  dr_used : K <= vq_num qs -> forall i c, (i < j)%nat -> cs !! i = Some c ->
    rd32 (vs_mem s) (vq_used qs + 4 + ((u0 + Z.of_nat i) mod vq_num qs) * 8) = u32 c.1.1;
}.

Lemma rd16_avail w a : outside (vq_used qs) (4 + vq_num qs * 8) w0 w ->
  vq_avail qs <= a -> a + 2 <= vq_avail qs + (4 + vq_num qs * 2) -> rd16 w a = rd16 w0 a.
Proof.
  intros Ho H1 H2. unfold VirtioProps.rd16. f_equal. symmetry. eapply gather_outside; [done|].
  apply Forall_forall. intros x. rewrite elem_of_seqZ. unfold disj in Hapart. lia.
Qed.

Lemma slots_differ u num i j : 0 < num -> i < j -> j - i < num -> (u + i) mod num <> (u + j) mod num.
Proof.
  intros Hn Hij Hd E. assert (Hz : ((u + j) - (u + i)) mod num = 0) by (rewrite Zminus_mod, E, Z.sub_diag; apply Z.mod_0_l; lia).
  replace (u + j - (u + i)) with (j - i) in Hz by lia. rewrite Z.mod_small in Hz; lia.
Qed.

Lemma used_consume (s : VState W VirtioConsole) j idx : drained j s -> (j < length cs)%nat ->
  let w' := consume_mem base h (vq_used qs) (vq_num qs) idx 0 (vs_mem s) in
  rd16 w' (vq_used qs + 2) = u16 (u0 + Z.of_nat (S j)) /\
  rd32 w' (vq_used qs + 4 + ((u0 + Z.of_nat j) mod vq_num qs) * 8) = u32 idx /\
  (K <= vq_num qs -> forall i, (i < j)%nat ->
   rd32 w' (vq_used qs + 4 + ((u0 + Z.of_nat i) mod vq_num qs) * 8) =
   rd32 (vs_mem s) (vq_used qs + 4 + ((u0 + Z.of_nat i) mod vq_num qs) * 8)).
Proof.
  intros Hd Hj w'. destruct Hu as [Hn _]. pose proof (num_bounds _ Hn) as Hb. pose proof (dr_idx _ _ Hd) as Hx.
  unfold w', consume_mem, used_slot, VirtioProps.rd32. rewrite Hx, mod_num_u16 by done.
  pose proof (fun i => Z.mod_pos_bound (u0 + i) (vq_num qs) ltac:(lia)) as Hm.
  pose proof (Hm (Z.of_nat j)) as Hmj. split_and!.
  - unfold VirtioProps.rd16 at 1. rewrite (rd_scatter base h 2). unfold wrap. change (2 ^ (8 * Z.of_nat 2)) with (2 ^ 16).
    rewrite Z.mod_mod by lia. rewrite Zplus_mod_idemp_l. f_equal. lia.
  - rewrite 2!gather_scatter_disj; try (apply le_bytes_rng); try (unfold disj; lia). rewrite (rd_scatter base h 4).
    apply (wrap_small 32), rng_wrap. lia.
  - intros HK i Hi. pose proof (Hm (Z.of_nat i)) as Hmi.
    pose proof (slots_differ u0 (vq_num qs) (Z.of_nat i) (Z.of_nat j) ltac:(lia) ltac:(lia) ltac:(lia)) as Hne.
    rewrite 3!gather_scatter_disj; try (apply le_bytes_rng); unfold disj; try lia.
Qed.

Lemma avail_entry_ok (s : VState W VirtioConsole) j c : drained j s -> cs !! j = Some c ->
  avail_entry bus (arr (v_queue (vs_dev s)) 1) s = Done c.1.1 s.
Proof.
  intros Hd Hc. destruct (Hcs j c Hc) as [Hx _]. destruct Hu as [Hn _]. pose proof (num_bounds _ Hn) as Hb.
  pose proof (gr_base (bus:=bus) (base:=base) (size:=size) (h:=h)) as Hg.
  pose proof (gr_top (bus:=bus) (base:=base) (size:=size) (h:=h)) as Hg'.
  unfold avail_entry. rewrite (dr_q _ _ Hd). cbn. rewrite ring_index, mod_num_u16 by done.
  pose proof (Z.mod_pos_bound (vq_last qs + Z.of_nat j) (vq_num qs) ltac:(lia)) as Hm. unfold in_ram in Hav.
  rewrite wrap_small by (unfold rng; lia). rewrite (ReadPhys16_ok bus base size h) by (unfold in_ram; lia).
  rewrite Hx. f_equal. apply rd16_avail; [apply (dr_mem _ _ Hd)|lia|lia].
Qed.

Lemma bump_last_eq (s : VState W VirtioConsole) q qs' : arr (v_queue (vs_dev s)) q = qs' ->
  bump_last q s = Done tt (mkVs ((vs_dev s) <| v_queue := arr_set (v_queue (vs_dev s)) q
    (qs' <| vq_last := u16 (vq_last qs' + 1) |>) |>) (vs_be s) (vs_mem s) (vs_irq s)).
Proof. by intros <-. Qed.

Lemma last_ne j : 0 <= j < K -> u16 (vq_last qs + j) <> rd16 w0 (vq_avail qs + 2).
Proof.
  intros Hj E. assert (HK : K < 65536) by (rewrite <- Hpend; apply Z.mod_pos_bound; lia).
  rewrite <- E in Hpend. unfold wrap in Hpend. rewrite Zminus_mod_idemp_l in Hpend.
  replace (vq_last qs + j - vq_last qs) with j in Hpend by lia. rewrite Z.mod_small in Hpend; lia.
Qed.

Lemma drain_step (s : VState W VirtioConsole) j n c : drained j s -> cs !! j = Some c ->
  exists s', drained (S j) s' /\
    drain bus (ConsoleRecv bus m) (S n) m 1 (rd16 w0 (vq_avail qs + 2)) s =
    drain bus (ConsoleRecv bus m) n m 1 (rd16 w0 (vq_avail qs + 2)) s'.
Proof.
  intros Hd Hc. pose proof (lookup_lt_Some _ _ _ Hc) as Hj. destruct (Hcs j c Hc) as [_ Htx].
  destruct (tx_outside _ _ _ _ _ (dr_mem _ _ Hd) Htx) as [Htx' Hbytes].
  destruct Hu as [Hn Hur]. pose proof (num_bounds _ Hn) as Hb. destruct Hd as [Hlen Hq Hmem Hout Hidx Hused] eqn:Ed.
  set (w' := consume_mem base h (vq_used qs) (vq_num qs) c.1.1 0 (vs_mem s)).
  exists (mkVs ((vs_dev s) <| v_int_status := v_int_status (vs_dev s) .| kVirtioIntUsedRing |>
    <| v_queue := arr_set (v_queue (vs_dev s)) 1 (qs <| vq_last := u16 (vq_last qs + Z.of_nat (S j)) |>) |>)
    (HostWriteOut (tx_bytes w0 c) (vs_be s)) w' (if v_set_irq (vs_dev s) then vs_irq s ++ [true] else vs_irq s)).
  destruct (used_consume s j c.1.1 Hd Hj) as (Hu1 & Hu2 & Hu3).
  assert (Ho : outside (vq_used qs) (4 + vq_num qs * 8) w0 w').
  { intros a Ha. rewrite (Hmem a Ha). by apply (consume_outside qs). }
  split.
  - split; cbn [vs_dev vs_be vs_mem vs_irq].
    + cbn. by rewrite length_arr_set.
    + cbn. rewrite arr_set_eq; [done|lia].
    + exact Ho.
    + cbn [con_out HostWriteOut]. rewrite Hout, <- app_assoc. f_equal. rewrite (take_S_r _ _ _ Hc), fmap_app, concat_app. cbn.
      by rewrite app_nil_r.
    + exact Hu1.
    + intros HK i c' Hi Hc'. destruct (decide (i = j)) as [->|Hne].
      * replace c' with c by congruence. exact Hu2.
      * rewrite Hu3 by lia. apply (Hused HK i); [lia|done].
  - cbn [drain]. unfold mbind', getq, gets. cbv beta.
    rewrite (proj2 (Z.eqb_neq (vq_last (arr (v_queue (vs_dev s)) 1)) _)) by (rewrite Hq; apply last_ne; lia).
    rewrite (avail_entry_ok s j c Hd Hc).
    pose proof (tx_chain _ _ _ _ Htx') as Hch. destruct Htx' as [_ Hsh Hform Hbufs Htl _].
    rewrite (ChainSizes_ok bus base size h s 1 m c.1.1 c.1.2 c.2); [|by rewrite Hq|done].
    unfold chain_sizes. rewrite Hform. pose proof (sum_len_nonneg base size _ Hbufs).
    rewrite (i32_small (sum_len (run_of false _))) by lia.
    rewrite (console_recv_ok s m c.1.1 c.1.2 c.2) by (rewrite ?Hq; done). fold (tx_bytes (vs_mem s) c).
    rewrite Hbytes, Hq. change (vq_used (qs <| vq_last := _ |>)) with (vq_used qs).
    change (vq_num (qs <| vq_last := _ |>)) with (vq_num qs). fold w'. set (s1 := mkVs (_ <| v_queue := _ |>) _ _ _).
    erewrite (bump_last_eq _ 1 (qs <| vq_last := u16 (vq_last qs + Z.of_nat j) |>)) by exact Hq.
    change (vq_last (qs <| vq_last := u16 (vq_last qs + Z.of_nat j) |>)) with (u16 (vq_last qs + Z.of_nat j)).
    replace (u16 (u16 (vq_last qs + Z.of_nat j) + 1)) with (u16 (vq_last qs + Z.of_nat (S j)))
      by (unfold wrap; rewrite Zplus_mod_idemp_l; f_equal; lia).
    change (mkVs _ _ _ _) with s1. cbv beta iota.
    assert (E1 : vq_avail (arr (v_queue (vs_dev s1)) 1) = vq_avail qs).
    { unfold s1. cbn. rewrite arr_set_eq; [done|lia]. }
    rewrite E1. unfold in_ram in Hav. pose proof (gr_base (bus:=bus) (base:=base) (size:=size) (h:=h)) as Hg.
    pose proof (gr_top (bus:=bus) (base:=base) (size:=size) (h:=h)) as Hg'.
    rewrite wrap_small by (unfold rng; lia). rewrite (ReadPhys16_ok bus base size h) by (unfold in_ram; lia).
    change (vs_mem s1) with w'. rewrite (rd16_avail w' (vq_avail qs + 2)); [done|exact Ho|lia|lia].
Qed.

Lemma last_eq : u16 (vq_last qs + K) = rd16 w0 (vq_avail qs + 2).
Proof.
  rewrite <- Hpend. unfold wrap. change (2 ^ 16) with 65536. rewrite Zplus_mod_idemp_r.
  replace (vq_last qs + (rd16 w0 (vq_avail qs + 2) - vq_last qs)) with (rd16 w0 (vq_avail qs + 2)) by lia.
  apply Z.mod_small. apply (rd16_rng base h w0).
Qed.

Lemma drain_all r j n (s : VState W VirtioConsole) : (j + r = length cs)%nat -> drained j s -> (r <= n)%nat ->
  exists s', drain bus (ConsoleRecv bus m) n m 1 (rd16 w0 (vq_avail qs + 2)) s = Done tt s' /\ drained (length cs) s'.
Proof.
  revert j n s. induction r as [|r IH]; intros j n s Hj Hd Hn.
  - assert (j = length cs) as -> by lia. exists s. split; [|done].
    destruct n; cbn [drain]; unfold mbind', getq, gets; cbv beta; rewrite (dr_q _ _ Hd);
      change (vq_last (qs <| vq_last := ?x |>)) with x; rewrite last_eq, Z.eqb_refl; done.
  - destruct n as [|n]; [lia|]. destruct (lookup_lt_is_Some_2 cs j ltac:(lia)) as [c Hc].
    destruct (drain_step s j n c Hd Hc) as (s' & Hd' & ->). apply (IH (S j)); (done || lia).
Qed.
End drain.

(** C15: a notification of the console's transmit queue drains it: with the rings in RAM and the
    published chains well formed and apart from the used ring, the loop returns, the host console
    has received exactly the bytes of the published chains in order, the queue has caught up with
    the driver's index, and every chain is on the used ring; nothing else of guest memory changed.
    *)
Theorem console_tx_drains n m (s : VState W VirtioConsole) cs :
  let qs := arr (v_queue (vs_dev s)) kConsoleQueueTx in
  let avail := rd16 (vs_mem s) (vq_avail qs + 2) in
  let used := rd16 (vs_mem s) (vq_used qs + 2) in
  (1 < length (v_queue (vs_dev s)))%nat -> vq_manual qs = false -> used_ok base size qs ->
  in_ram base size (vq_avail qs) (4 + vq_num qs * 2) -> rng 16 (vq_last qs) ->
  disj (vq_avail qs) (4 + vq_num qs * 2) (vq_used qs) (4 + vq_num qs * 8) ->
  (avail - vq_last qs) mod 65536 = Z.of_nat (length cs) -> (length cs <= n)%nat ->
  (forall j c, cs !! j = Some c ->
     c.1.1 = rd16 (vs_mem s) (vq_avail qs + 4 + ((vq_last qs + Z.of_nat j) mod vq_num qs) * 2) /\ tx_ok qs m (vs_mem s) c) ->
  exists s', VirtioNotifyQueue bus (ConsoleRecv bus m) n m kConsoleQueueTx s = Done tt s' /\
    con_out (vs_be s') = con_out (vs_be s) ++ concat (tx_bytes (vs_mem s) <$> cs) /\
    vq_last (arr (v_queue (vs_dev s')) kConsoleQueueTx) = avail /\
    rd16 (vs_mem s') (vq_used qs + 2) = u16 (used + Z.of_nat (length cs)) /\
    (Z.of_nat (length cs) <= vq_num qs -> forall j c, cs !! j = Some c ->
       rd32 (vs_mem s') (vq_used qs + 4 + ((used + Z.of_nat j) mod vq_num qs) * 8) = u32 c.1.1) /\
    outside (vq_used qs) (4 + vq_num qs * 8) (vs_mem s) (vs_mem s').
Proof.
  intros qs avail used Hlen Hman Hu Hav Hlast Hdis Hp Hn Hcs.
  assert (Hd : drained qs (vs_mem s) (con_out (vs_be s)) cs 0 s).
  { split; [done| |done|by rewrite app_nil_r| |by intros; lia].
    - cbn [Z.of_nat]. rewrite Z.add_0_r, wrap_small by done. unfold qs, kConsoleQueueTx. by destruct (arr (v_queue (vs_dev s)) 1).
    - cbn [Z.of_nat]. rewrite Z.add_0_r. symmetry. apply wrap_small, rd16_rng. }
  destruct (drain_all m qs (vs_mem s) (con_out (vs_be s)) cs Hu Hav Hdis Hp Hcs (length cs) 0 n s ltac:(lia) Hd Hn)
    as (s' & Hdr & [Hl' Hq' Hm' Ho' Hi' Hus']).
  destruct Hu as [Hnum _]. pose proof (num_bounds _ Hnum) as Hnb. unfold in_ram in Hav.
  pose proof (gr_base (bus:=bus) (base:=base) (size:=size) (h:=h)) as Hg.
  pose proof (gr_top (bus:=bus) (base:=base) (size:=size) (h:=h)) as Hg'.
  exists s'. split_and!; try done.
  - unfold VirtioNotifyQueue, mbind', getq, gets. cbv beta. fold qs. rewrite Hman, (proj2 (Z.eqb_neq (vq_num qs) 0)) by lia.
    rewrite wrap_small by (unfold rng; lia). rewrite (ReadPhys16_ok bus base size h) by (unfold in_ram; lia). exact Hdr.
  - by rewrite take_ge in Ho' by lia.
  - change kConsoleQueueTx with 1. rewrite Hq'. by apply last_eq.
  - intros HK j c Hc. apply (Hus' HK j); [by apply lookup_lt_Some in Hc|done].
Qed.
End console.

(** * The block device against its image file

    What one read or write request leaves in guest memory, on the used ring
    and in the image, and that a sector written is read back. *)

(** What the operating system promises of a whole write. *)
Class HostFileLaws (F : Type) `{HostFileOps F} : Prop := {
  fl_read_back : forall f off bs f', 0 <= off -> Forall (rng 8) bs -> f_pwrite f off bs = (f', Z.of_nat (length bs)) ->
    f_pread f' off (Z.of_nat (length bs)) = bs;
}.

Section blk.
Context {Ops Dev W F : Type} `{HostBytes Ops Dev W} `{HostFileOps F} (bus : Bus Ops Dev) (base size : Z) (h : host_ptr Dev).
Context `{!GuestRam bus base size h}.
Implicit Types (w : W) (s : VState W (VirtioBlk F)).
#[local] Abbreviation gather := (gather base h).
#[local] Abbreviation scatter := (scatter base h).
#[local] Abbreviation chain := (chain base size h).
#[local] Abbreviation buf_ok := (buf_ok base size).
#[local] Abbreviation request := (Z * VringDesc * list VringDesc)%type.
Implicit Types (c : request).

Definition rd_addrs c : list Z := addrs (run_of false (c.1.2 :: c.2)).
Definition wr_addrs c : list Z := addrs (wr_run (c.1.2 :: c.2)).
Definition rd_len c : Z := sum_len (run_of false (c.1.2 :: c.2)).
Definition wr_len c : Z := sum_len (wr_run (c.1.2 :: c.2)).
(** The descriptor table entries of a request. *)
Definition req_entries (qs : VirtioQueue) c : list Z := entry_addrs (vq_desc qs) c.1.1 ++ entries (vq_desc qs) c.1.2 c.2.

Definition blk_header w c : list Z := gather (take 16 (rd_addrs c)) w.
Definition req_type w c : Z := le_val (take 4 (blk_header w c)).
Definition req_sector w c : Z := le_val (drop 8 (blk_header w c)).

(** A request the driver laid out well: header and data readable first, then
    the writable bytes, the last of them for the status; the writable bytes
    are apart from the rest of it, and all of it from the used ring. *)
Record blk_req (qs : VirtioQueue) (m : nat) w c : Prop := {
  br_chain : chain w (vq_desc qs) c.1.1 c.1.2 c.2;
  br_short : (length c.2 <= m)%nat;
  br_rbufs : Forall buf_ok (run_of false (c.1.2 :: c.2));
  br_wbufs : Forall buf_ok (wr_run (c.1.2 :: c.2));
  br_rlen : 16 <= rd_len c < 2 ^ 31;
  br_wlen : 1 <= wr_len c < 2 ^ 31;
  br_nodup : NoDup (wr_addrs c);
  br_sep : forall a, a ∈ req_entries qs c ++ rd_addrs c -> a ∉ wr_addrs c;
  br_used : forall a, a ∈ req_entries qs c ++ rd_addrs c ++ wr_addrs c -> ~ vq_used qs <= a < vq_used qs + (4 + vq_num qs * 8);
}.

Lemma len_rd qs m w c : blk_req qs m w c -> Z.of_nat (length (rd_addrs c)) = rd_len c.
Proof. intros Hr. apply length_addrs. eapply bufs_len, br_rbufs. done. Qed.

Lemma len_wr qs m w c : blk_req qs m w c -> Z.of_nat (length (wr_addrs c)) = wr_len c.
Proof. intros Hr. apply length_addrs. eapply bufs_len, br_wbufs. done. Qed.

(** Memory that agrees on a request's own bytes holds the same request. *)
Lemma blk_req_agree qs m w w' c :
  (forall a, a ∈ req_entries qs c ++ rd_addrs c -> gget base h a w' = gget base h a w) -> blk_req qs m w c ->
  blk_req qs m w' c /\ gather (rd_addrs c) w' = gather (rd_addrs c) w.
Proof.
  intros Ha [[He [Hd Hl]] H2 H3 H4 H5 H6 H7 H8 H9]. split.
  - split; try done. split; [done|]. unfold req_entries in Ha. setoid_rewrite elem_of_app in Ha.
    setoid_rewrite elem_of_app in Ha. split.
    + rewrite Hd. unfold desc_at. f_equal. apply gather_agree. intros a Hi. symmetry. apply Ha. auto.
    + eapply links_agree; [|exact Hl]. apply gather_agree. intros a Hi. symmetry. apply Ha. auto.
  - apply gather_agree. intros a Hi. apply Ha. apply elem_of_app. by right.
Qed.

Lemma chain_scatter qs m w c l bs : blk_req qs m w c -> Forall (rng 8) bs -> (forall a, a ∈ l -> a ∈ wr_addrs c) ->
  blk_req qs m (scatter l bs w) c.
Proof.
  intros Hr Hbs Hl. apply (blk_req_agree qs m w); [|done]. intros a Ha. apply gget_scatter_ne; [done|].
  intros Hi. apply (br_sep _ _ _ _ Hr a Ha), Hl. by apply elem_of_take in Hi as (i & Hi%list_elem_of_lookup_2 & _).
Qed.

Lemma slice_sub off len (l : list Z) a : a ∈ slice off len l -> a ∈ l.
Proof.
  unfold slice. intros (i & Hi)%list_elem_of_lookup. apply lookup_take_Some in Hi as [Hi _]. rewrite lookup_drop in Hi.
  by eapply list_elem_of_lookup_2.
Qed.

(** A copy into the writable bytes of a request. *)
Lemma copy_to_req s q m c off bs len : let qs := arr (v_queue (vs_dev s)) q in
  blk_req qs m (vs_mem s) c -> 0 <= off -> 0 < len -> off + len <= wr_len c ->
  len <= Z.of_nat (length bs) -> Forall (rng 8) bs ->
  VirtioCopyToChain bus m q c.1.1 off bs len s =
  Done (Some tt) (with_mem s (scatter (slice off len (wr_addrs c)) bs (vs_mem s))).
Proof.
  intros qs Hr Ho Hl Hs Hb Hbs. pose proof (br_wlen _ _ _ _ Hr).
  apply (copy_to_ok bus base size h m s q c.1.1 c.1.2 c.2); try done; try lia; try (by eapply br_chain || by eapply br_short).
  - by eapply br_wbufs.
  - intros a Ha. apply (br_sep _ _ _ _ Hr). unfold req_entries. rewrite !elem_of_app. auto.
Qed.

Definition last_slice c : list Z := slice (wr_len c - 1) 1 (wr_addrs c).

(** After the status byte is written and the chain published. *)
Definition finish_mem (qs : VirtioQueue) c (status : Z) w : W :=
  consume_mem base h (vq_used qs) (vq_num qs) c.1.1 (wr_len c) (scatter (last_slice c) [status] w).

Definition finish_state s (qs : VirtioQueue) (be : VirtioBlk F) w : VState W (VirtioBlk F) :=
  mkVs ((vs_dev s) <| v_int_status := v_int_status (vs_dev s) .| kVirtioIntUsedRing |>) be w
    (if v_set_irq (vs_dev s) then vs_irq s ++ [true] else vs_irq s).

Lemma blk_finish_ok s q m c status : let qs := arr (v_queue (vs_dev s)) q in
  blk_req qs m (vs_mem s) c -> used_ok base size qs -> rng 8 status ->
  blk_finish bus m q c.1.1 (wr_len c) status s = Done false (finish_state s qs (vs_be s) (finish_mem qs c status (vs_mem s))).
Proof.
  intros qs Hr Hu Hst. pose proof (br_wlen _ _ _ _ Hr). unfold blk_finish, mbind'.
  rewrite i32_small by lia. rewrite (copy_to_req s q m c) by (done || lia || by constructor).
  rewrite (consume_ok bus base size h) by done. done.
Qed.

(** ** The two transfers *)

Definition req_off w c : Z := sector_off (req_sector w c).

Lemma header_ok s q m c : blk_req (arr (v_queue (vs_dev s)) q) m (vs_mem s) c ->
  VirtioCopyFromChain bus m q c.1.1 0 kBlkHeaderSize s = Done (Some (blk_header (vs_mem s) c)) s.
Proof.
  intros Hr. pose proof (br_rlen _ _ _ _ Hr) as Hl. unfold kBlkHeaderSize.
  rewrite (copy_from_ok bus base size h m s q c.1.1 c.1.2 c.2); try done; try lia;
    try (by eapply br_chain || by eapply br_short || by eapply br_rbufs).
  fold (rd_len c). by rewrite (proj2 (Z.leb_le (0 + 16) (rd_len c))) by lia.
Qed.

Lemma blk_recv_out s q m c f f' sectors : let qs := arr (v_queue (vs_dev s)) q in
  let data := gather (drop 16 (rd_addrs c)) (vs_mem s) in
  blk_req qs m (vs_mem s) c -> used_ok base size qs -> req_type (vs_mem s) c = kVirtioBlkTOut ->
  vs_be s = mkBlk (Some f) sectors -> 0 < rd_len c - 16 -> 0 <= req_off (vs_mem s) c ->
  f_pwrite f (req_off (vs_mem s) c) data = (f', rd_len c - 16) ->
  BlkRecv bus m q c.1.1 (rd_len c) (wr_len c) s =
  Done false (finish_state s qs (mkBlk (Some f') sectors) (finish_mem qs c kVirtioBlkOk (vs_mem s))).
Proof.
  intros qs data Hr Hu Ht Hf Hlen Hoff Hw. pose proof (br_rlen _ _ _ _ Hr) as Hl. unfold BlkRecv.
  rewrite (proj2 (Z.ltb_ge (rd_len c) kBlkHeaderSize)) by (unfold kBlkHeaderSize; lia). unfold mbind' at 1.
  rewrite header_ok by done. fold (req_type (vs_mem s) c). fold (req_sector (vs_mem s) c). rewrite Ht.
  change (kVirtioBlkTOut =? kVirtioBlkTIn) with false. change (kVirtioBlkTOut =? kVirtioBlkTOut) with true. cbv iota.
  unfold mbind' at 1, blk_out. unfold mbind' at 1. unfold kBlkHeaderSize at 1 2.
  rewrite (copy_from_ok bus base size h m s q c.1.1 c.1.2 c.2); try done; try lia;
    try (by eapply br_chain || by eapply br_short || by eapply br_rbufs).
  fold (rd_len c) (rd_addrs c). rewrite (proj2 (Z.leb_le (16 + (rd_len c - 16)) (rd_len c))) by lia.
  assert (Hd : slice 16 (rd_len c - 16) (rd_addrs c) = drop 16 (rd_addrs c)).
  { unfold slice. apply take_ge. rewrite length_drop. pose proof (len_rd _ _ _ _ Hr). lia. }
  rewrite Hd. fold data. unfold mbind', getbe, gets. rewrite Hf. cbn [blk_file blk_sectors].
  unfold kBlkHeaderSize. rewrite (wrap_small 64 (rd_len c - 16)) by (unfold rng; lia). unfold HostFileWriteAt.
  rewrite (proj2 (Z.eqb_neq (rd_len c - 16) 0)), (wrap_small 32) by (unfold rng; lia).
  fold (req_off (vs_mem s) c). rewrite (proj2 (Z.ltb_ge _ 0)) by done. cbn [orb].
  assert (Hdl : length data = Z.to_nat (rd_len c - 16)).
  { unfold data, VirtioProps.gather. rewrite length_fmap, length_drop. pose proof (len_rd _ _ _ _ Hr). lia. }
  rewrite take_ge by lia. rewrite Hw. unfold modbe, modify. rewrite Z.eqb_refl. unfold mret' at 1.
  rewrite Hf. cbn [blk_sectors]. erewrite (blk_finish_ok _ q m c); [done|done|done|]. unfold rng, kVirtioBlkOk. lia.
Qed.

Lemma blk_recv_in s q m c f sectors : let qs := arr (v_queue (vs_dev s)) q in
  let len := wr_len c - 1 in let data := f_pread f (req_off (vs_mem s) c) len in
  blk_req qs m (vs_mem s) c -> used_ok base size qs -> req_type (vs_mem s) c = kVirtioBlkTIn ->
  vs_be s = mkBlk (Some f) sectors -> 0 < len -> 0 <= req_off (vs_mem s) c ->
  Z.of_nat (length data) = len -> Forall (rng 8) data ->
  BlkRecv bus m q c.1.1 (rd_len c) (wr_len c) s =
  Done false (finish_state s qs (vs_be s) (finish_mem qs c kVirtioBlkOk (scatter (slice 0 len (wr_addrs c)) data (vs_mem s)))).
Proof.
  intros qs len data Hr Hu Ht Hf Hlen Hoff Hdl Hd. pose proof (br_rlen _ _ _ _ Hr) as Hl. pose proof (br_wlen _ _ _ _ Hr) as Hwl.
  unfold BlkRecv. rewrite (proj2 (Z.ltb_ge (rd_len c) kBlkHeaderSize)) by (unfold kBlkHeaderSize; lia). unfold mbind' at 1.
  rewrite header_ok by done. fold (req_type (vs_mem s) c). fold (req_sector (vs_mem s) c). rewrite Ht.
  change (kVirtioBlkTIn =? kVirtioBlkTIn) with true. cbv iota.
  unfold mbind' at 1, blk_in. unfold mbind' at 1, getbe, gets. rewrite Hf. cbn [blk_file]. rewrite i32_small by lia.
  rewrite (wrap_small 64) by (unfold rng; lia). unfold HostFileReadAt. fold (req_off (vs_mem s) c) len.
  rewrite (proj2 (Z.eqb_neq len 0)), (wrap_small 32) by (unfold rng; lia). rewrite (proj2 (Z.ltb_ge _ 0)) by done.
  cbn [orb]. fold data. rewrite Hdl, Z.eqb_refl, (proj2 (Z.ltb_lt 0 len)) by done. unfold mbind'.
  rewrite (copy_to_req s q m c 0 data len) by (done || lia). unfold mret' at 1 2.
  set (w1 := scatter (slice 0 len (wr_addrs c)) data (vs_mem s)).
  assert (Hr1 : blk_req qs m w1 c) by (apply chain_scatter; [done|done|apply slice_sub]).
  rewrite (blk_finish_ok (with_mem s w1) q m c) by (done || by (unfold rng, kVirtioBlkOk; lia)).
  unfold finish_state, with_mem. cbn. by rewrite Hf.
Qed.

(** ** What a request leaves behind *)

Lemma gather_finish qs m w w0 c st l : blk_req qs m w0 c -> used_ok base size qs -> rng 8 st ->
  (forall a, a ∈ l -> ~ vq_used qs <= a < vq_used qs + (4 + vq_num qs * 8)) -> (forall a, a ∈ l -> a ∉ last_slice c) ->
  gather l (finish_mem qs c st w) = gather l w.
Proof.
  intros Hr Hu Hst Hl1 Hl2. unfold finish_mem. rewrite <- (gather_outside base h _ _ _ _ _ (consume_outside base size h _ _ _ _ Hu)).
  - apply gather_scatter_ne; [by constructor|done].
  - by apply Forall_forall.
Qed.

Lemma last_slice_sub c a : a ∈ last_slice c -> a ∈ wr_addrs c.
Proof. apply slice_sub. Qed.

Lemma wr_apart qs m w c a : blk_req qs m w c -> a ∈ wr_addrs c -> ~ vq_used qs <= a < vq_used qs + (4 + vq_num qs * 8).
Proof. intros Hr Ha. apply (br_used _ _ _ _ Hr). rewrite !elem_of_app. auto. Qed.

Lemma status_written qs m w w0 c st : blk_req qs m w0 c -> used_ok base size qs -> rng 8 st ->
  gather (last_slice c) (finish_mem qs c st w) = [st].
Proof.
  intros Hr Hu Hst. unfold finish_mem. rewrite <- (gather_outside base h _ _ _ _ _ (consume_outside base size h _ _ _ _ Hu)).
  - pose proof (len_wr _ _ _ _ Hr). pose proof (br_wlen _ _ _ _ Hr). apply gather_scatter; [by constructor| |].
    + unfold last_slice, slice. eapply sublist_NoDup; [exact (br_nodup _ _ _ _ Hr)|]. etrans; [apply sublist_take|apply sublist_drop].
    + unfold last_slice, slice. rewrite length_take, length_drop. change (Z.to_nat 1) with 1%nat. cbn [length]. lia.
  - apply Forall_forall. intros a Ha. by eapply wr_apart; [|apply last_slice_sub].
Qed.

(** The data bytes and the status byte of a request are apart. *)
Lemma data_not_status qs m w c a : blk_req qs m w c -> a ∈ slice 0 (wr_len c - 1) (wr_addrs c) -> a ∉ last_slice c.
Proof.
  intros Hr. pose proof (br_nodup _ _ _ _ Hr) as Hn. pose proof (len_wr _ _ _ _ Hr) as Hl. pose proof (br_wlen _ _ _ _ Hr).
  rewrite <- (take_drop (Z.to_nat (wr_len c - 1)) (wr_addrs c)) in Hn. apply NoDup_app in Hn as (_ & Hd & _).
  unfold slice at 1. rewrite drop_0. intros Ha Hi. apply (Hd a Ha). unfold last_slice, slice in Hi.
  by apply elem_of_take in Hi as (i & Hi%list_elem_of_lookup_2 & _).
Qed.

(** C16: the block device reads back what it wrote: a well-formed write request at a non-negative
    image offset whose bytes the host file takes in full, followed by a well-formed read request of
    the same sector and length whose ring entries and header the first one's status byte does not
    touch, puts the written bytes into the reader's buffer, with an OK status byte at the end of
    both requests, whatever the image held before. A short or failing host write is not covered. *)
Theorem blk_write_read_back `{!HostFileLaws F} m s q c1 c2 f f' sectors : let qs := arr (v_queue (vs_dev s)) q in
  let data := gather (drop 16 (rd_addrs c1)) (vs_mem s) in
  blk_req qs m (vs_mem s) c1 -> blk_req qs m (vs_mem s) c2 -> used_ok base size qs ->
  vs_be s = mkBlk (Some f) sectors ->
  req_type (vs_mem s) c1 = kVirtioBlkTOut -> req_type (vs_mem s) c2 = kVirtioBlkTIn ->
  req_sector (vs_mem s) c2 = req_sector (vs_mem s) c1 -> 0 <= req_off (vs_mem s) c1 ->
  0 < wr_len c2 - 1 -> rd_len c1 - 16 = wr_len c2 - 1 ->
  (forall a, a ∈ req_entries qs c2 ++ rd_addrs c2 -> a ∉ wr_addrs c1) ->
  f_pwrite f (req_off (vs_mem s) c1) data = (f', wr_len c2 - 1) ->
  exists s1 s2, BlkRecv bus m q c1.1.1 (rd_len c1) (wr_len c1) s = Done false s1 /\
    gather (last_slice c1) (vs_mem s1) = [kVirtioBlkOk] /\
    BlkRecv bus m q c2.1.1 (rd_len c2) (wr_len c2) s1 = Done false s2 /\
    gather (last_slice c2) (vs_mem s2) = [kVirtioBlkOk] /\
    gather (slice 0 (wr_len c2 - 1) (wr_addrs c2)) (vs_mem s2) = data.
Proof.
  intros qs data Hr1 Hr2 Hu Hbe Ht1 Ht2 Hsec Hoff Hpos Hlen Hsep Hw.
  assert (Hst : rng 8 kVirtioBlkOk) by (unfold rng, kVirtioBlkOk; lia).
  assert (Hdl : Z.of_nat (length data) = wr_len c2 - 1).
  { unfold data, VirtioProps.gather. rewrite length_fmap, length_drop. pose proof (len_rd _ _ _ _ Hr1). lia. }
  pose proof (blk_recv_out s q m c1 f f' sectors Hr1 Hu Ht1 Hbe ltac:(lia) Hoff ltac:(rewrite Hlen; exact Hw)) as E1.
  set (w1 := finish_mem qs c1 kVirtioBlkOk (vs_mem s)) in E1. set (s1 := finish_state _ _ _ _) in E1.
  assert (Hw1 : forall a, a ∈ req_entries qs c2 ++ rd_addrs c2 -> gget base h a w1 = gget base h a (vs_mem s)).
  { intros a Ha. assert (Hg : gather [a] w1 = gather [a] (vs_mem s)).
    { apply (gather_finish qs m _ (vs_mem s)); [done..| |].
      - intros b ->%list_elem_of_singleton. apply (br_used _ _ _ _ Hr2). apply elem_of_app in Ha as [?|?]; rewrite !elem_of_app; auto.
      - intros b ->%list_elem_of_singleton Hi. by apply (Hsep a Ha), last_slice_sub. }
    by injection Hg. }
  destruct (blk_req_agree qs m (vs_mem s) w1 c2 Hw1 Hr2) as [Hr2' Hrd].
  assert (Hh : blk_header w1 c2 = blk_header (vs_mem s) c2).
  { unfold blk_header. apply gather_agree. intros a Ha. apply Hw1. apply elem_of_app. right.
    by apply elem_of_take in Ha as (i & Ha%list_elem_of_lookup_2 & _). }
  assert (Hro : req_off w1 c2 = req_off (vs_mem s) c1) by (unfold req_off, req_sector in *; by rewrite Hh, Hsec).
  assert (Hback : f_pread f' (req_off w1 c2) (wr_len c2 - 1) = data).
  { rewrite Hro, <- Hdl. apply (fl_read_back f); [done|apply vgather_rng|by rewrite Hdl]. }
  pose proof (blk_recv_in s1 q m c2 f' sectors Hr2' Hu) as E2. cbv zeta in E2. change (vs_mem s1) with w1 in E2.
  rewrite Hback in E2. specialize (E2 ltac:(unfold req_type; rewrite Hh; exact Ht2) eq_refl Hpos ltac:(rewrite Hro; exact Hoff)
    Hdl ltac:(apply vgather_rng)).
  exists s1. eexists. split_and!; [exact E1|by apply (status_written qs m _ (vs_mem s))|exact E2| |].
  - cbn [vs_mem finish_state]. by apply (status_written qs m _ w1).
  - cbn [vs_mem finish_state]. rewrite (gather_finish qs m _ w1); [|done..| |].
    + apply gather_scatter; [apply vgather_rng| |].
      * unfold slice. eapply sublist_NoDup; [exact (br_nodup _ _ _ _ Hr2)|]. etrans; [apply sublist_take|apply sublist_drop].
      * unfold slice. rewrite length_take, length_drop. pose proof (len_wr _ _ _ _ Hr2). lia.
    + intros a Ha. by eapply wr_apart, slice_sub.
    + intros a Ha. by eapply data_not_status.
Qed.
End blk.
