(* ===== verification/VirtioInv.v ===== *)
(** * The virtio register file's invariant

    Whatever registers the guest writes, whatever its memory holds and
    whatever the backend does in between: queue sizes are 0 or a power of two
    up to 1024, the selected queue exists, every register is within its
    width, the configuration page keeps its size, and the level last driven
    on the interrupt line is the interrupt status.  What the transport needs
    of a backend for this is a type class, discharged by the three devices. *)

From Stdlib Require Import Strings.Ascii.
From S2P Require Import Prelude Bus Ram HostMem Virtio VirtioProps VirtioDev.

Definition vq_ok (q : VirtioQueue) : Prop :=
  (vq_num q = 0 \/ num_ok (vq_num q)) /\ rng 32 (vq_pfn q) /\ rng 64 (vq_desc q) /\ rng 64 (vq_avail q) /\
  rng 64 (vq_used q) /\ rng 16 (vq_last q).

Record vdev_ok (v : VirtioDevice) : Prop := {
  vo_len : length (v_queue v) = 64%nat;
  vo_queue : Forall vq_ok (v_queue v);
  vo_sel : 0 <= v_queue_sel v < 64;
  vo_clen : length (v_config v) = 256%nat;
  vo_config : Forall (rng 8) (v_config v);
  vo_csize : v_config_size v <= 256;
  vo_guest : rng 64 (v_guest_features v);
  vo_status : rng 32 (v_status v);
  vo_fsel : rng 32 (v_device_features_sel v) /\ rng 32 (v_driver_features_sel v);
  vo_shift : 12 <= v_page_shift v <= 32;
  vo_align : 0x1000 <= v_align v < 2 ^ 32;
  vo_int : rng 1 (v_int_status v);
  vo_wired : v_set_irq v = true;
}.

(** The level of the interrupt line, low before it is first driven. *)
Definition irq_level {W B} (s : VState W B) : bool := default false (last (vs_irq s)).

Definition vinv {W B} (s : VState W B) : Prop :=
  vdev_ok (vs_dev s) /\ irq_level s = negb (v_int_status (vs_dev s) =? 0).

Definition vstep {W B} (s s' : VState W B) : Prop := vinv s -> vinv s'.
#[export] Instance vstep_preorder {W B} : PreOrder (@vstep W B).
Proof. split; unfold vstep; repeat intro; auto. Qed.

(** What the transport asks of a backend: handlers, hooks and host-side entry
    points leave the register file well formed. *)
Class VirtioBackend {W B : Type} (recv : Z -> Z -> Z -> Z -> M (VState W B) bool)
    (reset_hook config_hook : M (VState W B) unit) (host : M (VState W B) unit -> Prop) : Prop := {
  vb_recv : forall q idx rd wr, pres vstep (recv q idx rd wr);
  vb_reset : pres vstep reset_hook;
  vb_config : pres vstep config_hook;
  vb_host : forall p, host p -> pres vstep p;
}.

Section pres.
Context {Ops Dev W B : Type} `{BusDevices Ops Dev W} (bus : Bus Ops Dev).
#[local] Abbreviation VM := (M (VState W B)).
#[local] Abbreviation P := (pres (@vstep W B)).

Lemma pres_on_mem {A} (p : M W A) : P (on_mem p).
Proof. intros s. unfold wp, on_mem. destruct (p (vs_mem s)); [intros Hs; exact Hs..|done]. Qed.

Lemma pres_modbe f : P (modbe f).
Proof. apply pres_modify. intros s Hs. exact Hs. Qed.

(** Device updates that do not touch the interrupt status. *)
Lemma pres_moddev f : (forall v, vdev_ok v -> vdev_ok (f v) /\ v_int_status (f v) = v_int_status v) -> P (moddev f).
Proof.
  intros Hf. apply pres_modify. intros s [Hv Hi]. destruct (Hf _ Hv) as [Hv' Hi']. split; [done|]. cbn [vs_dev].
  by rewrite Hi'.
Qed.

Lemma vq_at v q : vdev_ok v -> vq_ok (arr (v_queue v) q).
Proof.
  intros Hv. unfold arr. rewrite list_lookup_total_alt. destruct (v_queue v !! Z.to_nat q) as [qs|] eqn:E; cbn.
  - by eapply (Forall_lookup_1 _ _ _ _ (vo_queue _ Hv)).
  - split; [by left|]. unfold rng. cbn. split_and!; lia.
Qed.

Lemma vdev_queue v l : vdev_ok v -> length l = 64%nat -> Forall vq_ok l -> vdev_ok (v <| v_queue := l |>).
Proof. intros [] ? ?. by split. Qed.

Lemma pres_modq q f : (forall qs, vq_ok qs -> vq_ok (f qs)) -> P (modq q f).
Proof.
  intros Hf. apply pres_moddev. intros v Hv. split; [|done]. apply vdev_queue; [done| |].
  - by rewrite length_arr_set, (vo_len _ Hv).
  - apply Forall_arr_set; [apply (vo_queue _ Hv)|by apply Hf, vq_at].
Qed.
End pres.

Create HintDb vpres discriminated.
#[export] Hint Resolve pres_on_mem pres_modbe : vpres.
#[export] Hint Extern 1 (pres _ (mret' _)) => apply (pres_ret vstep) : vpres.
#[export] Hint Extern 1 (pres _ (gets _)) => apply (pres_gets vstep) : vpres.
#[export] Hint Extern 1 (pres _ (abort _)) => apply (pres_abort vstep) : vpres.

(** Walk the code: binds, reads, branches; then the lemmas of the database. *)
Ltac vpres :=
  repeat first
    [ solve [eauto with vpres]
    | apply (pres_bind vstep); [|intros ?]
    | progress unfold getq, getdev, getbe
    | match goal with
      | |- pres _ (if ?b then _ else _) => destruct b
      | |- pres _ (match ?x with _ => _ end) => destruct x
      end ].

Section transport.
Context {Ops Dev W B : Type} `{BusDevices Ops Dev W} (bus : Bus Ops Dev).
#[local] Abbreviation P := (pres (@vstep W B)).

Lemma pres_read16 a : P (ReadPhys16 bus a).
Proof. unfold ReadPhys16. vpres. Qed.
Lemma pres_write16 a v : P (WritePhys16 bus a v).
Proof. unfold WritePhys16. vpres. Qed.
Lemma pres_write32 a v : P (WritePhys32 bus a v).
Proof. unfold WritePhys32. vpres. Qed.
Lemma pres_GetDesc q i : P (GetDesc bus q i).
Proof. unfold GetDesc. vpres. Qed.
#[local] Hint Resolve pres_read16 pres_write16 pres_write32 pres_GetDesc : vpres.

Lemma pres_next {A} q d (k : VringDesc -> M (VState W B) (option A)) : (forall d', P (k d')) -> P (next_desc bus q d k).
Proof. intros Hk. unfold next_desc. vpres. Qed.

Lemma pres_sizes_wr n q d a b : P (sizes_wr bus n q d a b).
Proof. revert d a b. induction n; intros; cbn [sizes_wr]; vpres; apply pres_next; intros; vpres. Qed.
Lemma pres_sizes_rd n q d a : P (sizes_rd bus n q d a).
Proof. pose proof pres_sizes_wr. revert d a. induction n; intros; cbn [sizes_rd]; vpres; apply pres_next; intros; vpres. Qed.
#[local] Hint Resolve pres_sizes_rd : vpres.
Lemma pres_ChainSizes n q i : P (ChainSizes bus n q i).
Proof. unfold ChainSizes. vpres. Qed.
Lemma pres_skip n q d : P (skip_readable bus n q d).
Proof. revert d. induction n; intros; cbn [skip_readable]; vpres; apply pres_next; intros; vpres. Qed.
Lemma pres_seek n q b d o : P (seek bus n q b d o).
Proof. revert d o. induction n; intros; cbn [seek]; vpres; apply pres_next; intros; vpres. Qed.
Lemma pres_copy_in n q d o l : P (copy_in bus n q d o l).
Proof. revert d o l. induction n; intros; cbn [copy_in]; vpres; apply pres_next; intros; vpres. Qed.
Lemma pres_copy_out n q d o bs l : P (copy_out bus n q d o bs l).
Proof. revert d o bs l. induction n; intros; cbn [copy_out]; vpres; apply pres_next; intros; vpres. Qed.
#[local] Hint Resolve pres_ChainSizes pres_skip pres_seek pres_copy_in pres_copy_out : vpres.

Lemma pres_CopyFrom n q i o l : P (VirtioCopyFromChain bus n q i o l).
Proof. unfold VirtioCopyFromChain. vpres. Qed.
Lemma pres_CopyTo n q i o bs l : P (VirtioCopyToChain bus n q i o bs l).
Proof. unfold VirtioCopyToChain. vpres. Qed.

(** Raising the line with the status bit. *)
Lemma raise_ok (s : VState W B) : vinv s ->
  vinv (mkVs ((vs_dev s) <| v_int_status := v_int_status (vs_dev s) .| kVirtioIntUsedRing |>) (vs_be s) (vs_mem s)
          (if v_set_irq (vs_dev s) then vs_irq s ++ [true] else vs_irq s)).
Proof.
  intros [Hv Hi]. pose proof (vo_wired _ Hv) as Hw. pose proof (vo_int _ Hv) as Hr.
  assert (Hone : v_int_status (vs_dev s) .| kVirtioIntUsedRing = 1).
  { unfold rng in Hr. assert (v_int_status (vs_dev s) = 0 \/ v_int_status (vs_dev s) = 1) as [-> | ->] by lia; done. }
  split.
  - cbn [vs_dev]. rewrite Hone. destruct Hv. by split.
  - unfold irq_level. cbn [vs_irq vs_dev]. rewrite Hw, last_snoc. cbn. by rewrite Hone.
Qed.

Lemma pres_vraise : P (moddev (fun v => v <| v_int_status := v_int_status v .| kVirtioIntUsedRing |>) ;;; set_irq true).
Proof.
  intros s. unfold wp, mbind', moddev, set_irq, modify. cbn [vs_dev vs_be vs_mem vs_irq]. intros Hs. exact (raise_ok s Hs).
Qed.
#[local] Hint Resolve pres_vraise : vpres.

Lemma pres_Consume q i w : P (VirtioConsumeChain bus q i w).
Proof. unfold VirtioConsumeChain. vpres. Qed.

Lemma pres_bump q : P (bump_last q).
Proof.
  apply pres_modq. intros qs (? & ? & ? & ? & ? & ?). unfold vq_ok. cbn. split_and!; try done. all: apply (rng_wrap 16); lia.
Qed.
#[local] Hint Resolve pres_CopyFrom pres_CopyTo pres_Consume pres_bump : vpres.

Lemma pres_avail_entry qs : P (avail_entry bus qs).
Proof. unfold avail_entry. vpres. Qed.
#[local] Hint Resolve pres_avail_entry : vpres.

Lemma pres_QueueAvail q : P (VirtioQueueAvail bus q).
Proof. unfold VirtioQueueAvail. vpres. Qed.
Lemma pres_ManualFill n q bs l : P (VirtioManualFill bus n q bs l).
Proof. unfold VirtioManualFill, VirtioManualChain. vpres. Qed.

Lemma pres_Notify recv n m q : (forall q i r w, P (recv q i r w)) -> P (VirtioNotifyQueue bus recv n m q).
Proof.
  intros Hr. assert (Hd : forall n a, P (drain bus recv n m q a)).
  { clear n. induction n; intros; cbn [drain]; vpres. }
  unfold VirtioNotifyQueue. vpres.
Qed.
End transport.
#[export] Hint Resolve pres_CopyFrom pres_CopyTo pres_Consume pres_ManualFill pres_QueueAvail : vpres.

(** ** Register writes *)

Lemma length_splice off bs l : 0 <= off -> off + Z.of_nat (length bs) <= Z.of_nat (length l) -> length (splice off bs l) = length l.
Proof. intros Ho Hl. unfold splice. rewrite !length_app, length_take, length_drop. lia. Qed.

Lemma Forall_splice (P : Z -> Prop) off bs l : Forall P bs -> Forall P l -> Forall P (splice off bs l).
Proof. intros Hb Hl. unfold splice. repeat apply Forall_app_2; [by apply Forall_take|done|by apply Forall_drop]. Qed.

Lemma shift_for_le n shift sz : 0 <= shift -> sz <= 2 ^ (shift + Z.of_nat n) -> shift <= shift_for n shift sz <= shift + Z.of_nat n.
Proof.
  revert shift. induction n as [|n IH]; intros shift Hs Hz; cbn [shift_for]; [lia|].
  destruct (_ <? _); [|lia]. specialize (IH (shift + 1) ltac:(lia)).
  replace (shift + 1 + Z.of_nat n) with (shift + Z.of_nat (S n)) in IH by lia. specialize (IH Hz). lia.
Qed.

Lemma num_ok_pow2 val : 0 < val -> val .& (val - 1) = 0 -> val <= 1024 -> num_ok val.
Proof.
  intros Hp Hz Hm. exists (Z.log2 val). pose proof (Z.log2_nonneg val). pose proof (Z.log2_le_mono val 1024 Hm) as Hlg.
  change (Z.log2 1024) with 10 in Hlg. split; [lia|].
  destruct (Z.log2_spec val Hp) as [H1 H2]. destruct (Z.eq_dec val (2 ^ Z.log2 val)) as [E|E]; [done|].
  exfalso. assert (Hb : Z.testbit (val .& (val - 1)) (Z.log2 val) = true); [|rewrite Hz, Z.bits_0 in Hb; done].
  rewrite Z.land_spec, Z.bit_log2 by done. cbn [andb].
  replace (Z.log2 val) with (Z.log2 (val - 1)); [apply Z.bit_log2; lia|].
  apply Z.log2_unique; [lia|]. unfold Z.succ in *. lia.
Qed.

Lemma queue_pfn_ok val shift align qs : rng 32 val -> 0x1000 <= align < 2 ^ 32 -> vq_ok qs -> vq_ok (queue_pfn val shift align qs).
Proof.
  intros Hv Ha (? & ? & ? & ? & ? & ?). unfold vq_ok, queue_pfn. cbn. split_and!; try done.
  1, 2: apply (rng_wrap 64); lia.
  - apply rng_ldiff; [lia|apply (rng_wrap 64); lia].
Qed.

Lemma queue_ready_ok val qs : vq_ok qs -> vq_ok (queue_ready val qs).
Proof.
  intros (? & ? & ? & ? & ? & ?). unfold vq_ok, queue_ready. destruct (_ && _); cbn; split_and!; try done; unfold rng; lia.
Qed.

Lemma SetAddrWord_rng a val hi : rng 64 a -> rng 32 val -> rng 64 (SetAddrWord a val hi).
Proof.
  intros Ha Hv. unfold SetAddrWord. destruct hi.
  - apply rng_lor; [lia|by apply rng_land_l; [lia|]|]. rewrite Z.shiftl_mul_pow2 by lia. unfold rng in *. lia.
  - apply rng_lor; [lia|by apply rng_ldiff; [lia|]|]. by apply (rng_mono 32); [lia|].
Qed.

Section mmio.
Context {Ops Dev W B : Type} `{BusDevices Ops Dev W} (bus : Bus Ops Dev).
Context (recv : Z -> Z -> Z -> Z -> M (VState W B) bool) (reset_hook config_hook : M (VState W B) unit)
  (host : M (VState W B) unit -> Prop) `{!VirtioBackend recv reset_hook config_hook host}.
#[local] Abbreviation P := (pres (@vstep W B)).

Lemma reset_fields_ok v : vdev_ok v -> vdev_ok (reset_fields v).
Proof.
  intros [H1 H2 H3 H4 H5 H6 H7 H8 H9 H10 H11 H12 H13].
  split; cbn; try done; try (unfold rng; cbn; lia); [by rewrite length_fmap|].
  apply Forall_fmap, Forall_true. intros q. unfold vq_ok, compose, reset_queue. cbn. split; [by left|]. unfold rng. split_and!; lia.
Qed.

(** A status write of 0: the line drops and the registers reset. *)
Lemma pres_reset : P (set_irq false ;;; TransportReset reset_hook).
Proof.
  unfold TransportReset. intros s. unfold wp, mbind' at 1, set_irq, modify. unfold mbind', moddev, modify.
  cbn [vs_dev vs_be vs_mem vs_irq]. pose proof (vb_reset (recv:=recv) (config_hook:=config_hook) (host:=host)) as Hr.
  set (s1 := mkVs (reset_fields (vs_dev s)) _ _ _). specialize (Hr s1). unfold wp in Hr.
  assert (Hs1 : vinv s -> vinv s1).
  { intros [Hv Hi]. split; [by apply reset_fields_ok|]. unfold irq_level, s1. cbn [vs_irq vs_dev]. rewrite (vo_wired _ Hv), last_snoc.
    done. }
  destruct (reset_hook s1); [intros Hs; by apply Hr, Hs1..|done].
Qed.

Lemma pres_ack val : P (moddev (fun v => v <| v_int_status := v_int_status v &~ val |>) ;;;
  v <- getdev ;; when v_int_status v =? 0 do set_irq false).
Proof.
  intros s. unfold wp, mbind', moddev, getdev, gets, modify. cbn [vs_dev vs_be vs_mem vs_irq].
  assert (Hd : vinv s -> vdev_ok ((vs_dev s) <| v_int_status := v_int_status (vs_dev s) &~ val |>)).
  { intros [Hv _]. pose proof (rng_ldiff 1 _ val ltac:(lia) (vo_int _ Hv)). destruct Hv. by split. }
  change (v_int_status (_ <| v_int_status := ?x |>)) with x.
  destruct (Z.eqb_spec (v_int_status (vs_dev s) &~ val) 0) as [E|E]; unfold set_irq, modify, mret'; cbn [vs_dev vs_be vs_mem vs_irq];
    intros Hs; (split; [by apply Hd|]); unfold irq_level; cbn [vs_irq vs_dev].
  - destruct Hs as [Hv _]. change (v_set_irq (_ <| v_int_status := _ |>)) with (v_set_irq (vs_dev s)).
    rewrite (vo_wired _ Hv), last_snoc. change (v_int_status (_ <| v_int_status := ?x |>)) with x. by rewrite E.
  - destruct Hs as [Hv Hi]. unfold irq_level in Hi. rewrite Hi. change (v_int_status (_ <| v_int_status := ?x |>)) with x.
    rewrite (proj2 (Z.eqb_neq _ _) E). assert (v_int_status (vs_dev s) <> 0) as Hne by (intros E0; apply E; by rewrite E0, Z.ldiff_0_l).
    by rewrite (proj2 (Z.eqb_neq _ _) Hne).
Qed.

(** A read of the device whose fields the continuation uses. *)
Lemma pres_getdev {A} (k : VirtioDevice -> M (VState W B) A) : (forall v, vdev_ok v -> P (k v)) -> P (v <- getdev ;; k v).
Proof.
  intros Hk s. unfold wp, mbind', getdev, gets. destruct (k (vs_dev s) s) eqn:E; [| |done]; intros Hs;
    pose proof (Hk _ (proj1 Hs) s) as X; unfold wp in X; rewrite E in X; by apply X.
Qed.

Lemma pres_when (b : bool) (p : M (VState W B) unit) : (b = true -> P p) -> P (when b do p).
Proof. intros Hp. destruct b; [by apply Hp|apply (pres_ret vstep)]. Qed.

(** The six address-word registers. *)
Ltac addr_case :=
  apply pres_when; intros _; apply pres_modq; intros qs (? & ? & ? & ? & ? & ?); unfold vq_ok; split_and!;
    try done; refine (SetAddrWord_rng _ _ _ _ _); done.

Lemma pres_MmioWrite n m addr sz val64 : 0 <= sz -> P (MmioWrite bus recv reset_hook config_hook n m addr sz val64).
Proof.
  intros Hsz. pose proof (rng_wrap 32 val64 ltac:(lia)) as Hval. unfold MmioWrite. set (val := u32 val64) in *.
  apply pres_getdev. intros v Hv. cbv zeta. destruct (Z.leb_spec kVirtioMmioConfig (addr .& 0xfff)) as [Hc|_].
  { destruct (Z.leb_spec (addr .& 0xfff - kVirtioMmioConfig + sz) (v_config_size v)) as [Hin|_]; [|apply (pres_ret vstep)].
    destruct (4 <? sz); [apply (pres_abort vstep)|]. apply (pres_bind vstep); [|intros _; by apply vb_config].
    pose proof (vo_csize _ Hv) as Hcs. apply pres_moddev. intros u [H1 H2 H3 H4 H5 H6 H7 H8 H9 H10 H11 H12 H13]. split; [|done].
    split; try done; cbn [v_config upd]; unfold upd, upd_v_config; cbn.
    - rewrite length_splice; [done|lia|]. rewrite length_le_bytes, H4. lia.
    - apply Forall_splice; [apply le_bytes_rng|done]. }
  destruct (negb (sz =? 4)); [apply (pres_ret vstep)|]. pose proof Hv as [V1 V2 V3 V4 V5 V6 V7 V8 V9 V10 V11 V12 V13].
  apply (pres_switch vstep); [|apply (pres_ret vstep)]. repeat apply Forall_cons_2; try apply Forall_nil_2; cbn [snd].
  - apply pres_moddev. intros u []. split; [|done]. split; try done. cbn. by destruct vo_fsel0.
  - apply pres_when. intros Hsel%Z.ltb_lt. apply pres_moddev. intros u []. split; [|done]. split; try done. cbn.
    destruct V9 as [_ V9]. unfold rng in V9. apply rng_lor; [lia|by apply rng_ldiff; [lia|]|].
    assert (v_driver_features_sel v = 0 \/ v_driver_features_sel v = 1) as [-> | ->] by lia.
    + rewrite Z.shiftl_0_r. by apply (rng_mono 32); [lia|].
    + rewrite Z.shiftl_mul_pow2 by lia. unfold rng in *. lia.
  - apply pres_moddev. intros u []. split; [|done]. split; try done. cbn. by destruct vo_fsel0.
  - apply pres_when. intros _. apply pres_moddev. intros u []. split; [|done]. split; try done. cbn.
    unfold rng in Hval. pose proof (shift_for_le 20 12 val ltac:(lia) ltac:(change (2 ^ (12 + Z.of_nat 20)) with (2 ^ 32); lia)) as Hs. exact Hs.
  - apply pres_when. intros Hs%Z.ltb_lt. apply pres_moddev. intros u []. split; [|done]. split; try done. cbn.
    unfold kVirtioMaxQueue in Hs. unfold rng in Hval. lia.
  - apply pres_when. intros [[Hp%Z.ltb_lt Hz%Z.eqb_eq]%andb_true_iff Hm%Z.leb_le]%andb_true_iff. apply pres_modq.
    intros qs (? & ? & ? & ? & ? & ?). unfold vq_ok. cbn. split_and!; try done. right. by apply num_ok_pow2.
  - apply pres_when. intros _. apply pres_moddev. intros u []. split; [|done]. split; try done. cbn. unfold rng in Hval.
    destruct (Z.ltb_spec val 0x1000); lia.
  - apply pres_when. intros _. apply pres_modq. intros qs Hq. by apply queue_pfn_ok.
  - apply pres_when. intros _. apply pres_modq. intros qs Hq. by apply queue_ready_ok.
  - addr_case.
  - addr_case.
  - addr_case.
  - addr_case.
  - addr_case.
  - addr_case.
  - apply pres_when. intros _. apply pres_Notify. intros. by apply vb_recv.
  - apply pres_ack.
  - apply (pres_bind vstep).
    + apply pres_moddev. intros u []. split; [|done]. by split.
    + intros _. apply pres_when. intros _. apply pres_reset.
Qed.
End mmio.

(** ** The three devices *)

Section devices.
Context {Ops Dev W F : Type} `{BusDevices Ops Dev W} `{HostFileOps F} (bus : Bus Ops Dev).

#[export] Instance blk_backend n : VirtioBackend (W:=W) (BlkRecv (F:=F) bus n) (mret' tt) (mret' tt) (fun _ => False).
Proof.
  split; [|apply (pres_ret vstep)..|done]. intros q idx rd wr. unfold BlkRecv, blk_in, blk_out, blk_finish.
  vpres; destruct (HostFileWriteAt _ _ _ _); vpres.
Qed.

Lemma pres_ConsoleRecv n q idx rd wr : pres (@vstep W VirtioConsole) (ConsoleRecv bus n q idx rd wr).
Proof. unfold ConsoleRecv. vpres. Qed.

Lemma pres_rx_drain k n : pres (@vstep W VirtioConsole) (rx_drain bus k n).
Proof. induction k; cbn [rx_drain]; vpres. Qed.

(** The console's host side: a poll with any bounds, at any time. *)
Inductive console_host : M (VState W VirtioConsole) unit -> Prop :=
| ch_poll n m now : console_host (VirtioConsolePoll bus n m now).

#[export] Instance console_backend n : VirtioBackend (W:=W) (ConsoleRecv bus n) ConsoleReset (mret' tt) console_host.
Proof.
  split; [intros; apply pres_ConsoleRecv|unfold ConsoleReset; vpres|apply (pres_ret vstep)|].
  intros p [k m now]. unfold VirtioConsolePoll. pose proof pres_rx_drain.
  assert (forall k m q, pres (@vstep W VirtioConsole) (VirtioNotifyQueue bus (ConsoleRecv bus m) k m q))
    by (intros; apply pres_Notify; intros; apply pres_ConsoleRecv).
  vpres.
Qed.

Definition cfg_ok (cfg : list Z) : Prop := length cfg = 256%nat /\ Forall (rng 8) cfg.

Lemma cfg_set cfg i b : cfg_ok cfg -> rng 8 b -> cfg_ok (arr_set cfg i b).
Proof. intros [Hl Hf] Hb. split; [by rewrite length_arr_set|by apply Forall_arr_set]. Qed.

Lemma cfg_splice cfg off bs : cfg_ok cfg -> Forall (rng 8) bs -> 0 <= off -> off + Z.of_nat (length bs) <= 256 -> cfg_ok (splice off bs cfg).
Proof. intros [Hl Hf] Hb Ho Hn. split; [rewrite length_splice; lia|by apply Forall_splice]. Qed.

Lemma cfg_bit cfg k : cfg_ok cfg -> cfg_ok (SetBit cfg k).
Proof. intros Hc. apply cfg_set; [done|]. apply (rng_wrap 8). lia. Qed.

Lemma InputConfigSelected_ok type cfg : cfg_ok cfg -> cfg_ok (InputConfigSelected type cfg).
Proof.
  intros Hc. unfold InputConfigSelected.
  assert (H1 : cfg_ok (splice 8 (replicate 128 0) (arr_set cfg 2 0))).
  { apply cfg_splice; [apply cfg_set; [done|unfold rng; lia]|apply Forall_replicate; unfold rng; lia|lia|done]. }
  set (c1 := splice _ _ _) in *. clearbody c1. clear Hc.
  assert (H2 : forall b, rng 8 b -> cfg_ok (arr_set c1 2 b)) by (intros; by apply cfg_set).
  repeat (case_match; try done); repeat apply cfg_bit; try (apply H2; unfold rng; lia).
  all: apply cfg_splice; [apply H2; unfold rng; cbn; lia| |lia|cbn; lia].
  all: try (apply Forall_replicate; unfold rng; lia).
  all: repeat apply Forall_app_2; try apply le_bytes_rng.
  all: apply Forall_fmap, Forall_true; intros c; unfold compose, rng; pose proof (nat_ascii_bounded c); lia.
Qed.

Inductive input_host : M (VState W VirtioInput) unit -> Prop :=
| ih_poll n : input_host (VirtioInputPoll bus n).

Lemma pres_ev_drain k n : pres (@vstep W VirtioInput) (ev_drain bus k n).
Proof. induction k; cbn [ev_drain]; vpres. Qed.

#[export] Instance input_backend : VirtioBackend (W:=W) (InputRecv bus) (mret' tt) input_config_hook input_host.
Proof.
  split.
  - intros. unfold InputRecv. vpres.
  - apply (pres_ret vstep).
  - unfold input_config_hook. apply (pres_bind vstep); [unfold getbe; vpres|]. intros be. apply pres_moddev.
    intros v []. destruct (InputConfigSelected_ok (in_type be) (v_config v)) as [Hl Hf]; [done|]. split; [|done]. by split.
  - intros p [n]. unfold VirtioInputPoll. pose proof pres_ev_drain. vpres.
Qed.
End devices.

(** ** Reachable states *)

Section reach.
Context {Ops Dev W B : Type} `{BusDevices Ops Dev W} (bus : Bus Ops Dev).
Context (recv : Z -> Z -> Z -> Z -> M (VState W B) bool) (reset_hook config_hook : M (VState W B) unit)
  (host : M (VState W B) unit -> Prop).

(** Register writes of any size, the backend's host side, and between them
    anything the guest does to memory and the host to the backend. *)
Inductive vreach (init : VState W B) : VState W B -> Prop :=
| vr_init : vreach init init
| vr_write s n m addr sz val s' : vreach init s -> 0 <= sz ->
    MmioWrite bus recv reset_hook config_hook n m addr sz val s = Done tt s' -> vreach init s'
| vr_host s p s' : vreach init s -> host p -> p s = Done tt s' -> vreach init s'
| vr_guest s w : vreach init s -> vreach init (mkVs (vs_dev s) (vs_be s) w (vs_irq s))
| vr_backend s be : vreach init s -> vreach init (mkVs (vs_dev s) be (vs_mem s) (vs_irq s)).

Lemma pres_done {A} (p : M (VState W B) A) s a s' : pres vstep p -> p s = Done a s' -> vinv s -> vinv s'.
Proof. intros Hp E Hs. pose proof (Hp s) as X. unfold wp in X. rewrite E in X. by apply X. Qed.

(** C24: whatever registers the guest writes, whatever it puts in memory and whatever a backend
    does, the transport's register file stays well formed: queue sizes are 0 or a power of two up to
    1024, the selected queue exists, registers are within their widths, the configuration page keeps
    its size, and the level of the interrupt line is the interrupt status. *)
Theorem virtio_reachable_inv `{!VirtioBackend recv reset_hook config_hook host} init s :
  vinv init -> vreach init s -> vinv s.
Proof.
  intros Hi. induction 1 as [|s n m addr sz val s' _ IH Hsz E|s p s' _ IH Hp E|s w _ IH|s be _ IH]; [done| | |exact IH..].
  - eapply pres_done; [|exact E|done]. by apply (pres_MmioWrite bus recv reset_hook config_hook host).
  - eapply pres_done; [|exact E|done]. by apply (vb_host (recv:=recv) (reset_hook:=reset_hook) (config_hook:=config_hook)).
Qed.
End reach.

(** The devices as they are created. *)
Lemma init_ok id vendor features version csize : csize <= 256 -> vdev_ok ((VirtioInit id vendor features version csize) <| v_set_irq := true |>).
Proof.
  intros Hc. unfold VirtioInit. split; cbn -[replicate]; rewrite ?length_fmap, ?length_replicate; try done; try (unfold rng; cbn; lia).
  - apply Forall_fmap. apply Forall_replicate. unfold vq_ok, compose, reset_queue. cbn. split; [by left|]. unfold rng. split_and!; lia.
  - apply Forall_replicate. unfold rng; lia.
Qed.

Lemma created_ok v q cfg : vdev_ok (v <| v_set_irq := true |>) -> 0 <= q -> cfg_ok cfg ->
  vdev_ok (v <| v_queue := arr_set (v_queue v) q ((arr (v_queue v) q) <| vq_manual := true |>) |>
             <| v_config := cfg |> <| v_set_irq := true |>).
Proof.
  intros Hv Hq [Hc1 Hc2]. pose proof (vq_at _ q Hv) as Ha. destruct Hv. split; try done; cbn.
  - by rewrite length_arr_set.
  - apply Forall_arr_set; [done|exact Ha].
Qed.

Lemma devices_created {Ops Dev F} `{HostFileOps F} (bus : Bus Ops Dev) base size ops dev :
  (forall file v blk bus', VirtioBlkCreate (F:=F) bus base size ops dev file = Some (v, blk, bus') -> vdev_ok v) /\
  (forall v con bus', VirtioConsoleCreate bus base size ops dev = Some (v, con, bus') -> vdev_ok v) /\
  (forall type v inp bus', VirtioInputCreate bus base size ops dev type = Some (v, inp, bus') -> vdev_ok v).
Proof.
  assert (Hz : cfg_ok (replicate 256 0)) by (split; [done|apply Forall_replicate; unfold rng; lia]).
  split_and!.
  - intros file v blk bus' (f & _ & (b & _ & [= <- _ _])%bind_Some)%bind_Some.
    pose proof (init_ok 2 kVirtioVendorId 0 1 8 ltac:(lia)) as Hv.
    destruct (cfg_splice (replicate 256 0) 0 (le_bytes 8 (f_size f / kSectorSize)) Hz ltac:(apply le_bytes_rng) ltac:(lia) ltac:(done)).
    destruct Hv. by split.
  - intros v con bus' (b & _ & [= <- _ _])%bind_Some. apply created_ok; [apply init_ok; lia|done|].
    apply cfg_splice; [done|repeat constructor; lia|lia|done].
  - intros type v inp bus' (b & _ & [= <- _ _])%bind_Some.
    exact (created_ok (VirtioInit 18 kVirtioVendorId (1 .<< kVirtioFVersion1) 2 256) kQueueEvent (replicate 256 0)
      (init_ok 18 kVirtioVendorId (1 .<< kVirtioFVersion1) 2 256 ltac:(lia)) ltac:(done) Hz).
Qed.
