(* ===== verification/RamBoard.v ===== *)
(** * A board with RAM and nothing else

    One RAM region at 0x80000000: the smallest instance of the device
    interface.  It discharges the interface laws with the RAM component's own
    lemmas and serves the theorems proved against the interface with a
    concrete bus. *)

From S2P Require Import Prelude Bus Ram HostMem Elf.

(** ** RAM as the only device *)

Definition ram_load (h : host_ptr unit) (size : Z) (ram : RamDevice) : Z :=
  wrap (8 * size) (mem_load (ram_mem ram) (hp_off h) size).

Definition ram_store (h : host_ptr unit) (size v : Z) (ram : RamDevice) : RamDevice :=
  mkRam (mem_store (ram_mem ram) (hp_off h) size v) (ram_base ram) (ram_size ram).

#[export] Instance ram_board : BusDevices unit unit RamDevice := {
  dev_read _ _ addr size ram := (ram_load (HostPtr tt (addr - 0x80000000)) size ram, ram, []);
  dev_write _ _ addr size v ram := (ram_store (HostPtr tt (addr - 0x80000000)) size v ram, []);
  host_load := ram_load;
  host_store := ram_store;
  timer_read := None;
}.

Definition board_bus : Bus unit unit :=
  mkBus [mkRegion 0x80000000 0x10000 tt tt false (Some (HostPtr tt 0))] None.

Lemma board_bus_wf : bus_wf board_bus.
Proof.
  split.
  - repeat constructor; simpl; lia.
  - intros [|i] r; simpl; [|done]. by intros [= <-].
  - done.
Qed.

#[export] Instance ram_board_ok : BusDevicesOk unit unit RamDevice board_bus.
Proof.
  split.
  - intros r h addr size w [->|[]%not_elem_of_nil]%elem_of_cons [= <-] ? ? ?. done.
  - intros r h addr size v w [->|[]%not_elem_of_nil]%elem_of_cons [= <-] ? ? ?. done.
  - intros ops dev addr size w Hs. simpl. unfold ram_load.
    apply (rng_mono (8 * size)); [lia|]. apply rng_wrap; lia.
  - intros h size w Hs. apply rng_wrap; lia.
  - by intros ? ? ? ? ? ? ? ?%not_elem_of_nil.
  - by intros ? ? ? ? ? ? ? ? ?%not_elem_of_nil.
  - done.
Qed.

(** Its host view is an array of bytes, and its only RAM window. *)
#[export] Instance ram_board_bytes : HostBytes unit unit RamDevice.
Proof.
  assert (E : forall h w, hget h w = wrap 8 (mem_get (ram_mem w) (hp_off h))).
  { intros h w. unfold hget. simpl. unfold ram_load, mem_load.
    change (le_val _) with (Z.lor (mem_get (ram_mem w) (hp_off h)) (0 .<< 8)). by rewrite Z.shiftl_0_l, Z.lor_0_r. }
  assert (S1 : forall h b w, ram_mem (hset h b w) = <[hp_off h := wrap 8 b]> (ram_mem w)) by reflexivity.
  split.
  - intros h w. rewrite E. apply rng_wrap. lia.
  - intros h b w Hb. rewrite E, S1. unfold mem_get. rewrite lookup_insert_eq. simpl.
    rewrite (wrap_small 8 b Hb). by apply wrap_small.
  - intros [[] o] [[] o'] b w Hne. rewrite !E, S1. unfold mem_get. cbn [hp_off] in *.
    rewrite lookup_insert_ne; [done|]. intros <-. done.
Qed.

Definition board_region : BusRegion unit unit := mkRegion 0x80000000 0x10000 tt tt false (Some (HostPtr tt 0)).

#[export] Instance board_sole : SoleRam board_bus board_region (HostPtr tt 0).
Proof. split; [done|done|simpl; lia|]. intros addr len. unfold ram_region. simpl. by destruct (covers _ _ _). Qed.

#[export] Instance board_guest_ram : GuestRam board_bus 0x80000000 0x10000 (HostPtr tt 0).
Proof.
  split; [lia|lia|]. intros addr len H1 H2 H3. exists board_region. split; [|done]. rewrite sr_region.
  unfold covers. rewrite (wrap_small 64 (addr + len)) by (unfold rng; lia).
  change (r_end board_region) with 0x80010000. change (r_base board_region) with 0x80000000.
  by rewrite (proj2 (Z.leb_le _ _) H1), (proj2 (Z.leb_le _ _)) by lia.
Qed.

(** ** A loaded image *)

(** An ELF64 file with one segment: 4 file bytes at offset 120, 8 bytes of
    memory at 0x80000010. *)
Definition small_elf : list Z :=
  [0x7f; 69; 76; 70; 2; 1; 1; 0; 0; 0; 0; 0; 0; 0; 0; 0; 2; 0; 243; 0; 1; 0; 0; 0] ++
  le_bytes 8 0x80000010 ++ le_bytes 8 64 ++ le_bytes 8 0 ++ le_bytes 4 0 ++ le_bytes 2 64 ++
  le_bytes 2 56 ++ le_bytes 2 1 ++ le_bytes 2 64 ++ le_bytes 2 0 ++ le_bytes 2 0 ++
  le_bytes 4 1 ++ le_bytes 4 5 ++ le_bytes 8 120 ++ le_bytes 8 0x80000010 ++ le_bytes 8 0x80000010 ++
  le_bytes 8 4 ++ le_bytes 8 8 ++ le_bytes 8 16 ++ [0x13; 0x05; 0x10; 0x00].

Definition zero_ram : RamDevice := mkRam ∅ 0x80000000 0x10000.

Lemma small_elf_rng : Forall (rng 8) small_elf.
Proof. apply (bool_decide_unpack _). vm_compute. exact I. Qed.

Lemma elf_segments_loaded_witness :
  exists info w', ElfLoad board_bus small_elf zero_ram = LOk info w' /\ ei_entry info = 0x80000010 /\
    hget (HostPtr tt 0x11) w' = 0x05 /\ hget (HostPtr tt 0x17) w' = 0.
Proof.
  destruct (ElfLoad board_bus small_elf zero_ram) as [info w'| |] eqn:E; [|vm_compute in E; discriminate E..].
  exists info, w'. split; [reflexivity|].
  assert (H64 : ei_is_64 info = true) by (vm_compute in E; injection E as <- _; reflexivity).
  destruct (elf_segments_loaded board_bus board_region (HostPtr tt 0) small_elf small_elf_rng zero_ram info w' E)
    as (e & phs & He & Hp & Hen & Hs).
  rewrite H64 in He, Hp. vm_compute in He. injection He as <-. vm_compute in Hp. injection Hp as <-.
  destruct (Hs [] _ [] eq_refl eq_refl ltac:(constructor)) as (_ & _ & Hk).
  split; [exact Hen|]. split.
  - exact (Hk 1 ltac:(vm_compute; split; [discriminate|reflexivity])).
  - exact (Hk 7 ltac:(vm_compute; split; [discriminate|reflexivity])).
Defined.

(** The last word of RAM with 8 bytes in the file. *)
Lemma elf_segment_oob_witness : let info := mkElfInfo 0 0 243 true false 0 0 in
  load_segment board_bus small_elf (mkPhdr 1 0 0x8000fffc 8 4) info zero_ram = LOob.
Proof.
  intros info. refine (proj1 (elf_segment_oob board_bus board_region (HostPtr tt 0) small_elf (mkPhdr 1 0 0x8000fffc 8 4) info
    zero_ram eq_refl _ _ _ _ _ _ _) _ _); vm_compute; try split; congruence.
Defined.
