(* ===== verification/VirtioExample.v ===== *)
(** * Virtio queues in the RAM board

    Concrete rings and chains at which the theorems about the transport and
    its devices are applied. *)

From S2P Require Import Prelude Bus Ram HostMem Virtio VirtioProps VirtioDev VirtioDevProps VirtioInv Elf RamBoard.

Definition rb : Z := 0x80000000.
Definition rz : Z := 0x10000.
Definition rh : host_ptr unit := HostPtr tt 0.

(** Bytes at guest addresses. *)
Definition fill (l : list (Z * list Z)) : RamDevice :=
  mkRam (fold_left (fun m ab => store_bytes m (ab.1 - rb) ab.2) l ∅) rb rz.

Definition desc_bytes (d : VringDesc) : list Z :=
  le_bytes 8 (d_addr d) ++ le_bytes 4 (d_len d) ++ le_bytes 2 (d_flags d) ++ le_bytes 2 (d_next d).

(** Four descriptors at 0x80001000, rings at 0x80002000 and 0x80003000. *)
Definition tbl_at : Z := 0x80001000.
Definition ring_queue : VirtioQueue := mkVq 4 0 tbl_at 0x80002000 0x80003000 0 true false.

Definition vstate {B} (be : B) (mem : RamDevice) : VState RamDevice B :=
  mkVs ((VirtioInit 1 kVirtioVendorId 0 2 4) <| v_queue := replicate 64 ring_queue |> <| v_set_irq := true |>) be mem [].

(** A goal that evaluates to true. *)
Ltac by_eval := apply (bool_decide_unpack _); vm_compute; exact I.
Ltac bufs := repeat (apply Forall_cons_2; [split; [vm_compute; repeat split; discriminate|reflexivity]|]); apply Forall_nil_2.
Ltac ranged := vm_compute; repeat split; discriminate.

(** ** A chain of two readable descriptors and a writable one *)

Definition da := mkDesc 0x80004000 4 1 1.
Definition db := mkDesc 0x80004100 4 1 2.
Definition dc := mkDesc 0x80004200 4 2 0.
Definition chain_mem : RamDevice :=
  fill [(tbl_at, desc_bytes da ++ desc_bytes db ++ desc_bytes dc); (0x80004000, [1; 2; 3; 4]); (0x80004100, [5; 6; 7; 8])].

Lemma chain_mem_chain : chain rb rz rh chain_mem tbl_at 0 da [db; dc].
Proof.
  split; [ranged|]. split; [vm_compute; reflexivity|]. cbn [links].
  split; [reflexivity|]. split; [ranged|]. split; [vm_compute; reflexivity|].
  split; [reflexivity|]. split; [ranged|]. split; [vm_compute; reflexivity|]. reflexivity.
Qed.

Lemma chain_copy_spec_witness :
  VirtioCopyFromChain board_bus 2 0 0 2 4 (vstate tt chain_mem) = Done (Some [3; 4; 5; 6]) (vstate tt chain_mem) /\
  exists w', VirtioCopyToChain board_bus 2 0 0 1 [9; 10] 2 (vstate tt chain_mem) = Done (Some tt) (with_mem (vstate tt chain_mem) w') /\
    gather rb rh [0x80004201; 0x80004202] w' = [9; 10].
Proof.
  destruct (chain_copy_spec board_bus rb rz rh 2 (vstate tt chain_mem) 0 0 da [db; dc] 2 4 [] chain_mem_chain
    ltac:(simpl; lia) ltac:(lia) ltac:(lia)) as [H1 _].
  destruct (chain_copy_spec board_bus rb rz rh 2 (vstate tt chain_mem) 0 0 da [db; dc] 1 2 [9; 10] chain_mem_chain
    ltac:(simpl; lia) ltac:(lia) ltac:(lia)) as [_ H2].
  split.
  - rewrite H1 by bufs. vm_compute. reflexivity.
  - destruct H2 as (w' & E & Hg & _).
    + bufs.
    + by_eval.
    + apply Forall_forall. by_eval.
    + vm_compute. discriminate.
    + reflexivity.
    + by_eval.
    + exists w'. split; [exact E|exact Hg].
Defined.

(** ** A descriptor that names itself as its successor *)

Definition loop_mem : RamDevice := fill [(tbl_at, desc_bytes (mkDesc 0x80004000 4 1 0))].

Lemma chain_cycle_diverges_witness :
  ChainSizes board_bus 1000 0 0 (vstate tt loop_mem) = Aborted OutOfFuel.
Proof.
  apply (chain_cycle_diverges board_bus rb rz rh (vstate tt loop_mem) 0 0 false (fun i => i = 0) eq_refl).
  intros i ->. split; [ranged|]. split; [vm_compute; reflexivity|]. split; vm_compute; reflexivity.
Defined.

(** ** Publishing a used element *)

Lemma ring_used_ok : used_ok rb rz ring_queue.
Proof. split; [exists 2; split; [lia|reflexivity]|ranged]. Qed.

Lemma virtio_consume_witness :
  exists s', VirtioConsumeChain board_bus 0 7 12 (vstate tt zero_ram) = Done tt s' /\
    rd16 rb rh (vs_mem s') 0x80003002 = 1 /\ rd32 rb rh (vs_mem s') 0x80003004 = 7 /\ vs_irq s' = [true].
Proof.
  destruct (virtio_consume board_bus rb rz rh (vstate tt zero_ram) 0 7 12 ring_used_ok)
    as (s' & E & H1 & H2 & _ & _ & _ & H3 & _).
  exists s'. split; [exact E|]. split; [etransitivity; [exact H1|vm_compute; reflexivity]|].
  split; [|apply H3; reflexivity]. etransitivity; [|exact (eq_trans H2 eq_refl)]. reflexivity.
Defined.

(** ** The console prints what was queued *)

Definition con0 : VirtioConsole := mkCon (replicate 256 0) 0 0 0 [].

(** Two messages: descriptors 0 and 1 chained, then descriptor 3. *)
Definition tx_mem : RamDevice :=
  fill [(tbl_at, desc_bytes da ++ desc_bytes (mkDesc 0x80004100 4 0 0) ++ desc_bytes dc ++ desc_bytes (mkDesc 0x80004300 1 0 0));
        (0x80002002, le_bytes 2 2 ++ le_bytes 2 0 ++ le_bytes 2 3);
        (0x80004000, [1; 2; 3; 4]); (0x80004100, [5; 6; 7; 8]); (0x80004300, [9])].

Definition tx_cs : list (Z * VringDesc * list VringDesc) :=
  [(0, da, [mkDesc 0x80004100 4 0 0]); (3, mkDesc 0x80004300 1 0 0, [])].

Lemma console_tx_drains_witness :
  exists s', VirtioNotifyQueue board_bus (ConsoleRecv board_bus 4) 2 4 1 (vstate con0 tx_mem) = Done tt s' /\
    con_out (vs_be s') = [1; 2; 3; 4; 5; 6; 7; 8; 9] /\ rd16 rb rh (vs_mem s') 0x80003002 = 2.
Proof.
  destruct (console_tx_drains board_bus rb rz rh 2 4 (vstate con0 tx_mem) tx_cs) as (s' & E & Ho & _ & Hu & _).
  - cbn. lia.
  - reflexivity.
  - exact ring_used_ok.
  - ranged.
  - vm_compute. split; [discriminate|reflexivity].
  - left. vm_compute. discriminate.
  - vm_compute. reflexivity.
  - cbn. lia.
  - intros [|[|j]] c Hc; [injection Hc as <-|injection Hc as <-|discriminate Hc].
    + split; [vm_compute; reflexivity|]. split.
      * split; [ranged|]. split; [vm_compute; reflexivity|]. cbn [links fst snd]. split; [reflexivity|]. split; [ranged|].
        split; [vm_compute; reflexivity|reflexivity].
      * cbn. lia.
      * reflexivity.
      * bufs.
      * reflexivity.
      * by_eval.
    + split; [vm_compute; reflexivity|]. split.
      * split; [ranged|]. split; [vm_compute; reflexivity|reflexivity].
      * cbn. lia.
      * reflexivity.
      * bufs.
      * reflexivity.
      * by_eval.
  - exists s'. split; [exact E|]. split; [rewrite Ho; vm_compute; reflexivity|].
    etransitivity; [exact Hu|vm_compute; reflexivity].
Defined.

(** ** A sector written and read back *)

(** An image held in memory. *)
#[export] Instance list_file : HostFileOps (list Z) := {
  f_pread f off n := take (Z.to_nat n) (drop (Z.to_nat off) f);
  f_pwrite f off bs :=
    if off + Z.of_nat (length bs) <=? Z.of_nat (length f) then (splice off bs f, Z.of_nat (length bs)) else (f, 0);
  f_size f := Z.of_nat (length f);
}.

#[export] Instance list_file_laws : HostFileLaws (list Z).
Proof.
  split. intros f off bs f' Ho _. cbn. destruct (Z.leb_spec (off + Z.of_nat (length bs)) (Z.of_nat (length f))).
  - intros [= <-]. unfold splice. rewrite drop_app_length' by (rewrite length_take; lia).
    by rewrite Nat2Z.id, take_app_length.
  - intros [= _ Hl]. destruct bs; [|simpl in Hl; lia]. done.
Qed.

Definition blk_hdr (type sector : Z) : list Z := le_bytes 4 type ++ le_bytes 4 0 ++ le_bytes 8 sector.

(** Descriptor 0: header and four bytes to write, 1: status; 2: header of the
    read, 3: four bytes and status. *)
Definition b0 := mkDesc 0x80004000 20 1 1.
Definition b1 := mkDesc 0x80004100 1 2 0.
Definition b2 := mkDesc 0x80004200 16 1 3.
Definition b3 := mkDesc 0x80004300 5 2 0.
Definition blk_mem : RamDevice :=
  fill [(tbl_at, desc_bytes b0 ++ desc_bytes b1 ++ desc_bytes b2 ++ desc_bytes b3);
        (0x80004000, blk_hdr 1 0 ++ [11; 12; 13; 14]); (0x80004200, blk_hdr 0 0)].
Definition w_req : Z * VringDesc * list VringDesc := (0, b0, [b1]).
Definition r_req : Z * VringDesc * list VringDesc := (2, b2, [b3]).

Lemma req_ok idx d d' : (idx, d, [d']) = w_req \/ (idx, d, [d']) = r_req -> blk_req rb rz rh ring_queue 4 blk_mem (idx, d, [d']).
Proof.
  intros [[= -> -> ->]|[= -> -> ->]]; (split; [|cbn; lia|bufs|bufs|ranged|ranged|by_eval| |]).
  1, 4: split; [ranged|]; split; [vm_compute; reflexivity|]; cbn [links fst snd]; split; [reflexivity|]; split; [ranged|];
    split; vm_compute; reflexivity.
  all: apply Forall_forall; by_eval.
Qed.

Definition image0 : list Z := replicate 512 0.

Lemma blk_write_read_back_witness :
  exists s1 s2, BlkRecv board_bus 4 0 0 20 1 (vstate (mkBlk (Some image0) 1) blk_mem) = Done false s1 /\
    BlkRecv board_bus 4 0 2 16 5 s1 = Done false s2 /\
    gather rb rh [0x80004300; 0x80004301; 0x80004302; 0x80004303; 0x80004304] (vs_mem s2) = [11; 12; 13; 14; 0].
Proof.
  destruct (blk_write_read_back board_bus rb rz rh 4 (vstate (mkBlk (Some image0) 1) blk_mem) 0 w_req r_req image0
    (splice 0 [11; 12; 13; 14] image0) 1 (req_ok _ _ _ (or_introl eq_refl)) (req_ok _ _ _ (or_intror eq_refl)) ring_used_ok eq_refl)
    as (s1 & s2 & E1 & _ & E2 & Hst & Hd).
  - vm_compute. reflexivity.
  - vm_compute. reflexivity.
  - vm_compute. reflexivity.
  - vm_compute. discriminate.
  - vm_compute. reflexivity.
  - vm_compute. reflexivity.
  - apply Forall_forall. by_eval.
  - vm_compute. reflexivity.
  - exists s1, s2. split; [exact E1|]. split; [exact E2|].
    change (gather rb rh [0x80004300; 0x80004301; 0x80004302; 0x80004303; 0x80004304] (vs_mem s2))
      with (gather rb rh [0x80004300; 0x80004301; 0x80004302; 0x80004303] (vs_mem s2) ++ gather rb rh [0x80004304] (vs_mem s2)).
    transitivity ([11; 12; 13; 14] ++ [0]); [|reflexivity]. f_equal.
    + etransitivity; [exact Hd|vm_compute; reflexivity].
    + exact Hst.
Defined.

(** ** A fresh console after an acknowledged notification *)

Definition fresh_console : option (VirtioDevice * VirtioConsole * Bus unit unit) :=
  VirtioConsoleCreate board_bus 0x10001000 0x1000 tt tt.

Lemma virtio_reachable_inv_witness :
  exists v con bus' s', fresh_console = Some (v, con, bus') /\
    MmioWrite board_bus (ConsoleRecv board_bus 4) ConsoleReset (mret' tt) 4 4 0x10001038 4 8 (mkVs v con zero_ram []) = Done tt s' /\
    vinv s' /\ vq_num (arr (v_queue (vs_dev s')) 0) = 8.
Proof.
  destruct fresh_console as [[[v con] bus']|] eqn:Ec; [|vm_compute in Ec; discriminate Ec].
  pose proof (proj1 (proj2 (devices_created (F:=list Z) board_bus 0x10001000 0x1000 tt tt)) v con bus' Ec) as Hv.
  assert (Hi : vinv (mkVs v con zero_ram [])).
  { split; [exact Hv|]. vm_compute in Ec. injection Ec as <- _ _. reflexivity. }
  destruct (MmioWrite board_bus (ConsoleRecv board_bus 4) ConsoleReset (mret' tt) 4 4 0x10001038 4 8 (mkVs v con zero_ram []))
    as [[] s'|t s'|r] eqn:E.
  - exists v, con, bus', s'. split; [reflexivity|]. split; [exact E|]. split.
    + apply (virtio_reachable_inv board_bus (ConsoleRecv board_bus 4) ConsoleReset (mret' tt) (console_host board_bus)
        (mkVs v con zero_ram []) s' Hi).
      eapply vr_write; [apply vr_init| |exact E]. vm_compute. discriminate.
    + vm_compute in Ec. injection Ec as <- _ _. vm_compute in E. injection E as <-. reflexivity.
  - exfalso. vm_compute in Ec. injection Ec as <- _ _. vm_compute in E. discriminate E.
  - exfalso. vm_compute in Ec. injection Ec as <- _ _. vm_compute in E. discriminate E.
Defined.
