(* ===== verification/RvState.v ===== *)
(** * The riscv64 processor state (cpu/isa/riscv64/riscv.h, cpu/cpu.h)

    Constants, the CSR file and the translation cache as the C structs have
    them, the machine state an instruction runs against (processor, bus, the
    devices behind it), and the raise channel specialised to it. *)

From S2P Require Import Prelude Bus Ram.

(** ** Constants (riscv.h) *)

Definition kPrivUser := 0.
Definition kPrivSupervisor := 1.
Definition kPrivHypervisor := 2.
Definition kPrivMachine := 3.

Definition kCounterNone := 0.
Definition kCounterMcycle := 1.
Definition kCounterMinstret := 2.

Definition kMstatusSie := 2 ^ 1.
Definition kMstatusMie := 2 ^ 3.
Definition kMstatusSpie := 2 ^ 5.
Definition kMstatusMpie := 2 ^ 7.
Definition kMstatusSpp := 2 ^ 8.
Definition kMstatusMppMask := Eval cbv in 3 .<< 11.
Definition kMstatusFs := Eval cbv in 3 .<< 13.
Definition kMstatusMprv := 2 ^ 17.
Definition kMstatusSum := 2 ^ 18.
Definition kMstatusMxr := 2 ^ 19.
Definition kMstatusTvm := 2 ^ 20.
Definition kMstatusTw := 2 ^ 21.
Definition kMstatusTsr := 2 ^ 22.
Definition kMstatusUxlMask := Eval cbv in 3 .<< 32.
Definition kMstatusUxlValue := Eval cbv in 2 .<< 32.
Definition kMstatusWmask := Eval cbv in
  kMstatusSie .| kMstatusMie .| kMstatusSpie .| kMstatusMpie .| kMstatusSpp .| kMstatusMppMask .|
  kMstatusFs .| kMstatusMprv .| kMstatusSum .| kMstatusMxr .| kMstatusTvm .| kMstatusTw .| kMstatusTsr.
Definition kSstatusRmask := Eval cbv in
  kMstatusSie .| kMstatusSpie .| kMstatusSpp .| kMstatusFs .|
  kMstatusSum .| kMstatusMxr .| kMstatusUxlMask .| 2 ^ 63.
Definition kSstatusWmask := Eval cbv in
  kMstatusSie .| kMstatusSpie .| kMstatusSpp .| kMstatusFs .| kMstatusSum .| kMstatusMxr.

Definition kMcountinhibitCy := 2 ^ 0.
Definition kMcountinhibitIr := 2 ^ 2.
Definition kMisaMxl64 := Eval cbv in 2 .<< 62.
Definition kMisaA := 2 ^ 0.
Definition kMisaC := 2 ^ 2.
Definition kMisaD := 2 ^ 3.
Definition kMisaF := 2 ^ 5.
Definition kMisaI := 2 ^ 8.
Definition kMisaM := 2 ^ 12.
Definition kMisaS := 2 ^ 18.
Definition kMisaU := 2 ^ 20.
Definition kMisaSupported := Eval cbv in
  kMisaMxl64 .| kMisaA .| kMisaC .| kMisaD .| kMisaF .| kMisaI .| kMisaM .| kMisaS .| kMisaU.
Definition kTcontrolMte := 2 ^ 7.
Definition kTcontrolMpte := 2 ^ 6.

Definition kMenvcfgWmask := Eval cbv in 255 .| 2 ^ 61 .| 2 ^ 63.
Definition kMenvcfgAdue := 2 ^ 61.
Definition kSenvcfgWmask := 255.

Definition kMhpmCount := 16.
Definition kTrigCount := 2.
Definition kTrigTypeMcontrol6 := Eval cbv in 6 .<< 60.
Definition kMc6Load := 2 ^ 0.
Definition kMc6Store := 2 ^ 1.
Definition kMc6Execute := 2 ^ 2.
Definition kMc6U := 2 ^ 3.
Definition kMc6S := 2 ^ 4.
Definition kMc6M := 2 ^ 6.
Definition kMc6Chain := 2 ^ 11.
Definition kMc6Dmode := 2 ^ 59.
Definition kMc6MatchEq := 0.
Definition kMc6MatchGe := 2.
Definition kMc6MatchLt := 3.
Definition kTd3SselectMask := 3.
Definition kTd3SvalueShift := 2.
Definition kTd3SbytemaskShift := 36.
Definition kTd3MhMask := Eval cbv in (7 .<< 48) .| (0x1fff .<< 51).
Definition kTrigOpExecute := 1.
Definition kTrigOpStore := 2.
Definition kTrigOpLoad := 4.
Definition kCacheBlockSize := 64.

(** Interrupt lines (platform.h): a line is a [mip] bit. *)
Definition kIrqSsip := 2 ^ 1.
Definition kIrqMsip := 2 ^ 3.
Definition kIrqStip := 2 ^ 5.
Definition kIrqMtip := 2 ^ 7.
Definition kIrqSeip := 2 ^ 9.
Definition kIrqMeip := 2 ^ 11.
Definition kMidelegWmask := Eval cbv in kIrqSsip .| kIrqStip .| kIrqSeip.
Definition kIrqSLevelMask := kMidelegWmask.
Definition kMedelegWmask := 0xf7ff.

Definition kSatpModeBare := 0.
Definition kSatpModeSv39 := 8.
Definition kSatpModeSv48 := 9.
Definition kSatpWmask := Eval cbv in (15 .<< 60) .| (0xffff .<< 44) .| (2 ^ 44 - 1).

Definition kPmpCount := 16.
Definition kPmpAddrBits := 54.
Definition kPmpR := 1.
Definition kPmpW := 2.
Definition kPmpX := 4.
Definition kPmpAMask := 24.
Definition kPmpATor := 8.
Definition kPmpANa4 := 16.
Definition kPmpANapot := 24.
Definition kPmpL := 128.

Definition kIntBit := 2 ^ 63.

Definition kExFetchMisaligned := 0.
Definition kExFetchFault := 1.
Definition kExIllegal := 2.
Definition kExBreakpoint := 3.
Definition kExLoadMisaligned := 4.
Definition kExLoadFault := 5.
Definition kExStoreMisaligned := 6.
Definition kExStoreFault := 7.
Definition kExUserEcall := 8.
Definition kExSupervisorEcall := 9.
Definition kExMachineEcall := 11.
Definition kExFetchPageFault := 12.
Definition kExLoadPageFault := 13.
Definition kExStorePageFault := 15.

Definition kTlbSets := 256.
Definition kTlbWays := 2.

(** Memory access classes (cpu/step.h). *)
Inductive acc_class := acc_ifetch | acc_read | acc_write | acc_amo.
Definition acc_id (a : acc_class) : Z :=
  match a with acc_ifetch => 0 | acc_read => 1 | acc_write => 2 | acc_amo => 3 end.

#[export] Instance acc_class_eq_dec : EqDecision acc_class.
Proof. solve_decision. Defined.

(** ** The translation cache entry *)

Record RiscvTlbEntry (Dev : Type) := mkTlbEntry {
  te_vpn : Z;
  te_pbase : Z;
  te_host : option (host_ptr Dev);
  te_gen : Z;
  te_satp : Z;
  te_mstatus : Z;
  te_menvcfg : Z;
  te_pmp_gen : Z;
  te_priv : Z;
  te_eff : Z;
  te_acc : Z;
}.
Arguments mkTlbEntry {Dev}.
Arguments te_vpn {Dev}.
Arguments te_pbase {Dev}.
Arguments te_host {Dev}.
Arguments te_gen {Dev}.
Arguments te_satp {Dev}.
Arguments te_mstatus {Dev}.
Arguments te_menvcfg {Dev}.
Arguments te_pmp_gen {Dev}.
Arguments te_priv {Dev}.
Arguments te_eff {Dev}.
Arguments te_acc {Dev}.

Definition tlb_entry0 {Dev} : RiscvTlbEntry Dev := mkTlbEntry 0 0 None 0 0 0 0 0 0 0 0.
#[export] Instance tlb_entry_inhabited {Dev} : Inhabited (RiscvTlbEntry Dev) := populate tlb_entry0.

(** ** The ISA-private state *)

Record RiscvState (Dev : Type) := mkRiscv {
  misa : Z;
  mstatus : Z;
  mie : Z;
  mip : Z;
  mtvec : Z;
  mscratch : Z;
  mepc : Z;
  mcause : Z;
  mtval : Z;
  medeleg : Z;
  mideleg : Z;
  mcounteren : Z;
  scounteren : Z;
  mcycle : Z;
  minstret : Z;
  mcountinhibit : Z;
  stvec : Z;
  sscratch : Z;
  sepc : Z;
  scause : Z;
  stval : Z;
  satp : Z;
  tselect : Z;
  tcontrol : Z;
  tdata1 : list Z;
  tdata2 : list Z;
  tdata3 : list Z;
  scontext : Z;
  menvcfg : Z;
  senvcfg : Z;
  stimecmp : Z;
  mnstatus : Z;
  mhpmcounter : list Z;
  mhpmevent : list Z;
  pmpcfg : list Z;
  pmpaddr : list Z;
  tlb : list (RiscvTlbEntry Dev);
  tlb_gen : Z;
  tlb_clock : Z;
  pmp_gen : Z;
  priv : Z;
  frm : Z;
  fflags : Z;
  counter_written : Z;
  ext_irq : Z;
  res_valid : bool;
  res_addr : Z;
  trap_seq : Z;
  trap_signal : Z;
}.
Arguments mkRiscv {Dev}.
Arguments misa {Dev}.
Arguments mstatus {Dev}.
Arguments mie {Dev}.
Arguments mip {Dev}.
Arguments mtvec {Dev}.
Arguments mscratch {Dev}.
Arguments mepc {Dev}.
Arguments mcause {Dev}.
Arguments mtval {Dev}.
Arguments medeleg {Dev}.
Arguments mideleg {Dev}.
Arguments mcounteren {Dev}.
Arguments scounteren {Dev}.
Arguments mcycle {Dev}.
Arguments minstret {Dev}.
Arguments mcountinhibit {Dev}.
Arguments stvec {Dev}.
Arguments sscratch {Dev}.
Arguments sepc {Dev}.
Arguments scause {Dev}.
Arguments stval {Dev}.
Arguments satp {Dev}.
Arguments tselect {Dev}.
Arguments tcontrol {Dev}.
Arguments tdata1 {Dev}.
Arguments tdata2 {Dev}.
Arguments tdata3 {Dev}.
Arguments scontext {Dev}.
Arguments menvcfg {Dev}.
Arguments senvcfg {Dev}.
Arguments stimecmp {Dev}.
Arguments mnstatus {Dev}.
Arguments mhpmcounter {Dev}.
Arguments mhpmevent {Dev}.
Arguments pmpcfg {Dev}.
Arguments pmpaddr {Dev}.
Arguments tlb {Dev}.
Arguments tlb_gen {Dev}.
Arguments tlb_clock {Dev}.
Arguments pmp_gen {Dev}.
Arguments priv {Dev}.
Arguments frm {Dev}.
Arguments fflags {Dev}.
Arguments counter_written {Dev}.
Arguments ext_irq {Dev}.
Arguments res_valid {Dev}.
Arguments res_addr {Dev}.
Arguments trap_seq {Dev}.
Arguments trap_signal {Dev}.

Definition eta_riscv {Dev} (s : RiscvState Dev) : RiscvState Dev :=
  mkRiscv (misa s) (mstatus s) (mie s) (mip s) (mtvec s) (mscratch s) (mepc s) (mcause s) (mtval s) (medeleg s) (mideleg s) (mcounteren s) (scounteren s) (mcycle s) (minstret s) (mcountinhibit s) (stvec s) (sscratch s) (sepc s) (scause s) (stval s) (satp s) (tselect s) (tcontrol s) (tdata1 s) (tdata2 s) (tdata3 s) (scontext s) (menvcfg s) (senvcfg s) (stimecmp s) (mnstatus s) (mhpmcounter s) (mhpmevent s) (pmpcfg s) (pmpaddr s) (tlb s) (tlb_gen s) (tlb_clock s) (pmp_gen s) (priv s) (frm s) (fflags s) (counter_written s) (ext_irq s) (res_valid s) (res_addr s) (trap_seq s) (trap_signal s).

#[export] Instance upd_misa {Dev} : Upd (@misa Dev) := ltac:(mk_upd (@eta_riscv Dev) (@misa Dev)).
#[export] Instance upd_mstatus {Dev} : Upd (@mstatus Dev) := ltac:(mk_upd (@eta_riscv Dev) (@mstatus Dev)).
#[export] Instance upd_mie {Dev} : Upd (@mie Dev) := ltac:(mk_upd (@eta_riscv Dev) (@mie Dev)).
#[export] Instance upd_mip {Dev} : Upd (@mip Dev) := ltac:(mk_upd (@eta_riscv Dev) (@mip Dev)).
#[export] Instance upd_mtvec {Dev} : Upd (@mtvec Dev) := ltac:(mk_upd (@eta_riscv Dev) (@mtvec Dev)).
#[export] Instance upd_mscratch {Dev} : Upd (@mscratch Dev) := ltac:(mk_upd (@eta_riscv Dev) (@mscratch Dev)).
#[export] Instance upd_mepc {Dev} : Upd (@mepc Dev) := ltac:(mk_upd (@eta_riscv Dev) (@mepc Dev)).
#[export] Instance upd_mcause {Dev} : Upd (@mcause Dev) := ltac:(mk_upd (@eta_riscv Dev) (@mcause Dev)).
#[export] Instance upd_mtval {Dev} : Upd (@mtval Dev) := ltac:(mk_upd (@eta_riscv Dev) (@mtval Dev)).
#[export] Instance upd_medeleg {Dev} : Upd (@medeleg Dev) := ltac:(mk_upd (@eta_riscv Dev) (@medeleg Dev)).
#[export] Instance upd_mideleg {Dev} : Upd (@mideleg Dev) := ltac:(mk_upd (@eta_riscv Dev) (@mideleg Dev)).
#[export] Instance upd_mcounteren {Dev} : Upd (@mcounteren Dev) := ltac:(mk_upd (@eta_riscv Dev) (@mcounteren Dev)).
#[export] Instance upd_scounteren {Dev} : Upd (@scounteren Dev) := ltac:(mk_upd (@eta_riscv Dev) (@scounteren Dev)).
#[export] Instance upd_mcycle {Dev} : Upd (@mcycle Dev) := ltac:(mk_upd (@eta_riscv Dev) (@mcycle Dev)).
#[export] Instance upd_minstret {Dev} : Upd (@minstret Dev) := ltac:(mk_upd (@eta_riscv Dev) (@minstret Dev)).
#[export] Instance upd_mcountinhibit {Dev} : Upd (@mcountinhibit Dev) := ltac:(mk_upd (@eta_riscv Dev) (@mcountinhibit Dev)).
#[export] Instance upd_stvec {Dev} : Upd (@stvec Dev) := ltac:(mk_upd (@eta_riscv Dev) (@stvec Dev)).
#[export] Instance upd_sscratch {Dev} : Upd (@sscratch Dev) := ltac:(mk_upd (@eta_riscv Dev) (@sscratch Dev)).
#[export] Instance upd_sepc {Dev} : Upd (@sepc Dev) := ltac:(mk_upd (@eta_riscv Dev) (@sepc Dev)).
#[export] Instance upd_scause {Dev} : Upd (@scause Dev) := ltac:(mk_upd (@eta_riscv Dev) (@scause Dev)).
#[export] Instance upd_stval {Dev} : Upd (@stval Dev) := ltac:(mk_upd (@eta_riscv Dev) (@stval Dev)).
#[export] Instance upd_satp {Dev} : Upd (@satp Dev) := ltac:(mk_upd (@eta_riscv Dev) (@satp Dev)).
#[export] Instance upd_tselect {Dev} : Upd (@tselect Dev) := ltac:(mk_upd (@eta_riscv Dev) (@tselect Dev)).
#[export] Instance upd_tcontrol {Dev} : Upd (@tcontrol Dev) := ltac:(mk_upd (@eta_riscv Dev) (@tcontrol Dev)).
#[export] Instance upd_tdata1 {Dev} : Upd (@tdata1 Dev) := ltac:(mk_upd (@eta_riscv Dev) (@tdata1 Dev)).
#[export] Instance upd_tdata2 {Dev} : Upd (@tdata2 Dev) := ltac:(mk_upd (@eta_riscv Dev) (@tdata2 Dev)).
#[export] Instance upd_tdata3 {Dev} : Upd (@tdata3 Dev) := ltac:(mk_upd (@eta_riscv Dev) (@tdata3 Dev)).
#[export] Instance upd_scontext {Dev} : Upd (@scontext Dev) := ltac:(mk_upd (@eta_riscv Dev) (@scontext Dev)).
#[export] Instance upd_menvcfg {Dev} : Upd (@menvcfg Dev) := ltac:(mk_upd (@eta_riscv Dev) (@menvcfg Dev)).
#[export] Instance upd_senvcfg {Dev} : Upd (@senvcfg Dev) := ltac:(mk_upd (@eta_riscv Dev) (@senvcfg Dev)).
#[export] Instance upd_stimecmp {Dev} : Upd (@stimecmp Dev) := ltac:(mk_upd (@eta_riscv Dev) (@stimecmp Dev)).
#[export] Instance upd_mnstatus {Dev} : Upd (@mnstatus Dev) := ltac:(mk_upd (@eta_riscv Dev) (@mnstatus Dev)).
#[export] Instance upd_mhpmcounter {Dev} : Upd (@mhpmcounter Dev) := ltac:(mk_upd (@eta_riscv Dev) (@mhpmcounter Dev)).
#[export] Instance upd_mhpmevent {Dev} : Upd (@mhpmevent Dev) := ltac:(mk_upd (@eta_riscv Dev) (@mhpmevent Dev)).
#[export] Instance upd_pmpcfg {Dev} : Upd (@pmpcfg Dev) := ltac:(mk_upd (@eta_riscv Dev) (@pmpcfg Dev)).
#[export] Instance upd_pmpaddr {Dev} : Upd (@pmpaddr Dev) := ltac:(mk_upd (@eta_riscv Dev) (@pmpaddr Dev)).
#[export] Instance upd_tlb {Dev} : Upd (@tlb Dev) := ltac:(mk_upd (@eta_riscv Dev) (@tlb Dev)).
#[export] Instance upd_tlb_gen {Dev} : Upd (@tlb_gen Dev) := ltac:(mk_upd (@eta_riscv Dev) (@tlb_gen Dev)).
#[export] Instance upd_tlb_clock {Dev} : Upd (@tlb_clock Dev) := ltac:(mk_upd (@eta_riscv Dev) (@tlb_clock Dev)).
#[export] Instance upd_pmp_gen {Dev} : Upd (@pmp_gen Dev) := ltac:(mk_upd (@eta_riscv Dev) (@pmp_gen Dev)).
#[export] Instance upd_priv {Dev} : Upd (@priv Dev) := ltac:(mk_upd (@eta_riscv Dev) (@priv Dev)).
#[export] Instance upd_frm {Dev} : Upd (@frm Dev) := ltac:(mk_upd (@eta_riscv Dev) (@frm Dev)).
#[export] Instance upd_fflags {Dev} : Upd (@fflags Dev) := ltac:(mk_upd (@eta_riscv Dev) (@fflags Dev)).
#[export] Instance upd_counter_written {Dev} : Upd (@counter_written Dev) := ltac:(mk_upd (@eta_riscv Dev) (@counter_written Dev)).
#[export] Instance upd_ext_irq {Dev} : Upd (@ext_irq Dev) := ltac:(mk_upd (@eta_riscv Dev) (@ext_irq Dev)).
#[export] Instance upd_res_valid {Dev} : Upd (@res_valid Dev) := ltac:(mk_upd (@eta_riscv Dev) (@res_valid Dev)).
#[export] Instance upd_res_addr {Dev} : Upd (@res_addr Dev) := ltac:(mk_upd (@eta_riscv Dev) (@res_addr Dev)).
#[export] Instance upd_trap_seq {Dev} : Upd (@trap_seq Dev) := ltac:(mk_upd (@eta_riscv Dev) (@trap_seq Dev)).
#[export] Instance upd_trap_signal {Dev} : Upd (@trap_signal Dev) := ltac:(mk_upd (@eta_riscv Dev) (@trap_signal Dev)).

(** ** The architectural processor state (cpu/cpu.h) *)

Record CpuState := mkCpu {
  gpr : list Z;
  fpr : list Z;
  pc : Z;
  wait : bool;
  halted : bool;
  exit_code : Z;
  inst_count : Z;
}.

Definition eta_cpu (s : CpuState) : CpuState :=
  mkCpu (gpr s) (fpr s) (pc s) (wait s) (halted s) (exit_code s) (inst_count s).

#[export] Instance upd_gpr : Upd gpr := ltac:(mk_upd eta_cpu gpr).
#[export] Instance upd_fpr : Upd fpr := ltac:(mk_upd eta_cpu fpr).
#[export] Instance upd_pc : Upd pc := ltac:(mk_upd eta_cpu pc).
#[export] Instance upd_wait : Upd wait := ltac:(mk_upd eta_cpu wait).
#[export] Instance upd_halted : Upd halted := ltac:(mk_upd eta_cpu halted).
#[export] Instance upd_exit_code : Upd exit_code := ltac:(mk_upd eta_cpu exit_code).
#[export] Instance upd_inst_count : Upd inst_count := ltac:(mk_upd eta_cpu inst_count).

(** ** The machine an instruction runs against *)

Record Mach (Ops Dev W : Type) := mkMach {
  cpu : CpuState;
  rs : RiscvState Dev;
  bus : Bus Ops Dev;
  world : W;
}.
Arguments mkMach {Ops Dev W}.
Arguments cpu {Ops Dev W}.
Arguments rs {Ops Dev W}.
Arguments bus {Ops Dev W}.
Arguments world {Ops Dev W}.

Definition eta_mach {Ops Dev W} (s : Mach Ops Dev W) : Mach Ops Dev W :=
  mkMach (cpu s) (rs s) (bus s) (world s).

#[export] Instance upd_m_cpu {Ops Dev W} : Upd (@cpu Ops Dev W) := ltac:(mk_upd (@eta_mach Ops Dev W) (@cpu Ops Dev W)).
#[export] Instance upd_m_rs {Ops Dev W} : Upd (@rs Ops Dev W) := ltac:(mk_upd (@eta_mach Ops Dev W) (@rs Ops Dev W)).
#[export] Instance upd_m_bus {Ops Dev W} : Upd (@bus Ops Dev W) := ltac:(mk_upd (@eta_mach Ops Dev W) (@bus Ops Dev W)).
#[export] Instance upd_m_world {Ops Dev W} : Upd (@world Ops Dev W) := ltac:(mk_upd (@eta_mach Ops Dev W) (@world Ops Dev W)).

(** Evaluate projections of updated states, and nothing else. *)
Ltac rsimpl := cbn [upd misa mstatus mie mip mtvec mscratch mepc mcause mtval medeleg mideleg mcounteren
  scounteren mcycle minstret mcountinhibit stvec sscratch sepc scause stval satp tselect tcontrol tdata1
  tdata2 tdata3 scontext menvcfg senvcfg stimecmp mnstatus mhpmcounter mhpmevent pmpcfg pmpaddr tlb tlb_gen
  tlb_clock pmp_gen priv frm fflags counter_written ext_irq res_valid res_addr trap_seq trap_signal upd_misa
  upd_mstatus upd_mie upd_mip upd_mtvec upd_mscratch upd_mepc upd_mcause upd_mtval upd_medeleg upd_mideleg
  upd_mcounteren upd_scounteren upd_mcycle upd_minstret upd_mcountinhibit upd_stvec upd_sscratch upd_sepc
  upd_scause upd_stval upd_satp upd_tselect upd_tcontrol upd_tdata1 upd_tdata2 upd_tdata3 upd_scontext
  upd_menvcfg upd_senvcfg upd_stimecmp upd_mnstatus upd_mhpmcounter upd_mhpmevent upd_pmpcfg upd_pmpaddr
  upd_tlb upd_tlb_gen upd_tlb_clock upd_pmp_gen upd_priv upd_frm upd_fflags upd_counter_written upd_ext_irq
  upd_res_valid upd_res_addr upd_trap_seq upd_trap_signal gpr fpr pc wait halted exit_code inst_count upd_gpr
  upd_fpr upd_pc upd_wait upd_halted upd_exit_code upd_inst_count cpu rs bus world upd_m_cpu upd_m_rs
  upd_m_bus upd_m_world].
Tactic Notation "rsimpl" "in" hyp(H) := cbn [upd misa mstatus mie mip mtvec mscratch mepc mcause mtval medeleg
  mideleg mcounteren scounteren mcycle minstret mcountinhibit stvec sscratch sepc scause stval satp tselect
  tcontrol tdata1 tdata2 tdata3 scontext menvcfg senvcfg stimecmp mnstatus mhpmcounter mhpmevent pmpcfg
  pmpaddr tlb tlb_gen tlb_clock pmp_gen priv frm fflags counter_written ext_irq res_valid res_addr trap_seq
  trap_signal upd_misa upd_mstatus upd_mie upd_mip upd_mtvec upd_mscratch upd_mepc upd_mcause upd_mtval
  upd_medeleg upd_mideleg upd_mcounteren upd_scounteren upd_mcycle upd_minstret upd_mcountinhibit upd_stvec
  upd_sscratch upd_sepc upd_scause upd_stval upd_satp upd_tselect upd_tcontrol upd_tdata1 upd_tdata2
  upd_tdata3 upd_scontext upd_menvcfg upd_senvcfg upd_stimecmp upd_mnstatus upd_mhpmcounter upd_mhpmevent
  upd_pmpcfg upd_pmpaddr upd_tlb upd_tlb_gen upd_tlb_clock upd_pmp_gen upd_priv upd_frm upd_fflags
  upd_counter_written upd_ext_irq upd_res_valid upd_res_addr upd_trap_seq upd_trap_signal gpr fpr pc wait
  halted exit_code inst_count upd_gpr upd_fpr upd_pc upd_wait upd_halted upd_exit_code upd_inst_count cpu rs
  bus world upd_m_cpu upd_m_rs upd_m_bus upd_m_world] in H.

(** Device events reach the processor through [CpuState.set_irq]
    ([riscv_set_ext_irq], csr.c) and the halt flag. *)
Definition riscv_set_ext_irq {Dev} (bit : Z) (level : bool) (s : RiscvState Dev) : RiscvState Dev :=
  if level then s <| ext_irq := ext_irq s .| bit |> else s <| ext_irq := ext_irq s &~ bit |>.

Definition apply_event {Ops Dev W} (m : Mach Ops Dev W) (e : cpu_event) : Mach Ops Dev W :=
  match e with
  | EvIrq line level => m <| rs := riscv_set_ext_irq line level (rs m) |>
  | EvA20 _ | EvNmi => m (* a hart leaves these hooks unset *)
  | EvHalt code => m <| cpu := (cpu m) <| halted := true |> <| exit_code := code |> |>
  end.

(** ** The raise channel (cpu/step.c) *)

Definition raise_ {S A} (cause tval : Z) : M S A := throw (TrapRec cause tval None).
Definition raise_paddr_ {S A} (cause tval paddr : Z) : M S A := throw (TrapRec cause tval (Some paddr)).

Section access.
Context {Ops Dev W : Type}.
#[local] Abbreviation MM := (M (Mach Ops Dev W)).

Definition getcpu : MM CpuState := gets cpu.
Definition getrs : MM (RiscvState Dev) := gets rs.
Definition modrs (f : RiscvState Dev -> RiscvState Dev) : MM unit := modify (fun m => m <| rs := f (rs m) |>).
Definition modcpu (f : CpuState -> CpuState) : MM unit := modify (fun m => m <| cpu := f (cpu m) |>).

(** [x[i]] and [f[i]]. *)
Definition getx (i : Z) : MM Z := gets (fun m => arr (gpr (cpu m)) i).
Definition setx (i v : Z) : MM unit := modcpu (fun c => c <| gpr := arr_set (gpr c) i v |>).
Definition getf (i : Z) : MM Z := gets (fun m => arr (fpr (cpu m)) i).
Definition setf (i v : Z) : MM unit := modcpu (fun c => c <| fpr := arr_set (fpr c) i v |>).

Context `{BusDevices Ops Dev W}.

(** Bus operations as the interpreter calls them; the decode cache lives in
    the bus. *)
Definition bus_probe (addr len : Z) : MM (option (BusRegion Ops Dev)) := fun m =>
  let '(r, b) := BusProbe (bus m) addr len in Done r (m <| bus := b |>).

Definition bus_read (addr size : Z) : MM Z := fun m =>
  match FindRegion (bus m) addr size with
  | (Some r, b) =>
      let '(v, w, evs) := dev_read (r_ops r) (r_dev r) addr size (world m) in
      Done v (fold_left apply_event evs (m <| bus := b |> <| world := w |>))
  | (None, _) => Aborted FatalUnmapped
  end.

Definition bus_write (addr size v : Z) : MM unit := fun m =>
  match FindRegion (bus m) addr size with
  | (Some r, b) =>
      let '(w, evs) := dev_write (r_ops r) (r_dev r) addr size v (world m) in
      Done tt (fold_left apply_event evs (m <| bus := b |> <| world := w |>))
  | (None, _) => Aborted FatalUnmapped
  end.
End access.
