(* ===== verification/RvCsr.v ===== *)
(** * Debug triggers and the CSR file (cpu/isa/riscv64/trigger.c and csr.c)

    First the Sdtrig triggers, which the CSR file below reads and writes: two mcontrol6 address triggers: the match decision, the reentrancy guard,
    chaining, and the WARL policies of [tdata1] and [tdata3] writes. *)

From S2P Require Import Prelude Bus Ram RvState.

Section trigger.
Context {Ops Dev W : Type}.
Implicit Types s : RiscvState Dev.

(** Byte [b] of a 32-bit word. *)
Definition byte_of (v b : Z) : Z := (v .>> (8 * b)) .& 255.

(** tdata3 qualification. *)
Definition tdata3_match s (t3 : Z) : bool :=
  let ssel := t3 .& kTd3SselectMask in
  if ssel =? 1 then
    let sval := u32 (t3 .>> kTd3SvalueShift) in
    let smask := (t3 .>> kTd3SbytemaskShift) .& 15 in
    let ctx := u32 (scontext s) in
    forallb (fun b => Z.testbit smask b || (byte_of ctx b =? byte_of sval b)) [0; 1; 2; 3]
  else if ssel =? 2 then
    ((satp s .>> 44) .& 0xffff) =? ((t3 .>> kTd3SvalueShift) .& 0xffff)
  else ssel =? 0.

Definition Mc6Match s (t1 t2 t3 op addr : Z) : bool :=
  if negb (tst op kTrigOpExecute && tst t1 kMc6Execute) &&
     negb (tst op kTrigOpLoad && tst t1 kMc6Load) &&
     negb (tst op kTrigOpStore && tst t1 kMc6Store) then false
  else
  let want := if priv s =? kPrivMachine then kMc6M
              else if priv s =? kPrivSupervisor then kMc6S else kMc6U in
  if negb (tst t1 want) then false
  else if negb (tdata3_match s t3) then false
  else switch ((t1 .>> 7) .& 15)
    [ (kMc6MatchEq, addr =? t2);
      (kMc6MatchGe, t2 <=? addr) ]
    (addr <? t2).

Definition TrigReentryOk s : bool :=
  let bp_deleg := Z.testbit (medeleg s) kExBreakpoint in
  if (priv s =? kPrivMachine) && negb (tst (mstatus s) kMstatusMie) then false
  else if (priv s =? kPrivSupervisor) && bp_deleg && negb (tst (mstatus s) kMstatusSie) then false
  else true.

Definition Fire (t1 addr : Z) : M (Mach Ops Dev W) unit :=
  if (t1 .>> 12) .& 15 =? 1 then abort FatalTriggerDebug else raise_ kExBreakpoint addr.

Definition RiscvTriggerCheck (op addr : Z) : M (Mach Ops Dev W) unit :=
  s <- getrs ;;
  if negb (TrigReentryOk s) then mret' tt else
  let hit0 := Mc6Match s (arr (tdata1 s) 0) (arr (tdata2 s) 0) (arr (tdata3 s) 0) op addr in
  let hit1 := Mc6Match s (arr (tdata1 s) 1) (arr (tdata2 s) 1) (arr (tdata3 s) 1) op addr in
  let chain0 := Z.testbit (arr (tdata1 s) 0) 11 in
  (when hit0 && negb chain0 do Fire (arr (tdata1 s) 0) addr) ;;;
  when (hit0 || negb chain0) && hit1 && negb (Z.testbit (arr (tdata1 s) 1) 11)
    do Fire (arr (tdata1 s) 1) addr.

(** The value a [tdata1] write leaves in trigger [idx] holding [cur]. *)
Definition tdata1_warl (idx cur val : Z) : Z :=
  let v := kTrigTypeMcontrol6 in
  let v := v .| (cur .& val .& kMc6Dmode) in
  let mt := (val .>> 7) .& 15 in
  let v := if (mt =? kMc6MatchEq) || (mt =? kMc6MatchGe) || (mt =? kMc6MatchLt)
           then v .| (mt .<< 7) else v in
  let action := (val .>> 12) .& 15 in
  let v := if action <=? 1 then v .| (action .<< 12) else v in
  let v := if (idx <? kTrigCount - 1) || negb (tst val kMc6Chain)
           then v .| (val .& kMc6Chain) else v in
  v .| (val .& (kMc6Load .| kMc6Store .| kMc6Execute .| kMc6U .| kMc6S .| kMc6M)).

Definition RiscvTriggerWriteTdata1 (val : Z) s : RiscvState Dev :=
  let idx := tselect s in
  s <| tdata1 := arr_set (tdata1 s) idx (tdata1_warl idx (arr (tdata1 s) idx) val) |>.

Definition RiscvTriggerWriteTdata3 (val : Z) s : RiscvState Dev :=
  s <| tdata3 := arr_set (tdata3 s) (tselect s) (val &~ kTd3MhMask) |>.
End trigger.

(** * Control and status registers, traps and interrupts (cpu/isa/riscv64/csr.c)

    The CSR file with its privilege gates, views and WARL policies, trap
    entry with delegation, the xRET returns, interrupt selection and the Sstc
    timer line.  CSR accesses return a C status code; the model keeps the two
    outcomes apart and adds the third the C code can reach, an index outside
    an array of the state struct. *)

Inductive csr_res (A : Type) := COk (a : A) | CErr | COob.
Arguments COk {A} a.
Arguments CErr {A}.
Arguments COob {A}.

Definition kCounterenCycle := 1.
Definition kCounterenTime := 2.
Definition kCounterenInstret := 4.

Section csr.
Context {Dev : Type}.
Implicit Types s : RiscvState Dev.

(** ** Reset (isa_riscv64.c, [riscv_init]) *)

(** The zeroed struct ([calloc] / [memset]). *)
Definition riscv_zero : RiscvState Dev :=
  mkRiscv 0 0 0 0 0 0 0 0 0 0 0 0 0 0 0 0 0 0 0 0 0 0 0 0 [0; 0] [0; 0] [0; 0] 0 0 0 0 0
    (replicate 16 0) (replicate 16 0) [0; 0] (replicate 16 0) (replicate 512 tlb_entry0) 0 0 0
    0 0 0 0 0 false 0 0 0.

Definition riscv_init : RiscvState Dev :=
  riscv_zero <| priv := kPrivMachine |> <| tlb_gen := 1 |> <| mstatus := 2 .<< 32 |>
    <| misa := kMisaSupported |> <| tdata1 := [kTrigTypeMcontrol6; kTrigTypeMcontrol6] |>
    <| stimecmp := 2 ^ 64 - 1 |>.

Definition MipAll s : Z := mip s .| ext_irq s.

(** [x ? m : 0]. *)
Definition sel (c : bool) (m : Z) : Z := if c then m else 0.

(** ** Trap entry *)

Definition trap_to_s (cause : Z) s : bool :=
  let is_int := tst cause kIntBit in
  let deleg_src := if is_int then mideleg s else medeleg s in
  Z.testbit deleg_src (cause .& 0xfff) && (priv s <? kPrivMachine).

Definition vector_base (tvec cause : Z) : Z :=
  let base := tvec &~ 3 in
  if (tvec .& 3 =? 1) && tst cause kIntBit then u64 (base + 4 * (cause .& 15)) else base.

Definition riscv_trap (cpu_pc cause tval : Z) s : Z * RiscvState Dev :=
  if trap_to_s cause s then
    let st := mstatus s in
    let st := (st &~ kMstatusSpie) .| sel (tst st kMstatusSie) kMstatusSpie in
    let st := st &~ kMstatusSie in
    let st := (st &~ kMstatusSpp) .| sel (priv s =? kPrivSupervisor) kMstatusSpp in
    (vector_base (stvec s) cause,
     s <| sepc := cpu_pc |> <| scause := cause |> <| stval := tval |>
       <| mstatus := st |> <| priv := kPrivSupervisor |>)
  else
    let st := mstatus s in
    let st := (st &~ kMstatusMpie) .| sel (tst st kMstatusMie) kMstatusMpie in
    let st := st &~ kMstatusMie in
    let st := (st &~ kMstatusMppMask) .| (priv s .<< 11) in
    (vector_base (mtvec s) cause,
     s <| mepc := cpu_pc |> <| mcause := cause |> <| mtval := tval |>
       <| mstatus := st |> <| priv := kPrivMachine |>).

(** ** Interrupt delivery *)

(** Is the pending interrupt [id] taken in the current mode? *)
Definition int_take s (id : Z) : bool :=
  if Z.testbit (mideleg s) id then
    if priv s =? kPrivSupervisor then tst (mstatus s) kMstatusSie else priv s <? kPrivSupervisor
  else
    if priv s =? kPrivMachine then tst (mstatus s) kMstatusMie else priv s <? kPrivMachine.

Definition kOrder : list Z := [11; 3; 7; 9; 1; 5].

Fixpoint deliver_scan (order : list Z) (pending : Z) s : option Z :=
  match order with
  | [] => None
  | id :: order =>
      if negb (Z.testbit pending id) then deliver_scan order pending s
      else if int_take s id then Some id
      else deliver_scan order pending s
  end.

(** [None]: nothing to deliver; otherwise the new pc and state. *)
Definition riscv_deliver_interrupt (cpu_pc : Z) s : option (Z * RiscvState Dev) :=
  let pending := MipAll s .& mie s in
  if pending =? 0 then None
  else match deliver_scan kOrder pending s with
       | Some id => Some (riscv_trap cpu_pc (kIntBit .| id) 0 s)
       | None => None
       end.

(** ** xRET *)

Definition riscv_mret s : Z * RiscvState Dev :=
  let st := mstatus s in
  let st := (st &~ kMstatusMie) .| sel (tst st kMstatusMpie) kMstatusMie in
  let st := st .| kMstatusMpie in
  let mpp := (st .& kMstatusMppMask) .>> 11 in
  let st := if mpp =? kPrivMachine then st else st &~ kMstatusMprv in
  let st := st &~ kMstatusMppMask in
  let target := mepc s &~ 1 in
  let target := if tst (misa s) kMisaC then target else target &~ 2 in
  (target, s <| mstatus := st |> <| priv := u8 mpp |>).

Definition riscv_sret s : Z * RiscvState Dev :=
  let st := mstatus s in
  let st := (st &~ kMstatusSie) .| sel (tst st kMstatusSpie) kMstatusSie in
  let st := st .| kMstatusSpie in
  let st := st &~ kMstatusMprv in
  let p := if tst st kMstatusSpp then kPrivSupervisor else kPrivUser in
  let st := st &~ kMstatusSpp in
  let target := sepc s &~ 1 in
  let target := if tst (misa s) kMisaC then target else target &~ 2 in
  (target, s <| mstatus := st |> <| priv := p |>).

(** ** CSR reads *)

Definition CsrPriv (addr : Z) : Z := (addr .>> 8) .& 3.

(** The counter CSRs a mode below M may not see. *)
Definition counter_gate (addr : Z) : Z :=
  switch addr [(0xC00, kCounterenCycle); (0xC01, kCounterenTime); (0xC02, kCounterenInstret)] 0.

Definition counter_denied s (addr : Z) : bool :=
  (priv s <? kPrivMachine) &&
  (negb (tst (mcounteren s) (counter_gate addr)) ||
   ((priv s =? kPrivUser) && negb (tst (scounteren s) (counter_gate addr)))).

Section read.
Context {W : Type} (timer : option (W -> Z * W)).

Definition ReadCounter s (addr : Z) (w : W) : option Z * W :=
  if counter_denied s addr then (None, w)
  else if (addr =? 0xB00) || (addr =? 0xC00) then (Some (mcycle s), w)
  else if (addr =? 0xB02) || (addr =? 0xC02) then (Some (minstret s), w)
  else if addr =? 0xC01 then
    match timer with Some t => let '(v, w) := t w in (Some v, w) | None => (Some (mcycle s), w) end
  else (None, w).

Definition trig_read (l : list Z) s : csr_res Z :=
  if tselect s <? kTrigCount then COk (arr l (tselect s)) else COob.

Definition csr_read_plain s (addr : Z) : csr_res Z :=
  switch addr
  [ (0x001, COk (fflags s));
    (0x002, COk (frm s));
    (0x003, COk ((frm s .<< 5) .| fflags s));
    (0x100, COk ((mstatus s .& kSstatusRmask) .|
                 sel (mstatus s .& kMstatusFs =? kMstatusFs) (2 ^ 63)));
    (0x104, COk (mie s .& kIrqSLevelMask));
    (0x105, COk (stvec s));
    (0x106, COk (scounteren s));
    (0x10A, COk (senvcfg s));
    (0x14D, COk (stimecmp s));
    (0x140, COk (sscratch s));
    (0x141, COk (if tst (misa s) kMisaC then sepc s else sepc s &~ 2));
    (0x142, COk (scause s));
    (0x143, COk (stval s));
    (0x144, COk (MipAll s .& kIrqSLevelMask));
    (0x180, if (priv s =? kPrivSupervisor) && tst (mstatus s) kMstatusTvm then CErr
            else COk (satp s));
    (0x300, COk (mstatus s));
    (0x301, COk (misa s));
    (0x302, COk (medeleg s));
    (0x303, COk (mideleg s));
    (0x304, COk (mie s));
    (0x305, COk (mtvec s));
    (0x306, COk (mcounteren s));
    (0x30A, COk (menvcfg s));
    (0x320, COk (mcountinhibit s));
    (0x340, COk (mscratch s));
    (0x341, COk (if tst (misa s) kMisaC then mepc s else mepc s &~ 2));
    (0x342, COk (mcause s));
    (0x343, COk (mtval s));
    (0x344, COk (MipAll s));
    (0x5A8, COk (scontext s));
    (0x7A0, COk (tselect s));
    (0x7A1, trig_read (tdata1 s) s);
    (0x7A2, trig_read (tdata2 s) s);
    (0x7A3, trig_read (tdata3 s) s);
    (0x7A4, COk (2 ^ 6));
    (0x7A5, COk (tcontrol s));
    (0x744, COk (mnstatus s));
    (0xF11, COk 0);
    (0xF12, COk 0);
    (0xF13, COk 0);
    (0xF14, COk 0) ]
  (if (0xB03 <=? addr) && (addr <=? 0xB03 + kMhpmCount - 1) then COk (arr (mhpmcounter s) (addr - 0xB03))
   else if (0x323 <=? addr) && (addr <=? 0x323 + kMhpmCount - 1) then COk (arr (mhpmevent s) (addr - 0x323))
   else if (0x3A0 <=? addr) && (addr <=? 0x3AE) && (addr .& 1 =? 0) then
     if (addr - 0x3A0) / 2 <? 2 then COk (arr (pmpcfg s) ((addr - 0x3A0) / 2)) else COob
   else if (0x3B0 <=? addr) && (addr <=? 0x3BF) then COk (arr (pmpaddr s) (addr - 0x3B0))
   else CErr).

Definition riscv_csr_read s (addr : Z) (w : W) : csr_res Z * W :=
  if priv s <? CsrPriv addr then (CErr, w)
  else match ReadCounter s addr w with
       | (Some v, w) => (COk v, w)
       | (None, w) => (csr_read_plain s addr, w)
       end.
End read.

(** ** CSR writes *)

(** One byte of a pmpcfg write: locked entries are immutable, W requires R,
    and NA4 is not selectable at 16-byte granularity. *)
Definition pmpcfg_byte (old val : Z) : Z :=
  if tst old kPmpL then old
  else
    let cfg := val in
    let cfg := if tst cfg kPmpR then cfg else cfg &~ kPmpW in
    if cfg .& kPmpAMask =? kPmpANa4 then (cfg &~ kPmpAMask) .| kPmpANapot else cfg.

Definition cfg_byte (word b : Z) : Z := u8 (word .>> (8 * b)).

Definition WritePmpCfg (which val : Z) s : RiscvState Dev :=
  let old := arr (pmpcfg s) which in
  let out := fold_left (fun out b => out .| (pmpcfg_byte (cfg_byte old b) (cfg_byte val b) .<< (8 * b)))
               [0; 1; 2; 3; 4; 5; 6; 7] 0 in
  s <| pmpcfg := arr_set (pmpcfg s) which out |> <| pmp_gen := u32 (pmp_gen s + 1) |>.

(** The configuration byte of PMP entry [i]. *)
Definition pmp_cfg_of s (i : Z) : Z := cfg_byte (arr (pmpcfg s) (i / 8)) (i mod 8).

Definition WritePmpAddr (i val : Z) s : RiscvState Dev :=
  if kPmpCount <=? i then s else
  let cfg := pmp_cfg_of s i in
  let next_cfg := if i + 1 <? kPmpCount then pmp_cfg_of s (i + 1) else 0 in
  if tst cfg kPmpL || (tst next_cfg kPmpL && (next_cfg .& kPmpAMask =? kPmpATor)) then s
  else s <| pmpaddr := arr_set (pmpaddr s) i (val .& (2 ^ kPmpAddrBits - 1)) |>
         <| pmp_gen := u32 (pmp_gen s + 1) |>.

Definition satp_write (val : Z) s : csr_res (RiscvState Dev) :=
  if (priv s =? kPrivSupervisor) && tst (mstatus s) kMstatusTvm then CErr
  else
    let mode := (val .>> 60) .& 15 in
    if negb (mode =? kSatpModeBare) && negb (mode =? kSatpModeSv39) && negb (mode =? kSatpModeSv48)
    then COk s
    else COk (s <| satp := val .& kSatpWmask |>).

Definition mstatus_write (val : Z) s : RiscvState Dev :=
  let val := if val .& kMstatusMppMask =? kPrivHypervisor .<< 11 then val &~ kMstatusMppMask else val in
  let st := (mstatus s &~ kMstatusWmask) .| (val .& kMstatusWmask) in
  s <| mstatus := (st &~ kMstatusUxlMask) .| kMstatusUxlValue |>.

Definition misa_write (val next_pc : Z) s : RiscvState Dev :=
  let new_misa := (val .& kMisaSupported) .| kMisaI in
  let new_misa := if tst (misa s) kMisaC && negb (tst new_misa kMisaC) && negb (next_pc mod 4 =? 0)
                  then new_misa .| kMisaC else new_misa in
  s <| misa := new_misa |>.

Definition trig_write (f : RiscvState Dev -> RiscvState Dev) s : csr_res (RiscvState Dev) :=
  if tselect s <? kTrigCount then COk (f s) else COob.

Definition kMipWmask := kIrqSsip .| kIrqStip .| kIrqSeip.

Definition csr_write_plain s (addr val next_pc : Z) : csr_res (RiscvState Dev) :=
  switch addr
  [ (0x001, COk (s <| fflags := u8 (val .& 0x1f) |>));
    (0x002, COk (s <| frm := u8 (val .& 7) |>));
    (0x003, COk (s <| frm := u8 ((val .>> 5) .& 7) |> <| fflags := u8 (val .& 0x1f) |>));
    (0x100, COk (s <| mstatus := (mstatus s &~ kSstatusWmask) .| (val .& kSstatusWmask) |>));
    (0x104, COk (s <| mie := (mie s &~ kIrqSLevelMask) .| (val .& kIrqSLevelMask) |>));
    (0x105, COk (s <| stvec := val &~ 2 |>));
    (0x106, COk (s <| scounteren := val |>));
    (0x10A, COk (s <| senvcfg := val .& kSenvcfgWmask |>));
    (0x14D, COk (s <| stimecmp := val |>));
    (0x140, COk (s <| sscratch := val |>));
    (0x141, COk (s <| sepc := val &~ 1 |>));
    (0x142, COk (s <| scause := val |>));
    (0x143, COk (s <| stval := val |>));
    (0x144, COk (s <| mip := (mip s &~ kIrqSsip) .| (val .& kIrqSsip) |>));
    (0x180, satp_write val s);
    (0x300, COk (mstatus_write val s));
    (0x301, COk (misa_write val next_pc s));
    (0x302, COk (s <| medeleg := val .& kMedelegWmask |>));
    (0x303, COk (s <| mideleg := val .& kMidelegWmask |>));
    (0x304, COk (s <| mie := val |>));
    (0x305, COk (s <| mtvec := val &~ 2 |>));
    (0x306, COk (s <| mcounteren := val |>));
    (0x30A, COk (s <| menvcfg := val .& kMenvcfgWmask |>));
    (0x320, COk (s <| mcountinhibit := val |>));
    (0x340, COk (s <| mscratch := val |>));
    (0x341, COk (s <| mepc := val &~ 1 |>));
    (0x342, COk (s <| mcause := val |>));
    (0x343, COk (s <| mtval := val |>));
    (0x344, COk (s <| mip := (mip s &~ kMipWmask) .| (val .& kMipWmask) |>));
    (0x5A8, COk (s <| scontext := val |>));
    (0x7A0, COk (s <| tselect := if val <? kTrigCount then val else kTrigCount - 1 |>));
    (0x7A1, trig_write (RiscvTriggerWriteTdata1 val) s);
    (0x744, COk (s <| mnstatus := val |>));
    (0x7A2, trig_write (fun s => s <| tdata2 := arr_set (tdata2 s) (tselect s) val |>) s);
    (0x7A3, trig_write (RiscvTriggerWriteTdata3 val) s);
    (0x7A5, COk (s <| tcontrol := val .& (kTcontrolMte .| kTcontrolMpte) |>)) ]
  (if (0xB03 <=? addr) && (addr <=? 0xB03 + kMhpmCount - 1) then
     COk (s <| mhpmcounter := arr_set (mhpmcounter s) (addr - 0xB03) val |>)
   else if (0x323 <=? addr) && (addr <=? 0x323 + kMhpmCount - 1) then
     COk (s <| mhpmevent := arr_set (mhpmevent s) (addr - 0x323) val |>)
   else if (0x3A0 <=? addr) && (addr <=? 0x3AE) && (addr .& 1 =? 0) then
     if (addr - 0x3A0) / 2 <? 2 then COk (WritePmpCfg ((addr - 0x3A0) / 2) val s) else COob
   else if (0x3B0 <=? addr) && (addr <=? 0x3BF) then COk (WritePmpAddr (addr - 0x3B0) val s)
   else CErr).

Definition riscv_csr_write s (addr val next_pc : Z) : csr_res (RiscvState Dev) :=
  if priv s <? CsrPriv addr then CErr
  else if addr =? 0xB00 then COk (s <| mcycle := val |> <| counter_written := kCounterMcycle |>)
  else if addr =? 0xB02 then COk (s <| minstret := val |> <| counter_written := kCounterMinstret |>)
  else csr_write_plain s addr val next_pc.
End csr.
