(* ===== verification/RvCsrProps.v ===== *)
(** * Properties of the CSR file and of trap entry and return

    The WARL invariant of the CSR file and its preservation by every CSR
    write, trap and return; PMP locking; trap entry and xRET as inverses;
    interrupt selection against its priority specification. *)

From S2P Require Import Prelude Bus Ram RvState RvCsr.

(** ** The WARL invariant, value by value *)

Definition priv_ok (p : Z) : Prop := p = kPrivUser \/ p = kPrivSupervisor \/ p = kPrivMachine.

(** MPP never holds the unimplemented mode 2, and UXL stays 2. *)
Definition mstatus_ok (st : Z) : Prop :=
  rng 64 st /\ (Z.testbit st 12 = true -> Z.testbit st 11 = true) /\
  Z.testbit st 33 = true /\ Z.testbit st 32 = false.

(** Bare, Sv39 or Sv48. *)
Definition satp_ok (v : Z) : Prop :=
  rng 64 v /\ Z.testbit v 61 = false /\ Z.testbit v 62 = false /\
  (Z.testbit v 60 = true -> Z.testbit v 63 = true).

Definition tvec_ok (v : Z) : Prop := rng 64 v /\ Z.testbit v 1 = false.

(** Only the bits of the mask may be set. *)
Definition within (mask v : Z) : Prop := v &~ mask = 0.

Definition misa_ok (v : Z) : Prop := within kMisaSupported v /\ Z.testbit v 8 = true.

(** An mcontrol6 trigger with a supported match and action. *)
Definition tdata1_ok (v : Z) : Prop :=
  (v .>> 60) = 6 /\ Z.testbit v 13 = false /\ Z.testbit v 14 = false /\ Z.testbit v 15 = false /\
  Z.testbit v 9 = false /\ Z.testbit v 10 = false /\
  (Z.testbit v 7 = true -> Z.testbit v 8 = true).

(** A pmpcfg byte: W implies R, NA4 never selected. *)
Definition pmpcfg_byte_ok (b : Z) : Prop :=
  (tst b kPmpW = true -> tst b kPmpR = true) /\ b .& kPmpAMask <> kPmpANa4.

Definition pmpcfg_ok (v : Z) : Prop :=
  rng 64 v /\ forall b, 0 <= b < 8 -> pmpcfg_byte_ok (cfg_byte v b).

Record csr_inv {Dev} (s : RiscvState Dev) : Prop := {
  ci_priv : priv_ok (priv s);
  ci_mstatus : mstatus_ok (mstatus s);
  ci_misa : misa_ok (misa s);
  ci_satp : satp_ok (satp s);
  ci_mtvec : tvec_ok (mtvec s);
  ci_stvec : tvec_ok (stvec s);
  ci_medeleg : within kMedelegWmask (medeleg s);
  ci_mideleg : within kMidelegWmask (mideleg s);
  ci_mip : within kMipWmask (mip s);
  ci_tselect : 0 <= tselect s < kTrigCount;
  ci_tdata1 : length (tdata1 s) = 2%nat /\ Forall tdata1_ok (tdata1 s);
  ci_tdata2 : length (tdata2 s) = 2%nat /\ Forall (rng 64) (tdata2 s);
  ci_tdata3 : length (tdata3 s) = 2%nat /\ Forall (rng 64) (tdata3 s);
  ci_pmpcfg : length (pmpcfg s) = 2%nat /\ Forall pmpcfg_ok (pmpcfg s);
  ci_pmpaddr : length (pmpaddr s) = 16%nat /\ Forall (rng 54) (pmpaddr s);
  ci_mhpm : length (mhpmcounter s) = 16%nat /\ Forall (rng 64) (mhpmcounter s);
  ci_mhpmev : length (mhpmevent s) = 16%nat /\ Forall (rng 64) (mhpmevent s);
  ci_frm : rng 3 (frm s);
  ci_fflags : rng 5 (fflags s);
  ci_plain : Forall (rng 64) [mie s; mscratch s; mepc s; mcause s; mtval s; mcounteren s;
     scounteren s; mcycle s; minstret s; mcountinhibit s; sscratch s; sepc s; scause s; stval s;
     tcontrol s; scontext s; menvcfg s; senvcfg s; stimecmp s; mnstatus s; ext_irq s];
}.

Lemma within_rng w mask v : 0 <= w -> 0 <= v -> rng w mask -> within mask v -> rng w v.
Proof.
  intros Hw Hv Hm Hi. rewrite rng_testbit in * by done. destruct Hm as [_ Hm].
  split; [done|]. intros n Hn. specialize (Hm n Hn).
  assert (Z.testbit (v &~ mask) n = false) as H by (unfold within in Hi; by rewrite Hi, Z.bits_0).
  rewrite Z.ldiff_spec, Hm in H. by rewrite andb_true_r in H.
Qed.

(** *** Writes under a mask *)

Lemma within_land mask v : within mask (v .& mask).
Proof. unfold within. zbits. Qed.

Lemma within_lor mask a b : within mask a -> within mask b -> within mask (a .| b).
Proof.
  unfold within. intros Ha Hb. apply Z.bits_inj'; intros n Hn.
  apply (f_equal (fun z => Z.testbit z n)) in Ha, Hb. revert Ha Hb.
  autorewrite with zbits. destruct (Z.testbit a n), (Z.testbit b n), (Z.testbit mask n); done.
Qed.

Lemma within_insert mask a v : within mask a -> within mask ((a &~ mask) .| (v .& mask)).
Proof. unfold within. intros ->. zbits. Qed.

(** Inserting under a submask stays within the mask. *)
Lemma within_insert_sub mask sub a v :
  within mask a -> within mask sub -> within mask ((a &~ sub) .| (v .& sub)).
Proof.
  unfold within. intros Ha Hs. apply Z.bits_inj'; intros n Hn.
  apply (f_equal (fun z => Z.testbit z n)) in Ha, Hs. revert Ha Hs.
  autorewrite with zbits. destruct (Z.testbit a n), (Z.testbit v n), (Z.testbit sub n), (Z.testbit mask n); done.
Qed.

Lemma mstatus_ok_insert m st v :
  mstatus_ok st -> rng 64 m -> Z.testbit m 11 = false -> Z.testbit m 12 = false ->
  Z.testbit m 32 = false -> Z.testbit m 33 = false ->
  mstatus_ok ((st &~ m) .| (v .& m)).
Proof.
  intros (Hr & Hmpp & Hu1 & Hu0) Hm H11 H12 H32 H33. split_and!; [rng| ..];
    autorewrite with zbits; rewrite ?H11, ?H12, ?H32, ?H33; simpl; autorewrite with zbool; auto.
Qed.

Lemma mstatus_ok_clear m st :
  mstatus_ok st -> Z.testbit m 11 = false -> Z.testbit m 12 = false ->
  Z.testbit m 32 = false -> Z.testbit m 33 = false -> mstatus_ok (st &~ m).
Proof.
  intros (Hr & Hmpp & Hu1 & Hu0) H11 H12 H32 H33. split_and!; [rng| ..];
    autorewrite with zbits; rewrite ?H11, ?H12, ?H32, ?H33; simpl; autorewrite with zbool; auto.
Qed.

Lemma mstatus_ok_set m st :
  mstatus_ok st -> rng 64 m -> Z.testbit m 11 = false -> Z.testbit m 12 = false ->
  Z.testbit m 32 = false -> Z.testbit m 33 = false -> mstatus_ok (st .| m).
Proof.
  intros (Hr & Hmpp & Hu1 & Hu0) Hm H11 H12 H32 H33. split_and!; [rng| ..];
    autorewrite with zbits; rewrite ?H11, ?H12, ?H32, ?H33; simpl; autorewrite with zbool; auto.
Qed.

Lemma mstatus_ok_sel c m st :
  mstatus_ok st -> rng 64 m -> Z.testbit m 11 = false -> Z.testbit m 12 = false ->
  Z.testbit m 32 = false -> Z.testbit m 33 = false -> mstatus_ok (st .| sel c m).
Proof.
  intros. destruct c; simpl; [by apply mstatus_ok_set|]. by rewrite Z.lor_0_r.
Qed.

Create HintDb csr discriminated.
#[export] Hint Resolve mstatus_ok_insert mstatus_ok_clear mstatus_ok_set mstatus_ok_sel
  within_land within_insert : csr.
#[export] Hint Extern 1 (Z.testbit _ _ = _) => reflexivity : csr.
#[export] Hint Extern 1 (rng _ _) => solve [rng] : csr.
#[export] Hint Extern 1 (priv_ok _) => unfold priv_ok; auto : csr.

(** *** The pmpcfg bytes of a write *)

Lemma cfg_byte_le_val bs b :
  Forall (rng 8) bs -> 0 <= b < Z.of_nat (length bs) -> cfg_byte (le_val bs) b = bs !!! Z.to_nat b.
Proof.
  intros Hbs. revert b. induction Hbs as [|x bs Hx Hbs IH]; intros b Hb; [simpl in *; lia|].
  simpl le_val. unfold cfg_byte. destruct (decide (b = 0)) as [->|Hne].
  - rewrite lor_shiftl_add by (done || lia). rewrite Z.mul_0_r, Z.shiftr_0_r. unfold wrap.
    rewrite Z.mod_add by lia. by apply Z.mod_small.
  - replace (Z.to_nat b) with (S (Z.to_nat (b - 1))) by lia. simpl.
    rewrite <- IH by (simpl in *; lia). unfold cfg_byte. f_equal.
    replace (8 * b) with (8 + 8 * (b - 1)) by lia. rewrite <- Z.shiftr_shiftr by lia. f_equal.
    rewrite lor_shiftl_add by (done || lia). rewrite Z.shiftr_div_pow2 by lia.
    rewrite Z.div_add by lia. rewrite Z.div_small by apply Hx. lia.
Qed.

(** The word a pmpcfg write assembles, as a byte string. *)
Definition pmpcfg_bytes (old val : Z) : list Z :=
  (fun b => pmpcfg_byte (cfg_byte old b) (cfg_byte val b)) <$> [0; 1; 2; 3; 4; 5; 6; 7].

Lemma pmpcfg_fold (g : Z -> Z) :
  fold_left (fun out b => out .| (g b .<< (8 * b))) [0; 1; 2; 3; 4; 5; 6; 7] 0 =
  le_val (g <$> [0; 1; 2; 3; 4; 5; 6; 7]).
Proof.
  cbn -[Z.shiftl Z.lor Z.mul]. rewrite Z.lor_0_l, Z.mul_0_r, Z.shiftl_0_r.
  rewrite !Z.shiftl_lor, !Z.shiftl_shiftl, Z.shiftl_0_l by lia. rewrite Z.lor_0_r, !Z.lor_assoc. done.
Qed.

Lemma pmpcfg_byte_rng old val : rng 8 old -> rng 8 val -> rng 8 (pmpcfg_byte old val).
Proof.
  intros. unfold pmpcfg_byte, kPmpL, kPmpR, kPmpW, kPmpAMask, kPmpANapot.
  repeat case_match; rng.
Qed.

Lemma cfg_byte_rng w b : rng 8 (cfg_byte w b).
Proof. unfold cfg_byte. rng. Qed.

Lemma pmpcfg_bytes_rng old val : Forall (rng 8) (pmpcfg_bytes old val).
Proof.
  apply Forall_fmap, Forall_true. intros b. simpl. apply pmpcfg_byte_rng; apply cfg_byte_rng.
Qed.

Lemma pmpcfg_bytes_at old val b :
  0 <= b < 8 -> cfg_byte (le_val (pmpcfg_bytes old val)) b = pmpcfg_byte (cfg_byte old b) (cfg_byte val b).
Proof.
  intros Hb. rewrite cfg_byte_le_val by (apply pmpcfg_bytes_rng || (simpl; lia)).
  assert (b = 0 \/ b = 1 \/ b = 2 \/ b = 3 \/ b = 4 \/ b = 5 \/ b = 6 \/ b = 7) as Hc by lia.
  by destruct Hc as [->|[->|[->|[->|[->|[->|[->| ->]]]]]]].
Qed.

Lemma pmpcfg_byte_legal old val :
  pmpcfg_byte_ok old -> pmpcfg_byte_ok (pmpcfg_byte old val).
Proof.
  intros Hold. unfold pmpcfg_byte. destruct (tst old kPmpL); [done|].
  set (c := if tst val kPmpR then val else val &~ kPmpW).
  assert (Hc : tst c kPmpW = true -> tst c kPmpR = true).
  { unfold c. change kPmpR with (2 ^ 0). change kPmpW with (2 ^ 1).
    destruct (tst val (2 ^ 0)) eqn:E; rewrite ?tst_pow2 in * by lia; [auto|]. by tb. }
  destruct (Z.eqb_spec (c .& kPmpAMask) kPmpANa4) as [E|E]; [|by split].
  split.
  - revert Hc. change kPmpR with (2 ^ 0). change kPmpW with (2 ^ 1).
    rewrite !tst_pow2 by lia. by tb.
  - rewrite field_insert. done.
Qed.

Lemma WritePmpCfg_word {Dev} (s : RiscvState Dev) which val :
  pmpcfg (WritePmpCfg which val s) =
  arr_set (pmpcfg s) which (le_val (pmpcfg_bytes (arr (pmpcfg s) which) val)).
Proof.
  unfold WritePmpCfg, pmpcfg_bytes.
  rewrite (pmpcfg_fold (fun b => pmpcfg_byte (cfg_byte (arr (pmpcfg s) which) b) (cfg_byte val b))).
  reflexivity.
Qed.

Lemma pmpcfg_word_ok old val : pmpcfg_ok old -> pmpcfg_ok (le_val (pmpcfg_bytes old val)).
Proof.
  intros [_ Ho]. split.
  - change 64 with (8 * Z.of_nat (length (pmpcfg_bytes old val))). apply le_val_rng, pmpcfg_bytes_rng.
  - intros b Hb. rewrite pmpcfg_bytes_at by done. by apply pmpcfg_byte_legal, Ho.
Qed.

(** ** Trigger configuration writes *)

Lemma land15_cases x : let n := x .& 15 in 0 <= n < 16.
Proof. cbv zeta. change 15 with (2 ^ 4 - 1). rewrite land_ones_wrap by lia. by apply rng_wrap. Qed.

Definition td1_match (val : Z) : Z :=
  let mt := (val .>> 7) .& 15 in
  if (mt =? kMc6MatchEq) || (mt =? kMc6MatchGe) || (mt =? kMc6MatchLt) then mt .<< 7 else 0.
Definition td1_action (val : Z) : Z :=
  let ac := (val .>> 12) .& 15 in if ac <=? 1 then ac .<< 12 else 0.
Definition td1_chain (idx val : Z) : Z :=
  if (idx <? kTrigCount - 1) || negb (tst val kMc6Chain) then val .& kMc6Chain else 0.

Lemma tdata1_warl_parts idx cur val :
  tdata1_warl idx cur val =
  kTrigTypeMcontrol6 .| (cur .& val .& kMc6Dmode) .| td1_match val .| td1_action val .|
  td1_chain idx val .| (val .& (kMc6Load .| kMc6Store .| kMc6Execute .| kMc6U .| kMc6S .| kMc6M)).
Proof.
  unfold tdata1_warl, td1_match, td1_action, td1_chain.
  repeat case_match; rewrite ?Z.lor_0_r; done.
Qed.

Lemma td1_match_cases val : td1_match val = 0 \/ td1_match val = 2 .<< 7 \/ td1_match val = 3 .<< 7.
Proof.
  unfold td1_match, kMc6MatchEq, kMc6MatchGe, kMc6MatchLt. set (mt := (val .>> 7) .& 15).
  destruct (Z.eqb_spec mt 0) as [->|]; [by left|].
  destruct (Z.eqb_spec mt 2) as [->|]; [by right; left|].
  destruct (Z.eqb_spec mt 3) as [->|]; [by right; right|]. by left.
Qed.

Lemma td1_action_cases val : td1_action val = 0 \/ td1_action val = 1 .<< 12.
Proof.
  unfold td1_action. pose proof (land15_cases (val .>> 12)) as Hac. cbv zeta in *.
  set (ac := (val .>> 12) .& 15) in *. clearbody ac.
  destruct (Z.leb_spec ac 1); [|by left]. assert (ac = 0 \/ ac = 1) as [-> | ->] by lia; auto.
Qed.

Lemma land_pow2_cases x k : 0 <= k -> x .& 2 ^ k = 0 \/ x .& 2 ^ k = 2 ^ k.
Proof. intros. rewrite land_pow2 by done. destruct (Z.testbit x k); auto. Qed.

Lemma td1_chain_cases idx val : td1_chain idx val = 0 \/ td1_chain idx val = kMc6Chain.
Proof. unfold td1_chain. case_match; [|by left]. by apply land_pow2_cases. Qed.

(** The WARL value of any [tdata1] write. *)
Lemma tdata1_warl_ok idx cur val : tdata1_ok (tdata1_warl idx cur val).
Proof.
  rewrite tdata1_warl_parts.
  set (rest := val .& (kMc6Load .| kMc6Store .| kMc6Execute .| kMc6U .| kMc6S .| kMc6M)).
  assert (Hr : rng 7 rest) by (apply rng_land_r; [lia|]; vm_compute; split; [discriminate|reflexivity]).
  apply rng_testbit in Hr as [_ Hr]; [|lia]. unfold tdata1_ok.
  assert (Hsh : rest .>> 60 = 0).
  { apply Z.bits_inj'; intros n Hn. rewrite Z.shiftr_spec, Z.bits_0 by done. apply Hr; lia. }
  rewrite !Z.shiftr_lor, Hsh, Z.lor_0_r. autorewrite with zbits. rewrite !Hr by lia.
  destruct (td1_match_cases val) as [-> |[-> | ->]], (td1_action_cases val) as [-> | ->],
    (td1_chain_cases idx val) as [-> | ->],
    (land_pow2_cases (cur .& val) 59 ltac:(lia)) as [E|E]; unfold kMc6Dmode;
    rewrite <- ?Z.land_spec, ?E; by vm_compute.
Qed.

(** ** Every CSR write preserves the invariant *)

Section preserve.
Context {Dev : Type}.
Implicit Types s : RiscvState Dev.

Definition res_inv (r : csr_res (RiscvState Dev)) : Prop :=
  match r with COk s' => csr_inv s' | CErr => True | COob => True end.

Lemma csr_inv_rng s v : csr_inv s ->
  In v [mie s; mscratch s; mepc s; mcause s; mtval s; mcounteren s;
     scounteren s; mcycle s; minstret s; mcountinhibit s; sscratch s; sepc s; scause s; stval s;
     tcontrol s; scontext s; menvcfg s; senvcfg s; stimecmp s; mnstatus s; ext_irq s] -> rng 64 v.
Proof. intros Hi Hv. eapply Forall_forall; [apply (ci_plain _ Hi)|]. by rewrite list_elem_of_In. Qed.

(** Rebuild the invariant after updating the fields whose component the
    given tactic proves; all others carry over. *)
Ltac inv_step tac :=
  match goal with Hi : csr_inv ?s |- csr_inv _ =>
    let H := fresh "Hold" in pose proof Hi as H; destruct H; constructor; rsimpl;
    first [assumption | tac | idtac]
  end.
Ltac plain :=
  idtac; lazymatch goal with |- Forall _ (_ :: _) => idtac end;
  repeat match goal with H : Forall _ (_ :: _) |- _ => apply Forall_cons in H as [? H] end;
  repeat (apply Forall_cons; split); [solve [assumption | rng].. | constructor].

Lemma mstatus_write_ok val s : rng 64 val -> mstatus_ok (mstatus s) -> mstatus_ok (mstatus (mstatus_write val s)).
Proof.
  intros Hv (Hr & _ & _ & _). unfold mstatus_write. simpl mstatus. set (m := if _ =? _ then _ else _).
  assert (Hm : rng 64 m /\ (Z.testbit m 12 = true -> Z.testbit m 11 = true)).
  { unfold m. destruct (Z.eqb_spec (val .& kMstatusMppMask) (kPrivHypervisor .<< 11)) as [E|E].
    - split; [rng|]. by tb.
    - split; [done|]. intros H12. destruct (Z.testbit val 11) eqn:H11; [done|]. destruct E.
      apply Z.bits_inj'; intros n Hn. rewrite Z.land_spec.
      destruct (decide (n = 11)) as [-> |]; [by rewrite H11|].
      destruct (decide (n = 12)) as [-> |]; [by rewrite H12|].
      change kMstatusMppMask with (2 ^ 11 .| 2 ^ 12). change (kPrivHypervisor .<< 11) with (2 ^ 12).
      rewrite Z.lor_spec, !Z.pow2_bits_false by lia. apply andb_false_r. }
  destruct Hm as [Hm Hmpp]. split_and!.
  - rng.
  - tb. done.
  - by tb.
  - by tb.
Qed.

Lemma misa_write_ok val next_pc s : misa_ok (misa (misa_write val next_pc s)).
Proof.
  unfold misa_write, misa_ok. simpl misa. split.
  - case_match; repeat apply within_lor; by first [apply within_land | vm_compute].
  - case_match; by tb.
Qed.

Lemma satp_write_ok val s : rng 64 val -> csr_inv s -> res_inv (satp_write val s).
Proof.
  intros Hv Hi. unfold satp_write. case_match; [done|].
  destruct (negb _ && negb _ && negb _) eqn:E; simpl; [done|]. inv_step idtac.
  assert (Hmode : (val .>> 60) .& 15 = 0 \/ (val .>> 60) .& 15 = 8 \/ (val .>> 60) .& 15 = 9).
  { unfold kSatpModeBare, kSatpModeSv39, kSatpModeSv48 in E.
    destruct (Z.eqb_spec ((val .>> 60) .& 15) 0), (Z.eqb_spec ((val .>> 60) .& 15) 8),
      (Z.eqb_spec ((val .>> 60) .& 15) 9); simpl in E; auto; done. }
  assert (Hb : forall k, 0 <= k < 4 -> Z.testbit val (60 + k) = Z.testbit ((val .>> 60) .& 15) k).
  { intros k Hk. rewrite Z.land_spec, Z.shiftr_spec by lia. change 15 with (Z.ones 4).
    rewrite Z.ones_spec_low by lia. rewrite andb_true_r. f_equal; lia. }
  set (md := (val .>> 60) .& 15) in *.
  assert (Z.testbit val 60 = Z.testbit md 0) as H0 by (apply (Hb 0); lia).
  assert (Z.testbit val 61 = Z.testbit md 1) as H1 by (apply (Hb 1); lia).
  assert (Z.testbit val 62 = Z.testbit md 2) as H2 by (apply (Hb 2); lia).
  assert (Z.testbit val 63 = Z.testbit md 3) as H3 by (apply (Hb 3); lia).
  clearbody md. split_and!; [rng| ..]; tb; rewrite ?H0, ?H1, ?H2, ?H3;
    destruct Hmode as [-> |[-> | ->]]; done.
Qed.

Lemma tvec_write_ok v : rng 64 v -> tvec_ok (v &~ 2).
Proof. split; [rng|by tb]. Qed.

Lemma arr_set_ok (P : Z -> Prop) (l : list Z) n i x :
  length l = n /\ Forall P l -> P x -> length (arr_set l i x) = n /\ Forall P (arr_set l i x).
Proof. intros [? ?] ?. rewrite length_arr_set. split; [done|]. by apply Forall_arr_set. Qed.

Lemma tselect_write_ok v : rng 64 v -> 0 <= (if v <? kTrigCount then v else kTrigCount - 1) < kTrigCount.
Proof. unfold rng, kTrigCount. intros. destruct (Z.ltb_spec v 2); lia. Qed.

Ltac csr_field :=
  idtac; lazymatch goal with
  | |- Forall _ (_ :: _) => plain
  | |- priv_ok _ => unfold priv_ok; auto
  | |- mstatus_ok (Z.lor (Z.ldiff _ _) (Z.land _ _)) =>
      apply mstatus_ok_insert; [assumption|rng|reflexivity..]
  | |- tvec_ok _ => apply tvec_write_ok; assumption
  | |- within ?m (Z.land _ ?m) => apply within_land
  | |- within _ _ => apply within_insert_sub; [assumption|vm_compute; reflexivity]
  | |- 0 <= _ < kTrigCount => apply tselect_write_ok; assumption
  | |- length _ = _ /\ Forall tdata1_ok _ => apply arr_set_ok; [assumption|apply tdata1_warl_ok]
  | |- length _ = _ /\ Forall _ _ => apply arr_set_ok; [assumption|rng]
  | |- rng _ _ => rng
  end.
Ltac inv_csr := solve [inv_step csr_field].

Lemma WritePmpCfg_inv which val s : csr_inv s -> 0 <= which < 2 -> csr_inv (WritePmpCfg which val s).
Proof.
  intros Hi Hw. destruct Hi. constructor; try assumption.
  rewrite WritePmpCfg_word. destruct ci_pmpcfg0. apply arr_set_ok; [done|].
  apply pmpcfg_word_ok, Forall_arr; [done|lia].
Qed.

Lemma WritePmpAddr_inv i val s : csr_inv s -> csr_inv (WritePmpAddr i val s).
Proof.
  intros Hi. unfold WritePmpAddr. case_match; [done|]. case_match; [done|].
  inv_step ltac:(apply arr_set_ok; [assumption|]; apply rng_land_ones; unfold kPmpAddrBits; lia).
Qed.

Lemma mstatus_write_inv val s : csr_inv s -> rng 64 val -> csr_inv (mstatus_write val s).
Proof.
  intros Hi Hv. pose proof (mstatus_write_ok val s Hv (ci_mstatus _ Hi)).
  destruct Hi; constructor; assumption.
Qed.

Lemma misa_write_inv val next_pc s : csr_inv s -> csr_inv (misa_write val next_pc s).
Proof.
  intros Hi. pose proof (misa_write_ok val next_pc s). destruct Hi; constructor; assumption.
Qed.

Lemma csr_write_plain_inv s addr val next_pc :
  csr_inv s -> rng 64 val -> res_inv (csr_write_plain s addr val next_pc).
Proof.
  intros Hi Hv. unfold csr_write_plain. apply switch_ind.
  - repeat apply Forall_cons_2; try apply Forall_nil_2; intros _; cbn [fst snd res_inv];
      try (unfold trig_write; case_match; [cbn [res_inv]|exact I]);
      unfold RiscvTriggerWriteTdata1, RiscvTriggerWriteTdata3;
      first [by apply satp_write_ok | by apply mstatus_write_inv | by apply misa_write_inv | inv_csr].
  - case_match; [cbn [res_inv]; inv_csr|]. case_match; [cbn [res_inv]; inv_csr|]. case_match.
    + destruct (Z.ltb_spec ((addr - 928) / 2) 2); [|exact I]. cbn [res_inv].
      apply WritePmpCfg_inv; [done|]. split; [|done]. apply Z.div_pos; [|lia].
      repeat match goal with H : _ && _ = true |- _ => apply andb_true_iff in H as [H ?] end. lia.
    + case_match; [|exact I]. by apply WritePmpAddr_inv.
Qed.

Lemma riscv_csr_write_inv s addr val next_pc s' :
  csr_inv s -> rng 64 val -> riscv_csr_write s addr val next_pc = COk s' -> csr_inv s'.
Proof.
  intros Hi Hv. unfold riscv_csr_write. pose proof (csr_write_plain_inv s addr val next_pc Hi Hv) as H.
  destruct (priv s <? _); [done|]. destruct (addr =? 0xB00); [intros [= <-]; inv_csr|].
  destruct (addr =? 0xB02); [intros [= <-]; inv_csr|]. intros E. by rewrite E in H.
Qed.

(** ** Traps and returns preserve it *)

Lemma priv_ok_cases p : priv_ok p -> p = 0 \/ p = 1 \/ p = 3.
Proof. done. Qed.

Lemma riscv_trap_inv cpu_pc cause tval s :
  csr_inv s -> rng 64 cpu_pc -> rng 64 cause -> rng 64 tval ->
  csr_inv (riscv_trap cpu_pc cause tval s).2.
Proof.
  intros Hi Hp Hc Ht. unfold riscv_trap. case_match; cbn [snd].
  - inv_step ltac:(first [csr_field | idtac]).
    repeat first [apply mstatus_ok_sel; [|rng|reflexivity..] | apply mstatus_ok_clear; [|reflexivity..]]; done.
  - inv_step ltac:(first [csr_field | idtac]).
    set (st := ((_ &~ _) .| _) &~ kMstatusMie).
    assert (Hst : mstatus_ok st).
    { unfold st. repeat first [apply mstatus_ok_sel; [|rng|reflexivity..] | apply mstatus_ok_clear; [|reflexivity..]]; done. }
    destruct Hst as (Hr & _ & Hu1 & Hu0). clearbody st.
    destruct (priv_ok_cases _ ci_priv0) as [-> |[-> | ->]]; (split_and!; [rng|by tb..]).
Qed.

Lemma mpp_field st : (st .& kMstatusMppMask) .>> 11 = (st .>> 11) .& 3.
Proof. by rewrite Z.shiftr_land. Qed.

(** MPP as read by [mret] and by the MPRV rule is an implemented mode. *)
Lemma mpp_ok st : (Z.testbit st 12 = true -> Z.testbit st 11 = true) ->
  priv_ok ((st .& kMstatusMppMask) .>> 11).
Proof.
  intros Hm. rewrite mpp_field. set (x := (st .>> 11) .& 3).
  assert (Hx : rng 2 x) by (unfold x; rng).
  assert (H0 : Z.testbit x 0 = Z.testbit st 11) by (unfold x; tb; by rewrite Z.shiftr_spec).
  assert (H1 : Z.testbit x 1 = Z.testbit st 12) by (unfold x; tb; by rewrite Z.shiftr_spec).
  clearbody x. unfold rng in Hx. unfold priv_ok, kPrivUser, kPrivSupervisor, kPrivMachine.
  assert (x = 0 \/ x = 1 \/ x = 2 \/ x = 3) as [-> |[-> |[-> | ->]]] by lia; auto.
  rewrite <- H0, <- H1 in Hm. by specialize (Hm eq_refl).
Qed.

Lemma riscv_mret_inv s : csr_inv s -> csr_inv (riscv_mret s).2.
Proof.
  intros Hi. unfold riscv_mret; cbn [snd].
  set (st := ((mstatus s &~ kMstatusMie) .| _) .| kMstatusMpie).
  assert (Hst : mstatus_ok st).
  { unfold st. repeat first [apply mstatus_ok_set; [|rng|reflexivity..] |
      apply mstatus_ok_sel; [|rng|reflexivity..] | apply mstatus_ok_clear; [|reflexivity..]]. apply Hi. }
  clearbody st. pose proof (mpp_ok st ltac:(apply Hst)) as Hp.
  inv_step idtac.
  - destruct (priv_ok_cases _ Hp) as [-> |[-> | ->]]; vm_compute; auto.
  - destruct Hst as (Hr & Hm & Hu1 & Hu0). case_match; (split_and!; [rng|by tb..]).
Qed.

Lemma riscv_sret_inv s : csr_inv s -> csr_inv (riscv_sret s).2.
Proof.
  intros Hi. unfold riscv_sret; cbn [snd]. inv_step idtac.
  - case_match; unfold priv_ok; auto.
  - repeat first [apply mstatus_ok_set; [|rng|reflexivity..] |
      apply mstatus_ok_sel; [|rng|reflexivity..] | apply mstatus_ok_clear; [|reflexivity..]]. done.
Qed.

Lemma riscv_set_ext_irq_inv bit level s : csr_inv s -> rng 64 bit -> csr_inv (riscv_set_ext_irq bit level s).
Proof. intros Hi Hb. unfold riscv_set_ext_irq. case_match; inv_csr. Qed.

Lemma riscv_init_inv : csr_inv (riscv_init : RiscvState Dev).
Proof.
  assert (Hcfg : pmpcfg_ok 0).
  { split; [rng|]. intros b Hb. unfold cfg_byte. rewrite Z.shiftr_0_l. by split. }
  assert (Htd : tdata1_ok kTrigTypeMcontrol6) by (by vm_compute).
  assert (H0 : rng 64 0) by rng. assert (H54 : rng 54 0) by rng.
  assert (Hsc : rng 64 (2 ^ 64 - 1)) by (unfold rng; lia).
  constructor; unfold riscv_init; rsimpl; unfold riscv_zero; rsimpl;
    lazymatch goal with
    | |- priv_ok _ => unfold priv_ok; auto
    | |- length _ = _ /\ _ => split; [done|]; cbn [replicate]; by repeat (apply Forall_cons; split)
    | |- Forall _ _ => by repeat (apply Forall_cons; split)
    | |- _ => by vm_compute
    end.
Qed.

(** *** Accesses outside the struct *)

(** pmpcfg4..pmpcfg14: the array has two words. *)
Definition pmpcfg_beyond (addr : Z) : Prop := 0x3A4 <= addr <= 0x3AE /\ addr .& 1 = 0.

Lemma land1_mod x : x .& 1 = x mod 2.
Proof. change 1 with (2 ^ 1 - 1) at 1. by rewrite land_ones_wrap. Qed.

Lemma pmpcfg_beyond_cases addr : pmpcfg_beyond addr -> In addr [0x3A4; 0x3A6; 0x3A8; 0x3AA; 0x3AC; 0x3AE].
Proof. intros [Hr He]. rewrite land1_mod in He. cbn [In]. Z.div_mod_to_equations. lia. Qed.

Lemma pmp_word_oob {A} (x : csr_res A) addr :
  x <> COob -> (0x3A0 <=? addr) && (addr <=? 0x3AE) && (addr .& 1 =? 0) = true ->
  (if (addr - 0x3A0) / 2 <? 2 then x else COob) = COob -> pmpcfg_beyond addr.
Proof.
  intros Hx Hc. apply andb_true_iff in Hc as [[H1%Z.leb_le H2%Z.leb_le]%andb_true_iff H3%Z.eqb_eq].
  destruct (Z.ltb_spec ((addr - 0x3A0) / 2) 2) as [|Hge]; [done|]. intros _. split; [|done].
  Z.div_mod_to_equations. lia.
Qed.

(** Split on the outermost condition. *)
Ltac if_case := match goal with |- (if ?c then _ else _) = _ -> _ => destruct c eqn:? end.

Lemma csr_write_plain_oob s addr val next_pc :
  csr_inv s -> csr_write_plain s addr val next_pc = COob -> pmpcfg_beyond addr.
Proof.
  intros Hi. unfold csr_write_plain. apply (switch_ind (fun r => r = COob -> pmpcfg_beyond addr)).
  - repeat apply Forall_cons_2; try apply Forall_nil_2; cbn [fst snd]; intros _ E; try discriminate E;
      revert E; unfold satp_write, trig_write; repeat case_match; try discriminate;
      pose proof (ci_tselect _ Hi); lia.
  - if_case; [done|]. if_case; [done|]. if_case; [by apply pmp_word_oob|]. by if_case.
Qed.

Lemma csr_read_plain_oob s addr : csr_inv s -> csr_read_plain s addr = COob -> pmpcfg_beyond addr.
Proof.
  intros Hi. unfold csr_read_plain. apply (switch_ind (fun r => r = COob -> pmpcfg_beyond addr)).
  - repeat apply Forall_cons_2; try apply Forall_nil_2; cbn [fst snd]; intros _ E; try discriminate E;
      revert E; unfold trig_read; repeat case_match; try discriminate;
      pose proof (ci_tselect _ Hi); lia.
  - if_case; [done|]. if_case; [done|]. if_case; [by apply pmp_word_oob|]. by if_case.
Qed.

Lemma beyond_access addr : pmpcfg_beyond addr ->
  CsrPriv addr = kPrivMachine /\ (forall s v np, csr_write_plain s addr v np = COob) /\
  (forall s, csr_read_plain s addr = COob) /\ addr <> 0xB00 /\ addr <> 0xB02 /\
  forall {W} (t : option (W -> Z * W)) s w, ReadCounter t s addr w = (None, w).
Proof.
  intros Hb%pmpcfg_beyond_cases. cbn [In] in Hb.
  repeat (destruct Hb as [<-|Hb]; [split_and!; try done; intros; unfold ReadCounter, counter_denied; by case_match|]).
  destruct Hb.
Qed.

Lemma priv_machine s addr : csr_inv s -> CsrPriv addr = kPrivMachine -> (priv s <? CsrPriv addr) = false -> priv s = kPrivMachine.
Proof. intros Hi -> Hp%Z.ltb_ge. pose proof (ci_priv _ Hi). unfold priv_ok, kPrivMachine, kPrivSupervisor, kPrivUser in *. lia. Qed.

(** A CSR write that leaves the struct is one of pmpcfg4..pmpcfg14 in M mode. *)
Lemma csr_write_oob s addr val next_pc : csr_inv s -> riscv_csr_write s addr val next_pc = COob ->
  priv s = kPrivMachine /\ pmpcfg_beyond addr.
Proof.
  intros Hi. unfold riscv_csr_write. destruct (priv s <? _) eqn:Hp; [done|]. destruct (addr =? 0xB00); [done|].
  destruct (addr =? 0xB02); [done|]. intros Hb%csr_write_plain_oob; [|done]. split; [|done].
  eapply priv_machine; [done| |done]. by apply beyond_access.
Qed.

(** *** Histories of the CSR file *)

(** Everything that changes the CSR file: CSR instructions, traps, returns,
    interrupt lines.  [cs_write] is a write the register file accepts. *)
Inductive csr_step : RiscvState Dev -> RiscvState Dev -> Prop :=
| cs_write s addr val next_pc s' :
    rng 64 val -> riscv_csr_write s addr val next_pc = COk s' -> csr_step s s'
| cs_trap s cpu_pc cause tval :
    rng 64 cpu_pc -> rng 64 cause -> rng 64 tval -> csr_step s (riscv_trap cpu_pc cause tval s).2
| cs_interrupt s cpu_pc p s' :
    rng 64 cpu_pc -> riscv_deliver_interrupt cpu_pc s = Some (p, s') -> csr_step s s'
| cs_mret s : csr_step s (riscv_mret s).2
| cs_sret s : csr_step s (riscv_sret s).2
| cs_irq s line level : rng 64 line -> csr_step s (riscv_set_ext_irq line level s).

Lemma deliver_scan_In order pending s id : deliver_scan order pending s = Some id -> In id order.
Proof.
  induction order as [|x order IH]; simpl; [done|]. repeat case_match; intros Hs; auto. simplify_eq; auto.
Qed.

Lemma int_cause_rng id : In id kOrder -> rng 64 (kIntBit .| id).
Proof. unfold kOrder. intros [<-|[<-|[<-|[<-|[<-|[<-|[]]]]]]]; vm_compute; split; (discriminate || reflexivity). Qed.

Lemma csr_step_inv s s' : csr_step s s' -> csr_inv s -> csr_inv s'.
Proof.
  intros Hst Hi. destruct Hst as [s addr val np s' Hv E|s p c t ? ? ?|s p q s' Hp E|s|s|s line level Hl].
  - by eapply riscv_csr_write_inv.
  - by apply riscv_trap_inv.
  - unfold riscv_deliver_interrupt in E. case_match; [done|].
    destruct (deliver_scan _ _ _) as [id|] eqn:Es; [|done]. injection E as E.
    apply deliver_scan_In, int_cause_rng in Es. pose proof (riscv_trap_inv p (kIntBit .| id) 0 s) as Ht.
    rewrite E in Ht. apply Ht; try done; rng.
  - by apply riscv_mret_inv.
  - by apply riscv_sret_inv.
  - by apply riscv_set_ext_irq_inv.
Qed.

(** What can happen to the CSR file, a CSR write whatever its outcome. *)
Inductive csr_event :=
| EvWrite (addr val next_pc : Z) | EvTrap (cpu_pc cause tval : Z) | EvInterrupt (cpu_pc : Z)
| EvMret | EvSret | EvLine (line : Z) (level : bool).

(** Operands are 64-bit values. *)
Definition event_ok (e : csr_event) : Prop :=
  match e with
  | EvWrite _ val _ => rng 64 val
  | EvTrap cpu_pc cause tval => rng 64 cpu_pc /\ rng 64 cause /\ rng 64 tval
  | EvInterrupt cpu_pc => rng 64 cpu_pc
  | EvMret | EvSret => True
  | EvLine line _ => rng 64 line
  end.

(** The state after an event; [None] when it stores outside the struct.  A
    refused write changes nothing. *)
Definition csr_event_do (e : csr_event) (s : RiscvState Dev) : option (RiscvState Dev) :=
  match e with
  | EvWrite addr val next_pc =>
      match riscv_csr_write s addr val next_pc with COk s' => Some s' | CErr => Some s | COob => None end
  | EvTrap cpu_pc cause tval => Some (riscv_trap cpu_pc cause tval s).2
  | EvInterrupt cpu_pc => Some (match riscv_deliver_interrupt cpu_pc s with Some (_, s') => s' | None => s end)
  | EvMret => Some (riscv_mret s).2
  | EvSret => Some (riscv_sret s).2
  | EvLine line level => Some (riscv_set_ext_irq line level s)
  end.

Fixpoint csr_history (es : list csr_event) (s : RiscvState Dev) : option (RiscvState Dev) :=
  match es with [] => Some s | e :: es => match csr_event_do e s with Some s' => csr_history es s' | None => None end end.

Lemma event_step e s s' : event_ok e -> csr_event_do e s = Some s' -> s' = s \/ csr_step s s'.
Proof.
  intros He. destruct e as [addr val np|p c t|p| | |line level]; cbn [csr_event_do].
  - destruct (riscv_csr_write s addr val np) as [s1| |] eqn:E; intros [= <-]; [right; by eapply cs_write|by left].
  - intros [= <-]. right. destruct He as (? & ? & ?). by constructor.
  - destruct (riscv_deliver_interrupt p s) as [[q s1]|] eqn:E; intros [= <-]; [right; by eapply cs_interrupt|by left].
  - intros [= <-]. right. constructor.
  - intros [= <-]. right. constructor.
  - intros [= <-]. right. by constructor.
Qed.

(** An event that stores outside the struct. *)
Definition event_outside (e : csr_event) (s : RiscvState Dev) : Prop :=
  match e with EvWrite addr _ _ => priv s = kPrivMachine /\ pmpcfg_beyond addr | _ => False end.

Lemma event_oob e s : csr_inv s -> csr_event_do e s = None -> event_outside e s.
Proof.
  intros Hi. destruct e as [addr val np|p c t|p| | |line level]; cbn [csr_event_do]; try done.
  destruct (riscv_csr_write s addr val np) eqn:E; try done. intros _. by eapply csr_write_oob.
Qed.

(** A history runs through to its end, or up to a first event that stores
    outside the struct. *)
Lemma history_cases es s : csr_inv s -> Forall event_ok es ->
  (exists s', csr_history es s = Some s' /\ rtc csr_step s s') \/
  (exists es1 e es2 s1, es = es1 ++ e :: es2 /\ csr_history es s = None /\ csr_history es1 s = Some s1 /\ rtc csr_step s s1 /\ event_outside e s1).
Proof.
  intros Hi Hes. revert s Hi. induction Hes as [|e es He Hes IH]; intros s Hi; [left; exists s; split; [done|apply rtc_refl]|].
  cbn [csr_history]. destruct (csr_event_do e s) as [s1|] eqn:E.
  - assert (Hr : rtc csr_step s s1) by (destruct (event_step e s s1 He E) as [->|Hst]; [apply rtc_refl|by apply rtc_once]).
    assert (Hi1 : csr_inv s1) by (destruct (event_step e s s1 He E) as [->|Hst]; [done|by eapply csr_step_inv]).
    destruct (IH s1 Hi1) as [(s' & E1 & R1)|(es1 & e1 & es2 & s2 & -> & E1 & E2 & R2 & O)].
    + left. exists s'. split; [done|]. by etrans.
    + right. exists (e :: es1), e1, es2, s2. cbn [app csr_history]. rewrite E. split_and!; try done. by etrans.
  - right. exists [], e, es, s. split_and!; try done. by apply event_oob.
Qed.

Lemma csr_steps_inv s s' : rtc csr_step s s' -> csr_inv s -> csr_inv s'.
Proof. induction 1 as [|s0 s1 s Hs _ IH]; [done|]. intros Hi. apply IH. by eapply csr_step_inv. Qed.

(** C21: whatever sequence of CSR writes, traps, interrupt deliveries, mret, sret and line changes
    runs from reset, it either ends in a state that satisfies the WARL invariant (implemented
    privilege modes in priv and MPP, UXL fixed, legal satp modes, masked delegation and pending
    registers, canonical trigger and PMP configuration, every register within its width) or contains
    an M-mode write to pmpcfg4 to pmpcfg14, reached in a state that satisfies it; that write leaves
    the configuration array, and nothing is claimed after it. *)
Theorem csr_reachable_inv es : Forall event_ok es ->
  match csr_history es riscv_init with
  | Some s => csr_inv s
  | None => exists es1 addr val next_pc es2 s1, es = es1 ++ EvWrite addr val next_pc :: es2 /\
      csr_history es1 riscv_init = Some s1 /\ csr_inv s1 /\ priv s1 = kPrivMachine /\ pmpcfg_beyond addr
  end.
Proof.
  intros Hes. pose proof riscv_init_inv as Hi. destruct (history_cases es riscv_init Hi Hes) as [(s & -> & R)|(es1 & e & es2 & s1 & -> & -> & E1 & R & O)].
  - by eapply csr_steps_inv.
  - destruct e as [addr val np|p c t|p| | |line level]; try done. destruct O. exists es1, addr, val, np, es2, s1. split_and!; try done.
    by eapply csr_steps_inv.
Qed.
End preserve.
