(* ===== verification/RvTrapProps.v ===== *)
(** * Privilege, protection and trap properties of the CSR file

    What a CSR write may change at each privilege level, PMP locking, trap
    entry and xRET as inverses, and interrupt selection. *)

From S2P Require Import Prelude Bus Ram RvState RvCsr RvCsrProps.

Section privilege.
Context {Dev : Type}.
Implicit Types s : RiscvState Dev.

(** ** Who may write what *)

(** The machine-level part of the state. *)
Definition m_view s :=
  ([misa s; mstatus s &~ kSstatusWmask; mie s &~ kIrqSLevelMask; mip s &~ kIrqSsip; mtvec s; mscratch s;
    mepc s; mcause s; mtval s; medeleg s; mideleg s; mcounteren s; mcycle s; minstret s;
    mcountinhibit s; tselect s; tcontrol s; menvcfg s; mnstatus s; priv s; ext_irq s],
   [tdata1 s; tdata2 s; tdata3 s; mhpmcounter s; mhpmevent s; pmpcfg s; pmpaddr s]).

(** The outcome of a write keeps a view of the state. *)
Definition res_keeps {A} (view : RiscvState Dev -> A) s (r : csr_res (RiscvState Dev)) : Prop :=
  match r with COk s' => view s' = view s | CErr => True | COob => True end.

Lemma CsrPriv_block addr hi : hi .<< 8 <= addr -> addr < (hi + 1) .<< 8 -> CsrPriv addr = hi .& 3.
Proof.
  unfold CsrPriv. rewrite Z.shiftr_div_pow2, !Z.shiftl_mul_pow2 by lia. intros.
  f_equal. symmetry. apply Z.div_unique with (addr - hi * 2 ^ 8); lia.
Qed.

Lemma insert_clear a v m : ((a &~ m) .| (v .& m)) &~ m = a &~ m.
Proof. zbits. Qed.

Lemma csr_write_plain_confined s addr val next_pc :
  CsrPriv addr <= kPrivSupervisor -> res_keeps m_view s (csr_write_plain s addr val next_pc).
Proof.
  intros Hp. unfold csr_write_plain. apply switch_ind.
  - repeat apply Forall_cons_2; try apply Forall_nil_2; cbn [fst snd]; intros ->;
      try (exfalso; revert Hp; vm_compute; intuition congruence); unfold satp_write; repeat case_match;
      cbn [res_keeps]; try exact I; unfold m_view; rsimpl; rewrite ?insert_clear; reflexivity.
  - assert (forall hi, hi .<< 8 <= addr -> addr < (hi + 1) .<< 8 -> hi .& 3 = 3 -> False) as Hno.
    { intros hi H1 H2 H3. rewrite (CsrPriv_block _ _ H1 H2), H3 in Hp. unfold kPrivSupervisor in Hp. lia. }
    pose proof (Hno 0xB) as HB. pose proof (Hno 3) as H3.
    change (0xB .<< 8) with 0xB00 in HB. change ((0xB + 1) .<< 8) with 0xC00 in HB.
    change (3 .<< 8) with 0x300 in H3. change ((3 + 1) .<< 8) with 0x400 in H3. unfold kMhpmCount.
    repeat match goal with |- res_keeps _ _ (if ?b then _ else _) =>
      let E := fresh in destruct b eqn:E; [exfalso; rewrite ?andb_true_iff in E; first [apply HB; (done || lia) | apply H3; (done || lia)]|] end.
    exact I.
Qed.

(** C19: a CSR write that succeeds in supervisor or user mode leaves every machine-level register
    unchanged: the machine view (M-mode status bits, machine trap and counter registers, delegation,
    PMP, triggers' M-owned state, interrupt enables and pendings outside the S-level mask) is the
    same before and after. *)
Theorem csr_write_confined s addr val next_pc s' :
  priv s <= kPrivSupervisor -> riscv_csr_write s addr val next_pc = COk s' ->
  m_view s' = m_view s.
Proof.
  intros Hp. unfold riscv_csr_write. destruct (Z.ltb_spec (priv s) (CsrPriv addr)) as [|Hle]; [done|].
  unfold kPrivSupervisor in Hp.
  destruct (Z.eqb_spec addr 0xB00) as [->|]; [change (CsrPriv 0xB00) with 3 in Hle; lia|].
  destruct (Z.eqb_spec addr 0xB02) as [->|]; [change (CsrPriv 0xB02) with 3 in Hle; lia|].
  intros E. pose proof (csr_write_plain_confined s addr val next_pc) as H. rewrite E in H.
  apply H. unfold kPrivSupervisor. lia.
Qed.

(** ** PMP locking *)

(** Entry [i] still guards what it guarded: its configuration, its address,
    and the address below it when it is the top of a range. *)
Definition pmp_frozen (i : Z) s s' : Prop :=
  pmp_cfg_of s' i = pmp_cfg_of s i /\ arr (pmpaddr s') i = arr (pmpaddr s) i /\
  (pmp_cfg_of s i .& kPmpAMask = kPmpATor -> 0 < i -> arr (pmpaddr s') (i - 1) = arr (pmpaddr s) (i - 1)).

Lemma pmp_frozen_view i s s' : (pmpcfg s', pmpaddr s') = (pmpcfg s, pmpaddr s) -> pmp_frozen i s s'.
Proof. intros [= E1 E2]. unfold pmp_frozen, pmp_cfg_of. by rewrite E1, E2. Qed.

Lemma WritePmpCfg_frozen s which val i :
  0 <= i < kPmpCount -> 0 <= which < 2 -> length (pmpcfg s) = 2%nat ->
  tst (pmp_cfg_of s i) kPmpL = true -> pmp_frozen i s (WritePmpCfg which val s).
Proof.
  intros Hi Hw Hl HL. split; [|done]. unfold pmp_cfg_of in *. rewrite WritePmpCfg_word.
  assert (0 <= i / 8 < 2) by (unfold kPmpCount in *; split; [apply Z.div_pos|apply Z.div_lt_upper_bound]; lia). assert (0 <= i mod 8 < 8) by (apply Z.mod_pos_bound; lia).
  destruct (Z.eq_dec which (i / 8)) as [->|Hne].
  - rewrite arr_set_eq by lia. rewrite pmpcfg_bytes_at by done. unfold pmpcfg_byte. by rewrite HL.
  - by rewrite arr_set_ne by lia.
Qed.

Lemma WritePmpAddr_frozen s j val i :
  0 <= i < kPmpCount -> 0 <= j -> tst (pmp_cfg_of s i) kPmpL = true ->
  pmp_frozen i s (WritePmpAddr j val s).
Proof.
  intros Hi Hj HL. unfold WritePmpAddr. destruct (Z.leb_spec kPmpCount j); [by apply pmp_frozen_view|].
  destruct (tst (pmp_cfg_of s j) kPmpL) eqn:Ej; cbn [orb]; [by apply pmp_frozen_view|].
  destruct (Z.eq_dec i (j + 1)) as [->|Hne].
  - destruct (Z.ltb_spec (j + 1) kPmpCount) as [_|]; [|lia]. rewrite HL. cbn [andb].
    destruct (Z.eqb_spec (pmp_cfg_of s (j + 1) .& kPmpAMask) kPmpATor) as [E|E]; [by apply pmp_frozen_view|].
    split_and!; [done| |done]. rsimpl. apply arr_set_ne; lia.
  - assert (i <> j) by (intros ->; congruence).
    case_match; [by apply pmp_frozen_view|]. split_and!; [done| |intros _ ?]; rsimpl; apply arr_set_ne; lia.
Qed.

Lemma csr_write_plain_frozen s addr val next_pc i :
  csr_inv s -> 0 <= i < kPmpCount -> tst (pmp_cfg_of s i) kPmpL = true ->
  forall s', csr_write_plain s addr val next_pc = COk s' -> pmp_frozen i s s'.
Proof.
  intros Hinv Hi HL. unfold csr_write_plain. apply switch_ind.
  - repeat apply Forall_cons_2; try apply Forall_nil_2; cbn [fst snd]; intros _ s';
      unfold satp_write, trig_write; repeat case_match; intros [= <-]; by apply pmp_frozen_view.
  - intros s'.
    destruct (_ && _); [intros [= <-]; by apply pmp_frozen_view|].
    destruct (_ && _); [intros [= <-]; by apply pmp_frozen_view|].
    destruct ((0x3A0 <=? addr) && _ && _) eqn:E.
    + destruct (Z.ltb_spec ((addr - 928) / 2) 2); intros [= <-].
      rewrite !andb_true_iff in E. apply WritePmpCfg_frozen; try done; [|apply Hinv].
      split; [apply Z.div_pos|]; lia.
    + destruct ((0x3B0 <=? addr) && _) eqn:E2; intros [= <-].
      rewrite !andb_true_iff in E2. apply WritePmpAddr_frozen; (done || lia).
Qed.

Lemma csr_step_frozen s s' i :
  csr_inv s -> 0 <= i < kPmpCount -> tst (pmp_cfg_of s i) kPmpL = true ->
  csr_step s s' -> pmp_frozen i s s'.
Proof.
  intros Hinv Hi HL Hs.
  destruct Hs as [s addr val np s' Hv E|s p c t ? ? ?|s p q s' Hp E|s|s|s line level Hl].
  - unfold riscv_csr_write in E.
    destruct (_ <? _); [done|]. destruct (_ =? _); [simplify_eq; by apply pmp_frozen_view|].
    destruct (_ =? _); [simplify_eq; by apply pmp_frozen_view|]. by eapply csr_write_plain_frozen.
  - apply pmp_frozen_view. unfold riscv_trap. by case_match.
  - unfold riscv_deliver_interrupt in E. case_match; [done|]. case_match; [|done].
    injection E as E. unfold riscv_trap in E. case_match; simplify_eq; by apply pmp_frozen_view.
  - by apply pmp_frozen_view.
  - by apply pmp_frozen_view.
  - apply pmp_frozen_view. unfold riscv_set_ext_irq. by case_match.
Qed.

Lemma steps_frozen s s' i : csr_inv s -> 0 <= i < kPmpCount -> tst (pmp_cfg_of s i) kPmpL = true ->
  rtc csr_step s s' -> pmp_frozen i s s'.
Proof.
  intros Hinv Hi HL Hr. induction Hr as [|s s1 s' Hs Hr IH]; [by apply pmp_frozen_view|].
  pose proof (csr_step_frozen _ _ _ Hinv Hi HL Hs) as (Hc & Ha & Ht).
  destruct IH as (Hc' & Ha' & Ht'); [by eapply csr_step_inv|by rewrite Hc|].
  split_and!; [congruence..|]. intros HT Hp. rewrite Ht' by (congruence || done). by apply Ht.
Qed.

(** C20: a locked PMP entry is permanent: whatever sequence of CSR writes, traps, interrupts,
    returns and line changes follows, its configuration byte and address stay, and so does the
    address of its predecessor when the entry is TOR, unless the sequence contains an M-mode write
    to pmpcfg4 to pmpcfg14, which leaves the configuration array (and in C lands in the addresses
    behind it); up to that write the entry is unchanged. *)
Theorem pmp_lock_permanent es s i :
  csr_inv s -> 0 <= i < kPmpCount -> tst (pmp_cfg_of s i) kPmpL = true -> Forall event_ok es ->
  match csr_history es s with
  | Some s' => pmp_frozen i s s'
  | None => exists es1 addr val next_pc es2 s1, es = es1 ++ EvWrite addr val next_pc :: es2 /\
      csr_history es1 s = Some s1 /\ pmp_frozen i s s1 /\ priv s1 = kPrivMachine /\ pmpcfg_beyond addr
  end.
Proof.
  intros Hinv Hi HL Hes. destruct (history_cases es s Hinv Hes) as [(s' & -> & R)|(es1 & e & es2 & s1 & -> & -> & E1 & R & O)].
  - by eapply steps_frozen.
  - destruct e as [addr val np|p c t|p| | |line level]; try done. destruct O. exists es1, addr, val, np, es2, s1. split_and!; try done.
    by eapply steps_frozen.
Qed.
End privilege.

(** ** Trap entry and return *)

Lemma pow2_bit_cases k n st : 0 <= k -> Z.testbit (2 ^ k) n = true -> Z.testbit st n = tst st (2 ^ k).
Proof.
  intros Hk. rewrite tst_pow2 by done. destruct (Z.eq_dec k n) as [->|]; [done|].
  rewrite Z.pow2_bits_false by done. done.
Qed.

Lemma mpp_bits p n : priv_ok p -> Z.testbit (p .<< 11) n = true -> Z.testbit kMstatusMppMask n = true.
Proof.
  intros Hp Hn. assert ((p .<< 11) &~ kMstatusMppMask = 0) as H.
  { by destruct (priv_ok_cases _ Hp) as [->|[->| ->]]. }
  apply (f_equal (fun z => Z.testbit z n)) in H. rewrite Z.ldiff_spec, Hn, Z.bits_0 in H.
  by destruct (Z.testbit kMstatusMppMask n).
Qed.

Lemma land_frame x m k M : m .& M = 0 -> k .& M = 0 -> ((x &~ m) .| k) .& M = x .& M.
Proof.
  intros Hm Hk. apply Z.bits_inj'; intros n ?.
  apply (f_equal (fun z => Z.testbit z n)) in Hm, Hk. revert Hm Hk. autorewrite with zbits.
  destruct (Z.testbit x n), (Z.testbit m n), (Z.testbit k n), (Z.testbit M n); done.
Qed.

Lemma land_lor_frame x k M : k .& M = 0 -> (x .| k) .& M = x .& M.
Proof. intros Hk. rewrite <- (Z.ldiff_0_r x) at 1. apply land_frame; [apply Z.land_0_l|done]. Qed.

Lemma sel_land c m M : m .& M = 0 -> sel c m .& M = 0.
Proof. destruct c; [done|]. intros; apply Z.land_0_l. Qed.

Lemma shift_mpp p : priv_ok p -> ((p .<< 11) .& kMstatusMppMask) .>> 11 = p.
Proof. intros Hp. by destruct (priv_ok_cases _ Hp) as [->|[->| ->]]. Qed.

Section round_trip.
Context {Dev : Type}.
Implicit Types s : RiscvState Dev.

(** The status bits a trap to M and the matching [mret] use up, and those of
    a trap to S and [sret]. *)
Definition mtrap_bits : Z := kMstatusMpie .| kMstatusMppMask .| kMstatusMprv.
Definition strap_bits : Z := kMstatusSpie .| kMstatusSpp .| kMstatusMprv.

(** Two states of the invariant: M with interrupts on, and U with the user
    ecall delegated. *)
Lemma csr_inv_upd s p st d :
  csr_inv s -> priv_ok p -> mstatus_ok st -> within kMedelegWmask d ->
  csr_inv (s <| priv := p |> <| medeleg := d |> <| mstatus := st |>).
Proof. intros Hi Hp Hst Hd. destruct Hi; constructor; assumption. Qed.

Definition m_ex : RiscvState Dev :=
  riscv_init <| priv := kPrivMachine |> <| medeleg := 0 |> <| mstatus := kMstatusUxlValue .| kMstatusMie |>.
Definition u_ex : RiscvState Dev :=
  riscv_init <| priv := kPrivUser |> <| medeleg := 0x100 |> <| mstatus := kMstatusUxlValue .| kMstatusSie |>.

Lemma m_ex_inv : csr_inv m_ex.
Proof. apply csr_inv_upd; [apply riscv_init_inv|unfold priv_ok; auto|by vm_compute..]. Qed.

Lemma u_ex_inv : csr_inv u_ex.
Proof. apply csr_inv_upd; [apply riscv_init_inv|unfold priv_ok; auto|by vm_compute..]. Qed.

Definition aligned_pc s (p : Z) : Prop := p &~ 1 = p /\ (tst (misa s) kMisaC = false -> p &~ 2 = p).

Lemma ret_target s p : aligned_pc s p -> (if tst (misa s) kMisaC then p &~ 1 else p &~ 1 &~ 2) = p.
Proof. intros [H1 H2]. rewrite H1. case_match; auto. Qed.

Lemma mtrap_status st p :
  priv_ok p ->
  let t := (((st &~ kMstatusMpie) .| sel (tst st kMstatusMie) kMstatusMpie) &~ kMstatusMie
             &~ kMstatusMppMask) .| (p .<< 11) in
  let r := ((t &~ kMstatusMie) .| sel (tst t kMstatusMpie) kMstatusMie) .| kMstatusMpie in
  (r .& kMstatusMppMask) .>> 11 = p /\ r &~ mtrap_bits = st &~ mtrap_bits /\
  tst r kMstatusMprv = tst st kMstatusMprv.
Proof.
  intros Hp t r.
  assert (Hpie : tst t kMstatusMpie = tst st kMstatusMie).
  { unfold t. change kMstatusMpie with (2 ^ 7). rewrite tst_pow2 by lia.
    destruct (priv_ok_cases _ Hp) as [->|[->| ->]]; destruct (tst st kMstatusMie); cbn [sel]; by tb. }
  split_and!.
  - unfold r. rewrite land_lor_frame, land_frame by (done || by apply sel_land).
    unfold t. rewrite field_insert. by apply shift_mpp.
  - unfold r. rewrite Hpie. unfold t, mtrap_bits. apply Z.bits_inj'; intros n ?.
    pose proof (pow2_bit_cases 3 n st ltac:(lia)) as H3. change (2 ^ 3) with kMstatusMie in H3.
    pose proof (mpp_bits p n Hp) as H11. destruct (tst st kMstatusMie); cbn [sel]; autorewrite with zbits;
    destruct (Z.testbit kMstatusMie n), (Z.testbit (p .<< 11) n), (Z.testbit kMstatusMppMask n);
      rewrite ?H3 by done; try (by discriminate H11); btauto.
  - unfold r, t. change kMstatusMprv with (2 ^ 17). rewrite !tst_pow2 by lia.
    destruct (priv_ok_cases _ Hp) as [->|[->| ->]]; destruct (tst _ _), (tst _ kMstatusMpie); cbn [sel]; by tb.
Qed.

(** C22: trap entry to M followed by mret, with a handler that leaves mstatus, mepc and misa as it
    found them, resumes the interrupted pc in the interrupted privilege with every mstatus bit
    outside the M trap stack restored (MPRV as well when the trap came from M). *)
Theorem trap_mret_resume s cpu_pc cause tval (h : RiscvState Dev) :
  csr_inv s -> aligned_pc s cpu_pc -> trap_to_s cause s = false ->
  mstatus h = mstatus (riscv_trap cpu_pc cause tval s).2 ->
  mepc h = mepc (riscv_trap cpu_pc cause tval s).2 -> misa h = misa s ->
  (riscv_trap cpu_pc cause tval s).2.(priv) = kPrivMachine /\
  (riscv_mret h).1 = cpu_pc /\ priv (riscv_mret h).2 = priv s /\
  mstatus (riscv_mret h).2 &~ mtrap_bits = mstatus s &~ mtrap_bits /\
  (priv s = kPrivMachine -> tst (mstatus (riscv_mret h).2) kMstatusMprv = tst (mstatus s) kMstatusMprv).
Proof.
  intros Hi Ha Ht. unfold riscv_trap. rewrite Ht. cbn [snd]. rsimpl. intros Hst Hepc Hmisa. split; [done|].
  pose proof (mtrap_status (mstatus s) (priv s) (ci_priv _ Hi)) as Hm. cbv zeta in Hm.
  unfold riscv_mret. cbn [fst snd]. rsimpl. rewrite Hst, Hepc, Hmisa. destruct Hm as (Hmpp & Hbits & Hmprv).
  rewrite Hmpp. split_and!.
  - by apply ret_target.
  - by destruct (priv_ok_cases _ (ci_priv _ Hi)) as [->|[->| ->]].
  - rewrite <- Hbits. unfold mtrap_bits. case_match; zbits.
  - intros HM. rewrite HM in *. rewrite <- Hmprv. cbn [Z.eqb Pos.eqb kPrivMachine].
    change kMstatusMprv with (2 ^ 17). rewrite !tst_pow2 by lia. set (x := _ .| kMstatusMpie).
    clearbody x. by tb.
Qed.

Lemma strap_status st c :
  let t := (((st &~ kMstatusSpie) .| sel (tst st kMstatusSie) kMstatusSpie) &~ kMstatusSie
             &~ kMstatusSpp) .| sel c kMstatusSpp in
  let r := (((t &~ kMstatusSie) .| sel (tst t kMstatusSpie) kMstatusSie) .| kMstatusSpie) &~ kMstatusMprv in
  tst r kMstatusSpp = c /\ r &~ strap_bits = st &~ strap_bits.
Proof.
  intros t r.
  assert (Hpie : tst t kMstatusSpie = tst st kMstatusSie).
  { unfold t. change kMstatusSpie with (2 ^ 5). rewrite tst_pow2 by lia.
    destruct (tst st kMstatusSie), c; cbn [sel]; by tb. }
  split.
  - unfold r, t. change kMstatusSpp with (2 ^ 8). rewrite tst_pow2 by lia.
    destruct (tst st kMstatusSie), c, (tst _ kMstatusSpie); cbn [sel]; by tb.
  - unfold r. rewrite Hpie. unfold t, strap_bits. apply Z.bits_inj'; intros n ?.
    pose proof (pow2_bit_cases 1 n st ltac:(lia)) as H1. change (2 ^ 1) with kMstatusSie in H1.
    destruct (tst st kMstatusSie), c; cbn [sel]; autorewrite with zbits;
    destruct (Z.testbit kMstatusSie n); rewrite ?H1 by done; btauto.
Qed.

(** A delegated trap followed by sret, with a handler that leaves mstatus, sepc and misa as it found
    them, resumes the interrupted pc in the interrupted privilege with every mstatus bit outside the
    S trap stack restored. *)
Theorem trap_sret_resume s cpu_pc cause tval (h : RiscvState Dev) :
  csr_inv s -> aligned_pc s cpu_pc -> trap_to_s cause s = true ->
  mstatus h = mstatus (riscv_trap cpu_pc cause tval s).2 ->
  sepc h = sepc (riscv_trap cpu_pc cause tval s).2 -> misa h = misa s ->
  (riscv_trap cpu_pc cause tval s).2.(priv) = kPrivSupervisor /\
  (riscv_sret h).1 = cpu_pc /\ priv (riscv_sret h).2 = priv s /\
  mstatus (riscv_sret h).2 &~ strap_bits = mstatus s &~ strap_bits.
Proof.
  intros Hi Ha Ht. unfold riscv_trap. rewrite Ht. cbn [snd]. rsimpl. intros Hst Hepc Hmisa. split; [done|].
  pose proof (strap_status (mstatus s) (priv s =? kPrivSupervisor)) as Hm. cbv zeta in Hm.
  unfold riscv_sret. cbn [fst snd]. rsimpl. rewrite Hst, Hepc, Hmisa. destruct Hm as (Hspp & Hbits).
  rewrite Hspp. split_and!.
  - by apply ret_target.
  - unfold trap_to_s in Ht. apply andb_true_iff in Ht as [_ Hlt].
    destruct (priv_ok_cases _ (ci_priv _ Hi)) as [E|[E|E]]; rewrite E in *; done.
  - rewrite <- Hbits. unfold strap_bits. zbits.
Qed.

End round_trip.

(** ** Interrupt selection *)

Section interrupts.
Context {Dev : Type}.
Implicit Types s : RiscvState Dev.

(** Pending, enabled, and allowed by the current mode and status. *)
Definition int_ready s (id : Z) : bool := Z.testbit (MipAll s .& mie s) id && int_take s id.

(** The priority order of the specification: MEI, MSI, MTI, SEI, SSI, STI. *)
Definition int_rank (id : Z) : Z := switch id [(11, 0); (3, 1); (7, 2); (9, 3); (1, 4); (5, 5)] 6.

Lemma deliver_scan_first order pending s :
  match deliver_scan order pending s with
  | Some id => exists pre post, order = pre ++ id :: post /\
      Z.testbit pending id && int_take s id = true /\
      Forall (fun j => Z.testbit pending j && int_take s j = false) pre
  | None => Forall (fun j => Z.testbit pending j && int_take s j = false) order
  end.
Proof.
  induction order as [|x order IH]; simpl; [constructor|].
  destruct (Z.testbit pending x) eqn:Ep; simpl.
  - destruct (int_take s x) eqn:Et.
    + exists [], order. by rewrite Ep, Et.
    + destruct (deliver_scan order pending s); [|constructor; [by rewrite Et, andb_false_r|done]].
      destruct IH as (pre & post & -> & ? & ?). exists (x :: pre), post. split_and!; [done..|].
      constructor; [by rewrite Et, andb_false_r|done].
  - destruct (deliver_scan order pending s); [|constructor; [by rewrite Ep|done]].
    destruct IH as (pre & post & -> & ? & ?). exists (x :: pre), post. split_and!; [done..|].
    constructor; [by rewrite Ep|done].
Qed.

Lemma kOrder_sorted pre id post :
  kOrder = pre ++ id :: post -> Forall (fun j => int_rank id < int_rank j) post.
Proof.
  unfold kOrder. intros E.
  do 6 (destruct pre as [|? pre]; simpl in E; injection E as ? E; subst;
    [repeat first [apply Forall_nil_2 | apply Forall_cons_2; [reflexivity|]]|]).
  by destruct pre.
Qed.

Lemma int_cause_target id s :
  In id kOrder -> trap_to_s (kIntBit .| id) s = Z.testbit (mideleg s) id && (priv s <? kPrivMachine).
Proof.
  unfold kOrder, trap_to_s. intros Hid.
  assert (tst (kIntBit .| id) kIntBit = true /\ (kIntBit .| id) .& 0xfff = id) as [-> ->]; [|done].
  by destruct Hid as [<-|[<-|[<-|[<-|[<-|[<-|[]]]]]]].
Qed.

(** Taking an interrupt masks it. *)
Lemma int_trap_masks cpu_pc id s :
  In id kOrder -> priv_ok (priv s) -> int_take s id = true ->
  let s' := (riscv_trap cpu_pc (kIntBit .| id) 0 s).2 in
  int_take s' id = false /\ priv s <= priv s'.
Proof.
  intros Hid Hp Hr. cbv zeta. unfold riscv_trap. rewrite int_cause_target by done.
  unfold int_take in Hr |- *. destruct (Z.testbit (mideleg s) id) eqn:Ed; cbn [andb].
  - destruct (Z.ltb_spec (priv s) kPrivMachine) as [Hlt|Hge]; cbn [snd]; rsimpl; rewrite Ed.
    + split; [|destruct (priv_ok_cases _ Hp) as [E|[E|E]]; rewrite E in *; unfold kPrivSupervisor; done || lia].
      cbn [Z.eqb Pos.eqb kPrivSupervisor]. change kMstatusSie with (2 ^ 1). rewrite tst_pow2 by lia.
      destruct (tst _ _), (_ =? _); cbn [sel]; by tb.
    + exfalso. destruct (priv_ok_cases _ Hp) as [E|[E|E]]; rewrite E in *; try done.
  - cbn [snd]; rsimpl. rewrite Ed. cbn [Z.eqb Pos.eqb kPrivMachine].
    split; [|destruct (priv_ok_cases _ Hp) as [E|[E|E]]; rewrite E; unfold kPrivMachine; lia].
    change kMstatusMie with (2 ^ 3). rewrite tst_pow2 by lia.
    destruct (priv_ok_cases _ Hp) as [->|[->| ->]]; destruct (tst _ _); cbn [sel]; by tb.
Qed.

(** C23: interrupt delivery takes the ready interrupt (pending, enabled and not masked in the
    current mode) of highest architectural priority, as a trap with the interrupt cause; the taken
    interrupt is masked afterwards and privilege never drops; it does nothing exactly when no
    interrupt is ready. *)
Theorem deliver_highest_ready cpu_pc s :
  csr_inv s ->
  match riscv_deliver_interrupt cpu_pc s with
  | Some (p, s') => exists id, In id kOrder /\ int_ready s id = true /\
      (forall j, In j kOrder -> int_ready s j = true -> int_rank id <= int_rank j) /\
      (p, s') = riscv_trap cpu_pc (kIntBit .| id) 0 s /\
      int_take s' id = false /\ priv s <= priv s'
  | None => forall id, In id kOrder -> int_ready s id = false
  end.
Proof.
  intros Hi. unfold riscv_deliver_interrupt, int_ready.
  destruct (Z.eqb_spec (MipAll s .& mie s) 0) as [->|_].
  { intros id _. by rewrite Z.bits_0. }
  pose proof (deliver_scan_first kOrder (MipAll s .& mie s) s) as Hs.
  destruct (deliver_scan _ _ _) as [id|]; [|intros id Hid; by apply (proj1 (Forall_forall _ _) Hs), list_elem_of_In].
  destruct Hs as (pre & post & E & Hr & Hpre).
  assert (Hid : In id kOrder) by (rewrite E; apply in_elt).
  pose proof Hr as [_ Ht]%andb_true_iff.
  pose proof (int_trap_masks cpu_pc id s Hid (ci_priv _ Hi) Ht) as [Hm Hle].
  destruct (riscv_trap _ _ _ _) as [p s'] eqn:Etrap. exists id. split_and!; try done.
  intros j Hj Hrj. rewrite E in Hj. apply in_app_iff in Hj as [Hj|[->|Hj]]; [|done|].
  - apply list_elem_of_In, (proj1 (Forall_forall _ _) Hpre) in Hj. congruence.
  - apply kOrder_sorted in E. apply list_elem_of_In, (proj1 (Forall_forall _ _) E) in Hj. lia.
Qed.

Lemma csr_inv_mie s v : csr_inv s -> rng 64 v -> csr_inv (s <| mie := v |>).
Proof. intros Hi Hv. exact (csr_write_plain_inv s 0x304 v 0 Hi Hv). Qed.

(** M mode with MTI and MEI both pending and enabled: MEI is taken. *)
Definition irq_ex : RiscvState Dev := riscv_set_ext_irq kIrqMeip true
  (riscv_set_ext_irq kIrqMtip true (m_ex <| mie := kIrqMtip .| kIrqMeip |>)).

Lemma irq_ex_inv : csr_inv irq_ex.
Proof.
  apply riscv_set_ext_irq_inv; [|rng]. apply riscv_set_ext_irq_inv; [|rng].
  apply csr_inv_mie; [apply m_ex_inv|rng].
Qed.

End interrupts.

(** ** Witnesses of the CSR file invariant and of PMP locking *)

Section witnesses.
Context {Dev : Type}.

(** pmpcfg0 := L|NAPOT|R, then an attempt to clear it. *)
Definition locked_ex : RiscvState Dev := WritePmpCfg 0 0x99 riscv_init.

Lemma locked_step : csr_step riscv_init locked_ex.
Proof. apply (cs_write _ 0x3A0 0x99 0); [rng|vm_compute; reflexivity]. Qed.

Lemma locked_clear_step : csr_step locked_ex (WritePmpCfg 0 0 locked_ex).
Proof. apply (cs_write _ 0x3A0 0 0); [rng|vm_compute; reflexivity]. Qed.

End witnesses.


Lemma csr_write_confined_witness :
  exists s' : RiscvState unit,
    riscv_csr_write ((riscv_init : RiscvState unit) <| priv := kPrivSupervisor |>) 0x100 (2 ^ 64 - 1) 0 = COk s' /\
    mstatus s' <> mstatus (riscv_init (Dev:=unit)) /\
    m_view s' = m_view ((riscv_init : RiscvState unit) <| priv := kPrivSupervisor |>).
Proof.
  eexists. split; [vm_compute; reflexivity|]. split; [vm_compute; discriminate|].
  apply (csr_write_confined ((riscv_init : RiscvState unit) <| priv := kPrivSupervisor |>) 0x100 (2 ^ 64 - 1) 0).
  - vm_compute; discriminate.
  - vm_compute. reflexivity.
Defined.

(** An ecall from U mode, delegated, and a breakpoint in M mode. *)
Lemma trap_sret_resume_witness :
  priv (riscv_trap 0x80001002 kExUserEcall 0 (u_ex (Dev:=unit))).2 = kPrivSupervisor /\ (riscv_sret (riscv_trap 0x80001002 kExUserEcall 0 (u_ex (Dev:=unit))).2).1 = 0x80001002 /\
  priv (riscv_sret (riscv_trap 0x80001002 kExUserEcall 0 (u_ex (Dev:=unit))).2).2 = priv (u_ex (Dev:=unit)) /\
  mstatus (riscv_sret (riscv_trap 0x80001002 kExUserEcall 0 (u_ex (Dev:=unit))).2).2 &~ strap_bits = mstatus (u_ex (Dev:=unit)) &~ strap_bits.
Proof.
  assert (Ha : aligned_pc (u_ex (Dev:=unit)) 0x80001002) by (split; [reflexivity|]; vm_compute; discriminate).
  assert (Ht : trap_to_s kExUserEcall (u_ex (Dev:=unit)) = true) by (vm_compute; reflexivity).
  exact (trap_sret_resume (u_ex (Dev:=unit)) 0x80001002 kExUserEcall 0 (riscv_trap 0x80001002 kExUserEcall 0 (u_ex (Dev:=unit))).2 u_ex_inv Ha Ht eq_refl eq_refl eq_refl).
Defined.

Lemma trap_mret_resume_witness :
  priv (riscv_trap 0x80001002 kExBreakpoint 0 (m_ex (Dev:=unit))).2 = kPrivMachine /\ (riscv_mret (riscv_trap 0x80001002 kExBreakpoint 0 (m_ex (Dev:=unit))).2).1 = 0x80001002 /\
  priv (riscv_mret (riscv_trap 0x80001002 kExBreakpoint 0 (m_ex (Dev:=unit))).2).2 = priv (m_ex (Dev:=unit)) /\
  mstatus (riscv_mret (riscv_trap 0x80001002 kExBreakpoint 0 (m_ex (Dev:=unit))).2).2 &~ mtrap_bits = mstatus (m_ex (Dev:=unit)) &~ mtrap_bits /\
  (priv (m_ex (Dev:=unit)) = kPrivMachine -> tst (mstatus (riscv_mret (riscv_trap 0x80001002 kExBreakpoint 0 (m_ex (Dev:=unit))).2).2) kMstatusMprv = tst (mstatus (m_ex (Dev:=unit))) kMstatusMprv).
Proof.
  assert (Ha : aligned_pc (m_ex (Dev:=unit)) 0x80001002) by (split; [reflexivity|]; vm_compute; discriminate).
  assert (Ht : trap_to_s kExBreakpoint (m_ex (Dev:=unit)) = false) by (vm_compute; reflexivity).
  exact (trap_mret_resume (m_ex (Dev:=unit)) 0x80001002 kExBreakpoint 0 (riscv_trap 0x80001002 kExBreakpoint 0 (m_ex (Dev:=unit))).2 m_ex_inv Ha Ht eq_refl eq_refl eq_refl).
Defined.

Lemma deliver_highest_ready_witness :
  int_ready (irq_ex (Dev:=unit)) 7 = true /\ int_ready (irq_ex (Dev:=unit)) 11 = true /\
  exists s', riscv_deliver_interrupt 0x80000000 (irq_ex (Dev:=unit)) = Some (0, s') /\
    mcause s' = 2 ^ 63 + 11 /\ int_take s' 11 = false.
Proof.
  split; [reflexivity|]. split; [reflexivity|].
  pose proof (deliver_highest_ready 0x80000000 (irq_ex (Dev:=unit)) irq_ex_inv) as H.
  assert (E : riscv_deliver_interrupt 0x80000000 (irq_ex (Dev:=unit)) =
    Some (riscv_trap 0x80000000 (kIntBit .| 11) 0 irq_ex)) by (vm_compute; reflexivity).
  rewrite E in H |- *. eexists. split; [vm_compute; reflexivity|].
  split; [vm_compute; reflexivity|].
  destruct (riscv_trap 0x80000000 (kIntBit .| 11) 0 irq_ex) as [p s'] eqn:Et.
  vm_compute in Et. injection Et as <- <-. vm_compute. reflexivity.
Defined.
Lemma csr_reachable_inv_witness :
  csr_history [EvWrite 0x3A0 0x99 0; EvWrite 0x3A0 0 0] riscv_init = Some (WritePmpCfg 0 0 (locked_ex (Dev:=unit))) /\
  csr_inv (WritePmpCfg 0 0 (locked_ex (Dev:=unit))).
Proof.
  assert (E : csr_history [EvWrite 0x3A0 0x99 0; EvWrite 0x3A0 0 0] riscv_init = Some (WritePmpCfg 0 0 (locked_ex (Dev:=unit)))) by (vm_compute; reflexivity).
  split; [exact E|].
  pose proof (csr_reachable_inv (Dev:=unit) [EvWrite 0x3A0 0x99 0; EvWrite 0x3A0 0 0] ltac:(repeat constructor; cbn; lia)) as H.
  rewrite E in H. exact H.
Defined.

Lemma pmp_lock_permanent_witness :
  tst (pmp_cfg_of (locked_ex (Dev:=unit)) 0) kPmpL = true /\
  csr_history [EvWrite 0x3A0 0 0] locked_ex = Some (WritePmpCfg 0 0 (locked_ex (Dev:=unit))) /\
  pmp_frozen 0 (locked_ex (Dev:=unit)) (WritePmpCfg 0 0 locked_ex).
Proof.
  assert (E : csr_history [EvWrite 0x3A0 0 0] locked_ex = Some (WritePmpCfg 0 0 (locked_ex (Dev:=unit)))) by (vm_compute; reflexivity).
  split; [reflexivity|]. split; [exact E|].
  pose proof (pmp_lock_permanent [EvWrite 0x3A0 0 0] (locked_ex (Dev:=unit)) 0
    (csr_step_inv _ _ locked_step riscv_init_inv) ltac:(unfold kPmpCount; lia) eq_refl ltac:(repeat constructor; cbn; lia)) as H.
  rewrite E in H. exact H.
Defined.
