(* ===== verification/RvFp.v ===== *)
(** * Floating point (cpu/isa/riscv64/fp.c)

    The C code computes in host [float], [double] and x87 [long double]; the
    model uses the Standard Library's specification of IEEE-754 arithmetic
    (round to nearest even, no NaN payloads) at the three precisions.  An
    operation returns its register value together with the flags it ORs into
    [fflags]. *)

From Stdlib Require Export Floats.SpecFloat.
From S2P Require Import Prelude.

Definition kFflagNX := 1.
Definition kFflagUF := 2.
Definition kFflagOF := 4.
Definition kFflagDZ := 8.
Definition kFflagNV := 16.

Definition kRmRne := 0.
Definition kRmRtz := 1.
Definition kRmRdn := 2.
Definition kRmRup := 3.
Definition kRmRmm := 4.
Definition kRmDyn := 7.

Definition kFpAdd := 0.
Definition kFpSub := 1.
Definition kFpMul := 2.
Definition kFpDiv := 3.
Definition kFpEq := 4.
Definition kFpLt := 5.
Definition kFpLe := 6.

(** ** Formats *)

(** Mantissa bits with the implicit one, and the exponent of infinity. *)
Record fmt := Fmt { f_prec : Z; f_emax : Z }.
Definition f32 := Fmt 24 128.
Definition f64 := Fmt 53 1024.
Definition ld80 := Fmt 64 16384.

(** Stored fraction width and exponent width of an interchange format. *)
Definition frac_w (f : fmt) : Z := f_prec f - 1.
Definition exp_w (f : fmt) : Z := Z.log2 (f_emax f) + 1.

(** [Float32] / [Float64]: the value of a bit pattern. *)
Definition of_bits (f : fmt) (v : Z) : spec_float :=
  let frac := wrap (frac_w f) v in
  let e := wrap (exp_w f) (v .>> frac_w f) in
  let s := Z.testbit v (frac_w f + exp_w f) in
  if e =? 2 ^ exp_w f - 1 then (if frac =? 0 then S754_infinity s else S754_nan)
  else if e =? 0 then
    match frac with Z.pos m => S754_finite s m (emin (f_prec f) (f_emax f)) | _ => S754_zero s end
  else match frac + 2 ^ frac_w f with
       | Z.pos m => S754_finite s m (emin (f_prec f) (f_emax f) + e - 1)
       | _ => S754_nan
       end.

Definition sgn_bit (f : fmt) (s : bool) : Z := if s then 2 ^ (frac_w f + exp_w f) else 0.

(** [Bits32] / [Bits64]: the bit pattern of a value, in the width of the
    format; a NaN is the canonical quiet one. *)
Definition to_bits (f : fmt) (x : spec_float) : Z :=
  wrap (frac_w f + exp_w f + 1)
  match x with
  | S754_zero s => sgn_bit f s
  | S754_infinity s => sgn_bit f s + (2 ^ exp_w f - 1) * 2 ^ frac_w f
  | S754_nan => (2 ^ exp_w f - 1) * 2 ^ frac_w f + 2 ^ (frac_w f - 1)
  | S754_finite s m e =>
      if Z.pos m <? 2 ^ frac_w f then sgn_bit f s + Z.pos m
      else sgn_bit f s + (e - emin (f_prec f) (f_emax f) + 1) * 2 ^ frac_w f + (Z.pos m - 2 ^ frac_w f)
  end.

(** ** Host arithmetic *)

(** A C conversion between floating types. *)
Definition conv (f : fmt) (x : spec_float) : spec_float :=
  match x with S754_finite s m e => binary_round (f_prec f) (f_emax f) s m e | _ => x end.

Definition fadd (f : fmt) := SFadd (f_prec f) (f_emax f).
Definition fsub (f : fmt) := SFsub (f_prec f) (f_emax f).
Definition fmul (f : fmt) := SFmul (f_prec f) (f_emax f).
Definition fdiv (f : fmt) := SFdiv (f_prec f) (f_emax f).
Definition fsqrt (f : fmt) := SFsqrt (f_prec f) (f_emax f).

Definition signed_m (s : bool) (m : positive) : Z := if s then Z.neg m else Z.pos m.

(** [fma] / [fmaf]: one rounding of the exact product plus addend. *)
Definition ffma (f : fmt) (x y z : spec_float) : spec_float :=
  match x, y, z with
  | S754_finite sx mx ex, S754_finite sy my ey, S754_finite sz mz ez =>
      let ep := ex + ey in
      let e := Z.min ep ez in
      binary_normalize (f_prec f) (f_emax f)
        ((signed_m (xorb sx sy) (mx * my) .<< (ep - e)) + (signed_m sz mz .<< (ez - e))) e false
  | S754_finite sx mx ex, S754_finite sy my ey, S754_zero _ =>
      binary_normalize (f_prec f) (f_emax f) (signed_m (xorb sx sy) (mx * my)) (ex + ey) false
  | _, _, _ => fadd f (fmul f x y) z
  end.

Definition is_nan (x : spec_float) : bool := match x with S754_nan => true | _ => false end.
Definition is_inf (x : spec_float) : bool := match x with S754_infinity _ => true | _ => false end.
Definition is_finite (x : spec_float) : bool := negb (is_nan x) && negb (is_inf x).
Definition fzero : spec_float := S754_zero false.
Definition pinf : spec_float := S754_infinity false.
Definition ninf : spec_float := S754_infinity true.
(** C [!=]: true on a NaN operand. *)
Definition fne (a b : spec_float) : bool := negb (SFeqb a b).
Definition fgtb (a b : spec_float) : bool := SFltb b a.

(** [nextafter(x, y)] for non-NaN operands. *)
Definition nextafter (f : fmt) (x y : spec_float) : spec_float :=
  if SFeqb x y then y
  else if SFltb x y then SFsucc (f_prec f) (f_emax f) x else SFpred (f_prec f) (f_emax f) x.

(** ** fp.c *)

Definition kBoxMask := 0xffffffff00000000.
Definition kQnan64 := 0x7ff8000000000000.
Definition kQnan32 := 0x7fc00000.

Definition Box32 (v : Z) : Z := kBoxMask .| v.
Definition IsBoxed (v : Z) : bool := v .>> 32 =? 0xffffffff.
Definition Float32 (v : Z) : spec_float := of_bits f32 (u32 v).
Definition Float64 (v : Z) : spec_float := of_bits f64 v.
Definition Bits32 := to_bits f32.
Definition Bits64 := to_bits f64.

(** [IsSnanF] and [IsSnanD], on the pattern. *)
Definition IsSnanF (v : Z) : bool :=
  ((v .>> 23) .& 0xff =? 0xff) && negb (v .& 0x7fffff =? 0) && negb (tst v 0x400000).
Definition IsSnanD (v : Z) : bool :=
  ((v .>> 52) .& 0x7ff =? 0x7ff) && negb (v .& 0xfffffffffffff =? 0) && negb (tst v (2 ^ 51)).

(** The underflow thresholds: [MinNormalF] and, for double, the decimal
    literal [2.2250738585072014e-308L] as x87 reads it, 70 units in the last
    place above [2^-1022]. *)
Definition MinNormalF : spec_float := S754_finite false (2 ^ 63)%positive (-126 - 63).
Definition kMinNormalD : spec_float := S754_finite false 9223372036854775878 (-1085).

(** Directed rounding from the nearest-even result [r] and the reference [e]:
    the adjusted value and the flags. *)
Definition RoundAdjust (f : fmt) (r e : spec_float) (rm : Z) : spec_float * Z :=
  let rl := conv ld80 r in
  if SFeqb rl e then (r, 0)
  else
    (switch rm
      [ (kRmRne, r);
        (kRmRup, if SFltb rl e then nextafter f r pinf else r);
        (kRmRdn, if fgtb rl e then nextafter f r ninf else r);
        (kRmRtz, if (fgtb r fzero && fgtb rl e) || (SFltb r fzero && SFltb rl e)
                 then nextafter f r (if fgtb r fzero then ninf else pinf) else r);
        (kRmRmm, let toward := nextafter f r (conv f e) in
                 if SFeqb (SFabs (fsub ld80 e (conv ld80 toward))) (SFabs (fsub ld80 e rl))
                 then if fgtb (SFabs (conv ld80 toward)) (SFabs rl) then toward else r
                 else r) ] r,
     kFflagNX).

Definition OverflowResult32 (negative : bool) (rm : Z) : Z :=
  let inf := if negative then 0xff800000 else 0x7f800000 in
  let max := if negative then 0xff7fffff else 0x7f7fffff in
  switch rm [ (kRmRne, inf); (kRmRmm, inf); (kRmRtz, max);
              (kRmRup, if negative then max else inf); (kRmRdn, if negative then inf else max) ] inf.

Definition OverflowResult64 (negative : bool) (rm : Z) : Z :=
  let inf := if negative then 0xfff0000000000000 else 0x7ff0000000000000 in
  let max := if negative then 0xffefffffffffffff else 0x7fefffffffffffff in
  switch rm [ (kRmRne, inf); (kRmRmm, inf); (kRmRtz, max);
              (kRmRup, if negative then max else inf); (kRmRdn, if negative then inf else max) ] inf.

(** The underflow test shared by the two finishers. *)
Definition tiny_flags (min_normal r e : spec_float) : Z :=
  if fne e fzero && SFltb (SFabs e) min_normal && fne (conv ld80 r) e
  then kFflagUF .| kFflagNX else 0.

Definition FinishS (fl : Z) (r e : spec_float) (rm : Z) : Z * Z :=
  if is_nan r then (Box32 kQnan32, fl .| kFflagNV)
  else if is_inf r && negb (is_inf (conv f64 e)) then
    (Box32 (OverflowResult32 (SFltb r fzero) rm), fl .| kFflagOF .| kFflagNX)
  else let '(r', nx) := RoundAdjust f32 r e rm in
    (Box32 (Bits32 r'), fl .| tiny_flags MinNormalF r e .| nx).

Definition FinishD (fl : Z) (r e : spec_float) (rm : Z) : Z * Z :=
  if is_nan r then (kQnan64, fl .| kFflagNV)
  else if is_inf r && negb (is_inf e) then
    (OverflowResult64 (SFltb r fzero) rm, fl .| kFflagOF .| kFflagNX)
  else let '(r', nx) := RoundAdjust f64 r e rm in
    (Bits64 r', fl .| tiny_flags kMinNormalD r e .| nx).

Definition nv_if (b : bool) : Z := if b then kFflagNV else 0.

(** The arithmetic of one kind at one format: the C result and its
    [long double] reference; [None] for a kind the switch rejects. *)
Definition binary_re (f : fmt) (a b : spec_float) (kind : Z) : option (spec_float * spec_float) :=
  let la := conv ld80 a in
  let lb := conv ld80 b in
  switch kind
    [ (kFpAdd, Some (fadd f a b, fadd ld80 la lb));
      (kFpSub, Some (fsub f a b, fsub ld80 la lb));
      (kFpMul, Some (fmul f a b, fmul ld80 la lb));
      (kFpDiv, Some (fdiv f a b, fdiv ld80 la lb)) ] None.

(** Division of a finite nonzero value by zero. *)
Definition div_zero (a b : spec_float) (kind : Z) : bool :=
  (kind =? kFpDiv) && SFeqb b fzero && is_finite a && fne a fzero.

Definition RiscvFpBinaryS (ra rb kind rm : Z) : option (Z * Z) :=
  if negb (IsBoxed ra) || negb (IsBoxed rb) then Some (Box32 kQnan32, kFflagNV)
  else
    let a := Float32 ra in
    let b := Float32 rb in
    let fl := nv_if (IsSnanF (u32 ra) || IsSnanF (u32 rb)) in
    if div_zero a b kind then Some (Box32 (Bits32 (fdiv f32 a b)), fl .| kFflagDZ)
    else '(r, e) ← binary_re f32 a b kind; Some (FinishS fl r e rm).

Definition RiscvFpBinaryD (ra rb kind rm : Z) : option (Z * Z) :=
  let a := Float64 ra in
  let b := Float64 rb in
  let fl := nv_if (IsSnanD ra || IsSnanD rb) in
  if div_zero a b kind then Some (Bits64 (fdiv f64 a b), fl .| kFflagDZ)
  else '(r, e) ← binary_re f64 a b kind; Some (FinishD fl r e rm).

Definition RiscvFpSqrtS (ra rm : Z) : Z * Z :=
  if negb (IsBoxed ra) then (Box32 kQnan32, kFflagNV)
  else
    let a := Float32 ra in
    let fl := nv_if (IsSnanF (u32 ra)) in
    if SFltb a fzero && negb (is_nan a) then (Box32 kQnan32, fl .| kFflagNV)
    else FinishS fl (fsqrt f32 a) (fsqrt ld80 (conv ld80 a)) rm.

Definition RiscvFpSqrtD (ra rm : Z) : Z * Z :=
  let a := Float64 ra in
  let fl := nv_if (IsSnanD ra) in
  if SFltb a fzero && negb (is_nan a) then (kQnan64, fl .| kFflagNV)
  else FinishD fl (fsqrt f64 a) (fsqrt ld80 (conv ld80 a)) rm.

(** The [long double] product plus addend, each step rounded. *)
Definition fma_ref (a b c : spec_float) : spec_float :=
  fadd ld80 (fmul ld80 (conv ld80 a) (conv ld80 b)) (conv ld80 c).

Definition RiscvFpFmaS (ra rb rc rm : Z) : Z * Z :=
  if negb (IsBoxed ra) || negb (IsBoxed rb) || negb (IsBoxed rc) then (Box32 kQnan32, kFflagNV)
  else
    let a := Float32 ra in let b := Float32 rb in let c := Float32 rc in
    let fl := nv_if (IsSnanF (u32 ra) || IsSnanF (u32 rb) || IsSnanF (u32 rc)) in
    FinishS fl (ffma f32 a b c) (fma_ref a b c) rm.

Definition RiscvFpFmaD (ra rb rc rm : Z) : Z * Z :=
  let a := Float64 ra in let b := Float64 rb in let c := Float64 rc in
  let fl := nv_if (IsSnanD ra || IsSnanD rb || IsSnanD rc) in
  FinishD fl (ffma f64 a b c) (fma_ref a b c) rm.

(** fmin/fmax on values. *)
Definition minmax (f : fmt) (qnan : Z) (a b : spec_float) (is_max : bool) : Z :=
  if is_nan a && negb (is_nan b) then to_bits f b
  else if negb (is_nan a) && is_nan b then to_bits f a
  else if is_nan a && is_nan b then qnan
  else if SFeqb a fzero && SFeqb b fzero then to_bits f (S754_zero (negb is_max))
  else to_bits f (if is_max then (if fgtb a b then a else b) else (if SFltb a b then a else b)).

Definition RiscvFpMinMaxS (ra rb : Z) (is_max : bool) : Z * Z :=
  let a := if IsBoxed ra then Float32 ra else Float32 (Box32 kQnan32) in
  let b := if IsBoxed rb then Float32 rb else Float32 (Box32 kQnan32) in
  (Box32 (minmax f32 kQnan32 a b is_max), nv_if (IsSnanF (u32 ra) || IsSnanF (u32 rb))).

Definition RiscvFpMinMaxD (ra rb : Z) (is_max : bool) : Z * Z :=
  (minmax f64 kQnan64 (Float64 ra) (Float64 rb) is_max, nv_if (IsSnanD ra || IsSnanD rb)).

(** [None]: the kind is not a comparison ([Fatal]). *)
Definition cmp_kind (kind : Z) (a b : spec_float) : option Z :=
  switch kind [ (kFpEq, Some (b2z (SFeqb a b))); (kFpLt, Some (b2z (SFltb a b)));
                (kFpLe, Some (b2z (SFleb a b))) ] None.

Definition RiscvFpCmpS (ra rb kind : Z) : option (Z * Z) :=
  if negb (IsBoxed ra) || negb (IsBoxed rb) then Some (0, kFflagNV)
  else
    let a := Float32 ra in
    let b := Float32 rb in
    if is_nan a || is_nan b then
      Some (0, nv_if (negb (kind =? kFpEq) || IsSnanF (u32 ra) || IsSnanF (u32 rb)))
    else r ← cmp_kind kind a b; Some (r, 0).

Definition RiscvFpCmpD (ra rb kind : Z) : option (Z * Z) :=
  let a := Float64 ra in
  let b := Float64 rb in
  if is_nan a || is_nan b then
    Some (0, nv_if (negb (kind =? kFpEq) || IsSnanD ra || IsSnanD rb))
  else r ← cmp_kind kind a b; Some (r, 0).

Definition Classify32 (v : Z) : Z :=
  let exp := (v .>> 23) .& 0xff in
  let frac := v .& 0x7fffff in
  let sign := negb (v .>> 31 =? 0) in
  if exp =? 0xff then (if frac =? 0 then (if sign then 0 else 7) else if tst v 0x400000 then 9 else 8)
  else if exp =? 0 then (if frac =? 0 then (if sign then 3 else 4) else if sign then 2 else 5)
  else if sign then 1 else 6.

Definition RiscvFpClassS (ra : Z) : Z := 1 .<< Classify32 (u32 ra).

Definition Classify64 (v : Z) : Z :=
  let exp := (v .>> 52) .& 0x7ff in
  let frac := v .& 0xfffffffffffff in
  let sign := negb (v .>> 63 =? 0) in
  if exp =? 0x7ff then (if frac =? 0 then (if sign then 0 else 7) else if tst v (2 ^ 51) then 9 else 8)
  else if exp =? 0 then (if frac =? 0 then (if sign then 3 else 4) else if sign then 2 else 5)
  else if sign then 1 else 6.

Definition RiscvFpClassD (ra : Z) : Z := 1 .<< Classify64 ra.

Definition Sgnj64 (a b kind : Z) : Z :=
  let sa := a .& 2 ^ 63 in
  let sb := b .& 2 ^ 63 in
  let r := if kind =? 0 then sb else if kind =? 1 then sb .^ 2 ^ 63 else sa .^ sb in
  (a &~ 2 ^ 63) .| r.

Definition RiscvFpSgnjS (ra rb kind : Z) : Z :=
  let a := if IsBoxed ra then u32 ra else kQnan32 in
  let sb := IsBoxed rb && negb (u32 rb .>> 31 =? 0) in
  let sa := negb (a .>> 31 =? 0) in
  let r := if kind =? 0 then (if sb then 2 ^ 31 else 0)
           else if kind =? 1 then (if sb then 0 else 2 ^ 31)
           else (if xorb sa sb then 2 ^ 31 else 0) in
  Box32 ((a &~ 2 ^ 31) .| r).

Definition RiscvFpSgnjD (ra rb kind : Z) : Z := Sgnj64 ra rb kind.

(** ** Conversions *)

(** [truncl], [floorl], [ceill], [roundl], [nearbyintl] of a finite value. *)
Definition rint (rm : Z) (s : bool) (m : positive) (e : Z) : Z :=
  if 0 <=? e then signed_m s m * 2 ^ e
  else
    let d := 2 ^ (- e) in
    let q := Z.pos m / d in
    let r := Z.pos m mod d in
    let up := switch rm
      [ (kRmRtz, false); (kRmRdn, s && negb (r =? 0)); (kRmRup, negb s && negb (r =? 0));
        (kRmRmm, d <=? 2 * r) ]
      (match 2 * r ?= d with Lt => false | Eq => Z.odd q | Gt => true end) in
    let q := if up then q + 1 else q in
    if s then - q else q.

(** The candidate integer of a non-NaN value and whether it is inexact;
    [None] for an infinity. *)
Definition f2i_cand (rm : Z) (e : spec_float) : option (Z * bool) :=
  match e with
  | S754_finite s m x => Some (rint rm s m x, negb ((0 <=? x) || (Z.pos m mod 2 ^ (- x) =? 0)))
  | S754_infinity _ => None
  | _ => Some (0, false)
  end.

Definition f2i_max (to_signed : bool) (dbits : Z) : Z := if to_signed then 2 ^ (dbits - 1) - 1 else 2 ^ dbits - 1.
Definition f2i_min (to_signed : bool) (dbits : Z) : Z := if to_signed then - 2 ^ (dbits - 1) else 0.

(** What an out-of-range conversion returns. *)
Definition f2i_clamp (to_signed neg : bool) (dbits : Z) : Z :=
  if to_signed then
    if neg then (if dbits =? 32 then 0xffffffff80000000 else 0x8000000000000000)
    else (if dbits =? 32 then 0x7fffffff else 0x7fffffffffffffff)
  else if neg then 0 else 0xffffffffffffffff.

Definition F2IResult (e : spec_float) (to_signed : bool) (dbits rm : Z) : Z * Z :=
  if is_nan e then (f2i_clamp to_signed false dbits, kFflagNV)
  else match f2i_cand rm e with
       | None => (f2i_clamp to_signed (SFltb e fzero) dbits, kFflagNV)
       | Some (cand, inexact) =>
           if (f2i_max to_signed dbits <? cand) || (cand <? f2i_min to_signed dbits)
           then (f2i_clamp to_signed (cand <? 0) dbits, kFflagNV)
           else (if dbits =? 32 then u64 (s32 (u32 cand)) else u64 cand, if inexact then kFflagNX else 0)
       end.

Definition RiscvFpF2IS (ra : Z) (to_signed : bool) (dbits rm : Z) : Z * Z :=
  if negb (IsBoxed ra) then (if to_signed then 0x8000000000000000 else 0xffffffffffffffff, kFflagNV)
  else F2IResult (conv ld80 (Float32 ra)) to_signed dbits rm.

Definition RiscvFpF2ID (ra : Z) (to_signed : bool) (dbits rm : Z) : Z * Z :=
  F2IResult (conv ld80 (Float64 ra)) to_signed dbits rm.

(** The integer source as a [long double]. *)
Definition i2f_src (val : Z) (val_signed : bool) (bits : Z) : spec_float :=
  let v := if val_signed then (if bits =? 32 then s32 (u32 val) else s64 val)
           else (if bits =? 32 then u32 val else val) in
  binary_normalize (f_prec ld80) (f_emax ld80) v 0 false.

Definition RiscvFpI2FS (val : Z) (val_signed : bool) (bits rm : Z) : Z * Z :=
  let e := i2f_src val val_signed bits in FinishS 0 (conv f32 e) e rm.

Definition RiscvFpI2FD (val : Z) (val_signed : bool) (bits rm : Z) : Z * Z :=
  let e := i2f_src val val_signed bits in FinishD 0 (conv f64 e) e rm.

Definition RiscvFpCvtSD (ra rm : Z) : Z * Z :=
  let e := conv ld80 (Float64 ra) in FinishS 0 (conv f32 e) e rm.

Definition RiscvFpCvtDS (ra rm : Z) : Z * Z :=
  if negb (IsBoxed ra) then (kQnan64, kFflagNV)
  else let e := conv ld80 (Float32 ra) in FinishD 0 (conv f64 e) e rm.
