(* ===== verification/RvMmu.v ===== *)
(** * PMP and Sv39/Sv48 translation (cpu/isa/riscv64/mmu.c)

    Physical memory protection, the page walk with its permission and A/D
    rules, and the two-way translation cache that records, with every entry,
    the context its decision was made under. *)

From S2P Require Import Prelude Bus Ram RvState RvCsr.

Definition kPteV := 2 ^ 0.
Definition kPteR := 2 ^ 1.
Definition kPteW := 2 ^ 2.
Definition kPteX := 2 ^ 3.
Definition kPteU := 2 ^ 4.
Definition kPteA := 2 ^ 6.
Definition kPteD := 2 ^ 7.
Definition kPteReserved := Eval cbv in (2 ^ 64 - 1) &~ (2 ^ 54 - 1).

Section pmp.
Context {Dev : Type}.
Implicit Types s : RiscvState Dev.

(** ** PMP *)

Definition PmpCfg s (i : Z) : Z := u8 (arr (pmpcfg s) (i / 8) .>> (8 * (i mod 8))).

(** [while (!(inv >> n & 1)) n++;] *)
Fixpoint count_zeros (fuel : nat) (inv n : Z) : Z :=
  match fuel with
  | O => n
  | S fuel => if Z.testbit inv n then n else count_zeros fuel inv (n + 1)
  end.

(** The byte range of entry [i], [(base, size)]; [None] when it matches
    nothing. *)
Definition PmpRegion s (i : Z) : option (Z * Z) :=
  let cfg := PmpCfg s i in
  let a := cfg .& kPmpAMask in
  let addr := arr (pmpaddr s) i in
  if a =? kPmpATor then
    let lo := if 0 <? i then arr (pmpaddr s) (i - 1) &~ 3 else 0 in
    let hi := addr &~ 3 in
    if hi <=? lo then None else Some (u64 (lo .<< 2), u64 ((hi - lo) .<< 2))
  else if a =? kPmpANa4 then Some (u64 (addr .<< 2), 4)
  else if a =? kPmpANapot then
    let inv := (2 ^ 64 - 1) .^ addr in
    if inv =? 0 then Some (0, 2 ^ 64 - 1)
    else
      let n := count_zeros 64 inv 0 in
      Some (u64 ((addr .>> n) .<< (n + 2)), u64 (1 .<< (n + 3)))
  else None.

(** The scan over the entries from [i] on; [active] says whether an earlier
    entry was configured. *)
Fixpoint pmp_scan s (addr len : Z) (acc : acc_class) (mode : Z) (n : nat) (i : Z) (active : bool) : bool :=
  match n with
  | O => if negb active then true else mode =? kPrivMachine
  | S n =>
      match PmpRegion s i with
      | None => pmp_scan s addr len acc mode n (i + 1) active
      | Some (base, size) =>
          if negb ((addr <? u64 (base + size)) && (base <? u64 (addr + len)))
          then pmp_scan s addr len acc mode n (i + 1) true
          else if negb ((base <=? addr) && (u64 (addr + len) <=? u64 (base + size))) then false
          else
            let cfg := PmpCfg s i in
            if (mode =? kPrivMachine) && negb (tst cfg kPmpL) then true
            else
              let need_r := bool_decide (acc = acc_read \/ acc = acc_amo) in
              let need_w := bool_decide (acc = acc_write \/ acc = acc_amo) in
              let need_x := bool_decide (acc = acc_ifetch) in
              negb ((need_r && negb (tst cfg kPmpR)) || (need_w && negb (tst cfg kPmpW)) ||
                    (need_x && negb (tst cfg kPmpX)))
      end
  end.

Definition RiscvPmpAllowed s (addr len : Z) (acc : acc_class) (mode : Z) : bool :=
  pmp_scan s addr len acc mode 16 0 false.

(** ** Fault causes *)

Definition AccessFaultCause (acc : acc_class) : Z :=
  match acc with acc_ifetch => kExFetchFault | acc_read => kExLoadFault | _ => kExStoreFault end.

Definition PageFaultCause (acc : acc_class) : Z :=
  match acc with acc_ifetch => kExFetchPageFault | acc_read => kExLoadPageFault | _ => kExStorePageFault end.

(** ** The translation cache *)

(** Effective privilege under MPRV. *)
Definition eff_priv s (acc : acc_class) : Z :=
  if tst (mstatus s) kMstatusMprv && negb (bool_decide (acc = acc_ifetch))
  then (mstatus s .& kMstatusMppMask) .>> 11 else priv s.

Definition satp_mode s : Z := (satp s .>> 60) .& 15.

Definition tlb_set (vpn : Z) (acc : acc_class) : Z :=
  u32 (vpn .^ u64 (acc_id acc * 0x9E3779B97F4A7C15)) .& (kTlbSets - 1).

(** Does the entry record the current context, page and access class? *)
Definition tlb_match s (eff vpn : Z) (acc : acc_class) (e : RiscvTlbEntry Dev) : bool :=
  (te_gen e =? tlb_gen s) && (te_vpn e =? vpn) && (te_acc e =? acc_id acc) &&
  (te_satp e =? satp s) && (te_priv e =? priv s) && (te_eff e =? u8 eff) &&
  (te_mstatus e =? mstatus s .& (kMstatusSum .| kMstatusMxr)) &&
  (te_menvcfg e =? menvcfg s .& kMenvcfgAdue) && (te_pmp_gen e =? pmp_gen s).

Definition tlb_way s (vpn : Z) (acc : acc_class) (w : Z) : RiscvTlbEntry Dev :=
  arr (tlb s) (tlb_set vpn acc * kTlbWays + w).

Definition tlb_lookup s (eff vpn : Z) (acc : acc_class) : option (RiscvTlbEntry Dev) :=
  if tlb_match s eff vpn acc (tlb_way s vpn acc 0) then Some (tlb_way s vpn acc 0)
  else if tlb_match s eff vpn acc (tlb_way s vpn acc 1) then Some (tlb_way s vpn acc 1)
  else None.

(** The way a fill replaces, and the clock it leaves. *)
Definition tlb_victim s (vpn : Z) (acc : acc_class) : Z * Z :=
  if negb (te_gen (tlb_way s vpn acc 0) =? tlb_gen s) then (0, tlb_clock s)
  else if negb (te_gen (tlb_way s vpn acc 1) =? tlb_gen s) then (1, tlb_clock s)
  else (tlb_clock s .& 1, u32 (tlb_clock s + 1)).

Definition tlb_fill s (eff vpn : Z) (acc : acc_class) (paddr : Z) (h : option (host_ptr Dev))
    : RiscvState Dev :=
  let '(w, clk) := tlb_victim s vpn acc in
  let te := mkTlbEntry vpn (paddr &~ 0xfff) h (tlb_gen s) (satp s)
              (mstatus s .& (kMstatusSum .| kMstatusMxr)) (menvcfg s .& kMenvcfgAdue)
              (pmp_gen s) (priv s) (u8 eff) (acc_id acc) in
  s <| tlb := arr_set (tlb s) (tlb_set vpn acc * kTlbWays + w) te |> <| tlb_clock := clk |>.

(** ** Leaf checks *)

(** Sign-extension of the low [w] bits: [(int64_t)(vaddr << (64-w)) >> (64-w)]. *)
Definition canonical (w vaddr : Z) : bool :=
  u64 (s64 (u64 (vaddr .<< (64 - w))) .>> (64 - w)) =? vaddr.

Definition leaf_allowed s (eff : Z) (acc : acc_class) (pte : Z) : bool :=
  let ok := negb ((eff =? kPrivUser) && negb (tst pte kPteU)) in
  let ok := ok && negb (tst pte kPteU && (eff =? kPrivSupervisor) &&
                        (negb (tst (mstatus s) kMstatusSum) || bool_decide (acc = acc_ifetch))) in
  match acc with
  | acc_ifetch => ok && tst pte kPteX
  | acc_read => ok && (tst pte kPteR || (tst (mstatus s) kMstatusMxr && tst pte kPteX))
  | _ => ok && tst pte kPteW
  end.

(** The A/D update: [None] when a store needs D and software owns it. *)
Definition leaf_update s (acc : acc_class) (pte : Z) : option Z :=
  let is_store := bool_decide (acc = acc_write \/ acc = acc_amo) in
  new_pte ← (if is_store && negb (tst pte kPteD) then
               if negb (tst (menvcfg s) kMenvcfgAdue) then None else Some (pte .| kPteD)
             else Some pte);
  Some (if tst pte kPteA then new_pte else new_pte .| kPteA).

(** The physical address; [None] for a misaligned superpage. *)
Definition leaf_paddr (level pte vaddr : Z) : option Z :=
  let ppn := pte .>> 10 in
  if 0 <? level then
    let low := 2 ^ (9 * level) - 1 in
    if tst ppn low then None
    else Some (u64 ((ppn &~ low) .<< 12) .| (vaddr .& (2 ^ (12 + 9 * level) - 1)))
  else Some (u64 (ppn .<< 12) .| (vaddr .& 0xfff)).
End pmp.

(** ** The walk *)

Section translate.
Context {Ops Dev W : Type} `{BusDevices Ops Dev W}.
#[local] Abbreviation MM := (M (Mach Ops Dev W)).

Definition PteRead (pte_addr : Z) (acc : acc_class) : MM Z :=
  s <- getrs ;;
  if negb (RiscvPmpAllowed s pte_addr 8 acc_read kPrivSupervisor)
  then raise_paddr_ (AccessFaultCause acc) pte_addr pte_addr
  else
    r <- bus_probe pte_addr 8 ;;
    match r with
    | None => raise_paddr_ (AccessFaultCause acc) pte_addr pte_addr
    | Some _ => bus_read pte_addr 8
    end.

Definition pte_bad (pte : Z) : bool :=
  negb (tst pte kPteV) || (negb (tst pte kPteR) && tst pte kPteW) || tst pte kPteReserved.

(** [n] levels left, the current one being [n - 1]; the result is the last
    PTE, its address and its level ([-1] when no leaf was found). *)
Fixpoint walk (vaddr : Z) (acc : acc_class) (n : nat) (ppn_base pte pte_addr : Z) : MM (Z * Z * Z) :=
  match n with
  | O => mret' (pte, pte_addr, -1)
  | S n =>
      let level := Z.of_nat n in
      let vpn := (vaddr .>> (12 + 9 * level)) .& 0x1ff in
      let pte_addr := u64 (u64 (ppn_base .<< 12) + vpn * 8) in
      pte <- PteRead pte_addr acc ;;
      if pte_bad pte then raise_ (PageFaultCause acc) vaddr
      else if tst pte (kPteR .| kPteX) then mret' (pte, pte_addr, level)
      else walk vaddr acc n (pte .>> 10) pte pte_addr
  end.

Definition page_fault {A} (acc : acc_class) (vaddr : Z) : MM A := raise_ (PageFaultCause acc) vaddr.

Definition walk_top s : nat := if satp_mode (Dev:=Dev) s =? kSatpModeSv48 then 4 else 3.

(** Miss: walk, check, update A/D, fill. *)
Definition translate_walk (eff vaddr size : Z) (acc : acc_class) : MM (Z * option (host_ptr Dev)) :=
  s <- getrs ;;
  if negb (canonical (if satp_mode s =? kSatpModeSv48 then 48 else 39) vaddr)
  then raise_ (PageFaultCause acc) vaddr
  else
  x <- walk vaddr acc (walk_top s) (satp s .& (2 ^ 44 - 1)) 0 0 ;;
  let '(pte, pte_addr, level) := x in
  if negb (leaf_allowed s eff acc pte) then page_fault acc vaddr
  else
  match leaf_update s acc pte with
  | None => page_fault acc vaddr
  | Some new_pte =>
      (when negb (new_pte =? pte) do
         (r <- bus_probe pte_addr 8 ;;
          match r with
          | None => raise_paddr_ (AccessFaultCause acc) vaddr pte_addr
          | Some _ => bus_write pte_addr 8 new_pte
          end)) ;;;
      match leaf_paddr level new_pte vaddr with
      | None => page_fault acc vaddr
      | Some paddr =>
          if negb (RiscvPmpAllowed s paddr size acc (priv s))
          then raise_paddr_ (AccessFaultCause acc) vaddr paddr
          else
            m <- getS ;;
            let h := BusRamPage (bus m) (paddr &~ 0xfff) in
            modrs (fun s => tlb_fill s eff (vaddr .>> 12) acc paddr h) ;;;
            mret' (paddr, h)
      end
  end.

(** Returns the physical address and the host page behind it, if any. *)
Definition RiscvTranslate (vaddr size : Z) (acc : acc_class) : MM (Z * option (host_ptr Dev)) :=
  s <- getrs ;;
  let eff := eff_priv s acc in
  if (eff =? kPrivMachine) || (satp_mode s =? kSatpModeBare) then
    if negb (RiscvPmpAllowed s vaddr size acc (priv s))
    then raise_paddr_ (AccessFaultCause acc) vaddr vaddr
    else m <- getS ;; mret' (vaddr, BusRamPage (bus m) (vaddr &~ 0xfff))
  else
  match tlb_lookup s eff (vaddr .>> 12) acc with
  | Some e => mret' (te_pbase e .| (vaddr .& 0xfff), te_host e)
  | None => translate_walk eff vaddr size acc
  end.
End translate.
