(* ===== verification/RvFrame.v ===== *)
(** * What running code may change: frame relations of the riscv64 core

    A fetch, a load or a page walk reaches devices, and devices may drive
    interrupt lines or halt the machine; nothing else of the processor may
    move.  [dquiet] says exactly that, [quiet] adds the translation cache,
    and [fs_quiet] adds the FS field that an FP instruction dirties. *)

From S2P Require Import Prelude Bus Ram RvState RvCsr RvMmu.

Section frame.
Context {Ops Dev W : Type}.
#[local] Abbreviation Mch := (Mach Ops Dev W).
Implicit Types m : Mch.

(** Halt request and exit code only. *)
Definition cpu_quiet (c c' : CpuState) : Prop :=
  exists h x, c' = c <| halted := h |> <| exit_code := x |>.

Record dquiet m m' : Prop := {
  dq_cpu : cpu_quiet (cpu m) (cpu m');
  dq_rs : exists e, rs m' = (rs m) <| ext_irq := e |>;
  dq_regions : bus_regions (bus m') = bus_regions (bus m);
  dq_wf : bus_wf (bus m) -> bus_wf (bus m');
}.

Record quiet m m' : Prop := {
  q_cpu : cpu_quiet (cpu m) (cpu m');
  q_rs : exists e t c, rs m' = (rs m) <| ext_irq := e |> <| tlb := t |> <| tlb_clock := c |>;
  q_regions : bus_regions (bus m') = bus_regions (bus m);
  q_wf : bus_wf (bus m) -> bus_wf (bus m');
}.

Record fs_quiet m m' : Prop := {
  fq_cpu : cpu_quiet (cpu m) (cpu m');
  fq_rs : exists e t c st, rs m' = (rs m) <| ext_irq := e |> <| tlb := t |> <| tlb_clock := c |> <| mstatus := st |> /\
          st &~ kMstatusFs = mstatus (rs m) &~ kMstatusFs;
  fq_regions : bus_regions (bus m') = bus_regions (bus m);
  fq_wf : bus_wf (bus m) -> bus_wf (bus m');
}.

#[export] Instance cpu_quiet_preorder : PreOrder cpu_quiet.
Proof.
  split.
  - intros c. exists (halted c), (exit_code c). by destruct c.
  - intros c c1 c2 (h & x & ->) (h' & x' & ->). by exists h', x'.
Qed.

#[export] Instance dquiet_preorder : PreOrder dquiet.
Proof.
  split.
  - intros m. split; [reflexivity|exists (ext_irq (rs m)); by destruct (rs m)|done..].
  - intros m m1 m2 [H1 [e H2] H3 H4] [H1' [e' H2'] H3' H4'].
    split; [by etrans|exists e'; by rewrite H2', H2|congruence|auto].
Qed.

#[export] Instance quiet_preorder : PreOrder quiet.
Proof.
  split.
  - intros m. split; [reflexivity|exists (ext_irq (rs m)), (tlb (rs m)), (tlb_clock (rs m)); by destruct (rs m)|done..].
  - intros m m1 m2 [H1 (e & t & c & H2) H3 H4] [H1' (e' & t' & c' & H2') H3' H4'].
    split; [by etrans|exists e', t', c'; by rewrite H2', H2|congruence|auto].
Qed.

#[export] Instance fs_quiet_preorder : PreOrder fs_quiet.
Proof.
  split.
  - intros m. split; [reflexivity| |done..].
    exists (ext_irq (rs m)), (tlb (rs m)), (tlb_clock (rs m)), (mstatus (rs m)). by destruct (rs m).
  - intros m m1 m2 [H1 (e & t & c & st & H2 & Hst) H3 H4] [H1' (e' & t' & c' & st' & H2' & Hst') H3' H4'].
    split; [by etrans| |congruence|auto].
    exists e', t', c', st'. rewrite H2', H2. split; [done|]. by rewrite Hst', H2.
Qed.

Lemma dquiet_quiet m m' : dquiet m m' -> quiet m m'.
Proof.
  intros [? [e He] ? ?]. split; [done| |done..].
  exists e, (tlb (rs m)), (tlb_clock (rs m)). rewrite He. by destruct (rs m).
Qed.

Lemma quiet_fs_quiet m m' : quiet m m' -> fs_quiet m m'.
Proof.
  intros [? (e & t & c & He) ? ?]. split; [done| |done..].
  exists e, t, c, (mstatus (rs m)). rewrite He. by destruct (rs m).
Qed.

(** ** Device access *)

Lemma fold_events_dquiet evs m : dquiet m (fold_left apply_event evs m).
Proof.
  revert m. induction evs as [|e evs IH]; intros m; simpl; [reflexivity|].
  etrans; [|apply IH]. destruct e as [line level|on| |code]; simpl; [|reflexivity|reflexivity|].
  - split; [reflexivity| |done..]. unfold riscv_set_ext_irq. case_match; eexists; reflexivity.
  - split; [by do 2 eexists|exists (ext_irq (rs m)); rsimpl; by destruct (rs m)|done..].
Qed.

Lemma bus_upd_dquiet m b w :
  bus_regions b = bus_regions (bus m) -> (bus_wf (bus m) -> bus_wf b) ->
  dquiet m (m <| bus := b |> <| world := w |>).
Proof. intros. split; [reflexivity|exists (ext_irq (rs m)); rsimpl; by destruct (rs m)|done..]. Qed.

Context `{BusDevices Ops Dev W}.

Lemma find_dquiet m addr len w :
  dquiet m (m <| bus := (FindRegion (bus m) addr len).2 |> <| world := w |>).
Proof. apply bus_upd_dquiet; [apply FindRegion_regions|apply FindRegion_wf]. Qed.

Lemma pres_bus_read addr size : pres dquiet (bus_read addr size).
Proof.
  intros m. unfold wp, bus_read. pose proof (fun w => find_dquiet m addr size w) as Hd.
  destruct (FindRegion _ _ _) as [[r|] b]; [|done].
  destruct (dev_read _ _ _ _ _) as [[v w] evs]. etrans; [apply Hd|apply fold_events_dquiet].
Qed.

Lemma pres_bus_write addr size v : pres dquiet (bus_write addr size v).
Proof.
  intros m. unfold wp, bus_write. pose proof (fun w => find_dquiet m addr size w) as Hd.
  destruct (FindRegion _ _ _) as [[r|] b]; [|done].
  destruct (dev_write _ _ _ _ _ _) as [w evs]. etrans; [apply Hd|apply fold_events_dquiet].
Qed.

Lemma pres_bus_probe addr len : pres dquiet (bus_probe addr len).
Proof.
  intros m. unfold wp, bus_probe, BusProbe. pose proof (find_dquiet m addr len (world m)) as Hd.
  destruct (FindRegion _ _ _) as [r b]. by destruct m.
Qed.
End frame.

(** ** Automation: [pres] of straight-line code by its pieces *)

Create HintDb pres discriminated.
#[export] Hint Resolve pres_ret pres_gets pres_getS pres_throw pres_abort : pres.
#[export] Hint Resolve pres_bus_read pres_bus_write pres_bus_probe : pres.

Ltac pres_step :=
  lazymatch goal with
  | |- pres _ (mbind' _ _) => apply pres_bind; [typeclasses eauto| |intros ?]
  | |- pres _ (match ?x with _ => _ end) => destruct x
  | |- pres _ (let '_ := ?x in _) => destruct x
  | |- pres _ (switch _ _ _) => apply pres_switch; [repeat (apply Forall_cons; split); try apply Forall_nil; cbn [snd]|]
  | |- forall _, _ => intros ?
  end.
Ltac pres_auto := repeat first [solve [eauto with pres typeclass_instances] | pres_step].

Section frame_mmu.
Context {Ops Dev W : Type} `{BusDevices Ops Dev W}.

Lemma pres_getrs R `{!PreOrder R} : pres R (getrs (Ops:=Ops) (Dev:=Dev) (W:=W)).
Proof. apply pres_gets, _. Qed.
Lemma pres_raise {A} (R : Mach Ops Dev W -> Mach Ops Dev W -> Prop) `{!PreOrder R} c t : pres R (raise_ (A:=A) c t).
Proof. apply pres_throw, _. Qed.
Lemma pres_raise_paddr {A} (R : Mach Ops Dev W -> Mach Ops Dev W -> Prop) `{!PreOrder R} c t p :
  pres R (raise_paddr_ (A:=A) c t p).
Proof. apply pres_throw, _. Qed.
#[local] Hint Resolve pres_getrs pres_raise pres_raise_paddr : pres.

Lemma pres_PteRead a acc : pres dquiet (PteRead a acc).
Proof. unfold PteRead. pres_auto. Qed.
#[local] Hint Resolve pres_PteRead : pres.

Lemma pres_walk vaddr acc n ppn pte pa : pres dquiet (walk vaddr acc n ppn pte pa).
Proof. revert ppn pte pa. induction n as [|n IH]; intros; simpl; pres_auto. Qed.

Lemma tlb_fill_quiet (m : Mach Ops Dev W) eff vpn acc pa h :
  quiet m (m <| rs := tlb_fill (rs m) eff vpn acc pa h |>).
Proof.
  split; [reflexivity| |done..]. unfold tlb_fill. case_match.
  exists (ext_irq (rs m)). do 2 eexists. reflexivity.
Qed.

(** A translation changes nothing but the cache, and what devices drive. *)
Lemma pres_RiscvTranslate vaddr size acc : pres quiet (RiscvTranslate vaddr size acc).
Proof.
  unfold RiscvTranslate, translate_walk, page_fault, modrs.
  assert (Hq : forall A (p : M (Mach Ops Dev W) A), pres dquiet p -> pres quiet p).
  { intros A p. apply pres_mono. apply dquiet_quiet. }
  pres_auto.
  - apply Hq, pres_walk.
  - apply pres_modify. intros m. apply tlb_fill_quiet.
Qed.
End frame_mmu.
#[export] Hint Resolve pres_getrs pres_raise pres_raise_paddr pres_RiscvTranslate : pres.
