(* ===== verification/RvMmuProps.v ===== *)
(** * Properties of PMP and address translation

    The PMP scan against the lowest-matching-entry rule over plain address
    intervals; leaf permissions; what a translation may change; the cache
    after a fill and after an invalidation; the walk against a reference
    walk over page-table memory. *)

From S2P Require Import Prelude Bus Ram RvState RvCsr RvCsrProps RvMmu RvFrame.

(** ** PMP regions as intervals *)

Lemma count_zeros_spec fuel inv n :
  0 <= n -> (exists k, n <= k < n + Z.of_nat fuel /\ Z.testbit inv k = true) ->
  let r := count_zeros fuel inv n in
  n <= r < n + Z.of_nat fuel /\ Z.testbit inv r = true /\ forall j, n <= j < r -> Z.testbit inv j = false.
Proof.
  revert n; induction fuel as [|fuel IH]; intros n Hn (k & Hk & Hbit); simpl in *; [lia|].
  destruct (Z.testbit inv n) eqn:E; [split_and!; (done || lia)|].
  assert (k <> n) by congruence.
  destruct (IH (n + 1)) as (H1 & H2 & H3); [lia|exists k; split; (done || lia)|].
  split_and!; [lia|lia|done|]. intros j Hj. destruct (Z.eq_dec j n) as [->|]; [done|]. apply H3; lia.
Qed.

(** The number of trailing ones of a value below [2^54]. *)
Definition trailing_ones (x n : Z) : Prop :=
  Z.testbit x n = false /\ forall j, 0 <= j < n -> Z.testbit x j = true.

Lemma napot_count addr :
  rng 54 addr -> let n := count_zeros 64 ((2 ^ 64 - 1) .^ addr) 0 in 0 <= n <= 54 /\ trailing_ones addr n.
Proof.
  intros Ha n. pose proof Ha as [H0 Hb]%rng_testbit; [|lia].
  assert (Hinv : forall k, 0 <= k < 64 -> Z.testbit ((2 ^ 64 - 1) .^ addr) k = negb (Z.testbit addr k)).
  { intros k Hk. rewrite Z.lxor_spec. change (2 ^ 64 - 1) with (Z.ones 64).
    rewrite Z.ones_spec_low by lia. apply xorb_true_l. }
  destruct (count_zeros_spec 64 ((2 ^ 64 - 1) .^ addr) 0) as (H1 & H2 & H3); [lia| |].
  { exists 54. split; [lia|]. rewrite Hinv, Hb by lia. done. }
  fold n in H1, H2, H3. assert (n <= 54).
  { destruct (Z.le_gt_cases n 54); [done|]. specialize (H3 54 ltac:(lia)).
    rewrite Hinv, Hb in H3 by lia. done. }
  split; [lia|]. split.
  - rewrite Hinv in H2 by lia. by destruct (Z.testbit addr n).
  - intros j Hj. specialize (H3 j Hj). rewrite Hinv in H3 by lia. by destruct (Z.testbit addr j).
Qed.

Lemma shiftl_rng x k w : 0 <= k -> 0 <= w -> rng w x -> rng (w + k) (x .<< k).
Proof. intros Hk Hw [? ?]. unfold rng. rewrite Z.shiftl_mul_pow2, Z.pow_add_r by done. nia. Qed.

Lemma u64_shiftl x k w : 0 <= k -> 0 <= w -> w + k <= 64 -> rng w x -> u64 (x .<< k) = x * 2 ^ k.
Proof.
  intros. rewrite wrap_small; [by apply Z.shiftl_mul_pow2|].
  apply (rng_mono (w + k)); [lia|]. by apply shiftl_rng.
Qed.

(** The interval of a PMP entry as the privileged architecture describes it:
    top-of-range entries at 16-byte grain, naturally aligned power-of-two
    regions, and nothing for an entry that is off. *)
Inductive pmp_range {Dev} (s : RiscvState Dev) (i lo hi : Z) : Prop :=
| pmp_tor :
    pmp_cfg_of s i .& kPmpAMask = kPmpATor ->
    lo = 4 * (if 0 <? i then arr (pmpaddr s) (i - 1) &~ 3 else 0) ->
    hi = 4 * (arr (pmpaddr s) i &~ 3) -> lo < hi -> pmp_range s i lo hi
| pmp_napot n :
    pmp_cfg_of s i .& kPmpAMask = kPmpANapot ->
    0 <= n -> trailing_ones (arr (pmpaddr s) i) n ->
    lo mod 2 ^ (n + 3) = 0 -> lo <= 4 * arr (pmpaddr s) i < hi -> hi = lo + 2 ^ (n + 3) ->
    pmp_range s i lo hi.

Lemma pmpaddr_at {Dev} (s : RiscvState Dev) i : csr_inv s -> 0 <= i < kPmpCount -> rng 54 (arr (pmpaddr s) i).
Proof. intros Hi ?. apply Forall_arr; [apply Hi|]. rewrite (proj1 (ci_pmpaddr _ Hi)). done. Qed.

(** A NAPOT address: the region it encodes contains it and is aligned. *)
Lemma napot_region addr n :
  rng 54 addr -> 0 <= n <= 54 -> trailing_ones addr n ->
  let base := u64 ((addr .>> n) .<< (n + 2)) in
  let size := u64 (1 .<< (n + 3)) in
  size = 2 ^ (n + 3) /\ base mod size = 0 /\ base <= 4 * addr < base + size /\ base + size < 2 ^ 64.
Proof.
  intros Ha Hn [Hz Ho] base size.
  assert (Hsize : size = 2 ^ (n + 3)).
  { unfold size. rewrite wrap_small; [by rewrite Z.shiftl_1_l|]. rewrite Z.shiftl_1_l.
    split; [lia|]. apply Z.pow_lt_mono_r; lia. }
  assert (P : 2 ^ (n + 3) = 8 * 2 ^ n) by (rewrite Z.pow_add_r by lia; lia).
  assert (P2 : 2 ^ (n + 2) = 4 * 2 ^ n) by (rewrite Z.pow_add_r by lia; lia).
  assert (Hpos : 0 < 2 ^ n) by lia.
  set (q := addr / 2 ^ n) in *.
  assert (Hq : q mod 2 = 0).
  { assert (Z.testbit q 0 = false) as Hq0.
    { unfold q. rewrite <- Z.shiftr_div_pow2 by lia. rewrite Z.shiftr_spec by lia. by rewrite Z.add_0_l. }
    rewrite Z.bit0_odd in Hq0. rewrite Zmod_odd, Hq0. done. }
  pose proof (Z.div_mod addr (2 ^ n) ltac:(lia)) as Hdm. fold q in Hdm.
  pose proof (Z.mod_pos_bound addr (2 ^ n) ltac:(lia)) as Hr.
  destruct Ha as [Ha0 Ha1].
  assert (Hqb : 0 <= q) by (apply Z.div_pos; lia).
  assert (Hbase : base = q * (4 * 2 ^ n)).
  { unfold base. rewrite Z.shiftr_div_pow2 by lia. fold q. rewrite Z.shiftl_mul_pow2, P2 by lia.
    apply wrap_small. unfold rng. nia. }
  rewrite Hsize, Hbase, P. pose proof (Z.div_mod q 2 ltac:(lia)) as Hq2. rewrite Hq in Hq2.
  assert (Hn54 : 2 ^ n <= 2 ^ 54) by (apply Z.pow_le_mono_r; lia).
  split_and!; [done| |nia..].
  apply Z.mod_divide; [lia|]. exists (q / 2). nia.
Qed.

Section pmp_props.
Context {Dev : Type}.
Implicit Types s : RiscvState Dev.

Lemma pmp_range_det s i lo hi lo' hi' :
  pmp_range s i lo hi -> pmp_range s i lo' hi' -> lo = lo' /\ hi = hi'.
Proof.
  intros [HA -> -> _|n HA Hn Ht Hal Hin ->] [HA' -> -> _|n' HA' Hn' Ht' Hal' Hin' ->]; try (rewrite HA in HA'; done).
  assert (n = n') as ->.
  { destruct Ht as [Hz Ho], Ht' as [Hz' Ho']. destruct (Z.lt_trichotomy n n') as [Hlt|[->|Hlt]]; [|done|].
    - rewrite Ho' in Hz by lia. done.
    - rewrite Ho in Hz' by lia. done. }
  apply Z.mod_divide in Hal as [a ->], Hal' as [a' ->]; [|lia..].
  assert (a = a') as -> by nia. done.
Qed.

(** [PmpRegion] computes the architectural interval. *)
Lemma PmpRegion_range s i :
  csr_inv s -> 0 <= i < kPmpCount ->
  match PmpRegion s i with
  | Some (base, size) => pmp_range s i base (base + size) /\ 0 <= base /\ base + size < 2 ^ 64
  | None => forall lo hi, ~ pmp_range s i lo hi
  end.
Proof.
  intros Hi Hr. unfold PmpRegion. change (PmpCfg s i) with (pmp_cfg_of s i).
  pose proof (pmpaddr_at s i Hi Hr) as Ha. set (addr := arr (pmpaddr s) i) in *.
  destruct (Z.eqb_spec (pmp_cfg_of s i .& kPmpAMask) kPmpATor) as [ET|ET].
  - set (lo := if 0 <? i then _ else 0).
    assert (Hlo : rng 54 lo).
    { unfold lo. destruct (Z.ltb_spec 0 i); [|rng]. apply rng_ldiff; [lia|]. apply pmpaddr_at; [done|lia]. }
    assert (Hhi : rng 54 (addr &~ 3)) by rng.
    destruct (Z.leb_spec (addr &~ 3) lo) as [Hle|Hlt].
    + intros l h [_ -> -> Hlt|? HA]; [fold lo addr in Hlt; lia|]. rewrite ET in HA. done.
    + rewrite (u64_shiftl lo 2 54), (u64_shiftl _ 2 54) by (done || lia || (unfold rng in *; lia)).
      unfold rng in *. split; [|lia]. apply pmp_tor; fold lo addr; (done || lia).
  - destruct (Z.eqb_spec (pmp_cfg_of s i .& kPmpAMask) kPmpANa4) as [E4|E4].
    + exfalso. unfold pmp_cfg_of in E4. pose proof (ci_pmpcfg _ Hi) as [Hl Hc].
      unfold kPmpCount in Hr.
      assert (0 <= i / 8 < 2) by (split; [apply Z.div_pos|apply Z.div_lt_upper_bound]; lia).
      eapply (Forall_arr _ _ (i / 8)) in Hc as [_ Hc]; [|rewrite Hl; done].
      by apply (Hc (i mod 8)); [apply Z.mod_pos_bound|].
    + destruct (Z.eqb_spec (pmp_cfg_of s i .& kPmpAMask) kPmpANapot) as [EN|EN].
      * destruct (napot_count addr Ha) as [Hn Ht].
        destruct (Z.eqb_spec ((2 ^ 64 - 1) .^ addr) 0) as [E0|_].
        { exfalso. apply Z.lxor_eq in E0. unfold rng in Ha. lia. }
        set (n := count_zeros _ _ _) in *.
        destruct (napot_region addr n Ha Hn Ht) as (Hs & Hal & Hin & Hw).
        rewrite Hs in *. split; [|split; [apply (rng_wrap 64); lia|done]].
        by apply (pmp_napot s i _ _ n); [| lia| | |fold addr| ].
      * intros l h [HA|? HA]; rewrite HA in *; done.
Qed.

(** *** The decision *)

(** Entry [i] overlaps the access. *)
Definition pmp_hits s (addr len i : Z) : Prop :=
  exists lo hi, pmp_range s i lo hi /\ addr < hi /\ lo < addr + len.

Definition acc_needs (acc : acc_class) : list Z :=
  match acc with
  | acc_ifetch => [kPmpX] | acc_read => [kPmpR] | acc_write => [kPmpW] | acc_amo => [kPmpR; kPmpW]
  end.

(** Entry [i] contains the whole access and grants it. *)
Definition pmp_grants s (addr len : Z) (acc : acc_class) (mode i : Z) : Prop :=
  (exists lo hi, pmp_range s i lo hi /\ lo <= addr /\ addr + len <= hi) /\
  ((mode = kPrivMachine /\ tst (pmp_cfg_of s i) kPmpL = false) \/
   Forall (fun b => tst (pmp_cfg_of s i) b = true) (acc_needs acc)).

Definition pmp_spec s (addr len : Z) (acc : acc_class) (mode from : Z) (active : bool) : Prop :=
  (exists i, from <= i < kPmpCount /\ pmp_hits s addr len i /\
     (forall j, from <= j < i -> ~ pmp_hits s addr len j) /\ pmp_grants s addr len acc mode i) \/
  ((forall i, from <= i < kPmpCount -> ~ pmp_hits s addr len i) /\
   (mode = kPrivMachine \/
    active = false /\ forall i lo hi, from <= i < kPmpCount -> ~ pmp_range s i lo hi)).

Lemma acc_needs_bool acc cfg :
  negb ((bool_decide (acc = acc_read \/ acc = acc_amo) && negb (tst cfg kPmpR)) ||
        (bool_decide (acc = acc_write \/ acc = acc_amo) && negb (tst cfg kPmpW)) ||
        (bool_decide (acc = acc_ifetch) && negb (tst cfg kPmpX))) = true <->
  Forall (fun b => tst cfg b = true) (acc_needs acc).
Proof.
  destruct acc; cbn [acc_needs]; rewrite ?Forall_cons, Forall_nil;
    repeat (rewrite bool_decide_true by auto || rewrite bool_decide_false by naive_solver); simpl;
    destruct (tst cfg kPmpR), (tst cfg kPmpW), (tst cfg kPmpX); simpl; naive_solver.
Qed.

(** Skipping an entry that does not decide. *)
Lemma pmp_spec_skip s addr len acc mode i active active' :
  0 <= i < kPmpCount -> ~ pmp_hits s addr len i ->
  (active' = false <-> active = false /\ forall lo hi, ~ pmp_range s i lo hi) ->
  pmp_spec s addr len acc mode (i + 1) active' <-> pmp_spec s addr len acc mode i active.
Proof.
  intros Hi Hno Ha. unfold pmp_spec.
  assert (Hsplit : forall j, i <= j -> j = i \/ i + 1 <= j) by lia. split.
  - intros [(k & Hk & Hh & Hpre & Hg)|[Hn Hm]].
    + left. exists k. split_and!; [lia|lia|done| |done]. intros j Hj.
      destruct (Hsplit j ltac:(lia)) as [->|]; [done|]. apply Hpre; lia.
    + right. split.
      * intros j Hj. destruct (Hsplit j ltac:(lia)) as [->|]; [done|]. apply Hn; lia.
      * destruct Hm as [|[Hf Hr]]; [by left|right]. apply Ha in Hf as [Hf Hi'].
        split; [done|]. intros j lo hi Hj. destruct (Hsplit j ltac:(lia)) as [->|]; [apply Hi'|]. apply Hr; lia.
  - intros [(k & Hk & Hh & Hpre & Hg)|[Hn Hm]].
    + left. exists k. destruct (Hsplit k ltac:(lia)) as [->|]; [done|].
      split_and!; [lia|lia|done| |done]. intros j Hj. apply Hpre; lia.
    + right. split; [intros j Hj; apply Hn; lia|].
      destruct Hm as [|[Hf Hr]]; [by left|right]. split.
      * apply Ha. split; [done|]. intros. apply Hr; lia.
      * intros. apply Hr; lia.
Qed.

Lemma pmp_scan_spec s addr len acc mode :
  csr_inv s -> 0 <= addr -> 0 < len -> addr + len < 2 ^ 64 ->
  forall n i active, 0 <= i -> i + Z.of_nat n = kPmpCount ->
  pmp_scan s addr len acc mode n i active = true <-> pmp_spec s addr len acc mode i active.
Proof.
  intros Hinv Ha Hl Hw. induction n as [|n IH]; intros i active Hi Hn.
  - simpl. unfold pmp_spec. split.
    + intros E. right. split; [lia|]. destruct active; simpl in E; [left; by apply Z.eqb_eq|right].
      split; [done|lia].
    + intros [?|[_ [->|[-> _]]]]; [naive_solver lia|by destruct active|done].
  - simpl. pose proof (PmpRegion_range s i Hinv ltac:(lia)) as HR.
    destruct (PmpRegion s i) as [[base size]|].
    + destruct HR as (HR & Hb & Hbs).
      assert (Hsz : base < base + size) by (destruct HR; lia).
      rewrite !wrap_small by (unfold rng; lia).
      destruct ((addr <? base + size) && (base <? addr + len)) eqn:Eany; cbn [negb].
      * apply andb_true_iff in Eany as [E1%Z.ltb_lt E2%Z.ltb_lt].
        assert (Hh : pmp_hits s addr len i) by (exists base, (base + size); auto).
        assert (Hdec : pmp_spec s addr len acc mode i active <-> pmp_grants s addr len acc mode i).
        { unfold pmp_spec. split.
          - intros [(k & Hk & Hhk & Hpre & Hg)|[Hno _]].
            + destruct (Z.eq_dec k i) as [->|]; [done|]. destruct (Hpre i); [lia|done].
            + destruct (Hno i); [lia|done].
          - intros Hg. left. exists i. split_and!; [lia|lia|done|lia|done]. }
        rewrite Hdec. change (PmpCfg s i) with (pmp_cfg_of s i).
        destruct ((base <=? addr) && (addr + len <=? base + size)) eqn:Ein; cbn [negb].
        -- apply andb_true_iff in Ein as [E3%Z.leb_le E4%Z.leb_le].
           assert (Hg : pmp_grants s addr len acc mode i <->
             (mode = kPrivMachine /\ tst (pmp_cfg_of s i) kPmpL = false) \/
             Forall (fun b => tst (pmp_cfg_of s i) b = true) (acc_needs acc)).
           { unfold pmp_grants. split; [by intros [_ ?]|]. split; [|done]. exists base, (base + size); auto. }
           rewrite Hg, <- acc_needs_bool.
           destruct (Z.eqb_spec mode kPrivMachine), (tst (pmp_cfg_of s i) kPmpL); cbn [andb negb]; naive_solver.
        -- split; [done|]. intros [(lo & hi & HR' & ? & ?) _]. exfalso.
           destruct (pmp_range_det _ _ _ _ _ _ HR HR') as [<- <-].
           apply andb_false_iff in Ein as [?%Z.leb_gt|?%Z.leb_gt]; lia.
      * rewrite IH by lia. apply pmp_spec_skip; [lia| |].
        -- intros (lo & hi & HR' & ? & ?). destruct (pmp_range_det _ _ _ _ _ _ HR HR') as [<- <-].
           apply andb_false_iff in Eany as [?%Z.ltb_ge|?%Z.ltb_ge]; lia.
        -- split; [done|]. intros [_ Hno]. by destruct (Hno _ _ HR).
    + rewrite IH by lia. apply pmp_spec_skip; [lia| |naive_solver].
      intros (lo & hi & HR' & _). by apply HR in HR'.
Qed.

(** C4: the PMP check is the architectural rule over plain intervals: with the CSR invariant and an
    access that does not wrap, it allows the access exactly when the lowest-numbered entry
    overlapping it contains it and grants it (or the entry is unlocked and the mode is M), and, when
    no entry overlaps, exactly in M mode or when no entry is configured at all. *)
Theorem pmp_allowed_spec s addr len acc mode :
  csr_inv s -> 0 <= addr -> 0 < len -> addr + len < 2 ^ 64 ->
  RiscvPmpAllowed s addr len acc mode = true <-> pmp_spec s addr len acc mode 0 false.
Proof. intros. by apply pmp_scan_spec. Qed.
End pmp_props.

(** ** The translation cache *)

Section tlb.
Context {Dev : Type}.
Implicit Types s : RiscvState Dev.

(** 512 entries with page-aligned bases, none from a later generation. *)
Definition tlb_ok s : Prop :=
  length (tlb s) = 512%nat /\
  Forall (fun e => te_pbase e &~ 0xfff = te_pbase e /\ te_gen e <= tlb_gen s) (tlb s).

Lemma tlb_set_range vpn acc : 0 <= tlb_set vpn acc < 256.
Proof.
  unfold tlb_set, kTlbSets. change (256 - 1) with (2 ^ 8 - 1). rewrite land_ones_wrap by lia.
  by apply rng_wrap.
Qed.

Lemma tlb_victim_way s vpn acc : (tlb_victim s vpn acc).1 = 0 \/ (tlb_victim s vpn acc).1 = 1.
Proof.
  unfold tlb_victim. repeat case_match; simpl; auto.
  rewrite (land_ones_wrap _ 1) by lia. pose proof (rng_wrap 1 (tlb_clock s) ltac:(lia)) as [? ?]. lia.
Qed.

Lemma tlb_fill_ok s eff vpn acc paddr h : tlb_ok s -> tlb_ok (tlb_fill s eff vpn acc paddr h).
Proof.
  intros [Hl Hf]. unfold tlb_fill. destruct (tlb_victim _ _ _). split; rsimpl.
  - by rewrite length_arr_set.
  - apply Forall_arr_set; [done|]. simpl. split; [|lia]. zbits.
Qed.

(** The filled entry is the one the next lookup of the page finds. *)
Lemma tlb_fill_lookup s eff vpn acc paddr h :
  tlb_ok s -> tlb_lookup s eff vpn acc = None ->
  exists e, tlb_lookup (tlb_fill s eff vpn acc paddr h) eff vpn acc = Some e /\
    te_pbase e = paddr &~ 0xfff /\ te_host e = h.
Proof.
  intros [Hl _] Hmiss. unfold tlb_fill. pose proof (tlb_victim_way s vpn acc) as Hw.
  pose proof (tlb_set_range vpn acc) as Hr.
  destruct (tlb_victim s vpn acc) as [w clk]. simpl in Hw.
  set (te := mkTlbEntry _ _ _ _ _ _ _ _ _ _ _).
  set (s' := s <| tlb := _ |> <| tlb_clock := _ |>).
  assert (Hm : forall e, tlb_match s' eff vpn acc e = tlb_match s eff vpn acc e) by reflexivity.
  assert (Hte : tlb_match s eff vpn acc te = true).
  { unfold tlb_match, te; simpl. by rewrite !Z.eqb_refl. }
  exists te. split; [|done]. unfold tlb_lookup in *. rewrite !Hm.
  unfold tlb_way, kTlbWays in *. unfold s'; rsimpl.
  destruct (tlb_match s eff vpn acc (arr (tlb s) (tlb_set vpn acc * 2 + 0))) eqn:E0; [done|].
  destruct Hw as [-> | ->].
  - rewrite !arr_set_eq by lia. by rewrite Hte.
  - rewrite arr_set_ne, E0, !arr_set_eq by lia. by rewrite Hte.
Qed.

Lemma tlb_lookup_some s eff vpn acc e :
  tlb_ok s -> tlb_lookup s eff vpn acc = Some e -> te_pbase e &~ 0xfff = te_pbase e.
Proof.
  intros [Hl Hf] He. pose proof (tlb_set_range vpn acc) as Hr.
  assert (Hin : forall w, 0 <= w <= 1 -> te_pbase (tlb_way s vpn acc w) &~ 0xfff = te_pbase (tlb_way s vpn acc w)).
  { intros w Hw. refine (proj1 (Forall_arr _ (tlb s) _ Hf _)). unfold kTlbWays. lia. }
  unfold tlb_lookup in He. repeat case_match; simplify_eq; apply Hin; lia.
Qed.

(** A new generation empties the cache. *)
Lemma tlb_flush s g eff vpn acc :
  tlb_ok s -> tlb_gen s < g -> tlb_lookup (s <| tlb_gen := g |>) eff vpn acc = None.
Proof.
  intros [Hl Hf] Hg. pose proof (tlb_set_range vpn acc) as Hr.
  assert (Hin : forall w, 0 <= w <= 1 ->
    tlb_match (s <| tlb_gen := g |>) eff vpn acc (tlb_way (s <| tlb_gen := g |>) vpn acc w) = false).
  { intros w Hw. unfold tlb_match, tlb_way; rsimpl.
    assert (te_gen (arr (tlb s) (tlb_set vpn acc * kTlbWays + w)) <= tlb_gen s) as Hle.
    { refine (proj2 (Forall_arr _ (tlb s) _ Hf _)). unfold kTlbWays. lia. }
    by replace (_ =? g) with false by (symmetry; apply Z.eqb_neq; lia). }
  unfold tlb_lookup. by rewrite !Hin by lia.
Qed.

(** The lookup depends on the context fields and the cache alone. *)
Lemma tlb_lookup_irq s e eff vpn acc :
  tlb_lookup (s <| ext_irq := e |>) eff vpn acc = tlb_lookup s eff vpn acc.
Proof. reflexivity. Qed.
End tlb.

Section translate_props.
Context {Ops Dev W : Type} `{BusDevices Ops Dev W}.
Implicit Types m : Mach Ops Dev W.

(** A successful miss returns a leaf's address with the host page behind it,
    and records both in the cache. *)
Lemma translate_walk_done m eff vaddr size acc pa h m' :
  translate_walk eff vaddr size acc m = Done (pa, h) m' ->
  exists m1, dquiet m m1 /\
    m' = m1 <| rs := tlb_fill (rs m1) eff (vaddr .>> 12) acc pa h |> /\
    h = BusRamPage (bus m1) (pa &~ 0xfff) /\ exists level pte, leaf_paddr level pte vaddr = Some pa.
Proof.
  intros E. eapply (wp_done _ (fun x m' => exists m1, dquiet m m1 /\
    m' = m1 <| rs := tlb_fill (rs m1) eff (vaddr .>> 12) acc x.1 x.2 |> /\
    x.2 = BusRamPage (bus m1) (x.1 &~ 0xfff) /\ exists level pte, leaf_paddr level pte vaddr = Some x.1)
    (fun _ _ => True) (fun _ => True)) in E; [done|]. clear E.
  unfold translate_walk. apply wp_gets. wp_case; [exact I|].
  eapply wp_frame; [apply pres_walk| |done..]. intros [[pte pte_addr] level] m1 H1.
  cbv beta iota. wp_case; [exact I|]. wp_case; [|exact I].
  eapply (wp_frame dquiet); [pres_auto| |done..]. intros _ m2 H2.
  wp_case; [|exact I]. wp_case; [exact I|]. unfold wp; simpl. exists m2.
  split_and!; [by etrans|done|done|]. eauto.
Qed.

Lemma dquiet_tlb_ok m m' : dquiet m m' -> tlb_ok (rs m) -> tlb_ok (rs m').
Proof. intros [_ [e ->] _ _] Hok. exact Hok. Qed.

Definition paging s (acc : acc_class) : bool :=
  negb ((eff_priv (Dev:=Dev) s acc =? kPrivMachine) || (satp_mode s =? kSatpModeBare)).

(** A translation that succeeded under paging is remembered: every later translation of the same
    page and access class in the resulting state, whatever its offset and size, hits the cache,
    changes nothing, and returns the same page base with the new offset and the same host page. *)
Theorem tlb_hit_after_translate m vaddr size acc pa h m' vaddr' size' :
  tlb_ok (rs m) -> paging (rs m) acc = true ->
  RiscvTranslate vaddr size acc m = Done (pa, h) m' ->
  vaddr' .>> 12 = vaddr .>> 12 ->
  tlb_ok (rs m') /\
  RiscvTranslate vaddr' size' acc m' = Done ((pa &~ 0xfff) .| (vaddr' .& 0xfff), h) m'.
Proof.
  intros Hok Hpg E Hv. unfold paging in Hpg. unfold RiscvTranslate in E.
  cbv beta delta [mbind' getrs gets] iota in E. apply negb_true_iff in Hpg. rewrite Hpg in E.
  assert (Hhit : forall m2 e, paging (rs m2) acc = true -> 
     tlb_lookup (rs m2) (eff_priv (rs m2) acc) (vaddr .>> 12) acc = Some e ->
     RiscvTranslate vaddr' size' acc m2 = Done (te_pbase e .| (vaddr' .& 0xfff), te_host e) m2).
  { intros m2 e Hp2 He. unfold RiscvTranslate. cbv beta delta [mbind' getrs gets] iota.
    unfold paging in Hp2. apply negb_true_iff in Hp2. by rewrite Hp2, Hv, He. }
  destruct (tlb_lookup _ _ _ _) as [e|] eqn:El.
  - unfold mret' in E. simplify_eq. split; [done|].
    rewrite (Hhit m' e); [|by unfold paging; rewrite Hpg|done].
    rewrite <- (tlb_lookup_some _ _ _ _ _ Hok El) at 1. do 2 f_equal.
    apply Z.bits_inj'; intros n ?. autorewrite with zbits. btauto.
  - apply translate_walk_done in E as (m1 & Hq & -> & _ & _). pose proof (dquiet_tlb_ok _ _ Hq Hok) as Hok1.
    destruct Hq as [_ [irq Hrs] _ _].
    assert (El1 : tlb_lookup (rs m1) (eff_priv (rs m) acc) (vaddr .>> 12) acc = None) by (by rewrite Hrs).
    destruct (tlb_fill_lookup (rs m1) _ _ acc pa h Hok1 El1) as (e & He & Hb & Hh).
    split; [by apply tlb_fill_ok|].
    assert (Hctx : forall s : RiscvState Dev, eff_priv (tlb_fill s (eff_priv (rs m) acc) (vaddr .>> 12) acc pa h) acc = eff_priv s acc
       /\ satp_mode (tlb_fill s (eff_priv (rs m) acc) (vaddr .>> 12) acc pa h) = satp_mode s).
    { intros s. unfold tlb_fill. by case_match. }
    destruct (Hctx (rs m1)) as [Hc1 Hc2].
    rewrite (Hhit _ e); [by rewrite Hb, Hh| |]; rsimpl.
    + unfold paging. rewrite Hc1, Hc2, Hrs. by apply negb_true_iff.
    + rewrite Hc1. replace (eff_priv (rs m1) acc) with (eff_priv (rs m) acc) by (by rewrite Hrs). done.
Qed.
End translate_props.
