(* ===== verification/RvWalk.v ===== *)
(** * The page walk refines a reference translation

    The reference reads page-table entries from memory, descends with plain
    arithmetic, and checks a leaf against the permission table of the
    privileged architecture.  [translate_walk] computes the same result,
    writes the same A/D update, and touches nothing else but the caches. *)

From S2P Require Import Prelude Bus Ram RvState RvCsr RvCsrProps RvMmu RvFrame RvMmuProps.

(** ** RAM behind the bus *)

Section ram_access.
Context {Ops Dev W : Type} `{BusDevices Ops Dev W}.
Implicit Types m : Mach Ops Dev W.

(** The machine [m] with another world, up to the decode cache. *)
Definition at_bus m (w : W) m' : Prop :=
  exists b, bus_regions b = bus_regions (bus m) /\ bus_wf b /\ m' = m <| bus := b |> <| world := w |>.

Definition host_at (h : host_ptr Dev) (r : BusRegion Ops Dev) (addr : Z) : host_ptr Dev :=
  HostPtr (hp_block h) (hp_off h + (addr - r_base r)).

Lemma decode_regions (b b' : Bus Ops Dev) addr len :
  bus_regions b' = bus_regions b -> decode_spec b' addr len = decode_spec b addr len.
Proof. intros E. unfold decode_spec. by rewrite E. Qed.

Lemma probe_decode m addr len :
  bus_wf (bus m) -> 0 <= addr -> 0 < len ->
  exists m', bus_probe addr len m = Done (decode_spec (bus m) addr len) m' /\ at_bus m (world m) m'.
Proof.
  intros Hwf Ha Hl. unfold bus_probe, BusProbe. pose proof (FindRegion_decode (bus m) addr len Hwf Ha Hl) as E.
  pose proof (FindRegion_regions (bus m) addr len) as Er. pose proof (FindRegion_wf (bus m) addr len Hwf) as Ew.
  destruct (FindRegion _ _ _) as [r b]. simpl in *. subst r.
  eexists. split; [done|]. exists b. by destruct m.
Qed.

Context {bus0 : Bus Ops Dev} `{!BusDevicesOk Ops Dev W bus0}.

Lemma bus_read_ram m addr size r h :
  bus_regions (bus m) = bus_regions bus0 -> bus_wf (bus m) -> 0 <= addr -> 0 < size <= 8 ->
  decode_spec (bus m) addr size = Some r -> r_host r = Some h ->
  exists m', bus_read addr size m = Done (host_load (host_at h r addr) size (world m)) m' /\
    at_bus m (world m) m'.
Proof.
  intros Hreg Hwf Ha Hl Hd Hh. pose proof (FindRegion_decode (bus m) addr size Hwf Ha (proj1 Hl)) as E.
  destruct (decode_in _ _ _ _ Hwf Ha (proj1 Hl) Hd) as (Hin & Hlo & Hhi).
  unfold bus_read. pose proof (FindRegion_regions (bus m) addr size) as Er.
  pose proof (FindRegion_wf (bus m) addr size Hwf) as Ew.
  destruct (FindRegion _ _ _) as [r' b]. simpl in *. rewrite E, Hd.
  rewrite Hreg in Hin. rewrite (bd_ram_read r h addr size (world m)) by (done || lia). simpl.
  eexists. split; [done|]. by exists b.
Qed.

Lemma bus_write_ram m addr size v r h :
  bus_regions (bus m) = bus_regions bus0 -> bus_wf (bus m) -> 0 <= addr -> 0 < size <= 8 ->
  decode_spec (bus m) addr size = Some r -> r_host r = Some h ->
  exists m', bus_write addr size v m = Done tt m' /\
    at_bus m (host_store (host_at h r addr) size v (world m)) m'.
Proof.
  intros Hreg Hwf Ha Hl Hd Hh. pose proof (FindRegion_decode (bus m) addr size Hwf Ha (proj1 Hl)) as E.
  destruct (decode_in _ _ _ _ Hwf Ha (proj1 Hl) Hd) as (Hin & Hlo & Hhi).
  unfold bus_write. pose proof (FindRegion_regions (bus m) addr size) as Er.
  pose proof (FindRegion_wf (bus m) addr size Hwf) as Ew.
  destruct (FindRegion _ _ _) as [r' b]. simpl in *. rewrite E, Hd.
  rewrite Hreg in Hin. rewrite (bd_ram_write r h addr size v (world m)) by (done || lia). simpl.
  eexists. split; [done|]. by exists b.
Qed.

Lemma at_bus_refl m : bus_wf (bus m) -> at_bus m (world m) m.
Proof. intros. exists (bus m). by destruct m. Qed.

Lemma at_bus_trans m w m1 w' m2 : at_bus m w m1 -> at_bus m1 w' m2 -> at_bus m w' m2.
Proof. intros (b & E & Hw & ->) (b' & E' & Hw' & ->). exists b'. split; [by rewrite E'|done]. Qed.

Lemma at_bus_wf m w m' : at_bus m w m' ->
  bus_wf (bus m') /\ bus_regions (bus m') = bus_regions (bus m) /\ rs m' = rs m /\ cpu m' = cpu m /\ world m' = w.
Proof. by intros (b & E & Hw & ->). Qed.
End ram_access.

(** ** The reference translation *)

(** What a page-table address holds: a value in RAM, nothing readable
    (unmapped or PMP-denied), or a device register. *)
Inductive pte_src := PtVal (v : Z) | PtFault | PtDevice.

Inductive walk_out :=
| WLeaf (pte pte_addr : Z) (level : nat)
| WPageFault
| WAccessFault (pte_addr : Z)
| WDevice.

Definition vpn_at (vaddr : Z) (level : nat) : Z := (vaddr / 2 ^ (12 + 9 * Z.of_nat level)) mod 512.

Fixpoint ref_walk (pt : Z -> pte_src) (vaddr : Z) (n : nat) (root : Z) : walk_out :=
  match n with
  | O => WPageFault
  | S n =>
      let a := root * 4096 + vpn_at vaddr n * 8 in
      match pt a with
      | PtFault => WAccessFault a
      | PtDevice => WDevice
      | PtVal pte =>
          if negb (Z.testbit pte 0) || (negb (Z.testbit pte 1) && Z.testbit pte 2) || (2 ^ 54 <=? pte)
          then WPageFault
          else if Z.testbit pte 1 || Z.testbit pte 3 then WLeaf pte a n
          else ref_walk pt vaddr n (pte / 2 ^ 10)
      end
  end.

(** The permission table: [u], [r], [w], [x], [d] are the leaf's bits. *)
Definition ref_perm (eff : Z) (acc : acc_class) (sum mxr adue u r w x d : bool) : bool :=
  match acc with
  | acc_ifetch => x
  | acc_read => r || (mxr && x)
  | acc_write | acc_amo => w && (d || adue)
  end &&
  (if eff =? kPrivUser then u
   else if eff =? kPrivSupervisor then negb u || (sum && negb (bool_decide (acc = acc_ifetch)))
   else true).

Definition ref_ad (acc : acc_class) (pte : Z) : Z :=
  match acc with acc_write | acc_amo => pte .| kPteA .| kPteD | _ => pte .| kPteA end.

Definition ref_paddr (level : nat) (pte vaddr : Z) : Z :=
  let page := 2 ^ (12 + 9 * Z.of_nat level) in
  (pte / 2 ^ 10) * 4096 + vaddr mod page.

Definition ref_misaligned (level : nat) (pte : Z) : bool :=
  negb ((pte / 2 ^ 10) mod 2 ^ (9 * Z.of_nat level) =? 0).

(** The virtual address is the sign extension of its low [w] bits. *)
Definition ref_canonical (w vaddr : Z) : bool :=
  (- 2 ^ (w - 1) <=? s64 vaddr) && (s64 vaddr <? 2 ^ (w - 1)).

Inductive xlate :=
| XOk (paddr : Z)
| XPageFault
| XAccessFault (tval paddr : Z)
| XDevice.

(** Result, and the PTE update written on the way.  An access fault carries the
    virtual address when the leaf's target is denied and the entry's physical
    address when a page-table entry cannot be read: the second is what mmu.c
    does, although its opening comment promises the virtual address in both. *)
Definition ref_translate {Dev} (s : RiscvState Dev) (pt : Z -> pte_src) (eff vaddr size : Z) (acc : acc_class)
    : xlate * option (Z * Z) :=
  let sv48 := satp_mode s =? kSatpModeSv48 in
  if negb (ref_canonical (if sv48 then 48 else 39) vaddr) then (XPageFault, None)
  else
  match ref_walk pt vaddr (if sv48 then 4 else 3) (satp s mod 2 ^ 44) with
  | WPageFault => (XPageFault, None)
  | WAccessFault a => (XAccessFault a a, None)
  | WDevice => (XDevice, None)
  | WLeaf pte a level =>
      if negb (ref_perm eff acc (tst (mstatus s) kMstatusSum) (tst (mstatus s) kMstatusMxr)
                 (tst (menvcfg s) kMenvcfgAdue) (Z.testbit pte 4) (Z.testbit pte 1) (Z.testbit pte 2)
                 (Z.testbit pte 3) (Z.testbit pte 7))
      then (XPageFault, None)
      else
        let pte' := ref_ad acc pte in
        let upd := if pte' =? pte then None else Some (a, pte') in
        if ref_misaligned level pte then (XPageFault, upd)
        else
          let pa := ref_paddr level pte vaddr in
          if negb (RiscvPmpAllowed s pa size acc (priv s)) then (XAccessFault vaddr pa, upd)
          else (XOk pa, upd)
  end.

(** ** Bit-level code against arithmetic *)

Lemma canonical_ref w vaddr : 0 < w < 64 -> rng 64 vaddr -> canonical w vaddr = ref_canonical w vaddr.
Proof.
  intros Hw Hv. unfold canonical, ref_canonical.
  assert (E : s64 (u64 (vaddr .<< (64 - w))) .>> (64 - w) = signed w (wrap w vaddr)).
  { assert (u64 (vaddr .<< (64 - w)) = wrap w vaddr * 2 ^ (64 - w)) as ->.
    { unfold wrap. rewrite Z.shiftl_mul_pow2 by lia.
      replace (2 ^ 64) with (2 ^ w * 2 ^ (64 - w)) by (rewrite <- Z.pow_add_r by lia; f_equal; lia).
      apply Z.mul_mod_distr_r; lia. }
    assert (2 ^ (64 - 1) = 2 ^ (w - 1) * 2 ^ (64 - w)) as E63 by (rewrite <- Z.pow_add_r by lia; f_equal; lia).
    assert (2 ^ 64 = 2 ^ w * 2 ^ (64 - w)) as E64 by (rewrite <- Z.pow_add_r by lia; f_equal; lia).
    assert (0 < 2 ^ (64 - w)) by lia.
    unfold signed. rewrite E63, E64. pose proof (rng_wrap w vaddr ltac:(lia)) as [Hx0 Hx1].
    set (x := wrap w vaddr) in *. clearbody x.
    destruct (Z.ltb_spec x (2 ^ (w - 1))), (Z.ltb_spec (x * 2 ^ (64 - w)) (2 ^ (w - 1) * 2 ^ (64 - w))); try nia.
    - rewrite Z.shiftr_div_pow2 by lia. apply Z.div_mul; lia.
    - rewrite <- Z.mul_sub_distr_r, Z.shiftr_div_pow2 by lia. apply Z.div_mul; lia. }
  rewrite E. clear E. apply eq_bool_prop_intro. rewrite !Is_true_true, andb_true_iff.
  rewrite Z.eqb_eq, Z.leb_le, Z.ltb_lt.
  pose proof (signed_range w (wrap w vaddr) ltac:(lia) ltac:(apply rng_wrap; lia)) as Hs.
  assert (H63 : 2 ^ (w - 1) <= 2 ^ (64 - 1)) by (apply Z.pow_le_mono_r; lia).
  split.
  - intros E. rewrite <- E. rewrite signed_wrap by lia. lia.
  - intros Hb. assert (wrap w vaddr = wrap w (s64 vaddr)) as ->.
    { unfold signed, wrap. case_match; [done|].
      replace (2 ^ 64) with (2 ^ (64 - w) * 2 ^ w) by (rewrite <- Z.pow_add_r by lia; f_equal; lia).
      rewrite <- (Z.mod_add (vaddr - _) (2 ^ (64 - w))) by lia. f_equal. lia. }
    rewrite signed_wrap by lia. apply wrap_signed; [lia|done].
Qed.

Lemma vpn_at_bits vaddr n : (vaddr .>> (12 + 9 * Z.of_nat n)) .& 0x1ff = vpn_at vaddr n.
Proof. unfold vpn_at. change 0x1ff with (2 ^ 9 - 1). rewrite land_ones_wrap, Z.shiftr_div_pow2 by lia. done. Qed.

Lemma reserved_bits pte : rng 64 pte -> tst pte kPteReserved = (2 ^ 54 <=? pte).
Proof.
  intros Hp. unfold tst. assert (pte .& kPteReserved = (pte .>> 54) .<< 54) as ->.
  { apply Z.bits_inj'; intros n Hn. rewrite Z.land_spec, Z.shiftl_spec by done.
    change kPteReserved with (Z.ones 64 &~ Z.ones 54). rewrite Z.ldiff_spec.
    rewrite !Z.testbit_ones by lia.
    destruct (Z.lt_ge_cases n 54).
    - rewrite (Z.testbit_neg_r _ (n - 54)) by lia.
      destruct (Z.leb_spec 0 n), (Z.ltb_spec n 64), (Z.ltb_spec n 54); rewrite ?andb_false_r; done || lia.
    - rewrite Z.shiftr_spec by lia. replace (n - 54 + 54) with n by lia.
      destruct (Z.leb_spec 0 n), (Z.ltb_spec n 64), (Z.ltb_spec n 54); simpl; try lia;
        rewrite ?andb_true_r, ?andb_false_r; try done. symmetry. apply rng_testbit in Hp as [_ Hp]; [|lia]. by apply Hp. }
  rewrite Z.shiftl_mul_pow2, Z.shiftr_div_pow2 by lia. destruct Hp as [H0 H1].
  destruct (Z.leb_spec (2 ^ 54) pte) as [Hle|Hlt].
  - apply negb_true_iff, Z.eqb_neq. assert (1 <= pte / 2 ^ 54) by (apply Z.div_le_lower_bound; lia). lia.
  - rewrite Z.div_small by lia. done.
Qed.

Lemma pte_bad_ref pte : rng 64 pte ->
  pte_bad pte = negb (Z.testbit pte 0) || (negb (Z.testbit pte 1) && Z.testbit pte 2) || (2 ^ 54 <=? pte).
Proof.
  intros Hp. unfold pte_bad, kPteV, kPteR, kPteW. rewrite !tst_pow2, reserved_bits by (done || lia). done.
Qed.

Lemma tst_lor x a b : tst x (a .| b) = tst x a || tst x b.
Proof.
  unfold tst. rewrite Z.land_lor_distr_r. destruct (Z.eqb_spec (x .& a) 0) as [->|Ha]; [by rewrite Z.lor_0_l|].
  simpl. apply negb_true_iff, Z.eqb_neq. rewrite Z.lor_eq_0_iff. tauto.
Qed.

Lemma leaf_ref pte : tst pte (kPteR .| kPteX) = Z.testbit pte 1 || Z.testbit pte 3.
Proof. rewrite tst_lor. unfold kPteR, kPteX. by rewrite !tst_pow2 by lia. Qed.

Lemma lor_pow2_set x k : 0 <= k -> Z.testbit x k = true -> x .| 2 ^ k = x.
Proof.
  intros Hk Hx. apply Z.bits_inj'; intros n Hn. rewrite Z.lor_spec, Z.pow2_bits_eqb by done.
  destruct (Z.eqb_spec k n) as [->|]; [by rewrite Hx|apply orb_false_r].
Qed.

(** Permission and A/D code of a leaf, together. *)
Lemma leaf_checks_ref {Dev} (s : RiscvState Dev) eff acc pte :
  (if leaf_allowed s eff acc pte then leaf_update s acc pte else None) =
  if ref_perm eff acc (tst (mstatus s) kMstatusSum) (tst (mstatus s) kMstatusMxr)
       (tst (menvcfg s) kMenvcfgAdue) (Z.testbit pte 4) (Z.testbit pte 1) (Z.testbit pte 2)
       (Z.testbit pte 3) (Z.testbit pte 7)
  then Some (ref_ad acc pte) else None.
Proof.
  unfold leaf_allowed, leaf_update, ref_perm, ref_ad. unfold kPteU, kPteX, kPteR, kPteW, kPteD, kPteA.
  rewrite !tst_pow2 by lia.
  set (sum := tst (mstatus s) kMstatusSum). set (mxr := tst (mstatus s) kMstatusMxr).
  set (adue := tst (menvcfg s) kMenvcfgAdue).
  pose proof (lor_pow2_set pte 6 ltac:(lia)) as HA. pose proof (lor_pow2_set pte 7 ltac:(lia)) as HD.
  assert (HDA : Z.testbit pte 6 = true -> (pte .| 2 ^ 7) .| 2 ^ 6 = pte .| 2 ^ 7).
  { intros H6. rewrite <- Z.lor_assoc, (Z.lor_comm (2 ^ 7)), Z.lor_assoc. by rewrite HA. }
  assert (Hc : (pte .| 2 ^ 6) .| 2 ^ 7 = (pte .| 2 ^ 7) .| 2 ^ 6).
  { by rewrite <- Z.lor_assoc, (Z.lor_comm (2 ^ 6)), Z.lor_assoc. }
  rewrite Hc. clear Hc.
  assert (E : (eff =? kPrivUser) && (eff =? kPrivSupervisor) = false) by (unfold kPrivUser, kPrivSupervisor; lia).
  destruct acc; repeat (rewrite bool_decide_true by auto || rewrite bool_decide_false by naive_solver);
    destruct (Z.testbit pte 6); rewrite ?(HDA eq_refl), ?(HA eq_refl); clear HA HDA;
    destruct (Z.testbit pte 7) eqn:E7; rewrite ?(HD eq_refl); clear HD;
    destruct (eff =? kPrivUser), (eff =? kPrivSupervisor); try discriminate E;
    destruct (Z.testbit pte 4), (Z.testbit pte 1),
      (Z.testbit pte 2), (Z.testbit pte 3), sum, mxr, adue; reflexivity.
Qed.

Lemma nonleaf_denied {Dev} (s : RiscvState Dev) eff acc pte :
  Z.testbit pte 1 = false -> Z.testbit pte 2 = false -> Z.testbit pte 3 = false ->
  leaf_allowed s eff acc pte = false.
Proof.
  intros H1 H2 H3. unfold leaf_allowed, kPteX, kPteR, kPteW. rewrite !tst_pow2, H1, H2, H3 by lia.
  destruct acc; rewrite ?andb_false_r; done.
Qed.

Lemma ref_ad_ppn acc pte : ref_ad acc pte .>> 10 = pte .>> 10.
Proof. unfold ref_ad. destruct acc; rewrite !Z.shiftr_lor; by rewrite !Z.lor_0_r. Qed.

Lemma leaf_paddr_ref level pte vaddr acc :
  rng 54 pte -> (level <= 3)%nat ->
  leaf_paddr (Z.of_nat level) (ref_ad acc pte) vaddr =
  if ref_misaligned level pte then None else Some (ref_paddr level pte vaddr).
Proof.
  intros [Hp0 Hp1] Hl. unfold leaf_paddr, ref_misaligned, ref_paddr. rewrite ref_ad_ppn.
  rewrite Z.shiftr_div_pow2 by lia. set (ppn := pte / 2 ^ 10).
  assert (Hppn : 0 <= ppn < 2 ^ 44) by (unfold ppn; split; [apply Z.div_pos|apply Z.div_lt_upper_bound]; lia).
  set (k := 9 * Z.of_nat level). assert (Hk : 0 <= k <= 27) by lia.
  assert (Hlor : forall x y w, 0 <= w -> (x * 2 ^ w) .| wrap w y = x * 2 ^ w + wrap w y).
  { intros x y w Hw. rewrite <- Z.shiftl_mul_pow2, Z.lor_comm, lor_shiftl_add by (done || rng). 
    rewrite Z.shiftl_mul_pow2 by done. lia. }
  destruct (Z.ltb_spec 0 (Z.of_nat level)).
  - unfold tst. rewrite !(land_ones_wrap _ k), (land_ones_wrap _ (12 + k)) by lia.
    unfold wrap at 1. destruct (Z.eqb_spec (ppn mod 2 ^ k) 0) as [E|E]; simpl; [|done].
    assert (ppn &~ (2 ^ k - 1) = ppn) as ->.
    { replace (2 ^ k - 1) with (Z.ones k) by (rewrite Z.ones_equiv; lia).
      rewrite Z.ldiff_ones_r by lia. rewrite Z.shiftl_mul_pow2, Z.shiftr_div_pow2 by lia.
      pose proof (Z.div_mod ppn (2 ^ k) ltac:(lia)). lia. }
    rewrite (u64_shiftl ppn 12 44) by (done || lia). f_equal.
    assert (ppn * 2 ^ 12 = (ppn / 2 ^ k) * 2 ^ (12 + k)) as ->.
    { rewrite Z.pow_add_r by lia. pose proof (Z.div_mod ppn (2 ^ k) ltac:(lia)). nia. }
    rewrite Hlor by lia. unfold wrap. rewrite Z.pow_add_r by lia.
    pose proof (Z.div_mod ppn (2 ^ k) ltac:(lia)). nia.
  - assert (level = 0%nat) as -> by lia. unfold k. simpl Z.of_nat. rewrite Z.mul_0_r, Z.mod_1_r. simpl negb. cbv iota.
    f_equal. change 0xfff with (2 ^ 12 - 1). rewrite land_ones_wrap, (u64_shiftl ppn 12 44) by (done || lia).
    rewrite Hlor by lia. unfold wrap. rewrite Z.add_0_r. lia.
Qed.

(** ** Refinement *)

Section refine.
Context {Ops Dev W : Type} `{BusDevices Ops Dev W} {bus0 : Bus Ops Dev} `{!BusDevicesOk Ops Dev W bus0}.
Implicit Types m : Mach Ops Dev W.

Definition pte_at m (a : Z) : pte_src :=
  if negb (RiscvPmpAllowed (rs m) a 8 acc_read kPrivSupervisor) then PtFault
  else match decode_spec (bus m) a 8 with
       | None => PtFault
       | Some r => match r_host r with
                   | Some h => PtVal (host_load (host_at h r a) 8 (world m))
                   | None => PtDevice
                   end
       end.

Lemma pte_at_bus m m' a : at_bus m (world m) m' -> pte_at m' a = pte_at m a.
Proof.
  intros (b & E & _ & ->). unfold pte_at; rsimpl. by rewrite (decode_regions (bus m) b) by done.
Qed.

Lemma PteRead_ref m a acc :
  bus_regions (bus m) = bus_regions bus0 -> bus_wf (bus m) -> 0 <= a ->
  match pte_at m a with
  | PtVal v => rng 64 v /\ exists m', PteRead a acc m = Done v m' /\ at_bus m (world m) m'
  | PtFault => exists m', PteRead a acc m = Raised (TrapRec (AccessFaultCause acc) a (Some a)) m' /\
                          at_bus m (world m) m'
  | PtDevice => True
  end.
Proof.
  intros Hreg Hwf Ha. unfold pte_at, PteRead. cbv beta delta [mbind' getrs gets] iota.
  destruct (negb _); [exists m; split; [done|by apply at_bus_refl]|].
  destruct (probe_decode m a 8 Hwf Ha ltac:(lia)) as (m1 & -> & H1).
  destruct (at_bus_wf _ _ _ H1) as (Hwf1 & Hreg1 & _ & _ & Hw1).
  destruct (decode_spec (bus m) a 8) as [r|] eqn:Ed.
  - destruct (r_host r) as [h|] eqn:Eh; [|done]. split; [by apply (bd_load_rng (host_at h r a) 8 (world m))|].
    destruct (bus_read_ram (bus0:=bus0) m1 a 8 r h) as (m2 & -> & H2); try done; try lia; [congruence|by rewrite (decode_regions (bus m))|].
    rewrite Hw1 in *. exists m2. split; [done|]. by eapply at_bus_trans.
  - eexists. split; [done|]. done.
Qed.

Lemma walk_ref m vaddr acc n root p0 a0 :
  bus_regions (bus m) = bus_regions bus0 -> bus_wf (bus m) -> rng 44 root ->
  Z.testbit p0 1 = false -> Z.testbit p0 2 = false -> Z.testbit p0 3 = false ->
  match ref_walk (pte_at m) vaddr n root with
  | WLeaf pte a level => exists m', walk vaddr acc n root p0 a0 m = Done (pte, a, Z.of_nat level) m' /\
      at_bus m (world m) m' /\ (level < n)%nat /\ rng 54 pte /\ 0 <= a /\ pte_at m a = PtVal pte
  | WPageFault => exists m', at_bus m (world m) m' /\
      (walk vaddr acc n root p0 a0 m = Raised (TrapRec (PageFaultCause acc) vaddr None) m' \/
       exists pte a, walk vaddr acc n root p0 a0 m = Done (pte, a, -1) m' /\
         Z.testbit pte 1 = false /\ Z.testbit pte 2 = false /\ Z.testbit pte 3 = false)
  | WAccessFault a => exists m', at_bus m (world m) m' /\
      walk vaddr acc n root p0 a0 m = Raised (TrapRec (AccessFaultCause acc) a (Some a)) m'
  | WDevice => True
  end.
Proof.
  revert m root p0 a0. induction n as [|n IH]; intros m root p0 a0 Hreg Hwf Hroot H1 H2 H3.
  { simpl. exists m. split; [by apply at_bus_refl|]. right. by exists p0, a0. }
  cbn [ref_walk walk]. rewrite vpn_at_bits, (u64_shiftl root 12 44) by (done || lia).
  assert (Hvpn : 0 <= vpn_at vaddr n < 512) by (apply Z.mod_pos_bound; lia).
  change (2 ^ 12) with 4096. rewrite wrap_small by (unfold rng in *; lia).
  set (a := root * 4096 + _). assert (Ha : 0 <= a) by (unfold a, rng in *; lia).
  pose proof (PteRead_ref m a acc Hreg Hwf Ha) as HP. unfold mbind'.
  destruct (pte_at m a) as [pte| |] eqn:Ept; [|destruct HP as (m' & -> & ?); eauto|done].
  destruct HP as (Hrng & m1 & -> & Hm1). rewrite pte_bad_ref by done.
  destruct (_ || (2 ^ 54 <=? pte)) eqn:Ebad; [exists m1; auto|].
  apply orb_false_iff in Ebad as [Ebad Hres%Z.leb_gt].
  apply orb_false_iff in Ebad as [_ Hw].
  assert (Hp54 : rng 54 pte) by (unfold rng in *; lia).
  rewrite leaf_ref. destruct (Z.testbit pte 1 || Z.testbit pte 3) eqn:Eleaf.
  { exists m1. split_and!; [done|done|lia|apply Hp54..|done|done]. }
  apply orb_false_iff in Eleaf as [E1 E3]. rewrite E1 in Hw. simpl in Hw.
  destruct (at_bus_wf _ _ _ Hm1) as (Hwf1 & Hreg1 & _ & _ & Hw1).
  rewrite Z.shiftr_div_pow2 by lia.
  assert (Hr' : rng 44 (pte / 2 ^ 10)).
  { unfold rng in *. split; [apply Z.div_pos|apply Z.div_lt_upper_bound]; lia. }
  specialize (IH m1 (pte / 2 ^ 10) pte a ltac:(congruence) Hwf1 Hr' E1 Hw E3).
  assert (Hext : forall k r, ref_walk (pte_at m1) vaddr k r = ref_walk (pte_at m) vaddr k r).
  { induction k as [|k IHk]; intros r; cbn [ref_walk]; [done|]. rewrite (pte_at_bus m m1) by done.
    destruct (pte_at m (r * 4096 + vpn_at vaddr k * 8)); [|done..]. by rewrite IHk. }
  rewrite Hext in IH. destruct (ref_walk _ _ _ _).
  - destruct IH as (m' & ? & Hb & ? & ? & ? & Hv). exists m'. rewrite Hw1 in Hb. rewrite (pte_at_bus m m1) in Hv by done.
    split_and!; [done|by eapply at_bus_trans|lia|done..].
  - destruct IH as (m' & Hb & Hc). exists m'. rewrite Hw1 in Hb. split; [by eapply at_bus_trans|done].
  - destruct IH as (m' & Hb & Hc). exists m'. rewrite Hw1 in Hb. split; [by eapply at_bus_trans|done].
  - done.
Qed.

(** The world after the PTE update, if there is one. *)
Definition ad_world m (upd : option (Z * Z)) : W :=
  match upd with
  | None => world m
  | Some (a, v) =>
      match decode_spec (bus m) a 8 with
      | Some r => match r_host r with
                  | Some h => host_store (host_at h r a) 8 v (world m)
                  | None => world m
                  end
      | None => world m
      end
  end.

(** The A/D write-back of a walked leaf. *)
Lemma ad_write_ref m m1 vaddr acc a pte :
  bus_regions (bus m) = bus_regions bus0 -> at_bus m (world m) m1 -> 0 <= a -> pte_at m a = PtVal pte ->
  let pte' := ref_ad acc pte in
  exists m2, (when negb (pte' =? pte) do
      (r <- bus_probe a 8 ;;
       match r with
       | None => raise_paddr_ (AccessFaultCause acc) vaddr a
       | Some _ => bus_write a 8 pte'
       end)) m1 = Done tt m2 /\
    at_bus m (ad_world m (if pte' =? pte then None else Some (a, pte'))) m2.
Proof.
  intros Hreg Hm1 Ha Hpt pte'. destruct (at_bus_wf _ _ _ Hm1) as (Hwf1 & Hreg1 & _ & _ & Hw1).
  destruct (pte' =? pte); cbn [negb]; [by exists m1|].
  unfold pte_at in Hpt. destruct (negb _); [done|].
  destruct (decode_spec (bus m) a 8) as [r|] eqn:Ed; [|done]. destruct (r_host r) as [h|] eqn:Eh; [|done].
  unfold mbind'. destruct (probe_decode m1 a 8 Hwf1 Ha ltac:(lia)) as (m2 & -> & H2).
  rewrite (decode_regions (bus m)), Ed by done.
  destruct (at_bus_wf _ _ _ H2) as (Hwf2 & Hreg2 & _ & _ & Hw2).
  destruct (bus_write_ram (bus0:=bus0) m2 a 8 pte' r h) as (m3 & -> & H3); try done; try lia;
    [congruence|by rewrite (decode_regions (bus m)) by congruence|].
  exists m3. split; [done|]. rewrite Hw2, Hw1 in H3. unfold ad_world. rewrite Ed, Eh.
  eapply at_bus_trans; [exact Hm1|]. by eapply at_bus_trans.
Qed.

Lemma walk_top_le (s : RiscvState Dev) : (walk_top s <= 4)%nat.
Proof. unfold walk_top. case_match; lia. Qed.

(** C2: the page walk refines the reference Sv39/Sv48 translation, written with plain arithmetic
    over page-table memory: same canonical-address check, same leaf and permission decision, same
    A/D update written to memory, and same physical address or same fault. A page fault carries the
    virtual address; an access fault carries the address the code raises it with, which for a
    page-table entry outside memory or denied by the PMP is the entry's physical address and not the
    virtual address the file's opening comment promises (reported as a divergence). Nothing else
    changes but the decode cache and the new translation-cache entry. Page tables in device windows
    are the one case left out. *)
Theorem translate_walk_refines m eff vaddr size acc :
  bus_regions (bus m) = bus_regions bus0 -> bus_wf (bus m) -> rng 64 vaddr -> rng 64 (satp (rs m)) ->
  let '(x, upd) := ref_translate (rs m) (pte_at m) eff vaddr size acc in
  x = XDevice \/
  exists m1, at_bus m (ad_world m upd) m1 /\
    translate_walk eff vaddr size acc m =
    match x with
    | XOk pa => let h := BusRamPage (bus m1) (pa &~ 0xfff) in
                Done (pa, h) (m1 <| rs := tlb_fill (rs m) eff (vaddr .>> 12) acc pa h |>)
    | XPageFault | XDevice => Raised (TrapRec (PageFaultCause acc) vaddr None) m1
    | XAccessFault tval pa => Raised (TrapRec (AccessFaultCause acc) tval (Some pa)) m1
    end.
Proof.
  intros Hreg Hwf Hv Hsatp. unfold ref_translate, translate_walk.
  cbv beta delta [mbind' getrs gets page_fault] iota.
  assert (Hcan : canonical (if satp_mode (rs m) =? kSatpModeSv48 then 48 else 39) vaddr =
    ref_canonical (if satp_mode (rs m) =? kSatpModeSv48 then 48 else 39) vaddr).
  { apply canonical_ref; [case_match; lia|done]. }
  rewrite Hcan. destruct (negb _).
  { right. exists m. split; [by apply at_bus_refl|done]. }
  rewrite land_ones_wrap by lia. change (wrap 44 (satp (rs m))) with (satp (rs m) mod 2 ^ 44).
  change (if satp_mode (rs m) =? kSatpModeSv48 then 4%nat else 3%nat) with (walk_top (rs m)).
  pose proof (walk_ref m vaddr acc (walk_top (rs m)) (satp (rs m) mod 2 ^ 44) 0 0 Hreg Hwf
    ltac:(apply rng_wrap; lia) eq_refl eq_refl eq_refl) as Hwalk.
  destruct (ref_walk _ _ _ _) as [pte a level| |a|]; [| | |by left].
  - destruct Hwalk as (m1 & -> & Hm1 & Hlev & Hp & Ha & Hpt). cbv beta iota zeta.
    pose proof (leaf_checks_ref (rs m) eff acc pte) as Hleaf.
    destruct (leaf_allowed _ _ _ _); cbn [negb];
      [|destruct (ref_perm _ _ _ _ _ _ _ _ _ _); [done|right; by exists m1]].
    rewrite Hleaf. clear Hleaf.
    destruct (ref_perm _ _ _ _ _ _ _ _ _ _); cbn [negb]; [|right; by exists m1].
    destruct (ad_write_ref m m1 vaddr acc a pte Hreg Hm1 Ha Hpt) as (m2 & Had & Hm2).
    unfold mbind' in Had. rewrite Had. clear Had.
    rewrite leaf_paddr_ref; [|done|pose proof (walk_top_le (rs m)); lia].
    destruct (ref_misaligned level pte); [right; by exists m2|].
    destruct (negb (RiscvPmpAllowed _ _ _ _ _)); right; exists m2; (split; [done|]); [done|].
    destruct (at_bus_wf _ _ _ Hm2) as (_ & _ & Hrs & _).
    unfold getS, modrs, modify, mret'. cbv beta iota zeta. by rewrite Hrs.
  - right. destruct Hwalk as (m1 & Hm1 & [->|(pte & a & -> & E1 & E2 & E3)]); exists m1; [done|].
    split; [done|]. cbv beta iota. by rewrite nonleaf_denied.
  - right. destruct Hwalk as (m1 & Hm1 & ->). by exists m1.
Qed.
End refine.
