(* ===== verification/RvExec.v ===== *)
(** * The riscv64 instruction set (cpu/isa/riscv64/exec.c)

    Decode and execute, one definition per helper of the C file.  Pure ALU
    cases are functions returning [None] where the code raises an illegal
    instruction; everything that touches memory, CSRs or may fault runs in
    the raising state monad.  [dbg_mem] is [DebugOn(kDbgMem)], which only
    selects between the direct host access and the bus. *)

From S2P Require Import Prelude Bus Ram RvState RvCsr RvMmu RvFp.

(** ** Instruction fields and immediates *)

Definition rd (i : Z) : Z := (i .>> 7) .& 31.
Definition rs1 (i : Z) : Z := (i .>> 15) .& 31.
Definition rs2 (i : Z) : Z := (i .>> 20) .& 31.
Definition rs3 (i : Z) : Z := i .>> 27.
Definition f3 (i : Z) : Z := (i .>> 12) .& 7.
Definition f7 (i : Z) : Z := i .>> 25.

Definition sext (v bits : Z) : Z :=
  if 64 <=? bits then v
  else let m := 1 .<< (bits - 1) in u64 (((v .& ((1 .<< bits) - 1)) .^ m) - m).

(** One bit field of an immediate: [((i >> from) & (2^len - 1)) << to]. *)
Definition fld (i from len to : Z) : Z := ((i .>> from) .& (2 ^ len - 1)) .<< to.

(** The immediates, as the [uint64_t] they are used as. *)
Definition imm_i (i : Z) : Z := sext (i .>> 20) 12.
Definition imm_s (i : Z) : Z := sext (((i .>> 25) .<< 5) .| fld i 7 5 0) 12.
Definition imm_b (i : Z) : Z := sext (fld i 31 1 12 .| fld i 7 1 11 .| fld i 25 6 5 .| fld i 8 4 1) 13.
Definition imm_u (i : Z) : Z := sext (i .& 0xfffff000) 32.
Definition imm_j (i : Z) : Z := sext (fld i 31 1 20 .| fld i 12 8 12 .| fld i 20 1 11 .| fld i 21 10 1) 21.

(** ** ALU *)

(** C signed division truncates toward zero. *)
Definition div_s (w a b : Z) : Z :=
  let sa := signed w a in
  let sb := signed w b in
  if sb =? 0 then 2 ^ w - 1
  else if (sa =? - 2 ^ (w - 1)) && (sb =? -1) then a
  else wrap w (Z.quot sa sb).

Definition rem_s (w a b : Z) : Z :=
  let sa := signed w a in
  let sb := signed w b in
  if sb =? 0 then a
  else if (sa =? - 2 ^ (w - 1)) && (sb =? -1) then 0
  else wrap w (Z.rem sa sb).

(** The high half of a signed 128-bit product, as compiled: two's complement
    wrap-around, arithmetic shift. *)
Definition mul_hi (p : Z) : Z := u64 (signed 128 (wrap 128 p) .>> 64).

Definition op_alu (f3v f7v a b : Z) : option Z :=
  switch f3v
  [ (0, if f7v =? 0x00 then Some (u64 (a + b))
        else if f7v =? 0x20 then Some (u64 (a - b))
        else if f7v =? 0x01 then Some (u64 (a * b)) else None);
    (1, if f7v =? 0x00 then Some (u64 (a .<< (b .& 63)))
        else if f7v =? 0x01 then Some (mul_hi (s64 a * s64 b)) else None);
    (2, if f7v =? 0x00 then Some (b2z (s64 a <? s64 b))
        else if f7v =? 0x01 then Some (mul_hi (s64 a * b)) else None);
    (3, if f7v =? 0x00 then Some (b2z (a <? b))
        else if f7v =? 0x01 then Some (mul_hi (a * b)) else None);
    (4, if f7v =? 0x00 then Some (a .^ b)
        else if f7v =? 0x01 then Some (div_s 64 a b) else None);
    (5, if f7v =? 0x00 then Some (a .>> (b .& 63))
        else if f7v =? 0x20 then Some (u64 (s64 a .>> (b .& 63)))
        else if f7v =? 0x01 then Some (if b =? 0 then 2 ^ 64 - 1 else a / b) else None);
    (6, if f7v =? 0x00 then Some (a .| b)
        else if f7v =? 0x01 then Some (rem_s 64 a b) else None);
    (7, if f7v =? 0x00 then Some (a .& b)
        else if f7v =? 0x01 then Some (if b =? 0 then a else a mod b) else None) ] None.

Definition op32_alu (f3v f7v a b : Z) : option Z :=
  switch f3v
  [ (0, if f7v =? 0x00 then Some (sext (u32 (a + b)) 32)
        else if f7v =? 0x20 then Some (sext (u32 (a - b)) 32)
        else if f7v =? 0x01 then Some (sext (u32 (a * b)) 32) else None);
    (1, if f7v =? 0x00 then Some (sext (u32 (a .<< (b .& 31))) 32) else None);
    (4, if f7v =? 0x01 then Some (sext (div_s 32 a b) 32) else None);
    (5, if f7v =? 0x00 then Some (sext (a .>> (b .& 31)) 32)
        else if f7v =? 0x20 then Some (sext (u32 (s32 a .>> (b .& 31))) 32)
        else if f7v =? 0x01 then Some (if b =? 0 then sext (2 ^ 32 - 1) 32 else sext (a / b) 32) else None);
    (6, if f7v =? 0x01 then Some (sext (rem_s 32 a b) 32) else None);
    (7, if f7v =? 0x01 then Some (if b =? 0 then sext a 32 else sext (a mod b) 32) else None) ] None.

(** The 6-bit shift amount: [rs2 | inst[25] << 5]. *)
Definition shamt6 (i : Z) : Z := rs2 i .| (((i .>> 25) .& 1) .<< 5).

Definition opimm_alu (i a : Z) : option Z :=
  let imm := imm_i i in
  switch (f3 i)
  [ (0, Some (u64 (a + imm)));
    (2, Some (b2z (s64 a <? s64 imm)));
    (3, Some (b2z (a <? imm)));
    (4, Some (a .^ imm));
    (6, Some (a .| imm));
    (7, Some (a .& imm));
    (1, if tst (f7 i) 0x7e then None else Some (u64 (a .<< shamt6 i)));
    (5, if negb (f7 i .& 0x7e =? 0) && negb (f7 i .& 0x7e =? 0x20) then None
        else Some (if Z.testbit i 30 then u64 (s64 a .>> shamt6 i) else a .>> shamt6 i)) ] None.

Definition opimm32_alu (i a : Z) : option Z :=
  switch (f3 i)
  [ (0, Some (sext (u32 (a + u32 (imm_i i))) 32));
    (1, if tst (f7 i) 0x7f then None else Some (sext (u32 (a .<< rs2 i)) 32));
    (5, if negb (f7 i =? 0x00) && negb (f7 i =? 0x20) then None
        else if f7 i =? 0x20 then Some (sext (u32 (s32 a .>> rs2 i)) 32)
        else Some (sext (a .>> rs2 i) 32)) ] None.

(** [None]: an undefined branch condition. *)
Definition branch_taken (f3v a b : Z) : option bool :=
  switch f3v
  [ (0, Some (a =? b)); (1, Some (negb (a =? b))); (4, Some (s64 a <? s64 b)); (5, Some (s64 b <=? s64 a));
    (6, Some (a <? b)); (7, Some (b <=? a)) ] None.

(** The read-modify-write function of an AMO; [None] outside the table. *)
Definition amo_d (op5 old val : Z) : option Z :=
  switch op5
  [ (0x01, Some val); (0x00, Some (u64 (old + val))); (0x04, Some (old .^ val)); (0x0C, Some (old .& val));
    (0x08, Some (old .| val)); (0x10, Some (if s64 old <? s64 val then old else val));
    (0x14, Some (if s64 val <? s64 old then old else val)); (0x18, Some (if old <? val then old else val));
    (0x1C, Some (if val <? old then old else val)) ] None.

Definition amo_w (op5 old val : Z) : option Z :=
  let o32 := u32 old in
  let v32 := u32 val in
  switch op5
  [ (0x01, Some v32); (0x00, Some (u32 (o32 + v32))); (0x04, Some (o32 .^ v32)); (0x0C, Some (o32 .& v32));
    (0x08, Some (o32 .| v32)); (0x10, Some (if s32 o32 <? s32 v32 then o32 else v32));
    (0x14, Some (if s32 v32 <? s32 o32 then o32 else v32)); (0x18, Some (if o32 <? v32 then o32 else v32));
    (0x1C, Some (if v32 <? o32 then o32 else v32)) ] None.

(** ** Memory, CSRs, system, atomics, floating point *)

Section exec.
Context {Ops Dev W : Type} `{BusDevices Ops Dev W}.
Variable dbg_mem : bool.
#[local] Abbreviation MM := (M (Mach Ops Dev W)).

Definition getpc : MM Z := gets (fun m => pc (cpu m)).
Definition illegal {A} (tval : Z) : MM A := raise_ kExIllegal tval.

(** Write the result or raise. *)
Definition setx_or_illegal (i r : Z) (v : option Z) : MM unit :=
  match v with Some v => setx r v | None => illegal i end.

Definition fault_cause (acc : acc_class) : Z :=
  match acc with acc_ifetch => kExFetchFault | acc_write => kExStoreFault | _ => kExLoadFault end.

Definition page_fits (vaddr size : Z) : bool := (vaddr .& 0xfff) + size <=? 0x1000.

Definition host_byte (h : host_ptr Dev) (vaddr : Z) : host_ptr Dev :=
  HostPtr (hp_block h) (hp_off h + (vaddr .& 0xfff)).

(** The bus path of a load and of a store. *)
Definition bus_load (vaddr paddr size : Z) (acc : acc_class) : MM Z :=
  r <- bus_probe paddr size ;;
  match r with
  | None => raise_paddr_ (fault_cause acc) vaddr paddr
  | Some _ => bus_read paddr size
  end.

Definition bus_store (vaddr paddr size val : Z) : MM unit :=
  r <- bus_probe paddr size ;;
  match r with
  | None => raise_paddr_ kExStoreFault vaddr paddr
  | Some _ => bus_write paddr size val
  end.

Definition riscv_mem_load (vaddr size : Z) (acc : acc_class) : MM Z :=
  (when negb (bool_decide (acc = acc_ifetch)) do RiscvTriggerCheck kTrigOpLoad vaddr) ;;;
  x <- RiscvTranslate vaddr size acc ;;
  match x.2 with
  | Some h => if page_fits vaddr size && negb dbg_mem
              then gets (fun m => host_load (host_byte h vaddr) size (world m))
              else bus_load vaddr x.1 size acc
  | None => bus_load vaddr x.1 size acc
  end.

Definition riscv_mem_store (vaddr size val : Z) : MM unit :=
  RiscvTriggerCheck kTrigOpStore vaddr ;;;
  x <- RiscvTranslate vaddr size acc_write ;;
  match x.2 with
  | Some h => if page_fits vaddr size && negb dbg_mem
              then modify (fun m => m <| world := host_store (host_byte h vaddr) size val (world m) |>)
              else bus_store vaddr x.1 size val
  | None => bus_store vaddr x.1 size val
  end.

Definition load (addr size : Z) (sext_w : bool) : MM Z :=
  v <- riscv_mem_load addr size acc_read ;;
  mret' (if sext_w then sext v (size * 8) else v).

(** *** Zicsr *)

Definition csr_read_m (csr i : Z) : MM Z := fun m =>
  match riscv_csr_read timer_read (rs m) csr (world m) with
  | (COk v, w) => Done v (m <| world := w |>)
  | (CErr, w) => Raised (TrapRec kExIllegal i None) (m <| world := w |>)
  | (COob, _) => Aborted CsrIndex
  end.

Definition csr_write_m (csr val next_pc i : Z) : MM unit := fun m =>
  match riscv_csr_write (rs m) csr val next_pc with
  | COk s => Done tt (m <| rs := s |>)
  | CErr => Raised (TrapRec kExIllegal i None) m
  | COob => Aborted CsrIndex
  end.

Definition csr_op (i : Z) : MM unit :=
  let f3v := f3 i in
  let csr := (i .>> 20) .& 0xfff in
  old <- csr_read_m csr i ;;
  x1 <- getx (rs1 i) ;;
  p <- getpc ;;
  let src := if 5 <=? f3v then rs1 i else x1 in
  (switch (f3v .& 3)
    [ (1, csr_write_m csr src (u64 (p + 4)) i);
      (2, when negb (src =? 0) do csr_write_m csr (old .| src) (u64 (p + 4)) i);
      (3, when negb (src =? 0) do csr_write_m csr (old &~ src) (u64 (p + 4)) i) ]
    (illegal i)) ;;;
  setx (rd i) old.

(** *** System *)

Definition system_op (i : Z) : MM Z :=
  s <- getrs ;;
  p <- getpc ;;
  switch ((i .>> 20) .& 0xfff)
  [ (0x000, raise_ (if priv s =? kPrivMachine then kExMachineEcall
                    else if priv s =? kPrivSupervisor then kExSupervisorEcall else kExUserEcall) 0);
    (0x001, raise_ kExBreakpoint p);
    (0x302, if negb (rd i =? 0) || negb (rs1 i =? 0) || negb (priv s =? kPrivMachine) then illegal i
            else modrs (fun s => (riscv_mret s).2) ;;; mret' (riscv_mret s).1);
    (0x102, if negb (rd i =? 0) || negb (rs1 i =? 0) then illegal i
            else if (priv s =? kPrivSupervisor) && tst (mstatus s) kMstatusTsr then illegal i
            else if priv s <? kPrivSupervisor then illegal i
            else modrs (fun s => (riscv_sret s).2) ;;; mret' (riscv_sret s).1);
    (0x105, if negb (rd i =? 0) || negb (rs1 i =? 0) then illegal i
            else if (priv s =? kPrivUser) || ((priv s =? kPrivSupervisor) && tst (mstatus s) kMstatusTw)
            then illegal i
            else (when MipAll s .& mie s =? 0 do modcpu (fun c => c <| wait := true |>)) ;;;
                 mret' (u64 (p + 4)));
    (0x120, if negb (rd i =? 0) then illegal i
            else if (priv s =? kPrivUser) || ((priv s =? kPrivSupervisor) && tst (mstatus s) kMstatusTvm)
            then illegal i
            else modrs (fun s => s <| tlb_gen := u64 (tlb_gen s + 1) |>) ;;; mret' (u64 (p + 4))) ]
  (illegal i).

(** *** Atomics *)

Definition amo_op (i : Z) (is_double : bool) : MM unit :=
  let op5 := f7 i .>> 2 in
  let width := if is_double then 8 else 4 in
  addr <- getx (rs1 i) ;;
  if negb (addr mod width =? 0) then raise_ kExStoreMisaligned addr
  else
  let ext v := if is_double then v else sext v 32 in
  let rmw :=
    old <- riscv_mem_load addr width acc_read ;;
    val <- getx (rs2 i) ;;
    match (if is_double then amo_d op5 old val else amo_w op5 old val) with
    | Some stored => riscv_mem_store addr width stored ;;; setx (rd i) (ext old)
    | None => illegal i
    end in
  switch op5
  [ (0x02, old <- riscv_mem_load addr width acc_read ;;
           modrs (fun s => s <| res_valid := true |> <| res_addr := addr |>) ;;;
           setx (rd i) (ext old));
    (0x03, val <- getx (rs2 i) ;;
           s <- getrs ;;
           (if res_valid s && (res_addr s =? addr)
            then riscv_mem_store addr width val ;;; setx (rd i) 0
            else setx (rd i) 1) ;;;
           modrs (fun s => s <| res_valid := false |>));
    (0x01, rmw); (0x00, rmw); (0x04, rmw); (0x0C, rmw); (0x08, rmw);
    (0x10, rmw); (0x14, rmw); (0x18, rmw); (0x1C, rmw) ]
  (illegal i).

(** *** Floating point *)

Definition fp_enter (i : Z) : MM unit :=
  s <- getrs ;;
  if negb (tst (mstatus s) kMstatusFs) then illegal i
  else modrs (fun s => s <| mstatus := mstatus s .| kMstatusFs |>).

(** Run an fp.c entry point: OR its flags in, return its value. *)
Definition fp_run (r : Z * Z) : MM Z :=
  modrs (fun s => s <| fflags := fflags s .| r.2 |>) ;;; mret' r.1.

Definition fp_run_opt (r : option (Z * Z)) : MM Z :=
  match r with Some r => fp_run r | None => abort FatalFpKind end.

Definition fp_rm (rm_field : Z) : MM Z :=
  s <- getrs ;; mret' (if rm_field =? kRmDyn then frm s else rm_field).

Definition fp_op (i : Z) : MM unit :=
  fp_enter i ;;;
  let f3v := f3 i in
  let f7v := f7 i in
  let dbl := Z.testbit f7v 0 in
  rm <- fp_rm f3v ;;
  a <- getf (rs1 i) ;;
  b <- getf (rs2 i) ;;
  x1 <- getx (rs1 i) ;;
  let to_f (p : MM Z) : MM unit := r <- p ;; setf (rd i) r in
  let to_x (p : MM Z) : MM unit := r <- p ;; setx (rd i) r in
  let kind := (f7v .>> 2) .& 3 in
  let arith := to_f (fp_run_opt (if dbl then RiscvFpBinaryD a b kind rm else RiscvFpBinaryS a b kind rm)) in
  let is_signed := rs2 i .& 1 =? 0 in
  let w64 := if tst (rs2 i) 2 then 64 else 32 in
  let sqrt := if negb (rs2 i =? 0) then illegal i
              else to_f (fp_run (if dbl then RiscvFpSqrtD a rm else RiscvFpSqrtS a rm)) in
  let sgnj := if 2 <? f3v then illegal i
              else to_f (mret' (if dbl then RiscvFpSgnjD a b f3v else RiscvFpSgnjS a b f3v)) in
  let minmax := if 1 <? f3v then illegal i
                else to_f (fp_run (if dbl then RiscvFpMinMaxD a b (negb (f3v =? 0))
                                   else RiscvFpMinMaxS a b (negb (f3v =? 0)))) in
  let cmp := if 2 <? f3v then abort NameIndex   (* kCmpNames[f3v * 2 + dbl] *)
             else let k := if f3v =? 0 then kFpLe else if f3v =? 1 then kFpLt else kFpEq in
             to_x (fp_run_opt (if dbl then RiscvFpCmpD a b k else RiscvFpCmpS a b k)) in
  let f2i := if 3 <? rs2 i then illegal i
             else to_x (fp_run (if dbl then RiscvFpF2ID a is_signed w64 rm else RiscvFpF2IS a is_signed w64 rm)) in
  let i2f := if 3 <? rs2 i then illegal i
             else to_f (fp_run (if dbl then RiscvFpI2FD x1 is_signed w64 rm else RiscvFpI2FS x1 is_signed w64 rm)) in
  let mvx := if negb (rs2 i =? 0) || (1 <? f3v) then illegal i
             else to_x (mret' (if dbl then (if f3v =? 0 then a else RiscvFpClassD a)
                               else (if f3v =? 0 then u64 (s32 (u32 a)) else RiscvFpClassS a))) in
  let mvf := if negb (rs2 i =? 0) || negb (f3v =? 0) then illegal i
             else to_f (mret' (if dbl then x1 else kBoxMask .| (x1 .& 0xffffffff))) in
  switch f7v
  [ (0x00, arith); (0x01, arith); (0x04, arith); (0x05, arith);
    (0x08, arith); (0x09, arith); (0x0C, arith); (0x0D, arith);
    (0x2C, sqrt); (0x2D, sqrt); (0x10, sgnj); (0x11, sgnj); (0x14, minmax); (0x15, minmax);
    (0x50, cmp); (0x51, cmp); (0x60, f2i); (0x61, f2i); (0x68, i2f); (0x69, i2f);
    (0x20, if negb (rs2 i =? 1) then illegal i else to_f (fp_run (RiscvFpCvtSD a rm)));
    (0x21, if negb (rs2 i =? 0) then illegal i else to_f (fp_run (RiscvFpCvtDS a rm)));
    (0x70, mvx); (0x71, mvx); (0x78, mvf); (0x79, mvf) ]
  (illegal i).

Definition fma_op (i opcode : Z) : MM unit :=
  fp_enter i ;;;
  let dbl := Z.testbit i 25 in
  rm <- fp_rm (f3 i) ;;
  a <- getf (rs1 i) ;;
  b <- getf (rs2 i) ;;
  c <- getf (rs3 i) ;;
  let sign := if dbl then 2 ^ 63 else 2 ^ 31 in
  let c := if (opcode =? 0x47) || (opcode =? 0x4f) then c .^ sign else c in
  let a := if (opcode =? 0x4b) || (opcode =? 0x4f) then a .^ sign else a in
  r <- fp_run (if dbl then RiscvFpFmaD a b c rm else RiscvFpFmaS a b c rm) ;;
  setf (rd i) r.

Definition fp_ldst (i : Z) (is_store is_double : bool) : MM unit :=
  fp_enter i ;;;
  let size := if is_double then 8 else 4 in
  x1 <- getx (rs1 i) ;;
  let addr := u64 (x1 + (if is_store then imm_s i else imm_i i)) in
  if is_store then (v <- getf (rs2 i) ;; riscv_mem_store addr size v)
  else (v <- riscv_mem_load addr size acc_read ;; setf (rd i) (if is_double then v else kBoxMask .| v)).

(** *** Cache-block operations *)

Definition cbo_op (i : Z) : MM unit :=
  s <- getrs ;;
  if (priv s =? kPrivUser) && negb (Z.testbit (senvcfg s) 4) then illegal i
  else
    x1 <- getx (rs1 i) ;;
    if negb (x1 mod kCacheBlockSize =? 0) then illegal i else mret' tt.

Fixpoint zero_block (addr : Z) (offs : list Z) : MM unit :=
  match offs with
  | [] => mret' tt
  | off :: offs => riscv_mem_store (u64 (addr + off)) 8 0 ;;; zero_block addr offs
  end.

Definition cbo_zero (i : Z) : MM unit :=
  s <- getrs ;;
  if (priv s =? kPrivUser) && negb (Z.testbit (senvcfg s) 7) then illegal i
  else
    addr <- getx (rs1 i) ;;
    if negb (addr mod kCacheBlockSize =? 0) then raise_ kExStoreMisaligned addr
    else zero_block addr [0; 8; 16; 24; 32; 40; 48; 56].

(** ** The opcode switch *)

Definition exec_load (i : Z) : MM unit :=
  x1 <- getx (rs1 i) ;;
  let addr := u64 (x1 + imm_i i) in
  let ld size sx := (v <- load addr size sx ;; setx (rd i) v) in
  switch (f3 i)
  [ (0, ld 1 true); (1, ld 2 true); (2, ld 4 true); (3, ld 8 false);
    (4, ld 1 false); (5, ld 2 false); (6, ld 4 false) ] (illegal i).

Definition exec_store (i : Z) : MM unit :=
  x1 <- getx (rs1 i) ;;
  x2 <- getx (rs2 i) ;;
  let addr := u64 (x1 + imm_s i) in
  switch (f3 i)
  [ (0, riscv_mem_store addr 1 x2); (1, riscv_mem_store addr 2 x2);
    (2, riscv_mem_store addr 4 x2); (3, riscv_mem_store addr 8 x2) ] (illegal i).

Definition exec_fence (i : Z) : MM unit :=
  if f3 i =? 0 then mret' tt
  else if f3 i =? 1 then
    if (f7 i =? 0) && (rs1 i =? 0) && (rd i =? 0) then mret' tt
    else if 2 <? f7 i then illegal i else cbo_op i
  else if f3 i =? 2 then (if negb (f7 i =? 0) then illegal i else cbo_zero i)
  else illegal i.

(** The next pc. *)
Definition riscv_exec_inst (i : Z) : MM Z :=
  p <- getpc ;;
  let next (m : MM unit) : MM Z := m ;;; mret' (u64 (p + 4)) in
  switch (i .& 0x7f)
  [ (0x37, next (setx (rd i) (imm_u i)));
    (0x17, next (setx (rd i) (u64 (p + imm_u i))));
    (0x6f, setx (rd i) (u64 (p + 4)) ;;; mret' (u64 (p + imm_j i)));
    (0x67, x1 <- getx (rs1 i) ;;
           s <- getrs ;;
           let target := u64 (x1 + imm_i i) &~ 1 in
           setx (rd i) (u64 (p + 4)) ;;;
           mret' (if tst (misa s) kMisaC then target else target &~ 2));
    (0x63, a <- getx (rs1 i) ;;
           b <- getx (rs2 i) ;;
           match branch_taken (f3 i) a b with
           | None => illegal i
           | Some true => mret' (u64 (p + imm_b i))
           | Some false => mret' (u64 (p + 4))
           end);
    (0x03, next (exec_load i));
    (0x23, next (exec_store i));
    (0x13, next (a <- getx (rs1 i) ;; setx_or_illegal i (rd i) (opimm_alu i a)));
    (0x1b, next (a <- getx (rs1 i) ;; setx_or_illegal i (rd i) (opimm32_alu i (u32 a))));
    (0x33, next (a <- getx (rs1 i) ;; b <- getx (rs2 i) ;;
                 setx_or_illegal i (rd i) (op_alu (f3 i) (f7 i) a b)));
    (0x3b, next (a <- getx (rs1 i) ;; b <- getx (rs2 i) ;;
                 setx_or_illegal i (rd i) (op32_alu (f3 i) (f7 i) (u32 a) (u32 b))));
    (0x0f, next (exec_fence i));
    (0x73, if f3 i =? 0 then system_op i else if negb (f3 i =? 4) then next (csr_op i) else illegal i);
    (0x2f, next (if f3 i =? 2 then amo_op i false else if f3 i =? 3 then amo_op i true else illegal i));
    (0x07, next (if f3 i =? 2 then fp_ldst i false false
                 else if f3 i =? 3 then fp_ldst i false true else illegal i));
    (0x27, next (if f3 i =? 2 then fp_ldst i true false
                 else if f3 i =? 3 then fp_ldst i true true else illegal i));
    (0x43, next (fma_op i 0x43)); (0x47, next (fma_op i 0x47));
    (0x4b, next (fma_op i 0x4b)); (0x4f, next (fma_op i 0x4f));
    (0x53, next (fp_op i)) ]
  (illegal i).
End exec.
