(* ===== verification/RvCsrRw.v ===== *)
(** * Reading and writing CSRs

    WARL registers are idempotent: what a write leaves, read back and
    written again, stays.  And the read-modify-write of mip mixes the device
    lines into the software bits. *)

From S2P Require Import Prelude Bus Ram RvState RvCsr RvCsrProps RvTrapProps RvMmu RvFp RvExec.

(** The registers of the write switch. *)
Definition kSwitchCsrs : list Z :=
  [0x001; 0x002; 0x003; 0x100; 0x104; 0x105; 0x106; 0x10A; 0x14D; 0x140; 0x141; 0x142; 0x143; 0x144; 0x180; 0x300;
   0x301; 0x302; 0x303; 0x304; 0x305; 0x306; 0x30A; 0x320; 0x340; 0x341; 0x342; 0x343; 0x344; 0x5A8; 0x7A0; 0x7A1;
   0x744; 0x7A2; 0x7A3; 0x7A5].

Lemma u8_small k x : 0 <= k <= 8 -> rng k x -> u8 x = x.
Proof. intros Hk Hx. apply wrap_small. by apply (rng_mono k). Qed.

(** ** The WARL maps are idempotent *)

Lemma u8_mask_idem v k : 0 <= k <= 8 -> u8 (u8 (v .& (2 ^ k - 1)) .& (2 ^ k - 1)) = u8 (v .& (2 ^ k - 1)).
Proof.
  intros Hk. rewrite (u8_small k (v .& _)) by (done || apply rng_land_ones; lia).
  rewrite <- Z.land_assoc, Z.land_diag. apply (u8_small k); [done|]. apply rng_land_ones. lia.
Qed.

Lemma insert_back m W r : r .& W = m .& W -> (m &~ W) .| (r .& W) = m.
Proof. intros ->. zbits. Qed.

Lemma sstatus_back m c :
  let r := (m .& kSstatusRmask) .| sel c (2 ^ 63) in (m &~ kSstatusWmask) .| (r .& kSstatusWmask) = m.
Proof.
  intros r. apply insert_back. unfold r. rewrite Z.land_lor_distr_l, <- Z.land_assoc.
  change (kSstatusRmask .& kSstatusWmask) with kSstatusWmask.
  replace (sel c (2 ^ 63) .& kSstatusWmask) with 0 by (by destruct c). apply Z.lor_0_r.
Qed.

Lemma fcsr_back f fl : rng 3 f -> rng 5 fl ->
  let r := (f .<< 5) .| fl in u8 ((r .>> 5) .& 7) = f /\ u8 (r .& 0x1f) = fl.
Proof.
  intros Hf Hl r. unfold r. rewrite Z.lor_comm, lor_shiftl_add by (done || lia).
  change 7 with (2 ^ 3 - 1). change 0x1f with (2 ^ 5 - 1). rewrite !land_ones_wrap, Z.shiftr_div_pow2 by lia.
  unfold wrap, rng in *. simpl Z.pow in *. split; Z.div_mod_to_equations; lia.
Qed.

Lemma mpp_legal st : (Z.testbit st 12 = true -> Z.testbit st 11 = true) ->
  (st .& kMstatusMppMask =? kPrivHypervisor .<< 11) = false.
Proof.
  intros Hm. apply Z.eqb_neq. intros E.
  assert (H12 : Z.testbit (st .& kMstatusMppMask) 12 = true) by (by rewrite E).
  assert (H11 : Z.testbit (st .& kMstatusMppMask) 11 = false) by (by rewrite E).
  rewrite Z.land_spec in H12, H11. apply andb_true_iff in H12 as [H12 _]. rewrite Hm in H11 by done. discriminate.
Qed.

Lemma satp_mode_legal v : satp_ok v ->
  let mode := (v .>> 60) .& 15 in
  negb (mode =? kSatpModeBare) && negb (mode =? kSatpModeSv39) && negb (mode =? kSatpModeSv48) = false.
Proof.
  intros (Hr & H61 & H62 & H60) mode. pose proof (land15_cases (v .>> 60)) as Hm. fold mode in Hm. cbv zeta in Hm.
  assert (Hb : forall k, 0 <= k < 4 -> Z.testbit mode k = Z.testbit v (k + 60)).
  { intros k Hk. unfold mode. change 15 with (2 ^ 4 - 1). rewrite land_ones_wrap, wrap_testbit, Z.shiftr_spec by lia.
    by rewrite (proj2 (Z.ltb_lt k 4)) by lia. }
  pose proof (Hb 0 ltac:(lia) : Z.testbit mode 0 = Z.testbit v 60) as B0.
  pose proof (Hb 1 ltac:(lia) : Z.testbit mode 1 = Z.testbit v 61) as B1.
  pose proof (Hb 2 ltac:(lia) : Z.testbit mode 2 = Z.testbit v 62) as B2.
  pose proof (Hb 3 ltac:(lia) : Z.testbit mode 3 = Z.testbit v 63) as B3. rewrite H61 in B1. rewrite H62 in B2.
  assert (Hc : In mode [0; 1; 2; 3; 4; 5; 6; 7; 8; 9; 10; 11; 12; 13; 14; 15]) by (cbn [In]; lia).
  clearbody mode. cbn [In] in Hc.
  repeat (destruct Hc as [<-|Hc]; [try discriminate; try reflexivity; rewrite H60 in B3 by (by rewrite <- B0); discriminate|]).
  destruct Hc.
Qed.

Lemma shiftr_lor_low c rest k : 0 <= k -> rng k rest -> (c .| rest) .>> k = c .>> k.
Proof.
  intros Hk Hr. rewrite Z.shiftr_lor, (Z.shiftr_div_pow2 rest), (Z.div_small rest) by (done || lia). apply Z.lor_0_r.
Qed.

(** The parts of a trigger word read back from it. *)
Lemma td1_chain_off idx v : (idx <? kTrigCount - 1) = false -> td1_chain idx v = 0.
Proof.
  intros Hi. unfold td1_chain, tst. rewrite Hi. cbn [orb].
  destruct (Z.eqb_spec (v .& kMc6Chain) 0) as [E|]; cbn [negb]; [exact E|done].
Qed.

Lemma td1_chain_on idx v : (idx <? kTrigCount - 1) = true -> td1_chain idx v = v .& kMc6Chain.
Proof. intros Hi. unfold td1_chain. by rewrite Hi. Qed.

Lemma td1_parts_back idx c rest :
  rest .& 0x7f = rest -> c .& 0x7f = 0 ->
  (c .| rest) .& 0x7f = rest /\ (c .| rest) .& kMc6Dmode = c .& kMc6Dmode /\
  td1_match (c .| rest) = td1_match c /\ td1_action (c .| rest) = td1_action c /\
  td1_chain idx (c .| rest) = td1_chain idx c.
Proof.
  intros Hr Hc. assert (Hg : rng 7 rest) by (rewrite <- Hr; apply (rng_land_ones rest 7 7); lia).
  assert (Hz : forall m, 0x7f .& m = 0 -> (c .| rest) .& m = c .& m).
  { intros m Hm. rewrite Z.land_lor_distr_l, <- Hr, <- Z.land_assoc, Hm, Z.land_0_r. apply Z.lor_0_r. }
  split_and!.
  - by rewrite Z.land_lor_distr_l, Hc, Hr.
  - by apply Hz.
  - unfold td1_match. by rewrite shiftr_lor_low by (done || lia).
  - unfold td1_action. change 12 with (7 + 5). rewrite <- !Z.shiftr_shiftr by lia. by rewrite shiftr_lor_low by (done || lia).
  - unfold td1_chain, tst. by rewrite (Hz kMc6Chain) by reflexivity.
Qed.

Lemma tdata1_warl_idem idx cur v : tdata1_warl idx (tdata1_warl idx cur v) (tdata1_warl idx cur v) = tdata1_warl idx cur v.
Proof.
  rewrite (tdata1_warl_parts idx (tdata1_warl _ _ _)), Z.land_diag, (tdata1_warl_parts idx cur v).
  change (kMc6Load .| kMc6Store .| kMc6Execute .| kMc6U .| kMc6S .| kMc6M) with 0x5f.
  set (c := kTrigTypeMcontrol6 .| _ .| td1_match v .| td1_action v .| td1_chain idx v).
  assert (Hc : c .& 0x7f = 0 /\ c .& kMc6Dmode = cur .& v .& kMc6Dmode /\ td1_match c = td1_match v /\
    td1_action c = td1_action v /\ td1_chain idx c = td1_chain idx v).
  { unfold c. destruct (idx <? kTrigCount - 1) eqn:Ei.
    - rewrite !(td1_chain_on idx) by done. unfold kMc6Chain, kMc6Dmode.
      destruct (td1_match_cases v) as [-> |[-> | ->]], (td1_action_cases v) as [-> | ->],
        (land_pow2_cases v 11 ltac:(lia)) as [-> | ->], (land_pow2_cases (cur .& v) 59 ltac:(lia)) as [-> | ->];
        split_and!; reflexivity.
    - rewrite !td1_chain_off by done. unfold kMc6Dmode.
      destruct (td1_match_cases v) as [-> |[-> | ->]], (td1_action_cases v) as [-> | ->],
        (land_pow2_cases (cur .& v) 59 ltac:(lia)) as [-> | ->]; split_and!; reflexivity. }
  destruct Hc as (H7 & Hd & Hm & Ha & Hch).
  destruct (td1_parts_back idx c (v .& 0x5f) ltac:(by rewrite <- Z.land_assoc) H7) as (E7 & -> & -> & -> & ->).
  rewrite Hd, Hm, Ha, Hch. fold c. f_equal.
  change 0x5f with (0x7f .& 0x5f) at 2. rewrite Z.land_assoc, E7. by rewrite <- Z.land_assoc.
Qed.

(** ** Stability, register by register *)

Section rw.
Context {Dev : Type}.
Implicit Types s : RiscvState Dev.

(** Writing back what is read changes nothing that is read. *)
Definition stable s (addr r : Z) : Prop :=
  forall np s2, csr_write_plain s addr r np = COk s2 -> csr_read_plain s2 addr = COk r.

Lemma satp_stable s v s1 r : csr_inv s -> rng 64 v -> satp_write v s = COk s1 -> csr_read_plain s1 0x180 = COk r ->
  stable s1 0x180 r.
Proof.
  intros Hi Hv Hw Hr np s2. pose proof (satp_write_ok v s Hv Hi) as Hi1. rewrite Hw in Hi1. cbn [res_inv] in Hi1.
  revert Hr. unfold csr_read_plain, csr_write_plain. cbn [switch Z.eqb Pos.eqb]. unfold satp_write.
  destruct (_ && _) eqn:Ht; [done|]. intros [= <-]. rewrite (satp_mode_legal _ (ci_satp _ Hi1)). cbv zeta iota.
  replace (satp s1 .& kSatpWmask) with (satp s1).
  - intros [= <-]. rsimpl. by rewrite Ht.
  - change kSatpWmask with (2 ^ 64 - 1). rewrite land_ones_wrap by lia. symmetry. apply wrap_small, (ci_satp _ Hi1).
Qed.

Lemma mstatus_stable s v s1 r : csr_inv s -> rng 64 v -> s1 = mstatus_write v s -> r = mstatus s1 -> stable s1 0x300 r.
Proof.
  intros Hi Hv Hs1 -> np s2 [= <-]. pose proof (mstatus_write_ok v s Hv (ci_mstatus _ Hi)) as Hok.
  rewrite <- Hs1 in Hok. destruct Hok as (_ & Hmpp & _). change (COk (mstatus (mstatus_write (mstatus s1) s1)) = COk (mstatus s1)).
  f_equal. unfold mstatus_write at 1. rsimpl. rewrite (mpp_legal _ Hmpp), (insert_back _ _ _ eq_refl).
  rewrite Hs1. unfold mstatus_write. rsimpl. zbits.
Qed.

Lemma misa_stable s v np s1 r : s1 = misa_write v np s -> r = misa s1 -> stable s1 0x301 r.
Proof.
  intros Hs1 -> np' s2 [= <-]. destruct (misa_write_ok v np s) as [Hw H8]. rewrite <- Hs1 in Hw, H8.
  change (COk (misa (misa_write (misa s1) np' s1)) = COk (misa s1)). f_equal. unfold misa_write. rsimpl.
  replace ((misa s1 .& kMisaSupported) .| kMisaI) with (misa s1).
  - by rewrite andb_negb_r.
  - unfold within in Hw. apply Z.bits_inj'; intros n Hn. apply (f_equal (fun z => Z.testbit z n)) in Hw. revert Hw.
    autorewrite with zbits. change kMisaI with (2 ^ 8). rewrite Z.pow2_bits_eqb by lia.
    destruct (Z.eqb_spec 8 n) as [<-|]; [rewrite H8; by rewrite orb_true_r|].
    destruct (Z.testbit (misa s1) n), (Z.testbit kMisaSupported n); done.
Qed.

Lemma tselect_stable s v s1 r : rng 64 v -> csr_write_plain s 0x7A0 v 0 = COk s1 -> csr_read_plain s1 0x7A0 = COk r ->
  stable s1 0x7A0 r.
Proof.
  intros Hv [= <-] [= <-] np s2 [= <-].
  change (COk (if tselect (s <| tselect := if v <? kTrigCount then v else kTrigCount - 1 |>) <? kTrigCount
               then tselect (s <| tselect := if v <? kTrigCount then v else kTrigCount - 1 |>) else kTrigCount - 1) =
    COk (if v <? kTrigCount then v else kTrigCount - 1)). rsimpl.
  destruct (v <? kTrigCount) eqn:E; [by rewrite E|done].
Qed.

(** The trigger registers of the selected index. *)
Lemma trig_stable (f : RiscvState Dev -> list Z) g s v s1 r addr (set : Z -> RiscvState Dev -> RiscvState Dev) :
  csr_inv s ->
  (forall x s, tselect (set x s) = tselect s) -> length (f s) = 2%nat ->
  (forall x s, f (set x s) = arr_set (f s) (tselect s) (g (tselect s) (arr (f s) (tselect s)) x)) ->
  (forall i c x, g i (g i c x) (g i c x) = g i c x) ->
  (forall s x np, csr_write_plain s addr x np = trig_write (set x) s) ->
  (forall s, csr_read_plain s addr = trig_read (f s) s) ->
  csr_write_plain s addr v 0 = COk s1 -> csr_read_plain s1 addr = COk r -> stable s1 addr r.
Proof.
  intros Hi Hsel Hlen Hf Hg Hw Hr. rewrite Hw, Hr. unfold trig_write, trig_read.
  pose proof (ci_tselect _ Hi) as Ht. destruct (Z.ltb_spec (tselect s) kTrigCount); [|lia]. intros [= <-].
  rewrite Hsel. destruct (Z.ltb_spec (tselect s) kTrigCount); [|lia]. intros [= <-] np s2. rewrite Hw, Hr.
  unfold trig_write, trig_read. rewrite Hsel. destruct (Z.ltb_spec (tselect s) kTrigCount); [|lia]. intros [= <-].
  rewrite !Hsel. destruct (Z.ltb_spec (tselect s) kTrigCount); [|lia]. f_equal. rewrite !Hf, !Hsel.
  unfold kTrigCount in *. rewrite !arr_set_eq by (rewrite ?length_arr_set, Hlen; lia). apply Hg.
Qed.

Lemma switch_stable s addr v np s1 r :
  csr_inv s -> rng 64 v -> In addr kSwitchCsrs ->
  csr_write_plain s addr v np = COk s1 -> csr_read_plain s1 addr = COk r -> stable s1 addr r.
Proof.
  intros Hi Hv Hin. unfold kSwitchCsrs in *. cbn [In] in Hin.
  repeat (destruct Hin as [<-|Hin]; [
    try (unfold stable, csr_write_plain, csr_read_plain; cbn [switch Z.eqb Pos.eqb];
      intros [= <-]; intros [= <-]; intros np' s2 [= <-]; rsimpl; first [reflexivity | f_equal; zbits])|]); [..|destruct Hin].
  - intros [= <-] [= <-] np' s2 [= <-]. cbn [csr_read_plain switch Z.eqb Pos.eqb]. rsimpl. f_equal.
    apply (u8_mask_idem v 5). lia.
  - intros [= <-] [= <-] np' s2 [= <-]. cbn [csr_read_plain switch Z.eqb Pos.eqb]. rsimpl. f_equal.
    apply (u8_mask_idem v 3). lia.
  - intros [= <-] [= <-] np' s2 [= <-]. cbn [csr_read_plain switch Z.eqb Pos.eqb]. rsimpl. f_equal.
    pose proof (rng_land_ones (v .>> 5) 3 3 ltac:(lia) : rng 3 ((v .>> 5) .& 7)) as H3.
    pose proof (rng_land_ones v 5 5 ltac:(lia) : rng 5 (v .& 0x1f)) as H5.
    rewrite (u8_small 3 ((v .>> 5) .& 7)), (u8_small 5 (v .& 0x1f)) by (lia || done).
    destruct (fcsr_back _ _ H3 H5) as [E1 E2]. by rewrite E1, E2.
  - intros [= <-] [= <-] np' s2 [= <-]. cbn [csr_read_plain switch Z.eqb Pos.eqb]. rsimpl. by rewrite sstatus_back.
  - intros [= <-] [= <-] np' s2 [= <-]. cbn [csr_read_plain switch Z.eqb Pos.eqb]. rsimpl. f_equal.
    destruct (tst _ _); zbits.
  - intros [= <-] [= <-] np' s2 [= <-]. cbn [csr_read_plain switch Z.eqb Pos.eqb]. unfold MipAll. rsimpl. f_equal. zbits.
  - by apply satp_stable.
  - intros [= <-] [= <-]. by eapply mstatus_stable.
  - intros [= <-] [= <-]. by eapply misa_stable.
  - intros [= <-] [= <-] np' s2 [= <-]. cbn [csr_read_plain switch Z.eqb Pos.eqb]. rsimpl. f_equal.
    destruct (tst _ _); zbits.
  - intros [= <-] [= <-] np' s2 [= <-]. cbn [csr_read_plain switch Z.eqb Pos.eqb]. unfold MipAll. rsimpl. f_equal. zbits.
  - by apply tselect_stable.
  - apply (trig_stable tdata1 tdata1_warl s v s1 r 0x7A1 RiscvTriggerWriteTdata1); try done; [apply Hi|]. apply tdata1_warl_idem.
  - apply (trig_stable tdata2 (fun _ _ x => x) s v s1 r 0x7A2
      (fun val s => s <| tdata2 := arr_set (tdata2 s) (tselect s) val |>)); try done. apply Hi.
  - apply (trig_stable tdata3 (fun _ _ x => x &~ kTd3MhMask) s v s1 r 0x7A3 RiscvTriggerWriteTdata3); try done; [apply Hi|].
    intros. zbits.
Qed.

(** *** The ranges behind the switch *)

Lemma switch_default {A} x (l : list (Z * A)) d : ~ In x l.*1 -> switch x l d = d.
Proof.
  induction l as [|[k a] l IH]; intros Hn; [done|]. cbn [switch]. destruct (Z.eqb_spec x k) as [->|].
  - destruct Hn. by left.
  - apply IH. intros Hl. apply Hn. by right.
Qed.

Lemma pmpcfg_byte_fix b : pmpcfg_byte_ok b -> pmpcfg_byte b b = b.
Proof.
  intros [Hw Ha]. unfold pmpcfg_byte. destruct (tst b kPmpL); [done|].
  assert (E : (if tst b kPmpR then b else b &~ kPmpW) = b).
  { destruct (tst b kPmpR) eqn:Er; [done|]. change kPmpW with (2 ^ 1) in *. rewrite tst_pow2 in Hw by lia.
    apply Z.bits_inj'; intros n Hn. rewrite Z.ldiff_spec, Z.pow2_bits_eqb by lia.
    destruct (Z.eqb_spec 1 n) as [<-|]; [|apply andb_true_r]. destruct (Z.testbit b 1); [by specialize (Hw eq_refl)|done]. }
  rewrite E. by destruct (Z.eqb_spec (b .& kPmpAMask) kPmpANa4).
Qed.

Lemma word_of_bytes w : rng 64 w -> le_val ((fun b => cfg_byte w b) <$> [0; 1; 2; 3; 4; 5; 6; 7]) = w.
Proof.
  intros Hw. transitivity (le_val (le_bytes 8 w)).
  - reflexivity.
  - rewrite le_val_bytes. by apply wrap_small.
Qed.

Lemma pmpcfg_fix w : pmpcfg_ok w -> le_val (pmpcfg_bytes w w) = w.
Proof.
  intros [Hw Hb]. rewrite <- (word_of_bytes w Hw) at 3. unfold pmpcfg_bytes. f_equal.
  apply list_fmap_ext. intros i b Hi. apply pmpcfg_byte_fix, Hb.
  apply list_elem_of_lookup_2 in Hi. revert Hi. rewrite !elem_of_cons, elem_of_nil. lia.
Qed.

Lemma pmpcfg_stable s i v : csr_inv s -> 0 <= i < 2 ->
  let s1 := WritePmpCfg i v s in arr (pmpcfg (WritePmpCfg i (arr (pmpcfg s1) i) s1)) i = arr (pmpcfg s1) i.
Proof.
  intros Hi Hr s1. pose proof (WritePmpCfg_inv i v s Hi Hr) as Hi1. fold s1 in Hi1.
  destruct (ci_pmpcfg _ Hi1) as [Hl Hf]. rewrite WritePmpCfg_word, arr_set_eq by lia.
  apply pmpcfg_fix. apply Forall_arr; [done|lia].
Qed.

Lemma pmpaddr_stable s i v : csr_inv s -> 0 <= i < 16 ->
  let s1 := WritePmpAddr i v s in arr (pmpaddr (WritePmpAddr i (arr (pmpaddr s1) i) s1)) i = arr (pmpaddr s1) i.
Proof.
  intros Hi Hr. destruct (ci_pmpaddr _ Hi) as [Hl Hf]. unfold WritePmpAddr.
  destruct (Z.leb_spec kPmpCount i); [unfold kPmpCount in *; lia|]. cbv zeta.
  change (pmp_cfg_of (s <| pmpaddr := ?a |> <| pmp_gen := ?g |>)) with (pmp_cfg_of s) || idtac.
  destruct (tst (pmp_cfg_of s i) kPmpL || _) eqn:E; rsimpl; [by rewrite E|].
  match goal with |- arr (pmpaddr (if ?c then _ else _)) _ = _ => change c with (tst (pmp_cfg_of s i) kPmpL ||
    tst (if i + 1 <? kPmpCount then pmp_cfg_of s (i + 1) else 0) kPmpL &&
    ((if i + 1 <? kPmpCount then pmp_cfg_of s (i + 1) else 0) .& kPmpAMask =? kPmpATor)) end.
  rewrite E. rsimpl. rewrite !arr_set_eq by (rewrite ?length_arr_set; lia). zbits.
Qed.

Definition csr_range (addr : Z) : Prop :=
  0xB03 <= addr <= 0xB12 \/ 0x323 <= addr <= 0x332 \/ 0x3A0 <= addr <= 0x3BF.

(** Both accesses in the indexed ranges. *)
Lemma range_access addr : csr_range addr ->
  (forall s v np, csr_write_plain s addr v np =
    if (0xB03 <=? addr) && (addr <=? 0xB12) then
      COk (s <| mhpmcounter := arr_set (mhpmcounter s) (addr - 0xB03) v |>)
    else if (0x323 <=? addr) && (addr <=? 0x332) then
      COk (s <| mhpmevent := arr_set (mhpmevent s) (addr - 0x323) v |>)
    else if (0x3A0 <=? addr) && (addr <=? 0x3AE) && (addr .& 1 =? 0) then
      if (addr - 0x3A0) / 2 <? 2 then COk (WritePmpCfg ((addr - 0x3A0) / 2) v s) else COob
    else if (0x3B0 <=? addr) && (addr <=? 0x3BF) then COk (WritePmpAddr (addr - 0x3B0) v s) else CErr) /\
  (forall s, csr_read_plain s addr =
    if (0xB03 <=? addr) && (addr <=? 0xB12) then COk (arr (mhpmcounter s) (addr - 0xB03))
    else if (0x323 <=? addr) && (addr <=? 0x332) then COk (arr (mhpmevent s) (addr - 0x323))
    else if (0x3A0 <=? addr) && (addr <=? 0x3AE) && (addr .& 1 =? 0) then
      if (addr - 0x3A0) / 2 <? 2 then COk (arr (pmpcfg s) ((addr - 0x3A0) / 2)) else COob
    else if (0x3B0 <=? addr) && (addr <=? 0x3BF) then COk (arr (pmpaddr s) (addr - 0x3B0)) else CErr).
Proof.
  intros Hr. unfold csr_range in Hr. split; intros; unfold csr_write_plain, csr_read_plain;
    (rewrite switch_default; [reflexivity|]; cbn [fmap list_fmap fst In]; lia).
Qed.

Lemma pick_range addr (P : Prop) :
  (0xB03 <= addr <= 0xB12 -> P) -> (0x323 <= addr <= 0x332 -> P) -> (0x3A0 <= addr <= 0x3AE -> addr .& 1 = 0 -> P) ->
  (0x3B0 <= addr <= 0x3BF -> P) -> (csr_range addr -> 0x3A0 <= addr <= 0x3AF -> ~ (addr <= 0x3AE /\ addr .& 1 = 0) -> P) ->
  csr_range addr -> P.
Proof.
  intros H1 H2 H3 H4 H5 Hr. pose proof Hr as [?|[?|?]]; [auto..|].
  destruct (Z.le_gt_cases 0x3B0 addr); [apply H4; lia|].
  destruct (decide (addr <= 0x3AE /\ addr .& 1 = 0)) as [[]|]; [apply H3; lia|]. apply H5; [done|lia|done].
Qed.

(** Decide the range tests of the goal by arithmetic. *)
Ltac ranges :=
  repeat match goal with
  | |- context [?a <=? ?b] =>
      first [rewrite (proj2 (Z.leb_le a b)) by lia | rewrite (proj2 (Z.leb_gt a b)) by lia]; cbn [andb]
  end.

Lemma COk_inj {A} (a b : A) : COk a = COk b -> a = b.
Proof. by intros [= ->]. Qed.

Lemma range_stable s addr v np s1 r :
  csr_inv s -> rng 64 v -> csr_range addr ->
  csr_write_plain s addr v np = COk s1 -> csr_read_plain s1 addr = COk r -> stable s1 addr r.
Proof.
  intros Hi Hv Hr. destruct (range_access addr Hr) as [Hw Hrd]. unfold stable.
  setoid_rewrite Hw. setoid_rewrite Hrd.
  apply (pick_range addr); [clear Hr; intros Hr..|exact Hr].
  - destruct (ci_mhpm _ Hi) as [Hl _]. ranges. intros [= <-] [= <-] np' s2 [= <-]. rsimpl.
    by rewrite !arr_set_eq by (rewrite ?length_arr_set; lia).
  - destruct (ci_mhpmev _ Hi) as [Hl _]. ranges. intros [= <-] [= <-] np' s2 [= <-]. rsimpl.
    by rewrite !arr_set_eq by (rewrite ?length_arr_set; lia).
  - intros He. ranges. rewrite He. cbn [Z.eqb andb]. destruct (Z.ltb_spec ((addr - 0x3A0) / 2) 2); [|done].
    intros <-%COk_inj <-%COk_inj np' s2 <-%COk_inj.
    pose proof (pmpcfg_stable s ((addr - 0x3A0) / 2) v Hi ltac:(Z.div_mod_to_equations; lia)) as Hs.
    cbv zeta in Hs. by rewrite Hs.
  - ranges. rewrite ?andb_false_r. intros <-%COk_inj <-%COk_inj np' s2 <-%COk_inj.
    pose proof (pmpaddr_stable s (addr - 0x3B0) v Hi ltac:(lia)) as Hs. cbv zeta in Hs. by rewrite Hs.
  - intros Ha Hn. destruct (Z.le_gt_cases addr 0x3AE) as [Hle|Hgt]; [|ranges; discriminate].
    ranges. destruct (Z.eqb_spec (addr .& 1) 0); [naive_solver|]. cbn [andb]. ranges. discriminate.
Qed.

Lemma write_known s addr v np s1 : csr_write_plain s addr v np = COk s1 -> In addr kSwitchCsrs \/ csr_range addr.
Proof.
  intros Hw. destruct (decide (addr ∈ kSwitchCsrs)) as [Hk|Hk]; [left; by apply list_elem_of_In|]. right.
  unfold csr_write_plain in Hw. rewrite switch_default in Hw by (intros Hin; apply Hk; by apply list_elem_of_In).
  unfold csr_range, kMhpmCount in *. revert Hw.
  repeat match goal with |- context [?a <=? ?b] => destruct (Z.leb_spec a b) end; cbn [andb]; try discriminate; lia.
Qed.

Lemma write_keeps_priv s addr v np : res_keeps priv s (csr_write_plain s addr v np).
Proof.
  unfold csr_write_plain. apply switch_ind.
  - repeat apply Forall_cons_2; try apply Forall_nil_2; cbn [fst snd]; intros _;
      unfold satp_write, trig_write; repeat case_match; done.
  - unfold WritePmpAddr. repeat case_match; done.
Qed.

(** A register with a plain write is not a counter. *)
Lemma not_a_counter {W} (t : option (W -> Z * W)) s addr w :
  In addr kSwitchCsrs \/ csr_range addr -> ReadCounter t s addr w = (None, w).
Proof.
  intros Hk. assert (Hn : addr <> 0xB00 /\ addr <> 0xC00 /\ addr <> 0xB02 /\ addr <> 0xC02 /\ addr <> 0xC01).
  { unfold csr_range, kSwitchCsrs in Hk. cbn [In] in Hk. lia. }
  unfold ReadCounter. destruct (counter_denied s addr); [done|].
  destruct Hn as (H1%Z.eqb_neq & H2%Z.eqb_neq & H3%Z.eqb_neq & H4%Z.eqb_neq & H5%Z.eqb_neq).
  by rewrite H1, H2, H3, H4, H5.
Qed.

Lemma read_mcycle {W} (t : option (W -> Z * W)) s w :
  kPrivMachine <= priv s -> ReadCounter t s 0xB00 w = (Some (mcycle s), w).
Proof. intros Hp. unfold ReadCounter, counter_denied. by rewrite (proj2 (Z.ltb_ge _ _) Hp). Qed.
Lemma read_minstret {W} (t : option (W -> Z * W)) s w :
  kPrivMachine <= priv s -> ReadCounter t s 0xB02 w = (Some (minstret s), w).
Proof. intros Hp. unfold ReadCounter, counter_denied. by rewrite (proj2 (Z.ltb_ge _ _) Hp). Qed.

(** CSR writes are WARL-stable: from the CSR invariant, the value read back after any successful
    write, written to the same register again, reads back unchanged (masks, trigger and PMP
    legalisation, satp modes, misa with its alignment rule, locked entries and counters included).
    *)
Theorem csr_warl_stable {W} (t : option (W -> Z * W)) s addr v np s1 r w w1 np' s2 :
  csr_inv s -> rng 64 v ->
  riscv_csr_write s addr v np = COk s1 -> riscv_csr_read t s1 addr w = (COk r, w1) ->
  riscv_csr_write s1 addr r np' = COk s2 -> riscv_csr_read t s2 addr w = (COk r, w1).
Proof.
  intros Hi Hv. unfold riscv_csr_write, riscv_csr_read.
  destruct (Z.ltb_spec (priv s) (CsrPriv addr)) as [|Hp]; [intros [=]|].
  destruct (Z.eqb_spec addr 0xB00) as [->|N1]; [|destruct (Z.eqb_spec addr 0xB02) as [->|N2]].
  - intros [= <-]. rsimpl. rewrite (proj2 (Z.ltb_ge _ _) Hp), read_mcycle by exact Hp. intros [= <- <-] [= <-].
    rsimpl. by rewrite (proj2 (Z.ltb_ge _ _) Hp), read_mcycle by exact Hp.
  - intros [= <-]. rsimpl. rewrite (proj2 (Z.ltb_ge _ _) Hp), read_minstret by exact Hp. intros [= <- <-] [= <-].
    rsimpl. by rewrite (proj2 (Z.ltb_ge _ _) Hp), read_minstret by exact Hp.
  - intros Hw. pose proof (write_known _ _ _ _ _ Hw) as Hk.
    pose proof (write_keeps_priv s addr v np) as Hp1. rewrite Hw in Hp1. cbn [res_keeps] in Hp1. rewrite Hp1.
    destruct (Z.ltb_spec (priv s) (CsrPriv addr)); [lia|]. rewrite not_a_counter by done. intros [= Hr <-] Hw2.
    pose proof (write_keeps_priv s1 addr r np') as Hp2. rewrite Hw2 in Hp2. cbn [res_keeps] in Hp2. rewrite Hp2, Hp1.
    destruct (Z.ltb_spec (priv s) (CsrPriv addr)); [lia|]. rewrite not_a_counter by done. f_equal.
    destruct Hk as [Hk|Hk]; [exact (switch_stable s addr v np s1 r Hi Hv Hk Hw Hr np' s2 Hw2)|
      exact (range_stable s addr v np s1 r Hi Hv Hk Hw Hr np' s2 Hw2)].
Qed.
End rw.

(** ** Read-modify-write of mip *)

Section mip.
Context {Ops Dev W : Type} `{BusDevices Ops Dev W}.
Implicit Types m : Mach Ops Dev W.

(** Csrrs on mip writes back what it read, device lines included: after setting any bit, every
    software-writable pending bit whose line was up is latched in the software part, so dropping the
    line no longer clears it. *)
Theorem mip_rmw_latches_wires i m :
  (i .>> 20) .& 0xfff = 0x344 -> f3 i = 2 -> priv (rs m) = kPrivMachine -> arr (gpr (cpu m)) (rs1 i) <> 0 ->
  exists m', csr_op i m = Done tt m' /\
    mip (rs m') .& kMipWmask = (mip (rs m) .| ext_irq (rs m) .| arr (gpr (cpu m)) (rs1 i)) .& kMipWmask.
Proof.
  intros Hc Hf Hp Hx. unfold csr_op. rewrite Hc, Hf. cbn [switch Z.eqb Pos.eqb Z.leb Z.compare Pos.compare Pos.compare_cont].
  change (2 .& 3) with 2. cbn [switch Z.eqb Pos.eqb].
  assert (Hr : csr_read_m 0x344 i m = Done (MipAll (rs m)) m).
  { unfold csr_read_m, riscv_csr_read. rewrite Hp. change (kPrivMachine <? CsrPriv 0x344) with false. cbv iota.
    unfold ReadCounter, counter_denied. rewrite Hp. change (kPrivMachine <? kPrivMachine) with false. cbn [andb].
    cbn [Z.eqb Pos.eqb orb]. change (csr_read_plain (rs m) 0x344) with (COk (MipAll (rs m))). by destruct m. }
  unfold mbind', getx, getpc, gets. rewrite Hr. apply Z.eqb_neq in Hx. rewrite Hx. cbn [negb].
  unfold csr_write_m, riscv_csr_write. rewrite Hp. change (kPrivMachine <? CsrPriv 0x344) with false.
  cbn [Z.eqb Pos.eqb]. eexists. split; [reflexivity|]. rsimpl.
  by rewrite field_insert, <- Z.land_assoc, Z.land_diag.
Qed.
End mip.
