(* ===== verification/RvAluProps.v ===== *)
(** * Arithmetic of the instruction set

    Sign extension, immediates, the M extension and the word operations
    against their mathematical specifications on [w]-bit integers. *)

From S2P Require Import Prelude Bus Ram RvState RvCsr RvMmu RvFp RvExec.

(** ** Sign extension *)

Lemma sext_spec v w : 0 < w < 64 -> sext v w = u64 (signed w (wrap w v)).
Proof.
  intros Hw. unfold sext. destruct (Z.leb_spec 64 w); [lia|].
  rewrite !Z.shiftl_1_l, land_ones_wrap by lia. rewrite lxor_sub_signed by (lia || rng). done.
Qed.

Lemma sext_rng v w : 0 < w -> rng 64 v -> rng 64 (sext v w).
Proof. intros. unfold sext. case_match; [done|rng]. Qed.

Lemma s64_sext v w : 0 < w < 64 -> s64 (sext v w) = signed w (wrap w v).
Proof.
  intros Hw. rewrite sext_spec by done. apply signed_wrap; [lia|].
  pose proof (signed_range w (wrap w v) ltac:(lia) ltac:(rng)) as Hr.
  assert (2 ^ (w - 1) <= 2 ^ (64 - 1)) by (apply Z.pow_le_mono_r; lia). lia.
Qed.

Lemma sext_small x w : 0 < w < 64 -> - 2 ^ (w - 1) <= x < 2 ^ (w - 1) -> sext (wrap w x) w = u64 x.
Proof.
  intros Hw Hx. rewrite sext_spec by done. f_equal.
  rewrite (wrap_small w (wrap w x)) by rng. by apply signed_wrap; [lia|].
Qed.

(** ** The M extension *)

Lemma wrap_add_mul w x k : 0 <= w -> wrap w (x + k * 2 ^ w) = wrap w x.
Proof. intros. unfold wrap. apply Z.mod_add. lia. Qed.

Lemma shiftr_wrap_hi p : u64 (signed 128 (wrap 128 p) .>> 64) = u64 (p / 2 ^ 64).
Proof.
  rewrite Z.shiftr_div_pow2 by lia.
  assert (exists k, signed 128 (wrap 128 p) = p + k * 2 ^ 128) as [k ->].
  { unfold signed, wrap. pose proof (Z.div_mod p (2 ^ 128) ltac:(lia)).
    case_match; [exists (- (p / 2 ^ 128))|exists (- (p / 2 ^ 128) - 1)]; lia. }
  replace (2 ^ 128) with (2 ^ 64 * 2 ^ 64) by reflexivity. rewrite Z.mul_assoc, Z.div_add by lia.
  apply wrap_add_mul; lia.
Qed.

Lemma mul_hi_spec p : mul_hi p = u64 (p / 2 ^ 64).
Proof. apply shiftr_wrap_hi. Qed.

(** High and low halves make the product, when the product fits the type the
    high half is read in. *)
Lemma mul_halves p : p = (p / 2 ^ 64) * 2 ^ 64 + u64 p.
Proof. unfold wrap. pose proof (Z.div_mod p (2 ^ 64) ltac:(lia)). lia. Qed.

Lemma u64_mul_signed a b : rng 64 a -> rng 64 b ->
  u64 (s64 a * s64 b) = u64 (a * b) /\ u64 (s64 a * b) = u64 (a * b).
Proof.
  intros Ha Hb. assert (forall x, exists k, s64 x = x + k * 2 ^ 64) as Hs.
  { intros x. unfold signed. case_match; [exists 0|exists (-1)]; lia. }
  destruct (Hs a) as [k ->], (Hs b) as [l ->]. split.
  - replace ((a + k * 2 ^ 64) * (b + l * 2 ^ 64)) with (a * b + (a * l + k * b + k * l * 2 ^ 64) * 2 ^ 64) by ring.
    apply wrap_add_mul; lia.
  - replace ((a + k * 2 ^ 64) * b) with (a * b + k * b * 2 ^ 64) by ring. apply wrap_add_mul; lia.
Qed.

Lemma s64_bounds x : rng 64 x -> - 2 ^ 63 <= s64 x < 2 ^ 63.
Proof. intros. by apply (signed_range 64). Qed.

(** Mul, mulh, mulhsu and mulhu return the two halves of the full 128-bit signed, mixed and unsigned
    products. *)
Theorem mulh_product a b :
  rng 64 a -> rng 64 b ->
  exists lo h hsu hu,
    op_alu 0 1 a b = Some lo /\ op_alu 1 1 a b = Some h /\ op_alu 2 1 a b = Some hsu /\ op_alu 3 1 a b = Some hu /\
    s64 a * s64 b = s64 h * 2 ^ 64 + lo /\ s64 a * b = s64 hsu * 2 ^ 64 + lo /\ a * b = hu * 2 ^ 64 + lo.
Proof.
  intros Ha Hb. pose proof (s64_bounds a Ha) as Hsa. pose proof (s64_bounds b Hb) as Hsb.
  pose proof (u64_mul_signed a b Ha Hb) as [E1 E2]. unfold rng in *.
  do 4 eexists. do 4 (split; [reflexivity|]). rewrite !mul_hi_spec.
  assert (Hdiv : forall p, - 2 ^ 127 <= p < 2 ^ 127 -> s64 (u64 (p / 2 ^ 64)) = p / 2 ^ 64).
  { intros p Hp. apply signed_wrap; [lia|]. split; [apply Z.div_le_lower_bound|apply Z.div_lt_upper_bound]; lia. }
  split_and!.
  - rewrite Hdiv by nia. rewrite <- E1. apply mul_halves.
  - rewrite Hdiv by nia. rewrite <- E2. apply mul_halves.
  - rewrite (wrap_small 64 (_ / _)); [apply mul_halves|].
    split; [apply Z.div_pos|apply Z.div_lt_upper_bound]; nia.
Qed.

(** The RISC-V division contract at width [w]. *)
Lemma div_rem_spec w a b :
  1 < w -> rng w a -> rng w b ->
  let q := signed w (div_s w a b) in
  let r := signed w (rem_s w a b) in
  let sa := signed w a in
  let sb := signed w b in
  (b = 0 -> q = -1 /\ r = sa) /\
  (b <> 0 -> ~ (sa = - 2 ^ (w - 1) /\ sb = -1) ->
     sa = q * sb + r /\ Z.abs r < Z.abs sb /\ (r = 0 \/ (0 < r <-> 0 < sa))) /\
  (sa = - 2 ^ (w - 1) /\ sb = -1 -> q = sa /\ r = 0).
Proof.
  intros Hw Ha Hb q r sa sb.
  assert (P : 2 ^ w = 2 * 2 ^ (w - 1)) by (rewrite <- Z.pow_succ_r by lia; f_equal; lia).
  assert (P1 : 1 < 2 ^ (w - 1)) by (apply Z.pow_gt_1; lia).
  assert (Hsb0 : sb = 0 <-> b = 0).
  { unfold sb, signed. unfold rng in Hb. case_match; lia. }
  pose proof (signed_range w a ltac:(lia) Ha) as Hsa. pose proof (signed_range w b ltac:(lia) Hb) as Hsb.
  fold sa in Hsa. fold sb in Hsb.
  split_and!.
  - intros Hb0. unfold q, r, div_s, rem_s. fold sb. rewrite (proj2 Hsb0 Hb0). simpl. split; [|done].
    unfold signed. destruct (Z.ltb_spec (2 ^ w - 1) (2 ^ (w - 1))); lia.
  - intros Hb0 Hov. assert (Hs0 : sb <> 0) by tauto.
    assert (Hbr : (sa =? - 2 ^ (w - 1)) && (sb =? -1) = false).
    { destruct (Z.eqb_spec sa (- 2 ^ (w - 1))), (Z.eqb_spec sb (-1)); simpl; tauto. }
    unfold q, r, div_s, rem_s. fold sa sb. rewrite Hbr. destruct (Z.eqb_spec sb 0); [done|].
    pose proof (Z.quot_rem' sa sb) as Hqr. pose proof (Z.rem_bound_abs sa sb Hs0) as Hrb.
    assert (Hqb : - 2 ^ (w - 1) <= Z.quot sa sb < 2 ^ (w - 1)).
    { destruct (Z.eq_dec sb (-1)) as [E|E]; [rewrite E in *; change (-1) with (- (1)); rewrite Z.quot_opp_r, Z.quot_1_r by lia; lia|].
      destruct (Z.eq_dec sb 1) as [E'|E']; [rewrite E', Z.quot_1_r; lia|].
      assert (Z.abs (Z.quot sa sb) * 2 <= Z.abs sa); [|lia].
      rewrite <- Z.quot_abs by done. assert (2 <= Z.abs sb) by lia.
      pose proof (Z.mul_quot_le (Z.abs sa) (Z.abs sb) ltac:(lia) ltac:(lia)).
      assert (0 <= Z.quot (Z.abs sa) (Z.abs sb)) by (apply Z.quot_pos; lia). nia. }
    assert (Hrb2 : - 2 ^ (w - 1) <= Z.rem sa sb < 2 ^ (w - 1)) by lia.
    rewrite !signed_wrap by lia. split_and!; [lia|lia|].
    destruct (Z.eq_dec (Z.rem sa sb) 0) as [|Hr0]; [by left|right].
    pose proof (Z.rem_sign_nz sa sb Hs0 Hr0) as Hsg.
    destruct (Z.sgn_spec sa) as [[? E]|[[? E]|[? E]]], (Z.sgn_spec (Z.rem sa sb)) as [[? E']|[[? E']|[? E']]]; lia.
  - intros [E1 E2]. unfold q, r, div_s, rem_s. fold sa sb. rewrite E1, E2. simpl (-1 =? 0).
    rewrite Z.eqb_refl. simpl. split; [done|]. unfold signed. destruct (Z.ltb_spec 0 (2 ^ (w - 1))); lia.
Qed.

(** Div and rem meet the M-extension contract: truncating division with remainder of the dividend's
    sign, all ones and the dividend on division by zero, the dividend and zero on signed overflow.
    *)
Theorem div_rem_contract a b :
  rng 64 a -> rng 64 b ->
  exists q r, op_alu 4 1 a b = Some q /\ op_alu 6 1 a b = Some r /\
  (b = 0 -> s64 q = -1 /\ r = a) /\
  (b <> 0 -> ~ (s64 a = - 2 ^ 63 /\ s64 b = -1) ->
     s64 a = s64 q * s64 b + s64 r /\ Z.abs (s64 r) < Z.abs (s64 b) /\ (s64 r = 0 \/ (0 < s64 r <-> 0 < s64 a))) /\
  (s64 a = - 2 ^ 63 /\ s64 b = -1 -> q = a /\ r = 0).
Proof.
  intros Ha Hb. do 2 eexists. split; [reflexivity|]. split; [reflexivity|].
  destruct (div_rem_spec 64 a b ltac:(lia) Ha Hb) as (H1 & H2 & H3). change (64 - 1) with 63 in *.
  split_and!; [|done|].
  - intros Hz. split; [by apply H1|]. unfold rem_s. rewrite Hz. done.
  - intros [E1 E2]. unfold div_s, rem_s. rewrite E1, E2. done.
Qed.

Lemma div_rem_contract_witness :
  exists q r, op_alu 4 1 (2 ^ 64 - 7) 2 = Some q /\ op_alu 6 1 (2 ^ 64 - 7) 2 = Some r /\
    s64 q = -3 /\ s64 r = -1 /\ s64 (2 ^ 64 - 7) = s64 q * s64 2 + s64 r.
Proof.
  destruct (div_rem_contract (2 ^ 64 - 7) 2) as (q & r & Hq & Hr & _ & H2 & _); [unfold rng; lia..|].
  exists q, r. destruct H2 as (E & _ & _); [lia|vm_compute; intros [? ?]; discriminate|].
  vm_compute in Hq, Hr. injection Hq as <-. injection Hr as <-.
  split; [reflexivity|]. split; [reflexivity|]. split; [reflexivity|]. split; [reflexivity|exact E].
Defined.

Lemma mulh_product_witness :
  exists lo h, op_alu 0 1 (2 ^ 64 - 1) (2 ^ 64 - 1) = Some lo /\ op_alu 1 1 (2 ^ 64 - 1) (2 ^ 64 - 1) = Some h /\
    s64 (2 ^ 64 - 1) * s64 (2 ^ 64 - 1) = s64 h * 2 ^ 64 + lo.
Proof.
  destruct (mulh_product (2 ^ 64 - 1) (2 ^ 64 - 1)) as (lo & h & hsu & hu & H1 & H2 & _ & _ & E & _);
    [unfold rng; lia..|]. exists lo, h. split; [exact H1|]. split; [exact H2|exact E].
Defined.

(** ** Immediates *)

Lemma fld_testbit i from len to n :
  0 <= from -> 0 <= len -> 0 <= to -> 0 <= n ->
  Z.testbit (fld i from len to) n = (to <=? n) && (n <? to + len) && Z.testbit i (n - to + from).
Proof.
  intros. unfold fld. rewrite Z.shiftl_spec by done.
  destruct (Z.leb_spec to n); [|rewrite Z.testbit_neg_r by lia; done].
  rewrite land_ones_wrap, wrap_testbit by lia. rewrite Z.shiftr_spec by lia. f_equal.
  destruct (Z.ltb_spec (n - to) len), (Z.ltb_spec n (to + len)); (done || lia).
Qed.

(** The immediate fields of the five formats, as the manual lays them out. *)
Definition enc_i (imm : Z) : Z := fld imm 0 12 20.
Definition enc_s (imm : Z) : Z := fld imm 5 7 25 .| fld imm 0 5 7.
Definition enc_b (imm : Z) : Z := fld imm 12 1 31 .| fld imm 5 6 25 .| fld imm 1 4 8 .| fld imm 11 1 7.
Definition enc_u (imm : Z) : Z := fld imm 12 20 12.
Definition enc_j (imm : Z) : Z := fld imm 20 1 31 .| fld imm 1 10 21 .| fld imm 11 1 20 .| fld imm 12 8 12.

Lemma range_forall (P : Z -> Prop) (k : nat) :
  (forall j, In j (Z.of_nat <$> seq 0 k) -> P j) -> forall n, 0 <= n < Z.of_nat k -> P n.
Proof.
  intros H n Hn. apply H. apply list_elem_of_In, list_elem_of_fmap. exists (Z.to_nat n).
  split; [lia|]. apply elem_of_seq. lia.
Qed.

(** Two words agree below bit [w] when they agree bit by bit. *)
Lemma wrap_ext w x y : 0 <= w -> (forall n, 0 <= n < w -> Z.testbit x n = Z.testbit y n) -> wrap w x = wrap w y.
Proof.
  intros Hw Hb. apply Z.bits_inj'; intros n Hn. rewrite !wrap_testbit by done.
  destruct (Z.ltb_spec n w); simpl; [|done]. apply Hb; lia.
Qed.

Lemma sext_ext w x imm : 0 < w < 64 -> - 2 ^ (w - 1) <= imm < 2 ^ (w - 1) ->
  (forall n, 0 <= n < w -> Z.testbit x n = Z.testbit imm n) -> sext x w = u64 imm.
Proof.
  intros Hw Hi Hb. rewrite sext_spec by done. f_equal. rewrite (wrap_ext w x imm) by (lia || done).
  by apply signed_wrap; [lia|].
Qed.

(** Bits of a word outside a mask it avoids. *)
Lemma masked_bit rest m n : rest .& m = 0 -> Z.testbit m n = true -> Z.testbit rest n = false.
Proof.
  intros H Hm. apply (f_equal (fun z => Z.testbit z n)) in H. rewrite Z.land_spec, Hm, Z.bits_0 in H.
  by destruct (Z.testbit rest n).
Qed.

(** Check one concrete bit of a decoded immediate. *)
Ltac zlits :=
  repeat match goal with
  | |- context [?a <=? ?b] => let v := eval vm_compute in (a <=? b) in change (a <=? b) with v
  | |- context [?a <? ?b] => let v := eval vm_compute in (a <? b) in change (a <? b) with v
  | |- context [Z.testbit _ ?e] => let v := eval vm_compute in e in progress change e with v
  end.
Ltac imm_bit H :=
  repeat (autorewrite with zbits; rewrite ?fld_testbit, ?Z.shiftl_spec, ?Z.shiftr_spec by lia; zlits; autorewrite with zbool);
  rewrite ?(masked_bit _ _ _ H) by reflexivity; autorewrite with zbool;
  first [ reflexivity | tb; reflexivity
        | match goal with E : Z.testbit _ _ = false |- _ => rewrite E; reflexivity end
        | match goal with E : Z.land _ _ = 0 |- _ => tb; rewrite (masked_bit _ _ _ E) by reflexivity; reflexivity end ].

(** All bits of a decoded immediate of [k] bits. *)
Ltac imm_bits k H :=
  apply sext_ext; [lia|lia|]; change k with (Z.of_nat (Z.to_nat k)); apply range_forall;
  let n := fresh "n" in let Hn := fresh "Hn" in
  intros n Hn; vm_compute in Hn;
  repeat (destruct Hn as [<-|Hn]; [imm_bit H|]); destruct Hn.

Lemma imm_i_enc imm rest :
  - 2 ^ 11 <= imm < 2 ^ 11 -> rest .& 0xfff00000 = 0 -> imm_i (enc_i imm .| rest) = u64 imm.
Proof. intros Hi Hr. unfold imm_i, enc_i. imm_bits 12 Hr. Qed.

Lemma imm_s_enc imm rest :
  - 2 ^ 11 <= imm < 2 ^ 11 -> rest .& 0xfe000f80 = 0 -> imm_s (enc_s imm .| rest) = u64 imm.
Proof. intros Hi Hr. unfold imm_s, enc_s. imm_bits 12 Hr. Qed.

Lemma imm_b_enc imm rest :
  - 2 ^ 12 <= imm < 2 ^ 12 -> Z.testbit imm 0 = false -> rest .& 0xfe000f80 = 0 ->
  imm_b (enc_b imm .| rest) = u64 imm.
Proof. intros Hi He Hr. unfold imm_b, enc_b. imm_bits 13 Hr. Qed.

Lemma imm_j_enc imm rest :
  - 2 ^ 20 <= imm < 2 ^ 20 -> Z.testbit imm 0 = false -> rest .& 0xfffff000 = 0 ->
  imm_j (enc_j imm .| rest) = u64 imm.
Proof. intros Hi He Hr. unfold imm_j, enc_j. imm_bits 21 Hr. Qed.

Lemma imm_u_enc imm rest :
  - 2 ^ 31 <= imm < 2 ^ 31 -> imm .& 0xfff = 0 -> rest .& 0xfffff000 = 0 ->
  imm_u (enc_u imm .| rest) = u64 imm.
Proof.
  intros Hi He Hr. unfold imm_u, enc_u. imm_bits 32 Hr.
Qed.

(** The I, S, B, J and U immediate decoders recover every encodable immediate from its encoding,
    sign-extended to 64 bits, whatever the other instruction bits hold. *)
Theorem imm_decode imm rest :
  (- 2 ^ 11 <= imm < 2 ^ 11 -> rest .& 0xfff00000 = 0 -> imm_i (enc_i imm .| rest) = u64 imm) /\
  (- 2 ^ 11 <= imm < 2 ^ 11 -> rest .& 0xfe000f80 = 0 -> imm_s (enc_s imm .| rest) = u64 imm) /\
  (- 2 ^ 12 <= imm < 2 ^ 12 -> Z.testbit imm 0 = false -> rest .& 0xfe000f80 = 0 ->
     imm_b (enc_b imm .| rest) = u64 imm) /\
  (- 2 ^ 20 <= imm < 2 ^ 20 -> Z.testbit imm 0 = false -> rest .& 0xfffff000 = 0 ->
     imm_j (enc_j imm .| rest) = u64 imm) /\
  (- 2 ^ 31 <= imm < 2 ^ 31 -> imm .& 0xfff = 0 -> rest .& 0xfffff000 = 0 ->
     imm_u (enc_u imm .| rest) = u64 imm).
Proof.
  split_and!; auto using imm_i_enc, imm_s_enc, imm_b_enc, imm_j_enc, imm_u_enc.
Qed.

Lemma imm_decode_witness :
  imm_b (enc_b (-2048) .| 0x63) = u64 (-2048) /\ imm_i (enc_i (-1) .| 0x13) = u64 (-1).
Proof.
  destruct (imm_decode (-2048) 0x63) as (_ & _ & Hb & _).
  destruct (imm_decode (-1) 0x13) as (Hi & _).
  split; [apply Hb|apply Hi]; (lia || reflexivity).
Defined.
