(* ===== verification/RvExecC.v ===== *)
(** * Compressed instructions (cpu/isa/riscv64/exec.c, [riscv_exec_c])

    One definition per quadrant of the C extension. *)

From S2P Require Import Prelude Bus Ram RvState RvCsr RvMmu RvFp RvExec.

(** ** Immediates *)

Definition c_imm4spn (i : Z) : Z := fld i 11 2 4 .| fld i 7 4 6 .| fld i 6 1 2 .| fld i 5 1 3.
Definition c_imm_w (i : Z) : Z := fld i 10 3 3 .| fld i 6 1 2 .| fld i 5 1 6.
Definition c_imm_d (i : Z) : Z := fld i 10 3 3 .| fld i 5 2 6.
Definition c_imm6 (i : Z) : Z := fld i 12 1 5 .| fld i 2 5 0.
Definition c_imm16sp (i : Z) : Z :=
  sext (fld i 12 1 9 .| fld i 6 1 4 .| fld i 5 1 6 .| fld i 3 2 7 .| fld i 2 1 5) 10.
Definition c_imm_lui (i : Z) : Z := sext (fld i 12 1 17 .| fld i 2 5 12) 18.
Definition c_imm_j (i : Z) : Z :=
  sext (fld i 12 1 11 .| fld i 11 1 4 .| fld i 9 2 8 .| fld i 8 1 10 .| fld i 7 1 6 .| fld i 6 1 7 .|
        fld i 3 3 1 .| fld i 2 1 5) 12.
Definition c_imm_b (i : Z) : Z :=
  sext (fld i 12 1 8 .| fld i 10 2 3 .| fld i 5 2 6 .| fld i 3 2 1 .| fld i 2 1 5) 9.
Definition c_imm_ldsp (i : Z) : Z := fld i 12 1 5 .| fld i 5 2 3 .| fld i 2 3 6.
Definition c_imm_lwsp (i : Z) : Z := fld i 12 1 5 .| fld i 4 3 2 .| fld i 2 2 6.
Definition c_imm_sdsp (i : Z) : Z := fld i 10 3 3 .| fld i 7 3 6.
Definition c_imm_swsp (i : Z) : Z := fld i 9 4 2 .| fld i 7 2 6.

(** Register fields. *)
Definition c_f3 (i : Z) : Z := (i .>> 13) .& 7.
Definition c_rd (i : Z) : Z := (i .>> 7) .& 31.
Definition c_rs2 (i : Z) : Z := (i .>> 2) .& 31.
Definition c_lo (i : Z) : Z := 8 + ((i .>> 2) .& 7).
Definition c_hi (i : Z) : Z := 8 + ((i .>> 7) .& 7).

Section exec_c.
Context {Ops Dev W : Type} `{BusDevices Ops Dev W}.
Variable dbg_mem : bool.
#[local] Abbreviation MM := (M (Mach Ops Dev W)).
#[local] Abbreviation mload := (riscv_mem_load dbg_mem).
#[local] Abbreviation mstore := (riscv_mem_store dbg_mem).

(** Quadrant 0: register-relative loads and stores. *)
Definition c_quad0 (i : Z) : MM unit :=
  let rdq := c_lo i in
  let rs1q := c_hi i in
  switch (c_f3 i)
  [ (0, if c_imm4spn i =? 0 then illegal i
        else (sp <- getx 2 ;; setx rdq (u64 (sp + c_imm4spn i))));
    (1, fp_enter i ;;; b <- getx rs1q ;; v <- mload (u64 (b + c_imm_d i)) 8 acc_read ;; setf rdq v);
    (2, b <- getx rs1q ;; v <- load dbg_mem (u64 (b + c_imm_w i)) 4 true ;; setx rdq v);
    (3, b <- getx rs1q ;; v <- load dbg_mem (u64 (b + c_imm_d i)) 8 false ;; setx rdq v);
    (5, fp_enter i ;;; b <- getx rs1q ;; v <- getf rdq ;; mstore (u64 (b + c_imm_d i)) 8 v);
    (6, b <- getx rs1q ;; v <- getx rdq ;; mstore (u64 (b + c_imm_w i)) 4 v);
    (7, b <- getx rs1q ;; v <- getx rdq ;; mstore (u64 (b + c_imm_d i)) 8 v) ]
  (illegal i).

(** The arithmetic group of quadrant 1. *)
Definition c_arith (i : Z) : MM unit :=
  let sub := (i .>> 10) .& 3 in
  let rdq := c_hi i in
  let rs2q := c_lo i in
  a <- getx rdq ;;
  b <- getx rs2q ;;
  if (sub =? 0) || (sub =? 1) then
    let shamt := c_imm6 i in
    if (rdq =? 0) || (shamt =? 0) then mret' tt
    else setx rdq (if sub =? 0 then a .>> shamt else u64 (s64 a .>> shamt))
  else if sub =? 2 then
    if rdq =? 0 then mret' tt else setx rdq (a .& sext (c_imm6 i) 6)
  else if Z.testbit i 12 then
    let kind := (i .>> 5) .& 3 in
    if (rdq =? 0) || (rs2q =? 0) then mret' tt
    else if 1 <? kind then illegal i
    else setx rdq (if kind =? 0 then sext (u32 (a - b)) 32 else sext (u32 (a + b)) 32)
  else
    if (rdq =? 0) || (rs2q =? 0) then mret' tt
    else setx rdq (switch ((i .>> 5) .& 3) [ (0, u64 (a - b)); (1, a .^ b); (2, a .| b) ] (a .& b)).

Definition c_quad1 (p i : Z) : MM Z :=
  let rdd := c_rd i in
  let next (m : MM unit) : MM Z := m ;;; mret' (u64 (p + 2)) in
  let br (test : Z -> bool) : MM Z :=
    v <- getx (c_hi i) ;; mret' (if test v then u64 (p + c_imm_b i) else u64 (p + 2)) in
  switch (c_f3 i)
  [ (0, next (when negb (rdd =? 0) do (a <- getx rdd ;; setx rdd (u64 (a + sext (c_imm6 i) 6)))));
    (1, next (if rdd =? 0 then illegal i
              else (a <- getx rdd ;; setx rdd (sext (u32 (u32 a + u32 (sext (c_imm6 i) 6))) 32))));
    (2, next (setx rdd (sext (c_imm6 i) 6)));
    (3, next (if rdd =? 2 then (a <- getx 2 ;; setx 2 (u64 (a + c_imm16sp i)))
              else when negb (rdd =? 0) && negb (c_imm_lui i =? 0) do setx rdd (c_imm_lui i)));
    (4, next (c_arith i));
    (5, mret' (u64 (p + c_imm_j i)));
    (6, br (fun v => v =? 0));
    (7, br (fun v => negb (v =? 0))) ]
  (illegal i).

Definition c_quad2 (p i : Z) : MM Z :=
  let rdd := c_rd i in
  let rs2v := c_rs2 i in
  let next (m : MM unit) : MM Z := m ;;; mret' (u64 (p + 2)) in
  switch (c_f3 i)
  [ (0, next (let shamt := c_imm6 i in
              if (rdd =? 0) || (shamt =? 0) then mret' tt
              else (a <- getx rdd ;; setx rdd (u64 (a .<< shamt)))));
    (1, next (when negb (rdd =? 0) do
                (sp <- getx 2 ;; v <- mload (u64 (sp + c_imm_ldsp i)) 8 acc_read ;; setf rdd v)));
    (2, next (if rdd =? 0 then illegal i
              else (sp <- getx 2 ;; v <- load dbg_mem (u64 (sp + c_imm_lwsp i)) 4 true ;; setx rdd v)));
    (3, next (if rdd =? 0 then illegal i
              else (sp <- getx 2 ;; v <- load dbg_mem (u64 (sp + c_imm_ldsp i)) 8 false ;; setx rdd v)));
    (4, if negb (Z.testbit i 12) then
          if rs2v =? 0 then
            (if rdd =? 0 then illegal i else (a <- getx rdd ;; mret' (a &~ 1)))
          else next (when negb (rdd =? 0) do (b <- getx rs2v ;; setx rdd b))
        else if rs2v =? 0 then
          (if rdd =? 0 then raise_ kExBreakpoint p
           else (a <- getx rdd ;; setx 1 (u64 (p + 2)) ;;; mret' (a &~ 1)))
        else next (when negb (rdd =? 0) do (a <- getx rdd ;; b <- getx rs2v ;; setx rdd (u64 (a + b)))));
    (5, next (when negb (rs2v =? 0) do
                (sp <- getx 2 ;; v <- getf rs2v ;; mstore (u64 (sp + c_imm_sdsp i)) 8 v)));
    (6, next (sp <- getx 2 ;; v <- getx rs2v ;; mstore (u64 (sp + c_imm_swsp i)) 4 v));
    (7, next (sp <- getx 2 ;; v <- getx rs2v ;; mstore (u64 (sp + c_imm_sdsp i)) 8 v)) ]
  (illegal i).

Definition riscv_exec_c (i : Z) : MM Z :=
  p <- getpc ;;
  let quad := i .& 3 in
  if quad =? 0 then c_quad0 i ;;; mret' (u64 (p + 2))
  else if quad =? 1 then c_quad1 p i
  else c_quad2 p i.
End exec_c.
