(* ===== verification/RvExpand.v ===== *)
(** * The expansion table of the C extension

    The manual defines every instruction of the C extension as one 32-bit
    instruction.  [expand] writes that table down, with the 32-bit formats
    and with the scattered immediates as the manual pictures them; the
    lemmas read the fields of a format word back with the decoders of exec.c
    and identify exec.c's immediates with the pictures. *)

From S2P Require Import Prelude Bus Ram RvState RvCsr RvMmu RvFp RvExec RvExecC RvAluProps RvMmuProps.

(** ** Instruction words *)

Definition word (op rd f3 rs1 rs2 f7 : Z) : Z :=
  op + 2 ^ 7 * rd + 2 ^ 12 * f3 + 2 ^ 15 * rs1 + 2 ^ 20 * rs2 + 2 ^ 25 * f7.

Definition word_ok (op rd f3 rs1 rs2 f7 : Z) : Prop :=
  rng 7 op /\ rng 5 rd /\ rng 3 f3 /\ rng 5 rs1 /\ rng 5 rs2 /\ rng 7 f7.

Ltac arith_fields :=
  unfold word_ok, rng in *; cbv beta delta [word];
  rewrite ?Z.shiftr_div_pow2 by lia; simpl Z.pow in *; Z.div_mod_to_equations; lia.

Section fields.
Variables op d f s1 s2 f7v : Z.
Hypothesis Hw : word_ok op d f s1 s2 f7v.
#[local] Abbreviation w := (word op d f s1 s2 f7v).

Lemma word_op : w .& 0x7f = op.
Proof. change 0x7f with (2 ^ 7 - 1). rewrite land_ones_wrap by lia. unfold wrap. arith_fields. Qed.
Lemma word_rd : rd w = d.
Proof. unfold rd. change 31 with (2 ^ 5 - 1). rewrite land_ones_wrap by lia. unfold wrap. arith_fields. Qed.
Lemma word_f3 : f3 w = f.
Proof. unfold f3. change 7 with (2 ^ 3 - 1). rewrite land_ones_wrap by lia. unfold wrap. arith_fields. Qed.
Lemma word_rs1 : rs1 w = s1.
Proof. unfold rs1. change 31 with (2 ^ 5 - 1). rewrite land_ones_wrap by lia. unfold wrap. arith_fields. Qed.
Lemma word_rs2 : rs2 w = s2.
Proof. unfold rs2. change 31 with (2 ^ 5 - 1). rewrite land_ones_wrap by lia. unfold wrap. arith_fields. Qed.
Lemma word_f7 : f7 w = f7v.
Proof. unfold f7. arith_fields. Qed.
End fields.

(** An immediate laid over a word that leaves its bits free. *)
Lemma lor_field x r k m : 0 <= k -> x .& (m .<< k) = 0 -> ((x .| r) .>> k) .& m = (r .>> k) .& m.
Proof.
  intros Hk Hx. apply Z.bits_inj'; intros n Hn. autorewrite with zbits. rewrite !Z.shiftr_spec by done.
  autorewrite with zbits. destruct (Z.testbit m n) eqn:E; [|by rewrite !andb_false_r].
  rewrite (masked_bit x _ (n + k) Hx); [done|]. rewrite Z.shiftl_spec by lia.
  by replace (n + k - k) with n by lia.
Qed.

Lemma land_sub x a b : x .& a = 0 -> b .& a = b -> x .& b = 0.
Proof. intros H <-. rewrite (Z.land_comm b), Z.land_assoc, H. apply Z.land_0_l. Qed.

Lemma land_zero_bits x m k :
  rng (Z.of_nat k) m -> (forall n, In n (Z.of_nat <$> seq 0 k) -> Z.testbit m n = true -> Z.testbit x n = false) ->
  x .& m = 0.
Proof.
  intros Hm Hb. apply Z.bits_inj'; intros n Hn. autorewrite with zbits.
  destruct (Z.testbit m n) eqn:E; [|by rewrite andb_false_r]. rewrite andb_true_r.
  destruct (Z.lt_ge_cases n (Z.of_nat k)).
  - revert n Hn E H. intros n Hn E H. revert E. apply (range_forall (fun n => Z.testbit m n = true -> Z.testbit x n = false) k Hb).
    lia.
  - apply rng_testbit in Hm as [_ Hm]; [|lia]. rewrite Hm in E by done. discriminate.
Qed.

Ltac mask_free :=
  apply (land_zero_bits _ _ 32); [unfold rng; lia|]; let n := fresh "n" in let Hn := fresh "Hn" in
  intros n Hn; vm_compute in Hn;
  repeat (destruct Hn as [<-|Hn]; [intros E; first [discriminate E | clear E];
    autorewrite with zbits; rewrite ?fld_testbit by lia; zlits; autorewrite with zbool; reflexivity|]); destruct Hn.

Lemma enc_i_free imm : enc_i imm .& 0x000fffff = 0.
Proof. unfold enc_i. mask_free. Qed.
Lemma enc_s_free imm : enc_s imm .& 0x01fff07f = 0.
Proof. unfold enc_s. mask_free. Qed.
Lemma enc_b_free imm : enc_b imm .& 0x01fff07f = 0.
Proof. unfold enc_b. mask_free. Qed.
Lemma enc_u_free imm : enc_u imm .& 0x00000fff = 0.
Proof. unfold enc_u. mask_free. Qed.
Lemma enc_j_free imm : enc_j imm .& 0x00000fff = 0.
Proof. unfold enc_j. mask_free. Qed.

(** ** The five formats *)

Definition i_type (op d f s1 imm : Z) : Z := enc_i imm .| word op d f s1 0 0.
Definition s_type (op f s1 s2 imm : Z) : Z := enc_s imm .| word op 0 f s1 s2 0.
Definition b_type (f s1 imm : Z) : Z := enc_b imm .| word 0x63 0 f s1 0 0.
Definition u_type (d imm : Z) : Z := enc_u imm .| word 0x37 d 0 0 0 0.
Definition j_type (d imm : Z) : Z := enc_j imm .| word 0x6f d 0 0 0 0.

Lemma op_field w : w .& 0x7f = (w .>> 0) .& 0x7f.
Proof. by rewrite Z.shiftr_0_r. Qed.

(** Read a field of a format word off the word below the immediate. *)
Ltac over_imm free :=
  rewrite lor_field by (first [lia | eapply land_sub; [apply free | reflexivity]]).

Lemma small_free x k m : 0 <= k -> rng k x -> m .& (2 ^ k - 1) = 0 -> x .& m = 0.
Proof.
  intros Hk Hx Hm. rewrite <- (wrap_small k x Hx), <- land_ones_wrap by done.
  rewrite <- Z.land_assoc, (Z.land_comm _ m), Hm. apply Z.land_0_r.
Qed.

Lemma i_type_dec op d f s1 imm : word_ok op d f s1 0 0 -> - 2 ^ 11 <= imm < 2 ^ 11 ->
  let w := i_type op d f s1 imm in
  w .& 0x7f = op /\ rd w = d /\ f3 w = f /\ rs1 w = s1 /\ imm_i w = u64 imm.
Proof.
  intros Hw Hi. cbv zeta. split_and!.
  - rewrite op_field. unfold i_type. over_imm enc_i_free. rewrite <- op_field. by apply word_op.
  - unfold rd, i_type. over_imm enc_i_free. by apply word_rd.
  - unfold f3, i_type. over_imm enc_i_free. by apply word_f3.
  - unfold rs1, i_type. over_imm enc_i_free. by apply word_rs1.
  - apply imm_i_enc; [done|]. apply (small_free _ 20); [lia| |reflexivity]. arith_fields.
Qed.

Lemma word_mid_free op f s1 s2 : word_ok op 0 f s1 s2 0 -> word op 0 f s1 s2 0 .& 0xfe000f80 = 0.
Proof.
  intros Hw. apply (land_zero_bits _ _ 32); [unfold rng; lia|]. intros n Hn E.
  pose proof (word_rd _ _ _ _ _ _ Hw) as Hr. pose proof (word_f7 _ _ _ _ _ _ Hw) as H7.
  unfold rd, f7 in Hr, H7. apply (f_equal (fun z => Z.testbit z (n - 7))) in Hr.
  apply (f_equal (fun z => Z.testbit z (n - 25))) in H7. rewrite Z.bits_0 in Hr, H7.
  vm_compute in Hn. revert Hr H7 E.
  repeat (destruct Hn as [<-|Hn]; [intros Hr H7 E; try discriminate E;
    rewrite ?Z.land_spec, !Z.shiftr_spec in * by lia;
    first [rewrite andb_true_r in Hr; exact Hr | exact H7]|]). destruct Hn.
Qed.

Lemma s_type_dec op f s1 s2 imm : word_ok op 0 f s1 s2 0 -> - 2 ^ 11 <= imm < 2 ^ 11 ->
  let w := s_type op f s1 s2 imm in
  w .& 0x7f = op /\ f3 w = f /\ rs1 w = s1 /\ rs2 w = s2 /\ imm_s w = u64 imm.
Proof.
  intros Hw Hi. cbv zeta. split_and!.
  - rewrite op_field. unfold s_type. over_imm enc_s_free. rewrite <- op_field. by apply word_op.
  - unfold f3, s_type. over_imm enc_s_free. by apply word_f3.
  - unfold rs1, s_type. over_imm enc_s_free. by apply word_rs1.
  - unfold rs2, s_type. over_imm enc_s_free. by apply word_rs2.
  - apply imm_s_enc; [done|]. by apply word_mid_free.
Qed.

Lemma b_type_dec f s1 imm : word_ok 0x63 0 f s1 0 0 -> - 2 ^ 12 <= imm < 2 ^ 12 -> Z.testbit imm 0 = false ->
  let w := b_type f s1 imm in
  w .& 0x7f = 0x63 /\ f3 w = f /\ rs1 w = s1 /\ rs2 w = 0 /\ imm_b w = u64 imm.
Proof.
  intros Hw Hi He. cbv zeta. split_and!.
  - rewrite op_field. unfold b_type. over_imm enc_b_free. rewrite <- op_field. by apply word_op.
  - unfold f3, b_type. over_imm enc_b_free. by apply word_f3.
  - unfold rs1, b_type. over_imm enc_b_free. by apply word_rs1.
  - unfold rs2, b_type. over_imm enc_b_free. by apply word_rs2.
  - apply imm_b_enc; [done..|]. by apply word_mid_free.
Qed.

Lemma u_type_dec d imm : rng 5 d -> - 2 ^ 31 <= imm < 2 ^ 31 -> imm .& 0xfff = 0 ->
  let w := u_type d imm in w .& 0x7f = 0x37 /\ rd w = d /\ imm_u w = u64 imm.
Proof.
  intros Hd Hi He. assert (Hw : word_ok 0x37 d 0 0 0 0) by (unfold word_ok, rng in *; lia).
  cbv zeta. split_and!.
  - rewrite op_field. unfold u_type. over_imm enc_u_free. rewrite <- op_field. by apply word_op.
  - unfold rd, u_type. over_imm enc_u_free. by apply word_rd.
  - apply imm_u_enc; [done..|]. apply (small_free _ 12); [lia| |reflexivity]. arith_fields.
Qed.

Lemma j_type_dec d imm : rng 5 d -> - 2 ^ 20 <= imm < 2 ^ 20 -> Z.testbit imm 0 = false ->
  let w := j_type d imm in w .& 0x7f = 0x6f /\ rd w = d /\ imm_j w = u64 imm.
Proof.
  intros Hd Hi He. assert (Hw : word_ok 0x6f d 0 0 0 0) by (unfold word_ok, rng in *; lia).
  cbv zeta. split_and!.
  - rewrite op_field. unfold j_type. over_imm enc_j_free. rewrite <- op_field. by apply word_op.
  - unfold rd, j_type. over_imm enc_j_free. by apply word_rd.
  - apply imm_j_enc; [done..|]. apply (small_free _ 12); [lia| |reflexivity]. arith_fields.
Qed.

(** ** The expansion table *)

(** An immediate by the manual's picture: the pairs (instruction bit,
    immediate bit). *)
Definition gather (i : Z) (l : list (Z * Z)) : Z :=
  foldr (fun ab acc => (b2z (Z.testbit i ab.1) .<< ab.2) .| acc) 0 l.

Definition uimm_addi4spn i := gather i [(12, 5); (11, 4); (10, 9); (9, 8); (8, 7); (7, 6); (6, 2); (5, 3)].
Definition uimm_w i := gather i [(12, 5); (11, 4); (10, 3); (6, 2); (5, 6)].
Definition uimm_d i := gather i [(12, 5); (11, 4); (10, 3); (6, 7); (5, 6)].
Definition uimm_6 i := gather i [(12, 5); (6, 4); (5, 3); (4, 2); (3, 1); (2, 0)].
Definition uimm_16sp i := gather i [(12, 9); (6, 4); (5, 6); (4, 8); (3, 7); (2, 5)].
Definition uimm_lui i := gather i [(12, 17); (6, 16); (5, 15); (4, 14); (3, 13); (2, 12)].
Definition uimm_j i :=
  gather i [(12, 11); (11, 4); (10, 9); (9, 8); (8, 10); (7, 6); (6, 7); (5, 3); (4, 2); (3, 1); (2, 5)].
Definition uimm_b i := gather i [(12, 8); (11, 4); (10, 3); (6, 7); (5, 6); (4, 2); (3, 1); (2, 5)].
Definition uimm_lwsp i := gather i [(12, 5); (6, 4); (5, 3); (4, 2); (3, 7); (2, 6)].
Definition uimm_ldsp i := gather i [(12, 5); (6, 4); (5, 3); (4, 8); (3, 7); (2, 6)].
Definition uimm_swsp i := gather i [(12, 5); (11, 4); (10, 3); (9, 2); (8, 7); (7, 6)].
Definition uimm_sdsp i := gather i [(12, 5); (11, 4); (10, 3); (9, 8); (8, 7); (7, 6)].

(** The shift amount split over rs2 and the low bit of funct7. *)
Definition shift_word (op d f amount hi : Z) : Z := word op d f d (amount mod 32) (hi + amount / 32).

Definition expand0 (i : Z) : option Z :=
  switch (c_f3 i)
  [ (0, if uimm_addi4spn i =? 0 then None else Some (i_type 0x13 (c_lo i) 0 2 (uimm_addi4spn i)));
    (1, Some (i_type 0x07 (c_lo i) 3 (c_hi i) (uimm_d i)));
    (2, Some (i_type 0x03 (c_lo i) 2 (c_hi i) (uimm_w i)));
    (3, Some (i_type 0x03 (c_lo i) 3 (c_hi i) (uimm_d i)));
    (5, Some (s_type 0x27 3 (c_hi i) (c_lo i) (uimm_d i)));
    (6, Some (s_type 0x23 2 (c_hi i) (c_lo i) (uimm_w i)));
    (7, Some (s_type 0x23 3 (c_hi i) (c_lo i) (uimm_d i))) ] None.

Definition expand_arith (i : Z) : option Z :=
  let d := c_hi i in
  let s := c_lo i in
  switch ((i .>> 10) .& 3)
  [ (0, Some (shift_word 0x13 d 5 (uimm_6 i) 0));
    (1, Some (shift_word 0x13 d 5 (uimm_6 i) 0x20));
    (2, Some (i_type 0x13 d 7 d (signed 6 (uimm_6 i)))) ]
  (if Z.testbit i 12
   then switch ((i .>> 5) .& 3) [ (0, Some (word 0x3b d 0 d s 0x20)); (1, Some (word 0x3b d 0 d s 0)) ] None
   else switch ((i .>> 5) .& 3)
        [ (0, Some (word 0x33 d 0 d s 0x20)); (1, Some (word 0x33 d 4 d s 0)); (2, Some (word 0x33 d 6 d s 0));
          (3, Some (word 0x33 d 7 d s 0)) ] None).

Definition expand1 (i : Z) : option Z :=
  let d := c_rd i in
  switch (c_f3 i)
  [ (0, Some (i_type 0x13 d 0 d (signed 6 (uimm_6 i))));
    (1, if d =? 0 then None else Some (i_type 0x1b d 0 d (signed 6 (uimm_6 i))));
    (2, Some (i_type 0x13 d 0 0 (signed 6 (uimm_6 i))));
    (3, if d =? 2 then (if uimm_16sp i =? 0 then None else Some (i_type 0x13 2 0 2 (signed 10 (uimm_16sp i))))
        else if uimm_lui i =? 0 then None else Some (u_type d (signed 18 (uimm_lui i))));
    (4, expand_arith i);
    (5, Some (j_type 0 (signed 12 (uimm_j i))));
    (6, Some (b_type 0 (c_hi i) (signed 9 (uimm_b i))));
    (7, Some (b_type 1 (c_hi i) (signed 9 (uimm_b i)))) ] None.

Definition expand2 (i : Z) : option Z :=
  let d := c_rd i in
  let s := c_rs2 i in
  switch (c_f3 i)
  [ (0, Some (shift_word 0x13 d 1 (uimm_6 i) 0));
    (2, if d =? 0 then None else Some (i_type 0x03 d 2 2 (uimm_lwsp i)));
    (3, if d =? 0 then None else Some (i_type 0x03 d 3 2 (uimm_ldsp i)));
    (4, if negb (Z.testbit i 12)
        then if s =? 0 then (if d =? 0 then None else Some (i_type 0x67 0 0 d 0)) else Some (word 0x33 d 0 0 s 0)
        else if s =? 0 then (if d =? 0 then Some 0x00100073 else Some (i_type 0x67 1 0 d 0))
             else Some (word 0x33 d 0 d s 0));
    (6, Some (s_type 0x23 2 2 s (uimm_swsp i)));
    (7, Some (s_type 0x23 3 2 s (uimm_sdsp i))) ] None.

Definition expand (i : Z) : option Z :=
  switch (i .& 3) [ (0, expand0 i); (1, expand1 i); (2, expand2 i) ] None.

(** *** The immediates agree *)

Lemma bit_at b k n : 0 <= k -> 0 <= n -> Z.testbit (b2z b .<< k) n = (n =? k) && b.
Proof.
  intros. rewrite Z.shiftl_spec by done. destruct (Z.eqb_spec n k) as [->|Hne].
  - rewrite Z.sub_diag. by destruct b.
  - destruct (Z.lt_ge_cases n k); [by rewrite Z.testbit_neg_r by lia|].
    destruct b; cbn [b2z]; [|apply Z.bits_0]. change 1 with (2 ^ 0). rewrite Z.pow2_bits_eqb by lia.
    apply Z.eqb_neq. lia.
Qed.

Lemma fld_rng w i from len to : 0 <= len -> 0 <= to -> to + len <= w -> rng w (fld i from len to).
Proof.
  intros. unfold fld. apply (rng_mono (len + to)); [lia|]. apply shiftl_rng; [lia..|].
  apply rng_land_ones. lia.
Qed.

Lemma gather_rng w i l : 0 <= w -> Forall (fun ab => 0 <= ab.2 < w) l -> rng w (gather i l).
Proof.
  intros Hw. induction 1 as [|[a b] l Hb _ IH]; cbn [gather foldr]; [split; lia|].
  apply rng_lor; [done| |exact IH]. cbn [snd fst] in *. apply (rng_mono (1 + b)); [lia|].
  apply shiftl_rng; [lia..|]. apply rng_b2z. lia.
Qed.

Lemma bits_ext w x y : rng (Z.of_nat w) x -> rng (Z.of_nat w) y ->
  (forall n, In n (Z.of_nat <$> seq 0 w) -> Z.testbit x n = Z.testbit y n) -> x = y.
Proof.
  intros Hx Hy Hb. rewrite <- (wrap_small _ _ Hx), <- (wrap_small _ _ Hy). apply wrap_ext; [lia|].
  by apply range_forall.
Qed.

Ltac same_imm k :=
  apply (bits_ext k);
  [ repeat (apply rng_lor; [lia| |]); apply fld_rng; lia
  | apply gather_rng; [lia|]; repeat constructor; cbn; lia
  | unfold gather; cbn [foldr fst snd]; let n := fresh "n" in let Hn := fresh "Hn" in intros n Hn; vm_compute in Hn;
    repeat (destruct Hn as [<-|Hn]; [autorewrite with zbits; rewrite ?fld_testbit, ?bit_at by lia; zlits;
      cbn [Z.eqb Pos.eqb]; autorewrite with zbool; reflexivity|]); destruct Hn ].

Lemma c_imm4spn_ok i : c_imm4spn i = uimm_addi4spn i.
Proof. unfold c_imm4spn, uimm_addi4spn. same_imm 10%nat. Qed.
Lemma c_imm_w_ok i : c_imm_w i = uimm_w i.
Proof. unfold c_imm_w, uimm_w. same_imm 10%nat. Qed.
Lemma c_imm_d_ok i : c_imm_d i = uimm_d i.
Proof. unfold c_imm_d, uimm_d. same_imm 10%nat. Qed.
Lemma c_imm6_ok i : c_imm6 i = uimm_6 i.
Proof. unfold c_imm6, uimm_6. same_imm 6%nat. Qed.
Lemma c_imm_ldsp_ok i : c_imm_ldsp i = uimm_ldsp i.
Proof. unfold c_imm_ldsp, uimm_ldsp. same_imm 10%nat. Qed.
Lemma c_imm_lwsp_ok i : c_imm_lwsp i = uimm_lwsp i.
Proof. unfold c_imm_lwsp, uimm_lwsp. same_imm 10%nat. Qed.
Lemma c_imm_sdsp_ok i : c_imm_sdsp i = uimm_sdsp i.
Proof. unfold c_imm_sdsp, uimm_sdsp. same_imm 10%nat. Qed.
Lemma c_imm_swsp_ok i : c_imm_swsp i = uimm_swsp i.
Proof. unfold c_imm_swsp, uimm_swsp. same_imm 10%nat. Qed.

Lemma sext_signed x w : 0 < w < 64 -> rng w x -> sext x w = u64 (signed w x).
Proof. intros Hw Hx. by rewrite (sext_spec _ _ Hw), (wrap_small w x Hx). Qed.

Lemma c_imm16sp_ok i : c_imm16sp i = u64 (signed 10 (uimm_16sp i)).
Proof.
  unfold c_imm16sp. rewrite <- sext_signed; [|lia|apply gather_rng; [lia|]; repeat constructor; cbn; lia].
  f_equal. unfold uimm_16sp. same_imm 10%nat.
Qed.
Lemma c_imm_lui_ok i : c_imm_lui i = u64 (signed 18 (uimm_lui i)).
Proof.
  unfold c_imm_lui. rewrite <- sext_signed; [|lia|apply gather_rng; [lia|]; repeat constructor; cbn; lia].
  f_equal. unfold uimm_lui. same_imm 18%nat.
Qed.
Lemma c_imm_j_ok i : c_imm_j i = u64 (signed 12 (uimm_j i)).
Proof.
  unfold c_imm_j. rewrite <- sext_signed; [|lia|apply gather_rng; [lia|]; repeat constructor; cbn; lia].
  f_equal. unfold uimm_j. same_imm 12%nat.
Qed.
Lemma c_imm_b_ok i : c_imm_b i = u64 (signed 9 (uimm_b i)).
Proof.
  unfold c_imm_b. rewrite <- sext_signed; [|lia|apply gather_rng; [lia|]; repeat constructor; cbn; lia].
  f_equal. unfold uimm_b. same_imm 9%nat.
Qed.
Lemma c_simm6_ok i : sext (c_imm6 i) 6 = u64 (signed 6 (uimm_6 i)).
Proof. rewrite c_imm6_ok. apply sext_signed; [lia|]. apply gather_rng; [lia|]; repeat constructor; cbn; lia. Qed.
