(* ===== verification/RvCompressed.v ===== *)
(** * Compressed instructions are their expansions

    Executing a halfword ([riscv_exec_c]) is executing its expansion
    ([riscv_exec_inst]) up to the length: the sequential successor and the
    link value are pc + 2 instead of pc + 4, an illegal-instruction trap
    reports the halfword, and the dead x0 slot of the register array is not
    compared.  The two stack-relative floating-point accesses are not in the
    table: the code departs from the manual there, and [c_fldsp_ungated]
    shows how. *)

From S2P Require Import Prelude Bus Ram RvState RvCsr RvMmu RvFp RvExec RvExecC RvAluProps RvMmuProps RvExpand.

Section exec.
Context {Ops Dev W : Type} `{BusDevices Ops Dev W}.
Variable dbg_mem : bool.
Implicit Types m : Mach Ops Dev W.

Definition clear_x0 m : Mach Ops Dev W :=
  m <| cpu := (cpu m) <| gpr := arr_set (gpr (cpu m)) 0 0 |> |>.

(** The successor of a two-byte [j] executed at [m], from that of the
    four-byte one. *)
Definition c_next m (j np : Z) : Z :=
  let seq_pc := u64 (pc (cpu m) + 2) in
  let x r := arr (gpr (cpu m)) r in
  switch (j .& 0x7f)
  [ (0x6f, np); (0x67, np);
    (0x63, if default false (branch_taken (f3 j) (x (rs1 j)) (x (rs2 j))) then np else seq_pc) ] seq_pc.

(** The link register of a jump holds the two-byte successor. *)
Definition c_link m (j : Z) (m' : Mach Ops Dev W) : Mach Ops Dev W :=
  let linked := m' <| cpu := (cpu m') <| gpr := arr_set (gpr (cpu m')) (rd j) (u64 (pc (cpu m) + 2)) |> |> in
  switch (j .& 0x7f) [ (0x6f, linked); (0x67, linked) ] m'.

Definition c_matches (i j : Z) m (x y : outcome (Mach Ops Dev W) Z) : Prop :=
  match y with
  | Done np m' => exists m'', x = Done (c_next m j np) m'' /\ clear_x0 m'' = clear_x0 (c_link m j m')
  | Raised t m' => exists t', x = Raised t' m' /\
      (t' = t \/ t = TrapRec kExIllegal j None /\ t' = TrapRec kExIllegal i None)
  | Aborted r => x = Aborted r
  end.

(** x0 reads as zero, and registers hold 64-bit values. *)
Definition regs_ok m : Prop :=
  length (gpr (cpu m)) = 32%nat /\ Forall (rng 64) (gpr (cpu m)) /\ arr (gpr (cpu m)) 0 = 0.

Lemma c_field_rng x : 0 <= x .& 7 < 8.
Proof. change 7 with (2 ^ 3 - 1). apply (rng_land_ones x 3 3). lia. Qed.
Lemma c_lo_rng i : 8 <= c_lo i < 16.
Proof. unfold c_lo. pose proof (c_field_rng (i .>> 2)). lia. Qed.
Lemma c_hi_rng i : 8 <= c_hi i < 16.
Proof. unfold c_hi. pose proof (c_field_rng (i .>> 7)). lia. Qed.
Lemma c_rd_rng i : 0 <= c_rd i < 32.
Proof. unfold c_rd. change 31 with (2 ^ 5 - 1). apply (rng_land_ones _ 5 5). lia. Qed.
Lemma c_rs2_rng i : 0 <= c_rs2 i < 32.
Proof. unfold c_rs2. change 31 with (2 ^ 5 - 1). apply (rng_land_ones _ 5 5). lia. Qed.

Lemma clear_set m v : clear_x0 (m <| cpu := (cpu m) <| gpr := arr_set (gpr (cpu m)) 0 v |> |>) = clear_x0 m.
Proof. unfold clear_x0. rsimpl. unfold arr_set. by rewrite list_insert_insert_eq. Qed.

(** Sequential instructions: compare the bodies. *)
Definition u_matches (i j : Z) (x y : outcome (Mach Ops Dev W) unit) : Prop :=
  match y with
  | Done _ m' => exists m'', x = Done tt m'' /\ clear_x0 m'' = clear_x0 m'
  | Raised t m' => exists t', x = Raised t' m' /\
      (t' = t \/ t = TrapRec kExIllegal j None /\ t' = TrapRec kExIllegal i None)
  | Aborted r => x = Aborted r
  end.

Lemma u_refl i j x y : x = y -> u_matches i j x y.
Proof. intros ->. destruct y as [[] m'|t m'|r]; cbn; eauto. Qed.

Definition sequential (j : Z) : bool := switch (j .& 0x7f) [ (0x6f, false); (0x67, false); (0x63, false) ] true.

Lemma seq_match i j m (P P' : M (Mach Ops Dev W) unit) :
  sequential j = true -> u_matches i j (P' m) (P m) ->
  c_matches i j m ((P' ;;; mret' (u64 (pc (cpu m) + 2))) m) ((p <- getpc ;; P ;;; mret' (u64 (p + 4))) m).
Proof.
  intros Hs. unfold getpc, gets, mbind' at 2 3. unfold mbind', u_matches, c_matches.
  destruct (P m) as [[] m'|t m'|r].
  - intros (m'' & -> & E). exists m''. unfold mret', c_next, c_link, sequential in *. cbn [switch] in *.
    repeat case_match; try discriminate. done.
  - intros (t' & -> & E). by exists t'.
  - by intros ->.
Qed.

(** Writing a register that is x0 changes nothing that is compared. *)
Lemma u_set_x0 i j m v : u_matches i j (mret' tt m) (setx 0 v m).
Proof. exists m. split; [done|]. symmetry. apply clear_set. Qed.

(** Decode the expansion [w], by [D], and step to the bodies. *)
Ltac expanded D :=
  cbv zeta in D; let Hop := fresh "Hop" in destruct D as (Hop & D);
  unfold riscv_exec_inst; rewrite Hop; cbn [switch Z.eqb Pos.eqb];
  apply seq_match; [unfold sequential; rewrite Hop; reflexivity|].

Lemma octal_cases x : In (x .& 7) [0; 1; 2; 3; 4; 5; 6; 7].
Proof. pose proof (c_field_rng x). cbn [In]. lia. Qed.

Lemma c_f3_cases i : In (c_f3 i) [0; 1; 2; 3; 4; 5; 6; 7].
Proof. apply octal_cases. Qed.

Lemma quad_cases x : In (x .& 3) [0; 1; 2; 3].
Proof.
  assert (0 <= x .& 3 < 4) by (change 3 with (2 ^ 2 - 1); apply (rng_land_ones x 2 2); lia). cbn [In]. lia.
Qed.

(** Split on a field with finitely many values. *)
Ltac by_field H E :=
  let C := fresh in pose proof H as C;
  repeat (destruct C as [E|C]; [symmetry in E; rewrite E; cbn [switch Z.eqb Pos.eqb]|]); [..|destruct C].

Lemma imm_small k x : k <= 11 -> rng k x -> - 2 ^ 11 <= x < 2 ^ 11.
Proof. intros Hk Hx. destruct (Z.lt_ge_cases k 0).
  - destruct Hx. rewrite Z.pow_neg_r in * by done. lia.
  - apply (rng_mono k 11) in Hx; [|lia]. unfold rng in Hx. lia.
Qed.

Lemma u64_small k x : 0 <= k <= 64 -> rng k x -> u64 x = x.
Proof. intros Hk Hx. apply wrap_small. by apply (rng_mono k). Qed.

Ltac imm_rng := apply gather_rng; [lia|]; repeat constructor; cbn; lia.
Ltac small_imm k := first [rewrite (u64_small k) by (first [lia | imm_rng])].

(** The decode facts of an I- and of an S-format expansion, as rewrites. *)
Ltac dec_i k d f s1 imm :=
  let D := fresh "D" in
  pose proof (i_type_dec k d f s1 imm ltac:(unfold word_ok, rng; lia) ltac:(first [by apply (imm_small 10) | lia])) as D;
  expanded D; let Hd := fresh in let Hf := fresh in let Hs := fresh in let Hi := fresh in
  destruct D as (Hd & Hf & Hs & Hi);
  cbv delta [exec_load fp_ldst opimm_alu opimm32_alu] beta zeta; rewrite ?Hd, ?Hf, ?Hs, ?Hi;
  cbn [switch Z.eqb Pos.eqb]; rewrite ?(u64_small 10) by done.
Ltac dec_s k f s1 s2 imm :=
  let D := fresh "D" in
  pose proof (s_type_dec k f s1 s2 imm ltac:(unfold word_ok, rng; lia) ltac:(first [by apply (imm_small 10) | lia])) as D;
  expanded D; let Hf := fresh in let Hs := fresh in let Hs2 := fresh in let Hi := fresh in
  destruct D as (Hf & Hs & Hs2 & Hi);
  cbv delta [exec_store fp_ldst] beta zeta; rewrite ?Hf, ?Hs, ?Hs2, ?Hi;
  cbn [switch Z.eqb Pos.eqb]; rewrite ?(u64_small 10) by done.

(** Behind the floating-point gate the bodies are the same. *)
Lemma u_fp_enter i j (P P' : M (Mach Ops Dev W) unit) m :
  (forall m, P' m = P m) -> u_matches i j ((fp_enter i ;;; P') m) ((fp_enter j ;;; P) m).
Proof.
  intros HP. unfold fp_enter, getrs, gets, mbind'. destruct (negb _).
  - exists (TrapRec kExIllegal i None). auto.
  - apply u_refl, HP.
Qed.

Lemma quad0_expand i j m :
  expand0 i = Some j ->
  c_matches i j m ((c_quad0 dbg_mem i ;;; mret' (u64 (pc (cpu m) + 2))) m) (riscv_exec_inst dbg_mem j m).
Proof.
  unfold expand0, c_quad0. pose proof (c_lo_rng i). pose proof (c_hi_rng i).
  rewrite c_imm4spn_ok, c_imm_d_ok, c_imm_w_ok.
  assert (Ha : rng 10 (uimm_addi4spn i)) by imm_rng.
  assert (Hw : rng 10 (uimm_w i)) by imm_rng. assert (Hd : rng 10 (uimm_d i)) by imm_rng.
  by_field (c_f3_cases i) E.
  - case_match; [done|]. intros [= <-]. dec_i 0x13 (c_lo i) 0 2 (uimm_addi4spn i). by apply u_refl.
  - intros [= <-]. dec_i 0x07 (c_lo i) 3 (c_hi i) (uimm_d i). by apply u_fp_enter.
  - intros [= <-]. dec_i 0x03 (c_lo i) 2 (c_hi i) (uimm_w i). by apply u_refl.
  - intros [= <-]. dec_i 0x03 (c_lo i) 3 (c_hi i) (uimm_d i). by apply u_refl.
  - done.
  - intros [= <-]. dec_s 0x27 3 (c_hi i) (c_lo i) (uimm_d i). by apply u_fp_enter.
  - intros [= <-]. dec_s 0x23 2 (c_hi i) (c_lo i) (uimm_w i). by apply u_refl.
  - intros [= <-]. dec_s 0x23 3 (c_hi i) (c_lo i) (uimm_d i). by apply u_refl.
Qed.

(** A register written with its own value. *)
Lemma u_set_same i j m r : 0 <= r < 32 -> regs_ok m ->
  u_matches i j (mret' tt m) (setx r (arr (gpr (cpu m)) r) m).
Proof.
  intros Hr (Hl & _ & _). exists m. split; [done|].
  assert (E : arr_set (gpr (cpu m)) r (arr (gpr (cpu m)) r) = gpr (cpu m)).
  { unfold arr_set, arr. apply list_insert_id. apply list_lookup_lookup_total_lt. lia. }
  unfold clear_x0. rsimpl. by rewrite E.
Qed.

Lemma reg_rng m r : regs_ok m -> rng 64 (arr (gpr (cpu m)) r).
Proof.
  intros (_ & Hf & _). unfold arr. rewrite list_lookup_total_alt. destruct (_ !! _) eqn:E; [|split; cbn; lia].
  by eapply Forall_lookup_1 in E.
Qed.

Lemma shift_dec d f amount hi : 0 <= d < 32 -> 0 <= f < 8 -> 0 <= amount < 64 -> hi = 0 \/ hi = 0x20 ->
  let w := shift_word 0x13 d f amount hi in
  w .& 0x7f = 0x13 /\ rd w = d /\ f3 w = f /\ rs1 w = d /\ shamt6 w = amount /\ f7 w .& 0x7e = hi /\
  Z.testbit w 30 = (hi =? 0x20).
Proof.
  intros Hd Hf Ha Hh. assert (Hq : amount / 32 = 0 \/ amount / 32 = 1) by (Z.div_mod_to_equations; lia).
  assert (Hw : word_ok 0x13 d f d (amount mod 32) (hi + amount / 32))
    by (unfold word_ok, rng; Z.div_mod_to_equations; lia).
  pose proof (word_f7 _ _ _ _ _ _ Hw) as E7. cbv zeta. unfold shift_word. split_and!.
  - by apply word_op.
  - by apply word_rd.
  - by apply word_f3.
  - by apply word_rs1.
  - unfold shamt6. fold (f7 (word 0x13 d f d (amount mod 32) (hi + amount / 32))).
    rewrite E7, (word_rs2 _ _ _ _ _ _ Hw), lor_shiftl_add by (lia || unfold rng; Z.div_mod_to_equations; lia).
    replace ((hi + amount / 32) .& 1) with (amount / 32) by (destruct Hh as [-> | ->], Hq as [-> | ->]; done).
    Z.div_mod_to_equations; lia.
  - rewrite E7. by destruct Hh as [-> | ->], Hq as [-> | ->].
  - change 30 with (5 + 25). rewrite <- Z.shiftr_spec by lia. fold (f7 (word 0x13 d f d (amount mod 32) (hi + amount / 32))).
    rewrite E7. by destruct Hh as [-> | ->], Hq as [-> | ->].
Qed.

Lemma shiftr_self a : a .>> 0 = a.
Proof. apply Z.shiftr_0_r. Qed.

Ltac dec_shift d f amount hi :=
  let D := fresh "D" in
  pose proof (shift_dec d f amount hi ltac:(lia) ltac:(lia) ltac:(lia) ltac:(auto)) as D;
  expanded D; let Hd := fresh in let Hf := fresh in let Hs := fresh in let Ha := fresh in let H7 := fresh in let H30 := fresh in
  destruct D as (Hd & Hf & Hs & Ha & H7 & H30);
  cbv delta [opimm_alu tst] beta zeta; rewrite ?Hd, ?Hf, ?Hs, ?Ha, ?H7, ?H30; cbn [switch Z.eqb Pos.eqb negb andb].

(** A register operation of the arithmetic group. *)
Ltac dec_r k d f s1 s2 f7v :=
  let Hw := fresh "Hw" in
  assert (Hw : word_ok k d f s1 s2 f7v) by (unfold word_ok, rng; lia);
  let D := fresh "D" in
  pose proof (conj (word_op _ _ _ _ _ _ Hw) (conj (word_rd _ _ _ _ _ _ Hw) (conj (word_f3 _ _ _ _ _ _ Hw)
    (conj (word_rs1 _ _ _ _ _ _ Hw) (conj (word_rs2 _ _ _ _ _ _ Hw) (word_f7 _ _ _ _ _ _ Hw)))))) as D;
  expanded D; let Hd := fresh in let Hf := fresh in let Hs := fresh in let Hs2 := fresh in let H7 := fresh in
  destruct D as (Hd & Hf & Hs & Hs2 & H7);
  rewrite ?Hd, ?Hf, ?Hs, ?Hs2, ?H7; cbv delta [op_alu op32_alu] beta; cbn [switch Z.eqb Pos.eqb].

Lemma uimm6_rng i : 0 <= uimm_6 i < 64.
Proof. change 64 with (2 ^ 6). imm_rng. Qed.

Lemma quad_cases_at i k : In ((i .>> k) .& 3) [0; 1; 2; 3].
Proof. apply quad_cases. Qed.

Lemma wrap_sub w a b : wrap w (wrap w a - wrap w b) = wrap w (a - b).
Proof. unfold wrap. symmetry. apply Zminus_mod. Qed.
Lemma wrap_add w a b : wrap w (wrap w a + wrap w b) = wrap w (a + b).
Proof. unfold wrap. symmetry. apply Zplus_mod. Qed.

(** Shifts by zero are skipped by the compressed forms. *)
Lemma u_shift i j m r amount (g : Z -> Z) :
  regs_ok m -> 0 <= r < 32 -> (amount = 0 -> g (arr (gpr (cpu m)) r) = arr (gpr (cpu m)) r) ->
  u_matches i j ((if amount =? 0 then mret' tt else setx r (g (arr (gpr (cpu m)) r))) m)
    (setx r (g (arr (gpr (cpu m)) r)) m).
Proof.
  intros Hr Hd Hg. destruct (Z.eqb_spec amount 0) as [E|]; [|by apply u_refl].
  rewrite (Hg E). by apply u_set_same.
Qed.

Lemma arith_expand i j m :
  regs_ok m -> expand_arith i = Some j ->
  c_matches i j m ((c_arith i ;;; mret' (u64 (pc (cpu m) + 2))) m) (riscv_exec_inst dbg_mem j m).
Proof.
  intros Hr. unfold expand_arith, c_arith. pose proof (c_lo_rng i). pose proof (c_hi_rng i). pose proof (uimm6_rng i).
  rewrite c_simm6_ok, c_imm6_ok. pose proof (signed_range 6 (uimm_6 i) ltac:(lia) ltac:(done)).
  replace (c_hi i =? 0) with false by (symmetry; apply Z.eqb_neq; lia).
  replace (c_lo i =? 0) with false by (symmetry; apply Z.eqb_neq; lia).
  by_field (quad_cases_at i 10) E; cbn [orb].
  - intros [= <-]. dec_shift (c_hi i) 5 (uimm_6 i) 0.
    unfold mbind', getx, gets. cbn [setx_or_illegal].
    apply (u_shift i _ m (c_hi i) (uimm_6 i) (fun a => a .>> uimm_6 i)); [done|lia|]. intros ->. apply Z.shiftr_0_r.
  - intros [= <-]. dec_shift (c_hi i) 5 (uimm_6 i) 0x20.
    unfold mbind', getx, gets. cbn [setx_or_illegal].
    apply (u_shift i _ m (c_hi i) (uimm_6 i) (fun a => u64 (s64 a .>> uimm_6 i))); [done|lia|]. intros ->.
    rewrite Z.shiftr_0_r. apply wrap_signed; [lia|by apply reg_rng].
  - intros [= <-]. dec_i 0x13 (c_hi i) 7 (c_hi i) (signed 6 (uimm_6 i)). by apply u_refl.
  - destruct (Z.testbit i 12); by_field (quad_cases_at i 5) E'; try discriminate; intros [= <-].
    + dec_r 0x3b (c_hi i) 0 (c_hi i) (c_lo i) 0x20. apply u_refl. unfold mbind', getx, gets. cbn [setx_or_illegal].
      by rewrite wrap_sub.
    + dec_r 0x3b (c_hi i) 0 (c_hi i) (c_lo i) 0. apply u_refl. unfold mbind', getx, gets. cbn [setx_or_illegal].
      by rewrite wrap_add.
    + dec_r 0x33 (c_hi i) 0 (c_hi i) (c_lo i) 0x20. by apply u_refl.
    + dec_r 0x33 (c_hi i) 4 (c_hi i) (c_lo i) 0. by apply u_refl.
    + dec_r 0x33 (c_hi i) 6 (c_hi i) (c_lo i) 0. by apply u_refl.
    + dec_r 0x33 (c_hi i) 7 (c_hi i) (c_lo i) 0. by apply u_refl.
Qed.

(** Writes to x0 are skipped by the compressed forms. *)
Lemma u_skip_x0 i j m r (v : Z) :
  u_matches i j ((when negb (r =? 0) do setx r v) m) (setx r v m).
Proof. destruct (Z.eqb_spec r 0) as [->|]; [apply u_set_x0|by apply u_refl]. Qed.

Lemma even_signed w x : 1 < w -> Z.testbit x 0 = false -> Z.testbit (signed w x) 0 = false.
Proof.
  intros Hw Ht. unfold signed. destruct (x <? 2 ^ (w - 1)); [exact Ht|].
  rewrite Z.bit0_odd in *. rewrite Z.odd_sub, Ht, Z.odd_pow by lia. reflexivity.
Qed.

Lemma branch_expand i j m k (f : bool) :
  regs_ok m -> k = (if f then 1 else 0) -> j = b_type k (c_hi i) (signed 9 (uimm_b i)) ->
  c_matches i j m
    ((v <- getx (c_hi i) ;;
      mret' (if xorb f (v =? 0) then u64 (pc (cpu m) + c_imm_b i) else u64 (pc (cpu m) + 2))) m)
    (riscv_exec_inst dbg_mem j m).
Proof.
  intros (_ & _ & H0) Hk ->. pose proof (c_hi_rng i).
  pose proof (signed_range 9 (uimm_b i) ltac:(lia) ltac:(imm_rng)).
  assert (He : Z.testbit (signed 9 (uimm_b i)) 0 = false).
  { apply even_signed; [lia|]. unfold uimm_b, gather. cbn [foldr fst snd]. autorewrite with zbits.
    rewrite !bit_at by lia. reflexivity. }
  assert (Hw : word_ok 0x63 0 k (c_hi i) 0 0) by (unfold word_ok, rng; destruct f; lia).
  destruct (b_type_dec k (c_hi i) (signed 9 (uimm_b i)) Hw ltac:(lia) He) as (Hop & Hf & Hs1 & Hs2 & Hi).
  unfold c_matches, c_next, c_link, riscv_exec_inst. rewrite Hop, Hf, Hs1, Hs2, Hi, c_imm_b_ok.
  cbn [switch Z.eqb Pos.eqb]. unfold mbind', getpc, getx, gets, mret'. rewrite H0, Hk.
  destruct f; cbn [switch Z.eqb Pos.eqb branch_taken]; destruct (arr _ _ =? 0); cbn; eauto.
Qed.

Lemma quad1_jump i j m :
  j = j_type 0 (signed 12 (uimm_j i)) ->
  c_matches i j m (mret' (u64 (pc (cpu m) + c_imm_j i)) m) (riscv_exec_inst dbg_mem j m).
Proof.
  intros ->. pose proof (signed_range 12 (uimm_j i) ltac:(lia) ltac:(imm_rng)).
  assert (He : Z.testbit (signed 12 (uimm_j i)) 0 = false).
  { apply even_signed; [lia|]. unfold uimm_j, gather. cbn [foldr fst snd]. autorewrite with zbits.
    rewrite !bit_at by lia. reflexivity. }
  destruct (j_type_dec 0 (signed 12 (uimm_j i)) ltac:(unfold rng; lia) ltac:(lia) He) as (Hop & Hd & Hi).
  unfold c_matches, c_next, c_link, riscv_exec_inst. rewrite Hop, Hd, Hi, c_imm_j_ok.
  cbn [switch Z.eqb Pos.eqb]. unfold mbind', getpc, gets, mret', setx, modcpu, modify.
  eexists. split; [reflexivity|]. symmetry. rewrite clear_set. apply clear_set.
Qed.

Lemma wrap_wrap w x : 0 <= w -> wrap w (wrap w x) = wrap w x.
Proof. intros. apply wrap_small, rng_wrap. done. Qed.

Lemma lui_imm i : - 2 ^ 31 <= signed 18 (uimm_lui i) < 2 ^ 31 /\ signed 18 (uimm_lui i) .& 0xfff = 0.
Proof.
  assert (Hr : rng 18 (uimm_lui i)) by imm_rng. split; [pose proof (signed_range 18 (uimm_lui i) ltac:(lia) Hr); lia|].
  assert (Hz : uimm_lui i .& 0xfff = 0).
  { apply (land_zero_bits _ _ 12); [unfold rng; lia|]. intros n Hn _. unfold uimm_lui, gather. cbn [foldr fst snd].
    vm_compute in Hn. repeat (destruct Hn as [<-|Hn]; [autorewrite with zbits; rewrite !bit_at by lia; reflexivity|]).
    destruct Hn. }
  change 0xfff with (2 ^ 12 - 1) in *. rewrite land_ones_wrap in * by lia. unfold wrap, signed in *.
  destruct (uimm_lui i <? _); [done|]. rewrite Zminus_mod, Hz. reflexivity.
Qed.

Lemma lui_nonzero i : uimm_lui i <> 0 -> c_imm_lui i <> 0.
Proof.
  assert (Hr : rng 18 (uimm_lui i)) by imm_rng. rewrite c_imm_lui_ok. intros Hn Hz. apply Hn.
  pose proof (signed_range 18 (uimm_lui i) ltac:(lia) Hr) as Hs. simpl Z.pow in Hs.
  assert (Hz' : signed 18 (uimm_lui i) = 0).
  { revert Hz. unfold wrap. intros Hz. simpl Z.pow in Hz. Z.div_mod_to_equations. lia. }
  revert Hz'. unfold signed, rng in *. destruct (Z.ltb_spec (uimm_lui i) (2 ^ (18 - 1))); simpl Z.pow in *; lia.
Qed.

Lemma quad1_expand i j m :
  regs_ok m -> expand1 i = Some j ->
  c_matches i j m (c_quad1 (pc (cpu m)) i m) (riscv_exec_inst dbg_mem j m).
Proof.
  intros Hr. unfold expand1, c_quad1. pose proof (c_rd_rng i) as Hd. pose proof (uimm6_rng i).
  rewrite c_simm6_ok, c_imm16sp_ok. pose proof (signed_range 6 (uimm_6 i) ltac:(lia) ltac:(done)).
  pose proof (signed_range 10 (uimm_16sp i) ltac:(lia) ltac:(imm_rng)).
  by_field (c_f3_cases i) E.
  - intros [= <-]. dec_i 0x13 (c_rd i) 0 (c_rd i) (signed 6 (uimm_6 i)).
    unfold mbind', getx, gets. cbn [setx_or_illegal].
    destruct (Z.eqb_spec (c_rd i) 0) as [->|]; cbn [negb]; [apply u_set_x0|by apply u_refl].
  - destruct (c_rd i =? 0); [done|]. intros [= <-]. dec_i 0x1b (c_rd i) 0 (c_rd i) (signed 6 (uimm_6 i)).
    by apply u_refl.
  - intros [= <-]. dec_i 0x13 (c_rd i) 0 0 (signed 6 (uimm_6 i)). apply u_refl.
    unfold mbind', getx, gets. cbn [setx_or_illegal]. destruct Hr as (_ & _ & ->). by rewrite Z.add_0_l, wrap_wrap.
  - destruct (Z.eqb_spec (c_rd i) 2).
    + destruct (uimm_16sp i =? 0); [done|]. intros [= <-]. dec_i 0x13 2 0 2 (signed 10 (uimm_16sp i)). by apply u_refl.
    + destruct (Z.eqb_spec (uimm_lui i) 0) as [|Hn]; [done|]. intros [= <-].
      pose proof (u_type_dec (c_rd i) (signed 18 (uimm_lui i)) Hd (proj1 (lui_imm i)) (proj2 (lui_imm i))) as D.
      expanded D. destruct D as (Hrd & Hi). rewrite Hrd, Hi, <- c_imm_lui_ok.
      replace (c_imm_lui i =? 0) with false by (symmetry; apply Z.eqb_neq; by apply lui_nonzero).
      cbn [negb]. rewrite andb_true_r. apply u_skip_x0.
  - by apply arith_expand.
  - intros [= <-]. by apply quad1_jump.
  - intros [= <-]. by apply (branch_expand i _ m 0 false).
  - intros [= <-]. apply (branch_expand i _ m 1 true); done.
Qed.

Lemma jalr_expand i j m d P :
  regs_ok m -> tst (misa (rs m)) kMisaC = true -> 0 <= d < 2 -> j = i_type 0x67 d 0 (c_rd i) 0 ->
  P m = (if d =? 0 then Done tt m else setx d (u64 (pc (cpu m) + 2)) m) ->
  c_matches i j m ((a <- getx (c_rd i) ;; P ;;; mret' (a &~ 1)) m) (riscv_exec_inst dbg_mem j m).
Proof.
  intros Hr Hc Hd -> HP. pose proof (c_rd_rng i).
  destruct (i_type_dec 0x67 d 0 (c_rd i) 0 ltac:(unfold word_ok, rng; lia) ltac:(lia)) as (Hop & Hrd & Hf & Hs & Hi).
  unfold c_matches, c_next, c_link, riscv_exec_inst. rewrite Hop, Hrd, Hs, Hi. cbn [switch Z.eqb Pos.eqb].
  unfold mbind', getpc, getx, getrs, gets. change (u64 0) with 0.
  rewrite Hc, HP, Z.add_0_r, (wrap_small 64 _ (reg_rng m (c_rd i) Hr)).
  destruct (Z.eqb_spec d 0) as [->|]; eexists; (split; [reflexivity|]).
  - symmetry. unfold setx, modcpu, modify. rewrite clear_set. apply clear_set.
  - assert (d = 1) as -> by lia. unfold setx, modcpu, modify, clear_x0. rsimpl. unfold arr_set.
    by rewrite list_insert_insert_eq.
Qed.

Lemma quad2_reg_expand i j m :
  regs_ok m -> tst (misa (rs m)) kMisaC = true -> c_f3 i = 4 -> expand2 i = Some j ->
  c_matches i j m (c_quad2 dbg_mem (pc (cpu m)) i m) (riscv_exec_inst dbg_mem j m).
Proof.
  intros Hr Hc E. unfold expand2, c_quad2. rewrite E. cbn [switch Z.eqb Pos.eqb].
  pose proof (c_rd_rng i) as Hd. pose proof (c_rs2_rng i) as Hs.
  destruct (negb (Z.testbit i 12)); destruct (Z.eqb_spec (c_rs2 i) 0).
  - destruct (Z.eqb_spec (c_rd i) 0); [done|]. intros [= <-].
    apply (jalr_expand i _ m 0 (mret' tt)); [done..|lia|done|done].
  - intros [= <-]. dec_r 0x33 (c_rd i) 0 0 (c_rs2 i) 0. unfold mbind', getx, gets. cbn [setx_or_illegal].
    rewrite (proj2 (proj2 Hr)), Z.add_0_l, wrap_small by (by apply reg_rng).
    destruct (Z.eqb_spec (c_rd i) 0) as [->|]; cbn [negb]; [apply u_set_x0|by apply u_refl].
  - destruct (Z.eqb_spec (c_rd i) 0); intros [= <-].
    + unfold riscv_exec_inst. change (0x00100073 .& 0x7f) with 0x73. change (f3 0x00100073) with 0.
      cbn [switch Z.eqb Pos.eqb]. unfold system_op. change ((0x00100073 .>> 20) .& 0xfff) with 1.
      cbn [switch Z.eqb Pos.eqb]. eexists. split; [reflexivity|]. by left.
    + apply (jalr_expand i _ m 1 (setx 1 (u64 (pc (cpu m) + 2)))); [done..|lia|done|done].
  - intros [= <-]. dec_r 0x33 (c_rd i) 0 (c_rd i) (c_rs2 i) 0. unfold mbind', getx, gets. cbn [setx_or_illegal].
    destruct (Z.eqb_spec (c_rd i) 0) as [->|]; cbn [negb]; [apply u_set_x0|by apply u_refl].
Qed.

Lemma quad2_expand i j m :
  regs_ok m -> tst (misa (rs m)) kMisaC = true -> expand2 i = Some j ->
  c_matches i j m (c_quad2 dbg_mem (pc (cpu m)) i m) (riscv_exec_inst dbg_mem j m).
Proof.
  intros Hr Hc. destruct (Z.eq_dec (c_f3 i) 4) as [E4|N4]; [by apply quad2_reg_expand|].
  unfold expand2, c_quad2. pose proof (c_rd_rng i). pose proof (c_rs2_rng i). pose proof (uimm6_rng i).
  rewrite c_imm6_ok, c_imm_lwsp_ok, c_imm_ldsp_ok, c_imm_swsp_ok, c_imm_sdsp_ok.
  assert (rng 10 (uimm_lwsp i)) by imm_rng. assert (rng 10 (uimm_ldsp i)) by imm_rng.
  assert (rng 10 (uimm_swsp i)) by imm_rng. assert (rng 10 (uimm_sdsp i)) by imm_rng.
  by_field (c_f3_cases i) E; try congruence.
  - intros [= <-]. dec_shift (c_rd i) 1 (uimm_6 i) 0. unfold mbind', getx, gets. cbn [setx_or_illegal].
    destruct (Z.eqb_spec (c_rd i) 0) as [->|]; cbn [orb]; [apply u_set_x0|].
    pose proof (u_shift i (shift_word 0x13 (c_rd i) 1 (uimm_6 i) 0) m (c_rd i) (uimm_6 i)
      (fun a => u64 (a .<< uimm_6 i)) Hr ltac:(done)) as Hu. cbv beta in Hu.
    destruct (uimm_6 i =? 0); apply Hu; intros ->; rewrite Z.shiftl_0_r; by apply wrap_small, reg_rng.
  - destruct (c_rd i =? 0); [done|]. intros [= <-]. dec_i 0x03 (c_rd i) 2 2 (uimm_lwsp i). by apply u_refl.
  - destruct (c_rd i =? 0); [done|]. intros [= <-]. dec_i 0x03 (c_rd i) 3 2 (uimm_ldsp i). by apply u_refl.
  - intros [= <-]. dec_s 0x23 2 2 (c_rs2 i) (uimm_swsp i). by apply u_refl.
  - intros [= <-]. dec_s 0x23 3 2 (c_rs2 i) (uimm_sdsp i). by apply u_refl.
Qed.

(** C8: a compressed instruction is its 32-bit expansion: for every halfword the expansion table of
    the C extension defines (all but the two stack-relative floating-point accesses), executing it
    with x0 zero and C enabled has the effect of executing the expansion, with pc + 2 as the
    sequential successor and link, the same taken targets, memory effects and faults, and the
    halfword as the tval of an illegal-instruction trap. *)
Theorem c_expand i j m :
  regs_ok m -> tst (misa (rs m)) kMisaC = true -> expand i = Some j ->
  c_matches i j m (riscv_exec_c dbg_mem i m) (riscv_exec_inst dbg_mem j m).
Proof.
  intros Hr Hc. unfold expand, riscv_exec_c. unfold getpc at 1, gets at 1, mbind' at 1.
  by_field (quad_cases i) E; try done; [apply quad0_expand|by apply quad1_expand|by apply quad2_expand].
Qed.

(** C.fldsp with the floating-point unit off loads the register and completes, where the fld it
    abbreviates raises an illegal-instruction trap. *)
Theorem c_fldsp_ungated i m v m' :
  let fld_word := i_type 0x07 (c_rd i) 3 2 (uimm_ldsp i) in
  i .& 3 = 2 -> c_f3 i = 1 -> c_rd i <> 0 -> tst (mstatus (rs m)) kMstatusFs = false ->
  riscv_mem_load dbg_mem (u64 (arr (gpr (cpu m)) 2 + uimm_ldsp i)) 8 acc_read m = Done v m' ->
  riscv_exec_inst dbg_mem fld_word m = Raised (TrapRec kExIllegal fld_word None) m /\
  exists m'', riscv_exec_c dbg_mem i m = Done (u64 (pc (cpu m) + 2)) m'' /\
    fpr (cpu m'') = arr_set (fpr (cpu m')) (c_rd i) v.
Proof.
  intros w Hq H1 Hd Hfs Hl. pose proof (c_rd_rng i). assert (rng 10 (uimm_ldsp i)) by imm_rng. split.
  - destruct (i_type_dec 0x07 (c_rd i) 3 2 (uimm_ldsp i) ltac:(unfold word_ok, rng; lia) ltac:(by apply (imm_small 10)))
      as (Hop & _ & Hf & _). fold w in Hop, Hf. unfold riscv_exec_inst. rewrite Hop, Hf. cbn [switch Z.eqb Pos.eqb].
    unfold fp_ldst, fp_enter, getpc, getrs, gets, mbind'. by rewrite Hfs.
  - unfold riscv_exec_c, c_quad2. rewrite Hq, H1, c_imm_ldsp_ok. cbn [switch Z.eqb Pos.eqb].
    apply Z.eqb_neq in Hd. rewrite Hd. cbn [negb]. unfold mbind', getpc, getx, gets. rewrite Hl.
    eexists. split; [reflexivity|]. by rsimpl.
Qed.
End exec.
