(* ===== verification/RvStep.v ===== *)
(** * The step protocol (cpu/isa/riscv64/step.c) and the gdb register hooks
    (isa_riscv64.c)

    One step samples the timer and the interrupt lines at batch boundaries,
    fetches, checks the execute triggers, runs one instruction, and lands
    every raise on the trap vector; the counters close the step. *)

From S2P Require Import Prelude Bus Ram RvState RvCsr RvMmu RvFp RvExec RvExecC.

Definition kStepBatch := 2 ^ 10.

Definition GdbTrapSignal (cause : Z) : Z :=
  switch cause [ (kExIllegal, 4); (kExBreakpoint, 5); (kExUserEcall, 5); (kExSupervisorEcall, 5);
                 (kExMachineEcall, 5) ] 11.

Section step.
Context {Ops Dev W : Type} `{BusDevices Ops Dev W}.
Variable dbg_mem : bool.
#[local] Abbreviation MM := (M (Mach Ops Dev W)).

(** Sstc: fold [stimecmp] against the board clock into the STIP line. *)
Definition riscv_sync_timer : MM unit := fun m =>
  match timer_read with
  | Some t =>
      if stimecmp (rs m) =? 2 ^ 64 - 1 then Done tt m
      else let '(v, w) := t (world m) in
           Done tt (m <| world := w |> <| rs := riscv_set_ext_irq kIrqStip (stimecmp (rs m) <=? v) (rs m) |>)
  | None => Done tt m
  end.

Definition deliver_m : MM unit := modify (fun m =>
  match riscv_deliver_interrupt (pc (cpu m)) (rs m) with
  | Some (p, s) => m <| cpu := (cpu m) <| pc := p |> |> <| rs := s |>
  | None => m
  end).

(** The instruction word and its length. *)
Definition fetch : MM (Z * Z) :=
  p <- getpc ;;
  s <- getrs ;;
  (when tst p 1 do raise_ kExFetchMisaligned p) ;;;
  let c_on := Z.testbit (misa s) 2 in
  (when negb c_on && negb (p mod 4 =? 0) do raise_ kExFetchMisaligned p) ;;;
  if c_on && (p .& 3 =? 0) then
    v <- riscv_mem_load dbg_mem p 4 acc_ifetch ;;
    let inst := u32 v in
    mret' (if negb (inst .& 3 =? 3) then (inst .& 0xffff, 2) else (inst, 4))
  else
    v <- riscv_mem_load dbg_mem p 2 acc_ifetch ;;
    let half := u16 v in
    if c_on && negb (half .& 3 =? 3) then mret' (half, 2)
    else
      v <- riscv_mem_load dbg_mem (u64 (p + 2)) 2 acc_ifetch ;;
      mret' (half .| (u16 v .<< 16), 4).

(** Everything between the [setjmp] and the commit. *)
Definition step_body : MM unit :=
  x <- fetch ;;
  p <- getpc ;;
  RiscvTriggerCheck kTrigOpExecute p ;;;
  setx 0 0 ;;;
  p <- (if x.2 =? 2 then riscv_exec_c dbg_mem (u16 x.1) else riscv_exec_inst dbg_mem x.1) ;;
  modcpu (fun c => c <| pc := p |>).

(** The trap consumer of the landing pad. *)
Definition take_trap (t : trap_rec) (m : Mach Ops Dev W) : Mach Ops Dev W :=
  let '(v, s) := riscv_trap (pc (cpu m)) (trap_cause t) (trap_tval t) (rs m) in
  m <| cpu := (cpu m) <| pc := v |> |>
    <| rs := s <| trap_seq := u64 (trap_seq s + 1) |> <| trap_signal := GdbTrapSignal (trap_cause t) |> |>.

Definition landing_pad (p : MM unit) : MM unit := fun m =>
  match p m with
  | Raised t m => Done tt (take_trap t m)
  | r => r
  end.

Definition count_step (s : RiscvState Dev) : RiscvState Dev :=
  let s := if negb (tst (mcountinhibit s) kMcountinhibitIr) && negb (counter_written s =? kCounterMinstret)
           then s <| minstret := u64 (minstret s + 1) |> else s in
  let s := if negb (tst (mcountinhibit s) kMcountinhibitCy) && negb (counter_written s =? kCounterMcycle)
           then s <| mcycle := u64 (mcycle s + 1) |> else s in
  s <| counter_written := kCounterNone |>.

Definition riscv_step : MM unit :=
  c <- getcpu ;;
  let boundary := wait c || (inst_count c .& (kStepBatch - 1) =? 0) in
  (when boundary do riscv_sync_timer) ;;;
  s <- getrs ;;
  if wait c && (MipAll s .& mie s =? 0) then mret' tt
  else
  (when wait c do modcpu (fun c => c <| wait := false |>)) ;;;
  (when boundary do deliver_m) ;;;
  c' <- getcpu ;;
  if boundary && halted c' then mret' tt
  else
  landing_pad step_body ;;;
  modrs count_step.
End step.

(** ** gdb register file *)

Definition Le64Put (v : Z) : list Z := le_bytes 8 v.
Definition Le64Get (bs : list Z) : Z := le_val (take 8 bs).

(** x0..x31 then pc; [None]: the buffer is too small. *)
Definition riscv_gdb_read_regs (c : CpuState) (cap : Z) : option (list Z) :=
  if cap <? 33 * 8 then None
  else Some (concat (Le64Put <$> take 32 (gpr c)) ++ Le64Put (pc c)).

(** The register loop from [i] on. *)
Fixpoint gdb_write_loop (n : nat) (i : Z) (bs : list Z) (g : list Z) : list Z * list Z :=
  match n with
  | O => (g, bs)
  | S n => gdb_write_loop n (i + 1) (drop 8 bs) (if i =? 0 then g else arr_set g i (Le64Get bs))
  end.

Definition riscv_gdb_write_regs (c : CpuState) (bs : list Z) : option CpuState :=
  if Z.of_nat (length bs) <? 33 * 8 then None
  else let '(g, rest) := gdb_write_loop 32 0 bs (gpr c) in
       Some (c <| gpr := g |> <| pc := Le64Get rest |>).
