(* ===== verification/RvPrecise.v ===== *)
(** * Precise traps

    However far an instruction gets before it raises, the registers, the pc
    and the CSRs are those of its start: only the translation cache, the
    device-driven lines and the FS field may have moved.  The landing pad
    then records exactly the faulting pc. *)

From S2P Require Import Prelude Bus Ram RvState RvCsr RvMmu RvFrame RvFp RvExec RvExecC RvStep.

(** ** What each helper may change *)

Section helpers.
Context {Ops Dev W : Type} `{BusDevices Ops Dev W}.
Variable dbg_mem : bool.
Implicit Types m : Mach Ops Dev W.
#[local] Abbreviation fsq := (fs_quiet (Ops:=Ops) (Dev:=Dev) (W:=W)).

Lemma pres_q {A} (p : M (Mach Ops Dev W) A) : pres quiet p -> pres fsq p.
Proof. apply pres_mono, quiet_fs_quiet. Qed.

Lemma pres_dq {A} (p : M (Mach Ops Dev W) A) : pres dquiet p -> pres quiet p.
Proof. apply pres_mono, dquiet_quiet. Qed.

Lemma world_quiet m w : quiet m (m <| world := w |>).
Proof. by apply dquiet_quiet, (bus_upd_dquiet m (bus m) w). Qed.

Lemma pres_TriggerCheck R `{!PreOrder R} op addr : pres R (RiscvTriggerCheck (Ops:=Ops) (Dev:=Dev) (W:=W) op addr).
Proof. unfold RiscvTriggerCheck, Fire. pres_auto. Qed.

Lemma pres_mem_load vaddr size acc : pres quiet (riscv_mem_load dbg_mem vaddr size acc).
Proof.
  unfold riscv_mem_load, bus_load. pose proof (@pres_dq) as Hd.
  pose proof (fun op a => pres_TriggerCheck quiet op a) as Ht. pres_auto.
Qed.

Lemma pres_mem_store vaddr size v : pres quiet (riscv_mem_store dbg_mem vaddr size v).
Proof.
  unfold riscv_mem_store, bus_store. pose proof (@pres_dq) as Hd.
  pose proof (fun op a => pres_TriggerCheck quiet op a) as Ht. pres_auto.
  apply pres_modify. intros m. apply world_quiet.
Qed.

Lemma pres_load addr size sx : pres quiet (load dbg_mem addr size sx).
Proof. unfold load. pose proof pres_mem_load as Hl. pres_auto. Qed.

Lemma pres_zero_block addr offs : pres quiet (zero_block dbg_mem addr offs).
Proof. pose proof pres_mem_store as Hs. induction offs; simpl; pres_auto. Qed.

Lemma pres_csr_read csr i : pres quiet (csr_read_m csr i).
Proof.
  intros m. unfold wp, csr_read_m. destruct (riscv_csr_read _ _ _ _) as [[v| |] w]; [apply world_quiet..|done].
Qed.

Lemma on_raise_csr_write csr v np i : on_raise fsq (csr_write_m csr v np i).
Proof.
  intros m. unfold wp, csr_write_m. destruct (riscv_csr_write _ _ _ _); [done|reflexivity|done].
Qed.

Lemma pres_fp_enter i : pres fsq (fp_enter i).
Proof.
  unfold fp_enter, illegal, modrs. pres_auto. apply pres_modify. intros m. split; [reflexivity| |done..].
  exists (ext_irq (rs m)), (tlb (rs m)), (tlb_clock (rs m)), (mstatus (rs m) .| kMstatusFs). split; [by destruct (rs m)|].
  zbits.
Qed.

Lemma pres_fp_rm R `{!PreOrder R} rm : pres R (fp_rm (Ops:=Ops) (Dev:=Dev) (W:=W) rm).
Proof. unfold fp_rm. pres_auto. Qed.
End helpers.

(** ** Automation for the raising exits *)

Create HintDb raise discriminated.
#[export] Hint Resolve no_raise_ret no_raise_gets no_raise_modify no_raise_abort : raise.

Ltac no_raise_auto :=
  repeat first
    [ solve [eauto with raise]
    | lazymatch goal with
      | |- no_raise (mbind' _ _) => apply no_raise_bind; [|intros ?]
      | |- no_raise (match ?x with _ => _ end) => destruct x
      | |- no_raise _ => progress unfold setx, setf, getx, getf, getpc, getrs, getcpu, modrs, modcpu, fp_run, fp_run_opt
      end ].

(** [on_raise fs_quiet] of straight-line code: a prefix that only looks, then
    one part that may raise, then updates that cannot. *)
Ltac raise_leaf :=
  idtac; first
  [ solve [apply on_raise_pres; pres_auto]
  | solve [apply on_raise_no_raise; no_raise_auto]
  | solve [eauto with raise] ].
Ltac raise_auto :=
  first
  [ raise_leaf
  | lazymatch goal with
    | |- on_raise _ (mbind' _ _) =>
        first [ apply on_raise_bind; [typeclasses eauto|solve [pres_auto]|intros ?; raise_auto]
              | apply on_raise_last; [raise_auto|intros ?; solve [no_raise_auto]] ]
    | |- on_raise _ (match ?x with _ => _ end) => destruct x; raise_auto
    | |- on_raise _ (switch _ _ _) =>
        apply on_raise_switch;
          [repeat (apply Forall_cons; split); try apply Forall_nil; cbn [snd]; raise_auto | raise_auto]
    | |- on_raise _ ((fun _ => _) _) => cbv beta; raise_auto
    end
  | idtac ].

Section exec.
Context {Ops Dev W : Type} `{BusDevices Ops Dev W}.
Variable dbg_mem : bool.
Implicit Types m : Mach Ops Dev W.
#[local] Abbreviation fsq := (fs_quiet (Ops:=Ops) (Dev:=Dev) (W:=W)).

Lemma pres_getx R `{!PreOrder R} i : pres R (getx (Ops:=Ops) (Dev:=Dev) (W:=W) i).
Proof. apply pres_gets, _. Qed.
Lemma pres_getf R `{!PreOrder R} i : pres R (getf (Ops:=Ops) (Dev:=Dev) (W:=W) i).
Proof. apply pres_gets, _. Qed.
Lemma pres_getpc R `{!PreOrder R} : pres R (getpc (Ops:=Ops) (Dev:=Dev) (W:=W)).
Proof. apply pres_gets, _. Qed.
Lemma pres_illegal {A} R `{!PreOrder R} t : pres R (illegal (Ops:=Ops) (Dev:=Dev) (W:=W) (A:=A) t).
Proof. apply pres_throw, _. Qed.

Lemma fsq_load vaddr size acc : pres fsq (riscv_mem_load dbg_mem vaddr size acc).
Proof. apply pres_q, pres_mem_load. Qed.
Lemma fsq_loadx vaddr size sx : pres fsq (load dbg_mem vaddr size sx).
Proof. apply pres_q, pres_load. Qed.
Lemma fsq_store vaddr size v : pres fsq (riscv_mem_store dbg_mem vaddr size v).
Proof. apply pres_q, pres_mem_store. Qed.
Lemma fsq_zero addr offs : pres fsq (zero_block dbg_mem addr offs).
Proof. apply pres_q, pres_zero_block. Qed.
Lemma fsq_csr_read csr i : pres fsq (csr_read_m csr i).
Proof. apply pres_q, pres_csr_read. Qed.
#[local] Hint Resolve pres_getx pres_getf pres_getpc pres_illegal fsq_load fsq_loadx fsq_store fsq_zero
  fsq_csr_read pres_fp_enter pres_fp_rm : pres.
#[local] Hint Resolve on_raise_csr_write : raise.

Lemma on_raise_setx_or_illegal i r v : on_raise fsq (setx_or_illegal i r v).
Proof. unfold setx_or_illegal. raise_auto. Qed.

Lemma on_raise_csr_op i : on_raise fsq (csr_op i).
Proof. unfold csr_op. raise_auto. Qed.

Lemma on_raise_system_op i : on_raise fsq (system_op i).
Proof. unfold system_op. raise_auto. Qed.

Lemma on_raise_amo_op i d : on_raise fsq (amo_op dbg_mem i d).
Proof. unfold amo_op. raise_auto. Qed.

Lemma on_raise_fp_op i : on_raise fsq (fp_op i).
Proof. unfold fp_op. cbv zeta. raise_auto. Qed.

Lemma on_raise_fma_op i op : on_raise fsq (fma_op i op).
Proof. unfold fma_op. raise_auto. Qed.

Lemma on_raise_fp_ldst i st d : on_raise fsq (fp_ldst dbg_mem i st d).
Proof. unfold fp_ldst. raise_auto. Qed.

Lemma on_raise_fence i : on_raise fsq (exec_fence dbg_mem i).
Proof. unfold exec_fence, cbo_op, cbo_zero. raise_auto. Qed.

Lemma on_raise_exec_load i : on_raise fsq (exec_load dbg_mem i).
Proof. unfold exec_load. raise_auto. Qed.

Lemma on_raise_exec_store i : on_raise fsq (exec_store dbg_mem i).
Proof. unfold exec_store. raise_auto. Qed.
#[local] Hint Resolve on_raise_setx_or_illegal on_raise_csr_op on_raise_system_op on_raise_amo_op on_raise_fp_op
  on_raise_fma_op on_raise_fp_ldst on_raise_fence on_raise_exec_load on_raise_exec_store : raise.

Lemma on_raise_exec_inst i : on_raise fsq (riscv_exec_inst dbg_mem i).
Proof. unfold riscv_exec_inst. raise_auto. Qed.

Lemma on_raise_quad0 i : on_raise fsq (c_quad0 dbg_mem i).
Proof. unfold c_quad0. raise_auto. Qed.

Lemma on_raise_arith i : on_raise fsq (c_arith i).
Proof. unfold c_arith. raise_auto. Qed.

Lemma on_raise_quad1 p i : on_raise fsq (c_quad1 p i).
Proof. unfold c_quad1. pose proof on_raise_arith as Ha. raise_auto. Qed.

Lemma on_raise_quad2 p i : on_raise fsq (c_quad2 dbg_mem p i).
Proof. unfold c_quad2. raise_auto. Qed.

Lemma on_raise_exec_c i : on_raise fsq (riscv_exec_c dbg_mem i).
Proof.
  unfold riscv_exec_c. pose proof on_raise_quad0. pose proof on_raise_quad1. pose proof on_raise_quad2. raise_auto.
Qed.
End exec.

(** ** The step *)

Section step.
Context {Ops Dev W : Type} `{BusDevices Ops Dev W}.
Variable dbg_mem : bool.
Implicit Types m : Mach Ops Dev W.
#[local] Hint Resolve pres_getpc : pres.

Lemma pres_fetch : pres quiet (fetch dbg_mem).
Proof. unfold fetch. pose proof (pres_mem_load dbg_mem) as Hl. pres_auto. Qed.

(** A register bank that differs from [g] at most in x0. *)
Definition x0_only (g g' : list Z) : Prop := g' = g \/ g' = arr_set g 0 0.

Lemma x0_only_get g g' i : x0_only g g' -> 0 < i -> arr g' i = arr g i.
Proof. intros [->| ->] Hi; [done|]. apply arr_set_ne; lia. Qed.

Lemma step_body_raise m :
  wp (step_body dbg_mem) (fun _ _ => True)
     (fun _ m1 => exists g, x0_only (gpr (cpu m)) g /\ fs_quiet (m <| cpu := (cpu m) <| gpr := g |> |>) m1)
     (fun _ => True) m.
Proof.
  assert (Hq : forall m1, quiet m m1 -> exists g, x0_only (gpr (cpu m)) g /\
    fs_quiet (m <| cpu := (cpu m) <| gpr := g |> |>) m1).
  { intros m1 Hm. exists (gpr (cpu m)). split; [by left|]. apply quiet_fs_quiet.
    by destruct m as [[] r b w]. }
  unfold step_body. eapply (wp_frame quiet); [apply pres_fetch| |auto|done].
  intros [i len] m1 H1. apply wp_gets. eapply (wp_frame quiet); [apply pres_TriggerCheck, _| | |done].
  2: { intros t m2 H2. apply Hq. by etrans. }
  intros _ m2 H2. assert (H12 : quiet m m2) by (by etrans). clear H1 H2 m1.
  apply wp_bind. unfold wp at 1, setx, modcpu, modify.
  set (m3 := m2 <| cpu := (cpu m2) <| gpr := arr_set (gpr (cpu m2)) 0 0 |> |>).
  assert (Hp : forall {A} (p : M (Mach Ops Dev W) A), on_raise fs_quiet p ->
    wp p (fun _ _ => True) (fun _ m4 => exists g, x0_only (gpr (cpu m)) g /\
       fs_quiet (m <| cpu := (cpu m) <| gpr := g |> |>) m4) (fun _ => True) m3).
  { intros A p Hp. eapply wp_mono; [| | |apply (Hp m3)]; [done| |done]. cbv beta. intros t m4 H4.
    exists (arr_set (gpr (cpu m)) 0 0). split; [by right|].
    etrans; [|exact H4]. apply quiet_fs_quiet. unfold m3.
    destruct H12 as [(h & x & Hc) (e & tl & c & Hr) Hb Hw]. split; rsimpl; [|by eauto|done|done].
    exists h, x. rewrite Hc. done. }
  apply Hp. apply on_raise_last; [|intros ?; no_raise_auto].
  case_match; [apply on_raise_exec_c|apply on_raise_exec_inst].
Qed.

(** C1: traps are precise. When the instruction of a step raises, the step still completes on the
    landing pad: x1..x31, every floating-point register, the sleep flag and the instruction count
    are those before the instruction, and the CSR file is that before the instruction (up to the
    interrupt lines the devices drove, the translation cache and a possibly dirtied mstatus.FS) with
    exactly the architectural trap entry applied at the old pc and the gdb trap record bumped. *)
Theorem step_trap_precise m t m1 :
  step_body dbg_mem m = Raised t m1 ->
  exists m' e tl clk st,
    landing_pad (step_body dbg_mem) m = Done tt m' /\
    (forall i, 0 < i -> arr (gpr (cpu m')) i = arr (gpr (cpu m)) i) /\
    fpr (cpu m') = fpr (cpu m) /\ wait (cpu m') = wait (cpu m) /\ inst_count (cpu m') = inst_count (cpu m) /\
    st &~ kMstatusFs = mstatus (rs m) &~ kMstatusFs /\
    let s0 := (rs m) <| ext_irq := e |> <| tlb := tl |> <| tlb_clock := clk |> <| mstatus := st |> in
    let '(v, s1) := riscv_trap (pc (cpu m)) (trap_cause t) (trap_tval t) s0 in
    pc (cpu m') = v /\
    rs m' = s1 <| trap_seq := u64 (trap_seq (rs m) + 1) |> <| trap_signal := GdbTrapSignal (trap_cause t) |>.
Proof.
  intros E. pose proof (step_body_raise m) as Hw. eapply wp_raised in Hw; [|exact E].
  destruct Hw as (g & Hg & [(h & x & Hc) (e & tl & clk & st & Hr & Hst) _ _]). rsimpl in Hc. rsimpl in Hr.
  exists (take_trap t m1), e, tl, clk, st. unfold landing_pad. rewrite E.
  assert (Hseq : forall s : RiscvState Dev, trap_seq (riscv_trap (pc (cpu m)) (trap_cause t) (trap_tval t) s).2 = trap_seq s).
  { intros s. unfold riscv_trap. by case_match. }
  unfold take_trap. rewrite Hr, Hc. rsimpl.
  specialize (Hseq ((rs m) <| ext_irq := e |> <| tlb := tl |> <| tlb_clock := clk |> <| mstatus := st |>)).
  destruct (riscv_trap _ _ _ _) as [v s1]. cbn [snd] in Hseq. rsimpl in Hseq. split_and!; try done; rsimpl.
  - intros i Hi. by apply x0_only_get.
  - by rewrite Hseq.
Qed.
End step.
