(* ===== verification/RvFast.v ===== *)
(** * The direct host path is the bus path

    A load or store to a page the translation cache knows as plain RAM skips
    the bus and copies host bytes.  Turning the shortcut off (as memory
    debugging does) gives the same value, the same memory and the same
    faults. *)

From S2P Require Import Prelude Bus Ram RvState RvCsr RvCsrProps RvMmu RvFrame RvMmuProps RvWalk RvFp RvExec RvPrecise.

Lemma leaf_paddr_offset level pte vaddr pa : leaf_paddr level pte vaddr = Some pa -> pa .& 0xfff = vaddr .& 0xfff.
Proof.
  assert (Hlow : forall x, u64 (x .<< 12) .& 0xfff = 0).
  { intros x. change 0xfff with (2 ^ 12 - 1). rewrite land_ones_wrap by lia. unfold wrap.
    rewrite Z.shiftl_mul_pow2 by lia. replace (2 ^ 64) with (2 ^ 12 * 2 ^ 52) by reflexivity.
    rewrite Z.mul_comm, Z.mul_mod_distr_l by lia. rewrite Z.mul_comm. apply Z.mod_mul. lia. }
  unfold leaf_paddr. destruct (Z.ltb_spec 0 level).
  - destruct (tst _ _); [done|]. intros [= <-]. rewrite Z.land_lor_distr_l, Hlow, Z.lor_0_l, <- Z.land_assoc. f_equal.
    rewrite Z.land_comm, land_ones_wrap by lia. apply wrap_small. split; [lia|].
    assert (2 ^ 12 <= 2 ^ (12 + 9 * level)) by (apply Z.pow_le_mono_r; lia). lia.
  - intros [= <-]. rewrite Z.land_lor_distr_l, Hlow, Z.lor_0_l, <- Z.land_assoc. done.
Qed.

Section fast.
Context {Ops Dev W : Type} `{BusDevices Ops Dev W} {bus0 : Bus Ops Dev} `{!BusDevicesOk Ops Dev W bus0}.
Implicit Types m : Mach Ops Dev W.

(** Every cached host page is what the bus says of its physical page. *)
Definition tlb_hosts m : Prop :=
  Forall (fun e => forall h, te_host e = Some h -> BusRamPage (bus m) (te_pbase e) = Some h) (tlb (rs m)).

Lemma RamPage_regions (b b' : Bus Ops Dev) a : bus_regions b' = bus_regions b -> BusRamPage b' a = BusRamPage b a.
Proof. intros E. unfold BusRamPage. by rewrite E. Qed.

Lemma tlb_lookup_in (s : RiscvState Dev) eff vpn acc e :
  tlb_ok s -> tlb_lookup s eff vpn acc = Some e -> e ∈ tlb s.
Proof.
  intros [Hl _] He. pose proof (tlb_set_range vpn acc) as Hr.
  assert (Hin : forall w, 0 <= w <= 1 -> tlb_way s vpn acc w ∈ tlb s).
  { intros w Hw. unfold tlb_way, arr. apply list_elem_of_lookup_total_2. unfold kTlbWays. lia. }
  unfold tlb_lookup in He. repeat case_match; simplify_eq; apply Hin; lia.
Qed.

(** What a successful translation says about the host page it returns. *)
Lemma translate_host m vaddr size acc pa h m1 :
  tlb_ok (rs m) -> tlb_hosts m -> RiscvTranslate vaddr size acc m = Done (pa, Some h) m1 ->
  BusRamPage (bus m1) (pa &~ 0xfff) = Some h /\ pa .& 0xfff = vaddr .& 0xfff /\
  bus_regions (bus m1) = bus_regions (bus m) /\ (bus_wf (bus m) -> bus_wf (bus m1)) /\
  tlb_ok (rs m1) /\ tlb_hosts m1.
Proof.
  intros Hok Hh E. unfold RiscvTranslate in E. cbv beta delta [mbind' getrs gets] iota in E.
  destruct (_ || _).
  { destruct (negb _); [done|]. unfold getS, mret' in E. simplify_eq. split_and!; done. }
  destruct (tlb_lookup _ _ _ _) as [e|] eqn:El.
  - unfold mret' in E. simplify_eq. pose proof (tlb_lookup_some _ _ _ _ _ Hok El) as Hb.
    pose proof (tlb_lookup_in _ _ _ _ _ Hok El) as Hin.
    unfold tlb_hosts in Hh. rewrite Forall_forall in Hh. split_and!; try done.
    + replace ((te_pbase e .| (vaddr .& 0xfff)) &~ 0xfff) with (te_pbase e); [by apply Hh|].
      rewrite <- Hb at 1. zbits.
    + rewrite <- Hb. zbits.
    + by apply Forall_forall.
  - apply translate_walk_done in E as (m2 & Hq & -> & Hpage & level & pte & Hpa).
    pose proof (dquiet_tlb_ok _ _ Hq Hok) as Hok2. destruct Hq as [_ [irq Hrs] Hreg Hwf].
    rsimpl. split_and!; try done.
    + by eapply leaf_paddr_offset.
    + by apply tlb_fill_ok.
    + unfold tlb_hosts in *. rsimpl. unfold tlb_fill. destruct (tlb_victim _ _ _) as [w clk]. rsimpl.
      apply Forall_arr_set.
      * rewrite Hrs. eapply Forall_impl; [exact Hh|]. simpl. intros e He h' Hh'.
        rewrite (RamPage_regions (bus m)) by done. auto.
      * simpl. intros h' [= <-]. by symmetry.
Qed.

(** The host byte behind a page offset is the byte the bus decodes. *)
Lemma host_page_bus m vaddr pa size h :
  bus_regions (bus m) = bus_regions bus0 -> bus_wf (bus m) -> 0 <= pa < 2 ^ 64 - 4096 -> 0 < size ->
  page_fits vaddr size = true -> pa .& 0xfff = vaddr .& 0xfff ->
  BusRamPage (bus m) (pa &~ 0xfff) = Some h ->
  exists r h0, decode_spec (bus m) pa size = Some r /\ r_host r = Some h0 /\ host_at h0 r pa = host_byte h vaddr.
Proof.
  intros Hreg Hwf Hpa Hs Hfit Hoff Hpage. unfold page_fits in Hfit. apply Z.leb_le in Hfit.
  assert (Hsplit : pa = (pa &~ 0xfff) + (pa .& 0xfff)).
  { rewrite Z.add_nocarry_lxor by zbits. zbits. }
  assert (Hlow : 0 <= pa .& 0xfff < 4096).
  { change 0xfff with (2 ^ 12 - 1). rewrite land_ones_wrap by lia. by apply rng_wrap. }
  assert (0 <= pa &~ 0xfff) by (apply Z.ldiff_nonneg; left; lia).
  destruct (BusRamPage_decode (bus m) (pa &~ 0xfff) h pa size) as (r & h0 & Hf & Hh0 & Hblk & Hpos);
    [done|lia..|done|lia|lia|lia|].
  rewrite FindRegion_decode in Hf by (done || lia). exists r, h0. split_and!; [done|done|].
  unfold host_at, host_byte. f_equal; [done|]. lia.
Qed.

(** Same result up to the decode cache. *)
Definition same_upto_cache {A} (x y : outcome (Mach Ops Dev W) A) : Prop :=
  match x, y with
  | Done a m1, Done b m2 => a = b /\ at_bus m1 (world m1) m2
  | Raised t m1, Raised u m2 => t = u /\ m1 = m2
  | Aborted r, Aborted r' => r = r'
  | _, _ => False
  end.

Lemma same_refl {A} (x : outcome (Mach Ops Dev W) A) :
  (forall a m, x = Done a m -> bus_wf (bus m)) -> same_upto_cache x x.
Proof. destruct x; simpl; [|done..]. intros Hw. split; [done|]. apply at_bus_refl. eauto. Qed.

Lemma wp_wf {A} (p : M (Mach Ops Dev W) A) m a m' : pres quiet p -> bus_wf (bus m) -> p m = Done a m' -> bus_wf (bus m').
Proof. intros Hp Hw E. specialize (Hp m). unfold wp in Hp. rewrite E in Hp. by apply Hp. Qed.

(** Both paths of a load after the translation. *)
Lemma load_paths m vaddr size acc pa h m1 :
  bus_regions (bus m) = bus_regions bus0 -> bus_wf (bus m) -> tlb_ok (rs m) -> tlb_hosts m ->
  0 < size <= 8 -> 0 <= pa < 2 ^ 64 - 4096 -> page_fits vaddr size = true ->
  RiscvTranslate vaddr size acc m = Done (pa, Some h) m1 ->
  same_upto_cache (gets (fun m => host_load (host_byte h vaddr) size (world m)) m1) (bus_load vaddr pa size acc m1).
Proof.
  intros Hreg Hwf Hok Hh Hs Hpa Hfit E.
  destruct (translate_host _ _ _ _ _ _ _ Hok Hh E) as (Hpage & Hoff & Hreg1 & Hwf1 & _).
  specialize (Hwf1 Hwf).
  destruct (host_page_bus m1 vaddr pa size h) as (r & h0 & Hd & Hh0 & Hat); [congruence|done|done|lia|done..|].
  unfold bus_load, mbind'. destruct (probe_decode m1 pa size Hwf1) as (m2 & -> & H2); [lia..|].
  destruct (at_bus_wf _ _ _ H2) as (Hwf2 & Hreg2 & _ & _ & Hw2). rewrite Hd.
  destruct (bus_read_ram (bus0:=bus0) m2 pa size r h0) as (m3 & -> & H3); try done; try lia;
    [congruence|by rewrite (decode_regions (bus m1))|].
  rewrite Hw2, Hat in *. simpl. split; [done|]. by eapply at_bus_trans.
Qed.

Lemma store_paths m vaddr size v pa h m1 :
  bus_regions (bus m) = bus_regions bus0 -> bus_wf (bus m) -> tlb_ok (rs m) -> tlb_hosts m ->
  0 < size <= 8 -> 0 <= pa < 2 ^ 64 - 4096 -> page_fits vaddr size = true ->
  RiscvTranslate vaddr size acc_write m = Done (pa, Some h) m1 ->
  same_upto_cache (modify (fun m => m <| world := host_store (host_byte h vaddr) size v (world m) |>) m1)
                  (bus_store vaddr pa size v m1).
Proof.
  intros Hreg Hwf Hok Hh Hs Hpa Hfit E.
  destruct (translate_host _ _ _ _ _ _ _ Hok Hh E) as (Hpage & Hoff & Hreg1 & Hwf1 & _).
  specialize (Hwf1 Hwf).
  destruct (host_page_bus m1 vaddr pa size h) as (r & h0 & Hd & Hh0 & Hat); [congruence|done|done|lia|done..|].
  unfold bus_store, mbind'. destruct (probe_decode m1 pa size Hwf1) as (m2 & -> & H2); [lia..|].
  destruct (at_bus_wf _ _ _ H2) as (Hwf2 & Hreg2 & _ & _ & Hw2). rewrite Hd.
  destruct (bus_write_ram (bus0:=bus0) m2 pa size v r h0) as (m3 & -> & H3); try done; try lia;
    [congruence|by rewrite (decode_regions (bus m1))|].
  rewrite Hw2, Hat in *. simpl. split; [done|].
  destruct (at_bus_trans _ _ _ _ _ H2 H3) as (b & Hb & Hbw & ->). by exists b.
Qed.

(** The physical addresses an access may reach: not the last page. *)
Definition below_top m (vaddr size : Z) (acc : acc_class) : Prop :=
  forall pa h m1, RiscvTranslate vaddr size acc m = Done (pa, h) m1 -> 0 <= pa < 2 ^ 64 - 4096.

Lemma trigger_cases m op addr :
  (exists t, RiscvTriggerCheck op addr m = Raised t m) \/ RiscvTriggerCheck op addr m = Done tt m \/
  exists r, RiscvTriggerCheck op addr m = Aborted r.
Proof.
  unfold RiscvTriggerCheck, Fire. cbv beta delta [mbind' getrs gets] iota.
  unfold raise_, throw, abort, mret'. repeat case_match; simplify_eq; eauto.
Qed.

(** C3: the direct host access is equivalent to the bus access: for every load and store not on the
    last physical page, running with the host-pointer shortcut and running through the bus (as
    memory debugging forces) give the same value, the same memory and the same fault, up to the bus
    decode cache, provided the cached host pages are what the bus says of them. *)
Theorem mem_fast_path m vaddr size acc v :
  bus_regions (bus m) = bus_regions bus0 -> bus_wf (bus m) -> tlb_ok (rs m) -> tlb_hosts m -> 0 < size <= 8 ->
  (below_top m vaddr size acc ->
   same_upto_cache (riscv_mem_load false vaddr size acc m) (riscv_mem_load true vaddr size acc m)) /\
  (below_top m vaddr size acc_write ->
   same_upto_cache (riscv_mem_store false vaddr size v m) (riscv_mem_store true vaddr size v m)).
Proof.
  intros Hreg Hwf Hok Hh Hs. split; intros Htop.
  - assert (Hwf' : forall d a m', riscv_mem_load d vaddr size acc m = Done a m' -> bus_wf (bus m')).
    { intros d a m' E. eapply wp_wf; [apply pres_mem_load|done|exact E]. }
    specialize (Hwf' true). revert Hwf'. unfold riscv_mem_load. unfold mbind' at 1 3 5.
    set (chk := if negb _ then _ else _).
    assert (Hc : (exists t, chk m = Raised t m) \/ chk m = Done tt m \/ exists r, chk m = Aborted r).
    { unfold chk. case_match; [apply trigger_cases|]. by right; left. }
    destruct Hc as [[t ->]|[->|[r ->]]]; [done| |done].
    unfold mbind'. destruct (RiscvTranslate vaddr size acc m) as [[pa [h|]] m1|t m1|r] eqn:E; [|simpl| |]; cbn [fst snd].
    + rewrite andb_true_r, andb_false_r. specialize (Htop _ _ _ E).
      destruct (page_fits vaddr size) eqn:Hfit; [|apply same_refl]. intros _. by eapply load_paths.
    + apply same_refl.
    + done.
    + done.
  - assert (Hwf' : forall d a m', riscv_mem_store d vaddr size v m = Done a m' -> bus_wf (bus m')).
    { intros d a m' E. eapply wp_wf; [apply pres_mem_store|done|exact E]. }
    specialize (Hwf' true). revert Hwf'. unfold riscv_mem_store. unfold mbind' at 1 3 5.
    destruct (trigger_cases m kTrigOpStore vaddr) as [[t ->]|[->|[r ->]]]; [done| |done].
    unfold mbind'. destruct (RiscvTranslate vaddr size acc_write m) as [[pa [h|]] m1|t m1|r] eqn:E; [|simpl| |]; cbn [fst snd].
    + rewrite andb_true_r, andb_false_r. specialize (Htop _ _ _ E).
      destruct (page_fits vaddr size) eqn:Hfit; [|apply same_refl]. intros _. by eapply store_paths.
    + apply same_refl.
    + done.
    + done.
Qed.
End fast.
