(* ===== verification/Clint.v ===== *)
(** * Core-local interruptor (device/timer/clint.c)

    Software interrupt, timer compare and the machine timer scaled from the
    host clock.  Host clock readings are arguments, one per call of
    [HostTimerNow]; interrupt line changes are returned as (line, level)
    pairs in order. *)

From S2P Require Import Prelude.

Definition kClintLineMsip := 0.
Definition kClintLineMtip := 1.
Definition kClintOffMsip := 0x0.
Definition kClintOffMtimecmp := 0x4000.
Definition kClintOffMtime := 0xBFF8.

Record ClintDevice := mkClint {
  cl_base : Z;
  cl_msip : Z;
  cl_mtimecmp : Z;
  cl_mtime0 : Z;
  cl_host0 : Z;
  cl_timebase_hz : Z;
}.
Definition eta_clint (c : ClintDevice) : ClintDevice :=
  mkClint (cl_base c) (cl_msip c) (cl_mtimecmp c) (cl_mtime0 c) (cl_host0 c) (cl_timebase_hz c).
#[export] Instance upd_cl_msip : Upd cl_msip := ltac:(mk_upd eta_clint cl_msip).
#[export] Instance upd_cl_mtimecmp : Upd cl_mtimecmp := ltac:(mk_upd eta_clint cl_mtimecmp).
#[export] Instance upd_cl_mtime0 : Upd cl_mtime0 := ltac:(mk_upd eta_clint cl_mtime0).
#[export] Instance upd_cl_host0 : Upd cl_host0 := ltac:(mk_upd eta_clint cl_host0).

(** The line changes a call makes. *)
Definition irq_out := list (Z * bool).

Definition sub_mask (size : Z) : Z := if 8 <=? size then 2 ^ 64 - 1 else (1 .<< (size * 8)) - 1.

Definition SubRead64 (v off size : Z) : Z := (v .>> (off * 8)) .& sub_mask size.

Definition SubWrite64 (old off size val : Z) : Z :=
  (old &~ u64 (sub_mask size .<< (off * 8))) .| u64 ((val .& sub_mask size) .<< (off * 8)).

Definition ClintInit (base timebase_hz now : Z) : ClintDevice :=
  mkClint base 0 (2 ^ 64 - 1) 0 now timebase_hz.

Definition ClintMtime (c : ClintDevice) (now : Z) : Z :=
  u64 (cl_mtime0 c + u64 (u64 (now - cl_host0 c) * cl_timebase_hz c) / 1000000).

Definition UpdateMtip (c : ClintDevice) (now : Z) : irq_out :=
  [(kClintLineMtip, cl_mtimecmp c <=? ClintMtime c now)].

Definition ClintPoll (c : ClintDevice) (now : Z) : irq_out := UpdateMtip c now.

Definition UpdateMsip (c : ClintDevice) : irq_out := [(kClintLineMsip, Z.testbit (cl_msip c) 0)].

(** [addr] lies in the [len] bytes at offset [off]. *)
Definition in_window (c : ClintDevice) (off len addr : Z) : bool :=
  (cl_base c + off <=? addr) && (addr <? cl_base c + off + len).

Definition ClintRead (c : ClintDevice) (addr size now : Z) : Z :=
  if in_window c kClintOffMsip 4 addr then cl_msip c .& 1
  else if in_window c kClintOffMtimecmp 8 addr then
    SubRead64 (cl_mtimecmp c) (addr - (cl_base c + kClintOffMtimecmp)) size
  else if in_window c kClintOffMtime 8 addr then
    SubRead64 (ClintMtime c now) (addr - (cl_base c + kClintOffMtime)) size
  else 0.

(** [t1], [t2], [t3]: the clock readings a write makes, in order. *)
Definition ClintWrite (c : ClintDevice) (addr size val t1 t2 t3 : Z) : ClintDevice * irq_out :=
  if in_window c kClintOffMsip 4 addr then
    let c := c <| cl_msip := u32 (val .& 1) |> in (c, UpdateMsip c)
  else if in_window c kClintOffMtimecmp 8 addr then
    let c := c <| cl_mtimecmp := SubWrite64 (cl_mtimecmp c) (addr - (cl_base c + kClintOffMtimecmp)) size val |> in
    (c, UpdateMtip c t1)
  else if in_window c kClintOffMtime 8 addr then
    let m := SubWrite64 (ClintMtime c t1) (addr - (cl_base c + kClintOffMtime)) size val in
    let c := c <| cl_mtime0 := m |> <| cl_host0 := t2 |> in
    (c, UpdateMtip c t3)
  else (c, []).

(** ** Partial accesses *)

(** Byte [k] of a word. *)
Definition byte_at (v k : Z) : Z := (v .>> (8 * k)) .& 0xff.

Lemma sub_mask_ones size : 0 < size <= 8 -> sub_mask size = Z.ones (8 * size).
Proof.
  intros. unfold sub_mask. destruct (Z.leb_spec 8 size).
  - replace size with 8 by lia. done.
  - rewrite Z.shiftl_1_l, Z.ones_equiv, Z.mul_comm. lia.
Qed.

Lemma sub_mask_bit size n : 0 < size <= 8 -> 0 <= n -> Z.testbit (sub_mask size) n = (n <? 8 * size).
Proof.
  intros. rewrite sub_mask_ones, Z.testbit_ones by lia.
  destruct (Z.leb_spec 0 n); [done|lia].
Qed.

Lemma SubWrite64_bit old off size val n :
  0 <= off < 8 -> 0 < size <= 8 -> 0 <= n < 64 ->
  Z.testbit (SubWrite64 old off size val) n =
    if (8 * off <=? n) && (n <? 8 * (off + size)) then Z.testbit val (n - 8 * off) else Z.testbit old n.
Proof.
  intros Ho Hs Hn. unfold SubWrite64.
  rewrite Z.lor_spec, Z.ldiff_spec, !wrap_testbit, !Z.shiftl_spec by lia.
  replace (n <? 64) with true by (symmetry; apply Z.ltb_lt; lia). rewrite !andb_true_l.
  destruct (Z.leb_spec (8 * off) n).
  - rewrite Z.land_spec, sub_mask_bit by lia.
    destruct (Z.ltb_spec (n - off * 8) (8 * size)), (Z.ltb_spec n (8 * (off + size))); try lia; simpl;
      autorewrite with zbool; [f_equal; lia|done].
  - rewrite !(Z.testbit_neg_r _ (n - off * 8)) by lia. simpl. by rewrite orb_false_r, andb_true_r.
Qed.

Lemma byte_at_bit v k n : 0 <= k -> 0 <= n -> Z.testbit (byte_at v k) n = (n <? 8) && Z.testbit v (8 * k + n).
Proof.
  intros. unfold byte_at. change 0xff with (2 ^ 8 - 1). rewrite land_ones_wrap, wrap_testbit by lia.
  rewrite Z.shiftr_spec by lia. do 2 f_equal. lia.
Qed.

(** A sub-word write to a 64-bit CLINT register reads back at the same offset and size, and replaces
    exactly the bytes it covers. *)
Theorem clint_subaccess old off size val :
  0 <= off -> 0 < size -> off + size <= 8 ->
  SubRead64 (SubWrite64 old off size val) off size = wrap (8 * size) val /\
  forall k, 0 <= k < 8 -> byte_at (SubWrite64 old off size val) k =
    if (off <=? k) && (k <? off + size) then byte_at val (k - off) else byte_at old k.
Proof.
  intros Ho Hs He. split.
  - apply Z.bits_inj'; intros n Hn. unfold SubRead64.
    rewrite Z.land_spec, Z.shiftr_spec, sub_mask_bit, wrap_testbit by lia.
    destruct (Z.ltb_spec n (8 * size)); rewrite ?andb_false_r; [|done]. rewrite andb_true_r, SubWrite64_bit by lia.
    destruct (Z.leb_spec (8 * off) (n + off * 8)), (Z.ltb_spec (n + off * 8) (8 * (off + size))); try lia.
    simpl. f_equal. lia.
  - intros k Hk. destruct ((off <=? k) && (k <? off + size)) eqn:E; apply Z.bits_inj'; intros n Hn.
    + apply andb_true_iff in E as [E1%Z.leb_le E2%Z.ltb_lt]. rewrite !byte_at_bit by lia.
      destruct (Z.ltb_spec n 8); [|done]. simpl. rewrite SubWrite64_bit by lia.
      destruct (Z.leb_spec (8 * off) (8 * k + n)), (Z.ltb_spec (8 * k + n) (8 * (off + size))); try lia.
      simpl. f_equal. lia.
    + rewrite !byte_at_bit by lia. destruct (Z.ltb_spec n 8); [|done]. simpl. rewrite SubWrite64_bit by lia.
      apply andb_false_iff in E as [E%Z.leb_gt|E%Z.ltb_ge];
      destruct (Z.leb_spec (8 * off) (8 * k + n)), (Z.ltb_spec (8 * k + n) (8 * (off + size))); try lia; done.
Qed.

Lemma clint_subaccess_witness :
  SubRead64 (SubWrite64 (2 ^ 64 - 1) 4 4 0x12345678) 4 4 = wrap 32 0x12345678.
Proof. apply (clint_subaccess (2 ^ 64 - 1) 4 4 0x12345678); lia. Defined.

(** ** The timer *)

(** No intermediate product overflows for [d] microseconds of uptime. *)
Definition clock_fits (c : ClintDevice) (now : Z) : Prop :=
  cl_host0 c <= now < 2 ^ 64 /\ 0 <= cl_host0 c /\ 0 <= cl_timebase_hz c /\ 0 <= cl_mtime0 c /\
  (now - cl_host0 c) * cl_timebase_hz c < 2 ^ 64 /\
  cl_mtime0 c + (now - cl_host0 c) * cl_timebase_hz c / 1000000 < 2 ^ 64.

Lemma ClintMtime_exact c now : clock_fits c now ->
  ClintMtime c now = cl_mtime0 c + (now - cl_host0 c) * cl_timebase_hz c / 1000000.
Proof.
  intros (? & ? & ? & ? & ? & ?). unfold ClintMtime.
  rewrite (wrap_small 64 (now - _)) by (unfold rng; lia).
  rewrite (wrap_small 64 (_ * _)) by (unfold rng; nia).
  apply wrap_small. split; [|done].
  assert (0 <= (now - cl_host0 c) * cl_timebase_hz c / 1000000) by (apply Z.div_pos; nia). lia.
Qed.

Lemma ClintMtime_mono c t now : clock_fits c t -> clock_fits c now -> t <= now -> ClintMtime c t <= ClintMtime c now.
Proof.
  intros H1 H2 Hle. rewrite !ClintMtime_exact by done. destruct H1 as (_ & _ & ? & _).
  apply Z.add_le_mono_l, Z.div_le_mono; [lia|]. nia.
Qed.

Lemma SubWrite64_full old val : rng 64 old -> rng 64 val -> SubWrite64 old 0 8 val = val.
Proof.
  intros Ho Hv. apply Z.bits_inj'; intros n Hn. destruct (Z.lt_ge_cases n 64).
  - rewrite SubWrite64_bit by lia. change (8 * 0) with 0. rewrite Z.sub_0_r.
    destruct (Z.leb_spec 0 n), (Z.ltb_spec n (8 * (0 + 8))); (done || lia).
  - assert (Hr : rng 64 (SubWrite64 old 0 8 val)) by (unfold SubWrite64; rng).
    apply rng_testbit in Hr as [_ Hr]; [|lia]. apply rng_testbit in Hv as [_ Hv]; [|lia].
    by rewrite Hr, Hv.
Qed.

(** A 64-bit mtimecmp write stores the value and drives MTIP to whether mtime has reached it; with a
    clock that does not overflow, mtime is monotone and a raised MTIP stays raised at every later
    poll. *)
Theorem clint_timer c val t1 t2 t3 now :
  0 <= cl_base c -> rng 64 (cl_mtimecmp c) -> rng 64 val ->
  clock_fits c t1 -> clock_fits c now -> t1 <= now ->
  let '(c', irqs) := ClintWrite c (cl_base c + kClintOffMtimecmp) 8 val t1 t2 t3 in
  cl_mtimecmp c' = val /\
  irqs = [(kClintLineMtip, val <=? cl_mtime0 c + (t1 - cl_host0 c) * cl_timebase_hz c / 1000000)] /\
  ClintMtime c' t1 <= ClintMtime c' now /\
  (ClintPoll c' t1 = [(kClintLineMtip, true)] -> ClintPoll c' now = [(kClintLineMtip, true)]).
Proof.
  intros Hb Hold Hv H1 H2 Hle. unfold ClintWrite, in_window. set (addr := cl_base c + kClintOffMtimecmp).
  destruct (Z.ltb_spec addr (cl_base c + kClintOffMsip + 4)); [unfold addr, kClintOffMsip, kClintOffMtimecmp in *; lia|].
  rewrite andb_false_r.
  destruct (Z.leb_spec addr addr), (Z.ltb_spec addr (addr + 8)); try lia. simpl andb. cbv iota.
  rewrite Z.sub_diag, SubWrite64_full by done. cbv zeta. split; [done|].
  pose proof (ClintMtime_mono c t1 now H1 H2 Hle) as Hm. split_and!.
  - unfold UpdateMtip. change (ClintMtime _ t1) with (ClintMtime c t1). by rewrite ClintMtime_exact.
  - exact Hm.
  - unfold ClintPoll, UpdateMtip. simpl. change (ClintMtime _ t1) with (ClintMtime c t1).
    change (ClintMtime _ now) with (ClintMtime c now). intros [= E]. apply Z.leb_le in E.
    by rewrite (proj2 (Z.leb_le _ _)) by lia.
Qed.

Lemma clint_timer_witness :
  let '(c', irqs) := ClintWrite (ClintInit 0x2000000 10000000 1000) (0x2000000 + kClintOffMtimecmp) 8 50 1004 1005 1006 in
  irqs = [(kClintLineMtip, false)] /\ cl_mtimecmp c' = 50 /\ ClintPoll c' 1006 = [(kClintLineMtip, true)].
Proof.
  pose proof (clint_timer (ClintInit 0x2000000 10000000 1000) 50 1004 1005 1006 1006) as H.
  assert (Hf : forall t, 1000 <= t <= 2000 -> clock_fits (ClintInit 0x2000000 10000000 1000) t).
  { intros t Ht. unfold clock_fits, ClintInit; cbn [cl_host0 cl_timebase_hz cl_mtime0]. rewrite Z.add_0_l. split_and!; try lia.
    apply Z.div_lt_upper_bound; lia. }
  destruct (ClintWrite _ _ _ _ _ _ _) as [c' irqs] eqn:E.
  destruct H as (H1 & H2 & H3 & H4); [simpl; lia|simpl; unfold rng; lia|unfold rng; lia|apply Hf; lia|apply Hf; lia|lia|].
  split; [rewrite H2; vm_compute; reflexivity|]. split; [exact H1|].
  vm_compute in E. injection E as <- <-. reflexivity.
Defined.
