(* ===== verification/Plic.v ===== *)
(** * Platform-level interrupt controller (device/intc/plic.c)

    95 sources, two contexts.  The register file, the claim algorithm and
    the output lines; line changes are returned as (context, level) pairs. *)

From S2P Require Import Prelude.

Definition kPlicNumSrc : nat := 95.
Definition kPlicNumCtx := 2.
Definition kPlicNumWords := 3.
Definition kPlicOffPending := 0x001000.
Definition kPlicOffEnable := 0x002000.
Definition kPlicEnableStride := 0x80.
Definition kPlicOffContext := 0x200000.
Definition kPlicContextStride := 0x1000.

Record PlicDevice := mkPlic {
  pl_base : Z;
  pl_priority : list Z;
  pl_pending : list Z;
  pl_enable : list (list Z);
  pl_threshold : list Z;
}.
Definition eta_plic (p : PlicDevice) : PlicDevice :=
  mkPlic (pl_base p) (pl_priority p) (pl_pending p) (pl_enable p) (pl_threshold p).
#[export] Instance upd_pl_priority : Upd pl_priority := ltac:(mk_upd eta_plic pl_priority).
#[export] Instance upd_pl_pending : Upd pl_pending := ltac:(mk_upd eta_plic pl_pending).
#[export] Instance upd_pl_enable : Upd pl_enable := ltac:(mk_upd eta_plic pl_enable).
#[export] Instance upd_pl_threshold : Upd pl_threshold := ltac:(mk_upd eta_plic pl_threshold).

Definition PlicInit (base : Z) : PlicDevice :=
  mkPlic base (replicate 96 0) (replicate 3 0) (replicate 2 (replicate 3 0)) (replicate 2 0).

(** Bit of [src] in its word. *)
Definition src_bit (ws : list Z) (src : Z) : bool := Z.testbit (arr ws (src / 32)) (src mod 32).

(** Pending, enabled for the context, and above its threshold. *)
Definition claimable (p : PlicDevice) (ctx src : Z) : bool :=
  src_bit (pl_pending p) src && src_bit (arr (pl_enable p) ctx) src &&
  (arr (pl_threshold p) ctx <? arr (pl_priority p) src).

(** Sources 1..95. *)
Definition kPlicSources : list Z := Z.of_nat <$> seq 1 kPlicNumSrc.

Definition plic_line (p : PlicDevice) (ctx : Z) : bool := existsb (claimable p ctx) kPlicSources.

Definition UpdateOutput (p : PlicDevice) : list (Z * bool) := (fun ctx => (ctx, plic_line p ctx)) <$> [0; 1].

Definition set_src_bit (ws : list Z) (src : Z) (level : bool) : list Z :=
  let w := arr ws (src / 32) in
  arr_set ws (src / 32) (if level then w .| (1 .<< (src mod 32)) else w &~ (1 .<< (src mod 32))).

Definition PlicDeviceIrq (p : PlicDevice) (src : Z) (level : bool) : PlicDevice * list (Z * bool) :=
  if (src <? 1) || (Z.of_nat kPlicNumSrc <? src) then (p, [])
  else let p := p <| pl_pending := set_src_bit (pl_pending p) src level |> in (p, UpdateOutput p).

(** The claim scan: [(best, best_prio)] over the sources in order. *)
Definition claim_step (p : PlicDevice) (ctx : Z) (acc : Z * Z) (src : Z) : Z * Z :=
  if negb (src_bit (pl_pending p) src) || negb (src_bit (arr (pl_enable p) ctx) src) then acc
  else if arr (pl_priority p) src <=? arr (pl_threshold p) ctx then acc
  else if (acc.1 =? 0) || (acc.2 <? arr (pl_priority p) src) then (src, arr (pl_priority p) src) else acc.

Definition Claim (p : PlicDevice) (ctx : Z) : Z := (fold_left (claim_step p ctx) kPlicSources (0, 0)).1.

Definition ReadWord (p : PlicDevice) (off : Z) : Z * PlicDevice * list (Z * bool) :=
  if off <? kPlicOffPending then
    let src := off / 4 in
    (if (1 <=? src) && (src <=? Z.of_nat kPlicNumSrc) then arr (pl_priority p) src else 0, p, [])
  else if off <? kPlicOffEnable then
    let word := (off - kPlicOffPending) / 4 in
    (if word <? kPlicNumWords then arr (pl_pending p) word else 0, p, [])
  else if off <? kPlicOffContext then
    let rel := off - kPlicOffEnable in
    let ctx := rel / kPlicEnableStride in
    let widx := (rel mod kPlicEnableStride) / 4 in
    (if (ctx <? kPlicNumCtx) && (widx <? kPlicNumWords) then arr (arr (pl_enable p) ctx) widx else 0, p, [])
  else
    let rel := off - kPlicOffContext in
    let ctx := rel / kPlicContextStride in
    let field := (rel mod kPlicContextStride) / 4 in
    if ctx <? kPlicNumCtx then
      if field =? 0 then (arr (pl_threshold p) ctx, p, [])
      else if field =? 1 then
        let src := Claim p ctx in
        if negb (src =? 0) then
          let p := p <| pl_pending := set_src_bit (pl_pending p) src false |> in (src, p, UpdateOutput p)
        else (src, p, [])
      else (0, p, [])
    else (0, p, []).

Definition WriteWord (p : PlicDevice) (off val : Z) : PlicDevice * list (Z * bool) :=
  if off <? kPlicOffPending then
    let src := off / 4 in
    (if (1 <=? src) && (src <=? Z.of_nat kPlicNumSrc)
     then p <| pl_priority := arr_set (pl_priority p) src (val .& 7) |> else p, [])
  else if (kPlicOffEnable <=? off) && (off <? kPlicOffContext) then
    let rel := off - kPlicOffEnable in
    let ctx := rel / kPlicEnableStride in
    let widx := (rel mod kPlicEnableStride) / 4 in
    let p := if (ctx <? kPlicNumCtx) && (widx <? kPlicNumWords)
             then p <| pl_enable := arr_set (pl_enable p) ctx (arr_set (arr (pl_enable p) ctx) widx val) |> else p in
    (p, UpdateOutput p)
  else if kPlicOffContext <=? off then
    let rel := off - kPlicOffContext in
    let ctx := rel / kPlicContextStride in
    let field := (rel mod kPlicContextStride) / 4 in
    let p := if (ctx <? kPlicNumCtx) && (field =? 0)
             then p <| pl_threshold := arr_set (pl_threshold p) ctx val |> else p in
    (p, UpdateOutput p)
  else (p, []).

Definition PlicRead (p : PlicDevice) (addr size : Z) : Z * PlicDevice * list (Z * bool) :=
  let off := u64 (addr - pl_base p) in
  let '(v, p, o) := ReadWord p (off &~ 3) in
  if (4 <? size) && tst off 4 then
    let '(v2, p, o2) := ReadWord p (u64 ((off &~ 3) + 4)) in (v .| (v2 .<< 32), p, o ++ o2)
  else (v, p, o).

Definition PlicWrite (p : PlicDevice) (addr size val : Z) : PlicDevice * list (Z * bool) :=
  let off := u64 (addr - pl_base p) in
  let '(p, o) := WriteWord p (off &~ 3) (u32 val) in
  if (4 <? size) && tst off 4 then
    let '(p, o2) := WriteWord p (u64 ((off &~ 3) + 4)) (u32 (val .>> 32)) in (p, o ++ o2)
  else (p, o).

(** ** Invariant *)

Record plic_ok (p : PlicDevice) : Prop := {
  po_prio : length (pl_priority p) = 96%nat /\ Forall (fun v => 0 <= v <= 7) (pl_priority p);
  po_pend : length (pl_pending p) = 3%nat;
  po_en : length (pl_enable p) = 2%nat /\ Forall (fun l => length l = 3%nat) (pl_enable p);
  po_thr : length (pl_threshold p) = 2%nat;
}.

Lemma PlicInit_ok base : plic_ok (PlicInit base).
Proof. split; simpl; repeat first [split | constructor]; (done || lia). Qed.

Lemma WriteWord_ok p off val : plic_ok p -> plic_ok (WriteWord p off val).1.
Proof.
  intros [[Hl Hp] H2 [H3 H3'] H4]. unfold WriteWord.
  destruct (off <? _); [|destruct (_ && _); [|destruct (_ <=? off)]]; cbn [fst]; try done; try (case_match; cbn [fst]; try done);
    split; simpl; rewrite ?length_arr_set; try done.
  - split; [done|]. apply Forall_arr_set; [done|]. change 7 with (2 ^ 3 - 1). rewrite land_ones_wrap by lia.
    pose proof (rng_wrap 3 val ltac:(lia)) as [? ?]. lia.
  - split; [done|]. unfold arr_set at 1.
    destruct (decide (Z.to_nat ((off - kPlicOffEnable) / kPlicEnableStride) < 2)%nat) as [Hlt|Hge].
    + apply Forall_insert; [done|]. rewrite length_arr_set. unfold arr.
      apply (Forall_lookup_total_1 (fun l : list Z => length l = 3%nat) (pl_enable p)); [done|lia].
    + by rewrite list_insert_ge by lia.
Qed.

Lemma ReadWord_ok p off : plic_ok p -> plic_ok (ReadWord p off).1.2.
Proof.
  intros [? ? ? ?]. unfold ReadWord. repeat case_match; cbn [fst snd]; try (split; done).
  split; simpl; try done. unfold set_src_bit. by rewrite length_arr_set.
Qed.

Lemma PlicDeviceIrq_ok p src level : plic_ok p -> plic_ok (PlicDeviceIrq p src level).1.
Proof.
  intros [? ? ? ?]. unfold PlicDeviceIrq. case_match; [split; done|].
  split; simpl; try done. unfold set_src_bit. by rewrite length_arr_set.
Qed.

(** ** Claim *)

(** The running maximum of the scan. *)
Definition best_of (p : PlicDevice) (ctx : Z) (l : list Z) (acc : Z * Z) : Prop :=
  (acc = (0, 0) /\ Forall (fun s => claimable p ctx s = false) l) \/
  (exists pre post, l = pre ++ acc.1 :: post /\ claimable p ctx acc.1 = true /\
     acc.2 = arr (pl_priority p) acc.1 /\
     Forall (fun s => claimable p ctx s = true -> arr (pl_priority p) s < acc.2) pre /\
     Forall (fun s => claimable p ctx s = true -> arr (pl_priority p) s <= acc.2) post).

Lemma claim_step_claimable p ctx acc src :
  claim_step p ctx acc src =
  if claimable p ctx src then
    if (acc.1 =? 0) || (acc.2 <? arr (pl_priority p) src) then (src, arr (pl_priority p) src) else acc
  else acc.
Proof.
  unfold claim_step, claimable.
  destruct (src_bit (pl_pending p) src), (src_bit (arr (pl_enable p) ctx) src); simpl; try done.
  destruct (Z.leb_spec (arr (pl_priority p) src) (arr (pl_threshold p) ctx)),
    (Z.ltb_spec (arr (pl_threshold p) ctx) (arr (pl_priority p) src)); (done || lia).
Qed.

Lemma claim_fold p ctx l :
  Forall (fun s => s <> 0) l -> best_of p ctx l (fold_left (claim_step p ctx) l (0, 0)).
Proof.
  induction l as [|s l IH] using rev_ind; intros Hnz; [by left|].
  apply Forall_app in Hnz as [Hnz Hs]. apply Forall_cons in Hs as [Hs _].
  rewrite fold_left_app. cbn [fold_left]. specialize (IH Hnz).
  set (acc := fold_left _ l _) in *. clearbody acc. rewrite claim_step_claimable.
  destruct (claimable p ctx s) eqn:Ec.
  - destruct IH as [[-> Hf]|(pre & post & -> & Hc & Hp & Hpre & Hpost)].
    + simpl. right. exists l, []. split_and!; [done..| |constructor].
      eapply Forall_impl; [exact Hf|]. simpl. intros. congruence.
    + assert (acc.1 <> 0) by (apply Forall_app in Hnz as [_ Hn]; by apply Forall_cons in Hn as [? _]).
      destruct (Z.eqb_spec acc.1 0); [done|]. simpl.
      destruct (Z.ltb_spec acc.2 (arr (pl_priority p) s)) as [Hlt|Hge].
      * right. exists (pre ++ acc.1 :: post), []. split_and!; [done..| |constructor]. simpl.
        apply Forall_app. split; [|constructor].
        -- eapply Forall_impl; [exact Hpre|]. simpl. intros x Hx Hcx. specialize (Hx Hcx). lia.
        -- intros _. lia.
        -- eapply Forall_impl; [exact Hpost|]. simpl. intros x Hx Hcx. specialize (Hx Hcx). lia.
      * right. exists pre, (post ++ [s]). split_and!; [by rewrite <- app_assoc|done..|].
        apply Forall_app. split; [done|]. constructor; [intros _; lia|constructor].
  - destruct IH as [[-> Hf]|(pre & post & -> & Hc & Hp & Hpre & Hpost)].
    + left. split; [done|]. apply Forall_app. split; [done|]. by repeat constructor.
    + right. exists pre, (post ++ [s]). split_and!; [by rewrite <- app_assoc|done..|].
      apply Forall_app. split; [done|]. constructor; [congruence|constructor].
Qed.

Lemma kPlicSources_in src : In src kPlicSources <-> 1 <= src <= 95.
Proof.
  unfold kPlicSources. rewrite <- list_elem_of_In, list_elem_of_fmap. split.
  - intros (n & -> & Hn%elem_of_seq). unfold kPlicNumSrc in Hn. lia.
  - intros Hs. exists (Z.to_nat src). split; [lia|]. apply elem_of_seq. unfold kPlicNumSrc. lia.
Qed.

Lemma kPlicSources_nz : Forall (fun s => s <> 0) kPlicSources.
Proof. apply Forall_forall. intros s Hs%list_elem_of_In%kPlicSources_in. lia. Qed.

(** The sources of the list are in increasing order. *)
Lemma kPlicSources_sorted pre s post : kPlicSources = pre ++ s :: post -> Forall (fun x => s < x) post.
Proof.
  intros E. apply Forall_forall. intros x [i Hi]%list_elem_of_lookup.
  assert (H1 : kPlicSources !! length pre = Some s) by (rewrite E; by apply list_lookup_middle).
  assert (H2 : kPlicSources !! (length pre + S i)%nat = Some x).
  { rewrite E, lookup_app_r by lia. by replace (length pre + S i - length pre)%nat with (S i) by lia. }
  unfold kPlicSources in H1, H2. rewrite list_lookup_fmap in H1, H2.
  apply fmap_Some in H1 as (a & [-> _]%lookup_seq & ->), H2 as (b & [-> _]%lookup_seq & ->). lia.
Qed.

(** The interrupt a context should be offered: none, or the claimable source
    of highest priority, lowest id among equals. *)
Definition claim_spec (p : PlicDevice) (ctx src : Z) : Prop :=
  (src = 0 /\ forall s, 1 <= s <= 95 -> claimable p ctx s = false) \/
  (1 <= src <= 95 /\ claimable p ctx src = true /\
   forall s, 1 <= s <= 95 -> claimable p ctx s = true ->
     arr (pl_priority p) s < arr (pl_priority p) src \/
     arr (pl_priority p) s = arr (pl_priority p) src /\ src <= s).

Lemma Claim_spec p ctx : claim_spec p ctx (Claim p ctx).
Proof.
  unfold Claim. destruct (claim_fold p ctx kPlicSources kPlicSources_nz) as [[-> Hf]|(pre & post & E & Hc & Hp & Hpre & Hpost)].
  - left. split; [done|]. intros s Hs. rewrite Forall_forall in Hf. apply Hf.
    by apply list_elem_of_In, kPlicSources_in.
  - right. set (acc := fold_left _ _ _) in *. clearbody acc.
    assert (Hin : In acc.1 kPlicSources) by (rewrite E; apply in_elt).
    split; [by apply kPlicSources_in|]. split; [done|]. intros s Hs Hcs. rewrite <- Hp.
    apply kPlicSources_in in Hs. rewrite E in Hs. apply in_app_iff in Hs as [Hs|[<-|Hs]].
    + rewrite Forall_forall in Hpre. left. apply Hpre; [by apply list_elem_of_In|done].
    + right. lia.
    + rewrite Forall_forall in Hpost. specialize (Hpost s (proj2 (list_elem_of_In _ _) Hs) Hcs).
      pose proof (kPlicSources_sorted _ _ _ E) as Hso. rewrite Forall_forall in Hso.
      specialize (Hso s (proj2 (list_elem_of_In _ _) Hs)). simpl in *. lia.
Qed.

Lemma plic_line_claim p ctx : plic_line p ctx = true <-> Claim p ctx <> 0.
Proof.
  unfold plic_line. rewrite existsb_exists. destruct (Claim_spec p ctx) as [[-> Hn]|(Hr & Hc & _)].
  - split; [|done]. intros (s & Hs%kPlicSources_in & Hc). by rewrite Hn in Hc.
  - split; [lia|]. intros _. exists (Claim p ctx). split; [by apply kPlicSources_in|done].
Qed.

(** *** Clearing the pending bit *)

Lemma src_bit_clear ws src s :
  0 <= src -> 0 <= s -> (s / 32 < Z.of_nat (length ws)) -> (src / 32 < Z.of_nat (length ws)) ->
  src_bit (set_src_bit ws src false) s = if s =? src then false else src_bit ws s.
Proof.
  intros H1 H2 Hl Hl'. unfold src_bit, set_src_bit.
  pose proof (Z.div_mod s 32 ltac:(lia)) as E1. pose proof (Z.div_mod src 32 ltac:(lia)) as E2.
  pose proof (Z.mod_pos_bound s 32 ltac:(lia)). pose proof (Z.mod_pos_bound src 32 ltac:(lia)).
  assert (0 <= s / 32) by (apply Z.div_pos; lia). assert (0 <= src / 32) by (apply Z.div_pos; lia).
  destruct (Z.eq_dec (s / 32) (src / 32)) as [Ew|Ew].
  - rewrite Ew, arr_set_eq by lia. rewrite Z.ldiff_spec, Z.shiftl_1_l, Z.pow2_bits_eqb by lia.
    destruct (Z.eqb_spec s src) as [->|Hne].
    + rewrite Z.eqb_refl. simpl. apply andb_false_r.
    + destruct (Z.eqb_spec (src mod 32) (s mod 32)); [lia|]. simpl. by rewrite andb_true_r.
  - rewrite arr_set_ne by lia. destruct (Z.eqb_spec s src) as [->|]; [done|done].
Qed.

(** The claim register of a context. *)
Definition claim_off (ctx : Z) : Z := kPlicOffContext + ctx * kPlicContextStride + 4.

Lemma claim_read p ctx : 0 <= ctx < 2 ->
  ReadWord p (claim_off ctx) =
  let src := Claim p ctx in
  if negb (src =? 0) then
    let p' := p <| pl_pending := set_src_bit (pl_pending p) src false |> in (src, p', UpdateOutput p')
  else (src, p, []).
Proof.
  intros Hc. unfold ReadWord, claim_off.
  assert (ctx = 0 \/ ctx = 1) as [-> | ->] by lia; reflexivity.
Qed.

(** A PLIC claim returns the highest-priority claimable source of the context (lowest number on
    ties), or 0 exactly when the context's line is low; it clears that source's pending bit and no
    other, and drives both lines to their new levels. *)
Theorem plic_claim p ctx :
  plic_ok p -> 0 <= ctx < 2 ->
  let '(src, p', irqs) := ReadWord p (claim_off ctx) in
  claim_spec p ctx src /\ (src <> 0 <-> plic_line p ctx = true) /\
  (forall c s, 1 <= s <= 95 -> s <> src -> claimable p' c s = claimable p c s) /\
  (src <> 0 -> claimable p' ctx src = false /\ irqs = [(0, plic_line p' 0); (1, plic_line p' 1)]) /\
  (src = 0 -> p' = p /\ irqs = []).
Proof.
  intros Hok Hctx. rewrite claim_read by done. cbv zeta. pose proof (Claim_spec p ctx) as Hs.
  pose proof (plic_line_claim p ctx) as Hl. destruct (Z.eqb_spec (Claim p ctx) 0) as [E|E]; cbn [negb].
  - rewrite E in *. split_and!; [done| |done|done|done]. rewrite Hl. tauto.
  - destruct Hs as [[? _]|Hs]; [done|]. pose proof Hs as (Hr & _ & _).
    assert (Hdiv : forall s, 1 <= s <= 95 -> s / 32 < Z.of_nat (length (pl_pending p))).
    { intros s Hs'. rewrite (po_pend _ Hok). apply Z.div_lt_upper_bound; lia. }
    assert (Hcl : forall c s, 1 <= s <= 95 ->
      claimable (p <| pl_pending := set_src_bit (pl_pending p) (Claim p ctx) false |>) c s =
      if s =? Claim p ctx then false else claimable p c s).
    { intros c s Hs'. unfold claimable; simpl. rewrite src_bit_clear by (auto with lia || lia).
      by destruct (s =? Claim p ctx). }
    split_and!; [by right|tauto| | |done].
    + intros c s Hs' Hne. rewrite Hcl by done. by apply Z.eqb_neq in Hne as ->.
    + intros _. split; [|done]. by rewrite Hcl, Z.eqb_refl.
Qed.

(** Everything that changes the controller. *)
Inductive plic_step : PlicDevice -> PlicDevice -> Prop :=
| pls_read p addr size : plic_step p (PlicRead p addr size).1.2
| pls_write p addr size val : plic_step p (PlicWrite p addr size val).1
| pls_irq p src level : plic_step p (PlicDeviceIrq p src level).1.

Lemma plic_step_ok p p' : plic_step p p' -> plic_ok p -> plic_ok p'.
Proof.
  intros Hst Hok. destruct Hst as [p addr size|p addr size val|p src level].
  - unfold PlicRead. pose proof (ReadWord_ok p (u64 (addr - pl_base p) &~ 3) Hok) as H1.
    destruct (ReadWord _ _) as [[v p1] o]. simpl in H1. case_match; [|done].
    pose proof (ReadWord_ok p1 (u64 ((u64 (addr - pl_base p) &~ 3) + 4)) H1) as H2.
    by destruct (ReadWord p1 _) as [[v2 p2] o2].
  - unfold PlicWrite. pose proof (WriteWord_ok p (u64 (addr - pl_base p) &~ 3) (u32 val) Hok) as H1.
    destruct (WriteWord _ _ _) as [p1 o]. simpl in H1. case_match; [|done].
    pose proof (WriteWord_ok p1 (u64 ((u64 (addr - pl_base p) &~ 3) + 4)) (u32 (val .>> 32)) H1) as H2.
    by destruct (WriteWord p1 _ _).
  - by apply PlicDeviceIrq_ok.
Qed.

Lemma plic_rtc_ok p p' : rtc plic_step p p' -> plic_ok p -> plic_ok p'.
Proof. induction 1; eauto using plic_step_ok. Qed.

(** Every PLIC state reachable from reset by bus reads, writes and device lines keeps its arrays at
    their sizes and its words within 32 bits. *)
Theorem plic_reachable_ok base p : rtc plic_step (PlicInit base) p -> plic_ok p.
Proof. intros H. eapply plic_rtc_ok; [exact H|apply PlicInit_ok]. Qed.

(** Source 10 at priority 3 and source 33 at priority 5, pending and enabled
    for context 1. *)
Definition plic_ex : PlicDevice :=
  let p := PlicInit 0xc000000 in
  let p := (PlicWrite p (0xc000000 + 4 * 10) 4 3).1 in
  let p := (PlicWrite p (0xc000000 + 4 * 33) 4 5).1 in
  let p := (PlicWrite p (0xc000000 + 0x2080) 4 (2 ^ 10)).1 in
  let p := (PlicWrite p (0xc000000 + 0x2084) 4 2).1 in
  let p := (PlicDeviceIrq p 10 true).1 in
  (PlicDeviceIrq p 33 true).1.

Lemma plic_ex_reach : rtc plic_step (PlicInit 0xc000000) plic_ex.
Proof. unfold plic_ex. repeat (eapply rtc_r; [|first [apply pls_irq | apply pls_write]]). apply rtc_refl. Qed.

Lemma plic_reachable_ok_witness : plic_ok plic_ex.
Proof. apply (plic_reachable_ok 0xc000000). exact plic_ex_reach. Defined.

Lemma plic_ex_ok : plic_ok plic_ex.
Proof. eapply plic_rtc_ok; [exact plic_ex_reach|apply PlicInit_ok]. Qed.

Lemma plic_claim_witness :
  let '(src, p', irqs) := ReadWord plic_ex (claim_off 1) in
  src = 33 /\ claimable p' 1 10 = true /\ irqs = [(0, false); (1, true)].
Proof.
  pose proof (plic_claim plic_ex 1 plic_ex_ok ltac:(lia)) as H.
  destruct (ReadWord plic_ex (claim_off 1)) as [[src p'] irqs] eqn:E.
  destruct H as (_ & _ & Hk & _ & _).
  assert (Hs : src = 33) by (vm_compute in E; injection E as <- <- <-; reflexivity).
  split; [exact Hs|]. split.
  - rewrite Hk; [vm_compute; reflexivity|lia|lia].
  - vm_compute in E. injection E as <- <- <-. reflexivity.
Defined.

(** A PLIC priority write does not re-evaluate the outputs: in some reachable-shape state the
    context's line should drop after the write and no level is driven. *)
Theorem plic_priority_write_stale :
  exists p off val, plic_ok p /\ off < kPlicOffPending /\ plic_line p 1 = true /\
    plic_line (WriteWord p off val).1 1 = false /\ (WriteWord p off val).2 = [].
Proof.
  exists ((WriteWord plic_ex (4 * 10) 0).1), (4 * 33), 0.
  split; [apply WriteWord_ok, plic_ex_ok|]. vm_compute. by split_and!.
Qed.
