(* ===== verification/Uart.v ===== *)
(** * 16550 UART (device/char/uart16550.c)

    The register file, the 16-byte receiver ring with its character timeout,
    loopback, and the level interrupt.  Calls return the line levels and
    transmitted bytes they produce, in order; [now] is the host clock
    reading. *)

From S2P Require Import Prelude.

Definition kIerErbfi := 1.
Definition kIerEtbei := 2.
Definition kIerElsi := 4.
Definition kIerEdssi := 8.
Definition kIerMask := 0x0f.
Definition kIirMsi := 0x00.
Definition kIirThri := 0x02.
Definition kIirRdi := 0x04.
Definition kIirLsri := 0x06.
Definition kIirCti := 0x0c.
Definition kIirNoInt := 0x01.
Definition kIirFifoBits := 0xc0.
Definition kFcrEnable := 1.
Definition kFcrClearRx := 2.
Definition kLcrSbc := 64.
Definition kLcrDlab := 128.
Definition kLsrDr := 1.
Definition kLsrOe := 2.
Definition kLsrBi := 16.
Definition kLsrThre := 32.
Definition kLsrTemt := 64.
Definition kLsrErr := 0x1e.
Definition kMcrDtr := 1.
Definition kMcrRts := 2.
Definition kMcrOut1 := 4.
Definition kMcrOut2 := 8.
Definition kMcrLoop := 16.
Definition kMsrDcts := 1.
Definition kMsrDdsr := 2.
Definition kMsrTeri := 4.
Definition kMsrDdcd := 8.
Definition kMsrCts := 16.
Definition kMsrDsr := 32.
Definition kMsrRi := 64.
Definition kMsrDcd := 128.
Definition kMsrDelta := 0x0f.
Definition kRxFifoSize := 16.
Definition kTimeoutChars := 4.
Definition kBaudBase := 115200.
Definition kTriggerLevels : list Z := [1; 4; 8; 14].

Record Uart16550 := mkUart {
  u_ier : Z;
  u_iir : Z;
  u_lcr : Z;
  u_mcr : Z;
  u_msr : Z;
  u_scr : Z;
  u_fcr : Z;
  u_lsr : Z;
  u_divider : Z;
  rx_fifo : list Z;
  rx_head : Z;
  rx_tail : Z;
  rx_count : Z;
  rx_trigger : Z;
  rx_timeout_armed : bool;
  rx_timeout_at : Z;
  rx_timeout_ip : bool;
  thr_ip : bool;
}.
Definition eta_uart (u : Uart16550) : Uart16550 :=
  mkUart (u_ier u) (u_iir u) (u_lcr u) (u_mcr u) (u_msr u) (u_scr u) (u_fcr u) (u_lsr u) (u_divider u) (rx_fifo u)
    (rx_head u) (rx_tail u) (rx_count u) (rx_trigger u) (rx_timeout_armed u) (rx_timeout_at u) (rx_timeout_ip u)
    (thr_ip u).
#[export] Instance upd_u_ier : Upd u_ier := ltac:(mk_upd eta_uart u_ier).
#[export] Instance upd_u_iir : Upd u_iir := ltac:(mk_upd eta_uart u_iir).
#[export] Instance upd_u_lcr : Upd u_lcr := ltac:(mk_upd eta_uart u_lcr).
#[export] Instance upd_u_mcr : Upd u_mcr := ltac:(mk_upd eta_uart u_mcr).
#[export] Instance upd_u_msr : Upd u_msr := ltac:(mk_upd eta_uart u_msr).
#[export] Instance upd_u_scr : Upd u_scr := ltac:(mk_upd eta_uart u_scr).
#[export] Instance upd_u_fcr : Upd u_fcr := ltac:(mk_upd eta_uart u_fcr).
#[export] Instance upd_u_lsr : Upd u_lsr := ltac:(mk_upd eta_uart u_lsr).
#[export] Instance upd_u_divider : Upd u_divider := ltac:(mk_upd eta_uart u_divider).
#[export] Instance upd_rx_fifo : Upd rx_fifo := ltac:(mk_upd eta_uart rx_fifo).
#[export] Instance upd_rx_head : Upd rx_head := ltac:(mk_upd eta_uart rx_head).
#[export] Instance upd_rx_tail : Upd rx_tail := ltac:(mk_upd eta_uart rx_tail).
#[export] Instance upd_rx_count : Upd rx_count := ltac:(mk_upd eta_uart rx_count).
#[export] Instance upd_rx_trigger : Upd rx_trigger := ltac:(mk_upd eta_uart rx_trigger).
#[export] Instance upd_rx_timeout_armed : Upd rx_timeout_armed := ltac:(mk_upd eta_uart rx_timeout_armed).
#[export] Instance upd_rx_timeout_at : Upd rx_timeout_at := ltac:(mk_upd eta_uart rx_timeout_at).
#[export] Instance upd_rx_timeout_ip : Upd rx_timeout_ip := ltac:(mk_upd eta_uart rx_timeout_ip).
#[export] Instance upd_thr_ip : Upd thr_ip := ltac:(mk_upd eta_uart thr_ip).

Inductive uart_ev := UIrq (level : bool) | UTx (ch : Z).

(** ** Operations *)

Definition CharTimeUs (u : Uart16550) : Z :=
  let div := if u_divider u =? 0 then 1 else u_divider u in 10 * div * 1000000 / kBaudBase.

Definition RefreshLsr (u : Uart16550) : Uart16550 :=
  u <| u_lsr := (u_lsr u .& kLsrErr) .| (if 0 <? rx_count u then kLsrDr else 0) .| (kLsrThre .| kLsrTemt) |>.

(** The pending source of highest priority. *)
Definition iir_source (u : Uart16550) : Z :=
  if tst (u_ier u) kIerElsi && tst (u_lsr u) kLsrErr then kIirLsri
  else if tst (u_ier u) kIerErbfi && tst (u_lsr u) kLsrDr &&
          (negb (tst (u_fcr u) kFcrEnable) || (rx_trigger u <=? rx_count u)) then kIirRdi
  else if tst (u_ier u) kIerErbfi && rx_timeout_ip u then kIirCti
  else if tst (u_ier u) kIerEtbei && thr_ip u then kIirThri
  else if tst (u_ier u) kIerEdssi && tst (u_msr u) kMsrDelta then kIirMsi
  else kIirNoInt.

Definition UpdateIrq (u : Uart16550) : Uart16550 * list uart_ev :=
  let iir := iir_source u in
  (u <| u_iir := u8 (iir .| (if tst (u_fcr u) kFcrEnable then kIirFifoBits else 0)) |>,
   [UIrq (negb (iir =? kIirNoInt))]).

Definition delta (cur old line bit : Z) : Z := if tst (cur .^ old) line then bit else 0.

Definition UpdateMsr (u : Uart16550) : Uart16550 * list uart_ev :=
  let inp := if tst (u_mcr u) kMcrLoop then
      (if tst (u_mcr u) kMcrDtr then kMsrDsr else 0) .| (if tst (u_mcr u) kMcrRts then kMsrCts else 0) .|
      (if tst (u_mcr u) kMcrOut1 then kMsrRi else 0) .| (if tst (u_mcr u) kMcrOut2 then kMsrDcd else 0)
    else 0 in
  let inp := inp .| delta inp (u_msr u) kMsrCts kMsrDcts in
  let inp := inp .| delta inp (u_msr u) kMsrDsr kMsrDdsr in
  let inp := inp .| delta inp (u_msr u) kMsrRi kMsrTeri in
  let inp := inp .| delta inp (u_msr u) kMsrDcd kMsrDdcd in
  UpdateIrq (u <| u_msr := u8 (inp .| (u_msr u .& kMsrDelta)) |>).

Definition PushRx (u : Uart16550) (ch now : Z) : Uart16550 * list uart_ev :=
  let u := if kRxFifoSize <=? rx_count u then u <| u_lsr := u_lsr u .| kLsrOe |>
           else u <| rx_fifo := arr_set (rx_fifo u) (rx_head u) ch |>
                  <| rx_head := (rx_head u + 1) mod kRxFifoSize |> <| rx_count := rx_count u + 1 |> in
  let u := RefreshLsr u in
  let u := if tst (u_fcr u) kFcrEnable
           then u <| rx_timeout_armed := true |> <| rx_timeout_at := now + CharTimeUs u * kTimeoutChars |>
           else u in
  UpdateIrq u.

Definition uart_zero : Uart16550 :=
  mkUart 0 0 0 0 0 0 0 0 0 (replicate 16 0) 0 0 0 0 false 0 false false.

Definition Uart16550Init : Uart16550 * list uart_ev :=
  let u := uart_zero <| rx_trigger := 1 |> <| thr_ip := true |> in
  let u := RefreshLsr u in
  let '(u, e1) := UpdateMsr u in
  let '(u, e2) := UpdateIrq u in
  (u, e1 ++ e2).

Definition Uart16550Read (u : Uart16550) (off : Z) : Z * Uart16550 * list uart_ev :=
  switch off
  [ (0, if tst (u_lcr u) kLcrDlab then (u8 (u_divider u .& 0xff), u, [])
        else
          let '(v, u) := if 0 <? rx_count u
            then (arr (rx_fifo u) (rx_tail u),
                  u <| rx_tail := (rx_tail u + 1) mod kRxFifoSize |> <| rx_count := rx_count u - 1 |>)
            else (0, u) in
          let u := RefreshLsr (u <| rx_timeout_ip := false |> <| rx_timeout_armed := false |>) in
          let '(u, e) := UpdateIrq u in (v, u, e));
    (1, (if tst (u_lcr u) kLcrDlab then u8 (u_divider u .>> 8) else u_ier u, u, []));
    (2, let '(u', e) := UpdateIrq (u <| thr_ip := false |>) in (u_iir u, u', e));
    (3, (u_lcr u, u, []));
    (4, (u_mcr u, u, []));
    (5, let '(u', e) := UpdateIrq (u <| u_lsr := u_lsr u &~ kLsrErr |>) in (u_lsr u, u', e));
    (6, let '(u', e) := UpdateIrq (u <| u_msr := u_msr u &~ kMsrDelta |>) in (u_msr u, u', e)) ]
  (u_scr u, u, []).

Definition Uart16550Write (u : Uart16550) (off val now : Z) : Uart16550 * list uart_ev :=
  switch off
  [ (0, let '(u, e) :=
          if tst (u_lcr u) kLcrDlab then (u <| u_divider := (u_divider u .& 0xff00) .| val |>, [])
          else if tst (u_mcr u) kMcrLoop then PushRx u val now
          else (u, [UTx val]) in
        let '(u, e') := UpdateIrq (u <| thr_ip := true |>) in (u, e ++ e'));
    (1, if tst (u_lcr u) kLcrDlab then (u <| u_divider := (u_divider u .& 0x00ff) .| (val .<< 8) |>, [])
        else UpdateIrq (u <| u_ier := val .& kIerMask |>));
    (2, let u := u <| u_fcr := val |> in
        let u := if tst val kFcrClearRx
                 then u <| rx_count := 0 |> <| rx_head := 0 |> <| rx_tail := 0 |> <| rx_timeout_armed := false |>
                        <| rx_timeout_ip := false |> <| u_lsr := u_lsr u &~ kLsrErr |>
                 else u in
        UpdateIrq (RefreshLsr (u <| rx_trigger := arr kTriggerLevels ((val .>> 6) .& 3) |>)));
    (3, let u := u <| u_lcr := val |> in
        let u := if tst val kLcrSbc then u <| u_lsr := u_lsr u .| kLsrBi |>
                 else u <| u_lsr := u_lsr u &~ kLsrBi |> in
        UpdateIrq (RefreshLsr u));
    (4, UpdateMsr (u <| u_mcr := val |>));
    (5, (u, []));
    (6, (u, [])) ]
  (u <| u_scr := val |>, []).

Definition Uart16550Receive (u : Uart16550) (ch now : Z) : Uart16550 * list uart_ev :=
  if tst (u_mcr u) kMcrLoop then (u, []) else PushRx u (u8 ch) now.

Definition Uart16550Poll (u : Uart16550) (now : Z) : Uart16550 * list uart_ev :=
  if negb (rx_timeout_armed u) || (now <? rx_timeout_at u) then (u, [])
  else
    let u := u <| rx_timeout_armed := false |> in
    if 0 <? rx_count u then UpdateIrq (u <| rx_timeout_ip := true |>) else (u, []).

Definition UartRead (u : Uart16550) (addr : Z) : Z * Uart16550 * list uart_ev := Uart16550Read u (addr .& 7).
Definition UartWrite (u : Uart16550) (addr val now : Z) : Uart16550 * list uart_ev :=
  Uart16550Write u (addr .& 7) (u8 val) now.

(** ** Runs of the device *)

(** What the bus, the host's input stream and the board's service loop do. *)
Inductive uart_op :=
| ORead (addr : Z)
| OWrite (addr val now : Z)
| OReceive (ch now : Z)
| OPoll (now : Z).

Definition uart_exec (u : Uart16550) (op : uart_op) : Z * Uart16550 * list uart_ev :=
  match op with
  | ORead addr => UartRead u addr
  | OWrite addr val now => let '(u, e) := UartWrite u addr val now in (0, u, e)
  | OReceive ch now => let '(u, e) := Uart16550Receive u ch now in (0, u, e)
  | OPoll now => let '(u, e) := Uart16550Poll u now in (0, u, e)
  end.

(** The level of the interrupt line after a list of events. *)
Definition line_after (line : bool) (evs : list uart_ev) : bool :=
  fold_left (fun l e => match e with UIrq b => b | UTx _ => l end) evs line.

Inductive uart_reach : Uart16550 -> bool -> Prop :=
| uart_reach_init u e : Uart16550Init = (u, e) -> uart_reach u (line_after false e)
| uart_reach_step u line op v u' e :
    uart_reach u line -> uart_exec u op = (v, u', e) -> uart_reach u' (line_after line e).

(** ** The receiver as a queue *)

(** The bytes waiting in the ring, oldest first. *)
Definition rx_queue (u : Uart16550) : list Z :=
  (fun k => arr (rx_fifo u) ((rx_tail u + Z.of_nat k) mod 16)) <$> seq 0 (Z.to_nat (rx_count u)).

Record ring_ok (u : Uart16550) : Prop := {
  ro_fifo : length (rx_fifo u) = 16%nat;
  ro_tail : 0 <= rx_tail u < 16;
  ro_count : 0 <= rx_count u <= 16;
  ro_head : rx_head u = (rx_tail u + rx_count u) mod 16;
}.

(** A full queue drops the byte. *)
Definition enqueue (q : list Z) (ch : Z) : list Z := if (length q <? 16)%nat then q ++ [ch] else q.

Definition dlab (u : Uart16550) : bool := tst (u_lcr u) kLcrDlab.
Definition loopback (u : Uart16550) : bool := tst (u_mcr u) kMcrLoop.

(** The effect of an operation on the queue. *)
Definition queue_step (u : Uart16550) (op : uart_op) (q : list Z) : list Z :=
  match op with
  | ORead addr => if (addr mod 8 =? 0) && negb (dlab u) then tail q else q
  | OWrite addr val _ =>
      if (addr mod 8 =? 0) && negb (dlab u) && loopback u then enqueue q (u8 val)
      else if (addr mod 8 =? 2) && Z.testbit val 1 then []
      else q
  | OReceive ch _ => if loopback u then q else enqueue q (u8 ch)
  | OPoll _ => q
  end.

Lemma length_rx_queue u : ring_ok u -> Z.of_nat (length (rx_queue u)) = rx_count u.
Proof. intros [_ _ ? _]. unfold rx_queue. rewrite length_fmap, length_seq. lia. Qed.

(** The ring operations. *)
Definition ring_same (u u' : Uart16550) : Prop :=
  rx_fifo u' = rx_fifo u /\ rx_head u' = rx_head u /\ rx_tail u' = rx_tail u /\ rx_count u' = rx_count u.

#[export] Instance ring_same_preorder : PreOrder ring_same.
Proof. split; [by intros u|]. unfold ring_same. intros u1 u2 u3 (?&?&?&?) (?&?&?&?). split_and!; congruence. Qed.

Lemma ring_same_ok u u' : ring_same u u' -> ring_ok u -> ring_ok u' /\ rx_queue u' = rx_queue u.
Proof.
  intros (Ef & Eh & Et & Ec) [? ? ? ?]. split; [|unfold rx_queue; by rewrite Ef, Et, Ec].
  constructor; rewrite ?Ef, ?Eh, ?Et, ?Ec; done.
Qed.

Lemma UpdateIrq_same u : ring_same u (UpdateIrq u).1.
Proof. by unfold ring_same. Qed.

Lemma UpdateMsr_same u : ring_same u (UpdateMsr u).1.
Proof. by unfold ring_same. Qed.

Lemma RefreshLsr_same u : ring_same u (RefreshLsr u).
Proof. by unfold ring_same. Qed.

(** Storing at the head appends. *)
Lemma ring_push u ch :
  ring_ok u -> rx_count u < 16 ->
  let u' := u <| rx_fifo := arr_set (rx_fifo u) (rx_head u) ch |>
              <| rx_head := (rx_head u + 1) mod kRxFifoSize |> <| rx_count := rx_count u + 1 |> in
  ring_ok u' /\ rx_queue u' = rx_queue u ++ [ch].
Proof.
  intros [Hl Ht Hc Hh] Hlt u'.
  assert (Hh' : 0 <= rx_head u < 16) by (rewrite Hh; apply Z.mod_pos_bound; lia).
  split.
  - constructor; unfold u'; cbn; [by rewrite length_arr_set|done|lia|].
    rewrite Hh. unfold kRxFifoSize. rewrite Zplus_mod_idemp_l. f_equal. lia.
  - unfold rx_queue, u'. cbn. replace (Z.to_nat (rx_count u + 1)) with (Z.to_nat (rx_count u) + 1)%nat by lia.
    rewrite seq_app, fmap_app. f_equal.
    + apply list_fmap_ext. intros i k Hk. apply lookup_seq in Hk as [-> Hk].
      apply arr_set_ne; [lia|apply Z.mod_pos_bound; lia|]. rewrite Hh. intros E.
      assert (((rx_tail u + rx_count u) - (rx_tail u + Z.of_nat (0 + i))) mod 16 = 0) as E'.
      { rewrite Zminus_mod, E, Z.sub_diag. done. }
      replace (_ - _) with (rx_count u - Z.of_nat i) in E' by lia. rewrite Z.mod_small in E' by lia. lia.
    + cbn. f_equal. rewrite Z2Nat.id by lia. rewrite <- Hh. apply arr_set_eq; lia.
Qed.

(** Advancing the tail removes the oldest byte. *)
Lemma ring_pop u :
  ring_ok u -> 0 < rx_count u ->
  let u' := u <| rx_tail := (rx_tail u + 1) mod kRxFifoSize |> <| rx_count := rx_count u - 1 |> in
  ring_ok u' /\ rx_queue u = arr (rx_fifo u) (rx_tail u) :: rx_queue u'.
Proof.
  intros [Hl Ht Hc Hh] Hpos u'. split.
  - constructor; unfold u'; cbn; [done|apply Z.mod_pos_bound; unfold kRxFifoSize; lia|lia|].
    rewrite Hh. unfold kRxFifoSize. rewrite Zplus_mod_idemp_l. f_equal. lia.
  - unfold rx_queue, u'. cbn. destruct (Z.to_nat (rx_count u)) as [|n] eqn:En; [lia|].
    replace (Z.to_nat (rx_count u - 1)) with n by lia. cbn. f_equal.
    + rewrite Z.add_0_r, Z.mod_small by lia. done.
    + rewrite <- fmap_S_seq, <- list_fmap_compose. apply list_fmap_ext. intros i k _. cbn.
      unfold kRxFifoSize. rewrite Zplus_mod_idemp_l. do 2 f_equal. lia.
Qed.

Lemma PushRx_queue u ch now :
  ring_ok u -> ring_ok (PushRx u ch now).1 /\ rx_queue (PushRx u ch now).1 = enqueue (rx_queue u) ch.
Proof.
  intros Hok. pose proof (length_rx_queue u Hok) as Hlen.
  set (u1 := if kRxFifoSize <=? rx_count u then u <| u_lsr := u_lsr u .| kLsrOe |>
             else u <| rx_fifo := arr_set (rx_fifo u) (rx_head u) ch |>
                    <| rx_head := (rx_head u + 1) mod kRxFifoSize |> <| rx_count := rx_count u + 1 |>).
  assert (H1 : ring_ok u1 /\ rx_queue u1 = enqueue (rx_queue u) ch).
  { unfold u1, enqueue. destruct (Z.leb_spec kRxFifoSize (rx_count u)) as [Hf|Hf]; unfold kRxFifoSize in Hf.
    - destruct (Nat.ltb_spec (length (rx_queue u)) 16); [lia|]. by apply ring_same_ok.
    - destruct (Nat.ltb_spec (length (rx_queue u)) 16); [|lia]. by apply ring_push. }
  destruct H1 as [Hok1 <-]. apply ring_same_ok; [|done].
  unfold PushRx. fold u1. cbv zeta. case_match; by unfold ring_same.
Qed.

Lemma ring_clear u : ring_ok u -> ring_ok (u <| rx_count := 0 |> <| rx_head := 0 |> <| rx_tail := 0 |>).
Proof. intros []. constructor; cbn; (done || lia). Qed.

Lemma addr_low addr : addr .& 7 = addr mod 8.
Proof. exact (land_ones_wrap addr 3 ltac:(lia)). Qed.

(** Walk down the register switch: the offsets 0..6 and the default. *)
Ltac switch_off x :=
  cbn [switch]; repeat match goal with |- context [x =? ?k] => destruct (Z.eqb_spec x k) as [->|] end.

Lemma read_queue u addr :
  ring_ok u ->
  let '(v, u', _) := UartRead u addr in
  ring_ok u' /\ rx_queue u' = queue_step u (ORead addr) (rx_queue u) /\
  ((addr mod 8 =? 0) && negb (dlab u) = true -> v = hd 0 (rx_queue u)).
Proof.
  intros Hok. unfold UartRead, queue_step, dlab. rewrite addr_low. set (off := addr mod 8).
  clearbody off. unfold Uart16550Read. switch_off off; cbn [Z.eqb andb].
  - destruct (tst (u_lcr u) kLcrDlab); cbn [negb andb]; [done|].
    destruct (Z.ltb_spec 0 (rx_count u)) as [Hp|Hz].
    + destruct (ring_pop u Hok Hp) as [Hok' Hq]. rewrite Hq.
      match type of Hok' with ring_ok ?u2 => destruct (ring_same_ok u2 (UpdateIrq (RefreshLsr
        (u2 <| rx_timeout_ip := false |> <| rx_timeout_armed := false |>))).1) as [Ho Hq']; [done|done|] end.
      exact (conj Ho (conj Hq' (fun _ => eq_refl))).
    + destruct (ring_same_ok u (UpdateIrq (RefreshLsr
        (u <| rx_timeout_ip := false |> <| rx_timeout_armed := false |>))).1) as [Ho Hq]; [done|done|].
      assert (Hn : rx_queue u = []).
      { unfold rx_queue. destruct Hok as [_ _ Hc _]. by replace (rx_count u) with 0 by lia. }
      rewrite Hn in *. exact (conj Ho (conj Hq (fun _ => eq_refl))).
  - done.
  - destruct (ring_same_ok u (UpdateIrq (u <| thr_ip := false |>)).1) as [? ?]; done.
  - done.
  - done.
  - destruct (ring_same_ok u (UpdateIrq (u <| u_lsr := u_lsr u &~ kLsrErr |>)).1) as [? ?]; done.
  - destruct (ring_same_ok u (UpdateIrq (u <| u_msr := u_msr u &~ kMsrDelta |>)).1) as [? ?]; done.
  - done.
Qed.

Lemma write_queue u addr val now :
  ring_ok u ->
  ring_ok (UartWrite u addr val now).1 /\
  rx_queue (UartWrite u addr val now).1 = queue_step u (OWrite addr val now) (rx_queue u).
Proof.
  intros Hok. unfold UartWrite, queue_step, dlab, loopback. rewrite addr_low. set (off := addr mod 8).
  clearbody off. unfold Uart16550Write. switch_off off; cbn [Z.eqb andb].
  - destruct (tst (u_lcr u) kLcrDlab); cbn [negb andb]; [by apply ring_same_ok|].
    destruct (tst (u_mcr u) kMcrLoop); [|by apply ring_same_ok].
    destruct (PushRx_queue u (u8 val) now Hok) as [Hok1 <-].
    destruct (PushRx u (u8 val) now) as [u1 e1]. by apply ring_same_ok.
  - case_match; by apply ring_same_ok.
  - unfold kFcrClearRx. rewrite (tst_pow2 _ 1), wrap_testbit by lia.
    change (1 <? 8) with true. cbn [andb]. destruct (Z.testbit val 1).
    + match goal with |- ring_ok ?u2 /\ _ =>
        destruct (ring_same_ok (u <| rx_count := 0 |> <| rx_head := 0 |> <| rx_tail := 0 |>) u2) as [? ->];
        [done|by apply ring_clear|done] end.
    + by apply ring_same_ok.
  - case_match; by apply ring_same_ok.
  - by apply ring_same_ok.
  - done.
  - done.
  - replace (off =? 2) with false by (symmetry; by apply Z.eqb_neq).
    replace (off =? 0) with false by (symmetry; by apply Z.eqb_neq). by apply ring_same_ok.
Qed.

(** C39: the UART's receiver ring is a sixteen-byte queue: whatever register access, received byte
    or poll happens, the bytes in the ring change exactly as the queue does (append unless full, pop
    on a data read, clear on an FCR reset, loopback writes appended), the ring indices stay
    consistent, and a data read returns the oldest byte or 0. *)
Theorem uart_fifo_refines u op v u' e :
  ring_ok u -> uart_exec u op = (v, u', e) ->
  ring_ok u' /\ rx_queue u' = queue_step u op (rx_queue u) /\
  (forall addr, op = ORead addr -> addr mod 8 = 0 -> dlab u = false -> v = hd 0 (rx_queue u)).
Proof.
  intros Hok E. destruct op as [addr|addr val now|ch now|now]; cbn [uart_exec] in E.
  - pose proof (read_queue u addr Hok) as H. rewrite E in H. destruct H as (? & ? & Hv).
    split_and!; [done..|]. intros a [= <-] Ha Hd. apply Hv. by rewrite Ha, Hd.
  - pose proof (write_queue u addr val now Hok) as H. destruct (UartWrite _ _ _ _). simplify_eq.
    cbn [fst] in H. destruct H. by split_and!.
  - unfold Uart16550Receive, queue_step, loopback in *. destruct (tst _ _); [by simplify_eq|].
    pose proof (PushRx_queue u (u8 ch) now Hok) as H. destruct (PushRx _ _ _). simplify_eq.
    cbn [fst] in H. destruct H. by split_and!.
  - assert (Hs : ring_same u u').
    { unfold Uart16550Poll, UpdateIrq in E. cbv zeta in E. destruct (_ || _); [by simplify_eq|].
      destruct (0 <? _); simplify_eq; by unfold ring_same. }
    destruct (ring_same_ok _ _ Hs Hok). by split_and!.
Qed.

(** ** The interrupt line *)

(** Some enabled source asks for service: a latched line error, received
    data past the trigger level (or any, with the FIFO off) or timed out, an
    empty transmitter not yet acknowledged, a modem-status change. *)
Definition irq_wanted (u : Uart16550) : bool :=
  (Z.testbit (u_ier u) 2 && tst (u_lsr u) kLsrErr) ||
  (Z.testbit (u_ier u) 0 &&
     (((0 <? rx_count u) && (negb (Z.testbit (u_fcr u) 0) || (rx_trigger u <=? rx_count u))) || rx_timeout_ip u)) ||
  (Z.testbit (u_ier u) 1 && thr_ip u) ||
  (Z.testbit (u_ier u) 3 && tst (u_msr u) kMsrDelta).

(** LSR outside the latched errors is a view of the receiver. *)
Definition lsr_ok (u : Uart16550) : Prop :=
  u_lsr u &~ kLsrErr = (if 0 <? rx_count u then kLsrDr else 0) .| (kLsrThre .| kLsrTemt).

(** IIR and the line agree with the pending source. *)
Definition settled (u : Uart16550) (line : bool) : Prop :=
  u_iir u = u8 (iir_source u .| (if tst (u_fcr u) kFcrEnable then kIirFifoBits else 0)) /\
  line = negb (iir_source u =? kIirNoInt).

Definition uart_ok (u : Uart16550) (line : bool) : Prop := lsr_ok u /\ settled u line.

Lemma mask_view m l c : c .& m = 0 -> ((l .& m) .| c) &~ m = c.
Proof.
  intros H. apply Z.bits_inj'; intros n Hn. apply (f_equal (fun z => Z.testbit z n)) in H.
  revert H. autorewrite with zbits. destruct (Z.testbit l n), (Z.testbit m n), (Z.testbit c n); done.
Qed.

Lemma RefreshLsr_ok u : lsr_ok (RefreshLsr u).
Proof.
  unfold lsr_ok, RefreshLsr. cbn [u_lsr upd upd_u_lsr rx_count]. rewrite <- Z.lor_assoc. apply mask_view.
  by destruct (0 <? rx_count u).
Qed.

Lemma lsr_ok_dr u : lsr_ok u -> tst (u_lsr u) kLsrDr = (0 <? rx_count u).
Proof.
  intros H. apply (f_equal (fun z => Z.testbit z 0)) in H. change kLsrDr with (2 ^ 0). rewrite tst_pow2 by lia.
  rewrite Z.ldiff_spec in H. change (Z.testbit kLsrErr 0) with false in H. rewrite andb_true_r in H.
  rewrite H. by destruct (0 <? rx_count u).
Qed.

Lemma iir_source_wanted u : lsr_ok u -> negb (iir_source u =? kIirNoInt) = irq_wanted u.
Proof.
  intros H. unfold iir_source, irq_wanted. rewrite (lsr_ok_dr u H).
  unfold kIerElsi, kIerErbfi, kIerEtbei, kIerEdssi, kFcrEnable.
  rewrite (tst_pow2 _ 2), (tst_pow2 _ 1), (tst_pow2 _ 3), !(tst_pow2 _ 0) by lia.
  destruct (Z.testbit (u_ier u) 2 && tst (u_lsr u) kLsrErr); [done|].
  destruct (Z.testbit (u_ier u) 0), (0 <? rx_count u), (negb _ || _), (rx_timeout_ip u),
    (Z.testbit (u_ier u) 1), (thr_ip u), (Z.testbit (u_ier u) 3), (tst (u_msr u) kMsrDelta); done.
Qed.

Lemma line_after_app l e1 e2 : line_after l (e1 ++ e2) = line_after (line_after l e1) e2.
Proof. apply fold_left_app. Qed.

(** Recomputing the interrupt settles the device. *)
Lemma UpdateIrq_ok u line e : lsr_ok u -> uart_ok (UpdateIrq u).1 (line_after line (e ++ (UpdateIrq u).2)).
Proof. intros H. rewrite line_after_app. done. Qed.

Lemma UpdateIrq_ok1 u line : lsr_ok u -> uart_ok (UpdateIrq u).1 (line_after line (UpdateIrq u).2).
Proof. exact (UpdateIrq_ok u line []). Qed.

Lemma PushRx_ok u ch now line : uart_ok (PushRx u ch now).1 (line_after line (PushRx u ch now).2).
Proof.
  unfold PushRx. apply UpdateIrq_ok1. set (u1 := RefreshLsr _). pose proof (RefreshLsr_ok _ : lsr_ok u1) as H.
  clearbody u1. by case_match.
Qed.

Lemma read_ok u addr line :
  uart_ok u line -> let '(_, u', e) := UartRead u addr in uart_ok u' (line_after line e).
Proof.
  intros Hu. unfold UartRead. set (off := addr .& 7). clearbody off. unfold Uart16550Read.
  switch_off off; try exact Hu.
  - destruct (tst (u_lcr u) kLcrDlab); [done|].
    destruct (0 <? rx_count u); apply UpdateIrq_ok1, RefreshLsr_ok.
  - apply UpdateIrq_ok1, Hu.
  - apply UpdateIrq_ok1. unfold lsr_ok. cbn [u_lsr upd upd_u_lsr rx_count].
    rewrite <- (proj1 Hu). zbits.
  - apply UpdateIrq_ok1, Hu.
Qed.

Lemma write_ok u addr val now line :
  uart_ok u line -> uart_ok (UartWrite u addr val now).1 (line_after line (UartWrite u addr val now).2).
Proof.
  intros Hu. unfold UartWrite. set (off := addr .& 7). clearbody off. unfold Uart16550Write.
  switch_off off; try exact Hu.
  - destruct (tst (u_lcr u) kLcrDlab); [apply UpdateIrq_ok1, Hu|].
    destruct (tst (u_mcr u) kMcrLoop); [|apply (UpdateIrq_ok (u <| thr_ip := true |>) line [UTx _]), Hu].
    pose proof (PushRx_ok u (u8 val) now line) as [Hl _]. destruct (PushRx u (u8 val) now) as [u1 e1].
    apply (UpdateIrq_ok (u1 <| thr_ip := true |>) line e1), Hl.
  - destruct (tst (u_lcr u) kLcrDlab); [done|]. apply UpdateIrq_ok1, Hu.
  - apply UpdateIrq_ok1, RefreshLsr_ok.
  - apply UpdateIrq_ok1, RefreshLsr_ok.
  - unfold UpdateMsr. apply UpdateIrq_ok1, Hu.
Qed.

Lemma uart_exec_ok u op line v u' e :
  uart_ok u line -> uart_exec u op = (v, u', e) -> uart_ok u' (line_after line e).
Proof.
  intros Hu E. destruct op as [addr|addr val now|ch now|now]; cbn [uart_exec] in E.
  - pose proof (read_ok u addr line Hu) as H. by rewrite E in H.
  - pose proof (write_ok u addr val now line Hu) as H. destruct (UartWrite _ _ _ _). by simplify_eq.
  - unfold Uart16550Receive in E. destruct (tst _ _); [by simplify_eq|].
    pose proof (PushRx_ok u (u8 ch) now line) as H. destruct (PushRx _ _ _). by simplify_eq.
  - unfold Uart16550Poll in E. cbv zeta in E. destruct (_ || _); [by simplify_eq|]. destruct (0 <? _); [|by simplify_eq].
    injection E as _ <- <-. set (u1 := u <| rx_timeout_armed := false |> <| rx_timeout_ip := true |>).
    exact (UpdateIrq_ok1 u1 line (proj1 Hu)).
Qed.

Lemma uart_init_ok u e : Uart16550Init = (u, e) -> uart_ok u (line_after false e).
Proof. intros [= <- <-]. vm_compute. done. Qed.

(** In every state the UART reaches, the level last driven on the interrupt line is high exactly
    when some enabled source asks for service, and bit 0 of IIR is its complement. *)
Theorem uart_line_level u line :
  uart_reach u line -> line = irq_wanted u /\ Z.testbit (u_iir u) 0 = negb (irq_wanted u).
Proof.
  intros H. assert (Hok : uart_ok u line) by (induction H; eauto using uart_init_ok, uart_exec_ok).
  destruct Hok as (Hl & Hi & ->). rewrite <- (iir_source_wanted u Hl). split; [done|].
  rewrite Hi, wrap_testbit, Z.lor_spec by lia. unfold iir_source.
  repeat case_match; reflexivity.
Qed.

(** *** A receiver at work: FIFO on at level 4, data interrupt enabled, two
    bytes in, the timeout expires, one byte out *)

Definition uart_ex0 : Uart16550 := Uart16550Init.1.
Definition uart_script : list uart_op :=
  [OWrite 2 0x41 0; OWrite 1 1 0; OReceive 0x61 100; OReceive 0x62 200; OPoll 100000; ORead 0].

Fixpoint uart_run (u : Uart16550) (line : bool) (ops : list uart_op) : Uart16550 * bool :=
  match ops with
  | [] => (u, line)
  | op :: ops => let '(_, u, e) := uart_exec u op in uart_run u (line_after line e) ops
  end.

Lemma uart_run_reach u line ops : uart_reach u line -> uart_reach (uart_run u line ops).1 (uart_run u line ops).2.
Proof.
  revert u line. induction ops as [|op ops IH]; intros u line H; cbn; [done|].
  destruct (uart_exec u op) as [[v u'] e] eqn:E. apply IH. by econstructor.
Qed.

Lemma uart_line_level_witness :
  (uart_run uart_ex0 false (take 5 uart_script)).2 = true /\
  irq_wanted (uart_run uart_ex0 false (take 5 uart_script)).1 = true.
Proof.
  assert (H : uart_reach (uart_run uart_ex0 false (take 5 uart_script)).1
                         (uart_run uart_ex0 false (take 5 uart_script)).2).
  { apply uart_run_reach. apply (uart_reach_init uart_ex0 Uart16550Init.2). reflexivity. }
  destruct (uart_line_level _ _ H) as [H1 _]. split; [vm_compute; reflexivity|].
  rewrite <- H1. vm_compute. reflexivity.
Defined.

Lemma uart_fifo_refines_witness :
  rx_queue (uart_run uart_ex0 false uart_script).1 = [0x62] /\
  exists v u' e, uart_exec (uart_run uart_ex0 false uart_script).1 (OReceive 0x163 0) = (v, u', e) /\
    ring_ok u' /\ rx_queue u' = [0x62; 0x63].
Proof.
  split; [vm_compute; reflexivity|].
  assert (Hok : ring_ok (uart_run uart_ex0 false uart_script).1).
  { constructor; vm_compute; try (split; discriminate); try (split; [discriminate|reflexivity]); reflexivity. }
  destruct (uart_exec (uart_run uart_ex0 false uart_script).1 (OReceive 0x163 0)) as [[v u'] e] eqn:E.
  destruct (uart_fifo_refines _ _ _ _ _ Hok E) as (H1 & H2 & _).
  exists v, u', e. split; [reflexivity|]. split; [exact H1|]. rewrite H2. vm_compute. reflexivity.
Defined.
