(* ===== verification/Htif.v ===== *)
(** * Host interface devices of the test boards (device/misc/htif.c,
    device/misc/sifive_test.c)

    The two words of the host-target interface, its commands, and the test
    finisher.  A halt of the processor is the event the bus carries back. *)

From S2P Require Import Prelude Bus Ram.

(** ** HTIF *)

Record HtifDevice := mkHtif { h_tohost_addr : Z; h_fromhost_addr : Z; h_tohost : Z; h_fromhost : Z }.

Definition IsTohost (h : HtifDevice) (addr : Z) : bool := u64 (addr - h_tohost_addr h) <? 8.

(** [memcpy] at byte [addr & 7] of a word; [None] when it leaves the word. *)
Definition word_read (word addr size : Z) : option Z :=
  let o := addr .& 7 in
  if 8 <? o + size then None else Some (le_val (take (Z.to_nat size) (drop (Z.to_nat o) (le_bytes 8 word)))).
Definition word_write (word addr size val : Z) : option Z :=
  let o := addr .& 7 in
  if 8 <? o + size then None
  else Some (le_val (take (Z.to_nat o) (le_bytes 8 word) ++ le_bytes (Z.to_nat size) val ++ drop (Z.to_nat (o + size)) (le_bytes 8 word))).

Definition HtifRead (h : HtifDevice) (addr size : Z) : option Z :=
  word_read (if IsTohost h addr then h_tohost h else h_fromhost h) addr size.

(** The exit code of a command that halts, and the characters written. *)
Definition HtifProcess (val : Z) : option Z * list Z :=
  let dev := u32 (val .>> 56) in
  let cmd := u32 ((val .>> 48) .& 0xff) in
  let payload := val .& 0xffffffffffff in
  if (dev =? 0) && (cmd =? 0) then
    if tst payload 1 then (Some (s32 (u32 (payload .>> 1))), []) else (Some 1, [])
  else if (dev =? 1) && (cmd =? 1) then (None, [payload .& 0xff])
  else (Some 1, []).

(** [halted]: the processor is halted already.  The device, the exit code
    when the store halts the processor, and the characters written. *)
Definition HtifWrite (h : HtifDevice) (halted : bool) (addr size val : Z) : option (HtifDevice * option Z * list Z) :=
  if negb (IsTohost h addr) then
    v ← word_write (h_fromhost h) addr size val;
    Some (mkHtif (h_tohost_addr h) (h_fromhost_addr h) (h_tohost h) v, None, [])
  else
    v ← word_write (h_tohost h) addr size val;
    if v =? 0 then Some (mkHtif (h_tohost_addr h) (h_fromhost_addr h) 0 (h_fromhost h), None, [])
    else
      let '(code, out) := HtifProcess v in
      let ack := ((v .>> 56) .<< 56) .| (((v .>> 48) .& 0xff) .<< 48) in
      Some (mkHtif (h_tohost_addr h) (h_fromhost_addr h) 0
              (if halted || bool_decide (is_Some code) then h_fromhost h else u64 ack), code, out).

Definition HtifRegister {Ops Dev} (bus : Bus Ops Dev) (ops : Ops) (dev : Dev) (h : HtifDevice) (tohost_addr fromhost_addr : Z)
    : option (Bus Ops Dev * HtifDevice) :=
  bus ← BusAddRegion bus tohost_addr 8 ops dev;
  bus ← BusAddRegion bus fromhost_addr 8 ops dev;
  Some (bus, mkHtif tohost_addr fromhost_addr (h_tohost h) (h_fromhost h)).

(** ** The test finisher *)

Definition kTestPass := 0x5555.
Definition kTestFail := 0x3333.
Definition kTestReset := 0x7777.

Definition TestRead (addr size : Z) : Z := 0.

(** The exit code when the write halts the processor. *)
Definition TestWrite (addr size val : Z) : option Z :=
  switch (u32 val .& 0xffff)
    [(kTestPass, Some 0); (kTestFail, Some ((val .>> 16) .& 0xffff)); (kTestReset, None)] None.

(** ** Commands *)

Lemma word_full word addr val : addr .& 7 = 0 -> rng 64 val -> word_write word addr 8 val = Some val.
Proof.
  intros Ha Hv. unfold word_write. rewrite Ha. cbn [Z.ltb Z.compare Z.add]. change (Z.to_nat 0) with 0%nat.
  change (Z.to_nat 8) with 8%nat. rewrite take_0, (drop_ge (le_bytes 8 word)) by (rewrite length_le_bytes; lia).
  rewrite app_nil_r. cbn [app]. f_equal. rewrite le_val_bytes. by apply wrap_small.
Qed.

Lemma word_full_read word addr : addr .& 7 = 0 -> rng 64 word -> word_read word addr 8 = Some word.
Proof.
  intros Ha Hv. unfold word_read. rewrite Ha. cbn [Z.ltb Z.compare Z.add]. change (Z.to_nat 0) with 0%nat.
  change (Z.to_nat 8) with 8%nat. rewrite drop_0, take_ge by (rewrite length_le_bytes; lia).
  f_equal. rewrite le_val_bytes. by apply wrap_small.
Qed.

(** The three fields of a command. *)
Definition command (dev cmd payload : Z) : Z := payload + cmd * 2 ^ 48 + dev * 2 ^ 56.

Lemma command_fields dev cmd payload : rng 8 dev -> rng 8 cmd -> rng 48 payload ->
  let v := command dev cmd payload in
  rng 64 v /\ v .>> 56 = dev /\ (v .>> 48) .& 0xff = cmd /\ v .& 0xffffffffffff = payload.
Proof.
  intros Hd Hc Hp v. unfold rng in *. change (2 ^ 8) with 256 in *.
  assert (Hv : 0 <= v < 2 ^ 64) by (unfold v, command; lia). split; [done|].
  rewrite !Z.shiftr_div_pow2 by lia. change 0xff with (Z.ones 8). change 0xffffffffffff with (Z.ones 48).
  rewrite !Z.land_ones by lia. split_and!.
  - unfold v, command. symmetry. apply Z.div_unique with (payload + cmd * 2 ^ 48); lia.
  - assert (v / 2 ^ 48 = cmd + dev * 2 ^ 8) as ->.
    { symmetry. apply Z.div_unique with payload; unfold v, command; lia. }
    rewrite Z.mod_add by lia. apply Z.mod_small. lia.
  - symmetry. apply Z.mod_unique with (cmd + dev * 2 ^ 8); unfold v, command; lia.
Qed.

(** Every command of the host interface: an aligned 64-bit store of a non-zero command clears
    tohost; device 0 command 0 halts with half the payload when it is odd and with 1 when it is
    even; device 1 command 1 writes the low byte of the payload and acknowledges in fromhost;
    everything else halts with 1. *)
Theorem htif_commands h halted addr dev cmd payload : IsTohost h addr = true -> addr .& 7 = 0 ->
  rng 8 dev -> rng 8 cmd -> rng 48 payload -> command dev cmd payload <> 0 ->
  exists h' code out, HtifWrite h halted addr 8 (command dev cmd payload) = Some (h', code, out) /\
    h_tohost h' = 0 /\
    (dev = 0 -> cmd = 0 -> out = [] /\ code = Some (if Z.odd payload then s32 (u32 (payload / 2)) else 1) /\ h_fromhost h' = h_fromhost h) /\
    (dev = 1 -> cmd = 1 -> out = [payload mod 256] /\ code = None /\ (halted = false -> h_fromhost h' = command 1 1 0)) /\
    (~ (dev = 0 /\ cmd = 0) -> ~ (dev = 1 /\ cmd = 1) -> out = [] /\ code = Some 1 /\ h_fromhost h' = h_fromhost h).
Proof.
  intros Ht Ha Hd Hc Hp Hn. destruct (command_fields dev cmd payload Hd Hc Hp) as (Hv & F1 & F2 & F3).
  set (v := command dev cmd payload) in *. unfold HtifWrite. rewrite Ht. cbn [negb]. rewrite word_full by done. cbn [mbind option_bind].
  rewrite (proj2 (Z.eqb_neq v 0) Hn). unfold HtifProcess. rewrite F1, F2, F3. unfold rng in Hd, Hc. change (2 ^ 8) with 256 in Hd, Hc.
  rewrite !(wrap_small 32) by (unfold rng; lia).
  destruct ((dev =? 0) && (cmd =? 0)) eqn:E0; [|destruct ((dev =? 1) && (cmd =? 1)) eqn:E1].
  - apply andb_true_iff in E0 as [->%Z.eqb_eq ->%Z.eqb_eq]. change 1 with (2 ^ 0) at 1. rewrite tst_pow2 by lia. rewrite Z.bit0_odd.
    rewrite Z.shiftr_div_pow2 by lia. change (2 ^ 1) with 2.
    destruct (Z.odd payload); (do 3 eexists; split; [done|]); rewrite orb_true_r; cbn; split_and!; try done; intros; tauto || lia.
  - apply andb_true_iff in E1 as [->%Z.eqb_eq ->%Z.eqb_eq]. change 0xff with (Z.ones 8). rewrite Z.land_ones by lia.
    do 3 eexists. split; [done|]. cbn. split_and!; try done; try (intros; tauto || lia). intros _ _. split_and!; try done. by intros ->.
  - do 3 eexists. split; [done|]. rewrite orb_true_r. cbn. split_and!; try done.
    + intros -> ->. done.
    + intros -> ->. done.
Qed.

Lemma htif_commands_witness : exists h' code out,
  HtifWrite (mkHtif 0x80001000 0x80001040 0 0) false 0x80001000 8 (command 0 0 85) = Some (h', code, out) /\ code = Some 42.
Proof.
  destruct (htif_commands (mkHtif 0x80001000 0x80001040 0 0) false 0x80001000 0 0 85) as (h' & code & out & E & _ & H & _);
    try reflexivity; try (unfold rng; lia); [vm_compute; discriminate|].
  destruct (H eq_refl eq_refl) as (_ & Hc & _). exists h', code, out. split; [exact E|exact Hc].
Defined.
