(* ===== verification/Pic.v ===== *)
(** * Programmable interrupt controller (device/intc/i8259.c)

    Two cascaded 8259A chips: request, mask and service registers, rotating
    priority, the initialisation handshake, the command words, acknowledge
    and the edge/level control register.  The levels driven on the processor's
    INTR pin are kept in order. *)

From S2P Require Import Prelude.

Record PicState := mkPic {
  p_last_irr : Z; p_irr : Z; p_imr : Z; p_isr : Z; p_priority_add : Z; p_irq_base : Z; p_read_reg_select : Z;
  p_poll : bool; p_special_mask : bool; p_init_state : Z; p_auto_eoi : bool; p_rotate_on_auto_eoi : bool;
  p_special_fully_nested_mode : bool; p_init4 : bool; p_single_mode : bool; p_ltim : bool; p_elcr : Z; p_elcr_mask : Z;
}.
Definition eta_pic (s : PicState) : PicState :=
  mkPic (p_last_irr s) (p_irr s) (p_imr s) (p_isr s) (p_priority_add s) (p_irq_base s) (p_read_reg_select s) (p_poll s)
    (p_special_mask s) (p_init_state s) (p_auto_eoi s) (p_rotate_on_auto_eoi s) (p_special_fully_nested_mode s)
    (p_init4 s) (p_single_mode s) (p_ltim s) (p_elcr s) (p_elcr_mask s).
#[export] Instance upd_p_last_irr : Upd p_last_irr := ltac:(mk_upd eta_pic p_last_irr).
#[export] Instance upd_p_irr : Upd p_irr := ltac:(mk_upd eta_pic p_irr).
#[export] Instance upd_p_imr : Upd p_imr := ltac:(mk_upd eta_pic p_imr).
#[export] Instance upd_p_isr : Upd p_isr := ltac:(mk_upd eta_pic p_isr).
#[export] Instance upd_p_priority_add : Upd p_priority_add := ltac:(mk_upd eta_pic p_priority_add).
#[export] Instance upd_p_irq_base : Upd p_irq_base := ltac:(mk_upd eta_pic p_irq_base).
#[export] Instance upd_p_read_reg_select : Upd p_read_reg_select := ltac:(mk_upd eta_pic p_read_reg_select).
#[export] Instance upd_p_poll : Upd p_poll := ltac:(mk_upd eta_pic p_poll).
#[export] Instance upd_p_special_mask : Upd p_special_mask := ltac:(mk_upd eta_pic p_special_mask).
#[export] Instance upd_p_init_state : Upd p_init_state := ltac:(mk_upd eta_pic p_init_state).
#[export] Instance upd_p_auto_eoi : Upd p_auto_eoi := ltac:(mk_upd eta_pic p_auto_eoi).
#[export] Instance upd_p_rotate : Upd p_rotate_on_auto_eoi := ltac:(mk_upd eta_pic p_rotate_on_auto_eoi).
#[export] Instance upd_p_sfnm : Upd p_special_fully_nested_mode := ltac:(mk_upd eta_pic p_special_fully_nested_mode).
#[export] Instance upd_p_init4 : Upd p_init4 := ltac:(mk_upd eta_pic p_init4).
#[export] Instance upd_p_single_mode : Upd p_single_mode := ltac:(mk_upd eta_pic p_single_mode).
#[export] Instance upd_p_ltim : Upd p_ltim := ltac:(mk_upd eta_pic p_ltim).
#[export] Instance upd_p_elcr : Upd p_elcr := ltac:(mk_upd eta_pic p_elcr).
#[export] Instance upd_p_elcr_mask : Upd p_elcr_mask := ltac:(mk_upd eta_pic p_elcr_mask).

(** Which chip. *)
Inductive chip := Master | Slave.
#[export] Instance chip_eq_dec : EqDecision chip.
Proof. solve_decision. Defined.

(** [pic_wired]: a sink is set; [pic_out]: the (line, level) pairs it got. *)
Record PicDevice := mkPicDev { pic_master : PicState; pic_slave : PicState; pic_wired : bool; pic_out : list (Z * bool) }.

Definition pic_get (c : chip) (p : PicDevice) : PicState := match c with Master => pic_master p | Slave => pic_slave p end.
Definition pic_set (c : chip) (s : PicState) (p : PicDevice) : PicDevice :=
  match c with
  | Master => mkPicDev s (pic_slave p) (pic_wired p) (pic_out p)
  | Slave => mkPicDev (pic_master p) s (pic_wired p) (pic_out p)
  end.

Definition kPortCmd := 0.
Definition kElcrBase := 0x4d0.

Definition bitm (i : Z) : Z := 1 .<< i.

(** ** Priority *)

(** The scan from the top priority down; eight steps reach every line. *)
Fixpoint prio_scan (n : nat) (mask add priority : Z) : Z :=
  match n with
  | O => priority
  | S n => if tst mask (bitm ((priority + add) .& 7)) then priority else prio_scan n mask add (priority + 1)
  end.

Definition GetPriority (s : PicState) (mask : Z) : Z := if mask =? 0 then 8 else prio_scan 8 mask (p_priority_add s) 0.

(** The lines that hold back others of their priority and below. *)
Definition in_service (c : chip) (s : PicState) : Z :=
  let m := p_isr s in
  let m := if p_special_mask s then m &~ p_imr s else m in
  if p_special_fully_nested_mode s && bool_decide (c = Master) then m &~ bitm 2 else m.

(** [None] for the C code's -1. *)
Definition PicGetIrq (c : chip) (s : PicState) : option Z :=
  let priority := GetPriority s (p_irr s &~ p_imr s) in
  if priority =? 8 then None
  else
    let cur_priority := GetPriority s (in_service c s) in
    if priority <? cur_priority then Some ((priority + p_priority_add s) .& 7) else None.

Definition PicUpdateIrq (p : PicDevice) : PicDevice :=
  let m := pic_master p in
  let m := match PicGetIrq Slave (pic_slave p) with
           | Some _ => m <| p_last_irr := p_last_irr m .| bitm 2 |> <| p_irr := p_irr m .| bitm 2 |>
           | None => m <| p_last_irr := p_last_irr m &~ bitm 2 |>
           end in
  let irq := PicGetIrq Master m in
  mkPicDev m (pic_slave p) (pic_wired p)
    (if pic_wired p then pic_out p ++ [(default 0 irq, bool_decide (is_Some irq))] else pic_out p).

(** ** Lines and acknowledge *)

Definition PicSetIrq1 (s : PicState) (irq : Z) (level : bool) : PicState :=
  let mask := bitm irq in
  if tst ((p_elcr s .& p_elcr_mask s) .| (if p_ltim s then 0xff else 0)) mask then
    s <| p_irr := if level then p_irr s .| mask else p_irr s &~ mask |>
      <| p_last_irr := (p_last_irr s &~ mask) .| (if level then mask else 0) |>
  else if level then
    let s := if tst (p_last_irr s) mask then s else s <| p_irr := p_irr s .| mask |> in
    s <| p_last_irr := p_last_irr s .| mask |>
  else s <| p_last_irr := p_last_irr s &~ mask |>.

Definition set_line (c : chip) (p : PicDevice) (irq : Z) (level : bool) : PicDevice :=
  PicUpdateIrq (pic_set c (PicSetIrq1 (pic_get c p) (irq .& 7) level) p).

(** [None]: a line above 15 indexes past the two chips. *)
Definition PicSetIrq (p : PicDevice) (irq : Z) (level : bool) : option PicDevice :=
  if irq .>> 3 =? 0 then Some (set_line Master p irq level)
  else if irq .>> 3 =? 1 then Some (set_line Slave p irq level) else None.

Definition PicIntack (s : PicState) (irq : Z) : PicState :=
  let s := if p_auto_eoi s then
             if p_rotate_on_auto_eoi s then s <| p_priority_add := (irq + 1) .& 7 |> else s
           else s <| p_isr := p_isr s .| bitm irq |> in
  s <| p_irr := p_irr s &~ bitm irq |>.

(** The vector and the controller afterwards. *)
Definition PicAcknowledge (p : PicDevice) : Z * PicDevice :=
  match PicGetIrq Master (pic_master p) with
  | Some irq =>
      let p := pic_set Master (PicIntack (pic_master p) irq) p in
      if irq =? 2 then
        match PicGetIrq Slave (pic_slave p) with
        | Some irq2 =>
            let p := PicUpdateIrq (pic_set Slave (PicIntack (pic_slave p) irq2) p) in (p_irq_base (pic_slave p) + irq2, p)
        | None => let p := PicUpdateIrq p in (p_irq_base (pic_slave p) + 7, p)
        end
      else let p := PicUpdateIrq p in (p_irq_base (pic_master p) + irq, p)
  | None => let p := PicUpdateIrq p in (p_irq_base (pic_master p) + 7, p)
  end.

Definition PicHasPending (p : PicDevice) : bool := bool_decide (is_Some (PicGetIrq Master (pic_master p))).

(** ** Ports *)

Definition PicReset (s : PicState) : PicState :=
  mkPic 0 0 0 0 0 0 0 false false 0 false false false false false false 0 (p_elcr_mask s).

(** The command words of OCW2. *)
Definition ocw2 (s : PicState) (val : Z) : PicState :=
  let cmd := val .>> 5 in
  if (cmd =? 0) || (cmd =? 4) then s <| p_rotate_on_auto_eoi := negb (cmd .>> 2 =? 0) |>
  else if (cmd =? 1) || (cmd =? 5) then
    let priority := GetPriority s (p_isr s) in
    if priority =? 8 then s
    else
      let irq := (priority + p_priority_add s) .& 7 in
      let s := s <| p_isr := p_isr s &~ bitm irq |> in
      if cmd =? 5 then s <| p_priority_add := (irq + 1) .& 7 |> else s
  else if cmd =? 3 then s <| p_isr := p_isr s &~ bitm (val .& 7) |>
  else if cmd =? 6 then s <| p_priority_add := (val + 1) .& 7 |>
  else if cmd =? 7 then
    s <| p_isr := p_isr s &~ bitm (val .& 7) |> <| p_priority_add := ((val .& 7) + 1) .& 7 |>
  else s.

Definition PicIoWrite (c : chip) (p : PicDevice) (addr val : Z) : PicDevice :=
  let s := pic_get c p in
  if addr =? kPortCmd then
    if tst val 0x10 then
      pic_set c ((PicReset s) <| p_init_state := 1 |> <| p_init4 := tst val 1 |> <| p_single_mode := tst val 2 |>
                              <| p_ltim := tst val 8 |>) p
    else if tst val 0x08 then
      let s := if tst val 0x04 then s <| p_poll := true |> else s in
      let s := if tst val 0x02 then s <| p_read_reg_select := val .& 1 |> else s in
      pic_set c (if tst val 0x40 then s <| p_special_mask := tst val 0x20 |> else s) p
    else PicUpdateIrq (pic_set c (ocw2 s val) p)
  else
    switch (p_init_state s)
      [(0, PicUpdateIrq (pic_set c (s <| p_imr := val |>) p));
       (1, pic_set c (s <| p_irq_base := val .& 0xf8 |>
             <| p_init_state := if p_single_mode s then (if p_init4 s then 3 else 0) else 2 |>) p);
       (2, pic_set c (s <| p_init_state := if p_init4 s then 3 else 0 |>) p);
       (3, pic_set c (s <| p_special_fully_nested_mode := tst val 0x10 |> <| p_auto_eoi := tst val 2 |>
             <| p_init_state := 0 |>) p)] p.

Definition PicIoRead (c : chip) (p : PicDevice) (addr : Z) : Z * PicDevice :=
  let s := pic_get c p in
  if p_poll s then
    let s := s <| p_poll := false |> in
    match PicGetIrq c s with
    | Some ret => (ret .| 0x80, pic_set c (s <| p_irr := p_irr s &~ bitm ret |> <| p_isr := p_isr s &~ bitm ret |>) p)
    | None => (7, pic_set c s p)
    end
  else if addr =? kPortCmd then (if p_read_reg_select s =? 0 then p_irr s else p_isr s, p)
  else (p_imr s, p).

Definition PicPortRead (c : chip) (p : PicDevice) (addr : Z) : Z * PicDevice := PicIoRead c p (addr .& 1).
Definition PicPortWrite (c : chip) (p : PicDevice) (addr val : Z) : PicDevice := PicIoWrite c p (addr .& 1) (u8 val).

Definition elcr_chip (addr : Z) : chip := if (addr - kElcrBase) .& 1 =? 0 then Master else Slave.
Definition ElcrRead (p : PicDevice) (addr : Z) : Z := p_elcr (pic_get (elcr_chip addr) p).
Definition ElcrWrite (p : PicDevice) (addr val : Z) : PicDevice :=
  let c := elcr_chip addr in let s := pic_get c p in pic_set c (s <| p_elcr := u8 (val .& p_elcr_mask s) |>) p.

Definition pic_zero : PicState := mkPic 0 0 0 0 0 0 0 false false 0 false false false false false false 0 0.
Definition PicInit : PicDevice := mkPicDev (pic_zero <| p_elcr_mask := 0xf8 |>) (pic_zero <| p_elcr_mask := 0xde |>) false [].
Definition PicSetIrqSink (p : PicDevice) : PicDevice := mkPicDev (pic_master p) (pic_slave p) true (pic_out p).

(** ** Well-formed chips *)

Record pic_ok (s : PicState) : Prop := {
  po_last : rng 8 (p_last_irr s); po_irr : rng 8 (p_irr s); po_imr : rng 8 (p_imr s); po_isr : rng 8 (p_isr s);
  po_add : 0 <= p_priority_add s < 8; po_base : rng 8 (p_irq_base s); po_elcr : rng 8 (p_elcr s);
}.

Lemma bitm_rng i : 0 <= i < 8 -> rng 8 (bitm i).
Proof.
  intros Hi. unfold bitm. rewrite Z.shiftl_mul_pow2, Z.mul_1_l by lia. split; [lia|]. apply Z.pow_lt_mono_r; lia.
Qed.

Lemma land7 x : 0 <= x .& 7 < 8.
Proof. exact (rng_land_ones x 3 3 ltac:(lia)). Qed.

Lemma land7_mod x : x .& 7 = x mod 8.
Proof. exact (land_ones_wrap x 3 ltac:(lia)). Qed.

#[local] Hint Resolve bitm_rng land7 : rng.
Ltac pic_ok_tac := destruct_and?; split; cbn; (done || rng || lia || idtac).

Lemma SetIrq1_ok s irq level : 0 <= irq < 8 -> pic_ok s -> pic_ok (PicSetIrq1 s irq level).
Proof.
  intros Hi [H1 H2 H3 H4 H5 H6 H7]. pose proof (bitm_rng irq Hi). unfold PicSetIrq1. repeat case_match; pic_ok_tac.
Qed.

Lemma get_irq_range c s i : PicGetIrq c s = Some i -> 0 <= i < 8.
Proof. unfold PicGetIrq. repeat case_match; try done. intros [= <-]. apply land7. Qed.

Lemma Intack_ok s irq : 0 <= irq < 8 -> pic_ok s -> pic_ok (PicIntack s irq).
Proof.
  intros Hi [H1 H2 H3 H4 H5 H6 H7]. pose proof (bitm_rng irq Hi). pose proof (land7 (irq + 1)).
  unfold PicIntack. repeat case_match; pic_ok_tac.
Qed.

Lemma ocw2_ok s val : rng 8 val -> pic_ok s -> pic_ok (ocw2 s val).
Proof.
  intros Hv [H1 H2 H3 H4 H5 H6 H7]. unfold ocw2. repeat case_match; pic_ok_tac; try (apply land7);
    try (apply rng_ldiff; [lia|done]).
Qed.

Definition pics_ok (p : PicDevice) : Prop := pic_ok (pic_master p) /\ pic_ok (pic_slave p).

Lemma pics_get c p : pics_ok p -> pic_ok (pic_get c p).
Proof. intros []. by destruct c. Qed.

Lemma pics_set c s p : pic_ok s -> pics_ok p -> pics_ok (pic_set c s p).
Proof. intros ? []. by destruct c. Qed.

Lemma Update_ok p : pics_ok p -> pics_ok (PicUpdateIrq p).
Proof.
  intros [[H1 H2 H3 H4 H5 H6 H7] Hs]. pose proof (bitm_rng 2 ltac:(lia)). unfold PicUpdateIrq. split; [|done]. cbn [pic_master].
  destruct (PicGetIrq Slave _); pic_ok_tac.
Qed.

(** ** Reachable controllers *)

Inductive pic_reach : PicDevice -> Prop :=
| pr_init : pic_reach PicInit
| pr_sink p : pic_reach p -> pic_reach (PicSetIrqSink p)
| pr_irq p irq level p' : pic_reach p -> PicSetIrq p irq level = Some p' -> pic_reach p'
| pr_ack p : pic_reach p -> pic_reach (snd (PicAcknowledge p))
| pr_read p c addr : pic_reach p -> pic_reach (snd (PicPortRead c p addr))
| pr_write p c addr val : pic_reach p -> pic_reach (PicPortWrite c p addr val)
| pr_elcr p addr val : pic_reach p -> pic_reach (ElcrWrite p addr val).

Lemma Acknowledge_ok p : pics_ok p -> pics_ok (snd (PicAcknowledge p)).
Proof.
  intros Hp. unfold PicAcknowledge. destruct (PicGetIrq Master _) as [irq|] eqn:E; [|by apply Update_ok].
  pose proof (get_irq_range _ _ _ E) as Hi.
  assert (Hp1 : pics_ok (pic_set Master (PicIntack (pic_master p) irq) p)) by (apply pics_set; [apply Intack_ok; [done|apply Hp]|done]).
  destruct (irq =? 2); [|by apply Update_ok]. destruct (PicGetIrq Slave _) as [irq2|] eqn:E2; cbn [snd]; apply Update_ok; [|done].
  apply pics_set; [|done]. apply Intack_ok; [by eapply get_irq_range|apply Hp1].
Qed.

Lemma IoWrite_ok c p addr val : rng 8 val -> pics_ok p -> pics_ok (PicIoWrite c p addr val).
Proof.
  intros Hv Hp. pose proof (pics_get c p Hp) as Hs. unfold PicIoWrite. destruct (addr =? kPortCmd).
  - destruct (tst val 0x10); [|destruct (tst val 8)].
    + apply pics_set; [|done]. split; cbn; unfold rng; lia.
    + apply pics_set; [|done]. destruct Hs. repeat case_match; by split.
    + apply Update_ok, pics_set; [by apply ocw2_ok|done].
  - apply (switch_ind pics_ok); [|done]. destruct Hs as [H1 H2 H3 H4 H5 H6 H7].
    repeat apply Forall_cons_2; try apply Forall_nil_2; cbn [fst snd]; intros _.
    + apply Update_ok, pics_set; [by split|done].
    + apply pics_set; [|done]. pic_ok_tac.
    + apply pics_set; [by split|done].
    + apply pics_set; [by split|done].
Qed.

Lemma set_irq_line p irq level p' : PicSetIrq p irq level = Some p' -> exists c, p' = set_line c p irq level.
Proof. unfold PicSetIrq. destruct (_ =? 0); [intros [= <-]; by exists Master|]. destruct (_ =? 1); [intros [= <-]; by exists Slave|done]. Qed.

Lemma set_irq_some p irq level : 0 <= irq < 16 -> exists p', PicSetIrq p irq level = Some p'.
Proof.
  intros Hi. unfold PicSetIrq. rewrite Z.shiftr_div_pow2 by lia. change (2 ^ 3) with 8.
  destruct (Z.eqb_spec (irq / 8) 0); [by eexists|]. destruct (Z.eqb_spec (irq / 8) 1); [by eexists|].
  exfalso. Z.to_euclidean_division_equations. lia.
Qed.

Lemma set_line_ok c p irq level : pics_ok p -> pics_ok (set_line c p irq level).
Proof. intros Hp. apply Update_ok, pics_set; [|done]. apply SetIrq1_ok; [apply land7|by apply pics_get]. Qed.

Lemma pic_reach_ok p : pic_reach p -> pics_ok p.
Proof.
  induction 1 as [|p _ IH|p irq level p' _ IH E|p _ IH|p c addr _ IH|p c addr val _ IH|p addr val _ IH].
  - split; split; cbn; unfold rng; lia.
  - exact IH.
  - destruct (set_irq_line _ _ _ _ E) as [c ->]. by apply set_line_ok.
  - by apply Acknowledge_ok.
  - unfold PicPortRead, PicIoRead. pose proof (pics_get c p IH) as [H1 H2 H3 H4 H5 H6 H7].
    repeat case_match; cbn [snd]; try done; apply pics_set; try done; pic_ok_tac; apply rng_ldiff; (lia || done).
  - apply IoWrite_ok; [apply (rng_wrap 8); lia|done].
  - unfold ElcrWrite. pose proof (pics_get (elcr_chip addr) p IH) as []. apply pics_set; [|done]. split; cbn; try done.
    apply (rng_wrap 8). lia.
Qed.

(** ** Priority against its specification *)

(** Distance from the line of top priority. *)
Definition rank (s : PicState) (i : Z) : Z := (i - p_priority_add s) mod 8.

(** Requested and not masked; of top priority among those; and above every
    line in service. *)
Record deliverable (c : chip) (s : PicState) (i : Z) : Prop := {
  dl_range : 0 <= i < 8;
  dl_req : Z.testbit (p_irr s &~ p_imr s) i = true;
  dl_top : forall j, 0 <= j < 8 -> Z.testbit (p_irr s &~ p_imr s) j = true -> rank s i <= rank s j;
  dl_above : forall j, 0 <= j < 8 -> Z.testbit (in_service c s) j = true -> rank s i < rank s j;
}.

(** The eight lines. *)
Definition lines : list Z := seqZ 0 8.

Definition prio_check (mask add : Z) : bool :=
  let k := if mask =? 0 then 8 else prio_scan 8 mask add 0 in
  eqb (k =? 8) (mask =? 0) && (0 <=? k) && (k <=? 8) &&
  forallb (fun i => implb (Z.testbit mask i) (k <=? (i - add) mod 8)) lines &&
  ((k =? 8) || (Z.testbit mask ((k + add) .& 7) && (((k + add) .& 7 - add) mod 8 =? k))).

Lemma prio_checked mask add : rng 8 mask -> 0 <= add < 8 -> prio_check mask add = true.
Proof.
  assert (G : forallb (fun m => forallb (prio_check m) lines) (seqZ 0 256) = true) by (vm_compute; reflexivity).
  intros Hm Ha. rewrite forallb_forall in G. specialize (G mask). rewrite forallb_forall in G. apply G.
  - apply list_elem_of_In, elem_of_seqZ. exact Hm.
  - apply list_elem_of_In, elem_of_seqZ. exact Ha.
Qed.

Lemma GetPriority_spec s mask : rng 8 mask -> 0 <= p_priority_add s < 8 ->
  let k := GetPriority s mask in
  (k = 8 <-> mask = 0) /\ 0 <= k <= 8 /\
  (forall i, 0 <= i < 8 -> Z.testbit mask i = true -> k <= rank s i) /\
  (k <> 8 -> Z.testbit mask ((k + p_priority_add s) .& 7) = true /\ rank s ((k + p_priority_add s) .& 7) = k).
Proof.
  intros Hm Ha k. pose proof (prio_checked mask (p_priority_add s) Hm Ha) as C. unfold prio_check in C.
  fold (GetPriority s mask) in C. fold k in C. repeat (apply andb_true_iff in C as [C ?]).
  apply eqb_prop in C. split_and!.
  - rewrite <- Z.eqb_eq, C. apply Z.eqb_eq.
  - by apply Z.leb_le.
  - by apply Z.leb_le.
  - intros i Hi Hb. rewrite forallb_forall in H0. specialize (H0 i). rewrite Hb in H0. apply Z.leb_le, H0.
    apply list_elem_of_In, elem_of_seqZ. lia.
  - intros Hk. rewrite (proj2 (Z.eqb_neq k 8) Hk) in H. cbn [orb] in H. apply andb_true_iff in H as [H' H''%Z.eqb_eq]. done.
Qed.

Lemma in_service_rng c s : pic_ok s -> rng 8 (in_service c s).
Proof. intros []. unfold in_service. repeat case_match; repeat (apply rng_ldiff; [lia|]); done. Qed.

Lemma rank_inj s i j : 0 <= i < 8 -> 0 <= j < 8 -> rank s i = rank s j -> i = j.
Proof.
  unfold rank. intros Hi Hj E. assert (Hz : ((i - p_priority_add s) - (j - p_priority_add s)) mod 8 = 0)
    by (rewrite Zminus_mod, E, Z.sub_diag; done).
  replace (i - p_priority_add s - (j - p_priority_add s)) with (i - j) in Hz by lia.
  apply Z.mod_divide in Hz as [q Hq]; lia.
Qed.

Lemma rank_range s i : 0 <= rank s i < 8.
Proof. apply Z.mod_pos_bound. lia. Qed.

Lemma get_irq_spec c s i : pic_ok s -> PicGetIrq c s = Some i <-> deliverable c s i.
Proof.
  intros Hs. pose proof (po_add _ Hs) as Ha.
  destruct (GetPriority_spec s (p_irr s &~ p_imr s) (rng_ldiff 8 _ _ ltac:(lia) (po_irr _ Hs)) Ha) as (R1 & R2 & R3 & R4).
  destruct (GetPriority_spec s (in_service c s) (in_service_rng c s Hs) Ha) as (S1 & S2 & S3 & S4).
  unfold PicGetIrq. set (k := GetPriority s (p_irr s &~ p_imr s)) in *. set (m := GetPriority s (in_service c s)) in *.
  destruct (Z.eqb_spec k 8) as [Ek|Ek].
  - split; [done|]. intros [Hr Hq _ _]. rewrite (proj1 R1 Ek), Z.bits_0 in Hq. done.
  - destruct (R4 Ek) as [Rb Rk]. set (i0 := (k + p_priority_add s) .& 7) in *. pose proof (land7 (k + p_priority_add s)) as Hi0. fold i0 in Hi0.
    destruct (Z.ltb_spec k m).
    + assert (D0 : deliverable c s i0).
      { split; [done|done|intros j Hj Hb; rewrite Rk; by apply R3|]. intros j Hj Hb. rewrite Rk. specialize (S3 j Hj Hb). lia. }
      split; [by intros [= <-]|]. intros [Hr Hq Ht _]. f_equal. apply (rank_inj s); [done..|].
      pose proof (Ht i0 Hi0 Rb). pose proof (dl_top _ _ _ D0 i Hr Hq). lia.
    + split; [done|]. intros [Hr Hq Ht Hab]. exfalso. assert (Hm : m <> 8) by lia. destruct (S4 Hm) as [Sb Sk].
      pose proof (Hab _ (land7 _) Sb) as X. rewrite Sk in X. pose proof (R3 i Hr Hq). lia.
Qed.

(** C40: the priority logic of the 8259 chips meets its specification in every reachable state: the
    line the bit scans pick is exactly the one that is requested and unmasked, of the highest
    rotating priority among those, and above every line in service (less the lines special mask and
    special fully nested mode take out); no such line exactly when the scan answers none. *)
Theorem pic_delivers_top p c i : pic_reach p -> (PicGetIrq c (pic_get c p) = Some i <-> deliverable c (pic_get c p) i).
Proof. intros Hr. by apply get_irq_spec, pics_get, pic_reach_ok. Qed.

Lemma pic_delivers_top_witness :
  let p := set_line Slave (set_line Master PicInit 4 true) 9 true in
  PicGetIrq Master (pic_get Master p) = Some 2 /\ deliverable Master (pic_get Master p) 2.
Proof.
  intros p. assert (E : PicGetIrq Master (pic_get Master p) = Some 2) by (vm_compute; reflexivity). split; [exact E|].
  apply (pic_delivers_top p Master 2); [|exact E].
  apply (pr_irq (set_line Master PicInit 4 true) 9 true); [apply (pr_irq PicInit 4 true); [apply pr_init|]|]; reflexivity.
Defined.

(** ** Acknowledge and end of interrupt *)

Lemma testbit_bitm i j : 0 <= i -> Z.testbit (bitm i) j = bool_decide (i = j).
Proof.
  intros Hi. unfold bitm. rewrite Z.shiftl_1_l. case_bool_decide as E; [subst; apply Z.pow2_bits_true; done|].
  by apply Z.pow2_bits_false.
Qed.

(** The master after the update, but for the cascade line's request. *)
Lemma update_master p : let m := pic_master p in let m' := pic_master (PicUpdateIrq p) in
  p_isr m' = p_isr m /\ p_imr m' = p_imr m /\ p_priority_add m' = p_priority_add m /\ p_irq_base m' = p_irq_base m /\
  p_special_mask m' = p_special_mask m /\ p_special_fully_nested_mode m' = p_special_fully_nested_mode m /\ p_auto_eoi m' = p_auto_eoi m.
Proof. unfold PicUpdateIrq. cbn. by destruct (PicGetIrq Slave _). Qed.

Lemma lor_bit_ldiff x i : 0 <= i -> Z.testbit x i = false -> (x .| bitm i) &~ bitm i = x.
Proof.
  intros Hi Hb. apply Z.bits_inj'. intros n Hn. rewrite Z.ldiff_spec, Z.lor_spec, testbit_bitm by done.
  case_bool_decide; [subst; by rewrite Hb, andb_false_r|by rewrite orb_false_r, andb_true_r].
Qed.

(** Acknowledge and end of interrupt: acknowledging a deliverable line of the master other than the
    cascade returns its vector, puts it in service so that only lines of strictly higher priority
    can still be delivered, and a non-specific end of interrupt puts the service register back. *)
Theorem pic_ack_eoi p irq : let m := pic_master p in
  pic_reach p -> deliverable Master m irq -> irq <> 2 -> p_auto_eoi m = false -> p_special_mask m = false ->
  p_special_fully_nested_mode m = false ->
  let p1 := snd (PicAcknowledge p) in
  fst (PicAcknowledge p) = p_irq_base m + irq /\
  p_isr (pic_master p1) = p_isr m .| bitm irq /\
  (forall j, deliverable Master (pic_master p1) j -> rank m j < rank m irq) /\
  p_isr (pic_master (PicPortWrite Master p1 0x20 0x20)) = p_isr m.
Proof.
  intros m Hr Hd H2 Hauto Hsm Hsf p1. pose proof (pic_reach_ok p Hr) as Hok. pose proof (pics_get Master p Hok) as Hm. cbn in Hm. fold m in Hm.
  pose proof (dl_range _ _ _ Hd) as Hi.
  set (q := pic_set Master (PicIntack m irq) p).
  assert (E : PicAcknowledge p = (p_irq_base m + irq, PicUpdateIrq q)).
  { unfold PicAcknowledge. fold m. rewrite (proj2 (get_irq_spec Master m irq Hm) Hd). fold q.
    rewrite (proj2 (Z.eqb_neq irq 2) H2). destruct (update_master q) as (_ & _ & _ & -> & _). f_equal.
    unfold q, PicIntack. cbn. by rewrite Hauto. }
  destruct (update_master q) as (U1 & U2 & U3 & U4 & U5 & U6 & U7). unfold p1. rewrite E. cbn [fst snd].
  assert (Q1 : p_isr (pic_master q) = p_isr m .| bitm irq) by (unfold q, PicIntack; cbn; by rewrite Hauto).
  assert (Q2 : p_priority_add (pic_master q) = p_priority_add m) by (unfold q, PicIntack; cbn; by rewrite Hauto).
  assert (Q3 : p_special_mask (pic_master q) = false /\ p_special_fully_nested_mode (pic_master q) = false)
    by (unfold q, PicIntack; cbn; by rewrite Hauto).
  assert (Q4 : forall j, rank (pic_master (PicUpdateIrq q)) j = rank m j) by (intros j; unfold rank; by rewrite U3, Q2).
  assert (Hfree : Z.testbit (p_isr m) irq = false).
  { destruct (Z.testbit (p_isr m) irq) eqn:Eb; [|done]. exfalso. pose proof (dl_above _ _ _ Hd irq Hi) as X.
    unfold in_service in X. rewrite Hsm, Hsf in X. specialize (X Eb). lia. }
  split; [done|]. split; [by rewrite U1|]. split.
  - intros j Hj. pose proof (dl_above _ _ _ Hj irq Hi) as X. rewrite !Q4 in X. apply X. unfold in_service.
    rewrite U5, U6, (proj1 Q3), (proj2 Q3), U1, Q1. cbn [andb]. rewrite Z.lor_spec, testbit_bitm by lia.
    rewrite bool_decide_true by done. apply orb_true_r.
  - set (p2 := PicUpdateIrq q) in *. change (PicPortWrite Master p2 0x20 0x20) with (PicUpdateIrq (pic_set Master (ocw2 (pic_master p2) 0x20) p2)).
    destruct (update_master (pic_set Master (ocw2 (pic_master p2) 0x20) p2)) as (V1 & _). rewrite V1. cbn [pic_set pic_master].
    unfold ocw2. change (0x20 .>> 5) with 1. cbn [Z.eqb Pos.eqb orb].
    assert (Hok2 : pic_ok (pic_master p2)).
    { apply (pics_get Master p2). unfold p2. apply Update_ok. apply pics_set; [by apply Intack_ok|done]. }
    destruct (GetPriority_spec (pic_master p2) (p_isr (pic_master p2)) (po_isr _ Hok2) (po_add _ Hok2)) as (G1 & G2 & G3 & G4).
    set (k := GetPriority (pic_master p2) (p_isr (pic_master p2))) in *. rewrite U1, Q1 in *.
    assert (Hbit : Z.testbit (p_isr m .| bitm irq) irq = true) by (rewrite Z.lor_spec, testbit_bitm, bool_decide_true by (done || lia); apply orb_true_r).
    assert (Hk : k <> 8) by (intros Ek; rewrite (proj1 G1 Ek), Z.bits_0 in Hbit; done).
    destruct (G4 Hk) as [Gb Gk]. set (j := (k + p_priority_add (pic_master p2)) .& 7) in *.
    pose proof (land7 (k + p_priority_add (pic_master p2))) as Hj. fold j in Hj.
    assert (Ej : j = irq).
    { rewrite Z.lor_spec, testbit_bitm in Gb by lia. apply orb_true_iff in Gb as [Gb|Gb]; [|by apply bool_decide_eq_true in Gb].
      exfalso. pose proof (dl_above _ _ _ Hd j Hj) as X. unfold in_service in X. rewrite Hsm, Hsf in X. specialize (X Gb).
      pose proof (G3 irq Hi Hbit) as Y. rewrite Q4 in Y, Gk. lia. }
    rewrite (proj2 (Z.eqb_neq k 8) Hk). cbn. rewrite Ej. by apply lor_bit_ldiff; [lia|].
Qed.

Lemma pic_ack_eoi_witness :
  let p := set_line Master PicInit 4 true in
  fst (PicAcknowledge p) = 4 /\
  p_isr (pic_master (PicPortWrite Master (snd (PicAcknowledge p)) 0x20 0x20)) = 0.
Proof.
  intros p. assert (Hr : pic_reach p) by (apply (pr_irq PicInit 4 true); [apply pr_init|reflexivity]).
  destruct (pic_ack_eoi p 4 Hr) as (H1 & _ & _ & H4).
  - apply (get_irq_spec Master); [apply (pics_get Master), pic_reach_ok, Hr|vm_compute; reflexivity].
  - lia.
  - reflexivity.
  - reflexivity.
  - reflexivity.
  - split; [exact H1|exact H4].
Defined.

(** ICW1 clears the chip's requests without re-evaluating the INTR pin: a state is reached in which
    nothing is pending although the last level told to the processor is high. *)
Theorem pic_icw1_stale : exists p, pic_reach p /\ last (pic_out p) = Some (4, true) /\
  let p' := PicPortWrite Master p 0x20 0x11 in
  PicHasPending p' = false /\ last (pic_out p') = Some (4, true).
Proof.
  exists (set_line Master (PicSetIrqSink PicInit) 4 true). split; [apply (pr_irq (PicSetIrqSink PicInit) 4 true); [apply pr_sink, pr_init|reflexivity]|].
  vm_compute. done.
Qed.
