(* ===== verification/Pit.v ===== *)
(** * Programmable interval timer (device/timer/i8254.c)

    Three 16-bit counters clocked from the host's microsecond clock: count
    loading and reading through the byte-wise access protocol, the latch and
    read-back commands, the output of each mode, and the polled interrupt of
    channel 0.  Every call of [HostTimerNow] is an argument; an operation
    that may read the clock several times takes a function from the reading's
    number to its value.  Interrupt levels are returned in order. *)

From S2P Require Import Prelude.

Definition PIT_FREQ := 1193182.
Definition kRwLsb := 1.
Definition kRwMsb := 2.
Definition kRwWord0 := 3.
Definition kRwWord1 := 4.

Record PitChannel := mkCh {
  c_count : Z; c_latched_count : Z; c_count_latched : Z; c_status_latched : bool; c_status : Z; c_read_state : Z;
  c_write_state : Z; c_write_latch : Z; c_rw_mode : Z; c_mode : Z; c_bcd : Z; c_gate : bool; c_load_time : Z;
  c_last_irq : Z; c_out : bool; c_armed : bool; c_irq : Z;
}.
Definition eta_ch (s : PitChannel) : PitChannel :=
  mkCh (c_count s) (c_latched_count s) (c_count_latched s) (c_status_latched s) (c_status s) (c_read_state s)
    (c_write_state s) (c_write_latch s) (c_rw_mode s) (c_mode s) (c_bcd s) (c_gate s) (c_load_time s) (c_last_irq s)
    (c_out s) (c_armed s) (c_irq s).
#[export] Instance upd_c_count : Upd c_count := ltac:(mk_upd eta_ch c_count).
#[export] Instance upd_c_latched_count : Upd c_latched_count := ltac:(mk_upd eta_ch c_latched_count).
#[export] Instance upd_c_count_latched : Upd c_count_latched := ltac:(mk_upd eta_ch c_count_latched).
#[export] Instance upd_c_status_latched : Upd c_status_latched := ltac:(mk_upd eta_ch c_status_latched).
#[export] Instance upd_c_status : Upd c_status := ltac:(mk_upd eta_ch c_status).
#[export] Instance upd_c_read_state : Upd c_read_state := ltac:(mk_upd eta_ch c_read_state).
#[export] Instance upd_c_write_state : Upd c_write_state := ltac:(mk_upd eta_ch c_write_state).
#[export] Instance upd_c_write_latch : Upd c_write_latch := ltac:(mk_upd eta_ch c_write_latch).
#[export] Instance upd_c_rw_mode : Upd c_rw_mode := ltac:(mk_upd eta_ch c_rw_mode).
#[export] Instance upd_c_mode : Upd c_mode := ltac:(mk_upd eta_ch c_mode).
#[export] Instance upd_c_bcd : Upd c_bcd := ltac:(mk_upd eta_ch c_bcd).
#[export] Instance upd_c_gate : Upd c_gate := ltac:(mk_upd eta_ch c_gate).
#[export] Instance upd_c_load_time : Upd c_load_time := ltac:(mk_upd eta_ch c_load_time).
#[export] Instance upd_c_last_irq : Upd c_last_irq := ltac:(mk_upd eta_ch c_last_irq).
#[export] Instance upd_c_out : Upd c_out := ltac:(mk_upd eta_ch c_out).
#[export] Instance upd_c_armed : Upd c_armed := ltac:(mk_upd eta_ch c_armed).
#[export] Instance upd_c_irq : Upd c_irq := ltac:(mk_upd eta_ch c_irq).

Definition ch_zero : PitChannel := mkCh 0 0 0 false 0 0 0 0 0 0 0 false 0 0 false false 0.
#[export] Instance ch_inhabited : Inhabited PitChannel := populate ch_zero.

Record PitDevice := mkPit { pit_channels : list PitChannel; pit_wired : bool }.

(** ** Counting *)

Definition PitElapsed (s : PitChannel) (now : Z) : Z * PitChannel :=
  if c_load_time s =? 0 then (0, s <| c_load_time := now |>)
  else (u64 (u64 (now - c_load_time s) * PIT_FREQ) / 1000000, s).

Definition PitGetCount (s : PitChannel) (now : Z) : Z * PitChannel :=
  let '(d, s) := PitElapsed s now in
  let v := switch (c_mode s)
    [(0, u64 (c_count s - d) .& 0xffff); (1, u64 (c_count s - d) .& 0xffff); (4, u64 (c_count s - d) .& 0xffff);
     (5, u64 (c_count s - d) .& 0xffff); (3, c_count s - u64 (2 * d) mod c_count s)] (c_count s - d mod c_count s) in
  (v, s).

Definition PitGetOut (s : PitChannel) (now : Z) : bool * PitChannel :=
  let '(d, s) := PitElapsed s now in
  let count := if c_count s =? 0 then 0x10000 else c_count s in
  let v := switch (c_mode s)
    [(1, d <? count); (2, (d mod count =? 0) && negb (d =? 0)); (3, d mod count <? (count + 1) .>> 1);
     (4, d =? count); (5, d =? count)] (count <=? d) in
  (v, s).

Definition irq_event (wired : bool) (s : PitChannel) (level : bool) : list (Z * bool) :=
  if negb (c_irq s =? -1) && wired then [(c_irq s, level)] else [].

Definition PitDriveOut (wired : bool) (s : PitChannel) (t0 t1 : Z) : PitChannel * list (Z * bool) :=
  let '(o, s) := PitGetOut s t0 in
  if eqb o (c_out s) then (s, [])
  else
    let s := s <| c_out := o |> in
    let evs := irq_event wired s o in
    if o && (c_mode s =? 3) then
      let '(d, s) := PitElapsed s t1 in (s <| c_last_irq := d / c_count s * c_count s |>, evs)
    else (s, evs).

(** Three readings at most: the anchor, then those of the output. *)
Definition PitLoadCount (wired : bool) (s : PitChannel) (val t0 t1 t2 : Z) : PitChannel * list (Z * bool) :=
  let val := if val =? 0 then 0x10000 else val in
  let s := s <| c_load_time := if c_armed s then t0 else 0 |> <| c_last_irq := 0 |> <| c_count := val |> <| c_armed := true |> in
  if c_mode s =? 3 then PitDriveOut wired s t1 t2 else (s, []).

Definition PitLatchCount (s : PitChannel) (now : Z) : PitChannel :=
  if c_count_latched s =? 0 then
    let '(v, s) := PitGetCount s now in s <| c_latched_count := u16 v |> <| c_count_latched := c_rw_mode s |>
  else s.

(** ** Ports *)

Definition latch_status (s : PitChannel) (now : Z) : PitChannel :=
  if c_status_latched s then s
  else
    let '(o, s) := PitGetOut s now in
    s <| c_status := u8 ((b2z o .<< 7) .| (c_rw_mode s .<< 4) .| (c_mode s .<< 1) .| c_bcd s) |> <| c_status_latched := true |>.

(** One channel of a read-back command. *)
Definition read_back (val : Z) (channel : Z) (clk : Z -> Z) (s : PitChannel) : PitChannel :=
  if tst val (2 .<< channel) then
    let s := if tst val 0x20 then s else PitLatchCount s (clk (2 * channel)) in
    if tst val 0x10 then s else latch_status s (clk (2 * channel + 1))
  else s.

Definition control_word (val : Z) (now : Z) (s : PitChannel) : PitChannel :=
  let access := (val .>> 4) .& 3 in
  if access =? 0 then PitLatchCount s now
  else s <| c_rw_mode := access |> <| c_read_state := access |> <| c_write_state := access |>
         <| c_mode := (val .>> 1) .& 7 |> <| c_bcd := val .& 1 |>.

Definition ch_write (wired : bool) (val : Z) (clk : Z -> Z) (s : PitChannel) : PitChannel * list (Z * bool) :=
  let load v s := PitLoadCount wired s v (clk 0) (clk 1) (clk 2) in
  switch (c_write_state s)
    [(kRwLsb, load val s);
     (kRwMsb, load (val .<< 8) s);
     (kRwWord0, (s <| c_write_latch := val |> <| c_write_state := kRwWord1 |>, []));
     (kRwWord1, let '(s, evs) := load (c_write_latch s .| (val .<< 8)) s in (s <| c_write_state := kRwWord0 |>, evs))] (s, []).

Definition PitIoWrite (pit : PitDevice) (addr val : Z) (clk : Z -> Z) : PitDevice * list (Z * bool) :=
  let chs := pit_channels pit in
  if addr =? 3 then
    let channel := val .>> 6 in
    if channel =? 3 then
      (mkPit (imap (fun i s => read_back val (Z.of_nat i) clk s) chs) (pit_wired pit), [])
    else (mkPit (arr_set chs channel (control_word val (clk 0) (arr chs channel))) (pit_wired pit), [])
  else
    let '(s, evs) := ch_write (pit_wired pit) val clk (arr chs addr) in
    (mkPit (arr_set chs addr s) (pit_wired pit), evs).

Definition ch_read (s : PitChannel) (now : Z) : Z * PitChannel :=
  if c_status_latched s then (c_status s, s <| c_status_latched := false |>)
  else if negb (c_count_latched s =? 0) then
    switch (c_count_latched s)
      [(kRwLsb, (c_latched_count s .& 0xff, s <| c_count_latched := 0 |>));
       (kRwMsb, (c_latched_count s .>> 8, s <| c_count_latched := 0 |>));
       (kRwWord0, (c_latched_count s .& 0xff, s <| c_count_latched := kRwMsb |>))] (0, s)
  else
    let '(count, s) := PitGetCount s now in
    switch (c_read_state s)
      [(kRwLsb, (count .& 0xff, s)); (kRwMsb, ((count .>> 8) .& 0xff, s));
       (kRwWord0, (count .& 0xff, s <| c_read_state := kRwWord1 |>));
       (kRwWord1, ((count .>> 8) .& 0xff, s <| c_read_state := kRwWord0 |>))] (0, s).

(** [None]: port 0x43 indexes a fourth channel that is not there. *)
Definition PitIoRead (pit : PitDevice) (addr now : Z) : option (Z * PitDevice) :=
  s ← pit_channels pit !! Z.to_nat addr;
  let '(v, s) := ch_read s now in Some (v, mkPit (arr_set (pit_channels pit) addr s) (pit_wired pit)).

Definition PitRead (pit : PitDevice) (addr now : Z) : option (Z * PitDevice) := PitIoRead pit (addr .& 3) now.
Definition PitWrite (pit : PitDevice) (addr val : Z) (clk : Z -> Z) : PitDevice * list (Z * bool) :=
  PitIoWrite pit (addr .& 3) (u8 val) clk.

(** Reset of channel [i]; its readings are [clk (3 * i)] on. *)
Definition reset_ch (wired : bool) (clk : Z -> Z) (i : nat) (s : PitChannel) : PitChannel * list (Z * bool) :=
  let s := s <| c_mode := 3 |> <| c_gate := negb (i =? 2)%nat |> <| c_irq := -1 |> <| c_out := false |> in
  let k := 3 * Z.of_nat i in PitLoadCount wired s 0 (clk k) (clk (k + 1)) (clk (k + 2)).

(** No line is driven: the channels have no interrupt while they reset. *)
Definition PitReset (pit : PitDevice) (clk : Z -> Z) : PitDevice :=
  mkPit (imap (fun i s => fst (reset_ch (pit_wired pit) clk i s)) (pit_channels pit)) (pit_wired pit).

(** On a fresh device the channels are zero; on a live one, as they are. *)
Definition PitInit (channels : option (list PitChannel)) (wired : bool) (clk : Z -> Z) : PitDevice :=
  let pit := PitReset (mkPit (default (replicate 3 ch_zero) channels) wired) clk in
  mkPit (arr_set (pit_channels pit) 0 ((arr (pit_channels pit) 0) <| c_irq := 0 |>)) false.

Definition PitSetIrqSink (pit : PitDevice) : PitDevice := mkPit (pit_channels pit) true.

(** ** The polled interrupt *)

(** [(int32_t)(last_irq_count + count - (uint32_t)d) <= 0]. *)
Definition tick_due (s : PitChannel) (d : Z) : bool := s32 (u32 (u64 (c_last_irq s + c_count s - u32 d))) <=? 0.

(** Mode 2: both levels at the boundary, low again at a later poll. *)
Definition poll_rate (wired : bool) (s : PitChannel) (d : Z) (clk : Z -> Z) : PitChannel * list (Z * bool) :=
  if tick_due s d then
    let s := s <| c_out := true |> in
    let evs := if wired then [(c_irq s, false); (c_irq s, true)] else [] in
    let s := s <| c_last_irq := u64 (c_last_irq s + c_count s) |> in
    if 2 ^ 31 <? u64 (clk 1 - c_load_time s) then
      let '(s, evs') := PitLoadCount wired s (c_count s) (clk 2) (clk 3) (clk 4) in (s, evs ++ evs')
    else (s, evs)
  else if c_out s then (s <| c_out := false |>, if wired then [(c_irq s, false)] else [])
  else (s, []).

Definition poll_ch (wired : bool) (s : PitChannel) (clk : Z -> Z) : PitChannel * list (Z * bool) :=
  if c_irq s =? -1 then (s, [])
  else if c_mode s =? 3 then PitDriveOut wired s (clk 0) (clk 1)
  else
    let '(d, s) := PitElapsed s (clk 0) in
    if c_mode s =? 2 then poll_rate wired s d clk else (s, []).

Definition PitPoll (pit : PitDevice) (clk : Z -> Z) : PitDevice * list (Z * bool) :=
  let '(s, evs) := poll_ch (pit_wired pit) (arr (pit_channels pit) 0) clk in
  (mkPit (arr_set (pit_channels pit) 0 s) (pit_wired pit), evs).

Definition PitNextEventUs (pit : PitDevice) (now : Z) : Z :=
  let s := arr (pit_channels pit) 0 in
  if c_irq s =? -1 then 0
  else if negb (c_mode s =? 2) && negb (c_mode s =? 3) then 0
  else if c_load_time s =? 0 then 0
  else
    let d := fst (PitElapsed s now) in
    let next := u64 (c_last_irq s + c_count s) in
    if next <=? d then 0 else s64 (u64 ((next - d) * 1000000) / PIT_FREQ).

(** ** Port 0x43 has no counter to read *)

Lemma pit_control_read_oob pit now : length (pit_channels pit) = 3%nat -> PitRead pit 0x43 now = None.
Proof. intros Hl. unfold PitRead, PitIoRead. change (0x43 .& 3) with 3. by rewrite (lookup_ge_None_2 (pit_channels pit)) by (rewrite Hl; cbn; lia). Qed.

(** ** Rate generation *)

(** Input clocks from the load time to a reading. *)
Definition ticks (load t : Z) : Z := (t - load) * PIT_FREQ / 1000000.

Fixpoint polls (wired : bool) (s : PitChannel) (clks : list (Z -> Z)) : PitChannel * list (Z * bool) :=
  match clks with
  | [] => (s, [])
  | clk :: clks => let '(s, e) := poll_ch wired s clk in let '(s, e') := polls wired s clks in (s, e ++ e')
  end.

Definition edges (evs : list (Z * bool)) : Z := Z.of_nat (length (filter (fun e => e.2 = true) evs)).

Lemma edges_app a b : edges (a ++ b) = edges a + edges b.
Proof. unfold edges. rewrite filter_app, length_app. lia. Qed.

(** Readings within the reload window. *)
Definition in_window (load : Z) (clk : Z -> Z) : Prop :=
  load <= clk 0 <= load + 2 ^ 31 /\ load <= clk 1 <= load + 2 ^ 31.

(** A channel the guest programmed as rate generator, with its interrupt. *)
Record rate_ch (load count : Z) (s : PitChannel) : Prop := {
  rc_mode : c_mode s = 2; rc_irq : c_irq s <> -1; rc_load : c_load_time s = load; rc_count : c_count s = count;
}.

Lemma u32_u64 x : u32 (u64 x) = u32 x.
Proof. unfold wrap. apply Z.mod_mod_divide. exists (2 ^ 32). done. Qed.

Lemma ticks_bounds load t : load <= t <= load + 2 ^ 31 -> 0 <= ticks load t < 2 ^ 32.
Proof.
  intros Ht. unfold ticks, PIT_FREQ. split; [apply Z.div_pos; lia|]. apply Z.div_lt_upper_bound; [lia|]. lia.
Qed.

Lemma tick_due_spec s d : 0 <= d < 2 ^ 32 -> - 2 ^ 31 <= c_last_irq s + c_count s - d < 2 ^ 31 ->
  tick_due s d = (c_last_irq s + c_count s <=? d).
Proof.
  intros Hd Hx. unfold tick_due. rewrite (wrap_small 32 d) by exact Hd. rewrite u32_u64, (signed_wrap 32) by (lia || exact Hx).
  destruct (Z.leb_spec (c_last_irq s + c_count s - d) 0), (Z.leb_spec (c_last_irq s + c_count s) d); (done || lia).
Qed.

Lemma poll_step load count s clk : rate_ch load count s -> 0 < load -> load + 2 ^ 31 < 2 ^ 64 -> 1 <= count <= 65536 ->
  in_window load clk -> 0 <= c_last_irq s ->
  let d := ticks load (clk 0) in
  c_last_irq s <= d -> d < c_last_irq s + 2 * count ->
  exists s' evs, poll_ch true s clk = (s', evs) /\ rate_ch load count s' /\
    c_last_irq s' = c_last_irq s + edges evs * count /\ c_last_irq s' <= d < c_last_irq s' + count.
Proof.
  intros [Hm Hi Hl Hc] Hlo Hlo' Hcount [[W1 W2] [W3 W4]] Hlast d Hd1 Hd2.
  pose proof (ticks_bounds load (clk 0) ltac:(lia)) as Hb. fold d in Hb.
  assert (Hel : PitElapsed s (clk 0) = (d, s)).
  { unfold PitElapsed. rewrite Hl, (proj2 (Z.eqb_neq load 0)) by lia. f_equal.
    rewrite (wrap_small 64 (clk 0 - load)) by (unfold rng; lia). rewrite wrap_small; [done|]. unfold rng, PIT_FREQ. lia. }
  unfold poll_ch. rewrite (proj2 (Z.eqb_neq (c_irq s) (-1))), Hm by done. change (2 =? 3) with false. cbv iota. rewrite Hel, Hm.
  change (2 =? 2) with true. cbv iota. unfold poll_rate. rewrite tick_due_spec by (rewrite ?Hc; lia). rewrite Hc.
  destruct (Z.leb_spec (c_last_irq s + count) d) as [Hdue|Hdue].
  - cbn. rewrite Hl, Hc. rewrite (wrap_small 64 (clk 1 - load)) by (unfold rng; lia).
    rewrite (proj2 (Z.ltb_ge _ _)) by lia. eexists _, _. split; [reflexivity|].
    change (edges [(c_irq s, false); (c_irq s, true)]) with 1. cbn. rewrite (wrap_small 64) by (unfold rng; lia).
    split; [by split|]. lia.
  - destruct (c_out s); eexists _, _; (split; [reflexivity|]).
    + change (edges [(c_irq s, false)]) with 0. cbn. split; [by split|]. lia.
    + change (edges []) with 0. split; [by split|]. lia.
Qed.

(** The clock readings of successive polls: never backwards, and never more
    than a period apart. *)
Fixpoint regular (load count d : Z) (clks : list (Z -> Z)) : Prop :=
  match clks with
  | [] => True
  | clk :: clks => in_window load clk /\ d <= ticks load (clk 0) <= d + count /\ regular load count (ticks load (clk 0)) clks
  end.

Fixpoint final_ticks (load d : Z) (clks : list (Z -> Z)) : Z :=
  match clks with [] => d | clk :: clks => final_ticks load (ticks load (clk 0)) clks end.

Lemma polls_count load count clks s d : rate_ch load count s -> 0 < load -> load + 2 ^ 31 < 2 ^ 64 -> 1 <= count <= 65536 ->
  0 <= c_last_irq s -> c_last_irq s <= d < c_last_irq s + count -> regular load count d clks ->
  let '(s', evs) := polls true s clks in
  c_last_irq s' = c_last_irq s + edges evs * count /\ c_last_irq s' <= final_ticks load d clks < c_last_irq s' + count.
Proof.
  intros Hs Hlo Hlo' Hc. revert s d Hs. induction clks as [|clk clks IH]; intros s d Hs Hz Hd Hreg; cbn [polls final_ticks].
  - unfold edges. cbn. lia.
  - destruct Hreg as (Hw & Hstep & Hreg).
    destruct (poll_step load count s clk Hs Hlo Hlo' Hc Hw Hz ltac:(lia) ltac:(lia)) as (s1 & e & -> & Hs1 & Hl1 & Hd1).
    assert (He : 0 <= edges e) by (unfold edges; lia).
    specialize (IH s1 (ticks load (clk 0)) Hs1 ltac:(lia) Hd1 Hreg). destruct (polls true s1 clks) as [s2 e2].
    rewrite edges_app. lia.
Qed.

(** The rate generator loses no tick and makes none up: a mode-2 channel polled at any
    non-decreasing times, at least once per period, over at most 2^31 microseconds, drives exactly
    as many rising edges as whole periods have elapsed. *)
Theorem pit_rate_exact load count s clks : rate_ch load count s -> 0 < load -> load + 2 ^ 31 < 2 ^ 64 ->
  1 <= count <= 65536 -> c_last_irq s = 0 -> regular load count 0 clks ->
  edges (snd (polls true s clks)) = final_ticks load 0 clks / count.
Proof.
  intros Hs H1 H2 Hc Hl Hr. pose proof (polls_count load count clks s 0 Hs H1 H2 Hc ltac:(lia) ltac:(lia) Hr) as H.
  destruct (polls true s clks) as [s' evs]. cbn [snd]. apply Z.div_unique with (final_ticks load 0 clks - edges evs * count); lia.
Qed.

(** Polls 100 us apart, 1000 clocks (838 us) per period. *)
Definition poll_times : list (Z -> Z) := (fun k _ => 5000 + 100 * k) <$> seqZ 1 50.
Definition rate_example : PitChannel :=
  mkCh 1000 0 0 false 0 3 3 0 3 2 0 true 5000 0 false true 0.

Lemma pit_rate_exact_witness : edges (snd (polls true rate_example poll_times)) = 5.
Proof.
  rewrite (pit_rate_exact 5000 1000 rate_example poll_times).
  - vm_compute. reflexivity.
  - by split.
  - lia.
  - lia.
  - lia.
  - reflexivity.
  - vm_compute. repeat split; discriminate.
Defined.

(** ** Programming and reading a counter *)

(** What a drive of the output leaves alone. *)
Definition same_regs (s s' : PitChannel) : Prop :=
  c_count s' = c_count s /\ c_mode s' = c_mode s /\ c_rw_mode s' = c_rw_mode s /\ c_write_state s' = c_write_state s /\
  c_count_latched s' = c_count_latched s /\ c_status_latched s' = c_status_latched s /\ c_read_state s' = c_read_state s.

Lemma regs_refl s : same_regs s s.
Proof. by unfold same_regs. Qed.

Lemma elapsed_same s t : same_regs s (snd (PitElapsed s t)).
Proof. unfold PitElapsed. by case_match. Qed.

Lemma out_same s t : same_regs s (snd (PitGetOut s t)).
Proof. unfold PitGetOut. pose proof (elapsed_same s t). by destruct (PitElapsed s t). Qed.

Lemma drive_same w s t0 t1 : same_regs s (fst (PitDriveOut w s t0 t1)).
Proof.
  unfold PitDriveOut. pose proof (out_same s t0) as H0. destruct (PitGetOut s t0) as [o s1]. cbn [snd] in H0.
  destruct (eqb o (c_out s1)); [done|]. destruct (_ && _); [|exact H0].
  pose proof (elapsed_same (s1 <| c_out := o |>) t1) as H1. destruct (PitElapsed (s1 <| c_out := o |>) t1) as [d s2].
  cbn [fst snd] in *. unfold same_regs in *. cbn. cbn in H1. destruct_and?. split_and!; congruence.
Qed.

(** The count register holds 0 as 65536. *)
Definition reload (v : Z) : Z := if v =? 0 then 0x10000 else v.

Lemma load_regs w s v t0 t1 t2 : let s' := fst (PitLoadCount w s v t0 t1 t2) in
  c_count s' = reload v /\ c_mode s' = c_mode s /\ c_rw_mode s' = c_rw_mode s /\ c_write_state s' = c_write_state s /\
  c_count_latched s' = c_count_latched s /\ c_status_latched s' = c_status_latched s.
Proof.
  unfold PitLoadCount. fold (reload v). set (s1 := s <| c_load_time := _ |> <| c_last_irq := _ |> <| c_count := _ |> <| c_armed := _ |>).
  destruct (c_mode s1 =? 3); [|done]. pose proof (drive_same w s1 t1 t2) as Hd. unfold same_regs in Hd. destruct_and?.
  cbn zeta. split_and!; (etransitivity; [eassumption|done]).
Qed.

(** Channel-level: control word, two bytes, latch, two reads. *)
Section program.
Variables (wired : bool) (s : PitChannel) (mode lo hi : Z) (clk1 clk2 : Z -> Z) (t0 t1 r1 r2 : Z).
Hypothesis Hmode : 0 <= mode < 8.
Hypothesis Hlo : rng 8 lo.
Hypothesis Hhi : rng 8 hi.
Hypothesis Hfree : c_count_latched s = 0 /\ c_status_latched s = false.

Definition cw : Z := 0x30 .| (mode .<< 1).
Definition s_ctl : PitChannel := control_word cw t0 s.
Definition s_lo : PitChannel := fst (ch_write wired lo clk1 s_ctl).
Definition s_hi : PitChannel := fst (ch_write wired hi clk2 s_lo).
Definition s_latch : PitChannel := PitLatchCount s_hi t1.

Lemma cw_fields : (cw .>> 4) .& 3 = 3 /\ (cw .>> 1) .& 7 = mode.
Proof.
  assert (G : forallb (fun m => (((0x30 .| (m .<< 1)) .>> 4) .& 3 =? 3) && (((0x30 .| (m .<< 1)) .>> 1) .& 7 =? m)) (seqZ 0 8) = true)
    by (vm_compute; reflexivity).
  rewrite forallb_forall in G. specialize (G mode). rewrite <- list_elem_of_In, elem_of_seqZ in G.
  specialize (G ltac:(lia)). apply andb_true_iff in G as [G1%Z.eqb_eq G2%Z.eqb_eq]. done.
Qed.

Lemma programmed : c_count s_hi = reload (lo .| (hi .<< 8)) /\ c_mode s_hi = mode /\ c_rw_mode s_hi = 3 /\
  c_write_state s_hi = kRwWord0 /\ c_count_latched s_hi = 0 /\ c_status_latched s_hi = false.
Proof.
  destruct cw_fields as [F1 F2]. destruct Hfree as [Hc Hst].
  assert (Ec : s_ctl = s <| c_rw_mode := 3 |> <| c_read_state := 3 |> <| c_write_state := 3 |> <| c_mode := mode |> <| c_bcd := cw .& 1 |>)
    by (unfold s_ctl, control_word; by rewrite F1, F2).
  assert (El : s_lo = s_ctl <| c_write_latch := lo |> <| c_write_state := kRwWord1 |>) by (unfold s_lo; rewrite Ec; reflexivity).
  pose proof (load_regs wired s_lo (lo .| (hi .<< 8)) (clk2 0) (clk2 1) (clk2 2)) as HL.
  assert (Eh : s_hi = (fst (PitLoadCount wired s_lo (lo .| (hi .<< 8)) (clk2 0) (clk2 1) (clk2 2))) <| c_write_state := kRwWord0 |>).
  { unfold s_hi, ch_write. replace (c_write_state s_lo) with kRwWord1 by (by rewrite El).
    replace (c_write_latch s_lo) with lo by (by rewrite El). cbn [switch Z.eqb Pos.eqb kRwWord1 kRwLsb kRwMsb kRwWord0].
    change (kRwWord1 =? kRwLsb) with false. change (kRwWord1 =? kRwMsb) with false. change (kRwWord1 =? kRwWord0) with false.
    change (kRwWord1 =? kRwWord1) with true. cbv iota. by destruct (PitLoadCount wired s_lo _ _ _ _). }
  rewrite Eh. set (s2 := fst (PitLoadCount _ _ _ _ _ _)) in *. cbn zeta in HL. destruct HL as (H1 & H2 & H3 & _ & H5 & H6).
  split_and!; cbn; try done.
  - rewrite H2, El, Ec. reflexivity.
  - rewrite H3, El, Ec. reflexivity.
  - rewrite H5, El, Ec. exact Hc.
  - rewrite H6, El, Ec. exact Hst.
Qed.
End program.

(** Programming a counter low byte then high byte loads the count (0 meaning 65536) in the mode of
    the control word, and latching then reading twice returns the low and the high byte of the count
    at the time of the latch, whatever the time of the reads, and releases the latch. *)
Theorem pit_program_latch wired s mode lo hi clk1 clk2 t0 t1 r1 r2 :
  0 <= mode < 8 -> rng 8 lo -> rng 8 hi -> c_count_latched s = 0 -> c_status_latched s = false ->
  let s3 := s_hi wired s mode lo hi clk1 clk2 t0 in
  let v := u16 (fst (PitGetCount s3 t1)) in
  let '(b1, s4) := ch_read (PitLatchCount s3 t1) r1 in
  let '(b2, s5) := ch_read s4 r2 in
  c_count s3 = (if (lo =? 0) && (hi =? 0) then 65536 else lo + 256 * hi) /\ c_mode s3 = mode /\
  b1 + 256 * b2 = v /\ rng 8 b1 /\ rng 8 b2 /\ c_count_latched s5 = 0.
Proof.
  intros Hm Hlo Hhi Hc Hst s3 v. destruct (programmed wired s mode lo hi clk1 clk2 t0 Hm (conj Hc Hst)) as (P1 & P2 & P3 & P4 & P5 & P6).
  fold s3 in P1, P2, P3, P4, P5, P6. unfold PitLatchCount. rewrite P5. change (0 =? 0) with true. cbv iota.
  pose proof (elapsed_same s3 t1) as He. unfold v, PitGetCount. destruct (PitElapsed s3 t1) as [d s3'] eqn:E. cbn [fst snd] in *.
  unfold same_regs in He. destruct He as (E1 & E2 & E3 & E4 & E5 & E6 & E7). set (x := switch _ _ _).
  set (s4 := s3' <| c_latched_count := u16 x |> <| c_count_latched := c_rw_mode s3' |>).
  pose proof (rng_wrap 16 x ltac:(lia)) as Hx.
  assert (R1 : ch_read s4 r1 = (u16 x .& 0xff, s4 <| c_count_latched := kRwMsb |>)).
  { unfold ch_read. replace (c_status_latched s4) with false by (cbn; congruence).
    replace (c_count_latched s4) with 3 by (cbn; congruence). reflexivity. }
  assert (R2 : ch_read (s4 <| c_count_latched := kRwMsb |>) r2 = (u16 x .>> 8, s4 <| c_count_latched := kRwMsb |> <| c_count_latched := 0 |>)).
  { unfold ch_read. replace (c_status_latched (s4 <| c_count_latched := kRwMsb |>)) with false by (cbn; congruence). reflexivity. }
  rewrite R1, R2. split_and!.
  - rewrite P1. unfold reload. rewrite lor_shiftl_add by (lia || done). unfold rng in Hlo, Hhi. change (2 ^ 8) with 256.
    destruct (Z.eqb_spec lo 0), (Z.eqb_spec hi 0); cbn [andb]; destruct (Z.eqb_spec (lo + hi * 256) 0); lia.
  - done.
  - change 0xff with (2 ^ 8 - 1). rewrite land_ones_wrap by lia. unfold wrap at 1. rewrite Z.shiftr_div_pow2 by lia.
    pose proof (Z.div_mod (u16 x) (2 ^ 8) ltac:(lia)). lia.
  - apply (rng_land_ones _ 8). lia.
  - rewrite Z.shiftr_div_pow2 by lia. unfold rng in Hx |- *. split; [apply Z.div_pos; lia|]. apply Z.div_lt_upper_bound; lia.
  - reflexivity.
Qed.

Lemma pit_program_latch_witness :
  c_count (s_hi true ch_zero 2 0x34 0x12 (fun _ => 10) (fun _ => 20) 5) = 0x1234.
Proof.
  pose proof (pit_program_latch true ch_zero 2 0x34 0x12 (fun _ => 10) (fun _ => 20) 5 30 31 32
    ltac:(lia) ltac:(unfold rng; lia) ltac:(unfold rng; lia) eq_refl eq_refl) as H. cbv zeta in H.
  destruct (ch_read (PitLatchCount _ 30) 31) as [b1 s4] in H. destruct (ch_read s4 32) as [b2 s5] in H.
  destruct H as [H _]. exact H.
Defined.
