(* ===== verification/Gdb.v ===== *)
(** * The gdb remote protocol layer (debug/gdbstub.c)

    Hex coding, packet framing with its checksum, escape and resend rules,
    and the breakpoint and watchpoint tables.  The connection is the list of
    bytes still to come; its end is a dropped connection.  The bytes written
    back are returned. *)

From S2P Require Import Prelude.

Definition kPacketMax := 4096.
Definition kMaxBreakpoints := 64.
Definition kMaxWatchpoints := 4.

(** ** Hex *)

(** -1 for a byte that is no hex digit. *)
Definition HexVal (c : Z) : Z :=
  if (48 <=? c) && (c <=? 57) then c - 48
  else if (97 <=? c) && (c <=? 102) then c - 97 + 10
  else if (65 <=? c) && (c <=? 70) then c - 65 + 10
  else -1.

(** The value and what follows the digits; a string ends at a zero byte. *)
Fixpoint HexU64 (s : list Z) (v : Z) : Z * list Z :=
  match s with
  | [] => (v, [])
  | c :: s' =>
      if c =? 0 then (v, s)
      else
        let d := HexVal c in
        if d <? 0 then (v, s) else HexU64 s' (u64 (v .<< 4) .| d)
  end.

(** ["0123456789abcdef"[d]]. *)
Definition hex_digit (d : Z) : Z := if d <? 10 then 48 + d else 97 + (d - 10).

Fixpoint HexEncode (src : list Z) : list Z :=
  match src with [] => [] | b :: src => hex_digit (b .>> 4) :: hex_digit (b .& 15) :: HexEncode src end.

Fixpoint HexDecode (s : list Z) (cap : nat) : list Z :=
  match cap, s with
  | S cap, h :: l :: s =>
      if (h =? 0) || (l =? 0) then []
      else
        let hi := HexVal h in let lo := HexVal l in
        if (hi <? 0) || (lo <? 0) then [] else u8 ((hi .<< 4) .| lo) :: HexDecode s cap
  | _, _ => []
  end.

(** ** Packets *)

Definition kDollar := 36.
Definition kHash := 35.
Definition kEscape := 125.
Definition kPlus := 43.
Definition kMinus := 45.

(** The bytes up to '#': payload, checksum and the rest; [None] when the
    connection drops.  Bytes past the buffer are dropped. *)
Fixpoint pkt_body (inp : list Z) (cap : Z) (out : list Z) (sum : Z) : option (list Z * Z * list Z) :=
  match inp with
  | [] => None
  | b :: inp =>
      let put b := if Z.of_nat (length out) <? cap - 1 then out ++ [b] else out in
      if b =? kHash then Some (out, sum, inp)
      else if b =? kEscape then
        match inp with
        | [] => None
        | esc :: inp => pkt_body inp cap (put (u8 (esc .^ 0x20))) (u8 (u8 (sum + b) + esc))
        end
      else pkt_body inp cap (put b) (u8 (sum + b))
  end.

(** [pr_data = None]: the connection dropped. *)
Record pkt_res := mkPkt { pr_data : option (list Z); pr_rest : list Z; pr_acks : list Z; pr_stop : bool }.

(** Every round takes a byte at least, so the input's length bounds them. *)
Fixpoint PktRead_loop (n : nat) (inp : list Z) (cap : Z) (acks : list Z) (stop : bool) : pkt_res :=
  match n, inp with
  | S n, b :: inp =>
      if b =? 3 then PktRead_loop n inp cap acks true
      else if negb (b =? kDollar) then PktRead_loop n inp cap acks stop
      else
        match pkt_body inp cap [] 0 with
        | Some (out, sum, hi :: lo :: rest) =>
            if (HexVal hi <? 0) || (HexVal lo <? 0) then PktRead_loop n rest cap acks stop
            else
              let want := u8 ((HexVal hi .<< 4) .| HexVal lo) in
              if want =? sum then mkPkt (Some out) rest (acks ++ [kPlus]) stop
              else PktRead_loop n rest cap (acks ++ [kMinus]) stop
        | Some (_, _, _) => mkPkt None [] acks stop
        | None => mkPkt None [] acks stop
        end
  | _, _ => mkPkt None [] acks stop
  end.

Definition PktRead (inp : list Z) (cap : Z) : pkt_res := PktRead_loop (length inp) inp cap [] false.

Definition checksum (data : list Z) : Z := fold_left (fun sum b => u8 (sum + b)) data 0.

(** The frame of a reply, and the reply with its resends: at most three, each
    after a byte that is not '+'. *)
Definition pkt_frame (data : list Z) : list Z :=
  let data := take (Z.to_nat (kPacketMax - 4)) data in
  let sum := checksum data in
  [kDollar] ++ data ++ [kHash; hex_digit (sum .>> 4); hex_digit (sum .& 15)].

Fixpoint send_tries (n : nat) (frame inp : list Z) : list Z * list Z :=
  match n with
  | O => ([], inp)
  | S n =>
      match inp with
      | [] => (frame, [])
      | ack :: inp => if ack =? kPlus then (frame, inp)
                      else let '(out, inp) := send_tries n frame inp in (frame ++ out, inp)
      end
  end.

(** Bytes written and the input left. *)
Definition PktSend (data inp : list Z) : list Z * list Z := send_tries 3 (pkt_frame data) inp.

(** ** Breakpoints and watchpoints *)

Record GdbWatch := mkWatch { gw_addr : Z; gw_len : Z; gw_kind : Z; gw_slot : Z }.

Definition BpHit (bps : list Z) (pc : Z) : bool := existsb (Z.eqb pc) bps.

(** [Z0]/[Z1] and [z0]/[z1]: both answer OK. *)
Definition bp_insert (addr : Z) (bps : list Z) : list Z :=
  if Z.of_nat (length bps) <? kMaxBreakpoints then bps ++ [addr] else bps.
Definition bp_remove (addr : Z) (bps : list Z) : list Z := List.filter (fun b => negb (b =? addr)) bps.

(** The last table entry that matches a removal. *)
Fixpoint watch_find (ws : list GdbWatch) (kind addr len : Z) (i : nat) (at_ : option nat) : option nat :=
  match ws with
  | [] => at_
  | w :: ws => watch_find ws kind addr len (S i)
      (if (gw_kind w =? kind) && (gw_addr w =? addr) && (gw_len w =? len) then Some i else at_)
  end.

(** The slot taken back from the processor and the closed table. *)
Definition WatchRemove (ws : list GdbWatch) (i : nat) : option (Z * list GdbWatch) :=
  w ← ws !! i; Some (gw_slot w, delete i ws).

(** ** Hex round trips *)

Lemma hex_digit_ok d : 0 <= d < 16 -> HexVal (hex_digit d) = d /\ hex_digit d <> 0 /\ hex_digit d <> kHash /\
  hex_digit d <> kEscape /\ 0 <= hex_digit d < 256.
Proof.
  assert (G : forallb (fun d => (HexVal (hex_digit d) =? d) && negb (hex_digit d =? 0) && negb (hex_digit d =? kHash) &&
    negb (hex_digit d =? kEscape) && (0 <=? hex_digit d) && (hex_digit d <? 256)) (seqZ 0 16) = true) by (vm_compute; reflexivity).
  intros Hd. rewrite forallb_forall in G. specialize (G d). rewrite <- list_elem_of_In, elem_of_seqZ in G. specialize (G ltac:(lia)).
  repeat (apply andb_true_iff in G as [G ?]). rewrite !negb_true_iff, ?Z.eqb_neq in *. apply Z.eqb_eq in G.
  apply Z.leb_le in H0. apply Z.ltb_lt in H. done.
Qed.

Lemma nibbles b : rng 8 b -> 0 <= b .>> 4 < 16 /\ 0 <= b .& 15 < 16 /\ u8 ((b .>> 4 .<< 4) .| (b .& 15)) = b.
Proof.
  intros Hb. unfold rng in Hb. change (2 ^ 8) with 256 in Hb.
  assert (Hl : b .& 15 = b mod 16) by (change 15 with (Z.ones 4); rewrite Z.land_ones by lia; done).
  rewrite Z.shiftr_div_pow2 by lia. rewrite Hl. change (2 ^ 4) with 16.
  pose proof (Z.mod_pos_bound b 16 ltac:(lia)) as Hm. pose proof (Z.div_mod b 16 ltac:(lia)) as Hd.
  assert (0 <= b / 16 < 16) by (split; [apply Z.div_pos; lia|apply Z.div_lt_upper_bound; lia]).
  split; [done|]. split; [done|]. rewrite Z.lor_comm, lor_shiftl_add; [|lia|unfold rng; change (2 ^ 4) with 16; lia].
  change (2 ^ 4) with 16. replace (b mod 16 + b / 16 * 16) with b by lia. apply wrap_small. exact Hb.
Qed.

Lemma hex_roundtrip bs cap : Forall (rng 8) bs -> (length bs <= cap)%nat -> HexDecode (HexEncode bs) cap = bs.
Proof.
  intros Hb. revert cap. induction Hb as [|b bs Hb _ IH]; intros [|cap] Hc; cbn [HexEncode HexDecode length] in *; try done; try lia.
  destruct (nibbles b Hb) as (N1 & N2 & N3). destruct (hex_digit_ok _ N1) as (V1 & Z1 & _), (hex_digit_ok _ N2) as (V2 & Z2 & _).
  rewrite (proj2 (Z.eqb_neq _ _) Z1), (proj2 (Z.eqb_neq _ _) Z2). cbn [orb]. rewrite V1, V2.
  rewrite (proj2 (Z.ltb_ge _ _)), (proj2 (Z.ltb_ge _ _)) by lia. cbn [orb]. rewrite N3. f_equal. apply IH. lia.
Qed.

Lemma length_HexEncode bs : length (HexEncode bs) = (2 * length bs)%nat.
Proof. induction bs; cbn; lia. Qed.

Lemma take_HexEncode n bs : take (2 * n) (HexEncode bs) = HexEncode (take n bs).
Proof.
  revert bs. induction n as [|n IH]; intros [|b bs]; try done. replace (2 * S n)%nat with (S (S (2 * n))) by lia.
  cbn [HexEncode take]. by rewrite IH.
Qed.

(** ** Frames round trip *)

Definition plain (b : Z) : Prop := b <> kHash /\ b <> kEscape.

Lemma HexEncode_plain bs : Forall (rng 8) bs -> Forall plain (HexEncode bs).
Proof.
  induction 1 as [|b bs Hb _ IH]; cbn [HexEncode]; [done|]. destruct (nibbles b Hb) as (N1 & N2 & _).
  destruct (hex_digit_ok _ N1) as (_ & _ & ? & ? & _), (hex_digit_ok _ N2) as (_ & _ & ? & ? & _).
  repeat (apply Forall_cons_2); done.
Qed.

Lemma pkt_body_plain data rest cap out sum : Forall plain data -> Z.of_nat (length out + length data) <= cap - 1 ->
  pkt_body (data ++ kHash :: rest) cap out sum = Some (out ++ data, fold_left (fun s b => u8 (s + b)) data sum, rest).
Proof.
  intros Hp. revert out sum. induction Hp as [|b data [H1 H2] _ IH]; intros out sum Hc; cbn [app pkt_body fold_left].
  - by rewrite Z.eqb_refl, app_nil_r.
  - cbn [length] in Hc. rewrite (proj2 (Z.eqb_neq _ _) H1), (proj2 (Z.eqb_neq _ _) H2), (proj2 (Z.ltb_lt _ _)) by lia.
    rewrite IH by (rewrite length_app; cbn; lia). by rewrite <- app_assoc.
Qed.

Lemma checksum_rng data : rng 8 (checksum data).
Proof.
  unfold checksum. assert (G : forall s, rng 8 s -> rng 8 (fold_left (fun s b => u8 (s + b)) data s)).
  { induction data as [|b data IH]; intros s Hs; cbn; [done|]. apply IH, rng_wrap. lia. }
  apply G. unfold rng. lia.
Qed.

Lemma frame_read noise data rest cap : Forall (fun b => b <> kDollar /\ b <> 3) noise -> Forall plain data ->
  Z.of_nat (length data) <= kPacketMax - 4 -> Z.of_nat (length data) <= cap - 1 ->
  PktRead (noise ++ pkt_frame data ++ rest) cap = mkPkt (Some data) rest [kPlus] false.
Proof.
  intros Hn Hp Hl Hc. unfold PktRead. assert (G : forall n, (length noise < n)%nat ->
    PktRead_loop n (noise ++ pkt_frame data ++ rest) cap [] false = mkPkt (Some data) rest [kPlus] false);
    [|apply G; rewrite length_app; unfold pkt_frame; cbn; lia].
  induction Hn as [|b noise [H1 H2] _ IH]; intros [|n] Hlen; cbn [length] in Hlen; try lia.
  - unfold pkt_frame. rewrite take_ge by (unfold kPacketMax in *; lia).
    change ([] ++ ?x) with x. change (([kDollar] ++ ?x) ++ rest) with (kDollar :: (x ++ rest)). cbn [PktRead_loop].
    change (kDollar =? 3) with false. rewrite Z.eqb_refl. cbn [negb]. rewrite <- app_assoc.
    set (sum := checksum data). cbn [app]. rewrite pkt_body_plain by (done || (cbn; lia)). cbn [app]. fold (checksum data) sum.
    destruct (nibbles sum (checksum_rng data)) as (N1 & N2 & N3). destruct (hex_digit_ok _ N1) as (V1 & _), (hex_digit_ok _ N2) as (V2 & _).
    rewrite V1, V2, (proj2 (Z.ltb_ge _ _)), (proj2 (Z.ltb_ge _ _)) by lia. cbn [orb]. by rewrite N3, Z.eqb_refl.
  - cbn [app PktRead_loop]. rewrite (proj2 (Z.eqb_neq b 3)), (proj2 (Z.eqb_neq b kDollar)) by done. cbn [negb]. apply IH. lia.
Qed.

(** What the stub sends, the packet reader recovers: the frame of hex-coded bytes, preceded by any
    bytes that are neither a frame start nor an interrupt, is acknowledged with one '+', leaves the
    rest of the stream alone, and its payload decodes to the bytes, of which the sender keeps the
    first 2046. *)
Theorem gdb_wire_roundtrip bs noise rest cap : Forall (rng 8) bs -> Forall (fun b => b <> kDollar /\ b <> 3) noise ->
  kPacketMax <= cap ->
  let r := PktRead (noise ++ pkt_frame (HexEncode bs) ++ rest) cap in
  pr_rest r = rest /\ pr_acks r = [kPlus] /\
  exists payload, pr_data r = Some payload /\ HexDecode payload (length bs) = take 2046 bs.
Proof.
  intros Hb Hn Hc r. assert (Ef : pkt_frame (HexEncode bs) = pkt_frame (HexEncode (take 2046 bs))).
  { unfold pkt_frame. change (Z.to_nat (kPacketMax - 4)) with (2 * 2046)%nat. rewrite !take_HexEncode.
    by rewrite take_take, Nat.min_id. }
  assert (Hb' : Forall (rng 8) (take 2046 bs)) by (by apply Forall_take).
  assert (El : (length (HexEncode (take 2046 bs)) <= 4092)%nat) by (rewrite length_HexEncode, length_take; lia).
  assert (Er : r = mkPkt (Some (HexEncode (take 2046 bs))) rest [kPlus] false).
  { unfold r. rewrite Ef. apply frame_read; [done|by apply HexEncode_plain|unfold kPacketMax; lia|unfold kPacketMax in Hc; lia]. }
  rewrite Er. cbn. split; [done|]. split; [done|]. eexists. split; [reflexivity|]. apply hex_roundtrip; [done|].
  rewrite length_take. lia.
Qed.

Lemma gdb_wire_roundtrip_witness :
  exists payload, pr_data (PktRead ([kPlus] ++ pkt_frame (HexEncode [0x12; 0xab]) ++ []) 4096) = Some payload /\
    HexDecode payload 2 = [0x12; 0xab].
Proof.
  destruct (gdb_wire_roundtrip [0x12; 0xab] [kPlus] [] 4096) as (_ & _ & payload & H1 & H2).
  - repeat constructor; unfold rng; lia.
  - repeat constructor; discriminate.
  - unfold kPacketMax. lia.
  - exists payload. split; [exact H1|exact H2].
Defined.

(** A damaged frame is refused and the resent one taken. *)
Lemma bad_checksum_resync data rest c1 c2 : Forall plain data -> Z.of_nat (length data) <= kPacketMax - 4 ->
  0 <= HexVal c1 -> 0 <= HexVal c2 -> u8 ((HexVal c1 .<< 4) .| HexVal c2) <> checksum data ->
  PktRead (kDollar :: data ++ [kHash; c1; c2] ++ pkt_frame data ++ rest) kPacketMax =
  mkPkt (Some data) rest [kMinus; kPlus] false.
Proof.
  intros Hp Hl H1 H2 Hne. unfold PktRead. cbn [length PktRead_loop]. change (kDollar =? 3) with false. rewrite Z.eqb_refl. cbn [negb].
  cbn [app]. rewrite pkt_body_plain by (done || (unfold kPacketMax in *; cbn; lia)). fold (checksum data).
  rewrite (proj2 (Z.ltb_ge _ _)), (proj2 (Z.ltb_ge _ _)) by done. cbn [orb]. rewrite (proj2 (Z.eqb_neq _ _) Hne). cbn [app].
  assert (G : forall n acks, (0 < n)%nat -> PktRead_loop n (pkt_frame data ++ rest) kPacketMax acks false =
    mkPkt (Some data) rest (acks ++ [kPlus]) false); [|apply (G _ [kMinus]); rewrite length_app; cbn; lia].
  intros [|n] acks Hn; [lia|]. unfold pkt_frame. rewrite take_ge by (unfold kPacketMax in *; lia).
  change (([kDollar] ++ ?x) ++ rest) with (kDollar :: (x ++ rest)). cbn [PktRead_loop].
  change (kDollar =? 3) with false. rewrite Z.eqb_refl. cbn [negb]. rewrite <- app_assoc. cbn [app].
  rewrite pkt_body_plain by (done || (unfold kPacketMax in *; cbn; lia)). cbn [app]. fold (checksum data).
  destruct (nibbles _ (checksum_rng data)) as (N1 & N2 & N3). destruct (hex_digit_ok _ N1) as (V1 & _), (hex_digit_ok _ N2) as (V2 & _).
  rewrite V1, V2, (proj2 (Z.ltb_ge _ _)), (proj2 (Z.ltb_ge _ _)) by lia. cbn [orb]. by rewrite N3, Z.eqb_refl.
Qed.

(** The table of breakpoints is the set gdb asked for, until it is full. *)
Lemma bp_insert_hit addr bps pc : (length bps < 64)%nat -> BpHit (bp_insert addr bps) pc = BpHit bps pc || (pc =? addr).
Proof.
  intros Hl. unfold bp_insert. rewrite (proj2 (Z.ltb_lt _ _)) by (unfold kMaxBreakpoints; lia). unfold BpHit. rewrite existsb_app. cbn.
  by rewrite orb_false_r.
Qed.

Lemma bp_remove_hit addr bps pc : BpHit (bp_remove addr bps) pc = BpHit bps pc && negb (pc =? addr).
Proof.
  unfold BpHit, bp_remove. induction bps as [|b bps IH]; [done|]. cbn. destruct (Z.eqb_spec b addr) as [->|Hne]; cbn.
  - rewrite IH. destruct (pc =? addr); cbn; btauto.
  - rewrite IH. destruct (Z.eqb_spec pc b) as [->|]; cbn; [|done]. by rewrite (proj2 (Z.eqb_neq _ _) Hne).
Qed.
