(* ===== verification/Run.v ===== *)
(** * The run loop of a board (board/run.c, host/time_win.c)

    [BoardRunSteps]: host servicing at its stride, idle time, one processor
    step, the instruction count, machine reset, the stop callback and the
    instruction limit.  The processor model, the devices and the host are the
    function pointers of [Board] and [isa_ops] and the host calls, as a type
    class over the board; the emulated clock and the synthetic input items
    are modelled as the code has them. *)

From S2P Require Import Prelude Bus Ram RvState.

(** ** The emulated clock (host/time_win.c) *)

(** [ck_wall_us] is the host's own clock. *)
Record HostClock := mkClock { ck_warp_us : Z; ck_icount_shift : Z; ck_icount_ns : Z; ck_wall_us : Z }.

Definition HostTimerIcountOn (k : HostClock) : bool := 0 <=? ck_icount_shift k.
Definition HostTimerNow (k : HostClock) : Z :=
  if HostTimerIcountOn k then ck_icount_ns k / 1000 + ck_warp_us k else ck_wall_us k + ck_warp_us k.
Definition HostTimerIcountEnable (shift : Z) (k : HostClock) : HostClock :=
  mkClock (ck_warp_us k) shift 0 (ck_wall_us k).
Definition HostTimerIcountAdvance (k : HostClock) : HostClock :=
  if HostTimerIcountOn k
  then mkClock (ck_warp_us k) (ck_icount_shift k) (ck_icount_ns k + (1 .<< ck_icount_shift k)) (ck_wall_us k) else k.
Definition HostTimerWarp (us : Z) (k : HostClock) : HostClock :=
  if 0 <? us then mkClock (ck_warp_us k + us) (ck_icount_shift k) (ck_icount_ns k) (ck_wall_us k) else k.
(** [Sleep] lets [ms] milliseconds of host time pass. *)
Definition HostSleepMs (ms : Z) (k : HostClock) : HostClock :=
  mkClock (ck_warp_us k) (ck_icount_shift k) (if HostTimerIcountOn k then ck_icount_ns k + ms * 1000 else ck_icount_ns k)
    (ck_wall_us k + ms * 1000).

(** ** Synthetic input (debug/debug.c) *)

Inductive inj_event := InjMouse (dx dy dz buttons : Z) | InjKey (scan extended up : Z).
Record injection := mkInj { inj_what : inj_event; inj_period : Z; inj_next_at : Z }.

(** The catch-up loop of an item that came due: a period at a time until past
    the count.  The fuel is the number of periods it takes. *)
Fixpoint catch_up (n : nat) (period count next_at : Z) : Z :=
  let next_at := next_at + period in
  match n with O => next_at | S n => if next_at <=? count then catch_up n period count next_at else next_at end.

Fixpoint DebugNextInjection (inst_count : Z) (l : list injection) : option (inj_event * list injection) :=
  match l with
  | [] => None
  | i :: l =>
      if inst_count <? inj_next_at i then '(e, l) ← DebugNextInjection inst_count l; Some (e, i :: l)
      else Some (inj_what i, mkInj (inj_what i) (inj_period i)
                   (catch_up (Z.to_nat (inst_count - inj_next_at i)) (inj_period i) inst_count (inj_next_at i)) :: l)
  end.

(** ** The board *)

(** [b_x]: everything behind the function pointers (processor-private state,
    buses, devices). *)
Record Board (X : Type) := mkBoard {
  b_cpu : CpuState; b_x : X; b_clock : HostClock; b_reset_pending : bool; b_skip_idle : bool; b_inj : list injection;
}.
Arguments mkBoard {X}.
Arguments b_cpu {X}.
Arguments b_x {X}.
Arguments b_clock {X}.
Arguments b_reset_pending {X}.
Arguments b_skip_idle {X}.
Arguments b_inj {X}.
Definition eta_board {X} (b : Board X) : Board X :=
  mkBoard (b_cpu b) (b_x b) (b_clock b) (b_reset_pending b) (b_skip_idle b) (b_inj b).
#[export] Instance upd_b_cpu {X} : Upd (@b_cpu X) := ltac:(mk_upd (@eta_board X) (@b_cpu X)).
#[export] Instance upd_b_x {X} : Upd (@b_x X) := ltac:(mk_upd (@eta_board X) (@b_x X)).
#[export] Instance upd_b_clock {X} : Upd (@b_clock X) := ltac:(mk_upd (@eta_board X) (@b_clock X)).
#[export] Instance upd_b_reset_pending {X} : Upd (@b_reset_pending X) := ltac:(mk_upd (@eta_board X) (@b_reset_pending X)).
#[export] Instance upd_b_skip_idle {X} : Upd (@b_skip_idle X) := ltac:(mk_upd (@eta_board X) (@b_skip_idle X)).
#[export] Instance upd_b_inj {X} : Upd (@b_inj X) := ltac:(mk_upd (@eta_board X) (@b_inj X)).

(** What the loop calls through pointers; [None] is a null pointer.  A window
    that is open answers [Some closed] after its messages are pumped. *)
Class BoardOps (X : Type) := {
  isa_step : M (Board X) unit;
  board_poll : option (M (Board X) unit);
  host_input_poll : M (Board X) unit;
  mouse_in : option (Z -> Z -> Z -> Z -> Board X -> Board X);
  key_in : option (Z -> Z -> Z -> Board X -> Board X);
  display_pump : Board X -> option bool * Board X;
  next_event_us : option (Board X -> Z);
  board_reset : option (Board X -> Board X);
}.

Definition kPollStrideLog2 := 10.

Section run.
Context {X : Type} `{BoardOps X}.

(** ** Servicing and idle time *)

Definition inject (e : inj_event) (b : Board X) : Board X :=
  match e with
  | InjMouse dx dy dz buttons => match mouse_in with Some f => f dx dy dz buttons b | None => b end
  | InjKey scan extended up => match key_in with Some f => f scan extended up b | None => b end
  end.

(** The injection loop; every round puts an item past the count, so the
    number of items bounds it. *)
Fixpoint injections (n : nat) (b : Board X) : Board X :=
  match n with
  | O => b
  | S n =>
      match DebugNextInjection (inst_count (b_cpu b)) (b_inj b) with
      | Some (e, l) => injections n (inject e (b <| b_inj := l |>))
      | None => b
      end
  end.

(** [true]: the window was closed and the loop is left. *)
Definition service : M (Board X) bool :=
  b <- getS ;;
  if (inst_count (b_cpu b) .& ((1 .<< kPollStrideLog2) - 1) =? 0) || wait (b_cpu b) then
    match board_poll with Some p => p | None => mret' tt end ;;;
    host_input_poll ;;;
    modify (fun b => injections (length (b_inj b)) b) ;;;
    b <- getS ;;
    match display_pump b with
    | (None, b) => modify (fun _ => b) ;;; mret' false
    | (Some closed, b) =>
        modify (fun _ => b) ;;;
        if closed then modify (fun b => b <| b_cpu := (b_cpu b) <| halted := true |> |>) ;;; mret' true else mret' false
    end
  else mret' false.

(** Asleep: jump to the next device deadline or give the host a millisecond. *)
Definition idle (b : Board X) : Board X :=
  let warp_idle := b_skip_idle b || HostTimerIcountOn (b_clock b) in
  let wake_us := if warp_idle then match next_event_us with Some f => f b | None => 0 end else 0 in
  b <| b_clock := if 0 <? wake_us then HostTimerWarp wake_us (b_clock b) else HostSleepMs 1 (b_clock b) |>.

(** How a pass of the loop went on: still asleep, restarted by a reset, or an
    instruction retired. *)
Inductive pass_end := PClosed | PAsleep | PReset | PRetired.

Definition pass : M (Board X) pass_end :=
  closed <- service ;;
  if closed then mret' PClosed
  else
    b <- getS ;;
    let asleep := wait (b_cpu b) in
    (when asleep do modify idle) ;;;
    isa_step ;;;
    b <- getS ;;
    if asleep && wait (b_cpu b) then mret' PAsleep
    else
      modify (fun b => b <| b_cpu := (b_cpu b) <| inst_count := u64 (inst_count (b_cpu b) + 1) |> |>
                         <| b_clock := HostTimerIcountAdvance (b_clock b) |>) ;;;
      b <- getS ;;
      if b_reset_pending b then
        modify (fun b => let b := b <| b_reset_pending := false |> in
                         match board_reset with Some f => f b | None => b end) ;;;
        mret' PReset
      else mret' PRetired.

(** ** The loop

    The callback's context is [C].  [true]: a callback ended the batch; the
    fuel counts passes. *)
Definition lift_board {C A} (p : M (Board X) A) : M (C * Board X) A := fun s =>
  match p s.2 with
  | Done a b => Done a (s.1, b)
  | Raised t b => Raised t (s.1, b)
  | Aborted r => Aborted r
  end.

Fixpoint BoardRunSteps {C} (n : nat) (max_inst : Z) (stop_cb : option (M (C * Board X) bool)) : M (C * Board X) bool :=
  s <- getS ;;
  if halted (b_cpu s.2) then mret' false
  else
    match n with
    | O => abort OutOfFuel
    | S n =>
        let call k := match stop_cb with Some cb => stop <- cb ;; if stop then mret' true else k | None => k end in
        e <- lift_board pass ;;
        match e with
        | PClosed => mret' false
        | PAsleep => call (BoardRunSteps n max_inst stop_cb)
        | PReset => BoardRunSteps n max_inst stop_cb
        | PRetired =>
            call (s <- getS ;;
                  if negb (max_inst =? 0) && (max_inst <=? inst_count (b_cpu s.2)) then mret' false
                  else BoardRunSteps n max_inst stop_cb)
        end
    end.
End run.

(** * Theorems about the run loop

    The instruction limit ends every run of a board that stays awake; the
    synthetic input loop ends with no item due; what idle time costs on the
    emulated clock. *)

(** ** Synthetic input *)

Lemma catch_up_past period count n at_ : 0 < period -> at_ <= count -> count - at_ <= Z.of_nat n ->
  count < catch_up n period count at_.
Proof.
  intros Hp. revert at_. induction n as [|n IH]; intros at_ Ha Hn; cbn [catch_up]; [lia|].
  destruct (Z.leb_spec (at_ + period) count); [apply IH; lia|done].
Qed.

Definition due (count : Z) (i : injection) : bool := inj_next_at i <=? count.
Definition due_count (count : Z) (l : list injection) : nat := length (List.filter (due count) l).

Lemma next_injection count l : Forall (fun i => 0 < inj_period i) l ->
  match DebugNextInjection count l with
  | Some (e, l') => Forall (fun i => 0 < inj_period i) l' /\ due_count count l = S (due_count count l') /\ length l' = length l
  | None => due_count count l = 0%nat
  end.
Proof.
  unfold due_count. induction 1 as [|i l Hi Hl IH]; [done|]. cbn [DebugNextInjection List.filter].
  assert (Ed : due count i = (inj_next_at i <=? count)) by done. destruct (Z.ltb_spec count (inj_next_at i)) as [Hd|Hd].
  - rewrite (proj2 (Z.leb_gt _ _) Hd) in Ed. rewrite Ed. destruct (DebugNextInjection count l) as [[e l']|]; cbn; [|done].
    rewrite Ed. destruct IH as (H1 & H2 & H3). split; [by constructor|]. split; [done|lia].
  - rewrite (proj2 (Z.leb_le _ _) Hd) in Ed. rewrite Ed. set (i' := mkInj _ _ _). split; [by constructor|]. split; [|done].
    cbn [List.filter length]. assert (due count i' = false) as ->; [|done].
    apply Z.leb_gt. cbn [i' inj_next_at]. apply catch_up_past; lia.
Qed.

Section run.
Context {X : Type} `{BoardOps X}.

(** The input sinks leave the count and the items alone. *)
Definition sinks_frame : Prop := forall e b, inst_count (b_cpu (inject e b)) = inst_count (b_cpu b) /\ b_inj (inject e b) = b_inj b.

Lemma injections_end b n : sinks_frame -> Forall (fun i => 0 < inj_period i) (b_inj b) ->
  (due_count (inst_count (b_cpu b)) (b_inj b) <= n)%nat ->
  let b' := injections n b in
  inst_count (b_cpu b') = inst_count (b_cpu b) /\ due_count (inst_count (b_cpu b)) (b_inj b') = 0%nat.
Proof.
  intros Hs. revert b. induction n as [|n IH]; intros b Hp Hn; cbn [injections].
  { split; [done|lia]. }
  pose proof (next_injection (inst_count (b_cpu b)) (b_inj b) Hp) as Hi.
  destruct (DebugNextInjection _ _) as [[e l]|]; [|done]. destruct Hi as (H1 & H2 & _).
  destruct (Hs e (b <| b_inj := l |>)) as [E1 E2]. cbn [b_cpu b_inj upd upd_b_inj] in E1, E2.
  specialize (IH (inject e (b <| b_inj := l |>))). rewrite E1, E2 in IH. apply IH; [done|lia].
Qed.

(** ** A board that stays awake *)

(** What every part behind the pointers keeps, on a board with this
    property: it completes, leaves the instruction count alone, and neither
    puts the processor to sleep nor asks for a reset; no window is closed. *)
Definition keeps (I : Board X -> Prop) (b b' : Board X) : Prop := I b' /\ inst_count (b_cpu b') = inst_count (b_cpu b).

Class StaysAwake (I : Board X -> Prop) : Prop := {
  sa_awake : forall b, I b -> wait (b_cpu b) = false /\ b_reset_pending b = false;
  sa_step : forall b, I b -> exists b', isa_step b = Done tt b' /\ keeps I b b';
  sa_poll : forall p b, board_poll = Some p -> I b -> exists b', p b = Done tt b' /\ keeps I b b';
  sa_input : forall b, I b -> exists b', host_input_poll b = Done tt b' /\ keeps I b b';
  sa_inj : forall b, I b -> keeps I b (injections (length (b_inj b)) b);
  sa_display : forall b, I b -> (display_pump b).1 <> Some true /\ keeps I b (display_pump b).2;
  sa_retire : forall b, I b -> I (b <| b_cpu := (b_cpu b) <| inst_count := u64 (inst_count (b_cpu b) + 1) |> |>
                                    <| b_clock := HostTimerIcountAdvance (b_clock b) |>);
}.

Section awake.
Context (I : Board X -> Prop) `{!StaysAwake I}.

Lemma service_awake b : I b -> exists b', service b = Done false b' /\ keeps I b b'.
Proof.
  intros Hb. unfold service. cbn [mbind' getS]. destruct (_ || _); [|exists b; by split].
  assert (Hp : exists b1, match board_poll with Some p => p | None => mret' tt end b = Done tt b1 /\ keeps I b b1).
  { destruct board_poll as [p|] eqn:E; [by apply sa_poll|exists b; by split]. }
  destruct Hp as (b1 & E1 & H1 & C1). destruct (sa_input b1 H1) as (b2 & E2 & H2 & C2).
  destruct (sa_inj b2 H2) as [H3 C3]. set (b3 := injections _ b2) in *. destruct (sa_display b3 H3) as [H4 H5].
  unfold mbind'. rewrite E1, E2. unfold modify, getS. fold b3. destruct (display_pump b3) as [[[|]|] b4]; cbn in *.
  - done.
  - exists b4. split; [done|]. destruct H5 as [? C4]. split; [done|congruence].
  - exists b4. split; [done|]. destruct H5 as [? C4]. split; [done|congruence].
Qed.

Lemma pass_awake b : I b -> inst_count (b_cpu b) + 1 < 2 ^ 64 -> 0 <= inst_count (b_cpu b) ->
  exists b', pass b = Done PRetired b' /\ I b' /\ inst_count (b_cpu b') = inst_count (b_cpu b) + 1.
Proof.
  intros Hb Hc H0. destruct (service_awake b Hb) as (b1 & E1 & H1 & C1). destruct (sa_awake b1 H1) as [W1 _].
  destruct (sa_step b1 H1) as (b2 & E2 & H2 & C2). pose proof (sa_retire b2 H2) as H3. set (b3 := _ <| b_clock := _ |>) in H3.
  destruct (sa_awake b3 H3) as [_ R3]. exists b3. split.
  - unfold pass, mbind'. rewrite E1. unfold getS at 1. cbn [fst]. rewrite W1. cbv iota. unfold mret' at 1. rewrite E2. unfold getS at 1.
    cbn [andb]. unfold modify at 1, getS at 1. fold b3. by rewrite R3.
  - split; [done|]. subst b3. cbn. rewrite C2, C1. apply wrap_small. unfold rng. lia.
Qed.

End awake.

(** C29: the instruction limit ends the run: on a board whose parts complete, keep the processor
    awake and ask for no reset, a batch with limit max started below it returns after at most max
    minus the current count passes, either because the processor halted or with exactly max
    instructions retired. *)
Theorem run_limit {C} (I : Board X -> Prop) (c : C) b max n : StaysAwake I -> I b ->
  0 <= inst_count (b_cpu b) < max -> max < 2 ^ 64 -> max - inst_count (b_cpu b) <= Z.of_nat n ->
  exists b', BoardRunSteps n max None (c, b) = Done false (c, b') /\ I b' /\
    inst_count (b_cpu b) <= inst_count (b_cpu b') <= max /\ (halted (b_cpu b') = true \/ inst_count (b_cpu b') = max).
Proof.
  intros HI. revert b. induction n as [|n IH]; intros b Hb Hc Hm Hn; [lia|]. cbn [BoardRunSteps].
  unfold mbind' at 1, getS at 1. cbn [snd]. destruct (halted (b_cpu b)) eqn:Hh.
  { exists b. split_and!; try done; try lia; by left. }
  destruct (pass_awake I b Hb ltac:(lia) ltac:(lia)) as (b1 & E1 & H1 & C1). unfold mbind' at 1, lift_board.
  cbn [snd fst]. rewrite E1. unfold mbind' at 1, getS at 1. cbn [snd].
  rewrite (proj2 (Z.eqb_neq max 0)) by lia. cbn [negb andb]. destruct (Z.leb_spec max (inst_count (b_cpu b1))) as [Hl|Hl].
  - exists b1. split_and!; try done; try lia; right; lia.
  - destruct (IH b1 H1 ltac:(lia) Hm ltac:(lia)) as (b' & E & H2 & H3 & H4). exists b'. split_and!; try done; lia.
Qed.

End run.

(** ** Idle time under instruction counting *)

(** The wait is billed to the emulated clock a thousand times too short: one
    microsecond for a millisecond. *)
Theorem idle_sleep_billing k ms : HostTimerIcountOn k = true ->
  HostTimerNow (HostSleepMs ms k) = HostTimerNow k + ms.
Proof.
  intros Hk. assert (Hk' : HostTimerIcountOn (HostSleepMs ms k) = true) by exact Hk.
  unfold HostTimerNow. rewrite Hk', Hk. unfold HostSleepMs. rewrite Hk. cbn [ck_icount_ns ck_warp_us].
  rewrite Z.div_add by lia. lia.
Qed.
