(* ===== verification/GdbSession.v ===== *)
(** * The gdb session (debug/gdbstub.c)

    The stop callbacks the run loop calls after every step, the packets of an
    attached client, and the alternation of sessions and free runs.  The
    processor's gdb hooks and the memory packets' bus are a type class beside
    [BoardOps]; a connection is the bytes it will deliver. *)

From S2P Require Import Prelude Gdb Bus Ram RvState Run.
From Stdlib Require Strings.String.
Import Strings.String.StringSyntax.

(** C string literals; a single quote stands for a double one in [xml]. *)
Fixpoint str (s : String.string) : list Z :=
  match s with String.EmptyString => [] | String.String c s => Z.of_N (Ascii.N_of_ascii c) :: str s end.
Definition xml (s : String.string) : list Z := (fun c => if c =? 39 then 34 else c) <$> str s.

(** The characters before the terminator. *)
Fixpoint cstr (s : list Z) : list Z := match s with [] => [] | c :: s => if c =? 0 then [] else c :: cstr s end.
Definition at0 (s : list Z) : Z := default 0 (head s).

(** ["%02x"] of a byte. *)
Definition hex2 (v : Z) : list Z := [hex_digit (v .>> 4); hex_digit (v .& 15)].

(** ** The target description *)

Definition kXmlSize : nat := 4096.

Definition x86_flag (name bit_lo bit_hi : String.string) : list Z :=
  xml "<field name='" ++ str name ++ xml "' start='" ++ str bit_lo ++ xml "' end='" ++ str bit_hi ++ xml "'/>".
Definition x86_flags : list Z :=
  concat [x86_flag "" "22" "31"; x86_flag "ID" "21" "21"; x86_flag "VIP" "20" "20"; x86_flag "VIF" "19" "19";
          x86_flag "AC" "18" "18"; x86_flag "VM" "17" "17"; x86_flag "RF" "16" "16"; x86_flag "" "15" "15";
          x86_flag "NT" "14" "14"; x86_flag "IOPL" "12" "13"; x86_flag "OF" "11" "11"; x86_flag "DF" "10" "10";
          x86_flag "IF" "9" "9"; x86_flag "TF" "8" "8"; x86_flag "SF" "7" "7"; x86_flag "ZF" "6" "6"; x86_flag "" "5" "5";
          x86_flag "AF" "4" "4"; x86_flag "" "3" "3"; x86_flag "PF" "2" "2"; x86_flag "" "1" "1"; x86_flag "CF" "0" "0"].
Definition xml_reg (name bits type : String.string) : list Z :=
  xml "<reg name='" ++ str name ++ xml "' bitsize='" ++ str bits ++ xml "' type='" ++ str type ++ xml "'/>".
Definition x86_regs : list Z :=
  xml "<reg name='eax' bitsize='32' type='int32' regnum='0'/>" ++
  concat ((fun n => xml_reg n "32" "int32") <$> ["ecx"; "edx"; "ebx"]) ++
  concat ((fun n => xml_reg n "32" "data_ptr") <$> ["esp"; "ebp"]) ++
  concat ((fun n => xml_reg n "32" "int32") <$> ["esi"; "edi"]) ++
  xml_reg "eip" "32" "code_ptr" ++ xml_reg "eflags" "32" "i386_eflags" ++
  concat ((fun n => xml_reg n "32" "int32") <$> ["cs"; "ss"; "ds"; "es"; "fs"; "gs"]) ++
  concat ((fun n => xml_reg n "80" "i387_ext") <$> ["st0"; "st1"; "st2"; "st3"; "st4"; "st5"; "st6"; "st7"]) ++
  concat ((fun n => xml "<reg name='" ++ str n ++ xml "' bitsize='32' type='int' group='float'/>") <$>
    ["fctrl"; "fstat"; "ftag"; "fiseg"; "fioff"; "foseg"; "fooff"; "fop"]).
Definition x86_xml : list Z :=
  xml "<?xml version='1.0'?><!DOCTYPE target SYSTEM 'gdb-target.dtd'><target><architecture>i386</architecture>" ++
  xml "<feature name='org.gnu.gdb.i386.core'><flags id='i386_eflags' size='4'>" ++ x86_flags ++ xml "</flags>" ++
  x86_regs ++ xml "</feature></target>".

Definition riscv_names : list String.string :=
  ["zero"; "ra"; "sp"; "gp"; "tp"; "t0"; "t1"; "t2"; "s0"; "s1"; "a0"; "a1"; "a2"; "a3"; "a4"; "a5"; "a6"; "a7"; "s2"; "s3";
   "s4"; "s5"; "s6"; "s7"; "s8"; "s9"; "s10"; "s11"; "t3"; "t4"; "t5"; "t6"].
(** A register is left out once fewer than 96 bytes of the buffer remain. *)
Definition riscv_xml (rv32 : bool) : list Z :=
  let bits : String.string := if rv32 then "32" else "64" in
  let head := xml "<?xml version='1.0'?><!DOCTYPE target SYSTEM 'gdb-target.dtd'><target><architecture>riscv:rv" ++ str bits ++
              xml "</architecture><feature name='org.gnu.gdb.riscv.cpu'>" in
  let reg t n := if (length t <? kXmlSize - 96)%nat
                 then t ++ xml "<reg name='" ++ str n ++ xml "' bitsize='" ++ str bits ++ xml "' type='int" ++ str bits ++ xml "'/>"
                 else t in
  fold_left reg riscv_names head ++ xml "<reg name='pc' bitsize='" ++ str bits ++ xml "' type='code_ptr'/></feature></target>".

(** [snprintf] keeps what fits its buffer. *)
Definition TargetXml (isa_name : list Z) : list Z :=
  take (kXmlSize - 1)
    (if bool_decide (isa_name = str "x86") then x86_xml
     else if bool_decide (isa_name = str "riscv64") then riscv_xml false
     else if bool_decide (isa_name = str "riscv32") then riscv_xml true
     else []).

(** ** The stub *)

(** [k_in]: the bytes to come; [k_ready]: for each readiness query in turn,
    how many of them are at hand (none once the list is used up). *)
Record Conn := mkConn { k_in : list Z; k_ready : list Z }.

(** [g_accepts]: the answers of successive accepts; [g_sent]: the bytes
    written; [g_pkt]: the packet buffer of the session. *)
Record GdbStub := mkGdb {
  g_accepts : list (option Conn); g_conn : option Conn; g_sent : list Z; g_wait : bool; g_bps : list Z;
  g_watches : list GdbWatch; g_steps_left : bool; g_pending : list Z; g_stop_pending : bool; g_stop_sig : Z;
  g_last_trap_seq : Z; g_pkt : list Z;
}.
Definition eta_gdb (g : GdbStub) : GdbStub :=
  mkGdb (g_accepts g) (g_conn g) (g_sent g) (g_wait g) (g_bps g) (g_watches g) (g_steps_left g) (g_pending g)
    (g_stop_pending g) (g_stop_sig g) (g_last_trap_seq g) (g_pkt g).
#[export] Instance upd_g_accepts : Upd g_accepts := ltac:(mk_upd eta_gdb g_accepts).
#[export] Instance upd_g_conn : Upd g_conn := ltac:(mk_upd eta_gdb g_conn).
#[export] Instance upd_g_sent : Upd g_sent := ltac:(mk_upd eta_gdb g_sent).
#[export] Instance upd_g_bps : Upd g_bps := ltac:(mk_upd eta_gdb g_bps).
#[export] Instance upd_g_watches : Upd g_watches := ltac:(mk_upd eta_gdb g_watches).
#[export] Instance upd_g_steps_left : Upd g_steps_left := ltac:(mk_upd eta_gdb g_steps_left).
#[export] Instance upd_g_pending : Upd g_pending := ltac:(mk_upd eta_gdb g_pending).
#[export] Instance upd_g_stop_pending : Upd g_stop_pending := ltac:(mk_upd eta_gdb g_stop_pending).
#[export] Instance upd_g_stop_sig : Upd g_stop_sig := ltac:(mk_upd eta_gdb g_stop_sig).
#[export] Instance upd_g_last_trap_seq : Upd g_last_trap_seq := ltac:(mk_upd eta_gdb g_last_trap_seq).
#[export] Instance upd_g_pkt : Upd g_pkt := ltac:(mk_upd eta_gdb g_pkt).

Definition kPendingMax := 256.

(** The gdb hooks of an ISA ([None]: a null pointer) and the bus as the
    memory packets use it. *)
Class GdbOps (X : Type) := {
  gdb_isa_name : list Z;
  gdb_pc : option (Board X -> Z);
  gdb_read_regs : option (Z -> Board X -> list Z);
  gdb_write_regs : option (list Z -> Board X -> option (Board X));
  gdb_last_trap : option (Board X -> Z * Z);
  gdb_set_watch : option (Z -> Z -> Z -> Board X -> Z * Board X);
  gdb_clear_watch : Z -> Board X -> Board X;
  gdb_watch_hits : option (Board X -> Z * Board X);
  mem_probe : Z -> Z -> M (Board X) bool;
  mem_read8 : Z -> M (Board X) Z;
  mem_write8 : Z -> Z -> M (Board X) unit;
}.

Section session.
Context {X : Type} `{BoardOps X} `{GdbOps X}.
#[local] Abbreviation GS := (GdbStub * Board X)%type.
#[local] Abbreviation GM := (M (GdbStub * Board X)).

Definition modg (f : GdbStub -> GdbStub) : GM unit := modify (fun s => (f s.1, s.2)).
Definition modb (f : Board X -> Board X) : GM unit := modify (fun s => (s.1, f s.2)).

(** ** Packets on the connection *)

(** The length read; the packet is in [g_pkt].  0: the client went away. *)
Definition pkt_read : GM Z := fun s =>
  let '(g, b) := s in
  match g_conn g with
  | None => Done 0 s
  | Some k =>
      let r := PktRead (k_in k) kPacketMax in
      let g := g <| g_conn := Some (mkConn (pr_rest r) (k_ready k)) |> <| g_sent := g_sent g ++ pr_acks r |> in
      let g := if pr_stop r then g <| g_stop_pending := true |> <| g_stop_sig := 2 |> else g in
      match pr_data r with
      | None => Done 0 (g, b)
      | Some data => Done (Z.of_nat (length data)) (g <| g_pkt := data ++ 0 :: drop (S (length data)) (g_pkt g) |>, b)
      end
  end.

Definition pkt_send (data : list Z) : GM unit := modg (fun g =>
  match g_conn g with
  | None => g
  | Some k => let '(out, inp) := PktSend (cstr data) (k_in k) in
              g <| g_conn := Some (mkConn inp (k_ready k)) |> <| g_sent := g_sent g ++ out |>
  end).

(** ** Stop sources *)

(** The bytes of one read: up to the interrupt, or parked while they fit. *)
Fixpoint park (buf pending : list Z) : bool * list Z :=
  match buf with
  | [] => (false, pending)
  | b :: buf =>
      if b =? 3 then (true, pending)
      else park buf (if Z.of_nat (length pending) <? kPendingMax then pending ++ [b] else pending)
  end.

(** Every round that goes on parks a byte, so 256 rounds are enough. *)
Fixpoint drain_loop (n : nat) (g : GdbStub) : bool * GdbStub :=
  match n, g_conn g with
  | S n, Some k =>
      if Z.of_nat (length (g_pending g)) <? kPendingMax then
        match k_ready k with
        | [] => (false, g)
        | avail :: ready =>
            if avail <=? 0 then (false, g <| g_conn := Some (mkConn (k_in k) ready) |>)
            else
              let buf := take (Z.to_nat (Z.min avail 64)) (k_in k) in
              let g := g <| g_conn := Some (mkConn (drop (length buf) (k_in k)) ready) |> in
              match buf with
              | [] => (false, g)
              | _ =>
                  let '(stop, pending) := park buf (g_pending g) in
                  let g := g <| g_pending := pending |> in
                  if stop then (true, g <| g_stop_sig := 2 |>) else drain_loop n g
              end
        end
      else (false, g)
  | _, _ => (false, g)
  end.
Definition PendingDrain (g : GdbStub) : bool * GdbStub := drain_loop (Z.to_nat kPendingMax) g.

Definition StubPc (b : Board X) : Z := match gdb_pc with Some f => f b | None => pc (b_cpu b) end.

(** A trap the step delivered, while single-stepping. *)
Definition step_trap (g : GdbStub) (b : Board X) : option (Z * Z) :=
  if g_steps_left g then
    match gdb_last_trap with
    | Some f => let '(sig, seq) := f b in
                if negb (sig =? 0) && negb (seq =? g_last_trap_seq g) then Some (sig, seq) else None
    | None => None
    end
  else None.

Definition watch_hit (g : GdbStub) (hits : Z) : bool := existsb (fun w => tst hits (1 .<< gw_slot w)) (g_watches g).

Definition StopCb : GM bool := fun s =>
  let '(g, b) := s in
  match step_trap g b with
  | Some (sig, seq) => Done true (g <| g_last_trap_seq := seq |> <| g_stop_sig := sig |>, b)
  | None =>
      let '(hits, b) := match g_watches g, gdb_watch_hits with
                        | _ :: _, Some f => f b
                        | _, _ => (0, b)
                        end in
      if watch_hit g hits then Done true (g <| g_stop_sig := 5 |>, b)
      else if BpHit (g_bps g) (StubPc b) then Done true (g <| g_stop_sig := 5 |>, b)
      else
        let '(stop, g) := match g_conn g with Some _ => PendingDrain g | None => (false, g) end in
        if stop then Done true (g, b)
        else if g_steps_left g then Done true (g <| g_steps_left := false |> <| g_stop_sig := 5 |>, b)
        else Done false (g, b)
  end.

(** Without a client: look for one. *)
Definition FreeCb : GM bool := fun s =>
  let '(g, b) := s in
  match g_conn g with
  | Some _ => StopCb s
  | None =>
      let conn := mjoin (head (g_accepts g)) in
      let g := g <| g_accepts := tail (g_accepts g) |> <| g_conn := conn |> in
      match conn with
      | Some _ => Done true (g <| g_stop_sig := 5 |>, b)
      | None => Done false (g, b)
      end
  end.

(** ** Packets *)

Definition stop_reply (c : Z) (v : Z) : GM unit := pkt_send (c :: hex2 v).

Definition DoRun (fuel : nat) (step : bool) : GM unit :=
  s <- getS ;;
  if halted (b_cpu s.2) then stop_reply 87 (exit_code (b_cpu s.2) .& 0xff)
  else
    modg (fun g => g <| g_steps_left := step |>) ;;;
    BoardRunSteps fuel 0 (Some StopCb) ;;;
    s <- getS ;;
    if halted (b_cpu s.2) then stop_reply 87 (exit_code (b_cpu s.2) .& 0xff)
    else stop_reply 83 (g_stop_sig s.1).

(** A number after a separator, 0 without it; the rest of the string. *)
Definition number_after (sep : Z) (p : list Z) : Z * list Z :=
  if at0 p =? sep then HexU64 (drop 1 p) 0 else (0, p).

Fixpoint read_mem (n : nat) (addr : Z) : M (Board X) (list Z) :=
  match n with
  | O => mret' []
  | S n => v <- mem_read8 addr ;; vs <- read_mem n (u64 (addr + 1)) ;; mret' (u8 v :: vs)
  end.
Fixpoint write_mem (bs : list Z) (addr : Z) : M (Board X) unit :=
  match bs with
  | [] => mret' tt
  | b :: bs => mem_write8 addr b ;;; write_mem bs (u64 (addr + 1))
  end.

Definition cmd_regs : GM unit :=
  s <- getS ;; pkt_send (HexEncode (match gdb_read_regs with Some f => f 512 s.2 | None => [] end)).

Definition cmd_set_regs (pkt : list Z) : GM unit :=
  s <- getS ;;
  match gdb_write_regs with
  | Some f => match f (HexDecode (drop 1 pkt) 512) s.2 with
              | Some b => modb (fun _ => b) ;;; pkt_send (str "OK")
              | None => pkt_send (str "E11")
              end
  | None => pkt_send (str "E11")
  end.

Definition cmd_read_mem (pkt : list Z) : GM unit :=
  let '(addr, p) := HexU64 (drop 1 pkt) 0 in
  let '(len, _) := number_after 44 p in
  if (len =? 0) || (kPacketMax / 2 <? len) then pkt_send (str "E14")
  else
    ok <- lift_board (mem_probe addr len) ;;
    if ok then buf <- lift_board (read_mem (Z.to_nat len) addr) ;; pkt_send (HexEncode buf) else pkt_send (str "E14").

Definition cmd_write_mem (pkt : list Z) : GM unit :=
  let '(addr, p) := HexU64 (drop 1 pkt) 0 in
  let '(len, p') := number_after 44 p in
  let data := if (at0 p =? 44) && (at0 p' =? 58) then Some (drop 1 p') else None in
  match data with
  | None => pkt_send (str "E14")
  | Some data =>
      let buf := HexDecode data (Z.to_nat (kPacketMax / 2)) in
      if (len =? 0) || (kPacketMax / 2 <? len) || negb (Z.of_nat (length buf) =? len) then pkt_send (str "E14")
      else
        ok <- lift_board (mem_probe addr len) ;;
        if ok then lift_board (write_mem buf addr) ;;; pkt_send (str "OK") else pkt_send (str "E14")
  end.

Definition watch_insert (kind addr len : Z) : GM unit :=
  s <- getS ;;
  match gdb_set_watch with
  | None => pkt_send []
  | Some f =>
      let '(slot, b) := if Z.of_nat (length (g_watches s.1)) <? kMaxWatchpoints then f addr len kind s.2 else (-1, s.2) in
      modb (fun _ => b) ;;;
      if slot <? 0 then pkt_send []
      else modg (fun g => g <| g_watches := g_watches g ++ [mkWatch addr len kind slot] |>) ;;; pkt_send (str "OK")
  end.

Definition watch_delete (kind addr len : Z) : GM unit :=
  s <- getS ;;
  match gdb_set_watch with
  | None => pkt_send []
  | Some _ =>
      match i ← watch_find (g_watches s.1) kind addr len 0 None; WatchRemove (g_watches s.1) i with
      | None => pkt_send (str "E01")
      | Some (slot, ws) =>
          modb (gdb_clear_watch slot) ;;; modg (fun g => g <| g_watches := ws |>) ;;; pkt_send (str "OK")
      end
  end.

Definition cmd_break (pkt : list Z) : GM unit :=
  let insert := at0 pkt =? 90 in
  let kind := at0 (drop 1 pkt) - 48 in
  let '(addr, p) := HexU64 (drop 3 pkt) 0 in
  let len := u32 (fst (HexU64 (drop 1 p) 0)) in
  if (kind <? 0) || (4 <? kind) then pkt_send []
  else if kind <=? 1 then
    modg (fun g => g <| g_bps := if insert then bp_insert addr (g_bps g) else bp_remove addr (g_bps g) |>) ;;;
    pkt_send (str "OK")
  else if insert then watch_insert kind addr len
  else watch_delete kind addr len.

Fixpoint find_char (c : Z) (s : list Z) : option nat :=
  match s with [] => None | x :: s => if x =? c then Some 0%nat else S <$> find_char c s end.

(** A piece of the target description: 'm' before more, 'l' at the end. *)
Definition xfer_reply (text : list Z) (off len : Z) : option (list Z) :=
  let total := Z.of_nat (length text) in
  if (off <? total) && (0 <? len) then
    let chunk := Z.min (total - off) len in
    if kPacketMax <? chunk + 2 then None
    else Some ((if off + chunk <? total then 109 else 108) :: take (Z.to_nat chunk) (drop (Z.to_nat off) text))
  else Some (str "l").

Definition cmd_xfer (annex : list Z) : GM unit :=
  match find_char 58 (cstr annex) with
  | Some n =>
      if bool_decide (take n annex = take n (str "target.xml")) then
        let '(off, p) := HexU64 (drop (S n) annex) 0 in
        let '(len, _) := number_after 44 p in
        match xfer_reply (TargetXml gdb_isa_name) off len with Some r => pkt_send r | None => abort OutOfBounds end
      else pkt_send (str "E00")
  | None => pkt_send (str "E00")
  end.

Definition starts (p s : list Z) : bool := bool_decide (take (length p) s = p).

Definition cmd_query (pkt : list Z) : GM unit :=
  if starts (str "qSupported") pkt then pkt_send (str "PacketSize=1000;qXfer:features:read+")
  else if starts (str "qXfer:features:read:") pkt then cmd_xfer (drop 20 pkt)
  else if bool_decide (cstr pkt = str "qfThreadInfo") then pkt_send (str "m1")
  else if bool_decide (cstr pkt = str "qsThreadInfo") then pkt_send (str "l")
  else if bool_decide (cstr pkt = str "qAttached") then pkt_send (str "1")
  else pkt_send [].

Definition cmd_v (fuel : nat) (pkt : list Z) : GM unit :=
  if bool_decide (cstr pkt = str "vCont?") then pkt_send (str "vCont;c;s")
  else if starts (str "vCont;") pkt then DoRun fuel (at0 (drop 6 pkt) =? 115)
  else pkt_send [].

Definition close_conn : GM unit := modg (fun g => g <| g_conn := None |>).

(** One packet.  [None]: the session goes on; [Some true]: it ended with the
    emulation running on; [Some false]: the emulation is over. *)
Definition session_packet (fuel : nat) (pkt : list Z) : GM (option bool) :=
  let go (p : GM unit) := p ;;; mret' None in
  switch (at0 pkt)
    [(63, s <- getS ;; go (stop_reply 83 (g_stop_sig s.1)));
     (99, go (DoRun fuel false)); (67, go (DoRun fuel false)); (115, go (DoRun fuel true)); (83, go (DoRun fuel true));
     (103, go cmd_regs); (71, go (cmd_set_regs pkt)); (109, go (cmd_read_mem pkt)); (77, go (cmd_write_mem pkt));
     (90, go (cmd_break pkt)); (122, go (cmd_break pkt));
     (68, pkt_send (str "OK") ;;; modg (fun g => g <| g_bps := [] |>) ;;; close_conn ;;; mret' (Some true));
     (107, modb (fun b => b <| b_cpu := (b_cpu b) <| halted := true |> <| exit_code := 0 |> |>) ;;; mret' (Some false));
     (72, go (pkt_send (str "OK"))); (113, go (cmd_query pkt)); (118, go (cmd_v fuel pkt))]
    (go (pkt_send [])).

(** A round takes a byte of the connection at least; [n] bounds the rounds
    and [fuel] the passes of one run. *)
Fixpoint Session (n fuel : nat) : GM bool :=
  match n with
  | O => abort OutOfFuel
  | S n =>
      len <- pkt_read ;;
      if len <=? 0 then close_conn ;;; mret' true
      else
        s <- getS ;;
        r <- session_packet fuel (g_pkt s.1) ;;
        match r with Some e => mret' e | None => Session n fuel end
  end.

(** ** Sessions and free runs *)

Fixpoint free_runs (n fuel : nat) (max_inst : Z) : GM unit :=
  match n with
  | O => abort OutOfFuel
  | S n =>
      s <- getS ;;
      let left := if max_inst =? 0 then 0 else u64 (max_inst - inst_count (b_cpu s.2)) in
      modg (fun g => g <| g_stop_pending := false |>) ;;;
      stopped <- BoardRunSteps fuel left (Some FreeCb) ;;
      s <- getS ;;
      if halted (b_cpu s.2) then mret' tt
      else if negb stopped then mret' tt
      else
        match g_conn s.1 with
        | None => mret' tt
        | Some _ =>
            modg (fun g => if g_stop_pending g then g
                           else g <| g_stop_sig := if g_stop_sig g =? 0 then 5 else g_stop_sig g |>) ;;;
            goes_on <- Session n fuel ;;
            if goes_on then free_runs n fuel max_inst else mret' tt
        end
  end.

Definition GdbStubRun (n fuel : nat) (max_inst : Z) : GM unit :=
  s <- getS ;;
  if g_wait s.1 then
    modg (fun g => g <| g_conn := mjoin (head (g_accepts g)) |> <| g_accepts := tail (g_accepts g) |>) ;;;
    s <- getS ;;
    match g_conn s.1 with
    | None => mret' tt
    | Some _ =>
        modg (fun g => g <| g_stop_sig := 5 |>) ;;;
        goes_on <- Session n fuel ;;
        if goes_on then free_runs n fuel max_inst else mret' tt
    end
  else free_runs n fuel max_inst.

Definition GdbStubStart (accepts : list (option Conn)) (wait : bool) (buf : list Z) : GdbStub :=
  mkGdb accepts None [] wait [] [] false [] false 0 0 buf.
End session.
