(* ===== verification/GdbProps.v ===== *)
(** * Theorems about the gdb session

    A single step is one step of the processor; a continued run ends at the
    first breakpoint (run control); memory written by a packet is read back by another; the
    target description reaches the client whole. *)

From S2P Require Import Prelude Gdb Bus Ram RvState Run GdbSession.
From Stdlib Require Strings.String.
Import Strings.String.StringSyntax.

Section session.
Context {X : Type} `{BoardOps X} `{GdbOps X}.
Implicit Types (g : GdbStub) (b : Board X).

(** ** Run control *)

Definition commits (e : pass_end) : bool := match e with PRetired | PAsleep => true | _ => false end.

Lemma run_pass {C} n max (cb : M (C * Board X) bool) c b e b1 :
  halted (b_cpu b) = false -> pass b = Done e b1 -> commits e = true ->
  match cb (c, b1) with
  | Done true s => BoardRunSteps (S n) max (Some cb) (c, b) = Done true s
  | Done false s => max = 0 -> BoardRunSteps (S n) max (Some cb) (c, b) = BoardRunSteps n max (Some cb) s
  | _ => True
  end.
Proof.
  intros Hh Hp He. destruct (cb (c, b1)) as [[|] s| |] eqn:E; [| |done|done].
  - cbn [BoardRunSteps]. unfold mbind' at 1, getS at 1. cbn [snd]. rewrite Hh. unfold mbind' at 1, lift_board at 1. cbn [snd fst].
    rewrite Hp. destruct e; try done; unfold mbind' at 1; by rewrite E.
  - intros ->. cbn [BoardRunSteps]. unfold mbind' at 1, getS at 1. cbn [snd]. rewrite Hh. unfold mbind' at 1, lift_board at 1. cbn [snd fst].
    rewrite Hp. destruct e; try done; unfold mbind' at 1; by rewrite E.
Qed.

(** What the callback reports after a single step. *)
Definition step_signal g b : Z :=
  match step_trap g b with
  | Some (sig, _) => sig
  | None => if BpHit (g_bps g) (StubPc b) then 5
            else match g_conn g with Some _ => if fst (PendingDrain g) then 2 else 5 | None => 5 end
  end.

Lemma drain_keeps n g : let r := drain_loop n g in
  g_steps_left r.2 = g_steps_left g /\ (r.1 = true -> g_stop_sig r.2 = 2).
Proof.
  revert g. induction n as [|n IH]; intros g; cbn [drain_loop]; [by split|].
  destruct (g_conn g) as [k|]; [|by split]. destruct (_ <? kPendingMax); [|by split]. destruct (k_ready k) as [|a r]; [by split|].
  destruct (a <=? 0); [by split|]. destruct (take _ _) as [|x l]; [by split|].
  set (g1 := g <| g_conn := _ |>). destruct (park (x :: l) (g_pending g1)) as [[|] pending]; [by split|].
  destruct (IH (g1 <| g_pending := pending |>)) as [E1 E2]. split; [by rewrite E1|done].
Qed.

Lemma stop_cb_step g b : g_steps_left g = true -> g_watches g = [] ->
  exists g1, StopCb (g, b) = Done true (g1, b) /\ g_stop_sig g1 = step_signal g b /\
    (forall sig seq, step_trap g b = Some (sig, seq) -> g_last_trap_seq g1 = seq).
Proof.
  intros Hs Hw. unfold StopCb, step_signal. destruct (step_trap g b) as [[sig seq]|]; [by eexists; split_and!; [done..|intros ?? [= _ <-]]|].
  rewrite Hw. unfold watch_hit. rewrite Hw. cbn [existsb]. destruct (BpHit _ _); [by eexists|].
  pose proof (drain_keeps (Z.to_nat kPendingMax) g) as [D1 D2]. fold (PendingDrain g) in D1, D2.
  destruct (g_conn g) as [k|]; [|rewrite Hs; by eexists]. destruct (PendingDrain g) as [[|] g2]; cbn [fst snd] in *.
  - exists g2. by split_and!; [|apply D2|].
  - rewrite D1, Hs. by eexists.
Qed.

(** A single step runs the processor exactly once: from a running board, whatever the fuel, the
    board after the s packet is the one after one pass of the run loop, and the reply is the exit
    code when that halted the processor, the trap's signal when it delivered a trap not yet reported
    (which is then recorded), 2 for an interrupt byte from the client, and 5 otherwise. *)
Theorem gdb_single_step fuel g b e b1 : halted (b_cpu b) = false -> g_watches g = [] -> pass b = Done e b1 -> commits e = true ->
  let g0 := g <| g_steps_left := true |> in
  exists g1, DoRun (S fuel) true (g, b) =
      stop_reply (if halted (b_cpu b1) then 87 else 83)
        (if halted (b_cpu b1) then exit_code (b_cpu b1) .& 0xff else step_signal g0 b1) (g1, b1) /\
    (forall sig seq, step_trap g0 b1 = Some (sig, seq) -> g_last_trap_seq g1 = seq).
Proof.
  intros Hh Hw Hp He g0. destruct (stop_cb_step g0 b1 eq_refl Hw) as (g1 & E1 & E2 & E3). exists g1. split; [|done].
  pose proof (run_pass fuel 0 StopCb g0 b e b1 Hh Hp He) as Hr. rewrite E1 in Hr.
  unfold DoRun, mbind' at 1, getS at 1. cbn [snd]. rewrite Hh. unfold mbind' at 1, modg at 1, modify at 1. cbn [fst snd]. fold g0.
  unfold mbind' at 1. rewrite Hr. unfold mbind' at 1, getS at 1. cbn [fst snd]. rewrite <- E2. by destruct (halted (b_cpu b1)).
Qed.

(** [k] passes that do not end the run: none finds the processor halted, and
    every committed pc is off the breakpoints. *)
Fixpoint runs_quietly (k : nat) (bps : list Z) b : option (Board X) :=
  match k with
  | O => Some b
  | S k =>
      if halted (b_cpu b) then None
      else match pass b with
           | Done PReset b1 => runs_quietly k bps b1
           | Done e b1 => if commits e && negb (BpHit bps (StubPc b1)) then runs_quietly k bps b1 else None
           | _ => None
           end
  end.

(** No watchpoint, no byte from the client, not single-stepping. *)
Definition quiet_stub g : Prop :=
  g_watches g = [] /\ g_steps_left g = false /\ match g_conn g with Some k => k_ready k = [] | None => True end.

Lemma stop_cb_quiet g b : quiet_stub g ->
  StopCb (g, b) = if BpHit (g_bps g) (StubPc b) then Done true (g <| g_stop_sig := 5 |>, b) else Done false (g, b).
Proof.
  intros (Hw & Hs & Hc). unfold StopCb, step_trap, watch_hit. rewrite Hs, Hw. cbn [existsb]. destruct (BpHit _ _); [done|].
  destruct (g_conn g) as [k|] eqn:Ek; [|by rewrite Hs]. unfold PendingDrain. change (Z.to_nat kPendingMax) with 256%nat.
  cbn [drain_loop]. rewrite Ek, Hc. destruct (_ <? _); by rewrite Hs.
Qed.

Lemma run_quiet n g b : quiet_stub g -> BoardRunSteps (S n) 0 (Some StopCb) (g, b) =
  if halted (b_cpu b) then Done false (g, b)
  else match pass b with
       | Done PClosed b1 => Done false (g, b1)
       | Done PReset b1 => BoardRunSteps n 0 (Some StopCb) (g, b1)
       | Done _ b1 => if BpHit (g_bps g) (StubPc b1) then Done true (g <| g_stop_sig := 5 |>, b1)
                      else BoardRunSteps n 0 (Some StopCb) (g, b1)
       | Raised t b1 => Raised t (g, b1)
       | Aborted r => Aborted r
       end.
Proof.
  intros Hq. cbn [BoardRunSteps]. unfold mbind' at 1, getS at 1. cbn [snd]. destruct (halted (b_cpu b)); [done|].
  unfold mbind' at 1, lift_board at 1. cbn [snd fst]. destruct (pass b) as [[] b1| |]; try done;
    unfold mbind' at 1; rewrite (stop_cb_quiet g b1 Hq); by destruct (BpHit _ _).
Qed.

Lemma quiet_S k bps b : runs_quietly (S k) bps b =
  if halted (b_cpu b) then None
  else match pass b with
       | Done PReset b1 => runs_quietly k bps b1
       | Done e b1 => if commits e && negb (BpHit bps (StubPc b1)) then runs_quietly k bps b1 else None
       | _ => None
       end.
Proof. done. Qed.

(** The pass that ends the run at a breakpoint. *)
Definition reaches_bp bps b b' : Prop := exists e, halted (b_cpu b) = false /\ pass b = Done e b' /\ commits e = true /\
  BpHit bps (StubPc b') = true.

Lemma run_to_bp k n g b b0 b' : quiet_stub g -> (k < n)%nat -> runs_quietly k (g_bps g) b = Some b0 -> reaches_bp (g_bps g) b0 b' ->
  BoardRunSteps n 0 (Some StopCb) (g, b) = Done true (g <| g_stop_sig := 5 |>, b').
Proof.
  intros Hq. revert n b. induction k as [|k IH]; intros [|n] b Hk Hr Hb; try lia; rewrite run_quiet by done.
  - injection Hr as ->. destruct Hb as (e & Hh & Hp & He & Hbp). rewrite Hh, Hp, Hbp. by destruct e.
  - rewrite quiet_S in Hr. destruct (halted (b_cpu b)); [done|]. destruct (pass b) as [[] b1| |]; try done; cbn [commits andb] in Hr.
    1,3: destruct (BpHit _ _); [done|]. all: apply IH; done || lia.
Qed.

(** C26: a continued run stops at the first breakpoint and nowhere else: with no watchpoint and a
    silent client, the batch ends by a stop exactly when some number of passes (machine resets
    included) commits no breakpoint address and the next pass commits one, and then with that board
    and signal 5. *)
Theorem gdb_continue_first_breakpoint n g b g' b' : quiet_stub g ->
  (BoardRunSteps n 0 (Some StopCb) (g, b) = Done true (g', b') <->
   exists k b0, (k < n)%nat /\ runs_quietly k (g_bps g) b = Some b0 /\ reaches_bp (g_bps g) b0 b' /\ g' = g <| g_stop_sig := 5 |>).
Proof.
  intros Hq. split; [|intros (k & b0 & Hk & Hr & Hb & ->); by eapply run_to_bp]. revert b. induction n as [|n IH]; intros b.
  { cbn [BoardRunSteps]. unfold mbind', getS. cbn [snd]. by destruct (halted (b_cpu b)). }
  assert (Hgo : forall b1, BoardRunSteps n 0 (Some StopCb) (g, b1) = Done true (g', b') ->
    runs_quietly 1 (g_bps g) b = Some b1 -> exists k b0, (k < S n)%nat /\ runs_quietly k (g_bps g) b = Some b0 /\
      reaches_bp (g_bps g) b0 b' /\ g' = g <| g_stop_sig := 5 |>).
  { intros b1 E E1. destruct (IH b1 E) as (k & b0 & Hk & Hr & Hrest). exists (S k), b0. split; [lia|]. split; [|done].
    rewrite quiet_S in E1 |- *. destruct (halted (b_cpu b)); [done|]. destruct (pass b) as [[] b2| |]; try done; cbn [commits andb] in *.
    - destruct (negb _); [|done]. by injection E1 as <-.
    - by injection E1 as <-.
    - destruct (negb _); [|done]. by injection E1 as <-. }
  rewrite run_quiet by done. destruct (halted (b_cpu b)) eqn:Hh; [done|]. destruct (pass b) as [e b1| |] eqn:Hp; [|done..].
  assert (Hbp : commits e = true -> BpHit (g_bps g) (StubPc b1) = true -> Done true (g <| g_stop_sig := 5 |>, b1) = Done true (g', b') ->
    exists k b0, (k < S n)%nat /\ runs_quietly k (g_bps g) b = Some b0 /\ reaches_bp (g_bps g) b0 b' /\ g' = g <| g_stop_sig := 5 |>).
  { intros He Eb [= <- <-]. exists 0%nat, b. split; [lia|]. split; [done|]. split; [|done]. by exists e. }
  destruct e; [done| | |].
  1,3: destruct (BpHit (g_bps g) (StubPc b1)) eqn:Eb; [by apply Hbp|]. all: intros E; apply (Hgo b1 E); rewrite quiet_S, Hh, Hp; cbn [commits andb runs_quietly]; by rewrite ?Eb.
Qed.
End session.

(** * The data packets of the gdb session

    Memory written by an M packet is what an m packet reads back, on any
    window of addresses that behaves as memory; the target description is
    reassembled by a client that asks for it piece by piece. *)

(** ** Numbers in packets *)

Definition is_hex (d : Z) : Prop := 0 <= HexVal d /\ d <> 0.
(** The value of a digit string. *)
Definition hexnum (ds : list Z) : Z := fst (HexU64 ds 0).

Lemma hex_u64_app ds c rest v : Forall is_hex ds -> c = 0 \/ HexVal c < 0 ->
  HexU64 (ds ++ c :: rest) v = (fst (HexU64 ds v), c :: rest).
Proof.
  intros Hd Hc. revert v. induction Hd as [|d ds [Hd Hz] _ IH]; intros v; cbn [app HexU64].
  - destruct (Z.eqb_spec c 0); [done|]. destruct Hc as [?|Hc]; [done|]. by rewrite (proj2 (Z.ltb_lt _ _) Hc).
  - rewrite (proj2 (Z.eqb_neq _ _) Hz), (proj2 (Z.ltb_ge _ _) Hd). apply IH.
Qed.

(** A terminator ends the data. *)
Lemma hex_decode_end bs cap stale : Forall (rng 8) bs -> (length bs <= cap)%nat -> HexDecode (HexEncode bs ++ 0 :: stale) cap = bs.
Proof.
  intros Hb. revert cap. induction Hb as [|b bs Hb _ IH]; intros [|cap] Hc; cbn [HexEncode HexDecode length app] in *; try done; try lia.
  - by destruct stale.
  - destruct (nibbles b Hb) as (N1 & N2 & N3). destruct (hex_digit_ok _ N1) as (V1 & Z1 & _), (hex_digit_ok _ N2) as (V2 & Z2 & _).
    rewrite (proj2 (Z.eqb_neq _ _) Z1), (proj2 (Z.eqb_neq _ _) Z2). cbn [orb]. rewrite V1, V2.
    rewrite (proj2 (Z.ltb_ge _ _)), (proj2 (Z.ltb_ge _ _)) by lia. cbn [orb]. rewrite N3. f_equal. apply IH. lia.
Qed.

Section mem.
Context {X : Type} `{BoardOps X} `{GdbOps X}.
Implicit Types (g : GdbStub) (b : Board X).

(** ** A window of memory

    What the memory packets rely on, on the boards [ok]: a range inside the
    window is mapped, and byte accesses act on an array of bytes. *)
Definition same_window (lo hi : Z) (get : Board X -> Z -> Z) (ok : Board X -> Prop) b b' : Prop :=
  ok b' /\ forall i, lo <= i < hi -> get b' i = get b i.

Class MemWindow (lo hi : Z) (get : Board X -> Z -> Z) (ok : Board X -> Prop) : Prop := {
  mw_bounds : 0 <= lo /\ hi < 2 ^ 64;
  mw_rng : forall b a, lo <= a < hi -> rng 8 (get b a);
  mw_probe : forall a n b, ok b -> lo <= a -> 0 < n -> a + n <= hi -> exists b', mem_probe a n b = Done true b' /\
    same_window lo hi get ok b b';
  mw_read : forall a b, ok b -> lo <= a < hi -> exists b', mem_read8 a b = Done (get b a) b' /\ same_window lo hi get ok b b';
  mw_write : forall a v b, ok b -> lo <= a < hi -> rng 8 v -> exists b', mem_write8 a v b = Done tt b' /\ ok b' /\
    forall i, lo <= i < hi -> get b' i = if i =? a then v else get b i;
}.

Section window.
Context (lo hi : Z) (get : Board X -> Z -> Z) (ok : Board X -> Prop) `{HW : !MemWindow lo hi get ok}.
#[local] Abbreviation same := (same_window lo hi get ok).

Lemma read_window n a b : ok b -> lo <= a -> a + Z.of_nat n <= hi ->
  exists b', read_mem n a b = Done (get b <$> seqZ a (Z.of_nat n)) b' /\ same b b'.
Proof.
  destruct HW as [[H1 H2] Hrng _ Hrd _]. revert a b. induction n as [|n IH]; intros a b Hok Ha Hn; [by exists b|].
  cbn [read_mem]. destruct (Hrd a b Hok ltac:(lia)) as (b1 & E1 & Hok1 & G1). destruct (Z.eq_dec (a + 1) hi) as [He|He].
  - destruct n; [|lia]. exists b1. split; [|by split]. unfold mbind'. rewrite E1. cbn [read_mem mret'].
    rewrite (wrap_small 8) by (apply Hrng; lia). done.
  - rewrite (wrap_small 64 (a + 1)) by (unfold rng; lia). destruct (IH (a + 1) b1 Hok1 ltac:(lia) ltac:(lia)) as (b2 & E2 & Hok2 & G2).
    exists b2. split; [|split; [done|intros i Hi; by rewrite G2, G1]]. unfold mbind'. rewrite E1, E2. unfold mret'. f_equal.
    rewrite Nat2Z.inj_succ, (seqZ_cons a) by lia. cbn [fmap list_fmap].
    rewrite (wrap_small 8) by (apply Hrng; lia). f_equal. replace (Z.succ a) with (a + 1) by lia.
    replace (Z.pred (Z.succ (Z.of_nat n))) with (Z.of_nat n) by lia.
    apply list_fmap_ext. intros i x Hx. apply lookup_seqZ in Hx. apply G1. lia.
Qed.

Lemma write_window bs a b : ok b -> Forall (rng 8) bs -> lo <= a -> a + Z.of_nat (length bs) <= hi ->
  exists b', write_mem bs a b = Done tt b' /\ ok b' /\ (get b' <$> seqZ a (Z.of_nat (length bs)) = bs) /\
    forall i, lo <= i < hi -> i < a \/ a + Z.of_nat (length bs) <= i -> get b' i = get b i.
Proof.
  destruct HW as [[H1 H2] _ _ _ Hwr]. intros Hok Hb. revert a b Hok. induction Hb as [|x bs Hx _ IH]; intros a b Hok Ha Hn; [by exists b|].
  cbn [write_mem length] in *. destruct (Hwr a x b Hok ltac:(lia) Hx) as (b1 & E1 & Hok1 & G1). unfold mbind'. rewrite E1.
  assert (Hnext : exists b', write_mem bs (u64 (a + 1)) b1 = Done tt b' /\ ok b' /\ (get b' <$> seqZ (a + 1) (Z.of_nat (length bs)) = bs) /\
    forall i, lo <= i < hi -> i < a + 1 \/ a + 1 + Z.of_nat (length bs) <= i -> get b' i = get b1 i).
  { destruct bs as [|y bs]; [by exists b1|]. cbn [length] in *. rewrite (wrap_small 64 (a + 1)) by (unfold rng; lia). apply IH; done || lia. }
  destruct Hnext as (b2 & E2 & Hok2 & G2 & G3). exists b2. split; [done|]. split; [done|]. split.
  - rewrite Nat2Z.inj_succ, (seqZ_cons a) by lia. cbn [fmap list_fmap]. replace (Z.succ a) with (a + 1) by lia.
    replace (Z.pred (Z.succ (Z.of_nat (length bs)))) with (Z.of_nat (length bs)) by lia. f_equal; [|exact G2].
    rewrite G3, G1, Z.eqb_refl by lia. done.
  - intros i Hi Hout. rewrite G3 by lia. rewrite G1 by lia. by rewrite (proj2 (Z.eqb_neq i a)) by lia.
Qed.

(** ** The packets *)

Definition write_packet (addr len bs stale : list Z) : list Z := 77 :: addr ++ 44 :: len ++ 58 :: HexEncode bs ++ 0 :: stale.
Definition read_packet (addr len stale : list Z) : list Z := 109 :: addr ++ 44 :: len ++ 0 :: stale.

Lemma write_packet_runs addr len bs stale g b : ok b -> Forall is_hex addr -> Forall is_hex len -> Forall (rng 8) bs ->
  hexnum len = Z.of_nat (length bs) -> 0 < hexnum len <= 2048 -> lo <= hexnum addr -> hexnum addr + hexnum len <= hi ->
  exists b', cmd_write_mem (write_packet addr len bs stale) (g, b) = pkt_send (str "OK") (g, b') /\ ok b' /\
    (get b' <$> seqZ (hexnum addr) (hexnum len) = bs) /\
    forall i, lo <= i < hi -> i < hexnum addr \/ hexnum addr + hexnum len <= i -> get b' i = get b i.
Proof.
  intros Hok Ha Hl Hb El Hn Hlo Hhi. unfold cmd_write_mem, write_packet. change (drop 1 (77 :: ?l)) with l.
  rewrite (hex_u64_app addr 44) by (done || right; vm_compute; reflexivity). fold (hexnum addr).
  unfold number_after. change (at0 (44 :: ?l)) with 44. change (44 =? 44) with true. cbv iota. change (drop 1 (44 :: ?l)) with l.
  rewrite (hex_u64_app len 58) by (done || right; vm_compute; reflexivity). fold (hexnum len). change (at0 (58 :: ?l)) with 58.
  change (58 =? 58) with true. cbn [andb]. change (drop 1 (58 :: ?l)) with l. change (kPacketMax / 2) with 2048.
  rewrite hex_decode_end by (done || (change (Z.to_nat 2048) with 2048%nat; lia)).
  rewrite (proj2 (Z.eqb_neq _ 0)), (proj2 (Z.ltb_ge 2048 _)) by lia. rewrite <- El, Z.eqb_refl. cbn [orb negb].
  destruct (mw_probe (hexnum addr) (hexnum len) b Hok Hlo ltac:(lia) Hhi) as (b1 & E1 & Hok1 & G1).
  destruct (write_window bs (hexnum addr) b1 Hok1 Hb Hlo ltac:(lia)) as (b2 & E2 & Hok2 & G2 & G3). rewrite <- El in G2, G3.
  exists b2. split; [|split; [done|split; [done|intros i Hi Ho; by rewrite G3, G1]]].
  unfold mbind' at 1, lift_board at 1. cbn [fst snd]. rewrite E1. unfold mbind' at 1, lift_board at 1. cbn [fst snd]. by rewrite E2.
Qed.

Lemma read_packet_runs addr len stale g b : ok b -> Forall is_hex addr -> Forall is_hex len -> 0 < hexnum len <= 2048 ->
  lo <= hexnum addr -> hexnum addr + hexnum len <= hi ->
  exists b', cmd_read_mem (read_packet addr len stale) (g, b) = pkt_send (HexEncode (get b <$> seqZ (hexnum addr) (hexnum len))) (g, b') /\
    same b b'.
Proof.
  intros Hok Ha Hl Hn Hlo Hhi. unfold cmd_read_mem, read_packet. change (drop 1 (109 :: ?l)) with l.
  rewrite (hex_u64_app addr 44) by (done || right; vm_compute; reflexivity). fold (hexnum addr).
  unfold number_after. change (at0 (44 :: ?l)) with 44. change (44 =? 44) with true. cbv iota. change (drop 1 (44 :: ?l)) with l.
  rewrite (hex_u64_app len 0) by (done || by left). fold (hexnum len). change (kPacketMax / 2) with 2048.
  rewrite (proj2 (Z.eqb_neq _ 0)), (proj2 (Z.ltb_ge 2048 _)) by lia. cbn [orb].
  destruct (mw_probe (hexnum addr) (hexnum len) b Hok Hlo ltac:(lia) Hhi) as (b1 & E1 & Hok1 & G1).
  destruct (read_window (Z.to_nat (hexnum len)) (hexnum addr) b1 Hok1 Hlo ltac:(lia)) as (b2 & E2 & Hok2 & G2).
  rewrite Z2Nat.id in E2 by lia. exists b2. split; [|split; [done|intros i Hi; by rewrite G2, G1]].
  unfold mbind' at 1, lift_board at 1. cbn [fst snd]. rewrite E1. unfold mbind' at 1, lift_board at 1. cbn [fst snd]. rewrite E2.
  do 2 f_equal. apply list_fmap_ext. intros i x Hx. apply lookup_seqZ in Hx. apply G1. lia.
Qed.
End window.

(** ** The packets on the connection *)

(** A frame with nothing cut from it. *)
Definition whole_frame (data : list Z) : list Z :=
  kDollar :: data ++ [kHash; hex_digit (checksum data .>> 4); hex_digit (checksum data .& 15)].

Definition fits (data : list Z) : Prop := Z.of_nat (length data) <= kPacketMax - 4.

Lemma frame_whole data : fits data -> pkt_frame data = whole_frame data.
Proof. intros Hl. unfold pkt_frame. rewrite take_ge by (unfold fits, kPacketMax in *; lia). done. Qed.

Lemma hex_text bs : Forall (rng 8) bs -> Forall (fun c => c <> 0) (HexEncode bs).
Proof.
  induction 1 as [|x bs Hx _ IH]; cbn [HexEncode]; [done|]. destruct (nibbles x Hx) as (N1 & N2 & _).
  destruct (hex_digit_ok _ N1) as (_ & Z1 & _), (hex_digit_ok _ N2) as (_ & Z2 & _). by repeat apply Forall_cons_2.
Qed.

Lemma cstr_nonzero l : Forall (fun c => c <> 0) l -> cstr l = l.
Proof. induction 1 as [|c l Hc _ IH]; cbn [cstr]; [done|]. by rewrite (proj2 (Z.eqb_neq _ _) Hc), IH. Qed.

Lemma is_hex_plain ds : Forall is_hex ds -> Forall plain ds.
Proof.
  intros Hd. eapply Forall_impl; [exact Hd|]. intros c [Hc _]. split; intros ->; revert Hc; by vm_compute.
Qed.

(** The stub once it has taken the packet [data] off the connection. *)
Definition took (data rest ready : list Z) (g : GdbStub) : GdbStub :=
  g <| g_conn := Some (mkConn rest ready) |> <| g_sent := g_sent g ++ [kPlus] |>
    <| g_pkt := data ++ 0 :: drop (S (length data)) (g_pkt g) |>.

(** One round of the session: the packet is taken and acknowledged, its reply
    goes out whole and the client's acknowledgement is taken. *)
Lemma session_round n fuel data reply rest ready g b b' : Forall plain data -> fits data -> data <> [] ->
  Forall (fun c => c <> 0) reply -> fits reply ->
  g_conn g = Some (mkConn (pkt_frame data ++ kPlus :: rest) ready) ->
  (let g1 := took data (kPlus :: rest) ready g in
   session_packet fuel (g_pkt g1) (g1, b) = (pkt_send reply ;;; mret' None) (g1, b')) ->
  exists g', Session (S n) fuel (g, b) = Session n fuel (g', b') /\ g_conn g' = Some (mkConn rest ready) /\
    g_sent g' = g_sent g ++ kPlus :: whole_frame reply.
Proof.
  intros Hp Hl Hne Hr Hf Ec Hs. cbn zeta in Hs. set (g1 := took _ _ _ g) in Hs.
  assert (Er : pkt_read (g, b) = Done (Z.of_nat (length data)) (g1, b)).
  { unfold pkt_read. rewrite Ec. cbn [k_in k_ready].
    change (pkt_frame data ++ kPlus :: rest) with ([] ++ pkt_frame data ++ kPlus :: rest).
    rewrite frame_read by (done || (unfold fits in Hl; lia) || constructor). reflexivity. }
  exists (g1 <| g_conn := Some (mkConn rest ready) |> <| g_sent := g_sent g1 ++ pkt_frame reply |>). split; [|split; [done|]].
  - cbn [Session]. unfold mbind' at 1. rewrite Er. destruct data as [|c data]; [done|]. cbn [length]. rewrite (proj2 (Z.leb_gt _ 0)) by lia.
    unfold mbind' at 1, getS, gets. cbn [fst snd]. unfold mbind' at 1. rewrite Hs. unfold mbind' at 1, pkt_send, modg, modify.
    change (g_conn (fst (g1, b'))) with (Some (mkConn (kPlus :: rest) ready)). cbn [k_in k_ready fst snd].
    rewrite cstr_nonzero by done. reflexivity.
  - change (g_sent g1) with (g_sent g ++ [kPlus]). rewrite <- frame_whole by done.
    change (g_sent (?x <| g_sent := ?y |>)) with y. by rewrite <- app_assoc.
Qed.

Definition write_body (addr len bs : list Z) : list Z := 77 :: addr ++ 44 :: len ++ 58 :: HexEncode bs.
Definition read_body (addr len : list Z) : list Z := 109 :: addr ++ 44 :: len.

Lemma write_body_packet addr len bs stale : write_body addr len bs ++ 0 :: stale = write_packet addr len bs stale.
Proof. unfold write_body, write_packet. cbn [app]. by rewrite <- !app_assoc; cbn [app]; rewrite <- app_assoc. Qed.

Lemma read_body_packet addr len stale : read_body addr len ++ 0 :: stale = read_packet addr len stale.
Proof. unfold read_body, read_packet. cbn [app]. by rewrite <- app_assoc. Qed.

Lemma body_plain addr len bs : Forall is_hex addr -> Forall is_hex len -> Forall (rng 8) bs ->
  Forall plain (write_body addr len bs) /\ Forall plain (read_body addr len).
Proof.
  intros Ha%is_hex_plain Hl%is_hex_plain Hb%HexEncode_plain. unfold write_body, read_body.
  rewrite !Forall_cons, !Forall_app, !Forall_cons, !Forall_app, !Forall_cons. unfold plain, kHash, kEscape in *. repeat split; (done || lia).
Qed.

(** C27: memory written through the session is read back through it: on any window of addresses that
    behaves as bytes of memory (discharged for RAM behind the riscv64 hart's bus), when a client
    sends an M packet of at most 4092 characters, acknowledges the reply, sends the m packet for the
    same range and acknowledges that, two rounds of the session consume exactly those bytes of the
    connection and send an acknowledgement, OK, an acknowledgement and the written bytes in hex in
    one uncut frame; the window then holds the bytes and is unchanged elsewhere. *)
Theorem gdb_mem_roundtrip lo hi get ok n fuel addr len bs rest ready g b : MemWindow lo hi get ok -> ok b ->
  Forall is_hex addr -> Forall is_hex len -> Forall (rng 8) bs -> hexnum len = Z.of_nat (length bs) -> 0 < hexnum len ->
  lo <= hexnum addr -> hexnum addr + hexnum len <= hi -> fits (write_body addr len bs) ->
  g_conn g = Some (mkConn (pkt_frame (write_body addr len bs) ++ kPlus :: pkt_frame (read_body addr len) ++ kPlus :: rest) ready) ->
  exists g' b', Session (S (S n)) fuel (g, b) = Session n fuel (g', b') /\ g_conn g' = Some (mkConn rest ready) /\
    g_sent g' = g_sent g ++ kPlus :: whole_frame (str "OK") ++ kPlus :: whole_frame (HexEncode bs) /\
    (get b' <$> seqZ (hexnum addr) (hexnum len) = bs) /\
    forall i, lo <= i < hi -> i < hexnum addr \/ hexnum addr + hexnum len <= i -> get b' i = get b i.
Proof.
  intros Hw Hok Ha Hl Hb El Hn Hlo Hhi Hfit Ec.
  assert (Hlen : length (HexEncode bs) = (2 * length bs)%nat) by apply length_HexEncode.
  assert (Hfits : fits (read_body addr len) /\ fits (HexEncode bs) /\ hexnum len <= 2048).
  { unfold fits, write_body, read_body, kPacketMax in *. cbn [length] in *. rewrite !length_app in *. cbn [length] in *.
    rewrite length_app in Hfit. cbn [length] in Hfit. lia. }
  destruct Hfits as (Hf2 & Hf3 & Hmax). destruct (body_plain addr len bs Ha Hl Hb) as [Hp1 Hp2].
  set (g1 := took (write_body addr len bs) (kPlus :: pkt_frame (read_body addr len) ++ kPlus :: rest) ready g).
  destruct (write_packet_runs lo hi get ok addr len bs (drop (S (length (write_body addr len bs))) (g_pkt g)) g1 b Hok Ha Hl Hb El ltac:(lia) Hlo Hhi)
    as (b1 & E1 & Hok1 & G1 & G2).
  destruct (session_round (S n) fuel (write_body addr len bs) (str "OK") (pkt_frame (read_body addr len) ++ kPlus :: rest) ready g b b1)
    as (g2 & S1 & C1 & W1); try done; [by apply (bool_decide_unpack _)| |].
  { cbn zeta. fold g1. change (g_pkt g1) with (write_body addr len bs ++ 0 :: drop (S (length (write_body addr len bs))) (g_pkt g)).
    rewrite write_body_packet. change (session_packet fuel (write_packet ?x ?y ?z ?w)) with
      (cmd_write_mem (write_packet x y z w) ;;; mret' (S:=GdbStub * Board X) (@None bool)). unfold mbind' at 1. by rewrite E1. }
  set (g3 := took (read_body addr len) (kPlus :: rest) ready g2).
  destruct (read_packet_runs lo hi get ok addr len (drop (S (length (read_body addr len))) (g_pkt g2)) g3 b1 Hok1 Ha Hl ltac:(lia) Hlo Hhi)
    as (b2 & E2 & Hok2 & G3). rewrite G1 in E2.
  destruct (session_round n fuel (read_body addr len) (HexEncode bs) rest ready g2 b1 b2) as (g4 & S2 & C2 & W2); try done; [by apply hex_text| |].
  { cbn zeta. fold g3. change (g_pkt g3) with (read_body addr len ++ 0 :: drop (S (length (read_body addr len))) (g_pkt g2)).
    rewrite read_body_packet. change (session_packet fuel (read_packet ?x ?y ?z)) with
      (cmd_read_mem (read_packet x y z) ;;; mret' (S:=GdbStub * Board X) (@None bool)). unfold mbind' at 1. by rewrite E2. }
  exists g4, b2. rewrite S1, S2. split; [done|]. split; [done|]. split; [by rewrite W2, W1, <- app_assoc|]. split.
  - rewrite <- G1. apply list_fmap_ext. intros i x Hx. apply lookup_seqZ in Hx. apply G3. lia.
  - intros i Hi Ho. by rewrite G3, G2.
Qed.
End mem.

(** ** The target description *)

(** What reaches the client of a reply. *)
Definition on_wire (r : list Z) : list Z := take (Z.to_nat (kPacketMax - 4)) (cstr r).

(** A client that asks for [len] bytes at a time until the reply says last. *)
Fixpoint fetch_xml (n : nat) (text : list Z) (off len : Z) : option (list Z) :=
  match n with
  | O => None
  | S n =>
      r ← xfer_reply text off len;
      match on_wire r with
      | c :: d =>
          if c =? 108 then Some d
          else if c =? 109 then (app d) <$> fetch_xml n text (off + Z.of_nat (length d)) len
          else None
      | [] => None
      end
  end.

Lemma on_wire_piece c text n k : c <> 0 -> Forall (fun c => c <> 0) text -> (n <= 4091)%nat ->
  on_wire (c :: take n (drop k text)) = c :: take n (drop k text).
Proof.
  intros Hc Ht Hn. unfold on_wire. rewrite cstr_nonzero by (constructor; [done|by apply Forall_take, Forall_drop]).
  apply take_ge. cbn [length]. rewrite length_take. change (Z.to_nat (kPacketMax - 4)) with 4092%nat. lia.
Qed.

Lemma fetch_all text len : Forall (fun c => c <> 0) text -> 1 <= len <= 4091 -> forall n off,
  (off < length text)%nat -> (length text - off <= n)%nat -> fetch_xml n text (Z.of_nat off) len = Some (drop off text).
Proof.
  intros Ht Hl. induction n as [|n IH]; intros off Ho Hn; [lia|]. cbn [fetch_xml]. unfold xfer_reply.
  rewrite (proj2 (Z.ltb_lt _ _)), (proj2 (Z.ltb_lt 0 len)) by lia. cbn [andb].
  set (chunk := Z.min (Z.of_nat (length text) - Z.of_nat off) len). assert (Hc : 1 <= chunk <= len) by lia.
  rewrite (proj2 (Z.ltb_ge kPacketMax _)) by (unfold kPacketMax; lia). rewrite Nat2Z.id.
  destruct (Z.ltb_spec (Z.of_nat off + chunk) (Z.of_nat (length text))) as [Hm|Hm]; cbn [mbind option_bind];
    rewrite on_wire_piece by (done || lia).
  - change (109 =? 108) with false. change (109 =? 109) with true. cbv iota.
    rewrite length_take, length_drop, Nat.min_l by lia. replace (Z.of_nat off + Z.of_nat (Z.to_nat chunk)) with
      (Z.of_nat (off + Z.to_nat chunk)) by lia. rewrite IH by lia. cbn [fmap option_fmap option_map].
    f_equal. rewrite <- (take_drop (Z.to_nat chunk) (drop off text)) at 2. by rewrite drop_drop.
  - change (108 =? 108) with true. cbv iota. f_equal. apply take_ge. rewrite length_drop. lia.
Qed.

Lemma TargetXml_text name : Forall (fun c => c <> 0) (TargetXml name).
Proof.
  assert (H : Forall (Forall (fun c => c <> 0)) [x86_xml; riscv_xml false; riscv_xml true])
    by (apply (bool_decide_unpack _); vm_compute; exact I).
  rewrite !Forall_cons in H. destruct H as (H1 & H2 & H3 & _). unfold TargetXml. apply Forall_take.
  destruct (bool_decide _); [exact H1|]. destruct (bool_decide _); [exact H2|]. destruct (bool_decide _); [exact H3|by constructor].
Qed.

(** A client that fetches the target description piece by piece, with any piece size up to 4091
    bytes, stops at the reply marked last with the whole description, and for the three processor
    models the description is complete (it ends with its closing tags, so the buffer never cuts it).
    *)
Theorem gdb_xml_reassembled name len : 1 <= len <= 4091 ->
  let text := TargetXml name in
  fetch_xml (S (length text)) text 0 len = Some text /\
  (name ∈ [str "x86"; str "riscv64"; str "riscv32"] -> xml "</feature></target>" `suffix_of` text).
Proof.
  intros Hl text. split.
  - destruct text as [|c t] eqn:E; [done|]. rewrite <- E. apply (fetch_all text len (TargetXml_text name) Hl _ 0); subst text; rewrite ?E; cbn; lia.
  - intros Hn. rewrite !elem_of_cons in Hn. destruct Hn as [->|[->|[->|Hn%not_elem_of_nil]]]; [..|done];
      apply (bool_decide_unpack _); vm_compute; exact I.
Qed.

Lemma gdb_xml_reassembled_witness : fetch_xml 1560 (TargetXml (str "riscv64")) 0 1000 = Some (TargetXml (str "riscv64")).
Proof.
  pose proof (gdb_xml_reassembled (str "riscv64") 1000 ltac:(lia)) as [H _].
  assert (El : S (length (TargetXml (str "riscv64"))) = 1560%nat) by (vm_compute; reflexivity). rewrite El in H. exact H.
Defined.
