(* ===== verification/Spike.v ===== *)
(** * The spike board (board/spike_min.c) running riscv64

    RAM and the host-target interface on one bus; creation, image loading and
    start as main.c sequences them; the riscv64 hart and its gdb hooks behind
    the run loop's and the session's interfaces. *)

From S2P Require Import Prelude Gdb Bus Ram HostMem Elf Htif RvState RvCsr RvStep Run GdbSession.
From Stdlib Require Strings.String.
Import Strings.String.StringSyntax.

(** ** The riscv64 hart behind the interfaces *)

Definition RvX (Ops Dev W : Type) : Type := RiscvState Dev * Bus Ops Dev * W.

Section rv.
Context {Ops Dev W : Type} `{BusDevices Ops Dev W}.

Definition to_mach (b : Board (RvX Ops Dev W)) : Mach Ops Dev W := mkMach (b_cpu b) (b_x b).1.1 (b_x b).1.2 (b_x b).2.
Definition of_mach (b : Board (RvX Ops Dev W)) (m : Mach Ops Dev W) : Board (RvX Ops Dev W) :=
  b <| b_cpu := cpu m |> <| b_x := (rs m, bus m, world m) |>.

Definition on_mach {A} (p : M (Mach Ops Dev W) A) : M (Board (RvX Ops Dev W)) A := fun b =>
  match p (to_mach b) with
  | Done a m => Done a (of_mach b m)
  | Raised t m => Raised t (of_mach b m)
  | Aborted r => Aborted r
  end.

(** The spike board sets none of the optional pointers and no input sink. *)
#[export] Instance rv_board_ops : BoardOps (RvX Ops Dev W) := {
  isa_step := on_mach (riscv_step false);
  board_poll := None;
  host_input_poll := mret' tt;
  mouse_in := None;
  key_in := None;
  display_pump b := (None, b);
  next_event_us := None;
  board_reset := None;
}.

(** The gdb entries of [k_isa_riscv64]. *)
#[export] Instance rv_gdb_ops : GdbOps (RvX Ops Dev W) := {
  gdb_isa_name := str "riscv64";
  gdb_pc := None;
  gdb_read_regs := Some (fun cap b => default [] (riscv_gdb_read_regs (b_cpu b) cap));
  gdb_write_regs := Some (fun img b => c ← riscv_gdb_write_regs (b_cpu b) img; Some (b <| b_cpu := c |>));
  gdb_last_trap := Some (fun b => let s := (b_x b).1.1 in (trap_signal s, trap_seq s));
  gdb_set_watch := None;
  gdb_clear_watch _ b := b;
  gdb_watch_hits := None;
  mem_probe addr len := on_mach (r <- bus_probe addr len ;; mret' (bool_decide (is_Some r)));
  mem_read8 addr := on_mach (bus_read addr 1);
  mem_write8 addr v := on_mach (bus_write addr 1 v);
}.
End rv.

(** ** The board *)

Inductive spike_dev := SRam | SHtif.
#[export] Instance spike_dev_eq_dec : EqDecision spike_dev.
Proof. solve_decision. Defined.

(** [sp_out]: the characters the guest wrote; [sp_halted]: the halt flag as
    the interface device sees it. *)
Record SpikeW := mkSpike { sp_ram : RamDevice; sp_htif : HtifDevice; sp_out : list Z; sp_halted : bool }.

Definition spike_read (ops : spike_dev) (addr size : Z) (w : SpikeW) : Z :=
  match ops with
  | SRam => RamRead (sp_ram w) addr size
  | SHtif => default 0 (HtifRead (sp_htif w) addr size)
  end.

Definition spike_write (ops : spike_dev) (addr size v : Z) (w : SpikeW) : SpikeW * list cpu_event :=
  match ops with
  | SRam => (mkSpike (RamWrite (sp_ram w) addr size v) (sp_htif w) (sp_out w) (sp_halted w), [])
  | SHtif =>
      match HtifWrite (sp_htif w) (sp_halted w) addr size v with
      | Some (h, Some code, out) => (mkSpike (sp_ram w) h (sp_out w ++ out) true, [EvHalt code])
      | Some (h, None, out) => (mkSpike (sp_ram w) h (sp_out w ++ out) (sp_halted w), [])
      | None => (w, [])
      end
  end.

#[export] Instance spike_devices : BusDevices spike_dev spike_dev SpikeW := {
  dev_read ops _ addr size w := (spike_read ops addr size w, w, []);
  dev_write ops _ addr size v w := spike_write ops addr size v w;
  host_load h size w := mem_load (ram_mem (sp_ram w)) (hp_off h) size;
  host_store h size v w :=
    mkSpike (mkRam (mem_store (ram_mem (sp_ram w)) (hp_off h) size v) (ram_base (sp_ram w)) (ram_size (sp_ram w)))
      (sp_htif w) (sp_out w) (sp_halted w);
  timer_read := None;
}.

Definition kDramBase := 0x80000000.
Definition kDramSizeDefault := Eval cbv in 256 .<< 20.

(** Zero options take the defaults. *)
Definition SpikeBoardCreate (opt_base opt_size : Z) : option (Bus spike_dev spike_dev * SpikeW) :=
  let base := if opt_base =? 0 then kDramBase else opt_base in
  let size := if opt_size =? 0 then kDramSizeDefault else opt_size in
  bus ← BusAddRamRegion (mkBus [] None) base size SRam SRam (HostPtr SRam 0);
  Some (bus, mkSpike (RamCreate base size) (mkHtif 0 0 0 0) [] false).

(** From the created board to the first instruction (main.c): load the image,
    attach the interface the image asks for, start at its entry. *)
Definition spike_start (opt_base opt_size : Z) (image : list Z) : option (Board (RvX spike_dev spike_dev SpikeW)) :=
  '(bus, w) ← SpikeBoardCreate opt_base opt_size;
  let bin_base := if opt_base =? 0 then kDramBase else opt_base in
  match LoaderLoadImage bus (Some image) (Some "riscv64"%string) bin_base 0 true w with
  | LOk lr w =>
      '(bus, w) ← (if lr_has_htif lr then
                     '(bus, h) ← HtifRegister bus SHtif SHtif (sp_htif w) (lr_tohost lr) (lr_fromhost lr);
                     Some (bus, mkSpike (sp_ram w) h (sp_out w) (sp_halted w))
                   else Some (bus, w));
      Some (mkBoard (mkCpu (replicate 32 0) (replicate 32 0) (lr_entry lr) false false 0 0) (riscv_init, bus, w)
              (mkClock 0 (-1) 0 0) false false [])
  | _ => None
  end.

(** ** Ending the emulation from the guest *)

(** The spike bus with the interface words attached. *)
Definition spike_regions (base size tohost fromhost : Z) (o0 o1 o2 : bool) : list (BusRegion spike_dev spike_dev) :=
  [mkRegion base size SRam SRam o0 (Some (HostPtr SRam 0)); mkRegion tohost 8 SHtif SHtif o1 None; mkRegion fromhost 8 SHtif SHtif o2 None].

Lemma spike_attached base size tohost fromhost bus w bus' h : base <> 0 -> size <> 0 ->
  SpikeBoardCreate base size = Some (bus, w) -> HtifRegister bus SHtif SHtif (sp_htif w) tohost fromhost = Some (bus', h) ->
  exists o0 o1 o2, bus_regions bus' = spike_regions base size tohost fromhost o0 o1 o2.
Proof.
  intros Hb Hs. unfold SpikeBoardCreate. rewrite (proj2 (Z.eqb_neq _ _) Hb), (proj2 (Z.eqb_neq _ _) Hs).
  cbn. intros [= <- <-] [= <- <-]. by eexists _, _, _.
Qed.

Lemma covers_iff (r : BusRegion spike_dev spike_dev) addr len : 0 <= addr -> 0 <= len -> addr + len < 2 ^ 64 ->
  0 <= r_base r -> 0 <= r_size r -> r_base r + r_size r < 2 ^ 64 ->
  covers r addr len = bool_decide (r_base r <= addr /\ addr + len <= r_base r + r_size r).
Proof.
  intros. unfold covers, r_end. rewrite !(wrap_small 64) by (unfold rng; lia).
  destruct (Z.leb_spec (r_base r) addr), (Z.leb_spec (addr + len) (r_base r + r_size r)); cbn [andb];
    symmetry; apply bool_decide_eq_true || apply bool_decide_eq_false; lia.
Qed.

(** Where the interface words lie: inside RAM, aligned, apart. *)
Record htif_layout (base size tohost fromhost : Z) : Prop := {
  hl_base : 0 <= base /\ 8 < size /\ base + size < 2 ^ 64;
  hl_to : base <= tohost /\ tohost + 8 <= base + size /\ tohost .& 7 = 0;
  hl_from : 0 <= fromhost /\ fromhost + 8 < 2 ^ 64 /\ (fromhost + 8 <= tohost \/ tohost + 8 <= fromhost);
}.

Lemma tohost_decode base size tohost fromhost o0 o1 o2 : htif_layout base size tohost fromhost ->
  let rs := spike_regions base size tohost fromhost o0 o1 o2 in
  snd <$> scan_regions rs tohost 8 = Some (mkRegion tohost 8 SHtif SHtif o1 None).
Proof.
  intros [H1 H2 H3]. unfold scan_regions, spike_regions. cbn [length seq zip zip_with fold_left]. unfold pick_smaller.
  cbn [snd]. rewrite !covers_iff by (cbn; lia). cbn [r_base r_size].
  rewrite (bool_decide_eq_true_2 (base <= tohost /\ _)), (bool_decide_eq_true_2 (tohost <= tohost /\ _)) by lia.
  rewrite (bool_decide_eq_false_2 (fromhost <= tohost /\ _)) by lia. cbn [snd r_size]. by rewrite (proj2 (Z.ltb_lt 8 size)) by lia.
Qed.

(** C28: a guest ends the emulation through the host interface: on the spike board with the
    interface words anywhere aligned inside RAM and apart, a 64-bit store of 2*code+1 to tohost
    reaches the interface and not the RAM under it, halts the processor with that exit code, changes
    no register, CSR or RAM byte, clears tohost, and every later run of the loop returns at once. *)
Theorem spike_exit base size tohost fromhost bus0 w0 bus1 h (m : Mach spike_dev spike_dev SpikeW) code :
  base <> 0 -> htif_layout base size tohost fromhost ->
  SpikeBoardCreate base size = Some (bus0, w0) -> HtifRegister bus0 SHtif SHtif (sp_htif w0) tohost fromhost = Some (bus1, h) ->
  bus_wf (bus m) -> bus_regions (bus m) = bus_regions bus1 -> h_tohost_addr (sp_htif (world m)) = tohost -> 0 <= code < 2 ^ 31 ->
  exists m', bus_write tohost 8 (2 * code + 1) m = Done tt m' /\
    cpu m' = (cpu m) <| halted := true |> <| exit_code := code |> /\ rs m' = rs m /\
    sp_ram (world m') = sp_ram (world m) /\ h_tohost (sp_htif (world m')) = 0 /\
    forall b n max cb, to_mach b = m' -> BoardRunSteps (C:=unit) n max cb (tt, b) = Done false (tt, b).
Proof.
  intros Hb0 Hl Hc Hreg Hwf Hrs Hta Hcode. pose proof Hl as [Hg1 Hg2 Hg3].
  destruct (spike_attached base size tohost fromhost bus0 w0 bus1 h Hb0 ltac:(lia) Hc Hreg) as (o0 & o1 & o2 & Er).
  pose proof (FindRegion_decode (bus m) tohost 8 Hwf ltac:(lia) ltac:(lia)) as Hf. unfold decode_spec in Hf.
  rewrite (proj2 (Z.ltb_ge _ 8)), Hrs, Er, tohost_decode in Hf by (done || lia).
  assert (Hv : 2 * code + 1 = command 0 0 (2 * code + 1)) by (unfold command; lia).
  assert (Ht : IsTohost (sp_htif (world m)) tohost = true) by (unfold IsTohost; rewrite Hta, Z.sub_diag; reflexivity).
  assert (Hw : exists h', HtifWrite (sp_htif (world m)) (sp_halted (world m)) tohost 8 (2 * code + 1) = Some (h', Some code, []) /\ h_tohost h' = 0).
  { unfold HtifWrite. rewrite Ht. cbn [negb]. rewrite word_full by (lia || (unfold rng; lia)). cbn [mbind option_bind].
    rewrite (proj2 (Z.eqb_neq _ 0)) by lia. rewrite Hv. unfold HtifProcess.
    destruct (command_fields 0 0 (2 * code + 1)) as (_ & -> & -> & ->); [unfold rng; lia..|].
    change ((u32 0 =? 0) && (u32 0 =? 0)) with true. cbv iota.
    change 1 with (2 ^ 0) at 2. rewrite tst_pow2 by lia. rewrite Z.bit0_odd. replace (Z.odd (2 * code + 1)) with true
      by (rewrite Z.add_comm; by rewrite Z.odd_add_mul_2).
    rewrite Z.shiftr_div_pow2 by lia. change (2 ^ 1) with 2. replace ((2 * code + 1) / 2) with code
      by (apply Z.div_unique with 1; lia).
    rewrite (signed_wrap 32) by lia. by eexists. }
  destruct Hw as (h' & Ew & Hh'). unfold bus_write. destruct (FindRegion (bus m) tohost 8) as [r b1]. cbn [fst] in Hf. subst r.
  cbn [r_ops r_dev dev_write spike_devices spike_write]. rewrite Ew. eexists. split; [reflexivity|].
  split; [done|]. split; [done|]. split; [done|]. split; [done|]. intros b n max cb Hb.
  assert (Hh : halted (b_cpu b) = true) by (change (b_cpu b) with (cpu (to_mach b)); by rewrite Hb).
  destruct n; cbn [BoardRunSteps]; unfold mbind', getS; cbn [snd]; by rewrite Hh.
Qed.
