(* ===== verification/RvSafe.v ===== *)
(** * The machine invariant, and that one step preserves it

    Every register within its width, the CSR file in its WARL invariant, the
    translation cache well shaped and the bus well formed: one step from
    such a machine always completes in such a machine, whatever instruction
    it fetches and however that instruction faults. *)

From S2P Require Import Prelude Bus Ram RvState RvCsr RvCsrProps RvTrapProps RvMmu RvFrame RvMmuProps RvWalk RvFp RvExec RvExecC RvStep RvPrecise.

(** ** Results stay within 64 bits *)

Lemma sext_rng64 v bits : rng 64 v -> 0 < bits -> rng 64 (sext v bits).
Proof. intros Hv Hb. unfold sext. destruct (64 <=? bits); [done|]. apply rng_wrap. lia. Qed.

Lemma rng_div w a b : 0 <= w -> rng w a -> 0 < b -> rng w (a / b).
Proof.
  intros Hw [? ?] Hb. split; [by apply Z.div_pos; lia|].
  apply Z.le_lt_trans with a; [|done]. apply Z.div_le_upper_bound; nia.
Qed.

Lemma rng_mod w a b : rng w b -> 0 < b -> rng w (a mod b).
Proof. intros [? ?] Hb. pose proof (Z.mod_pos_bound a b Hb). split; lia. Qed.

Lemma rng_div_s w a b : 0 < w -> rng w a -> rng w (div_s w a b).
Proof.
  intros Hw Ha. unfold div_s. repeat case_match; [|done|apply rng_wrap; lia].
  assert (0 < 2 ^ w) by lia. unfold rng. lia.
Qed.

Lemma rng_rem_s w a b : 0 < w -> rng w a -> rng w (rem_s w a b).
Proof. intros Hw Ha. unfold rem_s. repeat case_match; [done|unfold rng in *; lia|apply rng_wrap; lia]. Qed.

#[export] Hint Resolve rng_div_s rng_rem_s rng_div rng_mod : rng.
#[export] Hint Extern 1 (_ < _) => lia : rng.
#[export] Hint Extern 1 (0 <= _ .& Zpos _) => apply Z.land_nonneg; right; lia : rng.

Lemma switch_opt_rng x l v :
  Forall (fun kv => forall v, kv.2 = Some v -> rng 64 v) l -> switch x l None = Some v -> rng 64 v.
Proof.
  intros Hl. apply (switch_ind (fun o => o = Some v -> rng 64 v)); [|done].
  eapply Forall_impl; [exact Hl|]. auto.
Qed.

(** One ALU case: split its conditions, then bound the operator. *)
Ltac alu_rng :=
  eapply switch_opt_rng; repeat apply Forall_cons_2; try apply Forall_nil_2; cbn [snd];
  intros; repeat case_match; simplify_eq; try done.

(** Bounded operands as plain inequalities, then the range hints. *)
Ltac rng64 := repeat match goal with H : (?x =? 0) = false |- _ => apply Z.eqb_neq in H end;
  first [apply rng_wrap; lia | rng | unfold rng in *; lia | apply rng_div; [lia|done|unfold rng in *; lia] |
         apply rng_mod; [done|unfold rng in *; lia] | apply sext_rng64; [rng|lia]].

Lemma op_alu_rng f3v f7v a b v : rng 64 a -> rng 64 b -> op_alu f3v f7v a b = Some v -> rng 64 v.
Proof. intros Ha Hb. unfold op_alu, mul_hi. alu_rng; rng64. Qed.

Lemma sext32_rng v : rng 64 (sext v 32).
Proof. unfold sext. apply rng_wrap. lia. Qed.
#[export] Hint Resolve sext32_rng : rng.

Lemma op32_alu_rng f3v f7v a b v : op32_alu f3v f7v a b = Some v -> rng 64 v.
Proof. unfold op32_alu. alu_rng; rng. Qed.

Lemma imm_rng i : rng 64 (imm_i i) /\ rng 64 (imm_s i) /\ rng 64 (imm_b i) /\ rng 64 (imm_u i) /\ rng 64 (imm_j i).
Proof. split_and!; apply rng_wrap; lia. Qed.

Lemma shamt6_nonneg i : 0 <= shamt6 i.
Proof.
  unfold shamt6, rs2. apply Z.lor_nonneg. split; [apply Z.land_nonneg; right; lia|].
  apply Z.shiftl_nonneg, Z.land_nonneg. right. lia.
Qed.
#[export] Hint Resolve shamt6_nonneg : rng.

Lemma opimm_alu_rng i a v : rng 64 a -> opimm_alu i a = Some v -> rng 64 v.
Proof. intros Ha. pose proof (imm_rng i) as (Hi & _). unfold opimm_alu. alu_rng; rng64. Qed.

Lemma opimm32_alu_rng i a v : opimm32_alu i a = Some v -> rng 64 v.
Proof. unfold opimm32_alu. alu_rng; rng. Qed.

Lemma amo_d_rng op5 old val v : rng 64 old -> rng 64 val -> amo_d op5 old val = Some v -> rng 64 v.
Proof. intros Ho Hv. unfold amo_d. alu_rng; rng64. Qed.

(** *** Floating point: a 64-bit value and five flags *)

Definition fp_ok (r : Z * Z) : Prop := rng 64 r.1 /\ rng 5 r.2.
Definition fp_opt_ok (r : option (Z * Z)) : Prop := match r with Some r => fp_ok r | None => False end.

Lemma bits32_rng x : rng 32 (Bits32 x).
Proof. exact (rng_wrap 32 _ ltac:(lia)). Qed.
Lemma bits64_rng x : rng 64 (Bits64 x).
Proof. exact (rng_wrap 64 _ ltac:(lia)). Qed.
Lemma box32_rng v : rng 32 v -> rng 64 (Box32 v).
Proof. intros Hv. apply rng_lor; [lia|unfold rng; cbv; split; [discriminate|done]|]. apply (rng_mono 32); [lia|done]. Qed.
Lemma nv_if_rng b : rng 5 (nv_if b).
Proof. destruct b; unfold rng; cbv; split; (discriminate || done). Qed.
#[export] Hint Resolve bits32_rng bits64_rng box32_rng nv_if_rng : rng.
#[local] Hint Extern 2 (rng _ (switch _ _ _)) => apply (switch_ind (rng _)) : rng.

Ltac fp_const := unfold rng; cbv; split; (discriminate || done).

Lemma overflow32_rng n rm : rng 32 (OverflowResult32 n rm).
Proof.
  apply (switch_ind (rng 32)); [|destruct n; fp_const].
  repeat apply Forall_cons_2; try apply Forall_nil_2; intros _; destruct n; fp_const.
Qed.

Lemma overflow64_rng n rm : rng 64 (OverflowResult64 n rm).
Proof.
  apply (switch_ind (rng 64)); [|destruct n; fp_const].
  repeat apply Forall_cons_2; try apply Forall_nil_2; intros _; destruct n; fp_const.
Qed.
#[local] Hint Resolve overflow32_rng overflow64_rng : rng.

Lemma round_flags f r e rm : rng 5 (RoundAdjust f r e rm).2.
Proof. unfold RoundAdjust. case_match; fp_const. Qed.

Lemma tiny_rng mn r e : rng 5 (tiny_flags mn r e).
Proof. unfold tiny_flags. case_match; fp_const. Qed.
#[local] Hint Resolve tiny_rng : rng.

Lemma FinishS_ok fl r e rm : rng 5 fl -> fp_ok (FinishS fl r e rm).
Proof.
  intros Hf. unfold FinishS. pose proof (round_flags f32 r e rm) as Hr.
  destruct (is_nan r); [split; cbn [fst snd]; [apply box32_rng; fp_const|rng]|].
  destruct (is_inf r && _); [split; cbn [fst snd]; rng|].
  destruct (RoundAdjust f32 r e rm). split; cbn [fst snd] in *; rng.
Qed.

Lemma FinishD_ok fl r e rm : rng 5 fl -> fp_ok (FinishD fl r e rm).
Proof.
  intros Hf. unfold FinishD. pose proof (round_flags f64 r e rm) as Hr.
  destruct (is_nan r); [split; cbn [fst snd]; [fp_const|rng]|].
  destruct (is_inf r && _); [split; cbn [fst snd]; rng|].
  destruct (RoundAdjust f64 r e rm). split; cbn [fst snd] in *; rng.
Qed.
#[local] Hint Resolve FinishS_ok FinishD_ok : rng.

(** A pair of a bounded value and bounded flags. *)
Ltac fp_solve := lazymatch goal with
  | |- fp_ok (FinishS _ _ _ _) => apply FinishS_ok; rng
  | |- fp_ok (FinishD _ _ _ _) => apply FinishD_ok; rng
  | |- fp_ok (_, _) => split; cbn [fst snd]; rng
  end.

Definition arith_kind (k : Z) : Prop := k = kFpAdd \/ k = kFpSub \/ k = kFpMul \/ k = kFpDiv.

Lemma binary_re_some f a b k : arith_kind k -> exists x, binary_re f a b k = Some x.
Proof. intros [->|[->|[->| ->]]]; cbn; eauto. Qed.

Lemma BinaryS_ok a b k rm : arith_kind k -> fp_opt_ok (RiscvFpBinaryS a b k rm).
Proof.
  intros Hk. unfold RiscvFpBinaryS. case_match; [cbn [fp_opt_ok]; fp_solve|]. cbv zeta.
  case_match; [cbn [fp_opt_ok]; fp_solve|].
  destruct (binary_re_some f32 (Float32 a) (Float32 b) k Hk) as [[r e] ->]. cbn [mbind option_bind fp_opt_ok]. fp_solve.
Qed.

Lemma BinaryD_ok a b k rm : arith_kind k -> fp_opt_ok (RiscvFpBinaryD a b k rm).
Proof.
  intros Hk. unfold RiscvFpBinaryD. cbv zeta. case_match; [cbn [fp_opt_ok]; fp_solve|].
  destruct (binary_re_some f64 (Float64 a) (Float64 b) k Hk) as [[r e] ->]. cbn [mbind option_bind fp_opt_ok]. fp_solve.
Qed.

Lemma Sqrt_ok a rm : fp_ok (RiscvFpSqrtS a rm) /\ fp_ok (RiscvFpSqrtD a rm).
Proof.
  split; unfold RiscvFpSqrtS, RiscvFpSqrtD; cbv zeta; repeat case_match; fp_solve.
Qed.

Lemma Fma_ok a b c rm : fp_ok (RiscvFpFmaS a b c rm) /\ fp_ok (RiscvFpFmaD a b c rm).
Proof. split; unfold RiscvFpFmaS, RiscvFpFmaD; cbv zeta; repeat case_match; fp_solve. Qed.

Lemma minmax_rng f w q a b mx : 0 <= w -> frac_w f + exp_w f + 1 = w -> rng w q -> rng w (minmax f q a b mx).
Proof. intros Hw Hf Hq. unfold minmax. repeat case_match; try done; unfold to_bits; rewrite Hf; by apply rng_wrap. Qed.

Lemma MinMax_ok a b mx : fp_ok (RiscvFpMinMaxS a b mx) /\ fp_ok (RiscvFpMinMaxD a b mx).
Proof.
  assert (H32 : rng 32 kQnan32) by rng. assert (H64 : rng 64 kQnan64) by rng.
  split; [unfold RiscvFpMinMaxS|unfold RiscvFpMinMaxD]; cbv zeta; split; cbn [fst snd]; try rng;
    [apply box32_rng|]; apply minmax_rng; (done || lia).
Qed.

Definition cmp_sel (k : Z) : Prop := k = kFpLe \/ k = kFpLt \/ k = kFpEq.

Lemma cmp_kind_ok k a b : cmp_sel k -> exists v, cmp_kind k a b = Some v /\ rng 64 v.
Proof. intros [->|[->| ->]]; cbn; (eexists; split; [reflexivity|]); apply rng_b2z; lia. Qed.

Lemma Cmp_ok a b k : cmp_sel k -> fp_opt_ok (RiscvFpCmpS a b k) /\ fp_opt_ok (RiscvFpCmpD a b k).
Proof.
  intros Hk. split; unfold RiscvFpCmpS, RiscvFpCmpD; repeat case_match; try (split; cbn [fst snd]; rng).
  - destruct (cmp_kind_ok k (Float32 a) (Float32 b) Hk) as (v & -> & Hv). split; cbn; (done || rng).
  - destruct (cmp_kind_ok k (Float64 a) (Float64 b) Hk) as (v & -> & Hv). split; cbn; (done || rng).
Qed.

Lemma Class_rng a : rng 64 (RiscvFpClassS a) /\ rng 64 (RiscvFpClassD a).
Proof. split; unfold RiscvFpClassS, RiscvFpClassD, Classify32, Classify64; repeat case_match; fp_const. Qed.

Lemma Sgnj_rng a b k : rng 64 a -> rng 64 b -> rng 64 (RiscvFpSgnjS a b k) /\ rng 64 (RiscvFpSgnjD a b k).
Proof.
  intros Ha Hb. split.
  - unfold RiscvFpSgnjS. apply box32_rng, rng_lor; [lia| |repeat case_match; fp_const].
    apply rng_ldiff; [lia|]. case_match; [rng|fp_const].
  - unfold RiscvFpSgnjD, Sgnj64. repeat case_match; rng.
Qed.

Lemma f2i_clamp_rng sg neg d : rng 64 (f2i_clamp sg neg d).
Proof. unfold f2i_clamp. repeat case_match; fp_const. Qed.

Lemma F2IResult_ok e sg d rm : fp_ok (F2IResult e sg d rm).
Proof.
  unfold F2IResult. repeat case_match; split; cbn [fst snd];
    lazymatch goal with
    | |- rng 64 (f2i_clamp _ _ _) => apply f2i_clamp_rng
    | |- rng 64 (wrap _ _) => apply rng_wrap; lia
    | |- rng 5 _ => rng
    end.
Qed.

Lemma F2I_ok a sg d rm : fp_ok (RiscvFpF2IS a sg d rm) /\ fp_ok (RiscvFpF2ID a sg d rm).
Proof.
  split; unfold RiscvFpF2IS, RiscvFpF2ID; repeat case_match; first [apply F2IResult_ok | fp_solve].
Qed.

Lemma I2F_ok v sg d rm : fp_ok (RiscvFpI2FS v sg d rm) /\ fp_ok (RiscvFpI2FD v sg d rm).
Proof. split; [unfold RiscvFpI2FS|unfold RiscvFpI2FD]; cbv zeta; fp_solve. Qed.

Lemma Cvt_ok a rm : fp_ok (RiscvFpCvtSD a rm) /\ fp_ok (RiscvFpCvtDS a rm).
Proof.
  split; [unfold RiscvFpCvtSD; cbv zeta; fp_solve|]. unfold RiscvFpCvtDS. cbv zeta. case_match; fp_solve.
Qed.

(** * Every step from a well-formed machine

    [safe p V]: from a well-formed machine, [p] ends in a well-formed
    machine, returning a value in [V] or raising a trap record within 64
    bits, and never aborts except for the two reasons the code itself
    provides.  The judgement is closed under the monad's operations, so each
    helper of exec.c gets one lemma. *)

(** ** CSR values *)

Lemma within_rng64 mask v : rng 64 mask -> within mask v -> rng 64 v.
Proof.
  intros Hm Hw. replace v with (v .& mask); [by apply rng_land_r|].
  apply Z.bits_inj'; intros n Hn. apply (f_equal (fun z => Z.testbit z n)) in Hw. revert Hw.
  autorewrite with zbits. destruct (Z.testbit v n), (Z.testbit mask n); done.
Qed.

Lemma tdata1_rng v : tdata1_ok v -> rng 64 v.
Proof.
  intros (Hv & _). rewrite Z.shiftr_div_pow2 in Hv by lia.
  pose proof (Z.div_mod v (2 ^ 60) ltac:(lia)). pose proof (Z.mod_pos_bound v (2 ^ 60) ltac:(lia)).
  unfold rng. lia.
Qed.

Lemma arr_rng l i : Forall (rng 64) l -> rng 64 (arr l i).
Proof.
  intros Hl. unfold arr. destruct (l !! Z.to_nat i) as [x|] eqn:E.
  - rewrite (list_lookup_total_correct _ _ _ E). by eapply Forall_lookup_1.
  - rewrite list_lookup_total_alt, E. unfold rng; cbv; split; (discriminate || done).
Qed.

Section csr_values.
Context {Dev : Type}.
Implicit Types s : RiscvState Dev.

Definition val_ok (r : csr_res Z) : Prop := match r with COk v => rng 64 v | _ => True end.

Lemma csr_rngs s : csr_inv s ->
  Forall (rng 64) [misa s; mstatus s; satp s; mtvec s; stvec s; medeleg s; mideleg s; mip s; tselect s; frm s;
    fflags s; mie s; mscratch s; mepc s; mcause s; mtval s; mcounteren s;
     scounteren s; mcycle s; minstret s; mcountinhibit s; sscratch s; sepc s; scause s; stval s;
     tcontrol s; scontext s; menvcfg s; senvcfg s; stimecmp s; mnstatus s; ext_irq s].
Proof.
  intros Hi. pose proof (ci_plain _ Hi) as Hp.
  assert (Hs : rng 64 (tselect s)) by (pose proof (ci_tselect _ Hi); unfold rng, kTrigCount in *; lia).
  pose proof (rng_mono 3 64 _ ltac:(lia) (ci_frm _ Hi)). pose proof (rng_mono 5 64 _ ltac:(lia) (ci_fflags _ Hi)).
  pose proof (proj1 (ci_misa _ Hi)) as H1. pose proof (ci_medeleg _ Hi) as H2.
  pose proof (ci_mideleg _ Hi) as H3. pose proof (ci_mip _ Hi) as H4.
  apply within_rng64 in H1, H2, H3, H4; [|by cbv; split..].
  do 11 (apply Forall_cons; split; [first [assumption | apply Hi]|]). exact Hp.
Qed.

Lemma lists_rng s : csr_inv s ->
  Forall (Forall (rng 64)) [tdata1 s; tdata2 s; tdata3 s; mhpmcounter s; mhpmevent s; pmpcfg s; pmpaddr s].
Proof.
  intros Hi. repeat (apply Forall_cons; split); try apply Forall_nil_2; try apply Hi.
  - eapply Forall_impl; [apply Hi|]. apply tdata1_rng.
  - eapply Forall_impl; [apply Hi|]. by intros x [? _].
  - eapply Forall_impl; [apply Hi|]. intros x Hx. apply (rng_mono 54); [lia|done].
Qed.

Lemma fcsr_rng s : csr_inv s -> rng 64 ((frm s .<< 5) .| fflags s).
Proof.
  intros Hi. apply rng_lor; [lia| |apply (rng_mono 5); [lia|apply Hi]].
  apply (rng_mono (3 + 5)); [lia|]. apply shiftl_rng; [lia|lia|apply Hi].
Qed.

Lemma csr_read_plain_rng s addr : csr_inv s -> val_ok (csr_read_plain s addr).
Proof.
  intros Hi. pose proof (csr_rngs s Hi) as Hr. pose proof (lists_rng s Hi) as Hl.
  pose proof (fcsr_rng s Hi) as Hf.
  repeat (apply Forall_cons in Hr as [? Hr]). repeat (apply Forall_cons in Hl as [? Hl]). clear Hr Hl.
  assert (Hmip : rng 64 (MipAll s)) by (unfold MipAll; rng).
  unfold csr_read_plain. apply (switch_ind val_ok).
  - repeat apply Forall_cons_2; try apply Forall_nil_2; cbn [fst snd]; intros _;
      unfold trig_read; repeat case_match; cbn [val_ok]; try exact I; try assumption;
      try (apply arr_rng; assumption); unfold sel; repeat case_match; rng.
  - repeat case_match; cbn [val_ok]; try exact I; by apply arr_rng.
Qed.

Lemma csr_read_rng {W} (timer : option (W -> Z * W)) s addr w v w' :
  csr_inv s -> (forall t w, timer = Some t -> rng 64 (t w).1) ->
  riscv_csr_read timer s addr w = (COk v, w') -> rng 64 v.
Proof.
  intros Hi Ht. pose proof (csr_rngs s Hi) as Hr. repeat (apply Forall_cons in Hr as [? Hr]). clear Hr.
  unfold riscv_csr_read, ReadCounter. destruct (priv s <? _); [done|].
  pose proof (csr_read_plain_rng s addr Hi) as Hp.
  repeat case_match; intros E; simplify_eq; try done; try (by rewrite E in Hp).
  all: match goal with
       | E : csr_read_plain _ _ = _ |- _ => by rewrite E in Hp
       | E : ?t ?w = (_, _) |- _ => specialize (Ht t w eq_refl); by rewrite E in Ht
       end.
Qed.

(** A CSR write leaves the translation cache alone. *)
Definition tlb_view s := (tlb s, tlb_gen s).

Lemma csr_write_tlb s addr val next_pc : res_keeps tlb_view s (riscv_csr_write s addr val next_pc).
Proof.
  unfold riscv_csr_write, csr_write_plain. do 3 (case_match; [done|]). apply switch_ind.
  - repeat apply Forall_cons_2; try apply Forall_nil_2; cbn [fst snd]; intros _;
      unfold satp_write, trig_write; repeat case_match; done.
  - unfold WritePmpAddr. repeat case_match; done.
Qed.

Lemma csr_write_oob_or_inv s addr val next_pc s' :
  csr_inv s -> rng 64 val -> riscv_csr_write s addr val next_pc = COk s' -> csr_inv s' /\ tlb s' = tlb s.
Proof.
  intros Hi Hv E. split; [by eapply riscv_csr_write_inv|].
  pose proof (csr_write_tlb s addr val next_pc) as H. rewrite E in H. by injection H.
Qed.
End csr_values.

(** ** The invariant and the judgement *)

(** 512 entries with page-aligned bases. *)
Definition tlb_shape {Dev} (s : RiscvState Dev) : Prop :=
  length (tlb s) = 512%nat /\ Forall (fun e => 0 <= te_pbase e /\ te_pbase e &~ 0xfff = te_pbase e) (tlb s).

Record mach_ok {Ops Dev W} (m : Mach Ops Dev W) : Prop := {
  mo_gpr : length (gpr (cpu m)) = 32%nat /\ Forall (rng 64) (gpr (cpu m));
  mo_fpr : length (fpr (cpu m)) = 32%nat /\ Forall (rng 64) (fpr (cpu m));
  mo_pc : rng 64 (pc (cpu m));
  mo_csr : csr_inv (rs m);
  mo_tlb : tlb_shape (rs m);
  mo_bus : bus_wf (bus m);
}.

Definition trap_ok (t : trap_rec) : Prop := rng 64 (trap_cause t) /\ rng 64 (trap_tval t).

(** Debug-mode triggers are not implemented, and pmpcfg4.. index past the
    struct's array; nothing else stops the interpreter. *)
Definition may_abort (r : abort_reason) : Prop := r = FatalTriggerDebug \/ r = CsrIndex \/ r = NameIndex.

Definition safe {Ops Dev W A} (p : M (Mach Ops Dev W) A) (V : A -> Prop) : Prop :=
  forall m, mach_ok m -> wp p (fun a m' => V a /\ mach_ok m') (fun t m' => trap_ok t /\ mach_ok m') may_abort m.

Section safe.
Context {Ops Dev W : Type}.
#[local] Abbreviation MM := (M (Mach Ops Dev W)).
Implicit Types m : Mach Ops Dev W.
Definition any {A} : A -> Prop := fun _ => True.

Lemma safe_abort {A} r (V : A -> Prop) : may_abort r -> safe (abort r : MM A) V.
Proof. by intros Hr m _. Qed.

Lemma safe_ret {A} (a : A) (V : A -> Prop) : V a -> safe (mret' a : MM A) V.
Proof. intros Hv m Hm. by apply wp_ret. Qed.

Lemma safe_bind {A B} (p : MM A) (k : A -> MM B) V V' :
  safe p V -> (forall a, V a -> safe (k a) V') -> safe (mbind' p k) V'.
Proof.
  intros Hp Hk m Hm. apply wp_bind. eapply wp_mono; [| | |apply (Hp m Hm)]; cbv beta; [|done..].
  intros a m' [Ha Hm']. by apply Hk.
Qed.

Lemma safe_mono {A} (p : MM A) (V V' : A -> Prop) : safe p V -> (forall a, V a -> V' a) -> safe p V'.
Proof. intros Hp HV m Hm. eapply wp_mono; [| | |apply (Hp m Hm)]; cbv beta; [naive_solver|done..]. Qed.

Lemma safe_gets {A} (f : Mach Ops Dev W -> A) (V : A -> Prop) :
  (forall m, mach_ok m -> V (f m)) -> safe (gets f) V.
Proof. intros Hf m Hm. split; auto. Qed.

Lemma safe_modify (f : Mach Ops Dev W -> Mach Ops Dev W) :
  (forall m, mach_ok m -> mach_ok (f m)) -> safe (modify f) any.
Proof. intros Hf m Hm. split; [exact I|]. by apply Hf. Qed.

Lemma safe_raise {A} cause tval (V : A -> Prop) : rng 64 cause -> rng 64 tval -> safe (raise_ cause tval : MM A) V.
Proof. intros ? ? m Hm. by split. Qed.

Lemma safe_raise_paddr {A} cause tval pa (V : A -> Prop) :
  rng 64 cause -> rng 64 tval -> safe (raise_paddr_ cause tval pa : MM A) V.
Proof. intros ? ? m Hm. by split. Qed.

Lemma safe_switch {A} x (l : list (Z * MM A)) d V :
  Forall (fun ka => safe ka.2 V) l -> safe d V -> safe (switch x l d) V.
Proof.
  intros Hl Hd. apply (switch_ind (fun p => safe p V)); [|done]. eapply Forall_impl; [exact Hl|]. auto.
Qed.

Lemma safe_when (b : bool) (p : MM unit) : (b = true -> safe p any) -> safe (when b do p) any.
Proof. intros Hp. destruct b; [auto|]. by apply safe_ret. Qed.

(** *** Registers *)

Lemma safe_getx i : safe (getx i : MM Z) (rng 64).
Proof. apply safe_gets. intros m Hm. apply arr_rng, Hm. Qed.
Lemma safe_getf i : safe (getf i : MM Z) (rng 64).
Proof. apply safe_gets. intros m Hm. apply arr_rng, Hm. Qed.
Lemma safe_getpc : safe (getpc : MM Z) (rng 64).
Proof. apply safe_gets. intros m Hm. apply Hm. Qed.
Lemma safe_getrs : safe (getrs : MM _) csr_inv.
Proof. apply safe_gets. intros m Hm. apply Hm. Qed.

Lemma safe_setx i v : rng 64 v -> safe (setx i v : MM unit) any.
Proof.
  intros Hv. apply safe_modify. intros m [[Hg Hg'] Hf Hp Hc Ht Hb]. split; rsimpl; try assumption.
  split; [by rewrite length_arr_set|by apply Forall_arr_set].
Qed.

Lemma safe_setf i v : rng 64 v -> safe (setf i v : MM unit) any.
Proof.
  intros Hv. apply safe_modify. intros m [Hg [Hf Hf'] Hp Hc Ht Hb]. split; rsimpl; try assumption.
  split; [by rewrite length_arr_set|by apply Forall_arr_set].
Qed.

(** Changing the CSR file within its invariant, keeping the cache. *)
Lemma mach_ok_rs m s : mach_ok m -> csr_inv s -> tlb_shape s -> mach_ok (m <| rs := s |>).
Proof. intros [? ? ? ? ? ?] ? ?. by split. Qed.

Lemma safe_modrs (f : RiscvState Dev -> RiscvState Dev) :
  (forall s, csr_inv s -> csr_inv (f s) /\ tlb (f s) = tlb s) -> safe (modrs f : MM unit) any.
Proof.
  intros Hf. apply safe_modify. intros m Hm. destruct (Hf (rs m) (mo_csr _ Hm)) as [Hi Ht].
  apply mach_ok_rs; [done..|]. unfold tlb_shape. rewrite Ht. apply Hm.
Qed.
End safe.

(** The CSR invariant does not look at the fields the goal updates. *)
Ltac csr_same :=
  match goal with H : csr_inv ?s |- csr_inv _ => destruct H; constructor; rsimpl; assumption end.

(** Case analysis on what the code at hand branches on. *)
Ltac safe_case := match goal with |- safe (match ?x with _ => _ end) _ => destruct x eqn:? end.

(** ** Memory *)

Section mem.
Context {Ops Dev W : Type} `{BusDevices Ops Dev W} {bus0 : Bus Ops Dev} `{!BusDevicesOk Ops Dev W bus0}.
Variable dbg_mem : bool.
#[local] Abbreviation MM := (M (Mach Ops Dev W)).
Implicit Types m : Mach Ops Dev W.

Lemma mach_ok_bus m b w : mach_ok m -> bus_wf b -> mach_ok (m <| bus := b |> <| world := w |>).
Proof. intros [? ? ? ? ? ?] ?. by split. Qed.

Lemma mach_ok_event m e :
  (forall line level, e = EvIrq line level -> rng 64 line) -> mach_ok m -> mach_ok (apply_event m e).
Proof.
  intros He [? ? ? Hc Ht ?]. destruct e as [line level|on| |code]; cbn [apply_event]; [|by split..].
  - apply mach_ok_rs; [by split| |].
    + apply riscv_set_ext_irq_inv; [done|by eapply He].
    + unfold riscv_set_ext_irq. by case_match.
Qed.

Lemma mach_ok_events evs m :
  (forall line level, EvIrq line level ∈ evs -> rng 64 line) -> mach_ok m -> mach_ok (fold_left apply_event evs m).
Proof.
  revert m. induction evs as [|e evs IH]; intros m He Hm; cbn; [done|]. apply IH.
  - intros line level Hin. apply (He line level). by right.
  - apply mach_ok_event; [|done]. intros line level ->. apply (He line level). by left.
Qed.

(** A probed address decodes: the access that follows never stops the
    process. *)
Lemma probe_again m addr len r b :
  bus_wf (bus m) -> 0 <= addr -> 0 < len -> FindRegion (bus m) addr len = (r, b) ->
  bus_wf b /\ (FindRegion b addr len).1 = r /\ bus_wf (FindRegion b addr len).2.
Proof.
  intros Hwf Ha Hl E. pose proof (FindRegion_decode (bus m) addr len Hwf Ha Hl) as E1.
  pose proof (FindRegion_wf (bus m) addr len Hwf) as Hwf'. pose proof (FindRegion_regions (bus m) addr len) as Hr.
  rewrite E in E1, Hwf', Hr. cbn [fst snd] in *. split; [done|].
  rewrite (FindRegion_decode b) by done. split; [|by apply FindRegion_wf].
  by rewrite (decode_regions (bus m)).
Qed.

Lemma safe_probe_read addr size (fault : MM Z) :
  0 <= addr -> 0 < size <= 8 -> safe fault (rng 64) ->
  safe (r <- bus_probe addr size ;; match r with None => fault | Some _ => bus_read addr size end) (rng 64).
Proof.
  intros Ha Hs Hf m Hm. apply wp_bind. unfold wp at 1, bus_probe, BusProbe.
  destruct (FindRegion (bus m) addr size) as [r b] eqn:E.
  destruct (probe_again _ _ _ _ _ (mo_bus _ Hm) Ha (proj1 Hs) E) as (Hwb & Hf2 & Hwb2).
  assert (Hm1 : mach_ok (m <| bus := b |>)) by (destruct Hm; by split).
  destruct r as [r|]; [|by apply Hf]. unfold wp, bus_read. rsimpl.
  destruct (FindRegion b addr size) as [r' b'] eqn:E'. cbn [fst snd] in *. subst r'.
  pose proof (bd_read_rng (r_ops r) (r_dev r) addr size (world m) Hs) as Hv.
  pose proof (bd_read_lines (r_ops r) (r_dev r) addr size (world m)) as Hl.
  destruct (dev_read _ _ _ _ _) as [[v w] evs]. split; [done|].
  apply mach_ok_events; [done|]. by apply mach_ok_bus.
Qed.

Lemma safe_probe_write addr size v (fault : MM unit) :
  0 <= addr -> 0 < size -> safe fault any ->
  safe (r <- bus_probe addr size ;; match r with None => fault | Some _ => bus_write addr size v end) any.
Proof.
  intros Ha Hs Hf m Hm. apply wp_bind. unfold wp at 1, bus_probe, BusProbe.
  destruct (FindRegion (bus m) addr size) as [r b] eqn:E.
  destruct (probe_again _ _ _ _ _ (mo_bus _ Hm) Ha Hs E) as (Hwb & Hf2 & Hwb2).
  assert (Hm1 : mach_ok (m <| bus := b |>)) by (destruct Hm; by split).
  destruct r as [r|]; [|by apply Hf]. unfold wp, bus_write. rsimpl.
  destruct (FindRegion b addr size) as [r' b'] eqn:E'. cbn [fst snd] in *. subst r'.
  pose proof (bd_write_lines (r_ops r) (r_dev r) addr size v (world m)) as Hl.
  destruct (dev_write _ _ _ _ _ _) as [w evs]. split; [exact I|].
  apply mach_ok_events; [done|]. by apply mach_ok_bus.
Qed.

Lemma access_cause_rng acc : rng 64 (AccessFaultCause acc) /\ rng 64 (PageFaultCause acc) /\ rng 64 (fault_cause acc).
Proof. destruct acc; split_and!; unfold rng; cbv; split; (discriminate || done). Qed.

Lemma safe_page_fault {A} acc vaddr (V : A -> Prop) : rng 64 vaddr -> safe (page_fault acc vaddr : MM A) V.
Proof. intros. apply safe_raise; [apply access_cause_rng|done]. Qed.

Lemma safe_PteRead a acc : rng 64 a -> safe (PteRead a acc : MM Z) (rng 64).
Proof.
  intros Ha. eapply safe_bind; [apply safe_getrs|]. intros s Hs.
  assert (Hr : safe (raise_paddr_ (AccessFaultCause acc) a a : MM Z) (rng 64)).
  { apply safe_raise_paddr; [apply access_cause_rng|done]. }
  destruct (negb _); [done|]. apply safe_probe_read; [apply Ha|lia|done].
Qed.

Lemma safe_walk vaddr acc : rng 64 vaddr -> forall n base pte a, rng 64 pte -> rng 64 a ->
  safe (walk vaddr acc n base pte a : MM _) (fun x => rng 64 x.1.1 /\ rng 64 x.1.2).
Proof.
  intros Hv n. induction n as [|n IH]; intros base pte a Hp Ha; cbn [walk]; [by apply safe_ret|].
  set (a' := u64 _). assert (Ha' : rng 64 a') by (apply rng_wrap; lia). clearbody a'.
  eapply safe_bind; [by apply safe_PteRead|]. intros pte' Hp'. safe_case; [by apply safe_page_fault|].
  safe_case; [by apply safe_ret|]. by apply IH.
Qed.

Lemma leaf_paddr_nonneg level pte vaddr pa : rng 64 vaddr -> leaf_paddr level pte vaddr = Some pa -> 0 <= pa.
Proof.
  intros [Hv _]. unfold leaf_paddr. repeat case_match; intros [= <-]; apply Z.lor_nonneg;
    (split; [apply (rng_wrap 64); lia|apply Z.land_nonneg; auto]).
Qed.

Lemma mach_ok_tlb_fill m eff vpn acc pa h :
  mach_ok m -> 0 <= pa -> mach_ok (m <| rs := tlb_fill (rs m) eff vpn acc pa h |>).
Proof.
  intros Hm Hpa. destruct Hm as [? ? ? Hc [Ht1 Ht2] ?]. apply mach_ok_rs; [by split| |].
  - unfold tlb_fill. case_match. csr_same.
  - unfold tlb_fill. case_match. unfold tlb_shape. rsimpl. split; [by rewrite length_arr_set|].
    apply Forall_arr_set; [done|]. cbn. split; [apply Z.ldiff_nonneg; auto|zbits].
Qed.

Lemma safe_translate_walk eff vaddr size acc :
  rng 64 vaddr -> safe (translate_walk eff vaddr size acc : MM _) (fun x => 0 <= x.1).
Proof.
  intros Hv. eapply safe_bind; [apply safe_getrs|]. intros s Hs. safe_case; [by apply safe_page_fault|].
  eapply safe_bind; [apply safe_walk; [done|rng|rng]|]. intros [[pte a] level] [Hp Ha]. cbn [fst snd] in *.
  safe_case; [by apply safe_page_fault|]. safe_case; [|by apply safe_page_fault].
  eapply safe_bind.
  { apply safe_when. intros _. apply safe_probe_write; [apply Ha|lia|].
    apply safe_raise_paddr; [apply access_cause_rng|done]. }
  intros _ _. destruct (leaf_paddr _ _ _) as [pa|] eqn:E; [|by apply safe_page_fault].
  apply leaf_paddr_nonneg in E; [|done].
  safe_case; [by apply safe_raise_paddr; [apply access_cause_rng|]|].
  eapply (safe_bind _ _ any); [by apply safe_gets|]. intros m1 _. eapply safe_bind.
  { apply safe_modify. intros m Hm. by apply mach_ok_tlb_fill. }
  intros _ _. by apply safe_ret.
Qed.

Lemma safe_translate vaddr size acc :
  rng 64 vaddr -> safe (RiscvTranslate vaddr size acc : MM _) (fun x => 0 <= x.1).
Proof.
  intros Hv m Hm. unfold RiscvTranslate. apply wp_gets. wp_case.
  - wp_case; [split; [split; [apply access_cause_rng|done]|done]|]. split; [apply Hv|done].
  - destruct (tlb_lookup _ _ _ _) as [e|] eqn:E; [|by apply safe_translate_walk]. split; [|done].
    cbn [fst]. apply Z.lor_nonneg. split; [|apply Z.land_nonneg; left; apply Hv].
    pose proof (tlb_set_range (vaddr .>> 12) acc) as Hr. destruct (mo_tlb _ Hm) as [Hl Ht].
    assert (Hin : forall w, 0 <= w <= 1 -> 0 <= te_pbase (tlb_way (rs m) (vaddr .>> 12) acc w)).
    { intros w Hw. refine (proj1 (Forall_arr _ (tlb (rs m)) _ Ht _)). unfold kTlbWays. lia. }
    unfold tlb_lookup in E. repeat case_match; simplify_eq; apply Hin; lia.
Qed.

Lemma safe_fire t1 addr : rng 64 addr -> safe (Fire t1 addr : MM unit) any.
Proof.
  intros Ha. unfold Fire. safe_case; [by intros m' _; left|]. apply safe_raise; [rng|done].
Qed.

Lemma safe_trigger op addr : rng 64 addr -> safe (RiscvTriggerCheck op addr : MM unit) any.
Proof.
  intros Ha. eapply safe_bind; [apply safe_getrs|]. intros s _. safe_case; [by apply safe_ret|].
  eapply safe_bind; [apply safe_when; intros _; by apply safe_fire|]. intros _ _.
  apply safe_when. intros _. by apply safe_fire.
Qed.

Lemma safe_load_width vaddr size acc :
  rng 64 vaddr -> 0 < size <= 8 -> safe (riscv_mem_load dbg_mem vaddr size acc : MM Z) (rng 64).
Proof.
  intros Hv Hs. eapply safe_bind; [apply safe_when; intros _; by apply safe_trigger|]. intros _ _.
  eapply safe_bind; [by apply safe_translate|]. intros [pa h] Hpa. cbn [fst snd] in *.
  assert (Hb : safe (bus_load vaddr pa size acc : MM Z) (rng 64)).
  { apply safe_probe_read; [done..|]. apply safe_raise_paddr; [apply access_cause_rng|done]. }
  destruct h as [h|]; [|done]. safe_case; [|done]. apply safe_gets. intros m _.
  apply (rng_mono (8 * size)); [lia|]. by apply bd_load_rng.
Qed.

Lemma safe_store_width vaddr size v : rng 64 vaddr -> 0 < size <= 8 -> safe (riscv_mem_store dbg_mem vaddr size v : MM unit) any.
Proof.
  intros Hv Hs. eapply safe_bind; [by apply safe_trigger|]. intros _ _.
  eapply safe_bind; [by apply safe_translate|]. intros [pa h] Hpa. cbn [fst snd] in *.
  assert (Hb : safe (bus_store vaddr pa size v : MM unit) any).
  { apply safe_probe_write; [done|lia|]. apply safe_raise_paddr; [rng|done]. }
  destruct h as [h|]; [|done]. safe_case; [|done]. apply safe_modify. intros m Hm. destruct Hm; by split.
Qed.
End mem.

(** ** Instructions *)

Section exec.
Context {Ops Dev W : Type} `{BusDevices Ops Dev W} {bus0 : Bus Ops Dev} `{!BusDevicesOk Ops Dev W bus0}.
Variable dbg_mem : bool.
#[local] Abbreviation MM := (M (Mach Ops Dev W)).
Implicit Types m : Mach Ops Dev W.

Lemma safe_illegal {A} i (V : A -> Prop) : rng 64 i -> safe (illegal i : MM A) V.
Proof. intros. apply safe_raise; [rng|done]. Qed.

Lemma safe_mload vaddr size acc :
  rng 64 vaddr -> 0 < size <= 8 -> safe (riscv_mem_load dbg_mem vaddr size acc : MM Z) (rng 64).
Proof. by apply (safe_load_width (bus0:=bus0)). Qed.

Lemma safe_mstore vaddr size v : rng 64 vaddr -> 0 < size <= 8 -> safe (riscv_mem_store dbg_mem vaddr size v : MM unit) any.
Proof. by apply (safe_store_width (bus0:=bus0)). Qed.

Lemma safe_load addr size sx : rng 64 addr -> 0 < size <= 8 -> safe (load dbg_mem addr size sx : MM Z) (rng 64).
Proof.
  intros Ha Hs. eapply safe_bind; [by apply safe_mload|]. intros v Hv. apply safe_ret.
  case_match; [|done]. apply sext_rng64; [done|lia].
Qed.

Lemma safe_setx_or_illegal i r v :
  rng 64 i -> (forall x, v = Some x -> rng 64 x) -> safe (setx_or_illegal i r v : MM unit) any.
Proof. intros Hi Hv. destruct v; [apply safe_setx; auto|by apply safe_illegal]. Qed.

Lemma safe_csr_read csr i : rng 64 i -> safe (csr_read_m csr i : MM Z) (rng 64).
Proof.
  intros Hi m Hm. unfold wp, csr_read_m. destruct (riscv_csr_read _ _ _ _) as [r w] eqn:E.
  assert (Hm' : mach_ok (m <| world := w |>)) by (destruct Hm; by split).
  destruct r as [v| |]; [|split; [split; [cbn; rng|done]|done]|by right; left]. split; [|done].
  eapply csr_read_rng; [apply Hm| |exact E]. intros t w' Ht. by apply (bd_timer_rng (bus:=bus0)).
Qed.

Lemma safe_csr_write csr v p i : rng 64 i -> rng 64 v -> safe (csr_write_m csr v p i : MM unit) any.
Proof.
  intros Hi Hv m Hm. unfold wp, csr_write_m. destruct (riscv_csr_write _ _ _ _) as [s| |] eqn:E.
  - apply csr_write_oob_or_inv in E as [Hc Ht]; [|apply Hm|done]. split; [exact I|].
    apply mach_ok_rs; [done..|]. unfold tlb_shape. rewrite Ht. apply Hm.
  - split; [|done]. split; [cbn; rng|done].
  - by right; left.
Qed.

(** Run the code at hand by the lemma of its first operation. *)
Ltac prim := first
  [ apply safe_getx | apply safe_getf | apply safe_getpc | apply safe_getrs
  | apply safe_csr_read; assumption | apply safe_csr_write; [assumption|rng64]
  | apply safe_mload; [rng64|lia] | apply safe_mstore; [rng64|lia] | apply safe_load; [rng64|lia]
  | apply safe_setx; rng64 | apply safe_setf; rng64 ].
Ltac step := first
  [ eapply safe_bind; [prim|intros ? ?] | prim | apply safe_illegal; assumption
  | apply safe_ret; first [exact I | rng64] ].
Ltac cases := apply safe_switch; [repeat apply Forall_cons_2; try apply Forall_nil_2; cbn [snd]|].

Lemma safe_csr_op i : rng 32 i -> safe (csr_op i : MM unit) any.
Proof.
  intros Hi. assert (Hi64 : rng 64 i) by (apply (rng_mono 32); [lia|done]).
  assert (Hr : rng 64 (rs1 i)) by (unfold rs1; rng).
  unfold csr_op. cbv zeta. do 3 step. eapply safe_bind; [|intros _ _; step].
  cases; [..|step]; [|apply safe_when; intros _..].
  all: case_match; step.
Qed.

Lemma xret_rng (s : RiscvState Dev) : csr_inv s -> rng 64 (riscv_mret s).1 /\ rng 64 (riscv_sret s).1.
Proof.
  intros Hi. pose proof (csr_inv_rng s (mepc s) Hi ltac:(cbn; tauto)).
  pose proof (csr_inv_rng s (sepc s) Hi ltac:(cbn; tauto)).
  unfold riscv_mret, riscv_sret. cbn [fst]. split; case_match; rng.
Qed.

Lemma safe_modwait (b : bool) : safe (modcpu (fun c => c <| wait := b |>) : MM unit) any.
Proof. apply safe_modify. intros m []. by split. Qed.

Lemma safe_system_op i : rng 32 i -> safe (system_op i : MM Z) (rng 64).
Proof.
  intros Hi. assert (Hi64 : rng 64 i) by (apply (rng_mono 32); [lia|done]).
  eapply safe_bind; [apply safe_getrs|]. intros s Hs. pose proof (xret_rng s Hs) as [Hmr Hsr].
  step. cases; [..|step].
  - apply safe_raise; [|rng]. repeat case_match; rng.
  - apply safe_raise; [rng|done].
  - safe_case; [step|]. eapply safe_bind; [|intros _ _; by apply safe_ret].
    apply safe_modrs. intros s' Hs'. split; [by apply riscv_mret_inv|done].
  - do 3 (safe_case; [step|]). eapply safe_bind; [|intros _ _; by apply safe_ret].
    apply safe_modrs. intros s' Hs'. split; [by apply riscv_sret_inv|done].
  - do 2 (safe_case; [step|]). eapply safe_bind; [|intros _ _; step].
    apply safe_when. intros _. apply safe_modwait.
  - do 2 (safe_case; [step|]). eapply safe_bind; [|intros _ _; step].
    apply safe_modrs. intros s' Hs'. split; [csr_same|done].
Qed.

Lemma safe_amo_op i dbl : rng 32 i -> safe (amo_op dbg_mem i dbl : MM unit) any.
Proof.
  intros Hi. assert (Hi64 : rng 64 i) by (apply (rng_mono 32); [lia|done]).
  unfold amo_op. eapply safe_bind; [apply safe_getx|]. intros addr Ha.
  safe_case; [apply safe_raise; [rng|done]|]. set (w := if dbl then 8 else 4).
  assert (Hw : 0 < w <= 8) by (unfold w; case_match; lia). clearbody w.
  assert (Hext : forall v, rng 64 v -> rng 64 (if dbl then v else sext v 32)).
  { intros v Hv. case_match; [done|apply sext32_rng]. }
  assert (Hrmw : safe (old <- riscv_mem_load dbg_mem addr w acc_read ;;
    val <- getx (rs2 i) ;;
    match (if dbl then amo_d (f7 i .>> 2) old val else amo_w (f7 i .>> 2) old val) with
    | Some stored => riscv_mem_store dbg_mem addr w stored ;;; setx (rd i) (if dbl then old else sext old 32)
    | None => illegal i
    end : MM unit) any).
  { eapply safe_bind; [by apply safe_mload|]. intros old Ho. step.
    safe_case; [|step]. eapply safe_bind; [by apply safe_mstore|]. intros _ _. apply safe_setx. auto. }
  cases; try exact Hrmw; [| |step].
  - eapply safe_bind; [by apply safe_mload|]. intros old Ho. eapply safe_bind.
    { apply safe_modrs. intros s Hs. split; [csr_same|done]. }
    intros _ _. apply safe_setx. auto.
  - do 2 step. eapply safe_bind; [safe_case|].
    + eapply safe_bind; [by apply safe_mstore|]. intros _ _. step.
    + step.
    + intros _ _. apply safe_modrs. intros s Hs. split; [csr_same|done].
Qed.

(** *** Floating point *)

Lemma safe_fp_enter i : rng 64 i -> safe (fp_enter i : MM unit) any.
Proof.
  intros Hi. step. safe_case; [step|]. apply safe_modrs. intros s Hs. split; [|done].
  destruct Hs; constructor; rsimpl; try assumption. apply mstatus_ok_set; [done|rng|reflexivity..].
Qed.

Lemma safe_fp_run r : fp_ok r -> safe (fp_run r : MM Z) (rng 64).
Proof.
  intros [H1 H2]. eapply safe_bind; [|intros _ _; by apply safe_ret]. apply safe_modrs. intros s Hs.
  split; [|done]. destruct Hs; constructor; rsimpl; try assumption. rng.
Qed.

Lemma safe_fp_run_opt r : fp_opt_ok r -> safe (fp_run_opt r : MM Z) (rng 64).
Proof. destruct r; [apply safe_fp_run|done]. Qed.

Lemma safe_fp_rm r : safe (fp_rm r : MM Z) any.
Proof. step. by apply safe_ret. Qed.

Lemma low2_cases x : 0 <= x .& 3 < 4.
Proof. change 3 with (2 ^ 2 - 1). rewrite land_ones_wrap by lia. by apply rng_wrap. Qed.

Lemma kind_ok f7v : arith_kind ((f7v .>> 2) .& 3).
Proof.
  pose proof (low2_cases (f7v .>> 2)). unfold arith_kind, kFpAdd, kFpSub, kFpMul, kFpDiv. lia.
Qed.

Lemma fp_results (a b x1 k rm f3v : Z) (sg : bool) (d : Z) (dbl : bool) :
  rng 64 a -> rng 64 b -> arith_kind k ->
  fp_opt_ok (if dbl then RiscvFpBinaryD a b k rm else RiscvFpBinaryS a b k rm) /\
  fp_ok (if dbl then RiscvFpSqrtD a rm else RiscvFpSqrtS a rm) /\
  rng 64 (if dbl then RiscvFpSgnjD a b f3v else RiscvFpSgnjS a b f3v) /\
  fp_ok (if dbl then RiscvFpMinMaxD a b (negb (f3v =? 0)) else RiscvFpMinMaxS a b (negb (f3v =? 0))) /\
  fp_ok (if dbl then RiscvFpF2ID a sg d rm else RiscvFpF2IS a sg d rm) /\
  fp_ok (if dbl then RiscvFpI2FD x1 sg d rm else RiscvFpI2FS x1 sg d rm) /\
  fp_ok (RiscvFpCvtSD a rm) /\ fp_ok (RiscvFpCvtDS a rm) /\
  rng 64 (if dbl then (if f3v =? 0 then a else RiscvFpClassD a)
          else (if f3v =? 0 then u64 (s32 (u32 a)) else RiscvFpClassS a)).
Proof.
  intros Ha Hb Hk. destruct (Cvt_ok a rm) as [Hc1 Hc2]. destruct (Class_rng a) as [Hs Hd].
  destruct dbl; split_and!; try assumption.
  - exact (BinaryD_ok a b k rm Hk).
  - exact (proj2 (Sqrt_ok a rm)).
  - exact (proj2 (Sgnj_rng a b f3v Ha Hb)).
  - exact (proj2 (MinMax_ok a b _)).
  - exact (proj2 (F2I_ok a sg d rm)).
  - exact (proj2 (I2F_ok x1 sg d rm)).
  - destruct (f3v =? 0); assumption.
  - exact (BinaryS_ok a b k rm Hk).
  - exact (proj1 (Sqrt_ok a rm)).
  - exact (proj1 (Sgnj_rng a b f3v Ha Hb)).
  - exact (proj1 (MinMax_ok a b _)).
  - exact (proj1 (F2I_ok a sg d rm)).
  - exact (proj1 (I2F_ok x1 sg d rm)).
  - destruct (f3v =? 0); [apply rng_wrap; lia|assumption].
Qed.

Lemma fp_cmp_result (a b f3v : Z) (dbl : bool) :
  let k := if f3v =? 0 then kFpLe else if f3v =? 1 then kFpLt else kFpEq in
  fp_opt_ok (if dbl then RiscvFpCmpD a b k else RiscvFpCmpS a b k).
Proof.
  intros k. assert (Hk : cmp_sel k) by (unfold cmp_sel, k; repeat case_match; auto).
  clearbody k. destruct dbl; [exact (proj2 (Cmp_ok a b k Hk))|exact (proj1 (Cmp_ok a b k Hk))].
Qed.

Lemma safe_to_f (p : MM Z) d : safe p (rng 64) -> safe (r <- p ;; setf d r) any.
Proof. intros Hp. eapply safe_bind; [exact Hp|]. intros r Hr. by apply safe_setf. Qed.

Lemma safe_to_x (p : MM Z) d : safe p (rng 64) -> safe (r <- p ;; setx d r) any.
Proof. intros Hp. eapply safe_bind; [exact Hp|]. intros r Hr. by apply safe_setx. Qed.

(** The hypothesis about this very term, without unfolding any. *)
Ltac have := match goal with
  | H : ?P ?r |- ?Q ?r' => constr_eq P Q; constr_eq r r'; exact H
  end.

(** One operation group of the f7 switch. *)
Ltac fp_case := lazymatch goal with
  | |- safe (illegal _) _ => apply safe_illegal; have
  | |- safe (if _ then illegal _ else _) _ => safe_case; [apply safe_illegal; have|fp_case]
  | |- safe (if _ then abort _ else _) _ => safe_case; [apply safe_abort; by right; right|fp_case]
  | |- safe (mbind' _ (fun r => setf _ r)) _ => apply safe_to_f; fp_case
  | |- safe (mbind' _ (fun r => setx _ r)) _ => apply safe_to_x; fp_case
  | |- safe (fp_run_opt _) _ => apply safe_fp_run_opt; have
  | |- safe (fp_run _) _ => apply safe_fp_run; have
  | |- safe (mret' _) _ => apply safe_ret; have
  end.

Lemma safe_fp_op i : rng 32 i -> safe (fp_op i : MM unit) any.
Proof.
  intros Hi. assert (Hi64 : rng 64 i) by (apply (rng_mono 32); [lia|done]).
  unfold fp_op. cbv beta zeta. eapply safe_bind; [by apply safe_fp_enter|]. intros _ _.
  eapply safe_bind; [apply safe_fp_rm|]. intros rm _.
  eapply safe_bind; [apply safe_getf|]. intros fa Ha. eapply safe_bind; [apply safe_getf|]. intros fb Hb.
  eapply safe_bind; [apply safe_getx|]. intros x1 Hx1.
  destruct (fp_results fa fb x1 ((f7 i .>> 2) .& 3) rm (f3 i) (rs2 i .& 1 =? 0) (if tst (rs2 i) 2 then 64 else 32)
    (Z.testbit (f7 i) 0) Ha Hb (kind_ok _)) as (? & ? & ? & ? & ? & ? & ? & ? & ?).
  pose proof (fp_cmp_result fa fb (f3 i) (Z.testbit (f7 i) 0)) as Hc. cbv zeta in Hc.
  assert (Hmv : rng 64 (if Z.testbit (f7 i) 0 then x1 else kBoxMask .| (x1 .& 0xffffffff))).
  { clear -Hx1. case_match; rng. }
  cases; fp_case.
Qed.

Lemma safe_fma_op i op : rng 32 i -> safe (fma_op i op : MM unit) any.
Proof.
  intros Hi. assert (Hi64 : rng 64 i) by (apply (rng_mono 32); [lia|done]).
  unfold fma_op. eapply safe_bind; [by apply safe_fp_enter|]. intros _ _.
  eapply safe_bind; [apply safe_fp_rm|]. intros rm _. do 3 step.
  eapply safe_bind; [apply safe_fp_run|intros r Hr; by apply safe_setf].
  destruct (Z.testbit i 25); [exact (proj2 (Fma_ok _ _ _ _))|exact (proj1 (Fma_ok _ _ _ _))].
Qed.

Lemma safe_fp_ldst i st dbl : rng 32 i -> safe (fp_ldst dbg_mem i st dbl : MM unit) any.
Proof.
  intros Hi. assert (Hi64 : rng 64 i) by (apply (rng_mono 32); [lia|done]).
  unfold fp_ldst. eapply safe_bind; [by apply safe_fp_enter|]. intros _ _. step.
  set (addr := u64 _). assert (Ha : rng 64 addr) by (apply rng_wrap; lia). clearbody addr.
  assert (Hs : 0 < (if dbl then 8 else 4) <= 8) by (case_match; lia).
  safe_case; [step; by apply safe_mstore|]. eapply safe_bind; [by apply safe_mload|]. intros v Hv.
  apply safe_setf. case_match; rng.
Qed.

(** *** Cache blocks, loads, stores, fences *)

Lemma safe_cbo_op i : rng 64 i -> safe (cbo_op i : MM unit) any.
Proof. intros Hi. step. safe_case; [step|]. step. safe_case; step. Qed.

Lemma safe_zero_block addr offs : safe (zero_block dbg_mem addr offs : MM unit) any.
Proof.
  induction offs as [|off offs IH]; cbn [zero_block]; [step|]. eapply safe_bind; [prim|]. intros _ _. exact IH.
Qed.

Lemma safe_cbo_zero i : rng 64 i -> safe (cbo_zero dbg_mem i : MM unit) any.
Proof.
  intros Hi. step. safe_case; [step|]. step. safe_case; [apply safe_raise; [rng|done]|]. apply safe_zero_block.
Qed.

Lemma safe_exec_load i : rng 64 i -> safe (exec_load dbg_mem i : MM unit) any.
Proof.
  intros Hi. step. cases; [..|step]; (eapply safe_bind; [apply safe_load; [rng64|lia]|]; intros v Hv; by apply safe_setx).
Qed.

Lemma safe_exec_store i : rng 64 i -> safe (exec_store dbg_mem i : MM unit) any.
Proof. intros Hi. do 2 step. cases; step. Qed.

Lemma safe_exec_fence i : rng 64 i -> safe (exec_fence dbg_mem i : MM unit) any.
Proof.
  intros Hi. unfold exec_fence.
  repeat first [by apply safe_ret | step | by apply safe_cbo_op | by apply safe_cbo_zero | safe_case].
Qed.

Lemma safe_next (p : MM unit) np : rng 64 np -> safe p any -> safe (p ;;; mret' np) (rng 64).
Proof. intros Hn Hp. eapply safe_bind; [exact Hp|]. intros _ _. by apply safe_ret. Qed.

Lemma safe_exec_inst i : rng 32 i -> safe (riscv_exec_inst dbg_mem i : MM Z) (rng 64).
Proof.
  intros Hi. assert (Hi64 : rng 64 i) by (apply (rng_mono 32); [lia|done]).
  pose proof (imm_rng i) as (Hii & His & Hib & Hiu & Hij).
  assert (Hu : forall x, rng 64 (u64 x)) by (intros; apply rng_wrap; lia).
  unfold riscv_exec_inst. cbv beta zeta. eapply safe_bind; [apply safe_getpc|]. intros p Hp.
  assert (Hmem : forall f g : MM unit, safe f any -> safe g any ->
    safe (if f3 i =? 2 then f else if f3 i =? 3 then g else illegal i) any).
  { intros f g Hf Hg. repeat safe_case; first [done|by apply safe_illegal]. }
  cases; [..|step]; try (apply safe_next; [apply Hu|]).
  - by apply safe_setx.
  - by apply safe_setx.
  - by apply safe_setx.
  - step. eapply safe_bind; [apply safe_getrs|]. intros s Hs.
    apply safe_next; [case_match; rng|by apply safe_setx].
  - do 2 step. safe_case; [|step]. safe_case; by apply safe_ret.
  - by apply safe_exec_load.
  - by apply safe_exec_store.
  - step. apply safe_setx_or_illegal; [done|]. intros v. by apply opimm_alu_rng.
  - step. apply safe_setx_or_illegal; [done|]. intros v. by apply opimm32_alu_rng.
  - do 2 step. apply safe_setx_or_illegal; [done|]. intros v. by apply op_alu_rng.
  - do 2 step. apply safe_setx_or_illegal; [done|]. intros v. by apply op32_alu_rng.
  - by apply safe_exec_fence.
  - safe_case; [by apply safe_system_op|]. safe_case; [|step]. apply safe_next; [apply Hu|]. by apply safe_csr_op.
  - apply Hmem; by apply safe_amo_op.
  - apply Hmem; by apply safe_fp_ldst.
  - apply Hmem; by apply safe_fp_ldst.
  - by apply safe_fma_op.
  - by apply safe_fma_op.
  - by apply safe_fma_op.
  - by apply safe_fma_op.
  - by apply safe_fp_op.
Qed.

(** *** Compressed instructions *)

Lemma safe_quad0 i : rng 16 i -> safe (c_quad0 dbg_mem i : MM unit) any.
Proof.
  intros Hi. assert (Hi64 : rng 64 i) by (apply (rng_mono 16); [lia|done]).
  unfold c_quad0. cbv zeta. cases; [..|step].
  - safe_case; [step|]. step. apply safe_setx. rng64.
  - eapply safe_bind; [by apply safe_fp_enter|]. intros _ _. do 3 step.
  - do 3 step.
  - do 3 step.
  - eapply safe_bind; [by apply safe_fp_enter|]. intros _ _. do 3 step.
  - do 3 step.
  - do 3 step.
Qed.

Lemma c_imm6_nonneg i : 0 <= c_imm6 i.
Proof.
  unfold c_imm6, fld. apply Z.lor_nonneg.
  split; apply Z.shiftl_nonneg, Z.land_nonneg; right; lia.
Qed.

Lemma safe_c_arith i : rng 64 i -> safe (c_arith i : MM unit) any.
Proof.
  intros Hi. pose proof (c_imm6_nonneg i) as Hn. assert (Hs : rng 64 (sext (c_imm6 i) 6)) by (apply rng_wrap; lia).
  unfold c_arith. cbv zeta. do 2 step. safe_case.
  - safe_case; [step|]. apply safe_setx. case_match; [by apply rng_shiftr|apply rng_wrap; lia].
  - safe_case; [safe_case; step|]. safe_case.
    + safe_case; [step|]. safe_case; [step|]. apply safe_setx. case_match; apply sext32_rng.
    + safe_case; [step|]. apply safe_setx, (switch_ind (rng 64)); [|rng].
      repeat apply Forall_cons_2; try apply Forall_nil_2; intros _; cbn [snd]; rng64.
Qed.

Lemma c_imm_rng i : rng 64 (c_imm16sp i) /\ rng 64 (c_imm_lui i) /\ rng 64 (sext (c_imm6 i) 6).
Proof. split_and!; apply rng_wrap; lia. Qed.

Lemma safe_quad1 p i : rng 16 i -> rng 64 p -> safe (c_quad1 p i : MM Z) (rng 64).
Proof.
  intros Hi Hp. assert (Hi64 : rng 64 i) by (apply (rng_mono 16); [lia|done]).
  pose proof (c_imm_rng i) as (H1 & H2 & H3).
  assert (Hu : forall x, rng 64 (u64 x)) by (intros; apply rng_wrap; lia).
  unfold c_quad1. cbv beta zeta. cases; [..|step]; try (apply safe_next; [apply Hu|]).
  - apply safe_when. intros _. step. apply safe_setx. apply Hu.
  - safe_case; [step|]. step. apply safe_setx, sext32_rng.
  - by apply safe_setx.
  - safe_case; [step; apply safe_setx, Hu|]. apply safe_when. intros _. by apply safe_setx.
  - by apply safe_c_arith.
  - by apply safe_ret.
  - step. apply safe_ret. case_match; apply Hu.
  - step. apply safe_ret. case_match; apply Hu.
Qed.

Lemma safe_quad2 p i : rng 16 i -> rng 64 p -> safe (c_quad2 dbg_mem p i : MM Z) (rng 64).
Proof.
  intros Hi Hp. assert (Hi64 : rng 64 i) by (apply (rng_mono 16); [lia|done]).
  assert (Hu : forall x, rng 64 (u64 x)) by (intros; apply rng_wrap; lia).
  unfold c_quad2. cbv beta zeta. cases; [..|step]; try (apply safe_next; [apply Hu|]).
  - safe_case; [step|]. step. apply safe_setx, Hu.
  - apply safe_when. intros _. do 3 step.
  - safe_case; [step|]. do 3 step.
  - safe_case; [step|]. do 3 step.
  - safe_case; safe_case.
    + safe_case; [step|]. step. apply safe_ret. rng.
    + apply safe_next; [apply Hu|]. apply safe_when. intros _. do 2 step.
    + safe_case; [apply safe_raise; [rng|done]|]. step. apply safe_next; [rng|by apply safe_setx].
    + apply safe_next; [apply Hu|]. apply safe_when. intros _. do 2 step. apply safe_setx, Hu.
  - apply safe_when. intros _. do 3 step.
  - do 3 step.
  - do 3 step.
Qed.

Lemma safe_exec_c i : rng 16 i -> safe (riscv_exec_c dbg_mem i : MM Z) (rng 64).
Proof.
  intros Hi. unfold riscv_exec_c. eapply safe_bind; [apply safe_getpc|]. intros p Hp. cbv zeta.
  safe_case; [apply safe_next; [apply rng_wrap; lia|by apply safe_quad0]|].
  safe_case; [by apply safe_quad1|by apply safe_quad2].
Qed.
End exec.

(** ** The step *)

Section step.
Context {Ops Dev W : Type} `{BusDevices Ops Dev W} {bus0 : Bus Ops Dev} `{!BusDevicesOk Ops Dev W bus0}.
Variable dbg_mem : bool.
#[local] Abbreviation MM := (M (Mach Ops Dev W)).
Implicit Types m : Mach Ops Dev W.

Lemma u16_of v : rng 16 (u16 v).
Proof. apply rng_wrap. lia. Qed.

Lemma safe_fetch : safe (fetch dbg_mem : MM (Z * Z)) (fun x => rng 32 x.1).
Proof.
  unfold fetch. eapply safe_bind; [apply safe_getpc|]. intros p Hp.
  eapply safe_bind; [apply safe_getrs|]. intros s Hs.
  eapply safe_bind; [apply safe_when; intros _; apply safe_raise; [rng|done]|]. intros _ _. cbv zeta.
  eapply safe_bind; [apply safe_when; intros _; apply safe_raise; [rng|done]|]. intros _ _.
  assert (Hh : forall v, rng 32 (u16 v)) by (intros; apply (rng_mono 16); [lia|apply u16_of]).
  safe_case.
  - eapply safe_bind; [apply (safe_mload (bus0:=bus0)); [done|lia]|]. intros v Hv. apply safe_ret.
    assert (rng 32 (u32 v)) by (apply rng_wrap; lia). case_match; cbn [fst]; rng.
  - eapply safe_bind; [apply (safe_mload (bus0:=bus0)); [done|lia]|]. intros v Hv.
    safe_case; [apply safe_ret, Hh|].
    eapply safe_bind; [apply (safe_mload (bus0:=bus0)); [apply rng_wrap; lia|lia]|]. intros v' Hv'.
    apply safe_ret. cbn [fst]. apply rng_lor; [lia|apply Hh|].
    apply (rng_mono (16 + 16)); [lia|]. apply shiftl_rng; [lia..|apply u16_of].
Qed.

Lemma safe_modpc p : rng 64 p -> safe (modcpu (fun c => c <| pc := p |>) : MM unit) any.
Proof. intros Hp. apply safe_modify. intros m []. by split. Qed.

Lemma safe_step_body : safe (step_body dbg_mem : MM unit) any.
Proof.
  eapply safe_bind; [apply safe_fetch|]. intros [i len] Hi. cbn [fst snd] in *.
  eapply safe_bind; [apply safe_getpc|]. intros p Hp.
  eapply safe_bind; [by apply safe_trigger|]. intros _ _.
  eapply safe_bind; [apply safe_setx; rng|]. intros _ _.
  eapply safe_bind; [|apply safe_modpc]. safe_case.
  - apply (safe_exec_c (bus0:=bus0)), u16_of.
  - by apply (safe_exec_inst (bus0:=bus0)).
Qed.

Lemma vector_rng tvec cause : rng 64 tvec -> rng 64 (vector_base tvec cause).
Proof. intros Ht. unfold vector_base. case_match; rng. Qed.

Lemma trap_vector_rng cpu_pc cause tval (s : RiscvState Dev) :
  csr_inv s -> rng 64 (riscv_trap cpu_pc cause tval s).1.
Proof. intros Hi. unfold riscv_trap. case_match; apply vector_rng, Hi. Qed.

Lemma trap_tlb cpu_pc cause tval (s : RiscvState Dev) : tlb (riscv_trap cpu_pc cause tval s).2 = tlb s.
Proof. unfold riscv_trap. by case_match. Qed.

Lemma mach_ok_pc_rs m p s :
  mach_ok m -> rng 64 p -> csr_inv s -> tlb s = tlb (rs m) ->
  mach_ok (m <| cpu := (cpu m) <| pc := p |> |> <| rs := s |>).
Proof.
  intros [? ? ? ? Ht ?] Hp Hs E. split; rsimpl; try assumption. unfold tlb_shape. by rewrite E.
Qed.

Lemma take_trap_ok t m : trap_ok t -> mach_ok m -> mach_ok (take_trap t m).
Proof.
  intros [Hc Ht] Hm. unfold take_trap.
  pose proof (riscv_trap_inv (pc (cpu m)) (trap_cause t) (trap_tval t) (rs m) (mo_csr _ Hm) (mo_pc _ Hm) Hc Ht) as Hi.
  pose proof (trap_vector_rng (pc (cpu m)) (trap_cause t) (trap_tval t) (rs m) (mo_csr _ Hm)) as Hv.
  pose proof (trap_tlb (pc (cpu m)) (trap_cause t) (trap_tval t) (rs m)) as Hl.
  destruct (riscv_trap _ _ _ _) as [v s]. cbn [fst snd] in *. apply mach_ok_pc_rs; try done. csr_same.
Qed.

Lemma safe_landing_pad (p : MM unit) : safe p any -> safe (landing_pad p) any.
Proof.
  intros Hp m Hm. specialize (Hp m Hm). unfold wp, landing_pad in *.
  destruct (p m) as [[] m'|t m'|r]; [done| |done]. destruct Hp as [Ht Hm']. split; [exact I|]. by apply take_trap_ok.
Qed.

Lemma count_step_ok (s : RiscvState Dev) : csr_inv s -> csr_inv (count_step s) /\ tlb (count_step s) = tlb s.
Proof.
  intros Hi.
  assert (H1 : forall s : RiscvState Dev, csr_inv s -> csr_inv (s <| minstret := u64 (minstret s + 1) |>)).
  { intros s0 H0. destruct H0 as [? ? ? ? ? ? ? ? ? ? ? ? ? ? ? ? ? ? ? Hpl]. constructor; rsimpl; try assumption.
    repeat (apply Forall_cons in Hpl as [? Hpl]). repeat (apply Forall_cons; split); try assumption; rng. }
  assert (H2 : forall s : RiscvState Dev, csr_inv s -> csr_inv (s <| mcycle := u64 (mcycle s + 1) |>)).
  { intros s0 H0. destruct H0 as [? ? ? ? ? ? ? ? ? ? ? ? ? ? ? ? ? ? ? Hpl]. constructor; rsimpl; try assumption.
    repeat (apply Forall_cons in Hpl as [? Hpl]). repeat (apply Forall_cons; split); try assumption; rng. }
  assert (H3 : forall s : RiscvState Dev, csr_inv s -> csr_inv (s <| counter_written := kCounterNone |>)).
  { intros s0 H0. csr_same. }
  unfold count_step. cbv zeta. split; [apply H3|]; repeat case_match; try done;
    repeat first [done | apply H2 | apply H1].
Qed.

Lemma safe_sync_timer : safe (riscv_sync_timer : MM unit) any.
Proof.
  intros m Hm. unfold wp, riscv_sync_timer. destruct timer_read as [t|]; [|done]. destruct (stimecmp (rs m) =? _); [done|].
  destruct (t (world m)) as [v w]. split; [exact I|].
  assert (Hm' : mach_ok (m <| world := w |>)) by (destruct Hm; by split).
  apply (mach_ok_rs (m <| world := w |>)); [done| |].
  - apply riscv_set_ext_irq_inv; [apply Hm|rng].
  - unfold riscv_set_ext_irq. case_match; apply Hm.
Qed.

Lemma deliver_ok p0 (s s' : RiscvState Dev) p :
  csr_inv s -> rng 64 p0 -> riscv_deliver_interrupt p0 s = Some (p, s') ->
  csr_inv s' /\ rng 64 p /\ tlb s' = tlb s.
Proof.
  intros Hi Hp E. split; [by eapply csr_step_inv; [eapply cs_interrupt|]|].
  unfold riscv_deliver_interrupt in E. case_match; [done|]. case_match; [|done]. injection E as E.
  pose proof (trap_vector_rng p0 (kIntBit .| z) 0 s Hi) as Hv. pose proof (trap_tlb p0 (kIntBit .| z) 0 s) as Ht.
  by rewrite E in Hv, Ht.
Qed.

Lemma safe_deliver : safe (deliver_m : MM unit) any.
Proof.
  apply safe_modify. intros m Hm. destruct (riscv_deliver_interrupt _ _) as [[p s]|] eqn:E; [|done].
  apply deliver_ok in E as (? & ? & ?); [|apply Hm..]. by apply mach_ok_pc_rs.
Qed.

Lemma safe_riscv_step : safe (riscv_step dbg_mem : MM unit) any.
Proof.
  eapply (safe_bind _ _ any); [by apply safe_gets|]. intros c _. cbv zeta.
  eapply safe_bind; [apply safe_when; intros _; apply safe_sync_timer|]. intros _ _.
  eapply safe_bind; [apply safe_getrs|]. intros s _. safe_case; [by apply safe_ret|].
  eapply safe_bind; [apply safe_when; intros _; apply safe_modwait|]. intros _ _.
  eapply safe_bind; [apply safe_when; intros _; apply safe_deliver|]. intros _ _.
  eapply (safe_bind _ _ any); [by apply safe_gets|]. intros c' _. safe_case; [by apply safe_ret|].
  eapply safe_bind; [apply safe_landing_pad, safe_step_body|]. intros _ _. apply safe_modrs. apply count_step_ok.
Qed.

Lemma no_raise_landing_pad (p : MM unit) : no_raise (landing_pad p).
Proof. intros m. unfold wp, landing_pad. by destruct (p m). Qed.

Lemma no_raise_sync : no_raise (riscv_sync_timer : MM unit).
Proof. intros m. unfold wp, riscv_sync_timer. repeat case_match; done. Qed.

Lemma no_raise_step : no_raise (riscv_step dbg_mem : MM unit).
Proof.
  assert (Hw : forall (b : bool) (p : MM unit), no_raise p -> no_raise (when b do p)).
  { intros [] p Hp; [done|]. apply no_raise_ret. }
  repeat first [apply no_raise_bind; [|intros ?] | apply no_raise_gets | apply no_raise_modify | apply no_raise_ret |
    apply no_raise_landing_pad | apply no_raise_sync | apply Hw |
    match goal with |- no_raise (if ?b then _ else _) => destruct b end].
Qed.

(** C5: a step of a well-formed machine always completes in a well-formed machine: register files of
    32 64-bit values, a 64-bit pc, the CSR invariant, a well-shaped translation cache and a
    well-formed bus are preserved by whatever instruction is executed, and no trap escapes the
    landing pad. It leaves defined behaviour in three places only: the unimplemented debug-mode
    trigger action, the access of pmpcfg4 to pmpcfg14 outside the CSR array, and the read past the
    table of comparison names by a floating-point comparison with the reserved funct3 3 to 7. *)
Theorem riscv_step_preserves m :
  mach_ok m ->
  match riscv_step dbg_mem m with
  | Done _ m' => mach_ok m'
  | Raised _ _ => False
  | Aborted r => r = FatalTriggerDebug \/ r = CsrIndex \/ r = NameIndex
  end.
Proof.
  intros Hm. pose proof (safe_riscv_step m Hm) as Hs. pose proof (no_raise_step m) as Hn. unfold wp in *.
  destruct (riscv_step dbg_mem m) as [[] m'|t m'|r]; [apply Hs|done|exact Hs].
Qed.
End step.
