(* ===== verification/RvStepProps.v ===== *)
(** * Step-level behaviour of the hart

    What single instructions and whole steps promise across components: the
    load-reserved/store-conditional protocol, the fence that empties the
    translation cache, sleeping in wfi, the gdb register file, and the CSR
    accesses that leave the struct. *)

From S2P Require Import Prelude Bus Ram RvState RvCsr RvCsrProps RvTrapProps RvFp RvMmu RvFrame RvMmuProps.
From S2P Require Import RvExec RvExecC RvStep RvPrecise RvSafe.

(** ** CSR accesses outside the struct *)

Section csr.
Context {Dev : Type}.
Implicit Types s : RiscvState Dev.

(** C33: under the CSR invariant a CSR read or write leaves the register struct exactly for pmpcfg4
    to pmpcfg14 (even numbers) in M mode; every other address is in bounds or is refused. *)
Theorem csr_oob_exactly {W} (t : option (W -> Z * W)) s addr val next_pc w :
  csr_inv s ->
  (riscv_csr_write s addr val next_pc = COob <-> priv s = kPrivMachine /\ pmpcfg_beyond addr) /\
  ((riscv_csr_read t s addr w).1 = COob <-> priv s = kPrivMachine /\ pmpcfg_beyond addr).
Proof.
  intros Hi. unfold riscv_csr_write, riscv_csr_read. split; split.
  - destruct (priv s <? _) eqn:Hp; [done|]. destruct (addr =? 0xB00); [done|]. destruct (addr =? 0xB02); [done|].
    intros Hb%csr_write_plain_oob; [|done]. split; [|done]. eapply priv_machine; [done| |done]. by apply (beyond_access (Dev:=Dev)).
  - intros [Hm Hb]. destruct (beyond_access (Dev:=Dev) addr Hb) as (-> & Hw & _ & H1%Z.eqb_neq & H2%Z.eqb_neq & _).
    by rewrite Hm, H1, H2, Hw.
  - destruct (priv s <? _) eqn:Hp; [done|]. destruct (ReadCounter t s addr w) as [[v|] w']; [done|]. cbn [fst].
    intros Hb%csr_read_plain_oob; [|done]. split; [|done]. eapply priv_machine; [done| |done]. by apply (beyond_access (Dev:=Dev)).
  - intros [Hm Hb]. destruct (beyond_access (Dev:=Dev) addr Hb) as (-> & _ & Hr & _ & _ & Hc).
    by rewrite Hm, Hc, Hr.
Qed.
End csr.

(** ** sfence.vma *)

Section hart.
Context {Ops Dev W : Type} `{BusDevices Ops Dev W}.
Variable dbg_mem : bool.
Implicit Types m : Mach Ops Dev W.

(** The modes that may execute the fence. *)
Definition sfence_allowed (s : RiscvState Dev) : bool :=
  negb ((priv s =? kPrivUser) || ((priv s =? kPrivSupervisor) && tst (mstatus s) kMstatusTvm)).

(** Sfence.vma with rs2 = x0, in a mode that may execute it, changes the cache generation only,
    after which no translation, of any page, class or mode, hits the cache (until the 64-bit
    generation wraps). *)
Theorem sfence_flushes i m :
  (i .>> 20) .& 0xfff = 0x120 -> rd i = 0 -> sfence_allowed (rs m) = true ->
  tlb_ok (rs m) -> 0 <= tlb_gen (rs m) < 2 ^ 64 - 1 ->
  exists m', system_op i m = Done (u64 (pc (cpu m) + 4)) m' /\
    m' = m <| rs := (rs m) <| tlb_gen := tlb_gen (rs m) + 1 |> |> /\
    forall eff vpn acc, tlb_lookup (rs m') eff vpn acc = None.
Proof.
  intros Hi Hd Ha Ht Hg. exists (m <| rs := (rs m) <| tlb_gen := tlb_gen (rs m) + 1 |> |>). split_and!; [|done|].
  - unfold system_op. rewrite Hi, Hd. cbn [switch Z.eqb Pos.eqb negb]. unfold sfence_allowed in Ha.
    apply negb_true_iff in Ha. unfold mbind', getrs, getpc, gets. rewrite Ha. cbv [modrs modify mret'].
    by rewrite (wrap_small 64 (tlb_gen (rs m) + 1)) by (unfold rng; lia).
  - intros eff vpn acc. rsimpl. apply tlb_flush; [done|lia].
Qed.

(** Sfence.vma with an address-space register (rs2 other than x0) is not decoded: it raises an
    illegal-instruction trap in every mode, although satp keeps the ASID field. *)
Theorem sfence_asid_illegal f7v s1 s2 m :
  0 < s2 < 32 -> 0 <= s1 < 32 -> f7v = 0x09 ->
  let i := 0x73 + 2 ^ 15 * s1 + 2 ^ 20 * s2 + 2 ^ 25 * f7v in
  riscv_exec_inst dbg_mem i m = Raised (TrapRec kExIllegal i None) m.
Proof.
  intros H2 H1 ->. cbv zeta. set (i := _ + _).
  assert (Hop : i .& 0x7f = 0x73).
  { change 0x7f with (2 ^ 7 - 1). rewrite land_ones_wrap by lia. unfold wrap, i. Z.div_mod_to_equations. lia. }
  assert (Hf : f3 i = 0).
  { unfold f3. change 7 with (2 ^ 3 - 1). rewrite land_ones_wrap, Z.shiftr_div_pow2 by lia. unfold wrap, i.
    Z.div_mod_to_equations. lia. }
  assert (Hc : (i .>> 20) .& 0xfff = 0x120 + s2).
  { change 0xfff with (2 ^ 12 - 1). rewrite land_ones_wrap, Z.shiftr_div_pow2 by lia. unfold wrap, i.
    Z.div_mod_to_equations. lia. }
  unfold riscv_exec_inst. rewrite Hop, Hf. cbn [switch Z.eqb Pos.eqb]. unfold system_op. rewrite Hc.
  unfold switch. repeat (rewrite (proj2 (Z.eqb_neq (0x120 + s2) _)) by lia). done.
Qed.

(** ** Load-reserved and store-conditional *)

Definition lr_word (i : Z) : Prop := f7 i .>> 2 = 0x02.
Definition sc_word (i : Z) : Prop := f7 i .>> 2 = 0x03.
Definition amo_width (d : bool) : Z := if d then 8 else 4.
Definition xr m (r : Z) : Z := arr (gpr (cpu m)) r.

Lemma amo_lr i d m : lr_word i -> xr m (rs1 i) mod amo_width d = 0 ->
  amo_op dbg_mem i d m =
  (old <- riscv_mem_load dbg_mem (xr m (rs1 i)) (amo_width d) acc_read ;;
   modrs (fun s => s <| res_valid := true |> <| res_addr := xr m (rs1 i) |>) ;;;
   setx (rd i) (if d then old else sext old 32)) m.
Proof.
  unfold lr_word, xr. intros Hl Ha. unfold amo_op. rewrite Hl. cbn [switch Z.eqb Pos.eqb].
  unfold getx at 1, gets at 1, mbind' at 1. fold (amo_width d). rewrite Ha. cbn [Z.eqb negb]. by destruct d.
Qed.

(** What a store-conditional leaves once the store of [m] is decided. *)
Definition sc_done (i code : Z) m : Mach Ops Dev W :=
  m <| cpu := (cpu m) <| gpr := arr_set (gpr (cpu m)) (rd i) code |> |> <| rs := (rs m) <| res_valid := false |> |>.

Lemma amo_sc i d m : sc_word i -> xr m (rs1 i) mod amo_width d = 0 ->
  amo_op dbg_mem i d m =
  if res_valid (rs m) && (res_addr (rs m) =? xr m (rs1 i))
  then match riscv_mem_store dbg_mem (xr m (rs1 i)) (amo_width d) (xr m (rs2 i)) m with
       | Done _ m' => Done tt (sc_done i 0 m')
       | Raised t m' => Raised t m'
       | Aborted r => Aborted r
       end
  else Done tt (sc_done i 1 m).
Proof.
  unfold sc_word, xr. intros Hl Ha. unfold amo_op. rewrite Hl. cbn [switch Z.eqb Pos.eqb].
  unfold getx at 1, gets at 1, mbind' at 1. fold (amo_width d). rewrite Ha. cbn [Z.eqb negb].
  unfold getx, getrs, gets, mbind'. destruct (res_valid _ && _); [|done]. by destruct (riscv_mem_store _ _ _ _ m).
Qed.

(** Load-reserved then store-conditional to the same address succeeds, writes 0 and performs exactly
    the store; the conditional that follows it, whatever its address, fails with 1 and touches no
    memory. *)
Theorem lr_sc_pair i d i2 d2 i3 d3 m m1 m2 :
  lr_word i -> xr m (rs1 i) mod amo_width d = 0 -> amo_op dbg_mem i d m = Done tt m1 ->
  sc_word i2 -> xr m1 (rs1 i2) = xr m (rs1 i) -> xr m (rs1 i) mod amo_width d2 = 0 ->
  riscv_mem_store dbg_mem (xr m (rs1 i)) (amo_width d2) (xr m1 (rs2 i2)) m1 = Done tt m2 ->
  let m2' := sc_done i2 0 m2 in
  amo_op dbg_mem i2 d2 m1 = Done tt m2' /\
  (sc_word i3 -> xr m2' (rs1 i3) mod amo_width d3 = 0 -> amo_op dbg_mem i3 d3 m2' = Done tt (sc_done i3 1 m2')).
Proof.
  intros Hl Ha E1 Hs2 Hx Ha2 Est m2'.
  assert (Hres : res_valid (rs m1) = true /\ res_addr (rs m1) = xr m (rs1 i)).
  { rewrite amo_lr in E1 by done. unfold mbind' in E1.
    destruct (riscv_mem_load _ _ _ _ m) as [old m0| |]; try discriminate E1. injection E1 as <-. by rsimpl. }
  destruct Hres as [Hv Hra]. split.
  - rewrite amo_sc by (rewrite ?Hx; done). by rewrite Hv, Hra, Hx, Z.eqb_refl, Est.
  - intros Hs3 Ha3. rewrite amo_sc by done. done.
Qed.

(** ** Sleeping in wfi *)

Lemma bind_done {A B} (p : M (Mach Ops Dev W) A) (k : A -> M (Mach Ops Dev W) B) m a m' :
  p m = Done a m' -> mbind' p k m = k a m'.
Proof. unfold mbind'. by intros ->. Qed.

(** The state after the timer line is sampled. *)
Definition timed m : Mach Ops Dev W := match riscv_sync_timer m with Done _ m' => m' | _ => m end.

Lemma sync_timer_done m : riscv_sync_timer m = Done tt (timed m).
Proof. unfold timed, riscv_sync_timer. repeat case_match; try discriminate; simplify_eq; done. Qed.

Lemma timed_cpu m : cpu (timed m) = cpu m /\ bus (timed m) = bus m.
Proof. unfold timed, riscv_sync_timer. repeat case_match; simplify_eq; done. Qed.

(** A sleeping hart with no pending and enabled interrupt changes nothing but the sampled timer
    line, not even its instruction counter; once one is pending it wakes, and an interrupt that is
    ready is taken before any instruction is fetched. *)
Theorem wfi_sleep_wake m :
  wait (cpu m) = true ->
  let m1 := timed m in
  (MipAll (rs m1) .& mie (rs m1) = 0 -> riscv_step dbg_mem m = Done tt m1 /\ cpu m1 = cpu m /\ bus m1 = bus m) /\
  (forall p s, MipAll (rs m1) .& mie (rs m1) <> 0 -> halted (cpu m) = false ->
     riscv_deliver_interrupt (pc (cpu m)) (rs m1) = Some (p, s) ->
     let m2 := m1 <| cpu := (cpu m) <| wait := false |> <| pc := p |> |> <| rs := s |> in
     riscv_step dbg_mem m = (landing_pad (step_body dbg_mem) ;;; modrs count_step) m2).
Proof.
  intros Hw m1. destruct (timed_cpu m) as [Hc Hb]. fold m1 in Hc, Hb.
  unfold riscv_step. rewrite (bind_done getcpu _ m (cpu m) m eq_refl). cbv zeta. rewrite Hw. cbn [orb andb].
  rewrite (bind_done _ _ _ _ _ (sync_timer_done m)). fold m1. rewrite (bind_done getrs _ m1 (rs m1) m1 eq_refl). split.
  - intros ->. done.
  - intros p s Hp Hh Hd. apply Z.eqb_neq in Hp. rewrite Hp.
    set (m0 := m1 <| cpu := (cpu m) <| wait := false |> |>).
    rewrite (bind_done _ _ m1 tt m0) by (unfold modcpu, modify; by rewrite Hc).
    rewrite (bind_done _ _ m0 tt (m0 <| cpu := (cpu m0) <| pc := p |> |> <| rs := s |>)).
    + rewrite (bind_done getcpu _ _ _ _ eq_refl). unfold m0. rsimpl. cbn [halted upd]. rewrite Hh. done.
    + unfold deliver_m, modify, m0. rsimpl. by rewrite Hd.
Qed.
End hart.

(** ** The gdb register file *)

Lemma Le64_put_get v rest : rng 64 v -> Le64Get (Le64Put v ++ rest) = v /\ drop 8 (Le64Put v ++ rest) = rest.
Proof.
  intros Hv. unfold Le64Get, Le64Put.
  rewrite take_app_length' by (by rewrite length_le_bytes). rewrite drop_app_length' by (by rewrite length_le_bytes).
  rewrite le_val_bytes. split; [by apply wrap_small|done].
Qed.

Lemma gdb_write_loop_app l : forall pre old rest i, 0 < i -> Z.to_nat i = length pre -> length old = length l ->
  Forall (rng 64) l ->
  gdb_write_loop (length l) i (concat (Le64Put <$> l) ++ rest) (pre ++ old) = (pre ++ l, rest).
Proof.
  induction l as [|v l IH]; intros pre old rest i Hi Hp Hl Hf.
  - destruct old; [|done]. by rewrite app_nil_r.
  - destruct old as [|o old]; [done|]. apply Forall_cons in Hf as [Hv Hf]. cbn [length gdb_write_loop fmap list_fmap concat].
    rewrite <- app_assoc. destruct (Le64_put_get v (concat (Le64Put <$> l) ++ rest) Hv) as [-> ->].
    rewrite (proj2 (Z.eqb_neq i 0)) by lia.
    replace (arr_set (pre ++ o :: old) i v) with ((pre ++ [v]) ++ old).
    + replace (pre ++ v :: l) with ((pre ++ [v]) ++ l) by (by rewrite <- app_assoc). apply IH; [lia| |by injection Hl|done].
      rewrite length_app. cbn. lia.
    + unfold arr_set. rewrite Hp, <- app_assoc. by rewrite insert_app_r_alt, Nat.sub_diag by lia.
Qed.

Definition cpu_rng (c : CpuState) : Prop :=
  length (gpr c) = 32%nat /\ Forall (rng 64) (gpr c) /\ rng 64 (pc c).

(** The gdb register image round-trips: writing the 264 bytes read from one hart into another gives
    it x1..x31 and the pc of the first and leaves everything else, x0 included, alone. *)
Theorem gdb_roundtrip c c0 cap bs :
  cpu_rng c -> length (gpr c0) = 32%nat -> riscv_gdb_read_regs c cap = Some bs ->
  length bs = 264%nat /\
  riscv_gdb_write_regs c0 bs = Some (c0 <| gpr := arr_set (gpr c) 0 (arr (gpr c0) 0) |> <| pc := pc c |>).
Proof.
  intros (Hl & Hf & Hp) Hl0. unfold riscv_gdb_read_regs. case_match; [done|]. intros [= <-].
  rewrite take_ge by lia.
  assert (Hc : forall l, length (concat (Le64Put <$> l)) = (8 * length l)%nat).
  { induction l as [|v l IH]; [done|]. cbn [fmap list_fmap concat]. rewrite length_app, IH. unfold Le64Put.
    rewrite length_le_bytes. cbn [length]. lia. }
  assert (Hlen : length (concat (Le64Put <$> gpr c) ++ Le64Put (pc c)) = 264%nat).
  { rewrite length_app, Hc, Hl. unfold Le64Put. by rewrite length_le_bytes. }
  split; [done|]. unfold riscv_gdb_write_regs. rewrite Hlen. change (Z.of_nat 264 <? 33 * 8) with false. cbv iota.
  destruct (gpr c) as [|x l] eqn:Ec; [done|]. destruct (gpr c0) as [|x0 l0] eqn:E0; [done|].
  apply Forall_cons in Hf as [Hx Hf]. injection Hl as Hl. injection Hl0 as Hl0.
  change 32%nat with (S 31). rewrite <- Hl. cbn [gdb_write_loop fmap list_fmap concat Z.eqb].
  rewrite <- app_assoc. destruct (Le64_put_get x (concat (Le64Put <$> l) ++ Le64Put (pc c)) Hx) as [_ ->].
  change (x0 :: l0) with ([x0] ++ l0). rewrite gdb_write_loop_app; [|done|done|lia|done].
  destruct (Le64_put_get (pc c) [] Hp) as [Hpc _]. rewrite app_nil_r in Hpc. rewrite Hpc. reflexivity.
Qed.
