(* ===== verification/RvExample.v ===== *)
(** * A concrete machine

    A processor in supervisor mode under Sv39, with a gigabyte identity
    superpage, on the RAM board: the machine at which the theorems about the
    hart are applied. *)

From S2P Require Import Prelude Bus Ram HostMem RamBoard RvState RvCsr RvCsrProps RvMmu RvFrame RvMmuProps RvWalk RvFp.
From S2P Require Import RvExec RvExecC RvStep RvPrecise RvFast RvSafe RvAluProps RvExpand RvCompressed RvStepProps RvCsrRw.

(** ** A processor behind it *)

(** The root table at 0x80001000 maps 0x80000000 onto itself by a 1 GB leaf
    entry (valid, readable, writable, executable, not yet accessed). *)
Definition board_ram : RamDevice :=
  RamWrite (RamWrite (RamCreate 0x80000000 0x10000) 0x80001010 8 (((0x80000000 .>> 12) .<< 10) .| 15))
    0x80002000 4 0x00000073.

Definition board_cpu : CpuState := mkCpu (replicate 32 0) (replicate 32 0) 0x80002000 false false 0 1.

Definition board_rs : RiscvState unit :=
  riscv_init <| priv := kPrivSupervisor |> <| satp := (kSatpModeSv39 .<< 60) .| 0x80001 |>
    <| menvcfg := kMenvcfgAdue |> <| mtvec := 0x80000100 |>.

Definition board : Mach unit unit RamDevice := mkMach board_cpu board_rs board_bus board_ram.

Lemma board_upd_inv (s : RiscvState unit) p sa me mt :
  csr_inv s -> priv_ok p -> satp_ok sa -> rng 64 me -> tvec_ok mt ->
  csr_inv (s <| priv := p |> <| satp := sa |> <| menvcfg := me |> <| mtvec := mt |>).
Proof.
  intros Hi Hp Hs Hm Ht. destruct Hi as [? ? ? ? ? ? ? ? ? ? ? ? ? ? ? ? ? ? ? Hpl].
  constructor; rsimpl; try assumption. rewrite !Forall_cons in *. tauto.
Qed.

Lemma board_rs_inv : csr_inv board_rs.
Proof.
  apply board_upd_inv; [apply riscv_init_inv|unfold priv_ok; auto|by vm_compute|unfold rng; by vm_compute|by vm_compute].
Qed.

Lemma board_tlb_ok : tlb_ok board_rs.
Proof.
  split; [reflexivity|]. change (tlb board_rs) with (replicate 512 (tlb_entry0 (Dev:=unit))).
  apply Forall_replicate. split; [reflexivity|]. cbv. discriminate.
Qed.

Lemma board_tlb_hosts : tlb_hosts board.
Proof.
  unfold tlb_hosts. change (tlb (rs board)) with (replicate 512 (tlb_entry0 (Dev:=unit))).
  apply Forall_replicate. simpl. done.
Qed.

(** ** The theorems applied to it *)

Lemma step_trap_precise_witness :
  exists t m1 m', step_body false board = Raised t m1 /\ trap_cause t = kExSupervisorEcall /\
    landing_pad (step_body false) board = Done tt m' /\ fpr (cpu m') = fpr (cpu board).
Proof.
  destruct (step_body false board) as [|t m1|] eqn:E; [vm_compute in E; discriminate| |vm_compute in E; discriminate].
  destruct (step_trap_precise false board t m1 E) as (m' & e & tl & clk & st & H1 & _ & H2 & _).
  exists t, m1, m'. split; [reflexivity|]. split; [|split; [exact H1|exact H2]].
  assert (Ht : match step_body false board with Raised t _ => trap_cause t | _ => 0 end = kExSupervisorEcall)
    by (vm_compute; reflexivity).
  rewrite E in Ht. exact Ht.
Defined.

Lemma pmp_allowed_spec_witness :
  RiscvPmpAllowed board_rs 0x80002000 4 acc_ifetch kPrivSupervisor = true /\
  pmp_spec board_rs 0x80002000 4 acc_ifetch kPrivSupervisor 0 false.
Proof.
  split; [vm_compute; reflexivity|].
  apply (pmp_allowed_spec board_rs 0x80002000 4 acc_ifetch kPrivSupervisor board_rs_inv);
    [lia|lia|lia|vm_compute; reflexivity].
Defined.

Lemma tlb_hit_after_translate_witness :
  exists m', RiscvTranslate 0x80003456 4 acc_read board = Done (0x80003456, Some (HostPtr tt 0x3000)) m' /\
    RiscvTranslate 0x80003008 8 acc_read m' = Done (0x80003008, Some (HostPtr tt 0x3000)) m'.
Proof.
  destruct (RiscvTranslate 0x80003456 4 acc_read board) as [[pa h] m'| |] eqn:E;
    [|vm_compute in E; discriminate|vm_compute in E; discriminate].
  assert (Hr : match RiscvTranslate 0x80003456 4 acc_read board with Done x _ => Some x | _ => None end =
    Some (0x80003456, Some (HostPtr tt 0x3000))) by (vm_compute; reflexivity).
  rewrite E in Hr. injection Hr as -> ->.
  destruct (tlb_hit_after_translate board 0x80003456 4 acc_read 0x80003456 (Some (HostPtr tt 0x3000)) m'
    0x80003008 8 board_tlb_ok ltac:(vm_compute; reflexivity) E ltac:(vm_compute; reflexivity)) as [_ H].
  exists m'. split; [reflexivity|exact H].
Defined.

Lemma translate_walk_refines_witness :
  exists m1, translate_walk 1 0x80003456 4 acc_read board =
    Done (0x80003456, BusRamPage (bus m1) 0x80003000)
      (m1 <| rs := tlb_fill board_rs 1 (0x80003456 .>> 12) acc_read 0x80003456 (BusRamPage (bus m1) 0x80003000) |>).
Proof.
  pose proof (translate_walk_refines (bus0:=board_bus) board 1 0x80003456 4 acc_read eq_refl board_bus_wf
    ltac:(unfold rng; lia) ltac:(vm_compute; split; [discriminate|reflexivity])) as H.
  assert (E : ref_translate (rs board) (pte_at board) 1 0x80003456 4 acc_read =
    (XOk 0x80003456, Some (0x80001010, 0x2000004f))) by (vm_compute; reflexivity).
  rewrite E in H. cbv beta iota in H. destruct H as [H|(m1 & _ & H)]; [inversion H|]. exists m1. exact H.
Defined.

Lemma mem_fast_path_witness :
  same_upto_cache (riscv_mem_load false 0x80002000 4 acc_read board) (riscv_mem_load true 0x80002000 4 acc_read board) /\
  same_upto_cache (riscv_mem_store false 0x80002000 4 7 board) (riscv_mem_store true 0x80002000 4 7 board).
Proof.
  destruct (mem_fast_path (bus0:=board_bus) board 0x80002000 4 acc_read 7 eq_refl board_bus_wf board_tlb_ok
    board_tlb_hosts ltac:(lia)) as [H1 H2].
  assert (Hpa : forall acc, acc = acc_read \/ acc = acc_write -> below_top board 0x80002000 4 acc).
  { intros acc Hacc pa h m1 E.
    assert (Hr : match RiscvTranslate 0x80002000 4 acc board with Done x _ => Some x.1 | _ => None end =
      Some 0x80002000) by (destruct Hacc as [-> | ->]; vm_compute; reflexivity).
    rewrite E in Hr. injection Hr as ->. lia. }
  split; [apply H1|apply H2]; apply Hpa; [left|right]; reflexivity.
Defined.

Lemma board_ok : mach_ok board.
Proof.
  assert (H0 : forall n, Forall (rng 64) (replicate n 0)) by (intros n; apply Forall_replicate; unfold rng; lia).
  split; [split; [done|apply H0]..| |apply board_rs_inv| |apply board_bus_wf].
  - unfold rng. cbn. lia.
  - split; [reflexivity|]. change (tlb (rs board)) with (replicate 512 (tlb_entry0 (Dev:=unit))).
    apply Forall_replicate. split; [cbv; discriminate|reflexivity].
Qed.

Lemma riscv_step_preserves_witness :
  mach_ok board /\ exists m', riscv_step false board = Done tt m' /\ mach_ok m'.
Proof.
  pose proof (riscv_step_preserves (bus0:=board_bus) false board board_ok) as H. split; [exact board_ok|].
  assert (Ht : match riscv_step false board with Done _ _ => true | _ => false end = true) by (vm_compute; reflexivity).
  destruct (riscv_step false board) as [[] m'|t m'|r]; [exists m'; split; [reflexivity|exact H]|discriminate Ht..].
Defined.

Lemma csr_oob_exactly_witness : riscv_csr_write (riscv_init : RiscvState unit) 0x3A4 0 0 = COob.
Proof.
  apply (csr_oob_exactly (W:=unit) None riscv_init 0x3A4 0 0 tt riscv_init_inv).
  split; [reflexivity|]. unfold pmpcfg_beyond. split; [lia|reflexivity].
Defined.

Lemma sfence_flushes_witness :
  exists m', system_op 0x12000073 board = Done 0x80002004 m' /\ tlb_lookup (rs m') 1 0 acc_read = None.
Proof.
  destruct (sfence_flushes 0x12000073 board ltac:(reflexivity) ltac:(reflexivity) ltac:(vm_compute; reflexivity)
    board_tlb_ok ltac:(vm_compute; split; [discriminate|reflexivity])) as (m' & E & _ & Hl).
  exists m'. split; [exact E|apply Hl].
Defined.

Lemma sfence_asid_illegal_witness :
  riscv_exec_inst false 0x12a00073 board = Raised (TrapRec kExIllegal 0x12a00073 None) board.
Proof. exact (sfence_asid_illegal false 0x09 0 10 board ltac:(lia) ltac:(lia) eq_refl). Defined.

(** The board with a register holding a RAM address. *)
Definition board_at (r a : Z) : Mach unit unit RamDevice :=
  mkMach (mkCpu (arr_set (replicate 32 0) r a) (replicate 32 0) 0x80002000 false false 0 1) board_rs board_bus board_ram.

Definition end_state {A} (o : outcome (Mach unit unit RamDevice) A) : Mach unit unit RamDevice :=
  match o with Done _ m => m | _ => board end.

(** lr.w x6, (x5); sc.w x7, x6, (x5); sc.w x8, x6, (x5). *)
Lemma lr_sc_pair_witness :
  let m := board_at 5 0x80003000 in
  let m1 := end_state (amo_op false 0x1002a32f false m) in
  let m2 := end_state (riscv_mem_store false 0x80003000 4 0 m1) in
  amo_op false 0x1862a3af false m1 = Done tt (sc_done 0x1862a3af 0 m2) /\
  amo_op false 0x1862a42f false (sc_done 0x1862a3af 0 m2) = Done tt (sc_done 0x1862a42f 1 (sc_done 0x1862a3af 0 m2)).
Proof.
  intros m m1 m2.
  destruct (lr_sc_pair false 0x1002a32f false 0x1862a3af false 0x1862a42f false m m1 m2 ltac:(reflexivity)
    ltac:(vm_compute; reflexivity) ltac:(vm_compute; reflexivity) ltac:(reflexivity) ltac:(vm_compute; reflexivity)
    ltac:(vm_compute; reflexivity) ltac:(vm_compute; reflexivity)) as [H1 H2].
  split; [exact H1|]. apply H2; [reflexivity|vm_compute; reflexivity].
Defined.

Lemma wfi_sleep_wake_witness :
  let m := board <| cpu := board_cpu <| wait := true |> |> in riscv_step false m = Done tt (timed m).
Proof.
  intros m. destruct (wfi_sleep_wake false m eq_refl) as [H _].
  apply H. vm_compute. reflexivity.
Defined.

Lemma gdb_roundtrip_witness :
  exists bs, riscv_gdb_read_regs (cpu (board_at 5 7)) 264 = Some bs /\
    riscv_gdb_write_regs board_cpu bs = Some (board_cpu <| gpr := arr_set (replicate 32 0) 5 7 |>).
Proof.
  destruct (riscv_gdb_read_regs (cpu (board_at 5 7)) 264) as [bs|] eqn:E; [|discriminate E].
  exists bs. split; [reflexivity|].
  assert (Hc : cpu_rng (cpu (board_at 5 7))).
  { split; [reflexivity|]. split; [|unfold rng; cbn; lia].
    apply Forall_arr_set; [apply Forall_replicate|]; unfold rng; lia. }
  destruct (gdb_roundtrip _ board_cpu 264 bs Hc eq_refl E) as [_ H]. exact H.
Defined.

(** c.addi x8, 1 at the board. *)
Lemma c_expand_witness :
  expand 0x0405 = Some 0x00140413 /\
  c_matches 0x0405 0x00140413 board (riscv_exec_c false 0x0405 board) (riscv_exec_inst false 0x00140413 board).
Proof.
  split; [vm_compute; reflexivity|].
  apply (c_expand false 0x0405 0x00140413 board); [|vm_compute; reflexivity|vm_compute; reflexivity].
  split; [reflexivity|]. split; [apply Forall_replicate; unfold rng; lia|reflexivity].
Defined.

(** c.fldsp f1, 0(sp) with the floating-point unit off. *)
Lemma c_fldsp_ungated_witness :
  exists m'', riscv_exec_c false 0x2082 (board_at 2 0x80003000) = Done 0x80002002 m''.
Proof.
  set (m := board_at 2 0x80003000). set (m' := end_state (riscv_mem_load false 0x80003000 8 acc_read m)).
  destruct (c_fldsp_ungated false 0x2082 m 0 m' ltac:(reflexivity) ltac:(reflexivity) ltac:(vm_compute; discriminate)
    ltac:(vm_compute; reflexivity) ltac:(vm_compute; reflexivity)) as (_ & m'' & H & _).
  exists m''. exact H.
Defined.

(** misa: clearing C at an unaligned successor does not take, and what is read back stays. *)
Lemma csr_warl_stable_witness :
  exists s1 s2, riscv_csr_write (riscv_init : RiscvState unit) 0x301 0 2 = COk s1 /\
    riscv_csr_write s1 0x301 (misa s1) 4 = COk s2 /\ riscv_csr_read (W:=unit) None s2 0x301 tt = (COk (misa s1), tt).
Proof.
  destruct (riscv_csr_write (riscv_init : RiscvState unit) 0x301 0 2) as [s1| |] eqn:E1; [|vm_compute in E1; discriminate..].
  assert (Hp : priv s1 = kPrivMachine).
  { replace s1 with (match riscv_csr_write (riscv_init : RiscvState unit) 0x301 0 2 with COk s => s | _ => riscv_init end)
      by (by rewrite E1). vm_compute. reflexivity. }
  assert (Hr : riscv_csr_read (W:=unit) None s1 0x301 tt = (COk (misa s1), tt)).
  { unfold riscv_csr_read, ReadCounter, counter_denied. rewrite Hp. reflexivity. }
  destruct (riscv_csr_write s1 0x301 (misa s1) 4) as [s2| |] eqn:E2;
    [|unfold riscv_csr_write in E2; rewrite Hp in E2; discriminate E2..].
  exists s1, s2. split; [reflexivity|]. split; [exact E2|].
  exact (csr_warl_stable None riscv_init 0x301 0 2 s1 (misa s1) tt tt 4 s2 riscv_init_inv ltac:(unfold rng; lia) E1 Hr E2).
Defined.

(** csrrs x0, mip, x5 with SSIP in x5 while the external line is up. *)
Lemma mip_rmw_latches_wires_witness :
  let m := mkMach (cpu (board_at 5 kIrqSsip)) ((riscv_init : RiscvState unit) <| ext_irq := kIrqSeip |>) board_bus board_ram in
  exists m', csr_op 0x3442a073 m = Done tt m' /\ mip (rs m') .& kMipWmask = kIrqSsip .| kIrqSeip.
Proof.
  intros m. destruct (mip_rmw_latches_wires 0x3442a073 m ltac:(reflexivity) ltac:(reflexivity) ltac:(reflexivity)
    ltac:(vm_compute; discriminate)) as (m' & H1 & H2). exists m'. split; [exact H1|]. rewrite H2. vm_compute. reflexivity.
Defined.
