(* ===== verification/SpikeExample.v ===== *)
(** * Concrete runs

    A raw image on the spike board from load to exit, a processor that only
    counts, and gdb packets on the riscv64 hart with RAM: where the theorems
    about the run loop and the session are applied. *)

From S2P Require Import Prelude Gdb Bus Ram HostMem RamBoard Elf Htif RvState RvCsr RvStep Run GdbSession GdbProps Spike.
From S2P Require Import RvExample.
From Stdlib Require Strings.String.
Import Strings.String.StringSyntax.

(** ** Exit through the interface *)

(** lui x6, 0x80001; slli x6, x6, 32; srli x6, x6, 32; addi x5, x0, 85;
    sd x5, 0(x6); j . *)
Definition exit_42 : list Z :=
  le_bytes 4 0x80001337 ++ le_bytes 4 0x02031313 ++ le_bytes 4 0x02035313 ++ le_bytes 4 0x05500293 ++
  le_bytes 4 0x00533023 ++ le_bytes 4 0x0000006f.

(** Load, five instructions, exit code 42. *)
Example exit_42_runs :
  match spike_start 0 0x10000 exit_42 with
  | Some b => match BoardRunSteps (C:=unit) 20 0 None (tt, b) with
              | Done false s => (halted (b_cpu s.2), exit_code (b_cpu s.2), inst_count (b_cpu s.2)) = (true, 42, 5)
              | _ => False
              end
  | None => False
  end.
Proof. vm_compute. reflexivity. Qed.

Definition spike_w : SpikeW := mkSpike (RamCreate 0x80000000 0x10000) (mkHtif 0x80001000 0x80001040 0 0) [] false.
Definition spike_bus : Bus spike_dev spike_dev := mkBus (spike_regions 0x80000000 0x10000 0x80001000 0x80001040 true true true) None.
Definition spike_mach : Mach spike_dev spike_dev SpikeW := mkMach board_cpu riscv_init spike_bus spike_w.

Lemma spike_bus_wf : bus_wf spike_bus.
Proof.
  split.
  - repeat constructor; cbn; lia.
  - intros [|[|[|i]]] r; cbn; intros [= <-]; vm_compute; reflexivity.
  - done.
Qed.

Lemma spike_exit_witness :
  exists m', bus_write 0x80001000 8 85 spike_mach = Done tt m' /\ halted (cpu m') = true /\ exit_code (cpu m') = 42.
Proof.
  destruct (SpikeBoardCreate 0x80000000 0x10000) as [[bus0 w0]|] eqn:E0; [|vm_compute in E0; discriminate E0].
  destruct (HtifRegister bus0 SHtif SHtif (sp_htif w0) 0x80001000 0x80001040) as [[bus1 h]|] eqn:E1;
    [|vm_compute in E0; injection E0 as <- <-; vm_compute in E1; discriminate E1].
  assert (Er : bus_regions spike_bus = bus_regions bus1).
  { vm_compute in E0. injection E0 as <- <-. vm_compute in E1. injection E1 as <- <-. reflexivity. }
  destruct (spike_exit 0x80000000 0x10000 0x80001000 0x80001040 bus0 w0 bus1 h spike_mach 42) as (m' & E & Hc & _);
    try done; try lia; [split; repeat split; try lia; reflexivity|apply spike_bus_wf|].
  exists m'. split; [exact E|]. rewrite Hc. split; reflexivity.
Defined.

(** ** The instruction limit *)

(** A processor whose step only moves the pc. *)
#[local] Instance counting : BoardOps unit := {
  isa_step b := Done tt (b <| b_cpu := (b_cpu b) <| pc := pc (b_cpu b) + 4 |> |>);
  board_poll := None;
  host_input_poll := mret' tt;
  mouse_in := None;
  key_in := None;
  display_pump b := (None, b);
  next_event_us := None;
  board_reset := None;
}.

Definition awake (b : Board unit) : Prop := wait (b_cpu b) = false /\ b_reset_pending b = false /\ b_inj b = [].

Lemma counting_awake : StaysAwake awake.
Proof.
  split.
  - intros b (H1 & H2 & _). by split.
  - intros b Hb. eexists. split; [reflexivity|]. by split.
  - done.
  - intros b Hb. eexists. split; [reflexivity|]. by split.
  - intros b Hb. pose proof Hb as (_ & _ & ->). by split.
  - intros b Hb. by split.
  - intros b Hb. exact Hb.
Qed.

Definition counting_board : Board unit := mkBoard board_cpu tt (mkClock 0 (-1) 0 0) false false [].

Lemma run_limit_witness :
  exists b', BoardRunSteps 2000 2000 None (tt, counting_board) = Done false (tt, b') /\ inst_count (b_cpu b') <= 2000.
Proof.
  destruct (run_limit awake tt counting_board 2000 2000 counting_awake) as (b' & E & _ & H & _); [done|cbn; lia|lia|cbn; lia|].
  exists b'. split; [exact E|lia].
Defined.

Lemma idle_sleep_billing_witness : HostTimerNow (HostSleepMs 1 (mkClock 0 3 8000 0)) = 9.
Proof. exact (idle_sleep_billing (mkClock 0 3 8000 0) 1 eq_refl). Defined.

(** ** gdb on the hart *)

(** addi x1, x1, 1 three times, then j . *)
Definition nops_ram : RamDevice :=
  RamWrite (RamWrite (RamCreate 0x80000000 0x10000) 0x80002000 8 0x0010809300108093) 0x80002008 8 0x0000006f00108093.
Definition rv_board (ram : RamDevice) : Board (RvX unit unit RamDevice) :=
  mkBoard board_cpu (riscv_init, board_bus, ram) (mkClock 0 (-1) 0 0) false false [].
Definition stub (bps : list Z) : GdbStub := (GdbStubStart [] false []) <| g_conn := Some (mkConn [] []) |> <| g_bps := bps |>.

(** An environment call under a single step. *)
Lemma gdb_single_step_witness : exists g1 b1, DoRun 1 true (stub [], rv_board board_ram) = stop_reply 83 5 (g1, b1).
Proof.
  destruct (pass (rv_board board_ram)) as [e b1| |] eqn:E; [|vm_compute in E; discriminate E..].
  assert (Hc : commits e = true /\ halted (b_cpu b1) = false /\ step_signal ((stub []) <| g_steps_left := true |>) b1 = 5).
  { assert (Hr : match pass (rv_board board_ram) with
                 | Done e b1 => (commits e, halted (b_cpu b1), step_signal ((stub []) <| g_steps_left := true |>) b1)
                 | _ => (false, false, 0) end = (true, false, 5)) by (vm_compute; reflexivity).
    rewrite E in Hr. rewrite !pair_eq in Hr. tauto. }
  destruct Hc as (H1 & H2 & H3).
  destruct (gdb_single_step 0 (stub []) (rv_board board_ram) e b1 eq_refl eq_refl E H1) as (g1 & Er & _).
  rewrite H2, H3 in Er. exists g1, b1. exact Er.
Defined.

Lemma gdb_continue_first_breakpoint_witness :
  exists b', BoardRunSteps 100 0 (Some StopCb) (stub [0x80002008], rv_board nops_ram) =
    Done true ((stub [0x80002008]) <| g_stop_sig := 5 |>, b') /\ pc (b_cpu b') = 0x80002008.
Proof.
  destruct (runs_quietly 1 [0x80002008] (rv_board nops_ram)) as [b0|] eqn:E0; [|vm_compute in E0; discriminate E0].
  destruct (pass b0) as [e b'| |] eqn:E1;
    [|vm_compute in E0; injection E0 as <-; vm_compute in E1; discriminate E1..].
  assert (Hr : commits e = true /\ BpHit [0x80002008] (StubPc b') = true /\ halted (b_cpu b0) = false /\ pc (b_cpu b') = 0x80002008).
  { assert (Hx : match runs_quietly 1 [0x80002008] (rv_board nops_ram) with
                 | Some b0 => match pass b0 with
                              | Done e b' => (commits e, BpHit [0x80002008] (StubPc b'), halted (b_cpu b0), pc (b_cpu b'))
                              | _ => (false, false, false, 0) end
                 | None => (false, false, false, 0) end = (true, true, false, 0x80002008)) by (vm_compute; reflexivity).
    rewrite E0, E1 in Hx. rewrite !pair_eq in Hx. tauto. }
  destruct Hr as (H1 & H2 & H3 & H4). exists b'. split; [|exact H4].
  apply (gdb_continue_first_breakpoint 100 (stub [0x80002008]) (rv_board nops_ram)); [done|].
  exists 1%nat, b0. split; [lia|]. split; [exact E0|]. split; [|reflexivity]. exists e. done.
Defined.

(** ** Memory packets on the hart's bus *)

Definition ram_byte (b : Board (RvX unit unit RamDevice)) (a : Z) : Z := hget (HostPtr tt (a - 0x80000000)) (b_x b).2.
Definition on_ram_bus (b : Board (RvX unit unit RamDevice)) : Prop :=
  bus_wf (b_x b).1.2 /\ bus_regions (b_x b).1.2 = bus_regions board_bus.

Lemma ram_decode (bus : Bus unit unit) a n : bus_wf bus -> bus_regions bus = bus_regions board_bus ->
  0x80000000 <= a -> 0 < n -> a + n <= 0x80010000 ->
  exists bus', FindRegion bus a n = (Some board_region, bus') /\ bus_wf bus' /\ bus_regions bus' = bus_regions board_bus.
Proof.
  intros Hwf Hr H1 H2 H3. pose proof (FindRegion_decode bus a n Hwf ltac:(lia) H2) as Hd.
  pose proof (FindRegion_wf bus a n Hwf) as Hw. pose proof (FindRegion_regions bus a n) as Hg.
  destruct (FindRegion bus a n) as [r bus']. cbn [fst snd] in *. exists bus'. split; [|by rewrite Hg]. f_equal. rewrite Hd.
  unfold decode_spec. rewrite (proj2 (Z.ltb_ge _ n)), Hr by lia. unfold scan_regions. cbn [bus_regions board_bus length seq zip zip_with fold_left].
  unfold pick_smaller. cbn [snd]. unfold covers. cbn [r_base r_size]. change (r_end _) with 0x80010000.
  rewrite (wrap_small 64) by (unfold rng; lia). by rewrite (proj2 (Z.leb_le _ _) H1), (proj2 (Z.leb_le _ _) H3).
Qed.

Lemma rv_ram_window : MemWindow 0x80000000 0x80010000 ram_byte on_ram_bus.
Proof.
  split.
  - lia.
  - intros b a _. apply hb_rng.
  - intros a n b [Hwf Hr] H1 H2 H3. destruct (ram_decode _ a n Hwf Hr H1 H2 H3) as (bus' & E & W' & R').
    eexists. split.
    + cbn [mem_probe rv_gdb_ops]. unfold on_mach, mbind', bus_probe, BusProbe. cbn [bus to_mach]. rewrite E. rewrite bool_decide_eq_true_2 by eauto. reflexivity.
    + split; [by split|done].
  - intros a b [Hwf Hr] H1. destruct (ram_decode _ a 1 Hwf Hr ltac:(lia) ltac:(lia) ltac:(lia)) as (bus' & E & W' & R').
    eexists. split.
    + cbn [mem_read8 rv_gdb_ops]. unfold on_mach, bus_read. cbn [bus to_mach]. rewrite E. reflexivity.
    + split; [by split|done].
  - intros a v b [Hwf Hr] H1 Hv. destruct (ram_decode _ a 1 Hwf Hr ltac:(lia) ltac:(lia) ltac:(lia)) as (bus' & E & W' & R').
    eexists. split; [|split].
    + cbn [mem_write8 rv_gdb_ops]. unfold on_mach, bus_write. cbn [bus to_mach]. rewrite E. reflexivity.
    + by split.
    + intros i Hi. unfold ram_byte. cbn [of_mach b_x upd upd_b_x snd world].
      change (hget (HostPtr tt (i - 0x80000000)) (hset (HostPtr tt (a - 0x80000000)) v (b_x b).2) =
        (if i =? a then v else hget (HostPtr tt (i - 0x80000000)) (b_x b).2)).
      destruct (Z.eqb_spec i a) as [->|Hne]; [by apply hb_same|]. apply hb_other. intros [=]. lia.
Qed.

(** A client's four bytes for 0x80003000, and its request for them. *)
Definition mem_client : GdbStub := (stub []) <| g_conn := Some (mkConn (pkt_frame (write_body (str "80003000") (str "4") [1; 2; 3; 255]) ++
  kPlus :: pkt_frame (read_body (str "80003000") (str "4")) ++ [kPlus]) []) |>.

Lemma gdb_mem_roundtrip_witness : exists g' b', Session 2 0 (mem_client, rv_board nops_ram) = Session 0 0 (g', b') /\
  g_sent g' = str "+$OK#9a+$010203ff#f2" /\ (ram_byte b' <$> seqZ 0x80003000 4 = [1; 2; 3; 255]).
Proof.
  destruct (gdb_mem_roundtrip 0x80000000 0x80010000 ram_byte on_ram_bus 0 0 (str "80003000") (str "4") [1; 2; 3; 255] [] [] mem_client
    (rv_board nops_ram) rv_ram_window) as (g' & b' & E1 & _ & E2 & E3 & _).
  - split; [apply board_bus_wf|reflexivity].
  - apply (bool_decide_unpack _). vm_compute. exact I.
  - apply (bool_decide_unpack _). vm_compute. exact I.
  - apply (bool_decide_unpack _). vm_compute. exact I.
  - reflexivity.
  - reflexivity.
  - vm_compute. congruence.
  - vm_compute. congruence.
  - vm_compute. congruence.
  - reflexivity.
  - exists g', b'. split; [exact E1|]. split; [|exact E3]. rewrite E2. vm_compute. reflexivity.
Defined.
