(* ===== verification/X86State.v ===== *)
(** * The x86 processor state (cpu/isa/x86/x86.h, exec.h)

    Constants, the register file, the descriptor caches, the system
    registers and the translation cache as the C structs have them, the
    decode context of the instruction at hand, and the machine an
    instruction runs against.  An assignment to a field converts to the
    field's C type ([put], [puta]); an array access outside the array is
    undefined behaviour and ends the run. *)

From S2P Require Import Prelude Bus Ram RvState Run.

(** ** Constants (x86.h) *)

Definition eax_i := 0.
Definition ecx_i := 1.
Definition edx_i := 2.
Definition ebx_i := 3.
Definition esp_i := 4.
Definition ebp_i := 5.
Definition esi_i := 6.
Definition edi_i := 7.

Definition es_i := 0.
Definition cs_i := 1.
Definition ss_i := 2.
Definition ds_i := 3.
Definition fs_i := 4.
Definition gs_i := 5.

Definition vec_de := 0.
Definition vec_db := 1.
Definition vec_nmi := 2.
Definition vec_bp := 3.
Definition vec_br := 5.
Definition vec_ud := 6.
Definition vec_nm := 7.
Definition vec_df := 8.
Definition vec_ts := 10.
Definition vec_np := 11.
Definition vec_ss := 12.
Definition vec_gp := 13.
Definition vec_pf := 14.
Definition vec_mf := 16.
Definition vec_ac := 17.
Definition vec_mc := 18.
Definition vec_xm := 19.

Inductive int_origin := kIntException | kIntExternal | kIntSoft.
#[export] Instance int_origin_eq_dec : EqDecision int_origin.
Proof. solve_decision. Defined.

Definition kDr6Bd := 2 ^ 13.
Definition kDr6Bs := 2 ^ 14.
Definition kDr6Bt := 2 ^ 15.
Definition kDr6Rsvd1 := 0xffff0ff0.
Definition kDr7Gd := 2 ^ 13.
Definition kDr7Rsvd1 := 0x400.
Definition kDr7LBase := 0.
Definition kDr7RwBase := 16.
Definition kDr7LenBase := 18.
Definition kDr7AnyEnable := 0xff.
Definition kDr7RwExec := 0.
Definition kDr7RwWrite := 1.
Definition kDr7RwIo := 2.
Definition kDr7RwAccess := 3.
Definition kDrCount := 4.

Definition kCr0Pe := 1.
Definition kCr0Em := 4.
Definition kCr0Ts := 8.
Definition kCr0Ne := 2 ^ 5.
Definition kCr0Wp := 2 ^ 16.
Definition kCr0Am := 2 ^ 18.
Definition kCr0Pg := 2 ^ 31.

Definition kCr4Vme := 1.
Definition kCr4Pvi := 2.
Definition kCr4Tsd := 4.
Definition kCr4De := 8.
Definition kCr4Pse := 0x10.
Definition kCr4Pae := 0x20.
Definition kCr4Pge := 0x80.
Definition kCr4Osfxsr := 0x200.
Definition kCr4Osxmmexcpt := 0x400.
Definition kCr4Supported := Eval cbv in
  kCr4Vme .| kCr4Pvi .| kCr4Tsd .| kCr4De .| kCr4Pse .| kCr4Pae .| kCr4Pge .| kCr4Osfxsr .| kCr4Osxmmexcpt.
Definition kEferNxe := 2 ^ 11.

Definition kPdeP := 1.
Definition kPdeRw := 2.
Definition kPdeUs := 4.
Definition kPdeA := 0x20.
Definition kPdeD := 0x40.
Definition kPdePs := 0x80.
Definition kPdeG := 0x100.
Definition kPteP := 1.
Definition kPteRw := 2.
Definition kPteUs := 4.
Definition kPteA := 0x20.
Definition kPteD := 0x40.
Definition kPteG := 0x100.
Definition kPfPresent := 1.
Definition kPfWrite := 2.
Definition kPfUser := 4.
Definition kPfRsvd := 8.
Definition kPfInstr := 0x10.
Definition kPde4mReserved := 0x00200000.
Definition kDescBase16Mask := 0x00ffffff.

Definition kEflagsOne := 2.
Definition kEflagsZero := 0x8028.

(** Bit positions of the [eflags] bit fields; [iopl] takes two bits. *)
Definition fl_cf := 0.
Definition fl_pf := 2.
Definition fl_af := 4.
Definition fl_zf := 6.
Definition fl_sf := 7.
Definition fl_tf := 8.
Definition fl_if := 9.
Definition fl_df := 10.
Definition fl_of := 11.
Definition fl_iopl := 12.
Definition fl_nt := 14.
Definition fl_rf := 16.
Definition fl_vm := 17.
Definition fl_ac := 18.
Definition fl_vif := 19.
Definition fl_vip := 20.

Definition kTlbSets := 4096.
Definition kTlbWays := 2.
Definition kTlbValid := 2 ^ 31.
Definition kTlbGenShift := 21.
Definition kTlbGenMask := 0x3ff.
Definition kTlbWritable := 1.
Definition kTlbUser := 2.
Definition kTlbNx := 4.
Definition kTlbGlobal := 8.
Definition kTlbHost := 16.

(** ** A general register cell

    The little-endian union of x86.h: the 32-, 16- and 8-bit views of a
    64-bit cell. *)

Definition cell_e (q : Z) : Z := u32 q.
Definition cell_x (q : Z) : Z := u16 q.
Definition cell_l (q : Z) : Z := u8 q.
Definition cell_h (q : Z) : Z := u8 (q .>> 8).
Definition cell_set_e (q v : Z) : Z := (q &~ 0xffffffff) .| u32 v.
Definition cell_set_x (q v : Z) : Z := (q &~ 0xffff) .| u16 v.
Definition cell_set_l (q v : Z) : Z := (q &~ 0xff) .| u8 v.
Definition cell_set_h (q v : Z) : Z := (q &~ 0xff00) .| (u8 v .<< 8).

(** A bit field of one bit. *)
Definition fbit (w i : Z) : bool := Z.testbit w i.
Definition fput (w i : Z) (b : bool) : Z := if b then w .| 2 ^ i else w &~ 2 ^ i.

(** ** The translation cache entry *)

Record x86_tlb_entry (Dev : Type) := mkTlb {
  te_tag : Z;
  te_flags : Z;
  te_lin_base : Z;
  te_page_shift : Z;
  te_pbase : Z;
  te_host : option (host_ptr Dev);
}.
Arguments mkTlb {Dev}.
Arguments te_tag {Dev}.
Arguments te_flags {Dev}.
Arguments te_lin_base {Dev}.
Arguments te_page_shift {Dev}.
Arguments te_pbase {Dev}.
Arguments te_host {Dev}.

(** The zeroed entry of [calloc]/[memset]. *)
Definition tlb_zero {Dev} : x86_tlb_entry Dev := mkTlb 0 0 0 0 0 None.

(** ** The floating-point unit (fpu.h) *)

(** [extFloat80_t] *)
Record ext80 := mkExt80 { signif : Z; signExp : Z }.

Record x86_fpu := mkFpu {
  f_st : list ext80;
  f_cw : Z;
  f_sw : Z;
  f_tw : Z;
  f_fip : Z;
  f_fcs : Z;
  f_fop : Z;
  f_fdp : Z;
  f_fds : Z;
  f_mxcsr : Z;
  f_mxcsr_mask : Z;
  f_xmm : list (list Z);
  f_pending_mf : bool;
}.

Definition eta_fpu (s : x86_fpu) : x86_fpu :=
  mkFpu (f_st s) (f_cw s) (f_sw s) (f_tw s) (f_fip s) (f_fcs s) (f_fop s) (f_fdp s) (f_fds s)
    (f_mxcsr s) (f_mxcsr_mask s) (f_xmm s) (f_pending_mf s).

#[export] Instance upd_f_st : Upd f_st := ltac:(mk_upd eta_fpu f_st).
#[export] Instance upd_f_cw : Upd f_cw := ltac:(mk_upd eta_fpu f_cw).
#[export] Instance upd_f_sw : Upd f_sw := ltac:(mk_upd eta_fpu f_sw).
#[export] Instance upd_f_tw : Upd f_tw := ltac:(mk_upd eta_fpu f_tw).
#[export] Instance upd_f_fip : Upd f_fip := ltac:(mk_upd eta_fpu f_fip).
#[export] Instance upd_f_fcs : Upd f_fcs := ltac:(mk_upd eta_fpu f_fcs).
#[export] Instance upd_f_fop : Upd f_fop := ltac:(mk_upd eta_fpu f_fop).
#[export] Instance upd_f_fdp : Upd f_fdp := ltac:(mk_upd eta_fpu f_fdp).
#[export] Instance upd_f_fds : Upd f_fds := ltac:(mk_upd eta_fpu f_fds).
#[export] Instance upd_f_mxcsr : Upd f_mxcsr := ltac:(mk_upd eta_fpu f_mxcsr).
#[export] Instance upd_f_mxcsr_mask : Upd f_mxcsr_mask := ltac:(mk_upd eta_fpu f_mxcsr_mask).
#[export] Instance upd_f_xmm : Upd f_xmm := ltac:(mk_upd eta_fpu f_xmm).
#[export] Instance upd_f_pending_mf : Upd f_pending_mf := ltac:(mk_upd eta_fpu f_pending_mf).

(** ** The ISA-private state *)

Record x86_state (Dev : Type) := mkX86 {
  sreg : list Z;
  base : list Z;
  limit : list Z;
  ar : list Z;
  dbit : list Z;
  fl : Z;
  cr0 : Z;
  cr2 : Z;
  cr3 : Z;
  cr4 : Z;
  efer : Z;
  fpu : x86_fpu;
  msr_apic_base : Z;
  msr_fs_gs_base : list Z;
  tsc_offset : Z;
  tsc_aux : Z;
  sysenter_cs : Z;
  sysenter_esp : Z;
  sysenter_eip : Z;
  mtrr_physbase : list Z;
  mtrr_physmask : list Z;
  mtrr_def_type : Z;
  pat : Z;
  mcg_status : Z;
  mcg_ctl : Z;
  mc0_ctl : Z;
  mc0_status : Z;
  mc0_addr : Z;
  mc0_misc : Z;
  perf_evtsel : list Z;
  perf_pmc : list Z;
  perf_fixed_ctrl : Z;
  perf_global_ctrl : Z;
  perf_global_status : Z;
  perf_global_ovf : Z;
  perf_fixed_ctr : list Z;
  perf_active : Z;
  tlb : gmap Z (x86_tlb_entry Dev);
  tlb_gen : Z;
  fetch_page : Z;
  fetch_host : option (host_ptr Dev);
  fetch_valid : bool;
  gdtr : Z;
  gdtr_limit : Z;
  idtr : Z;
  idtr_limit : Z;
  tr : Z;
  tr_base : Z;
  tr_limit : Z;
  tr_ar : Z;
  ldtr : Z;
  ldtr_base : Z;
  ldtr_limit : Z;
  dr : list Z;
  gdb_watch_mask : Z;
  watch_hits : Z;
  dr_active : bool;
  bt_pending : bool;
  ferr_level : bool;
  a20 : bool;
  intr_pending : bool;
  intr_inhibit : bool;
  nmi_pending : bool;
  nmi_blocked : bool;
  trap_seq : Z;
  trap_signal : Z;
}.
Arguments mkX86 {Dev}.
Arguments sreg {Dev}.
Arguments base {Dev}.
Arguments limit {Dev}.
Arguments ar {Dev}.
Arguments dbit {Dev}.
Arguments fl {Dev}.
Arguments cr0 {Dev}.
Arguments cr2 {Dev}.
Arguments cr3 {Dev}.
Arguments cr4 {Dev}.
Arguments efer {Dev}.
Arguments fpu {Dev}.
Arguments msr_apic_base {Dev}.
Arguments msr_fs_gs_base {Dev}.
Arguments tsc_offset {Dev}.
Arguments tsc_aux {Dev}.
Arguments sysenter_cs {Dev}.
Arguments sysenter_esp {Dev}.
Arguments sysenter_eip {Dev}.
Arguments mtrr_physbase {Dev}.
Arguments mtrr_physmask {Dev}.
Arguments mtrr_def_type {Dev}.
Arguments pat {Dev}.
Arguments mcg_status {Dev}.
Arguments mcg_ctl {Dev}.
Arguments mc0_ctl {Dev}.
Arguments mc0_status {Dev}.
Arguments mc0_addr {Dev}.
Arguments mc0_misc {Dev}.
Arguments perf_evtsel {Dev}.
Arguments perf_pmc {Dev}.
Arguments perf_fixed_ctrl {Dev}.
Arguments perf_global_ctrl {Dev}.
Arguments perf_global_status {Dev}.
Arguments perf_global_ovf {Dev}.
Arguments perf_fixed_ctr {Dev}.
Arguments perf_active {Dev}.
Arguments tlb {Dev}.
Arguments tlb_gen {Dev}.
Arguments fetch_page {Dev}.
Arguments fetch_host {Dev}.
Arguments fetch_valid {Dev}.
Arguments gdtr {Dev}.
Arguments gdtr_limit {Dev}.
Arguments idtr {Dev}.
Arguments idtr_limit {Dev}.
Arguments tr {Dev}.
Arguments tr_base {Dev}.
Arguments tr_limit {Dev}.
Arguments tr_ar {Dev}.
Arguments ldtr {Dev}.
Arguments ldtr_base {Dev}.
Arguments ldtr_limit {Dev}.
Arguments dr {Dev}.
Arguments gdb_watch_mask {Dev}.
Arguments watch_hits {Dev}.
Arguments dr_active {Dev}.
Arguments bt_pending {Dev}.
Arguments ferr_level {Dev}.
Arguments a20 {Dev}.
Arguments intr_pending {Dev}.
Arguments intr_inhibit {Dev}.
Arguments nmi_pending {Dev}.
Arguments nmi_blocked {Dev}.
Arguments trap_seq {Dev}.
Arguments trap_signal {Dev}.

Definition eta_x86 {Dev} (s : x86_state Dev) : x86_state Dev :=
  mkX86 (sreg s) (base s) (limit s) (ar s) (dbit s) (fl s) (cr0 s) (cr2 s) (cr3 s) (cr4 s) (efer s)
    (fpu s) (msr_apic_base s) (msr_fs_gs_base s) (tsc_offset s) (tsc_aux s) (sysenter_cs s)
    (sysenter_esp s) (sysenter_eip s) (mtrr_physbase s) (mtrr_physmask s) (mtrr_def_type s) (pat s)
    (mcg_status s) (mcg_ctl s) (mc0_ctl s) (mc0_status s) (mc0_addr s) (mc0_misc s) (perf_evtsel s)
    (perf_pmc s) (perf_fixed_ctrl s) (perf_global_ctrl s) (perf_global_status s) (perf_global_ovf s)
    (perf_fixed_ctr s) (perf_active s) (tlb s) (tlb_gen s) (fetch_page s) (fetch_host s)
    (fetch_valid s) (gdtr s) (gdtr_limit s) (idtr s) (idtr_limit s) (tr s) (tr_base s) (tr_limit s)
    (tr_ar s) (ldtr s) (ldtr_base s) (ldtr_limit s) (dr s) (gdb_watch_mask s) (watch_hits s)
    (dr_active s) (bt_pending s) (ferr_level s) (a20 s) (intr_pending s) (intr_inhibit s)
    (nmi_pending s) (nmi_blocked s) (trap_seq s) (trap_signal s).

#[export] Instance upd_x_sreg {Dev} : Upd (@sreg Dev) := ltac:(mk_upd (@eta_x86 Dev) (@sreg Dev)).
#[export] Instance upd_x_base {Dev} : Upd (@base Dev) := ltac:(mk_upd (@eta_x86 Dev) (@base Dev)).
#[export] Instance upd_x_limit {Dev} : Upd (@limit Dev) := ltac:(mk_upd (@eta_x86 Dev) (@limit Dev)).
#[export] Instance upd_x_ar {Dev} : Upd (@ar Dev) := ltac:(mk_upd (@eta_x86 Dev) (@ar Dev)).
#[export] Instance upd_x_dbit {Dev} : Upd (@dbit Dev) := ltac:(mk_upd (@eta_x86 Dev) (@dbit Dev)).
#[export] Instance upd_x_fl {Dev} : Upd (@fl Dev) := ltac:(mk_upd (@eta_x86 Dev) (@fl Dev)).
#[export] Instance upd_x_cr0 {Dev} : Upd (@cr0 Dev) := ltac:(mk_upd (@eta_x86 Dev) (@cr0 Dev)).
#[export] Instance upd_x_cr2 {Dev} : Upd (@cr2 Dev) := ltac:(mk_upd (@eta_x86 Dev) (@cr2 Dev)).
#[export] Instance upd_x_cr3 {Dev} : Upd (@cr3 Dev) := ltac:(mk_upd (@eta_x86 Dev) (@cr3 Dev)).
#[export] Instance upd_x_cr4 {Dev} : Upd (@cr4 Dev) := ltac:(mk_upd (@eta_x86 Dev) (@cr4 Dev)).
#[export] Instance upd_x_efer {Dev} : Upd (@efer Dev) := ltac:(mk_upd (@eta_x86 Dev) (@efer Dev)).
#[export] Instance upd_x_fpu {Dev} : Upd (@fpu Dev) := ltac:(mk_upd (@eta_x86 Dev) (@fpu Dev)).
#[export] Instance upd_x_msr_apic_base {Dev} : Upd (@msr_apic_base Dev) := ltac:(mk_upd (@eta_x86 Dev) (@msr_apic_base Dev)).
#[export] Instance upd_x_msr_fs_gs_base {Dev} : Upd (@msr_fs_gs_base Dev) := ltac:(mk_upd (@eta_x86 Dev) (@msr_fs_gs_base Dev)).
#[export] Instance upd_x_tsc_offset {Dev} : Upd (@tsc_offset Dev) := ltac:(mk_upd (@eta_x86 Dev) (@tsc_offset Dev)).
#[export] Instance upd_x_tsc_aux {Dev} : Upd (@tsc_aux Dev) := ltac:(mk_upd (@eta_x86 Dev) (@tsc_aux Dev)).
#[export] Instance upd_x_sysenter_cs {Dev} : Upd (@sysenter_cs Dev) := ltac:(mk_upd (@eta_x86 Dev) (@sysenter_cs Dev)).
#[export] Instance upd_x_sysenter_esp {Dev} : Upd (@sysenter_esp Dev) := ltac:(mk_upd (@eta_x86 Dev) (@sysenter_esp Dev)).
#[export] Instance upd_x_sysenter_eip {Dev} : Upd (@sysenter_eip Dev) := ltac:(mk_upd (@eta_x86 Dev) (@sysenter_eip Dev)).
#[export] Instance upd_x_mtrr_physbase {Dev} : Upd (@mtrr_physbase Dev) := ltac:(mk_upd (@eta_x86 Dev) (@mtrr_physbase Dev)).
#[export] Instance upd_x_mtrr_physmask {Dev} : Upd (@mtrr_physmask Dev) := ltac:(mk_upd (@eta_x86 Dev) (@mtrr_physmask Dev)).
#[export] Instance upd_x_mtrr_def_type {Dev} : Upd (@mtrr_def_type Dev) := ltac:(mk_upd (@eta_x86 Dev) (@mtrr_def_type Dev)).
#[export] Instance upd_x_pat {Dev} : Upd (@pat Dev) := ltac:(mk_upd (@eta_x86 Dev) (@pat Dev)).
#[export] Instance upd_x_mcg_status {Dev} : Upd (@mcg_status Dev) := ltac:(mk_upd (@eta_x86 Dev) (@mcg_status Dev)).
#[export] Instance upd_x_mcg_ctl {Dev} : Upd (@mcg_ctl Dev) := ltac:(mk_upd (@eta_x86 Dev) (@mcg_ctl Dev)).
#[export] Instance upd_x_mc0_ctl {Dev} : Upd (@mc0_ctl Dev) := ltac:(mk_upd (@eta_x86 Dev) (@mc0_ctl Dev)).
#[export] Instance upd_x_mc0_status {Dev} : Upd (@mc0_status Dev) := ltac:(mk_upd (@eta_x86 Dev) (@mc0_status Dev)).
#[export] Instance upd_x_mc0_addr {Dev} : Upd (@mc0_addr Dev) := ltac:(mk_upd (@eta_x86 Dev) (@mc0_addr Dev)).
#[export] Instance upd_x_mc0_misc {Dev} : Upd (@mc0_misc Dev) := ltac:(mk_upd (@eta_x86 Dev) (@mc0_misc Dev)).
#[export] Instance upd_x_perf_evtsel {Dev} : Upd (@perf_evtsel Dev) := ltac:(mk_upd (@eta_x86 Dev) (@perf_evtsel Dev)).
#[export] Instance upd_x_perf_pmc {Dev} : Upd (@perf_pmc Dev) := ltac:(mk_upd (@eta_x86 Dev) (@perf_pmc Dev)).
#[export] Instance upd_x_perf_fixed_ctrl {Dev} : Upd (@perf_fixed_ctrl Dev) := ltac:(mk_upd (@eta_x86 Dev) (@perf_fixed_ctrl Dev)).
#[export] Instance upd_x_perf_global_ctrl {Dev} : Upd (@perf_global_ctrl Dev) := ltac:(mk_upd (@eta_x86 Dev) (@perf_global_ctrl Dev)).
#[export] Instance upd_x_perf_global_status {Dev} : Upd (@perf_global_status Dev) := ltac:(mk_upd (@eta_x86 Dev) (@perf_global_status Dev)).
#[export] Instance upd_x_perf_global_ovf {Dev} : Upd (@perf_global_ovf Dev) := ltac:(mk_upd (@eta_x86 Dev) (@perf_global_ovf Dev)).
#[export] Instance upd_x_perf_fixed_ctr {Dev} : Upd (@perf_fixed_ctr Dev) := ltac:(mk_upd (@eta_x86 Dev) (@perf_fixed_ctr Dev)).
#[export] Instance upd_x_perf_active {Dev} : Upd (@perf_active Dev) := ltac:(mk_upd (@eta_x86 Dev) (@perf_active Dev)).
#[export] Instance upd_x_tlb {Dev} : Upd (@tlb Dev) := ltac:(mk_upd (@eta_x86 Dev) (@tlb Dev)).
#[export] Instance upd_x_tlb_gen {Dev} : Upd (@tlb_gen Dev) := ltac:(mk_upd (@eta_x86 Dev) (@tlb_gen Dev)).
#[export] Instance upd_x_fetch_page {Dev} : Upd (@fetch_page Dev) := ltac:(mk_upd (@eta_x86 Dev) (@fetch_page Dev)).
#[export] Instance upd_x_fetch_host {Dev} : Upd (@fetch_host Dev) := ltac:(mk_upd (@eta_x86 Dev) (@fetch_host Dev)).
#[export] Instance upd_x_fetch_valid {Dev} : Upd (@fetch_valid Dev) := ltac:(mk_upd (@eta_x86 Dev) (@fetch_valid Dev)).
#[export] Instance upd_x_gdtr {Dev} : Upd (@gdtr Dev) := ltac:(mk_upd (@eta_x86 Dev) (@gdtr Dev)).
#[export] Instance upd_x_gdtr_limit {Dev} : Upd (@gdtr_limit Dev) := ltac:(mk_upd (@eta_x86 Dev) (@gdtr_limit Dev)).
#[export] Instance upd_x_idtr {Dev} : Upd (@idtr Dev) := ltac:(mk_upd (@eta_x86 Dev) (@idtr Dev)).
#[export] Instance upd_x_idtr_limit {Dev} : Upd (@idtr_limit Dev) := ltac:(mk_upd (@eta_x86 Dev) (@idtr_limit Dev)).
#[export] Instance upd_x_tr {Dev} : Upd (@tr Dev) := ltac:(mk_upd (@eta_x86 Dev) (@tr Dev)).
#[export] Instance upd_x_tr_base {Dev} : Upd (@tr_base Dev) := ltac:(mk_upd (@eta_x86 Dev) (@tr_base Dev)).
#[export] Instance upd_x_tr_limit {Dev} : Upd (@tr_limit Dev) := ltac:(mk_upd (@eta_x86 Dev) (@tr_limit Dev)).
#[export] Instance upd_x_tr_ar {Dev} : Upd (@tr_ar Dev) := ltac:(mk_upd (@eta_x86 Dev) (@tr_ar Dev)).
#[export] Instance upd_x_ldtr {Dev} : Upd (@ldtr Dev) := ltac:(mk_upd (@eta_x86 Dev) (@ldtr Dev)).
#[export] Instance upd_x_ldtr_base {Dev} : Upd (@ldtr_base Dev) := ltac:(mk_upd (@eta_x86 Dev) (@ldtr_base Dev)).
#[export] Instance upd_x_ldtr_limit {Dev} : Upd (@ldtr_limit Dev) := ltac:(mk_upd (@eta_x86 Dev) (@ldtr_limit Dev)).
#[export] Instance upd_x_dr {Dev} : Upd (@dr Dev) := ltac:(mk_upd (@eta_x86 Dev) (@dr Dev)).
#[export] Instance upd_x_gdb_watch_mask {Dev} : Upd (@gdb_watch_mask Dev) := ltac:(mk_upd (@eta_x86 Dev) (@gdb_watch_mask Dev)).
#[export] Instance upd_x_watch_hits {Dev} : Upd (@watch_hits Dev) := ltac:(mk_upd (@eta_x86 Dev) (@watch_hits Dev)).
#[export] Instance upd_x_dr_active {Dev} : Upd (@dr_active Dev) := ltac:(mk_upd (@eta_x86 Dev) (@dr_active Dev)).
#[export] Instance upd_x_bt_pending {Dev} : Upd (@bt_pending Dev) := ltac:(mk_upd (@eta_x86 Dev) (@bt_pending Dev)).
#[export] Instance upd_x_ferr_level {Dev} : Upd (@ferr_level Dev) := ltac:(mk_upd (@eta_x86 Dev) (@ferr_level Dev)).
#[export] Instance upd_x_a20 {Dev} : Upd (@a20 Dev) := ltac:(mk_upd (@eta_x86 Dev) (@a20 Dev)).
#[export] Instance upd_x_intr_pending {Dev} : Upd (@intr_pending Dev) := ltac:(mk_upd (@eta_x86 Dev) (@intr_pending Dev)).
#[export] Instance upd_x_intr_inhibit {Dev} : Upd (@intr_inhibit Dev) := ltac:(mk_upd (@eta_x86 Dev) (@intr_inhibit Dev)).
#[export] Instance upd_x_nmi_pending {Dev} : Upd (@nmi_pending Dev) := ltac:(mk_upd (@eta_x86 Dev) (@nmi_pending Dev)).
#[export] Instance upd_x_nmi_blocked {Dev} : Upd (@nmi_blocked Dev) := ltac:(mk_upd (@eta_x86 Dev) (@nmi_blocked Dev)).
#[export] Instance upd_x_trap_seq {Dev} : Upd (@trap_seq Dev) := ltac:(mk_upd (@eta_x86 Dev) (@trap_seq Dev)).
#[export] Instance upd_x_trap_signal {Dev} : Upd (@trap_signal Dev) := ltac:(mk_upd (@eta_x86 Dev) (@trap_signal Dev)).
(** ** Assignment to a field *)

Class Field {Dev} (f : x86_state Dev -> Z) := fwidth : Z.
Arguments fwidth {Dev} f {_}.
Class FieldArray {Dev} (f : x86_state Dev -> list Z) := faw : Z.
Arguments faw {Dev} f {_}.

#[export] Instance fla_sreg {Dev} : FieldArray (@sreg Dev) := 16.
#[export] Instance fla_base {Dev} : FieldArray (@base Dev) := 64.
#[export] Instance fla_limit {Dev} : FieldArray (@limit Dev) := 32.
#[export] Instance fla_ar {Dev} : FieldArray (@ar Dev) := 8.
#[export] Instance fla_dbit {Dev} : FieldArray (@dbit Dev) := 8.
#[export] Instance fld_fl {Dev} : Field (@fl Dev) := 32.
#[export] Instance fld_cr0 {Dev} : Field (@cr0 Dev) := 32.
#[export] Instance fld_cr2 {Dev} : Field (@cr2 Dev) := 32.
#[export] Instance fld_cr3 {Dev} : Field (@cr3 Dev) := 32.
#[export] Instance fld_cr4 {Dev} : Field (@cr4 Dev) := 32.
#[export] Instance fld_efer {Dev} : Field (@efer Dev) := 64.
#[export] Instance fld_msr_apic_base {Dev} : Field (@msr_apic_base Dev) := 64.
#[export] Instance fla_msr_fs_gs_base {Dev} : FieldArray (@msr_fs_gs_base Dev) := 64.
#[export] Instance fld_tsc_offset {Dev} : Field (@tsc_offset Dev) := 64.
#[export] Instance fld_tsc_aux {Dev} : Field (@tsc_aux Dev) := 32.
#[export] Instance fld_sysenter_cs {Dev} : Field (@sysenter_cs Dev) := 32.
#[export] Instance fld_sysenter_esp {Dev} : Field (@sysenter_esp Dev) := 32.
#[export] Instance fld_sysenter_eip {Dev} : Field (@sysenter_eip Dev) := 32.
#[export] Instance fla_mtrr_physbase {Dev} : FieldArray (@mtrr_physbase Dev) := 64.
#[export] Instance fla_mtrr_physmask {Dev} : FieldArray (@mtrr_physmask Dev) := 64.
#[export] Instance fld_mtrr_def_type {Dev} : Field (@mtrr_def_type Dev) := 64.
#[export] Instance fld_pat {Dev} : Field (@pat Dev) := 64.
#[export] Instance fld_mcg_status {Dev} : Field (@mcg_status Dev) := 64.
#[export] Instance fld_mcg_ctl {Dev} : Field (@mcg_ctl Dev) := 64.
#[export] Instance fld_mc0_ctl {Dev} : Field (@mc0_ctl Dev) := 64.
#[export] Instance fld_mc0_status {Dev} : Field (@mc0_status Dev) := 64.
#[export] Instance fld_mc0_addr {Dev} : Field (@mc0_addr Dev) := 64.
#[export] Instance fld_mc0_misc {Dev} : Field (@mc0_misc Dev) := 64.
#[export] Instance fla_perf_evtsel {Dev} : FieldArray (@perf_evtsel Dev) := 64.
#[export] Instance fla_perf_pmc {Dev} : FieldArray (@perf_pmc Dev) := 64.
#[export] Instance fld_perf_fixed_ctrl {Dev} : Field (@perf_fixed_ctrl Dev) := 64.
#[export] Instance fld_perf_global_ctrl {Dev} : Field (@perf_global_ctrl Dev) := 64.
#[export] Instance fld_perf_global_status {Dev} : Field (@perf_global_status Dev) := 64.
#[export] Instance fld_perf_global_ovf {Dev} : Field (@perf_global_ovf Dev) := 64.
#[export] Instance fla_perf_fixed_ctr {Dev} : FieldArray (@perf_fixed_ctr Dev) := 64.
#[export] Instance fld_perf_active {Dev} : Field (@perf_active Dev) := 32.
#[export] Instance fld_tlb_gen {Dev} : Field (@tlb_gen Dev) := 32.
#[export] Instance fld_fetch_page {Dev} : Field (@fetch_page Dev) := 32.
#[export] Instance fld_gdtr {Dev} : Field (@gdtr Dev) := 64.
#[export] Instance fld_gdtr_limit {Dev} : Field (@gdtr_limit Dev) := 16.
#[export] Instance fld_idtr {Dev} : Field (@idtr Dev) := 64.
#[export] Instance fld_idtr_limit {Dev} : Field (@idtr_limit Dev) := 16.
#[export] Instance fld_tr {Dev} : Field (@tr Dev) := 16.
#[export] Instance fld_tr_base {Dev} : Field (@tr_base Dev) := 64.
#[export] Instance fld_tr_limit {Dev} : Field (@tr_limit Dev) := 32.
#[export] Instance fld_tr_ar {Dev} : Field (@tr_ar Dev) := 8.
#[export] Instance fld_ldtr {Dev} : Field (@ldtr Dev) := 16.
#[export] Instance fld_ldtr_base {Dev} : Field (@ldtr_base Dev) := 64.
#[export] Instance fld_ldtr_limit {Dev} : Field (@ldtr_limit Dev) := 32.
#[export] Instance fla_dr {Dev} : FieldArray (@dr Dev) := 32.
#[export] Instance fld_gdb_watch_mask {Dev} : Field (@gdb_watch_mask Dev) := 32.
#[export] Instance fld_watch_hits {Dev} : Field (@watch_hits Dev) := 32.
#[export] Instance fld_trap_seq {Dev} : Field (@trap_seq Dev) := 64.
#[export] Instance fld_trap_signal {Dev} : Field (@trap_signal Dev) := 8.

(** ** The decode context (exec.h) *)

Record dec := mkDec {
  d_enc : Z;
  d_p66 : bool;
  d_pf2 : bool;
  d_pf3 : bool;
  d_w32 : bool;
  d_a32 : bool;
  d_seg : Z;
  d_rep : Z;
  d_op2 : Z;
  d_nxt : Z;
  d_mod : Z;
  d_reg : Z;
  d_rm : Z;
  d_is_mem : bool;
  d_mseg : Z;
  d_mlin : Z;
  d_moff : Z;
  d_m_esp_base : bool;
  d_watch_hit : Z;
  d_rf_load : bool;
  d_delivered : bool;
  d_eip_set : bool;
}.

Definition eta_dec (s : dec) : dec :=
  mkDec (d_enc s) (d_p66 s) (d_pf2 s) (d_pf3 s) (d_w32 s) (d_a32 s) (d_seg s) (d_rep s) (d_op2 s)
    (d_nxt s) (d_mod s) (d_reg s) (d_rm s) (d_is_mem s) (d_mseg s) (d_mlin s) (d_moff s)
    (d_m_esp_base s) (d_watch_hit s) (d_rf_load s) (d_delivered s) (d_eip_set s).

#[export] Instance upd_d_enc : Upd d_enc := ltac:(mk_upd eta_dec d_enc).
#[export] Instance upd_d_p66 : Upd d_p66 := ltac:(mk_upd eta_dec d_p66).
#[export] Instance upd_d_pf2 : Upd d_pf2 := ltac:(mk_upd eta_dec d_pf2).
#[export] Instance upd_d_pf3 : Upd d_pf3 := ltac:(mk_upd eta_dec d_pf3).
#[export] Instance upd_d_w32 : Upd d_w32 := ltac:(mk_upd eta_dec d_w32).
#[export] Instance upd_d_a32 : Upd d_a32 := ltac:(mk_upd eta_dec d_a32).
#[export] Instance upd_d_seg : Upd d_seg := ltac:(mk_upd eta_dec d_seg).
#[export] Instance upd_d_rep : Upd d_rep := ltac:(mk_upd eta_dec d_rep).
#[export] Instance upd_d_op2 : Upd d_op2 := ltac:(mk_upd eta_dec d_op2).
#[export] Instance upd_d_nxt : Upd d_nxt := ltac:(mk_upd eta_dec d_nxt).
#[export] Instance upd_d_mod : Upd d_mod := ltac:(mk_upd eta_dec d_mod).
#[export] Instance upd_d_reg : Upd d_reg := ltac:(mk_upd eta_dec d_reg).
#[export] Instance upd_d_rm : Upd d_rm := ltac:(mk_upd eta_dec d_rm).
#[export] Instance upd_d_is_mem : Upd d_is_mem := ltac:(mk_upd eta_dec d_is_mem).
#[export] Instance upd_d_mseg : Upd d_mseg := ltac:(mk_upd eta_dec d_mseg).
#[export] Instance upd_d_mlin : Upd d_mlin := ltac:(mk_upd eta_dec d_mlin).
#[export] Instance upd_d_moff : Upd d_moff := ltac:(mk_upd eta_dec d_moff).
#[export] Instance upd_d_m_esp_base : Upd d_m_esp_base := ltac:(mk_upd eta_dec d_m_esp_base).
#[export] Instance upd_d_watch_hit : Upd d_watch_hit := ltac:(mk_upd eta_dec d_watch_hit).
#[export] Instance upd_d_rf_load : Upd d_rf_load := ltac:(mk_upd eta_dec d_rf_load).
#[export] Instance upd_d_delivered : Upd d_delivered := ltac:(mk_upd eta_dec d_delivered).
#[export] Instance upd_d_eip_set : Upd d_eip_set := ltac:(mk_upd eta_dec d_eip_set).

(** ** The machine

    [xslow] is [g_mem_slow] (an observation category is on), [xpc] is
    [fr->rec.pc], [xdelivering] the static [delivering_vec] of [x86_step],
    [xclock] the emulated clock behind [HostTimerNow].  [xjunk] is what an
    uninitialised [uint64_t] on the stack holds. *)

Record XMach (Ops Dev W : Type) := mkXMach {
  xcpu : CpuState;
  xs : x86_state Dev;
  xd : dec;
  xbus : Bus Ops Dev;
  xio : Bus Ops Dev;
  xworld : W;
  xslow : bool;
  xjunk : Z;
  xpc : Z;
  xdelivering : Z;
  xclock : HostClock;
}.
Arguments mkXMach {Ops Dev W}.
Arguments xcpu {Ops Dev W}.
Arguments xs {Ops Dev W}.
Arguments xd {Ops Dev W}.
Arguments xbus {Ops Dev W}.
Arguments xio {Ops Dev W}.
Arguments xworld {Ops Dev W}.
Arguments xslow {Ops Dev W}.
Arguments xjunk {Ops Dev W}.
Arguments xpc {Ops Dev W}.
Arguments xdelivering {Ops Dev W}.
Arguments xclock {Ops Dev W}.

Definition eta_xmach {Ops Dev W} (s : XMach Ops Dev W) : XMach Ops Dev W :=
  mkXMach (xcpu s) (xs s) (xd s) (xbus s) (xio s) (xworld s) (xslow s) (xjunk s) (xpc s)
    (xdelivering s) (xclock s).

#[export] Instance upd_xcpu {Ops Dev W} : Upd (@xcpu Ops Dev W) := ltac:(mk_upd (@eta_xmach Ops Dev W) (@xcpu Ops Dev W)).
#[export] Instance upd_xs {Ops Dev W} : Upd (@xs Ops Dev W) := ltac:(mk_upd (@eta_xmach Ops Dev W) (@xs Ops Dev W)).
#[export] Instance upd_xd {Ops Dev W} : Upd (@xd Ops Dev W) := ltac:(mk_upd (@eta_xmach Ops Dev W) (@xd Ops Dev W)).
#[export] Instance upd_xbus {Ops Dev W} : Upd (@xbus Ops Dev W) := ltac:(mk_upd (@eta_xmach Ops Dev W) (@xbus Ops Dev W)).
#[export] Instance upd_xio {Ops Dev W} : Upd (@xio Ops Dev W) := ltac:(mk_upd (@eta_xmach Ops Dev W) (@xio Ops Dev W)).
#[export] Instance upd_xworld {Ops Dev W} : Upd (@xworld Ops Dev W) := ltac:(mk_upd (@eta_xmach Ops Dev W) (@xworld Ops Dev W)).
#[export] Instance upd_xslow {Ops Dev W} : Upd (@xslow Ops Dev W) := ltac:(mk_upd (@eta_xmach Ops Dev W) (@xslow Ops Dev W)).
#[export] Instance upd_xjunk {Ops Dev W} : Upd (@xjunk Ops Dev W) := ltac:(mk_upd (@eta_xmach Ops Dev W) (@xjunk Ops Dev W)).
#[export] Instance upd_xpc {Ops Dev W} : Upd (@xpc Ops Dev W) := ltac:(mk_upd (@eta_xmach Ops Dev W) (@xpc Ops Dev W)).
#[export] Instance upd_xdelivering {Ops Dev W} : Upd (@xdelivering Ops Dev W) := ltac:(mk_upd (@eta_xmach Ops Dev W) (@xdelivering Ops Dev W)).
#[export] Instance upd_xclock {Ops Dev W} : Upd (@xclock Ops Dev W) := ltac:(mk_upd (@eta_xmach Ops Dev W) (@xclock Ops Dev W)).

(** Evaluate projections of updated states, and nothing else. *)
Ltac xsimpl := cbn [upd f_st f_cw f_sw f_tw f_fip f_fcs f_fop f_fdp f_fds f_mxcsr f_mxcsr_mask f_xmm f_pending_mf upd_f_st
  upd_f_cw upd_f_sw upd_f_tw upd_f_fip upd_f_fcs upd_f_fop upd_f_fdp upd_f_fds upd_f_mxcsr upd_f_mxcsr_mask
  upd_f_xmm upd_f_pending_mf sreg base limit ar dbit fl cr0 cr2 cr3 cr4 efer fpu msr_apic_base msr_fs_gs_base
  tsc_offset tsc_aux sysenter_cs sysenter_esp sysenter_eip mtrr_physbase mtrr_physmask mtrr_def_type pat
  mcg_status mcg_ctl mc0_ctl mc0_status mc0_addr mc0_misc perf_evtsel perf_pmc perf_fixed_ctrl
  perf_global_ctrl perf_global_status perf_global_ovf perf_fixed_ctr perf_active tlb tlb_gen fetch_page
  fetch_host fetch_valid gdtr gdtr_limit idtr idtr_limit tr tr_base tr_limit tr_ar ldtr ldtr_base ldtr_limit
  dr gdb_watch_mask watch_hits dr_active bt_pending ferr_level a20 intr_pending intr_inhibit nmi_pending
  nmi_blocked trap_seq trap_signal upd_x_sreg upd_x_base upd_x_limit upd_x_ar upd_x_dbit upd_x_fl upd_x_cr0
  upd_x_cr2 upd_x_cr3 upd_x_cr4 upd_x_efer upd_x_fpu upd_x_msr_apic_base upd_x_msr_fs_gs_base upd_x_tsc_offset
  upd_x_tsc_aux upd_x_sysenter_cs upd_x_sysenter_esp upd_x_sysenter_eip upd_x_mtrr_physbase
  upd_x_mtrr_physmask upd_x_mtrr_def_type upd_x_pat upd_x_mcg_status upd_x_mcg_ctl upd_x_mc0_ctl
  upd_x_mc0_status upd_x_mc0_addr upd_x_mc0_misc upd_x_perf_evtsel upd_x_perf_pmc upd_x_perf_fixed_ctrl
  upd_x_perf_global_ctrl upd_x_perf_global_status upd_x_perf_global_ovf upd_x_perf_fixed_ctr upd_x_perf_active
  upd_x_tlb upd_x_tlb_gen upd_x_fetch_page upd_x_fetch_host upd_x_fetch_valid upd_x_gdtr upd_x_gdtr_limit
  upd_x_idtr upd_x_idtr_limit upd_x_tr upd_x_tr_base upd_x_tr_limit upd_x_tr_ar upd_x_ldtr upd_x_ldtr_base
  upd_x_ldtr_limit upd_x_dr upd_x_gdb_watch_mask upd_x_watch_hits upd_x_dr_active upd_x_bt_pending
  upd_x_ferr_level upd_x_a20 upd_x_intr_pending upd_x_intr_inhibit upd_x_nmi_pending upd_x_nmi_blocked
  upd_x_trap_seq upd_x_trap_signal d_enc d_p66 d_pf2 d_pf3 d_w32 d_a32 d_seg d_rep d_op2 d_nxt d_mod d_reg
  d_rm d_is_mem d_mseg d_mlin d_moff d_m_esp_base d_watch_hit d_rf_load d_delivered d_eip_set upd_d_enc
  upd_d_p66 upd_d_pf2 upd_d_pf3 upd_d_w32 upd_d_a32 upd_d_seg upd_d_rep upd_d_op2 upd_d_nxt upd_d_mod
  upd_d_reg upd_d_rm upd_d_is_mem upd_d_mseg upd_d_mlin upd_d_moff upd_d_m_esp_base upd_d_watch_hit
  upd_d_rf_load upd_d_delivered upd_d_eip_set xcpu xs xd xbus xio xworld xslow xjunk xpc xdelivering xclock
  upd_xcpu upd_xs upd_xd upd_xbus upd_xio upd_xworld upd_xslow upd_xjunk upd_xpc upd_xdelivering upd_xclock
  gpr fpr pc wait halted exit_code inst_count upd_gpr upd_fpr upd_pc upd_wait upd_halted upd_exit_code
  upd_inst_count].
Tactic Notation "xsimpl" "in" hyp(H) := cbn [upd f_st f_cw f_sw f_tw f_fip f_fcs f_fop f_fdp f_fds f_mxcsr f_mxcsr_mask f_xmm f_pending_mf upd_f_st
  upd_f_cw upd_f_sw upd_f_tw upd_f_fip upd_f_fcs upd_f_fop upd_f_fdp upd_f_fds upd_f_mxcsr upd_f_mxcsr_mask
  upd_f_xmm upd_f_pending_mf sreg base limit ar dbit fl cr0 cr2 cr3 cr4 efer fpu msr_apic_base msr_fs_gs_base
  tsc_offset tsc_aux sysenter_cs sysenter_esp sysenter_eip mtrr_physbase mtrr_physmask mtrr_def_type pat
  mcg_status mcg_ctl mc0_ctl mc0_status mc0_addr mc0_misc perf_evtsel perf_pmc perf_fixed_ctrl
  perf_global_ctrl perf_global_status perf_global_ovf perf_fixed_ctr perf_active tlb tlb_gen fetch_page
  fetch_host fetch_valid gdtr gdtr_limit idtr idtr_limit tr tr_base tr_limit tr_ar ldtr ldtr_base ldtr_limit
  dr gdb_watch_mask watch_hits dr_active bt_pending ferr_level a20 intr_pending intr_inhibit nmi_pending
  nmi_blocked trap_seq trap_signal upd_x_sreg upd_x_base upd_x_limit upd_x_ar upd_x_dbit upd_x_fl upd_x_cr0
  upd_x_cr2 upd_x_cr3 upd_x_cr4 upd_x_efer upd_x_fpu upd_x_msr_apic_base upd_x_msr_fs_gs_base upd_x_tsc_offset
  upd_x_tsc_aux upd_x_sysenter_cs upd_x_sysenter_esp upd_x_sysenter_eip upd_x_mtrr_physbase
  upd_x_mtrr_physmask upd_x_mtrr_def_type upd_x_pat upd_x_mcg_status upd_x_mcg_ctl upd_x_mc0_ctl
  upd_x_mc0_status upd_x_mc0_addr upd_x_mc0_misc upd_x_perf_evtsel upd_x_perf_pmc upd_x_perf_fixed_ctrl
  upd_x_perf_global_ctrl upd_x_perf_global_status upd_x_perf_global_ovf upd_x_perf_fixed_ctr upd_x_perf_active
  upd_x_tlb upd_x_tlb_gen upd_x_fetch_page upd_x_fetch_host upd_x_fetch_valid upd_x_gdtr upd_x_gdtr_limit
  upd_x_idtr upd_x_idtr_limit upd_x_tr upd_x_tr_base upd_x_tr_limit upd_x_tr_ar upd_x_ldtr upd_x_ldtr_base
  upd_x_ldtr_limit upd_x_dr upd_x_gdb_watch_mask upd_x_watch_hits upd_x_dr_active upd_x_bt_pending
  upd_x_ferr_level upd_x_a20 upd_x_intr_pending upd_x_intr_inhibit upd_x_nmi_pending upd_x_nmi_blocked
  upd_x_trap_seq upd_x_trap_signal d_enc d_p66 d_pf2 d_pf3 d_w32 d_a32 d_seg d_rep d_op2 d_nxt d_mod d_reg
  d_rm d_is_mem d_mseg d_mlin d_moff d_m_esp_base d_watch_hit d_rf_load d_delivered d_eip_set upd_d_enc
  upd_d_p66 upd_d_pf2 upd_d_pf3 upd_d_w32 upd_d_a32 upd_d_seg upd_d_rep upd_d_op2 upd_d_nxt upd_d_mod
  upd_d_reg upd_d_rm upd_d_is_mem upd_d_mseg upd_d_mlin upd_d_moff upd_d_m_esp_base upd_d_watch_hit
  upd_d_rf_load upd_d_delivered upd_d_eip_set xcpu xs xd xbus xio xworld xslow xjunk xpc xdelivering xclock
  upd_xcpu upd_xs upd_xd upd_xbus upd_xio upd_xworld upd_xslow upd_xjunk upd_xpc upd_xdelivering upd_xclock
  gpr fpr pc wait halted exit_code inst_count upd_gpr upd_fpr upd_pc upd_wait upd_halted upd_exit_code
  upd_inst_count] in H.

(** ** The translation cache as data

    The [tlb] array is zero-initialised and indexed by [set * ways + write];
    a slot the map does not hold is a zeroed one. *)
Section tlb_data.
Context {Dev : Type}.
Implicit Types s : x86_state Dev.

Definition tlb_at s (i : Z) : x86_tlb_entry Dev := default tlb_zero (tlb s !! i).

Definition TlbSet (vpn : Z) : Z := (vpn .^ (vpn .>> 10)) .& (kTlbSets - 1).
Definition TlbTag s (vpn : Z) (write : bool) : Z :=
  kTlbValid .| u32 (vpn .<< 1) .| u32 (tlb_gen s .<< kTlbGenShift) .| b2z write.
Definition TlbSlot (vpn : Z) (write : bool) : Z := TlbSet vpn * kTlbWays + b2z write.

Definition TlbLookup s (lin : Z) (write : bool) : option (x86_tlb_entry Dev) :=
  let vpn := u32 (lin .>> 12) in
  let e := tlb_at s (TlbSlot vpn write) in
  if te_tag e =? TlbTag s vpn write then Some e else None.

Definition TlbFlushAll s : x86_state Dev :=
  let gen := (tlb_gen s + 1) .& kTlbGenMask in
  let s := if gen =? 0 then s <| tlb := ∅ |> <| tlb_gen := 1 |> else s <| tlb_gen := gen |> in
  s <| fetch_valid := false |>.

(** [e->tag = 0] *)
Definition tlb_drop (e : x86_tlb_entry Dev) : x86_tlb_entry Dev :=
  mkTlb 0 (te_flags e) (te_lin_base e) (te_page_shift e) (te_pbase e) (te_host e).

Definition TlbFlushNonGlobal s : x86_state Dev :=
  if negb (tst (cr4 s) kCr4Pge) then TlbFlushAll s
  else s <| tlb := (fun e => if negb (tst (te_flags e) kTlbGlobal) then tlb_drop e else e) <$> tlb s |>
         <| fetch_valid := false |>.

Definition TlbFlushPage s (lin : Z) : x86_state Dev :=
  s <| tlb := (fun e => if negb (tst (te_tag e) kTlbValid) then e
                        else if lin .>> te_page_shift e =? te_lin_base e .>> te_page_shift e
                             then tlb_drop e else e) <$> tlb s |>
    <| fetch_valid := false |>.
End tlb_data.

(** ** The interrupt, NMI and A20 lines (exec.c) *)

Section lines.
Context {Ops Dev W : Type}.
Implicit Types m : XMach Ops Dev W.

Definition x86_set_intr m (level : bool) : XMach Ops Dev W :=
  let m := m <| xs := (xs m) <| intr_pending := level |> |> in
  if level then m <| xcpu := (xcpu m) <| wait := false |> |> else m.

Definition x86_set_nmi m : XMach Ops Dev W :=
  m <| xs := (xs m) <| nmi_pending := true |> |> <| xcpu := (xcpu m) <| wait := false |> |>.

Definition x86_set_a20_line m (on : bool) : XMach Ops Dev W :=
  if eqb (a20 (xs m)) on then m
  else m <| xs := TlbFlushAll ((xs m) <| a20 := on |>) |>.

Definition apply_xevent m (e : cpu_event) : XMach Ops Dev W :=
  match e with
  | EvIrq _ level => x86_set_intr m level
  | EvA20 on => x86_set_a20_line m on
  | EvNmi => x86_set_nmi m
  | EvHalt code => m <| xcpu := (xcpu m) <| halted := true |> <| exit_code := code |> |>
  end.
End lines.

(** ** Accessors *)

Section access.
Context {Ops Dev W : Type}.
#[local] Abbreviation XM := (M (XMach Ops Dev W)).

Definition getst {A} (f : x86_state Dev -> A) : XM A := gets (fun m => f (xs m)).
Definition modst (f : x86_state Dev -> x86_state Dev) : XM unit := modify (fun m => m <| xs := f (xs m) |>).
Definition setst {E} (f : x86_state Dev -> E) `{!Upd f} (v : E) : XM unit := modst (fun s => s <| f := v |>).
Definition put (f : x86_state Dev -> Z) `{!Upd f, !Field f} (v : Z) : XM unit := setst f (wrap (fwidth f) v).

(** [s->f[i]], read and assigned. *)
Definition geta (f : x86_state Dev -> list Z) (i : Z) : XM Z := fun m =>
  match (if 0 <=? i then f (xs m) !! Z.to_nat i else None) with
  | Some v => Done v m
  | None => Aborted OutOfBounds
  end.
Definition puta (f : x86_state Dev -> list Z) `{!Upd f, !FieldArray f} (i v : Z) : XM unit :=
  geta f i ;;; modst (fun s => s <| f := arr_set (f s) i (wrap (faw f) v) |>).

Definition getd {A} (f : dec -> A) : XM A := gets (fun m => f (xd m)).
Definition setd {E} (f : dec -> E) `{!Upd f} (v : E) : XM unit := modify (fun m => m <| xd := (xd m) <| f := v |> |>).

Definition getc {A} (f : CpuState -> A) : XM A := gets (fun m => f (xcpu m)).
Definition setc {E} (f : CpuState -> E) `{!Upd f} (v : E) : XM unit := modify (fun m => m <| xcpu := (xcpu m) <| f := v |> |>).

(** The general registers: [s->r[i]] seen through a view of the cell. *)
Definition getr (view : Z -> Z) (i : Z) : XM Z := getc (fun c => view (arr (gpr c) i)).
Definition setr (assign : Z -> Z -> Z) (i v : Z) : XM unit :=
  modify (fun m => m <| xcpu := (xcpu m) <| gpr := arr_set (gpr (xcpu m)) i (assign (arr (gpr (xcpu m)) i) v) |> |>).
Definition getE := getr cell_e.
Definition getX := getr cell_x.
Definition getL := getr cell_l.
Definition getH := getr cell_h.
Definition setE := setr cell_set_e.
Definition setX := setr cell_set_x.
Definition setL := setr cell_set_l.
Definition setH := setr cell_set_h.

(** Single flags. *)
Definition flag (i : Z) : XM bool := getst (fun s => fbit (fl s) i).
Definition set_flag (i : Z) (b : bool) : XM unit := modst (fun s => s <| fl := fput (fl s) i b |>).
Definition iopl : XM Z := getst (fun s => (fl s .>> fl_iopl) .& 3).
(** [fl->word = f(fl->word)] *)
Definition mod_fl (f : Z -> Z) : XM unit := modst (fun s => s <| fl := u32 (f (fl s)) |>).

(** [s->cr0 & 1] *)
Definition pe : XM bool := getst (fun s => tst (cr0 s) kCr0Pe).

(** ** Faults *)
Definition gp_fault {A} (code : Z) : XM A := raise_ vec_gp code.
Definition ss_fault {A} (code : Z) : XM A := raise_ vec_ss code.
Definition np_fault {A} (code : Z) : XM A := raise_ vec_np code.
Definition ts_fault {A} (code : Z) : XM A := raise_ vec_ts code.
Definition pf_fault {A} (lin code : Z) : XM A := put cr2 lin ;;; raise_ vec_pf code.
Definition seg_fault {A} (seg code : Z) : XM A := if seg =? ss_i then ss_fault code else gp_fault code.
Definition ud {A} : XM A := p <- getc pc ;; raise_ vec_ud p.
Definition nm {A} : XM A := p <- getc pc ;; raise_ vec_nm p.
Definition de {A} : XM A := p <- getc pc ;; raise_ vec_de p.

Definition SetEip (v : Z) : XM unit := setc pc (u32 v) ;;; setd d_eip_set true.
End access.

(** What a board wires to the processor besides the bus: the interrupt
    acknowledge cycle ([int_ack], [None] when no controller is wired) and the
    FERR# line. *)
Class X86Pins (W : Type) := {
  int_ack : option (W -> Z * W);
  ferr : option (bool -> W -> W * list cpu_event);
}.
