(* ===== verification/X86Flags.v ===== *)
(** * Flag rules and the arithmetic core (cpu/isa/x86/exec.c)

    The flag helpers, the condition codes, the shift and rotate family, the
    GRP1 arithmetic and the decimal adjustments, as functions of the EFLAGS
    word: each returns the word the C code leaves in [fl->word], with the
    result where there is one. *)

From S2P Require Import Prelude Bus Ram RvState Run X86State.

Definition vmask (size : Z) : Z := if size =? 4 then 0xffffffff else (1 .<< (size * 8)) - 1.
Definition vmsb (size : Z) : Z := 1 .<< (size * 8 - 1).

Definition kNibbleParity : list Z := [0; 1; 1; 0; 1; 0; 0; 1; 1; 0; 0; 1; 0; 1; 1; 0].

Definition kFlagCf := 2 ^ 0.
Definition kFlagPf := 2 ^ 2.
Definition kFlagAf := 2 ^ 4.
Definition kFlagZf := 2 ^ 6.
Definition kFlagSf := 2 ^ 7.
Definition kFlagOf := 2 ^ 11.
Definition kFlagArith := Eval cbv in kFlagCf .| kFlagPf .| kFlagAf .| kFlagZf .| kFlagSf .| kFlagOf.
Definition kFlagSzp := Eval cbv in kFlagPf .| kFlagZf .| kFlagSf.

(** [if (c) f |= m;] *)
Definition orif (c : bool) (m f : Z) : Z := if c then f .| m else f.

Definition szp_bits (r size : Z) : Z :=
  orif (tst r (vmsb size)) kFlagSf
    (orif (r .& vmask size =? 0) kFlagZf
      (orif (arr kNibbleParity (r .& 0xf) .^ arr kNibbleParity ((r .>> 4) .& 0xf) =? 0) kFlagPf 0)).
Definition szp (w r size : Z) : Z := (w &~ kFlagSzp) .| szp_bits r size.

Definition flags_add (w a b r size cin : Z) : Z :=
  let f := szp_bits r size in
  let f := orif (vmask size <? (a .& vmask size) + (b .& vmask size) + cin) kFlagCf f in
  let f := orif (tst ((a .^ b .^ r) .>> 4) 1) kFlagAf f in
  let f := orif (tst (((0xffffffff .^ (a .^ b)) .& (a .^ r)) .>> (size * 8 - 1)) 1) kFlagOf f in
  (w &~ kFlagArith) .| f.

Definition flags_sub (w a b r size bin : Z) : Z :=
  let f := szp_bits r size in
  let f := orif (a .& vmask size <? (b .& vmask size) + bin) kFlagCf f in
  let f := orif (tst ((a .^ b .^ r) .>> 4) 1) kFlagAf f in
  let f := orif (tst ((a .^ b) .& (a .^ r)) (vmsb size)) kFlagOf f in
  (w &~ kFlagArith) .| f.

Definition flags_logic (w r size : Z) : Z := (w &~ kFlagArith) .| szp_bits r size.

Definition flags_inc (w r size : Z) : Z :=
  let f := szp_bits r size in
  let f := orif (r =? vmsb size) kFlagOf f in
  let f := orif (r .& 0xf =? 0) kFlagAf f in
  (w &~ (kFlagSzp .| kFlagAf .| kFlagOf)) .| f.

Definition flags_dec (w r size : Z) : Z :=
  let f := szp_bits r size in
  let f := orif (r =? vmsb size - 1) kFlagOf f in
  let f := orif (r .& 0xf =? 0xf) kFlagAf f in
  (w &~ (kFlagSzp .| kFlagAf .| kFlagOf)) .| f.

(** [fl->cf = fl->of = c] *)
Definition put_cf_of (w : Z) (c : bool) : Z := fput (fput w fl_of c) fl_cf c.

Definition flags_mul (w prod size : Z) : Z := put_cf_of w (negb (prod .>> (size * 8) =? 0)).

(** [prod] is an [int64_t]. *)
Definition flags_imul (w prod size : Z) : Z :=
  let low := s64 (u64 (prod .<< (64 - size * 8))) .>> (64 - size * 8) in
  put_cf_of w (negb (prod =? low)).

(** ** Conditions *)

Definition cond (w c : Z) : bool :=
  let r := switch (c &~ 1)
    [(0x0, fbit w fl_of); (0x2, fbit w fl_cf); (0x4, fbit w fl_zf); (0x6, fbit w fl_cf || fbit w fl_zf);
     (0x8, fbit w fl_sf); (0xa, fbit w fl_pf); (0xc, xorb (fbit w fl_sf) (fbit w fl_of))]
    (fbit w fl_zf || xorb (fbit w fl_sf) (fbit w fl_of)) in
  xorb r (tst c 1).

(** ** Shifts and rotates

    [v] is the operand, [cnt] the masked count; the result comes first. *)

Definition shl (w v cnt size : Z) : Z * Z :=
  if cnt =? 0 then (v, w) else
  let width := size * 8 in
  let r := if width <=? cnt then 0 else u32 (v .<< cnt) .& vmask size in
  let c := (cnt <? width) && tst (v .>> (width - cnt)) 1 in
  let w := fput w fl_cf c in
  let w := if cnt =? 1 then fput w fl_of (xorb (tst r (vmsb size)) c) else w in
  (r, szp (fput w fl_af false) r size).

Definition shr (w v cnt size : Z) : Z * Z :=
  if cnt =? 0 then (v, w) else
  let width := size * 8 in
  let r := if width <=? cnt then 0 else v .>> cnt in
  let w := fput w fl_cf (tst (v .>> (cnt - 1)) 1) in
  let w := fput w fl_of ((cnt =? 1) && tst v (vmsb size)) in
  (r, szp (fput w fl_af false) r size).

Definition sar (w v cnt size : Z) : Z * Z :=
  if cnt =? 0 then (v, w) else
  let width := size * 8 in
  let fill := if tst v (vmsb size) then vmask size else 0 in
  let r := if width <=? cnt then fill else ((v .>> cnt) .| u32 (fill .<< (width - cnt))) .& vmask size in
  let w := fput w fl_cf (if width <=? cnt then tst v (vmsb size) else tst (v .>> (cnt - 1)) 1) in
  let w := if cnt =? 1 then fput w fl_of false else w in
  (r, szp (fput w fl_af false) r size).

Definition rol (w v cnt size : Z) : Z * Z :=
  if cnt =? 0 then (v, w) else
  let width := size * 8 in
  let k := cnt mod width in
  let r := (u32 (v .<< k) .| (v .>> (width - k))) .& vmask size in
  let c := tst r 1 in
  let w := fput w fl_cf c in
  (r, if cnt =? 1 then fput w fl_of (xorb (tst r (vmsb size)) c) else w).

Definition ror (w v cnt size : Z) : Z * Z :=
  if cnt =? 0 then (v, w) else
  let width := size * 8 in
  let k := cnt mod width in
  let r := ((v .>> k) .| u32 (v .<< (width - k))) .& vmask size in
  let w := fput w fl_cf (tst r (vmsb size)) in
  (r, fput w fl_of (xorb (tst r (vmsb size)) (tst r (vmsb size .>> 1)))).

Definition rcl (w v cnt size : Z) : Z * Z :=
  if cnt =? 0 then (v, w) else
  let width := size * 8 in
  let ring := (b2z (fbit w fl_cf) .<< width) .| (v .& vmask size) in
  let k := cnt mod (width + 1) in
  let ring := u64 (ring .<< k) .| (ring .>> (width + 1 - k)) in
  let c := tst (ring .>> width) 1 in
  let w := fput w fl_cf c in
  (u32 ring .& vmask size, fput w fl_of (xorb (tst ring (vmsb size)) c)).

Definition rcr (w v cnt size : Z) : Z * Z :=
  if cnt =? 0 then (v, w) else
  let width := size * 8 in
  let ring := (b2z (fbit w fl_cf) .<< width) .| (v .& vmask size) in
  let k := cnt mod (width + 1) in
  let ring := (ring .>> k) .| u64 (ring .<< (width + 1 - k)) in
  let c := tst (ring .>> width) 1 in
  let w := fput w fl_cf c in
  (u32 ring .& vmask size, fput w fl_of (xorb (tst ring (vmsb size)) c)).

(** The GRP2 switch on the reg field. *)
Definition grp2_op (reg : Z) : Z -> Z -> Z -> Z -> Z * Z :=
  switch reg [(0, rol); (1, ror); (2, rcl); (3, rcr); (4, shl); (6, shl); (5, shr)] sar.

(** ** GRP1 arithmetic *)

Definition grp1_math (w kind a b size : Z) : Z * Z :=
  let carry := b2z (fbit w fl_cf) in
  let add c := let r := u32 (a + b + c) .& vmask size in (r, flags_add w a b r size c) in
  let sub c := let r := u32 (a - b - c) .& vmask size in (r, flags_sub w a b r size c) in
  let logic r := (r, flags_logic w r size) in
  switch kind
    [(0, add 0); (2, add carry); (5, sub 0); (7, sub 0); (3, sub carry); (1, logic (a .| b)); (4, logic (a .& b))]
    (logic (a .^ b)).

(** ** Decimal adjustment

    [(AL, EFLAGS)], and [(AL, AH, EFLAGS)] for the unpacked forms. *)

(** Steps shared by DAA and DAS: [off] is 6 or -6, [wrapc] whether step one
    leaves the byte. *)
Definition bcd_adjust (old_al w off : Z) (wrapc : bool) : Z * Z :=
  let old_cf := fbit w fl_cf in
  let low := (9 <? old_al .& 0xf) || fbit w fl_af in
  let al := if low then u8 (old_al + off) else old_al in
  let c := low && (old_cf || wrapc) in
  let w := fput w fl_af low in
  let high := (0x99 <? old_al) || old_cf in
  let al := if high then u8 (al + 16 * off) else al in
  let c := high || c in
  let w := fput (flags_logic w al 1) fl_af low in
  (al, if c then fput w fl_cf true else w).

Definition daa (al w : Z) : Z * Z := bcd_adjust al w 6 (0xf9 <? al).
Definition das (al w : Z) : Z * Z := bcd_adjust al w (-6) (al <? 6).

Definition aaa (al ah w : Z) : Z * Z * Z :=
  if (9 <? al .& 0xf) || fbit w fl_af
  then (u8 (al + 6) .& 0xf, u8 (ah + 1), fput (fput w fl_af true) fl_cf true)
  else (al .& 0xf, ah, fput (fput w fl_af false) fl_cf false).

Definition aas (al ah w : Z) : Z * Z * Z :=
  if (9 <? al .& 0xf) || fbit w fl_af
  then (u8 (al - 6) .& 0xf, u8 (ah - 1), fput (fput w fl_af true) fl_cf true)
  else (al .& 0xf, ah, fput (fput w fl_af false) fl_cf false).
