(* ===== verification/X86Mem.v ===== *)
(** * x86 memory: the A20 gate, paging and debug registers (cpu/isa/x86/exec.c)

    Physical accesses behind the A20 gate, the two page walks with their
    permission and accessed/dirty rules, the translation cache in front of
    them, the linear accesses every instruction uses, and the debug registers
    that watch them.  What the debug hub only observes (trace rows) is left
    out; [xslow] keeps the choice it makes between the cached and the
    uncached path. *)

From S2P Require Import Prelude Bus Ram RvState Run X86State.

(** ** Debug registers *)

Definition kDrLenBytes : list Z := [1; 2; 4; 8].

Section debug_regs.
Context {Dev : Type}.
Implicit Types s : x86_state Dev.

Definition dr_enabled s (i : Z) : bool := tst (arr (dr s) 7 .>> (2 * i + kDr7LBase)) 3.
Definition dr_rw s (i : Z) : Z := (arr (dr s) 7 .>> (kDr7RwBase + 4 * i)) .& 3.
Definition dr_len_code s (i : Z) : Z := (arr (dr s) 7 .>> (kDr7LenBase + 4 * i)) .& 3.

(** Does slot [i] match a data access? *)
Definition watch_match s (lin size : Z) (write : bool) (i : Z) : bool :=
  if negb (dr_enabled s i) then false
  else
    let rw := dr_rw s i in
    if (rw =? kDr7RwExec) || (rw =? kDr7RwIo) then false
    else if (rw =? kDr7RwWrite) && negb write then false
    else
      let lo := arr (dr s) i in
      let hi := lo + arr kDrLenBytes (dr_len_code s i) in
      (lin <? hi) && (lo <? u64 (lin + size)).

(** Does slot [i] match a port access? *)
Definition io_match s (port : Z) (i : Z) : bool :=
  if negb (dr_enabled s i) || negb (dr_rw s i =? kDr7RwIo) then false
  else
    let lenc := dr_len_code s i in
    let len := if lenc =? 0 then 1 else if lenc =? 2 then 4 else 0 in
    negb (len =? 0) && (arr (dr s) i <=? port) && (port <? u32 (arr (dr s) i + len)).

(** The loop over the four slots. *)
Definition hits_of (f : Z -> bool) (hit : Z) : Z :=
  fold_left (fun h i => if f i then h .| 2 ^ i else h) [0; 1; 2; 3] hit.

Definition DrWrite s (reg v : Z) : x86_state Dev :=
  if reg =? 6 then s <| dr := arr_set (dr s) 6 (kDr6Rsvd1 .| (v .& (kDr6Bd .| kDr6Bs .| kDr6Bt))) |>
  else if reg =? 7 then
    let v7 := (v .& 0xffff23ff) .| kDr7Rsvd1 in
    s <| dr := arr_set (dr s) 7 v7 |> <| dr_active := tst v7 kDr7AnyEnable |>
  else s <| dr := arr_set (dr s) reg (u32 v) |>.

(** The three fields of slot [i] in DR7. *)
Definition dr7_fields (i : Z) : Z :=
  u32 ((3 .<< (2 * i + kDr7LBase)) .| (3 .<< (kDr7RwBase + 4 * i)) .| (3 .<< (kDr7LenBase + 4 * i))).

(** The code of a length, the last that matches. *)
Definition len_code (len : Z) : Z :=
  fold_left (fun c i => if arr kDrLenBytes i =? len then i else c) [0; 1; 2; 3] (-1).

Fixpoint set_watch_from s (addr lenc rw : Z) (slots : list Z) : Z * x86_state Dev :=
  match slots with
  | [] => (-1, s)
  | i :: slots =>
      if dr_enabled s i then set_watch_from s addr lenc rw slots
      else
        let s := DrWrite s i (u32 addr) in
        let v := arr (dr s) 7 &~ dr7_fields i in
        let v := v .| (1 .<< (2 * i + kDr7LBase)) .| (rw .<< (kDr7RwBase + 4 * i)) .| (lenc .<< (kDr7LenBase + 4 * i)) in
        let s := DrWrite s 7 (u32 v) in
        (i, s <| gdb_watch_mask := gdb_watch_mask s .| 2 ^ i |>)
  end.

Definition x86_gdb_set_watch s (addr len kind : Z) : Z * x86_state Dev :=
  let rw := if kind =? 2 then kDr7RwWrite else if kind =? 4 then kDr7RwAccess else -1 in
  if rw <? 0 then (-1, s) else
  let lenc := len_code len in
  if (lenc <? 0) || negb (addr .& u32 (len - 1) =? 0) then (-1, s)
  else set_watch_from s addr lenc rw [0; 1; 2; 3].

Definition x86_gdb_clear_watch s (slot : Z) : Z * x86_state Dev :=
  if (slot <? 0) || (kDrCount <=? slot) then (-1, s)
  else if negb (tst (gdb_watch_mask s) (2 ^ slot)) then (-1, s)
  else
    let s := DrWrite s 7 (arr (dr s) 7 &~ dr7_fields slot) in
    let s := DrWrite s slot 0 in
    (0, s <| gdb_watch_mask := gdb_watch_mask s &~ 2 ^ slot |>).
End debug_regs.

(** ** Paging data *)

Record walk_res := WalkRes { w_paddr : Z; w_flags : Z; w_lin_base : Z; w_page_shift : Z }.

Definition kPaeAddrMask := 0x000ffffffffff000.
Definition kPae2mMask := 0x000fffffffe00000.
Definition kPaeRsvdHi := Eval cbv in 0x7ff .<< 52.
Definition kNxBit := 2 ^ 63.

(** [c ? m : 0] *)
Definition mif (c : bool) (m : Z) : Z := if c then m else 0.

Section mem.
Context {Ops Dev W : Type} `{BusDevices Ops Dev W}.
#[local] Abbreviation XM := (M (XMach Ops Dev W)).

Definition cpl : XM Z := a <- geta ar cs_i ;; mret' ((a .>> 5) .& 3).
Definition user_cpl : XM bool := c <- cpl ;; mret' (c =? 3).

Definition WatchData (lin size : Z) (write : bool) : XM unit :=
  s <- getst id ;;
  if negb (tst (arr (dr s) 7) kDr7AnyEnable) then mret' tt
  else h <- getd d_watch_hit ;; setd d_watch_hit (hits_of (watch_match s lin size write) h).

Definition IoBpHit (port : Z) : XM unit :=
  s <- getst id ;;
  if negb (tst (arr (dr s) 7) kDr7AnyEnable) then mret' tt
  else h <- getd d_watch_hit ;; setd d_watch_hit (hits_of (io_match s port) h).

Definition dr_guard : XM unit :=
  s <- getst id ;;
  when tst (arr (dr s) 7) kDr7Gd do
    (puta dr 7 (arr (dr s) 7 &~ kDr7Gd) ;;; puta dr 6 (arr (dr s) 6 .| kDr6Bd) ;;; raise_ vec_db 0).

(** ** Physical accesses *)

Definition a20_gate (s : x86_state Dev) (addr : Z) : Z := if a20 s then addr else addr &~ 2 ^ 20.

Definition host_at (h : host_ptr Dev) (off : Z) : host_ptr Dev := HostPtr (hp_block h) (hp_off h + off).

(** The host block of a region the CPU may access directly. *)
Definition direct (r : BusRegion Ops Dev) : option (host_ptr Dev) :=
  if r_overlaps r then None else r_host r.

(** [memcpy] of [size] bytes over a [uint64_t] that holds [v0]. *)
Definition memcpy_over (v0 size v : Z) : Z := (v0 &~ (2 ^ (8 * size) - 1)) .| v.

Definition phys_load (addr size : Z) : XM Z := fun m =>
  let addr := a20_gate (xs m) addr in
  let '(r, b) := BusProbe (xbus m) addr size in
  let m := m <| xbus := b |> in
  match r with
  | None => Done (if size =? 8 then 2 ^ 64 - 1 else (1 .<< (size * 8)) - 1) m
  | Some r =>
      match direct r with
      | Some h => Done (memcpy_over (xjunk m) size (host_load (host_at h (addr - r_base r)) size (xworld m))) m
      | None =>
          let '(v, w, evs) := dev_read (r_ops r) (r_dev r) addr size (xworld m) in
          Done v (fold_left apply_xevent evs (m <| xworld := w |>))
      end
  end.

Definition phys_store (addr size v : Z) : XM unit := fun m =>
  let addr := a20_gate (xs m) addr in
  let '(r, b) := BusProbe (xbus m) addr size in
  let m := m <| xbus := b |> in
  match r with
  | None => Done tt m
  | Some r =>
      match direct r with
      | Some h => Done tt (m <| xworld := host_store (host_at h (addr - r_base r)) size v (xworld m) |>)
      | None =>
          let '(w, evs) := dev_write (r_ops r) (r_dev r) addr size v (xworld m) in
          Done tt (fold_left apply_xevent evs (m <| xworld := w |>))
      end
  end.

(** ** The page walks *)

Definition pf_code (write user : bool) : Z := mif write kPfWrite .| mif user kPfUser.

Definition PfRsvd {A} (lin code : Z) : XM A := pf_fault lin (code .| kPfPresent .| kPfRsvd).
Definition PfNx {A} (lin code : Z) : XM A := pf_fault lin (code .| kPfPresent .| kPfInstr).

Definition CheckPerm (lin : Z) (write user writable user_ok : bool) (code : Z) : XM unit :=
  c <- getst cr0 ;;
  when (if user then negb user_ok || (write && negb writable)
        else write && tst c kCr0Wp && negb writable) do pf_fault lin (code .| kPfPresent).

Definition WalkNonPae (lin : Z) (write user : bool) : XM walk_res :=
  let code := pf_code write user in
  s <- getst id ;;
  let pde_addr := (cr3 s &~ 0xfff) .| (u32 (lin .>> 20) .& 0xffc) in
  pde <- phys_load pde_addr 4 ;;
  let pde := u32 pde in
  (when negb (tst pde kPdeP) do pf_fault lin code) ;;;
  if tst pde kPdePs && tst (cr4 s) kCr4Pse then
    (when tst pde kPde4mReserved do pf_fault lin (code .| kPfPresent)) ;;;
    CheckPerm lin write user (tst pde kPdeRw) (tst pde kPdeUs) code ;;;
    let new_pde := pde .| kPdeA .| mif write kPdeD in
    (when negb (new_pde =? pde) do phys_store pde_addr 4 new_pde) ;;;
    let frame := (pde .& 0xffe00000) .| ((pde .& 0x001fe000) .<< (32 - 13)) in
    s <- getst id ;;
    mret' (WalkRes (a20_gate s (frame .| (lin .& 0x3fffff)))
             (mif (tst pde kPdeRw) kTlbWritable .| mif (tst pde kPdeUs) kTlbUser .| mif (tst pde kPdeG) kTlbGlobal)
             (u32 lin &~ 0x3fffff) 22)
  else
    let pte_addr := (pde &~ 0xfff) .| (u32 (lin .>> 10) .& 0xffc) in
    pte <- phys_load pte_addr 4 ;;
    let pte := u32 pte in
    (when negb (tst pte kPteP) do pf_fault lin code) ;;;
    let writable := tst pde kPdeRw && tst pte kPteRw in
    let user_ok := tst pde kPdeUs && tst pte kPteUs in
    CheckPerm lin write user writable user_ok code ;;;
    let new_pte := pte .| kPteA .| mif write kPteD in
    (when negb (new_pte =? pte) do phys_store pte_addr 4 new_pte) ;;;
    (when negb (tst pde kPdeA) do phys_store pde_addr 4 (pde .| kPdeA)) ;;;
    s <- getst id ;;
    mret' (WalkRes (a20_gate s ((pte &~ 0xfff) .| (lin .& 0xfff)))
             (mif writable kTlbWritable .| mif user_ok kTlbUser .| mif (tst pte kPteG) kTlbGlobal)
             (u32 lin &~ 0xfff) 12).

(** [nx && !(s->efer & kEferNxe)] *)
Definition nx_check (lin code : Z) (nx : bool) : XM unit :=
  e <- getst efer ;; when nx && negb (tst e kEferNxe) do PfRsvd lin code.

Definition WalkPae (lin : Z) (write user fetch : bool) : XM walk_res :=
  let code := pf_code write user in
  c3 <- getst cr3 ;;
  let pdpte_addr := (c3 .& 0xffffffe0) + ((lin .>> 30) .& 3) * 8 in
  pdpte <- phys_load pdpte_addr 8 ;;
  (when negb (tst pdpte kPdeP) do pf_fault lin code) ;;;
  let nx := tst pdpte kNxBit in
  (when tst pdpte kPdePs do PfRsvd lin code) ;;;
  (when tst pdpte kPaeRsvdHi do PfRsvd lin code) ;;;
  nx_check lin code nx ;;;
  let pde_addr := (pdpte .& kPaeAddrMask) .| (((lin .>> 21) .& 0x1ff) * 8) in
  pde <- phys_load pde_addr 8 ;;
  (when negb (tst pde kPdeP) do pf_fault lin code) ;;;
  let nx := nx || tst pde kNxBit in
  (when tst pde kPaeRsvdHi do PfRsvd lin code) ;;;
  nx_check lin code nx ;;;
  let writable := tst pdpte kPdeRw && tst pde kPdeRw in
  let user_ok := tst pdpte kPdeUs && tst pde kPdeUs in
  if tst pde kPdePs then
    (when tst pde 0x1fe000 do PfRsvd lin code) ;;;
    CheckPerm lin write user writable user_ok code ;;;
    (when fetch && nx do PfNx lin code) ;;;
    let new_pde := pde .| kPdeA .| mif write kPdeD in
    (when negb (new_pde =? pde) do phys_store pde_addr 8 new_pde) ;;;
    (when negb (tst pdpte kPdeA) do phys_store pdpte_addr 8 (pdpte .| kPdeA)) ;;;
    s <- getst id ;;
    mret' (WalkRes (a20_gate s ((pde .& kPae2mMask) .| (lin .& 0x1fffff)))
             (mif writable kTlbWritable .| mif user_ok kTlbUser .| mif nx kTlbNx .| mif (tst pde kPdeG) kTlbGlobal)
             (u32 lin &~ 0x1fffff) 21)
  else
    let pte_addr := (pde .& kPaeAddrMask) .| (((lin .>> 12) .& 0x1ff) * 8) in
    pte <- phys_load pte_addr 8 ;;
    (when negb (tst pte kPteP) do pf_fault lin code) ;;;
    let nx := nx || tst pte kNxBit in
    (when tst pte kPaeRsvdHi do PfRsvd lin code) ;;;
    nx_check lin code nx ;;;
    let writable := writable && tst pte kPteRw in
    let user_ok := user_ok && tst pte kPteUs in
    CheckPerm lin write user writable user_ok code ;;;
    (when fetch && nx do PfNx lin code) ;;;
    let new_pte := pte .| kPteA .| mif write kPteD in
    (when negb (new_pte =? pte) do phys_store pte_addr 8 new_pte) ;;;
    (when negb (tst pde kPdeA) do phys_store pde_addr 8 (pde .| kPdeA)) ;;;
    (when negb (tst pdpte kPdeA) do phys_store pdpte_addr 8 (pdpte .| kPdeA)) ;;;
    s <- getst id ;;
    mret' (WalkRes (a20_gate s ((pte .& kPaeAddrMask) .| (lin .& 0xfff)))
             (mif writable kTlbWritable .| mif user_ok kTlbUser .| mif nx kTlbNx .| mif (tst pte kPteG) kTlbGlobal)
             (u32 lin &~ 0xfff) 12).

Definition WalkPage (lin : Z) (write user fetch : bool) : XM walk_res :=
  c4 <- getst cr4 ;; if tst c4 kCr4Pae then WalkPae lin write user fetch else WalkNonPae lin write user.

Definition page_translate_as (lin : Z) (write user fetch : bool) : XM Z :=
  c <- getst cr0 ;;
  if negb (tst c kCr0Pg) then mret' lin
  else w <- WalkPage lin write user fetch ;; mret' (w_paddr w).

(** ** The translation cache in front of the walk *)

Definition TlbCheck (e : x86_tlb_entry Dev) (lin : Z) (write fetch user : bool) : XM unit :=
  let code := pf_code write user in
  s <- getst id ;;
  (when user && negb (tst (te_flags e) kTlbUser) do pf_fault lin (code .| kPfPresent)) ;;;
  (when write && (if user then negb (tst (te_flags e) kTlbWritable)
                  else tst (cr0 s) kCr0Wp && negb (tst (te_flags e) kTlbWritable))
   do pf_fault lin (code .| kPfPresent)) ;;;
  when fetch && tst (te_flags e) kTlbNx && tst (efer s) kEferNxe
  do pf_fault lin (code .| kPfPresent .| kPfInstr).

(** The entry a completed walk installs. *)
Definition tlb_entry_of (m : XMach Ops Dev W) (vpn : Z) (write : bool) (w : walk_res) : x86_tlb_entry Dev :=
  let pbase := w_paddr w &~ 0xfff in
  let host := if xslow m then None else BusRamPage (xbus m) pbase in
  mkTlb (TlbTag (xs m) vpn write) (w_flags w .| mif (bool_decide (is_Some host)) kTlbHost)
    (w_lin_base w) (w_page_shift w) pbase host.

Definition TlbFill (lin : Z) (write fetch user : bool) : XM (x86_tlb_entry Dev) :=
  w <- WalkPage lin write user fetch ;;
  let vpn := u32 (lin .>> 12) in
  e <- gets (fun m => tlb_entry_of m vpn write w) ;;
  modst (fun s => s <| tlb := <[TlbSlot vpn write := e]> (tlb s) |>) ;;;
  mret' e.

(** Lookup, then check or fill. *)
Definition tlb_entry (lin : Z) (write fetch user : bool) : XM (x86_tlb_entry Dev) :=
  s <- getst id ;;
  match TlbLookup s lin write with
  | Some e => TlbCheck e lin write fetch user ;;; mret' e
  | None => TlbFill lin write fetch user
  end.

(** The host page of an entry that has one ([kTlbHost]). *)
Definition te_host_page (e : x86_tlb_entry Dev) : option (host_ptr Dev) :=
  if tst (te_flags e) kTlbHost then te_host e else None.

Definition host_read (h : host_ptr Dev) (size : Z) : XM Z := gets (fun m => host_load h size (xworld m)).
Definition host_write (h : host_ptr Dev) (size v : Z) : XM unit :=
  modify (fun m => m <| xworld := host_store h size v (xworld m) |>).

Definition FastLoadOne (lin size : Z) (user fetch : bool) : XM Z :=
  e <- tlb_entry lin false fetch user ;;
  let off := u32 lin .& 0xfff in
  match te_host_page e with
  | Some h => host_read (host_at h off) size
  | None => phys_load (te_pbase e + off) size
  end.

Definition FastStoreOne (lin size : Z) (user : bool) (v : Z) : XM unit :=
  e <- tlb_entry lin true false user ;;
  let off := u32 lin .& 0xfff in
  match te_host_page e with
  | Some h => host_write (host_at h off) size v
  | None => phys_store (te_pbase e + off) size v
  end.

Definition SlowLoadOne (lin size : Z) (user fetch : bool) : XM Z :=
  p <- page_translate_as lin false user fetch ;; phys_load p size.
Definition SlowStoreOne (lin size : Z) (user : bool) (v : Z) : XM unit :=
  p <- page_translate_as lin true user false ;; phys_store p size v.

(** ** Alignment check *)
Definition AcCheckSlow (lin size : Z) (user fetch write : bool) : XM unit :=
  s <- getst id ;;
  if negb (tst (cr0 s) kCr0Am) || fetch || negb user || negb (fbit (fl s) fl_ac) then mret' tt
  else if negb (size =? 2) && negb (size =? 4) && negb (size =? 8) then mret' tt
  else if lin .& (size - 1) =? 0 then mret' tt
  else
    (when tst (cr0 s) kCr0Pg do (WalkPage lin write user fetch ;;; mret' tt)) ;;;
    raise_ vec_ac 0.

(** ** Linear accesses *)

(** One access or the two halves of a page-crossing one, little-endian. *)
Definition split_load (one : Z -> Z -> XM Z) (lin size : Z) : XM Z :=
  let off := u32 lin .& 0xfff in
  if off + size <=? 0x1000 then one lin size
  else
    let n1 := 0x1000 - off in
    lo <- one lin n1 ;;
    hi <- one (u64 (lin + n1)) (size - n1) ;;
    mret' (lo .| u64 (hi .<< (n1 * 8))).

Definition split_store (one : Z -> Z -> Z -> XM unit) (lin size v : Z) : XM unit :=
  let off := u32 lin .& 0xfff in
  if off + size <=? 0x1000 then one lin size v
  else
    let n1 := 0x1000 - off in
    one lin n1 (v .& ((1 .<< (n1 * 8)) - 1)) ;;;
    one (u64 (lin + n1)) (size - n1) (v .>> (n1 * 8)).

Definition lin_load (lin size : Z) (user fetch : bool) : XM Z :=
  AcCheckSlow lin size user fetch false ;;;
  slow <- gets xslow ;;
  c <- getst cr0 ;;
  split_load (if slow : bool then fun l n => SlowLoadOne l n user fetch
              else if negb (tst c kCr0Pg) then phys_load
              else fun l n => FastLoadOne l n user fetch) lin size.

Definition lin_store (lin size : Z) (user : bool) (v : Z) : XM unit :=
  AcCheckSlow lin size user false true ;;;
  slow <- gets xslow ;;
  c <- getst cr0 ;;
  split_store (if slow : bool then fun l n x => SlowStoreOne l n user x
               else if negb (tst c kCr0Pg) then phys_store
               else fun l n x => FastStoreOne l n user x) lin size v.

Definition bus_load (lin size : Z) : XM Z := u <- user_cpl ;; lin_load lin size u false.
Definition bus_store (lin size v : Z) : XM unit := u <- user_cpl ;; lin_store lin size u v.
Definition kbus_load (lin size : Z) : XM Z := lin_load lin size false false.
Definition kbus_store (lin size v : Z) : XM unit := lin_store lin size false v.

Definition krd8 (lin : Z) : XM Z := v <- kbus_load lin 1 ;; mret' (u8 v).
Definition krd16 (lin : Z) : XM Z := v <- kbus_load lin 2 ;; mret' (u16 v).
Definition krd32 (lin : Z) : XM Z := v <- kbus_load lin 4 ;; mret' (u32 v).
Definition kwr16 (lin v : Z) : XM unit := kbus_store lin 2 (u16 v).
Definition kwr32 (lin v : Z) : XM unit := kbus_store lin 4 (u32 v).
Definition rd8 (lin : Z) : XM Z := v <- bus_load lin 1 ;; mret' (u8 v).
Definition rd16 (lin : Z) : XM Z := v <- bus_load lin 2 ;; mret' (u16 v).
Definition rd32 (lin : Z) : XM Z := v <- bus_load lin 4 ;; mret' (u32 v).
Definition wr8 (lin v : Z) : XM unit := bus_store lin 1 (u8 v).
Definition wr16 (lin v : Z) : XM unit := bus_store lin 2 (u16 v).
Definition wr32 (lin v : Z) : XM unit := bus_store lin 4 (u32 v).
Definition rd64 (lin : Z) : XM Z := bus_load lin 8.
Definition wr64 (lin v : Z) : XM unit := bus_store lin 8 v.

Fixpoint rd_bytes (lin : Z) (n : nat) : XM (list Z) :=
  match n with
  | O => mret' []
  | S n => b <- rd8 lin ;; bs <- rd_bytes (u64 (lin + 1)) n ;; mret' (b :: bs)
  end.
Fixpoint wr_bytes (lin : Z) (bs : list Z) : XM unit :=
  match bs with [] => mret' tt | b :: bs => wr8 lin b ;;; wr_bytes (u64 (lin + 1)) bs end.

(** ** The instruction stream *)

Definition fetch8 : XM Z :=
  m <- getS ;;
  let s := xs m in
  let off := u32 (pc (xcpu m) + d_nxt (xd m)) in
  lim <- geta limit cs_i ;;
  (when tst (cr0 s) kCr0Pe && (lim <? off) do gp_fault 0) ;;;
  b <- geta base cs_i ;;
  let lin := u64 (b + off) in
  user <- user_cpl ;;
  v <- (if xslow m then v <- lin_load lin 1 user true ;; mret' (u8 v)
        else
          let page := u32 (lin .>> 12) in
          if fetch_valid s && (fetch_page s =? page) then
            match fetch_host s with
            | Some h => host_read (host_at h (u32 lin .& 0xfff)) 1
            | None => abort OutOfBounds
            end
          else
              ph <- (if negb (tst (cr0 s) kCr0Pg) then
                       let paddr := a20_gate s lin in
                       gets (fun m => (paddr, BusRamPage (xbus m) (paddr &~ 0xfff)))
                     else
                       e <- tlb_entry lin false true user ;;
                       mret' (u64 (te_pbase e + (u32 lin .& 0xfff)), te_host_page e)) ;;
              match snd ph with
              | Some h =>
                  modst (fun s => s <| fetch_page := page |> <| fetch_host := Some h |> <| fetch_valid := true |>) ;;;
                  host_read (host_at h (u32 lin .& 0xfff)) 1
              | None => setst fetch_valid false ;;; v <- phys_load (fst ph) 1 ;; mret' (u8 v)
              end) ;;
  n <- getd d_nxt ;;
  setd d_nxt (u32 (n + 1)) ;;;
  mret' v.

Definition fetch16 : XM Z := lo <- fetch8 ;; hi <- fetch8 ;; mret' (lo .| (hi .<< 8)).
Definition fetch32 : XM Z := lo <- fetch16 ;; hi <- fetch16 ;; mret' (lo .| (hi .<< 16)).
End mem.
