(* ===== verification/X86Oper.v ===== *)
(** * Segments checks, operands, the stack and port I/O (cpu/isa/x86/exec.c)

    The per-access segment checks, the ModRM/SIB decode and the operand
    accessors it feeds, the stack at the width SS.B and the operand size
    select, and the port-I/O funnel with its permission bitmap. *)

From S2P Require Import Prelude Bus Ram RvState Run X86State X86Flags X86Mem.

(** [(int8_t)], [(int16_t)] of an unsigned value. *)
Abbreviation s8 := (signed 8).
Abbreviation s16 := (signed 16).

Section oper.
Context {Ops Dev W : Type} `{BusDevices Ops Dev W}.
#[local] Abbreviation XM := (M (XMach Ops Dev W)).

(** ** Segment use *)

Definition seg_use (seg off size : Z) (write : bool) : XM unit :=
  p <- pe ;;
  if negb p then mret' tt else
  a <- geta ar seg ;;
  (when a =? 0 do gp_fault 0) ;;;
  (when (if write then negb (a .& 0x1a =? 0x12) else a .& 0x1a =? 0x18) do seg_fault seg 0) ;;;
  lim <- geta limit seg ;;
  db <- geta dbit seg ;;
  if a .& 0x1c =? 0x14 then
    let upper := if negb (db =? 0) then 0xffffffff else 0xffff in
    when (off <=? lim) || (upper <? off + size - 1) do seg_fault seg 0
  else
    when (lim <? off) || (lim <? off + size - 1) do seg_fault seg 0.

(** ** Immediates *)
Definition imm8 : XM Z := fetch8.
Definition imm16 : XM Z := fetch16.
Definition imm32 : XM Z := fetch32.

(** ** ModRM and SIB *)

Definition mr_base16 : list Z := [ebx_i; ebx_i; ebp_i; ebp_i; esi_i; edi_i; ebp_i; ebx_i].
Definition mr_index16 : list Z := [esi_i; edi_i; esi_i; edi_i; -1; -1; -1; -1].

(** The displacement a [mod] field asks for, added to [off]. *)
Definition add_disp (mod_ off : Z) (wide : XM Z) : XM Z :=
  if mod_ =? 1 then b <- fetch8 ;; mret' (u32 (off + s8 b))
  else if mod_ =? 2 then w <- wide ;; mret' (u32 (off + w))
  else mret' off.

(** Offset and default segment of each addressing form; the segment is -1
    where DS applies. *)
Definition modrm16 (mod_ rm seg : Z) : XM (Z * Z) :=
  b <- getX (arr mr_base16 rm) ;;
  off <- (let ix := arr mr_index16 rm in
          if 0 <=? ix then i <- getX ix ;; mret' (u32 (b + i)) else mret' b) ;;
  off <- (if (mod_ =? 1) || (mod_ =? 2) then add_disp mod_ off fetch16
          else if rm =? 6 then fetch16 else mret' off) ;;
  mret' (off .& 0xffff,
         if (seg <? 0) && ((rm =? 2) || (rm =? 3) || ((rm =? 6) && negb (mod_ =? 0))) then ss_i else seg).

Definition modrm_sib (mod_ seg : Z) : XM (Z * Z) :=
  sib <- fetch8 ;;
  let scale := 1 .<< (sib .>> 6) in
  let idx := (sib .>> 3) .& 7 in
  let bs := sib .& 7 in
  (when bs =? 4 do setd d_m_esp_base true) ;;;
  offseg <- (if (bs =? 5) && (mod_ =? 0) then off <- fetch32 ;; mret' (off, seg)
             else off <- getE bs ;;
                  mret' (off, if (seg <? 0) && ((bs =? 4) || (bs =? 5)) then ss_i else seg)) ;;
  let '(off, seg) := offseg in
  off <- (if negb (idx =? 4) then i <- getE idx ;; mret' (u32 (off + scale * i)) else mret' off) ;;
  off <- add_disp mod_ off fetch32 ;;
  mret' (off, seg).

Definition modrm32 (mod_ rm seg : Z) : XM (Z * Z) :=
  off <- (if (rm =? 5) && (mod_ =? 0) then fetch32
          else off <- getE rm ;; add_disp mod_ off fetch32) ;;
  mret' (off, if (seg <? 0) && (rm =? 5) && negb (mod_ =? 0) then ss_i else seg).

Definition modrm : XM unit :=
  enc <- fetch8 ;;
  setd d_enc enc ;;;
  let mod_ := enc .>> 6 in
  let rm := enc .& 7 in
  setd d_mod mod_ ;;;
  setd d_reg ((enc .>> 3) .& 7) ;;;
  setd d_rm rm ;;;
  seg <- getd d_seg ;;
  setd d_mseg seg ;;;
  if mod_ =? 3 then setd d_is_mem false else
  setd d_is_mem true ;;;
  setd d_m_esp_base false ;;;
  a32 <- getd d_a32 ;;
  offseg <- (if negb a32 then modrm16 mod_ rm seg
             else if rm =? 4 then modrm_sib mod_ seg
             else modrm32 mod_ rm seg) ;;
  let '(off, seg) := offseg in
  let seg := if seg <? 0 then ds_i else seg in
  setd d_mseg seg ;;;
  setd d_moff off ;;;
  b <- geta base seg ;;
  setd d_mlin (u64 (b + off)).

(** ** Operands *)

(** Byte registers 4..7 are the high halves of cells 0..3. *)
Definition byte_reg (i : Z) : XM Z := if i <? 4 then getL i else getH (i - 4).
Definition set_byte_reg (i v : Z) : XM unit := if i <? 4 then setL i v else setH (i - 4) v.

Definition reg8 : XM Z := r <- getd d_reg ;; byte_reg r.
Definition set_reg8 (v : Z) : XM unit := r <- getd d_reg ;; set_byte_reg r v.
Definition reg16 : XM Z := r <- getd d_reg ;; getX r.
Definition set_reg16 (v : Z) : XM unit := r <- getd d_reg ;; setX r v.
Definition reg32 : XM Z := r <- getd d_reg ;; getE r.
Definition set_reg32 (v : Z) : XM unit := r <- getd d_reg ;; setE r v.

(** The checks of a memory operand: segment, then watchpoints. *)
Definition mem_use (size : Z) (write : bool) : XM Z :=
  dd <- getd id ;;
  seg_use (d_mseg dd) (d_moff dd) size write ;;;
  WatchData (d_mlin dd) size write ;;;
  mret' (d_mlin dd).

Definition rm8 : XM Z :=
  mem <- getd d_is_mem ;;
  if mem : bool then lin <- mem_use 1 false ;; rd8 lin else i <- getd d_rm ;; byte_reg i.
Definition set_rm8 (v : Z) : XM unit :=
  mem <- getd d_is_mem ;;
  if mem : bool then lin <- mem_use 1 true ;; wr8 lin v else i <- getd d_rm ;; set_byte_reg i v.
Definition rm16 : XM Z :=
  mem <- getd d_is_mem ;;
  if mem : bool then lin <- mem_use 2 false ;; rd16 lin else i <- getd d_rm ;; getX i.
Definition set_rm16 (v : Z) : XM unit :=
  mem <- getd d_is_mem ;;
  if mem : bool then lin <- mem_use 2 true ;; wr16 lin v else i <- getd d_rm ;; setX i v.
Definition rm32 : XM Z :=
  mem <- getd d_is_mem ;;
  if mem : bool then lin <- mem_use 4 false ;; rd32 lin else i <- getd d_rm ;; getE i.
Definition set_rm32 (v : Z) : XM unit :=
  mem <- getd d_is_mem ;;
  if mem : bool then lin <- mem_use 4 true ;; wr32 lin v else i <- getd d_rm ;; setE i v.

Definition set_sys_sel (sel : Z) : XM unit :=
  dd <- getd id ;;
  if d_is_mem dd || negb (d_w32 dd) then set_rm16 sel else set_rm32 sel.

(** The operand at the width an opcode works on: 1, 2 or 4 bytes. *)
Definition rm_n (size : Z) : XM Z := if size =? 1 then rm8 else if size =? 2 then rm16 else rm32.
Definition set_rm_n (size v : Z) : XM unit :=
  if size =? 1 then set_rm8 v else if size =? 2 then set_rm16 v else set_rm32 v.
Definition reg_n (size : Z) : XM Z := if size =? 1 then reg8 else if size =? 2 then reg16 else reg32.
Definition set_reg_n (size v : Z) : XM unit :=
  if size =? 1 then set_reg8 v else if size =? 2 then set_reg16 v else set_reg32 v.
Definition acc_n (size : Z) : XM Z :=
  if size =? 1 then getL eax_i else if size =? 2 then getX eax_i else getE eax_i.
Definition set_acc_n (size v : Z) : XM unit :=
  if size =? 1 then setL eax_i v else if size =? 2 then setX eax_i v else setE eax_i v.
Definition imm_n (size : Z) : XM Z := if size =? 1 then imm8 else if size =? 2 then imm16 else imm32.
Definition rd_n (size lin : Z) : XM Z :=
  if size =? 1 then rd8 lin else if size =? 2 then rd16 lin else rd32 lin.
Definition wr_n (size lin v : Z) : XM unit :=
  if size =? 1 then wr8 lin v else if size =? 2 then wr16 lin v else wr32 lin v.

(** [d.w32 ? 4 : 2] *)
Definition opsize : XM Z := w <- getd d_w32 ;; mret' (if w : bool then 4 else 2).

(** ** The stack *)

(** SS.B, and the stack offset of an ESP value under it. *)
Definition ss_big : XM bool := b <- geta dbit ss_i ;; mret' (negb (b =? 0)).
Definition sp_off (big : bool) (v : Z) : Z := if big then u32 v else u16 v.
(** ESP moved to [v]: all of it, or SP only. *)
Definition sp_move (big : bool) (old v : Z) : Z := if big then u32 v else (old .& 0xffff0000) .| u16 v.

Definition stack_write (store : Z -> Z -> XM unit) (size : Z) : XM unit :=
  sp <- getE esp_i ;;
  big <- ss_big ;;
  let off := sp_off big (sp - size) in
  seg_use ss_i off size true ;;;
  b <- geta base ss_i ;;
  WatchData (u64 (b + off)) size true ;;;
  store (u64 (b + off)) size ;;;
  setE esp_i (sp_move big sp (sp - size)).

Definition stack_push (size v : Z) : XM unit :=
  stack_write (fun lin n => if n =? 4 then wr32 lin v else wr16 lin (u16 v)) size.
Definition kstack_push (size v : Z) : XM unit :=
  stack_write (fun lin n => if n =? 4 then kwr32 lin v else kwr16 lin (u16 v)) size.

Definition stack_pop (size : Z) : XM Z :=
  sp <- getE esp_i ;;
  big <- ss_big ;;
  let off := sp_off big sp in
  seg_use ss_i off size false ;;;
  b <- geta base ss_i ;;
  WatchData (u64 (b + off)) size false ;;;
  v <- (if size =? 4 then rd32 (u64 (b + off)) else rd16 (u64 (b + off))) ;;
  setE esp_i (sp_move big sp (sp + size)) ;;;
  mret' v.

Definition push16 (v : Z) : XM unit := stack_push 2 (u16 v).
Definition push32 (v : Z) : XM unit := stack_push 4 v.
Definition pop16 : XM Z := v <- stack_pop 2 ;; mret' (u16 v).
Definition pop32 : XM Z := stack_pop 4.
Definition kpush16 (v : Z) : XM unit := kstack_push 2 (u16 v).
Definition kpush32 (v : Z) : XM unit := kstack_push 4 v.

Definition stack_peek (size bytes : Z) : XM Z :=
  sp <- getE esp_i ;;
  big <- ss_big ;;
  let off := sp_off big (sp + bytes) in
  seg_use ss_i off size false ;;;
  b <- geta base ss_i ;;
  if size =? 4 then rd32 (u64 (b + off)) else rd16 (u64 (b + off)).

Definition push_w (v : Z) : XM unit := n <- opsize ;; stack_push n v.
Definition pop_w : XM Z := n <- opsize ;; stack_pop n.

(** ** Port I/O *)

Fixpoint io_bitmap (port iobase : Z) (n : nat) (i : Z) : XM bool :=
  match n with
  | O => mret' true
  | S n =>
      s <- getst id ;;
      let off := u32 (iobase + ((port + i) .>> 3)) in
      if tr_limit s <? off then mret' false else
      b <- krd8 (u64 (tr_base s + off)) ;;
      if tst b (2 ^ ((port + i) .& 7)) then mret' false else io_bitmap port iobase n (i + 1)
  end.

Definition io_allowed (port size : Z) : XM bool :=
  p <- pe ;;
  if negb p then mret' true else
  vm <- flag fl_vm ;;
  c <- cpl ;;
  io <- iopl ;;
  if negb vm && (c <=? io) then mret' true else
  s <- getst id ;;
  let ty := tr_ar s .& 0xf in
  if negb (tst (tr_ar s) 0x80) || (negb (ty =? 9) && negb (ty =? 0xb)) then mret' false else
  iobase <- krd16 (u64 (tr_base s + 0x66)) ;;
  io_bitmap port iobase (Z.to_nat size) 0.

(** [BusRead]/[BusWrite] on the I/O bus; an unclaimed port is fatal. *)
Definition io_read (port size : Z) : XM Z := fun m =>
  match FindRegion (xio m) port size with
  | (Some r, b) =>
      let '(v, w, evs) := dev_read (r_ops r) (r_dev r) port size (xworld m) in
      Done v (fold_left apply_xevent evs (m <| xio := b |> <| xworld := w |>))
  | (None, _) => Aborted FatalUnmapped
  end.
Definition io_write (port size v : Z) : XM unit := fun m =>
  match FindRegion (xio m) port size with
  | (Some r, b) =>
      let '(w, evs) := dev_write (r_ops r) (r_dev r) port size v (xworld m) in
      Done tt (fold_left apply_xevent evs (m <| xio := b |> <| xworld := w |>))
  | (None, _) => Aborted FatalUnmapped
  end.

Definition io_in (port size : Z) : XM Z :=
  ok <- io_allowed port size ;;
  (when negb ok do gp_fault 0) ;;;
  v <- io_read port size ;;
  IoBpHit port ;;;
  mret' (u32 v).

Definition io_out (port size v : Z) : XM unit :=
  ok <- io_allowed port size ;;
  (when negb ok do gp_fault 0) ;;;
  io_write port size v ;;;
  IoBpHit port.
End oper.
