(* ===== verification/X86Seg.v ===== *)
(** * Segments, gates, task switches and interrupt delivery (cpu/isa/x86/exec.c)

    Descriptor parsing and the segment-register loads with their protection
    checks, the TSS stack switch, task switching, the far transfers through
    code segments and gates, the returns, and the delivery of a vector
    through the real-mode table or the protected-mode gates. *)

From S2P Require Import Prelude Bus Ram RvState Run X86State X86Flags X86Mem X86Oper.

Record seg_view := SegView { v_base : Z; v_limit : Z; v_hi : Z; v_ar : Z; v_dbit : Z }.
Definition seg_null : seg_view := SegView 0 0 0 0 0.

(** The parts of a descriptor's access byte the checks read. *)
Definition dpl_of (a : Z) : Z := (a .>> 5) .& 3.
Definition view_dpl (v : seg_view) : Z := dpl_of (v_ar v).
Definition view_present (v : seg_view) : bool := tst (v_ar v) 0x80.
Definition view_conf (v : seg_view) : bool := tst (v_ar v) 4.
Definition view_code (v : seg_view) : bool := v_ar v .& 0x18 =? 0x18.
Definition view_wdata (v : seg_view) : bool := v_ar v .& 0x1a =? 0x12.
(** [v.ar = (v.ar & ~0x60) | (pl << 5)] *)
Definition view_set_dpl (v : seg_view) (pl : Z) : seg_view :=
  SegView (v_base v) (v_limit v) (v_hi v) (u8 ((v_ar v &~ 0x60) .| (pl .<< 5))) (v_dbit v).
(** A conforming segment runs at the privilege it was entered with. *)
Definition view_conform (v : seg_view) (pl : Z) : seg_view := if view_conf v then view_set_dpl v pl else v.

(** The eight bytes of a descriptor, taken apart. *)
Definition desc_view (desc : Z) : seg_view :=
  let lim := (desc .& 0xffff) .| ((desc .>> 32) .& 0xf0000) in
  SegView (((desc .>> 16) .& 0xffffff) .| (((desc .>> 56) .& 0xff) .<< 24))
    (if tst (desc .>> 55) 1 then u32 (lim .<< 12) .| 0xfff else lim)
    (u32 (desc .>> 32)) (u8 (desc .>> 40)) ((desc .>> 54) .& 1).

Definition is_null (sel : Z) : bool := sel .& 0xfffc =? 0.
Definition sel_err (sel : Z) : Z := sel &~ 3.
Definition is_tss_type (ty : Z) : bool := (ty =? 1) || (ty =? 3) || (ty =? 9) || (ty =? 0xb).

(** Vectors whose delivery pushes an error code. *)
Definition vec_has_ec (vec : Z) : bool :=
  (vec =? vec_df) || (vec =? vec_ts) || (vec =? vec_np) || (vec =? vec_ss) || (vec =? vec_gp) ||
  (vec =? vec_pf) || (vec =? vec_ac).
Definition int_is_fault (vec : Z) : bool :=
  negb (vec =? 1) && negb (vec =? 3) && negb (vec =? 4) && negb (vec =? 8) && negb (vec =? 18).

Inductive task_source := kTaskJmp | kTaskCall | kTaskIret.
#[export] Instance task_source_eq_dec : EqDecision task_source.
Proof. solve_decision. Defined.

(** A C [for] loop over a list of indices. *)
Fixpoint for_each {S A} (l : list A) (f : A -> M S unit) : M S unit :=
  match l with [] => mret' tt | a :: l => f a ;;; for_each l f end.

Section seg.
Context {Ops Dev W : Type} `{BusDevices Ops Dev W}.
#[local] Abbreviation XM := (M (XMach Ops Dev W)).

(** ** Descriptors *)

Definition desc_table (s : x86_state Dev) (sel : Z) : Z := if tst sel 4 then ldtr_base s else gdtr s.
Definition desc_addr (s : x86_state Dev) (sel : Z) : Z := u64 (desc_table s sel + (sel .>> 3) * 8).

Definition desc_parse (sel : Z) : XM seg_view :=
  s <- getst id ;;
  desc <- kbus_load (desc_addr s sel) 8 ;;
  mret' (desc_view desc).

Definition seg_synth (sel : Z) : XM seg_view :=
  vm <- flag fl_vm ;;
  mret' (SegView (sel .<< 4) 0xffff 0 (if vm : bool then 0xf3 else 0x93) 0).

Definition table_limit (s : x86_state Dev) (sel : Z) : Z := if tst sel 4 then ldtr_limit s else gdtr_limit s.
(** [(sel >> 3) * 8 + 7 > table_limit(sel)] *)
Definition outside_table (sel : Z) : XM bool := s <- getst id ;; mret' (table_limit s sel <? (sel .>> 3) * 8 + 7).

Definition seg_commit (seg sel : Z) (v : seg_view) : XM unit :=
  puta sreg seg sel ;;;
  puta base seg (v_base v) ;;;
  puta limit seg (v_limit v) ;;;
  puta ar seg (v_ar v) ;;;
  puta dbit seg (v_dbit v) ;;;
  p <- pe ;;
  vm <- flag fl_vm ;;
  s <- getst id ;;
  when p && negb vm && negb (is_null sel) && negb (tst (v_ar v) 1) do
    kbus_store (u64 (desc_addr s sel + 5)) 1 (u8 (v_ar v .| 1)).

(** Real mode and VM86 load without a table. *)
Definition table_free : XM bool := p <- pe ;; vm <- flag fl_vm ;; mret' (negb p || vm).
Definition load_synth (seg sel : Z) : XM unit := v <- seg_synth sel ;; seg_commit seg sel v.

(** ** Segment-register loads *)

Definition load_data (seg sel : Z) : XM unit :=
  free <- table_free ;;
  if free : bool then load_synth seg sel else
  if is_null sel then seg_commit seg sel seg_null else
  out <- outside_table sel ;;
  (when out : bool do gp_fault (sel_err sel)) ;;;
  v <- desc_parse sel ;;
  (when negb (tst (v_ar v) 0x10) || (tst (v_ar v) 8 && negb (tst (v_ar v) 2)) do gp_fault (sel_err sel)) ;;;
  c <- cpl ;;
  (when (view_dpl v <? c) || (view_dpl v <? sel .& 3) do gp_fault (sel_err sel)) ;;;
  (when negb (view_present v) do np_fault (sel_err sel)) ;;;
  seg_commit seg sel v.

Definition load_ss (sel : Z) : XM unit :=
  free <- table_free ;;
  if free : bool then load_synth ss_i sel else
  (when is_null sel do gp_fault 0) ;;;
  out <- outside_table sel ;;
  (when out : bool do ss_fault (sel_err sel)) ;;;
  v <- desc_parse sel ;;
  (when negb (view_wdata v) do ss_fault (sel_err sel)) ;;;
  c <- cpl ;;
  (when negb (view_dpl v =? c) || negb (sel .& 3 =? c) do gp_fault (sel_err sel)) ;;;
  (when negb (view_present v) do ss_fault (sel_err sel)) ;;;
  seg_commit ss_i sel v.

Definition load_cs (sel : Z) : XM unit :=
  free <- table_free ;;
  if free : bool then load_synth cs_i sel else
  (when is_null sel do gp_fault 0) ;;;
  out <- outside_table sel ;;
  (when out : bool do gp_fault (sel_err sel)) ;;;
  v <- desc_parse sel ;;
  (when negb (view_code v) do gp_fault (sel_err sel)) ;;;
  c <- cpl ;;
  (when (if view_conf v then c <? view_dpl v else negb (view_dpl v =? c) || (c <? sel .& 3))
   do gp_fault (sel_err sel)) ;;;
  (when negb (view_present v) do np_fault (sel_err sel)) ;;;
  seg_commit cs_i sel (view_conform v c).

(** The checks a return makes of its code and stack selectors. *)
Definition ret_cs_check (sel newpl : Z) : XM seg_view :=
  (when is_null sel do gp_fault 0) ;;;
  out <- outside_table sel ;;
  (when out : bool do gp_fault (sel_err sel)) ;;;
  cv <- desc_parse sel ;;
  (when negb (view_code cv) do gp_fault (sel_err sel)) ;;;
  (when (if view_conf cv then newpl <? view_dpl cv else negb (view_dpl cv =? newpl)) do gp_fault (sel_err sel)) ;;;
  (when negb (view_present cv) do np_fault (sel_err sel)) ;;;
  mret' cv.

Definition ret_ss_check (new_ss newpl : Z) : XM seg_view :=
  (when negb (new_ss .& 3 =? newpl) do gp_fault (sel_err new_ss)) ;;;
  (when is_null new_ss do gp_fault 0) ;;;
  out <- outside_table new_ss ;;
  (when out : bool do gp_fault (sel_err new_ss)) ;;;
  sv <- desc_parse new_ss ;;
  (when negb (view_wdata sv) do gp_fault (sel_err new_ss)) ;;;
  (when negb (view_dpl sv =? newpl) do gp_fault (sel_err new_ss)) ;;;
  (when negb (view_present sv) do ss_fault (sel_err new_ss)) ;;;
  mret' sv.

(** The ring stack of the current TSS: selector, pointer and view. *)
Definition tss_stack (newpl : Z) : XM (Z * Z * seg_view) :=
  s <- getst id ;;
  let ty := tr_ar s .& 0xf in
  (when negb (tst (tr_ar s) 0x80) || negb (is_tss_type ty) do ts_fault 0) ;;;
  let tss32 := tst ty 8 in
  esp0 <- (if tss32 then krd32 (u64 (tr_base s + 4 + 8 * newpl)) else krd16 (u64 (tr_base s + 2 + 4 * newpl))) ;;
  ss0 <- (if tss32 then krd16 (u64 (tr_base s + 8 + 8 * newpl)) else krd16 (u64 (tr_base s + 4 + 4 * newpl))) ;;
  (when is_null ss0 do ts_fault 0) ;;;
  out <- outside_table ss0 ;;
  (when out : bool do ts_fault (sel_err ss0)) ;;;
  sv <- desc_parse ss0 ;;
  (when negb (view_wdata sv) do ts_fault (sel_err ss0)) ;;;
  (when negb (view_dpl sv =? newpl) || negb (ss0 .& 3 =? newpl) do ts_fault (sel_err ss0)) ;;;
  (when negb (view_present sv) do ts_fault (sel_err ss0)) ;;;
  mret' (ss0, esp0, sv).

Definition put_ldtr (sel b lim : Z) : XM unit := put ldtr sel ;;; put ldtr_base b ;;; put ldtr_limit lim.

Definition load_ldtr (sel : Z) (task_switch : bool) : XM unit :=
  let fault := if task_switch then ts_fault (sel_err sel) else gp_fault (sel_err sel) in
  if is_null sel then put_ldtr sel 0 0 else
  (when tst sel 4 do fault) ;;;
  s <- getst id ;;
  (when gdtr_limit s <? (sel .>> 3) * 8 + 7 do fault) ;;;
  v <- desc_parse sel ;;
  (when negb (v_ar v .& 0x1f =? 0x02) do fault) ;;;
  (when negb (view_present v) do np_fault (sel_err sel)) ;;;
  put_ldtr sel (v_base v) (v_limit v).

(** ** Task switching *)

(** The outgoing task's dynamic fields, at the width its own TSS has. *)
Definition task_save (source : task_source) (next_eip : Z) : XM unit :=
  s <- getst id ;;
  let tb := tr_base s in
  let out16 := negb (tst (tr_ar s) 8) in
  let saved_fl := if bool_decide (source = kTaskIret) then fl s &~ 0x4000 else fl s in
  (if out16 then
     kwr16 (u64 (tb + 0x0e)) (u16 next_eip) ;;;
     kwr16 (u64 (tb + 0x10)) (u16 saved_fl) ;;;
     for_each (seqZ 0 8) (fun i => r <- getE i ;; kwr16 (u64 (tb + 0x12 + 2 * i)) (u16 r))
   else
     kwr32 (u64 (tb + 0x20)) next_eip ;;;
     kwr32 (u64 (tb + 0x24)) saved_fl ;;;
     for_each (seqZ 0 8) (fun i => r <- getE i ;; kwr32 (u64 (tb + 0x28 + 4 * i)) r)) ;;;
  for_each (seqZ 0 (if out16 then 4 else 6)) (fun i =>
    sel <- geta sreg i ;; kwr16 (u64 (tb + (if out16 then 0x22 + 2 * i else 0x48 + 4 * i))) sel).

(** The incoming CS: every defect is #TS, not-present #NP. *)
Definition task_cs (vb : Z) (tss16 : bool) : XM unit :=
  new_cs <- krd16 (u64 (vb + (if tss16 then 0x24 else 0x4c))) ;;
  vm <- flag fl_vm ;;
  cv <- (if vm : bool then seg_synth new_cs
         else
           (when is_null new_cs do ts_fault 0) ;;;
           out <- outside_table new_cs ;;
           (when out : bool do ts_fault (sel_err new_cs)) ;;;
           cv <- desc_parse new_cs ;;
           (when negb (view_code cv) do ts_fault (sel_err new_cs)) ;;;
           let nrpl := new_cs .& 3 in
           (when (if view_conf cv then nrpl <? view_dpl cv else negb (view_dpl cv =? nrpl))
            do ts_fault (sel_err new_cs)) ;;;
           (when negb (view_present cv) do np_fault (sel_err new_cs)) ;;;
           mret' (view_conform cv nrpl)) ;;
  seg_commit cs_i new_cs cv.

(** The incoming general registers and the remaining selectors. *)
Definition task_regs (vb : Z) (tss16 : bool) : XM unit :=
  for_each (seqZ 0 8) (fun i =>
    if tss16 then r <- krd16 (u64 (vb + 0x12 + 2 * i)) ;; old <- getE i ;; setE i ((old .& 0xffff0000) .| r)
    else r <- krd32 (u64 (vb + 0x28 + 4 * i)) ;; setE i r) ;;;
  (es <- krd16 (u64 (vb + (if tss16 then 0x22 else 0x48))) ;; load_data es_i es) ;;;
  (ss <- krd16 (u64 (vb + (if tss16 then 0x26 else 0x50))) ;; load_ss ss) ;;;
  (ds <- krd16 (u64 (vb + (if tss16 then 0x28 else 0x54))) ;; load_data ds_i ds) ;;;
  (fs <- (if tss16 then mret' 0 else krd16 (u64 (vb + 0x58))) ;; load_data fs_i fs) ;;;
  gs <- (if tss16 then mret' 0 else krd16 (u64 (vb + 0x5c))) ;; load_data gs_i gs.

(** [s->cr0 |= 8] *)
Definition set_ts : XM unit := c0 <- getst cr0 ;; put cr0 (c0 .| 8).

Definition do_task_switch (sel : Z) (source : task_source) (next_eip : Z) (has_ec : bool) (ec : Z) : XM unit :=
  (when is_null sel do gp_fault 0) ;;;
  (when tst sel 4 do gp_fault (sel_err sel)) ;;;
  s <- getst id ;;
  (when gdtr_limit s <? (sel .>> 3) * 8 + 7 do gp_fault (sel_err sel)) ;;;
  v <- desc_parse sel ;;
  let ty := v_ar v .& 0xf in
  (when tst (v_ar v) 0x10 || negb (is_tss_type ty) do gp_fault (sel_err sel)) ;;;
  (when bool_decide (source = kTaskIret) && negb (tst ty 2) do ts_fault (sel_err sel)) ;;;
  (when bool_decide (source <> kTaskIret) && tst ty 2 do gp_fault (sel_err sel)) ;;;
  (when negb (view_present v) do np_fault (sel_err sel)) ;;;
  let tss16 := negb (tst ty 8) in
  let vb := v_base v in
  (when v_limit v <? (if tss16 then 0x2b else 0x67) do np_fault (sel_err sel)) ;;;
  task_save source next_eip ;;;
  s <- getst id ;;
  (when bool_decide (source <> kTaskCall) do
     kbus_store (u64 (gdtr s + (tr s .>> 3) * 8 + 5)) 1 (u8 (tr_ar s &~ 2))) ;;;
  (when bool_decide (source <> kTaskIret) do
     kbus_store (u64 (gdtr s + (sel .>> 3) * 8 + 5)) 1 (u8 (v_ar v .| 2))) ;;;
  t <- (if tss16 then mret' 0 else krd8 vb) ;;
  setst bt_pending (tst t 1) ;;;
  (when bool_decide (source = kTaskCall) do (old <- getst tr ;; kwr16 vb old)) ;;;
  put tr sel ;;;
  put tr_base vb ;;;
  put tr_limit (v_limit v) ;;;
  put tr_ar (v_ar v .| 2) ;;;
  (when negb tss16 do (c3 <- krd32 (u64 (vb + 0x1c)) ;; put cr3 c3 ;;; modst TlbFlushNonGlobal)) ;;;
  l <- krd16 (u64 (vb + (if tss16 then 0x2a else 0x60))) ;;
  load_ldtr l true ;;;
  nf <- (if tss16 then krd16 (u64 (vb + 0x10)) else krd32 (u64 (vb + 0x24))) ;;
  setd d_rf_load true ;;;
  mod_fl (fun w => (w &~ (0x7fd7 .| 0x30000)) .| (nf .& (0x7fd7 .| 0x20000)) .| 2) ;;;
  (when bool_decide (source = kTaskCall) do set_flag fl_nt true) ;;;
  task_cs vb tss16 ;;;
  task_regs vb tss16 ;;;
  set_ts ;;;
  (when has_ec do kpush32 ec) ;;;
  ip <- (if tss16 then krd16 (u64 (vb + 0x0e)) else krd32 (u64 (vb + 0x20))) ;;
  SetEip ip.

(** The return address: [(uint32_t)(fr->rec.pc + d.nxt)]. *)
Definition next_ip : XM Z := m <- getS ;; mret' (u32 (xpc m + d_nxt (xd m))).

(** [esp] moved up by [n], at the stack's width. *)
Definition esp_add (n : Z) : XM unit :=
  big <- ss_big ;; sp <- getE esp_i ;; setE esp_i (sp_move big sp (sp + n)).

(** ** IRET in protected mode *)

(** The three words every IRET frame starts with. *)
Definition peek_frame (w : Z) : XM (Z * Z * Z) :=
  new_eip <- stack_peek w 0 ;;
  sel <- stack_peek w w ;;
  flv <- stack_peek w (2 * w) ;;
  mret' (new_eip, u16 sel, if w =? 4 then flv else flv .& 0xffff).

Definition iret_from_vm86 (w : Z) : XM unit :=
  s <- getst id ;;
  let vme := tst (cr4 s) kCr4Vme in
  io <- iopl ;;
  (when negb vme && negb (io =? 3) do gp_fault 0) ;;;
  f <- peek_frame w ;;
  let '(new_eip, sel, flv) := f in
  cv <- seg_synth sel ;;
  (when v_limit cv <? new_eip do gp_fault 0) ;;;
  seg_commit cs_i sel cv ;;;
  let mask := if w =? 4 then 0x14fd7 else 0x4fd7 in
  setd d_rf_load true ;;;
  mod_fl (fun x => (x &~ mask) .| (flv .& mask) .| 2) ;;;
  (when vme do
     (set_flag fl_vif (tst flv 0x200) ;;; set_flag fl_vip (tst flv 0x100000) ;;; set_flag fl_if true)) ;;;
  esp_add (w * 3) ;;;
  SetEip new_eip.

Definition iret_to_vm86 (w new_eip sel flv : Z) : XM unit :=
  c <- cpl ;;
  (when negb (c =? 0) do gp_fault 0) ;;;
  new_esp <- stack_peek w (3 * w) ;;
  new_ss <- stack_peek w (4 * w) ;;
  new_es <- stack_peek w (5 * w) ;;
  new_ds <- stack_peek w (6 * w) ;;
  new_fs <- stack_peek w (7 * w) ;;
  new_gs <- stack_peek w (8 * w) ;;
  setd d_rf_load true ;;;
  mod_fl (fun _ => flv .| 2) ;;;
  load_synth cs_i sel ;;;
  load_synth ss_i (u16 new_ss) ;;;
  load_synth es_i (u16 new_es) ;;;
  load_synth ds_i (u16 new_ds) ;;;
  load_synth fs_i (u16 new_fs) ;;;
  load_synth gs_i (u16 new_gs) ;;;
  setE esp_i new_esp ;;;
  SetEip (new_eip .& 0xffff).

Definition iret_protected (w new_eip sel flv : Z) : XM unit :=
  let newpl := sel .& 3 in
  c <- cpl ;;
  (when newpl <? c do gp_fault (sel_err sel)) ;;;
  let outer := c <? newpl in
  os <- (if outer then e <- stack_peek w (3 * w) ;; ss <- stack_peek w (4 * w) ;; mret' (e, u16 ss)
         else mret' (0, 0)) ;;
  let '(new_esp, new_ss) := os in
  cv <- ret_cs_check sel newpl ;;
  sv <- (if outer then ret_ss_check new_ss newpl else mret' seg_null) ;;
  c0 <- getst cr0 ;;
  let wide := outer || (c =? 0) in
  let mask := (if wide then 0x17fd7 else 0x0fd7) .| mif (wide && tst c0 kCr0Am) 0x40000 in
  setd d_rf_load true ;;;
  mod_fl (fun x => (x &~ (mask .| 0x30000)) .| (flv .& mask) .| 2) ;;;
  seg_commit cs_i sel (view_conform cv newpl) ;;;
  (if outer then setE esp_i new_esp ;;; seg_commit ss_i new_ss sv else esp_add (w * 3)) ;;;
  SetEip new_eip.

Definition pm_iret : XM unit :=
  w <- opsize ;;
  vm <- flag fl_vm ;;
  if vm : bool then iret_from_vm86 w else
  nt <- flag fl_nt ;;
  if nt : bool then
    s <- getst id ;;
    let ty := tr_ar s .& 0xf in
    (when negb (tst (tr_ar s) 0x80) || negb (is_tss_type ty) do ts_fault 0) ;;;
    back <- krd16 (tr_base s) ;;
    (when is_null back do ts_fault 0) ;;;
    ip <- next_ip ;;
    do_task_switch back kTaskIret ip false 0
  else
    f <- peek_frame w ;;
    let '(new_eip, sel, flv) := f in
    if tst flv 0x20000 then iret_to_vm86 w new_eip sel flv else iret_protected w new_eip sel flv.

(** ** Far transfers *)

(** The parameters of a call gate, read off the caller's stack. *)
Fixpoint gate_params (old_esp w : Z) (n : nat) (i : Z) : XM (list Z) :=
  match n with
  | O => mret' []
  | S n =>
      big <- ss_big ;;
      let o := sp_off big (old_esp + w * i) in
      seg_use ss_i o w false ;;;
      b <- geta base ss_i ;;
      p <- (if w =? 4 then rd32 (u64 (b + o)) else rd16 (u64 (b + o))) ;;
      ps <- gate_params old_esp w n (i + 1) ;;
      mret' (p :: ps)
  end.

(** A push of the processor's own, 16 or 32 bits wide. *)
Definition kpush_n (w16 : bool) (v : Z) : XM unit := if w16 then kpush16 (u16 v) else kpush32 v.

(** The 16- or 32-bit offset field of a gate. *)
Definition gate_off (desc : Z) : Z := (desc .& 0xffff) .| (((desc .>> 48) .& 0xffff) .<< 16).

Definition call_gate (sel desc : Z) (is_call : bool) (ret_eip ret_cs : Z) : XM unit :=
  let gate16 := (desc .>> 40) .& 0xf =? 4 in
  let gdpl := (desc .>> 45) .& 3 in
  c <- cpl ;;
  (when (gdpl <? c) || (gdpl <? sel .& 3) do gp_fault (sel_err sel)) ;;;
  (when negb (tst (desc .>> 47) 1) do np_fault (sel_err sel)) ;;;
  let code_sel := u16 (desc .>> 16) in
  let off := gate_off desc in
  let count := (desc .>> 32) .& 0x1f in
  (when is_null code_sel do gp_fault 0) ;;;
  out <- outside_table code_sel ;;
  (when out : bool do gp_fault (sel_err code_sel)) ;;;
  cv <- desc_parse code_sel ;;
  (when negb (view_code cv) do gp_fault (sel_err code_sel)) ;;;
  c <- cpl ;;
  let tdpl := view_dpl cv in
  (when c <? tdpl do gp_fault (sel_err code_sel)) ;;;
  let switched := negb (view_conf cv) && (tdpl <? c) in
  (when switched && negb is_call do gp_fault (sel_err code_sel)) ;;;
  let newpl := if switched then tdpl else c in
  stk <- (if switched then tss_stack newpl else mret' (0, 0, seg_null)) ;;
  let '(ss0, esp0, sv) := stk in
  old_esp <- getE esp_i ;;
  old_ss <- geta sreg ss_i ;;
  params <- (if switched && is_call then gate_params old_esp (if gate16 then 2 else 4) (Z.to_nat count) 0
             else mret' []) ;;
  (when switched do (setE esp_i esp0 ;;; seg_commit ss_i ss0 sv)) ;;;
  (when is_call do
     ((when switched do
         (kpush_n gate16 old_ss ;;; kpush_n gate16 old_esp ;;; for_each (rev params) (kpush_n gate16))) ;;;
      kpush_n gate16 ret_cs ;;;
      kpush_n gate16 ret_eip)) ;;;
  seg_commit cs_i (u16 (sel_err code_sel .| newpl)) (view_conform cv newpl) ;;;
  SetEip (if gate16 then off .& 0xffff else off).

(** The direct form: CS, the return frame of a call, then the target. *)
Definition far_direct (sel off : Z) (is_call : bool) (ret_eip ret_cs : Z) : XM unit :=
  load_cs sel ;;;
  (when is_call do (push_w ret_cs ;;; push_w ret_eip)) ;;;
  SetEip off.

Definition pm_far (sel off : Z) (is_call : bool) (ret_eip : Z) : XM unit :=
  ret_cs <- geta sreg cs_i ;;
  free <- table_free ;;
  if free : bool then far_direct sel off is_call ret_eip ret_cs else
  (when is_null sel do gp_fault 0) ;;;
  out <- outside_table sel ;;
  (when out : bool do gp_fault (sel_err sel)) ;;;
  s <- getst id ;;
  desc <- kbus_load (desc_addr s sel) 8 ;;
  if tst (desc .>> 44) 1 then far_direct sel off is_call ret_eip ret_cs else
  let ty := (desc .>> 40) .& 0xf in
  let gdpl := (desc .>> 45) .& 3 in
  if (ty =? 4) || (ty =? 0xc) then call_gate sel desc is_call ret_eip ret_cs else
  (when tst sel 4 do gp_fault (sel_err sel)) ;;;
  c <- cpl ;;
  (when (gdpl <? c) || (gdpl <? sel .& 3) do gp_fault (sel_err sel)) ;;;
  (when negb (tst (desc .>> 47) 1) do np_fault (sel_err sel)) ;;;
  let source := if is_call then kTaskCall else kTaskJmp in
  if ty =? 5 then do_task_switch (u16 (desc .>> 16)) source ret_eip false 0
  else if is_tss_type ty then do_task_switch sel source ret_eip false 0
  else gp_fault (sel_err sel).

Definition pm_ret (n : Z) : XM unit :=
  w <- opsize ;;
  new_eip <- stack_peek w 0 ;;
  sel <- stack_peek w w ;;
  let sel := u16 sel in
  let newpl := sel .& 3 in
  c <- cpl ;;
  (when newpl <? c do gp_fault (sel_err sel)) ;;;
  let outer := c <? newpl in
  let saved := u32 (2 * w + (if outer then n else 0)) in
  os <- (if outer then e <- stack_peek w saved ;; ss <- stack_peek w (u32 (saved + w)) ;; mret' (e, u16 ss)
         else mret' (0, 0)) ;;
  let '(new_esp, new_ss) := os in
  cv <- ret_cs_check sel newpl ;;
  sv <- (if outer then ret_ss_check new_ss newpl else mret' seg_null) ;;
  seg_commit cs_i sel (view_conform cv newpl) ;;;
  esp_add (2 * w + n) ;;;
  (when outer do
     (setE esp_i new_esp ;;; seg_commit ss_i new_ss sv ;;; sp <- getE esp_i ;; setE esp_i (sp + n))) ;;;
  SetEip new_eip.

(** ** Delivering a vector *)

(** The real-mode table at IDTR. *)
Definition int_real (vec ret_eip eflags_img : Z) : XM unit :=
  s <- getst id ;;
  let tbl := u64 (idtr s + vec * 4) in
  off <- krd16 tbl ;;
  seg <- krd16 (u64 (tbl + 2)) ;;
  kpush16 eflags_img ;;;
  (cs <- geta sreg cs_i ;; kpush16 cs) ;;;
  kpush16 ret_eip ;;;
  set_flag fl_if false ;;;
  set_flag fl_tf false ;;;
  load_synth cs_i seg ;;;
  SetEip off ;;;
  setd d_delivered true.

(** The frame a gate pushes: the VM86 segments and the old stack on a switch,
    then flags, CS and IP, then the error code. *)
Definition int_frame (gate16 switched : bool) (old_ss old_esp old_cs ret_eip eflags_img : Z)
    (ec : option Z) : XM unit :=
  vm <- flag fl_vm ;;
  (when switched do
     ((when vm : bool do
         for_each [gs_i; fs_i; ds_i; es_i] (fun i => sel <- geta sreg i ;; kpush_n gate16 sel)) ;;;
      kpush_n gate16 old_ss ;;;
      kpush_n gate16 old_esp)) ;;;
  kpush_n gate16 eflags_img ;;;
  kpush_n gate16 old_cs ;;;
  kpush_n gate16 ret_eip ;;;
  match ec with Some c => kpush_n gate16 c | None => mret' tt end.

Definition int_gate (vec ret_eip : Z) (origin : int_origin) (ec eflags_img : Z) : XM unit :=
  let soft := bool_decide (origin = kIntSoft) in
  let ext := b2z (bool_decide (origin = kIntExternal)) in
  let pushes_ec := vec_has_ec vec && bool_decide (origin = kIntException) in
  s <- getst id ;;
  let gate_idx := u32 (vec * 8) in
  (when idtr_limit s <? gate_idx + 7 do gp_fault (gate_idx .| 2 .| ext)) ;;;
  gate <- kbus_load (u64 (idtr s + gate_idx)) 8 ;;
  let gt := (gate .>> 40) .& 0xf in
  c <- cpl ;;
  (when soft && ((gate .>> 45) .& 3 <? c) do gp_fault (gate_idx .| 2)) ;;;
  (when negb (gt =? 6) && negb (gt =? 7) && negb (gt =? 0xe) && negb (gt =? 0xf) && negb (gt =? 5)
   do gp_fault (gate_idx .| 2 .| ext)) ;;;
  (when negb (tst (gate .>> 47) 1) do np_fault (gate_idx .| 2 .| ext)) ;;;
  if gt =? 5 then
    do_task_switch (u16 (gate .>> 16)) kTaskCall ret_eip pushes_ec ec ;;;
    setd d_delivered true
  else
    let gate16 := (gt =? 6) || (gt =? 7) in
    let code_sel := u16 (gate .>> 16) in
    let off := gate_off gate in
    (when is_null code_sel do gp_fault 0) ;;;
    out <- outside_table code_sel ;;
    (when out : bool do gp_fault (sel_err code_sel)) ;;;
    cv <- desc_parse code_sel ;;
    (when negb (view_code cv) do gp_fault (sel_err code_sel)) ;;;
    let tdpl := view_dpl cv in
    c <- cpl ;;
    (when c <? tdpl do gp_fault (sel_err code_sel)) ;;;
    vm <- flag fl_vm ;;
    (when vm && (view_conf cv || negb (tdpl =? 0)) do gp_fault (sel_err code_sel)) ;;;
    (when vm && gate16 do gp_fault (sel_err code_sel)) ;;;
    let newpl := if negb (view_conf cv) && (tdpl <? c) then tdpl else c in
    let switched := newpl <? c in
    old_ss <- geta sreg ss_i ;;
    old_esp <- getE esp_i ;;
    old_cs <- geta sreg cs_i ;;
    (when switched do
       (stk <- tss_stack newpl ;;
        let '(ss0, esp0, sv) := stk in
        setE esp_i esp0 ;;; seg_commit ss_i ss0 sv)) ;;;
    seg_commit cs_i (u16 (sel_err code_sel .| newpl)) (view_conform cv newpl) ;;;
    int_frame gate16 switched old_ss old_esp old_cs ret_eip eflags_img (if pushes_ec then Some ec else None) ;;;
    (vm <- flag fl_vm ;;
     when vm : bool do for_each [gs_i; fs_i; ds_i; es_i] (fun i => seg_commit i 0 seg_null)) ;;;
    set_flag fl_tf false ;;;
    set_flag fl_nt false ;;;
    set_flag fl_vm false ;;;
    (when (gt =? 6) || (gt =? 0xe) do set_flag fl_if false) ;;;
    SetEip (if gate16 then off .& 0xffff else off) ;;;
    setd d_delivered true.

Definition do_int (vec ret_eip : Z) (origin : int_origin) (ec : Z) : XM unit :=
  w <- getst fl ;;
  let eflags_img := w .| 2 .| mif (bool_decide (origin = kIntException) && int_is_fault vec) 0x10000 in
  p <- pe ;;
  if negb p then int_real vec ret_eip eflags_img
  else int_gate vec ret_eip origin ec eflags_img.
End seg.
