(* ===== verification/X86Fpu.v ===== *)
(** * The x87 register file and its memory images (cpu/isa/x86/fpu.c)

    The register stack with its tag word, the exception summary, the
    comparisons and classifications that need no arithmetic, and the
    FSTENV/FNSAVE/FXSAVE images. *)

From S2P Require Import Prelude Bus Ram RvState Run X86State.

Definition kFpuIe := 2 ^ 0.
Definition kFpuDe := 2 ^ 1.
Definition kFpuZe := 2 ^ 2.
Definition kFpuOe := 2 ^ 3.
Definition kFpuUe := 2 ^ 4.
Definition kFpuPe := 2 ^ 5.
Definition kFpuSf := 2 ^ 6.
Definition kFpuEs := 2 ^ 7.
Definition kFpuC0 := 2 ^ 8.
Definition kFpuC1 := 2 ^ 9.
Definition kFpuC2 := 2 ^ 10.
Definition kFpuC3 := 2 ^ 14.
Definition kFpuTopShift := 11.
Definition kFpuTopMask := Eval cbv in 7 .<< kFpuTopShift.
Definition kFpuTagValid := 0.
Definition kFpuTagZero := 1.
Definition kFpuTagSpecial := 2.
Definition kFpuTagEmpty := 3.
(** The six exception flags. *)
Definition kFpuExc := Eval cbv in kFpuIe .| kFpuDe .| kFpuZe .| kFpuOe .| kFpuUe .| kFpuPe.

Definition kIndefinite : ext80 := mkExt80 0xc000000000000000 0xffff.
Definition kOne : ext80 := mkExt80 0x8000000000000000 0x3fff.
Definition kZero : ext80 := mkExt80 0 0.
Definition kFldConst : list ext80 :=
  [mkExt80 0x8000000000000000 0x3fff; mkExt80 0xd49a784bcd1b8afe 0x4000; mkExt80 0xb8aa3b295c17f0bc 0x3fff;
   mkExt80 0xc90fdaa22168c235 0x4000; mkExt80 0x9a209a84fbcff799 0x3ffd; mkExt80 0xb17217f7d1cf79ac 0x3ffe;
   mkExt80 0 0].
#[export] Instance ext80_inhabited : Inhabited ext80 := populate kZero.
#[export] Instance ext80_eq_dec : EqDecision ext80.
Proof. solve_decision. Defined.

(** ** Classes of a value *)

Definition F80IsZero (v : ext80) : bool := (signExp v .& 0x7fff =? 0) && (signif v =? 0).
Definition F80IsInf (v : ext80) : bool := (signExp v .& 0x7fff =? 0x7fff) && (signif v =? 0x8000000000000000).
Definition F80IsNan (v : ext80) : bool := (signExp v .& 0x7fff =? 0x7fff) && negb (signif v =? 0x8000000000000000).
Definition F80IsSnan (v : ext80) : bool := F80IsNan v && negb (tst (signif v) 0x4000000000000000).
Definition F80IsDenormal (v : ext80) : bool := (signExp v .& 0x7fff =? 0) && negb (signif v =? 0).
Definition F80Sign (v : ext80) : bool := tst (signExp v .>> 15) 1.

Definition TagOf (v : ext80) : Z :=
  if F80IsZero v then kFpuTagZero
  else if F80IsNan v || F80IsInf v || F80IsDenormal v then kFpuTagSpecial
  else kFpuTagValid.

(** ** The stack *)

Implicit Types f : x86_fpu.

Definition fpu_top f : Z := (f_sw f .>> kFpuTopShift) .& 7.
Definition fpu_set_top f (top : Z) : x86_fpu :=
  f <| f_sw := u16 ((f_sw f &~ kFpuTopMask) .| ((top .& 7) .<< kFpuTopShift)) |>.
Definition fpu_tag f (physical : Z) : Z := (f_tw f .>> (2 * physical)) .& 3.
(** Replace one 2-bit tag. *)
Definition tag_put (tw physical t : Z) : Z := u16 ((tw &~ (3 .<< (2 * physical))) .| (t .<< (2 * physical))).
Definition fpu_mark f (physical : Z) : x86_fpu :=
  f <| f_tw := tag_put (f_tw f) physical (TagOf (arr (f_st f) physical)) |>.

Definition UpdateEs f : x86_fpu :=
  let unmasked := (f_sw f .& kFpuExc) .& u16 (Z.lnot (f_cw f)) in
  f <| f_sw := (f_sw f &~ kFpuEs) .| (if negb (unmasked =? 0) then kFpuEs else 0) |>
    <| f_pending_mf := negb (unmasked =? 0) |>.
Definition fpu_refresh f : x86_fpu := UpdateEs f.

Definition fpu_note_denormal f (v : ext80) : x86_fpu :=
  if F80IsDenormal v then UpdateEs (f <| f_sw := f_sw f .| kFpuDe |>) else f.

Definition fpu_init : x86_fpu :=
  mkFpu (replicate 8 kZero) 0x037f 0 0xffff 0 0 0 0 0 0x1f80 0xffff (replicate 8 (replicate 16 0)) false.

Definition fpu_finit f : x86_fpu :=
  f <| f_cw := 0x037f |> <| f_sw := 0 |> <| f_tw := 0xffff |> <| f_fip := 0 |> <| f_fdp := 0 |>
    <| f_fcs := 0 |> <| f_fds := 0 |> <| f_fop := 0 |> <| f_pending_mf := false |>.

(** Stack underflow: IE and SF, C1 clear. *)
Definition fpu_underflow f : x86_fpu := UpdateEs (f <| f_sw := (f_sw f .| (kFpuIe .| kFpuSf)) &~ kFpuC1 |>).

Definition fpu_phys f (i : Z) : Z := (fpu_top f + i) .& 7.

Definition fpu_get f (i : Z) : ext80 * x86_fpu :=
  let p := fpu_phys f i in
  if fpu_tag f p =? kFpuTagEmpty then (kIndefinite, fpu_underflow f) else (arr (f_st f) p, f).

Definition fpu_put f (p : Z) (v : ext80) : x86_fpu := fpu_mark (f <| f_st := arr_set (f_st f) p v |>) p.
Definition fpu_set f (i : Z) (v : ext80) : x86_fpu := fpu_put f (fpu_phys f i) v.

Definition fpu_push f (v : ext80) : x86_fpu :=
  let nt := (fpu_top f - 1) .& 7 in
  let '(v, f) := if negb (fpu_tag f nt =? kFpuTagEmpty)
                 then (kIndefinite, UpdateEs (f <| f_sw := f_sw f .| (kFpuIe .| kFpuSf .| kFpuC1) |>))
                 else (v, f) in
  fpu_set_top (fpu_put f nt v) nt.

Definition fpu_pop f : x86_fpu :=
  let t := fpu_top f in
  let f := if fpu_tag f t =? kFpuTagEmpty then fpu_underflow f else f in
  fpu_set_top (f <| f_tw := tag_put (f_tw f) t kFpuTagEmpty |>) ((t + 1) .& 7).

Definition fpu_free f (i : Z) : x86_fpu := f <| f_tw := tag_put (f_tw f) (fpu_phys f i) kFpuTagEmpty |>.

Definition fpu_clear_c1 f : x86_fpu := f <| f_sw := f_sw f &~ kFpuC1 |>.

Definition fpu_exchange f (i : Z) : x86_fpu :=
  let t := fpu_top f in
  let p := fpu_phys f i in
  let vt := arr (f_st f) t in
  let vp := arr (f_st f) p in
  let tt := fpu_tag f t in
  let tp := fpu_tag f p in
  fpu_clear_c1
    (f <| f_st := arr_set (arr_set (f_st f) t vp) p vt |>
       <| f_tw := u16 ((f_tw f &~ ((3 .<< (2 * t)) .| (3 .<< (2 * p)))) .| (tp .<< (2 * t)) .| (tt .<< (2 * p))) |>).

Definition fpu_fdecstp f : x86_fpu := fpu_clear_c1 (fpu_set_top f ((fpu_top f - 1) .& 7)).
Definition fpu_fincstp f : x86_fpu := fpu_clear_c1 (fpu_set_top f ((fpu_top f + 1) .& 7)).
Definition fpu_load_const f (which : Z) : x86_fpu := fpu_push f (arr kFldConst which).

Definition fpu_change_sign f : x86_fpu :=
  let '(v, f) := fpu_get f 0 in
  fpu_clear_c1 (fpu_set f 0 (mkExt80 (signif v) (signExp v .^ 0x8000))).
Definition fpu_abs f : x86_fpu :=
  let '(v, f) := fpu_get f 0 in
  fpu_clear_c1 (fpu_set f 0 (mkExt80 (signif v) (signExp v .& 0x7fff))).

(** ** Comparison *)

Definition CompareBits (a b : ext80) : Z :=
  if F80IsNan a || F80IsNan b then kFpuC3 .| kFpuC2 .| kFpuC0
  else if F80IsZero a && F80IsZero b then kFpuC3
  else if negb (eqb (F80Sign a) (F80Sign b)) then (if F80Sign a then kFpuC0 else 0)
  else
    let ae := signExp a .& 0x7fff in
    let be := signExp b .& 0x7fff in
    let verdict less := if xorb less (F80Sign a) then kFpuC0 else 0 in
    if negb (ae =? be) then verdict (ae <? be)
    else if negb (signif a =? signif b) then verdict (signif a <? signif b)
    else kFpuC3.

Definition kFpuCond := Eval cbv in kFpuC0 .| kFpuC1 .| kFpuC2 .| kFpuC3.
Definition cmp_unordered (a b : ext80) : bool := F80IsNan a || F80IsNan b.
Definition cmp_invalid (a b : ext80) (quiet : bool) : bool :=
  if cmp_unordered a b then negb quiet || F80IsSnan a || F80IsSnan b else false.
Definition fpu_raise_ie f (c : bool) : x86_fpu := if c then f <| f_sw := f_sw f .| kFpuIe |> else f.

Definition fpu_compare f (b : ext80) (quiet : bool) : x86_fpu :=
  let '(a, f) := fpu_get f 0 in
  let f := fpu_raise_ie f (cmp_invalid a b quiet) in
  let c := if cmp_unordered a b then kFpuC3 .| kFpuC2 .| kFpuC0 else CompareBits a b in
  UpdateEs (f <| f_sw := (f_sw f &~ kFpuCond) .| c |>).

(** CF, PF and ZF as EFLAGS bits. *)
Definition fpu_compare_i f (b : ext80) (quiet : bool) : Z * x86_fpu :=
  let '(a, f) := fpu_get f 0 in
  let f := UpdateEs (fpu_raise_ie f (cmp_invalid a b quiet)) in
  let cc := CompareBits a b in
  (if cmp_unordered a b then 2 ^ 0 .| 2 ^ 2 .| 2 ^ 6
   else if tst cc kFpuC3 then 2 ^ 6
   else if tst cc kFpuC0 then 2 ^ 0
   else 0, f).

Definition fpu_test f : x86_fpu := fpu_compare f kZero false.

Definition fpu_examine f : x86_fpu :=
  let p := fpu_top f in
  let v := arr (f_st f) p in
  let sw := (f_sw f &~ kFpuCond) .| (if F80Sign v then kFpuC1 else 0) in
  f <| f_sw := sw .|
    (if fpu_tag f p =? kFpuTagEmpty then kFpuC3 .| kFpuC2 .| kFpuC0
     else if F80IsNan v then kFpuC0
     else if F80IsZero v then kFpuC3
     else if F80IsInf v then kFpuC2 .| kFpuC0
     else if F80IsDenormal v then kFpuC3 .| kFpuC2
     else kFpuC2) |>.

(** ** Images

    A buffer is a list of bytes; [PutN] stores little-endian at an offset. *)

Definition blit (buf : list Z) (off : nat) (bs : list Z) : list Z :=
  take off buf ++ bs ++ drop (off + length bs) buf.
Definition slice (buf : list Z) (off n : nat) : list Z := take n (drop off buf).
Definition Put16 (buf : list Z) (off : nat) (v : Z) : list Z := blit buf off (le_bytes 2 v).
Definition Put32 (buf : list Z) (off : nat) (v : Z) : list Z := blit buf off (le_bytes 4 v).
Definition Get16 (buf : list Z) (off : nat) : Z := le_val (slice buf off 2).
Definition Get32 (buf : list Z) (off : nat) : Z := le_val (slice buf off 4).
Definition Put64 (buf : list Z) (off : nat) (v : Z) : list Z := blit buf off (le_bytes 8 v).
Definition Get64 (buf : list Z) (off : nat) : Z := le_val (slice buf off 8).

Definition fpu_store_env f (wide : bool) : list Z :=
  if wide then
    let out := Put32 (replicate 28 0) 0 (0xffff0000 .| f_cw f) in
    let out := Put32 out 4 (0xffff0000 .| f_sw f) in
    let out := Put32 out 8 (0xffff0000 .| f_tw f) in
    let out := Put32 out 12 (f_fip f) in
    let out := Put16 out 16 (f_fcs f) in
    let out := Put16 out 18 (f_fop f) in
    let out := Put32 out 20 (f_fdp f) in
    Put16 out 24 (f_fds f)
  else
    let out := Put16 (replicate 14 0) 0 (f_cw f) in
    let out := Put16 out 2 (f_sw f) in
    let out := Put16 out 4 (f_tw f) in
    let out := Put16 out 6 (u16 (f_fip f)) in
    let out := Put16 out 8 (f_fcs f) in
    let out := Put16 out 10 (u16 (f_fdp f)) in
    Put16 out 12 (f_fds f).

Definition fpu_load_env f (inp : list Z) (wide : bool) : x86_fpu :=
  let f :=
    if wide then
      f <| f_cw := Get16 inp 0 |> <| f_sw := Get16 inp 4 |> <| f_tw := Get16 inp 8 |> <| f_fip := Get32 inp 12 |>
        <| f_fcs := Get16 inp 16 |> <| f_fop := Get16 inp 18 |> <| f_fdp := Get32 inp 20 |> <| f_fds := Get16 inp 24 |>
    else
      f <| f_cw := Get16 inp 0 |> <| f_sw := Get16 inp 2 |> <| f_tw := Get16 inp 4 |> <| f_fip := Get16 inp 6 |>
        <| f_fcs := Get16 inp 8 |> <| f_fdp := Get16 inp 10 |> <| f_fds := Get16 inp 12 |> in
  UpdateEs (fpu_set_top f (fpu_top f)).

(** The register images at [off + i * stride], in stack order. *)
Definition put_st f (off stride : nat) (out : list Z) : list Z :=
  fold_left (fun out i =>
    let v := arr (f_st f) (fpu_phys f (Z.of_nat i)) in
    let out := Put32 out (off + i * stride) (u32 (signif v)) in
    let out := Put32 out (off + i * stride + 4) (u32 (signif v .>> 32)) in
    Put16 out (off + i * stride + 8) (signExp v)) (seq 0 8) out.
Definition get_st (inp : list Z) (off stride : nat) f : x86_fpu :=
  fold_left (fun f i =>
    let v := mkExt80 (Get32 inp (off + i * stride) .| (Get32 inp (off + i * stride + 4) .<< 32))
                     (Get16 inp (off + i * stride + 8)) in
    f <| f_st := arr_set (f_st f) (fpu_phys f (Z.of_nat i)) v |>) (seq 0 8) f.

Definition fpu_store_state f (wide : bool) : list Z :=
  let n := if wide then 28%nat else 14%nat in
  put_st f n 10 (fpu_store_env f wide ++ replicate 80 0).

Definition fpu_load_state f (inp : list Z) (wide : bool) : x86_fpu :=
  let n := if wide then 28%nat else 14%nat in
  let tw := Get16 inp (if wide then 8%nat else 4%nat) in
  UpdateEs ((get_st inp n 10 (fpu_load_env f inp wide)) <| f_tw := tw |>).

(** The abridged tag word: one bit per physical register. *)
Definition abridged f : Z :=
  fold_left (fun tw i => if negb (fpu_tag f i =? kFpuTagEmpty) then tw .| 2 ^ i else tw) (seqZ 0 8) 0.

Definition fpu_fxsave f : list Z :=
  let out := Put16 (replicate 512 0) 0 (f_cw f) in
  let out := Put16 out 2 (f_sw f) in
  let out := Put16 out 4 (abridged f) in
  let out := Put16 out 6 (f_fop f) in
  let out := Put32 out 8 (f_fip f) in
  let out := Put16 out 12 (f_fcs f) in
  let out := Put32 out 16 (f_fdp f) in
  let out := Put16 out 20 (f_fds f) in
  let out := Put32 out 24 (f_mxcsr f) in
  let out := Put32 out 28 (f_mxcsr_mask f) in
  let out := put_st f 32 16 out in
  fold_left (fun out i => blit out (160 + i * 16) (f_xmm f !!! i)) (seq 0 8) out.

Definition fpu_fxrstor f (inp : list Z) : x86_fpu :=
  let f := f <| f_cw := Get16 inp 0 |> <| f_sw := Get16 inp 2 |> <| f_fop := Get16 inp 6 |>
             <| f_fip := Get32 inp 8 |> <| f_fcs := Get16 inp 12 |> <| f_fdp := Get32 inp 16 |>
             <| f_fds := Get16 inp 20 |> <| f_mxcsr := Get32 inp 24 |> in
  let f := get_st inp 32 16 f in
  let tw := fold_left (fun tw i =>
      tw .| ((if tst (inp !!! 4%nat) (2 ^ i) then TagOf (arr (f_st f) i) else kFpuTagEmpty) .<< (2 * i)))
      (seqZ 0 8) 0 in
  let f := f <| f_tw := u16 tw |> <| f_xmm := (fun i => slice inp (160 + i * 16) 16) <$> seq 0 8 |> in
  UpdateEs f.
