(* ===== verification/X86Sys.v ===== *)
(** * Model-specific registers, counters and the FPU error line (cpu/isa/x86/exec.c)

    The time stamp counter, the MSR bank, the architectural performance
    counters, CPUID and the FERR# output. *)

From S2P Require Import Prelude Bus Ram RvState Run X86State X86Flags X86Mem X86Oper X86Seg.

Section sys.
Context {Ops Dev W : Type} `{BusDevices Ops Dev W, X86Pins W}.
#[local] Abbreviation XM := (M (XMach Ops Dev W)).

(** [HostTimerNow() * 1000 + inst_count] *)
Definition tsc_base : XM Z := m <- getS ;; mret' (u64 (HostTimerNow (xclock m) * 1000 + inst_count (xcpu m))).
Definition TscNow : XM Z := b <- tsc_base ;; off <- getst tsc_offset ;; mret' (u64 (off + b)).

(** ** Performance counters *)

Definition perf_mask (s : x86_state Dev) : Z :=
  let gen i := tst (perf_global_ctrl s) (2 ^ i) && tst (arr (perf_evtsel s) i) (2 ^ 22) in
  let fix_ i := tst (perf_global_ctrl s) (2 ^ (32 + i)) && tst (perf_fixed_ctrl s .>> (2 * i)) 7 in
  let m := fold_left (fun m i => if gen i then m .| 2 ^ i else m) [0; 1] 0 in
  fold_left (fun m i => if fix_ i then m .| 2 ^ (2 + i) else m) [0; 1; 2] m.
Definition PerfUpdateActive : XM unit := s <- getst id ;; put perf_active (perf_mask s).

(** One general counter, one fixed counter. *)
Definition count_general (ring i : Z) : XM unit :=
  s <- getst id ;;
  if negb (tst (perf_active s) (2 ^ i)) then mret' tt else
  let sel := arr (perf_evtsel s) i in
  if negb (tst sel (2 ^ 16) && (ring =? 0)) && negb (tst sel (2 ^ 17) && negb (ring =? 0)) then mret' tt else
  let ev := u32 sel .& 0xff in
  when (ev =? 0xc0) || (ev =? 0x3c) do
    (let n := u64 (arr (perf_pmc s) i + 1) in
     puta perf_pmc i n ;;;
     when n =? 0 do put perf_global_status (perf_global_status s .| 2 ^ i)).
Definition count_fixed (ring i : Z) : XM unit :=
  s <- getst id ;;
  if negb (tst (perf_active s) (2 ^ (2 + i))) then mret' tt else
  let mode := (perf_fixed_ctrl s .>> (2 * i)) .& 7 in
  let on := (tst mode 1 && (ring =? 0)) || (tst mode 2 && negb (ring =? 0)) || tst mode 4 in
  when on do
    (let n := u64 (arr (perf_fixed_ctr s) i + 1) in
     puta perf_fixed_ctr i n ;;;
     when n =? 0 do put perf_global_status (perf_global_status s .| 2 ^ (32 + i))).

Definition x86_count_perf : XM unit :=
  s <- getst id ;;
  if perf_active s =? 0 then mret' tt else
  ring <- cpl ;;
  for_each [0; 1] (count_general ring) ;;;
  for_each [0; 1; 2] (count_fixed ring).

(** ** The MSR bank *)

Definition MsrRead (idx : Z) : XM Z :=
  s <- getst id ;;
  if idx =? 0x10 then TscNow
  else if idx =? 0x1b then mret' (msr_apic_base s)
  else if idx =? 0xfe then mret' 0x501
  else if idx =? 0x179 then mret' 0x101
  else if idx =? 0x17a then mret' (mcg_status s)
  else if idx =? 0x17b then mret' (mcg_ctl s)
  else if idx =? 0x174 then mret' (sysenter_cs s)
  else if idx =? 0x175 then mret' (sysenter_esp s)
  else if idx =? 0x176 then mret' (sysenter_eip s)
  else if (idx =? 0x186) || (idx =? 0x187) then geta perf_evtsel (idx - 0x186)
  else if (idx =? 0xc1) || (idx =? 0xc2) then geta perf_pmc (idx - 0xc1)
  else if (0x200 <=? idx) && (idx <=? 0x20f) then
    (if tst idx 1 then geta mtrr_physmask ((idx - 0x200) .>> 1) else geta mtrr_physbase ((idx - 0x200) .>> 1))
  else if idx =? 0x277 then mret' (pat s)
  else if idx =? 0x2ff then mret' (mtrr_def_type s)
  else if (0x309 <=? idx) && (idx <=? 0x30b) then geta perf_fixed_ctr (idx - 0x309)
  else if idx =? 0x345 then mret' 0
  else if idx =? 0x38d then mret' (perf_fixed_ctrl s)
  else if idx =? 0x38e then mret' (perf_global_status s)
  else if idx =? 0x38f then mret' (perf_global_ctrl s)
  else if idx =? 0x400 then mret' (mc0_ctl s)
  else if idx =? 0x401 then mret' (mc0_status s)
  else if idx =? 0x402 then mret' (mc0_addr s)
  else if idx =? 0x403 then mret' (mc0_misc s)
  else if idx =? 0xc0000080 then mret' (efer s)
  else if (idx =? 0xc0000100) || (idx =? 0xc0000101) then geta msr_fs_gs_base (idx - 0xc0000100)
  else if idx =? 0xc0000103 then mret' (tsc_aux s)
  else if idx =? 0x1a0 then mret' 0x1801
  else gp_fault 0.

Definition MsrWrite (idx v : Z) : XM unit :=
  s <- getst id ;;
  if idx =? 0x10 then b <- tsc_base ;; put tsc_offset (v - b)
  else if idx =? 0x1b then put msr_apic_base v
  else if idx =? 0x174 then put sysenter_cs v
  else if idx =? 0x175 then put sysenter_esp v
  else if idx =? 0x176 then put sysenter_eip v
  else if idx =? 0x17a then put mcg_status (v .& 7)
  else if idx =? 0x17b then put mcg_ctl v
  else if (idx =? 0x186) || (idx =? 0x187) then puta perf_evtsel (idx - 0x186) (u32 v) ;;; PerfUpdateActive
  else if (idx =? 0xc1) || (idx =? 0xc2) then puta perf_pmc (idx - 0xc1) v
  else if (0x200 <=? idx) && (idx <=? 0x20f) then
    let i := (idx - 0x200) .>> 1 in
    (if tst idx 1 then puta mtrr_physmask i ((v .& 0xfffffffffffff000) .| (v .& 0x800))
     else puta mtrr_physbase i ((v .& 0xfffffffffffff000) .| (v .& 0xff)))
  else if idx =? 0x277 then put pat v
  else if idx =? 0x2ff then put mtrr_def_type (v .& 0xc07)
  else if idx =? 0x38d then put perf_fixed_ctrl (v .& 0x7ff) ;;; PerfUpdateActive
  else if idx =? 0x38f then put perf_global_ctrl (v .& 0x700000003) ;;; PerfUpdateActive
  else if idx =? 0x390 then put perf_global_status (perf_global_status s &~ v)
  else if idx =? 0x400 then put mc0_ctl v
  else if idx =? 0x401 then put mc0_status (mc0_status s &~ v)
  else if idx =? 0x402 then put mc0_addr v
  else if idx =? 0x403 then put mc0_misc v
  else if idx =? 0xc0000080 then put efer v ;;; modst TlbFlushAll
  else if (idx =? 0xc0000100) || (idx =? 0xc0000101) then puta msr_fs_gs_base (idx - 0xc0000100) v
  else if idx =? 0xc0000103 then put tsc_aux v
  else gp_fault 0.

(** ** FERR# *)

Definition drive_ferr (level : bool) : XM unit := fun m =>
  match ferr with
  | Some f => let '(w, evs) := f level (xworld m) in Done tt (fold_left apply_xevent evs (m <| xworld := w |>))
  | None => Done tt m
  end.
Definition X87UpdateFerr : XM unit :=
  s <- getst id ;;
  let level := negb (tst (cr0 s) kCr0Ne) && f_pending_mf (fpu s) in
  if eqb level (ferr_level s) then mret' tt
  else setst ferr_level level ;;; drive_ferr level.

(** ** CPUID: EAX, EBX, ECX, EDX *)
Definition cpuid (leaf sub : Z) : Z * Z * Z * Z :=
  if leaf =? 0 then (0x0b, 0x756e6547, 0x6c65746e, 0x49656e69)
  else if leaf =? 1 then (0x633, 0x00010800, 0, 0x078bfbfd)
  else if leaf =? 0x0b then
    (if sub =? 0 then (0, 1, 0x0100, 0) else if sub =? 1 then (0, 1, 0x0201, 0) else (0, 0, 0, 0))
  else if leaf =? 0x0a then (0x0101, 0, 0, 2)
  else if leaf =? 0x80000000 then (0x80000001, 0, 0, 0)
  else if leaf =? 0x80000001 then (0, 0, 0, 0x08100000)
  else (0, 0, 0, 0).
End sys.
