(* ===== verification/X86Float.v ===== *)
(** * x87 arithmetic and conversions (cpu/isa/x86/fpu.c)

    The part of the FPU that computes.  Berkeley SoftFloat, the vendored
    library the code calls, and the host's [long double] functions are the
    operations of two classes: each SoftFloat operation is a function of the
    rounding mode and precision in force and returns, with its result, the
    exception flags it raises. *)

From S2P Require Import Prelude Bus Ram RvState Run X86State X86Fpu.

Definition softfloat_round_near_even := 0.
Definition softfloat_round_minMag := 1.
Definition softfloat_round_min := 2.
Definition softfloat_round_max := 3.
Definition softfloat_flag_inexact := 1.
Definition softfloat_flag_underflow := 2.
Definition softfloat_flag_overflow := 4.
Definition softfloat_flag_infinite := 8.
Definition softfloat_flag_invalid := 16.

(** [softfloat_roundingMode] and [extF80_roundingPrecision]. *)
Record sf_mode := SfMode { sf_rm : Z; sf_prec : Z }.

Class SoftFloat := {
  extF80M_add : sf_mode -> ext80 -> ext80 -> ext80 * Z;
  extF80M_sub : sf_mode -> ext80 -> ext80 -> ext80 * Z;
  extF80M_mul : sf_mode -> ext80 -> ext80 -> ext80 * Z;
  extF80M_div : sf_mode -> ext80 -> ext80 -> ext80 * Z;
  extF80M_rem : sf_mode -> ext80 -> ext80 -> ext80 * Z;
  extF80M_sqrt : sf_mode -> ext80 -> ext80 * Z;
  extF80M_roundToInt : sf_mode -> ext80 -> Z -> bool -> ext80 * Z;
  f32_to_extF80M : Z -> ext80 * Z;
  f64_to_extF80M : Z -> ext80 * Z;
  i32_to_extF80M : Z -> ext80 * Z;
  i64_to_extF80M : Z -> ext80 * Z;
  ui64_to_extF80M : Z -> ext80 * Z;
  extF80M_to_f32 : sf_mode -> ext80 -> Z * Z;
  extF80M_to_f64 : sf_mode -> ext80 -> Z * Z;
  extF80M_to_i32 : sf_mode -> ext80 -> Z -> bool -> Z * Z;
  extF80M_to_i64 : sf_mode -> ext80 -> Z -> bool -> Z * Z;
  extF80M_to_i32_r_minMag : ext80 -> bool -> Z * Z;
  extF80M_to_i64_r_minMag : ext80 -> bool -> Z * Z;
  f32_add : Z -> Z -> Z -> Z * Z;
  f32_sub : Z -> Z -> Z -> Z * Z;
  f32_mul : Z -> Z -> Z -> Z * Z;
  f32_div : Z -> Z -> Z -> Z * Z;
  f32_sqrt : Z -> Z -> Z * Z;
  f64_add : Z -> Z -> Z -> Z * Z;
  f64_sub : Z -> Z -> Z -> Z * Z;
  f64_mul : Z -> Z -> Z -> Z * Z;
  f64_div : Z -> Z -> Z -> Z * Z;
  f64_sqrt : Z -> Z -> Z * Z;
  i32_to_f32 : Z -> Z -> Z * Z;
  i32_to_f64 : Z -> Z -> Z * Z;
  f32_to_f64 : Z -> Z -> Z * Z;
  f64_to_f32 : Z -> Z -> Z * Z;
  f32_to_i32 : Z -> Z -> bool -> Z * Z;
  f64_to_i32 : Z -> Z -> bool -> Z * Z;
  f32_to_i32_r_minMag : Z -> bool -> Z * Z;
  f64_to_i32_r_minMag : Z -> bool -> Z * Z;
}.

(** The host's [long double], the functions of its math library the code
    calls, and the two single-precision expressions of RCPPS and RSQRTPS. *)
Class HostMath := {
  ld : Type;
  F80ToLd : ext80 -> ld;
  LdToF80 : ld -> ext80;
  ld_of_Z : Z -> ld;
  ld_ln2 : ld;
  ld_fyl2xp1_limit : ld;
  ld_lt : ld -> ld -> bool;
  ld_le : ld -> ld -> bool;
  ld_mul : ld -> ld -> ld;
  ld_div : ld -> ld -> ld;
  ld_to_int : ld -> Z;
  fabsl : ld -> ld;
  expm1l : ld -> ld;
  log2l : ld -> ld;
  log1pl : ld -> ld;
  tanl : ld -> ld;
  sinl : ld -> ld;
  cosl : ld -> ld;
  atan2l : ld -> ld -> ld;
  frexpl : ld -> ld * Z;
  ldexpl : ld -> Z -> ld;
  roundl : ld -> ld;
  truncl : ld -> ld;
  rcp32 : Z -> Z;
  rsqrt32 : Z -> Z;
}.

Definition kFAdd := 0.
Definition kFMul := 1.
Definition kFSub := 4.
Definition kFSubR := 5.
Definition kFDiv := 6.
Definition kFDivR := 7.

Definition kRc : list Z :=
  [softfloat_round_near_even; softfloat_round_min; softfloat_round_max; softfloat_round_minMag].
Definition kPc : list Z := [32; 80; 64; 80].

Definition sw_or (f : x86_fpu) (m : Z) : x86_fpu := f <| f_sw := f_sw f .| m |>.
Definition sw_clear (f : x86_fpu) (m : Z) : x86_fpu := f <| f_sw := f_sw f &~ m |>.
Definition sw_or_if (c : bool) (m : Z) (f : x86_fpu) : x86_fpu := if c then sw_or f m else f.

Definition fpu_begin (f : x86_fpu) : sf_mode :=
  SfMode (arr kRc ((f_cw f .>> 10) .& 3)) (arr kPc ((f_cw f .>> 8) .& 3)).

(** SoftFloat's flags as status-word bits. *)
Definition sf_to_sw (sf : Z) : Z :=
  let st := if tst sf softfloat_flag_invalid then kFpuIe else 0 in
  let st := if tst sf softfloat_flag_infinite then st .| kFpuZe else st in
  let st := if tst sf softfloat_flag_overflow then st .| kFpuOe else st in
  let st := if tst sf softfloat_flag_underflow then st .| kFpuUe else st in
  if tst sf softfloat_flag_inexact then st .| kFpuPe else st.
Definition fpu_end (f : x86_fpu) (sf : Z) : x86_fpu := UpdateEs (sw_or f (sf_to_sw sf)).

Definition DenormalOperands (f : x86_fpu) (a b : ext80) : x86_fpu :=
  if F80IsDenormal a || F80IsDenormal b then UpdateEs (sw_or f kFpuDe) else f.

(** The quiet NaN of a signalling one. *)
Definition quiet (v : ext80) : ext80 := mkExt80 (signif v .| 0x4000000000000000) (signExp v).

Section fpu_arith.
Context `{SoftFloat, HostMath}.
Implicit Types f : x86_fpu.

Definition fpu_arith f (op dst : Z) (b : ext80) : x86_fpu :=
  let '(a, f) := fpu_get f 0 in
  let f := DenormalOperands f a b in
  let m := fpu_begin f in
  let '(r, sf) := switch op
    [(kFAdd, extF80M_add m a b); (kFMul, extF80M_mul m a b); (kFSub, extF80M_sub m a b);
     (kFSubR, extF80M_sub m b a); (kFDiv, extF80M_div m a b); (kFDivR, extF80M_div m b a)] (kIndefinite, 0) in
  fpu_set (fpu_end f sf) dst r.

(** ** Transcendentals *)

(** A NaN operand is the result; a signalling one raises IE. *)
Definition nan_result f (a : ext80) : x86_fpu := UpdateEs (fpu_set (sw_or_if (F80IsSnan a) kFpuIe f) 0 a).
Definition nan_result2 f (x y : ext80) : x86_fpu :=
  let f := sw_or_if (F80IsSnan x || F80IsSnan y) kFpuIe f in
  UpdateEs (fpu_pop (fpu_set f 1 (if F80IsNan x then x else y))).
(** A result of the host's math library: always inexact. *)
Definition inexact f : x86_fpu := fpu_end f softfloat_flag_inexact.

Definition fpu_f2xm1 f : x86_fpu :=
  let '(a, f) := fpu_get f 0 in
  if F80IsNan a then
    UpdateEs (fpu_set (sw_or_if (F80IsSnan a) kFpuIe f) 0 (if F80IsSnan a then quiet a else a))
  else
    let x := F80ToLd a in
    if ld_lt (ld_of_Z 1) (fabsl x) then UpdateEs (fpu_set (sw_or f kFpuIe) 0 kIndefinite)
    else fpu_set (inexact f) 0 (LdToF80 (expm1l (ld_mul x ld_ln2))).

Definition fpu_fyl2x f : x86_fpu :=
  let '(x, f) := fpu_get f 0 in
  let '(y, f) := fpu_get f 1 in
  if F80IsNan x || F80IsNan y then nan_result2 f x y
  else if F80IsZero x then
    let f := sw_or f kFpuZe in
    let '(r, f) := if F80IsZero y then (kIndefinite, sw_or f kFpuIe)
                   else (mkExt80 0x8000000000000000 (0x7fff .| (if F80Sign y then 0 else 0x8000)), f) in
    UpdateEs (fpu_pop (fpu_set f 1 r))
  else if F80Sign x then UpdateEs (fpu_pop (fpu_set (sw_or f kFpuIe) 1 kIndefinite))
  else fpu_pop (fpu_set (inexact f) 1 (LdToF80 (ld_mul (F80ToLd y) (log2l (F80ToLd x))))).

(** The argument reduction limit of the trigonometric instructions. *)
Definition trig_out_of_range (x : ld) : bool := ld_le (ld_of_Z (2 ^ 63)) (fabsl x).

Definition fpu_fptan f : x86_fpu :=
  let '(a, f) := fpu_get f 0 in
  if F80IsNan a then nan_result f a else
  let x := F80ToLd a in
  if trig_out_of_range x then UpdateEs (sw_or f kFpuC2)
  else sw_clear (fpu_push (fpu_set (inexact f) 0 (LdToF80 (tanl x))) kOne) kFpuC2.

Definition fpu_fpatan f : x86_fpu :=
  let '(x, f) := fpu_get f 0 in
  let '(y, f) := fpu_get f 1 in
  if F80IsNan x || F80IsNan y then nan_result2 f x y
  else fpu_pop (fpu_set (inexact f) 1 (LdToF80 (atan2l (F80ToLd y) (F80ToLd x)))).

Definition fpu_fxtract f : x86_fpu :=
  let '(v, f) := fpu_get f 0 in
  if F80IsZero v then
    UpdateEs (fpu_push (fpu_set (sw_or f kFpuZe) 0 (mkExt80 0x8000000000000000 0xffff)) (mkExt80 0 0))
  else if F80IsInf v then fpu_push (fpu_set f 0 v) v
  else if F80IsNan v then
    let '(v, f) := if F80IsSnan v then (quiet v, sw_or f kFpuIe) else (v, f) in
    UpdateEs (fpu_push (fpu_set f 0 v) v)
  else
    let '(m, e) := frexpl (F80ToLd v) in
    let ex := LdToF80 (ld_of_Z (e - 1)) in
    let sig := LdToF80 (ld_mul m (ld_of_Z 2)) in
    fpu_push (fpu_set (fpu_end f 0) 0 sig) ex.

(** C's [%] on [int] truncates. *)
Definition fpu_fprem f (ieee : bool) : x86_fpu :=
  let '(a, f) := fpu_get f 0 in
  let '(b, f) := fpu_get f 1 in
  let f := sw_clear f (kFpuC0 .| kFpuC1 .| kFpuC2 .| kFpuC3) in
  if F80IsNan a || F80IsNan b || F80IsZero b || F80IsInf a || F80IsZero a then
    let '(r, sf) := extF80M_rem (fpu_begin f) a b in UpdateEs (fpu_set (fpu_end f sf) 0 r)
  else
    let la := F80ToLd a in
    let lb := F80ToLd b in
    let expdiff := snd (frexpl la) - snd (frexpl lb) in
    if expdiff <? 64 then
      let ratio := ld_div la lb in
      let q := if ieee then roundl ratio else truncl ratio in
      let '(r, sf) := extF80M_rem (fpu_begin f) a b in
      let f := fpu_set (fpu_end f sf) 0 r in
      let qi := u64 (ld_to_int q) in
      UpdateEs (sw_or_if (tst qi 4) kFpuC0 (sw_or_if (tst qi 2) kFpuC3 (sw_or_if (tst qi 1) kFpuC1 f)))
    else
      let n := 32 + Z.rem expdiff 32 in
      let scaled := LdToF80 (ldexpl (F80ToLd b) (expdiff - n)) in
      let '(r, sf) := extF80M_rem (fpu_begin f) a scaled in
      UpdateEs (sw_or (fpu_set (fpu_end f sf) 0 r) kFpuC2).

Definition fpu_fyl2xp1 f : x86_fpu :=
  let '(x, f) := fpu_get f 0 in
  let '(y, f) := fpu_get f 1 in
  if F80IsNan x || F80IsNan y then nan_result2 f x y else
  let lx := F80ToLd x in
  if ld_le ld_fyl2xp1_limit (fabsl lx) then UpdateEs (fpu_pop (fpu_set (sw_or f kFpuIe) 1 kIndefinite))
  else fpu_pop (fpu_set (inexact f) 1 (LdToF80 (ld_mul (F80ToLd y) (ld_div (log1pl lx) ld_ln2)))).

Definition fpu_fsqrt f : x86_fpu :=
  let '(a, f) := fpu_get f 0 in
  let f := sw_clear f (kFpuC0 .| kFpuC1 .| kFpuC2 .| kFpuC3) in
  let f := sw_or_if (F80Sign a && negb (F80IsZero a) && negb (F80IsNan a)) kFpuC2 f in
  let '(r, sf) := extF80M_sqrt (fpu_begin f) a in
  fpu_set (fpu_end f sf) 0 r.

Definition fpu_fsincos f : x86_fpu :=
  let '(a, f) := fpu_get f 0 in
  if F80IsNan a then nan_result f a else
  let x := F80ToLd a in
  if trig_out_of_range x then UpdateEs (sw_or f kFpuC2)
  else sw_clear (fpu_push (fpu_set (inexact f) 0 (LdToF80 (sinl x))) (LdToF80 (cosl x))) kFpuC2.

Definition fpu_frndint f : x86_fpu :=
  let '(a, f) := fpu_get f 0 in
  let m := fpu_begin f in
  let '(r, sf) := extF80M_roundToInt m a (sf_rm m) true in
  fpu_set (fpu_end f sf) 0 r.

Definition fpu_fscale f : x86_fpu :=
  let '(a, f) := fpu_get f 0 in
  let '(b, f) := fpu_get f 1 in
  if F80IsNan a || F80IsNan b then
    UpdateEs (fpu_set (sw_or_if (F80IsSnan a || F80IsSnan b) kFpuIe f) 0 (if F80IsNan a then a else b))
  else
    let lb := F80ToLd b in
    let lb := if ld_lt (ld_of_Z 2147483647) lb then ld_of_Z 2147483647 else lb in
    let lb := if ld_lt lb (ld_of_Z (-2147483648)) then ld_of_Z (-2147483648) else lb in
    let n := ld_to_int (truncl lb) in
    if (-16445 <=? n) && (n <=? 16383) then
      let '(r, sf) := extF80M_mul (fpu_begin f) a (mkExt80 0x8000000000000000 (u16 (0x3fff + n))) in
      fpu_set (fpu_end f sf) 0 r
    else if F80IsZero a || F80IsInf a then f
    else if 16383 <? n then
      UpdateEs (fpu_set (sw_or f (kFpuOe .| kFpuPe)) 0
                  (mkExt80 0x8000000000000000 (0x7fff .| (signExp a .& 0x8000))))
    else UpdateEs (fpu_set (sw_or f (kFpuUe .| kFpuPe)) 0 (mkExt80 0 (signExp a .& 0x8000))).

(** FSIN and FCOS. *)
Definition fpu_trig (fn : ld -> ld) f : x86_fpu :=
  let '(a, f) := fpu_get f 0 in
  if F80IsNan a then nan_result f a else
  let x := F80ToLd a in
  if trig_out_of_range x then UpdateEs (sw_or f kFpuC2)
  else sw_clear (fpu_set (inexact f) 0 (LdToF80 (fn x))) kFpuC2.
Definition fpu_fsin := fpu_trig sinl.
Definition fpu_fcos := fpu_trig cosl.

(** ** Conversions *)

(** A load clears SoftFloat's flags and folds in those it raises. *)
Definition fpu_loaded f (r : ext80 * Z) : ext80 * x86_fpu := let '(v, sf) := r in (v, fpu_end f sf).
Definition fpu_load_f32 f (bits : Z) := fpu_loaded f (f32_to_extF80M bits).
Definition fpu_load_f64 f (bits : Z) := fpu_loaded f (f64_to_extF80M bits).
Definition fpu_load_i16 f (v : Z) := fpu_loaded f (i32_to_extF80M v).
Definition fpu_load_i32 f (v : Z) := fpu_loaded f (i32_to_extF80M v).
Definition fpu_load_i64 f (v : Z) := fpu_loaded f (i64_to_extF80M v).

Definition fpu_stored f (r : Z * Z) : Z * x86_fpu := let '(v, sf) := r in (v, fpu_end f sf).
Definition fpu_store_f32 f (v : ext80) := fpu_stored f (extF80M_to_f32 (fpu_begin f) v).
Definition fpu_store_f64 f (v : ext80) := fpu_stored f (extF80M_to_f64 (fpu_begin f) v).
Definition fpu_store_i32 f (v : ext80) :=
  let m := fpu_begin f in fpu_stored f (extF80M_to_i32 m v (sf_rm m) true).
Definition fpu_store_i64 f (v : ext80) :=
  let m := fpu_begin f in fpu_stored f (extF80M_to_i64 m v (sf_rm m) true).
Definition fpu_store_i32_trunc f (v : ext80) := fpu_stored f (extF80M_to_i32_r_minMag v true).
Definition fpu_store_i64_trunc f (v : ext80) := fpu_stored f (extF80M_to_i64_r_minMag v true).

(** The 16-bit stores: the 32-bit conversion, then the range check. *)
Definition narrow_i16 (r : Z * x86_fpu) : Z * x86_fpu :=
  let '(q, f) := r in
  if (q <? -32768) || (32767 <? q) then (-32768, UpdateEs (sw_or f kFpuIe)) else (q, f).
Definition fpu_store_i16 f (v : ext80) := narrow_i16 (fpu_store_i32 f v).
Definition fpu_store_i16_trunc f (v : ext80) := narrow_i16 (fpu_store_i32_trunc f v).

(** Packed BCD: 18 digits, byte 8 the most significant pair, the sign in
    byte 9. *)
Definition bcd_value (bcd : list Z) : Z :=
  fold_left (fun v i => u64 (v * 100 + ((bcd !!! i .>> 4) .& 0xf) * 10 + (bcd !!! i .& 0xf)))
    [8; 7; 6; 5; 4; 3; 2; 1; 0]%nat 0.
Definition fpu_load_bcd f (bcd : list Z) : ext80 * x86_fpu :=
  let '(r, sf) := ui64_to_extF80M (bcd_value bcd) in
  let r := if tst (bcd !!! 9%nat) 0x80 then mkExt80 (signif r) (signExp r .^ 0x8000) else r in
  (r, fpu_end f sf).

(** The loop over the nine digit pairs, which stops when nothing is left. *)
Fixpoint bcd_digits (n : nat) (mag : Z) : list Z :=
  match n with
  | O => []
  | S n => let pair := mag mod 100 in (((pair / 10) .<< 4) .| (pair mod 10)) :: bcd_digits n (mag / 100)
  end.
Definition kBcdIndefinite : list Z := [0; 0; 0; 0; 0; 0; 0; 0xc0; 0xff; 0xff].
Definition fpu_store_bcd f (v : ext80) : list Z * x86_fpu :=
  let '(q, f) := fpu_store_i64 f v in
  let mag := if q =? - 2 ^ 63 then 0 else Z.abs q in
  if (q =? - 2 ^ 63) || (1000000000000000000 <=? mag) then (kBcdIndefinite, UpdateEs (sw_or f kFpuIe))
  else (bcd_digits 9 mag ++ [if q <? 0 then 0x80 else 0], UpdateEs f).

(** ** SSE *)

(** [softfloat_roundingMode] from MXCSR. *)
Definition fpu_sse_begin f : Z := arr kRc ((f_mxcsr f .>> 13) .& 3).

(** Fold the flags into MXCSR: is an unmasked exception standing? *)
Definition fpu_sse_end f (sf : Z) : bool * x86_fpu :=
  let st := (if tst sf softfloat_flag_invalid then 2 ^ 0 else 0) .|
            (if tst sf softfloat_flag_infinite then 2 ^ 2 else 0) .|
            (if tst sf softfloat_flag_overflow then 2 ^ 3 else 0) .|
            (if tst sf softfloat_flag_underflow then 2 ^ 4 else 0) .|
            (if tst sf softfloat_flag_inexact then 2 ^ 5 else 0) in
  let mx := f_mxcsr f .| st in
  (negb ((mx .& 0x3f) &~ ((mx .>> 7) .& 0x3f) =? 0), f <| f_mxcsr := mx |>).

Definition fpu_sse_daz f : bool := tst (f_mxcsr f) (2 ^ 6).
Definition fpu_sse_ftz f : bool := tst (f_mxcsr f) (2 ^ 15).
End fpu_arith.

(** A denormal single (4 bytes) or double (8 bytes), and its signed zero. *)
Definition SimdDenorm32 (v : Z) : bool := (v .& 0x7f800000 =? 0) && negb (v .& 0x007fffff =? 0).
Definition SimdDenorm64 (v : Z) : bool :=
  (v .& 0x7ff0000000000000 =? 0) && negb (v .& 0x000fffffffffffff =? 0).
Definition fpu_sse_flush (v : Z) (bytes : nat) : Z :=
  if (bytes =? 4)%nat then (if SimdDenorm32 v then v .& 0x80000000 else v)
  else if (bytes =? 8)%nat then (if SimdDenorm64 v then v .& 0x8000000000000000 else v)
  else v.
