(* ===== verification/X86x87.v ===== *)
(** * The x87 escapes D8..DF (cpu/isa/x86/exec.c, [x87_exec])

    The memory forms, the register forms and the exception check that ends
    every escape. *)

From S2P Require Import Prelude Bus Ram RvState Run X86State X86Flags X86Mem X86Oper X86Seg X86Sys X86Fpu X86Float.

Section x87.
Context {Ops Dev W : Type} `{BusDevices Ops Dev W, X86Pins W, SoftFloat, HostMath}.
#[local] Abbreviation XM := (M (XMach Ops Dev W)).

(** Run an operation of the FPU on [s->fpu]: for its effect, for its value. *)
Definition fpu_do (g : x86_fpu -> x86_fpu) : XM unit := modst (fun s => s <| fpu := g (fpu s) |>).
Definition fpu_val {A} (g : x86_fpu -> A * x86_fpu) : XM A :=
  f <- getst fpu ;; let '(a, f') := g f in setst fpu f' ;;; mret' a.
(** [fpu_get(&s->fpu, i)] *)
Definition st_ (i : Z) : XM ext80 := fpu_val (fun f => fpu_get f i).

Definition X87MemPtr : XM unit :=
  dd <- getd id ;;
  sel <- geta sreg (d_mseg dd) ;;
  fpu_do (fun f => f <| f_fdp := u32 (d_mlin dd) |> <| f_fds := sel |>).

(** The footprint of a memory operand: its linear address. *)
Definition X87Access (size : Z) (write : bool) : XM Z := mem_use size write.

Definition RdF80 : XM ext80 :=
  lin <- X87Access 10 false ;; m <- rd64 lin ;; e <- rd16 (u64 (lin + 8)) ;; mret' (mkExt80 m e).
Definition WrF80 (v : ext80) : XM unit :=
  lin <- X87Access 10 true ;; wr64 lin (signif v) ;;; wr16 (u64 (lin + 8)) (signExp v).

Definition X87FaultCheck : XM unit :=
  X87UpdateFerr ;;;
  s <- getst id ;;
  when f_pending_mf (fpu s) && tst (cr0 s) kCr0Ne do raise_ vec_mf 0.

Definition x87_clear_exceptions (f : x86_fpu) : x86_fpu := f <| f_sw := f_sw f .& 0x7f00 |> <| f_pending_mf := false |>.
Definition X87ClearExceptions : XM unit := fpu_do x87_clear_exceptions.

Definition X87LoadEnv (wide : bool) : XM unit :=
  let n := if wide then 28 else 14 in
  lin <- X87Access n false ;; buf <- rd_bytes lin (Z.to_nat n) ;; fpu_do (fun f => fpu_load_env f buf wide).
Definition X87StoreEnv (wide : bool) : XM unit :=
  lin <- X87Access (if wide then 28 else 14) true ;; f <- getst fpu ;; wr_bytes lin (fpu_store_env f wide).
Definition X87LoadState (wide : bool) : XM unit :=
  let n := if wide then 108 else 94 in
  lin <- X87Access n false ;; buf <- rd_bytes lin (Z.to_nat n) ;; fpu_do (fun f => fpu_load_state f buf wide).
Definition X87StoreState (wide : bool) : XM unit :=
  lin <- X87Access (if wide then 108 else 94) true ;;
  f <- getst fpu ;;
  wr_bytes lin (fpu_store_state f wide) ;;;
  fpu_do fpu_finit.

Definition X87CompareMem (b : ext80) (pop : bool) : XM unit :=
  fpu_do (fun f => fpu_compare f b false) ;;; when pop do fpu_do fpu_pop.

Definition X87IntegerMemArith (op : Z) (b : ext80) (pop : bool) : XM unit :=
  if (op =? 2) || (op =? 3) then X87CompareMem b pop else fpu_do (fun f => fpu_arith f op 0 b).

(** [fl->cf], [fl->zf], their disjunction, [fl->pf], by the reg field. *)
Definition fcmov_cond (reg w : Z) : bool :=
  if reg =? 0 then fbit w fl_cf
  else if reg =? 1 then fbit w fl_zf
  else if reg =? 2 then fbit w fl_cf || fbit w fl_zf
  else fbit w fl_pf.
Definition X87Fcmov (i reg : Z) (invert : bool) : XM unit :=
  w <- getst fl ;;
  when xorb (fcmov_cond reg w) invert do (v <- st_ i ;; fpu_do (fun f => fpu_set f 0 v)).

Definition X87Fcomi (i : Z) (quiet pop : bool) : XM unit :=
  b <- st_ i ;;
  c <- fpu_val (fun f => fpu_compare_i f b quiet) ;;
  mod_fl (fun w => (w &~ 0x8d5) .| c) ;;;
  when pop do fpu_do fpu_pop.

(** ** Memory forms *)

(** Which forms record their operand in the data pointer. *)
Definition value_mem (op reg : Z) : bool :=
  (op =? 0xd8) || (op =? 0xda) || (op =? 0xdc) || (op =? 0xde) ||
  ((op =? 0xd9) && ((reg =? 0) || (reg =? 2) || (reg =? 3))) ||
  ((op =? 0xdb) && negb (reg =? 4) && negb (reg =? 6)) ||
  ((op =? 0xdd) && (reg <? 4)) || (op =? 0xdf).

(** An operand of [size] bytes, converted by [load]. *)
Definition mem_operand (size : Z) (load : x86_fpu -> Z -> ext80 * x86_fpu) : XM ext80 :=
  lin <- X87Access size false ;;
  v <- (if size =? 8 then rd64 lin else if size =? 4 then rd32 lin else rd16 lin) ;;
  fpu_val (fun f => load f v).
Definition fld (size : Z) (load : x86_fpu -> Z -> ext80 * x86_fpu) : XM unit :=
  v <- mem_operand size load ;; fpu_do (fun f => fpu_push f v).
Definition fst_ (size : Z) (store : x86_fpu -> ext80 -> Z * x86_fpu) (pop : bool) : XM unit :=
  lin <- X87Access size true ;;
  v <- st_ 0 ;;
  x <- fpu_val (fun f => store f v) ;;
  (if size =? 8 then wr64 lin (u64 x) else if size =? 4 then wr32 lin (u32 x) else wr16 lin (u16 x)) ;;;
  when pop do fpu_do fpu_pop.

Definition x87_mem_arith (reg size : Z) (load : x86_fpu -> Z -> ext80 * x86_fpu) : XM unit :=
  b <- mem_operand size load ;; X87IntegerMemArith reg b (reg =? 3).

(** The signed operand of an integer load. *)
Definition load_s16 (f : x86_fpu) (v : Z) := fpu_load_i16 f (s16 v).
Definition load_s32 (f : x86_fpu) (v : Z) := fpu_load_i32 f (s32 v).
Definition load_s64 (f : x86_fpu) (v : Z) := fpu_load_i64 f (s64 v).

Definition x87_mem_d9 (reg : Z) : XM unit :=
  w32 <- getd d_w32 ;;
  switch reg
    [(0, fld 4 fpu_load_f32); (2, fst_ 4 fpu_store_f32 false); (3, fst_ 4 fpu_store_f32 true);
     (4, X87LoadEnv w32);
     (5, lin <- X87Access 2 false ;; v <- rd16 lin ;; fpu_do (fun f => fpu_refresh (f <| f_cw := v |>)));
     (6, X87StoreEnv w32);
     (7, lin <- X87Access 2 true ;; f <- getst fpu ;; wr16 lin (f_cw f))] ud.

Definition x87_mem_db (reg : Z) : XM unit :=
  switch reg
    [(0, fld 4 load_s32); (1, fst_ 4 fpu_store_i32_trunc true); (2, fst_ 4 fpu_store_i32 false);
     (3, fst_ 4 fpu_store_i32 true);
     (5, v <- RdF80 ;; fpu_do (fun f => fpu_push f v));
     (7, v <- st_ 0 ;; WrF80 v ;;; fpu_do fpu_pop)] ud.

Definition x87_mem_dd (reg : Z) : XM unit :=
  w32 <- getd d_w32 ;;
  switch reg
    [(0, fld 8 fpu_load_f64); (1, fst_ 8 fpu_store_i64_trunc true); (2, fst_ 8 fpu_store_f64 false);
     (3, fst_ 8 fpu_store_f64 true); (4, X87LoadState w32); (6, X87StoreState w32);
     (7, lin <- X87Access 2 true ;; f <- getst fpu ;; wr16 lin (f_sw f))] ud.

Definition op_fbld : XM unit :=
  lin <- X87Access 10 false ;;
  bcd <- rd_bytes lin 10 ;;
  v <- fpu_val (fun f => fpu_load_bcd f bcd) ;;
  fpu_do (fun f => fpu_push f v).
Definition op_fbstp : XM unit :=
  lin <- X87Access 10 true ;;
  v <- st_ 0 ;;
  bcd <- fpu_val (fun f => fpu_store_bcd f v) ;;
  wr_bytes lin bcd ;;;
  fpu_do fpu_pop.

Definition x87_mem_df (reg : Z) : XM unit :=
  switch reg
    [(0, fld 2 load_s16); (1, fst_ 2 fpu_store_i16_trunc true); (2, fst_ 2 fpu_store_i16 false);
     (3, fst_ 2 fpu_store_i16 true); (4, op_fbld); (5, fld 8 load_s64); (6, op_fbstp);
     (7, fst_ 8 fpu_store_i64 true)] ud.

Definition X87MemForm (op : Z) : XM unit :=
  reg <- getd d_reg ;;
  (when value_mem op reg do X87MemPtr) ;;;
  switch op
    [(0xd8, x87_mem_arith reg 4 fpu_load_f32); (0xd9, x87_mem_d9 reg); (0xda, x87_mem_arith reg 4 load_s32);
     (0xdb, x87_mem_db reg); (0xdc, x87_mem_arith reg 8 fpu_load_f64); (0xdd, x87_mem_dd reg);
     (0xde, x87_mem_arith reg 2 load_s16); (0xdf, x87_mem_df reg)] ud.

(** ** Register forms *)

(** The DC and DE forms write ST(i): the operand order of the non-commutative
    operations follows. *)
Definition reverse_op (grp : Z) : Z :=
  if grp =? kFSub then kFSubR else if grp =? kFSubR then kFSub
  else if grp =? kFDiv then kFDivR else if grp =? kFDivR then kFDiv else grp.

Definition X87RegisterArith (op i : Z) : XM unit :=
  grp <- getd d_reg ;;
  (when (op =? 0xde) && (grp =? 2) do ud) ;;;
  if (2 <=? grp) && (grp <=? 3) then v <- st_ i ;; X87CompareMem v (grp =? 3) else
  let to_i := (op =? 0xdc) || (op =? 0xde) in
  v <- st_ i ;;
  fpu_do (fun f => fpu_arith f (if to_i then reverse_op grp else grp) (if to_i then i else 0) v) ;;;
  when op =? 0xde do fpu_do fpu_pop.

(** [fpu_set(i, fpu_get(0))], the register forms of FST. *)
Definition fst_reg (i : Z) (pop : bool) : XM unit :=
  v <- st_ 0 ;; fpu_do (fun f => fpu_set f i v) ;;; when pop do fpu_do fpu_pop.
(** FCOMPP and FUCOMPP. *)
Definition compare_pop2 : XM unit := v <- st_ 1 ;; X87CompareMem v true ;;; fpu_do fpu_pop.

Definition x87_reg_da (reg i : Z) : XM unit :=
  if reg <? 4 then X87Fcmov i reg false
  else if (reg =? 5) && (i =? 1) then compare_pop2 else ud.
Definition x87_reg_de (i : Z) : XM unit :=
  reg <- getd d_reg ;;
  if reg =? 3 then (when negb (i =? 1) do ud) ;;; compare_pop2 else X87RegisterArith 0xde i.

Definition x87_reg_d9 (reg i : Z) : XM unit :=
  switch reg
    [(0, v <- st_ i ;; fpu_do (fun f => fpu_push f v));
     (1, fpu_do (fun f => fpu_exchange f i));
     (2, when negb (i =? 0) do ud);
     (3, fst_reg i true);
     (4, switch i [(0, fpu_do fpu_change_sign); (1, fpu_do fpu_abs); (4, fpu_do fpu_test); (5, fpu_do fpu_examine)] ud);
     (5, if i =? 7 then ud else fpu_do (fun f => fpu_load_const f i));
     (6, switch i [(0, fpu_do fpu_f2xm1); (1, fpu_do fpu_fyl2x); (2, fpu_do fpu_fptan); (3, fpu_do fpu_fpatan);
                   (4, fpu_do fpu_fxtract); (5, fpu_do (fun f => fpu_fprem f true)); (6, fpu_do fpu_fdecstp);
                   (7, fpu_do fpu_fincstp)] (mret' tt));
     (7, switch i [(0, fpu_do (fun f => fpu_fprem f false)); (1, fpu_do fpu_fyl2xp1); (2, fpu_do fpu_fsqrt);
                   (3, fpu_do fpu_fsincos); (4, fpu_do fpu_frndint); (5, fpu_do fpu_fscale); (6, fpu_do fpu_fsin);
                   (7, fpu_do fpu_fcos)] (mret' tt))] (mret' tt).

Definition x87_reg_db (reg i : Z) : XM unit :=
  switch reg
    [(0, X87Fcmov i 0 true); (1, X87Fcmov i 1 true); (2, X87Fcmov i 2 true); (3, X87Fcmov i 3 true);
     (4, if i =? 2 then X87ClearExceptions else if i =? 3 then fpu_do fpu_finit else ud);
     (5, X87Fcomi i true false); (6, X87Fcomi i false false)] ud.

Definition x87_reg_dd (reg i : Z) : XM unit :=
  switch reg
    [(0, fpu_do (fun f => fpu_free f i)); (1, fpu_do (fun f => fpu_exchange f i)); (2, fst_reg i false);
     (3, fst_reg i true); (4, v <- st_ i ;; X87CompareMem v false); (5, v <- st_ i ;; X87CompareMem v true)] ud.

Definition x87_reg_df (reg i : Z) : XM unit :=
  switch reg
    [(0, fpu_do (fun f => fpu_free f i) ;;; fpu_do fpu_pop); (1, fpu_do (fun f => fpu_exchange f i));
     (2, fst_reg i true); (3, fst_reg i true);
     (4, (when negb (i =? 0) do ud) ;;; f <- getst fpu ;; setX eax_i (f_sw f));
     (5, X87Fcomi i true true); (6, X87Fcomi i false true)] ud.

Definition x87_reg_form (op reg i : Z) : XM unit :=
  switch op
    [(0xd8, X87RegisterArith op i); (0xdc, X87RegisterArith op i); (0xda, x87_reg_da reg i); (0xde, x87_reg_de i);
     (0xd9, x87_reg_d9 reg i); (0xdb, x87_reg_db reg i); (0xdd, x87_reg_dd reg i); (0xdf, x87_reg_df reg i)] (mret' tt).

Definition x87_exec (op : Z) : XM unit :=
  s <- getst id ;;
  (when tst (cr0 s) (kCr0Em .| kCr0Ts) do nm) ;;;
  b <- geta base cs_i ;;
  sel <- geta sreg cs_i ;;
  p <- gets xpc ;;
  fpu_do (fun f => f <| f_fip := u32 (b + p) |> <| f_fcs := sel |>) ;;;
  modrm ;;;
  dd <- getd id ;;
  fpu_do (fun f => f <| f_fop := u16 ((op .<< 8) .| d_enc dd) |>) ;;;
  (if negb (d_is_mem dd) then x87_reg_form op (d_reg dd) (d_rm dd) else X87MemForm op) ;;;
  X87FaultCheck.
End x87.
