(* ===== verification/X86Simd.v ===== *)
(** * MMX, SSE and SSE2 (cpu/isa/x86/exec.c, [SimdOp])

    Packed elements are little-endian slices of a 16-byte register image; an
    MMX register is the significand of an x87 register.  A shift by the width
    of a [uint64_t] or more is undefined in C and ends the run. *)

From S2P Require Import Prelude Bus Ram RvState Run X86State X86Flags X86Mem X86Oper X86Seg X86Sys X86Fpu X86Float X86x87.

(** ** Elements *)

Definition SimdElem (p : list Z) (bytes i : nat) : Z := le_val (slice p (bytes * i) bytes).
Definition SimdSetElem (p : list Z) (bytes i : nat) (v : Z) : list Z := blit p (bytes * i) (le_bytes bytes v).
Definition SimdMask (bytes : nat) : Z := 2 ^ (8 * Z.of_nat bytes) - 1.
Definition SimdSigned (v : Z) (bytes : nat) : Z := signed (8 * Z.of_nat bytes) (wrap (8 * Z.of_nat bytes) v).
Definition SimdNan32 (v : Z) : bool := (v .& 0x7f800000 =? 0x7f800000) && negb (v .& 0x007fffff =? 0).
Definition SimdNan64 (v : Z) : bool :=
  (v .& 0x7ff0000000000000 =? 0x7ff0000000000000) && negb (v .& 0x000fffffffffffff =? 0).

(** [for (i = 0; i < n; i++) SimdSetElem(r, bytes, i, g(i));] *)
Definition set_elems (bytes n : nat) (g : nat -> Z) (r : list Z) : list Z :=
  fold_left (fun r i => SimdSetElem r bytes i (g i)) (seq 0 n) r.

Definition zero16 : list Z := replicate 16 0.
(** An MMX value as a 16-byte image. *)
Definition mmx_image (v : Z) : list Z := le_bytes 8 v ++ replicate 8 0.

(** The order of two non-NaN values of the given width: [<] and [==] on the
    host's [float] and [double]. *)
Definition fkey (bytes : nat) (v : Z) : Z :=
  let m := 2 ^ (8 * Z.of_nat bytes - 1) in if tst v m then - (v .& (m - 1)) else v.
Definition host_lt (bytes : nat) (a b : Z) : bool := fkey bytes a <? fkey bytes b.
Definition host_eq (bytes : nat) (a b : Z) : bool := fkey bytes a =? fkey bytes b.
Definition simd_nan (bytes : nat) (v : Z) : bool := if (bytes =? 8)%nat then SimdNan64 v else SimdNan32 v.
Definition simd_denorm (bytes : nat) (v : Z) : bool :=
  if (bytes =? 8)%nat then SimdDenorm64 v else SimdDenorm32 v.

(** ** Saturating arithmetic *)

(** [if (s < lo) s = lo; if (s > hi) s = hi;] *)
Definition clamp_signed (bytes : nat) (s : Z) : Z :=
  let hi := 2 ^ (8 * Z.of_nat bytes - 1) - 1 in
  let lo := - 2 ^ (8 * Z.of_nat bytes - 1) in
  let s := if s <? lo then lo else s in
  let s := if hi <? s then hi else s in
  u64 s .& SimdMask bytes.
Definition SatAddSigned (a b : Z) (bytes : nat) : Z := clamp_signed bytes (SimdSigned a bytes + SimdSigned b bytes).
Definition SatSubSigned (a b : Z) (bytes : nat) : Z := clamp_signed bytes (SimdSigned a bytes - SimdSigned b bytes).
Definition SatAddUnsigned (a b : Z) (bytes : nat) : Z :=
  let m := SimdMask bytes in let s := u64 ((a .& m) + (b .& m)) in if m <? s then m else s.
Definition SatSubUnsigned (a b : Z) (bytes : nat) : Z :=
  let m := SimdMask bytes in if (b .& m) <? (a .& m) then (a .& m) - (b .& m) else 0.
Definition SatPackSigned (v : Z) (from to : nat) : Z := clamp_signed to (SimdSigned v from).
Definition SatPackUnsigned (v : Z) (from to : nat) : Z :=
  let s := SimdSigned v from in
  if s <? 0 then 0 else if SimdMask to <? s then SimdMask to else s.

(** ** Packed integer operations on images

    [total] is 8 for MMX and 16 for SSE2. *)

Definition elementwise (bytes total : nat) (z : Z -> Z -> Z) (a b : list Z) : list Z :=
  set_elems bytes (total / bytes) (fun i => z (SimdElem a bytes i) (SimdElem b bytes i)) a.

Definition unpack (bytes total : nat) (high : bool) (a b : list Z) : list Z :=
  let n := (total / bytes)%nat in
  set_elems bytes n (fun i =>
    let src := (i / 2 + (if high then n / 2 else 0))%nat in
    if Nat.odd i then SimdElem b bytes src else SimdElem a bytes src) a.

(** PACK: [from]-byte elements of [a] then [b], narrowed to half their width. *)
Definition pack (from total : nat) (sat : Z -> nat -> nat -> Z) (a b : list Z) : list Z :=
  let to := (from / 2)%nat in
  let n := (total / to)%nat in
  let half := (n / 2)%nat in
  set_elems to n (fun i => sat (SimdElem (if (i <? half)%nat then a else b) from (i mod half)) from to) a.

Definition all_ones (bytes : nat) (c : bool) : Z := if c then SimdMask bytes else 0.

Definition pmaddwd (total : nat) (a b : list Z) : list Z :=
  let e p i := SimdSigned (SimdElem p 2 i) 2 in
  set_elems 4 (total / 4) (fun i =>
    u32 (e a (2 * i)%nat * e b (2 * i)%nat + e a (2 * i + 1)%nat * e b (2 * i + 1)%nat)) a.
Definition psadbw (total : nat) (a b : list Z) : list Z :=
  set_elems 8 (total / 8) (fun i =>
    fold_left (fun sum j =>
      let av := SimdElem a 1 (i * 8 + j) in
      let bv := SimdElem b 1 (i * 8 + j) in
      u32 (sum + (if bv <? av then av - bv else bv - av))) (seq 0 8) 0) a.

(** The element shifts: 0 logical right, 1 arithmetic right, 2 left. *)
Definition simd_shift (kind : Z) (bytes : nat) (v cnt : Z) : option Z :=
  if 64 <=? cnt then None
  else Some (if kind =? 0 then (v .& SimdMask bytes) .>> cnt
             else if kind =? 1 then u64 (SimdSigned v bytes .>> cnt)
             else u64 ((v .& SimdMask bytes) .<< cnt)).
Fixpoint shift_elems (kind : Z) (bytes : nat) (cnt : Z) (a : list Z) (idx : list nat) (r : list Z) : option (list Z) :=
  match idx with
  | [] => Some r
  | i :: idx =>
      match simd_shift kind bytes (SimdElem a bytes i) cnt with
      | Some z => shift_elems kind bytes cnt a idx (SimdSetElem r bytes i z)
      | None => None
      end
  end.
(** The count a shift uses: at most the element's width. *)
Definition shift_count (bytes : nat) (cnt : Z) : Z := Z.min cnt (8 * Z.of_nat bytes).

(** The saturating, averaging, minimum and maximum family and the plain sums:
    the element width and the operation of each opcode. *)
Definition arith_bytes (op2 : Z) : nat :=
  if existsb (Z.eqb op2) [0xd8; 0xdc; 0xe0; 0xe8; 0xec; 0xf8; 0xfc] then 1%nat
  else if existsb (Z.eqb op2) [0xd9; 0xdd; 0xe3; 0xe9; 0xed; 0xf9; 0xfd] then 2%nat else 4%nat.
Definition arith_elem (op2 : Z) (bytes : nat) (av bv : Z) : Z :=
  let m := SimdMask bytes in
  let avg := ((av .& m) + (bv .& m) + 1) .>> 1 in
  switch op2
    [(0xd8, SatSubUnsigned av bv bytes); (0xd9, SatSubUnsigned av bv bytes);
     (0xda, if (av .& m) <? (bv .& m) then av else bv);
     (0xdc, SatAddUnsigned av bv bytes); (0xdd, SatAddUnsigned av bv bytes);
     (0xde, if (bv .& m) <? (av .& m) then av else bv);
     (0xe0, avg); (0xe3, avg);
     (0xe8, SatSubSigned av bv bytes); (0xe9, SatSubSigned av bv bytes);
     (0xea, if SimdSigned av bytes <? SimdSigned bv bytes then av else bv);
     (0xec, SatAddSigned av bv bytes); (0xed, SatAddSigned av bv bytes);
     (0xee, if SimdSigned bv bytes <? SimdSigned av bytes then av else bv);
     (0xf8, u64 (av - bv) .& m); (0xf9, u64 (av - bv) .& m); (0xfa, u64 (av - bv) .& m)]
    (u64 (av + bv) .& m).

(** The opcodes whose result is a function of the two images. *)
Definition packed_table (total : nat) (a b : list Z) : list (Z * list Z) :=
  let gt bytes := elementwise bytes total (fun x y => all_ones bytes (SimdSigned y bytes <? SimdSigned x bytes)) a b in
  let eq bytes := elementwise bytes total (fun x y => all_ones bytes (x =? y)) a b in
  let ar op2 := (op2, elementwise (arith_bytes op2) total (arith_elem op2 (arith_bytes op2)) a b) in
  let logic z := elementwise 1 total z a b in
  [(0x60, unpack 1 total false a b); (0x68, unpack 1 total true a b); (0x61, unpack 2 total false a b);
   (0x69, unpack 2 total true a b); (0x62, unpack 4 total false a b); (0x6a, unpack 4 total true a b);
   (0x6c, unpack 8 total false a b); (0x6d, unpack 8 total true a b);
   (0x63, pack 2 total SatPackSigned a b); (0x67, pack 2 total SatPackUnsigned a b);
   (0x6b, pack 4 total SatPackSigned a b);
   (0x64, gt 1%nat); (0x65, gt 2%nat); (0x66, gt 4%nat); (0x74, eq 1%nat); (0x75, eq 2%nat); (0x76, eq 4%nat);
   (0xdb, logic Z.land); (0xdf, logic (fun x y => (0xff .^ x) .& y)); (0xeb, logic Z.lor); (0xef, logic Z.lxor);
   (0xd4, elementwise 8 total (fun x y => u64 (x + y)) a b); (0xfb, elementwise 8 total (fun x y => u64 (x - y)) a b);
   (0xd5, elementwise 2 total (fun x y => (x * y) .& 0xffff) a b);
   (0xe4, elementwise 2 total (fun x y => ((x * y) .>> 16) .& 0xffff) a b);
   (0xe5, elementwise 2 total (fun x y => (u64 (SimdSigned x 2 * SimdSigned y 2) .>> 16) .& 0xffff) a b);
   (0xf4, set_elems 8 (total / 8) (fun i => u64 (SimdElem a 4 (2 * i) * SimdElem b 4 (2 * i))) a);
   (0xf5, pmaddwd total a b); (0xf6, psadbw total a b)] ++
  (ar <$> [0xd8; 0xd9; 0xda; 0xdc; 0xdd; 0xde; 0xe0; 0xe3; 0xe8; 0xe9; 0xea; 0xec; 0xed; 0xee; 0xf8; 0xf9; 0xfa;
           0xfc; 0xfd; 0xfe]).

(** The shifts by a count operand: kind and element width. *)
Definition shift_table : list (Z * (Z * nat)) :=
  [(0xd1, (0, 2%nat)); (0xd2, (0, 4%nat)); (0xd3, (0, 8%nat)); (0xe1, (1, 2%nat)); (0xe2, (1, 4%nat));
   (0xf1, (2, 2%nat)); (0xf2, (2, 4%nat)); (0xf3, (2, 8%nat))].

(** ** Floating point *)

Section simd_fp.
Context `{SoftFloat, HostMath}.

(** One element of the arithmetic family: the result and the flags raised. *)
Definition SseF32 (rm op a b : Z) : Z * Z :=
  if (op =? 0x52) || (op =? 0x53) then (if op =? 0x52 then rcp32 a else rsqrt32 a, 0)
  else if (op =? 0x5d) || (op =? 0x5f) then
    (if SimdNan32 a || SimdNan32 b then b
     else if op =? 0x5d then (if host_lt 4 a b then a else b)
     else if host_lt 4 b a then a else b, 0)
  else switch op [(0x51, f32_sqrt rm a); (0x58, f32_add rm a b); (0x59, f32_mul rm a b); (0x5c, f32_sub rm a b);
                  (0x5e, f32_div rm a b)] (b, 0).
Definition SseF64 (rm op a b : Z) : Z * Z :=
  if (op =? 0x5d) || (op =? 0x5f) then
    (if SimdNan64 a || SimdNan64 b then b
     else if op =? 0x5d then (if host_lt 8 a b then a else b)
     else if host_lt 8 b a then a else b, 0)
  else switch op [(0x51, f64_sqrt rm a); (0x58, f64_add rm a b); (0x59, f64_mul rm a b); (0x5c, f64_sub rm a b);
                  (0x5e, f64_div rm a b)] (b, 0).

Definition SseInput (f : x86_fpu) (v : Z) (bytes : nat) : Z :=
  if negb (fpu_sse_daz f) then v else fpu_sse_flush v bytes.

(** One iteration of [SimdFp]: result image, flags, FPU state. *)
Definition fp_elem (op2 rm : Z) (esz : nat) (a b : list Z) (st : list Z * Z * x86_fpu) (i : nat) : list Z * Z * x86_fpu :=
  let '(r, sf, f) := st in
  let raw_a := SimdElem a esz i in
  let raw_b := SimdElem b esz i in
  let f := if negb (fpu_sse_daz f) && (simd_denorm esz raw_a || simd_denorm esz raw_b)
           then f <| f_mxcsr := f_mxcsr f .| 2 ^ 1 |> else f in
  let av := SseInput f raw_a esz in
  let bv := SseInput f raw_b esz in
  let '(rv, sf') := if (esz =? 8)%nat then SseF64 rm op2 av bv else SseF32 rm op2 av bv in
  let rv := if fpu_sse_ftz f then fpu_sse_flush rv esz else rv in
  (SimdSetElem r esz i rv, sf .| sf', f).

(** The CMPPS predicates: result and flags. *)
Definition SimdPred (bytes : nat) (p a b : Z) : Z * Z :=
  let ones := SimdMask bytes in
  if simd_nan bytes a || simd_nan bytes b then
    if (p =? 3) || (p =? 7) then (if p =? 3 then ones else 0, 0)
    else if p =? 4 then (ones, 0)
    else if p =? 0 then (0, 0)
    else (if (p =? 1) || (p =? 2) then 0 else ones, softfloat_flag_invalid)
  else
    let eq := host_eq bytes a b in
    let lt := host_lt bytes a b in
    let le := lt || eq in
    (switch p
       [(0, all_ones bytes eq); (1, all_ones bytes lt); (2, all_ones bytes le); (3, 0);
        (4, all_ones bytes (negb eq)); (5, all_ones bytes (negb lt)); (6, all_ones bytes (negb le))] ones, 0).
Definition SimdPred32 := SimdPred 4.
Definition SimdPred64 := SimdPred 8.

Definition cmp_elem (p : Z) (esz : nat) (f : x86_fpu) (a b : list Z) (st : list Z * Z) (i : nat) : list Z * Z :=
  let '(r, sf) := st in
  let av := SseInput f (SimdElem a esz i) esz in
  let bv := SseInput f (SimdElem b esz i) esz in
  let '(rv, sf') := if (esz =? 8)%nat then SimdPred64 p av bv else SimdPred32 p av bv in
  (SimdSetElem r esz i rv, sf .| sf').

(** The signalling test of COMISS, applied to either operand. *)
Definition comi_snan (bytes : nat) (v : Z) : bool :=
  if (bytes =? 8)%nat then negb (tst (v .>> 51) 1) && negb (v .& 0x000fffffffffffff =? 0)
  else negb (tst (v .>> 22) 1) && negb (v .& 0x003fffff =? 0).
End simd_fp.

(** ** The instructions *)

Section simd.
Context {Ops Dev W : Type} `{BusDevices Ops Dev W, X86Pins W, SoftFloat, HostMath}.
#[local] Abbreviation XM := (M (XMach Ops Dev W)).

Definition xmm_get (i : Z) : XM (list Z) := f <- getst fpu ;; mret' (arr (f_xmm f) i).
Definition xmm_put (i : Z) (v : list Z) : XM unit := fpu_do (fun f => f <| f_xmm := arr_set (f_xmm f) i v |>).
(** [memcpy(s->fpu.xmm[i] + off, v, n)] *)
Definition xmm_blit (i : Z) (off : nat) (v : list Z) : XM unit := x <- xmm_get i ;; xmm_put i (blit x off v).

Definition MmxPhys (f : x86_fpu) (i : Z) : Z := fpu_phys f i.
Definition MmxGet (i : Z) : XM Z := f <- getst fpu ;; mret' (signif (arr (f_st f) (MmxPhys f i))).
Definition MmxSet (i v : Z) : XM unit := fpu_do (fun f => fpu_put f (MmxPhys f i) (mkExt80 v 0xffff)).
Definition MmxEmms : XM unit := fpu_do (fun f => fpu_set_top (f <| f_tw := 0xffff |>) 0).

(** A register operand as an image, XMM or MMX. *)
Definition simd_reg (xmm : bool) (i : Z) : XM (list Z) :=
  if xmm then xmm_get i else v <- MmxGet i ;; mret' (mmx_image v).
Definition simd_reg_put (xmm : bool) (i : Z) (v : list Z) : XM unit :=
  if xmm then xmm_put i v else MmxSet i (SimdElem v 8 0).

(** The 8-byte chunks a memory operand of [bytes] bytes moves in; the last
    one is a whole 8-byte access whatever is left. *)
Definition chunks (bytes : nat) : list nat := (fun k => 8 * k)%nat <$> seq 0 ((bytes + 7) / 8).
Fixpoint load_chunks (lin : Z) (bytes : nat) (offs : list nat) (out : list Z) : XM (list Z) :=
  match offs with
  | [] => mret' out
  | i :: offs =>
      v <- rd64 (u64 (lin + Z.of_nat i)) ;;
      load_chunks lin bytes offs (blit out i (le_bytes (8 `min` (bytes - i)) v))
  end.
Fixpoint store_chunks (lin : Z) (bytes : nat) (src : list Z) (offs : list nat) : XM unit :=
  match offs with
  | [] => mret' tt
  | i :: offs =>
      wr64 (u64 (lin + Z.of_nat i)) (le_val (slice src i (8 `min` (bytes - i)))) ;;;
      store_chunks lin bytes src offs
  end.
Definition simd_load (bytes : nat) : XM (list Z) :=
  lin <- mem_use (Z.of_nat bytes) false ;; load_chunks lin bytes (chunks bytes) zero16.
Definition simd_store (bytes : nat) (v : list Z) : XM unit :=
  lin <- mem_use (Z.of_nat bytes) true ;; store_chunks lin bytes v (chunks bytes).

Definition SimdSrc (membytes : nat) (xmmreg : bool) : XM (list Z) :=
  dd <- getd id ;;
  if d_is_mem dd then simd_load membytes else simd_reg xmmreg (d_rm dd).
Definition SimdDst (v : list Z) (xmmreg : bool) : XM unit := reg <- getd d_reg ;; simd_reg_put xmmreg reg v.

Definition raise_sse : XM unit :=
  c4 <- getst cr4 ;; if tst c4 kCr4Osxmmexcpt then raise_ vec_xm 0 else ud.
Definition SimdCheckSse (sf : Z) : XM unit :=
  e <- fpu_val (fun f => fpu_sse_end f sf) ;; when e : bool do raise_sse.

(** The operand shape the mandatory prefixes select: bytes read, element
    count, element size. *)
Definition fp_shape (dd : dec) : nat * nat * nat :=
  let sd := d_pf2 dd in
  let ss := d_pf3 dd && negb sd in
  let pd := d_p66 dd && negb sd && negb ss in
  (if sd then 8%nat else if ss then 4%nat else 16%nat,
   if sd || ss then 1%nat else if pd then 2%nat else 4%nat,
   if sd || pd then 8%nat else 4%nat).

Definition SimdFp (op2 : Z) : XM unit :=
  modrm ;;;
  dd <- getd id ;;
  let '(bytes, count, esz) := fp_shape dd in
  a <- xmm_get (d_reg dd) ;;
  b <- SimdSrc bytes true ;;
  f <- getst fpu ;;
  let '(r, sf, f') := fold_left (fp_elem op2 (fpu_sse_begin f) esz a b) (seq 0 count) (a, 0, f) in
  setst fpu f' ;;;
  xmm_put (d_reg dd) r ;;;
  SimdCheckSse sf.

Definition SimdCmp (imm : Z) : XM unit :=
  dd <- getd id ;;
  let '(bytes, count, esz) := fp_shape dd in
  a <- xmm_get (d_reg dd) ;;
  b <- SimdSrc bytes true ;;
  f <- getst fpu ;;
  let '(r, sf) := fold_left (cmp_elem (imm .& 7) esz f a b) (seq 0 count) (a, 0) in
  xmm_put (d_reg dd) r ;;;
  SimdCheckSse sf.

Definition SimdComi (ucomi : bool) : XM unit :=
  modrm ;;;
  dd <- getd id ;;
  let esz := if d_pf2 dd then 8%nat else 4%nat in
  b <- SimdSrc esz true ;;
  x <- xmm_get (d_reg dd) ;;
  let a := SimdElem x esz 0 in
  let bv := SimdElem b esz 0 in
  let nan := simd_nan esz a || simd_nan esz bv in
  let snan := nan && (comi_snan esz a || comi_snan esz bv) in
  (when nan && (negb ucomi || snan) do
     (f <- getst fpu ;;
      let mx := f_mxcsr f .| 1 in
      setst fpu (f <| f_mxcsr := mx |>) ;;;
      when negb ((mx .& 0x3f) &~ ((mx .>> 7) .& 0x3f) =? 0) do raise_sse)) ;;;
  let c := if nan then 2 ^ 0 .| 2 ^ 2 .| 2 ^ 6
           else if host_eq esz a bv then 2 ^ 6 else if host_lt esz a bv then 2 ^ 0 else 0 in
  mod_fl (fun w => (w &~ 0x8d5) .| c).

(** *** Moves *)

Definition SimdMov (op2 : Z) : XM unit :=
  modrm ;;;
  dd <- getd id ;;
  let store := (op2 =? 0x11) || (op2 =? 0x29) in
  let sd := d_pf2 dd in
  let ss := d_pf3 dd && negb sd in
  let bytes := if sd then 8%nat else if ss then 4%nat else 16%nat in
  (when (op2 =? 0x28) || (op2 =? 0x29) do
     ((when negb (d_p66 dd) && (d_pf2 dd || d_pf3 dd) do ud) ;;;
      when d_is_mem dd && tst (d_mlin dd) 15 do gp_fault 0)) ;;;
  if negb store then
    if d_is_mem dd then
      tmp <- simd_load bytes ;;
      (when sd || ss do xmm_put (d_reg dd) zero16) ;;;
      xmm_blit (d_reg dd) 0 (take bytes tmp)
    else tmp <- xmm_get (d_rm dd) ;; xmm_blit (d_reg dd) 0 (take bytes tmp)
  else
    tmp <- xmm_get (d_reg dd) ;;
    if d_is_mem dd then simd_store bytes tmp else xmm_blit (d_rm dd) 0 (take bytes tmp).

(** The duplicating loads: elements of the source, written one by one. *)
Definition dup_elems (pick : nat -> nat) : XM unit :=
  b <- SimdSrc 16 true ;;
  reg <- getd d_reg ;;
  x <- xmm_get reg ;;
  xmm_put reg (set_elems 4 4 (fun i => SimdElem b 4 (pick i)) x).

Definition SimdMovHalf (op2 : Z) : XM unit :=
  modrm ;;;
  dd <- getd id ;;
  if d_pf3 dd && (op2 =? 0x12) then dup_elems (fun i => i mod 2)%nat
  else if d_pf3 dd && (op2 =? 0x16) then dup_elems (fun i => 2 + i mod 2)%nat
  else if d_pf2 dd && (op2 =? 0x12) then
    b <- SimdSrc 16 true ;; xmm_blit (d_reg dd) 0 (take 8 b) ;;; xmm_blit (d_reg dd) 8 (take 8 b)
  else
    (when d_pf2 dd || (d_pf3 dd && negb (op2 =? 0x12) && negb (op2 =? 0x16)) do ud) ;;;
    if negb (d_is_mem dd) && negb (d_p66 dd) then
      if op2 =? 0x12 then x <- xmm_get (d_rm dd) ;; xmm_blit (d_reg dd) 0 (slice x 8 8)
      else if op2 =? 0x16 then x <- xmm_get (d_rm dd) ;; xmm_blit (d_reg dd) 8 (take 8 x)
      else ud
    else
      let off := if (op2 =? 0x16) || (op2 =? 0x17) then 8%nat else 0%nat in
      let store := (op2 =? 0x13) || (op2 =? 0x17) in
      (when store && negb (d_is_mem dd) do ud) ;;;
      if store then
        lin <- mem_use 8 true ;; x <- xmm_get (d_reg dd) ;; wr64 lin (le_val (slice x off 8))
      else if d_is_mem dd then
        lin <- mem_use 8 false ;; v <- rd64 lin ;; xmm_blit (d_reg dd) off (le_bytes 8 v)
      else x <- xmm_get (d_rm dd) ;; xmm_blit (d_reg dd) off (take 8 x).

(** [memset(xmm, 0, 16); memcpy(xmm, v, n);] *)
Definition xmm_low (i : Z) (v : list Z) : XM unit := xmm_put i (blit zero16 0 v).
(** A 32-bit value to r/m32. *)
Definition movd_out (v : Z) : XM unit :=
  dd <- getd id ;;
  if d_is_mem dd then lin <- mem_use 4 true ;; wr32 lin v else setE (d_rm dd) v.

Definition movq_d6 (dd : dec) : XM unit :=
  if d_p66 dd then
    x <- xmm_get (d_reg dd) ;;
    if d_is_mem dd then lin <- mem_use 8 true ;; wr64 lin (SimdElem x 8 0)
    else xmm_blit (d_rm dd) 0 (take 8 x)
  else if d_pf3 dd then v <- MmxGet (d_rm dd) ;; xmm_low (d_reg dd) (le_bytes 8 v)
  else if d_pf2 dd then x <- xmm_get (d_rm dd) ;; MmxSet (d_reg dd) (SimdElem x 8 0)
  else ud.
Definition movd_6e (dd : dec) : XM unit :=
  v <- (if d_is_mem dd then lin <- mem_use 4 false ;; rd32 lin else getE (d_rm dd)) ;;
  if d_p66 dd || d_pf3 dd then xmm_low (d_reg dd) (le_bytes 4 v) else MmxSet (d_reg dd) v.
Definition movd_7e (dd : dec) : XM unit :=
  if d_pf3 dd then
    v <- (if d_is_mem dd then lin <- mem_use 8 false ;; rd64 lin else getr id (d_rm dd)) ;;
    xmm_low (d_reg dd) (le_bytes 8 v)
  else if d_p66 dd then x <- xmm_get (d_reg dd) ;; movd_out (SimdElem x 4 0)
  else v <- MmxGet (d_reg dd) ;; movd_out (u32 v).
Definition movdq (dd : dec) (store : bool) : XM unit :=
  let xmm := d_p66 dd || d_pf3 dd in
  let bytes := if xmm then 16%nat else 8%nat in
  (when xmm && d_is_mem dd && tst (d_mlin dd) 15 && negb (d_pf3 dd) do gp_fault 0) ;;;
  if negb store then v <- SimdSrc bytes xmm ;; SimdDst v xmm
  else
    v <- simd_reg xmm (d_reg dd) ;;
    if d_is_mem dd then simd_store bytes v else simd_reg_put xmm (d_rm dd) v.

Definition SimdMovQ (op2 : Z) : XM unit :=
  modrm ;;;
  dd <- getd id ;;
  switch op2 [(0xd6, movq_d6 dd); (0x6e, movd_6e dd); (0x7e, movd_7e dd)] (movdq dd (op2 =? 0x7f)).

Definition SimdMovmsk : XM unit :=
  modrm ;;;
  dd <- getd id ;;
  x <- xmm_get (d_rm dd) ;;
  let '(count, esz) := if d_p66 dd then (2, 8)%nat else (4, 4)%nat in
  let m := fold_left (fun m i => m .| (((SimdElem x esz i .>> (8 * Z.of_nat esz - 1)) .& 1) .<< Z.of_nat i)) (seq 0 count) 0 in
  if d_w32 dd then setE (d_reg dd) m else setX (d_reg dd) m.

(** *** Shuffles *)

(** The two-bit field [i] of a shuffle immediate. *)
Definition shuf_sel (imm : Z) (i : nat) : nat := Z.to_nat ((imm .>> (2 * Z.of_nat i)) .& 3).

Definition SimdShuf (imm : Z) : XM unit :=
  dd <- getd id ;;
  if negb (d_p66 dd) && negb (d_pf2 dd) && negb (d_pf3 dd) then
    v <- (if d_is_mem dd then lin <- mem_use 8 false ;; rd64 lin else MmxGet (d_rm dd)) ;;
    MmxSet (d_reg dd)
      (fold_left (fun r i => r .| (((v .>> (16 * Z.of_nat (shuf_sel imm i))) .& 0xffff) .<< (16 * Z.of_nat i))) (seq 0 4) 0)
  else if d_pf3 dd || d_pf2 dd then
    let half := if d_pf3 dd then 4%nat else 0%nat in
    b <- SimdSrc 16 true ;;
    x <- xmm_get (d_reg dd) ;;
    xmm_put (d_reg dd) (fold_left (fun r i => SimdSetElem r 2 (half + i) (SimdElem b 2 (half + shuf_sel imm i))) (seq 0 4) x)
  else
    b <- SimdSrc 16 true ;;
    x <- xmm_get (d_reg dd) ;;
    xmm_put (d_reg dd) (set_elems 4 4 (fun i => SimdElem b 4 (shuf_sel imm i)) x).

Definition SimdShufp (imm : Z) : XM unit :=
  dd <- getd id ;;
  a <- xmm_get (d_reg dd) ;;
  b <- SimdSrc 16 true ;;
  xmm_put (d_reg dd)
    (if negb (d_p66 dd) then set_elems 4 4 (fun i => SimdElem (if (i <? 2)%nat then a else b) 4 (shuf_sel imm i)) zero16
     else set_elems 8 2 (fun i => SimdElem (if (i =? 0)%nat then a else b) 8 (Z.to_nat ((imm .>> Z.of_nat i) .& 1))) zero16).

(** UNPCKLPS and friends. *)
Definition SimdUnpck (op2 : Z) : XM unit :=
  modrm ;;;
  dd <- getd id ;;
  a <- xmm_get (d_reg dd) ;;
  b <- SimdSrc 16 true ;;
  xmm_put (d_reg dd) (unpack (if d_p66 dd then 8 else 4) 16 (op2 =? 0x15) a b).

(** PINSRW and PEXTRW; the MMX forms shift a [uint64_t] by 16 times the
    3-bit selector. *)
Definition SimdInsExtrWord (op2 imm : Z) : XM unit :=
  let sel := imm .& 7 in
  dd <- getd id ;;
  let mmx_shift := when negb (d_p66 dd) && (64 <=? 16 * sel) do abort ShiftRange in
  if op2 =? 0xc4 then
    v <- (if d_is_mem dd then lin <- mem_use 2 false ;; rd16 lin else getX (d_rm dd)) ;;
    mmx_shift ;;;
    if d_p66 dd then x <- xmm_get (d_reg dd) ;; xmm_put (d_reg dd) (SimdSetElem x 2 (Z.to_nat sel) v)
    else m <- MmxGet (d_reg dd) ;; MmxSet (d_reg dd) ((m &~ (0xffff .<< (16 * sel))) .| (v .<< (16 * sel)))
  else
    mmx_shift ;;;
    v <- (if d_p66 dd then x <- xmm_get (d_rm dd) ;; mret' (SimdElem x 2 (Z.to_nat sel))
          else m <- MmxGet (d_rm dd) ;; mret' ((m .>> (16 * sel)) .& 0xffff)) ;;
    setE (d_reg dd) v.

(** *** Packed integers *)

(** [ud()] where the result has no operation, the end of the run where a
    shift leaves the type. *)
Definition or_abort {A} (o : option A) : XM A := match o with Some a => mret' a | None => abort ShiftRange end.

Definition op_pmovmskb : XM unit :=
  modrm ;;;
  dd <- getd id ;;
  let bytes := if d_p66 dd then 16%nat else 8%nat in
  b <- SimdSrc bytes (d_p66 dd) ;;
  setE (d_reg dd) (fold_left (fun m i => m .| (((b !!! i .>> 7) .& 1) .<< Z.of_nat i)) (seq 0 bytes) 0).

Definition op_movnt : XM unit :=
  modrm ;;;
  dd <- getd id ;;
  (when negb (d_is_mem dd) do ud) ;;;
  let bytes := if d_p66 dd then 16%nat else 8%nat in
  lin <- mem_use (Z.of_nat bytes) true ;;
  b <- simd_reg (d_p66 dd) (d_reg dd) ;;
  store_chunks lin bytes b (chunks bytes).

Definition op_maskmov : XM unit :=
  modrm ;;;
  dd <- getd id ;;
  src <- simd_reg (d_p66 dd) (d_reg dd) ;;
  mask <- simd_reg (d_p66 dd) (d_rm dd) ;;
  dioff <- (if d_a32 dd then getE edi_i else getX edi_i) ;;
  for_each (seq 0 (if d_p66 dd then 16 else 8)) (fun i =>
    when tst (mask !!! i) 0x80 do
      (seg_use es_i (u32 (dioff + Z.of_nat i)) 1 true ;;;
       b <- geta base es_i ;;
       let lin := u64 (b + dioff + Z.of_nat i) in
       WatchData lin 1 true ;;;
       wr8 lin (src !!! i))).

Definition op_lddqu : XM unit :=
  modrm ;;;
  dd <- getd id ;;
  (when negb (d_pf2 dd) do ud) ;;;
  b <- SimdSrc 16 true ;;
  xmm_put (d_reg dd) b.

(** The immediate shift groups 71, 72 and 73: the destination is r/m. *)
Definition op_shift_imm (op2 : Z) : XM unit :=
  modrm ;;;
  imm <- imm8 ;;
  dd <- getd id ;;
  let xmm := d_p66 dd in
  let bytes := if op2 =? 0x71 then 2%nat else if op2 =? 0x72 then 4%nat else 8%nat in
  a <- simd_reg xmm (d_rm dd) ;;
  kind <- switch (d_reg dd) [(2, mret' 0); (4, mret' 1); (6, mret' 2)] ud ;;
  r <- or_abort (shift_elems kind bytes (shift_count bytes imm) a (seq 0 ((if xmm then 16 else 8) / bytes)) zero16) ;;
  simd_reg_put xmm (d_rm dd) r.

Definition SimdInteger (op2 : Z) : XM unit :=
  if op2 =? 0x77 then MmxEmms
  else if op2 =? 0xd7 then op_pmovmskb
  else if op2 =? 0xe7 then op_movnt
  else if op2 =? 0xf7 then op_maskmov
  else if op2 =? 0xf0 then op_lddqu
  else if (op2 =? 0x71) || (op2 =? 0x72) || (op2 =? 0x73) then op_shift_imm op2
  else
    modrm ;;;
    dd <- getd id ;;
    let xmm := d_p66 dd in
    let total := if xmm then 16%nat else 8%nat in
    a <- simd_reg xmm (d_reg dd) ;;
    b <- SimdSrc total xmm ;;
    r <- switch op2
           (((fun '(k, r) => (k, mret' r)) <$> packed_table total a b) ++
            ((fun '(k, (kind, bytes)) =>
                (k, or_abort (shift_elems kind bytes (shift_count bytes (SimdElem b 8 0)) a (seq 0 (total / bytes)) a)))
             <$> shift_table)) ud ;;
    SimdDst r xmm.

(** *** Conversions *)

(** [n] elements of [from] bytes converted to [to] bytes: image and flags. *)
Definition convert (n from to : nat) (g : Z -> Z * Z) (b r : list Z) : list Z * Z :=
  fold_left (fun st i => let '(v, sf) := g (SimdElem b from i) in (SimdSetElem (fst st) to i v, snd st .| sf)) (seq 0 n) (r, 0).

(** Write the destination, then report the flags. *)
Definition cvt_done (rsf : list Z * Z) : XM unit :=
  reg <- getd d_reg ;; xmm_put reg (fst rsf) ;;; SimdCheckSse (snd rsf).

(** A float element to an [int32_t], by the instruction's rounding. *)
Definition to_i32 (dbl trunc : bool) (rm v : Z) : Z * Z :=
  let '(q, sf) := if dbl then (if trunc then f64_to_i32_r_minMag v true else f64_to_i32 v rm true)
                  else (if trunc then f32_to_i32_r_minMag v true else f32_to_i32 v rm true) in
  (u32 q, sf).
(** An [int32_t] element to a float. *)
Definition of_i32 (dbl : bool) (rm v : Z) : Z * Z := if dbl then i32_to_f64 rm (s32 (u32 v)) else i32_to_f32 rm (s32 (u32 v)).

Definition cvt_2a (dd : dec) (ss sd : bool) (r : list Z) : XM unit :=
  f <- getst fpu ;;
  let rm := fpu_sse_begin f in
  if ss || sd then
    iv <- (if d_is_mem dd then lin <- mem_use 4 false ;; rd32 lin else getE (d_rm dd)) ;;
    let '(v, sf) := of_i32 (negb ss) rm iv in
    cvt_done (SimdSetElem r (if ss then 4 else 8) 0 v, sf)
  else
    m <- (if d_is_mem dd then lin <- mem_use 8 false ;; rd64 lin else MmxGet (d_rm dd)) ;;
    let pd := d_p66 dd in
    let esz := if pd then 8%nat else 4%nat in
    let '(r', sf) := convert 2 4 esz (of_i32 pd rm) (mmx_image m) r in
    cvt_done (blit zero16 0 (take (2 * esz) r'), sf).

Definition cvt_2c (dd : dec) (trunc ss sd : bool) : XM unit :=
  b <- SimdSrc (if ss || sd then (if ss then 4 else 8) else 16) true ;;
  f <- getst fpu ;;
  let rm := fpu_sse_begin f in
  if ss || sd then
    let '(q, sf) := to_i32 (negb ss) trunc rm (SimdElem b (if ss then 4 else 8) 0) in
    setE (d_reg dd) q ;;; SimdCheckSse sf
  else
    let '(r, sf) := convert 2 (if d_p66 dd then 8 else 4) 4 (to_i32 (d_p66 dd) trunc rm) b zero16 in
    SimdDst r false ;;; SimdCheckSse sf.

Definition cvt_5a (dd : dec) (ss sd : bool) (r : list Z) : XM unit :=
  b <- SimdSrc (if ss then 4 else if sd then 8 else if d_p66 dd then 16 else 8) true ;;
  f <- getst fpu ;;
  let rm := fpu_sse_begin f in
  cvt_done (if ss then convert 1 4 8 (f32_to_f64 rm) b r
            else if sd then convert 1 8 4 (f64_to_f32 rm) b r
            else if d_p66 dd then convert 2 8 4 (f64_to_f32 rm) b zero16
            else convert 2 4 8 (f32_to_f64 rm) b r).

Definition cvt_5b (dd : dec) (r : list Z) : XM unit :=
  b <- SimdSrc 16 true ;;
  f <- getst fpu ;;
  let rm := fpu_sse_begin f in
  cvt_done (convert 4 4 4 (if d_pf3 dd then to_i32 false true rm
                           else if d_p66 dd then to_i32 false false rm else of_i32 false rm) b r).

Definition cvt_e6 (dd : dec) : XM unit :=
  b <- SimdSrc 16 true ;;
  f <- getst fpu ;;
  let rm := fpu_sse_begin f in
  cvt_done (if d_pf3 dd then convert 2 4 8 (of_i32 true rm) b zero16
            else convert 2 8 4 (to_i32 true (d_pf2 dd) rm) b zero16).

Definition SimdConvert (op2 : Z) : XM unit :=
  modrm ;;;
  dd <- getd id ;;
  let sd := d_pf2 dd in
  let ss := d_pf3 dd && negb sd in
  r <- xmm_get (d_reg dd) ;;
  switch op2
    [(0x2a, cvt_2a dd ss sd r); (0x2c, cvt_2c dd true ss sd); (0x2d, cvt_2c dd false ss sd);
     (0x5a, cvt_5a dd ss sd r); (0x5b, cvt_5b dd r); (0xe6, cvt_e6 dd)] ud.

(** *** The map *)

Definition op_movntps : XM unit :=
  modrm ;;;
  dd <- getd id ;;
  (when negb (d_is_mem dd) do ud) ;;;
  x <- xmm_get (d_reg dd) ;;
  simd_store 16 x.
Definition op_movnti : XM unit :=
  modrm ;;;
  dd <- getd id ;;
  (when negb (d_is_mem dd) || negb (d_w32 dd) do ud) ;;;
  lin <- mem_use 4 true ;; v <- getE (d_reg dd) ;; wr32 lin v.

(** ModRM, an immediate byte, the operation. *)
Definition simd_imm (op : Z -> XM unit) : XM unit := modrm ;;; imm <- imm8 ;; op imm.

Definition simd_table (op2 : Z) : list (Z * XM unit) :=
  [(0x10, SimdMov op2); (0x11, SimdMov op2); (0x28, SimdMov op2); (0x29, SimdMov op2);
   (0x12, SimdMovHalf op2); (0x13, SimdMovHalf op2); (0x16, SimdMovHalf op2); (0x17, SimdMovHalf op2);
   (0x14, SimdUnpck op2); (0x15, SimdUnpck op2); (0x2b, op_movntps); (0x2e, SimdComi true); (0x2f, SimdComi false);
   (0x2a, SimdConvert op2); (0x2c, SimdConvert op2); (0x2d, SimdConvert op2); (0x5a, SimdConvert op2);
   (0x5b, SimdConvert op2); (0xe6, SimdConvert op2); (0x50, SimdMovmsk);
   (0x51, SimdFp op2); (0x52, SimdFp op2); (0x53, SimdFp op2); (0x58, SimdFp op2); (0x59, SimdFp op2);
   (0x5c, SimdFp op2); (0x5d, SimdFp op2); (0x5e, SimdFp op2); (0x5f, SimdFp op2);
   (0x6e, SimdMovQ op2); (0x7e, SimdMovQ op2); (0x6f, SimdMovQ op2); (0x7f, SimdMovQ op2); (0xd6, SimdMovQ op2);
   (0x70, simd_imm SimdShuf); (0x77, SimdInteger op2); (0xc2, simd_imm SimdCmp); (0xc3, op_movnti);
   (0xc4, simd_imm (SimdInsExtrWord op2)); (0xc5, simd_imm (SimdInsExtrWord op2)); (0xc6, simd_imm SimdShufp)].

Definition SimdOp (op2 : Z) : XM unit :=
  c0 <- getst cr0 ;;
  (when tst c0 kCr0Ts do nm) ;;;
  (when tst c0 kCr0Em do ud) ;;;
  switch op2 (simd_table op2)
    (if ((0x60 <=? op2) && (op2 <=? 0x76)) || ((0xd1 <=? op2) && (op2 <=? 0xdf)) ||
        ((0xe0 <=? op2) && (op2 <=? 0xef)) || ((0xf0 <=? op2) && (op2 <=? 0xfe))
     then SimdInteger op2 else ud).
End simd.
