(* ===== verification/X86Group.v ===== *)
(** * Instruction families (cpu/isa/x86/exec.c)

    The ALU forms, GRP1 to GRP3, multiplication and division, the string
    instructions and the decimal adjustments, against the machine. *)

From S2P Require Import Prelude Bus Ram RvState Run X86State X86Flags X86Mem X86Oper X86Seg.

Section group.
Context {Ops Dev W : Type} `{BusDevices Ops Dev W}.
#[local] Abbreviation XM := (M (XMach Ops Dev W)).

(** Run a flag function: its result, with EFLAGS updated. *)
Definition with_fl (f : Z -> Z * Z) : XM Z :=
  w <- getst fl ;; let '(r, w') := f w in put fl w' ;;; mret' r.
Definition upd_fl (f : Z -> Z) : XM unit := w <- getst fl ;; put fl (f w).

(** ** The two-operand ALU family

    [op rm8,r8 / op rm,r / op r8,rm8 / op r,rm / op al,imm8 / op eAX,imm]:
    the destination is written before the flags; CMP writes none. *)

Definition alu_store (kind : Z) (store : Z -> XM unit) (a b size : Z) : XM unit :=
  w <- getst fl ;;
  let '(r, w') := grp1_math w kind a b size in
  (when negb (kind =? 7) do store r) ;;;
  put fl w'.

Definition alu_form (kind form : Z) : XM unit :=
  n <- opsize ;;
  let size := if tst form 1 then n else 1 in
  if form <? 2 then
    modrm ;;; a <- rm_n size ;; b <- reg_n size ;; alu_store kind (set_rm_n size) a b size
  else if form <? 4 then
    modrm ;;; a <- reg_n size ;; b <- rm_n size ;; alu_store kind (set_reg_n size) a b size
  else
    a <- acc_n size ;; b <- imm_n size ;; alu_store kind (set_acc_n size) a b size.

Definition op_add := alu_form 0.
Definition op_or := alu_form 1.
Definition op_adc := alu_form 2.
Definition op_sbb := alu_form 3.
Definition op_and := alu_form 4.
Definition op_sub := alu_form 5.
Definition op_xor := alu_form 6.
Definition op_cmp := alu_form 7.

(** ** GRP1: the flags are set before the destination is written *)

Definition grp1 (size imm_form : Z) : XM unit :=
  modrm ;;;
  src <- (if imm_form =? 1 then b <- imm8 ;; mret' (u32 (s8 b))
          else if imm_form =? 2 then imm8
          else w32 <- getd d_w32 ;; if w32 : bool then imm32 else imm16) ;;
  a <- rm_n size ;;
  let b := src .& vmask size in
  reg <- getd d_reg ;;
  r <- with_fl (fun w => grp1_math w reg a b size) ;;
  when negb (reg =? 7) do set_rm_n size r.

(** ** GRP2 *)

Definition grp2 (size cnt : Z) : XM unit :=
  let cnt := cnt .& 31 in
  reg <- getd d_reg ;;
  v <- rm_n size ;;
  r <- with_fl (fun w => grp2_op reg w v cnt size) ;;
  when negb (cnt =? 0) do set_rm_n size r.

(** ** Multiplication and division *)

Definition mul8 : XM unit :=
  al <- getL eax_i ;;
  b <- rm8 ;;
  let prod := al * b in
  setX eax_i prod ;;;
  upd_fl (fun w => flags_mul w prod 1).

Definition imul8 : XM unit :=
  al <- getL eax_i ;;
  b <- rm8 ;;
  let prod := s8 al * s8 b in
  setX eax_i prod ;;;
  upd_fl (fun w => flags_imul w prod 1).

(** A double-width result into eDX:eAX. *)
Definition set_pair (prod : Z) : XM unit :=
  w32 <- getd d_w32 ;;
  if w32 : bool then setE eax_i prod ;;; setE edx_i (prod .>> 32)
  else setX eax_i prod ;;; setX edx_i (prod .>> 16).

Definition mul_w (src : Z) : XM unit :=
  n <- opsize ;;
  a <- acc_n n ;;
  let prod := a * src in
  set_pair prod ;;;
  upd_fl (fun w => flags_mul w prod n).

Definition imul_w (src : Z) : XM unit :=
  n <- opsize ;;
  a <- acc_n n ;;
  let prod := signed (8 * n) a * signed (8 * n) (wrap (8 * n) src) in
  set_pair prod ;;;
  upd_fl (fun w => flags_imul w prod n).

Definition div8 : XM unit :=
  dividend <- getX eax_i ;;
  divisor <- rm8 ;;
  (when (divisor =? 0) || (0xff <? dividend / divisor) do de) ;;;
  setL eax_i (dividend / divisor) ;;;
  setH eax_i (dividend mod divisor).

(** C's [/] and [%] on signed integers truncate towards zero. *)
Definition idiv8 : XM unit :=
  ax <- getX eax_i ;;
  let dividend := s16 ax in
  b <- rm8 ;;
  let divisor := s8 b in
  (when divisor =? 0 do de) ;;;
  let q := Z.quot dividend divisor in
  (when negb (q =? s8 (u8 q)) do de) ;;;
  setL eax_i q ;;;
  setH eax_i (Z.rem dividend divisor).

(** eDX:eAX *)
Definition get_pair (n : Z) : XM Z :=
  lo <- acc_n n ;;
  hi <- (if n =? 4 then getE edx_i else getX edx_i) ;;
  mret' ((hi .<< (8 * n)) .| lo).

Definition div_w (src : Z) : XM unit :=
  n <- opsize ;;
  dividend <- get_pair n ;;
  let divisor := src .& vmask n in
  (when (divisor =? 0) || (vmask n <? dividend / divisor) do de) ;;;
  let q := dividend / divisor in
  let r := dividend mod divisor in
  if n =? 4 then setE eax_i q ;;; setE edx_i r else setX eax_i q ;;; setX edx_i r.

(** The 64-by-32 division is an [int64_t] division: it overflows on the one
    quotient 2^63. *)
Definition idiv_w (src : Z) : XM unit :=
  n <- opsize ;;
  pair <- get_pair n ;;
  let dividend := signed (16 * n) pair in
  let divisor := signed (8 * n) (wrap (8 * n) src) in
  (when divisor =? 0 do de) ;;;
  (when (dividend =? - 2 ^ 63) && (divisor =? -1) do abort SignedOverflow) ;;;
  let q := Z.quot dividend divisor in
  let hi := 1 .<< (8 * n - 1) in
  (when (q <? - hi) || (hi <=? q) do de) ;;;
  let r := Z.rem dividend divisor in
  if n =? 4 then setE eax_i q ;;; setE edx_i r else setX eax_i q ;;; setX edx_i r.

(** ** GRP3 *)

Definition grp3 (size : Z) : XM unit :=
  modrm ;;;
  reg <- getd d_reg ;;
  if reg <=? 1 then
    imm <- (if size =? 1 then imm8 else w32 <- getd d_w32 ;; if w32 : bool then imm32 else imm16) ;;
    a <- rm_n size ;;
    upd_fl (fun w => flags_logic w (a .& imm) size)
  else if reg =? 2 then v <- rm_n size ;; set_rm_n size (Z.lnot v)
  else if reg =? 3 then
    v <- rm_n size ;;
    let r := wrap (8 * size) (- v) in
    upd_fl (fun w => flags_sub w 0 v r size 0) ;;;
    set_rm_n size r
  else if size =? 1 then
    switch reg [(4, mul8); (5, imul8); (6, div8)] idiv8
  else
    src <- rm_n size ;;
    switch reg [(4, mul_w src); (5, imul_w src); (6, div_w src)] (idiv_w src).

(** ** String instructions *)

Definition str_uses_si (op : Z) : bool :=
  ((0xa4 <=? op) && (op <=? 0xa7)) || (op =? 0xac) || (op =? 0xad) || (op =? 0x6e) || (op =? 0x6f).
Definition str_uses_di (op : Z) : bool :=
  ((0xa4 <=? op) && (op <=? 0xa7)) || (op =? 0xaa) || (op =? 0xab) || (op =? 0xae) || (op =? 0xaf) ||
  (op =? 0x6c) || (op =? 0x6d).
(** The members that write ES:[eDI], and those that compare. *)
Definition str_writes_di (op : Z) : bool :=
  (op =? 0xa4) || (op =? 0xa5) || (op =? 0xaa) || (op =? 0xab) || (op =? 0x6c) || (op =? 0x6d).
Definition str_compares (op : Z) : bool := ((0xa6 <=? op) && (op <=? 0xa7)) || (op =? 0xae) || (op =? 0xaf).

(** An index register at the address size. *)
Definition str_index (i : Z) : XM Z := a32 <- getd d_a32 ;; if a32 : bool then getE i else getX i.
Definition str_advance (i off step : Z) : XM unit :=
  a32 <- getd d_a32 ;;
  if a32 : bool then v <- getE i ;; setE i (v + step) else setX i (off + step).

Definition str_cmp (a b size : Z) : XM unit :=
  let r := u32 (a - b) .& vmask size in upd_fl (fun w => flags_sub w a b r size 0).

Definition str_body (op size slin dlin : Z) : XM unit :=
  let movs := WatchData slin size false ;;; WatchData dlin size true ;;; v <- rd_n size slin ;; wr_n size dlin v in
  let cmps := WatchData slin size false ;;; WatchData dlin size false ;;;
              a <- rd_n size slin ;; b <- rd_n size dlin ;; str_cmp a b size in
  let stos := WatchData dlin size true ;;; v <- acc_n size ;; wr_n size dlin v in
  let lods := WatchData slin size false ;;; v <- rd_n size slin ;; set_acc_n size v in
  let ins := WatchData dlin size true ;;; port <- getX edx_i ;; v <- io_in port size ;; wr_n size dlin v in
  let outs := WatchData slin size false ;;; v <- rd_n size slin ;; port <- getX edx_i ;; io_out port size v in
  let scas := WatchData dlin size false ;;; a <- acc_n size ;; b <- rd_n size dlin ;; str_cmp a b size in
  switch op
    [(0xa4, movs); (0xa5, movs); (0xa6, cmps); (0xa7, cmps); (0xaa, stos); (0xab, stos); (0xac, lods);
     (0xad, lods); (0x6c, ins); (0x6d, ins); (0x6e, outs); (0x6f, outs)] scas.

(** The REP counter: [d.w32 ? ecx : cx]. *)
Definition str_count : XM Z := w32 <- getd d_w32 ;; if w32 : bool then getE ecx_i else getX ecx_i.

Definition string_op (op : Z) : XM unit :=
  rep <- getd d_rep ;;
  c0 <- str_count ;;
  if negb (rep =? 0) && (c0 =? 0) then mret' tt else
  n <- opsize ;;
  let size := if tst op 1 then n else 1 in
  df <- flag fl_df ;;
  let step := if df : bool then - size else size in
  sio <- str_index esi_i ;;
  dio <- str_index edi_i ;;
  seg <- getd d_seg ;;
  let sseg := if 0 <=? seg then seg else ds_i in
  (when str_uses_si op do seg_use sseg sio size false) ;;;
  (when str_uses_di op do seg_use es_i dio size (str_writes_di op)) ;;;
  sb <- geta base sseg ;;
  db <- geta base es_i ;;
  str_body op size (u64 (sb + sio)) (u64 (db + dio)) ;;;
  (when str_uses_si op do str_advance esi_i sio step) ;;;
  (when str_uses_di op do str_advance edi_i dio step) ;;;
  if rep =? 0 then mret' tt else
  c <- str_count ;;
  let cnt := u32 (c - 1) in
  (w32 <- getd d_w32 ;; if w32 : bool then setE ecx_i cnt else setX ecx_i cnt) ;;;
  if cnt =? 0 then mret' tt else
  zf <- flag fl_zf ;;
  if str_compares op && negb (eqb zf (rep =? 1)) then mret' tt else
  setd d_nxt 0.

(** ** Decimal adjustment *)

Definition op_bcd (f : Z -> Z -> Z * Z) : XM unit :=
  al <- getL eax_i ;;
  r <- with_fl (fun w => f al w) ;;
  setL eax_i r.
Definition op_bcd2 (f : Z -> Z -> Z -> Z * Z * Z) : XM unit :=
  al <- getL eax_i ;;
  ah <- getH eax_i ;;
  w <- getst fl ;;
  let '(al', ah', w') := f al ah w in
  setL eax_i al' ;;; setH eax_i ah' ;;; put fl w'.
End group.
