(* ===== verification/X86Op2.v ===== *)
(** * The two-byte opcodes (cpu/isa/x86/exec.c, [run_op2])

    The system instructions, the conditional moves and sets, the bit and
    double-shift instructions and the rest of the 0F map; the MMX/SSE part of
    it is X86Simd. *)

From S2P Require Import Prelude Bus Ram RvState Run X86State X86Flags X86Mem X86Oper X86Seg X86Sys X86Fpu X86Float X86x87 X86Simd X86Group.

(** The labels [lo..hi] of a [switch], one body. *)
Definition cases {A} (lo hi : Z) (f : Z -> A) : list (Z * A) := (fun k => (k, f k)) <$> seqZ lo (hi - lo + 1).

Section op2.
Context {Ops Dev W : Type} `{BusDevices Ops Dev W, X86Pins W, SoftFloat, HostMath}.
#[local] Abbreviation XM := (M (XMach Ops Dev W)).

(** [if (cpl() != 0) gp_fault(0);] *)
Definition ring0 : XM unit := c <- cpl ;; when negb (c =? 0) do gp_fault 0.
(** [if (!(s->cr0 & 1) || fl->vm) ud();] *)
Definition pm_only : XM unit := free <- table_free ;; when free : bool do ud.

(** ** 0F 00: SLDT STR LLDT LTR VERR VERW *)

Definition op_sldt : XM unit := pm_only ;;; v <- getst ldtr ;; set_sys_sel v.
Definition op_str : XM unit := pm_only ;;; v <- getst tr ;; set_sys_sel v.
Definition op_lldt : XM unit :=
  p <- pe ;; (when negb p do ud) ;;; ring0 ;;; sel <- rm16 ;; load_ldtr sel false.

Definition op_ltr : XM unit :=
  p <- pe ;; (when negb p do ud) ;;; ring0 ;;;
  sel <- rm16 ;;
  (when is_null sel do gp_fault 0) ;;;
  (when tst sel 4 do gp_fault (sel_err sel)) ;;;
  s <- getst id ;;
  (when gdtr_limit s <? (sel .>> 3) * 8 + 7 do gp_fault (sel_err sel)) ;;;
  v <- desc_parse sel ;;
  (when tst (v_ar v) 0x10 || (negb (v_ar v .& 0xf =? 1) && negb (v_ar v .& 0xf =? 9)) do gp_fault (sel_err sel)) ;;;
  (when negb (view_present v) do np_fault (sel_err sel)) ;;;
  put tr sel ;;; put tr_base (v_base v) ;;; put tr_limit (v_limit v) ;;; put tr_ar (v_ar v .| 2) ;;;
  s <- getst id ;;
  bus_store (u64 (gdtr s + (sel .>> 3) * 8 + 5)) 1 (u8 (v_ar v .| 2)).

(** [DPL >= CPL && DPL >= RPL] *)
Definition dpl_ok (v : seg_view) (c sel : Z) : bool := (c <=? view_dpl v) && (sel .& 3 <=? view_dpl v).
Definition conf_exec (v : seg_view) : bool := v_ar v .& 0x1c =? 0x1c.

Definition verr_ok (v : seg_view) (c sel : Z) : bool :=
  tst (v_ar v) 0x10 &&
  (let readable := if tst (v_ar v) 8 then v_ar v .& 0x1a =? 0x1a else true in
   readable && (conf_exec v || dpl_ok v c sel)).
Definition verw_ok (v : seg_view) (c sel : Z) : bool :=
  tst (v_ar v) 0x10 && (v_ar v .& 0x1a =? 0x12) && dpl_ok v c sel.

(** The descriptor a probing instruction names, when there is one. *)
Definition probe_desc (sel : Z) : XM (option seg_view) :=
  out <- outside_table sel ;;
  if is_null sel || out then mret' None else v <- desc_parse sel ;; mret' (Some v).

Definition op_verr_verw (reg : Z) : XM unit :=
  pm_only ;;;
  sel <- rm16 ;;
  ov <- probe_desc sel ;;
  c <- cpl ;;
  set_flag fl_zf (match ov with
                  | Some v => if reg =? 4 then verr_ok v c sel else verw_ok v c sel
                  | None => false end).

Definition op2_00 : XM unit :=
  modrm ;;;
  reg <- getd d_reg ;;
  switch reg [(0, op_sldt); (1, op_str); (2, op_lldt); (3, op_ltr); (4, op_verr_verw 4); (5, op_verr_verw 5)] ud.

(** ** LAR and LSL *)

Definition kLarBadTypes := Eval cbv in
  2 ^ 0 .| 2 ^ 6 .| 2 ^ 7 .| 2 ^ 8 .| 2 ^ 0xa .| 2 ^ 0xd .| 2 ^ 0xe .| 2 ^ 0xf.
Definition kLslBadTypes := Eval cbv in
  2 ^ 0 .| 2 ^ 4 .| 2 ^ 5 .| 2 ^ 6 .| 2 ^ 7 .| 2 ^ 8 .| 2 ^ 0xa .| 2 ^ 0xc .| 2 ^ 0xd .| 2 ^ 0xe .| 2 ^ 0xf.

Definition lar_ok (v : seg_view) (bad c sel : Z) : bool :=
  if tst (v_ar v) 0x10 then conf_exec v || dpl_ok v c sel
  else negb (tst (bad .>> (v_ar v .& 0xf)) 1) && dpl_ok v c sel.

Definition op_lar_lsl (op2 : Z) : XM unit :=
  pm_only ;;;
  modrm ;;;
  sel <- rm16 ;;
  ov <- probe_desc sel ;;
  c <- cpl ;;
  let lar := op2 =? 0x02 in
  let val := match ov with
             | Some v => if lar_ok v (if lar then kLarBadTypes else kLslBadTypes) c sel
                         then Some (if lar then v_hi v .& 0x00f0ff00 else v_limit v) else None
             | None => None end in
  set_flag fl_zf (bool_decide (is_Some val)) ;;;
  match val with
  | Some x => w32 <- getd d_w32 ;; if w32 : bool then set_reg32 x else set_reg16 x
  | None => mret' tt
  end.

(** ** 0F 01: SGDT SIDT LGDT LIDT SMSW LMSW INVLPG RDTSCP *)

Definition op_sgdt_sidt (reg : Z) : XM unit :=
  s <- getst id ;;
  dd <- getd id ;;
  let b := if reg =? 0 then gdtr s else idtr s in
  let lim := if reg =? 0 then gdtr_limit s else idtr_limit s in
  lin <- mem_use 6 true ;;
  wr16 lin lim ;;;
  wr32 (u64 (lin + 2)) (u32 b .& (if d_w32 dd then 0xffffffff else kDescBase16Mask)).

Definition op_lgdt_lidt (reg : Z) : XM unit :=
  ring0 ;;;
  dd <- getd id ;;
  lin <- mem_use 6 false ;;
  lim <- rd16 lin ;;
  v <- rd32 (u64 (lin + 2)) ;;
  let b := v .& (if d_w32 dd then 0xffffffff else kDescBase16Mask) in
  if reg =? 2 then put gdtr b ;;; put gdtr_limit lim else put idtr b ;;; put idtr_limit lim.

Definition op_smsw : XM unit :=
  c0 <- getst cr0 ;; w32 <- getd d_w32 ;; if w32 : bool then set_rm32 c0 else set_rm16 c0.

Definition op_lmsw : XM unit :=
  ring0 ;;;
  v <- rm16 ;;
  c0 <- getst cr0 ;;
  put cr0 ((c0 &~ 0xf) .| (v .& 0xf) .| (c0 .& kCr0Pe)) ;;;
  modst TlbFlushAll ;;;
  X87UpdateFerr.

(** RDTSC's privilege check, and the counter into EDX:EAX. *)
Definition tsc_check : XM unit :=
  c4 <- getst cr4 ;; c <- cpl ;; when tst c4 kCr4Tsd && negb (c =? 0) do gp_fault 0.
Definition load_tsc : XM unit := t <- TscNow ;; setE eax_i t ;;; setE edx_i (t .>> 32).

Definition op_rdtscp : XM unit := tsc_check ;;; load_tsc ;;; a <- getst tsc_aux ;; setE ecx_i a.
Definition op_invlpg : XM unit := ring0 ;;; lin <- getd d_mlin ;; modst (fun s => TlbFlushPage s (u32 lin)).

Definition op2_01 : XM unit :=
  modrm ;;;
  dd <- getd id ;;
  switch (d_reg dd)
    [(0, op_sgdt_sidt 0); (1, op_sgdt_sidt 1); (2, op_lgdt_lidt 2); (3, op_lgdt_lidt 3); (4, op_smsw);
     (6, op_lmsw);
     (7, if negb (d_is_mem dd) then (if negb (d_rm dd =? 1) then ud else op_rdtscp) else op_invlpg)] ud.

(** ** Control and debug registers *)

Definition op_clts : XM unit := ring0 ;;; c0 <- getst cr0 ;; put cr0 (c0 &~ kCr0Ts).

Definition op_mov_from_cr : XM unit :=
  modrm ;;;
  ring0 ;;;
  dd <- getd id ;;
  s <- getst id ;;
  switch (d_reg dd)
    [(0, setE (d_rm dd) (cr0 s)); (2, setE (d_rm dd) (cr2 s)); (3, setE (d_rm dd) (cr3 s));
     (4, setE (d_rm dd) (cr4 s))] ud.

Definition op_mov_to_cr : XM unit :=
  modrm ;;;
  ring0 ;;;
  dd <- getd id ;;
  v <- getE (d_rm dd) ;;
  switch (d_reg dd)
    [(0, (when tst v kCr0Pg && negb (tst v kCr0Pe) do gp_fault 0) ;;;
         put cr0 v ;;; modst TlbFlushAll ;;; X87UpdateFerr);
     (2, put cr2 v);
     (3, put cr3 v ;;; modst TlbFlushNonGlobal);
     (4, put cr4 (v .& kCr4Supported) ;;; modst TlbFlushAll)] ud.

Definition op_mov_dr (op2 : Z) : XM unit :=
  modrm ;;;
  ring0 ;;;
  dd <- getd id ;;
  c4 <- getst cr4 ;;
  let alias := (d_reg dd =? 4) || (d_reg dd =? 5) in
  (when alias && tst c4 kCr4De do ud) ;;;
  let drn := if alias then (if d_reg dd =? 4 then 6 else 7) else d_reg dd in
  dr_guard ;;;
  if op2 =? 0x21 then v <- geta dr drn ;; setE (d_rm dd) v
  else
    v <- getE (d_rm dd) ;;
    modst (fun s => DrWrite s drn v) ;;;
    s <- getst id ;;
    if drn =? 7 then put gdb_watch_mask 0
    else when drn <? 4 do put gdb_watch_mask (gdb_watch_mask s &~ 2 ^ drn).

(** ** MSRs, SYSENTER and SYSEXIT *)

Definition op_wrmsr : XM unit :=
  ring0 ;;; i <- getE ecx_i ;; hi <- getE edx_i ;; lo <- getE eax_i ;; MsrWrite i ((hi .<< 32) .| lo).
Definition op_rdtsc : XM unit := tsc_check ;;; load_tsc.
Definition op_rdmsr : XM unit :=
  ring0 ;;; i <- getE ecx_i ;; v <- MsrRead i ;; setE eax_i v ;;; setE edx_i (v .>> 32).

(** A flat 4 GiB segment with the given selector and rights. *)
Definition flat_seg (seg sel a : Z) : XM unit :=
  puta sreg seg sel ;;; puta base seg 0 ;;; puta limit seg 0xffffffff ;;; puta ar seg a ;;; puta dbit seg 1.

Definition op_sysenter : XM unit :=
  s <- getst id ;;
  (when negb (tst (cr0 s) kCr0Pe) || is_null (sysenter_cs s) do gp_fault 0) ;;;
  let cs := u16 (sysenter_cs s .& 0xfffc) in
  flat_seg cs_i cs 0x9b ;;;
  flat_seg ss_i (u16 (cs + 8)) 0x93 ;;;
  setE esp_i (sysenter_esp s) ;;;
  SetEip (sysenter_eip s) ;;;
  mod_fl (fun w => w &~ (0x100 .| 0x10000 .| 0x20000)) ;;;
  set_flag fl_if false.

Definition op_sysexit : XM unit :=
  s <- getst id ;;
  c <- cpl ;;
  (when negb (tst (cr0 s) kCr0Pe) || negb (c =? 0) || is_null (sysenter_cs s) do gp_fault 0) ;;;
  flat_seg cs_i (u16 (u32 (sysenter_cs s + 16) .| 3)) 0xfb ;;;
  flat_seg ss_i (u16 (u32 (sysenter_cs s + 24) .| 3)) 0xf3 ;;;
  (ip <- getE edx_i ;; SetEip ip) ;;;
  sp <- getE ecx_i ;; setE esp_i sp.

(** ** Conditional instructions *)

Definition cc (c : Z) : XM bool := w <- getst fl ;; mret' (cond w (c .& 0xf)).
(** [d.nxt += rel] *)
Definition jump_rel (rel : Z) : XM unit := n <- getd d_nxt ;; setd d_nxt (u32 (n + rel)).
(** A 16- or 32-bit displacement, sign-extended. *)
Definition fetch_rel : XM Z :=
  w32 <- getd d_w32 ;; if w32 : bool then v <- fetch32 ;; mret' (s32 v) else v <- fetch16 ;; mret' (s16 v).

Definition op_jcc_near (op2 : Z) : XM unit :=
  rel <- fetch_rel ;; t <- cc op2 ;; when t : bool do jump_rel rel.
Definition op_setcc (op2 : Z) : XM unit := modrm ;;; t <- cc op2 ;; set_rm8 (b2z t).
Definition op_cmov (op2 : Z) : XM unit :=
  modrm ;;; n <- opsize ;; v <- rm_n n ;; t <- cc op2 ;; when t : bool do set_reg_n n v.

(** ** 0F AE: FXSAVE FXRSTOR LDMXCSR STMXCSR fences CLFLUSH *)

Definition op_fxsave : XM unit :=
  dd <- getd id ;;
  (when negb (d_is_mem dd) do ud) ;;;
  (when tst (d_mlin dd) 15 do gp_fault 0) ;;;
  lin <- mem_use 512 true ;;
  f <- getst fpu ;;
  wr_bytes lin (fpu_fxsave f).

Definition op_fxrstor : XM unit :=
  dd <- getd id ;;
  (when negb (d_is_mem dd) do ud) ;;;
  (when tst (d_mlin dd) 15 do gp_fault 0) ;;;
  lin <- mem_use 512 false ;;
  buf <- rd_bytes lin 512 ;;
  f <- getst fpu ;;
  (when negb (Get32 buf 24 &~ f_mxcsr_mask f =? 0) do gp_fault 0) ;;;
  setst fpu (fpu_fxrstor f buf) ;;;
  X87UpdateFerr.

Definition op_ldmxcsr : XM unit :=
  mem <- getd d_is_mem ;; (when negb mem do ud) ;;;
  lin <- mem_use 4 false ;;
  mx <- rd32 lin ;;
  f <- getst fpu ;;
  (when negb (mx &~ f_mxcsr_mask f =? 0) do gp_fault 0) ;;;
  setst fpu (f <| f_mxcsr := mx |>).
Definition op_stmxcsr : XM unit :=
  mem <- getd d_is_mem ;; (when negb mem do ud) ;;;
  lin <- mem_use 4 true ;; f <- getst fpu ;; wr32 lin (f_mxcsr f).

Definition op2_ae : XM unit :=
  modrm ;;;
  dd <- getd id ;;
  c4 <- getst cr4 ;;
  (when (d_reg dd <=? 3) && negb (tst c4 kCr4Osfxsr) do ud) ;;;
  let fence := when d_is_mem dd || negb (d_rm dd =? 0) || d_p66 dd do ud in
  switch (d_reg dd)
    [(0, op_fxsave); (1, op_fxrstor); (2, op_ldmxcsr); (3, op_stmxcsr);
     (7, if negb (d_is_mem dd) then
           (if d_rm dd =? 0 then when d_p66 dd do ud else ud)
         else when d_p66 dd do ud);
     (5, fence); (6, fence)] ud.

Definition op_cpuid : XM unit :=
  leaf <- getE eax_i ;;
  sub <- getE ecx_i ;;
  let '(a, b, c, d) := cpuid leaf sub in
  setE eax_i a ;;; setE ebx_i b ;;; setE ecx_i c ;;; setE edx_i d.

(** ** Bit instructions *)

(** The value a BT/BTS/BTR/BTC leaves, by the low bits of the operation. *)
Definition bit_update (kind v pos : Z) : Z :=
  if kind =? 1 then v .| u32 (1 .<< pos)
  else if kind =? 2 then v &~ u32 (1 .<< pos)
  else if kind =? 3 then v .^ u32 (1 .<< pos)
  else v.

Definition op_bt_reg (op2 : Z) : XM unit :=
  modrm ;;;
  n <- opsize ;;
  bit <- reg_n n ;;
  let words := u32 (n * (bit .>> (if n =? 4 then 5 else 4))) in
  dd <- getd id ;;
  (when d_is_mem dd do
     (setd d_moff (u32 (d_moff dd + words)) ;;; setd d_mlin (u64 (d_mlin dd + words)))) ;;;
  v <- rm_n n ;;
  let pos := bit .& (8 * n - 1) in
  set_flag fl_cf (tst (v .>> pos) 1) ;;;
  let kind := if op2 =? 0xab then 1 else if op2 =? 0xb3 then 2 else if op2 =? 0xbb then 3 else 0 in
  when negb (op2 =? 0xa3) do set_rm_n n (bit_update kind v pos).

Definition op_grp8 : XM unit :=
  modrm ;;;
  reg <- getd d_reg ;;
  (when reg <? 4 do ud) ;;;
  imm <- imm8 ;;
  n <- opsize ;;
  v <- rm_n n ;;
  let pos := imm .& (8 * n - 1) in
  set_flag fl_cf (tst (v .>> pos) 1) ;;;
  set_rm_n n (bit_update (reg - 4) v pos).

(** [while (!(v & 1)) { v >>= 1; idx++; }] and its mirror image; 32 rounds
    suffice for a non-zero 32-bit value. *)
Fixpoint bsf_loop (fuel : nat) (v idx : Z) : option Z :=
  if tst v 1 then Some idx
  else match fuel with O => None | S fuel => bsf_loop fuel (v .>> 1) (idx + 1) end.
Fixpoint bsr_loop (fuel : nat) (v idx : Z) : option Z :=
  if tst v 0x80000000 then Some idx
  else match fuel with O => None | S fuel => bsr_loop fuel (u32 (v .<< 1)) (idx - 1) end.

Definition op_bsf_bsr (op2 : Z) : XM unit :=
  modrm ;;;
  n <- opsize ;;
  v <- rm_n n ;;
  if v =? 0 then set_flag fl_zf true else
  set_flag fl_zf false ;;;
  match (if op2 =? 0xbc then bsf_loop 32 v 0 else bsr_loop 32 v 31) with
  | Some idx => set_reg_n n idx
  | None => abort OutOfFuel
  end.

(** ** Double shifts *)

Definition op_shld (op2 : Z) : XM unit :=
  modrm ;;;
  c <- (if op2 =? 0xa4 then imm8 else getL ecx_i) ;;
  let cnt := c .& 31 in
  n <- opsize ;;
  dst <- rm_n n ;;
  src <- reg_n n ;;
  let comb := (dst .<< (8 * n)) .| src in
  let r := wrap (8 * n) (wrap (16 * n) (comb .<< cnt) .>> (8 * n)) in
  (when negb (cnt =? 0) do
     (set_flag fl_cf (tst (comb .>> (16 * n - cnt)) 1) ;;;
      (when n =? 4 do set_flag fl_of (xorb (tst r 0x80000000) (tst dst 0x40000000))) ;;;
      upd_fl (fun w => szp w r n))) ;;;
  set_rm_n n r.

Definition op_shrd (op2 : Z) : XM unit :=
  modrm ;;;
  c <- (if op2 =? 0xac then imm8 else getL ecx_i) ;;
  let cnt := c .& 31 in
  n <- opsize ;;
  dst <- rm_n n ;;
  src <- reg_n n ;;
  let comb := (src .<< (8 * n)) .| dst in
  let r := wrap (8 * n) (comb .>> cnt) in
  (when negb (cnt =? 0) do
     (set_flag fl_cf (tst (comb .>> (cnt - 1)) 1) ;;; upd_fl (fun w => szp w r n))) ;;;
  set_rm_n n r.

(** ** The rest *)

Definition op_imul_rm : XM unit :=
  modrm ;;;
  n <- opsize ;;
  a <- rm_n n ;;
  b <- reg_n n ;;
  let prod := signed (8 * n) a * signed (8 * n) b in
  set_reg_n n prod ;;;
  upd_fl (fun w => flags_imul w prod n).

(** A far pointer: the offset register first, then the segment register from
    the selector behind the offset. *)
Definition op_load_far (seg : Z) : XM unit :=
  modrm ;;;
  mem <- getd d_is_mem ;;
  (when negb mem do ud) ;;;
  n <- opsize ;;
  v <- rm_n n ;;
  set_reg_n n v ;;;
  dd <- getd id ;;
  seg_use (d_mseg dd) (u32 (d_moff dd + n)) 2 false ;;;
  sel <- rd16 (u64 (d_mlin dd + n)) ;;
  if seg =? ss_i then load_ss sel else load_data seg sel.

Definition op_movzx8 : XM unit := modrm ;;; n <- opsize ;; v <- rm8 ;; set_reg_n n v.
Definition op_movzx16 : XM unit := modrm ;;; v <- rm16 ;; set_reg32 v.
Definition op_movsx8 : XM unit := modrm ;;; n <- opsize ;; v <- rm8 ;; set_reg_n n (s8 v).
Definition op_movsx16 : XM unit := modrm ;;; v <- rm16 ;; set_reg32 (s16 v).

(** CMPXCHG: the difference [r] is taken destination minus accumulator, and
    the flag helper is given the operands the other way round. *)
Definition op_cmpxchg (op2 : Z) : XM unit :=
  modrm ;;;
  n <- opsize ;;
  let n := if tst op2 1 then n else 1 in
  dst <- rm_n n ;;
  acc <- acc_n n ;;
  let r := wrap (8 * n) (dst - acc) in
  upd_fl (fun w => flags_sub w acc dst r n 0) ;;;
  if r =? 0 then v <- reg_n n ;; set_rm_n n v else set_acc_n n dst.

Definition op_xadd (op2 : Z) : XM unit :=
  modrm ;;;
  n <- opsize ;;
  let n := if tst op2 1 then n else 1 in
  dst <- rm_n n ;;
  src <- reg_n n ;;
  let r := wrap (8 * n) (dst + src) in
  set_reg_n n dst ;;;
  set_rm_n n r ;;;
  upd_fl (fun w => flags_add w dst src r n 0).

Definition op_cmpxchg8b : XM unit :=
  w32 <- getd d_w32 ;;
  (when negb w32 do ud) ;;;
  modrm ;;;
  dd <- getd id ;;
  (when negb (d_reg dd =? 1) || negb (d_is_mem dd) do ud) ;;;
  lin <- mem_use 8 false ;;
  lo <- rd32 lin ;;
  hi <- rd32 (u64 (lin + 4)) ;;
  let old := lo .| (hi .<< 32) in
  d_ <- getE edx_i ;;
  a_ <- getE eax_i ;;
  if old =? (d_ .<< 32) .| a_ then
    set_flag fl_zf true ;;;
    c_ <- getE ecx_i ;;
    b_ <- getE ebx_i ;;
    lin <- mem_use 8 true ;;
    wr32 lin b_ ;;;
    wr32 (u64 (lin + 4)) c_
  else set_flag fl_zf false ;;; setE eax_i old ;;; setE edx_i (old .>> 32).

Definition bswap (v : Z) : Z :=
  ((v .& 0xff) .<< 24) .| ((v .& 0xff00) .<< 8) .| ((v .>> 8) .& 0xff00) .| (v .>> 24).
Definition op_bswap (op2 : Z) : XM unit := v <- getE (op2 .& 7) ;; setE (op2 .& 7) (bswap v).

Definition op_push_sreg (seg : Z) : XM unit := v <- geta sreg seg ;; push_w v.
Definition op_pop_sreg (seg : Z) : XM unit := v <- pop_w ;; load_data seg (u16 v).

(** Is it in the MMX/SSE map? *)
Definition simd_map (op2 : Z) : bool :=
  ((0x10 <=? op2) && (op2 <=? 0x17)) || ((0x28 <=? op2) && (op2 <=? 0x2f)) || ((0x50 <=? op2) && (op2 <=? 0x77)) ||
  (op2 =? 0x7e) || (op2 =? 0x7f) || ((0xc2 <=? op2) && (op2 <=? 0xc6)) || ((0xd1 <=? op2) && (op2 <=? 0xdf)) ||
  ((0xe0 <=? op2) && (op2 <=? 0xef)) || ((0xf0 <=? op2) && (op2 <=? 0xfe)).

Definition op2_table : list (Z * XM unit) :=
  [(0x00, op2_00); (0x02, op_lar_lsl 0x02); (0x03, op_lar_lsl 0x03); (0x01, op2_01); (0x08, ring0); (0x09, ring0);
   (0x06, op_clts); (0x0b, ud); (0x1f, modrm); (0x20, op_mov_from_cr); (0x22, op_mov_to_cr);
   (0x21, op_mov_dr 0x21); (0x23, op_mov_dr 0x23); (0x30, op_wrmsr); (0x31, op_rdtsc); (0x32, op_rdmsr);
   (0x34, op_sysenter); (0x35, op_sysexit)] ++
  cases 0x80 0x8f op_jcc_near ++ cases 0x90 0x9f op_setcc ++ cases 0x40 0x4f op_cmov ++
  [(0xa0, op_push_sreg fs_i); (0xa1, op_pop_sreg fs_i); (0xa8, op_push_sreg gs_i); (0xa9, op_pop_sreg gs_i);
   (0xae, op2_ae); (0xa2, op_cpuid);
   (0xa3, op_bt_reg 0xa3); (0xab, op_bt_reg 0xab); (0xb3, op_bt_reg 0xb3); (0xbb, op_bt_reg 0xbb);
   (0xa4, op_shld 0xa4); (0xa5, op_shld 0xa5); (0xac, op_shrd 0xac); (0xad, op_shrd 0xad); (0xaf, op_imul_rm);
   (0xb2, op_load_far ss_i); (0xb4, op_load_far fs_i); (0xb5, op_load_far gs_i);
   (0xb6, op_movzx8); (0xb7, op_movzx16); (0xba, op_grp8); (0xbe, op_movsx8); (0xbf, op_movsx16);
   (0xb0, op_cmpxchg 0xb0); (0xb1, op_cmpxchg 0xb1); (0xc0, op_xadd 0xc0); (0xc1, op_xadd 0xc1);
   (0xc7, op_cmpxchg8b); (0xbc, op_bsf_bsr 0xbc); (0xbd, op_bsf_bsr 0xbd)] ++
  cases 0xc8 0xcf op_bswap.

Definition run_op2 (op2 : Z) : XM unit :=
  if simd_map op2 then SimdOp op2 else switch op2 op2_table ud.
End op2.
