(* ===== verification/X86Op.v ===== *)
(** * The one-byte opcodes (cpu/isa/x86/exec.c, [run_op]) *)

From S2P Require Import Prelude Bus Ram RvState Run X86State X86Flags X86Mem X86Oper X86Seg X86Sys X86Fpu X86Float X86x87 X86Simd X86Group X86Op2.

Section op1.
Context {Ops Dev W : Type} `{BusDevices Ops Dev W, X86Pins W, SoftFloat, HostMath}.
#[local] Abbreviation XM := (M (XMach Ops Dev W)).

(** A general register at the operand size. *)
Definition getR (n i : Z) : XM Z := if n =? 4 then getE i else getX i.
Definition setR (n i v : Z) : XM unit := if n =? 4 then setE i v else setX i v.

Definition op_pop_ss : XM unit := v <- pop_w ;; load_ss (u16 v) ;;; setst intr_inhibit true.

Definition op_inc_r (op : Z) : XM unit :=
  n <- opsize ;; v <- getR n (op .& 7) ;;
  let r := wrap (8 * n) (v + 1) in
  setR n (op .& 7) r ;;; upd_fl (fun w => flags_inc w r n).
Definition op_dec_r (op : Z) : XM unit :=
  n <- opsize ;; v <- getR n (op .& 7) ;;
  let r := wrap (8 * n) (v - 1) in
  setR n (op .& 7) r ;;; upd_fl (fun w => flags_dec w r n).

Definition op_push_r (op : Z) : XM unit := n <- opsize ;; v <- getR n (op .& 7) ;; push_w v.
Definition op_pop_r (op : Z) : XM unit := n <- opsize ;; v <- stack_pop n ;; setR n (op .& 7) v.

Definition op_pusha : XM unit :=
  n <- opsize ;;
  sp0 <- getR n esp_i ;;
  for_each [eax_i; ecx_i; edx_i; ebx_i] (fun i => v <- getR n i ;; stack_push n v) ;;;
  stack_push n sp0 ;;;
  for_each [ebp_i; esi_i; edi_i] (fun i => v <- getR n i ;; stack_push n v).
Definition op_popa : XM unit :=
  n <- opsize ;;
  for_each [edi_i; esi_i; ebp_i] (fun i => v <- stack_pop n ;; setR n i v) ;;;
  (v <- stack_pop n ;; mret' tt) ;;;
  for_each [ebx_i; edx_i; ecx_i; eax_i] (fun i => v <- stack_pop n ;; setR n i v).

Definition op_bound : XM unit :=
  modrm ;;;
  mem <- getd d_is_mem ;;
  (when negb mem do ud) ;;;
  n <- opsize ;;
  dd <- getd id ;;
  seg_use (d_mseg dd) (d_moff dd) n false ;;;
  WatchData (d_mlin dd) n false ;;;
  lo <- rd_n n (d_mlin dd) ;;
  let hi_lin := u64 (d_mlin dd + n) in
  seg_use (d_mseg dd) (u32 (d_moff dd + n)) n false ;;;
  WatchData hi_lin n false ;;;
  hi <- rd_n n hi_lin ;;
  v <- reg_n n ;;
  when (v <? lo) || (hi <? v) do raise_ vec_br 0.

Definition op_arpl : XM unit :=
  p <- pe ;;
  (when negb p do ud) ;;;
  ring0 ;;;
  modrm ;;;
  dest <- rm16 ;;
  src <- reg16 ;;
  if dest .& 3 <? src .& 3 then set_flag fl_zf true ;;; set_rm16 ((dest &~ 3) .| (src .& 3))
  else set_flag fl_zf false.

Definition op_push_imm : XM unit := n <- opsize ;; v <- imm_n n ;; push_w v.
Definition op_push_imm8 : XM unit := v <- imm8 ;; push_w (u32 (s8 v)).

(** IMUL r, rm, imm: the 32-bit form multiplies the unsigned operand by the
    signed immediate. *)
Definition imul_imm (imm : XM Z) : XM unit :=
  modrm ;;;
  n <- opsize ;;
  i <- imm ;;
  a <- rm_n n ;;
  let prod := (if n =? 4 then a else s16 a) * i in
  set_reg_n n prod ;;;
  upd_fl (fun w => flags_imul w prod n).
Definition op_imul_imm : XM unit := imul_imm (n <- opsize ;; v <- imm_n n ;; mret' (signed (8 * n) v)).
Definition op_imul_imm8 : XM unit := imul_imm (v <- imm8 ;; mret' (s8 v)).

Definition op_jcc_short (op : Z) : XM unit :=
  v <- imm8 ;; t <- cc op ;; when t : bool do jump_rel (s8 v).

Definition op_test_rm (size : XM Z) : XM unit :=
  modrm ;;; n <- size ;; a <- rm_n n ;; b <- reg_n n ;; upd_fl (fun w => flags_logic w (a .& b) n).
Definition op_test_imm (size : XM Z) : XM unit :=
  n <- size ;; a <- acc_n n ;; b <- imm_n n ;; upd_fl (fun w => flags_logic w (a .& b) n).
Definition op_xchg_rm (size : XM Z) : XM unit :=
  modrm ;;; n <- size ;; t <- rm_n n ;; v <- reg_n n ;; set_rm_n n v ;;; set_reg_n n t.
Definition op_mov_rm_r (size : XM Z) : XM unit := modrm ;;; n <- size ;; v <- reg_n n ;; set_rm_n n v.
Definition op_mov_r_rm (size : XM Z) : XM unit := modrm ;;; n <- size ;; v <- rm_n n ;; set_reg_n n v.
Definition op_mov_rm_imm (size : XM Z) : XM unit := modrm ;;; n <- size ;; v <- imm_n n ;; set_rm_n n v.

Definition op_mov_from_sreg : XM unit :=
  modrm ;;; reg <- getd d_reg ;; (when gs_i <? reg do ud) ;;; v <- geta sreg reg ;; set_sys_sel v.
Definition op_lea : XM unit :=
  modrm ;;; mem <- getd d_is_mem ;; (when negb mem do ud) ;;;
  n <- opsize ;; off <- getd d_moff ;; set_reg_n n off.
Definition op_mov_to_sreg : XM unit :=
  modrm ;;;
  reg <- getd d_reg ;;
  (when gs_i <? reg do ud) ;;;
  sel <- rm16 ;;
  if reg =? ss_i then load_ss sel ;;; setst intr_inhibit true
  else if reg =? cs_i then ud
  else load_data reg sel.

(** POP rm: an ESP-based address is recomputed after the pop. *)
Definition op_pop_rm : XM unit :=
  modrm ;;;
  dd <- getd id ;;
  n <- opsize ;;
  v <- pop_w ;;
  (when d_is_mem dd && d_m_esp_base dd do
     (let off := u32 (d_moff dd + n) in
      setd d_moff off ;;; b <- geta base (d_mseg dd) ;; setd d_mlin (u64 (b + off)))) ;;;
  set_rm_n n v.

Definition op_xchg_acc (op : Z) : XM unit :=
  n <- opsize ;; t <- acc_n n ;; v <- getR n (op .& 7) ;; set_acc_n n v ;;; setR n (op .& 7) t.

Definition op_cbw : XM unit :=
  w32 <- getd d_w32 ;;
  if w32 : bool then v <- getX eax_i ;; setE eax_i (s16 v) else v <- getL eax_i ;; setX eax_i (s8 v).
Definition op_cwd : XM unit :=
  w32 <- getd d_w32 ;;
  if w32 : bool then v <- getE eax_i ;; setE edx_i (if s32 v <? 0 then 0xffffffff else 0)
  else v <- getX eax_i ;; setX edx_i (if s16 v <? 0 then 0xffff else 0).

(** A far pointer immediate, to [pm_far]. *)
Definition op_far_imm (is_call : bool) : XM unit :=
  n <- opsize ;; off <- imm_n n ;; sel <- imm16 ;; ip <- next_ip ;; pm_far sel off is_call ip.

Definition op_wait : XM unit :=
  s <- getst id ;;
  (when tst (cr0 s) kCr0Ts do nm) ;;;
  when f_pending_mf (fpu s) && tst (cr0 s) kCr0Ne do raise_ vec_mf 0.

(** [fl->vm && fl->iopl != 3 && (s->cr4 & (kCr4Vme | kCr4Pvi))] *)
Definition virt_if : XM bool :=
  vm <- flag fl_vm ;; io <- iopl ;; c4 <- getst cr4 ;;
  mret' (vm && negb (io =? 3) && tst c4 (kCr4Vme .| kCr4Pvi)).

Definition op_pushf : XM unit :=
  vme <- virt_if ;;
  vm <- flag fl_vm ;;
  io <- iopl ;;
  (when vm && negb (io =? 3) && negb vme do gp_fault 0) ;;;
  w <- getst fl ;;
  let img := (w &~ 0x30000) .| 2 in
  let img := if vme then
      (((img &~ 0x200) .| mif (fbit w fl_vif) 0x200) &~ 0x100000 .| mif (fbit w fl_vip) 0x100000) &~ 0x80000
    else img in
  push_w img.

(** The EFLAGS bits a POPF may change outside the virtual-interrupt case. *)
Definition popf_mask (p vm am : bool) (c io : Z) (w32 : bool) : Z :=
  let mask := 0x7fd7 .| mif (negb p || (c =? 0) || am) 0x40000 in
  let mask := if vm then 0x4fd7
              else if p && negb (c =? 0) then (if io <? c then 0x4dd7 else 0x4fd7) .| mif am 0x40000
              else mask in
  if w32 then mask else mask .& 0xffff.

Definition op_popf : XM unit :=
  v <- pop_w ;;
  vme <- virt_if ;;
  if vme : bool then
    set_flag fl_vif (tst v 0x200) ;;; set_flag fl_vip (tst v 0x100000) ;;; set_flag fl_if true
  else
    vm <- flag fl_vm ;;
    io <- iopl ;;
    (when vm && negb (io =? 3) do gp_fault 0) ;;;
    p <- pe ;;
    c0 <- getst cr0 ;;
    c <- cpl ;;
    w32 <- getd d_w32 ;;
    let mask := popf_mask p vm (tst c0 kCr0Am) c io w32 in
    mod_fl (fun w => (w &~ (mask .| 0x10000)) .| (v .& mask) .| 2).

Definition op_sahf : XM unit := a <- getH eax_i ;; mod_fl (fun w => (w &~ 0xd5) .| (a .& 0xd5) .| 2).
Definition op_lahf : XM unit := w <- getst fl ;; setH eax_i (u8 (w .& 0xd5) .| 2).

(** MOV with a direct offset: segment, offset, checks. *)
Definition moffs (n : Z) (write : bool) : XM Z :=
  dd <- getd id ;;
  let sseg := if 0 <=? d_seg dd then d_seg dd else ds_i in
  off <- (if d_a32 dd then imm32 else imm16) ;;
  seg_use sseg off n write ;;;
  b <- geta base sseg ;;
  WatchData (u64 (b + off)) n write ;;;
  mret' (u64 (b + off)).
Definition op_mov_acc_moffs (size : XM Z) : XM unit :=
  n <- size ;; lin <- moffs n false ;; v <- rd_n n lin ;; set_acc_n n v.
Definition op_mov_moffs_acc (size : XM Z) : XM unit :=
  n <- size ;; lin <- moffs n true ;; v <- acc_n n ;; wr_n n lin v.

Definition op_mov_r8_imm (op : Z) : XM unit :=
  v <- imm8 ;; if op <? 0xb4 then setL (op .& 7) v else setH (op .& 3) v.
Definition op_mov_r_imm (op : Z) : XM unit := n <- opsize ;; v <- imm_n n ;; setR n (op .& 7) v.

(** [esp += n] or [sp = (uint16_t)(sp + n)], by the operand size. *)
Definition sp_release (k : Z) : XM unit := n <- opsize ;; v <- getR n esp_i ;; setR n esp_i (v + k).

Definition op_ret_imm : XM unit := k <- imm16 ;; ip <- pop_w ;; SetEip ip ;;; sp_release k.
Definition op_ret : XM unit := ip <- pop_w ;; SetEip ip.

Definition op_enter : XM unit :=
  alloc <- imm16 ;;
  lv <- imm8 ;;
  let level := lv .& 31 in
  n <- opsize ;;
  (v <- getR n ebp_i ;; push_w v) ;;;
  frame <- getR n esp_i ;;
  (when 0 <? level do
     (for_each (seqZ 1 (level - 1)) (fun _ =>
        v <- getR n ebp_i ;;
        setR n ebp_i (v - n) ;;;
        sp <- getR n ebp_i ;;
        setR n esp_i sp ;;;
        seg_use ss_i sp n false ;;;
        b <- geta base ss_i ;;
        x <- rd_n n (u64 (b + sp)) ;;
        stack_push n x) ;;;
      push_w frame)) ;;;
  setR n ebp_i frame ;;;
  sp <- getR n esp_i ;;
  setR n esp_i (sp - alloc).

Definition op_leave : XM unit :=
  n <- opsize ;; v <- getR n ebp_i ;; setR n esp_i v ;;; x <- stack_pop n ;; setR n ebp_i x.

(** Far return without a privilege machinery. *)
Definition retf_flat : XM unit := ip <- pop_w ;; SetEip ip ;;; cs <- pop_w ;; load_cs (u16 cs).
Definition op_retf (imm : XM Z) : XM unit :=
  k <- imm ;;
  free <- table_free ;;
  if negb free then pm_ret k else retf_flat ;;; sp_release k.

Definition op_int (vec : XM Z) : XM unit := v <- vec ;; ip <- next_ip ;; do_int v ip kIntSoft 0.
Definition op_into : XM unit := o <- flag fl_of ;; when o : bool do op_int (mret' 4).
Definition op_icebp : XM unit := ip <- next_ip ;; do_int vec_db ip kIntException 0.

(** IRET in real mode. *)
Definition iret_real : XM unit :=
  new_eip <- pop_w ;;
  sel <- pop_w ;;
  flv <- pop_w ;;
  load_synth cs_i (u16 sel) ;;;
  SetEip new_eip ;;;
  setd d_rf_load true ;;;
  w32 <- getd d_w32 ;;
  if w32 : bool then mod_fl (fun _ => (flv &~ 0x20000) .| 2)
  else mod_fl (fun w => (w .& 0xffff0000) .| ((flv .& 0xffff) .| 2)).
Definition op_iret : XM unit :=
  p <- pe ;; (if p : bool then pm_iret else iret_real) ;;; setst nmi_blocked false.

Definition op_grp2 (size cnt : XM Z) : XM unit := modrm ;;; n <- size ;; c <- cnt ;; grp2 n c.

Definition op_aam : XM unit :=
  b <- imm8 ;;
  (when b =? 0 do de) ;;;
  al <- getL eax_i ;;
  setL eax_i (al mod b) ;;;
  setH eax_i (al / b) ;;;
  upd_fl (fun w => flags_logic w (al mod b) 1).
Definition op_aad : XM unit :=
  b <- imm8 ;;
  al <- getL eax_i ;;
  ah <- getH eax_i ;;
  let r := u8 (al + ah * b) in
  setL eax_i r ;;; setH eax_i 0 ;;; upd_fl (fun w => flags_logic w r 1).
Definition op_salc : XM unit := c <- flag fl_cf ;; setL eax_i (if c : bool then 0xff else 0).

Definition op_xlat : XM unit :=
  dd <- getd id ;;
  let sseg := if 0 <=? d_seg dd then d_seg dd else ds_i in
  b <- (if d_a32 dd then getE ebx_i else getX ebx_i) ;;
  al <- getL eax_i ;;
  let off := if d_a32 dd then u32 (b + al) else u16 (b + al) in
  seg_use sseg off 1 false ;;;
  sb <- geta base sseg ;;
  WatchData (u64 (sb + off)) 1 false ;;;
  v <- rd8 (u64 (sb + off)) ;;
  setL eax_i v.

Definition op_loop (op : Z) : XM unit :=
  v <- imm8 ;;
  n <- opsize ;;
  c <- getR n ecx_i ;;
  let cnt := u32 (c - 1) in
  setR n ecx_i cnt ;;;
  t <- (if op =? 0xe2 then mret' true else cc (if op =? 0xe0 then 5 else 4)) ;;
  when negb (cnt =? 0) && t do jump_rel (s8 v).
Definition op_jcxz : XM unit :=
  v <- imm8 ;;
  a32 <- getd d_a32 ;;
  c <- (if a32 : bool then getE ecx_i else getX ecx_i) ;;
  when c =? 0 do jump_rel (s8 v).

Definition op_in (port size : XM Z) : XM unit := p <- port ;; n <- size ;; v <- io_in p n ;; set_acc_n n v.
Definition op_out (port size : XM Z) : XM unit := p <- port ;; n <- size ;; v <- acc_n n ;; io_out p n v.

Definition op_call_rel : XM unit := rel <- fetch_rel ;; ip <- next_ip ;; push_w ip ;;; jump_rel rel.
Definition op_jmp_rel : XM unit := rel <- fetch_rel ;; jump_rel rel.
Definition op_jmp_short : XM unit := v <- imm8 ;; jump_rel (s8 v).

Definition op_hlt : XM unit :=
  ring0 ;;;
  i <- flag fl_if ;;
  if i && bool_decide (is_Some (int_ack (W:=W))) then setc wait true
  else setc halted true ;;; setc exit_code 0.

Definition op_cmc : XM unit := c <- flag fl_cf ;; set_flag fl_cf (negb c).

(** CLI and STI: the virtual flag in VM86 with VME or PVI, else IF under the
    IOPL rule. *)
Definition set_if (v : bool) : XM unit :=
  p <- pe ;;
  virt <- virt_if ;;
  if p && virt then set_flag fl_vif v
  else
    vm <- flag fl_vm ;;
    io <- iopl ;;
    c <- cpl ;;
    (when p && (if vm : bool then negb (io =? 3) else io <? c) do gp_fault 0) ;;;
    set_flag fl_if v.
Definition op_cli : XM unit := set_if false.
Definition op_sti : XM unit := set_if true ;;; setst intr_inhibit true.

(** ** GRP4 and GRP5 *)

Definition inc_dec_rm (n : Z) : XM unit :=
  reg <- getd d_reg ;;
  v <- rm_n n ;;
  let r := wrap (8 * n) (if negb (reg =? 0) then v - 1 else v + 1) in
  set_rm_n n r ;;;
  upd_fl (fun w => if negb (reg =? 0) then flags_dec w r n else flags_inc w r n).

Definition op_grp4 : XM unit := modrm ;;; reg <- getd d_reg ;; (when 1 <? reg do ud) ;;; inc_dec_rm 1.

(** A far pointer in memory, to [pm_far]. *)
Definition op_far_mem (is_call : bool) : XM unit :=
  mem <- getd d_is_mem ;;
  (when negb mem do ud) ;;;
  n <- opsize ;;
  lin <- mem_use (n + 2) false ;;
  t <- rd_n n lin ;;
  sel <- rd16 (u64 (lin + n)) ;;
  ip <- next_ip ;;
  pm_far sel t is_call ip.

Definition op_grp5 : XM unit :=
  modrm ;;;
  reg <- getd d_reg ;;
  n <- opsize ;;
  switch reg
    [(0, inc_dec_rm n); (1, inc_dec_rm n);
     (2, t <- rm_n n ;; ip <- next_ip ;; push_w ip ;;; SetEip t);
     (3, op_far_mem true);
     (4, t <- rm_n n ;; SetEip t);
     (5, op_far_mem false);
     (6, v <- rm_n n ;; push_w v)] ud.

Definition byte_size : XM Z := mret' 1.

Definition op_table : list (Z * XM unit) :=
  cases 0x00 0x05 (fun op => op_add (op .& 7)) ++ [(0x06, op_push_sreg es_i); (0x07, op_pop_sreg es_i)] ++
  cases 0x08 0x0d (fun op => op_or (op .& 7)) ++ [(0x0e, op_push_sreg cs_i)] ++
  cases 0x10 0x15 (fun op => op_adc (op .& 7)) ++ [(0x16, op_push_sreg ss_i); (0x17, op_pop_ss)] ++
  cases 0x18 0x1d (fun op => op_sbb (op .& 7)) ++ [(0x1e, op_push_sreg ds_i); (0x1f, op_pop_sreg ds_i)] ++
  cases 0x20 0x25 (fun op => op_and (op .& 7)) ++ [(0x27, op_bcd daa)] ++
  cases 0x28 0x2d (fun op => op_sub (op .& 7)) ++ [(0x2f, op_bcd das)] ++
  cases 0x30 0x35 (fun op => op_xor (op .& 7)) ++ [(0x37, op_bcd2 aaa)] ++
  cases 0x38 0x3d (fun op => op_cmp (op .& 7)) ++ [(0x3f, op_bcd2 aas)] ++
  cases 0x40 0x47 op_inc_r ++ cases 0x48 0x4f op_dec_r ++ cases 0x50 0x57 op_push_r ++ cases 0x58 0x5f op_pop_r ++
  [(0x60, op_pusha); (0x61, op_popa); (0x62, op_bound); (0x63, op_arpl)] ++
  cases 0x6c 0x6f string_op ++
  [(0x68, op_push_imm); (0x69, op_imul_imm); (0x6a, op_push_imm8); (0x6b, op_imul_imm8)] ++
  cases 0x70 0x7f op_jcc_short ++
  [(0x80, grp1 1 2); (0x81, n <- opsize ;; grp1 n 0); (0x82, grp1 1 2); (0x83, n <- opsize ;; grp1 n 1);
   (0x84, op_test_rm byte_size); (0x85, op_test_rm opsize); (0x86, op_xchg_rm byte_size);
   (0x87, op_xchg_rm opsize); (0x88, op_mov_rm_r byte_size); (0x89, op_mov_rm_r opsize);
   (0x8a, op_mov_r_rm byte_size); (0x8b, op_mov_r_rm opsize); (0x8c, op_mov_from_sreg); (0x8d, op_lea);
   (0x8e, op_mov_to_sreg); (0x8f, op_pop_rm); (0x90, mret' tt)] ++
  cases 0x91 0x97 op_xchg_acc ++
  [(0x98, op_cbw); (0x99, op_cwd); (0x9a, op_far_imm true); (0x9b, op_wait); (0x9c, op_pushf); (0x9d, op_popf);
   (0x9e, op_sahf); (0x9f, op_lahf); (0xa0, op_mov_acc_moffs byte_size); (0xa1, op_mov_acc_moffs opsize);
   (0xa2, op_mov_moffs_acc byte_size); (0xa3, op_mov_moffs_acc opsize)] ++
  cases 0xa4 0xa7 string_op ++ cases 0xaa 0xaf string_op ++
  [(0xa8, op_test_imm byte_size); (0xa9, op_test_imm opsize)] ++
  cases 0xb0 0xb7 op_mov_r8_imm ++ cases 0xb8 0xbf op_mov_r_imm ++
  [(0xc0, op_grp2 byte_size imm8); (0xc1, op_grp2 opsize imm8); (0xc2, op_ret_imm); (0xc3, op_ret);
   (0xc4, op_load_far es_i); (0xc5, op_load_far ds_i); (0xc6, op_mov_rm_imm byte_size);
   (0xc7, op_mov_rm_imm opsize); (0xc8, op_enter); (0xc9, op_leave); (0xca, op_retf imm16);
   (0xcb, op_retf (mret' 0)); (0xcc, op_int (mret' 3)); (0xcd, op_int imm8); (0xce, op_into); (0xcf, op_iret);
   (0xd0, op_grp2 byte_size (mret' 1)); (0xd1, op_grp2 opsize (mret' 1)); (0xd2, op_grp2 byte_size (getL ecx_i));
   (0xd3, op_grp2 opsize (getL ecx_i)); (0xd4, op_aam); (0xd5, op_aad); (0xd6, op_salc); (0xd7, op_xlat)] ++
  cases 0xd8 0xdf x87_exec ++ cases 0xe0 0xe2 op_loop ++
  [(0xe3, op_jcxz); (0xe4, op_in imm8 byte_size); (0xe5, op_in imm8 opsize); (0xe6, op_out imm8 byte_size);
   (0xe7, op_out imm8 opsize); (0xe8, op_call_rel); (0xe9, op_jmp_rel); (0xea, op_far_imm false);
   (0xeb, op_jmp_short); (0xec, op_in (getX edx_i) byte_size); (0xed, op_in (getX edx_i) opsize);
   (0xee, op_out (getX edx_i) byte_size); (0xef, op_out (getX edx_i) opsize); (0xf1, op_icebp); (0xf4, op_hlt);
   (0xf5, op_cmc); (0xf8, set_flag fl_cf false); (0xf9, set_flag fl_cf true); (0xfa, op_cli); (0xfb, op_sti);
   (0xfc, set_flag fl_df false); (0xfd, set_flag fl_df true); (0xf6, grp3 1); (0xf7, n <- opsize ;; grp3 n);
   (0xfe, op_grp4); (0xff, op_grp5)].

Definition run_op (op : Z) : XM unit :=
  if op =? 0x0f then b <- fetch8 ;; run_op2 b else switch op op_table ud.
End op1.
