(* ===== verification/X86Step.v ===== *)
(** * The x86 step protocol and the ISA hooks (cpu/isa/x86/step.c, isa_x86.c, exec.c)

    One step: the instruction breakpoint, NMI and INTR samples, prefixes and
    the opcode, the commit and the debug traps, inside the landing pad that
    turns a raise into the delivery of its vector.  The prefix loop of the C
    code is unbounded and runs on fuel; the landing pad re-enters itself at
    most twice. *)

From S2P Require Import Prelude Bus Ram RvState Run X86State X86Flags X86Mem X86Oper X86Seg X86Sys X86Fpu X86Float X86x87 X86Simd X86Group X86Op2 X86Op.

Definition GdbTrapSignal (vec : Z) : Z :=
  switch vec
    [(0, 8); (vec_ud, 4); (vec_ts, 11); (vec_np, 11); (vec_ss, 11); (vec_gp, 11); (vec_pf, 11); (vec_ac, 11)] 5.

(** What a prefix byte does to the decode context; [None] when the byte is
    the opcode.  [dflt] is the code segment's default size. *)
Definition prefix (dflt : bool) (b : Z) : option (dec -> dec) :=
  if b =? 0x66 then Some (fun d => d <| d_w32 := negb dflt |> <| d_p66 := true |>)
  else if b =? 0x67 then Some (fun d => d <| d_a32 := negb dflt |>)
  else if b =? 0x26 then Some (fun d => d <| d_seg := es_i |>)
  else if b =? 0x2e then Some (fun d => d <| d_seg := cs_i |>)
  else if b =? 0x36 then Some (fun d => d <| d_seg := ss_i |>)
  else if b =? 0x3e then Some (fun d => d <| d_seg := ds_i |>)
  else if b =? 0x64 then Some (fun d => d <| d_seg := fs_i |>)
  else if b =? 0x65 then Some (fun d => d <| d_seg := gs_i |>)
  else if b =? 0xf0 then Some id
  else if b =? 0xf2 then Some (fun d => d <| d_rep := 2 |> <| d_pf2 := true |>)
  else if b =? 0xf3 then Some (fun d => d <| d_rep := 1 |> <| d_pf3 := true |>)
  else None.

Section step.
Context {Ops Dev W : Type} `{BusDevices Ops Dev W, X86Pins W, SoftFloat, HostMath}.
#[local] Abbreviation XM := (M (XMach Ops Dev W)).
Implicit Types m : XMach Ops Dev W.

(** [(s->cr0 & kCr0Pe) && s->dbit[cs_i]] *)
Definition code32 : XM bool := p <- pe ;; b <- geta dbit cs_i ;; mret' (p && negb (b =? 0)).

Fixpoint prefixes (fuel : nat) (dflt : bool) : XM unit :=
  match fuel with
  | O => abort OutOfFuel
  | S fuel =>
      b <- fetch8 ;;
      match prefix dflt b with
      | Some f => modify (fun m => m <| xd := f (xd m) |>) ;;; prefixes fuel dflt
      | None => run_op b
      end
  end.
Definition do_step (fuel : nat) : XM unit := dflt <- code32 ;; prefixes fuel dflt.

(** ** Entering the step *)

Definition step_enter : XM bool :=
  shadow <- getst intr_inhibit ;;
  setst intr_inhibit false ;;;
  setst watch_hits 0 ;;;
  w32 <- code32 ;;
  modify (fun m => m <| xd := (xd m) <| d_watch_hit := 0 |> <| d_rf_load := false |> <| d_delivered := false |>
     <| d_op2 := 0 |> <| d_rep := 0 |> <| d_nxt := 0 |> <| d_eip_set := false |> <| d_p66 := false |>
     <| d_pf2 := false |> <| d_pf3 := false |> <| d_seg := -1 |> <| d_w32 := w32 |> <| d_a32 := w32 |> |>
     <| xpc := pc (xcpu m) |>) ;;;
  mret' shadow.

(** ** Samples between instructions *)

(** Does slot [i] hold an execute breakpoint at [lin]? *)
Definition exec_match (s : x86_state Dev) (lin i : Z) : bool :=
  tst (arr (dr s) 7) (3 .<< (2 * i)) && ((arr (dr s) 7 .>> (16 + 4 * i)) .& 3 =? 0) && (lin =? arr (dr s) i).

Definition insn_breakpoints : XM unit :=
  s <- getst id ;;
  when dr_active s do
    (b <- geta base cs_i ;;
     p <- getc pc ;;
     let lin := u64 (b + u32 p) in
     for_each [0; 1; 2; 3] (fun i =>
       s <- getst id ;;
       when exec_match s lin i && negb (fbit (fl s) fl_rf) do
         (puta dr 6 (arr (dr s) 6 .| 2 ^ i) ;;; set_flag fl_rf true ;;; raise_ vec_db 0))).

(** Deliver an external vector: [delivering_vec] brackets the delivery. *)
Definition deliver_external (vec : Z) : XM unit :=
  setc wait false ;;;
  modify (fun m => m <| xpc := pc (xcpu m) |> <| xdelivering := vec |>) ;;;
  p <- getc pc ;;
  do_int vec (u32 p) kIntExternal 0 ;;;
  modify (fun m => m <| xdelivering := -1 |>).

(** [cpu->int_ack(cpu->ack_dev)] *)
Definition acknowledge (ack : W -> Z * W) : XM Z := fun m =>
  let '(v, w) := ack (xworld m) in Done v (m <| xworld := w |>).

(** Returns whether an interrupt was taken instead of an instruction. *)
Definition sample_lines (shadow : bool) : XM bool :=
  s <- getst id ;;
  if nmi_pending s && negb (nmi_blocked s) then
    setst nmi_pending false ;;; setst nmi_blocked true ;;; deliver_external vec_nmi ;;; mret' true
  else
    let vme := fbit (fl s) fl_vm && tst (cr4 s) kCr4Vme && negb ((fl s .>> fl_iopl) .& 3 =? 3) in
    let ints_on := if vme then fbit (fl s) fl_vif else fbit (fl s) fl_if in
    (when intr_pending s && negb ints_on && vme do set_flag fl_vip true) ;;;
    match int_ack (W:=W) with
    | Some ack =>
        if intr_pending s && negb shadow && ints_on then
          vec <- acknowledge ack ;;
          setst intr_pending false ;;;
          (when vme do (set_flag fl_vif false ;;; set_flag fl_vip false)) ;;;
          deliver_external vec ;;;
          mret' true
        else mret' false
    | None => mret' false
    end.

(** ** The commit *)

Definition commit : XM unit :=
  m <- getS ;;
  (when negb (d_eip_set (xd m)) do setc pc (u32 (xpc m + d_nxt (xd m)))) ;;;
  c32 <- code32 ;;
  (when negb c32 do (p <- getc pc ;; setc pc (p .& 0xffff))) ;;;
  (when negb (d_rf_load (xd m)) do set_flag fl_rf false) ;;;
  mod_fl (fun w => (w &~ kEflagsZero) .| kEflagsOne) ;;;
  a <- getst perf_active ;;
  when negb (a =? 0) do x86_count_perf.

(** A delivered exception, as the gdb stub sees it. *)
Definition note_trap (vec : Z) : XM unit :=
  s <- getst id ;; put trap_seq (trap_seq s + 1) ;;; put trap_signal (GdbTrapSignal vec).

Definition debug_traps (tf0 : bool) : XM unit :=
  s <- getst id ;;
  dd <- getd id ;;
  let hit := d_watch_hit dd in
  let dr6set := hit .| mif (bt_pending s) kDr6Bt .| mif tf0 kDr6Bs in
  let stub := hit .& gdb_watch_mask s in
  (when negb (stub =? 0) do (put watch_hits stub ;;; puta dr 6 (arr (dr s) 6 .| stub))) ;;;
  when bt_pending s || (negb (d_delivered dd) && (negb (hit &~ stub =? 0) || tf0)) do
    (s <- getst id ;;
     puta dr 6 (arr (dr s) 6 .| dr6set) ;;;
     setst bt_pending false ;;;
     setc wait false ;;;
     p <- getc pc ;;
     do_int vec_db (u32 p) kIntException 0 ;;;
     note_trap vec_db).

Definition step_body (fuel : nat) (shadow : bool) : XM unit :=
  insn_breakpoints ;;;
  taken <- sample_lines shadow ;;
  if taken : bool then mret' tt else
  wt <- getc wait ;;
  if wt : bool then mret' tt else
  tf0 <- flag fl_tf ;;
  do_step fuel ;;;
  commit ;;;
  debug_traps tf0.

(** ** The landing pad

    A raise while a vector is being delivered becomes #DF, and a raise while
    #DF is being delivered ends the run. *)
Fixpoint landing (fuel : nat) (t : trap_rec) : XM unit := fun m =>
  match fuel with
  | O => Aborted OutOfFuel
  | S fuel =>
      let was := xdelivering m in
      if was =? vec_df then Aborted FatalTripleFault else
      let cause := if 0 <=? was then vec_df else trap_cause t in
      let tval := if 0 <=? was then 0 else u32 (trap_tval t) in
      match do_int cause (u32 (pc (xcpu m))) kIntException tval (m <| xdelivering := cause |>) with
      | Raised t' m' => landing fuel t' m'
      | Done _ m' => (modify (fun m => m <| xdelivering := -1 |>) ;;; set_flag fl_rf false ;;; note_trap cause) m'
      | Aborted r => Aborted r
      end
  end.

Definition x86_step (fuel : nat) : XM unit := fun m =>
  match (shadow <- step_enter ;; step_body fuel shadow) m with
  | Raised t m' => landing 3 t m'
  | o => o
  end.

(** ** Hooks of the gdb stub *)

Definition x86_gdb_pc m : Z := u64 (arr (base (xs m)) cs_i + u32 (pc (xcpu m))).
Definition x86_gdb_watch_hits m : Z := watch_hits (xs m).
Definition x86_gdb_last_trap m : Z * Z := (trap_signal (xs m), trap_seq (xs m)).

Definition gdb_seg_order : list Z := [cs_i; ss_i; ds_i; es_i; fs_i; gs_i].

Definition x86_gdb_read_regs m : list Z :=
  let f := fpu (xs m) in
  concat ((fun i => le_bytes 4 (cell_e (arr (gpr (xcpu m)) i))) <$> seqZ 0 8) ++
  le_bytes 4 (u32 (x86_gdb_pc m)) ++ le_bytes 4 (fl (xs m)) ++
  concat ((fun i => le_bytes 4 (arr (sreg (xs m)) i)) <$> gdb_seg_order) ++
  concat ((fun i => let v := arr (f_st f) (fpu_phys f i) in le_bytes 8 (signif v) ++ le_bytes 2 (signExp v)) <$> seqZ 0 8) ++
  le_bytes 4 (f_cw f) ++ le_bytes 4 (f_sw f) ++ le_bytes 4 (f_tw f) ++ le_bytes 4 (f_fcs f) ++
  le_bytes 4 (f_fip f) ++ le_bytes 4 (f_fds f) ++ le_bytes 4 (f_fdp f) ++ le_bytes 4 (f_fop f).

(** One selector of the packet. *)
Definition gdb_put_sreg (synth : bool) (s : x86_state Dev) (isel : Z * Z) : x86_state Dev :=
  let '(i, sel) := isel in
  let s := s <| sreg := arr_set (sreg s) i sel |> in
  if synth then s <| base := arr_set (base s) i (sel .<< 4) |> <| dbit := arr_set (dbit s) i 0 |> else s.

(** The x87 tail of the packet. *)
Definition gdb_put_fpu (f : x86_fpu) (p : list Z) : x86_fpu :=
  let f := fold_left (fun f i =>
      fpu_put f (fpu_phys f (Z.of_nat i)) (mkExt80 (Get64 p (i * 10)) (Get16 p (i * 10 + 8)))) (seq 0 8) f in
  let g k := Get32 p (80 + 4 * k) in
  let f := f <| f_cw := u16 (g 0%nat) |> <| f_sw := u16 (g 1%nat) |> <| f_fcs := u16 (g 3%nat) |>
             <| f_fip := g 4%nat |> <| f_fds := u16 (g 5%nat) |> <| f_fdp := g 6%nat |> <| f_fop := u16 (g 7%nat) |> in
  let tw := u16 (g 2%nat) in
  fpu_refresh (if negb (tw =? 0) then f <| f_tw := tw |> else f).

(** [None]: the packet is too short. *)
Definition x86_gdb_write_regs m (buf : list Z) : option (XMach Ops Dev W) :=
  if (length buf <? 64)%nat then None else
  let c := fold_left (fun c i =>
      c <| gpr := arr_set (gpr c) (Z.of_nat i) (cell_set_e (arr (gpr c) (Z.of_nat i)) (Get32 buf (4 * i))) |>)
      (seq 0 8) (xcpu m) in
  let lin := Get32 buf 32 in
  let flags := Get32 buf 36 in
  let s := (xs m) <| fl := (flags &~ 0x30000) .| 2 |> in
  let sels := (fun k => u16 (Get32 buf (40 + 4 * k))) <$> seq 0 6 in
  let s := fold_left (gdb_put_sreg (negb (tst (cr0 s) kCr0Pe))) (zip gdb_seg_order sels) s in
  let c := c <| pc := u32 (lin - u32 (arr (base s) cs_i)) |> in
  let s := if (176 <=? length buf)%nat then s <| fpu := gdb_put_fpu (fpu s) (drop 64 buf) |> else s in
  Some (m <| xcpu := c |> <| xs := s |>).

(** ** Reset (exec.c, [x86_init]) *)

Definition k_mb_hdr_magic := 0x1badb002.
Definition k_mb_load_magic := 0x2badb002.
Definition k_bios_reset_vector := 0xffff0.

(** The state [x86_init] fills in before it looks at the image: everything
    zero but the FPU, EFLAGS, DR6, DR7, the APIC base and the A20 gate. *)
Definition x86_reset_state : x86_state Dev :=
  mkX86 (replicate 6 0) (replicate 6 0) (replicate 6 0) (replicate 6 0) (replicate 6 0) 0x202 0 0 0 0 0 fpu_init
    (0xFEE00000 .| 0x800 .| 0x100) [0; 0] 0 0 0 0 0 (replicate 8 0) (replicate 8 0) 0 0 0 0 0 0 0 0
    [0; 0] [0; 0] 0 0 0 0 [0; 0; 0] 0 ∅ 0 0 None false 0 0 0 0 0 0 0 0 0 0 0
    [0; 0; 0; 0; 0; 0; kDr6Rsvd1; kDr7Rsvd1] 0 0 false false false true false false false false 0 0.

(** [BusRead] on the memory bus. *)
Definition mem_read (addr size : Z) : XM Z := fun m =>
  match FindRegion (xbus m) addr size with
  | (Some r, b) =>
      let '(v, w, evs) := dev_read (r_ops r) (r_dev r) addr size (xworld m) in
      Done v (fold_left apply_xevent evs (m <| xbus := b |> <| xworld := w |>))
  | (None, _) => Aborted FatalUnmapped
  end.

(** The scan for a multiboot header in the first 8 KiB of the image. *)
Fixpoint mb_scan (n : nat) (a : Z) : XM bool :=
  match n with
  | O => mret' false
  | S n => v <- mem_read a 4 ;; if v =? k_mb_hdr_magic then mret' true else mb_scan n (u64 (a + 4))
  end.

Definition x86_init (image_base : Z) : XM unit :=
  modst (fun _ => x86_reset_state) ;;;
  multiboot <- mb_scan 2048 image_base ;;
  p <- getc pc ;;
  if multiboot : bool then
    put cr0 1 ;;;
    setE esp_i 0x6f00 ;;;
    flat_seg cs_i 0x08 0x9b ;;;
    for_each [es_i; ss_i; ds_i; fs_i; gs_i] (fun i => flat_seg i 0x10 0x93) ;;;
    setE eax_i k_mb_load_magic ;;;
    setE ebx_i 0x7000
  else if p =? k_bios_reset_vector then
    puta sreg cs_i 0xf000 ;;; puta base cs_i 0xf0000 ;;; puta limit cs_i 0xffff ;;; puta ar cs_i 0x9b ;;;
    setc pc 0xfff0 ;;; put idtr 0 ;;; put idtr_limit 0xffff
  else
    setE edx_i 0x80 ;;; put idtr 0 ;;; put idtr_limit 0x3ff.
End step.
