(* ===== verification/X86Board.v ===== *)
(** * A PC with a megabyte of RAM and a port log

    The smallest board an x86 processor runs on: the open bus of
    board/x86_min.c over the whole address space, RAM from address 0 inside it, one
    device that claims every I/O port and records what is written to it, an
    interrupt controller that always acknowledges vector 0x20, and a
    floating-point library that always answers zero.  It instantiates the
    interfaces the processor is modelled against. *)

From S2P Require Import Prelude Bus Ram RvState Run X86State X86Flags X86Mem X86Oper X86Seg X86Sys X86Fpu X86Float X86x87 X86Simd X86Group X86Op2 X86Op X86Step.

Inductive pc_ops := PcRam | PcPorts | PcOpen.
#[export] Instance pc_ops_eq_dec : EqDecision pc_ops.
Proof. solve_decision. Defined.

Record PcWorld := mkPc { pc_ram : gmap Z Z; pc_log : list (Z * Z) }.

(** A byte nobody has written reads as zero; what is written is a byte. *)
Definition pc_load (h : host_ptr unit) (size : Z) (w : PcWorld) : Z :=
  le_val (u8 <$> load_bytes (pc_ram w) (hp_off h) (Z.to_nat size)).
Definition pc_store (h : host_ptr unit) (size v : Z) (w : PcWorld) : PcWorld :=
  mkPc (mem_store (pc_ram w) (hp_off h) size v) (pc_log w).

(** What no chip claims reads as all ones. *)
Definition UnclaimedRead (size : Z) : Z := if 8 <=? size then 2 ^ 64 - 1 else (1 .<< (size * 8)) - 1.

#[export] Instance pc_devices : BusDevices pc_ops unit PcWorld := {
  dev_read ops _ addr size w :=
    match ops with
    | PcRam => (pc_load (HostPtr tt addr) size w, w, [])
    | PcPorts => (0xff, w, [])
    | PcOpen => (UnclaimedRead size, w, [])
    end;
  dev_write ops _ addr size v w :=
    match ops with
    | PcRam => (pc_store (HostPtr tt addr) size v w, [])
    | PcPorts => (mkPc (pc_ram w) (pc_log w ++ [(addr, v)]), [])
    | PcOpen => (w, [])
    end;
  host_load := pc_load;
  host_store := pc_store;
  timer_read := None;
}.

#[export] Instance pc_pins : X86Pins PcWorld := { int_ack := Some (fun w => (0x20, w)); ferr := None }.
(** Arithmetic that always answers zero, and a math library over the integers:
    the board's programs compute with neither. *)
#[export] Instance pc_softfloat : SoftFloat :=
  let e _ _ _ := (kZero, 0) in
  let s3 _ _ _ := (0, 0) in
  let s2 _ _ := (0, 0) in
  let l _ := (kZero, 0) in
  {| extF80M_add := e; extF80M_sub := e; extF80M_mul := e; extF80M_div := e; extF80M_rem := e;
     extF80M_sqrt _ _ := (kZero, 0); extF80M_roundToInt _ v _ _ := (v, 0);
     f32_to_extF80M := l; f64_to_extF80M := l; i32_to_extF80M := l; i64_to_extF80M := l; ui64_to_extF80M := l;
     extF80M_to_f32 _ _ := (0, 0); extF80M_to_f64 _ _ := (0, 0); extF80M_to_i32 _ _ _ _ := (0, 0);
     extF80M_to_i64 _ _ _ _ := (0, 0); extF80M_to_i32_r_minMag _ _ := (0, 0); extF80M_to_i64_r_minMag _ _ := (0, 0);
     f32_add := s3; f32_sub := s3; f32_mul := s3; f32_div := s3; f32_sqrt := s2;
     f64_add := s3; f64_sub := s3; f64_mul := s3; f64_div := s3; f64_sqrt := s2;
     i32_to_f32 := s2; i32_to_f64 := s2; f32_to_f64 := s2; f64_to_f32 := s2;
     f32_to_i32 _ _ _ := (0, 0); f64_to_i32 _ _ _ := (0, 0); f32_to_i32_r_minMag _ _ := (0, 0);
     f64_to_i32_r_minMag _ _ := (0, 0) |}.
#[export] Instance pc_math : HostMath :=
  {| ld := Z; F80ToLd v := signif v; LdToF80 x := mkExt80 (u64 x) 0; ld_of_Z x := x; ld_ln2 := 0;
     ld_fyl2xp1_limit := 0; ld_lt := Z.ltb; ld_le := Z.leb; ld_mul := Z.mul; ld_div := Z.div; ld_to_int x := x;
     fabsl := Z.abs; expm1l x := x; log2l := Z.log2; log1pl x := x; tanl x := x; sinl x := x; cosl x := x;
     atan2l x _ := x; frexpl x := (x, 0); ldexpl x n := x * 2 ^ n; roundl x := x; truncl x := x;
     rcp32 x := x; rsqrt32 x := x |}.

Definition kAddressSpace := 1 .<< 32.
Definition pc_ram_region : BusRegion pc_ops unit := mkRegion 0 0x100000 PcRam tt true (Some (HostPtr tt 0)).
Definition pc_mem_bus : Bus pc_ops unit := mkBus [mkRegion 0 kAddressSpace PcOpen tt true None; pc_ram_region] None.

(** The two calls of the board's constructor build it: RAM overlaps the open bus. *)
Lemma pc_mem_bus_built :
  (BusAddRegion (mkBus [] None) 0 kAddressSpace PcOpen tt ≫= fun b => BusAddRamRegion b 0 0x100000 PcRam tt (HostPtr tt 0)) = Some pc_mem_bus.
Proof. reflexivity. Qed.

Definition pc_io_bus : Bus pc_ops unit := mkBus [mkRegion 0 0x10000 PcPorts tt false None] None.

Lemma pc_mem_bus_wf : bus_wf pc_mem_bus.
Proof.
  split.
  - repeat (apply Forall_cons_2; [split; vm_compute; repeat split; congruence|]). apply Forall_nil_2.
  - intros [|[|i]] r; cbn -[overlaps_at]; [..|done]; intros [= <-]; reflexivity.
  - done.
Qed.

(** Inside RAM the RAM region, the smaller of the two, answers. *)
Lemma pc_decode a n : 0 <= a -> 0 < n -> a + n <= 0x100000 -> decode_spec pc_mem_bus a n = Some pc_ram_region.
Proof.
  intros Ha Hn Ht. unfold decode_spec. rewrite (proj2 (Z.ltb_ge (2 ^ 64 - 1 - a) n)) by lia.
  assert (C : forall r : BusRegion pc_ops unit, region_wf r -> r_base r = 0 -> 0x100000 <= r_size r -> covers r a n = true).
  { intros r Hr Hb Hs. unfold covers. rewrite (r_end_wf r Hr), (wrap_small 64) by (unfold rng; lia).
    apply andb_true_iff; split; apply Z.leb_le; lia. }
  unfold scan_regions. cbn -[covers pick_smaller]. unfold pick_smaller. cbn -[covers].
  rewrite !C; [reflexivity|..]; vm_compute; repeat split; congruence.
Qed.

Lemma pc_load_rng h size w : 0 <= size -> rng (8 * size) (pc_load h size w).
Proof.
  intros Hs. unfold pc_load. pose proof (le_val_rng (u8 <$> load_bytes (pc_ram w) (hp_off h) (Z.to_nat size))) as Hr.
  rewrite length_fmap, length_load_bytes, Z2Nat.id in Hr by lia. apply Hr, Forall_fmap, Forall_forall.
  intros b _. simpl. apply rng_wrap. lia.
Qed.

#[export] Instance pc_devices_ok : BusDevicesOk pc_ops unit PcWorld pc_mem_bus.
Proof.
  split.
  - intros r h addr size w [->|[->|[]%not_elem_of_nil]%elem_of_cons]%elem_of_cons [= <-] ? ? ?. cbn -[pc_load].
    by rewrite Z.sub_0_r.
  - intros r h addr size v w [->|[->|[]%not_elem_of_nil]%elem_of_cons]%elem_of_cons [= <-] ? ? ?. cbn -[pc_store].
    by rewrite Z.sub_0_r.
  - intros ops dev addr size w Hs. destruct ops; cbn -[pc_load UnclaimedRead]; [|unfold rng; lia|].
    + apply (rng_mono (8 * size)); [lia|]. apply pc_load_rng; lia.
    + unfold UnclaimedRead. destruct (8 <=? size) eqn:E; [unfold rng; lia|]. rewrite Z.shiftl_1_l.
      assert (2 ^ (size * 8) <= 2 ^ 64) by (apply Z.pow_le_mono_r; lia). assert (0 < 2 ^ (size * 8)) by (apply Z.pow_pos_nonneg; lia). unfold rng. lia.
  - intros h size w Hs. apply pc_load_rng; lia.
  - intros ops ? ? ? ? ? ?. by destruct ops; intros ?%not_elem_of_nil.
  - intros ops ? ? ? ? ? ? ?. by destruct ops; intros ?%not_elem_of_nil.
  - done.
Qed.

Definition dec0 : dec :=
  mkDec 0 false false false false false (-1) 0 0 0 0 0 0 false 0 0 0 false 0 false false false.

(** Bytes of a program at an address. *)
Definition poke (addr : Z) (bs : list Z) (m : gmap Z Z) : gmap Z Z := store_bytes m addr bs.

(** A processor in the state [x86_init] leaves for a boot sector, at [ip],
    with memory [ram]; [slow] selects the uncached path and [junk] is what an
    uninitialised word holds. *)
Definition pc_at (slow : bool) (junk : Z) (ram : gmap Z Z) (gprs : list Z) (ip : Z) : XMach pc_ops unit PcWorld :=
  mkXMach (mkCpu (gprs ++ replicate 24 0) [] ip false false 0 0) x86_reset_state dec0 pc_mem_bus pc_io_bus
    (mkPc ram []) slow junk ip (-1) (mkClock 0 0 0 0).

Fixpoint run_steps (n : nat) (m : XMach pc_ops unit PcWorld) : outcome (XMach pc_ops unit PcWorld) unit :=
  match n with
  | O => Done tt m
  | S n => match x86_step 16 m with Done _ m' => run_steps n m' | o => o end
  end.
