(* ===== verification/X86FlagsProps.v ===== *)
(** * The arithmetic flags, the rotates and the decimal adjustment are right

    The flag rules of [X86Flags] against the arithmetic they stand for: the
    carry, overflow, sign, zero, parity and auxiliary flags of the additions
    and subtractions, the condition codes after a comparison, the rotates as
    inverse pairs, and DAA/DAS on packed decimal digits. *)

From S2P Require Import Prelude Bus Ram RvState Run X86State X86Flags.

(** The operand sizes of the instruction set, in bytes. *)
Definition op_size (size : Z) : Prop := size = 1 \/ size = 2 \/ size = 4.

Ltac op_cases H := destruct H as [-> | [-> | ->]].

(** ** Bits of a flag word *)

Lemma orif_spec c m f i : Z.testbit (orif c m f) i = (c && Z.testbit m i) || Z.testbit f i.
Proof. destruct c; unfold orif; [rewrite Z.lor_spec; apply orb_comm|done]. Qed.

Lemma fput_spec w i b j : 0 <= i -> 0 <= j -> fbit (fput w i b) j = if j =? i then b else fbit w j.
Proof.
  intros Hi Hj. unfold fbit, fput. destruct b;
    rewrite ?Z.lor_spec, ?Z.ldiff_spec, Z.pow2_bits_eqb, (Z.eqb_sym i j) by lia;
    destruct (j =? i) eqn:E; simpl; rewrite ?orb_true_r, ?orb_false_r, ?andb_false_r, ?andb_true_r; done.
Qed.

Lemma vmsb_pow2 size : op_size size -> vmsb size = 2 ^ (8 * size - 1).
Proof. intros H. by op_cases H. Qed.

Lemma land_vmask size x : op_size size -> x .& vmask size = wrap (8 * size) x.
Proof.
  intros H. rewrite <- land_ones_wrap by (op_cases H; lia). f_equal. by op_cases H.
Qed.

Lemma vmask_val size : op_size size -> vmask size = 2 ^ (8 * size) - 1.
Proof. intros H. by op_cases H. Qed.

(** The sign bit of an operand-sized value. *)
Lemma tst_vmsb size x : op_size size -> rng (8 * size) x -> tst x (vmsb size) = (2 ^ (8 * size - 1) <=? x).
Proof.
  intros Hs Hx. assert (0 < 8 * size) by (op_cases Hs; lia).
  rewrite vmsb_pow2, tst_pow2, testbit_top by (done || lia). by rewrite Z.leb_antisym.
Qed.

Lemma tst_lxor_and a b c d size : op_size size -> rng (8 * size) a -> rng (8 * size) b -> rng (8 * size) c -> rng (8 * size) d ->
  tst ((a .^ b) .& (c .^ d)) (vmsb size) =
  xorb (2 ^ (8 * size - 1) <=? a) (2 ^ (8 * size - 1) <=? b) && xorb (2 ^ (8 * size - 1) <=? c) (2 ^ (8 * size - 1) <=? d).
Proof.
  intros Hs Ha Hb Hc Hd. assert (0 < 8 * size) by (op_cases Hs; lia).
  rewrite vmsb_pow2, tst_pow2, Z.land_spec, !Z.lxor_spec, !testbit_top, !Z.leb_antisym by (done || lia). done.
Qed.

(** ** Parity *)

Definition even_parity (r : Z) : bool :=
  negb (fold_left (fun p i => xorb p (Z.testbit r i)) (seqZ 0 8) false).

Lemma parity_byte r : rng 8 r ->
  (arr kNibbleParity (r .& 0xf) .^ arr kNibbleParity ((r .>> 4) .& 0xf) =? 0) = even_parity r.
Proof.
  intros Hr.
  assert (forall k, k ∈ seqZ 0 256 ->
    (arr kNibbleParity (k .& 0xf) .^ arr kNibbleParity ((k .>> 4) .& 0xf) =? 0) = even_parity k) as Hall.
  { apply Forall_forall. apply (bool_decide_unpack _). vm_compute. done. }
  apply Hall, elem_of_seqZ. unfold rng in Hr. lia.
Qed.

Lemma low_nibble r : u8 r .& 0xf = r .& 0xf /\ (u8 r .>> 4) .& 0xf = (r .>> 4) .& 0xf.
Proof.
  split; rewrite !(land_ones_wrap _ 4) by lia; apply Z.bits_inj'; intros n Hn;
    rewrite !wrap_testbit, ?Z.shiftr_spec, ?wrap_testbit by lia;
    destruct (Z.ltb_spec n 4); simpl; [|done|..|done].
  - by destruct (Z.ltb_spec n 8); [|lia].
  - by destruct (Z.ltb_spec (n + 4) 8); [|lia].
Qed.

Lemma parity_spec r :
  (arr kNibbleParity (r .& 0xf) .^ arr kNibbleParity ((r .>> 4) .& 0xf) =? 0) = even_parity r.
Proof.
  destruct (low_nibble r) as [<- <-]. rewrite parity_byte by (apply rng_wrap; lia).
  unfold even_parity. change (seqZ 0 8) with [0; 1; 2; 3; 4; 5; 6; 7]. cbn [fold_left].
  by rewrite !wrap_testbit by lia.
Qed.

(** ** Additions and subtractions

    The reference: the mathematical sum or difference, its low bits, and the
    flags by what they mean. *)

Record alu_out := AluOut { ao_res : Z; ao_cf : bool; ao_pf : bool; ao_af : bool; ao_zf : bool; ao_sf : bool; ao_of : bool }.

(** [t] is the exact result, [ts] the exact result of the signed operands,
    [half] whether the low digit carried or borrowed. *)
Definition alu_ref (n t ts : Z) (half : bool) : alu_out :=
  let r := wrap n t in
  AluOut r (negb ((0 <=? t) && (t <? 2 ^ n))) (even_parity r) half (r =? 0) (signed n r <? 0)
    (negb ((- 2 ^ (n - 1) <=? ts) && (ts <? 2 ^ (n - 1)))).
Definition add_ref (n a b c : Z) : alu_out :=
  alu_ref n (a + b + c) (signed n a + signed n b + c) (16 <=? a mod 16 + b mod 16 + c).
Definition sub_ref (n a b c : Z) : alu_out :=
  alu_ref n (a - b - c) (signed n a - signed n b - c) (a mod 16 <? b mod 16 + c).

(** What the flag word says, and the bits the arithmetic leaves alone. *)
Definition alu_agrees (w : Z) (rw : Z * Z) (o : alu_out) : Prop :=
  let '(r, w') := rw in
  r = ao_res o /\ fbit w' fl_cf = ao_cf o /\ fbit w' fl_pf = ao_pf o /\ fbit w' fl_af = ao_af o /\
  fbit w' fl_zf = ao_zf o /\ fbit w' fl_sf = ao_sf o /\ fbit w' fl_of = ao_of o /\
  w' &~ kFlagArith = w &~ kFlagArith.

(** Bit 4 of [a ^ b ^ (a + b + c)] is the carry out of the low digit. *)
Lemma testbit4_odd x : Z.testbit x 4 = Z.odd (x / 16).
Proof. rewrite Z.testbit_odd, Z.shiftr_div_pow2 by lia. done. Qed.

Lemma odd_bit x y b : x = y + b2z b -> Z.odd x = xorb (Z.odd y) b.
Proof. intros ->. rewrite Z.odd_add. by destruct b. Qed.

Lemma half_carry a b c : 0 <= c <= 1 ->
  Z.testbit (a .^ b .^ (a + b + c)) 4 = (16 <=? a mod 16 + b mod 16 + c).
Proof.
  intros Hc. rewrite !Z.lxor_spec, !testbit4_odd.
  rewrite (odd_bit ((a + b + c) / 16) (a / 16 + b / 16) (16 <=? a mod 16 + b mod 16 + c)).
  - rewrite Z.odd_add. by destruct (Z.odd (a / 16)), (Z.odd (b / 16)), (16 <=? _).
  - unfold b2z. destruct (Z.leb_spec 16 (a mod 16 + b mod 16 + c)); Z.to_euclidean_division_equations; lia.
Qed.

Lemma half_borrow a b c : 0 <= c <= 1 ->
  Z.testbit (a .^ b .^ (a - b - c)) 4 = (a mod 16 <? b mod 16 + c).
Proof.
  intros Hc. rewrite !Z.lxor_spec, !testbit4_odd.
  rewrite (odd_bit (a / 16) ((a - b - c) / 16 + b / 16) (a mod 16 <? b mod 16 + c)).
  - rewrite Z.odd_add. by destruct (Z.odd ((a - b - c) / 16)), (Z.odd (b / 16)), (_ <? _).
  - unfold b2z. destruct (Z.ltb_spec (a mod 16) (b mod 16 + c)); Z.to_euclidean_division_equations; lia.
Qed.

Lemma tst_bit4 x : tst (x .>> 4) 1 = Z.testbit x 4.
Proof. change 1 with (2 ^ 0). rewrite tst_pow2, Z.shiftr_spec by lia. done. Qed.

Lemma wrap_bit4 n a b x : 4 < n -> Z.testbit (a .^ b .^ wrap n x) 4 = Z.testbit (a .^ b .^ x) 4.
Proof. intros. rewrite !Z.lxor_spec, wrap_testbit by lia. by destruct (Z.ltb_spec 4 n); [|lia]. Qed.

Ltac flag_bits :=
  unfold fbit, flags_add, flags_sub, flags_logic, szp_bits, fl_cf, fl_pf, fl_af, fl_zf, fl_sf, fl_of; cbn zeta;
  rewrite ?Z.lor_spec, ?Z.ldiff_spec, ?orif_spec; tb_const; simpl negb; autorewrite with zbool.

Lemma arith_untouched w f : f &~ kFlagArith = 0 -> ((w &~ kFlagArith) .| f) &~ kFlagArith = w &~ kFlagArith.
Proof.
  intros Hf. transitivity ((w &~ kFlagArith) .| (f &~ kFlagArith)); [zbits|]. by rewrite Hf, Z.lor_0_r.
Qed.

Lemma orif_arith c m f : m &~ kFlagArith = 0 -> f &~ kFlagArith = 0 -> orif c m f &~ kFlagArith = 0.
Proof.
  intros Hm Hf. destruct c; [|done]. simpl. transitivity ((f &~ kFlagArith) .| (m &~ kFlagArith)); [zbits|].
  by rewrite Hm, Hf.
Qed.

(** The result as an exact number, one wrap away at most. *)
Lemma wrap_add_carry n a b c : 0 <= n -> rng n a -> rng n b -> 0 <= c <= 1 ->
  wrap n (a + b + c) = a + b + c - (if 2 ^ n <=? a + b + c then 2 ^ n else 0).
Proof.
  unfold rng, wrap. intros Hn Ha Hb Hc. destruct (Z.leb_spec (2 ^ n) (a + b + c)).
  - symmetry. apply Z.mod_unique with 1; lia.
  - rewrite Z.mod_small by lia. lia.
Qed.
Lemma wrap_sub_borrow n a b c : 0 <= n -> rng n a -> rng n b -> 0 <= c <= 1 ->
  wrap n (a - b - c) = a - b - c + (if a <? b + c then 2 ^ n else 0).
Proof.
  unfold rng, wrap. intros Hn Ha Hb Hc. destruct (Z.ltb_spec a (b + c)).
  - symmetry. apply Z.mod_unique with (-1); lia.
  - rewrite Z.mod_small by lia. lia.
Qed.

(** Decide a relation between comparisons by splitting every one of them. *)
Ltac cmp_split :=
  repeat match goal with
  | |- context [if ?x <=? ?y then _ else _] => destruct (Z.leb_spec x y)
  | |- context [if ?x <? ?y then _ else _] => destruct (Z.ltb_spec x y)
  end;
  repeat match goal with
  | |- context [?x <=? ?y] => destruct (Z.leb_spec x y)
  | |- context [?x <? ?y] => destruct (Z.ltb_spec x y)
  | |- context [?x =? ?y] => destruct (Z.eqb_spec x y)
  end; simpl; intros; try done; exfalso; lia.

Ltac half n := assert (2 ^ n = 2 * 2 ^ (n - 1)) by (rewrite <- Z.pow_succ_r by lia; f_equal; lia).

Lemma flags_sub_agrees w a b size c : op_size size -> rng (8 * size) a -> rng (8 * size) b -> 0 <= c <= 1 ->
  let r := wrap (8 * size) (a - b - c) in
  alu_agrees w (r, flags_sub w a b r size c) (sub_ref (8 * size) a b c).
Proof.
  intros Hs Ha Hb Hc r. set (n := 8 * size) in *. assert (8 <= n <= 32) by (unfold n; op_cases Hs; lia). half n.
  assert (rng n r) as Hr by (apply rng_wrap; lia).
  pose proof (wrap_sub_borrow n a b c ltac:(lia) Ha Hb Hc) as Er. fold r in Er.
  pose proof (Ha : 0 <= a < 2 ^ n). pose proof (Hb : 0 <= b < 2 ^ n). pose proof (Hr : 0 <= r < 2 ^ n).
  unfold sub_ref, alu_ref. fold r. cbn [alu_agrees ao_res ao_cf ao_pf ao_af ao_zf ao_sf ao_of].
  split_and!; flag_bits; rewrite ?land_vmask by done; fold n; rewrite ?wrap_small by done.
  - done.
  - cmp_split.
  - apply parity_spec.
  - rewrite tst_bit4. unfold r. rewrite wrap_bit4 by lia. by apply half_borrow.
  - done.
  - rewrite tst_vmsb by done. fold n. unfold signed. cmp_split.
  - rewrite tst_lxor_and by done. fold n. unfold signed. clearbody r. revert Er. cmp_split.
  - apply arith_untouched. by repeat apply orif_arith.
Qed.

(** The overflow test of the additions reads the sign bit of a complement. *)
Lemma tst_add_of a b r size : op_size size -> rng (8 * size) a -> rng (8 * size) b -> rng (8 * size) r ->
  tst (((0xffffffff .^ (a .^ b)) .& (a .^ r)) .>> (size * 8 - 1)) 1 =
  negb (xorb (2 ^ (8 * size - 1) <=? a) (2 ^ (8 * size - 1) <=? b)) &&
  xorb (2 ^ (8 * size - 1) <=? a) (2 ^ (8 * size - 1) <=? r).
Proof.
  intros Hs Ha Hb Hr. assert (8 <= 8 * size <= 32) by (op_cases Hs; lia).
  change 1 with (2 ^ 0). rewrite tst_pow2, Z.shiftr_spec, Z.land_spec, !Z.lxor_spec by lia.
  change 0xffffffff with (Z.ones 32). rewrite Z.add_0_l, (Z.mul_comm size 8), Z.ones_spec_low by lia.
  by rewrite !testbit_top, !Z.leb_antisym by (done || lia).
Qed.

Lemma flags_add_agrees w a b size c : op_size size -> rng (8 * size) a -> rng (8 * size) b -> 0 <= c <= 1 ->
  let r := wrap (8 * size) (a + b + c) in
  alu_agrees w (r, flags_add w a b r size c) (add_ref (8 * size) a b c).
Proof.
  intros Hs Ha Hb Hc r. set (n := 8 * size) in *. assert (8 <= n <= 32) by (unfold n; op_cases Hs; lia). half n.
  assert (rng n r) as Hr by (apply rng_wrap; lia).
  pose proof (wrap_add_carry n a b c ltac:(lia) Ha Hb Hc) as Er. fold r in Er.
  pose proof (Ha : 0 <= a < 2 ^ n). pose proof (Hb : 0 <= b < 2 ^ n). pose proof (Hr : 0 <= r < 2 ^ n).
  unfold add_ref, alu_ref. fold r. cbn [alu_agrees ao_res ao_cf ao_pf ao_af ao_zf ao_sf ao_of].
  split_and!; flag_bits; rewrite ?land_vmask by done; fold n; rewrite ?wrap_small by done.
  - done.
  - rewrite vmask_val by done. fold n. cmp_split.
  - apply parity_spec.
  - rewrite tst_bit4. unfold r. rewrite wrap_bit4 by lia. by apply half_carry.
  - done.
  - rewrite tst_vmsb by done. fold n. unfold signed. cmp_split.
  - rewrite tst_add_of by done. fold n. unfold signed. clearbody r. revert Er. cmp_split.
  - apply arith_untouched. by repeat apply orif_arith.
Qed.

(** [u32 x & vmask] is the operand-sized wrap. *)
Lemma u32_vmask size x : op_size size -> u32 x .& vmask size = wrap (8 * size) x.
Proof.
  intros Hs. rewrite land_vmask by done. assert (8 <= 8 * size <= 32) by (op_cases Hs; lia).
  apply Z.bits_inj'; intros k Hk. rewrite !wrap_testbit by lia.
  destruct (Z.ltb_spec k (8 * size)), (Z.ltb_spec k 32); simpl; done || lia.
Qed.

Lemma b2z_01 b : 0 <= b2z b <= 1.
Proof. destruct b; simpl; lia. Qed.

(** C10: ADD, ADC, SUB, SBB and CMP agree with a reference written in integer arithmetic: at 8, 16
    and 32 bits the result is the sum or difference modulo 2^n, carry and auxiliary carry are the
    true carries, overflow is signed overflow, sign, zero and parity describe the result, and no
    other flag moves. *)
Theorem alu_add_sub_exact w a b size : op_size size -> rng (8 * size) a -> rng (8 * size) b ->
  let n := 8 * size in
  let c := b2z (fbit w fl_cf) in
  alu_agrees w (grp1_math w 0 a b size) (add_ref n a b 0) /\
  alu_agrees w (grp1_math w 2 a b size) (add_ref n a b c) /\
  alu_agrees w (grp1_math w 5 a b size) (sub_ref n a b 0) /\
  alu_agrees w (grp1_math w 7 a b size) (sub_ref n a b 0) /\
  alu_agrees w (grp1_math w 3 a b size) (sub_ref n a b c).
Proof.
  intros Hs Ha Hb n c. pose proof (b2z_01 (fbit w fl_cf)).
  unfold grp1_math. cbn [switch Z.eqb Pos.eqb]. rewrite !u32_vmask by done.
  split_and!; first [apply flags_add_agrees | apply flags_sub_agrees]; done || lia.
Qed.

Lemma alu_add_sub_exact_witness : alu_agrees 2 (grp1_math 2 0 0x7f 0x01 1) (add_ref 8 0x7f 0x01 0) /\
  ao_of (add_ref 8 0x7f 0x01 0) = true /\ ao_af (add_ref 8 0x7f 0x01 0) = true.
Proof.
  split; [|split; reflexivity].
  apply (alu_add_sub_exact 2 0x7f 0x01 1); unfold op_size, rng; lia.
Defined.

(** ** Conditions after a comparison *)

Lemma cmp_flags w a b size : op_size size -> rng (8 * size) a -> rng (8 * size) b ->
  alu_agrees w (grp1_math w 7 a b size) (sub_ref (8 * size) a b 0).
Proof.
  intros Hs Ha Hb. unfold grp1_math. cbn [switch Z.eqb Pos.eqb]. rewrite u32_vmask by done.
  apply flags_sub_agrees; done || lia.
Qed.

Lemma signed_inj n a b : 0 < n -> rng n a -> rng n b -> signed n a = signed n b -> a = b.
Proof. intros Hn Ha Hb E. rewrite <- (wrap_signed n a), <- (wrap_signed n b), E by done. done. Qed.

(** CF, ZF and SF xor OF after a comparison. *)
Lemma cmp_bits w a b size : op_size size -> rng (8 * size) a -> rng (8 * size) b ->
  let w' := snd (grp1_math w 7 a b size) in
  let n := 8 * size in
  fbit w' fl_cf = (a <? b) /\ fbit w' fl_zf = (a =? b) /\
  xorb (fbit w' fl_sf) (fbit w' fl_of) = (signed n a <? signed n b).
Proof.
  intros Hs Ha Hb w' n. pose proof (cmp_flags w a b size Hs Ha Hb) as Hf.
  unfold w'. destruct (grp1_math w 7 a b size) as [r f]. cbn [snd]. clear w'.
  destruct Hf as (Er & Ec & _ & _ & Ez & Es & Eo & _). unfold sub_ref, alu_ref in *.
  cbn [ao_res ao_cf ao_zf ao_sf ao_of] in *. fold n in Er, Ec, Ez, Es, Eo.
  assert (8 <= n <= 32) by (unfold n; op_cases Hs; lia). half n.
  pose proof (rng_wrap n (a - b - 0) ltac:(lia) : 0 <= _ < 2 ^ n) as Hw.
  rewrite (wrap_sub_borrow n a b 0) in * by (done || lia).
  pose proof (Ha : 0 <= a < 2 ^ n). pose proof (Hb : 0 <= b < 2 ^ n).
  rewrite Ec, Ez, Es, Eo. clear Ec Ez Es Eo Er Ha Hb.
  split_and!; revert Hw; unfold signed; cmp_split.
Qed.

(** C7: the condition codes after CMP are the comparisons their names say: below, equal and above
    are the unsigned order of the operands, less, less-or-equal and greater the signed order, at
    every operand size. *)
Theorem cmp_cond_order w a b size : op_size size -> rng (8 * size) a -> rng (8 * size) b ->
  let w' := snd (grp1_math w 7 a b size) in
  let n := 8 * size in
  cond w' 0x2 = (a <? b) /\ cond w' 0x3 = (b <=? a) /\ cond w' 0x4 = (a =? b) /\ cond w' 0x5 = negb (a =? b) /\
  cond w' 0x6 = (a <=? b) /\ cond w' 0x7 = (b <? a) /\
  cond w' 0xc = (signed n a <? signed n b) /\ cond w' 0xd = (signed n b <=? signed n a) /\
  cond w' 0xe = (signed n a <=? signed n b) /\ cond w' 0xf = (signed n b <? signed n a).
Proof.
  intros Hs Ha Hb w' n. destruct (cmp_bits w a b size Hs Ha Hb) as (Ec & Ez & El).
  fold w' in Ec, Ez, El. fold n in El, Ha, Hb. assert (0 < n) by (unfold n; op_cases Hs; lia).
  assert ((a =? b) = (signed n a =? signed n b)) as Eq.
  { destruct (Z.eqb_spec a b) as [->|Hne]; [by rewrite Z.eqb_refl|].
    symmetry. apply Z.eqb_neq. intros E. by apply Hne, (signed_inj n). }
  unfold cond. cbn [switch Z.ldiff Z.eqb Pos.eqb Pos.ldiff N.ldiff].
  rewrite ?Ec, ?Ez, ?El. split_and!; clear -Eq; first [clear; cmp_split | rewrite Eq; cmp_split].
Qed.

Lemma cmp_cond_order_witness :
  cond (snd (grp1_math 2 7 0x80 0x01 1)) 0xc = true /\ cond (snd (grp1_math 2 7 0x80 0x01 1)) 0x2 = false.
Proof.
  destruct (cmp_cond_order 2 0x80 0x01 1) as (Hb & _ & _ & _ & _ & _ & Hl & _); [unfold op_size, rng; lia..|].
  rewrite Hb, Hl. split; reflexivity.
Defined.

(** ** Rotates *)

(** Bit [i] of a rotation by [k] in a ring of [n] bits; the shifts are done in
    a wider word of [wd] bits. *)
Lemma rot_left_bit n k wd v i : rng n v -> 0 <= k < n -> 0 <= i < n -> n <= wd ->
  Z.testbit (wrap wd (v .<< k) .| (v .>> (n - k))) i = Z.testbit v ((i - k) mod n).
Proof.
  intros Hv Hk Hi Hwd. apply rng_testbit in Hv as [_ Hv]; [|lia].
  rewrite Z.lor_spec, wrap_testbit, Z.shiftl_spec, Z.shiftr_spec by lia.
  destruct (Z.ltb_spec i wd); [simpl|lia]. destruct (Z.lt_ge_cases i k).
  - rewrite (Z.testbit_neg_r v (i - k)) by lia. simpl. f_equal. apply Z.mod_unique with (-1); lia.
  - rewrite (Hv (i + (n - k))), orb_false_r, Z.mod_small by lia. done.
Qed.

Lemma rot_right_bit n k wd v i : rng n v -> 0 <= k < n -> 0 <= i < n -> n <= wd ->
  Z.testbit ((v .>> k) .| wrap wd (v .<< (n - k))) i = Z.testbit v ((i + k) mod n).
Proof.
  intros Hv Hk Hi Hwd. apply rng_testbit in Hv as [_ Hv]; [|lia].
  rewrite Z.lor_spec, wrap_testbit, Z.shiftl_spec, Z.shiftr_spec by lia.
  destruct (Z.ltb_spec i wd); [simpl|lia]. destruct (Z.lt_ge_cases (i + k) n).
  - rewrite (Z.testbit_neg_r v (i - (n - k))), orb_false_r, Z.mod_small by lia. done.
  - rewrite (Hv (i + k)) by lia. simpl. f_equal. apply Z.mod_unique with 1; lia.
Qed.

(** The two rotations of a ring undo each other. *)
Lemma rot_left_right n k wd v x : rng n v -> 0 <= k < n -> n <= wd ->
  wrap n x = wrap n (wrap wd (v .<< k) .| (v .>> (n - k))) ->
  wrap n ((wrap n x .>> k) .| wrap wd (wrap n x .<< (n - k))) = v.
Proof.
  intros Hv Hk Hw Ex. rewrite <- (wrap_small n v Hv). apply Z.bits_inj'; intros i Hi.
  rewrite !(wrap_testbit n) by lia. destruct (Z.ltb_spec i n); [simpl|done].
  rewrite rot_right_bit by (done || lia || apply rng_wrap; lia).
  assert (0 <= (i + k) mod n < n) by (apply Z.mod_pos_bound; lia).
  rewrite Ex, wrap_testbit by lia. destruct (Z.ltb_spec ((i + k) mod n) n); [simpl|lia].
  rewrite rot_left_bit by (done || lia). f_equal. rewrite Zminus_mod_idemp_l.
  replace (i + k - k) with i by lia. apply Z.mod_small. lia.
Qed.

Lemma rot_right_left n k wd v x : rng n v -> 0 <= k < n -> n <= wd ->
  wrap n x = wrap n ((v .>> k) .| wrap wd (v .<< (n - k))) ->
  wrap n (wrap wd (wrap n x .<< k) .| (wrap n x .>> (n - k))) = v.
Proof.
  intros Hv Hk Hw Ex. rewrite <- (wrap_small n v Hv). apply Z.bits_inj'; intros i Hi.
  rewrite !(wrap_testbit n) by lia. destruct (Z.ltb_spec i n); [simpl|done].
  rewrite rot_left_bit by (done || lia || apply rng_wrap; lia).
  assert (0 <= (i - k) mod n < n) by (apply Z.mod_pos_bound; lia).
  rewrite Ex, wrap_testbit by lia. destruct (Z.ltb_spec ((i - k) mod n) n); [simpl|lia].
  rewrite rot_right_bit by (done || lia). f_equal. rewrite Zplus_mod_idemp_l.
  replace (i - k + k) with i by lia. apply Z.mod_small. lia.
Qed.

(** The ring of the rotates through carry: CF above the operand. *)
Definition ring (n : Z) (cf : bool) (v : Z) : Z := (b2z cf .<< n) .| v.

Lemma ring_bit n cf v i : 0 <= n -> 0 <= i -> rng n v -> Z.testbit (ring n cf v) i = if i =? n then cf else Z.testbit v i.
Proof.
  intros Hn Hi Hv. apply rng_testbit in Hv as [_ Hv]; [|done]. unfold ring. rewrite Z.lor_spec, Z.shiftl_spec by done.
  destruct (Z.eqb_spec i n) as [->|].
  - rewrite Z.sub_diag, Hv, orb_false_r by lia. by destruct cf.
  - replace (Z.testbit (b2z cf) (i - n)) with false; [done|]. symmetry.
    destruct (Z.lt_ge_cases i n); [by apply Z.testbit_neg_r; lia|].
    destruct cf; [|apply Z.bits_0]. simpl. apply (Z.pow2_bits_false 0). lia.
Qed.

Lemma ring_rng n cf v : 0 <= n -> rng n v -> rng (n + 1) (ring n cf v).
Proof.
  intros Hn Hv. apply rng_testbit; [lia|]. split.
  - unfold ring. apply Z.lor_nonneg. split; [apply Z.shiftl_nonneg; destruct cf; simpl; lia|apply Hv].
  - intros i Hi. rewrite ring_bit by (done || lia). destruct (Z.eqb_spec i n); [lia|].
    apply rng_testbit in Hv as [_ Hv]; [|done]. apply Hv; lia.
Qed.

Lemma ring_wrap n x : 0 <= n -> ring n (Z.testbit x n) (wrap n x) = wrap (n + 1) x.
Proof.
  intros Hn. apply Z.bits_inj'; intros i Hi. rewrite ring_bit, !wrap_testbit by (done || lia || apply rng_wrap; lia).
  destruct (Z.eqb_spec i n) as [->|]; [by destruct (Z.ltb_spec n (n + 1)); [|lia]|].
  destruct (Z.ltb_spec i n), (Z.ltb_spec i (n + 1)); done || lia.
Qed.

(** Reading a ring back off a word that agrees with it on its bits. *)
Lemma ring_read n cf v x : 0 <= n -> rng n v -> wrap (n + 1) x = ring n cf v -> wrap n x = v /\ Z.testbit x n = cf.
Proof.
  intros Hn Hv E. split.
  - rewrite <- (wrap_small n v Hv). apply Z.bits_inj'; intros i Hi. rewrite !wrap_testbit by lia.
    destruct (Z.ltb_spec i n); [simpl|done]. apply (f_equal (fun z => Z.testbit z i)) in E.
    rewrite wrap_testbit, ring_bit in E by (done || lia).
    destruct (Z.ltb_spec i (n + 1)), (Z.eqb_spec i n); done || lia.
  - apply (f_equal (fun z => Z.testbit z n)) in E. rewrite wrap_testbit, ring_bit, Z.eqb_refl in E by (done || lia).
    by destruct (Z.ltb_spec n (n + 1)); [|lia].
Qed.

Lemma tst_shift x n : 0 <= n -> tst (x .>> n) 1 = Z.testbit x n.
Proof. intros. change 1 with (2 ^ 0). rewrite tst_pow2, Z.shiftr_spec by lia. done. Qed.

(** What RCL and RCR compute, as rotations of the ring. *)
Lemma rcl_ring w v cnt size : op_size size -> rng (8 * size) v -> cnt <> 0 ->
  let n := 8 * size in let k := cnt mod (n + 1) in
  let x := u64 (ring n (fbit w fl_cf) v .<< k) .| (ring n (fbit w fl_cf) v .>> (n + 1 - k)) in
  fst (rcl w v cnt size) = wrap n x /\ fbit (snd (rcl w v cnt size)) fl_cf = Z.testbit x n.
Proof.
  intros Hs Hv Hc n k x. unfold rcl. destruct (Z.eqb_spec cnt 0); [done|].
  rewrite (Z.mul_comm size 8), (land_vmask _ v) by done. rewrite (wrap_small _ v) by done. fold n k.
  fold (ring n (fbit w fl_cf) v). fold x. cbn [fst snd]. rewrite u32_vmask by done. fold n.
  assert (0 <= n) by (unfold n; op_cases Hs; lia). rewrite !tst_shift by done.
  split; [done|]. by rewrite !fput_spec by done.
Qed.
Lemma rcr_ring w v cnt size : op_size size -> rng (8 * size) v -> cnt <> 0 ->
  let n := 8 * size in let k := cnt mod (n + 1) in
  let x := (ring n (fbit w fl_cf) v .>> k) .| u64 (ring n (fbit w fl_cf) v .<< (n + 1 - k)) in
  fst (rcr w v cnt size) = wrap n x /\ fbit (snd (rcr w v cnt size)) fl_cf = Z.testbit x n.
Proof.
  intros Hs Hv Hc n k x. unfold rcr. destruct (Z.eqb_spec cnt 0); [done|].
  rewrite (Z.mul_comm size 8), (land_vmask _ v) by done. rewrite (wrap_small _ v) by done. fold n k.
  fold (ring n (fbit w fl_cf) v). fold x. cbn [fst snd]. rewrite u32_vmask by done. fold n.
  assert (0 <= n) by (unfold n; op_cases Hs; lia). rewrite !tst_shift by done.
  split; [done|]. by rewrite !fput_spec by done.
Qed.

(** Rotates are inverse: ROR undoes ROL and RCR undoes RCL for every count and operand size, and the
    through-carry pair also restores the carry flag. *)
Theorem rotate_roundtrip w w2 v cnt size : op_size size -> rng (8 * size) v -> 0 <= cnt ->
  fst (ror w2 (fst (rol w v cnt size)) cnt size) = v /\
  fst (rol w2 (fst (ror w v cnt size)) cnt size) = v /\
  (let rf := rcl w v cnt size in
   let rf2 := rcr (snd rf) (fst rf) cnt size in fst rf2 = v /\ fbit (snd rf2) fl_cf = fbit w fl_cf) /\
  (let rf := rcr w v cnt size in
   let rf2 := rcl (snd rf) (fst rf) cnt size in fst rf2 = v /\ fbit (snd rf2) fl_cf = fbit w fl_cf).
Proof.
  intros Hs Hv Hc. assert (8 <= 8 * size <= 32) by (op_cases Hs; lia).
  destruct (Z.eq_dec cnt 0) as [->|Hc0]; [done|]. set (n := 8 * size) in *.
  split; [|split; [|split]].
  - unfold rol, ror. rewrite (proj2 (Z.eqb_neq cnt 0) Hc0). cbn [fst]. rewrite !(Z.mul_comm size 8), !land_vmask by done.
    eapply rot_left_right; [done|apply Z.mod_pos_bound; lia|lia|reflexivity].
  - unfold rol, ror. rewrite (proj2 (Z.eqb_neq cnt 0) Hc0). cbn [fst]. rewrite !(Z.mul_comm size 8), !land_vmask by done.
    eapply rot_right_left; [done|apply Z.mod_pos_bound; lia|lia|reflexivity].
  - intros rf rf2. destruct (rcl_ring w v cnt size Hs Hv Hc0) as [E1 E2]. fold rf n in E1, E2.
    assert (rng n (fst rf)) as Hr by (rewrite E1; apply rng_wrap; lia).
    destruct (rcr_ring (snd rf) (fst rf) cnt size Hs Hr Hc0) as [F1 F2]. fold rf2 n in F1, F2. rewrite F1, F2, E2, E1.
    apply ring_read; [lia|done|]. rewrite ring_wrap by lia.
    apply rot_left_right; [apply ring_rng; done || lia|apply Z.mod_pos_bound; lia|lia|reflexivity].
  - intros rf rf2. destruct (rcr_ring w v cnt size Hs Hv Hc0) as [E1 E2]. fold rf n in E1, E2.
    assert (rng n (fst rf)) as Hr by (rewrite E1; apply rng_wrap; lia).
    destruct (rcl_ring (snd rf) (fst rf) cnt size Hs Hr Hc0) as [F1 F2]. fold rf2 n in F1, F2. rewrite F1, F2, E2, E1.
    apply ring_read; [lia|done|]. rewrite ring_wrap by lia.
    apply rot_right_left; [apply ring_rng; done || lia|apply Z.mod_pos_bound; lia|lia|reflexivity].
Qed.

Lemma rotate_roundtrip_witness : fst (rol 2 0x81 3 1) = 0x0c /\ fst (ror 2 (fst (rol 2 0x81 3 1)) 3 1) = 0x81.
Proof. split; [reflexivity|]. apply (rotate_roundtrip 2 2 0x81 3 1); unfold op_size, rng; lia. Defined.

(** ** Packed decimal *)

(** The packed form of a number below one hundred. *)
Definition packed (x : Z) : Z := (x / 10) * 16 + x mod 10.

(** AL and CF after an adjustment, as functions of AL, CF and AF before it. *)
Definition bcd_out (old_al off : Z) (old_cf af wrapc : bool) : Z * bool :=
  let low := (9 <? old_al .& 0xf) || af in
  let high := (0x99 <? old_al) || old_cf in
  let al := if low then u8 (old_al + off) else old_al in
  (if high then u8 (al + 16 * off) else al, high || (low && (old_cf || wrapc))).

Lemma bcd_adjust_out al w off wrapc :
  let rw := bcd_adjust al w off wrapc in
  (fst rw, fbit (snd rw) fl_cf) = bcd_out al off (fbit w fl_cf) (fbit w fl_af) wrapc.
Proof.
  unfold bcd_adjust, bcd_out. cbn [fst snd]. f_equal.
  set (low := (9 <? al .& 0xf) || fbit w fl_af). set (high := (0x99 <? al) || fbit w fl_cf).
  destruct (high || (low && (fbit w fl_cf || wrapc))); rewrite !fput_spec by done; [done|].
  cbn [Z.eqb fl_cf fl_af]. by flag_bits.
Qed.

(** ADC/SBB of two packed bytes, then the adjustment. *)
Definition daa_ok (x y c : Z) : bool :=
  let o := add_ref 8 (packed x) (packed y) c in
  bool_decide (bcd_out (ao_res o) 6 (ao_cf o) (ao_af o) (0xf9 <? ao_res o) =
               (packed ((x + y + c) mod 100), 100 <=? x + y + c)).
Definition das_ok (x y c : Z) : bool :=
  let o := sub_ref 8 (packed x) (packed y) c in
  bool_decide (bcd_out (ao_res o) (-6) (ao_cf o) (ao_af o) (ao_res o <? 6) =
               (packed ((x - y - c) mod 100), x <? y + c)).

(** A predicate that holds on a whole range, by computation. *)
Lemma range2_forall (f : Z -> Z -> Z -> bool) (n : Z) :
  forallb (fun x => forallb (fun y => f x y 0 && f x y 1) (seqZ 0 n)) (seqZ 0 n) = true ->
  forall x y (c : bool), 0 <= x < n -> 0 <= y < n -> f x y (b2z c) = true.
Proof.
  intros H x y c Hx Hy.
  assert (forall z, 0 <= z < n -> List.In z (seqZ 0 n)) as Hin by (intros; apply list_elem_of_In, elem_of_seqZ; lia).
  rewrite List.forallb_forall in H. specialize (H x (Hin x Hx)).
  rewrite List.forallb_forall in H. specialize (H y (Hin y Hy)).
  apply andb_true_iff in H as [? ?]. by destruct c.
Qed.

Lemma packed_rng x : 0 <= x < 100 -> rng 8 (packed x).
Proof. intros. unfold packed, rng. Z.to_euclidean_division_equations. lia. Qed.

(** Decimal arithmetic: ADC then DAA of two packed two-digit numbers is their decimal sum with the
    carry out in CF, and SBB then DAS their decimal difference with the borrow, for every pair of
    digits and carry in. *)
Theorem bcd_add_sub_exact w x y : 0 <= x < 100 -> 0 <= y < 100 ->
  let c := b2z (fbit w fl_cf) in
  (let rw := grp1_math w 2 (packed x) (packed y) 1 in
   let aw := daa (fst rw) (snd rw) in
   fst aw = packed ((x + y + c) mod 100) /\ fbit (snd aw) fl_cf = (100 <=? x + y + c)) /\
  (let rw := grp1_math w 3 (packed x) (packed y) 1 in
   let aw := das (fst rw) (snd rw) in
   fst aw = packed ((x - y - c) mod 100) /\ fbit (snd aw) fl_cf = (x <? y + c)).
Proof.
  intros Hx Hy c. pose proof (packed_rng x Hx) as Px. pose proof (packed_rng y Hy) as Py.
  assert (op_size 1) as H1 by (by left). pose proof (b2z_01 (fbit w fl_cf)) as Hc. fold c in Hc.
  unfold grp1_math. cbn [switch Z.eqb Pos.eqb fst snd]. rewrite !u32_vmask by done. fold c. change (8 * 1) with 8. split.
  - destruct (flags_add_agrees w (packed x) (packed y) 1 c H1 Px Py Hc) as (Er & Ec & _ & Ea & _).
    pose proof (range2_forall daa_ok 100 ltac:(vm_compute; reflexivity) x y (fbit w fl_cf) Hx Hy) as Hok.
    apply bool_decide_eq_true in Hok. change (8 * 1) with 8 in *. fold c in Hok. rewrite <- Ec, <- Ea, <- Er in Hok.
    rewrite <- bcd_adjust_out, pair_eq in Hok. exact Hok.
  - destruct (flags_sub_agrees w (packed x) (packed y) 1 c H1 Px Py Hc) as (Er & Ec & _ & Ea & _).
    pose proof (range2_forall das_ok 100 ltac:(vm_compute; reflexivity) x y (fbit w fl_cf) Hx Hy) as Hok.
    apply bool_decide_eq_true in Hok. change (8 * 1) with 8 in *. fold c in Hok. rewrite <- Ec, <- Ea, <- Er in Hok.
    rewrite <- bcd_adjust_out, pair_eq in Hok. exact Hok.
Qed.

Lemma bcd_add_sub_exact_witness :
  let rw := grp1_math 2 2 0x58 0x67 1 in fst (daa (fst rw) (snd rw)) = 0x25.
Proof. apply (bcd_add_sub_exact 2 58 67); lia. Defined.
