(* ===== verification/X86Frame.v ===== *)
(** * What an x86 instruction may touch: the memory layer

    The type invariant of the processor state, the system registers only
    ring 0 may change, and the relations between the states before and after
    a piece of the interpreter.  This file covers the accessors, the memory
    accesses, the instruction stream, the operands, the stack and the ports;
    X86Keep goes on to the instructions. *)

From S2P Require Import Prelude Bus Ram RvState Run X86State X86Flags X86Mem X86Oper X86Seg X86Sys X86Fpu X86Float X86x87.

(** ** Preservation with the aborts it allows

    [keep R F p]: however [p] ends, the states before and after are related by
    [R]; a raise names an exception vector; a run that ends the process ends
    it for a reason in [F]. *)
Definition vectored (t : trap_rec) : Prop := 0 <= trap_cause t < 32.
Definition keep {S A} (R : S -> S -> Prop) (F : abort_reason -> Prop) (p : M S A) : Prop :=
  forall s, wp p (fun _ s' => R s s') (fun t s' => R s s' /\ vectored t) F s.

Section keep.
Context {S : Type} (R : S -> S -> Prop) (F : abort_reason -> Prop) `{!PreOrder R}.

Lemma keep_ret {A} (a : A) : keep R F (mret' a).
Proof. intros s. by apply wp_ret. Qed.
Lemma keep_gets {A} (f : S -> A) : keep R F (gets f).
Proof. intros s. unfold wp, gets. reflexivity. Qed.
Lemma keep_getS : keep R F getS.
Proof. intros s. unfold wp, getS. reflexivity. Qed.
Lemma keep_throw {A} t : vectored t -> keep R F (throw (A:=A) t).
Proof. intros Ht s. unfold wp, throw. by split. Qed.
Lemma keep_abort {A} r : F r -> keep R F (abort (A:=A) r).
Proof. by intros ? s. Qed.
Lemma keep_modify f : (forall s, R s (f s)) -> keep R F (modify f).
Proof. intros Hf s. apply Hf. Qed.

(** [p] run after code that already moved the state. *)
Lemma keep_after {A} (p : M S A) s s1 : keep R F p -> R s s1 ->
  wp p (fun _ s' => R s s') (fun t s' => R s s' /\ vectored t) F s1.
Proof.
  intros Hp Hs. eapply wp_mono; [| | |apply Hp]; cbv beta; [intros; by etrans|intros ? ? []; split; [by etrans|done]|done].
Qed.

Lemma keep_bind {A B} (m : M S A) (k : A -> M S B) :
  keep R F m -> (forall a, keep R F (k a)) -> keep R F (mbind' m k).
Proof.
  intros Hm Hk s. apply wp_bind. eapply wp_mono; [| | |apply Hm]; cbv beta; [|done..].
  intros a s' Hs. by apply keep_after.
Qed.

Lemma keep_switch {A} x (l : list (Z * M S A)) d :
  Forall (fun ka => keep R F ka.2) l -> keep R F d -> keep R F (switch x l d).
Proof.
  intros Hl Hd. apply (switch_ind (keep R F)); [|done]. eapply Forall_impl; [done|]. auto.
Qed.

Lemma keep_for_each {A} (l : list A) (f : A -> M S unit) : (forall a, keep R F (f a)) -> keep R F (for_each l f).
Proof. intros Hf. induction l; simpl; [apply keep_ret|]. by apply keep_bind. Qed.
End keep.

Lemma keep_mono {S A} (R R' : S -> S -> Prop) (F F' : abort_reason -> Prop) (p : M S A) :
  (forall s s', R s s' -> R' s s') -> (forall r, F r -> F' r) -> keep R F p -> keep R' F' p.
Proof. intros HR HF H s. eapply wp_mono; [| | |apply H]; cbv beta; auto. intros t s' []; auto. Qed.

(** ** The type invariant

    Every register holds a value of its C type, every array has its length.
    The FPU block and the translation cache are outside it. *)

Definition words (n w : Z) (l : list Z) : Prop := Z.of_nat (length l) = n /\ Forall (rng w) l.

Definition cpu_wf (c : CpuState) : Prop := words 32 64 (gpr c) /\ rng 32 (pc c).

Section wf.
Context {Dev : Type}.
Implicit Types s : x86_state Dev.

Record x86_wf s : Prop := {
  wf_sreg : words 6 16 (sreg s);
  wf_base : words 6 64 (base s);
  wf_limit : words 6 32 (limit s);
  wf_ar : words 6 8 (ar s);
  wf_dbit : words 6 8 (dbit s);
  wf_fl : rng 32 (fl s);
  wf_cr0 : rng 32 (cr0 s);
  wf_cr2 : rng 32 (cr2 s);
  wf_cr3 : rng 32 (cr3 s);
  wf_cr4 : rng 32 (cr4 s);
  wf_efer : rng 64 (efer s);
  wf_apic : rng 64 (msr_apic_base s);
  wf_fsgs : words 2 64 (msr_fs_gs_base s);
  wf_tsc : rng 64 (tsc_offset s);
  wf_aux : rng 32 (tsc_aux s);
  wf_se_cs : rng 32 (sysenter_cs s);
  wf_se_esp : rng 32 (sysenter_esp s);
  wf_se_eip : rng 32 (sysenter_eip s);
  wf_mtrr_base : words 8 64 (mtrr_physbase s);
  wf_mtrr_mask : words 8 64 (mtrr_physmask s);
  wf_mtrr_def : rng 64 (mtrr_def_type s);
  wf_pat : rng 64 (pat s);
  wf_mcg_status : rng 64 (mcg_status s);
  wf_mcg_ctl : rng 64 (mcg_ctl s);
  wf_mc0_ctl : rng 64 (mc0_ctl s);
  wf_mc0_status : rng 64 (mc0_status s);
  wf_mc0_addr : rng 64 (mc0_addr s);
  wf_mc0_misc : rng 64 (mc0_misc s);
  wf_evtsel : words 2 64 (perf_evtsel s);
  wf_pmc : words 2 64 (perf_pmc s);
  wf_fixed_ctrl : rng 64 (perf_fixed_ctrl s);
  wf_global_ctrl : rng 64 (perf_global_ctrl s);
  wf_global_status : rng 64 (perf_global_status s);
  wf_global_ovf : rng 64 (perf_global_ovf s);
  wf_fixed_ctr : words 3 64 (perf_fixed_ctr s);
  wf_active : rng 32 (perf_active s);
  wf_tlb_gen : rng 32 (tlb_gen s);
  wf_fetch_page : rng 32 (fetch_page s);
  wf_gdtr : rng 64 (gdtr s);
  wf_gdtr_limit : rng 16 (gdtr_limit s);
  wf_idtr : rng 64 (idtr s);
  wf_idtr_limit : rng 16 (idtr_limit s);
  wf_tr : rng 16 (tr s);
  wf_tr_base : rng 64 (tr_base s);
  wf_tr_limit : rng 32 (tr_limit s);
  wf_tr_ar : rng 8 (tr_ar s);
  wf_ldtr : rng 16 (ldtr s);
  wf_ldtr_base : rng 64 (ldtr_base s);
  wf_ldtr_limit : rng 32 (ldtr_limit s);
  wf_dr : words 8 32 (dr s);
  wf_watch_mask : rng 32 (gdb_watch_mask s);
  wf_watch_hits : rng 32 (watch_hits s);
  wf_trap_seq : rng 64 (trap_seq s);
  wf_trap_signal : rng 8 (trap_signal s);
}.

(** ** The registers only ring 0 may write

    CR0 but for TS (a task switch sets it), CR4, EFER, GDTR and IDTR, the
    MSRs, the debug addresses and DR7 with the gdb stub's claim on them.
    Outside it are CR2 and DR6, which faults and breakpoints write, and CR3,
    LDTR and TR, which a task switch loads from the new task. *)
Definition protected s : list Z * list (list Z) :=
  ([u32 (cr0 s &~ kCr0Ts); cr4 s; efer s; gdtr s; gdtr_limit s; idtr s; idtr_limit s; msr_apic_base s; tsc_offset s;
    tsc_aux s; sysenter_cs s; sysenter_esp s; sysenter_eip s; mtrr_def_type s; pat s; mcg_status s; mcg_ctl s;
    mc0_ctl s; mc0_status s; mc0_addr s; mc0_misc s; perf_fixed_ctrl s; perf_global_ctrl s; arr (dr s) 7;
    gdb_watch_mask s; b2z (dr_active s)],
   [msr_fs_gs_base s; mtrr_physbase s; mtrr_physmask s; perf_evtsel s; take 4 (dr s)]).

(** An update that keeps the types, and one that keeps the protected part too. *)
Definition typed s s' : Prop := x86_wf s -> x86_wf s'.
Definition guarded s s' : Prop := protected s' = protected s /\ typed s s'.

#[export] Instance guarded_preorder : PreOrder guarded.
Proof.
  split; [by split; [|intros ?]|]. intros s1 s2 s3 [E1 T1] [E2 T2]. split; [by rewrite E2|intros ?; by apply T2, T1].
Qed.
End wf.

Lemma words_set n w l i x : words n w l -> rng w x -> words n w (arr_set l i x).
Proof. intros [Hl Hf] Hx. split; [by rewrite length_arr_set|]. by apply Forall_arr_set. Qed.

Lemma rng_arr w l i : 0 < w -> Forall (rng w) l -> rng w (arr l i).
Proof.
  intros Hw Hl. unfold arr. rewrite list_lookup_total_alt. destruct (l !! Z.to_nat i) eqn:E; simpl.
  - by eapply Forall_lookup_1.
  - split; [done|]. assert (2 ^ 0 < 2 ^ w) by (apply Z.pow_lt_mono_r; lia). done.
Qed.

Lemma rng_fput w i b n : 0 <= i < n -> rng n w -> rng n (fput w i b).
Proof.
  intros Hi Hw. unfold fput. destruct b; [apply rng_lor; [lia|done|]|apply rng_ldiff; [lia|done]].
  split; [lia|]. apply Z.pow_lt_mono_r; lia.
Qed.

(** Close the type part of an update: one field changed, the others as they
    were. *)
Ltac wf_field :=
  solve [assumption | apply words_set; [assumption|wf_rng] | wf_rng]
with wf_rng := first [assumption | apply rng_wrap; (lia || by vm_compute) | apply rng_fput; [lia|assumption] | rng].
Ltac typed_upd := intros []; split; xsimpl; wf_field.

(** The type invariant of a concrete state, field by field. *)
Ltac wf_concrete :=
  split; xsimpl;
  lazymatch goal with
  | |- words _ _ _ =>
      split; [reflexivity|cbn [replicate]; repeat (apply Forall_cons_2; [unfold rng; vm_compute; split; congruence|]); apply Forall_nil_2]
  | |- rng _ _ => unfold rng; vm_compute; split; congruence
  end.

(** ** Which fields an instruction may assign *)

Class TypedField {Dev} (f : x86_state Dev -> Z) `{!Upd f, !Field f} :=
  typed_put : forall s v, typed s (s <| f := wrap (fwidth f) v |>).
Class GuardedField {Dev} (f : x86_state Dev -> Z) `{!Upd f, !Field f} :=
  guarded_put : forall s v, guarded s (s <| f := wrap (fwidth f) v |>).
Class GuardedArray {Dev} (f : x86_state Dev -> list Z) `{!Upd f, !FieldArray f} :=
  guarded_puta : forall s i v, guarded s (s <| f := arr_set (f s) i (wrap (faw f) v) |>).
Class TypedArray {Dev} (f : x86_state Dev -> list Z) `{!Upd f, !FieldArray f} :=
  typed_puta : forall s i v, typed s (s <| f := arr_set (f s) i (wrap (faw f) v) |>).
(** A field of another type, assigned as it is. *)
Class GuardedSet {Dev E} (f : x86_state Dev -> E) `{!Upd f} :=
  guarded_set : forall s v, guarded s (s <| f := v |>).

Ltac typed_field := intros ? *; unfold fwidth, faw; typed_upd.
Ltac guarded_field := intros ? *; split; [reflexivity|unfold fwidth, faw; typed_upd].

#[export] Instance guarded_fl {Dev} : GuardedField (@fl Dev).
Proof. guarded_field. Qed.
#[export] Instance guarded_cr2 {Dev} : GuardedField (@cr2 Dev).
Proof. guarded_field. Qed.
#[export] Instance guarded_cr3 {Dev} : GuardedField (@cr3 Dev).
Proof. guarded_field. Qed.
#[export] Instance guarded_tr {Dev} : GuardedField (@tr Dev).
Proof. guarded_field. Qed.
#[export] Instance guarded_tr_base {Dev} : GuardedField (@tr_base Dev).
Proof. guarded_field. Qed.
#[export] Instance guarded_tr_limit {Dev} : GuardedField (@tr_limit Dev).
Proof. guarded_field. Qed.
#[export] Instance guarded_tr_ar {Dev} : GuardedField (@tr_ar Dev).
Proof. guarded_field. Qed.
#[export] Instance guarded_ldtr {Dev} : GuardedField (@ldtr Dev).
Proof. guarded_field. Qed.
#[export] Instance guarded_ldtr_base {Dev} : GuardedField (@ldtr_base Dev).
Proof. guarded_field. Qed.
#[export] Instance guarded_ldtr_limit {Dev} : GuardedField (@ldtr_limit Dev).
Proof. guarded_field. Qed.
#[export] Instance guarded_global_status {Dev} : GuardedField (@perf_global_status Dev).
Proof. guarded_field. Qed.
#[export] Instance guarded_active {Dev} : GuardedField (@perf_active Dev).
Proof. guarded_field. Qed.
#[export] Instance guarded_watch_hits {Dev} : GuardedField (@watch_hits Dev).
Proof. guarded_field. Qed.
#[export] Instance guarded_trap_seq {Dev} : GuardedField (@trap_seq Dev).
Proof. guarded_field. Qed.
#[export] Instance guarded_trap_signal {Dev} : GuardedField (@trap_signal Dev).
Proof. guarded_field. Qed.

#[export] Instance guarded_sreg {Dev} : GuardedArray (@sreg Dev).
Proof. guarded_field. Qed.
#[export] Instance guarded_base {Dev} : GuardedArray (@base Dev).
Proof. guarded_field. Qed.
#[export] Instance guarded_limit {Dev} : GuardedArray (@limit Dev).
Proof. guarded_field. Qed.
#[export] Instance guarded_ar {Dev} : GuardedArray (@ar Dev).
Proof. guarded_field. Qed.
#[export] Instance guarded_dbit {Dev} : GuardedArray (@dbit Dev).
Proof. guarded_field. Qed.
#[export] Instance guarded_pmc {Dev} : GuardedArray (@perf_pmc Dev).
Proof. guarded_field. Qed.
#[export] Instance guarded_fixed_ctr {Dev} : GuardedArray (@perf_fixed_ctr Dev).
Proof. guarded_field. Qed.

#[export] Instance guarded_fpu {Dev} : GuardedSet (@fpu Dev).
Proof. guarded_field. Qed.
#[export] Instance guarded_tlb {Dev} : GuardedSet (@tlb Dev).
Proof. guarded_field. Qed.
#[export] Instance guarded_fetch_valid {Dev} : GuardedSet (@fetch_valid Dev).
Proof. guarded_field. Qed.
#[export] Instance guarded_bt {Dev} : GuardedSet (@bt_pending Dev).
Proof. guarded_field. Qed.
#[export] Instance guarded_ferr {Dev} : GuardedSet (@ferr_level Dev).
Proof. guarded_field. Qed.
#[export] Instance guarded_intr {Dev} : GuardedSet (@intr_pending Dev).
Proof. guarded_field. Qed.
#[export] Instance guarded_inhibit {Dev} : GuardedSet (@intr_inhibit Dev).
Proof. guarded_field. Qed.
#[export] Instance guarded_nmi {Dev} : GuardedSet (@nmi_pending Dev).
Proof. guarded_field. Qed.
#[export] Instance guarded_nmi_blocked {Dev} : GuardedSet (@nmi_blocked Dev).
Proof. guarded_field. Qed.

(** The protected fields keep their types when ring 0 assigns them. *)
#[export] Instance typed_cr0 {Dev} : TypedField (@cr0 Dev).
Proof. typed_field. Qed.
#[export] Instance typed_cr4 {Dev} : TypedField (@cr4 Dev).
Proof. typed_field. Qed.
#[export] Instance typed_efer {Dev} : TypedField (@efer Dev).
Proof. typed_field. Qed.
#[export] Instance typed_gdtr {Dev} : TypedField (@gdtr Dev).
Proof. typed_field. Qed.
#[export] Instance typed_gdtr_limit {Dev} : TypedField (@gdtr_limit Dev).
Proof. typed_field. Qed.
#[export] Instance typed_idtr {Dev} : TypedField (@idtr Dev).
Proof. typed_field. Qed.
#[export] Instance typed_idtr_limit {Dev} : TypedField (@idtr_limit Dev).
Proof. typed_field. Qed.
#[export] Instance typed_msr_apic_base {Dev} : TypedField (@msr_apic_base Dev).
Proof. typed_field. Qed.
#[export] Instance typed_tsc_offset {Dev} : TypedField (@tsc_offset Dev).
Proof. typed_field. Qed.
#[export] Instance typed_tsc_aux {Dev} : TypedField (@tsc_aux Dev).
Proof. typed_field. Qed.
#[export] Instance typed_sysenter_cs {Dev} : TypedField (@sysenter_cs Dev).
Proof. typed_field. Qed.
#[export] Instance typed_sysenter_esp {Dev} : TypedField (@sysenter_esp Dev).
Proof. typed_field. Qed.
#[export] Instance typed_sysenter_eip {Dev} : TypedField (@sysenter_eip Dev).
Proof. typed_field. Qed.
#[export] Instance typed_mtrr_def_type {Dev} : TypedField (@mtrr_def_type Dev).
Proof. typed_field. Qed.
#[export] Instance typed_pat {Dev} : TypedField (@pat Dev).
Proof. typed_field. Qed.
#[export] Instance typed_mcg_status {Dev} : TypedField (@mcg_status Dev).
Proof. typed_field. Qed.
#[export] Instance typed_mcg_ctl {Dev} : TypedField (@mcg_ctl Dev).
Proof. typed_field. Qed.
#[export] Instance typed_mc0_ctl {Dev} : TypedField (@mc0_ctl Dev).
Proof. typed_field. Qed.
#[export] Instance typed_mc0_status {Dev} : TypedField (@mc0_status Dev).
Proof. typed_field. Qed.
#[export] Instance typed_mc0_addr {Dev} : TypedField (@mc0_addr Dev).
Proof. typed_field. Qed.
#[export] Instance typed_mc0_misc {Dev} : TypedField (@mc0_misc Dev).
Proof. typed_field. Qed.
#[export] Instance typed_perf_fixed_ctrl {Dev} : TypedField (@perf_fixed_ctrl Dev).
Proof. typed_field. Qed.
#[export] Instance typed_perf_global_ctrl {Dev} : TypedField (@perf_global_ctrl Dev).
Proof. typed_field. Qed.
#[export] Instance typed_gdb_watch_mask {Dev} : TypedField (@gdb_watch_mask Dev).
Proof. typed_field. Qed.
#[export] Instance typed_msr_fs_gs_base {Dev} : TypedArray (@msr_fs_gs_base Dev).
Proof. typed_field. Qed.
#[export] Instance typed_mtrr_physbase {Dev} : TypedArray (@mtrr_physbase Dev).
Proof. typed_field. Qed.
#[export] Instance typed_mtrr_physmask {Dev} : TypedArray (@mtrr_physmask Dev).
Proof. typed_field. Qed.
#[export] Instance typed_perf_evtsel {Dev} : TypedArray (@perf_evtsel Dev).
Proof. typed_field. Qed.
#[export] Instance typed_dr {Dev} : TypedArray (@dr Dev).
Proof. typed_field. Qed.

(** ** The relations

    [mem_only]: what an access to memory or the instruction stream does, which
    leaves the segment rights (and so the privilege level) alone.
    [guards]: what an instruction outside ring 0 does.  [types]: what any
    instruction does.  The first two keep the vector being delivered. *)
Section relations.
Context {Ops Dev W : Type}.
Implicit Types m : XMach Ops Dev W.

Definition cpu_typed m m' : Prop := cpu_wf (xcpu m) -> cpu_wf (xcpu m').
Definition guards m m' : Prop := guarded (xs m) (xs m') /\ cpu_typed m m'.
Definition delivers_on m m' : Prop := xdelivering m' = xdelivering m /\ guards m m'.
Definition mem_only m m' : Prop := ar (xs m') = ar (xs m) /\ delivers_on m m'.
Definition types m m' : Prop := typed (xs m) (xs m') /\ cpu_typed m m'.

#[export] Instance guards_preorder : PreOrder guards.
Proof.
  split; [by split; [|intros ?]|]. intros m1 m2 m3 [G1 C1] [G2 C2]. split; [by etrans|intros ?; by apply C2, C1].
Qed.
#[export] Instance delivers_on_preorder : PreOrder delivers_on.
Proof. split; [done|]. intros m1 m2 m3 [E1 G1] [E2 G2]. split; [by rewrite E2|by etrans]. Qed.
#[export] Instance mem_only_preorder : PreOrder mem_only.
Proof. split; [done|]. intros m1 m2 m3 [E1 G1] [E2 G2]. split; [by rewrite E2|by etrans]. Qed.
#[export] Instance types_preorder : PreOrder types.
Proof.
  split; [by split; intros ?|]. intros m1 m2 m3 [G1 C1] [G2 C2]. split; intros ?; [by apply G2, G1|by apply C2, C1].
Qed.
End relations.

(** A relation the memory layer, an unprivileged instruction or any
    instruction respects, with the aborts it allows. *)
Class MemFrame {Ops Dev W} (R : XMach Ops Dev W -> XMach Ops Dev W -> Prop) (F : abort_reason -> Prop) : Prop := {
  mf_preorder :: PreOrder R;
  mf_mem : forall m m', mem_only m m' -> R m m';
  mf_abort : forall r, r <> OutOfFuel -> F r;
}.
Class UserFrame {Ops Dev W} (R : XMach Ops Dev W -> XMach Ops Dev W -> Prop) (F : abort_reason -> Prop) : Prop := {
  uf_mem :: MemFrame R F;
  uf_user : forall m m', delivers_on m m' -> R m m';
}.

Definition no_oof (r : abort_reason) : Prop := r <> OutOfFuel.
Definition any_abort (_ : abort_reason) : Prop := True.

#[export] Instance mem_only_frame {Ops Dev W} : MemFrame (@mem_only Ops Dev W) no_oof.
Proof. split; [apply _|done..]. Qed.
#[export] Instance delivers_on_frame {Ops Dev W} : UserFrame (@delivers_on Ops Dev W) no_oof.
Proof. split; [split; [apply _| |done]|done]. by intros m m' []. Qed.
#[export] Instance guards_frame {Ops Dev W} : UserFrame (@guards Ops Dev W) any_abort.
Proof. split; [split; [apply _| |done]|]; [by intros m m' [? []]|by intros m m' []]. Qed.
#[export] Instance types_frame {Ops Dev W} : UserFrame (@types Ops Dev W) any_abort.
Proof. split; [split; [apply _| |done]|]; [by intros m m' [? [? [[]]]]|by intros m m' [? [[]]]]. Qed.

(** ** Automation: [keep] of straight-line code by its pieces

    A call with a lemma is closed by it; another one is unfolded. *)
Create HintDb keep discriminated.
#[export] Hint Constants Opaque : keep.
#[export] Hint Resolve keep_ret keep_gets keep_getS keep_for_each : keep.
#[export] Hint Extern 0 (PreOrder _) => typeclasses eauto : keep.
#[export] Hint Extern 0 (MemFrame _ _) => typeclasses eauto : keep.
#[export] Hint Extern 0 (UserFrame _ _) => typeclasses eauto : keep.

Ltac keep_unfold :=
  lazymatch goal with
  | |- keep _ _ ?p =>
      let h := get_head p in
      lazymatch h with match ?x with _ => _ end => destruct x; cbv beta | _ => unfold h end
  end.
Ltac keep_step :=
  lazymatch goal with
  | |- keep _ _ (let x := _ in _) => cbv zeta
  | |- keep _ _ (mbind' _ _) => apply keep_bind; [typeclasses eauto| |intros ?]
  | |- keep _ _ (match ?x with _ => _ end) => destruct x
  | |- keep _ _ (switch _ _ _) => apply keep_switch; [repeat (apply Forall_cons; split); try apply Forall_nil_2; cbn [snd]|]
  | |- keep _ _ (for_each _ _) => apply keep_for_each; [typeclasses eauto|]
  | |- keep _ _ (abort _) => apply keep_abort; first [exact I | apply mf_abort; discriminate]
  | |- forall _, _ => intros ?
  end.
Ltac keep_lemma := solve [eauto 3 with keep typeclass_instances].
Ltac keep_auto := repeat first [keep_step | keep_lemma | progress keep_unfold].

Section primitives.
Context {Ops Dev W : Type}.
#[local] Abbreviation XM := (M (XMach Ops Dev W)).
Context (R : XMach Ops Dev W -> XMach Ops Dev W -> Prop) (F : abort_reason -> Prop).

Lemma mem_only_xs (m : XMach Ops Dev W) s : ar s = ar (xs m) -> guarded (xs m) s -> mem_only m (m <| xs := s |>).
Proof. intros Ha Hg. split; [done|]. split; [done|]. split; [done|by intros ?]. Qed.

Lemma delivers_on_xs (m : XMach Ops Dev W) s : guarded (xs m) s -> delivers_on m (m <| xs := s |>).
Proof. intros Hg. split; [done|]. split; [done|by intros ?]. Qed.

Section mem.
Context `{!MemFrame R F}.

Lemma keep_getst {A} (f : x86_state Dev -> A) : keep R F (getst f).
Proof. apply keep_gets; apply _. Qed.
Lemma keep_getd {A} (f : dec -> A) : keep R F (getd f).
Proof. apply keep_gets; apply _. Qed.
Lemma keep_getc {A} (f : CpuState -> A) : keep R F (getc f).
Proof. apply keep_gets; apply _. Qed.
Lemma keep_geta (f : x86_state Dev -> list Z) i : keep R F (geta f i).
Proof.
  intros m. unfold wp, geta. destruct (if 0 <=? i then _ else _); [reflexivity|]. apply mf_abort. discriminate.
Qed.
Lemma keep_setd {E} (f : dec -> E) `{!Upd f} v : keep R F (setd f v).
Proof. apply keep_modify. intros m. apply mf_mem. split; [done|]. split; [done|]. split; [done|by intros ?]. Qed.

(** Assignments that leave the segment rights alone. *)
Lemma keep_modst_mem g : (forall s, ar (g s) = ar s /\ guarded s (g s)) -> keep R F (modst g).
Proof. intros Hg. apply keep_modify. intros m. apply mf_mem. by apply mem_only_xs; apply Hg. Qed.

Lemma keep_put_cr2 v : keep R F (put cr2 v).
Proof. apply keep_modst_mem. intros s. split; [done|apply guarded_put]. Qed.
Lemma keep_set_flag i b : 0 <= i < 32 -> keep R F (set_flag i b).
Proof.
  intros Hi. apply keep_modst_mem. intros s. split; [done|]. split; [done|]. typed_upd.
Qed.
Lemma keep_mod_fl g : keep R F (mod_fl g).
Proof. apply keep_modst_mem. intros s. split; [done|]. split; [done|]. typed_upd. Qed.
Lemma keep_put_dr6 v : keep R F (puta dr 6 v).
Proof.
  apply keep_bind; [apply _|apply keep_geta|]. intros _. apply keep_modst_mem. intros s. split; [done|]. split.
  - unfold protected. xsimpl. rewrite (arr_set_ne (dr s) 6 7) by done. unfold arr_set.
    by rewrite take_insert_ge by (vm_compute; lia).
  - unfold faw. typed_upd.
Qed.
Lemma keep_raise {A} c v : 0 <= c < 32 -> keep R F (raise_ (A:=A) c v).
Proof. intros Hc. by apply keep_throw; [apply _|]. Qed.

(** The register file: every assignment stays inside the cell. *)
Lemma keep_setc_mem {E} (f : CpuState -> E) `{!Upd f} v :
  (forall c, cpu_wf c -> cpu_wf (c <| f := v |>)) -> keep R F (setc f v).
Proof. intros Hf. apply keep_modify. intros m. apply mf_mem. split; [done|]. split; [done|]. split; [done|]. intros H. by apply Hf. Qed.
Lemma keep_setr g i v : (forall q, rng 64 q -> rng 64 (g q v)) -> keep R F (setr g i v).
Proof.
  intros Hg. apply keep_modify. intros m. apply mf_mem. split; [done|]. split; [done|]. split; [done|].
  intros [[Hl Hr] Hp]. split; [|done]. apply words_set; [done|]. apply Hg. by apply rng_arr.
Qed.

Lemma rng_merge q k v m : 0 <= k <= 64 -> rng 64 q -> rng 64 ((q &~ m) .| wrap k v).
Proof.
  intros Hk Hq. apply rng_lor; [lia|apply rng_ldiff; [lia|done]|]. apply (rng_mono k); [lia|]. apply rng_wrap; lia.
Qed.
Lemma keep_setE i v : keep R F (setE i v).
Proof. apply keep_setr. intros q Hq. by apply rng_merge. Qed.
Lemma keep_setX i v : keep R F (setX i v).
Proof. apply keep_setr. intros q Hq. by apply rng_merge. Qed.
Lemma keep_setL i v : keep R F (setL i v).
Proof. apply keep_setr. intros q Hq. by apply rng_merge. Qed.
Lemma keep_setH i v : keep R F (setH i v).
Proof.
  apply keep_setr. intros q Hq. unfold cell_set_h. apply rng_lor; [lia|apply rng_ldiff; [lia|done]|].
  pose proof (rng_wrap 8 v ltac:(lia)) as [? ?]. rewrite Z.shiftl_mul_pow2 by lia. unfold rng in *. lia.
Qed.
Lemma keep_set_pc v : keep R F (setc pc (u32 v)).
Proof. apply keep_setc_mem. intros c [Hg _]. split; [done|]. apply rng_wrap. lia. Qed.
Lemma keep_mask_pc v : keep R F (setc pc (v .& 0xffff)).
Proof.
  apply keep_setc_mem. intros c [Hg _]. split; [done|]. apply rng_land_r; [lia|]. split; [lia|done].
Qed.
Lemma keep_set_wait b : keep R F (setc wait b).
Proof. by apply keep_setc_mem. Qed.
Lemma keep_set_halted b : keep R F (setc halted b).
Proof. by apply keep_setc_mem. Qed.
Lemma keep_set_exit v : keep R F (setc exit_code v).
Proof. by apply keep_setc_mem. Qed.
End mem.

Section user.
Context `{!UserFrame R F}.

Lemma keep_modst g : (forall s, guarded s (g s)) -> keep R F (modst g).
Proof. intros Hg. apply keep_modify. intros m. apply uf_user. by apply delivers_on_xs. Qed.
Lemma keep_put f `{!Upd f, !Field f, !GuardedField f} v : keep R F (put f v).
Proof. apply keep_modst. intros s. apply guarded_put. Qed.
Lemma keep_puta f `{!Upd f, !FieldArray f, !GuardedArray f} i v : keep R F (puta f i v).
Proof.
  apply keep_bind; [apply _|by apply keep_geta|]. intros _. apply keep_modst. intros s. apply guarded_puta.
Qed.
Lemma keep_setst {E} (f : x86_state Dev -> E) `{!Upd f, !GuardedSet f} v : keep R F (setst f v).
Proof. apply keep_modst. intros s. apply guarded_set. Qed.
End user.
End primitives.

#[export] Hint Resolve keep_getst keep_getd keep_getc keep_geta keep_setd keep_put_cr2 keep_put_dr6 keep_mod_fl
  keep_setE keep_setX keep_setL keep_setH keep_set_pc keep_mask_pc keep_set_wait keep_set_halted keep_set_exit keep_put keep_puta keep_setst : keep.
#[export] Hint Extern 1 (keep _ _ (raise_ _ _)) => apply keep_raise; [typeclasses eauto|by vm_compute] : keep.
#[export] Hint Extern 1 (keep _ _ (set_flag _ _)) => apply keep_set_flag; [typeclasses eauto|by vm_compute] : keep.

Section memory.
Context {Ops Dev W : Type} `{BusDevices Ops Dev W}.
Context (R : XMach Ops Dev W -> XMach Ops Dev W -> Prop) (F : abort_reason -> Prop) `{!MemFrame R F}.

Lemma flush_all_guarded (s : x86_state Dev) : ar (TlbFlushAll s) = ar s /\ guarded s (TlbFlushAll s).
Proof.
  unfold TlbFlushAll. destruct (_ =? 0); (split; [done|]; split; [done|]);
    typed_upd.
Qed.

Lemma event_mem_only (m : XMach Ops Dev W) e : mem_only m (apply_xevent m e).
Proof.
  destruct e as [k l|on| |code]; unfold apply_xevent, x86_set_intr, x86_set_nmi, x86_set_a20_line.
  - assert (mem_only m (m <| xs := (xs m) <| intr_pending := l |> |>)) by (apply mem_only_xs; [done|apply guarded_set]).
    destruct l; [|done]. etrans; [done|]. split; [done|]. split; [done|]. split; [done|by intros ?].
  - destruct (eqb _ _); [done|]. destruct (flush_all_guarded ((xs m) <| a20 := on |>)) as [Ea Eg].
    apply mem_only_xs; [done|]. etrans; [|done]. split; [done|]. typed_upd.
  - split; [done|]. split; [done|]. split; [|by intros ?]. apply guarded_set.
  - split; [done|]. split; [done|]. split; [done|by intros ?].
Qed.

Lemma events_mem_only (m : XMach Ops Dev W) evs : mem_only m (fold_left apply_xevent evs m).
Proof. revert m; induction evs; intros m; simpl; [done|]. etrans; [apply event_mem_only|done]. Qed.

(** Writing the bus caches, the world, the clock. *)
Lemma mem_only_io (m m' : XMach Ops Dev W) : xs m' = xs m -> xcpu m' = xcpu m -> xdelivering m' = xdelivering m -> mem_only m m'.
Proof. intros Es Ec Ed. split; [by rewrite Es|]. split; [done|]. split; [by rewrite Es|]. unfold cpu_typed. by rewrite Ec. Qed.

Lemma keep_phys_load a n : keep R F (phys_load a n).
Proof.
  intros m. unfold wp, phys_load. destruct (BusProbe _ _ _) as [[r|] b]; [|by apply mf_mem, mem_only_io].
  destruct (direct r); [by apply mf_mem, mem_only_io|]. destruct (dev_read _ _ _ _ _) as [[v w] evs].
  apply mf_mem. etrans; [|apply events_mem_only]. by apply mem_only_io.
Qed.
Lemma keep_phys_store a n v : keep R F (phys_store a n v).
Proof.
  intros m. unfold wp, phys_store. destruct (BusProbe _ _ _) as [[r|] b]; [|by apply mf_mem, mem_only_io].
  destruct (direct r); [by apply mf_mem, mem_only_io|]. destruct (dev_write _ _ _ _ _ _) as [w evs].
  apply mf_mem. etrans; [|apply events_mem_only]. by apply mem_only_io.
Qed.
Lemma keep_io_read a n : keep R F (io_read a n).
Proof.
  intros m. unfold wp, io_read. destruct (FindRegion _ _ _) as [[r|] b]; [|by apply mf_abort].
  destruct (dev_read _ _ _ _ _) as [[v w] evs]. apply mf_mem. etrans; [|apply events_mem_only]. by apply mem_only_io.
Qed.
Lemma keep_io_write a n v : keep R F (io_write a n v).
Proof.
  intros m. unfold wp, io_write. destruct (FindRegion _ _ _) as [[r|] b]; [|by apply mf_abort].
  destruct (dev_write _ _ _ _ _ _) as [w evs]. apply mf_mem. etrans; [|apply events_mem_only]. by apply mem_only_io.
Qed.
#[local] Hint Resolve keep_phys_load keep_phys_store keep_io_read keep_io_write : keep.

Lemma keep_host_write h n v : keep R F (X86Mem.host_write h n v).
Proof. apply keep_modify. intros m. by apply mf_mem, mem_only_io. Qed.
Lemma keep_tlb_put i e : keep R F (modst (fun s => s <| tlb := <[i := e]> (tlb s) |>)).
Proof. apply keep_modst_mem; [done|]. intros s. split; [done|]. apply (guarded_set s). Qed.
#[local] Hint Resolve keep_host_write keep_tlb_put : keep.

Lemma keep_WalkPage lin w u f : keep R F (WalkPage lin w u f).
Proof. keep_auto. Qed.
#[local] Hint Resolve keep_WalkPage : keep.
Lemma keep_tlb_entry lin w f u : keep R F (tlb_entry lin w f u).
Proof. keep_auto. Qed.
#[local] Hint Resolve keep_tlb_entry : keep.
Lemma keep_lin_load lin n u f : keep R F (lin_load lin n u f).
Proof. keep_auto. Qed.
Lemma keep_lin_store lin n u v : keep R F (lin_store lin n u v).
Proof. keep_auto. Qed.
#[local] Hint Resolve keep_lin_load keep_lin_store : keep.

Lemma keep_fetch_cache page h :
  keep R F (modst (fun s => s <| fetch_page := u32 page |> <| fetch_host := h |> <| fetch_valid := true |>)).
Proof. apply keep_modst_mem; [done|]. intros s. split; [done|]. split; [done|]. typed_upd. Qed.
Lemma keep_fetch_drop : keep R F (setst fetch_valid false).
Proof. apply keep_modst_mem; [done|]. intros s. split; [done|]. apply guarded_set. Qed.
#[local] Hint Resolve keep_fetch_cache keep_fetch_drop : keep.
Lemma keep_fetch8 : keep R F fetch8.
Proof. keep_auto. Qed.
#[local] Hint Resolve keep_fetch8 : keep.

Lemma keep_rd8 lin : keep R F (rd8 lin).
Proof. keep_auto. Qed.
Lemma keep_wr8 lin v : keep R F (wr8 lin v).
Proof. keep_auto. Qed.
#[local] Hint Resolve keep_rd8 keep_wr8 : keep.
Lemma keep_rd_bytes lin n : keep R F (rd_bytes lin n).
Proof. revert lin; induction n; intros lin; simpl; keep_auto. Qed.
Lemma keep_wr_bytes lin bs : keep R F (wr_bytes lin bs).
Proof. revert lin; induction bs; intros lin; simpl; keep_auto. Qed.
Lemma keep_io_bitmap port iobase n i : keep R F (io_bitmap port iobase n i).
Proof. revert i; induction n; intros i; simpl; keep_auto. Qed.
#[local] Hint Resolve keep_io_bitmap : keep.

Lemma keep_seg_use seg off n w : keep R F (seg_use seg off n w).
Proof. keep_auto. Qed.
Lemma keep_WatchData lin n w : keep R F (WatchData lin n w).
Proof. keep_auto. Qed.
#[local] Hint Resolve keep_seg_use keep_WatchData : keep.
Lemma keep_modrm : keep R F modrm.
Proof. keep_auto. Qed.
Lemma keep_mem_use n w : keep R F (mem_use n w).
Proof. keep_auto. Qed.
Lemma keep_bus_load lin n : keep R F (bus_load lin n).
Proof. keep_auto. Qed.
Lemma keep_bus_store lin n v : keep R F (bus_store lin n v).
Proof. keep_auto. Qed.
#[local] Hint Resolve keep_mem_use keep_bus_load keep_bus_store : keep.
Lemma keep_rm_n n : keep R F (rm_n n).
Proof. keep_auto. Qed.
Lemma keep_set_rm_n n v : keep R F (set_rm_n n v).
Proof. keep_auto. Qed.
Lemma keep_stack_push n v : keep R F (stack_push n v).
Proof. keep_auto. Qed.
Lemma keep_kstack_push n v : keep R F (kstack_push n v).
Proof. keep_auto. Qed.
Lemma keep_stack_pop n : keep R F (stack_pop n).
Proof. keep_auto. Qed.
Lemma keep_stack_peek n k : keep R F (stack_peek n k).
Proof. keep_auto. Qed.
Lemma keep_io_in p n : keep R F (io_in p n).
Proof. keep_auto. Qed.
Lemma keep_io_out p n v : keep R F (io_out p n v).
Proof. keep_auto. Qed.
End memory.

#[export] Hint Resolve keep_phys_load keep_phys_store keep_WalkPage keep_tlb_entry keep_lin_load keep_lin_store
  keep_fetch8 keep_rd8 keep_wr8 keep_rd_bytes keep_wr_bytes keep_seg_use keep_WatchData keep_modrm keep_mem_use
  keep_bus_load keep_bus_store keep_rm_n keep_set_rm_n keep_stack_push keep_kstack_push keep_stack_pop
  keep_stack_peek keep_io_in keep_io_out : keep.
