(* ===== verification/X86Keep.v ===== *)
(** * What an x86 instruction may touch: segments, delivery and the instructions

    Every instruction outside the ones ring 0 guards keeps the protected
    registers; every instruction keeps the type invariant. *)

From S2P Require Import Prelude Bus Ram RvState Run X86State X86Flags X86Mem X86Oper X86Seg X86Sys X86Fpu X86Float X86x87 X86Simd X86Group X86Op2 X86Op X86Step X86Frame.

Section segments.
Context {Ops Dev W : Type} `{BusDevices Ops Dev W}.
Context (R : XMach Ops Dev W -> XMach Ops Dev W -> Prop) (F : abort_reason -> Prop) `{!UserFrame R F}.

Lemma keep_seg_commit seg sel v : keep R F (seg_commit seg sel v).
Proof. keep_auto. Qed.
#[local] Hint Resolve keep_seg_commit : keep.
Lemma keep_desc_parse sel : keep R F (desc_parse sel).
Proof. keep_auto. Qed.
#[local] Hint Resolve keep_desc_parse : keep.
Lemma keep_load_data seg sel : keep R F (load_data seg sel).
Proof. keep_auto. Qed.
Lemma keep_load_ss sel : keep R F (load_ss sel).
Proof. keep_auto. Qed.
Lemma keep_load_cs sel : keep R F (load_cs sel).
Proof. keep_auto. Qed.
Lemma keep_load_ldtr sel b : keep R F (load_ldtr sel b).
Proof. keep_auto. Qed.
Lemma keep_tss_stack pl : keep R F (tss_stack pl).
Proof. keep_auto. Qed.
Lemma keep_ret_cs_check sel pl : keep R F (ret_cs_check sel pl).
Proof. keep_auto. Qed.
Lemma keep_ret_ss_check sel pl : keep R F (ret_ss_check sel pl).
Proof. keep_auto. Qed.
#[local] Hint Resolve keep_load_data keep_load_ss keep_load_cs keep_load_ldtr keep_tss_stack keep_ret_cs_check
  keep_ret_ss_check : keep.

(** TS is the one bit of CR0 a task switch sets. *)
Lemma keep_set_ts : keep R F set_ts.
Proof.
  intros m. unfold wp, set_ts, put, setst, modst, mbind', getst, gets, modify. apply uf_user, delivers_on_xs. split.
  - unfold protected. xsimpl. do 2 f_equal. unfold fwidth, fld_cr0, kCr0Ts. apply Z.bits_inj'; intros n Hn.
    rewrite !wrap_testbit, !Z.ldiff_spec, wrap_testbit, Z.lor_spec by lia.
    destruct (n <? 32), (Z.testbit _ n), (Z.testbit 8 n); done.
  - unfold fwidth. typed_upd.
Qed.
Lemma keep_flush_nonglobal : keep R F (modst TlbFlushNonGlobal).
Proof.
  apply keep_modst; [done|]. intros s. unfold TlbFlushNonGlobal. destruct (negb _); [apply flush_all_guarded|].
  split; [done|]. typed_upd.
Qed.
Lemma keep_flush_page (lin : Z) : keep R F (modst (fun s => TlbFlushPage s lin)).
Proof. apply keep_modst; [done|]. intros s. split; [done|]. unfold TlbFlushPage. typed_upd. Qed.
#[local] Hint Resolve keep_set_ts keep_flush_nonglobal : keep.

Lemma keep_do_task_switch sel src ip b ec : keep R F (do_task_switch sel src ip b ec).
Proof. keep_auto. Qed.
#[local] Hint Resolve keep_do_task_switch : keep.
Lemma keep_pm_iret : keep R F pm_iret.
Proof. keep_auto. Qed.
Lemma keep_gate_params esp w n i : keep R F (gate_params esp w n i).
Proof. revert i; induction n; intros i; simpl; keep_auto. Qed.
#[local] Hint Resolve keep_gate_params : keep.
Lemma keep_pm_far sel off b ip : keep R F (pm_far sel off b ip).
Proof. keep_auto. Qed.
Lemma keep_pm_ret n : keep R F (pm_ret n).
Proof. keep_auto. Qed.
Lemma keep_do_int vec ip o ec : keep R F (do_int vec ip o ec).
Proof. keep_auto. Qed.
End segments.
#[export] Hint Resolve keep_seg_commit keep_desc_parse keep_load_data keep_load_ss keep_load_cs keep_load_ldtr
  keep_set_ts keep_flush_nonglobal keep_flush_page keep_do_task_switch keep_pm_iret keep_pm_far keep_pm_ret keep_do_int : keep.

Section instructions.
Context {Ops Dev W : Type} `{BusDevices Ops Dev W, X86Pins W, SoftFloat, HostMath}.
Context (R : XMach Ops Dev W -> XMach Ops Dev W -> Prop) (F : abort_reason -> Prop) `{!UserFrame R F}.

Lemma keep_drive_ferr level : keep R F (drive_ferr level).
Proof.
  intros m. unfold wp, drive_ferr. destruct ferr as [f|]; [|apply uf_user; reflexivity].
  destruct (f level (xworld m)) as [w evs]. apply mf_mem. etrans; [|apply events_mem_only]. by apply mem_only_io.
Qed.
#[local] Hint Resolve keep_drive_ferr : keep.
Lemma keep_X87UpdateFerr : keep R F X87UpdateFerr.
Proof. keep_auto. Qed.
Lemma keep_fpu_do g : keep R F (fpu_do g).
Proof. apply keep_modst; [done|]. intros s. apply guarded_set. Qed.
Lemma keep_fpu_val {A} (g : x86_fpu -> A * x86_fpu) : keep R F (fpu_val g).
Proof. keep_auto. Qed.
#[local] Hint Resolve keep_X87UpdateFerr keep_fpu_do keep_fpu_val : keep.
Lemma keep_x87_exec op : keep R F (x87_exec op).
Proof. keep_auto. Qed.

Lemma keep_load_chunks lin n l out : keep R F (load_chunks lin n l out).
Proof. revert out; induction l; intros out; simpl; keep_auto. Qed.
Lemma keep_store_chunks lin n src l : keep R F (store_chunks lin n src l).
Proof. induction l; simpl; keep_auto. Qed.
#[local] Hint Resolve keep_load_chunks keep_store_chunks : keep.
Lemma keep_SimdSrc n b : keep R F (SimdSrc n b).
Proof. keep_auto. Qed.
#[local] Hint Resolve keep_SimdSrc : keep.
Lemma keep_SimdInteger op : keep R F (SimdInteger op).
Proof. keep_auto. Qed.
#[local] Hint Resolve keep_SimdInteger : keep.
Lemma keep_SimdOp op : keep R F (SimdOp op).
Proof. keep_auto. Qed.

(** *** The one- and two-byte opcodes outside ring 0's *)

Lemma keep_cases {A} lo hi (f : Z -> M (XMach Ops Dev W) A) : (forall k, keep R F (f k)) ->
  Forall (fun ka => keep R F ka.2) (cases lo hi f).
Proof. intros Hf. apply Forall_fmap, Forall_forall. intros k _. apply Hf. Qed.

Lemma keep_with_fl f : keep R F (with_fl f).
Proof. keep_auto. Qed.
Lemma keep_upd_fl f : keep R F (upd_fl f).
Proof. keep_auto. Qed.
#[local] Hint Resolve keep_with_fl keep_upd_fl : keep.
Lemma keep_alu_form k f : keep R F (alu_form k f).
Proof. keep_auto. Qed.
Lemma keep_grp1 n f : keep R F (grp1 n f).
Proof. keep_auto. Qed.
Lemma keep_grp3 n : keep R F (grp3 n).
Proof. keep_auto. Qed.
Lemma keep_string_op op : keep R F (string_op op).
Proof. keep_auto. Qed.
#[local] Hint Resolve keep_alu_form keep_grp1 keep_grp3 keep_string_op keep_x87_exec keep_SimdOp : keep.
Lemma keep_popf : keep R F op_popf.
Proof. keep_auto. Qed.
Lemma keep_iret : keep R F op_iret.
Proof. keep_auto. Qed.
Lemma keep_grp5 : keep R F op_grp5.
Proof. keep_auto. Qed.
End instructions.
#[export] Hint Resolve keep_X87UpdateFerr keep_x87_exec keep_SimdOp keep_with_fl keep_upd_fl keep_alu_form keep_grp1 keep_grp3
  keep_string_op keep_popf keep_iret keep_grp5 : keep.

(** ** Outside ring 0 *)

Section user.
Context {Ops Dev W : Type} `{BusDevices Ops Dev W, X86Pins W, SoftFloat, HostMath}.
#[local] Abbreviation XM := (M (XMach Ops Dev W)).

(** The privilege level is not 0: the rights of CS say so. *)
Definition user (m : XMach Ops Dev W) : Prop := (arr (ar (xs m)) cs_i .>> 5) .& 3 <> 0.

(** Run outside ring 0, [p] keeps the protected registers. *)
Definition ukeep {A} (p : XM A) : Prop :=
  forall m, user m -> wp p (fun _ m' => guards m m') (fun _ m' => guards m m') any_abort m.

Lemma ukeep_keep {A} (p : XM A) : keep guards any_abort p -> ukeep p.
Proof. intros Hp m _. eapply wp_mono; [| | |apply Hp]; cbv beta; [done| |done]. by intros t m' []. Qed.

Lemma geta_run (f : x86_state Dev -> list Z) i (m : XMach Ops Dev W) : 0 <= i ->
  geta f i m = match f (xs m) !! Z.to_nat i with Some v => Done v m | None => Aborted OutOfBounds end.
Proof. intros Hi. unfold geta. by rewrite (proj2 (Z.leb_le 0 i) Hi). Qed.

Lemma cpl_run (m : XMach Ops Dev W) :
  cpl m = match ar (xs m) !! 1%nat with Some a => Done ((a .>> 5) .& 3) m | None => Aborted OutOfBounds end.
Proof. unfold cpl, mbind'. rewrite geta_run by done. by destruct (_ !! _). Qed.

(** A prefix that leaves the privilege level alone. *)
Lemma ukeep_bind {A B} (p : XM A) (k : A -> XM B) : keep mem_only no_oof p -> (forall a, ukeep (k a)) -> ukeep (mbind' p k).
Proof.
  intros Hp Hk m Hm. apply wp_bind. eapply wp_mono; [| | |apply Hp]; cbv beta; [|by intros ? ? [[? []]]|by intros; exact I].
  intros a m' [Ha [_ Hg]]. eapply wp_mono; [| | |apply Hk]; cbv beta; [intros; by etrans..|by intros; exact I|].
  unfold user. by rewrite Ha.
Qed.

Lemma ukeep_then {A B} (p : XM A) (k : A -> XM B) : ukeep p -> (forall a, keep guards any_abort (k a)) -> ukeep (mbind' p k).
Proof.
  intros Hp Hk m Hm. apply wp_bind. eapply wp_mono; [| | |by apply Hp]; cbv beta; [|done..].
  intros a m' Hg. eapply wp_mono; [| | |apply Hk]; cbv beta; [intros; by etrans|intros ? ? []; by etrans|done].
Qed.

Lemma ukeep_ring0 {A} (k : unit -> XM A) : ukeep (mbind' ring0 k).
Proof.
  intros m Hm. unfold user, arr in Hm. change (Z.to_nat cs_i) with 1%nat in Hm.
  unfold wp, mbind', ring0. unfold mbind'. rewrite cpl_run.
  destruct (ar (xs m) !! 1%nat) as [a|] eqn:E; [|exact I]. rewrite (list_lookup_total_correct _ _ _ E) in Hm.
  destruct (Z.eqb_spec ((a .>> 5) .& 3) 0); [done|]. cbn. reflexivity.
Qed.

Lemma ukeep_switch {A} x (l : list (Z * XM A)) d :
  Forall (fun ka => ukeep ka.2) l -> ukeep d -> ukeep (switch x l d).
Proof. intros Hl Hd. apply (switch_ind ukeep); [|done]. eapply Forall_impl; [done|]. auto. Qed.

Lemma ukeep_lgdt reg : ukeep (op_lgdt_lidt reg).
Proof. apply ukeep_ring0. Qed.
Lemma ukeep_lmsw : ukeep op_lmsw.
Proof. apply ukeep_ring0. Qed.
Lemma ukeep_clts : ukeep op_clts.
Proof. apply ukeep_ring0. Qed.
Lemma ukeep_mov_to_cr : ukeep op_mov_to_cr.
Proof. apply ukeep_bind; [keep_auto|]. intros _. apply ukeep_ring0. Qed.
Lemma ukeep_mov_dr op2 : ukeep (op_mov_dr op2).
Proof. apply ukeep_bind; [keep_auto|]. intros _. apply ukeep_ring0. Qed.
Lemma ukeep_wrmsr : ukeep op_wrmsr.
Proof. apply ukeep_ring0. Qed.

Lemma ukeep_op2_01 : ukeep op2_01.
Proof.
  apply ukeep_bind; [keep_auto|]. intros _. apply ukeep_bind; [keep_auto|]. intros dd.
  apply ukeep_switch; [|apply ukeep_keep; keep_auto].
  repeat (apply Forall_cons; split); try apply Forall_nil_2; cbn [snd];
    first [apply ukeep_lgdt | apply ukeep_lmsw | apply ukeep_keep; keep_auto].
Qed.

(** The entries of a table: a guarded one by its lemma, another one by its
    pieces. *)
#[local] Hint Resolve ukeep_clts ukeep_mov_to_cr ukeep_mov_dr ukeep_wrmsr ukeep_op2_01 : keep.
Lemma ukeep_cases {A} lo hi (f : Z -> XM A) : (forall k, keep guards any_abort (f k)) ->
  Forall (fun ka => ukeep ka.2) (cases lo hi f).
Proof. intros Hf. apply Forall_fmap, Forall_forall. intros k _. apply ukeep_keep, Hf. Qed.

Ltac ukeep_table :=
  repeat first [apply Forall_app_2 | apply ukeep_cases; intros ? | apply Forall_cons; split; cbn [snd] | apply Forall_nil_2];
  try solve [eauto 2 with keep | try apply ukeep_keep; keep_auto].

Lemma ukeep_op2 op2 : ukeep (run_op2 op2).
Proof.
  unfold run_op2. destruct (simd_map op2); [apply ukeep_keep; keep_auto|].
  apply ukeep_switch; [|apply ukeep_keep; keep_auto]. unfold op2_table. ukeep_table.
Qed.

Lemma ukeep_op op : ukeep (run_op op).
Proof.
  unfold run_op. destruct (op =? 0x0f); [apply ukeep_bind; [keep_auto|apply ukeep_op2]|].
  apply ukeep_switch; [|apply ukeep_keep; keep_auto]. unfold op_table. ukeep_table.
Qed.
End user.

(** ** The step around the instruction *)

(** A relation that does not look at the vector being delivered. *)
Class StepFrame {Ops Dev W} (R : XMach Ops Dev W -> XMach Ops Dev W -> Prop) (F : abort_reason -> Prop) : Prop := {
  sf_user :: UserFrame R F;
  sf_any : forall r, F r;
  sf_dlv : forall m m', xs m' = xs m -> xcpu m' = xcpu m -> R m m';
}.
#[export] Instance guards_step {Ops Dev W} : StepFrame (@guards Ops Dev W) any_abort.
Proof. split; [apply _|done|]. intros m m' Es Ec. unfold guards, cpu_typed. by rewrite Es, Ec. Qed.
#[export] Instance types_step {Ops Dev W} : StepFrame (@types Ops Dev W) any_abort.
Proof. split; [apply _|done|]. intros m m' Es Ec. unfold types, typed, cpu_typed. by rewrite Es, Ec. Qed.

Section step.
Context {Ops Dev W : Type} `{BusDevices Ops Dev W, X86Pins W, SoftFloat, HostMath}.

Section entering.
Context (R : XMach Ops Dev W -> XMach Ops Dev W -> Prop) (F : abort_reason -> Prop) `{!MemFrame R F}.

Lemma keep_set_inhibit b : keep R F (setst intr_inhibit b).
Proof. apply keep_modst_mem; [done|]. intros s. split; [done|]. apply guarded_set. Qed.
Lemma keep_clear_hits : keep R F (setst watch_hits 0).
Proof. apply keep_modst_mem; [done|]. intros s. split; [done|]. split; [done|]. typed_upd. Qed.
Lemma keep_modify_mem f : (forall m, xs (f m) = xs m /\ xcpu (f m) = xcpu m /\ xdelivering (f m) = xdelivering m) ->
  keep R F (modify f).
Proof. intros Hf. apply keep_modify. intros m. apply mf_mem. by apply mem_only_io; apply Hf. Qed.
#[local] Hint Resolve keep_set_inhibit keep_clear_hits : keep.

Lemma keep_step_enter : keep R F step_enter.
Proof.
  unfold step_enter. keep_auto. by apply keep_modify_mem.
Qed.
Lemma keep_insn_breakpoints : keep R F insn_breakpoints.
Proof. keep_auto. Qed.
End entering.

Section around.
Context (R : XMach Ops Dev W -> XMach Ops Dev W -> Prop) (F : abort_reason -> Prop) `{!StepFrame R F}.

Lemma keep_modify_dlv f : (forall m, xs (f m) = xs m /\ xcpu (f m) = xcpu m) -> keep R F (modify f).
Proof. intros Hf. apply keep_modify. intros m. by apply sf_dlv; apply Hf. Qed.
Lemma keep_acknowledge ack : keep R F (acknowledge ack).
Proof. intros m. unfold wp, acknowledge. destruct (ack (xworld m)) as [v w]. by apply sf_dlv. Qed.
#[local] Hint Resolve keep_acknowledge : keep.
Lemma keep_deliver_external vec : keep R F (deliver_external vec).
Proof.
  unfold deliver_external. repeat first [keep_step | keep_lemma]; by apply keep_modify_dlv.
Qed.
#[local] Hint Resolve keep_deliver_external : keep.
Lemma keep_sample_lines sh : keep R F (sample_lines sh).
Proof. keep_auto. Qed.
Lemma keep_commit : keep R F commit.
Proof. keep_auto. Qed.
Lemma keep_debug_traps tf : keep R F (debug_traps tf).
Proof. keep_auto. Qed.

(** The landing pad, whatever raised. *)
Lemma keep_landing fuel t : keep R F (landing fuel t).
Proof.
  revert t; induction fuel as [|fuel IH]; intros t m; unfold wp; cbn [landing]; [apply sf_any|].
  destruct (xdelivering m =? vec_df); [apply sf_any|].
  set (m1 := m <| xdelivering := _ |>). assert (R m m1) as Hm by (by apply sf_dlv).
  pose proof (keep_do_int R F (if 0 <=? xdelivering m then vec_df else trap_cause t) (u32 (pc (xcpu m))) kIntException
    (if 0 <=? xdelivering m then 0 else u32 (trap_tval t)) m1) as Hd. unfold wp in Hd.
  assert (forall m2, R m1 m2 -> R m m2) as Hmm by (intros; by etrans).
  destruct (do_int _ _ _ _ m1) as [[] m2|t2 m2|]; [| |done].
  - assert (keep R F (modify (fun m => m <| xdelivering := -1 |>) ;;; set_flag fl_rf false ;;;
      note_trap (if 0 <=? xdelivering m then vec_df else trap_cause t))) as Hk.
    { repeat first [keep_step | keep_lemma | by apply keep_modify_dlv | keep_unfold]. }
    apply (keep_after R F); [done|by apply Hmm].
  - apply (keep_after R F); [apply IH|by apply Hmm, Hd].
Qed.
End around.

(** *** Ring 0's instructions keep the types *)
#[local] Abbreviation tkeep := (keep (@types Ops Dev W) any_abort).

Lemma tkeep_modst g : (forall s, typed s (g s)) -> tkeep (modst g).
Proof. intros Hg. apply keep_modify. intros m. split; [apply Hg|by intros ?]. Qed.
Lemma tkeep_put f `{!Upd f, !Field f, !TypedField f} v : tkeep (put f v).
Proof. apply tkeep_modst. intros s. apply typed_put. Qed.
Lemma tkeep_puta f `{!Upd f, !FieldArray f, !TypedArray f} i v : tkeep (puta f i v).
Proof. apply keep_bind; [apply _|by apply keep_geta; apply _|]. intros _. apply tkeep_modst. intros s. apply typed_puta. Qed.
Lemma tkeep_flush_all : tkeep (modst TlbFlushAll).
Proof. apply tkeep_modst. intros s. apply flush_all_guarded. Qed.
Lemma DrWrite_typed (s : x86_state Dev) i v : typed s (DrWrite s i v).
Proof.
  unfold DrWrite. destruct (i =? 6); [|destruct (i =? 7)]; [| |typed_upd].
  - intros []; split; xsimpl; try assumption. apply words_set; [assumption|].
    apply rng_lor; [lia|split; [done|by vm_compute]|]. apply rng_land_r; [lia|]. split; [done|by vm_compute].
  - intros []; split; xsimpl; try assumption. apply words_set; [assumption|].
    apply rng_lor; [lia| |split; [done|by vm_compute]]. apply rng_land_r; [lia|]. split; [done|by vm_compute].
Qed.
Lemma tkeep_dr_write i v : tkeep (modst (fun s => DrWrite s i v)).
Proof. apply tkeep_modst. intros s. apply DrWrite_typed. Qed.
#[local] Hint Resolve tkeep_put tkeep_puta tkeep_flush_all tkeep_dr_write : keep.

Lemma tkeep_MsrWrite i v : tkeep (MsrWrite i v).
Proof. keep_auto. Qed.
#[local] Hint Resolve tkeep_MsrWrite : keep.

Ltac tkeep_table :=
  repeat first [apply Forall_app_2 | apply keep_cases; intros ? | apply Forall_cons; split; cbn [snd] | apply Forall_nil_2];
  keep_auto.

Lemma tkeep_op2 op2 : tkeep (run_op2 op2).
Proof.
  unfold run_op2. destruct (simd_map op2); [keep_auto|].
  apply keep_switch; [|keep_auto]. unfold op2_table. tkeep_table.
Qed.
Lemma tkeep_op op : tkeep (run_op op).
Proof.
  unfold run_op. destruct (op =? 0x0f); [apply keep_bind; [apply _|keep_auto|apply tkeep_op2]|].
  apply keep_switch; [|keep_auto]. unfold op_table. tkeep_table.
Qed.

(** The prefix loop, any opcode behind it. *)
Lemma tkeep_prefixes fuel dflt : tkeep (prefixes fuel dflt).
Proof.
  induction fuel as [|fuel IH]; cbn [prefixes]; [by apply keep_abort|]. apply keep_bind; [apply _|keep_auto|]. intros b.
  destruct (prefix dflt b); [|apply tkeep_op]. apply keep_bind; [apply _| |done]. apply keep_modify_dlv; [apply _|done].
Qed.
Lemma ukeep_prefixes fuel dflt : ukeep (prefixes fuel dflt).
Proof.
  induction fuel as [|fuel IH]; cbn [prefixes]; [by apply ukeep_keep, keep_abort|]. apply ukeep_bind; [keep_auto|]. intros b.
  destruct (prefix dflt b); [|apply ukeep_op]. apply ukeep_bind; [apply keep_modify_mem; [apply _|done]|done].
Qed.

(** *** The whole step *)

Lemma tkeep_step fuel : tkeep (x86_step fuel).
Proof.
  assert (tkeep (shadow <- step_enter ;; step_body fuel shadow)) as Hb.
  { apply keep_bind; [apply _|by apply keep_step_enter; apply _|]. intros sh. unfold step_body.
    apply keep_bind; [apply _|by apply keep_insn_breakpoints; apply _|]. intros _.
    apply keep_bind; [apply _|by apply keep_sample_lines; apply _|]. intros [|]; [keep_auto|].
    repeat first [keep_step | keep_lemma | apply tkeep_prefixes | by apply keep_commit; apply _
                 | by apply keep_debug_traps; apply _ | keep_unfold]. }
  intros m. unfold wp, x86_step. specialize (Hb m). unfold wp in Hb.
  destruct ((shadow <- step_enter ;; step_body fuel shadow) m) as [[] m1|t m1|]; [done| |done].
  destruct Hb. apply (keep_after types any_abort); [by apply keep_landing; apply _|done].
Qed.

(** Code whose effect does not matter for what follows. *)
Lemma wp_any_bind {S A B} (p : M S A) (k : A -> M S B) Q s :
  (forall a s', wp (k a) Q (fun _ _ => True) any_abort s') -> wp (mbind' p k) Q (fun _ _ => True) any_abort s.
Proof. intros Hk. apply wp_bind. unfold wp. destruct (p s); [apply Hk|done..]. Qed.

(** The samples between instructions: when none is taken, the privilege level
    is as it was. *)
Lemma sample_lines_ar sh (m : XMach Ops Dev W) :
  wp (sample_lines sh) (fun taken m' => taken = false -> ar (xs m') = ar (xs m)) (fun _ _ => True) any_abort m.
Proof.
  unfold sample_lines. apply wp_gets. destruct (nmi_pending _ && _).
  { do 3 (apply wp_any_bind; intros). by apply wp_ret. }
  cbv zeta. apply wp_bind. eapply wp_mono with (Q := fun _ m' => ar (xs m') = ar (xs m)) (E := fun _ _ => True) (F := any_abort);
    [|done..|by wp_case].
  intros _ m1 E1. destruct int_ack as [ack|]; [|by apply wp_ret]. destruct (_ && _ && _); [|by apply wp_ret].
  do 4 (apply wp_any_bind; intros). by apply wp_ret.
Qed.

Lemma ukeep_step fuel : ukeep (x86_step fuel).
Proof.
  assert (ukeep (shadow <- step_enter ;; step_body fuel shadow)) as Hb.
  { apply ukeep_bind; [by apply keep_step_enter; apply _|]. intros sh. unfold step_body.
    apply ukeep_bind; [by apply keep_insn_breakpoints; apply _|]. intros _ m Hm.
    pose proof (sample_lines_ar sh m) as Ha.
    pose proof (keep_sample_lines guards any_abort sh m) as Hs. unfold wp in *. unfold mbind' at 1.
    destruct (sample_lines sh m) as [[|] m1|t m1|]; [done| |by destruct Hs|done]. specialize (Ha eq_refl).
    assert (ukeep (wt <- getc wait ;; if wt : bool then mret' tt else
              tf0 <- flag fl_tf ;; do_step fuel ;;; commit ;;; debug_traps tf0)) as Hr.
    { apply ukeep_bind; [keep_auto|]. intros [|]; [by apply ukeep_keep, keep_ret; apply _|].
      apply ukeep_bind; [keep_auto|]. intros tf0. apply ukeep_then.
      - apply ukeep_bind; [keep_auto|]. intros dflt. apply ukeep_prefixes.
      - intros _. apply keep_bind; [apply _|by apply keep_commit; apply _|]. intros _. by apply keep_debug_traps; apply _. }
    eapply wp_mono; [| | |apply Hr]; cbv beta; [intros; by etrans..|done|]. unfold user. by rewrite Ha. }
  intros m Hm. unfold wp, x86_step. specialize (Hb m Hm). unfold wp in Hb.
  destruct ((shadow <- step_enter ;; step_body fuel shadow) m) as [[] m1|t m1|]; [done| |done].
  pose proof (keep_after guards any_abort _ m m1 (keep_landing guards any_abort 3 t) Hb) as Hl.
  eapply wp_mono; [| | |apply Hl]; cbv beta; [done| |done]. by intros ? ? [].
Qed.
End step.
