(* ===== verification/X86StepProps.v ===== *)
(** * What every x86 step guarantees

    The type invariant of every reachable state (the x87/SSE block is outside
    it), the registers a program
    outside ring 0 cannot change, and the landing pad that always ends. *)

From S2P Require Import Prelude Bus Ram RvState Run X86State X86Flags X86Mem X86Oper X86Seg X86Sys X86Fpu X86Float X86x87 X86Simd X86Group X86Op2 X86Op X86Step X86Board X86Frame X86Keep.

Section props.
Context {Ops Dev W : Type} `{BusDevices Ops Dev W, X86Pins W, SoftFloat, HostMath}.
Implicit Types m : XMach Ops Dev W.

Definition xmach_wf m : Prop := x86_wf (xs m) /\ cpu_wf (xcpu m).

(** ** Reset *)

Lemma reset_wf : x86_wf (Dev:=Dev) x86_reset_state.
Proof.
  unfold x86_reset_state. wf_concrete.
Qed.

Lemma keep_mem_read a n : keep (@types Ops Dev W) any_abort (mem_read a n).
Proof.
  intros m. unfold wp, mem_read. destruct (FindRegion _ _ _) as [[r|] b]; [|exact I].
  destruct (dev_read _ _ _ _ _) as [[v w] evs]. apply mf_mem. etrans; [|apply events_mem_only]. by apply mem_only_io.
Qed.
Lemma keep_mb_scan n a : keep (@types Ops Dev W) any_abort (mb_scan n a).
Proof. revert a; induction n; intros a; cbn [mb_scan]; [keep_auto|]. apply keep_bind; [apply _|apply keep_mem_read|]. intros v. keep_auto. Qed.

Lemma keep_const_pc : keep (@types Ops Dev W) any_abort (setc pc 0xfff0).
Proof. apply keep_setc_mem; [apply _|]. intros c [? _]. split; [done|]. change (rng 32 0xfff0). unfold rng. lia. Qed.

(** Reset leaves a typed state whatever was there before. *)
Lemma init_wf image_base m m' : cpu_wf (xcpu m) -> x86_init image_base m = Done tt m' -> xmach_wf m'.
Proof.
  intros Hc E. unfold x86_init in E.
  match type of E with (mbind' ?p ?k) _ = _ => set (rest := k) in E end.
  assert (keep (@types Ops Dev W) any_abort (rest tt)) as Hk.
  { unfold rest. apply keep_bind; [apply _|apply keep_mb_scan|]. intros mb.
    repeat first [keep_step | keep_lemma | apply tkeep_put; apply _ | apply keep_const_pc | keep_unfold]. }
  change (rest tt (m <| xs := x86_reset_state |>) = Done tt m') in E.
  specialize (Hk (m <| xs := x86_reset_state |>)). unfold wp in Hk. rewrite E in Hk. destruct Hk as [Hs Hcp].
  split; [apply Hs, reset_wf|by apply Hcp].
Qed.

(** ** Runs *)

Inductive xruns : XMach Ops Dev W -> XMach Ops Dev W -> Prop :=
| xruns_refl m : xruns m m
| xruns_step m m1 m2 fuel : x86_step fuel m = Done tt m1 -> xruns m1 m2 -> xruns m m2
| xruns_event m m2 e : xruns (apply_xevent m e) m2 -> xruns m m2.

(** The landing pad delivers or ends the run: a step never raises. *)
Lemma landing_no_raise fuel t : no_raise (landing (W:=W) fuel t).
Proof.
  revert t; induction fuel as [|fuel IH]; intros t m; unfold wp; cbn [landing]; [done|].
  destruct (_ =? vec_df); [done|]. destruct (do_int _ _ _ _ _) as [[] m2|t2 m2|]; [done|apply IH|done].
Qed.

Lemma step_no_raise fuel t m m' : x86_step fuel m <> Raised t m'.
Proof.
  intros E. unfold x86_step in E. destruct (mbind' _ _ m) as [[] m1|t1 m1|]; [done| |done].
  pose proof (landing_no_raise 3 t1 m1) as Hn. unfold wp in Hn. by rewrite E in Hn.
Qed.

(** Every x86 state is a C state, the x87/SSE block aside: from the reset the isa hook performs,
    whatever sequence of steps and of events on the interrupt, NMI, A20 and halt lines follows,
    every register, segment cache, control register, MSR and debug register stays inside the width
    the C struct gives it and every array keeps its length. *)
Theorem x86_reachable_typed image_base m0 m1 m2 :
  cpu_wf (xcpu m0) -> x86_init image_base m0 = Done tt m1 -> xruns m1 m2 -> x86_wf (xs m2) /\ cpu_wf (xcpu m2).
Proof.
  intros Hc Hi Hr. pose proof (init_wf _ _ _ Hc Hi) as Hw. clear Hi Hc.
  induction Hr as [|m m1 m2 fuel E _ IH|m m2 e _ IH]; [done| |]; apply IH; destruct Hw as [Hs Hc].
  - pose proof (tkeep_step fuel m) as Hk. unfold wp in Hk. rewrite E in Hk. destruct Hk as [Hts Htc]. split; auto.
  - destruct (event_mem_only m e) as (_ & _ & [_ Hts] & Htc). split; auto.
Qed.

(** ** Ring 0 *)

(** C6: a step outside ring 0 cannot change the protection ring 0 set up: from a protected-mode or
    virtual-8086 state with privilege above 0 (the interrupt and gate delivery it may cause
    included), every completed x86 step leaves exactly as they were CR0 but its TS bit, CR4, EFER,
    GDTR and IDTR, the APIC-base, FS/GS-base, TSC-offset, TSC-aux, SYSENTER, MTRR, PAT,
    machine-check and performance-control registers, the breakpoint addresses DR0 to DR3, DR7 and
    the debugger's claim on them. CR2 and DR6, which a fault or a breakpoint writes, and CR3, LDTR
    and TR, which a task switch through a gate loads, are not part of the claim. *)
Theorem user_step_protected fuel m m' :
  user m -> x86_step fuel m = Done tt m' -> protected (xs m') = protected (xs m).
Proof. intros Hu E. pose proof (ukeep_step fuel m Hu) as Hk. unfold wp in Hk. rewrite E in Hk. apply Hk. Qed.

(** ** The landing pad *)

Lemma do_int_delivers vec ip o ec m :
  wp (do_int vec ip o ec) (fun _ m' => xdelivering m' = xdelivering m)
    (fun t m' => xdelivering m' = xdelivering m /\ vectored t) no_oof m.
Proof.
  eapply wp_mono; [| | |apply (keep_do_int delivers_on no_oof)]; cbv beta; [by intros _ m' []|by intros t m' [[] ?]|done].
Qed.

(** A round of the landing pad, with the next one abstracted. *)
Definition round (next : trap_rec -> M (XMach Ops Dev W) unit) (t : trap_rec) : M (XMach Ops Dev W) unit := fun m =>
  let was := xdelivering m in
  if was =? vec_df then Aborted FatalTripleFault else
  let cause := if 0 <=? was then vec_df else trap_cause t in
  match do_int cause (u32 (pc (xcpu m))) kIntException (if 0 <=? was then 0 else u32 (trap_tval t)) (m <| xdelivering := cause |>) with
  | Raised t' m' => next t' m'
  | Done _ m' => (modify (fun m => m <| xdelivering := -1 |>) ;;; set_flag fl_rf false ;;; note_trap cause) m'
  | Aborted r => Aborted r
  end.

(** When the next round behaves the same under any fuel for the raises this one
    can pass on, so does this one. *)
Lemma round_ends n (P : XMach Ops Dev W -> Prop) t m :
  (forall t' m', vectored t' -> P m' -> (forall k, landing (n + k) t' m' = landing n t' m') /\ landing n t' m' <> Aborted OutOfFuel) ->
  (xdelivering m <> vec_df ->
   forall m', xdelivering m' = (if 0 <=? xdelivering m then vec_df else trap_cause t) -> P m') ->
  (forall k, landing (S n + k) t m = landing (S n) t m) /\ landing (S n) t m <> Aborted OutOfFuel.
Proof.
  intros Hn HP.
  assert (forall fuel, landing (S fuel) t m = round (landing fuel) t m) as Hr by done.
  unfold round in Hr. destruct (Z.eqb_spec (xdelivering m) vec_df) as [E|E].
  - split; [intros k; change (S n + k)%nat with (S (n + k)); by rewrite !Hr|by rewrite Hr].
  - set (cause := if 0 <=? xdelivering m then vec_df else trap_cause t) in *.
    set (tv := if 0 <=? xdelivering m then 0 else u32 (trap_tval t)) in *.
    pose proof (do_int_delivers cause (u32 (pc (xcpu m))) kIntException tv (m <| xdelivering := cause |>)) as Hd.
    unfold wp in Hd. destruct (do_int cause _ _ tv _) as [[] m1|t1 m1|r].
    + split; [intros k; change (S n + k)%nat with (S (n + k)); by rewrite !Hr|by rewrite Hr].
    + destruct Hd as [Ed Hv]. destruct (Hn t1 m1 Hv (HP E m1 Ed)) as [Hk Ho].
      split; [intros k; change (S n + k)%nat with (S (n + k)); by rewrite !Hr|by rewrite Hr].
    + split; [intros k; change (S n + k)%nat with (S (n + k)); by rewrite !Hr|rewrite Hr]. intros [= ->]. by apply Hd.
Qed.

(** C30: exception delivery always ends: however the delivery of one fault faults again, the
    escalation to double fault and then to shutdown makes three rounds of the landing pad enough,
    and more rounds change nothing. *)
Theorem landing_ends t m : vectored t ->
  (forall k, landing (3 + k) t m = landing 3 t m) /\ landing 3 t m <> Aborted OutOfFuel.
Proof.
  intros Ht. apply (round_ends 2 (fun m => 0 <= xdelivering m)).
  - intros t1 m1 _ Hw. apply (round_ends 1 (fun m => xdelivering m = vec_df)).
    + intros t2 m2 _ E. split; [intros k|]; cbn [landing Nat.add]; by rewrite E.
    + intros _ m2. by rewrite (proj2 (Z.leb_le 0 (xdelivering m1)) Hw).
  - intros _ m1 ->. destruct (0 <=? xdelivering m); [done|apply Ht].
Qed.
End props.

(** ** On the board *)

Definition state_of (o : outcome (XMach pc_ops unit PcWorld) unit) (m : XMach pc_ops unit PcWorld) :=
  match o with Done _ m' => m' | _ => m end.

(** INC AX at 0x7c00. *)
Definition typed_pc : XMach pc_ops unit PcWorld := pc_at false 0 (poke 0x7c00 [0x40; 0xf4] ∅) (replicate 8 0) 0x7c00.
Definition typed_pc_reset := state_of (x86_init 0x7c00 typed_pc) typed_pc.
Definition typed_pc_next := state_of (x86_step 16 typed_pc_reset) typed_pc.

Lemma x86_reachable_typed_witness :
  (x86_wf (xs typed_pc_next) /\ cpu_wf (xcpu typed_pc_next)) /\ arr (gpr (xcpu typed_pc_next)) eax_i = 1.
Proof.
  split; [|vm_compute; reflexivity].
  apply (x86_reachable_typed 0x7c00 typed_pc typed_pc_reset).
  - split; [split; [reflexivity|]|unfold rng; vm_compute; split; congruence].
    change (gpr (xcpu typed_pc)) with (replicate 32 0). apply Forall_replicate. unfold rng; vm_compute; split; congruence.
  - vm_compute; reflexivity.
  - apply (xruns_step _ typed_pc_next _ 16); [vm_compute; reflexivity|apply xruns_refl].
Defined.

(** The same program in ring 3 with flat segments. *)
Definition user_pc : XMach pc_ops unit PcWorld :=
  typed_pc <| xs := (xs typed_pc) <| cr0 := 1 |> <| ar := [0xf3; 0xfb; 0xf3; 0xf3; 0xf3; 0xf3] |>
                      <| limit := replicate 6 0xffffffff |> <| dbit := replicate 6 1 |> |>.

Lemma user_step_protected_witness :
  let m' := state_of (x86_step 16 user_pc) user_pc in
  protected (xs m') = protected (xs user_pc) /\ arr (gpr (xcpu m')) eax_i = 1.
Proof.
  split; [|vm_compute; reflexivity]. apply (user_step_protected 16).
  - vm_compute. discriminate.
  - vm_compute. reflexivity.
Defined.

(** A #GP with no interrupt table to deliver it through: #GP, #DF, the end. *)
Lemma landing_ends_witness :
  landing 3 (TrapRec vec_gp 0 None) user_pc = Aborted FatalTripleFault /\
  landing 9 (TrapRec vec_gp 0 None) user_pc = Aborted FatalTripleFault.
Proof.
  destruct (landing_ends (TrapRec vec_gp 0 None) user_pc) as [Hk _]; [vm_compute; split; congruence|].
  specialize (Hk 6%nat). cbn [Nat.add] in Hk. rewrite Hk. split; vm_compute; reflexivity.
Defined.
