(* ===== verification/X86SegProps.v ===== *)
(** * Segment protection

    What a segment check lets through, and that returns never raise the
    privilege level. *)

From S2P Require Import Prelude Bus Ram RvState Run X86State X86Flags X86Mem X86Oper X86Seg X86Sys X86Fpu X86Float X86x87 X86Simd X86Group X86Op2 X86Op X86Step X86Board X86Frame X86Keep.

(** ** Rights, by the bits of the access byte *)

Definition seg_reads (a : Z) : bool := negb (Z.testbit a 4 && Z.testbit a 3 && negb (Z.testbit a 1)).
Definition seg_writes (a : Z) : bool := Z.testbit a 4 && negb (Z.testbit a 3) && Z.testbit a 1.
Definition seg_down (a : Z) : bool := Z.testbit a 4 && negb (Z.testbit a 3) && Z.testbit a 2.

(** [a & mask == want] bit by bit, over the low byte. *)
Lemma land_eq_bits a mask want : 0 <= mask < 256 -> 0 <= want < 256 ->
  (a .& mask =? want) = forallb (fun i => eqb (Z.testbit a i && Z.testbit mask i) (Z.testbit want i)) (seqZ 0 8).
Proof.
  intros Hm Hw. apply eq_true_iff_eq. rewrite Z.eqb_eq, List.forallb_forall. split.
  - intros E i _. apply eqb_true_iff. by rewrite <- E, Z.land_spec.
  - intros Hall. apply Z.bits_inj'; intros i Hi. rewrite Z.land_spec. destruct (Z.lt_ge_cases i 8) as [Hlt|Hge].
    + apply eqb_true_iff, Hall, list_elem_of_In, elem_of_seqZ. lia.
    + rewrite (proj2 (proj1 (rng_testbit 8 mask ltac:(lia)) Hm)), (proj2 (proj1 (rng_testbit 8 want ltac:(lia)) Hw)) by lia.
      apply andb_false_r.
Qed.

Ltac rights a :=
  rewrite land_eq_bits by lia; change (seqZ 0 8) with [0; 1; 2; 3; 4; 5; 6; 7]; cbn [forallb]; tb_const; unfold eqb;
  destruct (Z.testbit a 0), (Z.testbit a 1), (Z.testbit a 2), (Z.testbit a 3), (Z.testbit a 4), (Z.testbit a 5),
    (Z.testbit a 6), (Z.testbit a 7); done.

Lemma writes_mask a : (a .& 0x1a =? 0x12) = seg_writes a.
Proof. unfold seg_writes. rights a. Qed.
Lemma reads_mask a : (a .& 0x1a =? 0x18) = negb (seg_reads a).
Proof. unfold seg_reads. rights a. Qed.
Lemma down_mask a : (a .& 0x1c =? 0x14) = seg_down a.
Proof. unfold seg_down. rights a. Qed.

Lemma run_done {S A B} (p : M S A) (k : A -> M S B) (s : S) a s' : p s = Done a s' -> mbind' p k s = k a s'.
Proof. unfold mbind'. by intros ->. Qed.
Lemma run_raised {S A B} (p : M S A) (k : A -> M S B) (s : S) t s' : p s = Raised t s' -> mbind' p k s = Raised t s'.
Proof. unfold mbind'. by intros ->. Qed.

Section props.
Context {Ops Dev W : Type} `{BusDevices Ops Dev W, X86Pins W, SoftFloat, HostMath}.
Implicit Types m : XMach Ops Dev W.

(** ** The segment check *)

(** Is the byte at offset [x] inside the segment? *)
Definition seg_byte (s : x86_state Dev) (seg x : Z) : Prop :=
  if seg_down (arr (ar s) seg)
  then arr (limit s) seg < x <= (if arr (dbit s) seg =? 0 then 0xffff else 0xffffffff)
  else x <= arr (limit s) seg.

(** What the architecture allows: a segment is loaded, its rights allow the
    access, and every byte of it is inside. *)
Definition seg_access (s : x86_state Dev) (seg off size : Z) (write : bool) : Prop :=
  arr (ar s) seg <> 0 /\ (if write then seg_writes (arr (ar s) seg) else seg_reads (arr (ar s) seg)) = true /\
  forall x, off <= x < off + size -> seg_byte s seg x.

Lemma geta_ok (f : x86_state Dev -> list Z) n w i m : words n w (f (xs m)) -> 0 <= i < n ->
  geta f i m = Done (arr (f (xs m)) i) m.
Proof.
  intros [Hl _] Hi. rewrite geta_run by lia. unfold arr.
  by rewrite (list_lookup_lookup_total_lt (f (xs m)) (Z.to_nat i)) by lia.
Qed.

(** The checks in order, on the values the descriptor cache holds. *)
Definition seg_verdict (s : x86_state Dev) (seg off size : Z) (write : bool) : option Z :=
  let a := arr (ar s) seg in
  let lim := arr (limit s) seg in
  let upper := if arr (dbit s) seg =? 0 then 0xffff else 0xffffffff in
  let fault := if seg =? ss_i then vec_ss else vec_gp in
  if a =? 0 then Some vec_gp
  else if negb (if write then seg_writes a else seg_reads a) then Some fault
  else if (if seg_down a then (off <=? lim) || (upper <? off + size - 1) else (lim <? off) || (lim <? off + size - 1))
  then Some fault else None.

Lemma seg_use_run seg off size write m : x86_wf (xs m) -> 0 <= seg < 6 -> tst (cr0 (xs m)) kCr0Pe = true ->
  seg_use seg off size write m =
    match seg_verdict (xs m) seg off size write with None => Done tt m | Some v => Raised (TrapRec v 0 None) m end.
Proof.
  intros Hw Hseg Hpe.
  pose proof (geta_ok ar _ _ seg m (wf_ar _ Hw) Hseg) as Ea.
  pose proof (geta_ok limit _ _ seg m (wf_limit _ Hw) Hseg) as El.
  pose proof (geta_ok dbit _ _ seg m (wf_dbit _ Hw) Hseg) as Ed.
  unfold seg_use, seg_verdict. rewrite (run_done pe _ m true m) by (unfold pe, getst, gets; by rewrite Hpe).
  cbn [negb]. rewrite (run_done _ _ _ _ _ Ea). set (a := arr (ar (xs m)) seg).
  destruct (a =? 0); [done|]. rewrite (run_done _ _ m tt m) by done.
  replace (if write then negb (a .& 0x1a =? 0x12) else a .& 0x1a =? 0x18)
    with (negb (if write then seg_writes a else seg_reads a)) by (rewrite writes_mask, reads_mask; by destruct write).
  unfold seg_fault. destruct (negb _); [by destruct (seg =? ss_i)|]. rewrite (run_done _ _ m tt m) by done.
  rewrite (run_done _ _ _ _ _ El), (run_done _ _ _ _ _ Ed), down_mask.
  destruct (arr (dbit (xs m)) seg =? 0), (seg_down a); cbn [negb];
    match goal with |- (when ?c do _) _ = _ => destruct c end; by destruct (seg =? ss_i).
Qed.

(** The verdict is the architecture's. *)
Lemma seg_verdict_access s seg off size write : 0 < size ->
  seg_access s seg off size write <-> seg_verdict s seg off size write = None.
Proof.
  intros Hs. unfold seg_access, seg_verdict, seg_byte. set (a := arr (ar s) seg). set (lim := arr (limit s) seg).
  set (upper := if arr (dbit s) seg =? 0 then _ else _).
  destruct (Z.eqb_spec a 0); [by split; [intros []|]|]. destruct (if write then _ else _); cbn [negb]; [|by split; [intros (_ & ? & _)|]].
  split.
  - intros (_ & _ & Hx). pose proof (Hx off ltac:(lia)) as Hlo. pose proof (Hx (off + size - 1) ltac:(lia)) as Hhi.
    destruct (seg_down a); rewrite (proj2 (orb_false_iff _ _)); try done; split; lia.
  - destruct (seg_down a); match goal with |- context [if ?c then _ else _] => destruct c eqn:E end; intros ?; try done.
    all: apply orb_false_iff in E as [E1 E2]; split_and!; [done..|intros x Hx; lia].
Qed.

(** C11: the segment check admits exactly the accesses the cached descriptor allows: in protected
    mode an access passes when the segment is usable, its type permits the read or write, and every
    byte lies inside the limit (above it and inside the size bound for an expand-down segment), and
    otherwise faults with error code 0 and the state unchanged: an unusable segment (access rights
    0) raises #GP whichever it is, the stack segment included, and every other violation raises #SS
    for the stack segment and #GP for the others; in real mode the check always passes. The comment
    above the code promises #SS for every violation of the stack segment (reported as a divergence).
    *)
Theorem seg_use_exact seg off size write m :
  x86_wf (xs m) -> 0 <= seg < 6 -> 0 <= off -> 0 < size ->
  (tst (cr0 (xs m)) kCr0Pe = false -> seg_use seg off size write m = Done tt m) /\
  (tst (cr0 (xs m)) kCr0Pe = true ->
   (seg_access (xs m) seg off size write -> seg_use seg off size write m = Done tt m) /\
   (~ seg_access (xs m) seg off size write ->
    seg_use seg off size write m =
      Raised (TrapRec (if (arr (ar (xs m)) seg =? 0) || negb (seg =? ss_i) then vec_gp else vec_ss) 0 None) m)).
Proof.
  intros Hw Hseg Hoff Hsize. split.
  - intros Hpe. unfold seg_use. by rewrite (run_done pe _ m false m) by (unfold pe, getst, gets; by rewrite Hpe).
  - intros Hpe. rewrite seg_use_run, seg_verdict_access by done. split; [by intros ->|].
    intros Hn. destruct (seg_verdict _ _ _ _ _) as [v|] eqn:E; [|done]. do 2 f_equal.
    revert E. unfold seg_verdict. destruct (_ =? 0); [by intros [= <-]|]. cbn [orb].
    destruct (negb _); [by intros [= <-]; destruct (seg =? ss_i)|]. destruct (if seg_down _ then _ else _); [|done].
    by intros [= <-]; destruct (seg =? ss_i).
Qed.

(** ** Returns *)

(** When [p] completes, [Q] holds of its result and the state it leaves. *)
Definition completes {A} (p : M (XMach Ops Dev W) A) (Q : A -> XMach Ops Dev W -> Prop) m : Prop :=
  wp p Q (fun _ _ => True) any_abort m.

Lemma completes_bind {A B} (p : M (XMach Ops Dev W) A) (k : A -> M (XMach Ops Dev W) B) P Q m :
  completes p P m -> (forall a m', P a m' -> completes (k a) Q m') -> completes (mbind' p k) Q m.
Proof. intros Hp Hk. apply wp_bind. eapply wp_mono; [| | |apply Hp]; cbv beta; [exact Hk|done..]. Qed.

Lemma completes_mem {A} (p : M (XMach Ops Dev W) A) m : keep mem_only no_oof p -> completes p (fun _ m' => ar (xs m') = ar (xs m)) m.
Proof. intros Hp. eapply wp_mono; [| | |apply Hp]; cbv beta; [by intros _ m' []|done|by intros; exact I]. Qed.

(** The privilege level of a state. *)
Definition cpl_of m : Z := (arr (ar (xs m)) cs_i .>> 5) .& 3.


Lemma completes_puta f `{!Upd f, !FieldArray f} i v m :
  completes (puta f i v) (fun _ m' => m' = m <| xs := (xs m) <| f := arr_set (f (xs m)) i (wrap (faw f) v) |> |>) m.
Proof.
  apply completes_bind with (P := fun _ m' => m' = m); [|by intros _ m' ->].
  unfold completes, wp, geta. by destruct (if 0 <=? i then _ else _).
Qed.

Lemma completes_puta_ar f `{!Upd f, !FieldArray f} i v m : (forall s l, ar (s <| f := l |>) = ar s) ->
  completes (puta f i v) (fun _ m' => ar (xs m') = ar (xs m)) m.
Proof. intros Hf. eapply wp_mono; [| | |apply completes_puta]; cbv beta; [|done..]. intros _ m' ->. apply Hf. Qed.

Lemma seg_commit_ar seg sel v m :
  completes (seg_commit seg sel v) (fun _ m' => ar (xs m') = arr_set (ar (xs m)) seg (u8 (v_ar v))) m.
Proof.
  unfold seg_commit. do 3 (eapply completes_bind; [by apply completes_puta_ar|intros _ ? <-]).
  eapply completes_bind with (P := fun _ m' => ar (xs m') = _); [|intros _ m1 <-].
  { eapply wp_mono; [| | |apply (completes_puta ar)]; cbv beta; [|done..]. intros _ ? ->. reflexivity. }
  eapply completes_bind; [by apply completes_puta_ar|intros _ ? <-]. apply completes_mem. keep_auto.
Qed.

(** What a return's code selector check establishes. *)
Lemma ret_cs_check_dpl sel pl m :
  completes (ret_cs_check sel pl)
    (fun cv m' => ar (xs m') = ar (xs m) /\ (view_conf cv = false -> view_dpl cv = pl)) m.
Proof.
  unfold ret_cs_check.
  do 3 (eapply completes_bind; [apply completes_mem; keep_auto|intros ? ? <-]).
  eapply completes_bind; [apply completes_mem; keep_auto|intros cv m1 E1].
  eapply completes_bind; [apply completes_mem; keep_auto|intros ? m2 E2].
  eapply completes_bind with (P := fun _ m' => ar (xs m') = ar (xs m2) /\ (view_conf cv = false -> view_dpl cv = pl)).
  { destruct (view_conf cv); [|destruct (Z.eqb_spec (view_dpl cv) pl)]; [|by cbn|by cbn].
    destruct (pl <? view_dpl cv); by cbn. }
  intros _ m3 [E3 Hd]. eapply completes_bind; [apply completes_mem; keep_auto|intros ? m4 E4].
  split; [congruence|done].
Qed.

Lemma view_conform_dpl cv pl : 0 <= pl < 4 -> (view_conf cv = false -> view_dpl cv = pl) ->
  (u8 (v_ar (view_conform cv pl)) .>> 5) .& 3 = pl.
Proof.
  intros Hpl Hd. rewrite (land_ones_wrap _ 2) by lia.
  assert (forall x n, 0 <= n -> Z.testbit (wrap 2 (u8 x .>> 5)) n = (n <? 2) && Z.testbit x (n + 5)) as Hb.
  { intros x n Hn. rewrite wrap_testbit, Z.shiftr_spec, wrap_testbit by lia.
    destruct (Z.ltb_spec n 2), (Z.ltb_spec (n + 5) 8); done || lia. }
  unfold view_conform. destruct (view_conf cv).
  - rewrite <- (wrap_small 2 pl) at 2 by done. apply Z.bits_inj'; intros n Hn. rewrite Hb, wrap_testbit by lia.
    destruct (Z.ltb_spec n 2); [|done]. cbn [v_ar view_set_dpl andb].
    rewrite wrap_testbit, Z.lor_spec, Z.ldiff_spec, Z.shiftl_spec by lia. replace (n + 5 - 5) with n by lia.
    assert (n = 0 \/ n = 1) as [-> | ->] by lia; tb_const; cbn; by rewrite ?andb_false_r.
  - rewrite <- (Hd eq_refl). unfold view_dpl, dpl_of. rewrite (land_ones_wrap _ 2) by lia.
    apply Z.bits_inj'; intros n Hn. rewrite Hb, wrap_testbit, Z.shiftr_spec by lia. done.
Qed.

Lemma completes_cpl m : completes cpl (fun c m' => m' = m /\ c = cpl_of m) m.
Proof.
  unfold completes, wp. rewrite cpl_run. destruct (ar (xs m) !! 1%nat) as [a|] eqn:E; [|exact I].
  split; [done|]. unfold cpl_of, arr. change (Z.to_nat cs_i) with 1%nat. by rewrite (list_lookup_total_correct _ _ _ E).
Qed.

(** After CS is loaded the rest of a return leaves the level alone. *)
Lemma completes_level {A} (p : M (XMach Ops Dev W) A) pl m : keep mem_only no_oof p -> cpl_of m = pl ->
  completes p (fun _ m' => cpl_of m' = pl) m.
Proof.
  intros Hp Hpl. eapply wp_mono; [| | |by apply completes_mem]; cbv beta; [|done..].
  intros _ m' E. unfold cpl_of. by rewrite E.
Qed.
Lemma seg_commit_level seg sel v pl m : 1 < seg -> cpl_of m = pl -> completes (seg_commit seg sel v) (fun _ m' => cpl_of m' = pl) m.
Proof.
  intros Hs Hpl. eapply wp_mono; [| | |by apply seg_commit_ar]; cbv beta; [|done..].
  intros _ m' E. unfold cpl_of. rewrite E, arr_set_ne by (unfold cs_i; lia). done.
Qed.
Lemma seg_commit_cs sel cv pl m : Z.of_nat (length (ar (xs m))) = 6 -> 0 <= pl < 4 -> (view_conf cv = false -> view_dpl cv = pl) ->
  completes (seg_commit cs_i sel (view_conform cv pl)) (fun _ m' => cpl_of m' = pl) m.
Proof.
  intros Hl Hpl Hd. eapply wp_mono; [| | |by apply seg_commit_ar]; cbv beta; [|done..].
  intros _ m' E. unfold cpl_of. rewrite E, arr_set_eq by (rewrite Hl; unfold cs_i; lia). by apply view_conform_dpl.
Qed.

Lemma rpl_range sel : 0 <= sel .& 3 < 4.
Proof. apply (rng_land_r 2); unfold rng; lia. Qed.

(** A far return through the protected-mode path. *)
Lemma pm_ret_level n m : x86_wf (xs m) -> completes (pm_ret n) (fun _ m' => cpl_of m <= cpl_of m') m.
Proof.
  intros Hw. destruct (wf_ar _ Hw) as [Hl _]. unfold pm_ret.
  eapply completes_bind; [apply completes_mem; keep_auto|intros w m1 E1].
  eapply completes_bind; [apply completes_mem; keep_auto|intros ip m2 E2].
  eapply completes_bind; [apply completes_mem; keep_auto|intros sel m3 E3].
  assert (ar (xs m3) = ar (xs m)) as E by congruence. cbv zeta. set (pl := u16 sel .& 3).
  pose proof (rpl_range (u16 sel) : 0 <= pl < 4) as Hpl.
  eapply completes_bind; [apply completes_cpl|intros c m4 [-> ->]].
  eapply completes_bind with (P := fun _ m' => m' = m3 /\ cpl_of m <= pl); [|intros ? m5 [-> Hc]].
  { replace (cpl_of m3) with (cpl_of m) by (unfold cpl_of; by rewrite E). destruct (Z.ltb_spec pl (cpl_of m)); [exact I|]. by split. }
  eapply completes_bind; [apply completes_mem; keep_auto|intros [new_esp new_ss] m6 E6].
  eapply completes_bind; [apply ret_cs_check_dpl|intros cv m7 [E7 Hd]].
  eapply completes_bind; [apply completes_mem; keep_auto|intros sv m8 E8].
  eapply completes_bind; [apply seg_commit_cs; [congruence|done|exact Hd]|intros ? m9 E9].
  eapply completes_bind; [apply completes_level; [keep_auto|exact E9]|intros ? m10 E10].
  eapply completes_bind with (P := fun _ m' => cpl_of m' = pl); [|intros ? m11 E11].
  { destruct (_ <? pl); [|by cbn]. eapply completes_bind; [apply completes_level; [keep_auto|exact E10]|intros ? m11 E11].
    eapply completes_bind; [apply seg_commit_level; [done|exact E11]|intros ? m12 E12].
    apply completes_level; [keep_auto|done]. }
  eapply wp_mono; [| | |apply completes_level; [|exact E11]]; cbv beta; [|done..|keep_auto]. intros _ m' E12. by rewrite E12.
Qed.

Lemma cpl_of_range m : 0 <= cpl_of m < 4.
Proof. apply rpl_range. Qed.

(** Code that may end anywhere. *)
Lemma completes_any {A} (p : M (XMach Ops Dev W) A) (Q : XMach Ops Dev W -> Prop) m : (forall m', Q m') -> completes p (fun _ m' => Q m') m.
Proof. intros HQ. unfold completes, wp. by destruct (p m). Qed.

(** The code segment check common to the returns, then CS, at the new level. *)
Lemma iret_protected_level w ip sel flv m : x86_wf (xs m) ->
  completes (iret_protected w ip sel flv) (fun _ m' => cpl_of m <= cpl_of m') m.
Proof.
  intros Hw. destruct (wf_ar _ Hw) as [Hl _]. unfold iret_protected. cbv zeta. set (pl := sel .& 3).
  pose proof (rpl_range sel : 0 <= pl < 4) as Hpl.
  eapply completes_bind; [apply completes_cpl|intros c m1 [-> ->]].
  eapply completes_bind with (P := fun _ m' => m' = m /\ cpl_of m <= pl); [|intros ? m2 [-> Hc]].
  { destruct (Z.ltb_spec pl (cpl_of m)); [exact I|]. by split. }
  eapply completes_bind; [apply completes_mem; keep_auto|intros [new_esp new_ss] m3 E3].
  eapply completes_bind; [apply ret_cs_check_dpl|intros cv m4 [E4 Hd]].
  eapply completes_bind; [apply completes_mem; keep_auto|intros sv m5 E5].
  do 3 (eapply completes_bind; [apply completes_mem; keep_auto|intros ? ? ?]).
  eapply completes_bind; [apply seg_commit_cs; [congruence|done|exact Hd]|intros ? m9 E9].
  eapply completes_bind with (P := fun _ m' => cpl_of m' = pl); [|intros ? m11 E11].
  { destruct (_ <? pl); [|by apply completes_level; [keep_auto|]].
    eapply completes_bind; [apply completes_level; [keep_auto|exact E9]|intros ? m10 E10].
    by apply seg_commit_level. }
  eapply wp_mono; [| | |apply completes_level; [|exact E11]]; cbv beta; [|done..|keep_auto]. intros ? m12 E12. by rewrite E12.
Qed.

Lemma pm_iret_level m : x86_wf (xs m) -> fbit (fl (xs m)) fl_vm = false -> fbit (fl (xs m)) fl_nt = false ->
  completes pm_iret (fun _ m' => cpl_of m <= cpl_of m') m.
Proof.
  intros Hw Hvm Hnt. unfold pm_iret. eapply completes_bind with (P := fun _ m' => m' = m); [done|]. intros w ? ->.
  apply wp_gets. cbv beta. rewrite Hvm. apply wp_gets. cbv beta. rewrite Hnt.
  assert (keep mem_only no_oof (peek_frame w)) as Hp by keep_auto.
  eapply completes_bind with (P := fun _ m' => mem_only m m').
  { eapply wp_mono; [| | |apply Hp]; cbv beta; [done..|by intros; exact I]. }
  intros [[ip sel] flv] m1 (Ea & _ & [_ Ht] & _).
  assert (cpl_of m1 = cpl_of m) as Ec by (unfold cpl_of; by rewrite Ea). rewrite <- Ec.
  destruct (tst flv 0x20000); [|by apply iret_protected_level, Ht].
  unfold iret_to_vm86. eapply completes_bind; [apply completes_cpl|intros c m2 [-> ->]].
  destruct (Z.eqb_spec (cpl_of m1) 0) as [E0|]; [|exact I]. rewrite E0.
  apply completes_any. intros m2. apply cpl_of_range.
Qed.

(** C9: a far return or interrupt return never gains privilege: whatever the stack and the
    descriptor tables hold, with the virtual-8086 and nested-task flags clear, a completed
    protected-mode RETF or IRET ends at a privilege level numerically at least the one it started
    from. An IRET with NT set is a task switch and is not covered. *)
Theorem return_not_inward n m m' : x86_wf (xs m) -> fbit (fl (xs m)) fl_vm = false -> fbit (fl (xs m)) fl_nt = false ->
  pm_ret n m = Done tt m' \/ pm_iret m = Done tt m' -> cpl_of m <= cpl_of m'.
Proof.
  intros Hw Hvm Hnt [E|E].
  - pose proof (pm_ret_level n m Hw) as Hp. unfold completes, wp in Hp. by rewrite E in Hp.
  - pose proof (pm_iret_level m Hw Hvm Hnt) as Hp. unfold completes, wp in Hp. by rewrite E in Hp.
Qed.
End props.

(** ** On the board *)

Definition flat_desc (access : Z) : list Z := [0xff; 0xff; 0; 0; 0; access; 0xcf; 0].
(** Flat code and data for rings 0 and 3, at 0x1000. *)
Definition flat_gdt : list Z := replicate 8 0 ++ flat_desc 0x9b ++ flat_desc 0x93 ++ flat_desc 0xfb ++ flat_desc 0xf3.
(** A frame that returns to ring 3 at 0x8000 with the stack at 0x9000. *)
Definition far_frame : list Z := le_bytes 4 0x8000 ++ le_bytes 4 0x1b ++ le_bytes 4 0x9000 ++ le_bytes 4 0x23.

Definition ring0_pc : XMach pc_ops unit PcWorld :=
  let m := pc_at false 0 (poke 0x1000 flat_gdt (poke 0x7000 far_frame ∅)) [0; 0; 0; 0; 0x7000; 0; 0; 0] 0x7c00 in
  m <| xs := (xs m) <| cr0 := 1 |> <| sreg := [0x10; 0x08; 0x10; 0x10; 0x10; 0x10] |>
               <| ar := [0x93; 0x9b; 0x93; 0x93; 0x93; 0x93] |> <| limit := [0xffffffff; 0xffffffff; 0xffffffff; 0xfff; 0xffffffff; 0xffffffff] |>
               <| dbit := replicate 6 1 |> <| gdtr := 0x1000 |> <| gdtr_limit := 0x27 |> |>
    <| xd := (xd m) <| d_w32 := true |> <| d_a32 := true |> |>.

Lemma ring0_pc_wf : x86_wf (xs ring0_pc).
Proof.
  unfold ring0_pc, pc_at. xsimpl. unfold x86_reset_state. xsimpl. wf_concrete.
Qed.

(** DS ends at 0xfff: four bytes at 0xffc are inside, at 0xffd they are not. *)
Lemma seg_use_exact_witness :
  seg_use ds_i 0xffc 4 false ring0_pc = Done tt ring0_pc /\
  seg_use ds_i 0xffd 4 false ring0_pc = Raised (TrapRec vec_gp 0 None) ring0_pc.
Proof.
  assert (arr (ar (xs ring0_pc)) ds_i = 0x93 /\ arr (limit (xs ring0_pc)) ds_i = 0xfff) as [Ea El] by (vm_compute; done).
  assert (tst (cr0 (xs ring0_pc)) kCr0Pe = true) as Hpe by (vm_compute; reflexivity).
  split.
  - destruct (seg_use_exact ds_i 0xffc 4 false ring0_pc ring0_pc_wf) as [_ Hp]; [unfold ds_i; lia..|].
    destruct (Hp Hpe) as [Hok _]. apply Hok. unfold seg_access, seg_byte. rewrite Ea, El.
    split; [done|]. split; [reflexivity|]. intros x Hx. change (x <= 0xfff). lia.
  - destruct (seg_use_exact ds_i 0xffd 4 false ring0_pc ring0_pc_wf) as [_ Hp]; [unfold ds_i; lia..|].
    destruct (Hp Hpe) as [_ Hbad]. rewrite Hbad; [by rewrite Ea|].
    unfold seg_access, seg_byte. rewrite Ea, El. intros (_ & _ & Hx). specialize (Hx 0x1000 ltac:(lia)).
    change (0x1000 <= 0xfff) in Hx. lia.
Defined.

Definition ring0_ret : XMach pc_ops unit PcWorld := match pm_ret 0 ring0_pc with Done _ m' => m' | _ => ring0_pc end.

Lemma return_not_inward_witness : cpl_of ring0_pc = 0 /\ cpl_of ring0_ret = 3 /\ cpl_of ring0_pc <= cpl_of ring0_ret.
Proof.
  split; [reflexivity|]. split; [vm_compute; reflexivity|].
  apply (return_not_inward 0 ring0_pc ring0_ret ring0_pc_wf); [reflexivity..|]. left. vm_compute. reflexivity.
Defined.
