(* ===== verification/X86IntProps.v ===== *)
(** * Real mode: memory, the stack, and interrupts that return

    A processor in real mode over RAM: what a store puts in memory a load
    reads back, a push is undone by a pop, and an interrupt delivered through
    the vector table is undone by IRET. *)

From S2P Require Import Prelude Bus Ram RvState Run HostMem X86State X86Flags X86Mem X86Oper X86Seg X86Sys X86Fpu X86Float X86x87 X86Simd X86Group X86Op2 X86Op X86Step X86Board X86FlagsProps X86Frame X86Keep X86SegProps.

(** A word in the host block is its bytes, little-endian ([memcpy]). *)
Class HostWords (Ops Dev W : Type) `{BusDevices Ops Dev W} := {
  hw_bytes :: HostBytes Ops Dev W;
  hw_load : forall (h : host_ptr Dev) n w, 0 < n <= 8 -> host_load h n w = le_val (HostMem.host_read h (Z.to_nat n) w);
  hw_store : forall (h : host_ptr Dev) n v w, 0 < n <= 8 -> host_store h n v w = HostMem.host_write h (le_bytes (Z.to_nat n) v) w;
}.

(** The addresses from 0 to [top] are the block [h]: every access decodes to a
    region with a host block, and the blocks line up.  The region may lie over
    others (on the PC the open bus is under all of RAM). *)
Class RamWindow {Ops Dev : Type} (bus : Bus Ops Dev) (h : host_ptr Dev) (top : Z) : Prop := {
  rw_wf : bus_wf bus;
  rw_top : 0 < top < 2 ^ 32;
  rw_decode : forall a n, 0 <= a -> 0 < n -> a + n <= top -> exists r h', decode_spec bus a n = Some r /\ r_host r = Some h' /\
    HostPtr (hp_block h') (hp_off h' + (a - r_base r)) = hp_add h a;
}.

Section real.
Context {Ops Dev W : Type} `{HostWords Ops Dev W, X86Pins W, SoftFloat, HostMath}.
Context (bus0 : Bus Ops Dev) `{!BusDevicesOk Ops Dev W bus0} (h : host_ptr Dev) (top : Z) `{!RamWindow bus0 h top}.
Implicit Types m : XMach Ops Dev W.

(** The machine's bus: the board's regions, whatever the decode cache holds. *)
Record ram_bus (bus : Bus Ops Dev) : Prop := {
  rb_wf : bus_wf bus;
  rb_regions : bus_regions bus = bus_regions bus0;
}.

(** Real mode: protection and paging off, the A20 gate open, no breakpoint
    armed, a 16-bit stack. *)
Record real_mode (s : x86_state Dev) : Prop := {
  rm_wf : x86_wf s;
  rm_pe : tst (cr0 s) kCr0Pe = false;
  rm_pg : tst (cr0 s) kCr0Pg = false;
  rm_a20 : a20 s = true;
  rm_dr7 : tst (arr (dr s) 7) kDr7AnyEnable = false;
  rm_ss : arr (dbit s) ss_i = 0;
  rm_cpl : (arr (ar s) cs_i .>> 5) .& 3 = 0;
}.

(** The block from address [a] on. *)
Definition at_ (a : Z) : host_ptr Dev := hp_add h a.

Lemma ram_bus_probe bus a n : ram_bus bus -> 0 <= a -> 0 < n -> a + n <= top ->
  exists r h' b, BusProbe bus a n = (Some r, b) /\ ram_bus b /\ r ∈ bus_regions bus0 /\ r_host r = Some h' /\
    r_base r <= a /\ a + n <= r_base r + r_size r /\ HostPtr (hp_block h') (hp_off h' + (a - r_base r)) = at_ a.
Proof.
  intros [Hw Hr] Ha Hn Ht. unfold BusProbe. destruct (rw_decode a n Ha Hn Ht) as (r & h' & Ed & Eh & Ep).
  assert (Ef : (FindRegion bus a n).1 = Some r) by (rewrite FindRegion_decode by done; unfold decode_spec in *; by rewrite Hr).
  destruct (decode_in bus0 a n r rw_wf Ha Hn Ed) as (Hin & Hlo & Hhi).
  pose proof (FindRegion_wf bus a n Hw) as Hw2. pose proof (FindRegion_regions bus a n) as Hr2.
  destruct (FindRegion bus a n) as [o b]. cbn in *. subst o. exists r, h', b. split; [done|]. split; [split; [done|congruence]|]. done.
Qed.

(** ** Physical accesses *)

Lemma phys_store_ram a n v m : ram_bus (xbus m) -> a20 (xs m) = true -> 0 <= a -> 0 < n <= 8 -> a + n <= top ->
  exists b, ram_bus b /\
  phys_store a n v m = Done tt (m <| xbus := b |> <| xworld := host_store (at_ a) n v (xworld m) |>).
Proof.
  intros Hb Ha20 Ha Hn Ht. destruct (ram_bus_probe _ a n Hb Ha ltac:(lia) Ht) as (r & h' & b & E & Hb' & Hin & Hh & Hlo & Hhi & Ep).
  exists b. split; [done|]. unfold phys_store, a20_gate. rewrite Ha20, E. unfold direct. rewrite Hh.
  destruct (r_overlaps r); cbn [negb]; [rewrite (bd_ram_write r h') by done|unfold host_at]; by rewrite Ep.
Qed.

(** Through the pointer the upper bytes of the word are what it held before;
    through the device they are 0. *)
Lemma phys_load_ram a n m : ram_bus (xbus m) -> a20 (xs m) = true -> 0 <= a -> 0 < n <= 8 -> a + n <= top ->
  exists b j, ram_bus b /\
  phys_load a n m = Done (memcpy_over j n (host_load (at_ a) n (xworld m))) (m <| xbus := b |>).
Proof.
  intros Hb Ha20 Ha Hn Ht. destruct (ram_bus_probe _ a n Hb Ha ltac:(lia) Ht) as (r & h' & b & E & Hb' & Hin & Hh & Hlo & Hhi & Ep).
  exists b, (if r_overlaps r then 0 else xjunk m). split; [done|]. unfold phys_load, a20_gate. rewrite Ha20, E. unfold direct. rewrite Hh.
  destruct (r_overlaps r); cbn [negb]; [rewrite (bd_ram_read r h') by done|unfold host_at]; by rewrite Ep.
Qed.

(** What an uninitialised word held before the copy is masked off. *)
Lemma wrap_memcpy j n v : 0 < n -> rng (8 * n) v -> wrap (8 * n) (memcpy_over j n v) = v.
Proof.
  intros Hn Hv. rewrite <- (wrap_small (8 * n) v) at 2 by done. apply Z.bits_inj'; intros i Hi. unfold memcpy_over.
  rewrite !wrap_testbit, Z.lor_spec, Z.ldiff_spec by lia. destruct (Z.ltb_spec i (8 * n)); [simpl|done].
  replace (2 ^ (8 * n) - 1) with (Z.ones (8 * n)) by (rewrite Z.ones_equiv; lia). rewrite Z.ones_spec_low by lia.
  by rewrite andb_false_r.
Qed.

(** ** Words of memory *)

Definition word_at (a n : Z) m : Z := host_load (at_ a) n (xworld m).

Lemma word_at_rng a n m : 0 < n <= 8 -> rng (8 * n) (word_at a n m).
Proof.
  intros Hn. unfold word_at. rewrite hw_load by done. pose proof (le_val_rng _ (host_read_rng (at_ a) (Z.to_nat n) (xworld m))) as Hr.
  by rewrite length_host_read, Z2Nat.id in Hr by lia.
Qed.

Lemma load_same a n v w : 0 < n <= 8 -> host_load (at_ a) n (host_store (at_ a) n v w) = wrap (8 * n) v.
Proof.
  intros Hn. rewrite hw_load, hw_store by done.
  rewrite <- (length_le_bytes (Z.to_nat n) v) at 1. rewrite host_read_write by apply le_bytes_rng.
  rewrite le_val_bytes, Z2Nat.id by lia. done.
Qed.

Lemma load_other a n a' n' v w : 0 < n <= 8 -> 0 < n' <= 8 -> a' + n' <= a \/ a + n <= a' ->
  host_load (at_ a') n' (host_store (at_ a) n v w) = host_load (at_ a') n' w.
Proof.
  intros Hn Hn' Hd. rewrite !hw_load, hw_store by done. unfold at_.
  rewrite host_read_write_ne by (apply le_bytes_rng || (rewrite length_le_bytes; lia)). done.
Qed.

(** ** Linear accesses inside a page are physical ones *)

Definition in_page (lin n : Z) : Prop := (u32 lin .& 0xfff) + n <= 0x1000.

Lemma even_in_page lin : 0 <= lin < 2 ^ 32 -> lin mod 2 = 0 -> in_page lin 2.
Proof.
  intros Hl He. unfold in_page. rewrite (wrap_small 32) by done. change 0xfff with (2 ^ 12 - 1). rewrite land_ones_wrap by lia. unfold wrap.
  change (2 ^ 12) with 4096. Z.to_euclidean_division_equations; lia.
Qed.

Lemma ac_check_kernel lin n f w m : AcCheckSlow lin n false f w m = Done tt m.
Proof. unfold AcCheckSlow. rewrite (run_done _ _ m (xs m) m) by done. cbn [negb]. by rewrite orb_true_r. Qed.

Lemma lin_store_real lin n v m : real_mode (xs m) -> in_page lin n -> lin_store lin n false v m = phys_store lin n v m.
Proof.
  intros Hr Hp. unfold lin_store. rewrite (run_done _ _ _ _ _ (ac_check_kernel _ _ _ _ m)).
  rewrite (run_done _ _ m (xslow m) m), (run_done _ _ m (cr0 (xs m)) m) by done.
  unfold split_store, SlowStoreOne. rewrite (proj2 (Z.leb_le _ _) Hp), (rm_pg _ Hr). cbn [negb].
  destruct (xslow m); [|done]. unfold page_translate_as. rewrite (run_done _ _ m lin m); [done|].
  rewrite (run_done _ _ m (cr0 (xs m)) m) by done. by rewrite (rm_pg _ Hr).
Qed.

Lemma lin_load_real lin n f m : real_mode (xs m) -> in_page lin n -> lin_load lin n false f m = phys_load lin n m.
Proof.
  intros Hr Hp. unfold lin_load. rewrite (run_done _ _ _ _ _ (ac_check_kernel _ _ _ _ m)).
  rewrite (run_done _ _ m (xslow m) m), (run_done _ _ m (cr0 (xs m)) m) by done.
  unfold split_load, SlowLoadOne. rewrite (proj2 (Z.leb_le _ _) Hp), (rm_pg _ Hr). cbn [negb].
  destruct (xslow m); [|done]. unfold page_translate_as. rewrite (run_done _ _ m lin m); [done|].
  rewrite (run_done _ _ m (cr0 (xs m)) m) by done. by rewrite (rm_pg _ Hr).
Qed.

Lemma user_cpl_real m : real_mode (xs m) -> user_cpl m = Done false m.
Proof.
  intros Hr. unfold user_cpl, cpl. destruct (wf_ar _ (rm_wf _ Hr)) as [Hl Hf].
  rewrite (run_done _ _ m 0 m); [done|].
  rewrite (run_done _ _ m (arr (ar (xs m)) cs_i) m) by (apply (geta_ok ar 6 8); [by split|unfold cs_i; lia]).
  unfold mret'. by rewrite (rm_cpl _ Hr).
Qed.

(** The machine where the bus cache and the world alone have changed. *)
Definition io_upd m b (w : W) : XMach Ops Dev W := m <| xbus := b |> <| xworld := w |>.

(** Two-byte accesses of the processor and of the program. *)
Lemma kwr16_real a v m : real_mode (xs m) -> ram_bus (xbus m) -> 0 <= a -> a + 2 <= top -> a mod 2 = 0 ->
  exists b, ram_bus b /\ kwr16 a v m = Done tt (io_upd m b (host_store (at_ a) 2 (u16 v) (xworld m))).
Proof.
  intros Hr Hb Ha Ht He. pose proof rw_top. unfold kwr16, kbus_store.
  rewrite lin_store_real by (done || apply even_in_page; lia). apply phys_store_ram; [done|apply Hr|lia..].
Qed.

Lemma krd16_real a m : real_mode (xs m) -> ram_bus (xbus m) -> 0 <= a -> a + 2 <= top -> a mod 2 = 0 ->
  exists b, ram_bus b /\ krd16 a m = Done (word_at a 2 m) (m <| xbus := b |>).
Proof.
  intros Hr Hb Ha Ht He. pose proof rw_top.
  destruct (phys_load_ram a 2 m) as (b & j & Hb' & E); [done|apply Hr|lia..|]. exists b. split; [done|].
  unfold krd16, kbus_load. rewrite (run_done _ _ _ _ _ (eq_trans (lin_load_real a 2 false m Hr ltac:(apply even_in_page; lia)) E)).
  unfold mret'. f_equal. change 16 with (8 * 2). apply wrap_memcpy; [lia|]. by apply word_at_rng.
Qed.

Lemma rd16_real a m : real_mode (xs m) -> ram_bus (xbus m) -> 0 <= a -> a + 2 <= top -> a mod 2 = 0 ->
  exists b, ram_bus b /\ rd16 a m = Done (word_at a 2 m) (m <| xbus := b |>).
Proof.
  intros Hr Hb Ha Ht He. destruct (krd16_real a m Hr Hb Ha Ht He) as (b & Hb' & E). exists b. split; [done|].
  rewrite <- E. unfold rd16, krd16, bus_load, kbus_load. unfold mbind' at 1.
  by rewrite (run_done _ _ _ _ _ (user_cpl_real m Hr)).
Qed.

(** ** The stack *)

Definition esp m : Z := cell_e (arr (gpr (xcpu m)) esp_i).
Definition ss_base m : Z := arr (base (xs m)) ss_i.

(** ESP assigned, as the C code does it. *)
Definition put_esp (v : Z) m : XMach Ops Dev W :=
  m <| xcpu := (xcpu m) <| gpr := arr_set (gpr (xcpu m)) esp_i (cell_set_e (arr (gpr (xcpu m)) esp_i) v) |> |>.

Lemma u16_sub e k : 0 <= k <= u16 e -> u16 (e - k) = u16 e - k.
Proof. unfold wrap. intros Hk. change (2 ^ 16) with 65536 in *. Z.to_euclidean_division_equations; lia. Qed.

(** Room for a word below (above) the stack pointer, inside RAM. *)
Definition room_below m (n : Z) : Prop :=
  n <= u16 (esp m) /\ ss_base m + u16 (esp m) <= top /\ (ss_base m + u16 (esp m)) mod 2 = 0.

Lemma geta_real f n w i m : words n w (f (xs m)) -> 0 <= i < n -> geta f i m = Done (arr (f (xs m)) i) m.
Proof. apply geta_ok. Qed.

Lemma WatchData_real lin n w m : real_mode (xs m) -> WatchData lin n w m = Done tt m.
Proof. intros Hr. unfold WatchData. rewrite (run_done _ _ m (xs m) m) by done. by rewrite (rm_dr7 _ Hr). Qed.

Lemma seg_use_real seg off n w m : real_mode (xs m) -> seg_use seg off n w m = Done tt m.
Proof. intros Hr. unfold seg_use. rewrite (run_done _ _ m false m); [done|]. unfold pe, getst, gets. by rewrite (rm_pe _ Hr). Qed.

Lemma ss_base_range m : real_mode (xs m) -> 0 <= ss_base m.
Proof. intros Hr. destruct (wf_base _ (rm_wf _ Hr)) as [Hl Hf]. apply (rng_arr 64 (base (xs m)) ss_i); [lia|done]. Qed.

Lemma kpush16_real v m : real_mode (xs m) -> ram_bus (xbus m) -> room_below m 2 ->
  exists b, ram_bus b /\
  kpush16 v m = Done tt (put_esp (sp_move false (esp m) (esp m - 2))
    (io_upd m b (host_store (at_ (ss_base m + (u16 (esp m) - 2))) 2 (u16 v) (xworld m)))).
Proof.
  intros Hr Hb (Hn & Ht & He). pose proof (ss_base_range m Hr). pose proof rw_top.
  set (a := ss_base m + (u16 (esp m) - 2)).
  assert (0 <= a /\ a + 2 <= top /\ a mod 2 = 0) as (Ha & Ha' & Hae).
  { unfold a. split; [lia|]. split; [lia|]. Z.to_euclidean_division_equations; lia. }
  destruct (kwr16_real a (u16 (u16 v)) m) as (b & Hb' & E); [done..|]. exists b. split; [done|].
  unfold kpush16, kstack_push, stack_write. rewrite (run_done _ _ m (esp m) m) by done.
  rewrite (run_done ss_big _ m false m).
  2: { unfold ss_big. rewrite (run_done _ _ m 0 m); [done|]. rewrite (geta_real dbit 6 8), (rm_ss _ Hr); [done|apply Hr|done]. }
  cbv zeta. rewrite (run_done _ _ m tt m) by (by apply seg_use_real).
  rewrite (run_done _ _ m (ss_base m) m) by (apply (geta_real base 6 64); [apply Hr|done]).
  replace (u64 (ss_base m + sp_off false (esp m - 2))) with a.
  2: { unfold sp_off. rewrite u16_sub by lia. symmetry. apply wrap_small. unfold rng, a in *. lia. }
  rewrite (run_done _ _ m tt m) by (by apply WatchData_real). cbn [Z.eqb Pos.eqb].
  rewrite (run_done _ _ _ _ _ E). unfold setE, setr, modify, put_esp, io_upd. do 3 f_equal.
  by rewrite !(wrap_small 16) by (apply rng_wrap; lia).
Qed.

(** Room for [n] bytes at and above the stack pointer. *)
Definition room_above m (n : Z) : Prop :=
  u16 (esp m) + n <= 2 ^ 16 /\ ss_base m + u16 (esp m) + n <= top /\ (ss_base m + u16 (esp m)) mod 2 = 0.

Lemma pop16_real m : real_mode (xs m) -> ram_bus (xbus m) -> room_above m 2 -> d_w32 (xd m) = false ->
  exists b, ram_bus b /\
  pop_w m = Done (word_at (ss_base m + u16 (esp m)) 2 m) (put_esp (sp_move false (esp m) (esp m + 2)) (m <| xbus := b |>)).
Proof.
  intros Hr Hb (Hn & Ht & He) Hw. pose proof (ss_base_range m Hr). pose proof rw_top.
  set (a := ss_base m + u16 (esp m)) in *. assert (0 <= u16 (esp m) < 2 ^ 16) by (apply rng_wrap; lia).
  destruct (rd16_real a m) as (b & Hb' & E); [done|done|lia..|done|]. exists b. split; [done|].
  unfold pop_w, opsize. rewrite (run_done _ _ m 2 m) by (unfold mbind', getd, gets; by rewrite Hw).
  unfold stack_pop. rewrite (run_done _ _ m (esp m) m) by done.
  rewrite (run_done ss_big _ m false m).
  2: { unfold ss_big. rewrite (run_done _ _ m 0 m); [done|]. rewrite (geta_real dbit 6 8), (rm_ss _ Hr); [done|apply Hr|done]. }
  cbv zeta. rewrite (run_done _ _ m tt m) by (by apply seg_use_real).
  rewrite (run_done _ _ m (ss_base m) m) by (apply (geta_real base 6 64); [apply Hr|done]).
  replace (u64 (ss_base m + sp_off false (esp m))) with a.
  2: { unfold sp_off. symmetry. apply wrap_small. unfold rng, a in *. lia. }
  rewrite (run_done _ _ m tt m) by (by apply WatchData_real). cbn [Z.eqb Pos.eqb].
  rewrite (run_done _ _ _ _ _ E). done.
Qed.

(** *** The stack pointer through pushes and pops *)

Lemma esp_put v m : Z.of_nat (length (gpr (xcpu m))) = 32 -> esp (put_esp v m) = u32 v.
Proof.
  intros Hl. unfold esp, put_esp. xsimpl. cbn [gpr upd upd_gpr]. rewrite arr_set_eq by (rewrite Hl; unfold esp_i; lia).
  unfold cell_e, cell_set_e. apply Z.bits_inj'; intros i Hi. change 0xffffffff with (Z.ones 32).
  rewrite !wrap_testbit, Z.lor_spec, Z.ldiff_spec, wrap_testbit by lia. destruct (Z.ltb_spec i 32); [|done].
  rewrite Z.ones_spec_low by lia. by rewrite andb_false_r.
Qed.

Lemma sp_move_bits e v i : 0 <= i -> Z.testbit (sp_move false e v) i =
  if i <? 16 then Z.testbit v i else (i <? 32) && Z.testbit e i.
Proof.
  intros Hi. unfold sp_move. rewrite Z.lor_spec, Z.land_spec, wrap_testbit by lia.
  change 0xffff0000 with (Z.ones 16 .<< 16). rewrite Z.shiftl_spec by lia.
  destruct (Z.ltb_spec i 16).
  - rewrite (Z.testbit_neg_r _ (i - 16)) by lia. by rewrite andb_false_r.
  - destruct (Z.ltb_spec i 32); simpl.
    + rewrite Z.ones_spec_low by lia. by rewrite andb_true_r, orb_false_r.
    + rewrite Z.ones_spec_high by lia. by rewrite andb_false_r.
Qed.

Lemma sp_move_rng e v : rng 32 (sp_move false e v).
Proof.
  apply rng_testbit; [lia|]. split.
  - unfold sp_move. apply Z.lor_nonneg. split; [apply Z.land_nonneg; right; lia|apply (rng_wrap 16); lia].
  - intros i Hi. rewrite sp_move_bits by lia. destruct (Z.ltb_spec i 16), (Z.ltb_spec i 32); done || lia.
Qed.

Lemma u16_sp_move e v : u16 (sp_move false e v) = u16 v.
Proof.
  apply Z.bits_inj'; intros i Hi. rewrite !wrap_testbit by lia. destruct (Z.ltb_spec i 16); [|done].
  rewrite sp_move_bits by lia. by rewrite (proj2 (Z.ltb_lt i 16)) by lia.
Qed.

Lemma u16_add_back e v k : u16 e = u16 v - k -> 0 <= k -> u16 (e + k) = u16 v.
Proof.
  intros E Hk. unfold wrap in *. change (2 ^ 16) with 65536 in *. Z.to_euclidean_division_equations; lia.
Qed.

(** ESP moved twice with the low half back where it was is ESP. *)
Lemma sp_move_back e v1 v2 : rng 32 e -> u16 v2 = u16 e -> sp_move false (sp_move false e v1) v2 = e.
Proof.
  intros He Hv. apply Z.bits_inj'; intros i Hi. rewrite !sp_move_bits by lia.
  apply rng_testbit in He as [_ He]; [|lia].
  destruct (Z.ltb_spec i 16).
  - apply (f_equal (fun z => Z.testbit z i)) in Hv. rewrite !wrap_testbit in Hv by lia.
    by rewrite (proj2 (Z.ltb_lt i 16)) in Hv by lia.
  - destruct (Z.ltb_spec i 32); [done|]. symmetry. apply He. lia.
Qed.
Lemma sp_move_move e v1 v2 : sp_move false (sp_move false e v1) v2 = sp_move false e v2.
Proof.
  apply Z.bits_inj'; intros i Hi. rewrite !sp_move_bits by lia.
  destruct (Z.ltb_spec i 16), (Z.ltb_spec i 32); done.
Qed.

Lemma sp_move_ext e v1 v2 : u16 v1 = u16 v2 -> sp_move false e v1 = sp_move false e v2.
Proof. unfold sp_move. by intros ->. Qed.

(** *** A register file seen from its top of stack

    [sp_gpr g k]: the registers [g] with the stack [k] bytes deeper. *)
Definition sp_gpr (g : list Z) (k : Z) : list Z :=
  arr_set g esp_i (cell_set_e (arr g esp_i) (sp_move false (cell_e (arr g esp_i)) (cell_e (arr g esp_i) - k))).

Lemma cell_e_set q v : cell_e (cell_set_e q v) = u32 v.
Proof.
  unfold cell_e, cell_set_e. apply Z.bits_inj'; intros i Hi. change 0xffffffff with (Z.ones 32).
  rewrite !wrap_testbit, Z.lor_spec, Z.ldiff_spec, wrap_testbit by lia. destruct (Z.ltb_spec i 32); [|done].
  rewrite Z.ones_spec_low by lia. by rewrite andb_false_r.
Qed.
Lemma cell_set_set q v1 v2 : cell_set_e (cell_set_e q v1) v2 = cell_set_e q v2.
Proof.
  unfold cell_set_e. apply Z.bits_inj'; intros i Hi. change 0xffffffff with (Z.ones 32).
  rewrite !Z.lor_spec, !Z.ldiff_spec, !Z.lor_spec, !Z.ldiff_spec, !wrap_testbit by lia.
  destruct (Z.ltb_spec i 32); [rewrite Z.ones_spec_low by lia; by rewrite !andb_false_r|].
  rewrite Z.ones_spec_high by lia. simpl. by rewrite !orb_false_r, !andb_true_r.
Qed.
Lemma cell_set_same q : cell_set_e q (cell_e q) = q.
Proof.
  unfold cell_set_e, cell_e. apply Z.bits_inj'; intros i Hi. change 0xffffffff with (Z.ones 32).
  rewrite Z.lor_spec, Z.ldiff_spec, !wrap_testbit by lia.
  destruct (Z.ltb_spec i 32); [rewrite Z.ones_spec_low by lia; by rewrite andb_false_r|].
  rewrite Z.ones_spec_high by lia. simpl. by rewrite orb_false_r, andb_true_r.
Qed.

Section view.
Context (g : list Z) (Hg : Z.of_nat (length g) = 32).
#[local] Abbreviation e0 := (cell_e (arr g esp_i)).

Lemma sp_gpr_cell k : arr (sp_gpr g k) esp_i = cell_set_e (arr g esp_i) (sp_move false e0 (e0 - k)).
Proof. unfold sp_gpr. apply arr_set_eq. rewrite Hg. unfold esp_i. lia. Qed.
Lemma sp_gpr_esp k : cell_e (arr (sp_gpr g k) esp_i) = sp_move false e0 (e0 - k).
Proof. rewrite sp_gpr_cell, cell_e_set. apply wrap_small, sp_move_rng. Qed.
Lemma sp_gpr_move k d : u16 (sp_move false e0 (e0 - k) + d) = u16 (e0 - (k - d)) ->
  arr_set (sp_gpr g k) esp_i (cell_set_e (arr (sp_gpr g k) esp_i)
    (sp_move false (sp_move false e0 (e0 - k)) (sp_move false e0 (e0 - k) + d))) = sp_gpr g (k - d).
Proof.
  intros E. rewrite sp_gpr_cell, cell_set_set, sp_move_move. unfold sp_gpr, arr_set. rewrite list_insert_insert_eq.
  do 2 f_equal. by apply sp_move_ext.
Qed.
Lemma sp_gpr_0 : sp_gpr g 0 = g.
Proof.
  unfold sp_gpr. rewrite Z.sub_0_r. rewrite <- (sp_move_move _ (cell_e (arr g esp_i))) at 1.
  rewrite sp_move_back; [|apply rng_wrap; lia|done]. rewrite cell_set_same. unfold arr_set, arr. apply list_insert_id.
  apply list_lookup_lookup_total_lt. change (Z.to_nat esp_i) with 4%nat. lia.
Qed.

(** One push and one pop, seen this way. *)
Lemma push_view v k m : real_mode (xs m) -> ram_bus (xbus m) -> gpr (xcpu m) = sp_gpr g k ->
  0 <= k -> k + 2 <= u16 e0 -> ss_base m + u16 e0 <= top -> (ss_base m + (u16 e0 - k)) mod 2 = 0 ->
  exists m', kpush16 v m = Done tt m' /\ xs m' = xs m /\ xd m' = xd m /\ pc (xcpu m') = pc (xcpu m) /\ ram_bus (xbus m') /\
    gpr (xcpu m') = sp_gpr g (k + 2) /\ xworld m' = host_store (at_ (ss_base m + (u16 e0 - k - 2))) 2 (u16 v) (xworld m).
Proof.
  intros Hr Hb Eg Hk Hk2 Ht He.
  assert (esp m = sp_move false e0 (e0 - k)) as Ee by (unfold esp; rewrite Eg; apply sp_gpr_esp).
  assert (u16 (esp m) = u16 e0 - k) as Eu by (rewrite Ee, u16_sp_move; apply u16_sub; lia).
  destruct (kpush16_real v m) as (b & Hb' & E); [done..| |].
  { unfold room_below. rewrite Eu. split_and!; [lia|lia|done]. }
  rewrite Eu in E. eexists. split; [exact E|].
  split_and!; [reflexivity|reflexivity|reflexivity|exact Hb'| |reflexivity]. unfold put_esp, io_upd. xsimpl. cbn [gpr upd upd_gpr]. rewrite Eg, Ee.
  replace (sp_move false e0 (e0 - k) - 2) with (sp_move false e0 (e0 - k) + (-2)) by lia.
  replace (k + 2) with (k - (-2)) by lia. apply sp_gpr_move.
  rewrite <- Ee. replace (esp m + -2) with (esp m - 2) by lia. rewrite (u16_sub (esp m)), Eu by lia.
  rewrite (u16_sub e0) by lia. lia.
Qed.

Lemma pop_view k m : real_mode (xs m) -> ram_bus (xbus m) -> gpr (xcpu m) = sp_gpr g k -> d_w32 (xd m) = false ->
  2 <= k -> k <= u16 e0 -> ss_base m + u16 e0 <= top -> (ss_base m + (u16 e0 - k)) mod 2 = 0 ->
  exists m', pop_w m = Done (word_at (ss_base m + (u16 e0 - k)) 2 m) m' /\ xs m' = xs m /\ xd m' = xd m /\
    pc (xcpu m') = pc (xcpu m) /\ ram_bus (xbus m') /\ gpr (xcpu m') = sp_gpr g (k - 2) /\ xworld m' = xworld m.
Proof.
  intros Hr Hb Eg Hw Hk Hk2 Ht He.
  assert (esp m = sp_move false e0 (e0 - k)) as Ee by (unfold esp; rewrite Eg; apply sp_gpr_esp).
  assert (u16 (esp m) = u16 e0 - k) as Eu by (rewrite Ee, u16_sp_move; apply u16_sub; lia).
  assert (0 <= u16 e0 < 2 ^ 16) by (apply rng_wrap; lia).
  destruct (pop16_real m) as (b & Hb' & E); [done..| |done|].
  { unfold room_above. rewrite Eu. split_and!; [lia|lia|done]. }
  eexists. rewrite Eu in E. split; [exact E|].
  split_and!; [reflexivity|reflexivity|reflexivity|exact Hb'| |reflexivity].
  unfold put_esp. xsimpl. cbn [gpr upd upd_gpr]. rewrite Eg, Ee. apply sp_gpr_move.
  rewrite <- Ee. rewrite (u16_sub e0 (k - 2)) by lia. rewrite <- (u16_sub e0 (k - 2)) by lia.
  apply u16_add_back; [|lia]. rewrite Eu, (u16_sub e0) by lia. lia.
Qed.
End view.

(** ** Loading CS in real mode *)

Definition seg_put (seg sel : Z) (v : seg_view) (s : x86_state Dev) : x86_state Dev :=
  s <| sreg := arr_set (sreg s) seg (u16 sel) |> <| base := arr_set (base s) seg (u64 (v_base v)) |>
    <| limit := arr_set (limit s) seg (u32 (v_limit v)) |> <| ar := arr_set (ar s) seg (u8 (v_ar v)) |>
    <| dbit := arr_set (dbit s) seg (u8 (v_dbit v)) |>.

(** An array assignment on a machine whose processor state is [s]. *)
Lemma puta_run f `{!Upd f, !FieldArray f} n w i v m s : words n w (f s) -> 0 <= i < n ->
  puta f i v (m <| xs := s |>) = Done tt (m <| xs := s <| f := arr_set (f s) i (wrap (faw f) v) |> |>).
Proof.
  intros Hf Hi. unfold puta. rewrite (run_done _ _ (m <| xs := s |>) (arr (f s) i) (m <| xs := s |>)); [done|].
  destruct m. by apply (geta_ok f n w).
Qed.

Lemma xs_self m : m <| xs := xs m |> = m.
Proof. by destruct m. Qed.

Lemma seg_commit_real seg sel v m : x86_wf (xs m) -> tst (cr0 (xs m)) kCr0Pe = false -> 0 <= seg < 6 ->
  seg_commit seg sel v m = Done tt (m <| xs := seg_put seg sel v (xs m) |>).
Proof.
  intros Hw Hpe Hs. rewrite <- (xs_self m) at 1. unfold seg_commit, seg_put. destruct Hw.
  rewrite (run_done _ _ _ _ _ (puta_run sreg 6 16 seg sel m _ ltac:(eassumption) Hs)).
  set (s1 := (xs m) <| sreg := _ |>). assert (words 6 64 (base s1) /\ words 6 32 (limit s1) /\ words 6 8 (ar s1) /\ words 6 8 (dbit s1)
    /\ cr0 s1 = cr0 (xs m)) as (? & ? & ? & ? & E1) by done.
  rewrite (run_done _ _ _ _ _ (puta_run base 6 64 seg (v_base v) m s1 ltac:(eassumption) Hs)).
  change (base (xs m)) with (base s1). change (limit (xs m)) with (limit s1). change (ar (xs m)) with (ar s1).
  change (dbit (xs m)) with (dbit s1). clearbody s1. set (s2 := s1 <| base := _ |>).
  rewrite (run_done _ _ _ _ _ (puta_run limit 6 32 seg (v_limit v) m s2 ltac:(eassumption) Hs)).
  change (limit s1) with (limit s2). change (ar s1) with (ar s2). change (dbit s1) with (dbit s2).
  assert (words 6 8 (ar s2) /\ words 6 8 (dbit s2) /\ cr0 s2 = cr0 (xs m)) as (? & ? & E2) by done. clearbody s2.
  set (s3 := s2 <| limit := _ |>).
  rewrite (run_done _ _ _ _ _ (puta_run ar 6 8 seg (v_ar v) m s3 ltac:(eassumption) Hs)).
  change (ar s2) with (ar s3). change (dbit s2) with (dbit s3).
  assert (words 6 8 (dbit s3) /\ cr0 s3 = cr0 (xs m)) as (? & E3) by done. clearbody s3. set (s4 := s3 <| ar := _ |>).
  rewrite (run_done _ _ _ _ _ (puta_run dbit 6 8 seg (v_dbit v) m s4 ltac:(eassumption) Hs)).
  change (dbit s3) with (dbit s4). assert (cr0 s4 = cr0 (xs m)) as E4 by done. clearbody s4. set (s5 := s4 <| dbit := _ |>).
  assert (cr0 s5 = cr0 (xs m)) as E5 by done. clearbody s5.
  rewrite (run_done pe _ (m <| xs := s5 |>) false (m <| xs := s5 |>)) by (unfold pe, getst, gets; xsimpl; by rewrite E5, Hpe).
  rewrite (run_done _ _ (m <| xs := s5 |>) (fbit (fl s5) fl_vm) (m <| xs := s5 |>)) by done.
  by rewrite (run_done _ _ (m <| xs := s5 |>) s5 (m <| xs := s5 |>)) by done.
Qed.

(** The view real mode makes of a selector. *)
Definition real_view (sel : Z) : seg_view := SegView (sel .<< 4) 0xffff 0 0x93 0.

Lemma load_synth_real sel m : real_mode (xs m) -> fbit (fl (xs m)) fl_vm = false ->
  load_synth cs_i sel m = Done tt (m <| xs := seg_put cs_i sel (real_view sel) (xs m) |>).
Proof.
  intros Hr Hvm. unfold load_synth, seg_synth. rewrite (run_done _ _ m (real_view sel) m).
  - apply seg_commit_real; [apply Hr|apply Hr|unfold cs_i; lia].
  - unfold flag, getst. rewrite (run_done _ _ m false m) by (unfold gets; by rewrite Hvm). done.
Qed.

Lemma seg_put_typed seg sel v s : x86_wf s -> x86_wf (seg_put seg sel v s).
Proof. unfold seg_put. typed_upd. Qed.

Lemma seg_put_cs_real sel s : real_mode s -> real_mode (seg_put cs_i sel (real_view sel) s).
Proof.
  intros [Hw Hpe Hpg Ha Hd Hs Hc]. split; [by apply seg_put_typed|done..| |].
  - unfold seg_put. xsimpl. by rewrite arr_set_ne by done.
  - unfold seg_put. xsimpl. destruct (wf_ar _ Hw) as [Hl _]. rewrite arr_set_eq by (rewrite Hl; unfold cs_i; lia). reflexivity.
Qed.

Lemma fl_real w s : real_mode s -> rng 32 w -> real_mode (s <| fl := w |>).
Proof. intros [Hw Hpe Hpg Ha Hd Hs Hc] Hf. split; [|done..]. revert Hw. typed_upd. Qed.

(** ** Delivery and return *)

(** A processor about to take vector [vec] in real mode: the vector's entry
    and three words below the stack pointer are in RAM, word-aligned. *)
Record int_ready (vec : Z) m : Prop := {
  ir_real : real_mode (xs m);
  ir_bus : ram_bus (xbus m);
  ir_cpu : cpu_wf (xcpu m);
  ir_vm : fbit (fl (xs m)) fl_vm = false;
  ir_w16 : d_w32 (xd m) = false;
  ir_vec : 0 <= vec < 256;
  ir_table : idtr (xs m) + vec * 4 + 4 <= top;
  ir_table_even : idtr (xs m) mod 2 = 0;
  ir_room : 6 <= u16 (esp m);
  ir_stack : ss_base m + u16 (esp m) <= top;
  ir_stack_even : (ss_base m + u16 (esp m)) mod 2 = 0;
}.

(** The vector's table entry. *)
Definition vector_ip (vec : Z) m : Z := word_at (idtr (xs m) + vec * 4) 2 m.
Definition vector_cs (vec : Z) m : Z := word_at (idtr (xs m) + vec * 4 + 2) 2 m.

(** EFLAGS as the handler finds it. *)
Definition handler_fl (w : Z) : Z := fput (fput w fl_if false) fl_tf false.

(** Memory after the three pushes. *)
Definition int_frame_mem (a img cs ip : Z) (w : W) : W :=
  host_store (at_ (a - 6)) 2 (u16 ip) (host_store (at_ (a - 4)) 2 (u16 cs) (host_store (at_ (a - 2)) 2 (u16 img) w)).

Lemma int_frame_words a img cs ip w :
  host_load (at_ (a - 6)) 2 (int_frame_mem a img cs ip w) = u16 ip /\
  host_load (at_ (a - 4)) 2 (int_frame_mem a img cs ip w) = u16 cs /\
  host_load (at_ (a - 2)) 2 (int_frame_mem a img cs ip w) = u16 img.
Proof.
  unfold int_frame_mem. rewrite !load_same, !(load_other (a - 6)), !load_same, !(load_other (a - 4)), !load_same by lia.
  change (8 * 2) with 16. unfold wrap. by rewrite !Z.mod_mod by lia.
Qed.

Lemma int_real_runs vec ip img m : int_ready vec m ->
  exists m1, int_real vec ip img m = Done tt m1 /\ ram_bus (xbus m1) /\ d_w32 (xd m1) = false /\
    gpr (xcpu m1) = sp_gpr (gpr (xcpu m)) 6 /\ pc (xcpu m1) = vector_ip vec m /\
    xs m1 = seg_put cs_i (vector_cs vec m) (real_view (vector_cs vec m)) ((xs m) <| fl := handler_fl (fl (xs m)) |>) /\
    xworld m1 = int_frame_mem (ss_base m + u16 (esp m)) img (arr (sreg (xs m)) cs_i) ip (xworld m).
Proof.
  intros Hi. destruct Hi as [Hr Hb [[Hg _] _] Hvm Hw Hv Ht Hte Hroom Hst Hse].
  pose proof (wf_idtr _ (rm_wf _ Hr)) as Hidt. pose proof rw_top.
  unfold int_real. rewrite (run_done _ _ m (xs m) m) by done. cbv zeta.
  replace (u64 (idtr (xs m) + vec * 4)) with (idtr (xs m) + vec * 4) by (symmetry; apply wrap_small; unfold rng in *; lia).
  unfold vector_ip, vector_cs. unfold rng in Hidt.
  assert (0 <= idtr (xs m) + vec * 4 /\ (idtr (xs m) + vec * 4) mod 2 = 0 /\ (idtr (xs m) + vec * 4 + 2) mod 2 = 0)
    as (Ht0 & Ht2 & Ht3) by (Z.to_euclidean_division_equations; lia).
  remember (idtr (xs m) + vec * 4) as t eqn:Et. clear Et.
  destruct (krd16_real t m Hr Hb Ht0 ltac:(lia) Ht2) as (b1 & Hb1 & E1). rewrite (run_done _ _ _ _ _ E1).
  set (m1 := m <| xbus := b1 |>).
  replace (u64 (t + 2)) with (t + 2) by (symmetry; apply wrap_small; unfold rng; lia).
  destruct (krd16_real (t + 2) m1 Hr Hb1 ltac:(lia) ltac:(lia) Ht3) as (b2 & Hb2 & E2). rewrite (run_done _ _ _ _ _ E2).
  set (m2 := m1 <| xbus := b2 |>). set (g := gpr (xcpu m)).
  assert (gpr (xcpu m2) = sp_gpr g 0) as Eg2 by (symmetry; by apply sp_gpr_0).
  change (esp m) with (cell_e (arr g esp_i)) in *.
  destruct (push_view g Hg img 0 m2) as (m3 & E3 & Ex3 & Ed3 & Ep3 & Hb3 & Eg3 & Ew3);
    [done|done|done|lia|lia|done|by rewrite Z.sub_0_r|].
  rewrite (run_done _ _ _ _ _ E3). assert (ss_base m3 = ss_base m) as Es3 by (unfold ss_base; by rewrite Ex3).
  assert (real_mode (xs m3)) as Hr3 by (by rewrite Ex3).
  destruct (push_view g Hg (arr (sreg (xs m)) cs_i) 2 m3) as (m4 & E4 & Ex4 & Ed4 & Ep4 & Hb4 & Eg4 & Ew4);
    [done|done|done|lia|lia|by rewrite Es3|rewrite Es3; clear -Hse; Z.to_euclidean_division_equations; lia|].
  rewrite (run_done (mbind' (geta sreg cs_i) _) _ m3 tt m4).
  2: { rewrite (run_done _ _ m3 (arr (sreg (xs m)) cs_i) m3); [exact E4|].
       rewrite (geta_ok sreg 6 16 cs_i m3), Ex3; [done|apply Hr3|unfold cs_i; lia]. }
  assert (real_mode (xs m4)) as Hr4 by (by rewrite Ex4).
  assert (ss_base m4 = ss_base m) as Es4 by (unfold ss_base; by rewrite Ex4, Ex3).
  destruct (push_view g Hg ip 4 m4) as (m5 & E5 & Ex5 & Ed5 & Ep5 & Hb5 & Eg5 & Ew5);
    [done|done|done|lia|lia|by rewrite Es4|rewrite Es4; clear -Hse; Z.to_euclidean_division_equations; lia|].
  rewrite (run_done _ _ _ _ _ E5). set (s5 := (xs m) <| fl := handler_fl (fl (xs m)) |>).
  assert (xs m5 = xs m) as Exs by (by rewrite Ex5, Ex4, Ex3).
  rewrite (run_done _ _ m5 tt (m5 <| xs := (xs m) <| fl := fput (fl (xs m)) fl_if false |> |>)) by (unfold set_flag, modst, modify; by rewrite Exs).
  rewrite (run_done _ _ _ tt (m5 <| xs := s5 |>)) by done.
  assert (real_mode s5) as Hr5.
  { apply fl_real; [done|]. apply rng_fput; [by vm_compute|]. apply rng_fput; [by vm_compute|]. apply Hr. }
  assert (fbit (fl s5) fl_vm = false) as Hvm5 by (unfold s5; xsimpl; unfold handler_fl; by rewrite !fput_spec, Hvm by done).
  assert (s5 = (xs m) <| fl := handler_fl (fl (xs m)) |>) as Es5 by done. clearbody s5.
  pose proof (load_synth_real (word_at (t + 2) 2 m1) (m5 <| xs := s5 |>)) as Els. specialize (Els Hr5 Hvm5).
  rewrite (run_done _ _ _ _ _ Els).
  eexists. split; [reflexivity|]. split_and!; [exact Hb5| | | | |].
  - change (d_w32 (xd m5) = false). by rewrite Ed5, Ed4, Ed3.
  - exact Eg5.
  - change (u32 (word_at t 2 m) = word_at t 2 m). apply wrap_small, (rng_mono 16); [lia|]. by apply (word_at_rng t 2).
  - reflexivity.
  - change (xworld m5 = int_frame_mem (ss_base m + u16 (cell_e (arr g esp_i))) img (arr (sreg (xs m)) cs_i) ip (xworld m)).
    rewrite Ew5, Ew4, Ew3, Es4, Es3. unfold int_frame_mem. change (ss_base m2) with (ss_base m).
    change (xworld m2) with (xworld m). repeat f_equal; lia.
Qed.

(** IRET on a frame of three words. *)
Lemma iret_real_runs g m ip cs fw : Z.of_nat (length g) = 32 -> real_mode (xs m) -> ram_bus (xbus m) -> d_w32 (xd m) = false ->
  fbit (fl (xs m)) fl_vm = false -> gpr (xcpu m) = sp_gpr g 6 -> 6 <= u16 (cell_e (arr g esp_i)) ->
  let a := ss_base m + u16 (cell_e (arr g esp_i)) in
  a <= top -> a mod 2 = 0 -> word_at (a - 6) 2 m = ip -> word_at (a - 4) 2 m = cs -> word_at (a - 2) 2 m = fw ->
  exists m', iret_real m = Done tt m' /\ gpr (xcpu m') = g /\ pc (xcpu m') = ip /\
    xs m' = (seg_put cs_i cs (real_view cs) (xs m))
              <| fl := u32 ((fl (xs m) .& 0xffff0000) .| ((fw .& 0xffff) .| 2)) |>.
Proof.
  intros Hg Hr Hb Hw Hvm Eg Hroom a Ht He Hip Hcs Hfw. unfold iret_real.
  destruct (pop_view g Hg 6 m) as (m1 & E1 & Ex1 & Ed1 & Ep1 & Hb1 & Eg1 & Ew1);
    [done|done|done|done|lia|lia|done|clear -He; unfold a in He; Z.to_euclidean_division_equations; lia|].
  replace (ss_base m + (u16 (cell_e (arr g esp_i)) - 6)) with (a - 6) in E1 by (unfold a; lia).
  rewrite (run_done _ _ _ _ _ E1), Hip. assert (ss_base m1 = ss_base m) as Es1 by (unfold ss_base; by rewrite Ex1).
  destruct (pop_view g Hg 4 m1) as (m2 & E2 & Ex2 & Ed2 & Ep2 & Hb2 & Eg2 & Ew2);
    [by rewrite Ex1|done|done|by rewrite Ed1|lia|lia|by rewrite Es1|rewrite Es1; clear -He; unfold a in He; Z.to_euclidean_division_equations; lia|].
  replace (ss_base m1 + (u16 (cell_e (arr g esp_i)) - 4)) with (a - 4) in E2 by (unfold a; lia).
  rewrite (run_done _ _ _ _ _ E2). unfold word_at in *. rewrite Ew1, Hcs.
  assert (ss_base m2 = ss_base m) as Es2 by (unfold ss_base; by rewrite Ex2, Ex1).
  destruct (pop_view g Hg 2 m2) as (m3 & E3 & Ex3 & Ed3 & Ep3 & Hb3 & Eg3 & Ew3);
    [by rewrite Ex2, Ex1|done|done|by rewrite Ed2, Ed1|lia|lia|by rewrite Es2|rewrite Es2; clear -He; unfold a in He; Z.to_euclidean_division_equations; lia|].
  replace (ss_base m2 + (u16 (cell_e (arr g esp_i)) - 2)) with (a - 2) in E3 by (unfold a; lia).
  rewrite (run_done _ _ _ _ _ E3). unfold word_at in *. rewrite Ew2, Ew1, Hfw.
  assert (xs m3 = xs m) as Exs by (by rewrite Ex3, Ex2, Ex1). assert (rng 16 ip /\ rng 16 cs) as [Rip Rcs].
  { rewrite <- Hip, <- Hcs. split; by apply (word_at_rng _ 2 m). }
  rewrite (wrap_small 16 cs) by done. pose proof (load_synth_real cs m3) as Els. rewrite Exs in Els.
  rewrite (run_done _ _ _ _ _ (Els Hr Hvm)). set (s4 := seg_put cs_i cs (real_view cs) (xs m)).
  assert (fl s4 = fl (xs m)) as Ef by done. clearbody s4.
  unfold SetEip. eexists. split.
  { unfold mbind', setc, setd, getd, modify, gets. cbv beta iota. xsimpl. rewrite Ed3, Ed2, Ed1, Hw. reflexivity. }
  split_and!; [etrans; [exact Eg3|by apply sp_gpr_0]|change (u32 ip = ip); by apply wrap_small, (rng_mono 16)|]. by rewrite <- Ef.
Qed.

Lemma handler_fl_bit w i : 0 <= i -> Z.testbit (handler_fl w) i = if (i =? fl_if) || (i =? fl_tf) then false else Z.testbit w i.
Proof.
  intros Hi. unfold handler_fl. change (Z.testbit (fput (fput w fl_if false) fl_tf false) i) with (fbit (fput (fput w fl_if false) fl_tf false) i).
  rewrite !fput_spec by done. unfold fbit. by destruct (i =? fl_tf), (i =? fl_if).
Qed.

(** The flags an interrupt and its return leave: the old ones with bit 1 set. *)
Lemma iret_flags w rf : rng 32 w ->
  u32 ((handler_fl w .& 0xffff0000) .| ((u16 (w .| 2 .| mif rf 0x10000) .& 0xffff) .| 2)) = w .| 2.
Proof.
  intros Hw. apply rng_testbit in Hw as [_ Hw]; [|lia]. apply Z.bits_inj'; intros i Hi.
  rewrite wrap_testbit, !Z.lor_spec, !Z.land_spec, wrap_testbit, !Z.lor_spec, handler_fl_bit by lia.
  change 0xffff0000 with (Z.ones 16 .<< 16). change 0xffff with (Z.ones 16). rewrite Z.shiftl_spec by lia.
  destruct (Z.ltb_spec i 16).
  - rewrite (Z.testbit_neg_r _ (i - 16)), Z.ones_spec_low by lia. rewrite (proj2 (Z.ltb_lt i 32)) by lia.
    assert (Z.testbit (mif rf 0x10000) i = false) as ->.
    { destruct rf; [|apply Z.bits_0]. change (mif true 0x10000) with (2 ^ 16). apply Z.pow2_bits_false. lia. }
    rewrite andb_false_r, andb_true_r, orb_false_r. simpl. by destruct (Z.testbit w i), (Z.testbit 2 i).
  - rewrite (proj2 (Z.eqb_neq i fl_if)), (proj2 (Z.eqb_neq i fl_tf)) by (unfold fl_if, fl_tf; lia). simpl.
    assert (Z.testbit 2 i = false) as -> by (change 2 with (2 ^ 1); apply Z.pow2_bits_false; lia).
    rewrite !orb_false_r. destruct (Z.ltb_spec i 32).
    + rewrite Z.ones_spec_low by lia. by rewrite andb_true_r.
    + simpl. symmetry. apply Hw. lia.
Qed.

(** C12: a real-mode interrupt and its return are inverse: in real mode with VM clear, the A20 gate
    open, no breakpoint armed, a 16-bit operand size and a 16-bit stack with room for six bytes,
    with the vector's table entry and the stack word-aligned in a window of RAM (a region of the
    memory bus that may lie over others, as RAM does over the PC's open bus), delivering a vector
    enters its handler with IF and TF clear, and IRET from there comes back to the given instruction
    pointer, code segment, general registers and flags. *)
Theorem int_iret_roundtrip vec ip origin m : int_ready vec m ->
  exists m1 m2, do_int vec ip origin 0 m = Done tt m1 /\ iret_real m1 = Done tt m2 /\
    (pc (xcpu m1) = vector_ip vec m /\ arr (sreg (xs m1)) cs_i = vector_cs vec m /\
     fbit (fl (xs m1)) fl_if = false /\ fbit (fl (xs m1)) fl_tf = false) /\
    (pc (xcpu m2) = u16 ip /\ arr (sreg (xs m2)) cs_i = arr (sreg (xs m)) cs_i /\
     arr (base (xs m2)) cs_i = arr (sreg (xs m)) cs_i .<< 4 /\ gpr (xcpu m2) = gpr (xcpu m) /\
     fl (xs m2) = fl (xs m) .| 2).
Proof.
  intros Hi. set (img := fl (xs m) .| 2 .| mif (bool_decide (origin = kIntException) && int_is_fault vec) 0x10000).
  destruct (int_real_runs vec ip img m Hi) as (m1 & E1 & Hb1 & Hd1 & Eg1 & Ep1 & Ex1 & Ew1).
  destruct Hi as [Hr Hb [[Hg _] _] Hvm Hw Hv Ht Hte Hroom Hst Hse].
  destruct (rm_wf _ Hr). set (cs0 := arr (sreg (xs m)) cs_i) in *. set (a := ss_base m + u16 (esp m)) in *.
  assert (rng 16 cs0) as Rcs by (apply rng_arr; [lia|apply wf_sreg]).
  assert (real_mode ((xs m) <| fl := handler_fl (fl (xs m)) |>)) as Hrf.
  { apply fl_real; [done|]. unfold handler_fl. apply rng_fput; [by vm_compute|]. by apply rng_fput; [vm_compute|]. }
  assert (ss_base m1 = ss_base m) as Es1.
  { unfold ss_base. rewrite Ex1. unfold seg_put. xsimpl. by rewrite arr_set_ne by done. }
  destruct (int_frame_words a img cs0 ip (xworld m)) as (W6 & W4 & W2). rewrite <- Ew1 in W6, W4, W2.
  rewrite (wrap_small 16 cs0) in W4 by done.
  destruct (iret_real_runs (gpr (xcpu m)) m1 (u16 ip) cs0 (u16 img)) as (m2 & E2 & Eg2 & Ep2 & Ex2).
  all: try (rewrite Es1; fold (esp m); fold a; assumption).
  { done. } { rewrite Ex1. by apply seg_put_cs_real. } { done. } { done. }
  { rewrite Ex1. unfold seg_put. xsimpl. unfold fbit. rewrite handler_fl_bit by done. exact Hvm. }
  { done. } { done. }
  assert (rng 16 (vector_cs vec m)) as Rv by (by apply (word_at_rng _ 2)).
  assert (forall (l : list Z) x, Z.of_nat (length l) = 6 -> arr (arr_set l cs_i x) cs_i = x) as Hset
    by (intros l x Hl; apply arr_set_eq; rewrite Hl; unfold cs_i; lia).
  exists m1, m2. split; [|split; [exact E2|split]].
  - unfold do_int. rewrite (run_done _ _ m (fl (xs m)) m) by done.
    rewrite (run_done pe _ m false m) by (unfold pe, getst, gets; by rewrite (rm_pe _ Hr)). exact E1.
  - rewrite Ex1. unfold seg_put. xsimpl. unfold fbit. rewrite !handler_fl_bit, Hset, wrap_small by (done || apply wf_sreg). done.
  - rewrite Ex2, Ex1. unfold seg_put. xsimpl. rewrite !Hset, (wrap_small 16 cs0) by (rewrite ?length_arr_set; done || apply wf_sreg || apply wf_base).
    split_and!; [done|done| |done|by apply iret_flags].
    apply wrap_small. cbn [v_base real_view]. rewrite Z.shiftl_mul_pow2 by lia. unfold rng in *. lia.
Qed.
End real.

(** ** On the board *)

Lemma pc_get h w : hget (Ops:=pc_ops) h w = u8 (mem_get (pc_ram w) (hp_off h)).
Proof. unfold hget, host_load, pc_devices, pc_load. simpl. by rewrite Z.lor_0_r. Qed.

Lemma pc_read h n w : HostMem.host_read (Ops:=pc_ops) h n w = u8 <$> load_bytes (pc_ram w) (hp_off h) n.
Proof. revert h; induction n as [|n IH]; intros h; cbn [HostMem.host_read load_bytes]; [done|]. by rewrite pc_get, IH. Qed.

Lemma pc_set h b w : rng 8 b -> hset (Ops:=pc_ops) h b w = mkPc (<[hp_off h := b]> (pc_ram w)) (pc_log w).
Proof.
  intros Hb. unfold hset, host_store, pc_devices, pc_store, mem_store. change (Z.to_nat 1) with 1%nat. cbn [le_bytes store_bytes].
  by rewrite wrap_small by done.
Qed.

#[export] Instance pc_words : HostWords pc_ops unit PcWorld.
Proof.
  split; [split|..].
  - intros h w. rewrite pc_get. apply rng_wrap. lia.
  - intros h b w Hb. rewrite pc_get, pc_set by done. simpl. unfold mem_get. rewrite lookup_insert_eq. by apply wrap_small.
  - intros h h' b w Hne. rewrite !pc_get. unfold hset, host_store, pc_devices, pc_store, mem_store.
    change (Z.to_nat 1) with 1%nat. cbn [le_bytes store_bytes pc_ram]. unfold mem_get. rewrite lookup_insert_ne; [done|].
    destruct h as [[] o], h' as [[] o']. simpl. intros ->. done.
  - intros h n w Hn. by rewrite pc_read.
  - intros h n v w Hn. unfold host_store, pc_devices, pc_store, mem_store. clear Hn. destruct w as [ram log]. cbn [pc_ram pc_log].
    revert h v ram. induction (Z.to_nat n) as [|k IH]; intros h v ram; cbn [le_bytes store_bytes HostMem.host_write]; [done|].
    rewrite pc_set by (apply (rng_wrap 8); lia). cbn [pc_ram pc_log]. by rewrite <- IH.
Qed.

(** INT 0x21 at 0x7c00: the vector points to 1000:0100, the stack is at
    0000:7000, IF is set. *)
Definition int_pc : XMach pc_ops unit PcWorld :=
  let m := pc_at false 0 (poke 0x84 [0x00; 0x01; 0x00; 0x10] ∅) [1; 2; 3; 4; 0x7000; 6; 7; 8] 0x7c00 in
  m <| xs := (xs m) <| idtr_limit := 0x3ff |> <| fl := 0x202 |> <| ar := replicate 6 0x93 |> |>.

#[export] Instance pc_window : RamWindow pc_mem_bus (HostPtr tt 0) 0x100000.
Proof.
  split; [apply pc_mem_bus_wf|lia|]. intros a n Ha Hn Ht. exists pc_ram_region, (HostPtr tt 0). split; [by apply pc_decode|].
  split; [done|]. unfold hp_add. cbn. by rewrite Z.sub_0_r.
Qed.

Lemma int_pc_real : real_mode (xs int_pc).
Proof.
  split; [|vm_compute; reflexivity..].
  unfold int_pc, pc_at. xsimpl. unfold x86_reset_state. xsimpl. wf_concrete.
Qed.

Lemma int_pc_cpu : cpu_wf (xcpu int_pc).
Proof.
  split; [split; [reflexivity|]|unfold rng; vm_compute; split; congruence].
  change (gpr (xcpu int_pc)) with ([1; 2; 3; 4; 0x7000; 6; 7; 8] ++ replicate 24 0).
  apply Forall_app_2; [repeat (apply Forall_cons_2; [unfold rng; lia|]); apply Forall_nil_2|].
  apply Forall_replicate. unfold rng. lia.
Qed.

Lemma int_pc_ready : int_ready pc_mem_bus 0x100000 0x21 int_pc.
Proof.
  split; [apply int_pc_real| |apply int_pc_cpu|vm_compute; try reflexivity; try (split; congruence); congruence..].
  split; [apply pc_mem_bus_wf|reflexivity].
Qed.

Lemma int_iret_roundtrip_witness : exists m1 m2,
  do_int 0x21 0x7c02 kIntSoft 0 int_pc = Done tt m1 /\ iret_real m1 = Done tt m2 /\
  pc (xcpu m1) = 0x100 /\ arr (sreg (xs m1)) cs_i = 0x1000 /\ pc (xcpu m2) = 0x7c02 /\ fl (xs m2) = 0x202.
Proof.
  destruct (int_iret_roundtrip pc_mem_bus (HostPtr tt 0) 0x100000 0x21 0x7c02 kIntSoft int_pc int_pc_ready)
    as (m1 & m2 & E1 & E2 & (Hp & Hc & _) & (Hp2 & _ & _ & _ & Hf)).
  exists m1, m2. split; [exact E1|]. split; [exact E2|]. rewrite Hp, Hc, Hp2, Hf. vm_compute. done.
Defined.
