(* ===== verification/Lapic.v ===== *)
(** * Local APIC (device/intc/lapic.c)

    The register page, the request, in-service and trigger-mode vector sets,
    the INTR level the chip drives, and the timer derived from the host clock.
    A call that reads the clock takes its readings as arguments.  The end-of-
    interrupt sink is the board's: a function on the chip and whatever state
    [W] lies behind it, since the I/O APIC it reaches may deliver to this very
    chip before the write returns. *)

From S2P Require Import Prelude.

Definition kLapicId := 0x20.
Definition kLapicVersion := 0x30.
Definition kLapicTpr := 0x80.
Definition kLapicPpr := 0xA0.
Definition kLapicEoi := 0xB0.
Definition kLapicLdr := 0xD0.
Definition kLapicDfr := 0xE0.
Definition kLapicSvr := 0xF0.
Definition kLapicIsr := 0x100.
Definition kLapicTmr := 0x180.
Definition kLapicIrr := 0x200.
Definition kLapicEsr := 0x280.
Definition kLapicIcrLo := 0x300.
Definition kLapicLvtTimer := 0x320.
Definition kLapicTimerInitial := 0x380.
Definition kLapicTimerCurrent := 0x390.
Definition kLapicTimerDivide := 0x3E0.
Definition kSvrEnable := 0x100.
Definition kLvtVector := 0xff.
Definition kLvtMasked := 0x10000.
Definition kLvtModeShift := 17.
Definition kLvtModePeriodic := 1.
Definition kLapicBase := 0xFEE00000.
Definition kLapicTimerFreq := 100000000.

(** [l_wired]: an INTR sink is set; [l_out]: the levels it got, oldest first. *)
Record LapicDevice := mkLapic {
  l_reg : list Z; l_irr : list Z; l_isr : list Z; l_tmr : list Z;
  l_timer_base : Z; l_timer_count : Z; l_irq_level : bool; l_wired : bool; l_out : list bool;
}.
Definition eta_lapic (d : LapicDevice) : LapicDevice :=
  mkLapic (l_reg d) (l_irr d) (l_isr d) (l_tmr d) (l_timer_base d) (l_timer_count d) (l_irq_level d) (l_wired d) (l_out d).
#[export] Instance upd_l_reg : Upd l_reg := ltac:(mk_upd eta_lapic l_reg).
#[export] Instance upd_l_irr : Upd l_irr := ltac:(mk_upd eta_lapic l_irr).
#[export] Instance upd_l_isr : Upd l_isr := ltac:(mk_upd eta_lapic l_isr).
#[export] Instance upd_l_tmr : Upd l_tmr := ltac:(mk_upd eta_lapic l_tmr).
#[export] Instance upd_l_timer_base : Upd l_timer_base := ltac:(mk_upd eta_lapic l_timer_base).
#[export] Instance upd_l_timer_count : Upd l_timer_count := ltac:(mk_upd eta_lapic l_timer_count).
#[export] Instance upd_l_irq_level : Upd l_irq_level := ltac:(mk_upd eta_lapic l_irq_level).
#[export] Instance upd_l_wired : Upd l_wired := ltac:(mk_upd eta_lapic l_wired).
#[export] Instance upd_l_out : Upd l_out := ltac:(mk_upd eta_lapic l_out).

Definition lreg (d : LapicDevice) (off : Z) : Z := arr (l_reg d) (off / 16).
Definition set_lreg (d : LapicDevice) (off v : Z) : LapicDevice := d <| l_reg := arr_set (l_reg d) (off / 16) v |>.

(** ** Vector sets *)

(** The loop ends on the first set bit; eight rounds reach every bit. *)
Fixpoint high_bit_from (n : nat) (bits k : Z) : Z :=
  match n with
  | O => k
  | S n => if tst bits 0x80 then k else high_bit_from n (u8 (bits .<< 1)) (k - 1)
  end.
Definition HighBit (bits : Z) : Z := high_bit_from 8 bits 7.

Fixpoint highest_from (n : nat) (set : list Z) (i : Z) : Z :=
  match n with
  | O => -1
  | S n => if negb (arr set i =? 0) then (i .<< 3) + HighBit (arr set i) else highest_from n set (i - 1)
  end.
Definition HighestVector (set : list Z) : Z := highest_from 30 set 31.

Definition VectorSet (set : list Z) (v : Z) : list Z := arr_set set (v .>> 3) (arr set (v .>> 3) .| (1 .<< (v .& 7))).
Definition VectorClear (set : list Z) (v : Z) : list Z := arr_set set (v .>> 3) (arr set (v .>> 3) &~ (1 .<< (v .& 7))).

(** ** Priority and the INTR line *)

Definition ProcessorPriority (d : LapicDevice) : Z :=
  let ppr := (lreg d kLapicTpr .>> 4) .& 0xf in
  let isr := HighestVector (l_isr d) in
  if (0 <=? isr) && (ppr <? isr .>> 4) then isr .>> 4 else ppr.

Definition Deliverable (d : LapicDevice) : bool :=
  if negb (tst (lreg d kLapicSvr) kSvrEnable) then false
  else let vec := HighestVector (l_irr d) in (0 <=? vec) && (ProcessorPriority d <? vec .>> 4).

Definition UpdateIrq (d : LapicDevice) : LapicDevice :=
  let level := Deliverable d in
  if eqb level (l_irq_level d) then d
  else
    let d := d <| l_irq_level := level |> in
    if l_wired d then d <| l_out := l_out d ++ [level] |> else d.

Definition LapicDeliver (d : LapicDevice) (vector : Z) (level_triggered : bool) : LapicDevice :=
  if (vector <? 16) || (255 <? vector) then d
  else
    let d := d <| l_irr := VectorSet (l_irr d) vector |> in
    let d := d <| l_tmr := if level_triggered then VectorSet (l_tmr d) vector else VectorClear (l_tmr d) vector |> in
    UpdateIrq d.

(** [-1]: nothing for the processor. *)
Definition LapicAcknowledge (d : LapicDevice) : Z * LapicDevice :=
  if negb (tst (lreg d kLapicSvr) kSvrEnable) then (-1, d)
  else if negb (Deliverable d) then (-1, d)
  else
    let vec := HighestVector (l_irr d) in
    let d := d <| l_irr := VectorClear (l_irr d) vec |> in
    let d := d <| l_isr := VectorSet (l_isr d) vec |> in
    (vec, UpdateIrq d).

(** ** Timer *)

Definition TimerDivisor (tdcr : Z) : Z := arr [2; 4; 8; 16; 32; 64; 128; 1] (tdcr .& 7).
Definition timer_rate (d : LapicDevice) : Z := kLapicTimerFreq / TimerDivisor (lreg d kLapicTimerDivide).

Definition CountsElapsed (d : LapicDevice) (now : Z) : Z :=
  let us := now - l_timer_base d in
  if us <=? 0 then 0
  else
    let counts := u64 (us * timer_rate d) / 1000000 in
    if 0xffffffff <? counts then 0xffffffff else counts.

Definition TimerCurrent (d : LapicDevice) (now : Z) : Z :=
  if l_timer_count d =? 0 then 0
  else
    let burned := CountsElapsed d now in
    if l_timer_count d <=? burned then 0 else l_timer_count d - burned.

Definition TimerArm (d : LapicDevice) (count now : Z) : LapicDevice :=
  d <| l_timer_count := count |> <| l_timer_base := now |>.

Definition TimerExpire (d : LapicDevice) (now : Z) : LapicDevice :=
  let lvt := lreg d kLapicLvtTimer in
  let d := if negb (tst lvt kLvtMasked) && (16 <=? lvt .& kLvtVector) then LapicDeliver d (lvt .& kLvtVector) false else d in
  let initial := lreg d kLapicTimerInitial in
  if ((lvt .>> kLvtModeShift) .& 3 =? kLvtModePeriodic) && negb (initial =? 0) then TimerArm d initial now
  else d <| l_timer_count := 0 |>.

(** [now]: the reading the test uses; [now2]: the one a re-armed count starts from. *)
Definition LapicPoll (d : LapicDevice) (now now2 : Z) : LapicDevice :=
  if l_timer_count d =? 0 then d
  else if CountsElapsed d now <? l_timer_count d then d
  else TimerExpire d now2.

Definition LapicNextEventUs (d : LapicDevice) (now : Z) : Z :=
  if l_timer_count d =? 0 then 0
  else
    let burned := CountsElapsed d now in
    if l_timer_count d <=? burned then 0
    else
      let per_sec := timer_rate d in
      let left := l_timer_count d - burned in
      (left * 1000000 + per_sec - 1) / per_sec.

(** ** The register page *)

(** Which vector set an offset of the set registers shows, and where it starts. *)
Definition set_at (d : LapicDevice) (off : Z) : list Z * Z :=
  if off <? kLapicTmr then (l_isr d, kLapicIsr)
  else if off <? kLapicIrr then (l_tmr d, kLapicTmr) else (l_irr d, kLapicIrr).

(** [reg] has 64 entries for the 256 slots of the page: [None] is an access
    past them. *)
Definition reg_at {A} (off : Z) (a : A) : option A := if off / 16 <? 0x40 then Some a else None.

Definition LapicRead (d : LapicDevice) (addr now : Z) : option Z :=
  let off := u64 (addr - kLapicBase) in
  if negb (off .& 0xf =? 0) then Some 0
  else if (kLapicIsr <=? off) && (off <? kLapicIrr + 0x20) then
    let '(set, base) := set_at d off in
    let i := (off - base) / 16 * 4 in
    Some (arr set i .| (arr set (i + 1) .<< 8) .| (arr set (i + 2) .<< 16) .| (arr set (i + 3) .<< 24))
  else
    switch off
      [(kLapicVersion, Some 0x50014);
       (kLapicId, Some (lreg d off .& 0xff000000));
       (kLapicPpr, Some (ProcessorPriority d .<< 4));
       (kLapicTimerCurrent, Some (TimerCurrent d now));
       (kLapicIcrLo, Some (lreg d off &~ (1 .<< 12)))]
      (reg_at off (lreg d off)).

Section write.
Context {W : Type} (eoi : option (Z -> LapicDevice * W -> LapicDevice * W)).

Definition write_eoi (d : LapicDevice) (w : W) : LapicDevice * W :=
  let vec := HighestVector (l_isr d) in
  if vec <? 0 then (d, w)
  else
    let d := d <| l_isr := VectorClear (l_isr d) vec |> in
    let '(d, w) :=
      match eoi with
      | Some sink => if tst (arr (l_tmr d) (vec .>> 3)) (1 .<< (vec .& 7)) then sink vec (d, w) else (d, w)
      | None => (d, w)
      end in
    (UpdateIrq d, w).

(** [now], [now2]: the two readings a change of the divider makes. *)
Definition LapicWrite (d : LapicDevice) (w : W) (addr val now now2 : Z) : option (LapicDevice * W) :=
  let off := u64 (addr - kLapicBase) in
  if negb (off .& 0xf =? 0) then Some (d, w)
  else
    let v := u32 val in
    switch off
      [(kLapicEoi, Some (write_eoi d w));
       (kLapicTpr, Some (UpdateIrq (set_lreg d off (v .& 0xff)), w));
       (kLapicSvr, Some (UpdateIrq (set_lreg d off v), w));
       (kLapicPpr, Some (d, w));
       (kLapicTimerCurrent, Some (d, w));
       (kLapicEsr, Some (set_lreg d off (lreg d off &~ v), w));
       (kLapicTimerInitial, Some (TimerArm (set_lreg d off v) v now, w));
       (kLapicTimerDivide,
         let current := TimerCurrent d now in
         let d := set_lreg d off v in
         Some (if negb (current =? 0) then TimerArm d current now2 else d, w))]
      (reg_at off (set_lreg d off v, w)).
End write.

Definition LapicInit (d : LapicDevice) : LapicDevice :=
  let d := mkLapic (replicate 0x40 0) (replicate 32 0) (replicate 32 0) (replicate 32 0) 0 0 false (l_wired d) (l_out d) in
  let d := set_lreg d kLapicSvr 0xff in
  let d := set_lreg d kLapicTpr 0 in
  let d := set_lreg d kLapicDfr 0xffffffff in
  set_lreg d kLapicLdr 0.

Definition LapicSetIrqSink (d : LapicDevice) : LapicDevice := d <| l_wired := true |>.

Definition LapicId (d : LapicDevice) : Z := (lreg d kLapicId .>> 24) .& 0xf.
Definition LapicLogicalMask (d : LapicDevice) : Z := (lreg d kLapicLdr .>> 24) .& 0xff.

(** * Theorems about the local APIC

    The vector sets as sets of numbers, the INTR level as the level of the
    priority rule, acknowledge and end of interrupt as inverses, and the timer's
    announced deadline. *)

(** ** Vector sets as sets *)

Definition has (set : list Z) (v : Z) : bool := Z.testbit (arr set (v .>> 3)) (v .& 7).
Definition vset_ok (set : list Z) : Prop := length set = 32%nat /\ Forall (rng 8) set.

Lemma slot_eq v : v .>> 3 = v / 8.
Proof. exact (Z.shiftr_div_pow2 v 3 ltac:(lia)). Qed.
Lemma bit_eq v : v .& 7 = v mod 8.
Proof. exact (land_ones_wrap v 3 ltac:(lia)). Qed.
Lemma one_bit k : 0 <= k -> 1 .<< k = 2 ^ k.
Proof. intros. rewrite Z.shiftl_mul_pow2 by done. lia. Qed.

Lemma slot_range v : 0 <= v < 256 -> 0 <= v / 8 < 32 /\ 0 <= v mod 8 < 8.
Proof. intros. Z.to_euclidean_division_equations; lia. Qed.

Lemma vset_slot s i : vset_ok s -> 0 <= i < 32 -> rng 8 (arr s i).
Proof. intros [Hl Hf] Hi. apply Forall_arr; [done|]. rewrite Hl. lia. Qed.

Lemma pow8_rng k : 0 <= k < 8 -> rng 8 (2 ^ k).
Proof. intros. split; [lia|]. apply Z.pow_lt_mono_r; lia. Qed.

Lemma VectorSet_ok s v : vset_ok s -> 0 <= v < 256 -> vset_ok (VectorSet s v).
Proof.
  intros Hs Hv. pose proof (slot_range v Hv) as [Ha Hb]. pose proof Hs as [Hl Hf]. unfold VectorSet. rewrite slot_eq, bit_eq, one_bit by lia.
  split; [by rewrite length_arr_set|]. apply Forall_arr_set; [done|].
  apply rng_lor; [lia|by apply vset_slot|by apply pow8_rng].
Qed.

Lemma VectorClear_ok s v : vset_ok s -> 0 <= v < 256 -> vset_ok (VectorClear s v).
Proof.
  intros Hs Hv. pose proof (slot_range v Hv) as [Ha Hb]. pose proof Hs as [Hl Hf]. unfold VectorClear. rewrite slot_eq.
  split; [by rewrite length_arr_set|]. apply Forall_arr_set; [done|]. apply rng_ldiff; [lia|by apply vset_slot].
Qed.

Lemma has_slots s s' v u : (v / 8 <> u / 8 -> arr s' (u / 8) = arr s (u / 8)) ->
  (v / 8 = u / 8 -> Z.testbit (arr s' (u / 8)) (u mod 8) = has s u) -> has s' u = has s u.
Proof.
  intros Hne Heq. unfold has in *. rewrite slot_eq, bit_eq in *.
  destruct (Z.eq_dec (v / 8) (u / 8)) as [E|E]; [by apply Heq|by rewrite Hne].
Qed.

Lemma has_set s v u : vset_ok s -> 0 <= v < 256 -> 0 <= u < 256 -> has (VectorSet s v) u = (v =? u) || has s u.
Proof.
  intros [Hl _] Hv Hu. pose proof (slot_range v Hv) as [Ha Hb]. pose proof (slot_range u Hu) as [Hc Hd].
  unfold has, VectorSet. rewrite !slot_eq, !bit_eq, one_bit by lia.
  destruct (Z.eq_dec (v / 8) (u / 8)) as [E|E].
  - rewrite <- E, arr_set_eq by (rewrite Hl; lia). rewrite Z.lor_spec, Z.pow2_bits_eqb by lia. rewrite orb_comm. f_equal.
    destruct (Z.eqb_spec v u), (Z.eqb_spec (v mod 8) (u mod 8)); subst; Z.to_euclidean_division_equations; lia.
  - rewrite arr_set_ne by lia. destruct (Z.eqb_spec v u); [by subst|done].
Qed.

Lemma has_clear s v u : vset_ok s -> 0 <= v < 256 -> 0 <= u < 256 -> has (VectorClear s v) u = negb (v =? u) && has s u.
Proof.
  intros [Hl _] Hv Hu. pose proof (slot_range v Hv) as [Ha Hb]. pose proof (slot_range u Hu) as [Hc Hd].
  unfold has, VectorClear. rewrite !slot_eq, !bit_eq, one_bit by lia.
  destruct (Z.eq_dec (v / 8) (u / 8)) as [E|E].
  - rewrite <- E, arr_set_eq by (rewrite Hl; lia). rewrite Z.ldiff_spec, Z.pow2_bits_eqb, andb_comm by lia. f_equal. f_equal.
    destruct (Z.eqb_spec v u), (Z.eqb_spec (v mod 8) (u mod 8)); subst; Z.to_euclidean_division_equations; lia.
  - rewrite arr_set_ne by lia. destruct (Z.eqb_spec v u); [by subst|done].
Qed.

(** Two sets with the same members are the same list. *)
Lemma vset_ext s t : vset_ok s -> vset_ok t -> (forall u, 0 <= u < 256 -> has s u = has t u) -> s = t.
Proof.
  intros Hs Ht E. pose proof Hs as [Hl _]. pose proof Ht as [Hl' _]. apply list_eq_same_length with 32%nat; [done..|].
  intros i x y Hi Hx Hy.
  assert (Ex : arr s (Z.of_nat i) = x) by (unfold arr; rewrite Nat2Z.id; by apply list_lookup_total_correct).
  assert (Ey : arr t (Z.of_nat i) = y) by (unfold arr; rewrite Nat2Z.id; by apply list_lookup_total_correct).
  pose proof (vset_slot s (Z.of_nat i) Hs ltac:(lia)) as Rx. pose proof (vset_slot t (Z.of_nat i) Ht ltac:(lia)) as Ry.
  rewrite Ex in Rx. rewrite Ey in Ry. apply Z.bits_inj'. intros n Hn.
  destruct (Z.lt_ge_cases n 8) as [Hn8|Hn8].
  - specialize (E (8 * Z.of_nat i + n) ltac:(lia)). unfold has in E. rewrite slot_eq, bit_eq in E.
    replace ((8 * Z.of_nat i + n) / 8) with (Z.of_nat i) in E by (Z.to_euclidean_division_equations; lia).
    replace ((8 * Z.of_nat i + n) mod 8) with n in E by (Z.to_euclidean_division_equations; lia).
    by rewrite Ex, Ey in E.
  - apply rng_testbit in Rx as [_ Bx]; [|lia]. apply rng_testbit in Ry as [_ By]; [|lia]. by rewrite Bx, By.
Qed.

(** ** The highest vector *)

Lemma HighBit_log2 b : rng 8 b -> b <> 0 -> HighBit b = Z.log2 b.
Proof.
  assert (G : forallb (fun x => (x =? 0) || (HighBit x =? Z.log2 x)) (seqZ 0 256) = true) by (vm_compute; reflexivity).
  intros Hb Hz. rewrite forallb_forall in G. specialize (G b (proj1 (list_elem_of_In _ _) (proj2 (elem_of_seqZ _ _ _) Hb))).
  apply orb_true_iff in G as [G|G]; [apply Z.eqb_eq in G; lia|by apply Z.eqb_eq].
Qed.

Definition top_of (s : list Z) (v : Z) : Prop :=
  16 <= v < 256 /\ has s v = true /\ forall u, v < u < 256 -> has s u = false.

Lemma zero_slot s u : arr s (u / 8) = 0 -> has s u = false.
Proof. intros E. unfold has. rewrite slot_eq, E. apply Z.bits_0. Qed.

Lemma highest_from_spec s n i : vset_ok s -> 2 <= i + 1 < 33 -> Z.of_nat n = i - 1 ->
  (forall u, 8 * (i + 1) <= u < 256 -> has s u = false) ->
  (highest_from n s i = -1 /\ forall u, 16 <= u < 256 -> has s u = false) \/ top_of s (highest_from n s i).
Proof.
  intros Hs. revert i; induction n as [|n IH]; intros i Hi Hn Hu; simpl.
  - left. split; [done|]. intros u Hr. apply Hu. lia.
  - pose proof (vset_slot s i Hs ltac:(lia)) as Hr. destruct (Z.eqb_spec (arr s i) 0) as [E|E]; simpl.
    + apply IH; [lia|lia|]. intros u Hb. destruct (Z.lt_ge_cases u (8 * (i + 1))); [|apply Hu; lia].
      apply zero_slot. replace (u / 8) with i; [done|]. Z.to_euclidean_division_equations; lia.
    + right. rewrite HighBit_log2 by done. change (i .<< 3) with (Z.shiftl i 3). rewrite Z.shiftl_mul_pow2 by lia.
      assert (Hp : 0 < arr s i) by (unfold rng in Hr; lia). pose proof (Z.log2_nonneg (arr s i)).
      assert (Z.log2 (arr s i) < 8) by (apply Z.log2_lt_pow2; [done|apply Hr]). set (k := Z.log2 (arr s i)) in *.
      split; [lia|]. split.
      * unfold has. rewrite slot_eq, bit_eq. change (2 ^ 3) with 8.
        replace ((i * 8 + k) / 8) with i by (Z.to_euclidean_division_equations; lia).
        replace ((i * 8 + k) mod 8) with k by (Z.to_euclidean_division_equations; lia). by apply Z.bit_log2.
      * intros u Hb. destruct (Z.lt_ge_cases u (8 * (i + 1))); [|apply Hu; lia]. unfold has. rewrite slot_eq, bit_eq.
        replace (u / 8) with i by (Z.to_euclidean_division_equations; lia). apply Z.bits_above_log2; [lia|].
        fold k. Z.to_euclidean_division_equations; lia.
Qed.

Lemma HighestVector_spec s : vset_ok s ->
  (HighestVector s = -1 /\ forall u, 16 <= u < 256 -> has s u = false) \/ top_of s (HighestVector s).
Proof. intros Hs. apply highest_from_spec; [done|lia|done|]. intros u Hu. lia. Qed.

Lemma top_unique s v v' : top_of s v -> top_of s v' -> v = v'.
Proof.
  intros (Hr & Hv & Ht) (Hr' & Hv' & Ht'). destruct (Z.lt_trichotomy v v') as [H|[H|H]]; [|done|].
  - rewrite Ht in Hv' by lia. done.
  - rewrite Ht' in Hv by lia. done.
Qed.

Lemma HighestVector_top s v : vset_ok s -> top_of s v -> HighestVector s = v.
Proof.
  intros Hs Hv. destruct (HighestVector_spec s Hs) as [[E Hn]|Ht]; [|by eapply top_unique].
  destruct Hv as (Hr & Hv & _). rewrite Hn in Hv by lia. done.
Qed.

(** ** Well-formed chips

    [l0] is the level the sink knew before the levels listed in [l_out]. *)

Section level.
Context {l0 : bool}.

Record lapic_wf (d : LapicDevice) : Prop := {
  lw_reg : length (l_reg d) = 0x40%nat; lw_regs : Forall (rng 32) (l_reg d);
  lw_irr : vset_ok (l_irr d); lw_isr : vset_ok (l_isr d); lw_tmr : vset_ok (l_tmr d);
  lw_count : rng 32 (l_timer_count d);
  lw_out : l_wired d = true -> default l0 (last (l_out d)) = l_irq_level d;
}.

Lemma lreg_rng d off : lapic_wf d -> 0 <= off / 16 < 0x40 -> rng 32 (lreg d off).
Proof. intros Hd Ho. unfold lreg. apply Forall_arr; [apply lw_regs, Hd|]. rewrite lw_reg by done. exact Ho. Qed.

Lemma set_lreg_wf d off v : lapic_wf d -> rng 32 v -> lapic_wf (set_lreg d off v).
Proof.
  intros [] Hv. split; cbn; try done; [by rewrite length_arr_set|by apply Forall_arr_set].
Qed.

Lemma TimerArm_wf d c now : lapic_wf d -> rng 32 c -> lapic_wf (TimerArm d c now).
Proof. by intros [] Hc; split. Qed.

(** The level driven is the level the priority rule gives. *)
Definition settled (d : LapicDevice) : Prop := l_irq_level d = Deliverable d.

Lemma UpdateIrq_wf d : lapic_wf d -> lapic_wf (UpdateIrq d) /\ settled (UpdateIrq d).
Proof.
  intros [Hr Hrs Hi Hs Ht Hc Ho]. unfold UpdateIrq, settled. destruct (eqb _ _) eqn:E; [by apply eqb_prop in E|].
  destruct (l_wired d) eqn:Ew; cbn; rewrite Ew; (split; [split; cbn; try done|done]); [by rewrite last_snoc|by rewrite Ew].
Qed.

Lemma UpdateIrq_sets d : let d' := UpdateIrq d in
  l_reg d' = l_reg d /\ l_irr d' = l_irr d /\ l_isr d' = l_isr d /\ l_tmr d' = l_tmr d /\
  l_timer_count d' = l_timer_count d /\ l_timer_base d' = l_timer_base d.
Proof. unfold UpdateIrq. destruct (eqb _ _); [done|]. cbn. by destruct (l_wired d). Qed.

Lemma LapicDeliver_wf d v t : lapic_wf d -> lapic_wf (LapicDeliver d v t).
Proof.
  intros [Hr Hrs Hi Hs Ht Hc Ho]. unfold LapicDeliver. destruct (_ || _) eqn:E; [done|].
  apply orb_false_iff in E as [Ha%Z.ltb_ge Hb%Z.ltb_ge]. apply UpdateIrq_wf. split; cbn; try done.
  - apply VectorSet_ok; [done|lia].
  - destruct t; [apply VectorSet_ok|apply VectorClear_ok]; (done || lia).
Qed.

Lemma LapicDeliver_settled d v t : lapic_wf d -> settled d -> settled (LapicDeliver d v t).
Proof.
  intros Hw Hs. pose proof (LapicDeliver_wf d v t Hw) as Hw'. unfold LapicDeliver in *.
  destruct (_ || _) eqn:E; [done|]. apply orb_false_iff in E as [Ha%Z.ltb_ge Hb%Z.ltb_ge].
  destruct Hw as [Hr Hrs Hi Hsv Ht Hc Ho]. apply UpdateIrq_wf. split; cbn; try done.
  - apply VectorSet_ok; [done|lia].
  - destruct t; [apply VectorSet_ok|apply VectorClear_ok]; (done || lia).
Qed.

Lemma top_range s : vset_ok s -> 0 <= HighestVector s -> 16 <= HighestVector s < 256.
Proof. intros Hs Hp. destruct (HighestVector_spec s Hs) as [[E _]|[H _]]; lia. Qed.

Lemma LapicAcknowledge_ok d : lapic_wf d -> settled d ->
  lapic_wf (snd (LapicAcknowledge d)) /\ settled (snd (LapicAcknowledge d)).
Proof.
  intros Hw Hs. unfold LapicAcknowledge. destruct (negb (tst _ _)); [done|]. destruct (Deliverable d) eqn:E; [|done].
  cbn [negb snd]. apply UpdateIrq_wf. unfold Deliverable in E. destruct (negb (tst _ _)); [done|].
  apply andb_true_iff in E as [E%Z.leb_le _]. pose proof (top_range _ (lw_irr d Hw) E) as Hv.
  set (vec := HighestVector (l_irr d)) in *. clearbody vec. destruct Hw as [Hr Hrs Hi Hsv Ht Hc Ho].
  split; cbn; try done; [apply VectorClear_ok|apply VectorSet_ok]; (done || lia).
Qed.

Lemma TimerExpire_ok d now : lapic_wf d -> settled d -> lapic_wf (TimerExpire d now) /\ settled (TimerExpire d now).
Proof.
  intros Hw Hs. unfold TimerExpire. set (d1 := if _ && _ then _ else d).
  assert (H : lapic_wf d1 /\ settled d1).
  { unfold d1. destruct (_ && _); [|done]. split; [by apply LapicDeliver_wf|by apply LapicDeliver_settled]. }
  destruct H as [Hw1 Hs1]. clearbody d1. destruct (_ && _); split; try exact Hs1.
  - apply TimerArm_wf; [done|]. apply lreg_rng; [done|]. vm_compute. split; congruence.
  - destruct Hw1. by split.
Qed.

Lemma CountsElapsed_nonneg d now : 0 <= CountsElapsed d now.
Proof.
  unfold CountsElapsed. destruct (_ <=? 0); [done|]. destruct (_ <? _); [done|]. apply Z.div_pos; [|lia].
  apply (rng_wrap 64). lia.
Qed.

Section writes.
Context {W : Type} (eoi : option (Z -> LapicDevice * W -> LapicDevice * W)).
(** The sink may deliver to the chip, which keeps it well formed. *)
Hypothesis eoi_wf : forall sink v d w, eoi = Some sink -> lapic_wf d -> lapic_wf (fst (sink v (d, w))).

Lemma write_eoi_ok d w : lapic_wf d -> settled d ->
  lapic_wf (fst (write_eoi eoi d w)) /\ settled (fst (write_eoi eoi d w)).
Proof.
  intros Hw Hs. unfold write_eoi. destruct (Z.ltb_spec (HighestVector (l_isr d)) 0) as [E|E]; [done|].
  pose proof (top_range _ (lw_isr d Hw) E) as Hr. set (vec := HighestVector (l_isr d)) in *. clearbody vec.
  assert (Hw1 : lapic_wf (d <| l_isr := VectorClear (l_isr d) vec |>)).
  { destruct Hw. split; cbn; try done. apply VectorClear_ok; [done|lia]. }
  set (d1 := d <| l_isr := _ |>) in *. clearbody d1.
  set (dw := match eoi with Some _ => _ | None => _ end).
  assert (H : lapic_wf (fst dw)) by (unfold dw; destruct eoi as [sink|] eqn:Ee; [destruct (tst _ _); [by apply eoi_wf|]|]; done).
  destruct dw as [d2 w2]. apply UpdateIrq_wf, H.
Qed.

(** The registers other than the task priority and the spurious vector do not
    bear on the line. *)
Lemma set_lreg_settled d off v : settled d -> 0 <= off / 16 -> off / 16 <> 8 -> off / 16 <> 15 -> settled (set_lreg d off v).
Proof.
  intros Hs Hp H8 H15. unfold settled, Deliverable, ProcessorPriority, lreg, set_lreg. cbn.
  rewrite !arr_set_ne by (done || (vm_compute; congruence)). exact Hs.
Qed.

Lemma LapicWrite_ok d w addr val now now2 d' w' : lapic_wf d -> settled d ->
  LapicWrite eoi d w addr val now now2 = Some (d', w') -> lapic_wf d' /\ settled d'.
Proof.
  intros Hw Hs. unfold LapicWrite. set (off := u64 _).
  destruct (Z.eqb_spec (off .& 0xf) 0) as [Ea|Ea]; [|by intros [= <- <-]]. cbn [negb].
  assert (Hv : rng 32 (u32 val)) by (apply (rng_wrap 32); lia). set (v := u32 val) in *. clearbody v.
  assert (Ho : 0 <= off) by apply (rng_wrap 64 (addr - kLapicBase) ltac:(lia)). clearbody off.
  rewrite (land_ones_wrap off 4 ltac:(lia) : off .& 0xf = _) in Ea. unfold wrap in Ea. change (2 ^ 4) with 16 in Ea.
  destruct (Z.eq_dec off kLapicTpr) as [->|Nt]; [cbn; intros [= <- <-]; apply UpdateIrq_wf, set_lreg_wf; [done|]; by apply rng_land_l|].
  destruct (Z.eq_dec off kLapicSvr) as [->|Ns]; [cbn; intros [= <- <-]; by apply UpdateIrq_wf, set_lreg_wf|].
  assert (Hset : forall x, rng 32 x -> lapic_wf (set_lreg d off x) /\ settled (set_lreg d off x)).
  { intros x Hx. split; [by apply set_lreg_wf|]. unfold kLapicTpr, kLapicSvr in *.
    apply set_lreg_settled; [done|Z.to_euclidean_division_equations; lia..]. }
  apply (switch_ind (fun r => r = Some (d', w') -> lapic_wf d' /\ settled d')).
  2: { unfold reg_at. destruct (_ <? _); [|done]. intros [= <- <-]. by apply Hset. }
  repeat apply Forall_cons_2; try apply Forall_nil_2; cbn [fst snd]; intros E;
    [intros [= E2]|intros [= <- <-]..]; try done.
  - pose proof (write_eoi_ok d w Hw Hs) as H. by rewrite E2 in H.
  - apply Hset. apply rng_ldiff; [lia|]. apply lreg_rng; [done|]. subst. vm_compute. split; congruence.
  - destruct (Hset v Hv). split; [by apply TimerArm_wf|done].
  - destruct (Hset v Hv). destruct (negb _); [|done]. split; [|done]. apply TimerArm_wf; [done|].
    pose proof (lw_count d Hw) as Hc. pose proof (CountsElapsed_nonneg d now). unfold TimerCurrent.
    set (burned := CountsElapsed d now) in *. repeat case_match; unfold rng in *; lia.
Qed.

End writes.
End level.

(** Only the end-of-interrupt register involves the sink. *)
Lemma LapicWrite_no_eoi {W : Type} eoi d (w : W) addr val now now2 : u64 (addr - kLapicBase) <> kLapicEoi ->
  LapicWrite eoi d w addr val now now2 = LapicWrite None d w addr val now now2.
Proof.
  intros Hn. unfold LapicWrite. destruct (negb _); [done|]. cbn [switch]. by rewrite (proj2 (Z.eqb_neq _ _) Hn).
Qed.

(** ** Reachable chips *)

Section reach.
Context {W : Type} (eoi : option (Z -> LapicDevice * W -> LapicDevice * W)).
(** The sink may deliver to the chip, which keeps it well formed. *)
Hypothesis eoi_wf : forall sink v d w, eoi = Some sink -> lapic_wf (l0:=false) d -> lapic_wf (l0:=false) (fst (sink v (d, w))).

Inductive lapic_reach : LapicDevice -> Prop :=
| lr_init d : lapic_reach (LapicSetIrqSink (LapicInit (d <| l_out := [] |>)))
| lr_deliver d v t : lapic_reach d -> lapic_reach (LapicDeliver d v t)
| lr_ack d : lapic_reach d -> lapic_reach (snd (LapicAcknowledge d))
| lr_poll d now now2 : lapic_reach d -> lapic_reach (LapicPoll d now now2)
| lr_write d w addr val now now2 d' w' :
    lapic_reach d -> LapicWrite eoi d w addr val now now2 = Some (d', w') -> lapic_reach d'.

Lemma lapic_reach_ok d : lapic_reach d -> lapic_wf (l0:=false) d /\ settled d.
Proof.
  induction 1 as [d|d v t _ [Hw Hs]|d _ [Hw Hs]|d now now2 _ [Hw Hs]|d w addr val now now2 d' w' _ [Hw Hs] E].
  - split; [|reflexivity]. split; try reflexivity; cbn; try (split; [reflexivity|]);
      try (repeat apply Forall_cons_2; try apply Forall_nil_2; unfold rng; lia).
  - split; [by apply LapicDeliver_wf|by eapply LapicDeliver_settled].
  - by apply LapicAcknowledge_ok.
  - unfold LapicPoll. destruct (_ =? 0); [done|]. destruct (_ <? _); [done|]. by apply TimerExpire_ok.
  - by eapply LapicWrite_ok.
Qed.

(** ** The INTR line *)

(** A request is due: the chip is enabled and a vector is requested whose class
    is above the task priority's and above that of every vector in service. *)
Definition due (d : LapicDevice) (v : Z) : Prop :=
  tst (lreg d kLapicSvr) kSvrEnable = true /\ 16 <= v < 256 /\ has (l_irr d) v = true /\
  (lreg d kLapicTpr / 16) mod 16 < v / 16 /\
  forall u, 16 <= u < 256 -> has (l_isr d) u = true -> u / 16 < v / 16.

Lemma class_eq v : v .>> 4 = v / 16.
Proof. exact (Z.shiftr_div_pow2 v 4 ltac:(lia)). Qed.

Lemma priority_spec d v : vset_ok (l_isr d) -> 16 <= v < 256 ->
  (ProcessorPriority d <? v .>> 4) = true <->
  (lreg d kLapicTpr / 16) mod 16 < v / 16 /\ forall u, 16 <= u < 256 -> has (l_isr d) u = true -> u / 16 < v / 16.
Proof.
  intros Hs Hv. rewrite Z.ltb_lt. unfold ProcessorPriority. rewrite !class_eq.
  change ((lreg d kLapicTpr / 16) .& 0xf) with ((lreg d kLapicTpr / 16) .& (2 ^ 4 - 1)). rewrite land_ones_wrap by lia.
  unfold wrap. change (2 ^ 4) with 16. set (t := (lreg d kLapicTpr / 16) mod 16). clearbody t.
  destruct (HighestVector_spec (l_isr d) Hs) as [[E Hn]|(Hr & Hh & Ht)].
  - rewrite E. cbn [Z.leb Z.compare andb]. split; [|by intros []]. intros H. split; [done|]. intros u Hu Hb. by rewrite Hn in Hb.
  - set (i := HighestVector (l_isr d)) in *. clearbody i. rewrite (proj2 (Z.leb_le 0 i)) by lia. cbn [andb]. split.
    + intros H. assert (i / 16 < v / 16 /\ t < v / 16) as [Hi Htp] by (destruct (Z.ltb_spec t (i / 16)); lia).
      split; [done|]. intros u Hu Hb. destruct (Z.lt_ge_cases i u); [by rewrite Ht in Hb by lia|].
      Z.to_euclidean_division_equations; lia.
    + intros [Htp Hu]. specialize (Hu i Hr Hh). destruct (_ <? _); lia.
Qed.

(** The highest request is the one that is due, if any is. *)
Lemma deliverable_due {l0} d : lapic_wf (l0:=l0) d -> Deliverable d = true <-> exists v, due d v.
Proof.
  intros Hw. unfold Deliverable. destruct (tst _ _) eqn:Ee; cbn [negb]; [|split; [done|]; intros (v & H & _); congruence].
  destruct (HighestVector_spec (l_irr d) (lw_irr d Hw)) as [[E Hn]|(Hr & Hh & Ht)].
  - rewrite E. split; [done|]. intros (v & _ & Hv & Hb & _). by rewrite Hn in Hb.
  - set (i := HighestVector (l_irr d)) in *. clearbody i. rewrite (proj2 (Z.leb_le 0 i)) by lia. cbn [andb].
    rewrite priority_spec by (done || eapply lw_isr, Hw). split; [by exists i|].
    intros (v & _ & Hv & Hb & Htp & Hu). destruct (Z.lt_ge_cases i v); [by rewrite Ht in Hb by lia|].
    assert (v / 16 <= i / 16) by (apply Z.div_le_mono; lia). split; [lia|]. intros u Hur Hub. specialize (Hu u Hur Hub). lia.
Qed.

(** The local APIC drives its output exactly while a request is due: in every reachable state the
    level is high if and only if a requested vector exceeds the processor priority (task priority
    and highest vector in service) with the APIC software-enabled, and the sink was told that level
    last. *)
Theorem lapic_line_exact d : lapic_reach d ->
  (l_irq_level d = true <-> exists v, due d v) /\ (l_wired d = true -> default false (last (l_out d)) = l_irq_level d).
Proof.
  intros Hr. destruct (lapic_reach_ok d Hr) as [Hw Hs]. split; [|by eapply lw_out]. rewrite Hs. by eapply deliverable_due.
Qed.

(** ** Acknowledge and end of interrupt *)

Lemma ack_facts {l0} d v : lapic_wf (l0:=l0) d -> due d v -> let d1 := snd (LapicAcknowledge d) in
  let top := fst (LapicAcknowledge d) in
  top_of (l_irr d) top /\ due d top /\ l_irr d1 = VectorClear (l_irr d) top /\ l_isr d1 = VectorSet (l_isr d) top /\
  l_tmr d1 = l_tmr d /\ l_reg d1 = l_reg d.
Proof.
  intros Hw Hd. assert (Ed : Deliverable d = true) by (eapply deliverable_due; [done|by exists v]).
  pose proof (lw_irr d Hw) as Hi. destruct (HighestVector_spec (l_irr d) Hi) as [[E Hn]|Ht].
  { destruct Hd as (_ & Hv & Hb & _). by rewrite Hn in Hb. }
  unfold LapicAcknowledge. pose proof Hd as [He _]. rewrite He, Ed. cbn [negb fst snd].
  set (top := HighestVector (l_irr d)) in *.
  match goal with |- context [UpdateIrq ?x] => destruct (UpdateIrq_sets x) as (U1 & U2 & U3 & U4 & _) end.
  rewrite U1, U2, U3, U4. cbn. split; [done|]. split; [|done]. pose proof Ht as (Hr & Hh & _).
  split; [done|]. split; [done|]. split; [done|]. unfold Deliverable in Ed. rewrite He in Ed. cbn [negb] in Ed. fold top in Ed.
  apply andb_true_iff in Ed as [_ Ed]. apply priority_spec in Ed; [done|eapply lw_isr, Hw|done].
Qed.

(** Acknowledge and end of interrupt: the acknowledge returns the highest due vector, moves exactly
    that bit from the request to the in-service register and drops the output; the end of interrupt
    that follows takes exactly that bit out of service again. *)
Theorem lapic_ack_eoi d v w now now2 : lapic_reach d -> due d v ->
  let top := fst (LapicAcknowledge d) in
  let d1 := snd (LapicAcknowledge d) in
  (due d top /\ forall u, due d u -> u <= top) /\
  (forall u, 0 <= u < 256 -> has (l_irr d1) u = negb (top =? u) && has (l_irr d) u) /\
  (forall u, 0 <= u < 256 -> has (l_isr d1) u = (top =? u) || has (l_isr d) u) /\
  l_irq_level d1 = false /\
  (has (l_tmr d) top = false -> exists d2, LapicWrite eoi d1 w (kLapicBase + kLapicEoi) 0 now now2 = Some (d2, w) /\
     l_isr d2 = l_isr d /\ l_irr d2 = l_irr d1 /\ l_tmr d2 = l_tmr d /\ l_reg d2 = l_reg d).
Proof.
  intros Hr Hd top d1. destruct (lapic_reach_ok d Hr) as [Hw Hs]. destruct (LapicAcknowledge_ok d Hw Hs) as [Hw1 Hs1]. fold d1 in Hw1, Hs1.
  destruct (ack_facts d v Hw Hd) as (Ht & Hdt & Ei & Ev & Em & Er). fold top d1 in Ht, Hdt, Ei, Ev, Em, Er.
  pose proof Ht as (Htr & Hth & Htt). pose proof Hdt as (He & _ & _ & Htp & Hin).
  assert (Hfree : has (l_isr d) top = false) by (destruct (has (l_isr d) top) eqn:E; [|done]; specialize (Hin top Htr E); lia).
  assert (Hi1 : forall u, 0 <= u < 256 -> has (l_irr d1) u = negb (top =? u) && has (l_irr d) u)
    by (intros; rewrite Ei; apply has_clear; [eapply lw_irr, Hw|lia|done]).
  assert (Hv1 : forall u, 0 <= u < 256 -> has (l_isr d1) u = (top =? u) || has (l_isr d) u)
    by (intros; rewrite Ev; apply has_set; [eapply lw_isr, Hw|lia|done]).
  split_and!; [done| |done|done| |].
  - intros u (_ & Hu & Hb & _). destruct (Z.le_gt_cases u top); [done|]. by rewrite Htt in Hb by lia.
  - rewrite Hs1. apply not_true_iff_false. intros (u & _ & Hu & Hb & _ & Hq)%(deliverable_due _ Hw1).
    rewrite Hi1 in Hb by lia. apply andb_true_iff in Hb as [Hne%negb_true_iff%Z.eqb_neq Hb].
    specialize (Hq top Htr). rewrite Hv1, Z.eqb_refl in Hq by lia. specialize (Hq eq_refl).
    destruct (Z.lt_ge_cases top u); [by rewrite Htt in Hb by lia|]. assert (u / 16 <= top / 16) by (apply Z.div_le_mono; lia). lia.
  - intros Hedge.
    assert (Htop1 : HighestVector (l_isr d1) = top).
    { apply HighestVector_top; [eapply lw_isr, Hw1|]. split; [done|]. split; [by rewrite Hv1, Z.eqb_refl by lia|].
      intros u Hu. rewrite Hv1 by lia. destruct (Z.eqb_spec top u); [lia|]. cbn [orb]. destruct (has (l_isr d) u) eqn:E; [|done].
      specialize (Hin u ltac:(lia) E). assert (top / 16 <= u / 16) by (apply Z.div_le_mono; lia). lia. }
    assert (Hback : VectorClear (l_isr d1) top = l_isr d).
    { apply vset_ext; [apply VectorClear_ok; [eapply lw_isr, Hw1|lia]|eapply lw_isr, Hw|]. intros u Hu.
      rewrite has_clear, Hv1 by (done || lia || eapply lw_isr, Hw1). destruct (Z.eqb_spec top u); [by subst u; rewrite Hfree|done]. }
    exists (UpdateIrq (d1 <| l_isr := l_isr d |>)). split.
    + change (LapicWrite eoi d1 w (kLapicBase + kLapicEoi) 0 now now2) with (Some (write_eoi eoi d1 w)). f_equal.
      unfold write_eoi. rewrite Htop1, (proj2 (Z.ltb_ge top 0)) by lia. cbn [l_tmr]. rewrite Hback.
      assert (Hnt : tst (arr (l_tmr (d1 <| l_isr := l_isr d |>)) (top .>> 3)) (1 .<< (top .& 7)) = false).
      { change (l_tmr (d1 <| l_isr := l_isr d |>)) with (l_tmr d1). rewrite Em, one_bit, tst_pow2; [exact Hedge|..];
          rewrite bit_eq; apply Z.mod_pos_bound; lia. }
      destruct eoi as [sink|]; [by rewrite Hnt|done].
    + destruct (UpdateIrq_sets (d1 <| l_isr := l_isr d |>)) as (-> & -> & -> & -> & _). done.
Qed.
End reach.

(** ** The timer's deadline *)

Lemma divisor_cases x : In (TimerDivisor x) [2; 4; 8; 16; 32; 64; 128; 1].
Proof.
  unfold TimerDivisor. assert (0 <= x .& 7 < 8) by (rewrite bit_eq; apply Z.mod_pos_bound; lia).
  assert (Hc : x .& 7 = 0 \/ x .& 7 = 1 \/ x .& 7 = 2 \/ x .& 7 = 3 \/ x .& 7 = 4 \/ x .& 7 = 5 \/ x .& 7 = 6 \/ x .& 7 = 7) by lia.
  repeat destruct Hc as [->|Hc]; [..|rewrite Hc]; cbn; tauto.
Qed.

Lemma rate_range d : 781250 <= timer_rate d <= 100000000.
Proof.
  unfold timer_rate. pose proof (divisor_cases (lreg d kLapicTimerDivide)) as H. unfold kLapicTimerFreq.
  repeat (destruct H as [<-|H]; [vm_compute; split; congruence|]). done.
Qed.

(** No product overflows within the first 50 hours of a count. *)
Lemma elapsed_reaches d t : rng 32 (l_timer_count d) -> 0 <= t - l_timer_base d <= 180000000000 ->
  (CountsElapsed d t <? l_timer_count d) = ((t - l_timer_base d) * timer_rate d <? l_timer_count d * 1000000).
Proof.
  intros Hc He. pose proof (rate_range d) as Hr. unfold CountsElapsed. set (e := t - l_timer_base d) in *. set (r := timer_rate d) in *.
  set (c := l_timer_count d) in *. clearbody e r c. unfold rng in Hc.
  assert (0 <= e * r <= 18000000000000000000) by nia.
  destruct (Z.leb_spec e 0); [replace e with 0 by lia; destruct (Z.ltb_spec 0 c), (Z.ltb_spec (0 * r) (c * 1000000)); lia|].
  rewrite wrap_small by (unfold rng; lia). set (q := e * r) in *. clearbody q.
  destruct (Z.ltb_spec 0xffffffff (q / 1000000)); [destruct (Z.ltb_spec 0xffffffff c), (Z.ltb_spec q (c * 1000000))|
    destruct (Z.ltb_spec (q / 1000000) c), (Z.ltb_spec q (c * 1000000))]; Z.to_euclidean_division_equations; lia.
Qed.

Lemma poll_quiet d t n2 : l_timer_count d <> 0 -> (CountsElapsed d t <? l_timer_count d) = true -> LapicPoll d t n2 = d.
Proof. intros Hz H. unfold LapicPoll. by rewrite (proj2 (Z.eqb_neq _ _) Hz), H. Qed.

Lemma poll_expires d t n2 : l_timer_count d <> 0 -> (CountsElapsed d t <? l_timer_count d) = false ->
  LapicPoll d t n2 = TimerExpire d n2.
Proof. intros Hz H. unfold LapicPoll. by rewrite (proj2 (Z.eqb_neq _ _) Hz), H. Qed.

(** The wait the chip announces, with [q] counted so far at [r] per second. *)
Lemma deadline_arith c q r : 0 < r -> 781250 <= r -> q < c * 1000000 -> 0 <= q ->
  let us := ((c - q / 1000000) * 1000000 + r - 1) / r in
  0 < us /\ c * 1000000 <= q + us * r /\ q + (us - 3) * r < c * 1000000.
Proof.
  intros Hr Hr2 Hq H0 us. assert (Hl : c * 1000000 - q <= (c - q / 1000000) * 1000000 < c * 1000000 - q + 1000000)
    by (Z.to_euclidean_division_equations; lia).
  set (a := (c - q / 1000000) * 1000000) in *. clearbody a.
  assert (Hu : a <= us * r <= a + r - 1).
  { unfold us. pose proof (Z.div_mod (a + r - 1) r ltac:(lia)). pose proof (Z.mod_pos_bound (a + r - 1) r Hr). nia. }
  clearbody us. nia.
Qed.

(** C32: the local APIC timer fires when it says it will: over 47 hours of elapsed time without
    overflow, a poll at the announced deadline expires the timer, every poll more than 3
    microseconds before it does nothing, and a deadline of 0 means the timer is already due. *)
Theorem lapic_timer_deadline d now n2 :
  rng 32 (l_timer_count d) -> l_timer_count d <> 0 -> 0 <= now - l_timer_base d <= 170000000000 ->
  let us := LapicNextEventUs d now in
  (us = 0 -> LapicPoll d now n2 = TimerExpire d n2) /\
  (us <> 0 -> LapicPoll d (now + us) n2 = TimerExpire d n2 /\
              forall t, now <= t <= now + us - 3 -> LapicPoll d t n2 = d).
Proof.
  intros Hc Hz He. pose proof (rate_range d) as Hr. pose proof (elapsed_reaches d now Hc ltac:(lia)) as Hn.
  unfold LapicNextEventUs. rewrite (proj2 (Z.eqb_neq _ _) Hz), Z.leb_antisym, Hn.
  set (c := l_timer_count d) in *. set (r := timer_rate d) in *. set (e := now - l_timer_base d) in *.
  destruct (Z.ltb_spec (e * r) (c * 1000000)) as [Hlt|Hge]; cbn [negb].
  - assert (Hq : 0 <= e * r <= 17000000000000000000) by nia.
    assert (Hcount : CountsElapsed d now = e * r / 1000000).
    { unfold CountsElapsed. fold e r. destruct (Z.leb_spec e 0) as [H|H]; [by replace e with 0 by lia|].
      rewrite wrap_small by (unfold rng; lia). destruct (Z.ltb_spec 0xffffffff (e * r / 1000000)); [|done].
      unfold rng in Hc. fold c in Hc. Z.to_euclidean_division_equations; lia. }
    rewrite Hcount. destruct (deadline_arith c (e * r) r) as (Hpos & Hup & Hlo); [lia..|].
    set (us := ((c - e * r / 1000000) * 1000000 + r - 1) / r) in *. cbv zeta.
    assert (Hus : us <= 5497558140 + 3) by (unfold rng in Hc; fold c in Hc; nia). clearbody us. split; [lia|]. intros _. split.
    + apply poll_expires; [done|]. rewrite elapsed_reaches by (done || lia). fold c r. apply Z.ltb_ge.
      replace (now + us - l_timer_base d) with (e + us) by lia. nia.
    + intros t Ht. apply poll_quiet; [done|]. rewrite elapsed_reaches by (done || lia). fold c r. apply Z.ltb_lt.
      replace (t - l_timer_base d) with (e + (t - now)) by lia. nia.
  - split; [|done]. intros _. apply poll_expires; [done|]. exact Hn.
Qed.

(** ** Witnesses *)

(** Enabled, vector 0x41 requested, a one-shot count of 1000 at 50 MHz. *)
Definition lapic_on : LapicDevice :=
  let d := LapicSetIrqSink (LapicInit (mkLapic [] [] [] [] 0 0 false false [])) in
  let wr d off v := match LapicWrite (W:=unit) None d tt (kLapicBase + off) v 0 0 with Some (d, _) => d | None => d end in
  wr (wr (LapicDeliver (wr d kLapicSvr 0x1ff) 0x41 false) kLapicLvtTimer 0x20) kLapicTimerInitial 1000.

Lemma lapic_on_reach : lapic_reach (W:=unit) None lapic_on.
Proof.
  repeat first [apply (lr_init None (mkLapic [] [] [] [] 0 0 false false [])) | apply lr_deliver
    | eapply (lr_write None _ tt (kLapicBase + kLapicTimerInitial) 1000 0 0); [|reflexivity]
    | eapply (lr_write None _ tt (kLapicBase + kLapicLvtTimer) 0x20 0 0); [|reflexivity]
    | eapply (lr_write None _ tt (kLapicBase + kLapicSvr) 0x1ff 0 0); [|reflexivity]].
Qed.

Lemma lapic_on_due : due lapic_on 0x41.
Proof.
  split; [reflexivity|]. split; [lia|]. split; [reflexivity|]. split; [reflexivity|]. intros u Hu Hb.
  exfalso. revert Hb. change (l_isr lapic_on) with (replicate 32 0). unfold has, arr. rewrite lookup_total_replicate_2.
  - by rewrite Z.bits_0.
  - rewrite slot_eq. Z.to_euclidean_division_equations; lia.
Qed.

Lemma lapic_line_exact_witness : l_irq_level lapic_on = true /\ (l_irq_level lapic_on = true <-> exists v, due lapic_on v).
Proof. split; [reflexivity|]. apply (lapic_line_exact (W:=unit) None); [done|apply lapic_on_reach]. Defined.

Lemma lapic_ack_eoi_witness : fst (LapicAcknowledge lapic_on) = 0x41 /\ l_irq_level (snd (LapicAcknowledge lapic_on)) = false /\
  exists d2, LapicWrite (W:=unit) None (snd (LapicAcknowledge lapic_on)) tt (kLapicBase + kLapicEoi) 0 0 0 = Some (d2, tt) /\
    l_isr d2 = l_isr lapic_on.
Proof.
  destruct (lapic_ack_eoi (W:=unit) None ltac:(done) lapic_on 0x41 tt 0 0 lapic_on_reach lapic_on_due) as (_ & _ & _ & H1 & H2).
  split; [reflexivity|]. split; [exact H1|]. destruct (H2 eq_refl) as (d2 & E & Ei & _). exists d2. split; [exact E|exact Ei].
Defined.

Lemma lapic_timer_deadline_witness : LapicNextEventUs lapic_on 5 = 15 /\ LapicPoll lapic_on 20 20 = TimerExpire lapic_on 20 /\
  LapicPoll lapic_on 17 17 = lapic_on.
Proof.
  assert (E : LapicNextEventUs lapic_on 5 = 15) by reflexivity. split; [exact E|]. split.
  - destruct (lapic_timer_deadline lapic_on 5 20) as [_ H]; [vm_compute; split; congruence|vm_compute; congruence|vm_compute; split; congruence|].
    rewrite E in H. apply H. lia.
  - destruct (lapic_timer_deadline lapic_on 5 17) as [_ H]; [vm_compute; split; congruence|vm_compute; congruence|vm_compute; split; congruence|].
    rewrite E in H. apply H; lia.
Defined.
