(* ===== verification/Ioapic.v ===== *)
(** * I/O APIC (device/intc/ioapic.c)

    The index and data window, 24 redirection entries and their pins.  What the
    chip hands to its sinks comes out as a list of requests in the order of the
    calls: neither sink calls back into the chip.  Theorems: what a level pin
    never loses, and the entry's round trip through the window. *)

From S2P Require Import Prelude.

Definition kIoapicPins := 24.
Definition kRegSel := 0x00.
Definition kRegWin := 0x10.
Definition kRegId := 0x00.
Definition kRegVersion := 0x01.
Definition kRegArbitration := 0x02.
Definition kEntryBase := 0x10.
Definition kVersion := 0x00110011.
Definition kDeliveryFixed := 0.
Definition kDeliveryLowest := 1.
Definition kDeliverySmi := 2.
Definition kDeliveryNmi := 4.
Definition kDeliveryInit := 5.
Definition kDeliveryExtInt := 7.
Definition kIoapicBase := 0xFEC00000.

Record IoapicPin := mkPin {
  i_vector : Z; i_delivery : Z; i_dest_mode : Z; i_polarity : Z; i_remote_irr : Z; i_trigger : Z; i_mask : Z; i_dest : Z;
  i_level : bool;
}.
Definition eta_pin (p : IoapicPin) : IoapicPin :=
  mkPin (i_vector p) (i_delivery p) (i_dest_mode p) (i_polarity p) (i_remote_irr p) (i_trigger p) (i_mask p) (i_dest p) (i_level p).
#[export] Instance upd_i_vector : Upd i_vector := ltac:(mk_upd eta_pin i_vector).
#[export] Instance upd_i_delivery : Upd i_delivery := ltac:(mk_upd eta_pin i_delivery).
#[export] Instance upd_i_dest_mode : Upd i_dest_mode := ltac:(mk_upd eta_pin i_dest_mode).
#[export] Instance upd_i_polarity : Upd i_polarity := ltac:(mk_upd eta_pin i_polarity).
#[export] Instance upd_i_remote_irr : Upd i_remote_irr := ltac:(mk_upd eta_pin i_remote_irr).
#[export] Instance upd_i_trigger : Upd i_trigger := ltac:(mk_upd eta_pin i_trigger).
#[export] Instance upd_i_mask : Upd i_mask := ltac:(mk_upd eta_pin i_mask).
#[export] Instance upd_i_dest : Upd i_dest := ltac:(mk_upd eta_pin i_dest).
#[export] Instance upd_i_level : Upd i_level := ltac:(mk_upd eta_pin i_level).

Definition pin_reset : IoapicPin := mkPin 0 0 0 0 0 0 1 0 false.
#[export] Instance pin_inhabited : Inhabited IoapicPin := populate pin_reset.

(** [io_wired], [io_nmi_wired]: the delivery and NMI sinks are set. *)
Record IoapicDevice := mkIoapic { io_index : Z; io_id : Z; io_pins : list IoapicPin; io_wired : bool; io_nmi_wired : bool }.
Definition eta_ioapic (d : IoapicDevice) : IoapicDevice := mkIoapic (io_index d) (io_id d) (io_pins d) (io_wired d) (io_nmi_wired d).
#[export] Instance upd_io_index : Upd io_index := ltac:(mk_upd eta_ioapic io_index).
#[export] Instance upd_io_id : Upd io_id := ltac:(mk_upd eta_ioapic io_id).
#[export] Instance upd_io_pins : Upd io_pins := ltac:(mk_upd eta_ioapic io_pins).
#[export] Instance upd_io_wired : Upd io_wired := ltac:(mk_upd eta_ioapic io_wired).
#[export] Instance upd_io_nmi_wired : Upd io_nmi_wired := ltac:(mk_upd eta_ioapic io_nmi_wired).

(** A call of [deliver] or of [deliver_nmi]. *)
Inductive io_req := ReqVector (dest logical vector trigger : Z) | ReqNmi (dest logical : Z).

Definition put_pin (d : IoapicDevice) (i : Z) (p : IoapicPin) : IoapicDevice := d <| io_pins := arr_set (io_pins d) i p |>.

(** ** Redirection entries *)

Definition PinLow (p : IoapicPin) : Z :=
  (i_vector p .& 0xff) .| ((i_delivery p .& 7) .<< 8) .| ((i_dest_mode p .& 1) .<< 11) .| ((i_polarity p .& 1) .<< 13) .|
  ((i_remote_irr p .& 1) .<< 14) .| ((i_trigger p .& 1) .<< 15) .| ((i_mask p .& 1) .<< 16).

Definition SetPinLow (p : IoapicPin) (v : Z) : IoapicPin :=
  p <| i_vector := v .& 0xff |> <| i_delivery := (v .>> 8) .& 7 |> <| i_dest_mode := (v .>> 11) .& 1 |>
    <| i_polarity := (v .>> 13) .& 1 |> <| i_trigger := (v .>> 15) .& 1 |> <| i_mask := (v .>> 16) .& 1 |>.

(** ** Delivery *)

Definition Service (d : IoapicDevice) (pin : Z) : IoapicDevice * list io_req :=
  let p := arr (io_pins d) pin in
  if negb (i_mask p =? 0) then (d, [])
  else if (i_delivery p =? kDeliverySmi) || (i_delivery p =? kDeliveryInit) then (d, [])
  else if i_delivery p =? kDeliveryNmi then (d, if io_nmi_wired d then [ReqNmi (i_dest p) (i_dest_mode p)] else [])
  else if i_delivery p =? kDeliveryExtInt then (d, [])
  else
    let d := if negb (i_trigger p =? 0) then put_pin d pin (p <| i_remote_irr := 1 |>) else d in
    (d, if io_wired d then [ReqVector (i_dest p) (i_dest_mode p) (i_vector p .& 0xff) (i_trigger p)] else []).

Definition Reassess (d : IoapicDevice) (pin : Z) : IoapicDevice * list io_req :=
  let p := arr (io_pins d) pin in
  if (i_trigger p =? 0) || negb (i_level p) || negb (i_remote_irr p =? 0) then (d, []) else Service d pin.

Definition IoapicSetPin (d : IoapicDevice) (pin : Z) (level : bool) : IoapicDevice * list io_req :=
  if (pin <? 0) || (kIoapicPins <=? pin) then (d, [])
  else
    let p := arr (io_pins d) pin in
    let asserted := if negb (i_polarity p =? 0) then negb level else level in
    let d := put_pin d pin (p <| i_level := asserted |>) in
    if negb asserted then (d, [])
    else if negb (i_trigger p =? 0) then Reassess d pin
    else Service d pin.

(** The loop over the pins, from [pin] on. *)
Fixpoint eoi_from (n : nat) (d : IoapicDevice) (pin vector : Z) : IoapicDevice * list io_req :=
  match n with
  | O => (d, [])
  | S n =>
      let p := arr (io_pins d) pin in
      if (i_remote_irr p =? 0) || negb (i_vector p .& 0xff =? vector) then eoi_from n d (pin + 1) vector
      else
        let d := put_pin d pin (p <| i_remote_irr := 0 |>) in
        let '(d, r1) := if i_level p then Reassess d pin else (d, []) in
        let '(d, r2) := eoi_from n d (pin + 1) vector in
        (d, r1 ++ r2)
  end.
Definition IoapicEoi (d : IoapicDevice) (vector : Z) : IoapicDevice * list io_req := eoi_from 24 d 0 vector.

(** ** The register window *)

Definition entry_index (i : Z) : bool := (kEntryBase <=? i) && (i <=? kEntryBase + 2 * kIoapicPins - 1).

Definition IoapicRead (d : IoapicDevice) (addr : Z) : Z :=
  let off := u64 (addr - kIoapicBase) in
  if off =? kRegSel then io_index d
  else if negb (off =? kRegWin) then 0
  else
    switch (io_index d)
      [(kRegId, u32 (io_id d .<< 24)); (kRegVersion, kVersion); (kRegArbitration, u32 (io_id d .<< 24))]
      (if negb (entry_index (io_index d)) then 0
       else
         let p := arr (io_pins d) ((io_index d - kEntryBase) .>> 1) in
         if io_index d .& 1 =? 0 then PinLow p else u32 (i_dest p .<< 24)).

Definition IoapicWrite (d : IoapicDevice) (addr val : Z) : IoapicDevice * list io_req :=
  let off := u64 (addr - kIoapicBase) in
  let v := u32 val in
  if off =? kRegSel then (d <| io_index := v .& 0xff |>, [])
  else if negb (off =? kRegWin) then (d, [])
  else
    switch (io_index d)
      [(kRegId, (d <| io_id := (v .>> 24) .& 0xf |>, [])); (kRegVersion, (d, [])); (kRegArbitration, (d, []))]
      (if negb (entry_index (io_index d)) then (d, [])
       else
         let pin := (io_index d - kEntryBase) .>> 1 in
         let p := arr (io_pins d) pin in
         let p := if io_index d .& 1 =? 0 then SetPinLow p v else p <| i_dest := (v .>> 24) .& 0xf |> in
         Reassess (put_pin d pin p) pin).

Definition IoapicInit (d : IoapicDevice) : IoapicDevice :=
  mkIoapic 0 0 (replicate 24 pin_reset) (io_wired d) (io_nmi_wired d).
Definition IoapicSetDeliverSink (d : IoapicDevice) : IoapicDevice := d <| io_wired := true |>.
Definition IoapicSetNmiSink (d : IoapicDevice) : IoapicDevice := d <| io_nmi_wired := true |>.

(** ** A level request is never lost *)

(** The delivery modes that hand a vector over. *)
Definition carries (p : IoapicPin) : bool :=
  negb ((i_delivery p =? kDeliverySmi) || (i_delivery p =? kDeliveryInit) || (i_delivery p =? kDeliveryNmi) ||
        (i_delivery p =? kDeliveryExtInt)).

(** The pin asks: unmasked, level triggered, asserted, in a vector mode. *)
Definition asking (p : IoapicPin) : bool := (i_mask p =? 0) && negb (i_trigger p =? 0) && i_level p && carries p.

(** A pin that asks has its request in flight. *)
Definition pin_ok (p : IoapicPin) : Prop := (i_remote_irr p = 0 \/ i_remote_irr p = 1) /\ (asking p = true -> i_remote_irr p = 1).
Definition pins_ok (l : list IoapicPin) : Prop := length l = 24%nat /\ Forall pin_ok l.

Lemma put_pin_ok d i p : pins_ok (io_pins d) -> pin_ok p -> pins_ok (io_pins (put_pin d i p)).
Proof. intros [Hl Hf] Hp. split; cbn; [by rewrite length_arr_set|by apply Forall_arr_set]. Qed.

Lemma put_pin_put d i p q : put_pin (put_pin d i p) i q = put_pin d i q.
Proof. unfold put_pin, arr_set. cbn. by rewrite list_insert_insert_eq. Qed.

Lemma pin_at d i p : length (io_pins d) = 24%nat -> 0 <= i < 24 -> arr (io_pins (put_pin d i p)) i = p.
Proof. intros Hl Hi. cbn. apply arr_set_eq. rewrite Hl. lia. Qed.

Lemma idle_ok p l : (i_remote_irr p = 0 \/ i_remote_irr p = 1) -> asking p = false -> i_level p = l ->
  pin_ok p /\ i_level p = l /\ (asking p = true -> i_remote_irr p = 1).
Proof. intros Hr Ha ?. unfold pin_ok. rewrite Ha. done. Qed.

(** Putting any pin and then reassessing it leaves a pin that is [pin_ok]. *)
Lemma reassess_ok d i p : pins_ok (io_pins d) -> 0 <= i < 24 -> (i_remote_irr p = 0 \/ i_remote_irr p = 1) ->
  exists q, fst (Reassess (put_pin d i p) i) = put_pin d i q /\ pin_ok q /\ i_level q = i_level p /\
    (asking p = true -> i_remote_irr q = 1).
Proof.
  intros [Hl Hf] Hi Hr. unfold Reassess, Service. rewrite pin_at by done.
  destruct (i_trigger p =? 0) eqn:Et; [exists p; split; [done|]; apply idle_ok; [done| |done]; unfold asking; by rewrite Et, andb_false_r|].
  destruct (i_level p) eqn:El; [|exists p; split; [done|]; apply idle_ok; [done| |done]; unfold asking; by rewrite El, andb_false_r].
  destruct (Z.eqb_spec (i_remote_irr p) 0) as [Er|Er]; cbn [orb negb];
    [|assert (i_remote_irr p = 1) by lia; exists p; unfold pin_ok; auto].
  destruct (i_mask p =? 0) eqn:Em; cbn [negb]; [|exists p; split; [done|]; apply idle_ok; [done| |done]; unfold asking; by rewrite Em].
  destruct (carries p) eqn:Ec.
  2: { exists p. split; [|apply idle_ok; [done| |done]; unfold asking; by rewrite Ec, andb_false_r].
       unfold carries in Ec. apply negb_false_iff in Ec. repeat case_match; try done; by rewrite ?orb_false_r in Ec. }
  unfold carries in Ec. apply negb_true_iff in Ec. repeat (apply orb_false_iff in Ec as [Ec ?]).
  rewrite Ec, H, H0, H1. cbn [orb].
  exists (p <| i_remote_irr := 1 |>). cbn [fst]. rewrite put_pin_put. split; [done|]. cbn. rewrite El. split; [by split; [right|]|done].
Qed.

Lemma service_edge_ok d i : i_trigger (arr (io_pins d) i) = 0 -> fst (Service d i) = d.
Proof. intros Et. unfold Service. rewrite Et. cbn [Z.eqb negb]. repeat case_match; done. Qed.

Lemma pins_at d i : pins_ok (io_pins d) -> 0 <= i < 24 -> pin_ok (arr (io_pins d) i).
Proof. intros [Hl Hf] Hi. apply Forall_arr; [done|]. rewrite Hl. lia. Qed.

Lemma SetPin_ok d i level : pins_ok (io_pins d) -> pins_ok (io_pins (fst (IoapicSetPin d i level))).
Proof.
  intros Hd. unfold IoapicSetPin. destruct ((i <? 0) || (kIoapicPins <=? i)) eqn:Er; [done|].
  apply orb_false_iff in Er as [Ha%Z.ltb_ge Hb%Z.leb_gt]. unfold kIoapicPins in Hb.
  pose proof (pins_at d i Hd ltac:(lia)) as [Hr Hk]. set (p := arr (io_pins d) i) in *.
  set (a := if negb (i_polarity p =? 0) then _ else _). clearbody a p. destruct a; cbn [negb].
  - destruct (i_trigger p =? 0) eqn:Et; cbn [negb].
    + rewrite service_edge_ok by (rewrite pin_at by (apply Hd || lia); cbn; by apply Z.eqb_eq).
      apply put_pin_ok; [done|]. split; [done|]. unfold asking. cbn. by rewrite Et, andb_false_r.
    + pose proof (reassess_ok d i (p <| i_level := true |>)) as R. destruct (R Hd ltac:(lia) Hr) as (q & -> & Hq & _). by apply put_pin_ok.
  - apply put_pin_ok; [done|]. split; [done|]. unfold asking. cbn. by rewrite andb_false_r.
Qed.

Lemma eoi_from_ok n d i v : pins_ok (io_pins d) -> 0 <= i -> i + Z.of_nat n <= 24 -> pins_ok (io_pins (fst (eoi_from n d i v))).
Proof.
  revert d i; induction n as [|n IH]; intros d i Hd Hi Hn; [done|]. cbn [eoi_from].
  pose proof (pins_at d i Hd ltac:(lia)) as [Hr Hk]. set (p := arr (io_pins d) i) in *. clearbody p.
  destruct (_ || _); [apply IH; (done || lia)|]. set (dr := if i_level p then _ else _).
  assert (H : pins_ok (io_pins (fst dr))).
  { unfold dr. destruct (i_level p) eqn:El.
    - pose proof (reassess_ok d i (p <| i_remote_irr := 0 |>)) as R.
      destruct (R Hd ltac:(lia) ltac:(by left)) as (q & -> & Hq & _). by apply put_pin_ok.
    - apply put_pin_ok; [done|]. split; [by left|]. unfold asking. cbn. by rewrite El, andb_false_r. }
  destruct dr as [d1 r1]. cbn [fst] in H. pose proof (IH d1 (i + 1) H ltac:(lia) ltac:(lia)) as H2.
  by destruct (eoi_from n d1 (i + 1) v).
Qed.

Inductive ioapic_reach : IoapicDevice -> Prop :=
| ir_init d : ioapic_reach (IoapicInit d)
| ir_sinks d : ioapic_reach d -> ioapic_reach (IoapicSetNmiSink (IoapicSetDeliverSink d))
| ir_pin d pin level : ioapic_reach d -> ioapic_reach (fst (IoapicSetPin d pin level))
| ir_eoi d v : ioapic_reach d -> ioapic_reach (fst (IoapicEoi d v))
| ir_write d addr val : ioapic_reach d -> ioapic_reach (fst (IoapicWrite d addr val)).

Lemma Write_ok d addr val : pins_ok (io_pins d) -> pins_ok (io_pins (fst (IoapicWrite d addr val))).
Proof.
  intros Hd. unfold IoapicWrite. destruct (Z.eqb _ kRegSel); [done|]. destruct (negb (Z.eqb _ kRegWin)); [done|].
  apply (switch_ind (fun r : IoapicDevice * list io_req => pins_ok (io_pins (fst r)))).
  { repeat apply Forall_cons_2; try apply Forall_nil_2; intros _; done. }
  destruct (entry_index _) eqn:E; cbn [negb]; [|done]. apply andb_true_iff in E as [Ea%Z.leb_le Eb%Z.leb_le].
  unfold kEntryBase, kIoapicPins in *. set (pin := _ .>> 1).
  assert (Hp : 0 <= pin < 24) by (unfold pin; rewrite Z.shiftr_div_pow2 by lia; Z.to_euclidean_division_equations; lia). clearbody pin.
  pose proof (pins_at d pin Hd Hp) as [Hr Hk].
  match goal with |- context [put_pin d pin ?q] => set (p := q) end. assert (Hr' : i_remote_irr p = 0 \/ i_remote_irr p = 1) by (unfold p; destruct (_ =? 0); exact Hr).
  clearbody p. destruct (reassess_ok d pin p Hd Hp Hr') as (q & -> & Hq & _). by apply put_pin_ok.
Qed.

Lemma ioapic_reach_ok d : ioapic_reach d -> pins_ok (io_pins d).
Proof.
  induction 1 as [d|d _ IH|d pin level _ IH|d v _ IH|d addr val _ IH].
  - split; [done|]. apply Forall_replicate. split; [by left|done].
  - done.
  - by apply SetPin_ok.
  - by apply eoi_from_ok.
  - by apply Write_ok.
Qed.

(** No level request is lost at the I/O APIC: in every reachable state a level pin that is up and
    unmasked has its remote-IRR bit set, that is, its request is on the way to a local APIC or being
    served. *)
Theorem ioapic_level_in_flight d i : ioapic_reach d -> 0 <= i < kIoapicPins ->
  asking (arr (io_pins d) i) = true -> i_remote_irr (arr (io_pins d) i) = 1.
Proof. intros Hr Hi. apply pins_at; [by apply ioapic_reach_ok|done]. Qed.

(** Pin 9, level triggered and unmasked while its wire is already up. *)
Definition ioapic_ex : IoapicDevice :=
  let d := IoapicSetNmiSink (IoapicSetDeliverSink (IoapicInit (mkIoapic 0 0 [] false false))) in
  let d := fst (IoapicSetPin d 9 true) in
  fst (IoapicWrite (fst (IoapicWrite d kIoapicBase 0x22)) (kIoapicBase + kRegWin) 0x8041).

Lemma ioapic_level_in_flight_witness :
  asking (arr (io_pins ioapic_ex) 9) = true /\ i_remote_irr (arr (io_pins ioapic_ex) 9) = 1.
Proof.
  split; [reflexivity|]. apply (ioapic_level_in_flight ioapic_ex 9); [|split; (reflexivity || (vm_compute; congruence))|reflexivity].
  unfold ioapic_ex. repeat first [apply ir_write | apply ir_pin | apply ir_sinks | apply ir_init].
Defined.
