(* ===== verification/PcIrq.v ===== *)
(** * The interrupt wiring of the PC board (board/x86_min.c)

    Every ISA line reaches the 8259 pair and the I/O APIC; the I/O APIC hands
    vectors to the local APIC; the local APIC's end of interrupt goes back to
    the I/O APIC; either controller may drive the one INTR pin, and the
    processor's acknowledge asks the local APIC first.  [b_events] is what the
    processor's hooks got, in order.  A chip's own list of driven levels is
    emptied into the board's sink after every call into it: the sinks do not
    call back into the chip that drives them. *)

From S2P Require Import Prelude Bus Ram Pic Lapic Ioapic.

Record PcIrq := mkPcIrq {
  b_pic : PicDevice; b_ioapic : IoapicDevice; b_lapic : LapicDevice;
  b_pic_irq : bool; b_lapic_irq : bool; b_intr_level : bool; b_events : list cpu_event;
}.
Definition eta_pcirq (b : PcIrq) : PcIrq :=
  mkPcIrq (b_pic b) (b_ioapic b) (b_lapic b) (b_pic_irq b) (b_lapic_irq b) (b_intr_level b) (b_events b).
#[export] Instance upd_b_pic : Upd b_pic := ltac:(mk_upd eta_pcirq b_pic).
#[export] Instance upd_b_ioapic : Upd b_ioapic := ltac:(mk_upd eta_pcirq b_ioapic).
#[export] Instance upd_b_lapic : Upd b_lapic := ltac:(mk_upd eta_pcirq b_lapic).
#[export] Instance upd_b_pic_irq : Upd b_pic_irq := ltac:(mk_upd eta_pcirq b_pic_irq).
#[export] Instance upd_b_lapic_irq : Upd b_lapic_irq := ltac:(mk_upd eta_pcirq b_lapic_irq).
#[export] Instance upd_b_intr_level : Upd b_intr_level := ltac:(mk_upd eta_pcirq b_intr_level).
#[export] Instance upd_b_events : Upd b_events := ltac:(mk_upd eta_pcirq b_events).

(** ** The INTR pin *)

Definition UpdateIntr (b : PcIrq) : PcIrq :=
  let level := b_pic_irq b || b_lapic_irq b in
  b <| b_intr_level := level |> <| b_events := b_events b ++ [EvIrq 0 level] |>.

Definition OnPicIrq (b : PcIrq) (level : bool) : PcIrq := UpdateIntr (b <| b_pic_irq := level |>).
Definition OnLapicIrq (b : PcIrq) (level : bool) : PcIrq := UpdateIntr (b <| b_lapic_irq := level |>).

(** The levels a chip drove during a call, given to its sink. *)
Definition put_pic (b : PcIrq) (p : PicDevice) : PcIrq :=
  fold_left OnPicIrq (snd <$> pic_out p) (b <| b_pic := mkPicDev (pic_master p) (pic_slave p) (pic_wired p) [] |>).
Definition put_lapic (b : PcIrq) (d : LapicDevice) : PcIrq :=
  fold_left OnLapicIrq (l_out d) (b <| b_lapic := d <| l_out := [] |> |>).

(** ** Between the controllers *)

Definition apic_match (b : PcIrq) (dest logical : Z) : bool :=
  if negb (logical =? 0) then tst dest (LapicLogicalMask (b_lapic b)) else dest =? LapicId (b_lapic b).

Definition OnIoapicDeliver (b : PcIrq) (dest logical vector trigger : Z) : PcIrq :=
  if apic_match b dest logical then put_lapic b (LapicDeliver (b_lapic b) vector (negb (trigger =? 0))) else b.

Definition OnIoapicNmi (b : PcIrq) (dest logical : Z) : PcIrq :=
  if apic_match b dest logical then b <| b_events := b_events b ++ [EvNmi] |> else b.

Definition ioapic_req (b : PcIrq) (r : io_req) : PcIrq :=
  match r with
  | ReqVector dest logical vector trigger => OnIoapicDeliver b dest logical vector trigger
  | ReqNmi dest logical => OnIoapicNmi b dest logical
  end.
Definition put_ioapic (b : PcIrq) (dr : IoapicDevice * list io_req) : PcIrq :=
  fold_left ioapic_req (snd dr) (b <| b_ioapic := fst dr |>).

(** Called in the middle of a local APIC write, with the chip as it is then. *)
Definition OnLapicEoi (vector : Z) (db : LapicDevice * PcIrq) : LapicDevice * PcIrq :=
  let b := (snd db) <| b_lapic := fst db |> in
  let b := put_ioapic b (IoapicEoi (b_ioapic b) vector) in
  (b_lapic b, b).

(** [None]: no such ISA line. *)
Definition OnIsaIrq (b : PcIrq) (line : Z) (level : bool) : option PcIrq :=
  match PicSetIrq (b_pic b) line level with
  | Some p => let b := put_pic b p in Some (put_ioapic b (IoapicSetPin (b_ioapic b) line level))
  | None => None
  end.

Definition OnFerr (b : PcIrq) (level : bool) : option PcIrq := OnIsaIrq b 13 level.
Definition kCom1Irq := 4.
Definition OnCom1Irq (b : PcIrq) (level : bool) : option PcIrq := OnIsaIrq b kCom1Irq level.

(** The processor's acknowledge. *)
Definition OnIntAck (b : PcIrq) : Z * PcIrq :=
  let '(vec, d) := LapicAcknowledge (b_lapic b) in
  let b := put_lapic b d in
  if vec <? 0 then let '(vec, p) := PicAcknowledge (b_pic b) in (vec, put_pic b p) else (vec, b).

(** ** Guest accesses and the clock *)

Definition lapic_write (b : PcIrq) (addr val now now2 : Z) : option PcIrq :=
  match LapicWrite (Some OnLapicEoi) (b_lapic b) b addr val now now2 with
  | Some (d, b) => Some (put_lapic b d)
  | None => None
  end.
Definition ioapic_write (b : PcIrq) (addr val : Z) : PcIrq := put_ioapic b (IoapicWrite (b_ioapic b) addr val).
Definition pic_write (b : PcIrq) (c : chip) (addr val : Z) : PcIrq := put_pic b (PicPortWrite c (b_pic b) addr val).
Definition pic_read (b : PcIrq) (c : chip) (addr : Z) : Z * PcIrq :=
  let '(v, p) := PicPortRead c (b_pic b) addr in (v, put_pic b p).
Definition elcr_write (b : PcIrq) (addr val : Z) : PcIrq := put_pic b (ElcrWrite (b_pic b) addr val).
Definition lapic_poll (b : PcIrq) (now now2 : Z) : PcIrq := put_lapic b (LapicPoll (b_lapic b) now now2).

(** Reset and wiring, the interrupt part of [X86Reset] and [WireDevices]. *)
Definition irq_reset (b : PcIrq) : PcIrq :=
  b <| b_pic := PicSetIrqSink PicInit |> <| b_lapic := LapicSetIrqSink (LapicInit (b_lapic b)) |>
    <| b_ioapic := IoapicSetNmiSink (IoapicSetDeliverSink (IoapicInit (b_ioapic b))) |>.

(** The board as allocated ([calloc]) and wired for the first time. *)
Definition irq_board : PcIrq :=
  irq_reset (mkPcIrq PicInit (mkIoapic 0 0 [] false false) (mkLapic [] [] [] [] 0 0 false false []) false false false []).

(** ** The board's invariant *)

(** The level the processor was last told, if it was told one. *)
Definition intr_of (l : list cpu_event) : option bool :=
  last (omap (fun e => match e with EvIrq _ level => Some level | _ => None end) l).

Definition pinned (b : PcIrq) : Prop := default false (intr_of (b_events b)) = b_pic_irq b || b_lapic_irq b.

(** Between the calls of a chip: the local APIC's level is known to the board. *)
Record irq_mid (b : PcIrq) : Prop := {
  im_lapic : lapic_wf (l0 := b_lapic_irq b) (b_lapic b);
  im_quiet : l_out (b_lapic b) = [];
  im_wired : l_wired (b_lapic b) = true;
  im_pins : pins_ok (io_pins (b_ioapic b));
  im_pinned : pinned b;
}.

(** Between guest accesses the level is also the one the priority rule gives. *)
Definition irq_ok (b : PcIrq) : Prop := irq_mid b /\ settled (b_lapic b).

Lemma intr_of_snoc l level : intr_of (l ++ [EvIrq 0 level]) = Some level.
Proof. unfold intr_of. by rewrite omap_app, last_app. Qed.

Lemma OnLapicIrq_pinned b level : pinned (OnLapicIrq b level).
Proof. unfold pinned. cbn. by rewrite intr_of_snoc. Qed.

Lemma OnPicIrq_pinned b level : pinned (OnPicIrq b level).
Proof. unfold pinned. cbn. by rewrite intr_of_snoc. Qed.

Lemma fold_lapic ls b : let b' := fold_left OnLapicIrq ls b in
  b_lapic b' = b_lapic b /\ b_ioapic b' = b_ioapic b /\ b_pic b' = b_pic b /\ b_pic_irq b' = b_pic_irq b /\
  b_lapic_irq b' = default (b_lapic_irq b) (last ls) /\ (pinned b -> pinned b').
Proof.
  revert b; induction ls as [|l ls IH]; intros b; [done|]. cbn [fold_left].
  destruct (IH (OnLapicIrq b l)) as (-> & -> & -> & -> & -> & Hp). split_and!; try done.
  - rewrite last_cons. by destruct (last ls).
  - intros _. apply Hp, OnLapicIrq_pinned.
Qed.

Lemma fold_pic ls b : let b' := fold_left OnPicIrq ls b in
  b_lapic b' = b_lapic b /\ b_ioapic b' = b_ioapic b /\ b_pic b' = b_pic b /\ b_lapic_irq b' = b_lapic_irq b /\
  b_pic_irq b' = default (b_pic_irq b) (last ls) /\ (pinned b -> pinned b').
Proof.
  revert b; induction ls as [|l ls IH]; intros b; [done|]. cbn [fold_left].
  destruct (IH (OnPicIrq b l)) as (-> & -> & -> & -> & -> & Hp). split_and!; try done.
  - rewrite last_cons. by destruct (last ls).
  - intros _. apply Hp, OnPicIrq_pinned.
Qed.

Lemma put_lapic_mid b d : irq_mid b -> lapic_wf (l0 := b_lapic_irq b) d -> l_wired d = true ->
  irq_mid (put_lapic b d) /\ b_lapic (put_lapic b d) = d <| l_out := [] |> /\ b_ioapic (put_lapic b d) = b_ioapic b.
Proof.
  intros [Hl Hq Hw Hp Hn] Hd Hwd. unfold put_lapic.
  destruct (fold_lapic (l_out d) (b <| b_lapic := d <| l_out := [] |> |>)) as (E1 & E2 & E3 & E4 & E5 & E6).
  split; [|by rewrite E1, E2]. split; rewrite ?E1, ?E2, ?E5; cbn; try done.
  - pose proof (lw_out d Hd Hwd) as Ho. destruct Hd as [R1 R2 R3 R4 R5 R6 R7]. by split.
  - by apply E6.
Qed.

Lemma put_pic_mid b p : irq_mid b ->
  irq_mid (put_pic b p) /\ b_lapic (put_pic b p) = b_lapic b /\ b_ioapic (put_pic b p) = b_ioapic b /\
  b_lapic_irq (put_pic b p) = b_lapic_irq b.
Proof.
  intros [Hl Hq Hw Hp Hn]. unfold put_pic.
  match goal with |- context [fold_left OnPicIrq ?ls ?b0] => destruct (fold_pic ls b0) as (E1 & E2 & E3 & E4 & E5 & E6) end.
  split; [|by rewrite E1, E2, E4]. split; rewrite ?E1, ?E2, ?E4; cbn; try done. by apply E6.
Qed.

Lemma UpdateIrq_wired d : l_wired (Lapic.UpdateIrq d) = l_wired d.
Proof. unfold Lapic.UpdateIrq. destruct (eqb _ _); [done|]. cbn. by destruct (l_wired d) eqn:E; cbn; rewrite ?E. Qed.

Lemma deliver_wired d v t : l_wired (LapicDeliver d v t) = l_wired d.
Proof. unfold LapicDeliver. destruct (_ || _); [done|]. by rewrite UpdateIrq_wired. Qed.

Lemma req_mid b r : irq_mid b -> irq_mid (ioapic_req b r) /\ b_ioapic (ioapic_req b r) = b_ioapic b.
Proof.
  intros Hb. destruct r as [dest logical vector trigger|dest logical]; cbn [ioapic_req]; unfold OnIoapicDeliver, OnIoapicNmi;
    (destruct (apic_match _ _ _); [|done]).
  - destruct (put_lapic_mid b (LapicDeliver (b_lapic b) vector (negb (trigger =? 0))) Hb) as (H1 & _ & H2); [|rewrite deliver_wired|done].
    + apply LapicDeliver_wf, Hb.
    + apply Hb.
  - destruct Hb as [Hl Hq Hw Hp Hn]. split; [|done]. split; try done. unfold pinned, intr_of in *. cbn. rewrite omap_app. cbn.
    by rewrite app_nil_r.
Qed.

Lemma put_ioapic_mid b dr : irq_mid b -> pins_ok (io_pins (fst dr)) ->
  irq_mid (put_ioapic b dr) /\ b_ioapic (put_ioapic b dr) = fst dr.
Proof.
  intros [Hl Hq Hw Hp Hn] Hd. unfold put_ioapic.
  assert (Hb : irq_mid (b <| b_ioapic := fst dr |>)) by by split.
  assert (He : b_ioapic (b <| b_ioapic := fst dr |>) = fst dr) by done. revert Hb He.
  generalize (b <| b_ioapic := fst dr |>) (snd dr). intros b1 rs. revert b1. induction rs as [|r rs IH]; intros b1 Hb He; [done|].
  destruct (req_mid b1 r Hb) as [H1 H2]. apply IH; [done|]. by rewrite H2.
Qed.

Lemma put_lapic_ok b d : irq_mid b -> lapic_wf (l0 := b_lapic_irq b) d -> l_wired d = true -> settled d -> irq_ok (put_lapic b d).
Proof. intros Hb Hd Hw Hs. destruct (put_lapic_mid b d Hb Hd Hw) as (H1 & H2 & _). split; [done|]. by rewrite H2. Qed.

Lemma put_pic_ok b p : irq_ok b -> irq_ok (put_pic b p).
Proof. intros [Hb Hs]. destruct (put_pic_mid b p Hb) as (H1 & H2 & _). split; [done|]. by rewrite H2. Qed.

Lemma ioapic_req_ok b r : irq_ok b -> irq_ok (ioapic_req b r).
Proof.
  intros [Hb Hs]. split; [by apply req_mid|]. destruct r as [dest logical vector trigger|dest logical]; cbn [ioapic_req];
    unfold OnIoapicDeliver, OnIoapicNmi; (destruct (apic_match _ _ _); [|done]); [|done].
  apply put_lapic_ok; [done|apply LapicDeliver_wf, Hb|rewrite deliver_wired; apply Hb|]. eapply LapicDeliver_settled; [apply Hb|done].
Qed.

Lemma put_ioapic_ok b dr : irq_ok b -> pins_ok (io_pins (fst dr)) -> irq_ok (put_ioapic b dr).
Proof.
  intros Hb Hd. unfold put_ioapic. assert (H : irq_ok (b <| b_ioapic := fst dr |>)) by (destruct Hb as [[] ?]; split; [by split|done]).
  revert H. generalize (b <| b_ioapic := fst dr |>) (snd dr). intros b1 rs. revert b1.
  induction rs as [|r rs IH]; intros b1 Hb1; [done|]. by apply IH, ioapic_req_ok.
Qed.

Lemma OnIsaIrq_ok b line level b' : irq_ok b -> OnIsaIrq b line level = Some b' -> irq_ok b'.
Proof.
  intros Hb. unfold OnIsaIrq. destruct (PicSetIrq _ _ _) as [p|]; [|done]. intros [= <-]. pose proof (put_pic_ok b p Hb) as H.
  apply put_ioapic_ok; [done|]. apply SetPin_ok, H.
Qed.

Lemma OnIsaIrq_some b line level : 0 <= line < 16 -> exists b', OnIsaIrq b line level = Some b'.
Proof. intros Hl. unfold OnIsaIrq. destruct (set_irq_some (b_pic b) line level Hl) as [p ->]. by eexists. Qed.

Lemma ack_wired d : l_wired (snd (LapicAcknowledge d)) = l_wired d.
Proof. unfold LapicAcknowledge. destruct (negb _); [done|]. destruct (negb _); [done|]. cbn [snd]. by rewrite UpdateIrq_wired. Qed.

Lemma OnIntAck_ok b : irq_ok b -> irq_ok (snd (OnIntAck b)).
Proof.
  intros [Hb Hs]. unfold OnIntAck. destruct (LapicAcknowledge_ok (b_lapic b) (im_lapic b Hb) Hs) as [Hw' Hs'].
  pose proof (ack_wired (b_lapic b)) as Ew. rewrite (im_wired b Hb) in Ew.
  destruct (LapicAcknowledge (b_lapic b)) as [vec d]. cbn [snd] in *. pose proof (put_lapic_ok b d Hb Hw' Ew Hs') as H.
  destruct (vec <? 0); [|done]. destruct (PicAcknowledge _). by apply put_pic_ok.
Qed.

Lemma expire_wired d now : l_wired (TimerExpire d now) = l_wired d.
Proof.
  unfold TimerExpire. set (d1 := if _ && _ then _ else d). assert (E : l_wired d1 = l_wired d) by (unfold d1; destruct (_ && _); [apply deliver_wired|done]).
  clearbody d1. destruct (_ && _); exact E.
Qed.

Lemma lapic_poll_ok b now now2 : irq_ok b -> irq_ok (lapic_poll b now now2).
Proof.
  intros [Hb Hs]. unfold lapic_poll, LapicPoll.
  destruct (_ =? 0); [apply put_lapic_ok; (done || apply Hb)|]. destruct (_ <? _); [apply put_lapic_ok; (done || apply Hb)|].
  destruct (TimerExpire_ok (b_lapic b) now2 (im_lapic b Hb) Hs). apply put_lapic_ok; try done. rewrite expire_wired. apply Hb.
Qed.

(** An end of interrupt: the sink may deliver in the middle of the write. *)
Lemma eoi_write_mid b : irq_mid b -> settled (b_lapic b) ->
  let '(d, b') := write_eoi (Some OnLapicEoi) (b_lapic b) b in
  irq_mid b' /\ lapic_wf (l0 := b_lapic_irq b') d /\ l_wired d = true /\ settled d.
Proof.
  intros Hb Hs. unfold write_eoi. destruct (Z.ltb_spec (HighestVector (l_isr (b_lapic b))) 0) as [E|E].
  { split; [done|]. split; [apply Hb|]. split; [apply Hb|done]. }
  pose proof (top_range _ (lw_isr _ (im_lapic b Hb)) E) as Hr. set (vec := HighestVector _) in *. clearbody vec.
  set (d1 := (b_lapic b) <| l_isr := _ |>).
  assert (Hb1 : irq_mid (b <| b_lapic := d1 |>)).
  { destruct Hb as [[R1 R2 R3 R4 R5 R6 R7] Hq Hw Hp Hn]. split; try done. split; try done. cbn. apply VectorClear_ok; [done|lia]. }
  assert (Hd1 : lapic_wf (l0 := b_lapic_irq b) d1) by apply Hb1.
  assert (Hw1 : l_wired d1 = true) by apply Hb. clearbody d1. destruct (tst _ _).
  - unfold OnLapicEoi. cbn [fst snd]. set (b2 := b <| b_lapic := d1 |>) in *. clearbody b2.
    destruct (put_ioapic_mid b2 (IoapicEoi (b_ioapic b2) vec) Hb1) as [H1 _]; [apply eoi_from_ok; (done || apply Hb1)|].
    set (b3 := put_ioapic b2 _) in *. clearbody b3. destruct (UpdateIrq_wf (b_lapic b3) (im_lapic b3 H1)) as [W1 W2].
    split; [done|]. split; [done|]. split; [rewrite UpdateIrq_wired; apply H1|done].
  - destruct (UpdateIrq_wf d1 Hd1) as [W1 W2]. split; [done|]. split; [done|]. split; [by rewrite UpdateIrq_wired|done].
Qed.

Lemma write_wired {W} d (w : W) addr val now now2 r : LapicWrite None d w addr val now now2 = Some r ->
  l_wired (fst r) = l_wired d /\ snd r = w.
Proof.
  unfold LapicWrite. destruct (negb _); [by intros [= <-]|].
  apply (switch_ind (fun x => x = Some r -> l_wired (fst r) = l_wired d /\ snd r = w)).
  2: { unfold reg_at. destruct (_ <? _); [|done]. by intros [= <-]. }
  repeat apply Forall_cons_2; try apply Forall_nil_2; cbn [fst snd]; intros _ [= <-]; cbn [fst snd]; rewrite ?UpdateIrq_wired; try done.
  - unfold write_eoi. destruct (_ <? 0); [done|]. cbn [fst snd]. by rewrite UpdateIrq_wired.
  - by destruct (negb _).
Qed.

Lemma lapic_write_ok b addr val now now2 b' : irq_ok b -> lapic_write b addr val now now2 = Some b' -> irq_ok b'.
Proof.
  intros [Hb Hs]. unfold lapic_write. destruct (Z.eq_dec (u64 (addr - kLapicBase)) kLapicEoi) as [Ee|Ee].
  - unfold LapicWrite. rewrite Ee. cbn [negb Z.eqb Pos.eqb switch fst snd].
    change (if negb (kLapicEoi .& 0xf =? 0) then Some (b_lapic b, b) else _) with (Some (write_eoi (Some OnLapicEoi) (b_lapic b) b)).
    pose proof (eoi_write_mid b Hb Hs) as H. destruct (write_eoi _ _ _) as [d b1]. destruct H as (H1 & H2 & H3 & H4).
    intros [= <-]. by apply put_lapic_ok.
  - rewrite LapicWrite_no_eoi by done. destruct (LapicWrite None _ _ _ _ _ _) as [[d b1]|] eqn:E; [|done].
    pose proof (write_wired _ _ _ _ _ _ _ E) as [Hw Hx]. cbn [fst snd] in Hw, Hx. subst b1. intros [= <-].
    destruct (LapicWrite_ok (l0 := b_lapic_irq b) None ltac:(done) (b_lapic b) b addr val now now2 d b (im_lapic b Hb) Hs E) as [H1 H2].
    apply put_lapic_ok; try done. rewrite Hw. apply Hb.
Qed.

(** ** Every reachable board *)

Inductive irq_reach : PcIrq -> Prop :=
| br_init : irq_reach irq_board
| br_isa b line level b' : irq_reach b -> OnIsaIrq b line level = Some b' -> irq_reach b'
| br_ack b : irq_reach b -> irq_reach (snd (OnIntAck b))
| br_lapic b addr val now now2 b' : irq_reach b -> lapic_write b addr val now now2 = Some b' -> irq_reach b'
| br_ioapic b addr val : irq_reach b -> irq_reach (ioapic_write b addr val)
| br_pic_write b c addr val : irq_reach b -> irq_reach (pic_write b c addr val)
| br_pic_read b c addr : irq_reach b -> irq_reach (snd (pic_read b c addr))
| br_elcr b addr val : irq_reach b -> irq_reach (elcr_write b addr val)
| br_poll b now now2 : irq_reach b -> irq_reach (lapic_poll b now now2).

Lemma irq_board_ok : irq_ok irq_board.
Proof.
  split; [|reflexivity]. split; try reflexivity.
  - split; try reflexivity; cbn; try (split; [reflexivity|]);
      try (repeat apply Forall_cons_2; try apply Forall_nil_2; unfold rng; lia).
  - split; [done|]. apply Forall_replicate. split; [by left|done].
Qed.

Lemma irq_reach_ok b : irq_reach b -> irq_ok b.
Proof.
  induction 1 as [|b line level b' _ IH E|b _ IH|b addr val now now2 b' _ IH E|b addr val _ IH|b c addr val _ IH|b c addr _ IH|b addr val _ IH|b now now2 _ IH].
  - apply irq_board_ok.
  - by eapply OnIsaIrq_ok.
  - by apply OnIntAck_ok.
  - by eapply lapic_write_ok.
  - apply put_ioapic_ok; [done|]. apply Write_ok, IH.
  - by apply put_pic_ok.
  - unfold pic_read. destruct (PicPortRead _ _ _). by apply put_pic_ok.
  - by apply put_pic_ok.
  - by apply lapic_poll_ok.
Qed.

(** *** The 8259 pair's half of the pin *)










(** What the APICs do leaves the pair alone. *)
Definition same_pic (b b' : PcIrq) : Prop := b_pic b' = b_pic b /\ b_pic_irq b' = b_pic_irq b.

#[export] Instance same_pic_preorder : PreOrder same_pic.
Proof. split; [done|]. intros b1 b2 b3 [E1 E2] [E3 E4]. split; congruence. Qed.










(** ** The life of a level interrupt *)

(** End of interrupt at the I/O APIC when at most one pin has the vector. *)
Definition eoi_hit (d : IoapicDevice) (v j : Z) : Prop :=
  i_remote_irr (arr (io_pins d) j) <> 0 /\ i_vector (arr (io_pins d) j) .& 0xff = v.

Lemma eoi_skip n d k v : ~ eoi_hit d v k -> eoi_from (S n) d k v = eoi_from n d (k + 1) v.
Proof.
  intros Hn. cbn [eoi_from]. unfold eoi_hit in Hn. destruct (Z.eqb_spec (i_remote_irr (arr (io_pins d) k)) 0); [done|].
  destruct (Z.eqb_spec (i_vector (arr (io_pins d) k) .& 0xff) v); [|done]. by destruct Hn.
Qed.

Lemma eoi_none n d k v : (forall j, k <= j < k + Z.of_nat n -> ~ eoi_hit d v j) -> eoi_from n d k v = (d, []).
Proof.
  revert k; induction n as [|n IH]; intros k H; [done|]. rewrite eoi_skip by (apply H; lia). apply IH. intros j Hj. apply H. lia.
Qed.

Lemma eoi_one n d k v i : 0 <= k -> k <= i < k + Z.of_nat n -> eoi_hit d v i ->
  (forall j, k <= j < k + Z.of_nat n -> j <> i -> i_vector (arr (io_pins d) j) .& 0xff <> v) ->
  eoi_from n d k v =
    (let d' := put_pin d i ((arr (io_pins d) i) <| i_remote_irr := 0 |>) in
     if i_level (arr (io_pins d) i) then Reassess d' i else (d', [])).
Proof.
  revert k; induction n as [|n IH]; intros k Hk Hi Hh Ho; [lia|]. destruct (Z.eq_dec k i) as [->|Hne].
  - cbn [eoi_from]. destruct Hh as [Hr Hv]. rewrite (proj2 (Z.eqb_neq _ _) Hr), (proj2 (Z.eqb_eq _ _) Hv). cbn [orb negb].
    set (d1 := put_pin d i _). set (dr := if i_level _ then _ else _).
    assert (Hdr : forall j, i < j -> arr (io_pins (fst dr)) j = arr (io_pins d) j).
    { intros j Hj. assert (H1 : forall q, arr (io_pins (put_pin d i q)) j = arr (io_pins d) j) by (intros; cbn; apply arr_set_ne; lia).
      unfold dr. destruct (i_level _); [|apply H1]. unfold Reassess, Service. repeat case_match; cbn [fst];
        first [apply H1 | unfold d1; rewrite put_pin_put; apply H1]. }
    destruct dr as [d2 r1]. cbn [fst] in Hdr. rewrite eoi_none; [by rewrite app_nil_r|].
    intros j Hj [_ Hv']. rewrite Hdr in Hv' by lia. apply (Ho j); [lia|lia|done].
  - rewrite eoi_skip by (intros [_ Hv']; apply (Ho k); (lia || done)). apply IH; [lia|lia|done|]. intros j Hj. apply Ho. lia.
Qed.

(** Pin [i] of the board asks for vector [v], level triggered, in fixed mode,
    for this board's local APIC, and is idle. *)
Record level_pin (b : PcIrq) (i v : Z) (p : IoapicPin) : Prop := {
  lp_pin : arr (io_pins (b_ioapic b)) i = p;
  lp_fields : i_mask p = 0 /\ i_trigger p = 1 /\ i_delivery p = kDeliveryFixed /\ i_dest_mode p = 0 /\ i_polarity p = 0 /\ i_vector p = v;
  lp_dest : i_dest p = LapicId (b_lapic b);
  lp_wired : io_wired (b_ioapic b) = true;
  lp_range : 0 <= i < 16 /\ 16 <= v < 256;
  lp_sole : forall j, 0 <= j < 24 -> j <> i -> i_vector (arr (io_pins (b_ioapic b)) j) .& 0xff <> v;
}.

Lemma vector_byte v : 16 <= v < 256 -> v .& 0xff = v.
Proof. intros. change 0xff with (2 ^ 8 - 1). rewrite land_ones_wrap by lia. apply wrap_small. unfold rng. lia. Qed.

(** An idle level pin that is reassessed with its wire up sends its vector. *)
Lemma reassess_sends d i p v dest : length (io_pins d) = 24%nat -> 0 <= i < 24 -> i_mask p = 0 -> i_trigger p = 1 ->
  i_delivery p = kDeliveryFixed -> i_dest_mode p = 0 -> i_vector p = v -> 16 <= v < 256 -> i_dest p = dest -> i_level p = true ->
  i_remote_irr p = 0 -> io_wired d = true ->
  Reassess (put_pin d i p) i = (put_pin d i (p <| i_remote_irr := 1 |>), [ReqVector dest 0 v 1]).
Proof.
  intros Hl Hi Em Et Ed Edm Ev Hv Ede El Er Ew. unfold Reassess, Service. rewrite pin_at by done.
  rewrite Et, El, Er, Em, Ed, Edm, Ede, Ev. cbn. rewrite Ew, vector_byte by done. f_equal. apply put_pin_put.
Qed.

Lemma eoi_write_reduces b now now2 :
  lapic_write b (kLapicBase + kLapicEoi) 0 now now2 =
    (let '(d, b') := write_eoi (Some OnLapicEoi) (b_lapic b) b in Some (put_lapic b' d)).
Proof.
  unfold lapic_write. change (LapicWrite (Some OnLapicEoi) (b_lapic b) b (kLapicBase + kLapicEoi) 0 now now2)
    with (Some (write_eoi (Some OnLapicEoi) (b_lapic b) b)). by destruct (write_eoi _ _ _).
Qed.

(** Delivering [v] in level mode. *)
Lemma put_lapic_lapic b d : b_lapic (put_lapic b d) = d <| l_out := [] |> /\ b_ioapic (put_lapic b d) = b_ioapic b.
Proof.
  unfold put_lapic. match goal with |- context [fold_left OnLapicIrq ?ls ?b0] => destruct (fold_lapic ls b0) as (-> & -> & _) end. done.
Qed.

Lemma put_pic_frame b p : b_lapic (put_pic b p) = b_lapic b /\ b_ioapic (put_pic b p) = b_ioapic b.
Proof.
  unfold put_pic. match goal with |- context [fold_left OnPicIrq ?ls ?b0] => destruct (fold_pic ls b0) as (-> & -> & _) end. done.
Qed.

Lemma deliver_sets d v : 16 <= v < 256 -> let d' := LapicDeliver d v true in
  l_irr d' = VectorSet (l_irr d) v /\ l_tmr d' = VectorSet (l_tmr d) v /\ l_isr d' = l_isr d /\ l_reg d' = l_reg d.
Proof.
  intros Hv. unfold LapicDeliver. rewrite (proj2 (Z.ltb_ge v 16)), (proj2 (Z.ltb_ge 255 v)) by lia. cbn [orb].
  match goal with |- context [Lapic.UpdateIrq ?x] => destruct (UpdateIrq_sets x) as (-> & -> & -> & -> & _) end. done.
Qed.

(** The request of a pin reaches this board's local APIC. *)
Lemma put_request b d dest v : 16 <= v < 256 -> dest = LapicId (b_lapic b) ->
  let b' := put_ioapic b (d, [ReqVector dest 0 v 1]) in
  b_ioapic b' = d /\ l_irr (b_lapic b') = VectorSet (l_irr (b_lapic b)) v /\ l_tmr (b_lapic b') = VectorSet (l_tmr (b_lapic b)) v /\
  l_isr (b_lapic b') = l_isr (b_lapic b) /\ l_reg (b_lapic b') = l_reg (b_lapic b).
Proof.
  intros Hv Hd. unfold put_ioapic. cbn [fst snd fold_left ioapic_req]. unfold OnIoapicDeliver, apic_match. cbn [Z.eqb negb b_lapic].
  change (b_lapic (b <| b_ioapic := d |>)) with (b_lapic b). rewrite <- Hd, Z.eqb_refl.
  match goal with |- context [put_lapic ?x ?y] => destruct (put_lapic_lapic x y) as [-> ->] end.
  destruct (deliver_sets (b_lapic b) v Hv) as (E1 & E2 & E3 & E4). cbn. by rewrite E1, E2, E3, E4.
Qed.

Lemma isa_up b i v p b' : irq_mid b -> level_pin b i v p -> i_remote_irr p = 0 -> OnIsaIrq b i true = Some b' ->
  b_ioapic b' = put_pin (b_ioapic b) i (p <| i_level := true |> <| i_remote_irr := 1 |>) /\
  l_irr (b_lapic b') = VectorSet (l_irr (b_lapic b)) v /\ l_tmr (b_lapic b') = VectorSet (l_tmr (b_lapic b)) v /\
  l_isr (b_lapic b') = l_isr (b_lapic b) /\ l_reg (b_lapic b') = l_reg (b_lapic b).
Proof.
  intros Hb [Ep (Em & Et & Ed & Edm & Epo & Ev) Ede Hw [Hi Hv] _] Er. pose proof (im_pins b Hb) as [Hl _].
  unfold OnIsaIrq. destruct (PicSetIrq _ _ _) as [pic|]; [|done]. intros [= <-].
  destruct (put_pic_frame b pic) as [E1 E2]. set (b0 := put_pic b _) in *. clearbody b0.
  rewrite E2. unfold IoapicSetPin. rewrite (proj2 (Z.ltb_ge i 0)), (proj2 (Z.leb_gt kIoapicPins i)) by (unfold kIoapicPins; lia).
  cbn [orb]. rewrite Ep, Epo, Et. cbn [Z.eqb negb].
  rewrite (reassess_sends (b_ioapic b) i (p <| i_level := true |>) v (LapicId (b_lapic b))); try (done || lia).
  destruct (put_request b0 (put_pin (b_ioapic b) i (p <| i_level := true |> <| i_remote_irr := 1 |>)) (LapicId (b_lapic b)) v Hv)
    as (-> & -> & -> & -> & ->); [by rewrite E1|]. by rewrite E1.
Qed.

Lemma isa_down b i v p b' : irq_mid b -> level_pin b i v p -> OnIsaIrq b i false = Some b' ->
  b_ioapic b' = put_pin (b_ioapic b) i (p <| i_level := false |>) /\ b_lapic b' = b_lapic b.
Proof.
  intros Hb [Ep (Em & Et & Ed & Edm & Epo & Ev) Ede Hw [Hi Hv] _].
  unfold OnIsaIrq. destruct (PicSetIrq _ _ _) as [pic|]; [|done]. intros [= <-].
  destruct (put_pic_frame b pic) as [E1 E2]. set (b0 := put_pic b _) in *. clearbody b0.
  rewrite E2. unfold IoapicSetPin. rewrite (proj2 (Z.ltb_ge i 0)), (proj2 (Z.leb_gt kIoapicPins i)) by (unfold kIoapicPins; lia).
  cbn [orb]. rewrite Ep, Epo. cbn [Z.eqb negb]. unfold put_ioapic. cbn. by rewrite E1.
Qed.

(** What lets [v] through: the chip is enabled, and [v] is above the task
    priority, every vector in service and every other request. *)
Record admits (d : LapicDevice) (v : Z) : Prop := {
  ad_on : tst (lreg d kLapicSvr) kSvrEnable = true;
  ad_tpr : (lreg d kLapicTpr / 16) mod 16 < v / 16;
  ad_isr : forall u, 16 <= u < 256 -> has (l_isr d) u = true -> u / 16 < v / 16;
  ad_irr : forall u, 16 <= u < 256 -> has (l_irr d) u = true -> u <= v;
}.

(** The acknowledge of a board whose top request is [v]. *)
Lemma ack_step b v : irq_mid b -> 16 <= v < 256 -> admits (b_lapic b) v -> has (l_irr (b_lapic b)) v = true ->
  let b' := snd (OnIntAck b) in
  fst (OnIntAck b) = v /\ b_ioapic b' = b_ioapic b /\ l_irr (b_lapic b') = VectorClear (l_irr (b_lapic b)) v /\
  l_isr (b_lapic b') = VectorSet (l_isr (b_lapic b)) v /\ l_tmr (b_lapic b') = l_tmr (b_lapic b) /\
  l_reg (b_lapic b') = l_reg (b_lapic b).
Proof.
  intros Hb Hv [Hon Htp His Hir] Hh. assert (Hd : due (b_lapic b) v) by (repeat split; (done || lia)).
  destruct (ack_facts (b_lapic b) v (im_lapic b Hb) Hd) as (Ht & _ & E1 & E2 & E3 & E4).
  assert (Etop : fst (LapicAcknowledge (b_lapic b)) = v).
  { eapply top_unique; [exact Ht|]. split; [done|]. split; [done|]. intros u Hu. destruct (has _ u) eqn:E; [|done].
    specialize (Hir u ltac:(lia) E). lia. }
  unfold OnIntAck. destruct (LapicAcknowledge (b_lapic b)) as [vec d]. cbn [fst snd] in *. subst vec.
  rewrite (proj2 (Z.ltb_ge v 0)) by lia. cbn [fst snd]. destruct (put_lapic_lapic b d) as [-> ->]. cbn. by rewrite E1, E2, E3, E4.
Qed.

(** The end of interrupt of a board whose top vector in service is [v], in
    level mode and held by pin [i] alone. *)
Lemma eoi_step b i v p now now2 : irq_mid b -> level_pin b i v p -> i_remote_irr p = 1 ->
  HighestVector (l_isr (b_lapic b)) = v -> has (l_tmr (b_lapic b)) v = true ->
  exists b', lapic_write b (kLapicBase + kLapicEoi) 0 now now2 = Some b' /\
    l_isr (b_lapic b') = VectorClear (l_isr (b_lapic b)) v /\ l_reg (b_lapic b') = l_reg (b_lapic b) /\
    l_irr (b_lapic b') = (if i_level p then VectorSet (l_irr (b_lapic b)) v else l_irr (b_lapic b)) /\
    arr (io_pins (b_ioapic b')) i = p <| i_remote_irr := if i_level p then 1 else 0 |>.
Proof.
  intros Hb [Ep (Em & Et & Ed & Edm & Epo & Ev) Ede Hw [Hi Hv] Hsole] Er Htop Htm. pose proof (im_pins b Hb) as [Hl _].
  rewrite eoi_write_reduces. unfold write_eoi. rewrite Htop, (proj2 (Z.ltb_ge v 0)) by lia.
  set (d1 := (b_lapic b) <| l_isr := VectorClear (l_isr (b_lapic b)) v |>).
  assert (Htst : tst (arr (l_tmr d1) (v .>> 3)) (1 .<< (v .& 7)) = true).
  { change (l_tmr d1) with (l_tmr (b_lapic b)). rewrite one_bit, tst_pow2; [exact Htm|..]; rewrite bit_eq; apply Z.mod_pos_bound; lia. }
  rewrite Htst. unfold OnLapicEoi. cbn [fst snd]. set (b1 := b <| b_lapic := d1 |>).
  change (b_ioapic b1) with (b_ioapic b). unfold IoapicEoi.
  rewrite (eoi_one 24 (b_ioapic b) 0 v i ltac:(lia) ltac:(lia)); [|by unfold eoi_hit; rewrite Ep, Er, Ev, vector_byte|exact Hsole].
  cbv zeta. rewrite Ep. destruct (i_level p) eqn:El.
  - rewrite (reassess_sends (b_ioapic b) i (p <| i_remote_irr := 0 |>) v (LapicId (b_lapic b))); try (done || lia).
    destruct (put_request b1 (put_pin (b_ioapic b) i (p <| i_remote_irr := 0 |> <| i_remote_irr := 1 |>)) (LapicId (b_lapic b)) v Hv)
      as (F1 & F2 & F3 & F4 & F5); [done|]. set (b2 := put_ioapic b1 _) in *. clearbody b2.
    eexists. split; [done|]. destruct (put_lapic_lapic b2 (Lapic.UpdateIrq (b_lapic b2))) as [-> ->].
    destruct (UpdateIrq_sets (b_lapic b2)) as (G1 & G2 & G3 & G4 & _). cbn. rewrite G1, G2, G3, F1, F2, F4, F5.
    split; [done|]. split; [done|]. split; [done|]. rewrite pin_at; [done|done|lia].
  - unfold put_ioapic. cbn [fst snd fold_left]. eexists. split; [done|].
    match goal with |- context [put_lapic ?x ?y] => destruct (put_lapic_lapic x y) as [-> ->] end.
    match goal with |- context [Lapic.UpdateIrq ?x] => destruct (UpdateIrq_sets x) as (G1 & G2 & G3 & G4 & _) end.
    cbn in *. rewrite G1, G2, G3. split; [done|]. split; [done|]. split; [done|]. apply arr_set_eq. rewrite Hl. lia.
Qed.

(** [v] is the top vector in service once it was acknowledged. *)
Lemma top_in_service b v : irq_mid b -> 16 <= v < 256 ->
  (forall u, 16 <= u < 256 -> has (l_isr (b_lapic b)) u = true -> u / 16 < v / 16) ->
  HighestVector (VectorSet (l_isr (b_lapic b)) v) = v.
Proof.
  intros Hb Hv His. pose proof (lw_isr _ (im_lapic b Hb)) as Hs. apply HighestVector_top; [apply VectorSet_ok; [done|lia]|].
  split; [done|]. split; [by rewrite has_set, Z.eqb_refl by (done || lia)|]. intros u Hu. rewrite has_set by (done || lia).
  destruct (Z.eqb_spec v u); [lia|]. cbn [orb]. destruct (has _ u) eqn:E; [|done]. specialize (His u ltac:(lia) E).
  assert (v / 16 <= u / 16) by (apply Z.div_le_mono; lia). lia.
Qed.

Lemma lreg_same d d' off : l_reg d' = l_reg d -> lreg d' off = lreg d off.
Proof. unfold lreg. by intros ->. Qed.

(** C13: the life of a level interrupt on the PC board: take any reachable state of the two 8259s,
    the I/O APIC and the local APIC in which the pin of an ISA line 0 to 15 is unmasked, level
    triggered, active high, in fixed mode and addressed physically to this local APIC, is alone in
    using its vector and has no request outstanding (remote IRR clear), and the local APIC is
    enabled with the vector's class above the task priority and everything in service and the vector
    not below any other request. Then raising the line makes the vector due at the local APIC, the
    processor's acknowledge returns that vector, and the end of interrupt delivers it again when the
    line is still up and retires it everywhere when the line has dropped. *)
Theorem pc_level_lifecycle b i v p now now2 :
  irq_reach b -> level_pin b i v p -> i_remote_irr p = 0 -> admits (b_lapic b) v ->
  exists b1, OnIsaIrq b i true = Some b1 /\
  let b2 := snd (OnIntAck b1) in
  due (b_lapic b1) v /\ fst (OnIntAck b1) = v /\
  (exists b3, lapic_write b2 (kLapicBase + kLapicEoi) 0 now now2 = Some b3 /\ due (b_lapic b3) v /\
     i_remote_irr (arr (io_pins (b_ioapic b3)) i) = 1) /\
  (exists b2' b3, OnIsaIrq b2 i false = Some b2' /\ lapic_write b2' (kLapicBase + kLapicEoi) 0 now now2 = Some b3 /\
     has (l_irr (b_lapic b3)) v = false /\ has (l_isr (b_lapic b3)) v = false /\
     i_remote_irr (arr (io_pins (b_ioapic b3)) i) = 0).
Proof.
  intros Hr Hp Er Ha. destruct (irq_reach_ok b Hr) as [Hb Hs].
  pose proof (lp_range _ _ _ _ Hp) as [Hi Hv]. pose proof (im_pins b Hb) as [Hlen _].
  destruct (OnIsaIrq_some b i true Hi) as [b1 Eb1]. exists b1. split; [done|]. intros b2.
  pose proof (OnIsaIrq_ok b i true b1 (conj Hb Hs) Eb1) as [Hb1 Hs1].
  pose proof (OnIntAck_ok _ (conj Hb1 Hs1)) as [Hb2 Hs2]. fold b2 in Hb2, Hs2.
  destruct (isa_up b i v p b1 Hb Hp Er Eb1) as (I1 & I2 & I3 & I4 & I5).
  destruct Ha as [Aon Atp Ais Air]. pose proof (lw_irr _ (im_lapic b Hb)) as Vi. pose proof (lw_isr _ (im_lapic b Hb)) as Vs.
  pose proof (lw_tmr _ (im_lapic b Hb)) as Vt.
  assert (A1 : admits (b_lapic b1) v).
  { split; rewrite ?(lreg_same _ _ _ I5), ?I4, ?I2; try done. intros u Hu. rewrite has_set by (done || lia).
    destruct (Z.eqb_spec v u); [lia|]. by apply Air. }
  assert (H1 : has (l_irr (b_lapic b1)) v = true) by (rewrite I2, has_set, Z.eqb_refl by (done || lia); done).
  destruct (ack_step b1 v Hb1 Hv A1 H1) as (K1 & K2 & K3 & K4 & K5 & K6). fold b2 in K2, K3, K4, K5, K6.
  assert (Htop : HighestVector (l_isr (b_lapic b2)) = v) by (rewrite K4; apply top_in_service; [done..|apply A1]).
  assert (Htm : has (l_tmr (b_lapic b2)) v = true) by (rewrite K5, I3, has_set, Z.eqb_refl by (done || lia); done).
  assert (Hfree : has (VectorClear (l_isr (b_lapic b2)) v) v = false).
  { rewrite has_clear, Z.eqb_refl; [done|apply (lw_isr _ (im_lapic b2 Hb2))|lia..]. }
  set (q := p <| i_level := true |> <| i_remote_irr := 1 |>) in *.
  assert (P2 : level_pin b2 i v q).
  { destruct Hp as [Ep Ef Ede Hw Hrg Hsole]. split; try done.
    - rewrite K2, I1. apply pin_at; (done || lia).
    - unfold LapicId. by rewrite (lreg_same _ _ _ K6), (lreg_same _ _ _ I5).
    - by rewrite K2, I1.
    - intros j Hj Hne. rewrite K2, I1. cbn. rewrite arr_set_ne by lia. by apply Hsole. }
  split; [repeat split; (done || lia || apply A1)|]. split; [done|]. split.
  - destruct (eoi_step b2 i v q now now2 Hb2 P2 eq_refl Htop Htm) as (b3 & E & J1 & J2 & J3 & J4). exists b3. split; [done|].
    split; [|by rewrite J4]. cbn in J3. split; [by rewrite (lreg_same _ _ _ J2), (lreg_same _ _ _ K6), (lreg_same _ _ _ I5)|].
    split; [done|]. split; [rewrite J3, has_set, Z.eqb_refl; [done|apply (lw_irr _ (im_lapic b2 Hb2))|lia..]|].
    split; [by rewrite (lreg_same _ _ _ J2), (lreg_same _ _ _ K6), (lreg_same _ _ _ I5)|].
    intros u Hu Hh. rewrite J1, has_clear in Hh; [|apply (lw_isr _ (im_lapic b2 Hb2))|lia..].
    apply andb_true_iff in Hh as [Hne%negb_true_iff Hh]. rewrite K4, I4, has_set, Hne in Hh by (done || lia).
    exact (Ais u Hu Hh).
  - destruct (OnIsaIrq_some b2 i false Hi) as [b2' Eb2]. destruct (isa_down b2 i v q b2' Hb2 P2 Eb2) as [D1 D2].
    pose proof (OnIsaIrq_ok b2 i false b2' (conj Hb2 Hs2) Eb2) as [Hb3 _]. pose proof (im_pins b2 Hb2) as [Hlen2 _].
    assert (P3 : level_pin b2' i v (q <| i_level := false |>)).
    { destruct P2 as [Ep Ef Ede Hw Hrg Hsole]. split; try done.
      - rewrite D1. apply pin_at; (done || lia).
      - by rewrite D2.
      - by rewrite D1.
      - intros j Hj Hne. rewrite D1. cbn. rewrite arr_set_ne by lia. by apply Hsole. }
    destruct (eoi_step b2' i v (q <| i_level := false |>) now now2 Hb3 P3 eq_refl) as (b3 & E & J1 & J2 & J3 & J4); [by rewrite D2..|].
    exists b2', b3. split; [done|]. split; [done|]. cbn in J3. split; [|split; [by rewrite J1, D2|by rewrite J4]].
    rewrite J3, D2, K3, has_clear, Z.eqb_refl; [done|apply (lw_irr _ (im_lapic b1 Hb1))|lia..].
Qed.

(** ** Witnesses *)

(** The local APIC on, pin 9 level triggered with vector 0x41. *)
Definition irq_on : PcIrq := match lapic_write irq_board (kLapicBase + kLapicSvr) 0x1ff 0 0 with Some b => b | None => irq_board end.
Definition irq_ex : PcIrq := ioapic_write (ioapic_write irq_on kIoapicBase 0x22) (kIoapicBase + kRegWin) 0x8041.
Definition pin9 : IoapicPin := arr (io_pins (b_ioapic irq_ex)) 9.

Lemma irq_ex_reach : irq_reach irq_ex.
Proof.
  apply br_ioapic, br_ioapic. eapply (br_lapic irq_board (kLapicBase + kLapicSvr) 0x1ff 0 0); [apply br_init|reflexivity].
Qed.

Lemma pins_checked (P : Z -> bool) : forallb P (seqZ 0 24) = true -> forall j, 0 <= j < 24 -> P j = true.
Proof. intros H j Hj. rewrite forallb_forall in H. apply H, list_elem_of_In, elem_of_seqZ. exact Hj. Qed.

Lemma pin9_ok : level_pin irq_ex 9 0x41 pin9.
Proof.
  split; try reflexivity; [by vm_compute|lia|]. intros j Hj Hne.
  pose proof (pins_checked (fun j => (j =? 9) || negb (i_vector (arr (io_pins (b_ioapic irq_ex)) j) .& 0xff =? 0x41)) eq_refl j Hj) as H.
  cbv beta in H. rewrite (proj2 (Z.eqb_neq j 9) Hne) in H. cbn [orb] in H. apply negb_true_iff, Z.eqb_neq in H. exact H.
Qed.

Lemma no_vector u : 16 <= u < 256 -> has (replicate 32 0) u = false.
Proof.
  intros Hu. pose proof (slot_range u ltac:(lia)). unfold has, arr. rewrite slot_eq, lookup_total_replicate_2 by lia. apply Z.bits_0.
Qed.

Lemma irq_ex_admits : admits (b_lapic irq_ex) 0x41.
Proof.
  split; [reflexivity|reflexivity|..]; intros u Hu H; exfalso; revert H;
    [change (l_isr (b_lapic irq_ex)) with (replicate 32 0)|change (l_irr (b_lapic irq_ex)) with (replicate 32 0)]; by rewrite no_vector by done.
Qed.

Definition irq_up : PcIrq := default irq_ex (OnIsaIrq irq_ex 9 true).

Lemma irq_up_ok : OnIsaIrq irq_ex 9 true = Some irq_up.
Proof. unfold irq_up. by destruct (OnIsaIrq_some irq_ex 9 true ltac:(lia)) as [b ->]. Qed.

(** ** Reset *)

(** A reset leaves the board's record of the levels behind: with a request due
    at the reset, both controllers end up idle, and the next change of any line
    still asserts INTR. *)
Theorem reset_keeps_intr : exists b b', irq_reach b /\ OnIsaIrq (irq_reset b) 3 false = Some b' /\
  PicHasPending (b_pic b') = false /\ Deliverable (b_lapic b') = false /\ intr_of (b_events b') = Some true.
Proof.
  exists irq_up, (default irq_up (OnIsaIrq (irq_reset irq_up) 3 false)).
  split; [exact (br_isa irq_ex 9 true irq_up irq_ex_reach irq_up_ok)|]. split.
  - by destruct (OnIsaIrq_some (irq_reset irq_up) 3 false ltac:(lia)) as [b ->].
  - vm_compute. done.
Qed.



Lemma pc_level_lifecycle_witness : exists b1, OnIsaIrq irq_ex 9 true = Some b1 /\ fst (OnIntAck b1) = 0x41 /\
  exists b3, lapic_write (snd (OnIntAck b1)) (kLapicBase + kLapicEoi) 0 0 0 = Some b3 /\ due (b_lapic b3) 0x41.
Proof.
  destruct (pc_level_lifecycle irq_ex 9 0x41 pin9 0 0 irq_ex_reach pin9_ok eq_refl irq_ex_admits) as (b1 & E & _ & H1 & (b3 & H2 & H3 & _) & _).
  exists b1. split; [exact E|]. split; [exact H1|]. exists b3. split; [exact H2|exact H3].
Defined.
