(* ===== verification/Ps2Kbd.v ===== *)
(** * PS/2 keyboard (device/input/ps2kbd.c)

    The command protocol and the scancode encoder.  Every operation returns the
    bytes it sends, in order.  The theorem: the set-2 encoding loses nothing
    against the set-1 events the host reports. *)

From S2P Require Import Prelude.

Definition kCmdSetLeds := 0xed.
Definition kCmdEcho := 0xee.
Definition kCmdSetSet := 0xf0.
Definition kCmdGetId := 0xf2.
Definition kCmdSetRate := 0xf3.
Definition kCmdEnable := 0xf4.
Definition kCmdDefaultsOff := 0xf5.
Definition kCmdDefaults := 0xf6.
Definition kCmdRepeat := 0xf7.
Definition kCmdMakeBreak := 0xf8.
Definition kCmdMakeOnly := 0xf9.
Definition kCmdRepeatBreak := 0xfa.
Definition kCmdSomeRepeat := 0xfb.
Definition kCmdSomeMakeBreak := 0xfc.
Definition kCmdSomeMakeOnly := 0xfd.
Definition kCmdReset := 0xff.
Definition kReplyAck := 0xfa.
Definition kReplyResend := 0xfe.
Definition kReplyBat := 0xaa.
Definition kIdFirst := 0xab.
Definition kIdSecond := 0x83.

(** What the next byte is for. *)
Inductive kbd_wait := kWaitNone | kWaitSet | kWaitRate | kWaitLeds | kWaitSet3Keys.

Definition kSet2FromSet1 : list Z := [
  0x00; 0x76; 0x16; 0x1e; 0x26; 0x25; 0x2e; 0x36;
  0x3d; 0x3e; 0x46; 0x45; 0x4e; 0x55; 0x66; 0x0d;
  0x15; 0x1d; 0x24; 0x2d; 0x2c; 0x35; 0x3c; 0x43;
  0x44; 0x4d; 0x54; 0x5b; 0x5a; 0x14; 0x1c; 0x1b;
  0x23; 0x2b; 0x34; 0x33; 0x3b; 0x42; 0x4b; 0x4c;
  0x52; 0x0e; 0x12; 0x5d; 0x1a; 0x22; 0x21; 0x2a;
  0x32; 0x31; 0x3a; 0x41; 0x49; 0x4a; 0x59; 0x7c;
  0x11; 0x29; 0x58; 0x05; 0x06; 0x04; 0x0c; 0x03;
  0x0b; 0x02; 0x0a; 0x01; 0x09; 0x77; 0x7e; 0x6c;
  0x75; 0x7d; 0x7b; 0x6b; 0x73; 0x74; 0x79; 0x69;
  0x72; 0x7a; 0x70; 0x71; 0x7f; 0x60; 0x61; 0x78;
  0x07; 0x0f; 0x17; 0x1f; 0x27; 0x2f; 0x37; 0x3f;
  0x47; 0x4f; 0x56; 0x5e; 0x08; 0x10; 0x18; 0x20;
  0x28; 0x30; 0x38; 0x40; 0x48; 0x50; 0x57; 0x6f;
  0x13; 0x19; 0x39; 0x51; 0x53; 0x5c; 0x5f; 0x62;
  0x63; 0x64; 0x65; 0x67; 0x68; 0x6a; 0x6d; 0x6e].

Record Ps2KbdState := mkKbd { k_set : Z; k_translate : bool; k_enabled : bool; k_wait : kbd_wait }.
Definition eta_kbd (s : Ps2KbdState) : Ps2KbdState := mkKbd (k_set s) (k_translate s) (k_enabled s) (k_wait s).
#[export] Instance upd_k_set : Upd k_set := ltac:(mk_upd eta_kbd k_set).
#[export] Instance upd_k_translate : Upd k_translate := ltac:(mk_upd eta_kbd k_translate).
#[export] Instance upd_k_enabled : Upd k_enabled := ltac:(mk_upd eta_kbd k_enabled).
#[export] Instance upd_k_wait : Upd k_wait := ltac:(mk_upd eta_kbd k_wait).

Definition Set2Extended (c : Z) : Z :=
  switch c
    [(0x1c, 0x5a); (0x1d, 0x14); (0x35, 0x4a); (0x37, 0x12); (0x38, 0x11); (0x46, 0x7e); (0x47, 0x6c); (0x48, 0x75);
     (0x49, 0x7d); (0x4b, 0x6b); (0x4d, 0x74); (0x4f, 0x69); (0x50, 0x72); (0x51, 0x7a); (0x52, 0x70); (0x53, 0x71);
     (0x5b, 0x1f); (0x5c, 0x27); (0x5d, 0x2f); (0x5e, 0x37); (0x5f, 0x3f); (0x63, 0x5e)] c.

Definition TranslateReply (st : Ps2KbdState) (b : Z) : Z :=
  if negb (k_translate st) then b
  else switch b [(0x01, 0x43); (0x02, 0x41); (0x03, 0x3f); (0x83, 0x41); (0x84, 0x54)] b.

Definition Emit (st : Ps2KbdState) (ext : bool) (code : Z) (up : bool) : list Z :=
  if k_translate st || (k_set st =? 1) then
    (if ext then [0xe0] else []) ++ [u8 (code .| (if up then 0x80 else 0))]
  else
    (if ext then [0xe0] else []) ++ (if up then [0xf0] else []) ++
    [u8 (if ext then Set2Extended code else arr kSet2FromSet1 code)].

(** The byte is a command, with no parameter outstanding. *)
Definition kbd_command (st : Ps2KbdState) (val : Z) : Ps2KbdState * list Z :=
  let st := st <| k_wait := kWaitNone |> in
  switch val
    [(kCmdSetLeds, (st <| k_wait := kWaitLeds |>, [kReplyAck]));
     (kCmdEcho, (st, [kCmdEcho]));
     (kCmdSetSet, (st <| k_wait := kWaitSet |>, [kReplyAck]));
     (kCmdGetId, (st, [kReplyAck; kIdFirst; TranslateReply st kIdSecond]));
     (kCmdSetRate, (st <| k_wait := kWaitRate |>, [kReplyAck]));
     (kCmdEnable, (st <| k_enabled := true |>, [kReplyAck]));
     (kCmdDefaultsOff, (st <| k_enabled := false |>, [kReplyAck]));
     (kCmdDefaults, (st, [kReplyAck]));
     (kCmdSomeRepeat, (st <| k_wait := kWaitSet3Keys |>, [kReplyAck]));
     (kCmdSomeMakeBreak, (st <| k_wait := kWaitSet3Keys |>, [kReplyAck]));
     (kCmdSomeMakeOnly, (st <| k_wait := kWaitSet3Keys |>, [kReplyAck]));
     (kCmdRepeat, (st, [kReplyAck])); (kCmdMakeBreak, (st, [kReplyAck])); (kCmdMakeOnly, (st, [kReplyAck]));
     (kCmdRepeatBreak, (st, [kReplyAck]));
     (kCmdReset, (st <| k_set := 2 |> <| k_enabled := true |> <| k_wait := kWaitNone |>, [kReplyAck; kReplyBat]))]
    (st, [kReplyResend]).

Definition Ps2KbdWrite (st : Ps2KbdState) (val : Z) : Ps2KbdState * list Z :=
  match k_wait st with
  | kWaitSet =>
      let st := st <| k_wait := kWaitNone |> in
      if val =? 0 then (st, [kReplyAck; TranslateReply st (k_set st)])
      else if (val =? 1) || (val =? 2) then (st <| k_set := val |>, [kReplyAck])
      else (st, [kReplyResend])
  | kWaitRate | kWaitLeds => (st <| k_wait := kWaitNone |>, [kReplyAck])
  | kWaitSet3Keys =>
      if (val =? kCmdSetLeds) || (val =? kCmdEcho) || (kCmdSetSet <=? val) then kbd_command st val else (st, [kReplyAck])
  | kWaitNone => kbd_command st val
  end.

Definition Ps2KbdSetTranslate (st : Ps2KbdState) (on : bool) : Ps2KbdState := st <| k_translate := on |>.

Definition Ps2KbdKey (st : Ps2KbdState) (scan : Z) (extended up : bool) : list Z :=
  if negb (k_enabled st) then [] else Emit st extended scan up.

Definition Ps2KbdInit : Ps2KbdState := mkKbd 2 true true kWaitNone.

(** ** Set 2 loses nothing *)

(** The 8042's table, set 2 to set 1, as the inverse of the one above. *)
Definition set1_of (c : Z) : Z := match list_find (fun x => x = c) kSet2FromSet1 with Some (i, _) => Z.of_nat i | None => 0 end.
(** The extended keys of a PC keyboard. *)
Definition ext_keys : list Z :=
  [0x1c; 0x1d; 0x35; 0x37; 0x38; 0x46; 0x47; 0x48; 0x49; 0x4b; 0x4d; 0x4f; 0x50; 0x51; 0x52; 0x53; 0x5b; 0x5c; 0x5d; 0x5e; 0x5f; 0x63].
Definition set1_ext_of (c : Z) : Z := match list_find (fun x => Set2Extended x = c) ext_keys with Some (_, x) => x | None => 0 end.

(** A reader of set 2: extended, code in set 1, released; and the rest. *)
Definition read_set2 (bs : list Z) : option ((bool * Z * bool) * list Z) :=
  let strip (p : Z) (bs : list Z) := match bs with b :: r => if b =? p then (true, r) else (false, bs) | [] => (false, bs) end in
  let '(ext, bs) := strip 0xe0 bs in
  let '(up, bs) := strip 0xf0 bs in
  match bs with
  | c :: r => Some ((ext, if ext then set1_ext_of c else set1_of c, up), r)
  | [] => None
  end.

Lemma ext_keys_inv c : c ∈ ext_keys -> set1_ext_of (Set2Extended c) = c.
Proof.
  assert (G : forallb (fun c => set1_ext_of (Set2Extended c) =? c) ext_keys = true) by (vm_compute; reflexivity).
  intros Hc. rewrite forallb_forall in G. apply Z.eqb_eq, G, list_elem_of_In, Hc.
Qed.

Definition plain_check (c : Z) : bool :=
  let x := arr kSet2FromSet1 c in (x <? 128) && (0 <? x) && (set1_of x =? c) && (u8 x =? x).
Definition ext_check (c : Z) : bool := let x := Set2Extended c in (x <? 128) && (0 <? x) && (u8 x =? x).

Lemma codes_checked c : 1 <= c < 128 -> plain_check c = true /\ ext_check c = true.
Proof.
  assert (G : forallb (fun c => plain_check c && ext_check c) (seqZ 1 127) = true) by (vm_compute; reflexivity).
  intros Hc. rewrite forallb_forall in G. apply andb_true_iff, G, list_elem_of_In, elem_of_seqZ. lia.
Qed.

(** No code is taken for a prefix. *)
Lemma read_code (ext up : bool) x r : 0 < x < 128 ->
  read_set2 ((if ext then [0xe0] else []) ++ (if up then [0xf0] else []) ++ x :: r) =
    Some ((ext, if ext then set1_ext_of x else set1_of x, up), r).
Proof.
  intros Hx. assert (E1 : (x =? 0xe0) = false) by (apply Z.eqb_neq; lia). assert (E2 : (x =? 0xf0) = false) by (apply Z.eqb_neq; lia).
  unfold read_set2. destruct ext, up; cbn [app Z.eqb Pos.eqb]; rewrite ?E1, ?E2; cbn [Z.eqb Pos.eqb]; rewrite ?E1, ?E2; reflexivity.
Qed.

(** The set-2 encoding loses nothing: with scanning on, the bytes sent for a key in scan code set 2
    are decoded to the same key, prefix and direction, and with translation on the bytes are the
    set-1 code. *)
Theorem kbd_set2_roundtrip st scan (ext up : bool) rest :
  k_enabled st = true -> k_translate st = false -> k_set st = 2 -> 1 <= scan < 128 -> (ext = true -> scan ∈ ext_keys) ->
  read_set2 (Ps2KbdKey st scan ext up ++ rest) = Some ((ext, scan, up), rest) /\
  Ps2KbdKey (Ps2KbdSetTranslate st true) scan ext up = (if ext then [0xe0] else []) ++ [scan .| (if up then 0x80 else 0)].
Proof.
  intros He Ht Hs Hc Hx. destruct (codes_checked scan Hc) as [Cp Ce]. split.
  - unfold Ps2KbdKey, Emit. rewrite He, Ht, Hs. cbn [negb orb Z.eqb Pos.eqb]. rewrite <- !app_assoc. cbn [app].
    unfold plain_check in Cp. unfold ext_check in Ce. repeat (apply andb_true_iff in Cp as [Cp ?]). repeat (apply andb_true_iff in Ce as [Ce ?]).
    apply Z.ltb_lt in Cp, Ce. apply Z.eqb_eq in H, H0. apply Z.ltb_lt in H1. apply Z.ltb_lt in H3. apply Z.eqb_eq in H2.
    rewrite read_code; destruct ext; rewrite ?H, ?H0, ?H2; try lia; [|done].
    by rewrite (ext_keys_inv scan (Hx eq_refl)).
  - unfold Ps2KbdKey, Emit. cbn. rewrite He. cbn [negb]. f_equal. f_equal. apply wrap_small, rng_lor; [lia|unfold rng; lia|].
    destruct up; unfold rng; lia.
Qed.

Lemma kbd_set2_roundtrip_witness : Ps2KbdKey (mkKbd 2 false true kWaitNone) 0x4b true true = [0xe0; 0xf0; 0x6b] /\
  read_set2 [0xe0; 0xf0; 0x6b] = Some ((true, 0x4b, true), []).
Proof.
  split; [reflexivity|].
  apply (kbd_set2_roundtrip (mkKbd 2 false true kWaitNone) 0x4b true true []); [reflexivity..|lia|].
  intros _. apply list_elem_of_In. cbn. tauto.
Defined.

