(* ===== verification/Ps2Mouse.v ===== *)
(** * PS/2 mouse (device/input/ps2mouse.c)

    The command protocol, the wheel handshake, stream and remote reporting, and
    the movement packet.  Every operation returns the bytes it sends.  Movement
    counts are mathematical integers: a guest that never polls would have to be
    moved over 2^31 counts before the C sums overflow. *)

From S2P Require Import Prelude.

Definition kCmdSetScale11 := 0xe6.
Definition kCmdSetScale21 := 0xe7.
Definition kCmdSetRes := 0xe8.
Definition kCmdGetStatus := 0xe9.
Definition kCmdSetStream := 0xea.
Definition kCmdPoll := 0xeb.
Definition kCmdResetWrap := 0xec.
Definition kCmdSetWrap := 0xee.
Definition kCmdSetRemote := 0xf0.
Definition kCmdGetId := 0xf2.
Definition kCmdSetRate := 0xf3.
Definition kCmdEnable := 0xf4.
Definition kCmdDisable := 0xf5.
Definition kCmdSetDefaults := 0xf6.
Definition kCmdReset := 0xff.
Definition kReplyAck := 0xfa.
Definition kReplyResend := 0xfe.
Definition kReplyBat := 0xaa.
Definition kIdStandard := 0x00.
Definition kIdImps2 := 0x03.
Definition kRates : list Z := [10; 20; 40; 60; 80; 100; 200].
Definition kDefaultRate := 100.
Definition kDefaultRes := 2.

Inductive wheel_detect := kDetectIdle | kDetectSaw200 | kDetectSaw100.

(** [m_command]: -1, or the command waiting for its parameter. *)
Record Ps2MouseState := mkMouse {
  m_enabled : bool; m_remote : bool; m_wrap : bool; m_scale21 : bool; m_res : Z; m_rate : Z; m_id : Z; m_detect : wheel_detect;
  m_buttons : Z; m_reported : Z; m_dx : Z; m_dy : Z; m_dz : Z; m_command : Z;
}.
Definition eta_mouse (s : Ps2MouseState) : Ps2MouseState :=
  mkMouse (m_enabled s) (m_remote s) (m_wrap s) (m_scale21 s) (m_res s) (m_rate s) (m_id s) (m_detect s) (m_buttons s)
    (m_reported s) (m_dx s) (m_dy s) (m_dz s) (m_command s).
#[export] Instance upd_m_enabled : Upd m_enabled := ltac:(mk_upd eta_mouse m_enabled).
#[export] Instance upd_m_remote : Upd m_remote := ltac:(mk_upd eta_mouse m_remote).
#[export] Instance upd_m_wrap : Upd m_wrap := ltac:(mk_upd eta_mouse m_wrap).
#[export] Instance upd_m_scale21 : Upd m_scale21 := ltac:(mk_upd eta_mouse m_scale21).
#[export] Instance upd_m_res : Upd m_res := ltac:(mk_upd eta_mouse m_res).
#[export] Instance upd_m_rate : Upd m_rate := ltac:(mk_upd eta_mouse m_rate).
#[export] Instance upd_m_id : Upd m_id := ltac:(mk_upd eta_mouse m_id).
#[export] Instance upd_m_detect : Upd m_detect := ltac:(mk_upd eta_mouse m_detect).
#[export] Instance upd_m_buttons : Upd m_buttons := ltac:(mk_upd eta_mouse m_buttons).
#[export] Instance upd_m_reported : Upd m_reported := ltac:(mk_upd eta_mouse m_reported).
#[export] Instance upd_m_dx : Upd m_dx := ltac:(mk_upd eta_mouse m_dx).
#[export] Instance upd_m_dy : Upd m_dy := ltac:(mk_upd eta_mouse m_dy).
#[export] Instance upd_m_dz : Upd m_dz := ltac:(mk_upd eta_mouse m_dz).
#[export] Instance upd_m_command : Upd m_command := ltac:(mk_upd eta_mouse m_command).

Definition Scale21 (n : Z) : Z :=
  let sign := if n <? 0 then -1 else 1 in
  let abs := if n <? 0 then - n else n in
  switch abs [(0, n); (1, n); (3, n); (2, sign); (4, 6 * sign); (5, 9 * sign)] (n * 2).

Definition out_of_count (n : Z) : bool := (n <? -256) || (255 <? n).
Definition clamp_count (n : Z) : Z := if out_of_count n then (if n <? 0 then -256 else 255) else n.

Definition SendPacket (st : Ps2MouseState) (dx dy dz : Z) : list Z :=
  let b0 := 0x08 .| (m_buttons st .& 0x07) in
  let b0 := if out_of_count dx then b0 .| 0x40 else b0 in
  let b0 := if out_of_count dy then b0 .| 0x80 else b0 in
  let dx := clamp_count dx in
  let dy := clamp_count dy in
  let b0 := if dx <? 0 then b0 .| 0x10 else b0 in
  let b0 := if dy <? 0 then b0 .| 0x20 else b0 in
  [b0; u8 (dx .& 0xff); u8 (dy .& 0xff)] ++ (if m_id st =? kIdImps2 then [u8 (dz .& 0xff)] else []).

(** The movement of a sent packet is gone. *)
Definition reported (st : Ps2MouseState) : Ps2MouseState :=
  st <| m_reported := m_buttons st |> <| m_dx := 0 |> <| m_dy := 0 |> <| m_dz := 0 |>.

Definition Sync (st : Ps2MouseState) : Ps2MouseState * list Z :=
  if m_remote st then (st, [])
  else if (m_dx st =? 0) && (m_dy st =? 0) && (m_dz st =? 0) && (m_buttons st =? m_reported st) then (st, [])
  else
    let '(dx, dy) := if m_scale21 st then (Scale21 (m_dx st), Scale21 (m_dy st)) else (m_dx st, m_dy st) in
    (reported st, SendPacket st dx dy (m_dz st)).

Definition SendStatus (st : Ps2MouseState) : list Z :=
  let s := if m_remote st then 0x40 else 0 in
  let s := if m_enabled st then s .| 0x20 else s in
  let s := if m_scale21 st then s .| 0x10 else s in
  let s := if tst (m_buttons st) 0x01 then s .| 0x04 else s in
  let s := if tst (m_buttons st) 0x02 then s .| 0x01 else s in
  let s := if tst (m_buttons st) 0x04 then s .| 0x02 else s in
  [s; u8 (m_res st); u8 (m_rate st)].

Definition RateValid (rate : Z) : bool := existsb (fun r => r =? rate) kRates.

Definition Detect (st : Ps2MouseState) (rate : Z) : Ps2MouseState :=
  match m_detect st with
  | kDetectIdle => if rate =? 200 then st <| m_detect := kDetectSaw200 |> else st
  | kDetectSaw200 => st <| m_detect := if rate =? 100 then kDetectSaw100 else kDetectIdle |>
  | kDetectSaw100 => (if rate =? 80 then st <| m_id := kIdImps2 |> else st) <| m_detect := kDetectIdle |>
  end.

Definition SetDefaults (st : Ps2MouseState) : Ps2MouseState :=
  st <| m_enabled := false |> <| m_remote := false |> <| m_scale21 := false |> <| m_rate := kDefaultRate |> <| m_res := kDefaultRes |>.

(** A command, with no parameter outstanding. *)
Definition mouse_command (st : Ps2MouseState) (val : Z) : Ps2MouseState * list Z :=
  switch val
    [(kCmdSetScale11, (st <| m_scale21 := false |>, [kReplyAck]));
     (kCmdSetScale21, (st <| m_scale21 := true |>, [kReplyAck]));
     (kCmdSetRes, (st <| m_command := val |>, [kReplyAck]));
     (kCmdSetRate, (st <| m_command := val |>, [kReplyAck]));
     (kCmdGetStatus, (st, kReplyAck :: SendStatus st));
     (kCmdSetStream, (st <| m_remote := false |>, [kReplyAck]));
     (kCmdPoll, (reported st, kReplyAck :: SendPacket st (m_dx st) (m_dy st) (m_dz st)));
     (kCmdSetWrap, (st <| m_wrap := true |>, [kReplyAck]));
     (kCmdSetRemote, (st <| m_remote := true |>, [kReplyAck]));
     (kCmdGetId, (st, [kReplyAck; u8 (m_id st)]));
     (kCmdEnable, (st <| m_enabled := true |>, [kReplyAck]));
     (kCmdDisable, (st <| m_enabled := false |>, [kReplyAck]));
     (kCmdSetDefaults, (SetDefaults st, [kReplyAck]));
     (kCmdReset,
       let st := (SetDefaults st) <| m_id := kIdStandard |> <| m_detect := kDetectIdle |> <| m_buttons := 0 |> <| m_reported := 0 |>
                   <| m_dx := 0 |> <| m_dy := 0 |> <| m_dz := 0 |> in
       (st, [kReplyAck; kReplyBat; u8 (m_id st)]))]
    (st, [kReplyResend]).

Definition Ps2MouseWrite (st : Ps2MouseState) (val : Z) : Ps2MouseState * list Z :=
  if m_wrap st && negb (val =? kCmdReset) then
    (if val =? kCmdResetWrap then st <| m_wrap := false |> else st, [val])
  else if m_command st =? kCmdSetRes then
    let st := st <| m_command := -1 |> in
    if 3 <? val then (st, [kReplyResend]) else (st <| m_res := val |>, [kReplyAck])
  else if m_command st =? kCmdSetRate then
    let st := st <| m_command := -1 |> in
    if negb (RateValid val) then (st, [kReplyResend]) else (Detect (st <| m_rate := val |>) val, [kReplyAck])
  else mouse_command st val.

Definition Ps2MouseEvent (st : Ps2MouseState) (dx dy dz buttons : Z) : Ps2MouseState * list Z :=
  let st := st <| m_buttons := buttons .& 0x07 |> in
  if negb (m_enabled st) then (st, [])
  else Sync (st <| m_dx := m_dx st + dx |> <| m_dy := m_dy st + dy |> <| m_dz := m_dz st + dz |>).

Definition Ps2MouseInit : Ps2MouseState :=
  (SetDefaults (mkMouse false false false false 0 0 0 kDetectIdle 0 0 0 0 0 0)) <| m_id := kIdStandard |> <| m_command := -1 |>.

(** ** The packet *)

(** A driver's reading of a movement packet: nine-bit counts, the overflow
    bits, the buttons, and the wheel on a four-byte device. *)
Record movement := mkMove { mv_dx : Z; mv_dy : Z; mv_xovf : bool; mv_yovf : bool; mv_buttons : Z; mv_wheel : Z }.

Definition read_packet (wheel : bool) (bs : list Z) : option (movement * list Z) :=
  match bs with
  | b0 :: x :: y :: r =>
      let count sign v := if tst b0 sign then v - 256 else v in
      let move w := mkMove (count 0x10 x) (count 0x20 y) (tst b0 0x40) (tst b0 0x80) (b0 .& 7) w in
      if wheel then match r with z :: r => Some (move (signed 8 z), r) | [] => None end else Some (move 0, r)
  | _ => None
  end.

Lemma low_byte x : u8 (x .& 0xff) = x mod 256.
Proof.
  change 0xff with (2 ^ 8 - 1). rewrite land_ones_wrap by lia. apply wrap_small, rng_wrap. lia.
Qed.

(** The flag bits of the first byte, over all of their combinations. *)
Definition flag_byte (b : Z) (xo yo xn yn : bool) : Z :=
  let b0 := 0x08 .| b in
  let b0 := if xo then b0 .| 0x40 else b0 in
  let b0 := if yo then b0 .| 0x80 else b0 in
  let b0 := if xn then b0 .| 0x10 else b0 in
  if yn then b0 .| 0x20 else b0.

Lemma flag_byte_read b xo yo xn yn : 0 <= b < 8 -> let f := flag_byte b xo yo xn yn in
  tst f 0x40 = xo /\ tst f 0x80 = yo /\ tst f 0x10 = xn /\ tst f 0x20 = yn /\ f .& 7 = b.
Proof.
  intros Hb. assert (Hc : b = 0 \/ b = 1 \/ b = 2 \/ b = 3 \/ b = 4 \/ b = 5 \/ b = 6 \/ b = 7) by lia.
  destruct xo, yo, xn, yn; repeat destruct Hc as [->|Hc]; try subst b; vm_compute; done.
Qed.

Lemma count_back n : -256 <= n <= 255 -> (if n <? 0 then n mod 256 - 256 else n mod 256) = n.
Proof. intros Hn. destruct (Z.ltb_spec n 0); Z.to_euclidean_division_equations; lia. Qed.

Lemma clamp_range n : -256 <= clamp_count n <= 255.
Proof. unfold clamp_count, out_of_count. destruct (Z.ltb_spec n (-256)), (Z.ltb_spec 255 n); cbn [orb]; [..|lia]; destruct (Z.ltb_spec n 0); lia. Qed.

Lemma signed_byte z : -128 <= z < 128 -> signed 8 (z mod 256) = z.
Proof. exact (signed_wrap 8 z ltac:(lia)). Qed.

Lemma packet_read st dx dy dz rest : -128 <= dz < 128 ->
  read_packet (m_id st =? kIdImps2) (SendPacket st dx dy dz ++ rest) =
    Some (mkMove (clamp_count dx) (clamp_count dy) (out_of_count dx) (out_of_count dy) (m_buttons st .& 7)
            (if m_id st =? kIdImps2 then dz else 0), rest).
Proof.
  intros Hz. unfold SendPacket. fold (flag_byte (m_buttons st .& 7) (out_of_count dx) (out_of_count dy) (clamp_count dx <? 0) (clamp_count dy <? 0)).
  assert (Hb : 0 <= m_buttons st .& 7 < 8) by (exact (rng_land_ones (m_buttons st) 3 3 ltac:(lia))).
  destruct (flag_byte_read _ (out_of_count dx) (out_of_count dy) (clamp_count dx <? 0) (clamp_count dy <? 0) Hb) as (F1 & F2 & F3 & F4 & F5).
  set (f := flag_byte _ _ _ _ _) in *. clearbody f. pose proof (clamp_range dx). pose proof (clamp_range dy).
  unfold read_packet. destruct (m_id st =? kIdImps2); cbn [app]; rewrite F1, F2, F3, F4, F5, !low_byte, !count_back by lia;
    [by rewrite signed_byte|done].
Qed.

#[local] Arguments SendPacket : simpl never.
#[local] Arguments read_packet : simpl never.
#[local] Arguments Z.add : simpl never.

(** A mouse movement arrives: in stream mode the packet sent for a movement is read back by the
    driver's decoder as the movement clamped to nine bits per axis, the overflow bits, the buttons
    and (on a wheel mouse) the wheel count, and nothing is left over to report. *)
Theorem mouse_event_reported st dx dy dz buttons rest :
  m_enabled st = true -> m_remote st = false -> m_scale21 st = false ->
  (dx <> 0 \/ dy <> 0 \/ dz <> 0) -> m_dx st = 0 -> m_dy st = 0 -> m_dz st = 0 -> -128 <= dz < 128 ->
  let '(st', bs) := Ps2MouseEvent st dx dy dz buttons in
  read_packet (m_id st =? kIdImps2) (bs ++ rest) =
    Some (mkMove (clamp_count dx) (clamp_count dy) (out_of_count dx) (out_of_count dy) (buttons .& 7)
            (if m_id st =? kIdImps2 then dz else 0), rest) /\
  Ps2MouseEvent st' 0 0 0 buttons = (st', []).
Proof.
  intros He Hr Hs Hm Hx Hy Hz Hw. unfold Ps2MouseEvent. cbn. rewrite He. cbn [negb]. unfold Sync. cbn. rewrite Hr, Hx, Hy, Hz, !Z.add_0_l.
  assert (Hq : (dx =? 0) && (dy =? 0) && (dz =? 0) = false).
  { apply not_true_iff_false. intros [[E1%Z.eqb_eq E2%Z.eqb_eq]%andb_true_iff E3%Z.eqb_eq]%andb_true_iff. lia. }
  rewrite Hq. cbn [andb]. rewrite Hs.
  set (st1 := _ <| m_dz := dz |>). assert (B1 : m_buttons st1 = buttons .& 7) by done. assert (I1 : m_id st1 = m_id st) by done.
  assert (R1 : m_enabled st1 = true /\ m_remote st1 = false) by done. clearbody st1. split.
  - pose proof (packet_read st1 dx dy dz rest Hw) as H. rewrite I1 in H. rewrite H, B1.
    by rewrite <- Z.land_assoc.
  - destruct R1 as [R1 R2]. destruct st1. cbn in R1, R2, B1. subst. unfold reported. cbn. rewrite !Z.eqb_refl. reflexivity.
Qed.

Lemma mouse_event_reported_witness :
  let st := fst (Ps2MouseWrite Ps2MouseInit kCmdEnable) in
  snd (Ps2MouseEvent st (-3) 300 0 1) = [0x99; 0xfd; 0xff] /\
  read_packet false (snd (Ps2MouseEvent st (-3) 300 0 1) ++ []) = Some (mkMove (-3) 255 false true 1 0, []).
Proof.
  intros st. split; [reflexivity|].
  destruct (mouse_event_reported st (-3) 300 0 1 []) as [H _]; [reflexivity|reflexivity|reflexivity|left; lia|reflexivity|reflexivity|reflexivity|lia|exact H].
Defined.

(** A reset command in wrap mode answers like any reset but leaves the mouse in wrap mode: the next
    byte is still echoed. *)
Theorem mouse_reset_keeps_wrap st : m_wrap st = true -> m_command st = -1 ->
  let '(st', bs) := Ps2MouseWrite st kCmdReset in
  bs = [kReplyAck; kReplyBat; kIdStandard] /\ snd (Ps2MouseWrite st' kCmdGetId) = [kCmdGetId].
Proof.
  intros Hw Hc. unfold Ps2MouseWrite at 1. rewrite Hw, Hc. cbn. split; [done|]. unfold Ps2MouseWrite. cbn. by rewrite Hw.
Qed.
