(* ===== verification/MsMouse.v ===== *)
(** * Microsoft serial mouse (device/input/msmouse.c)

    The three-byte packets a host event sends out of the serial port, and the
    receiver's reading of them. *)

From S2P Require Import Prelude.

Record MsMouseState := mkMs { s_buttons : Z; s_dx : Z; s_dy : Z }.

Definition clamp8 (n : Z) : Z := if n <? -128 then -128 else if 127 <? n then 127 else n.

Definition SendPacket (st : MsMouseState) : MsMouseState * list Z :=
  let dx := clamp8 (s_dx st) in
  let dy := clamp8 (s_dy st) in
  let b0 := 0x40 in
  let b0 := if tst (s_buttons st) 0x01 then b0 .| 0x20 else b0 in
  let b0 := if tst (s_buttons st) 0x02 then b0 .| 0x10 else b0 in
  let b0 := b0 .| u8 (((dy .>> 6) .& 0x03) .<< 2) in
  let b0 := b0 .| u8 ((dx .>> 6) .& 0x03) in
  (mkMs (s_buttons st) 0 0, [b0; u8 (dx .& 0x3f); u8 (dy .& 0x3f)]).

Definition MsMouseEvent (st : MsMouseState) (dx dy buttons : Z) : MsMouseState * list Z :=
  let buttons_new := buttons .& 0x03 in
  if (buttons_new =? s_buttons st) && (dx =? 0) && (dy =? 0) then (st, [])
  else SendPacket (mkMs buttons_new (s_dx st + dx) (s_dy st + dy)).

Definition MsMouseInit : MsMouseState := mkMs 0 0 0.

(** ** The receiver's reading *)

(** Bit 6 marks the first byte of a packet. *)
Definition read_ms (bs : list Z) : option (Z * Z * Z * list Z) :=
  match bs with
  | b0 :: x :: y :: r =>
      if tst b0 0x40 && negb (tst x 0x40) && negb (tst y 0x40) then
        Some (signed 8 (((b0 .& 3) .<< 6) .| x), signed 8 ((((b0 .>> 2) .& 3) .<< 6) .| y),
              (if tst b0 0x20 then 1 else 0) + (if tst b0 0x10 then 2 else 0), r)
      else None
  | _ => None
  end.

(** One axis: two high bits for the first byte, six low bits of its own. *)
Definition axis_check (n : Z) : bool :=
  let h := (n .>> 6) .& 3 in let l := n .& 0x3f in
  (0 <=? h) && (h <? 4) && (u8 l =? l) && negb (tst l 0x40) && (signed 8 ((h .<< 6) .| l) =? n).

(** The first byte, from the buttons and the high bits. *)
Definition first_byte (b hx hy : Z) : Z :=
  let b0 := 0x40 in
  let b0 := if tst b 0x01 then b0 .| 0x20 else b0 in
  let b0 := if tst b 0x02 then b0 .| 0x10 else b0 in
  let b0 := b0 .| u8 (hy .<< 2) in b0 .| u8 hx.
Definition first_check (b hx hy : Z) : bool :=
  let f := first_byte b hx hy in
  tst f 0x40 && (f .& 3 =? hx) && ((f .>> 2) .& 3 =? hy) && ((if tst f 0x20 then 1 else 0) + (if tst f 0x10 then 2 else 0) =? b).

Lemma range_checked (P : Z -> bool) lo n : forallb P (seqZ lo n) = true -> forall x, lo <= x < lo + n -> P x = true.
Proof. intros H x Hx. rewrite forallb_forall in H. apply H, list_elem_of_In, elem_of_seqZ. exact Hx. Qed.

Lemma axis_checked n : -128 <= n < 128 -> axis_check n = true.
Proof. intros Hn. apply (range_checked axis_check (-128) 256); [vm_compute; reflexivity|lia]. Qed.

Lemma first_checked b hx hy : 0 <= b < 4 -> 0 <= hx < 4 -> 0 <= hy < 4 -> first_check b hx hy = true.
Proof.
  intros Hb Hx Hy. assert (G : forallb (fun b => forallb (fun hx => forallb (first_check b hx) (seqZ 0 4)) (seqZ 0 4)) (seqZ 0 4) = true)
    by (vm_compute; reflexivity).
  pose proof (range_checked _ 0 4 G b Hb) as G1. pose proof (range_checked _ 0 4 G1 hx Hx) as G2. exact (range_checked _ 0 4 G2 hy Hy).
Qed.

Lemma clamp8_range n : -128 <= clamp8 n < 128.
Proof. unfold clamp8. destruct (Z.ltb_spec n (-128)); [lia|]. destruct (Z.ltb_spec 127 n); lia. Qed.

(** A serial mouse movement arrives: the three bytes sent are read back as the movement clamped to
    eight bits per axis and the two buttons, and an event that changes nothing sends nothing. *)
Theorem ms_packet_roundtrip st dx dy buttons rest : s_dx st = 0 -> s_dy st = 0 ->
  let '(st', bs) := MsMouseEvent st dx dy buttons in
  s_dx st' = 0 /\ s_dy st' = 0 /\
  (bs = [] /\ dx = 0 /\ dy = 0 /\ buttons .& 3 = s_buttons st \/
   read_ms (bs ++ rest) = Some (clamp8 dx, clamp8 dy, buttons .& 3, rest)).
Proof.
  intros Hx Hy. unfold MsMouseEvent. destruct ((_ =? _) && _ && _) eqn:E.
  { apply andb_true_iff in E as [[E1%Z.eqb_eq E2%Z.eqb_eq]%andb_true_iff E3%Z.eqb_eq]. split; [done|]. split; [done|]. by left. }
  unfold SendPacket. rewrite Hx, Hy, !Z.add_0_l. cbn [s_dx s_dy s_buttons]. split; [done|]. split; [done|]. right.
  assert (Hb : 0 <= buttons .& 3 < 4) by (exact (rng_land_ones buttons 2 2 ltac:(lia))).
  pose proof (axis_checked _ (clamp8_range dx)) as Ax. pose proof (axis_checked _ (clamp8_range dy)) as Ay.
  set (cx := clamp8 dx) in *. set (cy := clamp8 dy) in *. set (b := buttons .& 3) in *. clearbody cx cy b.
  unfold axis_check in Ax, Ay. repeat (apply andb_true_iff in Ax as [Ax ?]). repeat (apply andb_true_iff in Ay as [Ay ?]).
  fold (first_byte b ((cx .>> 6) .& 3) ((cy .>> 6) .& 3)).
  assert (F : first_check b ((cx .>> 6) .& 3) ((cy .>> 6) .& 3) = true) by (apply first_checked; lia).
  unfold first_check in F. set (f := first_byte _ _ _) in *. clearbody f.
  apply andb_true_iff in F as [[[F1 F2%Z.eqb_eq]%andb_true_iff F3%Z.eqb_eq]%andb_true_iff F4%Z.eqb_eq].
  repeat match goal with H : (_ =? _) = true |- _ => apply Z.eqb_eq in H | H : negb _ = true |- _ => apply negb_true_iff in H end.
  cbn [app]. unfold read_ms.
  repeat match goal with H : wrap 8 ?x = ?x |- _ => rewrite !H; clear H end.
  repeat match goal with H : tst _ 0x40 = false |- _ => rewrite !H; clear H end.
  rewrite F1, F2, F3, F4. cbn [negb andb]. congruence.
Qed.

Lemma ms_packet_roundtrip_witness : snd (MsMouseEvent MsMouseInit (-5) 200 1) = [0x67; 0x3b; 0x3f] /\
  read_ms ([0x67; 0x3b; 0x3f] ++ []) = Some (-5, 127, 1, []).
Proof.
  split; [reflexivity|]. pose proof (ms_packet_roundtrip MsMouseInit (-5) 200 1 [] eq_refl eq_refl) as (_ & _ & [(E & _)|H]); [discriminate E|exact H].
Defined.
