(* ===== verification/I8042.v ===== *)
(** * Keyboard controller (device/input/i8042.c)

    The 8042 with the keyboard and the mouse behind it, wired as the PC board
    wires them (board/x86_min.c): bytes the controller hands to a device come
    back, as the device's answers, through the controller's queues.  The sinks
    towards the board (interrupt lines, A20, reset request) are the list
    [c_out], in order. *)

From S2P Require Import Prelude Ps2Kbd Ps2Mouse.

Definition kI8042DataPort := 0x60.
Definition kI8042CmdPort := 0x64.
Definition kI8042KbdIrq := 1.
Definition kI8042AuxIrq := 12.
Definition kStatObf := 0x01.
Definition kStatSysf := 0x04.
Definition kStatA2 := 0x08.
Definition kStatAuxObf := 0x20.
Definition kModeKbdInt := 0x01.
Definition kModeAuxInt := 0x02.
Definition kModeSys := 0x04.
Definition kModeDisKbd := 0x10.
Definition kModeDisAux := 0x20.
Definition kModeKcc := 0x40.
Definition kCmdReadCmdByte := 0x20.
Definition kCmdWriteCmdByte := 0x60.
Definition kCmdDisableAux := 0xa7.
Definition kCmdEnableAux := 0xa8.
Definition kCmdTestAux := 0xa9.
Definition kCmdSelfTest := 0xaa.
Definition kCmdInterfaceTest := 0xab.
Definition kCmdDisableKbd := 0xad.
Definition kCmdEnableKbd := 0xae.
Definition kCmdReadOutPort := 0xd0.
Definition kCmdWriteOutPort := 0xd1.
Definition kCmdWriteAux := 0xd4.
Definition kCmdPulseReset := 0xfe.
Definition kOutPortA20 := 0x02.
Definition kI8042Queue := 16.

Inductive expect := kExpectNone | kExpectCmdByte | kExpectOutPort | kExpectAuxData.

Record I8042Queue := mkQueue { q_buf : list Z; q_head : Z; q_tail : Z }.

Record I8042State := mkCtl {
  c_kbd : I8042Queue; c_aux : I8042Queue; c_cmd_byte : Z; c_outport : Z; c_last_data : Z; c_expecting : expect; c_a2 : bool;
  c_irq1 : bool; c_irq12 : bool;
}.
Definition eta_ctl (s : I8042State) : I8042State :=
  mkCtl (c_kbd s) (c_aux s) (c_cmd_byte s) (c_outport s) (c_last_data s) (c_expecting s) (c_a2 s) (c_irq1 s) (c_irq12 s).
#[export] Instance upd_c_kbd : Upd c_kbd := ltac:(mk_upd eta_ctl c_kbd).
#[export] Instance upd_c_aux : Upd c_aux := ltac:(mk_upd eta_ctl c_aux).
#[export] Instance upd_c_cmd_byte : Upd c_cmd_byte := ltac:(mk_upd eta_ctl c_cmd_byte).
#[export] Instance upd_c_outport : Upd c_outport := ltac:(mk_upd eta_ctl c_outport).
#[export] Instance upd_c_last_data : Upd c_last_data := ltac:(mk_upd eta_ctl c_last_data).
#[export] Instance upd_c_expecting : Upd c_expecting := ltac:(mk_upd eta_ctl c_expecting).
#[export] Instance upd_c_a2 : Upd c_a2 := ltac:(mk_upd eta_ctl c_a2).
#[export] Instance upd_c_irq1 : Upd c_irq1 := ltac:(mk_upd eta_ctl c_irq1).
#[export] Instance upd_c_irq12 : Upd c_irq12 := ltac:(mk_upd eta_ctl c_irq12).

(** What the board's sinks get. *)
Inductive kbd_out := OutIrq (line : Z) (level : bool) | OutA20 (on : bool) | OutReset.

(** The controller, its two devices, and the board side. *)
Record Input := mkInput { c_st : I8042State; c_kbd_dev : Ps2KbdState; c_mouse : Ps2MouseState; c_out : list kbd_out }.
Definition eta_input (s : Input) : Input := mkInput (c_st s) (c_kbd_dev s) (c_mouse s) (c_out s).
#[export] Instance upd_c_st : Upd c_st := ltac:(mk_upd eta_input c_st).
#[export] Instance upd_c_kbd_dev : Upd c_kbd_dev := ltac:(mk_upd eta_input c_kbd_dev).
#[export] Instance upd_c_mouse : Upd c_mouse := ltac:(mk_upd eta_input c_mouse).
#[export] Instance upd_c_out : Upd c_out := ltac:(mk_upd eta_input c_out).

Definition emit (d : Input) (o : kbd_out) : Input := d <| c_out := c_out d ++ [o] |>.

(** ** Queues *)

Definition QueueCount (q : I8042Queue) : Z := Z.rem (q_tail q - q_head q + kI8042Queue) kI8042Queue.

Definition QueuePush (q : I8042Queue) (v : Z) : I8042Queue :=
  if QueueCount q =? kI8042Queue - 1 then q
  else mkQueue (arr_set (q_buf q) (q_tail q) v) (q_head q) (Z.rem (q_tail q + 1) kI8042Queue).

Definition QueuePop (q : I8042Queue) : Z * I8042Queue :=
  (arr (q_buf q) (q_head q), mkQueue (q_buf q) (Z.rem (q_head q + 1) kI8042Queue) (q_tail q)).

Definition AuxOnOffer (st : I8042State) : bool := (QueueCount (c_kbd st) =? 0) && (0 <? QueueCount (c_aux st)).

(** ** Lines *)

(** The levels the state asks for. *)
Definition want_kbd (st : I8042State) : bool :=
  ((0 <? QueueCount (c_kbd st)) || (0 <? QueueCount (c_aux st))) && negb (AuxOnOffer st) &&
  tst (c_cmd_byte st) kModeKbdInt && negb (tst (c_cmd_byte st) kModeDisKbd).
Definition want_aux (st : I8042State) : bool :=
  ((0 <? QueueCount (c_kbd st)) || (0 <? QueueCount (c_aux st))) && AuxOnOffer st && tst (c_cmd_byte st) kModeAuxInt.

Definition I8042SyncIrq (d : Input) : Input :=
  let kbd := want_kbd (c_st d) in
  let aux := want_aux (c_st d) in
  let d := if eqb kbd (c_irq1 (c_st d)) then d else emit (d <| c_st := (c_st d) <| c_irq1 := kbd |> |>) (OutIrq kI8042KbdIrq kbd) in
  if eqb aux (c_irq12 (c_st d)) then d else emit (d <| c_st := (c_st d) <| c_irq12 := aux |> |>) (OutIrq kI8042AuxIrq aux).

(** The level is down between the two calls and up again after them. *)
Definition I8042RefillEdge (d : Input) (line : Z) : Input :=
  let level := if line =? kI8042AuxIrq then c_irq12 (c_st d) else c_irq1 (c_st d) in
  if negb level then d else emit (emit d (OutIrq line false)) (OutIrq line true).

Definition I8042SyncA20 (d : Input) : Input := emit d (OutA20 (tst (c_outport (c_st d)) kOutPortA20)).

Definition I8042Status (st : I8042State) : Z :=
  let v := if (0 <? QueueCount (c_kbd st)) || (0 <? QueueCount (c_aux st)) then kStatObf else 0 in
  let v := if tst (c_cmd_byte st) kModeSys then v .| kStatSysf else v in
  let v := if c_a2 st then v .| kStatA2 else v in
  if AuxOnOffer st then v .| kStatAuxObf else v.

(** ** Bytes from the devices *)

Definition push_kbd (st : I8042State) (v : Z) : I8042State := st <| c_kbd := QueuePush (c_kbd st) v |>.

Definition I8042KbdByte (d : Input) (b : Z) : Input := I8042SyncIrq (d <| c_st := push_kbd (c_st d) b |>).
Definition I8042AuxByte (d : Input) (b : Z) : Input :=
  if tst (c_cmd_byte (c_st d)) kModeDisAux then d
  else I8042SyncIrq (d <| c_st := (c_st d) <| c_aux := QueuePush (c_aux (c_st d)) b |> |>).

(** A device's answer: its state, and its bytes through the controller. *)
Definition kbd_reply (d : Input) (r : Ps2KbdState * list Z) : Input := fold_left I8042KbdByte (snd r) (d <| c_kbd_dev := fst r |>).
Definition mouse_reply (d : Input) (r : Ps2MouseState * list Z) : Input := fold_left I8042AuxByte (snd r) (d <| c_mouse := fst r |>).

(** ** Ports *)

(** The state part of a command. *)
Definition cmd_state (st : I8042State) (val : Z) : I8042State :=
  switch val
    [(kCmdReadCmdByte, push_kbd st (c_cmd_byte st)); (kCmdWriteCmdByte, st <| c_expecting := kExpectCmdByte |>);
     (kCmdReadOutPort, push_kbd st (c_outport st)); (kCmdWriteOutPort, st <| c_expecting := kExpectOutPort |>);
     (kCmdSelfTest, push_kbd st 0x55); (kCmdInterfaceTest, push_kbd st 0x00); (kCmdTestAux, push_kbd st 0x00);
     (kCmdDisableKbd, st <| c_cmd_byte := c_cmd_byte st .| kModeDisKbd |>);
     (kCmdEnableKbd, st <| c_cmd_byte := c_cmd_byte st &~ kModeDisKbd |>);
     (kCmdDisableAux, st <| c_cmd_byte := c_cmd_byte st .| kModeDisAux |>);
     (kCmdEnableAux, st <| c_cmd_byte := c_cmd_byte st &~ kModeDisAux |>);
     (kCmdWriteAux, st <| c_expecting := kExpectAuxData |>)]
    (if (0xf0 <=? val) && (val <=? 0xfd) then st <| c_outport := (c_outport st .& 0x0d) .| (val .& 0x0f) |> else st).

Definition I8042WriteCmd (d : Input) (val : Z) : Input :=
  let d := d <| c_st := cmd_state ((c_st d) <| c_a2 := true |>) val |> in
  let d := if val =? kCmdPulseReset then emit d OutReset
           else if (0xf0 <=? val) && (val <=? 0xfd) then I8042SyncA20 d else d in
  I8042SyncIrq d.

Definition I8042WriteData (d : Input) (val : Z) : Input :=
  let d := d <| c_st := (c_st d) <| c_a2 := false |> |> in
  let d :=
    match c_expecting (c_st d) with
    | kExpectCmdByte =>
        d <| c_st := (c_st d) <| c_cmd_byte := val |> |> <| c_kbd_dev := Ps2KbdSetTranslate (c_kbd_dev d) (tst val kModeKcc) |>
    | kExpectOutPort => I8042SyncA20 (d <| c_st := (c_st d) <| c_outport := val |> |>)
    | kExpectAuxData => if negb (tst (c_cmd_byte (c_st d)) kModeDisAux) then mouse_reply d (Ps2MouseWrite (c_mouse d) val) else d
    | kExpectNone => let d := d <| c_st := (c_st d) <| c_last_data := val |> |> in kbd_reply d (Ps2KbdWrite (c_kbd_dev d) val)
    end in
  I8042SyncIrq (d <| c_st := (c_st d) <| c_expecting := kExpectNone |> |>).

Definition I8042Read (d : Input) (addr : Z) : Z * Input :=
  if addr =? kI8042CmdPort then
    let d := d <| c_st := (c_st d) <| c_a2 := true |> |> in (I8042Status (c_st d), d)
  else
    let d := d <| c_st := (c_st d) <| c_a2 := false |> |> in
    if 0 <? QueueCount (c_kbd (c_st d)) then
      let '(v, q) := QueuePop (c_kbd (c_st d)) in
      let d := d <| c_st := (c_st d) <| c_kbd := q |> |> in
      (v, if 0 <? QueueCount q then I8042RefillEdge d kI8042KbdIrq else I8042SyncIrq d)
    else if 0 <? QueueCount (c_aux (c_st d)) then
      let '(v, q) := QueuePop (c_aux (c_st d)) in
      let d := d <| c_st := (c_st d) <| c_aux := q |> |> in
      (v, if (0 <? QueueCount q) && (QueueCount (c_kbd (c_st d)) =? 0) then I8042RefillEdge d kI8042AuxIrq else I8042SyncIrq d)
    else (c_last_data (c_st d), d).

Definition I8042Write (d : Input) (addr val : Z) : Input :=
  if addr =? kI8042CmdPort then I8042WriteCmd d (u8 val) else I8042WriteData d (u8 val).

(** Host keys and pointer, as the board passes them on. *)
Definition OnHostKey (d : Input) (scan : Z) (extended up : bool) : Input :=
  if (scan =? 0) || (0x7f <? scan) then d else kbd_reply d (c_kbd_dev d, Ps2KbdKey (c_kbd_dev d) scan extended up).
Definition OnHostMouse (d : Input) (dx dy dz buttons : Z) : Input := mouse_reply d (Ps2MouseEvent (c_mouse d) dx dy dz buttons).

Definition queue_empty : I8042Queue := mkQueue (replicate 16 0) 0 0.
Definition I8042Init : I8042State :=
  mkCtl queue_empty queue_empty (kModeKbdInt .| kModeAuxInt .| kModeSys .| kModeKcc) kOutPortA20 0 kExpectNone false false false.
Definition input_reset : Input := mkInput I8042Init Ps2KbdInit Ps2MouseInit [].

(** ** A queue is a list of at most 15 bytes *)

Record queue_ok (q : I8042Queue) : Prop := {
  qo_buf : length (q_buf q) = 16%nat; qo_head : 0 <= q_head q < 16; qo_tail : 0 <= q_tail q < 16;
}.

Definition contents (q : I8042Queue) : list Z := (fun k => arr (q_buf q) ((q_head q + k) mod 16)) <$> seqZ 0 (QueueCount q).

Lemma rem16 x : 0 <= x -> Z.rem x kI8042Queue = x mod 16.
Proof. intros. apply Z.rem_mod_nonneg; [done|]. unfold kI8042Queue. lia. Qed.

Lemma count_eq q : queue_ok q -> QueueCount q = (q_tail q - q_head q) mod 16.
Proof.
  intros [_ Hh Ht]. unfold QueueCount. rewrite rem16 by (unfold kI8042Queue; lia). unfold kI8042Queue. rewrite <- (Z_mod_plus_full (q_tail q - q_head q) 1 16).
  f_equal.
Qed.

Lemma count_range q : queue_ok q -> 0 <= QueueCount q < 16.
Proof. intros Hq. rewrite count_eq by done. apply Z.mod_pos_bound. lia. Qed.

Lemma length_contents q : queue_ok q -> Z.of_nat (length (contents q)) = QueueCount q.
Proof. intros Hq. unfold contents. rewrite length_fmap, length_seqZ. pose proof (count_range q Hq). lia. Qed.

Lemma push_ok q v : queue_ok q -> queue_ok (QueuePush q v).
Proof.
  intros [Hb Hh Ht]. unfold QueuePush. destruct (_ =? _); [done|]. split; cbn; [by rewrite length_arr_set|done|].
  rewrite rem16 by lia. apply Z.mod_pos_bound. lia.
Qed.

Lemma pop_ok q : queue_ok q -> queue_ok (snd (QueuePop q)).
Proof. intros [Hb Hh Ht]. split; cbn; [done| |done]. rewrite rem16 by lia. apply Z.mod_pos_bound. lia. Qed.

Lemma push_contents q v : queue_ok q -> contents (QueuePush q v) = if QueueCount q =? 15 then contents q else contents q ++ [v].
Proof.
  intros Hq. pose proof (count_range q Hq) as Hc. pose proof (push_ok q v Hq) as Hq'. unfold QueuePush in *.
  change (kI8042Queue - 1) with 15 in *. destruct (Z.eqb_spec (QueueCount q) 15) as [|Hne]; [done|]. destruct Hq as [Hb Hh Ht].
  assert (Ec : QueueCount (mkQueue (arr_set (q_buf q) (q_tail q) v) (q_head q) (Z.rem (q_tail q + 1) kI8042Queue)) = QueueCount q + 1).
  { rewrite !count_eq in * by (done || by split). cbn. rewrite rem16 by lia. Z.to_euclidean_division_equations; lia. }
  unfold contents. rewrite Ec. cbn. rewrite seqZ_app by lia. rewrite fmap_app, Z.add_0_l. f_equal.
  - apply list_fmap_ext. intros i k Hi. apply lookup_seqZ in Hi as [-> Hi]. apply arr_set_ne; [lia|apply Z.mod_pos_bound; lia|].
    rewrite count_eq in Hi, Hne, Hc by (by split). Z.to_euclidean_division_equations; lia.
  - rewrite seqZ_cons by lia. cbn. f_equal. replace ((q_head q + QueueCount q) mod 16) with (q_tail q); [apply arr_set_eq; rewrite Hb; lia|].
    rewrite count_eq by (by split). Z.to_euclidean_division_equations; lia.
Qed.

Lemma pop_contents q v l : queue_ok q -> contents q = v :: l -> fst (QueuePop q) = v /\ contents (snd (QueuePop q)) = l.
Proof.
  intros Hq E. pose proof (length_contents q Hq) as Hl. rewrite E in Hl. cbn in Hl. pose proof (count_range q Hq) as Hc.
  pose proof (pop_ok q Hq) as Hq'. cbn [snd QueuePop] in Hq'. cbn [fst snd QueuePop].
  assert (Ec : QueueCount (mkQueue (q_buf q) (Z.rem (q_head q + 1) kI8042Queue) (q_tail q)) = QueueCount q - 1).
  { destruct Hq as [Hb Hh Ht]. rewrite !count_eq in * by (done || by split). cbn. rewrite rem16 by lia. Z.to_euclidean_division_equations; lia. }
  destruct Hq as [Hb Hh Ht]. unfold contents in *. rewrite seqZ_cons in E by lia. injection E as E0 E1. split.
  - rewrite <- E0. f_equal. rewrite Z.mod_small; lia.
  - rewrite <- E1, Ec. cbn. rewrite rem16 by lia. replace (Z.pred (QueueCount q)) with (QueueCount q - 1) by lia.
    rewrite <- (fmap_add_seqZ 1 0). rewrite <- list_fmap_compose. apply list_fmap_ext. intros i k _. cbn. f_equal. rewrite Z.add_mod_idemp_l by lia. f_equal. lia.
Qed.

Lemma count_0 q : queue_ok q -> (0 <? QueueCount q) = negb (bool_decide (contents q = [])).
Proof.
  intros Hq. pose proof (length_contents q Hq). destruct (contents q) as [|v l]; cbn in *; [apply Z.ltb_ge|apply Z.ltb_lt]; lia.
Qed.

(** ** The interrupt lines *)

Definition line_after (line : Z) (level : bool) (o : kbd_out) : bool :=
  match o with OutIrq l b => if l =? line then b else level | _ => level end.
(** The level of a line after everything the board was told. *)
Definition line_level (line : Z) (out : list kbd_out) : bool := fold_left (line_after line) out false.

#[local] Arguments line_level : simpl never.
#[local] Arguments want_kbd : simpl never.
#[local] Arguments want_aux : simpl never.

Lemma line_level_snoc line out o : line_level line (out ++ [o]) = line_after line (line_level line out) o.
Proof. unfold line_level. by rewrite fold_left_app. Qed.

Record input_wf (d : Input) : Prop := {
  iw_kbd : queue_ok (c_kbd (c_st d)); iw_aux : queue_ok (c_aux (c_st d));
  iw_line1 : line_level kI8042KbdIrq (c_out d) = c_irq1 (c_st d);
  iw_line12 : line_level kI8042AuxIrq (c_out d) = c_irq12 (c_st d);
}.
Definition in_step (d : Input) : Prop := c_irq1 (c_st d) = want_kbd (c_st d) /\ c_irq12 (c_st d) = want_aux (c_st d).
Definition input_ok (d : Input) : Prop := input_wf d /\ in_step d.

Lemma SyncIrq_ok d : input_wf d -> input_ok (I8042SyncIrq d).
Proof.
  intros [Hk Ha H1 H12]. unfold I8042SyncIrq.
  set (kbd := want_kbd (c_st d)). set (d1 := if eqb kbd _ then d else _).
  assert (W1 : input_wf d1 /\ c_irq1 (c_st d1) = kbd /\ want_kbd (c_st d1) = kbd /\ want_aux (c_st d1) = want_aux (c_st d)).
  { unfold d1. destruct (eqb kbd (c_irq1 (c_st d))) eqn:E; [apply eqb_prop in E; by rewrite E|]. split; [|done].
    split; cbn; try done; rewrite line_level_snoc; done. }
  destruct W1 as ([Vk Va V1 V12] & E1 & E2 & E3). clearbody d1. rewrite <- E3.
  destruct (eqb (want_aux (c_st d1)) (c_irq12 (c_st d1))) eqn:E; [apply eqb_prop in E; by split; [|split; [rewrite E1|]]|].
  split; [|split; cbn; [by rewrite E1|done]]. split; cbn; try done; rewrite line_level_snoc; done.
Qed.

Lemma with_st_wf d st : input_wf d -> queue_ok (c_kbd st) -> queue_ok (c_aux st) -> c_irq1 st = c_irq1 (c_st d) ->
  c_irq12 st = c_irq12 (c_st d) -> input_wf (d <| c_st := st |>).
Proof. intros [Hk Ha H1 H12] Qk Qa E1 E12. split; cbn; try done; congruence. Qed.

Lemma emit_wf d o : (forall l b, o <> OutIrq l b) -> input_wf d -> input_wf (emit d o).
Proof. intros Ho [Hk Ha H1 H12]. split; cbn; try done; rewrite line_level_snoc; by destruct o as [l b| |]; [destruct (Ho l b)|..]. Qed.

Lemma KbdByte_ok d b : input_wf d -> input_ok (I8042KbdByte d b).
Proof. intros Hd. apply SyncIrq_ok, with_st_wf; try done; [by apply push_ok, Hd|apply Hd]. Qed.

Lemma AuxByte_ok d b : input_ok d -> input_ok (I8042AuxByte d b).
Proof.
  intros [Hd Hs]. unfold I8042AuxByte. destruct (tst _ _); [done|]. apply SyncIrq_ok, with_st_wf; try done; [apply Hd|by apply push_ok, Hd].
Qed.

Lemma kbd_reply_ok d r : input_ok d -> input_ok (kbd_reply d r).
Proof.
  intros Hd. unfold kbd_reply. assert (H : input_ok (d <| c_kbd_dev := fst r |>)) by (destruct Hd as [[] ?]; split; [by split|done]).
  revert H. generalize (d <| c_kbd_dev := fst r |>). induction (snd r) as [|b bs IH]; intros d1 H1; [done|]. apply IH, KbdByte_ok, H1.
Qed.

Lemma mouse_reply_ok d r : input_ok d -> input_ok (mouse_reply d r).
Proof.
  intros Hd. unfold mouse_reply. assert (H : input_ok (d <| c_mouse := fst r |>)) by (destruct Hd as [[] ?]; split; [by split|done]).
  revert H. generalize (d <| c_mouse := fst r |>). induction (snd r) as [|b bs IH]; intros d1 H1; [done|]. by apply IH, AuxByte_ok.
Qed.

Lemma cmd_state_keeps st val : queue_ok (c_kbd st) -> queue_ok (c_aux st) ->
  let st' := cmd_state st val in
  queue_ok (c_kbd st') /\ queue_ok (c_aux st') /\ c_irq1 st' = c_irq1 st /\ c_irq12 st' = c_irq12 st.
Proof.
  intros Hk Ha. unfold cmd_state.
  apply (switch_ind (fun st' => queue_ok (c_kbd st') /\ queue_ok (c_aux st') /\ c_irq1 st' = c_irq1 st /\ c_irq12 st' = c_irq12 st)).
  - repeat apply Forall_cons_2; try apply Forall_nil_2; intros _; cbn; split_and!; try done; by apply push_ok.
  - by destruct (_ && _).
Qed.

Lemma WriteCmd_ok d val : input_ok d -> input_ok (I8042WriteCmd d val).
Proof.
  intros [Hd _]. unfold I8042WriteCmd. apply SyncIrq_ok.
  destruct (cmd_state_keeps ((c_st d) <| c_a2 := true |>) val) as (Q1 & Q2 & E1 & E2); [apply Hd..|].
  set (st := cmd_state _ _) in *. assert (H : input_wf (d <| c_st := st |>)) by (by apply with_st_wf). clearbody st.
  destruct (_ =? _); [by apply emit_wf|]. destruct (_ && _); [by apply emit_wf|done].
Qed.

(** Fields the lines do not look at. *)
Lemma with_st_ok d st : input_ok d -> c_kbd st = c_kbd (c_st d) -> c_aux st = c_aux (c_st d) -> c_cmd_byte st = c_cmd_byte (c_st d) ->
  c_irq1 st = c_irq1 (c_st d) -> c_irq12 st = c_irq12 (c_st d) -> input_ok (d <| c_st := st |>).
Proof.
  intros [Hd [Hs1 Hs2]] Ek Ea Ec E1 E12. split; [apply with_st_wf; try done; rewrite ?Ek, ?Ea; apply Hd|].
  unfold in_step, want_kbd, want_aux, AuxOnOffer. cbn. by rewrite Ek, Ea, Ec, E1, E12.
Qed.

Lemma WriteData_ok d val : input_ok d -> input_ok (I8042WriteData d val).
Proof.
  intros Hd. unfold I8042WriteData. assert (H : input_ok (d <| c_st := (c_st d) <| c_a2 := false |> |>)) by (by apply with_st_ok).
  set (d0 := d <| c_st := _ |>) in *. clearbody d0.
  set (d1 := match c_expecting _ with kExpectNone => _ | _ => _ end).
  assert (W : input_wf d1).
  { unfold d1. destruct (c_expecting (c_st d0)).
    - apply kbd_reply_ok. by apply with_st_ok.
    - destruct H as [[] ?]. by split.
    - apply emit_wf; [done|]. apply with_st_wf; try done; apply H.
    - destruct (negb _); [by apply mouse_reply_ok|apply H]. }
  clearbody d1. apply SyncIrq_ok, with_st_wf; try done; apply W.
Qed.

Lemma refill_wf d line : input_wf d -> line = kI8042KbdIrq \/ line = kI8042AuxIrq ->
  input_wf (I8042RefillEdge d line) /\ c_st (I8042RefillEdge d line) = c_st d.
Proof.
  intros [Hk Ha H1 H12] Hl. unfold I8042RefillEdge. destruct (negb _) eqn:E; [done|]. apply negb_false_iff in E. split; [|done].
  destruct Hl as [-> | ->]; cbn in E; split; cbn; try done; rewrite !line_level_snoc; cbn; done.
Qed.

Lemma Read_ok d addr : input_ok d -> input_ok (snd (I8042Read d addr)).
Proof.
  intros Hd. unfold I8042Read. destruct (addr =? kI8042CmdPort); [by apply with_st_ok|].
  assert (H : input_ok (d <| c_st := (c_st d) <| c_a2 := false |> |>)) by (by apply with_st_ok).
  set (d0 := d <| c_st := _ |>) in *. clearbody d0. clear Hd. destruct H as [Hw [S1 S2]].
  pose proof (iw_kbd _ Hw) as Qk. pose proof (iw_aux _ Hw) as Qa.
  destruct (0 <? QueueCount (c_kbd (c_st d0))) eqn:Ek.
  - cbn [QueuePop]. set (q := mkQueue _ _ _). assert (Qq : queue_ok q) by (exact (pop_ok _ Qk)). cbn [snd].
    assert (W : input_wf (d0 <| c_st := (c_st d0) <| c_kbd := q |> |>)) by (by apply with_st_wf).
    destruct (0 <? QueueCount q) eqn:Eq; [|by apply SyncIrq_ok]. destruct (refill_wf _ kI8042KbdIrq W ltac:(by left)) as [W1 E1].
    split; [done|]. unfold in_step. rewrite E1. unfold want_kbd, want_aux, AuxOnOffer in *. cbn in *. rewrite Ek in S1, S2. rewrite Eq.
    assert (Z1 : (QueueCount q =? 0) = false) by (apply Z.ltb_lt in Eq; apply Z.eqb_neq; lia).
    assert (Z2 : (QueueCount (c_kbd (c_st d0)) =? 0) = false) by (apply Z.ltb_lt in Ek; apply Z.eqb_neq; lia).
    rewrite Z1. rewrite Z2 in S1, S2. done.
  - destruct (0 <? QueueCount (c_aux (c_st d0))) eqn:Ea; [|by split].
    cbn [QueuePop]. set (q := mkQueue _ _ _). assert (Qq : queue_ok q) by (exact (pop_ok _ Qa)). cbn [snd].
    assert (W : input_wf (d0 <| c_st := (c_st d0) <| c_aux := q |> |>)) by (by apply with_st_wf).
    destruct ((0 <? QueueCount q) && _) eqn:Eq; [|by apply SyncIrq_ok]. apply andb_true_iff in Eq as [Eq Ez].
    destruct (refill_wf _ kI8042AuxIrq W ltac:(by right)) as [W1 E1].
    split; [done|]. unfold in_step. rewrite E1. unfold want_kbd, want_aux, AuxOnOffer in *. cbn in *. rewrite Ek, Ea, Ez in S1, S2.
    by rewrite Ek, Eq, Ez.
Qed.

Inductive input_reach : Input -> Prop :=
| np_init : input_reach input_reset
| np_read d addr : input_reach d -> input_reach (snd (I8042Read d addr))
| np_write d addr val : input_reach d -> input_reach (I8042Write d addr val)
| np_key d scan ext up : input_reach d -> input_reach (OnHostKey d scan ext up)
| np_mouse d dx dy dz buttons : input_reach d -> input_reach (OnHostMouse d dx dy dz buttons).

Lemma input_reach_ok d : input_reach d -> input_ok d.
Proof.
  induction 1 as [|d addr _ IH|d addr val _ IH|d scan ext up _ IH|d dx dy dz buttons _ IH].
  - split; [|done]. by split; cbn; try (split; cbn; lia || done).
  - by apply Read_ok.
  - unfold I8042Write. destruct (_ =? _); [by apply WriteCmd_ok|by apply WriteData_ok].
  - unfold OnHostKey. destruct (_ || _); [done|]. by apply kbd_reply_ok.
  - by apply mouse_reply_ok.
Qed.

Lemma want_kbd_spec st : queue_ok (c_kbd st) -> queue_ok (c_aux st) ->
  want_kbd st = negb (bool_decide (contents (c_kbd st) = [])) && tst (c_cmd_byte st) kModeKbdInt && negb (tst (c_cmd_byte st) kModeDisKbd).
Proof.
  intros Hk Ha. unfold want_kbd, AuxOnOffer. pose proof (count_range _ Hk). rewrite <- (count_0 _ Hk).
  destruct (Z.ltb_spec 0 (QueueCount (c_kbd st))) as [E|E].
  - by rewrite (proj2 (Z.eqb_neq _ _)) by lia.
  - rewrite (proj2 (Z.eqb_eq _ _)) by lia. cbn [orb andb]. by destruct (0 <? _).
Qed.

Lemma want_aux_spec st : queue_ok (c_kbd st) -> queue_ok (c_aux st) ->
  want_aux st = bool_decide (contents (c_kbd st) = []) && negb (bool_decide (contents (c_aux st) = [])) && tst (c_cmd_byte st) kModeAuxInt.
Proof.
  intros Hk Ha. unfold want_aux, AuxOnOffer. pose proof (count_range _ Hk). rewrite <- (count_0 _ Ha).
  pose proof (count_0 _ Hk) as E0. destruct (Z.ltb_spec 0 (QueueCount (c_kbd st))) as [E|E].
  - rewrite (proj2 (Z.eqb_neq _ _)) by lia. symmetry in E0. apply negb_true_iff in E0. by rewrite E0.
  - rewrite (proj2 (Z.eqb_eq _ _)) by lia. symmetry in E0. apply negb_false_iff in E0. rewrite E0. cbn [orb andb]. by destruct (0 <? _).
Qed.

(** The keyboard controller's interrupt lines are exact: in every reachable state IRQ 1 is up
    exactly when a keyboard byte waits with its interrupt on and the keyboard not disabled, and IRQ
    12 exactly when the keyboard queue is empty, a mouse byte waits and its interrupt is on. *)
Theorem i8042_lines_exact d : input_reach d -> let st := c_st d in
  (line_level kI8042KbdIrq (c_out d) = true <->
     contents (c_kbd st) <> [] /\ tst (c_cmd_byte st) kModeKbdInt = true /\ tst (c_cmd_byte st) kModeDisKbd = false) /\
  (line_level kI8042AuxIrq (c_out d) = true <->
     contents (c_kbd st) = [] /\ contents (c_aux st) <> [] /\ tst (c_cmd_byte st) kModeAuxInt = true).
Proof.
  intros Hr st. destruct (input_reach_ok d Hr) as [[Hk Ha H1 H12] [S1 S2]]. rewrite H1, H12, S1, S2, want_kbd_spec, want_aux_spec by done.
  fold st. rewrite !andb_true_iff, !negb_true_iff, bool_decide_eq_true, !bool_decide_eq_false. tauto.
Qed.

(** ** One edge per byte *)

(** Reading the data port [n] times. *)
Fixpoint read_data (n : nat) (d : Input) : list Z * Input :=
  match n with
  | O => ([], d)
  | S n => let '(v, d) := I8042Read d kI8042DataPort in let '(vs, d) := read_data n d in (v :: vs, d)
  end.

(** Rising edges of a line, from level [l]. *)
Fixpoint edges (line : Z) (l : bool) (out : list kbd_out) : nat :=
  match out with
  | [] => 0
  | o :: out => let l' := line_after line l o in ((if negb l && l' then 1 else 0) + edges line l' out)%nat
  end.

Lemma edges_snoc line l out o :
  edges line l (out ++ [o]) = (edges line l out + if negb (fold_left (line_after line) out l) && line_after line (fold_left (line_after line) out l) o then 1 else 0)%nat.
Proof. revert l; induction out as [|o1 out IH]; intros l; cbn; [lia|]. rewrite IH. cbn. lia. Qed.

Definition rises (d : Input) : nat := edges kI8042KbdIrq false (c_out d).

Lemma rises_emit d o : rises (emit d o) =
  (rises d + if negb (line_level kI8042KbdIrq (c_out d)) && line_after kI8042KbdIrq (line_level kI8042KbdIrq (c_out d)) o then 1 else 0)%nat.
Proof. apply edges_snoc. Qed.

(** The keyboard's bytes are [l], none wait from the mouse, keys interrupt. *)
Record keys (d : Input) (l : list Z) : Prop := {
  ky_ok : input_ok d; ky_kbd : contents (c_kbd (c_st d)) = l; ky_aux : contents (c_aux (c_st d)) = [];
  ky_on : tst (c_cmd_byte (c_st d)) kModeKbdInt = true /\ tst (c_cmd_byte (c_st d)) kModeDisKbd = false;
}.

Lemma wants d l : input_wf d -> contents (c_kbd (c_st d)) = l -> contents (c_aux (c_st d)) = [] ->
  tst (c_cmd_byte (c_st d)) kModeKbdInt = true -> tst (c_cmd_byte (c_st d)) kModeDisKbd = false ->
  want_kbd (c_st d) = negb (bool_decide (l = [])) /\ want_aux (c_st d) = false.
Proof.
  intros [Hk Ha _ _] Ek Ea E1 E2. rewrite want_kbd_spec, want_aux_spec by done. rewrite Ek, Ea, E1, E2, andb_true_r.
  cbn [negb]. rewrite andb_true_r. split; [done|]. by destruct (bool_decide _).
Qed.

Lemma keys_levels d l : keys d l -> c_irq1 (c_st d) = negb (bool_decide (l = [])) /\ c_irq12 (c_st d) = false.
Proof. intros [[Hw [S1 S2]] Ek Ea [E1 E2]]. destruct (wants d l Hw Ek Ea E1 E2) as [W1 W2]. by rewrite S1, S2, W1, W2. Qed.

(** Bringing the lines in step costs an edge exactly when the line goes up. *)
Lemma SyncIrq_keys d l : input_wf d -> contents (c_kbd (c_st d)) = l -> contents (c_aux (c_st d)) = [] ->
  tst (c_cmd_byte (c_st d)) kModeKbdInt = true -> tst (c_cmd_byte (c_st d)) kModeDisKbd = false -> c_irq12 (c_st d) = false ->
  keys (I8042SyncIrq d) l /\
  rises (I8042SyncIrq d) = (rises d + if negb (c_irq1 (c_st d)) && negb (bool_decide (l = [])) then 1 else 0)%nat.
Proof.
  intros Hw Ek Ea E1 E2 E12. destruct (wants d l Hw Ek Ea E1 E2) as [W1 W2]. pose proof (SyncIrq_ok d Hw) as Hok.
  unfold I8042SyncIrq in *. rewrite W1, W2 in *.
  destruct (eqb (negb (bool_decide (l = []))) (c_irq1 (c_st d))) eqn:E.
  - rewrite E12 in *. cbn [eqb] in *. apply eqb_prop in E. split; [by split|]. rewrite <- E. destruct (negb (bool_decide _)); cbn; lia.
  - change (c_irq12 (c_st (emit (d <| c_st := (c_st d) <| c_irq1 := negb (bool_decide (l = [])) |> |>) (OutIrq kI8042KbdIrq (negb (bool_decide (l = []))))))) with (c_irq12 (c_st d)) in *.
    rewrite E12 in *. cbn [eqb] in *. split; [by split|]. rewrite rises_emit. cbn [c_out]. change (c_out (d <| c_st := _ |>)) with (c_out d).
    rewrite (iw_line1 d Hw). done.
Qed.

Lemma keys_byte d l b : keys d l -> (length l < 15)%nat ->
  keys (I8042KbdByte d b) (l ++ [b]) /\ rises (I8042KbdByte d b) = (rises d + if bool_decide (l = []) then 1 else 0)%nat.
Proof.
  intros Hd Hl. destruct (keys_levels d l Hd) as [L1 L12]. destruct Hd as [[Hw Hs] Ek Ea [E1 E2]]. pose proof (iw_kbd d Hw) as Hk.
  unfold I8042KbdByte. destruct (SyncIrq_keys (d <| c_st := push_kbd (c_st d) b |>) (l ++ [b])) as [K R]; try done.
  - apply with_st_wf; try done; [by apply push_ok|apply Hw].
  - cbn. rewrite push_contents, Ek by done. pose proof (length_contents _ Hk) as Hc. rewrite Ek in Hc. by rewrite (proj2 (Z.eqb_neq _ _)) by lia.
  - split; [done|]. rewrite R. change (rises (d <| c_st := _ |>)) with (rises d). cbn. rewrite L1. rewrite negb_involutive.
    rewrite (bool_decide_false (l ++ [b] = [])) by (by destruct l). by rewrite andb_true_r.
Qed.

Lemma keys_bytes bs d l : keys d l -> (length l + length bs <= 15)%nat ->
  keys (fold_left I8042KbdByte bs d) (l ++ bs) /\
  rises (fold_left I8042KbdByte bs d) = (rises d + if bool_decide (l = []) && negb (bool_decide (bs = [])) then 1 else 0)%nat.
Proof.
  revert d l; induction bs as [|b bs IH]; intros d l Hd Hl; cbn [fold_left].
  - rewrite app_nil_r, (bool_decide_true (@nil Z = [])) by done. cbn [negb]. rewrite andb_false_r. split; [done|lia].
  - cbn in Hl. destruct (keys_byte d l b Hd) as [K R]; [lia|]. destruct (IH _ _ K) as [K2 R2]; [rewrite length_app; cbn; lia|].
    rewrite <- app_assoc in K2. split; [done|]. rewrite R2, R. rewrite (bool_decide_false (l ++ [b] = [])) by (by destruct l).
    rewrite (bool_decide_false (b :: bs = [])) by done. cbn [andb negb]. rewrite andb_true_r. lia.
Qed.

Lemma keys_read d v l : keys d (v :: l) -> let r := I8042Read d kI8042DataPort in
  fst r = v /\ keys (snd r) l /\ rises (snd r) = (rises d + if bool_decide (l = []) then 0 else 1)%nat.
Proof.
  intros Hd. destruct (keys_levels d _ Hd) as [L1 L12]. rewrite bool_decide_false in L1 by done. cbn [negb] in L1. pose proof (Read_ok d kI8042DataPort (ky_ok _ _ Hd)) as Hok.
  destruct Hd as [[Hw Hs] Ek Ea [E1 E2]]. pose proof (iw_kbd d Hw) as Hk. destruct (pop_contents _ v l Hk Ek) as [P1 P2].
  pose proof (pop_ok _ Hk) as Hq. cbn zeta. unfold I8042Read in *. change (kI8042DataPort =? kI8042CmdPort) with false in *. cbn iota in *.
  set (d0 := d <| c_st := (c_st d) <| c_a2 := false |> |>) in *.
  change (c_kbd (c_st d0)) with (c_kbd (c_st d)) in *.
  assert (C0 : (0 <? QueueCount (c_kbd (c_st d))) = true) by (rewrite count_0, Ek, bool_decide_false by done; done). rewrite C0 in *.
  destruct (QueuePop (c_kbd (c_st d))) as [v' q] eqn:Eq. cbn [fst snd] in P1, P2, Hq. subst v'. cbn [fst snd] in *.
  set (d1 := d0 <| c_st := (c_st d0) <| c_kbd := q |> |>) in *. split; [done|].
  assert (Cq : (0 <? QueueCount q) = negb (bool_decide (l = []))) by (by rewrite count_0, P2 by done). rewrite Cq in *.
  assert (W1 : input_wf d1) by (apply with_st_wf; try done; [apply with_st_wf; try done; apply Hw|apply Hw]).
  destruct (bool_decide (l = [])) eqn:El; cbn [negb] in *.
  - destruct (SyncIrq_keys d1 l) as [K R]; try done. split; [done|]. rewrite R, El. cbn [negb]. rewrite andb_false_r. done.
  - unfold I8042RefillEdge in *. change (kI8042KbdIrq =? kI8042AuxIrq) with false in *. cbn iota in *.
    change (c_irq1 (c_st d1)) with (c_irq1 (c_st d)) in *. rewrite L1 in *. cbn [negb] in *. split; [by split|].
    rewrite !rises_emit. cbn. rewrite line_level_snoc. cbn. change (c_out d1) with (c_out d). change (rises d1) with (rises d).
    rewrite (iw_line1 d Hw), L1. unfold rises. cbn. lia.
Qed.

Lemma keys_reads l d : keys d l -> let r := read_data (length l) d in
  fst r = l /\ keys (snd r) [] /\ rises (snd r) = (rises d + pred (length l))%nat.
Proof.
  revert d; induction l as [|v l IH]; intros d Hd; cbn [length read_data fst snd]; [split; [done|]; split; [done|]; cbn; lia|].
  destruct (keys_read d v l Hd) as (V & K & R). destruct (I8042Read d kI8042DataPort) as [v' d1]. cbn [fst snd] in V, K, R. subst v'.
  destruct (IH d1 K) as (Vs & K2 & R2). destruct (read_data (length l) d1) as [vs d2]. cbn [fst snd] in *. subst vs.
  split; [done|]. split; [done|]. rewrite R2, R. destruct l as [|v2 l]; cbn [length pred]; [rewrite bool_decide_true by done; lia|].
  rewrite bool_decide_false by done. lia.
Qed.

(** C31: the keyboard controller loses no byte and no edge: from any reachable state with empty
    queues and the keyboard interrupt on, up to 15 bytes from the keyboard are read back in order,
    with exactly one rising edge of IRQ 1 for each byte, and the line is low after the last. *)
Theorem i8042_byte_per_edge d bs : input_reach d -> contents (c_kbd (c_st d)) = [] -> contents (c_aux (c_st d)) = [] ->
  tst (c_cmd_byte (c_st d)) kModeKbdInt = true -> tst (c_cmd_byte (c_st d)) kModeDisKbd = false -> (length bs <= 15)%nat ->
  let r := read_data (length bs) (fold_left I8042KbdByte bs d) in
  fst r = bs /\ contents (c_kbd (c_st (snd r))) = [] /\ rises (snd r) = (rises d + length bs)%nat /\
  line_level kI8042KbdIrq (c_out (snd r)) = false.
Proof.
  intros Hr Ek Ea E1 E2 Hl. pose proof (input_reach_ok d Hr) as Hd. assert (K0 : keys d []) by (by split).
  destruct (keys_bytes bs d [] K0 Hl) as [K1 R1]. cbn [app] in K1. destruct (keys_reads bs _ K1) as (V & K2 & R2). cbn zeta.
  split; [done|]. split; [apply K2|]. split.
  - rewrite R2, R1. destruct bs; cbn; lia.
  - rewrite (iw_line1 _ (proj1 (ky_ok _ _ K2))). by destruct (keys_levels _ _ K2).
Qed.

(** ** Witnesses *)

Lemma i8042_lines_exact_witness : let d := OnHostKey input_reset 0x1e false false in
  line_level kI8042KbdIrq (c_out d) = true /\ contents (c_kbd (c_st d)) <> [].
Proof.
  intros d. assert (E : line_level kI8042KbdIrq (c_out d) = true) by reflexivity. split; [exact E|].
  apply (i8042_lines_exact d); [apply np_key, np_init|exact E].
Defined.

Lemma i8042_byte_per_edge_witness : let r := read_data 3 (fold_left I8042KbdByte [0xe0; 0x4b; 0xcb] input_reset) in
  fst r = [0xe0; 0x4b; 0xcb] /\ rises (snd r) = 3%nat.
Proof.
  destruct (i8042_byte_per_edge input_reset [0xe0; 0x4b; 0xcb] np_init) as (H1 & _ & H2 & _); [reflexivity..|cbn; lia|]. split; [exact H1|exact H2].
Defined.

(** Two answers and four packets fill 14 places of the mouse's queue. *)
Definition aux_write (d : Input) (v : Z) : Input := I8042Write (I8042Write d kI8042CmdPort kCmdWriteAux) kI8042DataPort v.
Definition nudge (d : Input) : Input := OnHostMouse d 1 1 0 0.
Definition mouse_full : Input := nudge (nudge (nudge (nudge (aux_write (aux_write input_reset Ps2Mouse.kCmdEnable) Ps2Mouse.kCmdEnable)))).

Lemma mouse_full_reach : input_reach mouse_full.
Proof.
  assert (N : forall d, input_reach d -> input_reach (nudge d)) by (intros; by apply np_mouse).
  assert (A : forall d v, input_reach d -> input_reach (aux_write d v)) by (intros; by apply np_write, np_write).
  apply N, N, N, N, A, A, np_init.
Qed.

(** A packet that meets the nearly full queue is cut: the byte that fits comes
    out without the rest. *)
Theorem mouse_packet_cut : exists d, input_reach d /\ length (contents (c_aux (c_st d))) = 14%nat /\
  contents (c_aux (c_st (OnHostMouse d 1 1 0 0))) = contents (c_aux (c_st d)) ++ [0x08].
Proof. exists mouse_full. split; [apply mouse_full_reach|]. split; vm_compute; reflexivity. Qed.
