(* ===== verification/SysBus.v ===== *)
(** * Guest memory and disk images as devices see them

    Byte windows and image files first, then memory behind the bus.  A function from addresses to bytes seen through a window, shared by guest
    memory and host files, and the laws of a host file that a disk controller's
    theorems rely on: a read returns the bytes up to the end of the file, a
    write inside the file succeeds, replaces exactly its range and keeps the size. *)

From S2P Require Import Prelude Bus Ram HostMem Virtio VirtioDev.

(** ** Windows *)

(** Consecutive addresses. *)
Definition from (a : Z) (i : nat) : Z := a + Z.of_nat i.

Definition bytes_of (g : Z -> Z) (a : Z) (n : nat) : list Z := (fun i => g (from a i)) <$> seq 0 n.

Lemma length_bytes_of g a n : length (bytes_of g a n) = n.
Proof. unfold bytes_of. by rewrite length_fmap, length_seq. Qed.

Lemma bytes_of_lookup g a n i : (i < n)%nat -> bytes_of g a n !! i = Some (g (a + Z.of_nat i)).
Proof. intros Hi. unfold bytes_of. rewrite list_lookup_fmap, lookup_seq_lt by done. done. Qed.

Lemma bytes_of_ext g g' a n : (forall k, a <= k < a + Z.of_nat n -> g' k = g k) -> bytes_of g' a n = bytes_of g a n.
Proof. intros Hk. apply list_fmap_ext. intros i x [-> Hx]%lookup_seq. apply Hk. unfold from. lia. Qed.

Lemma bytes_of_rng g a n : (forall k, a <= k < a + Z.of_nat n -> rng 8 (g k)) -> Forall (rng 8) (bytes_of g a n).
Proof. intros Hk. apply Forall_fmap, Forall_forall. intros i Hi%elem_of_seq. apply Hk. unfold from. lia. Qed.

Lemma bytes_of_list g a bs : (forall i, (i < length bs)%nat -> g (from a i) = bs !!! i) -> bytes_of g a (length bs) = bs.
Proof.
  intros Hk. apply list_eq. intros i. destruct (decide (i < length bs)%nat) as [Hi|Hi].
  - rewrite bytes_of_lookup by done. rewrite list_lookup_lookup_total_lt by done. f_equal. by apply Hk.
  - rewrite !lookup_ge_None_2; [done|lia|rewrite length_bytes_of; lia].
Qed.

Lemma bytes_of_app g a n k : bytes_of g a (n + k) = bytes_of g a n ++ bytes_of g (a + Z.of_nat n) k.
Proof.
  apply list_eq. intros i. destruct (decide (i < n)%nat) as [Hi|Hi].
  - rewrite lookup_app_l, !bytes_of_lookup by (rewrite ?length_bytes_of; lia). done.
  - rewrite lookup_app_r, length_bytes_of by (rewrite length_bytes_of; lia). destruct (decide (i < n + k)%nat) as [Hk|Hk].
    + rewrite !bytes_of_lookup by lia. do 2 f_equal. lia.
    + rewrite !lookup_ge_None_2; [done|rewrite length_bytes_of; lia..].
Qed.

Lemma bytes_of_take g a n k : (k <= n)%nat -> take k (bytes_of g a n) = bytes_of g a k.
Proof.
  intros Hk. replace n with (k + (n - k))%nat by lia. rewrite bytes_of_app, take_app_length'; [done|]. by rewrite length_bytes_of.
Qed.

Lemma bytes_of_drop g a n k : (k <= n)%nat -> drop k (bytes_of g a n) = bytes_of g (a + Z.of_nat k) (n - k).
Proof.
  intros Hk. replace n with (k + (n - k))%nat at 1 by lia. rewrite bytes_of_app, drop_app_length'; [done|]. by rewrite length_bytes_of.
Qed.

(** [g'] is [g] with the bytes [bs] at [a]. *)
Definition patched (g g' : Z -> Z) (a : Z) (bs : list Z) : Prop :=
  bytes_of g' a (length bs) = bs /\ forall k, ~ a <= k < a + Z.of_nat (length bs) -> g' k = g k.

Lemma patched_nil g g' a : (forall k, g' k = g k) -> patched g g' a [].
Proof. intros E. split; [done|]. intros k _. apply E. Qed.

Lemma patched_app g g1 g2 a bs cs : patched g g1 a bs -> patched g1 g2 (a + Z.of_nat (length bs)) cs -> patched g g2 a (bs ++ cs).
Proof.
  intros [E1 N1] [E2 N2]. split.
  - rewrite length_app, bytes_of_app, E2. f_equal. rewrite <- E1 at 2. apply bytes_of_ext. intros k Hk. apply N2. lia.
  - intros k Hk. rewrite length_app in Hk. rewrite N2, N1; [done|lia..].
Qed.

Lemma patched_other g g' a bs b n : patched g g' a bs -> b + Z.of_nat n <= a \/ a + Z.of_nat (length bs) <= b ->
  bytes_of g' b n = bytes_of g b n.
Proof. intros [_ N] Hd. apply bytes_of_ext. intros k Hk. apply N. lia. Qed.

(** ** Disk images *)

Class DiskFile (F : Type) `{HostFileOps F} := {
  dk_byte : F -> Z -> Z;
  dk_rng : forall f k, rng 8 (dk_byte f k);
  dk_read : forall f off n, 0 <= off <= f_size f -> 0 <= n ->
    f_pread f off n = bytes_of (dk_byte f) off (Z.to_nat (Z.min n (f_size f - off)));
  dk_write : forall f off bs, 0 <= off -> off + Z.of_nat (length bs) <= f_size f -> Forall (rng 8) bs ->
    exists f', f_pwrite f off bs = (f', Z.of_nat (length bs)) /\ f_size f' = f_size f /\ patched (dk_byte f) (dk_byte f') off bs;
}.

Section disk.
Context {F : Type} `{DiskFile F}.

Lemma ReadAt_end (f : F) off n : 0 <= off <= f_size f -> 0 < n < 2 ^ 32 ->
  HostFileReadAt f off n = bytes_of (dk_byte f) off (Z.to_nat (Z.min n (f_size f - off))).
Proof.
  intros Ho Hn. unfold HostFileReadAt. rewrite (proj2 (Z.eqb_neq n 0)), (proj2 (Z.ltb_ge off 0)) by lia. cbn [orb].
  rewrite wrap_small by (unfold rng; lia). apply dk_read; lia.
Qed.

Lemma ReadAt_disk (f : F) off n : 0 <= off -> 0 < n < 2 ^ 32 -> off + n <= f_size f ->
  HostFileReadAt f off n = bytes_of (dk_byte f) off (Z.to_nat n).
Proof. intros Ho Hn Hs. rewrite ReadAt_end by lia. do 2 f_equal. lia. Qed.

Lemma WriteAt_disk (f : F) off bs n : 0 <= off -> 0 < n < 2 ^ 32 -> n <= Z.of_nat (length bs) -> off + n <= f_size f -> Forall (rng 8) bs ->
  exists f', HostFileWriteAt f off bs n = (f', n) /\ f_size f' = f_size f /\ patched (dk_byte f) (dk_byte f') off (take (Z.to_nat n) bs).
Proof.
  intros Ho Hn Hl Hs Hb. unfold HostFileWriteAt. rewrite (proj2 (Z.eqb_neq n 0)), (proj2 (Z.ltb_ge off 0)) by lia. cbn [orb].
  rewrite wrap_small by (unfold rng; lia). assert (El : Z.of_nat (length (take (Z.to_nat n) bs)) = n) by (rewrite length_take; lia).
  destruct (dk_write f off (take (Z.to_nat n) bs)) as (f' & E & Es & Ep); [lia..|by apply Forall_take|].
  exists f'. rewrite E, El. done.
Qed.
End disk.

(** * Devices as bus masters

    The DMA controller and the IDE engine read and write guest memory one byte
    at a time through the memory bus ([BusRead] and [BusWrite] of bus/bus.c
    with size 1).  The devices are modelled against a type class of those two
    calls, in which an unmapped address, which ends the emulator with a fatal
    error, is [None].  A second class says what a window of RAM behind the bus
    is, and the real bus discharges it. *)

Class SysBus (M : Type) := {
  bus_get : Z -> M -> option (Z * M);
  bus_put : Z -> Z -> M -> option M;
}.

(** The addresses [lo] to [hi] are RAM: [ram_byte] is its contents, [ram_ok]
    what accesses keep. *)
Class SysRam (M : Type) `{SysBus M} (lo hi : Z) := {
  ram_ok : M -> Prop;
  ram_byte : M -> Z -> Z;
  sr_rng : forall m a, lo <= a < hi -> rng 8 (ram_byte m a);
  sr_get : forall m a, ram_ok m -> lo <= a < hi ->
    exists m', bus_get a m = Some (ram_byte m a, m') /\ ram_ok m' /\ forall k, ram_byte m' k = ram_byte m k;
  sr_put : forall m a b, ram_ok m -> lo <= a < hi -> rng 8 b ->
    exists m', bus_put a b m = Some m' /\ ram_ok m' /\
      forall k, ram_byte m' k = if bool_decide (k = a) then b else ram_byte m k;
}.

(** ** Runs of bytes *)

Section runs.
Context {M : Type} `{SysBus M}.

(** Bytes at the addresses [a 0], [a 1], ... *)
Fixpoint get_run (a : nat -> Z) (n : nat) (m : M) : option (list Z * M) :=
  match n with
  | O => Some ([], m)
  | S n =>
      match bus_get (a O) m with
      | Some (b, m) =>
          match get_run (fun i => a (S i)) n m with
          | Some (bs, m) => Some (u8 b :: bs, m)
          | None => None
          end
      | None => None
      end
  end.

Fixpoint put_run (a : nat -> Z) (bs : list Z) (m : M) : option M :=
  match bs with
  | [] => Some m
  | b :: bs =>
      match bus_put (a O) b m with
      | Some m => put_run (fun i => a (S i)) bs m
      | None => None
      end
  end.

Context {lo hi : Z} `{!SysRam M lo hi}.

Lemma get_run_ram a n m : ram_ok m -> (forall i, (i < n)%nat -> lo <= a i < hi) ->
  exists m', get_run a n m = Some ((fun i => ram_byte m (a i)) <$> seq 0 n, m') /\ ram_ok m' /\ forall k, ram_byte m' k = ram_byte m k.
Proof.
  revert a m; induction n as [|n IH]; intros a m Hm Ha; [by exists m|].
  destruct (sr_get m (a O) Hm (Ha O ltac:(lia))) as (m1 & E1 & H1 & K1).
  destruct (IH (fun i => a (S i)) m1 H1) as (m2 & E2 & H2 & K2); [intros i Hi; apply Ha; lia|].
  exists m2. cbn. rewrite E1, E2. split; [|split; [done|]; intros k; by rewrite K2].
  rewrite (wrap_small 8) by (apply sr_rng, Ha; lia). do 3 f_equal. rewrite <- (fmap_S_seq 0 n), <- list_fmap_compose.
  apply list_fmap_ext. intros i x Hx. cbn. by rewrite K1.
Qed.

(** The bytes a run of stores leaves, when no address repeats. *)
Lemma put_run_ram a bs m : ram_ok m -> (forall i, (i < length bs)%nat -> lo <= a i < hi) -> Forall (rng 8) bs ->
  (forall i j, (i < length bs)%nat -> (j < length bs)%nat -> a i = a j -> i = j) ->
  exists m', put_run a bs m = Some m' /\ ram_ok m' /\
    (forall i, (i < length bs)%nat -> ram_byte m' (a i) = bs !!! i) /\
    (forall k, (forall i, (i < length bs)%nat -> k <> a i) -> ram_byte m' k = ram_byte m k).
Proof.
  revert a m; induction bs as [|b bs IH]; intros a m Hm Ha Hb Hi.
  { exists m. split; [done|]. split; [done|]. split; [cbn; intros; lia|done]. }
  inversion Hb as [|? ? Hb0 Hbs]; subst.
  destruct (sr_put m (a O) b Hm (Ha O ltac:(cbn; lia)) Hb0) as (m1 & E1 & H1 & K1).
  destruct (IH (fun i => a (S i)) m1 H1) as (m2 & E2 & H2 & K2 & N2).
  - intros i Hi'. apply Ha. cbn. lia.
  - done.
  - intros i j Hi' Hj E. assert (S i = S j) by (apply Hi; cbn; (lia || done)). lia.
  - exists m2. cbn. rewrite E1. split; [done|]. split; [done|]. split.
    + intros [|i] Hi'; cbn in Hi'.
      * rewrite N2, K1, bool_decide_true; [done..|]. intros i Hi2 E. assert (O = S i) by (apply Hi; cbn; (lia || done)). lia.
      * rewrite K2 by lia. done.
    + intros k Hk. rewrite N2, K1, bool_decide_false; [done|apply (Hk O); cbn; lia|]. intros i Hi'. apply (Hk (S i)). cbn. lia.
Qed.

(** A block of memory after a run of stores to consecutive addresses. *)
Lemma put_block a bs m : ram_ok m -> lo <= a -> a + Z.of_nat (length bs) <= hi -> Forall (rng 8) bs ->
  exists m', put_run (from a) bs m = Some m' /\ ram_ok m' /\ patched (ram_byte m) (ram_byte m') a bs.
Proof.
  intros Hm H1 H2 Hb. destruct (put_run_ram (from a) bs m Hm) as (m' & E & Hm' & K & N); [unfold from; lia|done|unfold from; lia|].
  exists m'. split; [done|]. split; [done|]. split; [by apply bytes_of_list|]. intros k Hk. apply N. unfold from. lia.
Qed.

Lemma get_block a n m : ram_ok m -> lo <= a -> a + Z.of_nat n <= hi ->
  exists m', get_run (from a) n m = Some (bytes_of (ram_byte m) a n, m') /\ ram_ok m' /\ forall k, ram_byte m' k = ram_byte m k.
Proof. intros Hm H1 H2. apply get_run_ram; [done|]. unfold from. lia. Qed.
End runs.

(** ** The bus of the board *)

Section bus.
Context {Ops Dev W : Type} `{BusDevices Ops Dev W}.

(** The memory bus with the devices behind it and the lines they drove. *)
Record SysMem := mkSys { sm_bus : Bus Ops Dev; sm_world : W; sm_events : list cpu_event }.

Definition BusRead (addr : Z) (m : SysMem) : option (Z * SysMem) :=
  match FindRegion (sm_bus m) addr 1 with
  | (Some r, b) =>
      let '(v, w, evs) := dev_read (r_ops r) (r_dev r) addr 1 (sm_world m) in
      Some (v, mkSys b w (sm_events m ++ evs))
  | (None, _) => None
  end.

Definition BusWrite (addr v : Z) (m : SysMem) : option SysMem :=
  match FindRegion (sm_bus m) addr 1 with
  | (Some r, b) =>
      let '(w, evs) := dev_write (r_ops r) (r_dev r) addr 1 v (sm_world m) in
      Some (mkSys b w (sm_events m ++ evs))
  | (None, _) => None
  end.

#[export] Instance board_sysbus : SysBus SysMem := { bus_get := BusRead; bus_put := BusWrite }.

(** Every address of the window decodes to a region with a host block, and the
    blocks line up. *)
Class FlatRam (bus : Bus Ops Dev) (lo hi : Z) (h : host_ptr Dev) : Prop := {
  fr_low : 0 <= lo;
  fr_wf : bus_wf bus;
  fr_decode : forall a, lo <= a < hi -> exists r h', decode_spec bus a 1 = Some r /\ r_host r = Some h' /\
    hp_add h' (a - r_base r) = hp_add h (a - lo);
}.

Context (bus : Bus Ops Dev) (lo hi : Z) (h : host_ptr Dev).
Context `{!FlatRam bus lo hi h, !BusDevicesOk Ops Dev W bus, !HostBytes Ops Dev W}.

Definition sys_ok (m : SysMem) : Prop := bus_wf (sm_bus m) /\ bus_regions (sm_bus m) = bus_regions bus.
Definition sys_byte (m : SysMem) (a : Z) : Z := hget (hp_add h (a - lo)) (sm_world m).

Lemma sys_decode m a : sys_ok m -> lo <= a < hi -> exists r h' b, FindRegion (sm_bus m) a 1 = (Some r, b) /\
  sys_ok (mkSys b (sm_world m) []) /\ r ∈ bus_regions bus /\ r_host r = Some h' /\ r_base r <= a /\ a + 1 <= r_base r + r_size r /\
  HostPtr (hp_block h') (hp_off h' + (a - r_base r)) = hp_add h (a - lo).
Proof.
  intros [Hw Hr] Ha. assert (H0 : 0 <= lo) by (eapply fr_low; done). destruct (fr_decode a Ha) as (r & h' & Ed & Eh & Ep).
  assert (Ef : (FindRegion (sm_bus m) a 1).1 = Some r).
  { rewrite FindRegion_decode by (done || lia). unfold decode_spec in *. by rewrite Hr. }
  destruct (FindRegion_some (sm_bus m) a 1 r Hw ltac:(lia) ltac:(lia) Ef) as (_ & H1 & H2).
  pose proof (FindRegion_wf (sm_bus m) a 1 Hw) as Hw2. pose proof (FindRegion_regions (sm_bus m) a 1) as Hr2.
  destruct (FindRegion (sm_bus m) a 1) as [o b]. cbn in *. subst o. exists r, h', b.
  split; [done|]. split; [split; [done|]; cbn; congruence|].
  split; [|done]. eapply (decode_in bus a 1 r); [eapply fr_wf; done|lia|lia|done].
Qed.

#[export] Instance board_sysram : SysRam SysMem lo hi.
Proof.
  refine {| ram_ok := sys_ok; ram_byte := sys_byte |}.
  - intros m a Ha. apply hb_rng.
  - intros m a Hm Ha. destruct (sys_decode m a Hm Ha) as (r & h' & b & E & Hb & Hin & Hh & H1 & H2 & Ep). cbn. unfold BusRead.
    rewrite E, (bd_ram_read r h') by (done || lia). rewrite Ep. eexists. split; [done|]. split; [apply Hb|done].
  - intros m a v Hm Ha Hv. destruct (sys_decode m a Hm Ha) as (r & h' & b & E & Hb & Hin & Hh & H1 & H2 & Ep). cbn. unfold BusWrite.
    rewrite E, (bd_ram_write r h') by (done || lia). rewrite Ep. eexists. split; [done|]. split; [apply Hb|].
    intros k. unfold sys_byte. cbn. change (host_store ?p 1 v ?w) with (hset p v w). case_bool_decide as Ek.
    + subst k. by apply hb_same.
    + apply hb_other. apply hp_add_ne. lia.
Defined.
End bus.
Arguments SysMem : clear implicits.
