(* ===== verification/I8237.v ===== *)
(** * 8237 DMA controllers (device/dma/i8237.c)

    Both cascaded chips as the one device the code makes of them: eight
    channels with their page latches, the shared flip-flop of the two-byte
    registers, the control registers, and the transfer a peripheral asks for,
    which walks guest memory through the memory bus.  Theorems: what a transfer
    moves and leaves in the registers, the programming sequence of a channel,
    and where the code departs from its comments (a page crossing, a spent
    count). *)

From S2P Require Import Prelude SysBus.

Definition kI8237Channels := 8.
Definition kI8237MasterChannels := 4.
Definition kI8237CountBias := 1.
Definition kI8237ModeChannel := 0x03.
Definition kI8237ModeDirection := 0x0c.
Definition kI8237ModeAutoInit := 0x10.
Definition kI8237ModeDecrement := 0x20.
Definition kI8237DirVerify := 0x00.
Definition kI8237DirWrite := 0x04.
Definition kI8237DirRead := 0x08.
Definition kI8237MaskSet := 0x04.
Definition kI8237CmdDisable := 0x04.
Definition kMasterEnd := 0x0f.
Definition kPageBase := 0x81.
Definition kPageEnd := 0x8f.
Definition kSlaveBase := 0xc0.
Definition kSlaveEnd := 0xdf.
Definition kSlaveCtlBase := 0xd0.
Definition kCtlFirst := 0x08.
Definition kCtlLast := 0x0f.
Definition kChannelPorts := 2.

Record I8237Channel := mkChan {
  ch_addr : Z; ch_addr_init : Z; ch_count : Z; ch_count_init : Z; ch_page : Z; ch_mode : Z; ch_masked : bool;
}.
Definition eta_chan (c : I8237Channel) : I8237Channel :=
  mkChan (ch_addr c) (ch_addr_init c) (ch_count c) (ch_count_init c) (ch_page c) (ch_mode c) (ch_masked c).
#[export] Instance upd_ch_addr : Upd ch_addr := ltac:(mk_upd eta_chan ch_addr).
#[export] Instance upd_ch_addr_init : Upd ch_addr_init := ltac:(mk_upd eta_chan ch_addr_init).
#[export] Instance upd_ch_count : Upd ch_count := ltac:(mk_upd eta_chan ch_count).
#[export] Instance upd_ch_count_init : Upd ch_count_init := ltac:(mk_upd eta_chan ch_count_init).
#[export] Instance upd_ch_page : Upd ch_page := ltac:(mk_upd eta_chan ch_page).
#[export] Instance upd_ch_mode : Upd ch_mode := ltac:(mk_upd eta_chan ch_mode).
#[export] Instance upd_ch_masked : Upd ch_masked := ltac:(mk_upd eta_chan ch_masked).

Definition chan_zero : I8237Channel := mkChan 0 0 0 0 0 0 false.
#[export] Instance chan_inhabited : Inhabited I8237Channel := populate chan_zero.

(** [dm_wired]: the memory bus is set. *)
Record I8237Device := mkDma {
  dm_ch : list I8237Channel; dm_command : Z; dm_status : Z; dm_request : Z; dm_flipflop : bool; dm_wired : bool;
}.
Definition eta_dma (d : I8237Device) : I8237Device :=
  mkDma (dm_ch d) (dm_command d) (dm_status d) (dm_request d) (dm_flipflop d) (dm_wired d).
#[export] Instance upd_dm_ch : Upd dm_ch := ltac:(mk_upd eta_dma dm_ch).
#[export] Instance upd_dm_command : Upd dm_command := ltac:(mk_upd eta_dma dm_command).
#[export] Instance upd_dm_status : Upd dm_status := ltac:(mk_upd eta_dma dm_status).
#[export] Instance upd_dm_request : Upd dm_request := ltac:(mk_upd eta_dma dm_request).
#[export] Instance upd_dm_flipflop : Upd dm_flipflop := ltac:(mk_upd eta_dma dm_flipflop).
#[export] Instance upd_dm_wired : Upd dm_wired := ltac:(mk_upd eta_dma dm_wired).

Definition put_chan (d : I8237Device) (i : Z) (c : I8237Channel) : I8237Device := d <| dm_ch := arr_set (dm_ch d) i c |>.

(** ** Ports *)

Definition kPageMap : list Z := [2; 3; 1; -1; -1; -1; 0; -1; 6; 7; 5; -1; -1; -1; 4].
Definition PageChannel (addr : Z) : Z := arr kPageMap (addr - kPageBase).

(** The flip-flop after the access, and the register or byte. *)
Definition FlipflopWrite (ff : bool) (old v : Z) : bool * Z :=
  let ff := negb ff in
  (ff, if ff then (old .& 0xff00) .| v else (old .& 0x00ff) .| u16 (v .<< 8)).

Definition FlipflopRead (ff : bool) (v : Z) : bool * Z :=
  let ff := negb ff in (ff, if ff then v .& 0xff else u8 (v .>> 8)).

(** What a port resolves to: a page latch, a channel's address or count, or a
    control register of the chip whose first channel is [base]. *)
Inductive RegHit := HitPage (channel : Z) | HitChannel (channel : Z) (is_count : bool) | HitCtl (ctl base : Z).

Definition DecodePort (addr : Z) : option RegHit :=
  if (kPageBase <=? addr) && (addr <=? kPageEnd) then
    let c := PageChannel addr in if 0 <=? c then Some (HitPage c) else None
  else if addr <=? kMasterEnd then
    if addr <? kCtlFirst then Some (HitChannel (addr / kChannelPorts) (negb (addr mod kChannelPorts =? 0)))
    else Some (HitCtl addr 0)
  else if (kSlaveBase <=? addr) && (addr <=? kSlaveEnd) then
    if addr <? kSlaveCtlBase then
      let off := addr - kSlaveBase in
      if negb (off .& 3 =? 0) && negb (off .& 3 =? 2) then None
      else Some (HitChannel (kI8237MasterChannels + (off .>> 2)) (negb ((off .& 3) .>> 1 =? 0)))
    else
      let off := addr - kSlaveCtlBase in
      if tst off 1 then None else Some (HitCtl (kCtlFirst + (off .>> 1)) kI8237MasterChannels)
  else None.

(** The four mask bits of one chip. *)
Definition mask_bits (d : I8237Device) (base : Z) : Z :=
  fold_left (fun v i => if ch_masked (arr (dm_ch d) (base + i)) then v .| (1 .<< i) else v) [0; 1; 2; 3] 0.

Definition I8237Read (d : I8237Device) (addr : Z) : Z * I8237Device :=
  match DecodePort addr with
  | None => (0xff, d)
  | Some (HitPage c) => (ch_page (arr (dm_ch d) c), d)
  | Some (HitChannel c is_count) =>
      let '(ff, v) := FlipflopRead (dm_flipflop d) ((if is_count then ch_count else ch_addr) (arr (dm_ch d) c)) in
      (v, d <| dm_flipflop := ff |>)
  | Some (HitCtl ctl base) =>
      (if ctl =? 0x08 then dm_status d else if ctl =? kCtlLast then mask_bits d base else 0xff, d)
  end.

(** A step over the four channels of one chip. *)
Definition each_chan (f : Z -> I8237Channel -> I8237Channel) (d : I8237Device) (base : Z) : I8237Device :=
  fold_left (fun d i => put_chan d (base + i) (f i (arr (dm_ch d) (base + i)))) [0; 1; 2; 3] d.

Definition MasterClear (d : I8237Device) (base : Z) : I8237Device :=
  let d := d <| dm_command := 0 |> <| dm_status := 0 |> <| dm_request := 0 |> <| dm_flipflop := false |> in
  each_chan (fun _ c => c <| ch_addr := 0 |> <| ch_addr_init := 0 |> <| ch_count := 0 |> <| ch_count_init := 0 |>
    <| ch_mode := 0 |> <| ch_masked := true |>) d base.

Definition write_ctl (d : I8237Device) (ctl base v : Z) : I8237Device :=
  switch ctl
    [(0x08, d <| dm_command := v |>); (0x09, d <| dm_request := v |>);
     (0x0a, let ch := base + (v .& 0x03) in put_chan d ch ((arr (dm_ch d) ch) <| ch_masked := tst v kI8237MaskSet |>));
     (0x0b, let ch := base + (v .& kI8237ModeChannel) in put_chan d ch ((arr (dm_ch d) ch) <| ch_mode := v |>));
     (0x0c, d <| dm_flipflop := false |>);
     (0x0d, MasterClear d base);
     (0x0e, each_chan (fun _ c => c <| ch_masked := false |>) d base);
     (kCtlLast, each_chan (fun i c => c <| ch_masked := negb ((v .>> i) .& 1 =? 0) |>) d base)] d.

Definition I8237Write (d : I8237Device) (addr val : Z) : I8237Device :=
  let v := u8 val in
  match DecodePort addr with
  | None => d
  | Some (HitPage c) => put_chan d c ((arr (dm_ch d) c) <| ch_page := v |>)
  | Some (HitChannel i is_count) =>
      let c := arr (dm_ch d) i in
      if is_count then
        let '(ff, x) := FlipflopWrite (dm_flipflop d) (ch_count c) v in
        put_chan (d <| dm_flipflop := ff |>) i (c <| ch_count := x |> <| ch_count_init := x |>)
      else
        let '(ff, x) := FlipflopWrite (dm_flipflop d) (ch_addr c) v in
        put_chan (d <| dm_flipflop := ff |>) i (c <| ch_addr := x |> <| ch_addr_init := x |>)
  | Some (HitCtl ctl base) => write_ctl d ctl base v
  end.

Definition I8237Reset (d : I8237Device) : I8237Device := MasterClear (MasterClear d 0) kI8237MasterChannels.
Definition I8237Init : I8237Device := I8237Reset (mkDma (replicate 8 chan_zero) 0 0 0 false false).
Definition I8237SetMemBus (d : I8237Device) : I8237Device := d <| dm_wired := true |>.

(** ** Transfers *)

Section transfer.
Context {M : Type} `{SysBus M}.

(** The address of the [i]-th byte: the page latch and the register, without a
    wrap inside the page. *)
Definition dma_addr (c : I8237Channel) (i : nat) : Z :=
  let addr := (ch_page c .<< 16) .| ch_addr c in
  u32 (if tst (ch_mode c) kI8237ModeDecrement then addr - Z.of_nat i else addr + Z.of_nat i).

(** The channel and the status register after [n] of [left] bytes. *)
Definition dma_advance (d : I8237Device) (channel : Z) (left n : Z) : I8237Device :=
  let c := arr (dm_ch d) channel in
  let c1 := c <| ch_addr := dma_addr c (Z.to_nat n) .& 0xffff |> <| ch_count := u16 (left - n - kI8237CountBias) |> in
  if n =? left then
    let c2 := if tst (ch_mode c) kI8237ModeAutoInit then c1 <| ch_addr := ch_addr_init c |> <| ch_count := ch_count_init c |> else c1 in
    put_chan (d <| dm_status := dm_status d .| u8 (1 .<< (channel .& 0x03)) |>) channel c2
  else put_chan d channel c1.

(** Bytes moved, the controller, the peripheral's buffer and memory; [None] is
    the fatal error of an unmapped address. *)
Definition I8237Transfer (d : I8237Device) (channel : Z) (buf : list Z) (len : Z) (m : M) : option (Z * I8237Device * list Z * M) :=
  if (channel <? 0) || (kI8237Channels <=? channel) then Some (0, d, buf, m)
  else if tst (dm_command d) kI8237CmdDisable then Some (0, d, buf, m)
  else if negb (dm_wired d) || (len <=? 0) then Some (0, d, buf, m)
  else
    let c := arr (dm_ch d) channel in
    if ch_masked c then Some (0, d, buf, m)
    else
      let direction := ch_mode c .& kI8237ModeDirection in
      if direction =? kI8237DirVerify then Some (0, d, buf, m)
      else
        let left := ch_count c + kI8237CountBias in
        let n := if len <? left then len else left in
        if n <=? 0 then Some (0, d, buf, m)
        else if negb (direction =? kI8237DirRead) then
          match put_run (dma_addr c) (take (Z.to_nat n) buf) m with
          | Some m => Some (n, dma_advance d channel left n, buf, m)
          | None => None
          end
        else
          match get_run (dma_addr c) (Z.to_nat n) m with
          | Some (bs, m) => Some (n, dma_advance d channel left n, bs ++ drop (Z.to_nat n) buf, m)
          | None => None
          end.
End transfer.

(** ** What a transfer does *)

Definition chan_at (c : I8237Channel) : Z := ch_page c * 65536 + ch_addr c.

Record chan_wf (c : I8237Channel) : Prop := {
  cw_addr : rng 16 (ch_addr c); cw_count : rng 16 (ch_count c); cw_page : rng 8 (ch_page c);
}.

(** A channel that answers a request, counting upwards. *)
Record dma_ready (d : I8237Device) (channel : Z) : Prop := {
  dr_channel : 0 <= channel < kI8237Channels;
  dr_length : length (dm_ch d) = 8%nat;
  dr_enabled : tst (dm_command d) kI8237CmdDisable = false;
  dr_wired : dm_wired d = true;
  dr_unmasked : ch_masked (arr (dm_ch d) channel) = false;
  dr_up : tst (ch_mode (arr (dm_ch d) channel)) kI8237ModeDecrement = false;
  dr_wf : chan_wf (arr (dm_ch d) channel);
}.

Lemma lor_page p a : 0 <= p -> rng 16 a -> (p .<< 16) .| a = p * 65536 + a.
Proof.
  intros Hp Ha. rewrite Z.shiftl_mul_pow2 by lia. rewrite <- Z.lxor_lor; [symmetry; apply Z.add_nocarry_lxor|].
  all: apply Z.bits_inj'; intros k Hk; rewrite Z.land_spec, Z.bits_0, <- Z.shiftl_mul_pow2 by lia;
    destruct (Z.lt_ge_cases k 16); [by rewrite Z.shiftl_spec_low|]; rewrite (proj2 (proj1 (rng_testbit 16 a ltac:(lia)) Ha)) by lia; apply andb_false_r.
Qed.

Lemma dma_addr_up c : chan_wf c -> tst (ch_mode c) kI8237ModeDecrement = false ->
  forall i, (Z.of_nat i <= 65536) -> dma_addr c i = from (chan_at c) i.
Proof.
  intros [Ha Hc Hp] Hd i Hi. unfold dma_addr, from, chan_at. rewrite Hd, lor_page by (done || apply Hp).
  apply wrap_small. unfold rng in *. lia.
Qed.

Lemma run_ext {M} `{SysBus M} a b n (m : M) : (forall i, (i < n)%nat -> a i = b i) -> get_run a n m = get_run b n m.
Proof.
  revert a b m; induction n as [|n IH]; intros a b m E; [done|]. cbn. rewrite (E O) by lia. destruct (bus_get _ _) as [[x m1]|]; [|done].
  by rewrite (IH _ (fun i => b (S i))) by (intros; apply E; lia).
Qed.

Lemma put_run_ext {M} `{SysBus M} a b bs (m : M) : (forall i, (i < length bs)%nat -> a i = b i) -> put_run a bs m = put_run b bs m.
Proof.
  revert a b m; induction bs as [|x bs IH]; intros a b m E; [done|]. cbn. rewrite (E O) by (cbn; lia).
  destruct (bus_put _ _ _) as [m1|]; [|done]. apply IH. intros; apply E; cbn; lia.
Qed.

(** The bytes a request for [len] moves. *)
Definition dma_moved (d : I8237Device) (channel len : Z) : Z := Z.min len (ch_count (arr (dm_ch d) channel) + 1).

Lemma dma_moved_range d channel len : dma_ready d channel -> 0 < len -> 0 < dma_moved d channel len <= Z.min len 65536.
Proof. intros [_ _ _ _ _ _ [_ Hc _]] Hl. unfold dma_moved, rng in *. lia. Qed.

Section moved.
Context {M : Type} `{SysBus M} {lo hi : Z} `{!SysRam M lo hi}.
Implicit Types (d : I8237Device) (m : M).

(** The request once the guards are passed. *)
Lemma Transfer_ready d channel buf len m : dma_ready d channel -> 0 < len ->
  ch_mode (arr (dm_ch d) channel) .& kI8237ModeDirection <> kI8237DirVerify ->
  let c := arr (dm_ch d) channel in
  let n := dma_moved d channel len in
  I8237Transfer d channel buf len m =
    if negb (ch_mode c .& kI8237ModeDirection =? kI8237DirRead) then
      option_map (fun m => (n, dma_advance d channel (ch_count c + 1) n, buf, m)) (put_run (from (chan_at c)) (take (Z.to_nat n) buf) m)
    else option_map (fun r => (n, dma_advance d channel (ch_count c + 1) n, fst r ++ drop (Z.to_nat n) buf, snd r))
           (get_run (from (chan_at c)) (Z.to_nat n) m).
Proof.
  intros Hd Hl Hv c n. pose proof (dma_moved_range d channel len Hd Hl) as Hn. destruct Hd as [Hc _ He Hw Hm Hu Hwf].
  unfold I8237Transfer. rewrite He, Hw. fold c. fold c in Hm, Hu, Hv, Hwf. rewrite Hm. cbn [negb orb].
  unfold kI8237Channels in Hc. rewrite (proj2 (Z.ltb_ge channel 0)), (proj2 (Z.leb_gt kI8237Channels channel)), (proj2 (Z.leb_gt len 0)) by (unfold kI8237Channels; lia).
  rewrite (proj2 (Z.eqb_neq _ _) Hv). cbn [orb]. unfold kI8237CountBias.
  assert (En : (if len <? ch_count c + 1 then len else ch_count c + 1) = n).
  { unfold n, dma_moved. fold c. destruct (Z.ltb_spec len (ch_count c + 1)); lia. }
  rewrite En. fold n in Hn. rewrite (proj2 (Z.leb_gt n 0)) by lia.
  destruct (negb _).
  - rewrite (put_run_ext _ (from (chan_at c))); [by destruct (put_run _ _ _)|]. intros i Hi. apply dma_addr_up; [done..|].
    rewrite length_take in Hi. lia.
  - rewrite (run_ext _ (from (chan_at c))); [by destruct (get_run _ _ _) as [[]|]|]. intros i Hi. apply dma_addr_up; [done..|]. lia.
Qed.

(** Peripheral to memory. *)
Lemma transfer_to_memory d channel buf len m : dma_ready d channel -> 0 < len <= Z.of_nat (length buf) -> Forall (rng 8) buf ->
  ch_mode (arr (dm_ch d) channel) .& kI8237ModeDirection = kI8237DirWrite -> ram_ok m ->
  let at_ := chan_at (arr (dm_ch d) channel) in
  let n := dma_moved d channel len in
  lo <= at_ -> at_ + n <= hi ->
  exists m', I8237Transfer d channel buf len m = Some (n, dma_advance d channel (ch_count (arr (dm_ch d) channel) + 1) n, buf, m') /\ ram_ok m' /\
    patched (ram_byte m) (ram_byte m') at_ (take (Z.to_nat n) buf).
Proof.
  intros Hd Hl Hb Hdir Hm at_ n H1 H2. pose proof (dma_moved_range d channel len Hd ltac:(lia)) as Hn. fold n in Hn.
  rewrite Transfer_ready by (try rewrite Hdir; (done || lia)). rewrite Hdir. cbn zeta. fold n at_. cbn [negb].
  assert (El : length (take (Z.to_nat n) buf) = Z.to_nat n) by (rewrite length_take; lia).
  destruct (put_block at_ (take (Z.to_nat n) buf) m Hm H1) as (m' & E & Hm' & K).
  { rewrite El. lia. } { by apply Forall_take. }
  change (kI8237DirWrite =? kI8237DirRead) with false. cbn [negb]. rewrite E. by exists m'.
Qed.

(** Memory to peripheral. *)
Lemma transfer_from_memory d channel buf len m : dma_ready d channel -> 0 < len ->
  ch_mode (arr (dm_ch d) channel) .& kI8237ModeDirection = kI8237DirRead -> ram_ok m ->
  let at_ := chan_at (arr (dm_ch d) channel) in
  let n := dma_moved d channel len in
  lo <= at_ -> at_ + n <= hi ->
  exists m', I8237Transfer d channel buf len m = Some (n, dma_advance d channel (ch_count (arr (dm_ch d) channel) + 1) n,
      bytes_of (ram_byte m) at_ (Z.to_nat n) ++ drop (Z.to_nat n) buf, m') /\ ram_ok m' /\ forall k, ram_byte m' k = ram_byte m k.
Proof.
  intros Hd Hl Hdir Hm at_ n H1 H2. pose proof (dma_moved_range d channel len Hd ltac:(lia)) as Hn. fold n in Hn.
  rewrite Transfer_ready by (try rewrite Hdir; (done || lia)). rewrite Hdir. cbn zeta. fold n at_.
  change (kI8237DirRead =? kI8237DirRead) with true. cbn [negb].
  destruct (get_block at_ (Z.to_nat n) m Hm H1) as (m' & E & Hm' & K); [lia|]. rewrite E. by exists m'.
Qed.

(** The registers afterwards: the address advanced inside its page, the count
    down by the bytes moved, terminal count exactly at the end. *)
Lemma advance_regs d channel n : dma_ready d channel -> 0 < n <= ch_count (arr (dm_ch d) channel) + 1 ->
  let c := arr (dm_ch d) channel in
  let d' := dma_advance d channel (ch_count c + 1) n in
  let c' := arr (dm_ch d') channel in
  (tst (ch_mode c) kI8237ModeAutoInit = false -> ch_addr c' = (ch_addr c + n) mod 65536 /\ ch_count c' = (ch_count c - n) mod 65536) /\
  ch_page c' = ch_page c /\ ch_mode c' = ch_mode c /\ ch_masked c' = false /\
  (forall j, 0 <= j -> j <> channel -> arr (dm_ch d') j = arr (dm_ch d) j) /\
  dm_command d' = dm_command d /\ dm_wired d' = dm_wired d /\ length (dm_ch d') = 8%nat /\
  dm_status d' = (if n =? ch_count c + 1 then dm_status d .| u8 (1 .<< (channel .& 3)) else dm_status d).
Proof.
  intros Hd Hn c d' c'. pose proof Hd as [Hc Hl _ _ Hm Hu Hwf]. fold c in Hm, Hu, Hwf, Hn.
  assert (Ea : dma_addr c (Z.to_nat n) .& 0xffff = (ch_addr c + n) mod 65536).
  { destruct Hwf as [Ha Hcn Hp]. rewrite (dma_addr_up c) by (done || (unfold rng in *; lia)). change 0xffff with (Z.ones 16). rewrite Z.land_ones by lia.
    unfold from, chan_at. rewrite Z2Nat.id by lia. change (2 ^ 16) with 65536.
    replace (ch_page c * 65536 + ch_addr c + n) with (ch_addr c + n + ch_page c * 65536) by lia. by rewrite Z.mod_add. }
  assert (Ec : u16 (ch_count c + 1 - n - kI8237CountBias) = (ch_count c - n) mod 65536).
  { unfold wrap, kI8237CountBias. f_equal. lia. }
  unfold kI8237Channels in Hc.
  assert (Hidx : 0 <= channel < Z.of_nat (length (dm_ch d))) by (rewrite Hl; lia).
  subst c' d'. unfold dma_advance. fold c. rewrite Ea, Ec. destruct (n =? ch_count c + 1); cbn.
  - rewrite arr_set_eq by done. destruct (tst (ch_mode c) kI8237ModeAutoInit); cbn;
      (repeat split; try done; [intros j Hj Hne; apply arr_set_ne; lia|by rewrite length_arr_set]).
  - rewrite arr_set_eq by done. cbn. repeat split; try done; [intros j Hj Hne; apply arr_set_ne; lia|by rewrite length_arr_set].
Qed.
End moved.

(** ** Programming a channel *)

(** The port writes with which firmware programs channel 2: mask, address,
    page, count, mode, unmask, the flip-flop cleared before each pair. *)
Definition channel2_setup (addr count mode : Z) : list (Z * Z) :=
  [(0x0a, 0x06); (0x0c, 0); (0x04, addr); (0x04, addr .>> 8); (0x81, addr .>> 16);
   (0x0c, 0); (0x05, count); (0x05, count .>> 8); (0x0b, mode); (0x0a, 0x02)].

Definition port_writes (d : I8237Device) (l : list (Z * Z)) : I8237Device :=
  fold_left (fun d p => I8237Write d (fst p) (snd p)) l d.

Lemma two_bytes old v : let lo := (old .& 0xff00) .| u8 v in (lo .& 0x00ff) .| u16 (u8 (v .>> 8) .<< 8) = v mod 65536.
Proof.
  cbn zeta. change 65536 with (2 ^ 16). apply Z.bits_inj'. intros k Hk. unfold wrap. rewrite Z.lor_spec, Z.land_spec, Z.lor_spec, Z.land_spec.
  destruct (Z.lt_ge_cases k 16).
  - rewrite (Z.mod_pow2_bits_low v 16) by lia. rewrite (Z.mod_pow2_bits_low _ 16) by lia. destruct (Z.lt_ge_cases k 8).
    + rewrite Z.mod_pow2_bits_low, Z.shiftl_spec_low by lia. change 0xff00 with (Z.ones 8 .<< 8). rewrite Z.shiftl_spec_low by lia.
      change 0xff with (Z.ones 8). rewrite Z.ones_spec_low by lia. by rewrite andb_false_r, andb_true_r, orb_false_r.
    + change 0xff with (Z.ones 8). rewrite Z.ones_spec_high, andb_false_r by lia. cbn [orb].
      rewrite Z.shiftl_spec, Z.mod_pow2_bits_low, Z.shiftr_spec by lia. f_equal. lia.
  - rewrite !Z.mod_pow2_bits_high by lia. change 0xff with (Z.ones 8). rewrite Z.ones_spec_high by lia. by rewrite andb_false_r.
Qed.

Lemma channel2_programmed d addr count mode : length (dm_ch d) = 8%nat -> rng 24 addr -> rng 16 count -> rng 8 mode -> mode .& 3 = 2 ->
  let d' := port_writes d (channel2_setup addr count mode) in
  arr (dm_ch d') 2 = mkChan (addr mod 65536) (addr mod 65536) count count (addr / 65536) mode false /\
  (forall j, 0 <= j -> j <> 2 -> arr (dm_ch d') j = arr (dm_ch d) j) /\
  length (dm_ch d') = 8%nat /\ dm_command d' = dm_command d /\ dm_status d' = dm_status d /\ dm_wired d' = dm_wired d.
Proof.
  intros Hl Ha Hc Hm Hs d'.
  assert (E : exists a ai n ni p mo mk, d' = put_chan (d <| dm_flipflop := false |>) 2 (mkChan a ai n ni p mo mk) /\
    a = addr mod 65536 /\ ai = addr mod 65536 /\ n = count /\ ni = count /\ p = addr / 65536 /\ mo = mode /\ mk = false).
  { assert (Ec : count = count mod 65536) by (symmetry; apply Z.mod_small; exact Hc).
    assert (Ep : u8 (addr .>> 16) = addr / 65536).
    { rewrite Z.shiftr_div_pow2 by lia. change (2 ^ 16) with 65536. apply wrap_small. split; [apply Z.div_pos; [apply Ha|lia]|].
      apply Z.div_lt_upper_bound; [lia|]. apply Ha. }
    assert (Em : u8 mode = mode) by (by apply wrap_small).
    assert (Emc : 0 + (u8 mode .& kI8237ModeChannel) = 2) by (rewrite Em; exact Hs).
    destruct d as [chs cmd st req ff wd]. cbn in Hl.
    do 8 (destruct chs as [|? chs]; [done|]). destruct chs; [|done]. destruct i1 as [a0 ai0 n0 ni0 p0 mo0 mk0].
    do 7 eexists. split; [|split; [exact (two_bytes a0 addr)|split; [exact (two_bytes a0 addr)|split; [exact (eq_trans (two_bytes n0 count) (eq_sym Ec))|
      split; [exact (eq_trans (two_bytes n0 count) (eq_sym Ec))|split; [exact Ep|split; [exact Em|reflexivity]]]]]]].
    subst d'. unfold port_writes, channel2_setup. cbn [fold_left fst snd].
    unfold I8237Write at 2. change (DecodePort 11) with (Some (HitCtl 11 0)). unfold write_ctl.
    change (switch 11 ?l ?e) with (snd (nth 3 l (0, e))). cbn [nth snd].  rewrite Emc. reflexivity. }
  destruct E as (a & ai & n & ni & p & mo & mk & -> & -> & -> & -> & -> & -> & -> & ->). cbn.
  assert (Hidx : 0 <= 2 < Z.of_nat (length (dm_ch d))) by (rewrite Hl; lia).
  split; [by apply arr_set_eq|]. split; [intros j Hj Hne; by apply arr_set_ne|]. by rewrite length_arr_set.
Qed.

(** The modes firmware uses: single transfers, device to memory and memory to device. *)
Definition kModeToMemory := 0x46.
Definition kModeFromMemory := 0x4a.

Lemma programmed_ready d addr count mode : length (dm_ch d) = 8%nat -> tst (dm_command d) kI8237CmdDisable = false -> dm_wired d = true ->
  rng 24 addr -> rng 16 count -> mode = kModeToMemory \/ mode = kModeFromMemory ->
  let d' := port_writes d (channel2_setup addr count mode) in
  dma_ready d' 2 /\ chan_at (arr (dm_ch d') 2) = addr /\ ch_count (arr (dm_ch d') 2) = count /\
  ch_mode (arr (dm_ch d') 2) = mode /\ dm_status d' = dm_status d.
Proof.
  intros Hl He Hw Ha Hc Hm d'.
  destruct (channel2_programmed d addr count mode Hl Ha Hc) as (E & _ & El & Ecm & Es & Ew); [destruct Hm as [-> | ->]; by vm_compute..|].
  fold d' in E, El, Ecm, Es, Ew. clearbody d'. split; [split|rewrite E; unfold chan_at; cbn [ch_page ch_addr ch_count ch_mode]].
  - unfold kI8237Channels. lia.
  - done.
  - by rewrite Ecm.
  - by rewrite Ew.
  - by rewrite E.
  - rewrite E. by destruct Hm as [-> | ->].
  - rewrite E. split; cbn; [|done|].
    + split; [apply Z.mod_pos_bound|apply (Z.mod_pos_bound addr 65536)]; lia.
    + split; [apply Z.div_pos; [apply Ha|lia]|]. apply Z.div_lt_upper_bound; [lia|apply Ha].
  - split; [rewrite Z.mul_comm; symmetry; apply Z.div_mod; lia|]. done.
Qed.

Section claims.
Context {M : Type} `{SysBus M} {lo hi : Z} `{!SysRam M lo hi}.

(** A programmed DMA channel moves what it was told: after the port writes that set address, page,
    count and mode of channel 2, a request moves the smaller of its length and the count between the
    buffer and memory at the 24-bit address, in the programmed direction, changes nothing else, and
    sets the terminal-count bit exactly when the count is used up. *)
Theorem dma_programmed_transfer (d : I8237Device) addr n buf len (m : M) :
  length (dm_ch d) = 8%nat -> tst (dm_command d) kI8237CmdDisable = false -> dm_wired d = true ->
  1 <= n <= 65536 -> rng 24 addr -> lo <= addr -> addr + n <= hi -> ram_ok m ->
  0 < len <= Z.of_nat (length buf) -> Forall (rng 8) buf ->
  let k := Z.to_nat (Z.min len n) in
  let done_ d' := tst (dm_status d') 4 = (n <=? len) || tst (dm_status d) 4 in
  (exists d' m', I8237Transfer (port_writes d (channel2_setup addr (n - 1) kModeToMemory)) 2 buf len m = Some (Z.min len n, d', buf, m') /\
     patched (ram_byte m) (ram_byte m') addr (take k buf) /\ done_ d') /\
  (exists d' m', I8237Transfer (port_writes d (channel2_setup addr (n - 1) kModeFromMemory)) 2 buf len m =
       Some (Z.min len n, d', bytes_of (ram_byte m) addr k ++ drop k buf, m') /\ (forall a, ram_byte m' a = ram_byte m a) /\ done_ d').
Proof.
  intros Hl He Hw Hn Ha H1 H2 Hm Hlen Hb k done_.
  assert (Hc : rng 16 (n - 1)) by (unfold rng; lia).
  assert (D : forall d0, dma_ready d0 2 -> ch_count (arr (dm_ch d0) 2) = n - 1 -> dm_status d0 = dm_status d ->
            done_ (dma_advance d0 2 (ch_count (arr (dm_ch d0) 2) + 1) (Z.min len n))).
  { intros d0 Hr Ec Es. destruct (advance_regs d0 2 (Z.min len n) Hr ltac:(lia)) as (_ & _ & _ & _ & _ & _ & _ & _ & E).
    unfold done_. rewrite E, Ec, Es. replace (Z.min len n =? n - 1 + 1) with (n <=? len); [|destruct (Z.leb_spec n len), (Z.eqb_spec (Z.min len n) (n - 1 + 1)); lia].
    destruct (n <=? len); [|done]. cbn [orb]. change 4 with (2 ^ 2). rewrite tst_pow2 by lia. rewrite Z.lor_spec. change (Z.testbit (u8 _) 2) with true. apply orb_true_r. }
  split.
  - destruct (programmed_ready d addr (n - 1) kModeToMemory Hl He Hw Ha Hc (or_introl eq_refl)) as (Hr & Eat & Ec & Em & Es).
    set (d0 := port_writes _ _) in *. clearbody d0. assert (En : dma_moved d0 2 len = Z.min len n) by (unfold dma_moved; lia).
    destruct (transfer_to_memory d0 2 buf len m Hr Hlen Hb ltac:(by rewrite Em) Hm) as (m' & E & _ & K); [rewrite ?Eat, ?En; lia..|].
    rewrite Eat, En in *. exists (dma_advance d0 2 (ch_count (arr (dm_ch d0) 2) + 1) (Z.min len n)), m'. split; [done|]. split; [exact K|]. by apply D.
  - destruct (programmed_ready d addr (n - 1) kModeFromMemory Hl He Hw Ha Hc (or_intror eq_refl)) as (Hr & Eat & Ec & Em & Es).
    set (d0 := port_writes _ _) in *. clearbody d0. assert (En : dma_moved d0 2 len = Z.min len n) by (unfold dma_moved; lia).
    destruct (transfer_from_memory d0 2 buf len m Hr ltac:(lia) ltac:(by rewrite Em) Hm) as (m' & E & _ & K); [rewrite ?Eat, ?En; lia..|].
    rewrite Eat, En in *. exists (dma_advance d0 2 (ch_count (arr (dm_ch d0) 2) + 1) (Z.min len n)), m'. split; [done|]. split; [exact K|]. by apply D.
Qed.

(** A transfer that crosses a 64 KiB page writes into the next page, while the
    address register wraps inside its own. *)
Theorem dma_crosses_page (d : I8237Device) b0 b1 (m : M) : dma_ready d 2 -> ram_ok m ->
  let c := arr (dm_ch d) 2 in
  ch_addr c = 0xffff -> 1 <= ch_count c -> ch_mode c = kModeToMemory -> rng 8 b0 -> rng 8 b1 ->
  lo <= chan_at c -> chan_at c + 2 <= hi ->
  exists d' m', I8237Transfer d 2 [b0; b1] 2 m = Some (2, d', [b0; b1], m') /\
    ram_byte m' ((ch_page c + 1) * 65536) = b1 /\ ch_addr (arr (dm_ch d') 2) = 1.
Proof.
  intros Hd Hm c Ha Hc Hmode H0 H1 Hlo Hhi. pose proof Hd as Hd'. destruct Hd' as [_ _ _ _ _ _ [_ Hcn _]]. fold c in Hcn.
  assert (En : dma_moved d 2 2 = 2) by (unfold dma_moved; fold c; lia).
  destruct (transfer_to_memory d 2 [b0; b1] 2 m Hd) as (m' & E & _ & [K _]); [cbn; lia|by apply Forall_cons_2; [|apply Forall_cons_2; [|apply Forall_nil_2]]|fold c; by rewrite Hmode|done|done|fold c; lia|].
  rewrite En in *. fold c in E, K. exists (dma_advance d 2 (ch_count c + 1) 2), m'. split; [done|]. split.
  - assert (L : bytes_of (ram_byte m') (chan_at c) 2 !! 1%nat = Some b1) by (change (length (take (Z.to_nat 2) [b0; b1])) with 2%nat in K; by rewrite K).
    rewrite bytes_of_lookup in L by lia. injection L as L. rewrite <- L. f_equal. unfold chan_at. rewrite Ha. lia.
  - destruct (advance_regs d 2 2 Hd ltac:(fold c; lia)) as (R & _). fold c in R. rewrite Hmode in R. destruct (R eq_refl) as [-> _]. by rewrite Ha.
Qed.

(** A spent count is not seen as spent: after terminal count the register reads
    0xffff and the channel, still unmasked, moves up to 64 KiB more. *)
Theorem dma_count_respends (d : I8237Device) len : dma_ready d 2 -> ch_mode (arr (dm_ch d) 2) = kModeToMemory -> 0 < len <= 65536 ->
  let d' := dma_advance d 2 (ch_count (arr (dm_ch d) 2) + 1) (ch_count (arr (dm_ch d) 2) + 1) in
  ch_count (arr (dm_ch d') 2) = 0xffff /\ dma_ready d' 2 /\ dma_moved d' 2 len = len.
Proof.
  intros Hd Hmode Hl d'. pose proof Hd as [H1 H2 H3 H4 H5 H6 H7]. pose proof H7 as [Wa Wc Wp].
  destruct (advance_regs d 2 (ch_count (arr (dm_ch d) 2) + 1) Hd) as (R & Ep & Em & Ek & _ & Ecm & Ew & El & _); [unfold rng in *; lia|]. fold d' in R, Ep, Em, Ek, Ecm, Ew, El.
  rewrite Hmode in R. destruct (R eq_refl) as [Ea Ec]. replace (_ - _) with (-1) in Ec by lia. change (-1 mod 65536) with 65535 in Ec.
  split; [done|]. split; [|unfold dma_moved; rewrite Ec; lia]. split; rewrite ?Em, ?Ecm, ?Ew; try done.
  split; [rewrite Ea; exact (Z.mod_pos_bound _ 65536 ltac:(lia))|rewrite Ec; unfold rng; lia|by rewrite Ep].
Qed.
End claims.
