(* ===== verification/Fdc.v ===== *)
(** * 8272A floppy controller (device/storage/fdc.c)

    The port file, the command, execution and result phases, the drives with
    their media, and every command.  Sector data moves through the DMA channel
    the board wires to the controller, the type class [FdcDma]; the host file
    behind a drive is [HostFileOps].  An operation ends normally or aborts: on
    an index outside the two-entry drive array, or with the fatal error of a
    DMA to an unmapped address.  Log and trace lines are left out. *)

From S2P Require Import Prelude HostMem VirtioDev.

(** ** Constants *)

Definition kFdcDrives := 2.
Definition kFdcSectorSize := 512.
Definition kFdcMaxTransfer := 2 * 36 * kFdcSectorSize.
Definition kFdcBase := 0x3f0.
Definition kRegSra := 0.
Definition kRegSrb := 1.
Definition kRegDor := 2.
Definition kRegTdr := 3.
Definition kRegMsr := 4.
Definition kRegFifo := 5.
Definition kRegDir := 7.
Definition kSraIntPend := 0x80.
Definition kSrbReset := 0xc0.
Definition kSrbMotor0 := 0x01.
Definition kSrbMotor1 := 0x02.
Definition kSrbDrive0 := 0x20.
Definition kDorSelect := 0x03.
Definition kDorNReset := 0x04.
Definition kDorDmaEn := 0x08.
Definition kDorMotor0 := 0x10.
Definition kDorMotor1 := 0x20.
Definition kMsrCmdBusy := 0x10.
Definition kMsrNonDma := 0x20.
Definition kMsrDio := 0x40.
Definition kMsrRqm := 0x80.
Definition kDirDoor := 0x80.
Definition kTdrBootSel := 0x04.
Definition kSr0Drive := 0x03.
Definition kSr0Head := 0x04.
Definition kSr0Seek := 0x20.
Definition kSr0AbnTerm := 0x40.
Definition kSr0InvCmd := 0x80.
Definition kSr0RdyChg := 0xc0.
Definition kSr1Missing := 0x01.
Definition kSr1NotWritable := 0x02.
Definition kSr1EndCyl := 0x80.
Definition kCmdSpecify := 0x03.
Definition kCmdSenseDrive := 0x04.
Definition kCmdWrite := 0x05.
Definition kCmdRead := 0x06.
Definition kCmdRecalibrate := 0x07.
Definition kCmdSenseInterrupt := 0x08.
Definition kCmdReadId := 0x0a.
Definition kCmdFormatTrack := 0x0d.
Definition kCmdSeek := 0x0f.
Definition kCmdMultiTrack := 0x80.
Definition kPhaseCommand := 1.
Definition kPhaseExecution := 2.
Definition kPhaseResult := 3.
Definition kResetSenseMax := 4.
Definition kSizeCode512 := 2.

Record FdcFormat := mkFormat { fm_bytes : Z; fm_cmos_type : Z; fm_cylinders : Z; fm_heads : Z; fm_sectors : Z }.
Definition kFdcFormats : list FdcFormat :=
  [mkFormat 163840 0x6 40 1 8; mkFormat 184320 0x7 40 1 9; mkFormat 327680 0x8 40 2 8; mkFormat 368640 0x1 40 2 9;
   mkFormat 737280 0x3 80 2 9; mkFormat 1228800 0x2 80 2 15; mkFormat 1474560 0x4 80 2 18; mkFormat 2949120 0x5 80 2 36].

(** The DMA channel: it is given the buffer and the length wanted, and returns
    the bytes moved, the buffer and the world behind it, [None] when the
    emulator dies of an unmapped address.  The outer [option] is the pointer. *)
Class FdcDma (W : Type) := fdc_dma : option (list Z -> Z -> W -> option (Z * list Z * W)).

(** ** State *)

Section fdc.
Context {F W : Type} `{HostFileOps F} `{FdcDma W}.

Record FdcDrive := mkDrive {
  fv_image : option F; fv_bytes : Z; fv_cylinders : Z; fv_heads : Z; fv_sectors : Z;
  fv_track : Z; fv_head : Z; fv_sector : Z; fv_media_changed : bool; fv_read_only : bool; fv_cmos_type : Z;
}.
Definition eta_fv (v : FdcDrive) : FdcDrive :=
  mkDrive (fv_image v) (fv_bytes v) (fv_cylinders v) (fv_heads v) (fv_sectors v) (fv_track v) (fv_head v) (fv_sector v)
    (fv_media_changed v) (fv_read_only v) (fv_cmos_type v).
#[export] Instance upd_fv_image : Upd fv_image := ltac:(mk_upd eta_fv fv_image).
#[export] Instance upd_fv_bytes : Upd fv_bytes := ltac:(mk_upd eta_fv fv_bytes).
#[export] Instance upd_fv_cylinders : Upd fv_cylinders := ltac:(mk_upd eta_fv fv_cylinders).
#[export] Instance upd_fv_heads : Upd fv_heads := ltac:(mk_upd eta_fv fv_heads).
#[export] Instance upd_fv_sectors : Upd fv_sectors := ltac:(mk_upd eta_fv fv_sectors).
#[export] Instance upd_fv_track : Upd fv_track := ltac:(mk_upd eta_fv fv_track).
#[export] Instance upd_fv_head : Upd fv_head := ltac:(mk_upd eta_fv fv_head).
#[export] Instance upd_fv_sector : Upd fv_sector := ltac:(mk_upd eta_fv fv_sector).
#[export] Instance upd_fv_media_changed : Upd fv_media_changed := ltac:(mk_upd eta_fv fv_media_changed).
#[export] Instance upd_fv_read_only : Upd fv_read_only := ltac:(mk_upd eta_fv fv_read_only).
#[export] Instance upd_fv_cmos_type : Upd fv_cmos_type := ltac:(mk_upd eta_fv fv_cmos_type).

Definition drive_zero : FdcDrive := mkDrive None 0 0 0 0 0 0 0 false false 0.
#[export] Instance fdcdrive_inhabited : Inhabited FdcDrive := populate drive_zero.

(** [fd_wired]: the interrupt sink is set; [fd_out]: the levels told to it;
    [fd_world]: what the DMA channel works on. *)
Record FdcDevice := mkFdc {
  fd_drives : list FdcDrive; fd_sra : Z; fd_srb : Z; fd_dor : Z; fd_tdr : Z; fd_msr : Z;
  fd_status0 : Z; fd_status1 : Z; fd_status2 : Z;
  fd_cmd_code : Z; fd_cmd_flags : Z; fd_cmd_args : list Z; fd_cmd_cursor : Z; fd_cmd_remaining : Z; fd_phase : Z;
  fd_resp : list Z; fd_resp_cursor : Z; fd_resp_len : Z; fd_curr_drive : Z; fd_reset_sense : Z; fd_eot : Z;
  fd_irq : bool; fd_wired : bool; fd_out : list bool; fd_buf : list Z; fd_world : W;
}.
Definition eta_fd (d : FdcDevice) : FdcDevice :=
  mkFdc (fd_drives d) (fd_sra d) (fd_srb d) (fd_dor d) (fd_tdr d) (fd_msr d) (fd_status0 d) (fd_status1 d) (fd_status2 d)
    (fd_cmd_code d) (fd_cmd_flags d) (fd_cmd_args d) (fd_cmd_cursor d) (fd_cmd_remaining d) (fd_phase d)
    (fd_resp d) (fd_resp_cursor d) (fd_resp_len d) (fd_curr_drive d) (fd_reset_sense d) (fd_eot d)
    (fd_irq d) (fd_wired d) (fd_out d) (fd_buf d) (fd_world d).
#[export] Instance upd_fd_drives : Upd fd_drives := ltac:(mk_upd eta_fd fd_drives).
#[export] Instance upd_fd_sra : Upd fd_sra := ltac:(mk_upd eta_fd fd_sra).
#[export] Instance upd_fd_srb : Upd fd_srb := ltac:(mk_upd eta_fd fd_srb).
#[export] Instance upd_fd_dor : Upd fd_dor := ltac:(mk_upd eta_fd fd_dor).
#[export] Instance upd_fd_tdr : Upd fd_tdr := ltac:(mk_upd eta_fd fd_tdr).
#[export] Instance upd_fd_msr : Upd fd_msr := ltac:(mk_upd eta_fd fd_msr).
#[export] Instance upd_fd_status0 : Upd fd_status0 := ltac:(mk_upd eta_fd fd_status0).
#[export] Instance upd_fd_status1 : Upd fd_status1 := ltac:(mk_upd eta_fd fd_status1).
#[export] Instance upd_fd_status2 : Upd fd_status2 := ltac:(mk_upd eta_fd fd_status2).
#[export] Instance upd_fd_cmd_code : Upd fd_cmd_code := ltac:(mk_upd eta_fd fd_cmd_code).
#[export] Instance upd_fd_cmd_flags : Upd fd_cmd_flags := ltac:(mk_upd eta_fd fd_cmd_flags).
#[export] Instance upd_fd_cmd_args : Upd fd_cmd_args := ltac:(mk_upd eta_fd fd_cmd_args).
#[export] Instance upd_fd_cmd_cursor : Upd fd_cmd_cursor := ltac:(mk_upd eta_fd fd_cmd_cursor).
#[export] Instance upd_fd_cmd_remaining : Upd fd_cmd_remaining := ltac:(mk_upd eta_fd fd_cmd_remaining).
#[export] Instance upd_fd_phase : Upd fd_phase := ltac:(mk_upd eta_fd fd_phase).
#[export] Instance upd_fd_resp : Upd fd_resp := ltac:(mk_upd eta_fd fd_resp).
#[export] Instance upd_fd_resp_cursor : Upd fd_resp_cursor := ltac:(mk_upd eta_fd fd_resp_cursor).
#[export] Instance upd_fd_resp_len : Upd fd_resp_len := ltac:(mk_upd eta_fd fd_resp_len).
#[export] Instance upd_fd_curr_drive : Upd fd_curr_drive := ltac:(mk_upd eta_fd fd_curr_drive).
#[export] Instance upd_fd_reset_sense : Upd fd_reset_sense := ltac:(mk_upd eta_fd fd_reset_sense).
#[export] Instance upd_fd_eot : Upd fd_eot := ltac:(mk_upd eta_fd fd_eot).
#[export] Instance upd_fd_irq : Upd fd_irq := ltac:(mk_upd eta_fd fd_irq).
#[export] Instance upd_fd_wired : Upd fd_wired := ltac:(mk_upd eta_fd fd_wired).
#[export] Instance upd_fd_out : Upd fd_out := ltac:(mk_upd eta_fd fd_out).
#[export] Instance upd_fd_buf : Upd fd_buf := ltac:(mk_upd eta_fd fd_buf).
#[export] Instance upd_fd_world : Upd fd_world := ltac:(mk_upd eta_fd fd_world).

Implicit Types (d : FdcDevice) (v : FdcDrive).

Definition put_drive d (i : Z) v : FdcDevice := d <| fd_drives := arr_set (fd_drives d) i v |>.
Definition put_resp d (i x : Z) : FdcDevice := d <| fd_resp := arr_set (fd_resp d) i x |>.
Definition tell d (level : bool) : FdcDevice := if fd_wired d then d <| fd_out := fd_out d ++ [level] |> else d.

(** ** Lines and phases *)

Definition RaiseIrq d : FdcDevice :=
  let d := if tst (fd_sra d) kSraIntPend then d
           else tell (d <| fd_sra := fd_sra d .| kSraIntPend |> <| fd_irq := true |>) true in
  d <| fd_reset_sense := 0 |>.

Definition LowerIrq d : FdcDevice :=
  let d := d <| fd_status0 := 0 |> in
  if tst (fd_sra d) kSraIntPend then tell (d <| fd_sra := fd_sra d &~ kSraIntPend |> <| fd_irq := false |>) false else d.

Definition EnterCommandPhase d : FdcDevice :=
  d <| fd_phase := kPhaseCommand |> <| fd_cmd_cursor := 0 |> <| fd_cmd_remaining := 0 |>
    <| fd_msr := (fd_msr d &~ (kMsrCmdBusy .| kMsrDio)) .| kMsrRqm |>.

Definition EnterResultPhase d (count : Z) : FdcDevice :=
  d <| fd_phase := kPhaseResult |> <| fd_resp_cursor := 0 |> <| fd_resp_len := count |>
    <| fd_msr := fd_msr d .| (kMsrCmdBusy .| kMsrRqm .| kMsrDio) |>.

(** ** Geometry *)

Definition ChsToLba v (cyl head sect : Z) : Z := (cyl * fv_heads v + head) * fv_sectors v + (sect - 1).

Definition SeekDrive v (head track sect : Z) : Z * FdcDrive :=
  if (track <? 0) || (fv_cylinders v <=? track) || (negb (head =? 0) && (fv_heads v <? 2)) then (2, v)
  else if (sect <? 1) || (fv_sectors v <? sect) then (3, v)
  else
    let cur := ChsToLba v (fv_track v) (fv_head v) (fv_sector v) in
    let want := ChsToLba v track head sect in
    let '(result, v') :=
      if cur =? want then (0, v)
      else
        let '(result, v1) :=
          if fv_track v =? track then (0, v)
          else (1, match fv_image v with Some _ => v <| fv_media_changed := false |> | None => v end) in
        (result, v1 <| fv_track := track |> <| fv_head := head |> <| fv_sector := sect |>) in
    (match fv_image v with Some _ => result | None => 2 end, v').

(** The loop over the sectors moved; it ends at the first seek that fails. *)
Fixpoint AdvanceHead (n : nat) d (i : Z) : FdcDevice :=
  match n with
  | O => d
  | S n =>
      let v := arr (fd_drives d) i in
      let '(track, head, sect, seek) :=
        if (fv_sectors v <=? fv_sector v) || (fv_sector v =? fd_eot d) then
          if tst (fd_cmd_flags d) kCmdMultiTrack then
            if (fv_head v =? 0) && (fv_heads v =? 2) then (fv_track v, 1, 1, false) else (fv_track v + 1, 0, 1, true)
          else (fv_track v + 1, fv_head v, 1, true)
        else (fv_track v, fv_head v, fv_sector v + 1, false) in
      let d := if (seek : bool) then d <| fd_status0 := fd_status0 d .| kSr0Seek |> else d in
      let '(r, v) := SeekDrive v head track sect in
      let d := put_drive d i v in
      if 2 <=? r then d else AdvanceHead n d i
  end.

Definition EndReadWrite d (status0 status1 status2 : Z) : FdcDevice :=
  let v := arr (fd_drives d) (fd_curr_drive d) in
  let s0 := fd_status0 d &~ (kSr0Drive .| kSr0Head) in
  let s0 := s0 .| u8 (fd_curr_drive d) in
  let s0 := if negb (fv_head v =? 0) then s0 .| kSr0Head else s0 in
  let s0 := s0 .| status0 in
  let d := d <| fd_status0 := s0 |> <| fd_status1 := status1 |> <| fd_status2 := status2 |> in
  let d := d <| fd_msr := (fd_msr d .| (kMsrRqm .| kMsrDio)) &~ kMsrNonDma |> in
  let d := put_resp (put_resp (put_resp d 0 s0) 1 status1) 2 status2 in
  let d := put_resp (put_resp (put_resp d 3 (u8 (fv_track v))) 4 (u8 (fv_head v))) 5 (u8 (fv_sector v)) in
  let d := put_resp d 6 kSizeCode512 in
  RaiseIrq (EnterResultPhase d 7).

Definition DoInvalid d : FdcDevice :=
  EnterResultPhase (put_resp (d <| fd_status0 := kSr0InvCmd |>) 0 kSr0InvCmd) 1.

(** ** Commands *)

Definition ArgCount (command : Z) : Z :=
  switch command
    [(kCmdRead, 8); (kCmdWrite, 8); (kCmdSeek, 2); (kCmdSpecify, 2); (kCmdRecalibrate, 1); (kCmdReadId, 1);
     (kCmdSenseDrive, 1); (kCmdFormatTrack, 5)] 0.

Definition DecodeCommand (code : Z) : Z :=
  if code .& 0x1f =? kCmdRead then kCmdRead
  else if code .& 0x3f =? kCmdWrite then kCmdWrite
  else if code =? kCmdSeek then kCmdSeek
  else if code =? kCmdSenseInterrupt then kCmdSenseInterrupt
  else if code =? kCmdRecalibrate then kCmdRecalibrate
  else if code .& 0xbf =? kCmdFormatTrack then kCmdFormatTrack
  else if code .& 0xbf =? kCmdReadId then kCmdReadId
  else if code =? kCmdSpecify then kCmdSpecify
  else if code =? kCmdSenseDrive then kCmdSenseDrive
  else -1.

Definition arg d (i : Z) : Z := arr (fd_cmd_args d) i.

(** The sink called on the controller's buffer, or nothing moved. *)
Definition call_dma d (len : Z) : outcome FdcDevice Z :=
  match fdc_dma with
  | None => Done 0 d
  | Some f =>
      match f (fd_buf d) len (fd_world d) with
      | Some (n, buf, w) => Done n (d <| fd_buf := buf |> <| fd_world := w |>)
      | None => Aborted FatalUnmapped
      end
  end.

(** [HostFileReadAt] into the buffer. *)
Definition read_into d (f : F) (off n : Z) : FdcDevice :=
  let bs := HostFileReadAt f off n in d <| fd_buf := bs ++ drop (length bs) (fd_buf d) |>.

(** The bytes a read or write asks for, [None] for an empty range of sectors. *)
Definition data_length d (sect_size : Z) : option Z :=
  if sect_size =? 128 then Some (if arg d 7 <? 128 then arg d 7 else 128)
  else
    let n := if tst (fd_cmd_flags d) kCmdMultiTrack then (2 * arg d 5 - arg d 3 + 1) * sect_size
             else (arg d 5 - arg d 3 + 1) * sect_size in
    if n <=? 0 then None else Some n.

(** The data phase: sectors between the image and the DMA channel. *)
Definition move_data d (is_write : bool) (offset want : Z) : outcome FdcDevice Z :=
  let i := fd_curr_drive d in
  let v := arr (fd_drives d) i in
  if is_write then
    match call_dma d want with
    | Done moved d =>
        Done moved
          match fv_image v with
          | Some f => if 0 <? moved then put_drive d i (v <| fv_image := Some (fst (HostFileWriteAt f offset (fd_buf d) moved)) |>) else d
          | None => d
          end
    | Raised t d => Raised t d
    | Aborted r => Aborted r
    end
  else call_dma match fv_image v with Some f => read_into d f offset want | None => d end want.

Definition DoReadWrite (is_write : bool) : M FdcDevice unit := fun d =>
  let d := d <| fd_curr_drive := (arg d 0 .& kDorSelect) .& 1 |> in
  let i := fd_curr_drive d in
  let cyl := arg d 1 in
  let head := arg d 2 in
  let sect := arg d 3 in
  let '(seek, v) := SeekDrive (arr (fd_drives d) i) head cyl sect in
  let d := put_drive d i v in
  if (seek =? 2) || (seek =? 3) then
    let s0 := fd_status0 d .| (if seek =? 2 then kSr0AbnTerm else kSr0AbnTerm .| kSr0Seek) in
    let d := put_resp (put_resp (put_resp (d <| fd_status0 := s0 |>) 3 (u8 cyl)) 4 (u8 head)) 5 (u8 sect) in
    Done tt (EndReadWrite d s0 (if seek =? 2 then kSr1EndCyl else kSr1Missing) 0)
  else
    let d := if seek =? 1 then d <| fd_status0 := fd_status0 d .| kSr0Seek |> else d in
    let sect_size := 128 .<< (if 7 <? arg d 4 then 7 else arg d 4) in
    match data_length d sect_size with
    | None => Done tt (EndReadWrite d kSr0AbnTerm kSr1Missing 0)
    | Some n =>
        let want := if kFdcMaxTransfer <? n then kFdcMaxTransfer else n in
        let d := d <| fd_eot := u8 (arg d 5) |> in
        if is_write && fv_read_only v then Done tt (EndReadWrite d (kSr0AbnTerm .| kSr0Seek) kSr1NotWritable 0)
        else
          let offset := ChsToLba v cyl head sect * sect_size in
          let d := d <| fd_msr := fd_msr d &~ kMsrRqm |> in
          match move_data d is_write offset want with
          | Done moved d =>
              if moved <=? 0 then Done tt (EndReadWrite d kSr0AbnTerm 0 0)
              else Done tt (EndReadWrite (AdvanceHead (Z.to_nat (moved / sect_size)) d i) 0 0 0)
          | Raised t d => Raised t d
          | Aborted r => Aborted r
          end
    end.

(** [d->curr_drive = d->cmd_args[0] & kDorSelect] and the drive it names: the
    field has two bits, the array two entries. *)
Definition with_drive (k : FdcDrive -> FdcDevice -> outcome FdcDevice unit) : M FdcDevice unit := fun d =>
  let i := arg d 0 .& kDorSelect in
  if kFdcDrives <=? i then Aborted OutOfBounds else k (arr (fd_drives d) i) (d <| fd_curr_drive := i |>).

Definition DoSeek : M FdcDevice unit := with_drive (fun v d =>
  let '(_, v) := SeekDrive v (fv_head v) (arg d 1) (fv_sector v) in
  let d := EnterCommandPhase (put_drive d (fd_curr_drive d) v) in
  Done tt (RaiseIrq (d <| fd_status0 := fd_status0 d .| kSr0Seek |>))).

Definition DoRecalibrate : M FdcDevice unit := with_drive (fun v d =>
  let '(_, v) := SeekDrive v 0 0 1 in
  let d := EnterCommandPhase (put_drive d (fd_curr_drive d) v) in
  Done tt (RaiseIrq (d <| fd_status0 := fd_status0 d .| kSr0Seek |>))).

Definition sense_reply d (status0 : Z) : FdcDevice :=
  let v := arr (fd_drives d) (fd_curr_drive d) in
  let d := put_resp (put_resp d 0 status0) 1 (u8 (fv_track v)) in
  (LowerIrq (EnterResultPhase d 2)) <| fd_status0 := kSr0RdyChg |>.

Definition DoSenseInterrupt : M FdcDevice unit := fun d =>
  if kFdcDrives <=? fd_curr_drive d then Aborted OutOfBounds
  else if 0 <? fd_reset_sense d then
    let drive := kResetSenseMax - fd_reset_sense d in
    Done tt (sense_reply (d <| fd_reset_sense := fd_reset_sense d - 1 |>) (u8 (kSr0RdyChg .| drive)))
  else if tst (fd_sra d) kSraIntPend then
    Done tt (sense_reply d (u8 ((fd_status0 d &~ (kSr0Head .| kSr0Drive)) .| fd_curr_drive d)))
  else Done tt (DoInvalid d).

Definition DoReadId : M FdcDevice unit := with_drive (fun v d =>
  let v := v <| fv_head := (arg d 0 .>> 2) .& 1 |> in
  let v := if 0 <? fv_sectors v then v <| fv_sector := Z.rem (fv_sector v) (fv_sectors v) + 1 |> else v in
  Done tt (EndReadWrite (put_drive d (fd_curr_drive d) v) 0 0 0)).

Definition DoSenseDriveStatus : M FdcDevice unit := with_drive (fun v d =>
  let v := v <| fv_head := (arg d 0 .>> 2) .& 1 |> in
  let st3 := (if fv_read_only v then 0x40 else 0) .| (if fv_track v =? 0 then 0x10 else 0) .| (fv_head v .<< 2) .| fd_curr_drive d .| 0x28 in
  Done tt (EnterResultPhase (put_resp (put_drive d (fd_curr_drive d) v) 0 (u8 st3)) 1)).

(** The fill of a track, sector by sector. *)
Definition fill_sectors (f : F) (lba fill : Z) (n : nat) : F :=
  fold_left (fun f i => fst (HostFileWriteAt f ((lba + Z.of_nat i) * kFdcSectorSize) (replicate (Z.to_nat kFdcSectorSize) fill) kFdcSectorSize))
    (seq 0 n) f.

Definition format_track v d : outcome FdcDevice unit :=
  let nsect := arg d 2 in
  let fill := arg d 4 in
  if fv_read_only v then Done tt (EndReadWrite d (kSr0AbnTerm .| kSr0Seek) kSr1NotWritable 0)
  else
    let bytes := nsect * 4 in
    match (if (0 <? bytes) && (bytes <=? kFdcMaxTransfer) then call_dma d bytes else Done 0 d) with
    | Done moved d =>
        let d := match fv_image v with
                 | Some f => if moved =? bytes then
                     put_drive d (fd_curr_drive d)
                       (v <| fv_image := Some (fill_sectors f (ChsToLba v (fv_track v) (fv_head v) 1) fill (Z.to_nat (Z.min nsect (fv_sectors v)))) |>)
                   else d
                 | None => d
                 end in
        Done tt (EndReadWrite (AdvanceHead 1 d (fd_curr_drive d)) 0 0 0)
    | Raised t d => Raised t d
    | Aborted r => Aborted r
    end.

Definition DoFormatTrack : M FdcDevice unit := with_drive format_track.

Definition ExecuteCommand : M FdcDevice unit := fun d =>
  let d := d <| fd_phase := kPhaseExecution |> in
  switch (DecodeCommand (fd_cmd_code d))
    [(kCmdRead, DoReadWrite false); (kCmdWrite, DoReadWrite true); (kCmdSeek, DoSeek); (kCmdRecalibrate, DoRecalibrate);
     (kCmdSenseInterrupt, DoSenseInterrupt); (kCmdReadId, DoReadId); (kCmdSenseDrive, DoSenseDriveStatus);
     (kCmdFormatTrack, DoFormatTrack); (kCmdSpecify, modify EnterCommandPhase)] (modify DoInvalid) d.

(** ** Registers *)

Definition WriteFifo (x : Z) : M FdcDevice unit := fun d =>
  if negb (tst (fd_dor d) kDorNReset) then Done tt d
  else if negb (tst (fd_msr d) kMsrRqm) || tst (fd_msr d) kMsrDio then Done tt d
  else if negb (fd_phase d =? kPhaseCommand) then Done tt d
  else
    let d :=
      if fd_cmd_remaining d =? 0 then
        let decoded := DecodeCommand x in
        d <| fd_cmd_code := x |> <| fd_cmd_cursor := 0 |>
          <| fd_cmd_flags := if ((decoded =? kCmdRead) || (decoded =? kCmdWrite)) && tst x kCmdMultiTrack then kCmdMultiTrack else 0 |>
          <| fd_cmd_remaining := if decoded <? 0 then 0 else ArgCount decoded |> <| fd_msr := fd_msr d .| kMsrCmdBusy |>
      else
        (if fd_cmd_cursor d <? 16 then d <| fd_cmd_args := arr_set (fd_cmd_args d) (fd_cmd_cursor d) x |> else d)
          <| fd_cmd_cursor := fd_cmd_cursor d + 1 |> <| fd_cmd_remaining := fd_cmd_remaining d - 1 |> in
    if fd_cmd_remaining d =? 0 then ExecuteCommand d else Done tt d.

Definition ReadFifo d : Z * FdcDevice :=
  if negb (tst (fd_msr d) kMsrRqm) || negb (tst (fd_msr d) kMsrDio) then (0, d)
  else if negb (fd_phase d =? kPhaseResult) then (0, d)
  else if fd_resp_len d <=? fd_resp_cursor d then (0, d)
  else
    let x := arr (fd_resp d) (fd_resp_cursor d) in
    let d := d <| fd_resp_cursor := fd_resp_cursor d + 1 |> in
    (x, if fd_resp_cursor d =? fd_resp_len d then LowerIrq (EnterCommandPhase (d <| fd_msr := fd_msr d &~ kMsrRqm |>)) else d).

Definition ControllerStateReset d : FdcDevice :=
  let d := d <| fd_sra := 0 |> <| fd_srb := kSrbReset |> <| fd_dor := kDorNReset .| kDorDmaEn |> <| fd_tdr := 0 |>
    <| fd_msr := kMsrRqm |> <| fd_status0 := 0 |> <| fd_status1 := 0 |> <| fd_status2 := 0 |> <| fd_cmd_code := 0 |>
    <| fd_cmd_flags := 0 |> <| fd_cmd_cursor := 0 |> <| fd_cmd_remaining := 0 |> <| fd_phase := kPhaseCommand |>
    <| fd_resp_cursor := 0 |> <| fd_resp_len := 0 |> <| fd_curr_drive := 0 |> <| fd_reset_sense := 0 |> <| fd_eot := 0 |>
    <| fd_drives := (fun v => v <| fv_track := 0 |> <| fv_head := 0 |> <| fv_sector := 1 |>) <$> fd_drives d |> in
  if fd_irq d then tell (d <| fd_irq := false |>) false else d.

Definition ControllerReset d : FdcDevice :=
  (RaiseIrq ((ControllerStateReset d) <| fd_status0 := kSr0RdyChg |>)) <| fd_reset_sense := kResetSenseMax |>.

Definition WriteDor d (x : Z) : FdcDevice :=
  let s := fd_srb d &~ (kSrbMotor0 .| kSrbMotor1 .| kSrbDrive0) in
  let s := if tst x kDorMotor0 then s .| kSrbMotor0 else s in
  let s := if tst x kDorMotor1 then s .| kSrbMotor1 else s in
  let s := if tst x 0x01 then s .| kSrbDrive0 else s in
  let d := d <| fd_srb := s |> in
  let d := if negb (tst (fd_dor d) kDorNReset) && tst x kDorNReset then ControllerReset d else d in
  d <| fd_curr_drive := x .& 0x01 |> <| fd_dor := x |>.

Definition FdcRead (addr : Z) : M FdcDevice Z := fun d =>
  switch (addr - kFdcBase)
    [(kRegSra, Done (fd_sra d) d); (kRegSrb, Done (fd_srb d) d);
     (kRegDor, Done (u8 ((fd_dor d &~ kDorSelect) .| fd_curr_drive d)) d);
     (kRegTdr, Done (fd_tdr d) d); (kRegMsr, Done (fd_msr d) d);
     (kRegFifo, let '(x, d) := ReadFifo d in Done x d);
     (kRegDir, if kFdcDrives <=? fd_curr_drive d then Aborted OutOfBounds
               else Done (if fv_media_changed (arr (fd_drives d) (fd_curr_drive d)) then kDirDoor else 0) d)] (Done 0xff d).

Definition FdcWrite (addr val : Z) : M FdcDevice unit := fun d =>
  let x := u8 val in
  switch (addr - kFdcBase)
    [(kRegDor, Done tt (WriteDor d x));
     (kRegTdr, Done tt (if tst (fd_dor d) kDorNReset then d <| fd_tdr := x .& kTdrBootSel |> else d));
     (kRegFifo, WriteFifo x d)] (Done tt d).

(** ** Board side *)

(** The zeroed struct; [w] is what the DMA channel reaches. *)
Definition FdcInit (w : W) : FdcDevice :=
  ControllerStateReset (mkFdc (replicate 2 drive_zero) 0 0 0 0 0 0 0 0 0 0 (replicate 16 0) 0 0 0 (replicate 16 0) 0 0 0 0 0
    false false [] (replicate (Z.to_nat kFdcMaxTransfer) 0) w).

Definition FdcReset d : FdcDevice := ControllerStateReset d.

(** The image the path opens to, if it does; the result is the return code. *)
Definition FdcAttach d (drive : Z) (file : option F) : Z * FdcDevice :=
  if (drive <? 0) || (kFdcDrives <=? drive) then (-1, d)
  else
    match file with
    | None => (-1, d)
    | Some f =>
        match list_find (fun m => f_size f = fm_bytes m) kFdcFormats with
        | None => (-1, d)
        | Some (_, m) =>
            (0, put_drive d drive (mkDrive (Some f) (f_size f) (fm_cylinders m) (fm_heads m) (fm_sectors m) 0 0 1 true false (fm_cmos_type m)))
        end
    end.

Definition FdcSetIrqSink d : FdcDevice := d <| fd_wired := true |>.
Definition FdcCmosType d (drive : Z) : Z := if (drive <? 0) || (kFdcDrives <=? drive) then 0 else fv_cmos_type (arr (fd_drives d) drive).
Definition FdcDestroy d : FdcDevice := d <| fd_drives := (fun v => v <| fv_image := None |>) <$> fd_drives d |>.
End fdc.
Arguments FdcDrive : clear implicits.
Arguments FdcDevice : clear implicits.
