(* ===== verification/FdcProps.v ===== *)
(** * Floppy controller: the byte handshake

    In every state the ports can produce, the main status register tells the
    host the truth: the data register always accepts a command byte or offers a
    result byte, the interrupt line is the pending bit of status register A, and
    a result phase always drains back to the command phase. *)

From S2P Require Import Prelude HostMem VirtioDev Fdc.

Section props.
Context {F W : Type} `{HostFileOps F} `{FdcDma W}.
Implicit Types (d : FdcDevice F W) (v : FdcDrive F).

(** What every operation keeps, the phases aside. *)
Record fdc_base d : Prop := {
  fb_drives : length (fd_drives d) = 2%nat;
  fb_curr : 0 <= fd_curr_drive d < 2;
  fb_args : length (fd_cmd_args d) = 16%nat;
  fb_resp : length (fd_resp d) = 16%nat;
  fb_irq : tst (fd_sra d) kSraIntPend = fd_irq d;
  fb_line : fd_wired d = true -> default false (last (fd_out d)) = fd_irq d;
}.

(** The handshake between phase, status register and counters. *)
Definition fdc_hand d : Prop :=
  tst (fd_msr d) kMsrRqm = true /\
  (fd_phase d = kPhaseCommand /\ tst (fd_msr d) kMsrDio = false /\
     0 <= fd_cmd_cursor d /\ 0 <= fd_cmd_remaining d /\ fd_cmd_cursor d + fd_cmd_remaining d <= 8 \/
   fd_phase d = kPhaseResult /\ tst (fd_msr d) kMsrDio = true /\ 0 <= fd_resp_cursor d < fd_resp_len d /\ fd_resp_len d <= 7).

Definition fdc_wf d : Prop := fdc_base d /\ fdc_hand d.

(** ** Bits *)

Lemma tst_lor_l x y m : tst (x .| y) m = tst x m || tst y m.
Proof.
  unfold tst. rewrite <- negb_andb. f_equal. rewrite Z.land_lor_distr_l. destruct (Z.eqb_spec (x .& m) 0) as [E1|E1].
  - rewrite E1, Z.lor_0_l. done.
  - cbn. apply Z.eqb_neq. rewrite Z.lor_eq_0_iff. tauto.
Qed.

Lemma tst_ldiff_pow2 x y k : 0 <= k -> tst (x &~ y) (2 ^ k) = tst x (2 ^ k) && negb (tst y (2 ^ k)).
Proof. intros Hk. by rewrite !tst_pow2, Z.ldiff_spec by done. Qed.

Ltac msr := change kMsrRqm with (2 ^ 7) in *; change kMsrDio with (2 ^ 6) in *; change kSraIntPend with (2 ^ 7) in *;
  rewrite ?tst_lor_l, ?tst_ldiff_pow2, ?tst_lor_l by lia.

(** ** Small steps *)

Lemma base_drive d i v : fdc_base d -> fdc_base (put_drive d i v).
Proof. intros []. split; cbn; rewrite ?length_arr_set; done. Qed.

Lemma base_resp d i x : fdc_base d -> fdc_base (put_resp d i x).
Proof. intros []. split; cbn; rewrite ?length_arr_set; done. Qed.

Lemma line_snoc (l : list bool) b : default false (last (l ++ [b])) = b.
Proof. by rewrite last_snoc. Qed.

Lemma base_raise d : fdc_base d -> fdc_base (RaiseIrq d).
Proof.
  intros [H1 H2 H3 H4 H5 H6]. unfold RaiseIrq. destruct (tst (fd_sra d) kSraIntPend) eqn:E in |- *; [by split|].
  unfold tell. cbn. destruct (fd_wired d) eqn:Ew in |- *; split; cbn; try done.
  - msr. apply orb_true_r.
  - intros _. apply line_snoc.
  - msr. apply orb_true_r.
  - by rewrite Ew.
Qed.

Lemma base_lower d : fdc_base d -> fdc_base (LowerIrq d).
Proof.
  intros [H1 H2 H3 H4 H5 H6]. unfold LowerIrq. cbn. destruct (tst (fd_sra d) kSraIntPend) eqn:E in |- *; [|by split].
  unfold tell. cbn. destruct (fd_wired d) eqn:Ew in |- *; split; cbn; try done.
  - msr. apply andb_false_r.
  - intros _. apply line_snoc.
  - msr. apply andb_false_r.
  - by rewrite Ew.
Qed.

Lemma hand_raise d : fdc_hand d -> fdc_hand (RaiseIrq d).
Proof. unfold RaiseIrq, tell. destruct (tst (fd_sra d) _); [done|]. cbn. by destruct (fd_wired d). Qed.

Lemma hand_lower d : fdc_hand d -> fdc_hand (LowerIrq d).
Proof. unfold LowerIrq, tell. cbn. destruct (tst (fd_sra d) _); [|done]. cbn. by destruct (fd_wired d). Qed.

(** Entering a phase establishes the handshake. *)
Lemma enter_command d : fdc_base d -> fdc_wf (EnterCommandPhase d).
Proof.
  intros [H1 H2 H3 H4 H5 H6]. split; [by split|]. split; cbn; [msr; apply orb_true_r|]. left. split; [done|]. split; [|lia].
  msr. change (tst (kMsrCmdBusy .| 2 ^ 6) (2 ^ 6)) with true. cbn [negb]. by rewrite andb_false_r.
Qed.

Lemma enter_result d n : fdc_base d -> 0 < n <= 7 -> fdc_wf (EnterResultPhase d n).
Proof.
  intros [H1 H2 H3 H4 H5 H6] Hn. split; [by split|]. split; cbn; [msr; apply orb_true_r|]. right. split; [done|]. split; [|lia].
  msr. apply orb_true_r.
Qed.

Lemma EndReadWrite_ok d s0 s1 s2 : fdc_base d -> fdc_wf (EndReadWrite d s0 s1 s2).
Proof.
  intros Hb. unfold EndReadWrite. match goal with |- fdc_wf (RaiseIrq (EnterResultPhase ?x 7)) => assert (Hx : fdc_base x) end.
  { do 7 apply base_resp. destruct Hb. by split. }
  destruct (enter_result _ 7 Hx ltac:(lia)). split; [by apply base_raise|by apply hand_raise].
Qed.

Lemma DoInvalid_ok d : fdc_base d -> fdc_wf (DoInvalid d).
Proof. intros Hb. apply enter_result; [|lia]. apply base_resp. destruct Hb. by split. Qed.

Lemma base_advance n d i : fdc_base d -> fdc_base (AdvanceHead n d i).
Proof.
  revert d; induction n as [|n IH]; intros d Hb; [done|]. cbn.
  repeat match goal with |- context [let '(a, b) := ?x in _] => destruct x as [? ?] end.
  match goal with |- context [if ?b then d <| fd_status0 := _ |> else d] => set (d1 := if b then _ else d); assert (H1 : fdc_base d1) by (destruct b; [destruct Hb; by split|done]) end.
  clearbody d1. destruct (2 <=? _); [by apply base_drive|]. by apply IH, base_drive.
Qed.

(** ** Commands *)

(** Every completed command leaves a well-formed controller. *)
Definition ends_ok (p : M (FdcDevice F W) unit) : Prop := forall d, fdc_base d -> wp p (fun _ => fdc_wf) (fun _ _ => False) (fun _ => True) d.

Lemma call_dma_base d n : fdc_base d -> match call_dma d n with Done _ d' => fdc_base d' | Raised _ _ => False | Aborted _ => True end.
Proof.
  intros Hb. unfold call_dma. destruct fdc_dma as [f|]; [|done]. destruct (f _ _ _) as [[[m buf] w]|]; [|done]. destruct Hb. by split.
Qed.

Lemma move_data_base d is_write off n : fdc_base d ->
  match move_data d is_write off n with Done _ d' => fdc_base d' | Raised _ _ => False | Aborted _ => True end.
Proof.
  intros Hb. unfold move_data. destruct is_write.
  - pose proof (call_dma_base d n Hb) as Hc. destruct (call_dma d n) as [m d1| |]; [|done..].
    destruct (fv_image _); [|done]. destruct (0 <? m); [|done]. by apply base_drive.
  - apply call_dma_base. destruct (fv_image _); [|done]. destruct Hb. by split.
Qed.

Lemma DoReadWrite_ok is_write : ends_ok (DoReadWrite is_write).
Proof.
  intros d Hb. unfold wp, DoReadWrite.
  set (d1 := d <| fd_curr_drive := _ |>).
  assert (H1 : fdc_base d1).
  { destruct Hb. split; cbn; try done. change 1 with (2 ^ 1 - 1). apply (rng_land_ones _ 1 1). lia. }
  clearbody d1. cbn zeta. destruct (SeekDrive _ _ _ _) as [r v]. pose proof (base_drive d1 (fd_curr_drive d1) v H1) as H2.
  set (d2 := put_drive d1 _ v) in *. clearbody d2. destruct ((r =? 2) || (r =? 3)).
  { apply EndReadWrite_ok. do 3 apply base_resp. destruct H2. by split. }
  match goal with |- context [data_length ?x _] => set (d3 := x) end.
  assert (H3 : fdc_base d3) by (subst d3; destruct (r =? 1); [destruct H2; by split|done]). clearbody d3.
  destruct (data_length _ _) as [n|]; [|by apply EndReadWrite_ok].
  destruct (is_write && _); [apply EndReadWrite_ok; destruct H3; by split|].
  match goal with |- context [move_data ?x ?a ?b ?c] => pose proof (move_data_base x a b c) as Hm; destruct (move_data x a b c) as [m d4| |] end.
  - assert (H4 : fdc_base d4) by (apply Hm; destruct H3; by split). destruct (m <=? 0); apply EndReadWrite_ok; [done|]. by apply base_advance.
  - apply Hm. destruct H3. by split.
  - done.
Qed.

Lemma with_drive_ok k : (forall v d, fdc_base d -> match k v d with Done _ d' => fdc_wf d' | Raised _ _ => False | Aborted _ => True end) ->
  ends_ok (with_drive k).
Proof.
  intros Hk d Hb. unfold wp, with_drive. destruct (Z.leb_spec kFdcDrives (arg d 0 .& kDorSelect)) as [|Hl]; [done|]. apply Hk.
  destruct Hb. split; cbn; try done. unfold kFdcDrives in Hl. assert (Hr : rng 2 (arg d 0 .& (2 ^ 2 - 1))) by (apply rng_land_ones; lia).
  change (2 ^ 2 - 1) with kDorSelect in Hr. unfold rng in Hr. lia.
Qed.

Lemma seek_end d v : fdc_base d ->
  fdc_wf (let d := EnterCommandPhase (put_drive d (fd_curr_drive d) v) in RaiseIrq (d <| fd_status0 := fd_status0 d .| kSr0Seek |>)).
Proof.
  intros Hb. destruct (enter_command _ (base_drive d (fd_curr_drive d) v Hb)) as [B1 H1]. cbn zeta.
  set (d1 := EnterCommandPhase _) in *. clearbody d1. split; [apply base_raise; destruct B1; by split|by apply hand_raise].
Qed.

Lemma DoSeek_ok : ends_ok DoSeek.
Proof. apply with_drive_ok. intros v d Hb. destruct (SeekDrive _ _ _ _) as [r v']. by apply seek_end. Qed.

Lemma DoRecalibrate_ok : ends_ok DoRecalibrate.
Proof. apply with_drive_ok. intros v d Hb. destruct (SeekDrive _ _ _ _) as [r v']. by apply seek_end. Qed.

Lemma wf_lower d : fdc_wf d -> fdc_wf (LowerIrq d).
Proof. intros [B1 H1]. split; [by apply base_lower|by apply hand_lower]. Qed.

Lemma wf_status0 d x : fdc_wf d -> fdc_wf (d <| fd_status0 := x |>).
Proof. intros [[] H1]. by split; [split|]. Qed.

Lemma sense_reply_ok d s : fdc_base d -> fdc_wf (sense_reply d s).
Proof. intros Hb. apply wf_status0, wf_lower, enter_result; [|lia]. by apply base_resp, base_resp. Qed.

Lemma DoSenseInterrupt_ok : ends_ok DoSenseInterrupt.
Proof.
  intros d Hb. unfold wp, DoSenseInterrupt. destruct (_ <=? _); [done|]. destruct (0 <? _); [apply sense_reply_ok; destruct Hb; by split|].
  destruct (tst _ _); [by apply sense_reply_ok|by apply DoInvalid_ok].
Qed.

Lemma DoReadId_ok : ends_ok DoReadId.
Proof. apply with_drive_ok. intros v d Hb. apply EndReadWrite_ok. by apply base_drive. Qed.

Lemma DoSenseDriveStatus_ok : ends_ok DoSenseDriveStatus.
Proof. apply with_drive_ok. intros v d Hb. apply enter_result; [|lia]. by apply base_resp, base_drive. Qed.

Lemma DoFormatTrack_ok : ends_ok DoFormatTrack.
Proof.
  apply with_drive_ok. intros v d Hb. unfold format_track. cbn zeta. destruct (fv_read_only v); [by apply EndReadWrite_ok|].
  set (x := if _ && _ then _ else _).
  assert (Hx : match x with Done _ d' => fdc_base d' | Raised _ _ => False | Aborted _ => True end).
  { subst x. destruct (_ && _); [by apply call_dma_base|done]. }
  clearbody x. destruct x as [m d1| |]; [|done..]. apply EndReadWrite_ok, base_advance.
  destruct (fv_image v); [|done]. destruct (m =? _); [by apply base_drive|done].
Qed.

Lemma ExecuteCommand_ok : ends_ok ExecuteCommand.
Proof.
  intros d Hb. unfold wp, ExecuteCommand. cbn zeta.
  assert (H1 : fdc_base (d <| fd_phase := kPhaseExecution |>)) by (destruct Hb; by split).
  revert H1. generalize (d <| fd_phase := kPhaseExecution |>). intros d1 H1. generalize (DecodeCommand (fd_cmd_code d1)). intros c.
  pattern (switch c [(kCmdRead, DoReadWrite false); (kCmdWrite, DoReadWrite true); (kCmdSeek, DoSeek); (kCmdRecalibrate, DoRecalibrate);
     (kCmdSenseInterrupt, DoSenseInterrupt); (kCmdReadId, DoReadId); (kCmdSenseDrive, DoSenseDriveStatus);
     (kCmdFormatTrack, DoFormatTrack); (kCmdSpecify, modify EnterCommandPhase)] (modify DoInvalid)). apply switch_ind; [|by apply DoInvalid_ok].
  repeat (apply Forall_cons_2; [intros _; cbn [snd]|]); [by apply DoReadWrite_ok|by apply DoReadWrite_ok|by apply DoSeek_ok|by apply DoRecalibrate_ok|
    by apply DoSenseInterrupt_ok|by apply DoReadId_ok|by apply DoSenseDriveStatus_ok|by apply DoFormatTrack_ok|by apply enter_command|apply Forall_nil_2].
Qed.

(** ** Registers *)

Lemma DecodeCommand_args x : 0 <= (if DecodeCommand x <? 0 then 0 else ArgCount (DecodeCommand x)) <= 8.
Proof. unfold DecodeCommand, kCmdRead, kCmdWrite. repeat destruct (_ =? _); vm_compute; split; congruence. Qed.

#[local] Arguments DecodeCommand : simpl never.
#[local] Arguments ArgCount : simpl never.

Lemma WriteFifo_ok x d : fdc_wf d -> wp (WriteFifo x) (fun _ => fdc_wf) (fun _ _ => False) (fun _ => True) d.
Proof.
  intros [Hb Hh]. unfold wp, WriteFifo. destruct (negb _); [by split|].
  destruct (negb (tst (fd_msr d) kMsrRqm) || tst (fd_msr d) kMsrDio) eqn:Em; [by split|].
  apply orb_false_iff in Em as [Er Ed]. apply negb_false_iff in Er.
  destruct (Z.eqb_spec (fd_phase d) kPhaseCommand) as [Ep|]; [cbn [negb]|by split].
  destruct Hh as [_ [(_ & _ & Hc & Hr & Hs)|(Ep' & _)]]; [|rewrite Ep' in Ep; discriminate Ep].
  match goal with |- context [fd_cmd_remaining (if ?b then ?x else ?y) =? 0] => set (d1 := if b then x else y) end.
  assert (H1 : fdc_wf d1).
  { subst d1. destruct (Z.eqb_spec (fd_cmd_remaining d) 0) as [E0|E0].
    - pose proof (DecodeCommand_args x). destruct Hb. split; [by split|]. split; cbn; [msr; by rewrite Er|].
      left. split; [done|]. split; [msr; by rewrite Ed|]. lia.
    - destruct (fd_cmd_cursor d <? 16); destruct Hb; (split; [split; cbn; rewrite ?length_arr_set; done|]); (split; [done|]); left; cbn; (split; [done|]); (split; [done|lia]). }
  clearbody d1. destruct (_ =? 0); [|done]. apply (ExecuteCommand_ok d1), H1.
Qed.

Lemma ReadFifo_ok d : fdc_wf d -> fdc_wf (snd (ReadFifo d)).
Proof.
  intros [Hb Hh]. unfold ReadFifo. destruct (_ || _); [by split|]. destruct (negb (fd_phase d =? kPhaseResult)) eqn:Ep; [by split|].
  destruct (Z.leb_spec (fd_resp_len d) (fd_resp_cursor d)); [by split|]. cbn [snd].
  apply negb_false_iff, Z.eqb_eq in Ep. destruct Hh as [Hr [(Ep' & _)|(_ & Hd & Hc & Hl)]]; [rewrite Ep' in Ep; discriminate Ep|]. cbn.
  destruct (Z.eqb_spec (fd_resp_cursor d + 1) (fd_resp_len d)).
  - apply wf_lower, enter_command. destruct Hb. by split.
  - destruct Hb. split; [by split|]. split; [done|]. right. cbn. split; [done|]. split; [done|lia].
Qed.

Lemma StateReset_ok d : fdc_base d -> fdc_wf (ControllerStateReset d).
Proof.
  intros [H1 H2 H3 H4 H5 H6]. unfold ControllerStateReset.
  assert (Hh : forall d', fd_msr d' = kMsrRqm -> fd_phase d' = kPhaseCommand -> fd_cmd_cursor d' = 0 -> fd_cmd_remaining d' = 0 -> fdc_hand d').
  { intros d' E1 E2 E3 E4. split; rewrite E1; [done|]. left. rewrite E2, E3, E4. split; [done|]. split; [done|lia]. }
  cbn. unfold tell. cbn. destruct (fd_irq d) eqn:Ei; [destruct (fd_wired d) eqn:Ew|]; (split; [split|by apply Hh]);
    cbn; rewrite ?length_fmap; try done.
  - intros _. apply line_snoc.
  - by rewrite Ew.
  - intros Hw. rewrite Ei. by apply H6.
Qed.

Lemma Reset_ok d : fdc_base d -> fdc_wf (ControllerReset d).
Proof.
  intros Hb. destruct (wf_status0 _ kSr0RdyChg (StateReset_ok d Hb)) as [B1 H1]. unfold ControllerReset.
  apply base_raise in B1. apply hand_raise in H1. revert B1 H1. generalize (RaiseIrq ((ControllerStateReset d) <| fd_status0 := kSr0RdyChg |>)).
  intros d1 [] H1. by split; [split|].
Qed.

Lemma WriteDor_ok d x : fdc_wf d -> fdc_wf (WriteDor d x).
Proof.
  intros [Hb Hh]. unfold WriteDor. cbn zeta. match goal with |- context [d <| fd_srb := ?y |>] => set (d1 := d <| fd_srb := y |>) end.
  assert (H1 : fdc_wf d1) by (subst d1; destruct Hb; by split; [split|]). clearbody d1.
  assert (H2 : fdc_wf (if negb (tst (fd_dor d1) kDorNReset) && tst x kDorNReset then ControllerReset d1 else d1)) by (destruct (_ && _); [apply Reset_ok, H1|done]).
  revert H2. generalize (if negb (tst (fd_dor d1) kDorNReset) && tst x kDorNReset then ControllerReset d1 else d1). intros d2 [[] H2].
  split; [split|done]; cbn; try done. change 1 with (2 ^ 1 - 1). apply (rng_land_ones _ 1 1). lia.
Qed.

Lemma FdcWrite_ok addr val d : fdc_wf d -> wp (FdcWrite addr val) (fun _ => fdc_wf) (fun _ _ => False) (fun _ => True) d.
Proof.
  intros Hd. unfold wp, FdcWrite. cbn zeta. generalize (addr - kFdcBase). intros r.
  apply (switch_ind (fun o => match o with Done _ d' => fdc_wf d' | Raised _ _ => False | Aborted _ => True end)); [|done].
  repeat (apply Forall_cons_2; [intros _; cbn [snd]|]); [by apply WriteDor_ok| |by apply (WriteFifo_ok (u8 val) d)|apply Forall_nil_2].
  destruct (tst _ _); [|done]. destruct Hd as [[] Hh]. by split; [split|].
Qed.

Lemma FdcRead_ok addr d : fdc_wf d -> wp (FdcRead addr) (fun _ => fdc_wf) (fun _ _ => False) (fun _ => False) d.
Proof.
  intros Hd. unfold wp, FdcRead. generalize (addr - kFdcBase). intros r.
  apply (switch_ind (fun o => match o with Done _ d' => fdc_wf d' | Raised _ _ => False | Aborted _ => False end)); [|done].
  repeat (apply Forall_cons_2; [intros _; cbn [snd]|]); try done.
  - pose proof (ReadFifo_ok d Hd) as Hr. by destruct (ReadFifo d).
  - unfold kFdcDrives. rewrite (proj2 (Z.leb_gt _ _)); [done|]. apply Hd.
Qed.

(** ** Reachable controllers *)

(** The board installs the sink on the zeroed controller and attaches media;
    after that the ports are accessed, the machine is reset, and the world
    behind the DMA channel changes between accesses. *)
Inductive fdc_reach : FdcDevice F W -> Prop :=
| fr_init w : fdc_reach (FdcSetIrqSink (FdcInit w))
| fr_attach d drive file : fdc_reach d -> fdc_reach (snd (FdcAttach d drive file))
| fr_write d addr val d' : fdc_reach d -> FdcWrite addr val d = Done tt d' -> fdc_reach d'
| fr_read d addr x d' : fdc_reach d -> FdcRead addr d = Done x d' -> fdc_reach d'
| fr_reset d : fdc_reach d -> fdc_reach (FdcReset d)
| fr_world d w : fdc_reach d -> fdc_reach (d <| fd_world := w |>).

Lemma sink_ok d : fdc_wf d -> default false (last (fd_out d)) = fd_irq d -> fdc_wf (FdcSetIrqSink d).
Proof. intros [[] Hh] E. by split; [split|]. Qed.

Lemma fdc_reach_wf d : fdc_reach d -> fdc_wf d.
Proof.
  induction 1 as [w|d drive file _ IH|d addr val d' _ IH E|d addr x d' _ IH E|d _ IH|d w _ IH].
  - unfold FdcInit. generalize (replicate (Z.to_nat kFdcMaxTransfer) 0). intros buf. set (d := mkFdc _ _ _ _ _ _ _ _ _ _ _ _ _ _ _ _ _ _ _ _ _ _ _ _ _ _).
    assert (B : fdc_wf (ControllerStateReset d)) by (apply StateReset_ok; split; cbn; (done || lia)).
    apply sink_ok; [done|reflexivity].
  - unfold FdcAttach. destruct (_ || _); [done|]. destruct file as [f|]; [|done]. destruct (list_find _ _) as [[? m]|]; [|done].
    destruct IH as [Hb Hh]. split; [by apply base_drive|done].
  - by eapply wp_done in E; [|apply FdcWrite_ok].
  - by eapply wp_done in E; [|apply FdcRead_ok].
  - apply StateReset_ok, IH.
  - destruct IH as [[] Hh]. by split; [split|].
Qed.

(** ** Leaving the drive array *)

(** The commands that take the drive number from both select bits. *)
Definition selects_drive (c : Z) : bool := existsb (Z.eqb c) [kCmdSeek; kCmdRecalibrate; kCmdReadId; kCmdSenseDrive; kCmdFormatTrack].

Lemma call_dma_oob d n : call_dma d n <> Aborted OutOfBounds.
Proof. unfold call_dma. destruct fdc_dma as [f|]; [|done]. by destruct (f _ _ _) as [[[] ?]|]. Qed.

Lemma DoReadWrite_oob w d : DoReadWrite w d <> Aborted OutOfBounds.
Proof.
  unfold DoReadWrite. cbn zeta. destruct (SeekDrive _ _ _ _) as [r v]. destruct (_ || _); [done|].
  destruct (data_length _ _); [|done]. destruct (w && _); [done|].
  match goal with |- context [move_data ?x ?a ?b ?c] => assert (Hm : move_data x a b c <> Aborted OutOfBounds) end.
  { unfold move_data. destruct w; [|apply call_dma_oob]. match goal with |- context [call_dma ?x ?n] => pose proof (call_dma_oob x n); destruct (call_dma x n) end; congruence. }
  destruct (move_data _ _ _ _) as [m d1| |]; [by destruct (m <=? 0)|done|congruence].
Qed.

Lemma with_drive_oob k d : (forall v d, k v d <> Aborted OutOfBounds) -> with_drive k d = Aborted OutOfBounds <-> 2 <= arg d 0 .& kDorSelect.
Proof.
  intros Hk. unfold with_drive, kFdcDrives. destruct (Z.leb_spec 2 (arg d 0 .& kDorSelect)); [by split|]. split; [by intros ?%Hk|lia].
Qed.

Lemma format_track_oob v d : format_track v d <> Aborted OutOfBounds.
Proof.
  unfold format_track. cbn zeta. destruct (fv_read_only v); [done|]. destruct (_ && _); [|done].
  pose proof (call_dma_oob d (arg d 2 * 4)). destruct (call_dma _ _); congruence.
Qed.

Lemma ExecuteCommand_oob d : fdc_base d ->
  ExecuteCommand d = Aborted OutOfBounds <-> selects_drive (DecodeCommand (fd_cmd_code d)) = true /\ 2 <= arg d 0 .& kDorSelect.
Proof.
  intros Hb. unfold ExecuteCommand. cbn zeta. set (d1 := d <| fd_phase := _ |>).
  change (fd_cmd_code d1) with (fd_cmd_code d). change (arg d 0) with (arg d1 0). generalize (DecodeCommand (fd_cmd_code d)). intros c.
  assert (Hc : (kFdcDrives <=? fd_curr_drive d1) = false) by (apply Z.leb_gt; apply Hb).
  assert (Hs : DoSenseInterrupt d1 <> Aborted OutOfBounds) by (unfold DoSenseInterrupt; rewrite Hc; destruct (0 <? _); [done|by destruct (tst _ _)]).
  clearbody d1. unfold selects_drive. cbn [switch existsb].
  assert (Hw : forall p : M (FdcDevice F W) unit, p d1 <> Aborted OutOfBounds -> (p d1 = Aborted OutOfBounds) <-> false = true /\ 2 <= arg d1 0 .& kDorSelect) by (intros p Hp; by split; [|intros []]).
  assert (Hk : forall k, (forall v d, k v d <> Aborted OutOfBounds) -> (with_drive k d1 = Aborted OutOfBounds) <-> true = true /\ 2 <= arg d1 0 .& kDorSelect)
    by (intros k Hk; rewrite (with_drive_oob k d1 Hk); tauto).
  destruct (Z.eqb_spec c kCmdRead) as [->|]; [apply Hw, DoReadWrite_oob|].
  destruct (Z.eqb_spec c kCmdWrite) as [->|]; [apply Hw, DoReadWrite_oob|].
  destruct (Z.eqb_spec c kCmdSeek) as [->|]; [apply Hk; intros v d2; by destruct (SeekDrive _ _ _ _)|].
  destruct (Z.eqb_spec c kCmdRecalibrate) as [->|]; [apply Hk; intros v d2; by destruct (SeekDrive _ _ _ _)|].
  destruct (Z.eqb_spec c kCmdSenseInterrupt) as [->|]; [by apply Hw|].
  destruct (Z.eqb_spec c kCmdReadId) as [->|]; [by apply Hk|].
  destruct (Z.eqb_spec c kCmdSenseDrive) as [->|]; [by apply Hk|].
  destruct (Z.eqb_spec c kCmdFormatTrack) as [->|]; [apply Hk, format_track_oob|].
  destruct (Z.eqb_spec c kCmdSpecify) as [->|]; by apply Hw.
Qed.

(** ** Theorems *)

(** C35: the floppy controller's status register describes its data register: in every state reached
    from power-on by port accesses that stay inside the drive array, resets, media changes and
    whatever happens behind the DMA channel, the direction bit is up exactly in the result phase,
    with a byte left; with it up a read returns the next result byte and a written byte is ignored;
    with it down a read returns 0 and changes nothing, and a parameter byte before the last is
    stored at its place; the interrupt line told last is the pending bit of status register A. The
    ready bit is set in all those states, also while the digital output register holds the
    controller in reset, when written bytes are dropped (reported as a bug). *)
Theorem fdc_handshake d : fdc_reach d ->
  let dio := tst (fd_msr d) kMsrDio in
  let held := negb (tst (fd_dor d) kDorNReset) in
  tst (fd_msr d) kMsrRqm = true /\
  (dio = true <-> fd_phase d = kPhaseResult) /\
  (fd_phase d = kPhaseCommand /\ 0 <= fd_cmd_remaining d <= 8 \/ fd_phase d = kPhaseResult /\ 0 <= fd_resp_cursor d < fd_resp_len d) /\
  (if dio then fst (ReadFifo d) = arr (fd_resp d) (fd_resp_cursor d) else ReadFifo d = (0, d)) /\
  (forall x, dio || held = true -> WriteFifo x d = Done tt d) /\
  (forall x, dio || held = false -> 1 < fd_cmd_remaining d -> exists d', WriteFifo x d = Done tt d' /\
     arr (fd_cmd_args d') (fd_cmd_cursor d) = x /\ fd_cmd_remaining d' = fd_cmd_remaining d - 1) /\
  tst (fd_sra d) kSraIntPend = fd_irq d /\ (fd_wired d = true -> default false (last (fd_out d)) = fd_irq d).
Proof.
  intros Hr dio held. destruct (fdc_reach_wf d Hr) as [[_ _ Ha _ Hi Hl] [Hq Hh]]. split; [done|].
  unfold ReadFifo, WriteFifo. rewrite Hq. fold dio.
  destruct Hh as [(Hp & Hd & H1 & H2 & H3)|(Hp & Hd & H1 & H2)]; fold dio in Hd; rewrite Hp, Hd; cbn [orb negb Z.eqb];
    (split; [done|]); (split; [first [left; split; [done|lia]|right; by split]|]).
  - split; [done|]. split; [intros x Hx; fold held; by rewrite Hx|]. split; [|done]. intros x Hx Hrem. fold held. rewrite Hx.
    change (kPhaseCommand =? kPhaseCommand) with true. cbn [negb]. rewrite (proj2 (Z.eqb_neq (fd_cmd_remaining d) 0)), (proj2 (Z.ltb_lt (fd_cmd_cursor d) 16)) by lia.
    eexists. change (fd_cmd_remaining (?y <| fd_cmd_remaining := ?z |>)) with z.
    rewrite (proj2 (Z.eqb_neq (fd_cmd_remaining d - 1) 0)) by lia. split; [done|]. split; [|done]. cbn. apply arr_set_eq. rewrite Ha. lia.
  - change (kPhaseResult =? kPhaseResult) with true. cbn [negb]. rewrite (proj2 (Z.leb_gt _ _)) by lia. split; [done|].
    split; [|done]. intros x _. by destruct (negb _).
Qed.

(** [n] reads of the data register. *)
Fixpoint read_fifo (n : nat) d : list Z * FdcDevice F W :=
  match n with
  | O => ([], d)
  | S n => let '(x, d1) := ReadFifo d in let '(xs, d2) := read_fifo n d1 in (x :: xs, d2)
  end.

Lemma lower_facts d : fdc_base d -> fd_irq (LowerIrq d) = false /\ fd_phase (LowerIrq d) = fd_phase d /\
  fd_cmd_remaining (LowerIrq d) = fd_cmd_remaining d.
Proof.
  intros [_ _ _ _ Hi _]. unfold LowerIrq, tell. cbn. rewrite Hi. destruct (fd_irq d) eqn:Ei; [cbn; by destruct (fd_wired d)|]. cbn. done.
Qed.

Lemma read_fifo_drains n : forall d, fdc_wf d -> fd_phase d = kPhaseResult -> fd_resp_len d - fd_resp_cursor d = Z.of_nat (S n) ->
  let r := read_fifo (S n) d in
  fst r = take (S n) (drop (Z.to_nat (fd_resp_cursor d)) (fd_resp d)) /\
  fd_phase (snd r) = kPhaseCommand /\ fd_cmd_remaining (snd r) = 0 /\ fd_irq (snd r) = false.
Proof.
  induction n as [|n IH]; intros d Hw Hp Hl; pose proof (ReadFifo_ok d Hw) as Hw1; destruct Hw as [Hb [Hq [(Hp' & _)|(_ & Hd & Hc & H7)]]];
    try (rewrite Hp' in Hp; discriminate Hp); pose proof (fb_resp _ Hb) as H16.
  - assert (E : drop (Z.to_nat (fd_resp_cursor d)) (fd_resp d) = arr (fd_resp d) (fd_resp_cursor d) :: drop (S (Z.to_nat (fd_resp_cursor d))) (fd_resp d))
      by (apply drop_S, list_lookup_lookup_total_lt; lia).
    cbn [read_fifo]. unfold ReadFifo in *. rewrite Hq, Hd, Hp in *. cbn [negb orb Z.eqb Pos.eqb kPhaseResult] in *.
    rewrite (proj2 (Z.leb_gt _ _)) in * by lia. cbn. rewrite (proj2 (Z.eqb_eq (fd_resp_cursor d + 1) (fd_resp_len d))) by lia.
    rewrite E. split; [done|]. match goal with |- context [LowerIrq ?x] => destruct (lower_facts x) as (-> & -> & ->); [|done] end.
    destruct (enter_command (d <| fd_resp_cursor := fd_resp_cursor d + 1 |> <| fd_msr := fd_msr d &~ kMsrRqm |>)) as [B _]; [destruct Hb; by split|]. exact B.
  - assert (E : drop (Z.to_nat (fd_resp_cursor d)) (fd_resp d) = arr (fd_resp d) (fd_resp_cursor d) :: drop (S (Z.to_nat (fd_resp_cursor d))) (fd_resp d))
      by (apply drop_S, list_lookup_lookup_total_lt; lia).
    assert (Er : ReadFifo d = (arr (fd_resp d) (fd_resp_cursor d), d <| fd_resp_cursor := fd_resp_cursor d + 1 |>)).
    { unfold ReadFifo. rewrite Hq, Hd, Hp. cbn [negb orb Z.eqb Pos.eqb kPhaseResult]. rewrite (proj2 (Z.leb_gt _ _)) by lia. cbn.
      by rewrite (proj2 (Z.eqb_neq (fd_resp_cursor d + 1) (fd_resp_len d))) by lia. }
    rewrite Er in Hw1. specialize (IH _ Hw1 Hp ltac:(cbn; lia)). remember (S n) as k. cbn [read_fifo]. rewrite Er.
    destruct (read_fifo k _) as [xs d2]. cbn in IH |- *. destruct IH as (E1 & E2). rewrite E. cbn [take]. split; [|done]. f_equal.
    rewrite E1. do 2 f_equal. lia.
Qed.

(** Every command ends: from any reachable result phase, reading the remaining result bytes (one to
    seven) returns them in order, brings the controller back to the command phase and drops the
    interrupt line. *)
Theorem fdc_results_drain d : fdc_reach d -> fd_phase d = kPhaseResult ->
  let n := Z.to_nat (fd_resp_len d - fd_resp_cursor d) in
  let r := read_fifo n d in
  (0 < n <= 7)%nat /\ fst r = take n (drop (Z.to_nat (fd_resp_cursor d)) (fd_resp d)) /\
  fd_phase (snd r) = kPhaseCommand /\ fd_cmd_remaining (snd r) = 0 /\ fd_irq (snd r) = false.
Proof.
  intros Hr Hp n. pose proof (fdc_reach_wf d Hr) as Hw. destruct (proj2 Hw) as [_ [(Hp' & _)|(_ & _ & Hc & H7)]]; [rewrite Hp' in Hp; discriminate Hp|].
  split; [lia|]. destruct n as [|k] eqn:En; [lia|]. apply read_fifo_drains; [done..|]. lia.
Qed.

(** C34: the only way out of the drive array: in a reachable state no port read leaves it, and a
    port write does exactly when it is the last parameter of a SEEK, RECALIBRATE, READ ID, SENSE
    DRIVE or FORMAT command whose drive field is 2 or 3. *)
Theorem fdc_drive_oob d addr val : fdc_reach d ->
  (forall x, FdcRead addr d <> Aborted x) /\
  (FdcWrite addr val d = Aborted OutOfBounds <->
   addr = kFdcBase + kRegFifo /\ tst (fd_dor d) kDorNReset = true /\ fd_phase d = kPhaseCommand /\ fd_cmd_remaining d = 1 /\
   selects_drive (DecodeCommand (fd_cmd_code d)) = true /\
   2 <= (if fd_cmd_cursor d =? 0 then u8 val else arg d 0) .& kDorSelect).
Proof.
  intros Hr. pose proof (fdc_reach_wf d Hr) as Hw. split.
  { intros x E. pose proof (FdcRead_ok addr d Hw) as Ho. unfold wp in Ho. by rewrite E in Ho. }
  destruct Hw as [Hb [Hq Hph]]. unfold FdcWrite. cbn zeta. cbn [switch].
  destruct (Z.eqb_spec (addr - kFdcBase) kRegDor) as [E|_]; [split; [done|]; intros [-> _]; by vm_compute in E|].
  destruct (Z.eqb_spec (addr - kFdcBase) kRegTdr) as [E|_]; [split; [done|]; intros [-> _]; by vm_compute in E|].
  destruct (Z.eqb_spec (addr - kFdcBase) kRegFifo) as [E|N]; [|split; [done|]; intros [-> _]; by destruct N].
  assert (Ea : addr = kFdcBase + kRegFifo) by lia. unfold WriteFifo. rewrite Hq. cbn [negb orb].
  destruct (tst (fd_dor d) kDorNReset); cbn [negb]; [|split; [done|intros (_ & ? & _); done]].
  destruct Hph as [(Hp & Hd & Hc & Hm & Hs)|(Hp & Hd & _)]; rewrite Hp, Hd; cbn [orb]; [|split; [done|intros (_ & _ & ? & _); done]].
  cbn [Z.eqb Pos.eqb kPhaseCommand negb]. destruct (Z.eqb_spec (fd_cmd_remaining d) 0) as [E0|N0].
  - set (d1 := d <| fd_cmd_code := _ |> <| fd_cmd_cursor := _ |> <| fd_cmd_flags := _ |> <| fd_cmd_remaining := _ |> <| fd_msr := _ |>).
    split; [|intros (_ & _ & _ & ? & _); lia]. destruct (Z.eqb_spec (fd_cmd_remaining d1) 0) as [E1|]; [|done].
    intros [Hsel _]%ExecuteCommand_oob; [|destruct Hb; by split]. exfalso. cbn in E1. change (fd_cmd_code d1) with (u8 val) in Hsel. unfold selects_drive in Hsel. revert E1 Hsel. generalize (DecodeCommand (u8 val)). intros c E1 Hsel.
    apply existsb_exists in Hsel as (k & Hk & ->%Z.eqb_eq). cbn in Hk. destruct Hk as [<-|[<-|[<-|[<-|[<-|[]]]]]]; vm_compute in E1; discriminate E1.
  - assert (Hc16 : (fd_cmd_cursor d <? 16) = true) by (apply Z.ltb_lt; lia). rewrite Hc16.
    set (d1 := d <| fd_cmd_args := _ |> <| fd_cmd_cursor := _ |> <| fd_cmd_remaining := _ |>). change (fd_cmd_remaining d1) with (fd_cmd_remaining d - 1).
    destruct (Z.eqb_spec (fd_cmd_remaining d - 1) 0) as [E1|N1]; [|split; [done|intros (_ & _ & _ & ? & _); lia]].
    rewrite (ExecuteCommand_oob d1) by (destruct Hb; split; cbn; rewrite ?length_arr_set; done).
    assert (Earg : arg d1 0 = if fd_cmd_cursor d =? 0 then u8 val else arg d 0).
    { unfold arg, d1. cbn. destruct (Z.eqb_spec (fd_cmd_cursor d) 0) as [->|]; [apply arr_set_eq; rewrite (fb_args _ Hb); lia|apply arr_set_ne; lia]. }
    rewrite Earg. change (fd_cmd_code d1) with (fd_cmd_code d). split; [intros []; repeat split; (done || lia)|tauto].
Qed.
End props.
