(* ===== verification/FdcDisk.v ===== *)
(** * Sectors between a floppy and memory

    The controller with channel 2 of the DMA controller behind it, as
    board/x86_min.c wires them ([OnFdcDma]): a READ command puts the sectors of
    the image into guest memory, a WRITE command puts guest memory into the
    image, and what was written is read back.  The end of the file runs it on a
    concrete PC memory. *)

From S2P Require Import Prelude HostMem VirtioDev SysBus I8237 Fdc FdcProps.

Definition kFdcDmaChannel := 2.

Section disk.
Context {F M : Type} `{DiskFile F} `{SysBus M}.

(** The channel's byte mover: the world is the DMA controller and memory. *)
Definition OnFdcDma (buf : list Z) (len : Z) (w : I8237Device * M) : option (Z * list Z * (I8237Device * M)) :=
  match I8237Transfer (fst w) kFdcDmaChannel buf len (snd w) with
  | Some (n, d, buf, m) => Some (n, buf, (d, m))
  | None => None
  end.
#[local] Instance fdc_channel : FdcDma (I8237Device * M) := Some OnFdcDma.

Implicit Types (d : FdcDevice F (I8237Device * M)) (v : FdcDrive F) (f : F) (m : M).

(** ** Frames *)

(** What the phases and lines never touch. *)
Definition same_rest d d' : Prop :=
  fd_drives d' = fd_drives d /\ fd_world d' = fd_world d /\ fd_buf d' = fd_buf d /\ fd_dor d' = fd_dor d /\ fd_curr_drive d' = fd_curr_drive d.

Lemma same_trans d1 d2 d3 : same_rest d1 d2 -> same_rest d2 d3 -> same_rest d1 d3.
Proof. unfold same_rest. intuition congruence. Qed.

Lemma raise_same d : same_rest d (RaiseIrq d).
Proof. unfold RaiseIrq, tell. destruct (tst _ _); [done|]. cbn. by destruct (fd_wired d). Qed.

Lemma lower_same d : same_rest d (LowerIrq d).
Proof. unfold LowerIrq, tell. cbn. destruct (tst _ _); [|done]. cbn. by destruct (fd_wired d). Qed.

Lemma raise_facts d : fdc_base d -> fd_irq (RaiseIrq d) = true /\ fd_phase (RaiseIrq d) = fd_phase d /\ fd_resp (RaiseIrq d) = fd_resp d /\
  fd_resp_len (RaiseIrq d) = fd_resp_len d /\ fd_resp_cursor (RaiseIrq d) = fd_resp_cursor d.
Proof.
  intros [_ _ _ _ Hi _]. unfold RaiseIrq, tell. rewrite Hi. destruct (fd_irq d) eqn:Ei; [cbn; done|]. cbn. by destruct (fd_wired d).
Qed.

Lemma ReadFifo_same d : same_rest d (snd (ReadFifo d)).
Proof.
  unfold ReadFifo. destruct (_ || _); [done|]. destruct (negb _); [done|]. destruct (_ <=? _); [done|]. cbn [snd].
  destruct (_ =? _); [|done]. eapply same_trans; [|apply lower_same]. done.
Qed.

Lemma read_fifo_same n d : same_rest d (snd (read_fifo n d)).
Proof.
  revert d; induction n as [|n IH]; intros d; [done|]. cbn [read_fifo]. pose proof (ReadFifo_same d) as J1. destruct (ReadFifo d) as [x d1].
  specialize (IH d1). destruct (read_fifo n d1) as [xs d2]. by eapply same_trans.
Qed.

(** Draining leaves status register 0 clear. *)
Lemma lower_status0 d : fd_status0 (LowerIrq d) = 0.
Proof. unfold LowerIrq, tell. cbn. destruct (tst _ _); [|done]. cbn. by destruct (fd_wired d). Qed.

Lemma read_fifo_wf n d : fdc_wf d -> fdc_wf (snd (read_fifo n d)).
Proof.
  revert d; induction n as [|n IH]; intros d Hw; [done|]. cbn [read_fifo]. apply ReadFifo_ok in Hw. destruct (ReadFifo d) as [x d1].
  cbn in Hw. apply IH in Hw. by destruct (read_fifo n d1).
Qed.

Lemma drain_status0 n d : fdc_wf d -> fd_phase d = kPhaseResult -> fd_resp_len d - fd_resp_cursor d = Z.of_nat (S n) ->
  fd_status0 (snd (read_fifo (S n) d)) = 0.
Proof.
  revert d; induction n as [|n IH]; intros d Hw Hp Hl; pose proof (ReadFifo_ok d Hw) as Hw1;
    destruct Hw as [Hb [Hq [(Hp' & _)|(_ & Hd & Hc & H7)]]]; try (rewrite Hp' in Hp; discriminate Hp).
  - cbn [read_fifo]. unfold ReadFifo. rewrite Hq, Hd, Hp. cbn [negb orb Z.eqb Pos.eqb kPhaseResult]. rewrite (proj2 (Z.leb_gt _ _)) by lia.
    change (fd_resp_cursor (d <| fd_resp_cursor := ?x |>)) with x. change (fd_resp_len (d <| fd_resp_cursor := ?x |>)) with (fd_resp_len d).
    rewrite (proj2 (Z.eqb_eq (fd_resp_cursor d + 1) (fd_resp_len d))) by lia. apply lower_status0.
  - assert (Er : ReadFifo d = (arr (fd_resp d) (fd_resp_cursor d), d <| fd_resp_cursor := fd_resp_cursor d + 1 |>)).
    { unfold ReadFifo. rewrite Hq, Hd, Hp. cbn [negb orb Z.eqb Pos.eqb kPhaseResult]. rewrite (proj2 (Z.leb_gt _ _)) by lia. cbn.
      by rewrite (proj2 (Z.eqb_neq (fd_resp_cursor d + 1) (fd_resp_len d))) by lia. }
    rewrite Er in Hw1. specialize (IH _ Hw1 Hp ltac:(cbn; lia)). remember (S n) as k. cbn [read_fifo]. rewrite Er.
    by destruct (read_fifo k _).
Qed.

(** ** Media *)

(** The part of a drive a transfer depends on. *)
Definition same_medium v v' : Prop :=
  fv_image v' = fv_image v /\ fv_cylinders v' = fv_cylinders v /\ fv_heads v' = fv_heads v /\ fv_sectors v' = fv_sectors v /\
  fv_read_only v' = fv_read_only v.

Lemma SeekDrive_medium v h c s : same_medium v (snd (SeekDrive v h c s)).
Proof.
  unfold SeekDrive. destruct (_ || _); [done|]. destruct (_ || _); [done|]. destruct (_ =? _); [done|].
  destruct (_ =? _); destruct (fv_image v) eqn:E; cbn; unfold same_medium; cbn; by rewrite E.
Qed.

(** A cylinder, head and sector the medium has. *)
Definition on_medium v (c h s : Z) : Prop :=
  0 <= c < fv_cylinders v /\ 0 <= h < fv_heads v /\ 1 <= s <= fv_sectors v.

Lemma SeekDrive_on v f c h s : fv_image v = Some f -> on_medium v c h s -> 0 <= fst (SeekDrive v h c s) < 2.
Proof.
  intros Hf (Hc & Hh & Hs). unfold SeekDrive. rewrite (proj2 (Z.ltb_ge c 0)), (proj2 (Z.leb_gt _ c)) by lia. cbn [orb].
  destruct (Z.eqb_spec h 0) as [->|Hne]; cbn [negb andb]; [|rewrite (proj2 (Z.ltb_ge (fv_heads v) 2)) by lia];
    rewrite (proj2 (Z.ltb_ge s 1)), (proj2 (Z.ltb_ge _ s)) by lia; cbn [orb]; rewrite Hf; destruct (_ =? _); cbn; try lia;
    destruct (_ =? _); cbn; lia.
Qed.

Lemma Advance_frame n d i : 0 <= i < 2 -> length (fd_drives d) = 2%nat -> let d' := AdvanceHead n d i in
  length (fd_drives d') = 2%nat /\ same_medium (arr (fd_drives d) i) (arr (fd_drives d') i) /\
  (forall j, 0 <= j -> j <> i -> arr (fd_drives d') j = arr (fd_drives d) j) /\
  fd_world d' = fd_world d /\ fd_buf d' = fd_buf d /\ fd_dor d' = fd_dor d /\ fd_curr_drive d' = fd_curr_drive d /\
  fd_status0 d' .& 0xc0 = fd_status0 d .& 0xc0.
Proof.
  intros Hi. revert d; induction n as [|n IH]; intros d Hl; [done|]. cbn [AdvanceHead].
  cbn zeta. set (x := if (fv_sectors _ <=? _) || _ then _ else _). destruct x as [[[track head] sect] seek].
  set (d1 := if seek then _ else d). pose proof (SeekDrive_medium (arr (fd_drives d) i) head track sect) as Hm.
  destruct (SeekDrive _ _ _ _) as [r v]. cbn [snd] in Hm.
  assert (J1 : fd_drives d1 = fd_drives d /\ fd_world d1 = fd_world d /\ fd_buf d1 = fd_buf d /\ fd_dor d1 = fd_dor d /\ fd_curr_drive d1 = fd_curr_drive d /\
    fd_status0 d1 .& 0xc0 = fd_status0 d .& 0xc0).
  { subst d1. destruct seek; [|done]. cbn. repeat (split; [done|]). rewrite Z.land_lor_distr_l. change (kSr0Seek .& 0xc0) with 0. apply Z.lor_0_r. }
  destruct J1 as (E1 & E2 & E3 & E4 & E5 & E6). clearbody d1.
  assert (G : length (fd_drives (put_drive d1 i v)) = 2%nat /\ same_medium (arr (fd_drives d) i) (arr (fd_drives (put_drive d1 i v)) i) /\
    (forall j, 0 <= j -> j <> i -> arr (fd_drives (put_drive d1 i v)) j = arr (fd_drives d) j)).
  { cbn. rewrite E1, length_arr_set. split; [done|]. split; [by rewrite arr_set_eq by lia|]. intros j Hj Hne. apply arr_set_ne; lia. }
  destruct G as (G1 & G2 & G3). destruct (2 <=? r).
  - repeat (split; [done|]). cbn. done.
  - destruct (IH (put_drive d1 i v) G1) as (I1 & I2 & I3 & I4 & I5 & I6 & I7 & I8). cbn [put_drive] in I4, I5, I6, I7, I8.
    split; [done|]. split; [|split; [intros j Hj Hne; rewrite I3, G3 by done; done|]].
    + destruct G2 as (a1 & a2 & a3 & a4 & a5), I2 as (b1 & b2 & b3 & b4 & b5). repeat split; congruence.
    + rewrite I4, I5, I6, I7, I8. cbn. done.
Qed.

(** ** Sending a command *)

(** Bytes written to the data register. *)
Fixpoint send (bs : list Z) : Prelude.M (FdcDevice F (I8237Device * M)) unit :=
  match bs with [] => mret' tt | b :: bs => FdcWrite (kFdcBase + kRegFifo) b ;;; send bs end.

Fixpoint put_args (l : list Z) (k : Z) (bs : list Z) : list Z :=
  match bs with [] => l | b :: bs => put_args (arr_set l k b) (k + 1) bs end.

(** A controller waiting for a command. *)
Record fdc_idle d : Prop := {
  id_wf : fdc_wf d;
  id_phase : fd_phase d = kPhaseCommand;
  id_remaining : fd_cmd_remaining d = 0;
  id_reset : tst (fd_dor d) kDorNReset = true;
  id_status : fd_status0 d = 0;
  id_buf : Z.of_nat (length (fd_buf d)) = kFdcMaxTransfer;
  id_bytes : Forall (rng 8) (fd_buf d);
}.

Lemma FdcWrite_fifo b : FdcWrite (F:=F) (W:=I8237Device * M) (kFdcBase + kRegFifo) b = WriteFifo (u8 b).
Proof. reflexivity. Qed.

(** The parameters, one by one, and the command after the last. *)
Lemma send_args bs : forall d, tst (fd_dor d) kDorNReset = true -> tst (fd_msr d) kMsrRqm = true -> tst (fd_msr d) kMsrDio = false ->
  fd_phase d = kPhaseCommand -> fd_cmd_remaining d = Z.of_nat (length bs) -> bs <> [] -> 0 <= fd_cmd_cursor d ->
  fd_cmd_cursor d + Z.of_nat (length bs) <= 16 -> Forall (rng 8) bs ->
  send bs d = ExecuteCommand (d <| fd_cmd_args := put_args (fd_cmd_args d) (fd_cmd_cursor d) bs |>
    <| fd_cmd_cursor := fd_cmd_cursor d + Z.of_nat (length bs) |> <| fd_cmd_remaining := 0 |>).
Proof.
  induction bs as [|b bs IH]; intros d Hn Hq Hd Hp Hr Hne Hc Hl Hb; [done|]. inversion Hb as [|? ? Hb1 Hb2]; subst.
  cbn [send]. unfold mbind'. rewrite FdcWrite_fifo, (wrap_small 8 b Hb1). unfold WriteFifo. rewrite Hn, Hq, Hd, Hp. cbn [negb orb].
  change (kPhaseCommand =? kPhaseCommand) with true. cbn [negb]. cbn [length] in Hr, Hl. rewrite (proj2 (Z.eqb_neq (fd_cmd_remaining d) 0)) by lia.
  rewrite (proj2 (Z.ltb_lt (fd_cmd_cursor d) 16)) by lia.
  set (d1 := d <| fd_cmd_args := _ |> <| fd_cmd_cursor := _ |> <| fd_cmd_remaining := _ |>). change (fd_cmd_remaining d1) with (fd_cmd_remaining d - 1).
  destruct bs as [|b' bs'].
  - cbn [length] in Hr. rewrite (proj2 (Z.eqb_eq (fd_cmd_remaining d - 1) 0)) by lia. cbn [send put_args length].
    replace (d <| fd_cmd_args := _ |> <| fd_cmd_cursor := _ |> <| fd_cmd_remaining := 0 |>) with d1;
      [|subst d1; cbn; f_equal; lia]. destruct (ExecuteCommand d1) as [[] ?| |]; done.
  - rewrite (proj2 (Z.eqb_neq (fd_cmd_remaining d - 1) 0)) by (cbn [length] in Hr; lia). rewrite (IH d1); try done; [|subst d1; cbn in *; lia..].
    f_equal. subst d1. cbn -[Z.of_nat length put_args]. rewrite (Nat2Z.inj_succ (length (b' :: bs')) : Z.of_nat (length (b :: b' :: bs')) = _). cbn [put_args]. replace (fd_cmd_cursor d + Z.succ (Z.of_nat (length (b' :: bs')))) with (fd_cmd_cursor d + 1 + Z.of_nat (length (b' :: bs'))) by lia. reflexivity.
Qed.

(** A read or write command with its eight parameters. *)
Lemma send_rw (w : bool) code bs d : fdc_idle d -> rng 8 code -> DecodeCommand code = (if w then kCmdWrite else kCmdRead) -> length bs = 8%nat -> Forall (rng 8) bs ->
  exists d1, send (code :: bs) d = DoReadWrite w d1 /\ same_rest d d1 /\ fdc_base d1 /\ fd_status0 d1 = 0 /\
    (forall k, 0 <= k < 8 -> arg d1 k = bs !!! Z.to_nat k) /\ tst (fd_cmd_flags d1) kCmdMultiTrack = tst code kCmdMultiTrack.
Proof.
  intros Hi Hcr Hcode Hl Hb. pose proof (id_wf d Hi) as [Hbase [Hq Hph]].
  destruct Hph as [(Hp & Hd & _)|(Hp & _)]; [|rewrite (id_phase d Hi) in Hp; discriminate Hp].
  cbn [send]. unfold mbind'. rewrite FdcWrite_fifo, (wrap_small 8 code Hcr). unfold WriteFifo.
  rewrite (id_reset d Hi), Hq, Hd, Hp, (id_remaining d Hi). change (kPhaseCommand =? kPhaseCommand) with true. change (0 =? 0) with true. cbn [negb orb].
  set (d1 := d <| fd_cmd_code := code |> <| fd_cmd_cursor := 0 |> <| fd_cmd_flags := _ |> <| fd_cmd_remaining := _ |> <| fd_msr := _ |>).
  assert (Er : fd_cmd_remaining d1 = 8) by (unfold d1; cbn -[DecodeCommand ArgCount]; rewrite Hcode; by destruct w).
  rewrite Er. change (8 =? 0) with false. cbn iota.
  rewrite (send_args bs d1); [| | | | | | | | |].
  2: exact (id_reset d Hi).
  2: { change (fd_msr d1) with (fd_msr d .| kMsrCmdBusy). unfold tst in *. rewrite Z.land_lor_distr_l. change (kMsrCmdBusy .& kMsrRqm) with 0. by rewrite Z.lor_0_r. }
  2: { change (fd_msr d1) with (fd_msr d .| kMsrCmdBusy). unfold tst in *. rewrite Z.land_lor_distr_l. change (kMsrCmdBusy .& kMsrDio) with 0. by rewrite Z.lor_0_r. }
  2: exact Hp. 2: by rewrite Er, Hl. 2: by intros ->. 2: done. 2: by rewrite Hl. 2: done.
  set (d2 := d1 <| fd_cmd_args := _ |> <| fd_cmd_cursor := _ |> <| fd_cmd_remaining := 0 |>). unfold ExecuteCommand. cbn zeta.
  set (d3 := d2 <| fd_phase := _ |>). change (fd_cmd_code d3) with code. rewrite Hcode.
  exists d3. split; [by destruct w|]. split; [done|].
  assert (Ea : forall k, 0 <= k < 8 -> arr (put_args (fd_cmd_args d) 0 bs) k = bs !!! Z.to_nat k).
  { intros k Hk. pose proof (fb_args _ Hbase) as H16. destruct (fd_cmd_args d) as [|x0 l]; [done|]. do 7 (destruct l as [|? l]; [done|]).
    do 8 (destruct bs as [|? bs]; [done|]). destruct bs; [|done]. assert (E : k = 0 \/ k = 1 \/ k = 2 \/ k = 3 \/ k = 4 \/ k = 5 \/ k = 6 \/ k = 7) by lia.
    by repeat (destruct E as [->|E]; [done|]); subst k. }
  split; [|split; [exact (id_status d Hi)|split; [exact Ea|]]].
  - destruct Hbase. split; try done. unfold d3, d2, d1. cbn -[put_args]. clear -fb_args Hl. revert fb_args. generalize (fd_cmd_args d) 0. clear Hl.
    induction bs as [|b bs IH]; intros l z E; [done|]. cbn. apply IH. by rewrite length_arr_set.
  - unfold d3, d2, d1. cbn -[DecodeCommand]. rewrite Hcode. destruct w; destruct (tst code kCmdMultiTrack); done.
Qed.

(** ** The data phase *)

Context {lo hi : Z} `{!SysRam M lo hi}.

(** The DMA channel set up for [n] bytes at [a], in the direction of the command. *)
Record channel_set (w : bool) (dma : I8237Device) (a n : Z) : Prop := {
  cs_ready : dma_ready dma kFdcDmaChannel;
  cs_at : chan_at (arr (dm_ch dma) kFdcDmaChannel) = a;
  cs_count : ch_count (arr (dm_ch dma) kFdcDmaChannel) = n - 1;
  cs_mode : ch_mode (arr (dm_ch dma) kFdcDmaChannel) .& kI8237ModeDirection = if w then kI8237DirRead else kI8237DirWrite;
}.

(** What a finished transfer keeps of the DMA controller. *)
Definition dma_kept (dma dma' : I8237Device) : Prop :=
  length (dm_ch dma') = 8%nat /\ dm_command dma' = dm_command dma /\ dm_wired dma' = dm_wired dma.

Lemma advance_kept dma n : dma_ready dma kFdcDmaChannel -> 0 < n <= ch_count (arr (dm_ch dma) kFdcDmaChannel) + 1 ->
  dma_kept dma (dma_advance dma kFdcDmaChannel (ch_count (arr (dm_ch dma) kFdcDmaChannel) + 1) n).
Proof. intros Hr Hn. destruct (advance_regs dma kFdcDmaChannel n Hr Hn) as (_ & _ & _ & _ & _ & E1 & E2 & E3 & _). done. Qed.

Lemma dma_in dma m a n buf want : channel_set true dma a n -> 0 < n <= want -> want <= Z.of_nat (length buf) -> ram_ok m -> lo <= a -> a + n <= hi ->
  exists dma' m', OnFdcDma buf want (dma, m) = Some (n, bytes_of (ram_byte m) a (Z.to_nat n) ++ drop (Z.to_nat n) buf, (dma', m')) /\
    dma_kept dma dma' /\ ram_ok m' /\ forall k, ram_byte m' k = ram_byte m k.
Proof.
  intros [Hr Hat Hc Hm] Hn Hw Hok H1' H2'. assert (En : dma_moved dma kFdcDmaChannel want = n) by (unfold dma_moved; lia).
  destruct (transfer_from_memory dma kFdcDmaChannel buf want m Hr ltac:(lia) Hm Hok) as (m' & E & Hok' & K); [rewrite ?Hat, ?En; lia..|].
  rewrite Hat, En in E. unfold OnFdcDma. cbn [fst snd]. rewrite E. do 2 eexists. split; [done|]. split; [apply advance_kept; [done|lia]|]. done.
Qed.

Lemma dma_out dma m a n buf want : channel_set false dma a n -> 0 < n <= want -> want <= Z.of_nat (length buf) -> Forall (rng 8) buf -> ram_ok m -> lo <= a -> a + n <= hi ->
  exists dma' m', OnFdcDma buf want (dma, m) = Some (n, buf, (dma', m')) /\
    dma_kept dma dma' /\ ram_ok m' /\ patched (ram_byte m) (ram_byte m') a (take (Z.to_nat n) buf).
Proof.
  intros [Hr Hat Hc Hm] Hn Hw Hb Hok H1' H2'. assert (En : dma_moved dma kFdcDmaChannel want = n) by (unfold dma_moved; lia).
  destruct (transfer_to_memory dma kFdcDmaChannel buf want m Hr ltac:(lia) Hb Hm Hok) as (m' & E & Hok' & K); [rewrite ?Hat, ?En; lia..|].
  rewrite En in E. rewrite Hat, En in K. unfold OnFdcDma. cbn [fst snd]. rewrite E. do 2 eexists. split; [done|]. split; [apply advance_kept; [done|lia]|]. done.
Qed.

(** What the data phase leaves: the image and memory, the buffer still bytes. *)
Definition transferred (w : bool) (f f' : F) (m m' : M) (off a n : Z) : Prop :=
  f_size f' = f_size f /\ ram_ok m' /\
  if w then (forall k, ram_byte m' k = ram_byte m k) /\ patched (dk_byte f) (dk_byte f') off (bytes_of (ram_byte m) a (Z.to_nat n))
  else f' = f /\ patched (ram_byte m) (ram_byte m') a (bytes_of (dk_byte f) off (Z.to_nat n)).

Lemma move_data_ok (w : bool) d v f dma m a off n want : fdc_base d -> arr (fd_drives d) (fd_curr_drive d) = v -> fv_image v = Some f ->
  fd_world d = (dma, m) -> Z.of_nat (length (fd_buf d)) = kFdcMaxTransfer -> Forall (rng 8) (fd_buf d) -> channel_set w dma a n ->
  0 < n <= want -> want <= kFdcMaxTransfer -> 0 <= off -> off + n <= f_size f -> ram_ok m -> lo <= a -> a + n <= hi ->
  exists d' f' dma' m', move_data d w off want = Done n d' /\
    fd_world d' = (dma', m') /\ dma_kept dma dma' /\ transferred w f f' m m' off a n /\
    Z.of_nat (length (fd_buf d')) = kFdcMaxTransfer /\ Forall (rng 8) (fd_buf d') /\
    fd_drives d' = arr_set (fd_drives d) (fd_curr_drive d) (v <| fv_image := Some f' |>) /\
    fd_dor d' = fd_dor d /\ fd_curr_drive d' = fd_curr_drive d /\ fd_status0 d' = fd_status0 d.
Proof.
  intros Hb Hv Hf Hw Hl Hby Hcs Hn Hwant Ho Hs Hok H1' H2'. unfold move_data. rewrite Hv, Hf. destruct w.
  - destruct (dma_in dma m a n (fd_buf d) want Hcs Hn ltac:(lia) Hok H1' H2') as (dma' & m' & E & Hk & Hok' & K).
    unfold call_dma, fdc_dma, fdc_channel. rewrite Hw, E. cbn. rewrite (proj2 (Z.ltb_lt 0 n)) by lia.
    set (buf := bytes_of _ _ _ ++ _).
    assert (Hl2 : Z.of_nat (length buf) = kFdcMaxTransfer) by (unfold buf; rewrite length_app, length_bytes_of, length_drop; lia).
    assert (Hb2 : Forall (rng 8) buf) by (apply Forall_app; split; [apply bytes_of_rng; intros; apply sr_rng; lia|by apply Forall_drop]).
    unfold kFdcMaxTransfer, kFdcSectorSize in *. destruct (WriteAt_disk f off buf n) as (f' & Ew & Es & Ep); [lia..|done|]. rewrite Ew. cbn.
    do 4 eexists. split; [done|]. cbn. split; [done|]. split; [done|]. split; [|done]. split; [done|]. split; [done|]. split; [done|].
    unfold buf in Ep. rewrite take_app_length' in Ep by (rewrite length_bytes_of; lia). done.
  - set (want' := Z.to_nat (Z.min want (f_size f - off))).
    assert (Er : HostFileReadAt f off want = bytes_of (dk_byte f) off want') by (unfold kFdcMaxTransfer, kFdcSectorSize in *; apply ReadAt_end; lia).
    unfold read_into. rewrite Er. set (buf := _ ++ _).
    assert (Hl2 : Z.of_nat (length buf) = kFdcMaxTransfer) by (unfold buf; rewrite length_app, length_drop, length_bytes_of; lia).
    assert (Hb2 : Forall (rng 8) buf) by (apply Forall_app; split; [apply bytes_of_rng; intros; apply dk_rng|by apply Forall_drop]).
    destruct (dma_out dma m a n buf want Hcs Hn ltac:(lia) Hb2 Hok H1' H2') as (dma' & m' & E & Hk & Hok' & K).
    unfold call_dma, fdc_dma, fdc_channel. cbn. rewrite Hw, E. exists ((d <| fd_buf := buf |>) <| fd_buf := buf |> <| fd_world := (dma', m') |>), f, dma', m'.
    split; [done|]. cbn. split; [done|]. split; [done|]. split; [|split; [done|split; [done|split; [|done]]]].
    + split; [done|]. split; [done|]. split; [done|]. unfold buf in K. rewrite take_app_le in K by (rewrite length_bytes_of; lia).
      by rewrite bytes_of_take in K by lia.
    + assert (Ev : v <| fv_image := Some f |> = v) by (destruct v; cbn in *; by subst). rewrite Ev. symmetry. unfold arr_set.
      apply list_insert_id. rewrite <- Hv. apply list_lookup_lookup_total_lt. rewrite (fb_drives _ Hb). pose proof (fb_curr _ Hb). lia.
Qed.

(** ** The result phase *)

Lemma EndReadWrite_facts d : fdc_base d -> let d' := EndReadWrite d 0 0 0 in
  same_rest d d' /\ fd_phase d' = kPhaseResult /\ fd_resp_len d' = 7 /\ fd_resp_cursor d' = 0 /\ fd_irq d' = true /\
  arr (fd_resp d') 0 .& 0xc0 = fd_status0 d .& 0xc0.
Proof.
  intros Hb d'. subst d'. unfold EndReadWrite. cbn zeta.
  match goal with |- context [RaiseIrq (EnterResultPhase ?x 7)] => set (d1 := x) end.
  assert (B1 : fdc_base d1) by (unfold d1; do 7 apply base_resp; destruct Hb; by split).
  destruct (raise_facts (EnterResultPhase d1 7)) as (E1 & E2 & E3 & E4 & E5); [destruct B1; by split|].
  rewrite E1, E2, E3, E4, E5. split; [|repeat (split; [done|])].
  - eapply same_trans; [|apply raise_same]. done.
  - change (fd_resp (EnterResultPhase d1 7)) with (fd_resp d1). pose proof (fb_resp _ Hb) as H16. pose proof (fb_curr _ Hb) as Hc.
    unfold d1. cbn. rewrite !arr_set_ne by lia. rewrite arr_set_eq by lia. rewrite Z.lor_0_r.
    assert (G : forall x y : Z, (y = 0 \/ y = 1) -> forall z, (z = 0 \/ z = kSr0Head) -> ((x &~ (kSr0Drive .| kSr0Head)) .| y .| z) .& 0xc0 = x .& 0xc0).
    { intros x y Hy z Hz. rewrite !Z.land_lor_distr_l. replace (y .& 0xc0) with 0 by (destruct Hy as [-> | ->]; done).
      replace (z .& 0xc0) with 0 by (destruct Hz as [-> | ->]; done). rewrite !Z.lor_0_r. apply Z.bits_inj'. intros k Hk.
      rewrite !Z.land_spec, Z.ldiff_spec. change (kSr0Drive .| kSr0Head) with (Z.ones 3). destruct (Z.lt_ge_cases k 3).
      - change 0xc0 with (3 .<< 6). rewrite Z.shiftl_spec_low by lia. by rewrite !andb_false_r.
      - rewrite Z.ones_spec_high by lia. by rewrite andb_true_r. }
    rewrite (wrap_small 8 (fd_curr_drive d)) by (unfold rng; lia).
    destruct (negb _); [apply G; [lia|by right]|]. rewrite <- (Z.lor_0_r (_ .| fd_curr_drive d)). apply G; [lia|by left].
Qed.

(** A read or write command as it arrives: drive [i], cylinder, head and
    sector, 512-byte sectors up to [eot]. *)
Definition rw_args (arg0 c h s eot gap dtl : Z) : list Z := [arg0; c; h; s; 2; eot; gap; dtl].

(** The bytes the command asks for. *)
Definition rw_length (code s eot : Z) : Z := ((if tst code kCmdMultiTrack then 2 * eot else eot) - s + 1) * 512.

(** The place of a sector on the image: after the whole cylinders, heads and
    sectors before it, sectors counting from 1. *)
Definition sector_number (v : FdcDrive F) (c h s : Z) : Z := (s - 1) + fv_sectors v * (h + fv_heads v * c).

Lemma chs_sector v c h s : ChsToLba v c h s = sector_number v c h s.
Proof. unfold ChsToLba, sector_number. lia. Qed.

(** A drive with a writable image on which [n] sectors from [c], [h], [s] exist. *)
Record has_sectors v f (c h s n : Z) : Prop := {
  hs_image : fv_image v = Some f;
  hs_writable : fv_read_only v = false;
  hs_on : on_medium v c h s;
  hs_end : (sector_number v c h s + n) * 512 <= f_size f;
}.

(** The command itself, once its parameters are in. *)
Lemma DoReadWrite_runs (w : bool) d v f dma m a i c h s eot n :
  fdc_base d -> fd_status0 d = 0 -> (arg d 0 .& kDorSelect) .& 1 = i -> arg d 1 = c -> arg d 2 = h -> arg d 3 = s -> arg d 4 = 2 -> arg d 5 = eot ->
  arr (fd_drives d) i = v -> has_sectors v f c h s n -> 1 <= n -> n * 512 <= kFdcMaxTransfer ->
  n * 512 <= ((if tst (fd_cmd_flags d) kCmdMultiTrack then 2 * eot else eot) - s + 1) * 512 ->
  fd_world d = (dma, m) -> Z.of_nat (length (fd_buf d)) = kFdcMaxTransfer -> Forall (rng 8) (fd_buf d) ->
  channel_set w dma a (n * 512) -> ram_ok m -> lo <= a -> a + n * 512 <= hi ->
  exists d' f' dma' m', DoReadWrite w d = Done tt d' /\ fd_phase d' = kPhaseResult /\ fd_resp_len d' = 7 /\ fd_resp_cursor d' = 0 /\
    fd_irq d' = true /\ arr (fd_resp d') 0 .& 0xc0 = 0 /\ transferred w f f' m m' (ChsToLba v c h s * 512) a (n * 512) /\
    fd_world d' = (dma', m') /\ dma_kept dma dma' /\ fd_dor d' = fd_dor d /\ Z.of_nat (length (fd_buf d')) = kFdcMaxTransfer /\ Forall (rng 8) (fd_buf d') /\
    length (fd_drives d') = 2%nat /\ same_medium (v <| fv_image := Some f' |>) (arr (fd_drives d') i) /\
    forall j, 0 <= j -> j <> i -> arr (fd_drives d') j = arr (fd_drives d) j.
Proof.
  intros Hb Hst A0 A1 A2 A3 A4 A5 Hv [Hf Hro Hon Hend] Hn Hmax Hlen Hwd Hbl Hbb Hcs Hok H1' H2'. rewrite <- chs_sector in Hend. unfold DoReadWrite.
  assert (Hi : 0 <= i < 2) by (rewrite <- A0; exact (rng_land_ones (arg d 0 .& kDorSelect) 1 1 ltac:(lia))).
  rewrite A0. set (d1 := d <| fd_curr_drive := i |>). cbn zeta. change (fd_curr_drive d1) with i.
  change (arg d1 1) with (arg d 1). change (arg d1 2) with (arg d 2). change (arg d1 3) with (arg d 3). change (fd_drives d1) with (fd_drives d).
  rewrite A1, A2, A3, Hv. pose proof (SeekDrive_on v f c h s Hf Hon) as Hr. pose proof (SeekDrive_medium v h c s) as Hmed.
  destruct (SeekDrive v h c s) as [r v1]. cbn [fst snd] in Hr, Hmed. destruct Hmed as (M1 & M2 & M3 & M4 & M5).
  rewrite (proj2 (Z.eqb_neq r 2)), (proj2 (Z.eqb_neq r 3)) by lia. cbn [orb].
  set (d2 := put_drive d1 i v1). set (d3 := if r =? 1 then d2 <| fd_status0 := _ |> else d2).
  assert (Hb2 : fdc_base d2) by (apply base_drive; destruct Hb; by split).
  assert (Hb3 : fdc_base d3) by (unfold d3; destruct (r =? 1); [destruct Hb2; by split|done]).
  assert (Ed3 : fd_drives d3 = arr_set (fd_drives d) i v1 /\ fd_world d3 = fd_world d /\ fd_buf d3 = fd_buf d /\ fd_dor d3 = fd_dor d /\
    fd_curr_drive d3 = i /\ fd_status0 d3 .& 0xc0 = 0 /\ fd_cmd_flags d3 = fd_cmd_flags d /\ fd_cmd_args d3 = fd_cmd_args d).
  { unfold d3. destruct (r =? 1); cbn; repeat (split; [done|]); rewrite Hst; by split. }
  destruct Ed3 as (D1 & D2 & D3 & D4 & D5 & D6 & D7 & D8). clearbody d3.
  assert (Earg : forall k, arg d3 k = arg d k) by (intros k; unfold arg; by rewrite D8).
  rewrite Earg, A4. change (128 .<< (if 7 <? 2 then 7 else 2)) with 512. unfold data_length. change (512 =? 128) with false. cbn iota.
  rewrite !Earg, A5, A3, D7. set (L := if tst (fd_cmd_flags d) kCmdMultiTrack then (2 * eot - s + 1) * 512 else (eot - s + 1) * 512).
  assert (HL : n * 512 <= L) by (unfold L; by destruct (tst _ _)). rewrite (proj2 (Z.leb_gt L 0)) by lia. rewrite M5, Hro, andb_false_r.
  set (want := if kFdcMaxTransfer <? L then kFdcMaxTransfer else L).
  assert (Hwant : n * 512 <= want <= kFdcMaxTransfer) by (unfold want; destruct (Z.ltb_spec kFdcMaxTransfer L); lia).
  set (d4 := d3 <| fd_eot := u8 eot |> <| fd_msr := _ |>).
  assert (Eoff : ChsToLba v1 c h s = ChsToLba v c h s) by (unfold ChsToLba; by rewrite M3, M4). rewrite Eoff.
  assert (Hlba : 0 <= ChsToLba v c h s) by (destruct Hon as (O1 & O2 & O3); unfold ChsToLba; assert (0 <= c * fv_heads v) by nia; assert (0 <= (c * fv_heads v + h) * fv_sectors v) by (apply Z.mul_nonneg_nonneg; lia); lia).
  assert (Hdl : length (fd_drives d) = 2%nat) by (apply Hb).
  destruct (move_data_ok w d4 v1 f dma m a (ChsToLba v c h s * 512) (n * 512) want) as (d5 & f' & dma' & m' & E & V1 & V2 & V3 & V4 & V5 & V6 & V7 & V8 & V9).
  all: try (unfold d4; cbn; rewrite ?D1, ?D2, ?D3, ?D5; done).
  { destruct Hb3. by split. } { unfold d4. cbn. rewrite D1, D5. apply arr_set_eq. lia. } { by rewrite M1. } all: try lia.
  rewrite E. rewrite (proj2 (Z.leb_gt (n * 512) 0)) by lia. replace (n * 512 / 512) with n by (by rewrite Z.div_mul).
  pose proof (move_data_base d4 w (ChsToLba v c h s * 512) want) as Hb5. rewrite E in Hb5.
  assert (B5 : fdc_base d5) by (apply Hb5; destruct Hb3; by split).
  change (fd_drives d4) with (fd_drives d3) in V6. change (fd_curr_drive d4) with (fd_curr_drive d3) in V6, V8. change (fd_dor d4) with (fd_dor d3) in V7.
  change (fd_status0 d4) with (fd_status0 d3) in V9. rewrite D1, D5 in V6. rewrite D5 in V8. rewrite D4 in V7.
  destruct (Advance_frame (Z.to_nat n) d5 i Hi (fb_drives _ B5)) as (F1 & F2 & F3 & F4 & F5 & F6 & F7 & F8).
  set (d6 := AdvanceHead (Z.to_nat n) d5 i) in *.
  destruct (EndReadWrite_facts d6) as (G1 & G2 & G3 & G4 & G5 & G6); [by apply base_advance|]. destruct G1 as (K1 & K2 & K3 & K4 & K5).
  exists (EndReadWrite d6 0 0 0), f', dma', m'. split; [done|]. split; [done|]. split; [done|]. split; [done|]. split; [done|].
  rewrite G6, F8, V9, K1, K2, K3, K4, F4, F5, F6, V7. split; [done|]. split; [done|]. split; [done|]. split; [done|]. split; [done|]. split; [done|]. split; [done|].
  split; [done|]. rewrite V6 in F2, F3. rewrite arr_set_eq in F2 by (rewrite length_arr_set; lia). split.
  - destruct F2 as (a1 & a2 & a3 & a4 & a5). cbn in a1, a2, a3, a4, a5. repeat split; cbn; congruence.
  - intros j Hj Hne. rewrite F3 by done. rewrite !arr_set_ne by lia. done.
Qed.

Lemma rw_command (w : bool) code arg0 c h s eot gap dtl n d v f dma m a :
  fdc_idle d -> rng 8 code -> DecodeCommand code = (if w then kCmdWrite else kCmdRead) -> Forall (rng 8) (rw_args arg0 c h s eot gap dtl) ->
  arr (fd_drives d) ((arg0 .& 3) .& 1) = v -> has_sectors v f c h s n ->
  1 <= n -> n * 512 <= kFdcMaxTransfer -> n * 512 <= rw_length code s eot ->
  fd_world d = (dma, m) -> channel_set w dma a (n * 512) -> ram_ok m -> lo <= a -> a + n * 512 <= hi ->
  exists d' f' dma' m', send (code :: rw_args arg0 c h s eot gap dtl) d = Done tt d' /\
    fd_irq d' = true /\ arr (fd_resp d') 0 .& 0xc0 = 0 /\
    transferred w f f' m m' (ChsToLba v c h s * 512) a (n * 512) /\
    fd_world d' = (dma', m') /\ dma_kept dma dma' /\
    fd_drives d' !! Z.to_nat ((arg0 .& 3) .& 1) <> None /\
    (let v' := arr (fd_drives d') ((arg0 .& 3) .& 1) in
     same_medium (v <| fv_image := Some f' |>) v' /\ forall j, 0 <= j -> j <> (arg0 .& 3) .& 1 -> arr (fd_drives d') j = arr (fd_drives d) j) /\
    (exists rs d'', read_fifo 7 d' = (rs, d'') /\ rs = take 7 (fd_resp d') /\ length rs = 7%nat /\ fdc_idle d'' /\ same_rest d' d'' /\ fd_irq d'' = false).
Proof.
  intros Hid Hcr Hcode Hargs Hv [Hf Hro Hon Hend] Hn Hmax Hlen Hwd Hcs Hok H1' H2'. set (i := (arg0 .& 3) .& 1) in *.
  assert (Hi : 0 <= i < 2) by (change 1 with (2 ^ 1 - 1) in i; exact (rng_land_ones (arg0 .& 3) 1 1 ltac:(lia))).
  destruct (send_rw w code (rw_args arg0 c h s eot gap dtl) d Hid Hcr Hcode eq_refl Hargs) as (d1 & Es & Hsame & Hb1 & Hst & Harg & Hmt).
  assert (Hwf := DoReadWrite_ok w d1 Hb1). unfold wp in Hwf.
  destruct Hsame as (S1 & S2 & S3 & S4 & _).
  assert (A0 : arg d1 0 = arg0) by (by rewrite Harg by lia). assert (A1 : arg d1 1 = c) by (by rewrite Harg by lia).
  assert (A2 : arg d1 2 = h) by (by rewrite Harg by lia). assert (A3 : arg d1 3 = s) by (by rewrite Harg by lia).
  assert (A4 : arg d1 4 = 2) by (by rewrite Harg by lia). assert (A5 : arg d1 5 = eot) by (by rewrite Harg by lia).
  assert (Hrun : exists d' f' dma' m', DoReadWrite w d1 = Done tt d' /\ fd_phase d' = kPhaseResult /\ fd_resp_len d' = 7 /\ fd_resp_cursor d' = 0 /\
    fd_irq d' = true /\ arr (fd_resp d') 0 .& 0xc0 = 0 /\ transferred w f f' m m' (ChsToLba v c h s * 512) a (n * 512) /\
    fd_world d' = (dma', m') /\ dma_kept dma dma' /\ fd_dor d' = fd_dor d /\ Z.of_nat (length (fd_buf d')) = kFdcMaxTransfer /\ Forall (rng 8) (fd_buf d') /\
    length (fd_drives d') = 2%nat /\ same_medium (v <| fv_image := Some f' |>) (arr (fd_drives d') i) /\
    forall j, 0 <= j -> j <> i -> arr (fd_drives d') j = arr (fd_drives d) j).
  { pose proof (DoReadWrite_runs w d1 v f dma m a i c h s eot n) as R. rewrite S1, S2, S3, S4, Hmt in R.
    apply R; try done; [by rewrite A0|apply Hid|apply Hid]. }
  destruct Hrun as (d' & f' & dma' & m' & E & R1 & R2 & R3 & R4 & R5 & R6 & R7 & R8 & R9 & R10 & R11 & R12 & R13 & R14).
  rewrite E in Hwf. exists d', f', dma', m'. rewrite Es, E. repeat (split; [done|]). split.
  { destruct (lookup_lt_is_Some_2 (fd_drives d') (Z.to_nat i)) as [x Hx]; [lia|]. by rewrite Hx. }
  split; [done|]. pose proof (read_fifo_drains 6 d' Hwf R1 ltac:(lia)) as (D0 & D1 & D2 & D3).
  pose proof (read_fifo_same 7 d') as Dsame. pose proof (read_fifo_wf 7 d' Hwf) as Dwf. pose proof (drain_status0 6 d' Hwf R1 ltac:(lia)) as D4.
  destruct (read_fifo 7 d') as [rs d'']. cbn [fst snd] in *. exists rs, d''. split; [done|].
  rewrite R3 in D0. split; [done|]. split; [rewrite D0, length_take; change (drop (Z.to_nat 0) ?l) with l; by rewrite (fb_resp _ (proj1 Hwf))|]. split; [|done].
  destruct Dsame as (T1 & T2 & T3 & T4 & T5). split; try done; [by rewrite T4, R9; apply Hid|by rewrite T3|by rewrite T3].
Qed.

(** ** Whole transfers *)

(** What a driver does for [n] bytes at [a]: program channel 2, send the
    multi-track command, collect the seven result bytes. *)
Definition floppy_rw (w : bool) (args : list Z) (a n : Z) d : outcome (FdcDevice F (I8237Device * M)) (list Z) :=
  let dma := port_writes (fst (fd_world d)) (channel2_setup a (n - 1) (if w then kModeFromMemory else kModeToMemory)) in
  match send ((if w then 0xc5 else 0xe6) :: args) (d <| fd_world := (dma, snd (fd_world d)) |>) with
  | Done _ d => let '(rs, d) := read_fifo 7 d in Done rs d
  | Raised t d => Raised t d
  | Aborted r => Aborted r
  end.

Record dma_usable (dma : I8237Device) : Prop := {
  du_length : length (dm_ch dma) = 8%nat;
  du_enabled : tst (dm_command dma) kI8237CmdDisable = false;
  du_wired : dm_wired dma = true;
}.

(** The [n] sectors a multi-track command at head [h], sector [s] is sent for:
    they lie on that side of the track up to EOT, or EOT is the track's last
    sector and they run from side 0 on to side 1. *)
Definition track_span v (h s eot n : Z) : Prop :=
  s + n - 1 <= eot <= fv_sectors v \/ (eot = fv_sectors v /\ h = 0 /\ fv_heads v = 2 /\ s + n - 1 <= 2 * eot).

(** A transfer of [n] bytes that stays in the 64 KiB page of its address. *)
Definition in_dma_page (a n : Z) : Prop := a mod 65536 + n <= 65536.

(** Every transfer the code accepts, a page crossed or an EOT below the end of
    the track included: the image's sectors follow one another, and so do the
    addresses. *)
Lemma floppy_rw_ok (w : bool) arg0 c h s eot gap dtl n d v f dma m a :
  fdc_idle d -> Forall (rng 8) (rw_args arg0 c h s eot gap dtl) -> arr (fd_drives d) ((arg0 .& 3) .& 1) = v -> has_sectors v f c h s n ->
  1 <= n -> n * 512 <= kFdcMaxTransfer -> n <= 2 * eot - s + 1 ->
  fd_world d = (dma, m) -> dma_usable dma -> ram_ok m -> rng 24 a -> lo <= a -> a + n * 512 <= hi ->
  exists rs d' f' dma' m', floppy_rw w (rw_args arg0 c h s eot gap dtl) a (n * 512) d = Done rs d' /\
    fdc_idle d' /\ fd_irq d' = false /\ length rs = 7%nat /\ arr rs 0 .& 0xc0 = 0 /\
    transferred w f f' m m' (ChsToLba v c h s * 512) a (n * 512) /\ fd_world d' = (dma', m') /\ dma_usable dma' /\
    same_medium (v <| fv_image := Some f' |>) (arr (fd_drives d') ((arg0 .& 3) .& 1)) /\
    (forall j, 0 <= j -> j <> (arg0 .& 3) .& 1 -> arr (fd_drives d') j = arr (fd_drives d) j).
Proof.
  intros Hid Hargs Hv Hs Hn Hmax Hlen Hw [U1 U2 U3] Hok Ha H1' H2'. unfold floppy_rw. rewrite Hw. cbn [fst snd].
  assert (Hc16 : rng 16 (n * 512 - 1)) by (unfold rng, kFdcMaxTransfer, kFdcSectorSize in *; lia).
  destruct (programmed_ready dma a (n * 512 - 1) (if w then kModeFromMemory else kModeToMemory) U1 U2 U3 Ha Hc16) as (P1 & P2 & P3 & P4 & _);
    [destruct w; [by right|by left]|].
  assert (K : dma_usable (port_writes dma (channel2_setup a (n * 512 - 1) (if w then kModeFromMemory else kModeToMemory)))).
  { destruct P1 as [_ L1 L2 L3 _ _ _]. by split. }
  set (dma0 := port_writes _ _) in *. clearbody dma0. set (d0 := d <| fd_world := (dma0, m) |>).
  assert (Hid0 : fdc_idle d0) by (destruct Hid as [[[] ?] ? ? ? ? ? ?]; split; try done; by split; [split|]).
  destruct (rw_command w (if w then 0xc5 else 0xe6) arg0 c h s eot gap dtl n d0 v f dma0 m a) as (d1 & f' & dma' & m' & E & R1 & R2 & R3 & R4 & R5 & _ & (R6 & R7) & rs & d2 & E2 & R8 & R8' & R9 & R10 & R11); try done.
  - destruct w; unfold rng; lia.
  - by destruct w.
  - unfold rw_length. replace (tst (if w then 0xc5 else 0xe6) kCmdMultiTrack) with true by (by destruct w). lia.
  - split; [exact P1|exact P2|exact P3|]. change kFdcDmaChannel with 2. rewrite P4. by destruct w.
  - rewrite E, E2. exists rs, d2, f', dma', m'. destruct R10 as (T1 & T2 & _). rewrite T1, T2. repeat (split; [done|]). split.
    { rewrite R8. unfold arr. rewrite lookup_total_take_lt; [done|]. change (Z.to_nat 0) with 0%nat. lia. }
    split; [done|]. split; [done|]. split; [|done]. destruct K as [_ Kb Kc], R5 as (Q1 & Q2 & Q3). split; congruence.
Qed.

(** C17: a floppy keeps what is written to it: from an idle controller with a formatted writable
    image, programming DMA channel 2, sending a multi-track WRITE command for up to 72 sectors of
    512 bytes through the data register and collecting the seven result bytes puts exactly those
    bytes of guest memory into the image's sectors; a READ of the same sectors to another address
    puts them into memory there, nothing else of memory or image changes, both commands report
    normal termination, and the controller is idle with its interrupt line down. The sectors lie on
    one side up to EOT, or run on to the second side with EOT the last sector of the track, and
    neither transfer crosses a 64 KiB page of the DMA channel: outside those the code departs from
    its comments (reported as divergences). *)
Theorem floppy_write_read_back arg0 c h s eot gap dtl n d v f dma m a b :
  fdc_idle d -> Forall (rng 8) (rw_args arg0 c h s eot gap dtl) -> arr (fd_drives d) ((arg0 .& 3) .& 1) = v -> has_sectors v f c h s n ->
  1 <= n -> n * 512 <= kFdcMaxTransfer -> track_span v h s eot n -> in_dma_page a (n * 512) -> in_dma_page b (n * 512) ->
  fd_world d = (dma, m) -> dma_usable dma -> ram_ok m -> rng 24 a -> rng 24 b -> lo <= a -> a + n * 512 <= hi -> lo <= b -> b + n * 512 <= hi ->
  let args := rw_args arg0 c h s eot gap dtl in
  let data := bytes_of (ram_byte m) a (Z.to_nat (n * 512)) in
  exists rs1 d1 rs2 d2 f' m2, floppy_rw true args a (n * 512) d = Done rs1 d1 /\ floppy_rw false args b (n * 512) d1 = Done rs2 d2 /\
    patched (dk_byte f) (dk_byte f') (sector_number v c h s * 512) data /\ fv_image (arr (fd_drives d2) ((arg0 .& 3) .& 1)) = Some f' /\
    patched (ram_byte m) (ram_byte m2) b data /\ snd (fd_world d2) = m2 /\
    arr rs1 0 .& 0xc0 = 0 /\ arr rs2 0 .& 0xc0 = 0 /\ fdc_idle d2 /\ fd_irq d2 = false.
Proof.
  intros Hid Hargs Hv Hs Hn Hmax Hspan _ _ Hw Hu Hok Ha Hb A1 A2 B1 B2 args data. rewrite <- chs_sector.
  assert (Hlen : n <= 2 * eot - s + 1) by (destruct Hspan as [?|(? & _ & _ & ?)]; [|lia]; destruct Hs as [_ _ (_ & _ & ?) _]; lia).
  destruct (floppy_rw_ok true arg0 c h s eot gap dtl n d v f dma m a) as (rs1 & d1 & f' & dma1 & m1 & E1 & I1 & _ & _ & S1 & T1 & W1 & U1 & M1 & _); [done..|].
  destruct T1 as (Z1 & O1 & K1 & P1). set (v1 := arr (fd_drives d1) ((arg0 .& 3) .& 1)) in *.
  destruct M1 as (Q1 & Q2 & Q3 & Q4 & Q5). cbn in Q1, Q2, Q3, Q4, Q5.
  assert (Hl : ChsToLba v1 c h s = ChsToLba v c h s) by (unfold ChsToLba; by rewrite Q3, Q4).
  assert (Hs1 : has_sectors v1 f' c h s n).
  { destruct Hs as [G1 G2 (G3 & G4 & G5) G6]. split; [done|by rewrite Q5| |by rewrite <- chs_sector, Hl, chs_sector, Z1]. unfold on_medium. by rewrite Q2, Q3, Q4. }
  destruct (floppy_rw_ok false arg0 c h s eot gap dtl n d1 v1 f' dma1 m1 b) as (rs2 & d2 & f2 & dma2 & m2 & E2 & I2 & R2 & _ & S2 & T2 & W2 & _ & M2 & _); [done..|].
  destruct T2 as (_ & _ & -> & P2). exists rs1, d1, rs2, d2, f', m2. rewrite W2. destruct M2 as (N1 & _). cbn in N1.
  repeat (split; [done|]). split; [|done]. rewrite Hl in P2.
  assert (Ed : bytes_of (dk_byte f') (ChsToLba v c h s * 512) (Z.to_nat (n * 512)) = data).
  { destruct P1 as [P1 _]. rewrite length_bytes_of in P1. exact P1. }
  rewrite Ed in P2. destruct P2 as [P2 P3]. split; [done|]. intros k Hk. by rewrite P3, K1.
Qed.
End disk.

From S2P Require Import Bus Ram RvState X86State X86Board X86IntProps.

(** * A PC's memory and disk images, concretely

    The megabyte of RAM of [X86Board] as the memory the bus masters work on, a
    disk image as a finite map, and the runs that show the floppy's theorems at
    work: channel programming, a sector written and read back, a command that
    leaves the drive array. *)

(** ** Memory *)

#[export] Instance pc_bytes : HostBytes pc_ops unit PcWorld := hw_bytes.

#[export] Instance pc_flat : FlatRam pc_mem_bus 0 0x100000 (HostPtr tt 0).
Proof.
  split; [lia|apply pc_mem_bus_wf|]. intros a Ha. exists pc_ram_region, (HostPtr tt 0). split; [|split; [reflexivity|done]].
  apply pc_decode; lia.
Qed.

Abbreviation PcMem := (SysMem pc_ops unit PcWorld).
#[export] Instance pc_sysram : SysRam PcMem 0 0x100000 := board_sysram pc_mem_bus 0 0x100000 (HostPtr tt 0).

Definition pc_mem (ram : gmap Z Z) : PcMem := mkSys pc_mem_bus (mkPc ram []) [].

Lemma pc_mem_ok ram : ram_ok (pc_mem ram).
Proof. split; [apply pc_mem_bus_wf|done]. Qed.

(** ** Images *)

(** A file of a fixed size; bytes never written are zero. *)
Record map_file := mkMapFile { mf_size : Z; mf_map : gmap Z Z }.
Definition mf_byte (f : map_file) (k : Z) : Z := u8 (mem_get (mf_map f) k).

#[export] Instance map_file_ops : HostFileOps map_file := {
  f_pread f off n := bytes_of (mf_byte f) off (Z.to_nat (Z.min n (mf_size f - off)));
  f_pwrite f off bs :=
    if off + Z.of_nat (length bs) <=? mf_size f then (mkMapFile (mf_size f) (store_bytes (mf_map f) off bs), Z.of_nat (length bs)) else (f, 0);
  f_size := mf_size;
}.

#[export] Instance map_file_disk : DiskFile map_file.
Proof.
  refine {| dk_byte := mf_byte |}.
  - intros f k. apply rng_wrap. lia.
  - done.
  - intros f off bs Ho Hs Hb. cbn in *. rewrite (proj2 (Z.leb_le _ _) Hs). eexists. split; [done|]. split; [done|]. split.
    + apply bytes_of_list. intros i Hi. unfold mf_byte, from. cbn. rewrite mem_get_store, bool_decide_true by lia.
      replace (Z.to_nat (off + Z.of_nat i - off)) with i by lia. apply wrap_small.
      exact (proj1 (Forall_lookup _ bs) Hb i _ (list_lookup_lookup_total_lt bs i Hi)).
    + intros k Hk. unfold mf_byte. cbn. by rewrite mem_get_store, bool_decide_false.
Defined.

(** ** The DMA controller *)

Definition dma0 : I8237Device := I8237SetMemBus I8237Init.
Definition mem0 : PcMem := pc_mem (store_bytes ∅ 0x1000 [1; 2; 3; 4]).

Lemma dma_programmed_transfer_witness : exists d' m',
  I8237Transfer (port_writes dma0 (channel2_setup 0x2fffe (4 - 1) kModeToMemory)) 2 [7; 8; 9] 3 mem0 = Some (3, d', [7; 8; 9], m') /\
  patched (ram_byte mem0) (ram_byte m') 0x2fffe [7; 8; 9].
Proof.
  assert (Hb : Forall (rng 8) [7; 8; 9]) by (repeat (apply Forall_cons_2; [unfold rng; lia|]); apply Forall_nil_2).
  destruct (dma_programmed_transfer (lo:=0) (hi:=0x100000) dma0 0x2fffe 4 [7; 8; 9] 3 mem0 eq_refl eq_refl eq_refl ltac:(lia) ltac:(unfold rng; lia) ltac:(lia) ltac:(lia)
    (pc_mem_ok _) ltac:(cbn; lia) Hb) as ((d' & m' & E & K & _) & _).
  exists d', m'. split; [exact E|exact K].
Defined.

(** ** A floppy in drive A *)

Abbreviation Floppy := (FdcDevice map_file (I8237Device * PcMem)).
#[local] Existing Instance fdc_channel.

(** A blank 160 KiB disk of 40 cylinders with 8 sectors. *)
Definition image0 : map_file := mkMapFile 163840 ∅.
Definition floppy0 : Floppy := snd (FdcAttach (FdcSetIrqSink (FdcInit (dma0, mem0))) 0 (Some image0)).

Lemma floppy0_reach : fdc_reach floppy0.
Proof. apply fr_attach, fr_init. Qed.

Lemma floppy0_idle : fdc_idle floppy0.
Proof.
  split; [apply fdc_reach_wf, floppy0_reach|reflexivity..| |].
  - change (fd_buf floppy0) with (replicate (Z.to_nat kFdcMaxTransfer) 0). rewrite length_replicate. apply Z2Nat.id. by vm_compute.
  - change (fd_buf floppy0) with (replicate (Z.to_nat kFdcMaxTransfer) 0). apply Forall_replicate. unfold rng. lia.
Qed.

(** Cylinder 3, head 0, sector 5: one sector from 0x1000 to the disk, and back to 0x8000. *)
Lemma floppy_write_read_back_witness : exists rs1 d1 rs2 (d2 : Floppy),
  floppy_rw true (rw_args 0 3 0 5 8 27 255) 0x1000 (1 * 512) floppy0 = Done rs1 d1 /\
  floppy_rw false (rw_args 0 3 0 5 8 27 255) 0x8000 (1 * 512) d1 = Done rs2 d2 /\
  bytes_of (ram_byte (snd (fd_world d2))) 0x8000 512 = bytes_of (ram_byte mem0) 0x1000 512 /\ fd_irq d2 = false.
Proof.
  assert (Hb : Forall (rng 8) (rw_args 0 3 0 5 8 27 255)) by (repeat (apply Forall_cons_2; [unfold rng; lia|]); apply Forall_nil_2).
  assert (Hs : has_sectors (arr (fd_drives floppy0) 0) image0 3 0 5 1).
  { split; [reflexivity|reflexivity| |]; [unfold on_medium|]; vm_compute; repeat split; congruence. }
  assert (Hu : dma_usable dma0) by (split; reflexivity).
  assert (Ht : track_span (arr (fd_drives floppy0) 0) 0 5 8 1) by (left; vm_compute; split; congruence).
  destruct (floppy_write_read_back (lo:=0) (hi:=0x100000) 0 3 0 5 8 27 255 1 floppy0 (arr (fd_drives floppy0) 0) image0 dma0 mem0 0x1000 0x8000 floppy0_idle Hb eq_refl Hs
    ltac:(lia) ltac:(vm_compute; congruence) Ht ltac:(by vm_compute) ltac:(by vm_compute) eq_refl Hu (pc_mem_ok _) ltac:(unfold rng; lia) ltac:(unfold rng; lia) ltac:(lia) ltac:(lia) ltac:(lia) ltac:(lia))
    as (rs1 & d1 & rs2 & d2 & f' & m2 & E1 & E2 & _ & _ & [K _] & Em & _ & _ & _ & R).
  exists rs1, d1, rs2, d2. rewrite Em. rewrite length_bytes_of in K. split; [exact E1|]. split; [exact E2|]. split; [exact K|exact R].
Defined.

(** A port write that completes. *)
Definition port_step (addr val : Z) (d : Floppy) : Floppy := match FdcWrite addr val d with Done _ d' => d' | _ => d end.

Lemma port_step_reach addr val d : fdc_reach d -> fdc_reach (port_step addr val d).
Proof. intros Hd. unfold port_step. destruct (FdcWrite addr val d) as [[] d'| |] eqn:E; [by eapply fr_write|done..]. Qed.

(** The reset line taken low and high again: four interrupts are owed. *)
Definition floppy1 : Floppy := port_step (kFdcBase + kRegDor) 0x1c (port_step (kFdcBase + kRegDor) 0x00 floppy0).

Lemma floppy1_reach : fdc_reach floppy1.
Proof. apply port_step_reach, port_step_reach, floppy0_reach. Qed.

Lemma fdc_handshake_witness : tst (fd_msr floppy1) kMsrRqm = true /\ tst (fd_sra floppy1) kSraIntPend = fd_irq floppy1.
Proof. destruct (fdc_handshake floppy1 floppy1_reach) as (E & _ & _ & _ & _ & _ & E2 & _). split; [exact E|exact E2]. Defined.

(** SENSE INTERRUPT STATUS and its two result bytes. *)
Definition floppy2 : Floppy := port_step (kFdcBase + kRegFifo) 0x08 floppy1.

Lemma floppy2_reach : fdc_reach floppy2.
Proof. apply port_step_reach, floppy1_reach. Qed.

Lemma fdc_results_drain_witness : let n := Z.to_nat (fd_resp_len floppy2 - fd_resp_cursor floppy2) in
  (0 < n <= 7)%nat /\ fd_phase (snd (read_fifo n floppy2)) = kPhaseCommand /\ fd_irq (snd (read_fifo n floppy2)) = false.
Proof.
  assert (P : fd_phase floppy2 = kPhaseResult) by (vm_compute; reflexivity).
  destruct (fdc_results_drain floppy2 floppy2_reach P) as (N & _ & E & _ & R). split; [exact N|]. split; [exact E|exact R].
Defined.

(** SEEK on drive 2, one byte short. *)
Definition floppy3 : Floppy := port_step (kFdcBase + kRegFifo) 0x02 (port_step (kFdcBase + kRegFifo) 0x0f floppy0).

Lemma floppy3_reach : fdc_reach floppy3.
Proof. apply port_step_reach, port_step_reach, floppy0_reach. Qed.

Lemma fdc_drive_oob_witness : FdcWrite (kFdcBase + kRegFifo) 10 floppy3 = Aborted OutOfBounds.
Proof.
  assert (C : tst (fd_dor floppy3) kDorNReset = true /\ fd_phase floppy3 = kPhaseCommand /\ fd_cmd_remaining floppy3 = 1 /\
    selects_drive (DecodeCommand (fd_cmd_code floppy3)) = true /\ (2 <=? (if fd_cmd_cursor floppy3 =? 0 then u8 10 else arg floppy3 0) .& kDorSelect) = true)
    by (vm_compute; repeat split).
  destruct C as (C1 & C2 & C3 & C4 & C5%Z.leb_le).
  destruct (fdc_drive_oob floppy3 (kFdcBase + kRegFifo) 10 floppy3_reach) as [_ [_ R]]. apply R.
  split; [reflexivity|]. split; [exact C1|]. split; [exact C2|]. split; [exact C3|]. split; [exact C4|exact C5].
Defined.
