(* ===== verification/Cmos.v ===== *)
(** * The real-time clock (device/misc/cmos.c)

    First the calendar, then the chip with its registers and interrupt line.
    Days since 1970-01-01 and civil dates, in the era arithmetic the code uses,
    against the Gregorian calendar, stated as the day number of a date that
    starts at 0 and goes up by one with each day.  The dates computed from days
    are the calendar's; the days computed from dates are one month late from
    March on.  C's division truncates; the unsigned intermediates stay far
    below 2^32. *)

From S2P Require Import Prelude.

Definition DaysFromCivil (y m d : Z) : Z :=
  let y := y - (if m <=? 2 then 1 else 0) in
  let era := Z.quot (if 0 <=? y then y else y - 399) 400 in
  let yoe := y - era * 400 in
  let doy := (153 * (if 2 <? m then m - 2 else m + 9) + 2) / 5 + d - 1 in
  let doe := yoe * 365 + yoe / 4 - yoe / 100 + doy in
  era * 146097 + doe - 719468.

Definition CivilFromDays (z : Z) : Z * Z * Z :=
  let z := z + 719468 in
  let era := Z.quot (if 0 <=? z then z else z - 146096) 146097 in
  let doe := z - era * 146097 in
  let yoe := (doe - doe / 1460 + doe / 36524 - doe / 146096) / 365 in
  let yy := yoe + era * 400 in
  let doy := doe - (365 * yoe + yoe / 4 - yoe / 100) in
  let mp := (5 * doy + 2) / 153 in
  let dd := doy - (153 * mp + 2) / 5 + 1 in
  let mm := mp + (if mp <? 10 then 3 else -9) in
  (yy + (if mm <=? 2 then 1 else 0), mm, dd).

(** ** The Gregorian calendar *)

Definition is_leap (y : Z) : bool := (y mod 4 =? 0) && (negb (y mod 100 =? 0) || (y mod 400 =? 0)).

Definition month_length (y m : Z) : Z :=
  switch m [(2, if is_leap y then 29 else 28); (4, 30); (6, 30); (9, 30); (11, 30)] 31.

(** Days since 1970-01-01 of a date: whole years, the months before it, the days
    before it. *)
Definition leap_days (y : Z) : Z := y / 4 - y / 100 + y / 400.
Definition month_start (y m : Z) : Z := fold_left (fun n k => if k <? m then n + month_length y k else n) [1; 2; 3; 4; 5; 6; 7; 8; 9; 10; 11] 0.
Definition day_number (y m d : Z) : Z := 365 * (y - 1970) + (leap_days (y - 1) - leap_days 1969) + month_start y m + (d - 1).

Definition valid_date (y m d : Z) : Prop := 1 <= m <= 12 /\ 1 <= d <= month_length y m.

(** ** Eras *)

Lemma era_floor z k : 0 < k -> Z.quot (if 0 <=? z then z else z - (k - 1)) k = z / k.
Proof.
  intros Hk. destruct (Z.leb_spec 0 z); [by apply Z.quot_div_nonneg|].
  assert (E : z - (k - 1) = - (k - 1 - z)) by lia. rewrite E, Z.quot_opp_l, Z.quot_div_nonneg by lia.
  apply Z.div_unique with (r := z + k * ((k - 1 - z) / k)); [|lia]. left.
  pose proof (Z.mod_pos_bound (k - 1 - z) k Hk). pose proof (Z.div_mod (k - 1 - z) k ltac:(lia)). lia.
Qed.

(** First day of a March-based year inside its era. *)
Definition year_start (yoe : Z) : Z := 365 * yoe + yoe / 4 - yoe / 100.

(** The numerator of the year of a day of the era. *)
Definition year_num (doe : Z) : Z := doe - doe / 1460 + doe / 36524 - doe / 146096.

Lemma year_num_step x : 0 <= x < 146096 -> year_num x <= year_num (x + 1).
Proof. intros Hx. unfold year_num. Z.to_euclidean_division_equations. lia. Qed.

Lemma year_num_mono x n : 0 <= x -> x + Z.of_nat n <= 146096 -> year_num x <= year_num (x + Z.of_nat n).
Proof.
  intros Hx. induction n as [|n IH]; intros Hn; [by rewrite Z.add_0_r|].
  pose proof (year_num_step (x + Z.of_nat n) ltac:(lia)). replace (x + Z.of_nat (S n)) with (x + Z.of_nat n + 1) by lia. lia.
Qed.

Definition year_end (yoe : Z) : Z := if yoe =? 399 then 146096 else year_start (yoe + 1) - 1.

Definition year_check (yoe : Z) : bool :=
  (year_num (year_start yoe) / 365 =? yoe) && (year_num (year_end yoe) / 365 =? yoe).

Lemma years_checked : forallb (fun i => year_check (Z.of_nat i)) (seq 0 400) = true.
Proof. vm_compute. reflexivity. Qed.

Lemma year_checked yoe : 0 <= yoe < 400 -> year_check yoe = true.
Proof.
  intros Hy. pose proof years_checked as C. rewrite forallb_forall in C. rewrite <- (Z2Nat.id yoe) by lia. apply C.
  apply in_seq. lia.
Qed.

(** A day between the ends of a year has that year. *)
Lemma year_of_day yoe doe : 0 <= yoe < 400 -> year_start yoe <= doe <= year_end yoe -> year_num doe / 365 = yoe.
Proof.
  intros Hy Hd. pose proof (year_checked yoe Hy) as C. unfold year_check in C. apply andb_true_iff in C as [C1%Z.eqb_eq C2%Z.eqb_eq].
  assert (Hs : 0 <= year_start yoe) by (unfold year_start; Z.to_euclidean_division_equations; lia).
  assert (He : year_end yoe <= 146096).
  { unfold year_end, year_start. destruct (Z.eqb_spec yoe 399); Z.to_euclidean_division_equations; lia. }
  pose proof (year_num_mono (year_start yoe) (Z.to_nat (doe - year_start yoe)) Hs) as M1.
  pose proof (year_num_mono doe (Z.to_nat (year_end yoe - doe))) as M2. rewrite Z2Nat.id in M1, M2 by lia.
  replace (year_start yoe + (doe - year_start yoe)) with doe in M1 by lia. replace (doe + (year_end yoe - doe)) with (year_end yoe) in M2 by lia.
  specialize (M1 ltac:(lia)). specialize (M2 ltac:(lia) ltac:(lia)).
  pose proof (Z.div_le_mono _ _ 365 ltac:(lia) M1). pose proof (Z.div_le_mono _ _ 365 ltac:(lia) M2). lia.
Qed.

(** Every day of the era is in some year. *)
Lemma day_in_year doe : 0 <= doe < 146097 -> exists yoe, 0 <= yoe < 400 /\ year_start yoe <= doe <= year_end yoe.
Proof.
  intros Hd.
  assert (G : forall n : nat, (n <= 400)%nat -> doe < (if bool_decide (n = 400%nat) then 146097 else year_start (Z.of_nat n)) ->
            exists yoe, 0 <= yoe < Z.of_nat n /\ year_start yoe <= doe <= year_end yoe).
  { induction n as [|n IH]; intros Hn Hl; [rewrite bool_decide_false in Hl by lia; change (year_start (Z.of_nat 0)) with 0 in Hl; lia|].
    destruct (Z.lt_ge_cases doe (year_start (Z.of_nat n))) as [Hlt|Hge].
    - destruct IH as (yoe & H1 & H2); [lia|by rewrite bool_decide_false by lia|]. exists yoe. split; [lia|done].
    - exists (Z.of_nat n). split; [lia|]. split; [done|]. unfold year_end. case_bool_decide as E.
      + replace (Z.of_nat n) with 399 by lia. cbn. lia.
      + rewrite (proj2 (Z.eqb_neq (Z.of_nat n) 399)) by lia. replace (Z.of_nat n + 1) with (Z.of_nat (S n)) by lia. lia. }
  destruct (G 400%nat ltac:(lia)) as (yoe & H1 & H2); [rewrite bool_decide_true by done; lia|]. by exists yoe.
Qed.

(** ** Years and months *)

Lemma leap_era y era : is_leap (y + era * 400) = is_leap y.
Proof.
  unfold is_leap. replace (y + era * 400) with (y + era * 100 * 4) at 1 by lia. rewrite Z.mod_add by lia.
  replace (y + era * 400) with (y + era * 4 * 100) at 1 by lia. rewrite Z.mod_add by lia. by rewrite Z.mod_add.
Qed.

Definition length_check (yoe : Z) : bool := year_end yoe - year_start yoe =? 364 + b2z (is_leap (yoe + 1)).

Lemma lengths_checked : forallb (fun i => length_check (Z.of_nat i)) (seq 0 400) = true.
Proof. vm_compute. reflexivity. Qed.

Lemma year_length yoe : 0 <= yoe < 400 -> year_end yoe = year_start yoe + 364 + b2z (is_leap (yoe + 1)).
Proof.
  intros Hy. pose proof lengths_checked as C. rewrite forallb_forall in C. specialize (C (Z.to_nat yoe)). rewrite Z2Nat.id in C by lia.
  specialize (C ltac:(apply in_seq; lia)). apply Z.eqb_eq in C. lia.
Qed.

Lemma year_bounds yoe : 0 <= yoe < 400 -> 0 <= year_start yoe /\ year_end yoe <= 146096.
Proof.
  intros Hy. unfold year_end, year_start. destruct (Z.eqb_spec yoe 399); Z.to_euclidean_division_equations; lia.
Qed.

(** The month, counted from March, of a month number. *)
Definition march_month (m : Z) : Z := if 2 <? m then m - 3 else m + 9.
Definition month_first (mp : Z) : Z := (153 * mp + 2) / 5.

Lemma months (P : Z -> Prop) : (forall m, m ∈ [1; 2; 3; 4; 5; 6; 7; 8; 9; 10; 11; 12] -> P m) -> forall m, 1 <= m <= 12 -> P m.
Proof. intros H m Hm. apply H. rewrite !elem_of_cons. lia. Qed.

(** The day of the March-based year is in the right month, and no further than
    the year is long. *)
Lemma day_of_month y m d : valid_date y m d -> let mp := march_month m in let doy := month_first mp + d - 1 in
  0 <= doy /\ doy <= 364 + b2z (is_leap (y - (if m <=? 2 then 1 else 0) + 1)) /\
  (5 * doy + 2) / 153 = mp /\ doy - month_first mp + 1 = d /\ mp + (if mp <? 10 then 3 else -9) = m.
Proof.
  intros [Hm Hd] mp doy. subst mp doy. revert m Hm Hd. apply (months (fun m => 1 <= d <= month_length y m -> _)). intros m Hm.
  assert (L : d <= 31 -> forall f mp : Z, (f = (153 * mp + 2) / 5) -> 0 <= mp <= 11 -> 1 <= d -> d <= (153 * (mp + 1) + 2) / 5 - f -> (mp = 11 -> d <= 29) ->
              (5 * (f + d - 1) + 2) / 153 = mp).
  { intros H31 f mp -> Hmp H1 H2 H3. Z.to_euclidean_division_equations. lia. }
  repeat (apply elem_of_cons in Hm as [->|Hm]; [|]); try (by apply not_elem_of_nil in Hm); intros Hd;
    unfold month_length in Hd; cbn -[is_leap] in Hd |- *; unfold month_first, march_month; cbn -[Z.div is_leap];
    repeat match goal with |- context [?a / 5] => let v := eval vm_compute in (a / 5) in change (a / 5) with v end.
  all: try (replace (y - 1 + 1) with y by lia); try (destruct (is_leap y); cbn in *).
  all: (split; [lia|]); (split; [try (destruct (is_leap _); cbn); lia|]); (split; [|split; [lia|reflexivity]]).
  all: match goal with |- _ = ?mp => apply (L ltac:(lia) _ mp); [reflexivity|lia|lia| |lia] end;
    match goal with |- _ <= ?a / 5 - _ => let v := eval vm_compute in (a / 5) in change (a / 5) with v end; lia.
Qed.

(** The day number in the arithmetic of eras. *)
Definition era_days (y m d : Z) : Z :=
  let y := y - (if m <=? 2 then 1 else 0) in
  y / 400 * 146097 + year_start (y mod 400) + month_first (march_month m) + d - 1 - 719468.

Lemma leap_floor y : leap_days y = y / 400 * 97 + (y mod 400) / 4 - (y mod 400) / 100.
Proof. unfold leap_days. Z.to_euclidean_division_equations. lia. Qed.

Lemma era_days_eq y m d : 1 <= m <= 12 -> era_days y m d = day_number y m d.
Proof.
  intros Hm. unfold era_days, day_number.
  assert (Hl : b2z (is_leap y) = leap_days y - leap_days (y - 1)).
  { unfold is_leap, leap_days. destruct (Z.eqb_spec (y mod 4) 0), (Z.eqb_spec (y mod 100) 0), (Z.eqb_spec (y mod 400) 0); cbn; Z.to_euclidean_division_equations; lia. }
  change (leap_days 1969) with 477.
  assert (E : forall y', y' / 400 * 146097 + year_start (y' mod 400) = 365 * y' + leap_days y').
  { intros y'. rewrite leap_floor. unfold year_start. pose proof (Z.div_mod y' 400 ltac:(lia)). lia. }
  rewrite E. unfold month_start. revert m Hm. apply (months (fun m => _ = _)). intros m Hm.
  repeat (apply elem_of_cons in Hm as [->|Hm]; [|]); try (by apply not_elem_of_nil in Hm);
    unfold month_length; cbn -[is_leap Z.div leap_days]; unfold month_first, march_month; cbn -[Z.div is_leap leap_days];
    repeat match goal with |- context [?a / 5] => let v := eval vm_compute in (a / 5) in change (a / 5) with v end; destruct (is_leap y); cbn [b2z] in Hl; rewrite ?Z.sub_0_r; lia.
Qed.

(** ** Dates of days *)

(** The date after a date, and the one before it. *)
Definition next_date (y m d : Z) : Z * Z * Z :=
  if d <? month_length y m then (y, m, d + 1) else if m <? 12 then (y, m + 1, 1) else (y + 1, 1, 1).
Definition prev_date (y m d : Z) : Z * Z * Z :=
  if 1 <? d then (y, m, d - 1) else if 1 <? m then (y, m - 1, month_length y (m - 1)) else (y - 1, 12, 31).

Lemma month_length_bounds y m : 28 <= month_length y m <= 31.
Proof. unfold month_length, switch. cbn -[Z.eqb]. repeat case_match; lia. Qed.

Lemma year_days y : leap_days y = leap_days (y - 1) + b2z (is_leap y).
Proof.
  unfold is_leap, leap_days. destruct (Z.eqb_spec (y mod 4) 0), (Z.eqb_spec (y mod 100) 0), (Z.eqb_spec (y mod 400) 0); cbn; Z.to_euclidean_division_equations; lia.
Qed.

Lemma month_start_next y m : 1 <= m < 12 -> month_start y (m + 1) = month_start y m + month_length y m.
Proof.
  intros Hm. assert (Hm' : 1 <= m <= 12) by lia. revert m Hm' Hm. apply (months (fun m => 1 <= m < 12 -> _)). intros m Hm.
  repeat (apply elem_of_cons in Hm as [->|Hm]; [|]); try (by apply not_elem_of_nil in Hm); intros Hd; try lia;
    match goal with |- context [month_start y (?a + 1)] => let v := eval vm_compute in (a + 1) in change (a + 1) with v end;
    unfold month_start; cbn -[month_length Z.add]; lia.
Qed.

Lemma month_start_1 y : month_start y 1 = 0.
Proof. reflexivity. Qed.

Lemma month_start_12 y : month_start y 12 = 334 + b2z (is_leap y).
Proof. unfold month_start, month_length. cbn -[is_leap]. destruct (is_leap y); reflexivity. Qed.

Lemma next_date_ok y m d : valid_date y m d -> let '(y', m', d') := next_date y m d in
  valid_date y' m' d' /\ day_number y' m' d' = day_number y m d + 1.
Proof.
  intros [Hm Hd]. unfold next_date, day_number. destruct (Z.ltb_spec d (month_length y m)); [split; [split; lia|lia]|].
  destruct (Z.ltb_spec m 12).
  - pose proof (month_length_bounds y (m + 1)). split; [split; lia|]. rewrite month_start_next by lia. lia.
  - replace m with 12 in * by lia. split; [split; cbn; lia|]. change (month_length y 12) with 31 in *.
    rewrite month_start_1, month_start_12. replace (y + 1 - 1) with y by lia. rewrite (year_days y). lia.
Qed.

Lemma prev_date_ok y m d : valid_date y m d -> let '(y', m', d') := prev_date y m d in
  valid_date y' m' d' /\ day_number y' m' d' = day_number y m d - 1.
Proof.
  intros [Hm Hd]. unfold prev_date, day_number. destruct (Z.ltb_spec 1 d); [split; [split; lia|lia]|]. replace d with 1 by lia.
  destruct (Z.ltb_spec 1 m).
  - pose proof (month_length_bounds y (m - 1)). split; [split; lia|].
    pose proof (month_start_next y (m - 1) ltac:(lia)) as E. replace (m - 1 + 1) with m in E by lia. lia.
  - replace m with 1 by lia. split; [split; cbn; lia|].
    rewrite month_start_1, month_start_12. pose proof (year_days (y - 1)). lia.
Qed.

Lemma civil_of_date y m d : valid_date y m d -> CivilFromDays (day_number y m d) = (y, m, d).
Proof.
  intros Hv. pose proof (proj1 Hv) as Hm. pose proof (day_of_month y m d Hv) as (D1 & D2 & D3 & D4 & D5). cbv zeta in *.
  rewrite <- era_days_eq by done. unfold era_days. set (Y := y - (if m <=? 2 then 1 else 0)) in *.
  set (doy := month_first (march_month m) + d - 1) in *. assert (Hy : 0 <= Y mod 400 < 400) by (apply Z.mod_pos_bound; lia).
  pose proof (year_length _ Hy) as YL. pose proof (year_bounds _ Hy) as YB.
  rewrite <- (leap_era (Y mod 400 + 1) (Y / 400)) in YL.
  replace (Y mod 400 + 1 + Y / 400 * 400) with (Y + 1) in YL by (pose proof (Z.div_mod Y 400); lia).
  pose proof (year_of_day (Y mod 400) (year_start (Y mod 400) + doy) Hy ltac:(lia)) as YD.
  unfold CivilFromDays.
  replace (Y / 400 * 146097 + year_start (Y mod 400) + month_first (march_month m) + d - 1 - 719468 + 719468)
    with (year_start (Y mod 400) + doy + Y / 400 * 146097) by lia.
  pose proof (era_floor (year_start (Y mod 400) + doy + Y / 400 * 146097) 146097 ltac:(lia)) as EF. change (146097 - 1) with 146096 in EF.
  rewrite EF, Z.div_add by lia. rewrite (Z.div_small _ 146097), Z.add_0_l by lia.
  replace (year_start (Y mod 400) + doy + Y / 400 * 146097 - Y / 400 * 146097) with (year_start (Y mod 400) + doy) by lia.
  fold (year_num (year_start (Y mod 400) + doy)). rewrite YD. fold (year_start (Y mod 400)).
  replace (year_start (Y mod 400) + doy - year_start (Y mod 400)) with doy by lia. rewrite D3.
  fold (month_first (march_month m)). rewrite D4, D5. f_equal. f_equal. pose proof (Z.div_mod Y 400). lia.
Qed.

Lemma date_of_day z : exists y m d, valid_date y m d /\ day_number y m d = z.
Proof.
  induction z as [|z (y & m & d & Hv & <-)|z (y & m & d & Hv & <-)] using Z.peano_ind.
  - exists 1970, 1, 1. split; [split; cbn; lia|reflexivity].
  - pose proof (next_date_ok y m d Hv) as N. destruct (next_date y m d) as [[y' m'] d']. destruct N. exists y', m', d'. split; [done|lia].
  - pose proof (prev_date_ok y m d Hv) as N. destruct (prev_date y m d) as [[y' m'] d']. destruct N. exists y', m', d'. split; [done|lia].
Qed.

(** The clock chip's calendar is the Gregorian one: day 0 is 1 January 1970, and for every day,
    before and after it, the date computed is a valid date with that day number, the date of the
    next day is the date after it and the date of the previous day is the date before it (month
    lengths and leap years of the reference calendar). *)
Theorem calendar_exact z :
  CivilFromDays 0 = (1970, 1, 1) /\
  (let '(y, m, d) := CivilFromDays z in
   valid_date y m d /\ day_number y m d = z /\
   CivilFromDays (z + 1) = next_date y m d /\ CivilFromDays (z - 1) = prev_date y m d).
Proof.
  split; [reflexivity|]. destruct (date_of_day z) as (y & m & d & Hv & <-). rewrite (civil_of_date y m d Hv). split; [done|]. split; [done|].
  pose proof (next_date_ok y m d Hv) as N. pose proof (prev_date_ok y m d Hv) as Q.
  destruct (next_date y m d) as [[y1 m1] d1], (prev_date y m d) as [[y2 m2] d2]. destruct N as [N1 <-], Q as [Q1 <-].
  split; by apply civil_of_date.
Qed.

(** ** Days of dates *)

(** What the code's days-of-a-date computes: right in January and February, one
    month late from March on (December gives the days of the next January, in
    the year it was asked for plus one). *)
Lemma days_from_civil_era y m d : DaysFromCivil y m d =
  era_days y m d + (if 2 <? m then month_first (m - 2) - month_first (m - 3) else 0).
Proof.
  unfold DaysFromCivil, era_days, march_month. set (Y := y - (if m <=? 2 then 1 else 0)).
  pose proof (era_floor Y 400 ltac:(lia)) as EF. change (400 - 1) with 399 in EF. rewrite EF. rewrite (Z.mod_eq Y 400) by lia. replace (Y - 400 * (Y / 400)) with (Y - Y / 400 * 400) by lia.
  unfold year_start, month_first. destruct (2 <? m); lia.
Qed.

Theorem days_month_late y m d : 1 <= m <= 12 ->
  DaysFromCivil y m d = day_number y m d + (if 2 <? m then (if m =? 12 then 31 else month_length y m) else 0).
Proof.
  intros Hm. rewrite days_from_civil_era, era_days_eq by done. f_equal. revert m Hm. apply (months (fun m => _)). intros m Hm.
  repeat (apply elem_of_cons in Hm as [->|Hm]; [|]); try (by apply not_elem_of_nil in Hm); reflexivity.
Qed.

(** * The chip

    The index and data ports, the 128 registers, the clock that keeps the host's
    time plus a bias, the periodic, update and alarm flags of the poll, and the
    interrupt line.  [rt] is a reading of [HostTimeRealtime] and [now] one of
    [HostTimerNow], both in microseconds; the levels handed to the interrupt
    sink come out in order.  The state is allocated.  Theorems: the line is the
    enabled flags after any history, the registers read are the calendar's, an
    alarm is due in its second of the day alone, and what a write of the clock
    makes of the date. *)

Module Cmos.

Definition kCmosIndexPort := 0x70.
Definition kCmosDataPort := 0x71.
Definition kRegSeconds := 0x00.
Definition kRegMinutes := 0x02.
Definition kRegHours := 0x04.
Definition kRegDayOfWeek := 0x06.
Definition kRegDayOfMonth := 0x07.
Definition kRegMonth := 0x08.
Definition kRegYear := 0x09.
Definition kRegStatusA := 0x0a.
Definition kRegStatusB := 0x0b.
Definition kRegStatusC := 0x0c.
Definition kRegStatusD := 0x0d.
Definition kRegFloppyType := 0x10.
Definition kRegEquipment := 0x14.
Definition kRegMemExtmemLow := 0x30.
Definition kRegMemExtmemHigh := 0x31.
Definition kRegCentury := 0x32.
Definition kRegMemExtmem2Low := 0x34.
Definition kRegMemExtmem2High := 0x35.
Definition kStatusAUip := 0x80.
Definition kStatusARate := 0x0f.
Definition kStatusBSet := 0x80.
Definition kStatusBPie := 0x40.
Definition kStatusBAie := 0x20.
Definition kStatusBUie := 0x10.
Definition kStatusBBin := 0x04.
Definition kStatusB24Hour := 0x02.
Definition kStatusCIrqf := 0x80.
Definition kStatusCPf := 0x40.
Definition kStatusCAf := 0x20.
Definition kStatusCUf := 0x10.
Definition kStatusDVrt := 0x80.
Definition kRegSecondsAlarm := 0x01.
Definition kRegMinutesAlarm := 0x03.
Definition kRegHoursAlarm := 0x05.
Definition kEquipmentFloppy := 0x01.
Definition kEquipmentFloppyCount := 0xc0.
Definition kCmosIrqLine := 8.
Definition kFirstMeg := 1 .<< 20.
Definition kSixteenMeg := 16 .<< 20.
Definition kKiB := 1024.
Definition k64KiB := 64 * 1024.

(** [cm_wired]: the interrupt sink is set. *)
Record CmosState := mkCmos {
  cm_index : Z; cm_nmi_off : Z; cm_regs : list Z; cm_ram_size : Z; cm_bias_sec : Z; cm_periodic_at : Z; cm_second_at : Z;
  cm_irq : bool; cm_wired : bool;
}.
Definition eta_cmos (s : CmosState) : CmosState :=
  mkCmos (cm_index s) (cm_nmi_off s) (cm_regs s) (cm_ram_size s) (cm_bias_sec s) (cm_periodic_at s) (cm_second_at s) (cm_irq s) (cm_wired s).
#[export] Instance upd_cm_index : Upd cm_index := ltac:(mk_upd eta_cmos cm_index).
#[export] Instance upd_cm_nmi_off : Upd cm_nmi_off := ltac:(mk_upd eta_cmos cm_nmi_off).
#[export] Instance upd_cm_regs : Upd cm_regs := ltac:(mk_upd eta_cmos cm_regs).
#[export] Instance upd_cm_ram_size : Upd cm_ram_size := ltac:(mk_upd eta_cmos cm_ram_size).
#[export] Instance upd_cm_bias_sec : Upd cm_bias_sec := ltac:(mk_upd eta_cmos cm_bias_sec).
#[export] Instance upd_cm_periodic_at : Upd cm_periodic_at := ltac:(mk_upd eta_cmos cm_periodic_at).
#[export] Instance upd_cm_second_at : Upd cm_second_at := ltac:(mk_upd eta_cmos cm_second_at).
#[export] Instance upd_cm_irq : Upd cm_irq := ltac:(mk_upd eta_cmos cm_irq).
#[export] Instance upd_cm_wired : Upd cm_wired := ltac:(mk_upd eta_cmos cm_wired).

(** [st->regs[r]] and [st->regs[r] = v]. *)
Definition reg (st : CmosState) (r : Z) : Z := arr (cm_regs st) r.
Definition set_reg (st : CmosState) (r v : Z) : CmosState := st <| cm_regs := arr_set (cm_regs st) r v |>.

Definition kRtcPeriodTicks : list Z := [0; 128; 256; 4; 8; 16; 32; 64; 128; 256; 512; 1024; 2048; 4096; 8192; 16384].

Definition CmosPeriodUs (st : CmosState) : Z :=
  let ticks := arr kRtcPeriodTicks (reg st kRegStatusA .& kStatusARate) in
  if ticks =? 0 then 0 else ticks * 1000000 / 32768.

Definition ToBcd (v : Z) : Z := (Z.quot v 10 .<< 4) .| Z.rem v 10.
Definition FromBcd (v : Z) : Z := ((v .>> 4) .& 0xf) * 10 + (v .& 0xf).

(** ** The clock *)

Definition CmosEpoch (st : CmosState) (rt : Z) : Z := Z.quot rt 1000000 + cm_bias_sec st.

Definition CmosShadowEpoch (st : CmosState) : Z :=
  let bin := tst (reg st kRegStatusB) kStatusBBin in
  let dec v := if bin then v else FromBcd v in
  let hour := reg st kRegHours in
  let h := dec (hour .& 0x7f) in
  let h := if negb (tst (reg st kRegStatusB) kStatusB24Hour) && tst hour 0x80 then h + 12 else h in
  let y := dec (reg st kRegYear) + 100 * dec (reg st kRegCentury) in
  let days := DaysFromCivil (1900 + y) (dec (reg st kRegMonth)) (dec (reg st kRegDayOfMonth)) in
  days * 86400 + h * 3600 + dec (reg st kRegMinutes) * 60 + dec (reg st kRegSeconds).

Definition CmosReadTime (st : CmosState) (r rt : Z) : Z :=
  if tst (reg st kRegStatusB) kStatusBSet then reg st r
  else
    let secs := CmosEpoch st rt in
    let days := Z.quot secs 86400 in
    let rem := Z.rem secs 86400 in
    let '(days, rem) := if rem <? 0 then (days - 1, rem + 86400) else (days, rem) in
    let '(y, mo, da) := CivilFromDays days in
    let bin := tst (reg st kRegStatusB) kStatusBBin in
    let enc v := if bin then v else ToBcd v in
    switch r
      [(kRegSeconds, u8 (enc (Z.rem rem 60)));
       (kRegMinutes, u8 (enc (Z.rem (Z.quot rem 60) 60)));
       (kRegHours,
        let v := Z.quot rem 3600 in
        if negb (tst (reg st kRegStatusB) kStatusB24Hour) then
          let pm := 12 <=? v in
          let v := Z.rem v 12 in
          let v := if v =? 0 then 12 else v in
          u8 (enc v .| (if pm then 0x80 else 0))
        else u8 (enc v));
       (kRegDayOfWeek, u8 (enc (Z.rem (days + 4) 7 + 1)));
       (kRegDayOfMonth, u8 (enc da));
       (kRegMonth, u8 (enc mo))]
      (u8 (enc (Z.rem y 100))).

Definition CmosWriteTime (st : CmosState) (r val now : Z) : CmosState :=
  let st := set_reg st r val in
  st <| cm_bias_sec := CmosShadowEpoch st - Z.quot now 1000000 |>.

(** ** Flags and the line *)

(** -1: don't care. *)
Definition CmosAlarmField (st : CmosState) (r : Z) : Z :=
  let v := reg st r in
  if v .& 0xc0 =? 0xc0 then -1
  else
    let h := if tst (reg st kRegStatusB) kStatusBBin then v .& 0x3f else FromBcd (v .& 0x3f) in
    if (r =? kRegHoursAlarm) && negb (tst (reg st kRegStatusB) kStatusB24Hour) then
      let h := if h =? 12 then 0 else h in if tst v 0x80 then h + 12 else h
    else h.

Definition CmosAlarmDue (st : CmosState) (rt : Z) : bool :=
  let rem := Z.rem (CmosEpoch st rt) 86400 in
  let rem := if rem <? 0 then rem + 86400 else rem in
  let a_s := CmosAlarmField st kRegSecondsAlarm in
  let a_m := CmosAlarmField st kRegMinutesAlarm in
  let a_h := CmosAlarmField st kRegHoursAlarm in
  if (0 <=? a_s) && negb (a_s =? Z.rem rem 60) then false
  else if (0 <=? a_m) && negb (a_m =? Z.rem (Z.quot rem 60) 60) then false
  else if (0 <=? a_h) && negb (a_h =? Z.quot rem 3600) then false
  else true.

Definition irq_level (st : CmosState) : bool :=
  (tst (reg st kRegStatusC) kStatusCPf && tst (reg st kRegStatusB) kStatusBPie) ||
  (tst (reg st kRegStatusC) kStatusCAf && tst (reg st kRegStatusB) kStatusBAie) ||
  (tst (reg st kRegStatusC) kStatusCUf && tst (reg st kRegStatusB) kStatusBUie).

Definition CmosSyncIrq (st : CmosState) : CmosState * list (Z * bool) :=
  let level := irq_level st in
  let st := set_reg st kRegStatusC (if level then reg st kRegStatusC .| kStatusCIrqf else reg st kRegStatusC &~ kStatusCIrqf) in
  if eqb level (cm_irq st) then (st, [])
  else (st <| cm_irq := level |>, if cm_wired st then [(kCmosIrqLine, level)] else []).

Definition CmosSetIrqSink (st : CmosState) : CmosState := st <| cm_wired := true |>.

(** [st->regs[kRegStatusC] |= f]. *)
Definition set_flag (st : CmosState) (f : Z) : CmosState := set_reg st kRegStatusC (reg st kRegStatusC .| f).

Definition poll_periodic (st : CmosState) (now : Z) : CmosState :=
  let period := if tst (reg st kRegStatusB) kStatusBPie then CmosPeriodUs st else 0 in
  if period =? 0 then st <| cm_periodic_at := 0 |>
  else if cm_periodic_at st =? 0 then st <| cm_periodic_at := u64 (now + period) |>
  else if cm_periodic_at st <=? now then set_flag (st <| cm_periodic_at := u64 (now + period) |>) kStatusCPf
  else st.

Definition poll_second (st : CmosState) (now rt : Z) : CmosState :=
  if cm_second_at st =? 0 then st <| cm_second_at := u64 (now + 1000000) |>
  else if cm_second_at st <=? now then
    let st := set_flag (st <| cm_second_at := u64 (now + 1000000) |>) kStatusCUf in
    if CmosAlarmDue st rt then set_flag st kStatusCAf else st
  else st.

Definition CmosPoll (st : CmosState) (now rt : Z) : CmosState * list (Z * bool) :=
  CmosSyncIrq (poll_second (poll_periodic st now) now rt).

(** ** Registers *)

Definition IsTimeReg (r : Z) : bool :=
  (r <=? kRegYear) && negb (r =? kRegSecondsAlarm) && negb (r =? kRegMinutesAlarm) && negb (r =? kRegHoursAlarm).

Definition CmosReadReg (st : CmosState) (r rt : Z) : Z * CmosState * list (Z * bool) :=
  if IsTimeReg r then (CmosReadTime st r rt, st, [])
  else
    let kib := if kFirstMeg <? cm_ram_size st then (cm_ram_size st - kFirstMeg) / kKiB else 0 in
    let units := if kSixteenMeg <? cm_ram_size st then (cm_ram_size st - kSixteenMeg) / k64KiB else 0 in
    switch r
      [(kRegStatusA, (u8 (reg st r &~ kStatusAUip), st, []));
       (kRegStatusC, let v := reg st r in let '(st, evs) := CmosSyncIrq (set_reg st r 0) in (v, st, evs));
       (kRegStatusD, (u8 (reg st r .| kStatusDVrt), st, []));
       (kRegMemExtmemLow, (u8 (kib .>> (8 * (r - kRegMemExtmemLow))), st, []));
       (kRegMemExtmemHigh, (u8 (kib .>> (8 * (r - kRegMemExtmemLow))), st, []));
       (kRegMemExtmem2Low, (u8 (units .>> (8 * (r - kRegMemExtmem2Low))), st, []));
       (kRegMemExtmem2High, (u8 (units .>> (8 * (r - kRegMemExtmem2Low))), st, []))]
      (reg st r, st, []).

Definition CmosWriteReg (st : CmosState) (r val now : Z) : CmosState * list (Z * bool) :=
  if IsTimeReg r then (CmosWriteTime st r val now, [])
  else if r =? kRegStatusC then (st, [])
  else
    let val := if (r =? kRegStatusB) && tst val kStatusBSet then u8 (val &~ kStatusBUie) else val in
    let st := set_reg st r val in
    if r =? kRegStatusB then CmosSyncIrq st else (st, []).

Definition CmosRead (st : CmosState) (addr rt : Z) : Z * CmosState * list (Z * bool) :=
  if addr =? kCmosIndexPort then (cm_index st .| (cm_nmi_off st .<< 7), st, []) else CmosReadReg st (cm_index st) rt.

Definition CmosWrite (st : CmosState) (addr val now : Z) : CmosState * list (Z * bool) :=
  if addr =? kCmosIndexPort then (st <| cm_nmi_off := (val .>> 7) .& 1 |> <| cm_index := val .& 0x7f |>, [])
  else CmosWriteReg st (cm_index st) (u8 val) now.

Definition CmosReset (st : CmosState) : CmosState * list (Z * bool) :=
  let st := st <| cm_index := 0 |> <| cm_nmi_off := 0 |> in
  let st := set_reg st kRegStatusB (reg st kRegStatusB &~ (kStatusBPie .| kStatusBAie .| kStatusBUie)) in
  let st := set_reg st kRegStatusC 0 in
  CmosSyncIrq (st <| cm_periodic_at := 0 |> <| cm_second_at := 0 |>).

(** The sink is a member of the device, which [CmosInit] leaves alone. *)
Definition CmosInit (wired : bool) : CmosState :=
  let st := mkCmos 0 0 (replicate 128 0) 0 0 0 0 false wired in
  let st := set_reg st kRegStatusA 0x26 in
  let st := set_reg st kRegStatusB kStatusB24Hour in
  let st := set_reg st kRegStatusD kStatusDVrt in
  let st := set_reg st kRegCentury (u8 (ToBcd 20)) in
  let st := set_reg st kRegDayOfMonth (u8 (ToBcd 1)) in
  let st := set_reg st kRegMonth (u8 (ToBcd 1)) in
  st <| cm_bias_sec := 0 |>.

Definition CmosSetMemory (st : CmosState) (ram_size : Z) : CmosState := st <| cm_ram_size := ram_size |>.

Definition CmosSetFloppy (st : CmosState) (type_a type_b : Z) : CmosState :=
  let st := set_reg st kRegFloppyType (u8 ((type_a .<< 4) .| (type_b .& 0x0f))) in
  let count := b2z (negb (type_a =? 0)) + b2z (negb (type_b =? 0)) in
  let v := reg st kRegEquipment &~ (kEquipmentFloppy .| kEquipmentFloppyCount) in
  let v := if 0 <? count then v .| u8 (kEquipmentFloppy .| ((count - 1) .<< 6)) else v in
  set_reg st kRegEquipment v.

End Cmos.
