(* ===== verification/CmosProps.v ===== *)
(** * What the clock chip promises (device/misc/cmos.c)

    The interrupt line over any history of ports, polls and resets; the date and
    time the registers read; the alarm; the memory size; and the clock a guest
    sets. *)

From S2P Require Import Prelude Cmos.

Import Cmos.

(** ** The interrupt line *)

(** A guest's access, a poll of the machine loop, a reset, or the board's
    description of the machine. *)
Inductive cmos_step : CmosState -> list (Z * bool) -> CmosState -> Prop :=
  | cmos_read st addr rt v st' evs : CmosRead st addr rt = (v, st', evs) -> cmos_step st evs st'
  | cmos_write st addr val now : 0 <= val -> cmos_step st (CmosWrite st addr val now).2 (CmosWrite st addr val now).1
  | cmos_poll st now rt : cmos_step st (CmosPoll st now rt).2 (CmosPoll st now rt).1
  | cmos_reset st : cmos_step st (CmosReset st).2 (CmosReset st).1
  | cmos_memory st n : cmos_step st [] (CmosSetMemory st n)
  | cmos_floppy st a b : cmos_step st [] (CmosSetFloppy st a b).

Inductive cmos_run : CmosState -> list (Z * bool) -> CmosState -> Prop :=
  | run_nil st : cmos_run st [] st
  | run_cons st evs st' evs' st'' : cmos_run st evs st' -> cmos_step st' evs' st'' -> cmos_run st (evs ++ evs') st''.

(** The level the sink was last handed. *)
Definition line_after (evs : list (Z * bool)) : bool := from_option snd false (last evs).

(** The registers are all there, the line is the enabled flags, and the flags
    carry a copy of it. *)
Record cmos_ok (st : CmosState) : Prop := {
  co_len : length (cm_regs st) = 128%nat;
  co_index : 0 <= cm_index st < 128;
  co_wired : cm_wired st = true;
  co_line : cm_irq st = irq_level st;
  co_irqf : tst (reg st kRegStatusC) kStatusCIrqf = cm_irq st;
}.

Lemma reg_set_eq st r v : length (cm_regs st) = 128%nat -> 0 <= r < 128 -> reg (set_reg st r v) r = v.
Proof. intros Hl Hr. apply arr_set_eq. lia. Qed.

Lemma reg_set_ne st r q v : 0 <= r -> 0 <= q -> r <> q -> reg (set_reg st r v) q = reg st q.
Proof. intros. by apply arr_set_ne. Qed.

Lemma len_set st r v : length (cm_regs (set_reg st r v)) = length (cm_regs st).
Proof. apply length_arr_set. Qed.

Lemma tst_lor_other x m k : k .& m = 0 -> tst (x .| k) m = tst x m.
Proof. intros Hk. unfold tst. by rewrite Z.land_lor_distr_l, Hk, Z.lor_0_r. Qed.

Lemma tst_ldiff_other x m k : k .& m = 0 -> tst (x &~ k) m = tst x m.
Proof.
  intros Hk. unfold tst. f_equal. f_equal. apply Z.bits_inj'. intros i Hi. rewrite !Z.land_spec, Z.ldiff_spec.
  assert (E : Z.testbit (k .& m) i = false) by (rewrite Hk; apply Z.bits_0). rewrite Z.land_spec in E.
  destruct (Z.testbit x i), (Z.testbit k i), (Z.testbit m i); cbn in *; congruence.
Qed.

(** A state that is sound but for its line comes out of [CmosSyncIrq] sound,
    and the sink hears of the line when it changes. *)
Lemma sync_ok st : length (cm_regs st) = 128%nat -> 0 <= cm_index st < 128 -> cm_wired st = true ->
  let '(st', evs) := CmosSyncIrq st in
  cmos_ok st' /\ cm_irq st' = irq_level st /\
  (forall pre, line_after pre = cm_irq st -> line_after (pre ++ evs) = cm_irq st').
Proof.
  intros Hl Hi Hw. unfold CmosSyncIrq. set (c := if irq_level st then _ else _).
  assert (HL : irq_level (set_reg st kRegStatusC c) = irq_level st).
  { unfold irq_level. rewrite reg_set_eq, reg_set_ne by (done || lia). subst c.
    destruct (irq_level st); rewrite ?tst_lor_other, ?tst_ldiff_other by done; done. }
  assert (HC : tst (reg (set_reg st kRegStatusC c) kRegStatusC) kStatusCIrqf = irq_level st).
  { rewrite reg_set_eq by (done || lia). subst c. unfold tst. destruct (irq_level st).
    - rewrite Z.land_lor_distr_l. apply negb_true_iff, Z.eqb_neq. intros E. apply Z.lor_eq_0_iff in E as [_ E]. discriminate.
    - apply negb_false_iff, Z.eqb_eq, Z.bits_inj'. intros i Hi'. rewrite Z.land_spec, Z.ldiff_spec, Z.bits_0. destruct (Z.testbit kStatusCIrqf i), (Z.testbit _ i); done. }
  change (cm_irq (set_reg st kRegStatusC c)) with (cm_irq st). change (cm_wired (set_reg st kRegStatusC c)) with (cm_wired st).
  destruct (eqb (irq_level st) (cm_irq st)) eqn:E.
  - apply eqb_prop in E. split; [|split; [done|]].
    + split; [exact (eq_trans (len_set _ _ _) Hl)|done|done|by rewrite HL|by rewrite HC].
    + intros pre Hp. by rewrite app_nil_r.
  - rewrite Hw. split; [|split; [done|]].
    + split; [exact (eq_trans (len_set _ _ _) Hl)|done|done|by rewrite <- HL|done].
    + intros pre Hp. unfold line_after. by rewrite last_snoc.
Qed.

(** Changing registers other than the flags and the enables keeps the line. *)
Lemma set_other_ok st r v : 0 <= r -> r <> kRegStatusB -> r <> kRegStatusC -> cmos_ok st -> cmos_ok (set_reg st r v).
Proof.
  intros Hr Hb Hc [H1 H2 H3 H4 H5]. split; [by rewrite len_set|done|done| |].
  - unfold irq_level. rewrite !reg_set_ne by (done || lia). exact H4.
  - by rewrite reg_set_ne by (done || lia).
Qed.

Lemma set_len st r v n : length (cm_regs st) = n -> length (cm_regs (set_reg st r v)) = n.
Proof. by rewrite len_set. Qed.

Lemma poll_base st now rt (f := fun st => (length (cm_regs st), cm_index st, cm_wired st, cm_irq st)) :
  f (poll_second (poll_periodic st now) now rt) = f st.
Proof.
  assert (HS : forall st r v, f (set_reg st r v) = f st) by (intros s0 r v; unfold f; by rewrite len_set).
  transitivity (f (poll_periodic st now)).
  - unfold poll_second, set_flag. destruct (_ =? 0); [done|]. destruct (_ <=? _); [|done]. destruct (CmosAlarmDue _ _); rewrite ?HS; done.
  - unfold poll_periodic, set_flag. destruct (_ =? 0); [done|]. destruct (_ =? 0); [done|]. destruct (_ <=? _); [|done]. by rewrite HS.
Qed.

Lemma cmos_read_ok st addr rt v st' evs pre : cmos_ok st -> line_after pre = cm_irq st ->
  CmosRead st addr rt = (v, st', evs) -> cmos_ok st' /\ line_after (pre ++ evs) = cm_irq st'.
Proof.
  intros Hok Hp. unfold CmosRead. destruct (_ =? _); [intros [= _ <- <-]; by rewrite app_nil_r|].
  unfold CmosReadReg. destruct (IsTimeReg _); [intros [= _ <- <-]; by rewrite app_nil_r|].
  set (r := cm_index st). destruct (r =? kRegStatusC) eqn:E.
  - apply Z.eqb_eq in E. rewrite E. cbn [switch Z.eqb]. unfold kRegStatusC at 1 2. cbn [switch Z.eqb Pos.eqb].
    pose proof (sync_ok (set_reg st kRegStatusC 0) (eq_trans (len_set _ _ _) (co_len _ Hok)) (co_index _ Hok) (co_wired _ Hok)) as S.
    destruct (CmosSyncIrq _) as [st2 e2]. destruct S as (S1 & S2 & S3). intros [= _ <- <-]. split; [done|]. by apply S3.
  - apply switch_ind.
    + repeat (apply Forall_cons_2; [cbn [fst snd]; intros Hr; try (intros [= _ <- <-]; by rewrite app_nil_r); by rewrite Hr in E|]).
      apply Forall_nil_2.
    + intros [= _ <- <-]. by rewrite app_nil_r.
Qed.

Lemma cmos_write_ok st addr val now pre : 0 <= val -> cmos_ok st -> line_after pre = cm_irq st ->
  cmos_ok (CmosWrite st addr val now).1 /\ line_after (pre ++ (CmosWrite st addr val now).2) = cm_irq (CmosWrite st addr val now).1.
Proof.
  intros Hv Hok Hp. pose proof (co_index _ Hok) as Hi. unfold CmosWrite. destruct (_ =? _).
  { rewrite app_nil_r. split; [|done]. destruct Hok as [H1 H2 H3 H4 H5]. split; try done. cbn. change 127 with (Z.ones 7).
    rewrite Z.land_ones by lia. apply Z.mod_pos_bound. lia. }
  unfold CmosWriteReg. destruct (IsTimeReg (cm_index st)) eqn:ET.
  { rewrite app_nil_r. split; [|done]. unfold CmosWriteTime. unfold IsTimeReg in ET. rewrite !andb_true_iff in ET.
    destruct ET as [[[ET%Z.leb_le _] _] _]. unfold kRegYear in ET.
    assert (H : cmos_ok (set_reg st (cm_index st) (u8 val))) by (apply set_other_ok; [lia|unfold kRegStatusB; lia|unfold kRegStatusC; lia|done]).
    destruct H as [H1 H2 H3 H4 H5]. by split. }
  destruct (Z.eqb_spec (cm_index st) kRegStatusC) as [EC|EC]; [by rewrite app_nil_r|].
  destruct (Z.eqb_spec (cm_index st) kRegStatusB) as [EB|EB].
  - set (w := if _ && _ then _ else _).
    pose proof (sync_ok (set_reg st (cm_index st) w) (eq_trans (len_set _ _ _) (co_len _ Hok)) (co_index _ Hok) (co_wired _ Hok)) as S.
    destruct (CmosSyncIrq _) as [st2 e2]. destruct S as (S1 & S2 & S3). split; [done|]. by apply S3.
  - rewrite app_nil_r. split; [|done]. apply set_other_ok; [lia|done|done|done].
Qed.

Lemma step_ok st evs st' pre : cmos_ok st -> line_after pre = cm_irq st -> cmos_step st evs st' ->
  cmos_ok st' /\ line_after (pre ++ evs) = cm_irq st'.
Proof.
  intros Hok Hp Hs. destruct Hs as [st addr rt v st' evs Hr|st addr val now Hv|st now rt|st|st n|st a b].
  - by eapply cmos_read_ok.
  - by apply cmos_write_ok.
  - pose proof (poll_base st now rt) as B. cbv beta zeta in B. injection B as B1 B2 B3 B4. unfold CmosPoll.
    pose proof (sync_ok (poll_second (poll_periodic st now) now rt)) as S. rewrite B1, B2, B3 in S.
    specialize (S (co_len _ Hok) (co_index _ Hok) (co_wired _ Hok)).
    destruct (CmosSyncIrq _) as [st2 e2]. destruct S as (S1 & S2 & S3). split; [done|]. apply S3. by rewrite B4.
  - unfold CmosReset.
    match goal with |- context [CmosSyncIrq ?s] => pose proof (sync_ok s) as S end.
    specialize (S ltac:(cbn; rewrite !length_arr_set; apply (co_len _ Hok)) ltac:(cbn; lia) (co_wired _ Hok)).
    destruct (CmosSyncIrq _) as [st2 e2]. destruct S as (S1 & S2 & S3). split; [done|]. by apply S3.
  - rewrite app_nil_r. destruct Hok as [H1 H2 H3 H4 H5]. split; [by split|done].
  - rewrite app_nil_r. split; [|done]. unfold CmosSetFloppy. by repeat apply set_other_ok.
Qed.

Lemma cmos_init_ok : cmos_ok (CmosInit true).
Proof. by split. Qed.

(** C37: the clock chip's interrupt line is exact: after any history of port accesses, polls and
    resets, IRQ 8 is up exactly when a flag is set whose enable is set, status C's top bit says the
    same, and the interrupt sink was told that level last. *)
Theorem cmos_irq_exact evs st : cmos_run (CmosInit true) evs st ->
  cm_irq st = irq_level st /\ tst (reg st kRegStatusC) kStatusCIrqf = irq_level st /\ line_after evs = irq_level st.
Proof.
  intros Hr. assert (G : cmos_ok st /\ line_after evs = cm_irq st).
  { remember (CmosInit true) as s0 eqn:E0. induction Hr as [st|st evs st' evs' st'' Hr IH Hs].
    - subst st. split; [apply cmos_init_ok|done].
    - destruct (IH E0) as [I1 I2]. by apply (step_ok st'). }
  destruct G as [[G1 G2 G3 G4 G5] G6]. split; [done|]. split; [by rewrite G5|by rewrite G6].
Qed.

(** ** The date and time a guest reads *)

(** Selecting a register and reading it through the two ports. *)
Definition read_register (st : CmosState) (r rt : Z) : Z :=
  (CmosRead (CmosWrite st kCmosIndexPort r 0).1 kCmosDataPort rt).1.1.

(** How the data sheet has a guest decode what it reads. *)
Definition guest_field (st : CmosState) (v : Z) : Z := if tst (reg st kRegStatusB) kStatusBBin then v else FromBcd v.
Definition guest_hour (st : CmosState) (v : Z) : Z :=
  if tst (reg st kRegStatusB) kStatusB24Hour then guest_field st v
  else guest_field st (v .& 0x7f) mod 12 + (if tst v 0x80 then 12 else 0).

Lemma below (n : nat) (P : Z -> bool) : forallb (fun i => P (Z.of_nat i)) (seq 0 n) = true -> forall v, 0 <= v < Z.of_nat n -> P v = true.
Proof. intros C v Hv. rewrite forallb_forall in C. rewrite <- (Z2Nat.id v) by lia. apply C, in_seq. lia. Qed.

Lemma bcd_byte v : 0 <= v < 100 -> FromBcd (u8 (ToBcd v)) = v.
Proof. intros Hv. apply Z.eqb_eq. by apply (below 100 (fun v => FromBcd (u8 (ToBcd v)) =? v)). Qed.

(** A field written in either format reads back. *)
Lemma field_byte st v : 0 <= v < 100 ->
  guest_field st (u8 (if tst (reg st kRegStatusB) kStatusBBin then v else ToBcd v)) = v.
Proof. intros Hv. unfold guest_field. destruct (tst _ _); [apply wrap_small; unfold rng; lia|by apply bcd_byte]. Qed.

(** The hour in the twelve-hour format. *)
Definition hour12 (bin : bool) (h : Z) : Z :=
  let v := if Z.rem h 12 =? 0 then 12 else Z.rem h 12 in
  u8 ((if bin then v else ToBcd v) .| (if 12 <=? h then 0x80 else 0)).
Definition unhour12 (bin : bool) (v : Z) : Z :=
  (if bin then v .& 0x7f else FromBcd (v .& 0x7f)) mod 12 + (if tst v 0x80 then 12 else 0).

Lemma hour12_byte bin h : 0 <= h < 24 -> unhour12 bin (hour12 bin h) = h.
Proof.
  intros Hh. apply Z.eqb_eq. apply (below 24 (fun h => unhour12 bin (hour12 bin h) =? h)); [|done]. by destruct bin.
Qed.

(** The day and the second of the day, as the code splits a time. *)
Lemma split_secs secs : (let days := Z.quot secs 86400 in let rem := Z.rem secs 86400 in
  if rem <? 0 then (days - 1, rem + 86400) else (days, rem)) = (secs / 86400, secs mod 86400).
Proof.
  cbv zeta. pose proof (Z.quot_rem' secs 86400) as E. pose proof (Z.div_mod secs 86400 ltac:(lia)) as D. pose proof (Z.mod_pos_bound secs 86400 ltac:(lia)).
  assert (B : -86400 < Z.rem secs 86400 < 86400) by (Z.to_euclidean_division_equations; lia).
  destruct (Z.ltb_spec (Z.rem secs 86400) 0); f_equal; lia.
Qed.

(** What each time register reads, field by field. *)
Definition time_field (st : CmosState) (secs r : Z) : Z :=
  let s := secs mod 86400 in
  let '(y, m, d) := CivilFromDays (secs / 86400) in
  switch r [(kRegSeconds, s mod 60); (kRegMinutes, s / 60 mod 60); (kRegHours, s / 3600);
            (kRegDayOfWeek, Z.rem (secs / 86400 + 4) 7 + 1); (kRegDayOfMonth, d); (kRegMonth, m)] (Z.rem y 100).

Lemma read_time st r rt : tst (reg st kRegStatusB) kStatusBSet = false -> IsTimeReg r = true -> 0 <= r ->
  let v := time_field st (CmosEpoch st rt) r in
  read_register st r rt =
    if (r =? kRegHours) && negb (tst (reg st kRegStatusB) kStatusB24Hour) then hour12 (tst (reg st kRegStatusB) kStatusBBin) v
    else u8 (if tst (reg st kRegStatusB) kStatusBBin then v else ToBcd v).
Proof.
  intros HS HT Hr. unfold read_register, CmosWrite. rewrite Z.eqb_refl. cbn [fst snd]. unfold CmosRead.
  assert (Er : r .& 0x7f = r).
  { unfold IsTimeReg in HT. rewrite !andb_true_iff in HT. destruct HT as [[[HT%Z.leb_le _] _] _]. change 0x7f with (Z.ones 7).
    rewrite Z.land_ones by lia. apply Z.mod_small. unfold kRegYear in HT. lia. }
  rewrite Er. change (kCmosDataPort =? kCmosIndexPort) with false. cbv iota.
  unfold CmosReadReg. cbn [cm_index]. set (st' := upd _ _ _). change (cm_index st') with r. rewrite HT. cbn [fst snd].
  change (CmosReadTime st' r rt) with (CmosReadTime st r rt). unfold CmosReadTime, time_field. rewrite HS, split_secs.
  destruct (CivilFromDays _) as [[y m] d]. assert (B := Z.mod_pos_bound (CmosEpoch st rt) 86400 ltac:(lia)).
  set (s := CmosEpoch st rt mod 86400) in *. assert (0 <= s / 60) by (apply Z.div_pos; lia). assert (0 <= s / 3600) by (apply Z.div_pos; lia).
  rewrite !(Z.quot_div_nonneg s) by lia. rewrite !(Z.rem_mod_nonneg s), !(Z.rem_mod_nonneg (s / 60)) by lia.
  destruct (Z.eqb_spec r kRegHours) as [->|NE].
  - cbn [switch Z.eqb andb]. change (kRegHours =? kRegSeconds) with false. change (kRegHours =? kRegMinutes) with false. cbv iota.
    destruct (tst (reg st kRegStatusB) kStatusB24Hour); [done|]. cbn [negb]. unfold hour12. by destruct (tst _ kStatusBBin).
  - cbn [andb switch]. apply Z.eqb_neq in NE. rewrite NE. repeat (destruct (_ =? _); [done|]). done.
Qed.

Lemma date_ranges y m d : valid_date y m d -> 0 <= m < 100 /\ 0 <= d < 100.
Proof. intros [Hm Hd]. pose proof (month_length_bounds y m). lia. Qed.

(** C36: a guest reads the right time: while the clock runs, in each of the four formats (BCD or
    binary, 12 or 24 hours), the registers read through the ports decode to a valid date and time of
    day whose second count is the chip's, the year is right in its century and the day of the week
    right from 1970 on. *)
Theorem cmos_reads_date st rt : tst (reg st kRegStatusB) kStatusBSet = false ->
  let f r := guest_field st (read_register st r rt) in
  let h := guest_hour st (read_register st kRegHours rt) in
  let secs := CmosEpoch st rt in
  exists y, valid_date y (f kRegMonth) (f kRegDayOfMonth) /\
    0 <= h < 24 /\ 0 <= f kRegMinutes < 60 /\ 0 <= f kRegSeconds < 60 /\
    secs = day_number y (f kRegMonth) (f kRegDayOfMonth) * 86400 + h * 3600 + f kRegMinutes * 60 + f kRegSeconds /\
    (0 <= y -> f kRegYear = y mod 100) /\
    (0 <= secs -> f kRegDayOfWeek = (secs / 86400 + 4) mod 7 + 1).
Proof.
  intros HS. cbv zeta. rewrite !(read_time st) by done. unfold time_field.
  set (secs := CmosEpoch st rt). pose proof (calendar_exact (secs / 86400)) as [_ C].
  destruct (CivilFromDays _) as [[y m] d]. destruct C as (Hv & Hn & _). pose proof (date_ranges y m d Hv) as [Rm Rd].
  cbn -[Z.div Z.modulo Z.mul tst reg guest_field guest_hour day_number u8 ToBcd hour12 Z.rem]. exists y.
  assert (B := Z.mod_pos_bound secs 86400 ltac:(lia)). set (s := secs mod 86400) in *.
  assert (Hh : 0 <= s / 3600 < 24) by (Z.to_euclidean_division_equations; lia).
  assert (Hm : 0 <= s / 60 mod 60 < 60) by (apply Z.mod_pos_bound; lia). assert (Hs : 0 <= s mod 60 < 60) by (apply Z.mod_pos_bound; lia).
  rewrite !field_byte by lia.
  match goal with |- context [guest_hour st ?v] => assert (EH : guest_hour st v = s / 3600) end.
  { unfold guest_hour. destruct (tst (reg st kRegStatusB) kStatusB24Hour); cbn [negb].
    - by rewrite field_byte by lia.
    - by apply hour12_byte. }
  rewrite EH. split; [done|]. split; [done|]. split; [done|]. split; [done|]. split; [|split].
  - rewrite Hn. pose proof (Z.div_mod secs 86400 ltac:(lia)). fold s in H. Z.to_euclidean_division_equations. lia.
  - intros Hy. rewrite Z.rem_mod_nonneg by lia. rewrite field_byte; [done|]. pose proof (Z.mod_pos_bound y 100). lia.
  - intros He. assert (0 <= secs / 86400) by (apply Z.div_pos; lia). rewrite Z.rem_mod_nonneg by lia. rewrite field_byte; [done|].
    pose proof (Z.mod_pos_bound (secs / 86400 + 4) 7). lia.
Qed.

Lemma cmos_reads_date_witness :
  let st := CmosInit true in let rt := 1709251199 * 1000000 in
  tst (reg st kRegStatusB) kStatusBSet = false /\ read_register st kRegMonth rt = 0x02 /\ read_register st kRegDayOfMonth rt = 0x29 /\
  exists y, valid_date y 2 29 /\ 1709251199 = day_number y 2 29 * 86400 + 23 * 3600 + 59 * 60 + 59.
Proof.
  split; [reflexivity|]. split; [vm_compute; reflexivity|]. split; [vm_compute; reflexivity|].
  destruct (cmos_reads_date (CmosInit true) (1709251199 * 1000000) eq_refl) as (y & H1 & _ & _ & _ & H2 & _). exists y. split.
  - exact H1.
  - exact H2.
Defined.

(** ** The alarm *)

(** What the chip makes of an alarm minute or second: in BCD the value is taken
    modulo forty, because the code masks the field to six bits. *)
Definition alarm_eff (st : CmosState) (v : Z) : Z := if tst (reg st kRegStatusB) kStatusBBin then v else v mod 40.

(** An alarm for a time of day, stored in the format in force. *)
Definition alarm_stored (st : CmosState) (h m s : Z) : Prop :=
  let enc v := if tst (reg st kRegStatusB) kStatusBBin then v else ToBcd v in
  reg st kRegSecondsAlarm = u8 (enc s) /\ reg st kRegMinutesAlarm = u8 (enc m) /\
  reg st kRegHoursAlarm = (if tst (reg st kRegStatusB) kStatusB24Hour then u8 (enc h) else hour12 (tst (reg st kRegStatusB) kStatusBBin) h).

Definition field_of (bin hr12 : bool) (v : Z) : Z :=
  if v .& 0xc0 =? 0xc0 then -1
  else
    let h := if bin then v .& 0x3f else FromBcd (v .& 0x3f) in
    if hr12 then let h := if h =? 12 then 0 else h in if tst v 0x80 then h + 12 else h else h.

Lemma minute_field bin v : 0 <= v < 60 -> field_of bin false (u8 (if bin then v else ToBcd v)) = (if bin then v else v mod 40).
Proof.
  intros Hv. apply Z.eqb_eq. apply (below 60 (fun v => field_of bin false (u8 (if bin then v else ToBcd v)) =? (if bin then v else v mod 40))); [|done].
  by destruct bin.
Qed.

Lemma hour_field bin hr12 h : 0 <= h < 24 -> field_of bin hr12 (if hr12 then hour12 bin h else u8 (if bin then h else ToBcd h)) = h.
Proof.
  intros Hh. apply Z.eqb_eq. apply (below 24 (fun h => field_of bin hr12 (if hr12 then hour12 bin h else u8 (if bin then h else ToBcd h)) =? h)); [|done].
  by destruct bin, hr12.
Qed.

(** The alarm is due in exactly one second of each day, the one stored in the format in force,
    except that in BCD the minutes and the seconds are taken modulo forty, because the field is
    masked to six bits. *)
Theorem cmos_alarm_due st rt h m s : 0 <= h < 24 -> 0 <= m < 60 -> 0 <= s < 60 -> alarm_stored st h m s ->
  CmosAlarmDue st rt = true <-> CmosEpoch st rt mod 86400 = h * 3600 + alarm_eff st m * 60 + alarm_eff st s.
Proof.
  intros Hh Hm Hs (A1 & A2 & A3). unfold CmosAlarmDue. cbv zeta.
  pose proof (split_secs (CmosEpoch st rt)) as E. cbv zeta in E.
  assert (ER : (if Z.rem (CmosEpoch st rt) 86400 <? 0 then Z.rem (CmosEpoch st rt) 86400 + 86400 else Z.rem (CmosEpoch st rt) 86400) = CmosEpoch st rt mod 86400).
  { destruct (_ <? 0); by injection E. }
  rewrite ER. clear E ER. assert (B := Z.mod_pos_bound (CmosEpoch st rt) 86400 ltac:(lia)). set (r := CmosEpoch st rt mod 86400) in *.
  assert (ES : CmosAlarmField st kRegSecondsAlarm = alarm_eff st s) by (unfold CmosAlarmField; rewrite A1; exact (minute_field _ s Hs)).
  assert (EM : CmosAlarmField st kRegMinutesAlarm = alarm_eff st m) by (unfold CmosAlarmField; rewrite A2; exact (minute_field _ m Hm)).
  assert (EH : CmosAlarmField st kRegHoursAlarm = h).
  { unfold CmosAlarmField. rewrite A3. pose proof (hour_field (tst (reg st kRegStatusB) kStatusBBin) (negb (tst (reg st kRegStatusB) kStatusB24Hour)) h Hh) as HF.
    destruct (tst (reg st kRegStatusB) kStatusB24Hour); exact HF. }
  assert (RS : 0 <= alarm_eff st s < 60) by (unfold alarm_eff; destruct (tst _ _); [lia|pose proof (Z.mod_pos_bound s 40); lia]).
  assert (RM : 0 <= alarm_eff st m < 60) by (unfold alarm_eff; destruct (tst _ _); [lia|pose proof (Z.mod_pos_bound m 40); lia]).
  rewrite ES, EM, EH, !Z.quot_div_nonneg, !Z.rem_mod_nonneg by (lia || apply Z.div_pos; lia).
  rewrite !(proj2 (Z.leb_le 0 _)) by lia. cbn [andb].
  destruct (Z.eqb_spec (alarm_eff st s) (r mod 60)), (Z.eqb_spec (alarm_eff st m) (r / 60 mod 60)), (Z.eqb_spec h (r / 3600)); cbn [negb];
    split; (discriminate || (intros _; Z.to_euclidean_division_equations; lia) || (intros; exfalso; Z.to_euclidean_division_equations; lia) || done).
Qed.

(** A BCD alarm for 07:45:00 is due at 07:05:00. *)
Lemma cmos_alarm_due_witness :
  let st := set_reg (set_reg (CmosInit true) kRegMinutesAlarm 0x45) kRegHoursAlarm 0x07 in
  alarm_stored st 7 45 0 /\
  (forall rt, CmosAlarmDue st rt = true <-> CmosEpoch st rt mod 86400 = 7 * 3600 + 5 * 60 + 0).
Proof.
  split; [repeat split; vm_compute; reflexivity|]. intros rt.
  apply (cmos_alarm_due (set_reg (set_reg (CmosInit true) kRegMinutesAlarm 0x45) kRegHoursAlarm 0x07) rt 7 45 0); [lia|lia|lia|].
  repeat split; vm_compute; reflexivity.
Defined.

(** The line over a history: the periodic interrupt enabled, armed and due. *)
Lemma cmos_irq_exact_witness :
  let s1 := (CmosWrite (CmosInit true) kCmosIndexPort kRegStatusB 0).1 in
  let s2 := (CmosWrite s1 kCmosDataPort 0x42 0).1 in
  let s3 := (CmosPoll s2 1 0).1 in
  let s4 := (CmosPoll s3 2000 0).1 in
  cmos_run (CmosInit true) [(kCmosIrqLine, true)] s4 /\ irq_level s4 = true /\ cm_irq s4 = irq_level s4.
Proof.
  intros s1 s2 s3 s4.
  assert (R : cmos_run (CmosInit true) ((([] ++ (CmosWrite (CmosInit true) kCmosIndexPort kRegStatusB 0).2) ++ (CmosWrite s1 kCmosDataPort 0x42 0).2)
                ++ (CmosPoll s2 1 0).2 ++ (CmosPoll s3 2000 0).2) s4).
  { rewrite app_assoc. eapply run_cons; [eapply run_cons; [eapply run_cons; [eapply run_cons; [apply run_nil|]|]|]|].
    - apply cmos_write. by vm_compute.
    - apply cmos_write. by vm_compute.
    - apply cmos_poll.
    - apply cmos_poll. }
  assert (E : (([] ++ (CmosWrite (CmosInit true) kCmosIndexPort kRegStatusB 0).2) ++ (CmosWrite s1 kCmosDataPort 0x42 0).2)
                ++ (CmosPoll s2 1 0).2 ++ (CmosPoll s3 2000 0).2 = [(kCmosIrqLine, true)]) by (vm_compute; reflexivity).
  rewrite E in R. split; [exact R|]. split; [vm_compute; reflexivity|].
  exact (proj1 (cmos_irq_exact [(kCmosIrqLine, true)] s4 R)).
Defined.

(** ** The periodic interrupt *)

Definition period_ok (a : Z) : bool :=
  let t := arr kRtcPeriodTicks a in let p := if t =? 0 then 0 else t * 1000000 / 32768 in (0 <=? p) && (p <=? 500000).

Lemma period_bound st : 0 <= CmosPeriodUs st <= 500000.
Proof.
  unfold CmosPeriodUs. assert (RA : 0 <= reg st kRegStatusA .& kStatusARate < 16).
  { change kStatusARate with (Z.ones 4). rewrite Z.land_ones by lia. apply Z.mod_pos_bound. lia. }
  pose proof (below 16 period_ok eq_refl _ RA) as C. unfold period_ok in C. cbv zeta in C |- *. lia.
Qed.

(** The line's update and the seconds' part of a poll leave the periodic flag and
    its deadline alone. *)
Lemma sync_keeps_pf s : length (cm_regs s) = 128%nat ->
  tst (reg (CmosSyncIrq s).1 kRegStatusC) kStatusCPf = tst (reg s kRegStatusC) kStatusCPf /\
  cm_periodic_at (CmosSyncIrq s).1 = cm_periodic_at s.
Proof.
  intros Hl. unfold CmosSyncIrq. set (c := if irq_level s then _ else _).
  assert (tst (reg (set_reg s kRegStatusC c) kRegStatusC) kStatusCPf = tst (reg s kRegStatusC) kStatusCPf).
  { rewrite reg_set_eq by (done || lia). subst c. destruct (irq_level s); [by apply tst_lor_other|by apply tst_ldiff_other]. }
  by destruct (eqb _ _).
Qed.

Lemma second_keeps_pf s now rt : length (cm_regs s) = 128%nat ->
  tst (reg (poll_second s now rt) kRegStatusC) kStatusCPf = tst (reg s kRegStatusC) kStatusCPf /\
  cm_periodic_at (poll_second s now rt) = cm_periodic_at s /\ reg (poll_second s now rt) kRegStatusB = reg s kRegStatusB.
Proof.
  intros Hl. unfold poll_second, set_flag. destruct (_ =? 0); [done|]. destruct (_ <=? _); [|done].
  destruct (CmosAlarmDue _ _); (split; [|split; [done|]]); rewrite ?reg_set_eq by (rewrite ?len_set; done || lia);
    rewrite ?tst_lor_other by done; rewrite ?reg_set_eq by (rewrite ?len_set; done || lia); rewrite ?tst_lor_other, ?reg_set_ne by (done || lia); done.
Qed.

Lemma flag_set s f m : length (cm_regs s) = 128%nat -> f .& m <> 0 -> tst (reg (set_flag s f) kRegStatusC) m = true.
Proof.
  intros Hl Hf. unfold set_flag. rewrite reg_set_eq by (done || (unfold kRegStatusC; lia)). unfold tst. apply negb_true_iff, Z.eqb_neq.
  rewrite Z.land_lor_distr_l. intros E. by apply Z.lor_eq_0_iff in E as [_ E].
Qed.

(** The periodic interrupt comes: with it enabled and armed, a poll before the deadline changes
    nothing of it, and the first poll at or after the deadline sets its flag, raises the line and
    arms the next period. *)
Theorem cmos_periodic st now rt : cmos_ok st -> 0 <= now -> now + 1000000 < 2 ^ 64 ->
  tst (reg st kRegStatusB) kStatusBPie = true -> CmosPeriodUs st <> 0 -> cm_periodic_at st <> 0 ->
  let st' := (CmosPoll st now rt).1 in
  if now <? cm_periodic_at st then tst (reg st' kRegStatusC) kStatusCPf = tst (reg st kRegStatusC) kStatusCPf /\ cm_periodic_at st' = cm_periodic_at st
  else tst (reg st' kRegStatusC) kStatusCPf = true /\ cm_irq st' = true /\ cm_periodic_at st' = now + CmosPeriodUs st.
Proof.
  intros Hok Hn Hb HP HT HA. cbv zeta. unfold CmosPoll. pose proof (period_bound st) as PB. pose proof (co_len _ Hok) as Hl.
  pose proof (poll_base st now rt) as PF. cbv beta zeta in PF. injection PF as F1 F2 F3 F4.
  set (s1 := poll_periodic st now) in *. assert (L1 : length (cm_regs s1) = 128%nat).
  { unfold s1, poll_periodic, set_flag. repeat case_match; rewrite ?len_set; done. }
  destruct (second_keeps_pf s1 now rt L1) as (P3 & P4 & P5). set (s2 := poll_second s1 now rt) in *.
  destruct (sync_keeps_pf s2 ltac:(by rewrite F1)) as [L2 L3]. rewrite L2, L3, P3, P4.
  assert (E1 : s1 = if cm_periodic_at st <=? now then set_flag (st <| cm_periodic_at := u64 (now + CmosPeriodUs st) |>) kStatusCPf else st).
  { unfold s1, poll_periodic. by rewrite HP, (proj2 (Z.eqb_neq _ _) HT), (proj2 (Z.eqb_neq _ _) HA). }
  clearbody s1. destruct (Z.ltb_spec now (cm_periodic_at st)); [by rewrite (proj2 (Z.leb_gt _ _)) in E1 by lia; subst s1|].
  rewrite (proj2 (Z.leb_le _ _)) in E1 by lia.
  assert (TP : tst (reg s1 kRegStatusC) kStatusCPf = true) by (rewrite E1; by apply flag_set). split; [exact TP|]. split.
  - pose proof (sync_ok s2) as S. rewrite F1, F2, F3 in S. specialize (S Hl (co_index _ Hok) (co_wired _ Hok)).
    destruct (CmosSyncIrq s2) as [st2 e2]. destruct S as (_ & S2 & _). cbn [fst]. rewrite S2. unfold irq_level. rewrite P3, P5, TP.
    subst s1. unfold set_flag. rewrite reg_set_ne by (done || lia). change (reg (_ <| cm_periodic_at := _ |>) kRegStatusB) with (reg st kRegStatusB). by rewrite HP.
  - subst s1. cbn. apply wrap_small. unfold rng. lia.
Qed.

Lemma cmos_periodic_witness :
  let s1 := (CmosWrite (CmosInit true) kCmosIndexPort kRegStatusB 0).1 in
  let s2 := (CmosWrite s1 kCmosDataPort 0x42 0).1 in
  let s3 := (CmosPoll s2 1 0).1 in
  cm_periodic_at s3 = 977 /\ tst (reg (CmosPoll s3 2000 0).1 kRegStatusC) kStatusCPf = true /\ cm_irq (CmosPoll s3 2000 0).1 = true.
Proof.
  intros s1 s2 s3. assert (Hok : cmos_ok s3) by (split; [vm_compute; reflexivity|split; vm_compute; [discriminate|reflexivity]|vm_compute; reflexivity..]).
  split; [vm_compute; reflexivity|].
  pose proof (cmos_periodic s3 2000 0 Hok ltac:(lia) ltac:(lia) ltac:(vm_compute; reflexivity) ltac:(vm_compute; discriminate) ltac:(vm_compute; discriminate)) as H.
  assert (E : (2000 <? cm_periodic_at s3) = false) by (vm_compute; reflexivity). cbv zeta in H. rewrite E in H.
  destruct H as (H1 & H2 & _). split; [exact H1|exact H2].
Defined.

(** ** The memory size *)

(** The two registers of each size register pair together hold the size modulo
    2^16: memory above 1 MiB in KiB, memory above 16 MiB in 64 KiB units. *)
Theorem cmos_memory_size st n rt : 0 <= n ->
  let st := CmosSetMemory st n in
  read_register st kRegMemExtmemLow rt + 256 * read_register st kRegMemExtmemHigh rt = Z.max 0 (n - 2 ^ 20) / 1024 mod 2 ^ 16 /\
  read_register st kRegMemExtmem2Low rt + 256 * read_register st kRegMemExtmem2High rt = Z.max 0 (n - 2 ^ 24) / 65536 mod 2 ^ 16.
Proof.
  intros Hn. cbv zeta. set (kib := if 2 ^ 20 <? n then (n - 2 ^ 20) / 1024 else 0). set (units := if 2 ^ 24 <? n then (n - 2 ^ 24) / 65536 else 0).
  assert (W : forall x, u8 (x .>> 0) + 256 * u8 (x .>> 8) = x mod 2 ^ 16).
  { intros x. unfold u8, wrap. rewrite Z.shiftr_0_r, Z.shiftr_div_pow2 by lia. change (2 ^ 16) with (2 ^ 8 * 2 ^ 8). rewrite Z.rem_mul_r by lia. lia. }
  change (read_register (CmosSetMemory st n) kRegMemExtmemLow rt) with (u8 (kib .>> 0)).
  change (read_register (CmosSetMemory st n) kRegMemExtmemHigh rt) with (u8 (kib .>> 8)).
  change (read_register (CmosSetMemory st n) kRegMemExtmem2Low rt) with (u8 (units .>> 0)).
  change (read_register (CmosSetMemory st n) kRegMemExtmem2High rt) with (u8 (units .>> 8)). rewrite !W. subst kib units.
  split; (destruct (_ <? _) eqn:E; [rewrite Z.max_r by lia; done|rewrite Z.max_l by lia; done]).
Qed.

(** ** Setting the clock *)

(** Selecting a register and writing it through the two ports. *)
Definition write_register (st : CmosState) (r v now : Z) : CmosState :=
  (CmosWrite (CmosWrite st kCmosIndexPort r now).1 kCmosDataPort v now).1.

(** A guest that sets the whole clock, century first and seconds last. *)
Definition set_clock (st : CmosState) (c y m d h mi s now : Z) : CmosState :=
  let enc v := if tst (reg st kRegStatusB) kStatusBBin then v else ToBcd v in
  fold_left (fun st '(r, v) => write_register st r (enc v) now)
    [(kRegCentury, c); (kRegYear, y); (kRegMonth, m); (kRegDayOfMonth, d); (kRegHours, h); (kRegMinutes, mi); (kRegSeconds, s)] st.

Lemma write_selected st r v now : 0 <= r < 128 ->
  write_register st r v now = (CmosWriteReg (st <| cm_nmi_off := (r .>> 7) .& 1 |> <| cm_index := r |>) r (u8 v) now).1.
Proof.
  intros Hr. unfold write_register, CmosWrite at 2. rewrite Z.eqb_refl. assert (E : r .& 0x7f = r).
  { change 0x7f with (Z.ones 7). rewrite Z.land_ones by lia. by apply Z.mod_small. }
  rewrite E. unfold CmosWrite. by change (kCmosDataPort =? kCmosIndexPort) with false.
Qed.

Lemma write_regs st r v now : 0 <= r < 128 -> r <> kRegStatusB -> r <> kRegStatusC ->
  cm_regs (write_register st r v now) = arr_set (cm_regs st) r (u8 v).
Proof.
  intros Hr Hb Hc. rewrite write_selected by done. unfold CmosWriteReg, CmosWriteTime. destruct (IsTimeReg r); [done|].
  rewrite (proj2 (Z.eqb_neq _ _) Hb), (proj2 (Z.eqb_neq _ _) Hc). done.
Qed.

Lemma write_reg_eq st r v now : length (cm_regs st) = 128%nat -> 0 <= r < 128 -> r <> kRegStatusB -> r <> kRegStatusC ->
  reg (write_register st r v now) r = u8 v.
Proof. intros Hl Hr Hb Hc. unfold reg. rewrite write_regs by done. apply arr_set_eq. lia. Qed.

Lemma write_reg_ne st r q v now : 0 <= r < 128 -> 0 <= q -> r <> kRegStatusB -> r <> kRegStatusC -> r <> q ->
  reg (write_register st r v now) q = reg st q.
Proof. intros Hr Hq Hb Hc Hn. unfold reg. rewrite write_regs by done. apply arr_set_ne; lia. Qed.

Lemma write_len st r v now : 0 <= r < 128 -> r <> kRegStatusB -> r <> kRegStatusC ->
  length (cm_regs (write_register st r v now)) = length (cm_regs st).
Proof. intros Hr Hb Hc. rewrite write_regs by done. apply length_arr_set. Qed.

Lemma enc_byte (bin : bool) v : 0 <= v < 100 -> (if bin then u8 (if bin then v else ToBcd v) else FromBcd (u8 (if bin then v else ToBcd v))) = v.
Proof. intros Hv. destruct bin; [apply wrap_small; unfold rng; lia|by apply bcd_byte]. Qed.

Lemma hour_byte (bin : bool) v : 0 <= v < 24 ->
  (if bin then u8 (if bin then v else ToBcd v) .& 0x7f else FromBcd (u8 (if bin then v else ToBcd v) .& 0x7f)) = v.
Proof.
  intros Hv. apply Z.eqb_eq.
  apply (below 24 (fun v => (if bin then u8 (if bin then v else ToBcd v) .& 0x7f else FromBcd (u8 (if bin then v else ToBcd v) .& 0x7f)) =? v)); [|done].
  by destruct bin.
Qed.

(** The last register written biases the clock to the registers. *)
Lemma write_seconds st v now rt (st' := write_register st kRegSeconds v now) :
  CmosEpoch st' rt = Z.quot rt 1000000 + (CmosShadowEpoch st' - Z.quot now 1000000).
Proof.
  subst st'. rewrite write_selected by done. unfold CmosWriteReg. change (IsTimeReg kRegSeconds) with true. cbv iota.
  unfold CmosWriteTime, CmosEpoch. cbn [fst]. set (q := set_reg _ _ _). clearbody q. f_equal.
Qed.

Ltac reg_side := first [discriminate | (split; [discriminate|reflexivity]) | (rewrite ?write_len by reg_side; assumption)].

(** What setting the clock does: after a guest in 24-hour format writes century, year, month, day,
    hour, minute and second, the chip's second count is that time of day of a date 1900 years later,
    and one month later still from March on, plus the difference of the two host clocks. *)
Theorem cmos_set_clock st c y m d h mi s now rt : length (cm_regs st) = 128%nat -> tst (reg st kRegStatusB) kStatusB24Hour = true ->
  0 <= c < 100 -> 0 <= y < 100 -> 1 <= m <= 12 -> 1 <= d <= 31 -> 0 <= h < 24 -> 0 <= mi < 60 -> 0 <= s < 60 ->
  let Y := 1900 + (100 * c + y) in
  CmosEpoch (set_clock st c y m d h mi s now) rt =
    (day_number Y m d + (if 2 <? m then if m =? 12 then 31 else month_length Y m else 0)) * 86400 + h * 3600 + mi * 60 + s
    + (Z.quot rt 1000000 - Z.quot now 1000000).
Proof.
  intros Hl H24 Hc Hy Hm Hd Hh Hmi Hs. cbv zeta. unfold set_clock. cbn [fold_left].
  set (bin := tst (reg st kRegStatusB) kStatusBBin). set (enc := fun v => if bin then v else ToBcd v).
  match goal with |- context [write_register ?q kRegSeconds _ now] => set (s6 := q) end.
  rewrite write_seconds. change (if bin then s else ToBcd s) with (enc s). set (s7 := write_register s6 kRegSeconds (enc s) now).
  assert (R : reg s7 kRegStatusB = reg st kRegStatusB /\ reg s7 kRegSeconds = u8 (enc s) /\ reg s7 kRegMinutes = u8 (enc mi) /\ reg s7 kRegHours = u8 (enc h) /\
    reg s7 kRegDayOfMonth = u8 (enc d) /\ reg s7 kRegMonth = u8 (enc m) /\ reg s7 kRegYear = u8 (enc y) /\ reg s7 kRegCentury = u8 (enc c)).
  { clear -Hl. unfold s7, s6. split_and!; rewrite ?write_reg_ne by reg_side; rewrite ?write_reg_eq by reg_side; reflexivity. }
  clearbody s7. destruct R as (R1 & R2 & R3 & R4 & R5 & R6 & R7 & R8). unfold CmosShadowEpoch. rewrite R1, R2, R3, R4, R5, R6, R7, R8, H24. fold bin.
  cbn [negb andb]. cbv zeta. unfold enc. rewrite hour_byte by done. rewrite !enc_byte by lia. rewrite days_month_late by done.
  replace (1900 + (y + 100 * c)) with (1900 + (100 * c + y)) by lia. lia.
Qed.

(** 15 March 2024, 10:30:00, set at the epoch of both host clocks: the guest reads
    back 15 April. *)
Lemma cmos_set_clock_witness :
  let st := set_clock (CmosInit true) 20 24 3 15 10 30 0 0 in
  CmosEpoch st 0 = (day_number 3924 3 15 + 31) * 86400 + 10 * 3600 + 30 * 60 + 0 /\
  read_register st kRegMonth 0 = 0x04 /\ read_register st kRegDayOfMonth 0 = 0x15 /\ read_register st kRegYear 0 = 0x24.
Proof.
  intros st. split; [|split; [|split]; vm_compute; reflexivity].
  refine (eq_trans (cmos_set_clock (CmosInit true) 20 24 3 15 10 30 0 0 0 _ _ _ _ _ _ _ _ _) _); [reflexivity|vm_compute; reflexivity|lia..|vm_compute; reflexivity].
Defined.
